(* ===== verification/_CoqProject ===== *)
-Q . S2P
Prelude.v
Effects.v
Time.v
Checksum.v
Wire.v
WireFacts.v
Scheduler.v
Ipv4Wire.v
Reassembly.v
ReassemblyFacts.v
FragmentFacts.v
Maps.v
Ports.v
TcpState.v
Icmp64.v
Bindings.v
BindingsInv.v
BindingsOps.v
BindingsFacts.v
Nat64.v
Headers.v
Quotes.v
Observations.v
Translate.v
TranslateFacts.v
Translation.v
Selection.v
SelectionFacts.v
DnsWire.v
DnsFacts.v
DnsRoundtrip.v
DnsEncode.v
DnsFormat.v
TcpFrames.v
Ipv4Host.v
DhcpWire.v
Stateful.v
Dhcp.v
DhcpInv.v
DhcpFacts.v
Dhcp6Wire.v
Pd.v
PdInv.v
PdFacts.v
Ordered.v
Identity.v
IdentityFacts.v
Text.v
Lexis.v
Journal.v
JournalFacts.v
Names.v
Tsr.v
Cache.v
CacheFacts.v
MdnsWire.v
Query.v
QueryFacts.v
SrpWire.v
Srp.v
SrpFacts.v
SrpJournal.v
SrpHistory.v
SrpVerify.v
RouterState.v
Routing.v
Delegated.v
Neighbors.v
Announce.v
RouterCore.v
RouterInv.v
RouterParts.v
RouterNeighbors.v
RouterReceive.v
RouterRuns.v
RouterFacts.v
ForwardFacts.v
AnnounceFacts.v
Restart.v
RestartFacts.v
