(* ===== verification/Prelude.v ===== *)
(** * An IPv6 stub router: its formats, tables and translator

    This library models the Rust program under [src/src/], a userspace router between
    one IPv6 stub link and one infrastructure link (draft-ietf-snac-simple), and proves
    what makes its core correct.  Definitions follow the source function by function and
    keep its names; where one Rust module defines a name twice the model adds a prefix
    ([arp_parse] for [Arp::parse], [set_source_port] for a stretch of a long function).

    ** How code becomes definitions

    - Integers are [Z], at their width: [is_u8] to [is_u128] are the types; wrapping
      operations take the remainder, saturating ones are [sat64], [sat32], [sat_sub], and
      plain [+ - *], which panic on overflow in checked builds, are [add_chk] and
      [sub_chk] wherever the source does not exclude the overflow by itself.
    - Bytes are [list Z]; indexing, slicing and [copy_from_slice] are [idx] (written
      [b.[i]]), [slice], [slice_from] and [copy_at], which give [Panic] out of range.
    - [Result] and panics are [outcome]: [Ok], [Err] with the error kind, [Panic].  That
      a function does not panic, [safe], is thus a theorem about every index, slice,
      [unwrap] and subtraction of the code that was translated.
    - [&mut self] methods are in the monad [M S E] of Effects: they return an outcome and
      the state, and a failing method leaves the state as it was at the failure.
    - [BTreeMap] is stdpp's [gmap]; where the source iterates in order, the model sorts.
    - [RandomSource] is a type class whose only method the environment supplies;
      theorems about port allocation, delays and jitter hold for every source.
    - Loops over packets are fixpoints with fuel equal to the length of the buffer: each
      round consumes at least one byte, and the safety theorems show, by giving [Panic]
      to exhausted fuel, that the fuel suffices.

    ** Files

    Foundations: Prelude (outcomes, bytes, integers, the hint database [snac], lemmas on
    lists), Effects (the monad, its triples), Stateful (methods that draw from a random
    source, the rules [gives_...] that follow their outcomes, histories of events), Maps
    (counts and sums over finite maps), Ordered (iteration in key order), Checksum (the
    Internet checksum and when it verifies).

    Time ([time.rs]): [ManualClock], [Lifetime], [RandomSource::sample] as [sample_with],
    the class [Sampler] that clients use, and its instance for [ScriptedRandom].

    Wire, WireFacts ([wire.rs]): [envelope], [transport], [decode_nd], [hop_options],
    prefixes, the PIO, RIO and PREF64 options, [Advertisement::encode].

    Scheduler ([scheduler.rs]): the Router Advertisement scheduler as a state machine.

    Ipv4Wire ([ipv4/wire.rs]): IPv4, ARP and ICMPv4 formats.

    Ipv4Host ([ipv4/mod.rs]): the IPv4 side of the infrastructure link, its
    routes, its neighbor cache with waiting packets, and ARP.

    DhcpWire ([ipv4/dhcp/wire.rs]): DHCPv4 replies and the leases in them.
    Dhcp, DhcpInv, DhcpFacts ([ipv4/dhcp/mod.rs], and [sync_ipv4_configuration] of
    [runtime.rs]): the DHCPv4 client with address probing and link-local fallback; the
    stretches of [poll] are one definition each.  It calls DhcpWire for replies, Ipv4Wire
    for what it sends, and its configuration goes to Ipv4Host.

    Reassembly, ReassemblyFacts, FragmentFacts ([ip_reassembly.rs]): the reassembler and
    the fragmenter of both families.

    Ports ([service_io/ports.rs]): the registry of transport ports, with leases.

    TcpState ([nat64/tcp.rs]), Icmp64 ([nat64/icmp.rs]): the session state machine and
    the mapping between ICMP error classes.

    Bindings ([nat64/bindings.rs], [bindings/tcp.rs], [bindings/icmp.rs]): the binding
    information base. BindingsInv states its invariant, BindingsOps and BindingsFacts
    show that every operation keeps it, Nat64 states the properties.

    Observations ([nat64/mod.rs]): NAT64 prefixes learned from advertisements.

    Headers ([translate/headers.rs]), Quotes ([translate/errors.rs] and the
    helpers of [translate.rs]): header walks, quoted packets, checksum updates, RFC 4884
    extensions.

    Translate, TranslateFacts, Translation ([nat64/translate.rs]): the translator.
    Its handlers call Bindings for the tables, Quotes and Headers for packets, Ipv4Wire
    and Wire for formats, Reassembly's [fragment] for packets over the MTU.  [handle]
    puts them together as events, [tr_reachable] is every history of them.

    Selection, SelectionFacts ([nat64/selection.rs]): the selector of the NAT64 prefix, its
    policy and promises, over the observations.

    DnsWire ([dns/wire.rs]): names, records, messages, the parser as a monad over its
    position and known labels, the writer with its dictionary.  DnsFacts: the parser is
    safe and what it gives is well formed.  DnsRoundtrip: what is parsed where, DnsEncode:
    what is written where, DnsFormat: the theorems.
    TcpFrames ([dns/wire.rs]): the framing of DNS over TCP.

    Dhcp6Wire ([wire/dhcpv6.rs]): DHCPv6 messages and options.
    Pd, PdInv, PdFacts ([PdClient] of [router/pd.rs]): the prefix delegation client.

    Identity, IdentityFacts ([Identity] and the stores of [persist.rs]): the router's site
    prefix, interface identifiers, hardware addresses and DUID; [StateStore] is a class,
    [StoreLaws] what it promises, [MemoryStore] and each part of a journal ([part_laws])
    instances.

    Text, Journal, JournalFacts ([persist.rs], [persist/journal.rs]): the replacement of a
    file's contents over a class of file operations, the journal in which two owners keep
    their state under one checksum, the table of records.

    Names ([dns/wire.rs]): the order of names and the equality of records, case aside.
    Tsr, Cache, CacheFacts ([mdns/tsr.rs], [mdns/cache.rs]): the option that tells when a
    record was registered, and the cache of multicast DNS: receiving, goodbyes, eviction,
    lookups.  Its events and histories are in CacheFacts.
    MdnsWire ([mdns/wire.rs]): the datagrams of multicast DNS.
    Query, QueryFacts ([mdns/query.rs]): the querier, its questions and batches, the rates
    at which it takes datagrams, and the cache that it feeds.

    SrpWire ([srp/wire.rs]): keys and the validator of updates; the signature algorithms
    and the hash are the class [Crypto].  Srp ([srp/registry.rs] and its [journal.rs]): the
    registry, its leases, limits and bytes.  SrpFacts and SrpJournal follow its operations;
    SrpHistory has the theorems over [srp_reachable], every history of updates, time,
    policies and restarts.  SrpVerify: what the validator accepts, and both together.

    The router ([router/]) is a record of tables, [Router], and methods over it and a
    random source:
    - RouterState: keys, data, the table of on-link prefixes ([on_link.rs]), the frames for
      the IPv4 side ([io/families.rs]), [Router::new].
    - Routing ([routes.rs], [budget.rs], the lookups of [forward.rs]): usable routes, next
      hops, what is exported of them.
    - Delegated ([sync_pd] of [pd.rs], [attachment.rs], [set_link] of [restart.rs]).
    - Neighbors ([nd.rs], [owned.rs], [forward.rs]): the neighbor cache, the router's own
      addresses and their probing, forwarding and ICMPv6 errors.
    - Announce ([snapshot] of [mod.rs], [services.rs]): what advertisements say.
    - RouterCore ([mod.rs], [lifecycle.rs], [receive_frame]): [receive], [tick],
      [transmitted], [shutdown], [next_deadline].
    It calls Scheduler for each link, Selection, Pd and Wire through [with_scheduler],
    [with_nat64], [with_pd], which run a method of a part of the state.  RouterInv states
    the invariant [router_wf] and what one event may change, [evolves]; RouterParts,
    RouterNeighbors, RouterReceive and RouterRuns follow every method; RouterRuns also puts
    the calls of the driver ([runtime.rs]) together as events, [handle].  RouterFacts,
    ForwardFacts and AnnounceFacts hold the theorems.

    Lexis (the standard library's text that [restart.rs] relies on): printing and parsing of
    numbers, hexadecimal and IPv6 addresses, lines, words, splitting.  Restart, RestartFacts
    ([checkpoint] and [restore] of [router/restart.rs], [CheckpointWriter] of
    [persist.rs]): what is kept of the router over a restart, line by line; SHA-1 is a
    parameter.

    ** What the theorems show

    - Safety: no handler of the router or the translator, no operation of its tables, no
      parser and no step of a client, the reassembler or the scheduler panics, over every
      history and all input bytes ([router_safe], [translator_safe], [bib_invariant],
      [reassembler_bounded], [dns_parse_safe], [selector_invariant], [ipv4_host_safe],
      [dhcp_client_safe], [pd_client_safe], [ra_scheduler_progress]).
    - Invariants and bounds: consistency and limits of the tables, of the reassembler and
      of observations; the rates of errors; the budget of routes; translated MTUs.
    - The router: an address is used a second after it was announced, the lifecycle goes
      one way, nothing crosses that must not, the best route is chosen, every route offered
      is backed, a router that stops withdraws exactly what it announced
      ([address_probed], [lifecycle_one_way], [forward_contained], [forward_delivers],
      [next_hop_best], [stub_routes_backed], [silent_snapshot]).
    - DHCP: before an address is used, its three probes and its announcement are among the
      frames sent, at their distances ([dhcp_address_probed]); what a server may hand out
      fits every interface, nothing expired is used; and one history in which the client
      loses its lease and does not ask again ([dhcp_lost_lease]).  Prefix delegation: replies are settled, waits
      doubled, the longest preferred lease selected.
    - Function: exact expiry, stable mappings, filtering, port allocation, TCP admission
      and states, the fields and checksums of a translated packet, membership of
      prefixes, lifetimes, the spacing of advertisements.
    - Refinement: announcements of prefixes are backed and recorded as promised
      ([selection_justified], [selection_recordable]); frames are those of the stream.
    - Equivalence: incremental checksum updates against recomputing, two header walks
      against each other, sampling against the uniform distribution.
    - Round trips: every format that is both written and read, the stored identity and the
      registry too; fragmentation against reassembly in any order of arrival.
    - Durable state: a file is replaced whole or not at all ([atomic_replace_atomic]), one
      owner's save keeps the other's state ([journal_save_atomic]), an update is granted
      only when a restart finds it ([srp_apply_durable], [srp_restart]), the identity is
      kept ([identity_kept]); all of stores whose save may fail ([StoreLaws]).  Whatever bytes
      are found, the router that is restored is well formed and stays so ([restore_safe]);
      a checkpoint's identity and lines are read back ([checkpoint_opens]) and the writer
      keeps the store current ([writer_current]).
    - Service registration: names are first come, first served, the limits hold, and what
      the network sends is signed by the key it names ([srp_first_come],
      [srp_registry_invariant], [srp_verify_sound], [srp_network_update]).
    - Multicast DNS: the cache is bounded, counts exactly and gives each record for its
      lifetime ([cache_invariant], [cache_remembers]); datagrams are read back; the querier
      stays within its limits, and a poll offers what is due with what is known
      ([querier_safe], [poll_batch], [admission_bounded]).  The shared budget of four MiB
      is kept but for one record, which can exceed it ([mdns_budget_overrun]).
    - Termination: eviction and the writing of a file ([eviction_terminates],
      [atomic_replace_atomic]); other loops by fuel that theorems show to be enough.

    ** Bounds

    Times are milliseconds in [u64]; theorems that need the clock not to saturate say so
    with an upper bound on it ([in_time]: the largest time less the longest wait).  The
    limits in the statements (4096 bindings, 8192 sessions, 64 reassembly contexts, 4 MiB,
    32 errors a second, 32 prefixes, 8 domains, 256 neighbors of a link, 64 waiting
    packets, 16 retired prefixes) are the constants of the source.

    ** Not modelled

    The runtime loop, packet capture and operating
    system queries; the adapters of [service_io/] around smoltcp and rustls; the NAT64
    configuration file.  The publisher of multicast DNS, the DNS service, its
    resolver, the SRP service and the discovery proxy are not modelled; they exchange the
    messages, and use the cache and the registry, that are.  Signature algorithms, SHA-1
    and SHA-256 are parameters. *)

From stdpp Require Export base tactics numbers list gmap sorting option.
From Stdlib Require Export ZArith Lia.
#[global] Open Scope Z_scope.

Create HintDb snac discriminated.

(** ** Outcomes

    A Rust call returns [Ok], returns [Err], or panics (an index out of range,
    [unwrap] on [None], an arithmetic overflow in a checked build).  [Panic] is a
    value of the model, so that the absence of panics is a theorem. *)

Inductive outcome (E A : Type) : Type :=
| Ok (a : A)
| Err (e : E)
| Panic.
Arguments Ok {E A} _.
Arguments Err {E A} _.
Arguments Panic {E A}.

#[global] Instance outcome_ret E : MRet (outcome E) := fun A => Ok.
#[global] Instance outcome_bind E : MBind (outcome E) := fun A B f m =>
  match m with Ok a => f a | Err e => Err e | Panic => Panic end.
#[global] Instance outcome_fmap E : FMap (outcome E) := fun A B f m =>
  match m with Ok a => Ok (f a) | Err e => Err e | Panic => Panic end.

(** [if c { return Err(e) } k] *)
Notation "'reject_if' c 'with' e ; k" := (if c then Err e else k)
  (at level 10, c at level 100, e at level 100, k at level 200,
   format "'reject_if'  c  'with'  e ;  '//' k").

(** [o.ok_or(e)?], [r.map_err(f)?] and [o.unwrap()]. *)
Definition ok_or {E A} (o : option A) (e : E) : outcome E A :=
  match o with Some a => Ok a | None => Err e end.
Definition map_err {E F A} (f : E -> F) (m : outcome E A) : outcome F A :=
  match m with Ok a => Ok a | Err e => Err (f e) | Panic => Panic end.
Definition unwrap {E A} (o : option A) : outcome E A :=
  match o with Some a => Ok a | None => Panic end.
Definition is_ok {E A} (m : outcome E A) : bool :=
  match m with Ok _ => true | _ => false end.

(** The [std::io::ErrorKind]s the program builds; messages are static text. *)
Inductive io_error := InvalidData | WouldBlock | InvalidInput | Interrupted | WriteZero | OtherError.
#[global] Instance io_error_eq_dec : EqDecision io_error.
Proof. solve_decision. Defined.

(** ** Machine integers

    An unsigned w-bit integer is a [Z] in [0, 2^w). *)

Definition u8_max := 255.
Definition u16_max := 65535.
Definition u32_max := 4294967295.
Definition u64_max := 18446744073709551615.
Definition u128_max := 340282366920938463463374607431768211455.

Definition is_u8 (x : Z) : Prop := 0 <= x <= u8_max.
Definition is_u16 (x : Z) : Prop := 0 <= x <= u16_max.
Definition is_u32 (x : Z) : Prop := 0 <= x <= u32_max.
Definition is_u64 (x : Z) : Prop := 0 <= x <= u64_max.
Definition is_u128 (x : Z) : Prop := 0 <= x <= u128_max.

(** [saturating_add], [saturating_sub], and the checked [+] and [-] of a build
    with overflow checks. *)
Definition sat_add (m a b : Z) : Z := Z.min (a + b) m.
Definition sat_sub (a b : Z) : Z := Z.max (a - b) 0.
Definition sat64 := sat_add u64_max.
Definition sat32 := sat_add u32_max.
Definition add_chk {E} (m a b : Z) : outcome E Z :=
  if a + b <=? m then Ok (a + b) else Panic.
Definition sub_chk {E} (a b : Z) : outcome E Z :=
  if b <=? a then Ok (a - b) else Panic.

(** [b[i]] as a number: [true as usize]. *)
Definition of_bool (b : bool) : Z := if b then 1 else 0.

(** ** Byte strings *)

Abbreviation bytes := (list Z) (only parsing).
Definition is_bytes (b : bytes) : Prop := Forall is_u8 b.
Definition len {A} (b : list A) : Z := Z.of_nat (length b).
Definition zeros (n : Z) : bytes := replicate (Z.to_nat n) 0.

(** [b[i]] *)
Definition idx {E A} (b : list A) (i : Z) : outcome E A :=
  if i <? 0 then Panic else
  match b !! Z.to_nat i with Some x => Ok x | None => Panic end.
Notation "b .[ i ]" := (idx b i) (at level 1, left associativity, format "b .[ i ]").

(** [b.get(lo..hi)], [&b[lo..hi]] and [&b[lo..]] *)
Definition sub (b : bytes) (lo hi : Z) : bytes :=
  take (Z.to_nat (hi - lo)) (drop (Z.to_nat lo) b).
Definition get_range (b : bytes) (lo hi : Z) : option bytes :=
  if (0 <=? lo) && (lo <=? hi) && (hi <=? len b) then Some (sub b lo hi) else None.
Definition slice {E} (b : bytes) (lo hi : Z) : outcome E bytes := unwrap (get_range b lo hi).
Definition slice_from {E} (b : bytes) (lo : Z) : outcome E bytes := slice b lo (len b).

(** [b[lo..lo + src.len()].copy_from_slice(src)] and [b[i] = v] *)
Definition put (b : bytes) (lo : Z) (src : bytes) : bytes :=
  take (Z.to_nat lo) b ++ src ++ drop (Z.to_nat (lo + len src)) b.
Definition copy_at {E} (b : bytes) (lo : Z) (src : bytes) : outcome E bytes :=
  if (0 <=? lo) && (lo + len src <=? len b) then Ok (put b lo src) else Panic.

(** [to_be_bytes] and [from_be_bytes] *)
Fixpoint be (n : nat) (x : Z) : bytes :=
  match n with
  | O => []
  | S m => (x / 256 ^ Z.of_nat m) mod 256 :: be m x
  end.
Definition of_be (b : bytes) : Z := foldl (fun acc x => acc * 256 + x) 0 b.
Definition be16 := be 2.
Definition be32 := be 4.
Definition be128 := be 16.
Definition u16be (a b : Z) : Z := a * 256 + b.

(** Equality of byte strings as a test: [a == b] on slices. *)
Fixpoint beq (a b : bytes) : bool :=
  match a, b with
  | [], [] => true
  | x :: a, y :: b => (x =? y) && beq a b
  | _, _ => false
  end.
Definition mem (x : Z) (l : list Z) : bool := existsb (Z.eqb x) l.

(** ** Safety: calls that do not panic *)

Definition safe {E A} (m : outcome E A) : Prop := m <> Panic.

Section outcome_lemmas.
Context {E A B : Type}.
Implicit Types (m : outcome E A) (f : A -> outcome E B).

Lemma safe_Ok (a : A) : safe (Ok (E:=E) a).
Proof. done. Qed.
Lemma safe_Err (e : E) : safe (Err (A:=A) e).
Proof. done. Qed.
Lemma safe_bind m f :
  safe m -> (forall a, m = Ok a -> safe (f a)) -> safe (m ≫= f).
Proof. destruct m; cbn; unfold safe; naive_solver. Qed.
Lemma safe_fmap m (g : A -> B) : safe m -> safe (g <$> m).
Proof. destruct m; cbn; unfold safe; naive_solver. Qed.
Lemma safe_ok_or (o : option A) (e : E) : safe (ok_or o e).
Proof. by destruct o. Qed.
Lemma safe_map_err {F} (g : E -> F) m : safe m -> safe (map_err g m).
Proof. destruct m; cbn; unfold safe; naive_solver. Qed.
Lemma safe_unwrap (o : option A) : is_Some o -> safe (unwrap (E:=E) o).
Proof. by intros [? ->]. Qed.
Lemma safe_add_chk (m a b : Z) : a + b <= m -> safe (add_chk (E:=E) m a b).
Proof. intros. unfold add_chk. destruct (Z.leb_spec (a + b) m); [done | lia]. Qed.
Lemma safe_sub_chk (a b : Z) : b <= a -> safe (sub_chk (E:=E) a b).
Proof. intros. unfold sub_chk. destruct (Z.leb_spec b a); [done | lia]. Qed.

Lemma bind_Ok m f b : m ≫= f = Ok b <-> exists a, m = Ok a /\ f a = Ok b.
Proof. destruct m; cbn; naive_solver. Qed.
Lemma fmap_Ok m (g : A -> B) b : g <$> m = Ok b <-> exists a, m = Ok a /\ g a = b.
Proof. destruct m; cbn; naive_solver. Qed.
Lemma ok_or_Ok (o : option A) (e : E) a : ok_or o e = Ok a <-> o = Some a.
Proof. destruct o; cbn; naive_solver. Qed.
Lemma unwrap_Ok (o : option A) a : unwrap (E:=E) o = Ok a <-> o = Some a.
Proof. destruct o; cbn; naive_solver. Qed.
Lemma map_err_Ok {F} (g : E -> F) m a : map_err g m = Ok a <-> m = Ok a.
Proof. destruct m; cbn; naive_solver. Qed.
End outcome_lemmas.

Lemma add_chk_Ok {E} m a b c : add_chk (E:=E) m a b = Ok c <-> c = a + b /\ a + b <= m.
Proof. unfold add_chk. destruct (Z.leb_spec (a + b) m); naive_solver lia. Qed.
Lemma sub_chk_Ok {E} a b c : sub_chk (E:=E) a b = Ok c <-> c = a - b /\ b <= a.
Proof. unfold sub_chk. destruct (Z.leb_spec b a); naive_solver lia. Qed.

(** ** Lengths and ranges of byte strings *)

Lemma len_nonneg {A} (b : list A) : 0 <= len b.
Proof. unfold len. lia. Qed.
Lemma len_nil {A} : len (@nil A) = 0.
Proof. done. Qed.
Lemma len_cons {A} (x : A) b : len (x :: b) = 1 + len b.
Proof. unfold len. cbn [length]. lia. Qed.
Lemma len_app {A} (a b : list A) : len (a ++ b) = len a + len b.
Proof. unfold len. rewrite length_app. lia. Qed.
Lemma len_zeros n : 0 <= n -> len (zeros n) = n.
Proof. intros. unfold len, zeros. rewrite length_replicate. lia. Qed.
Lemma len_be n x : len (be n x) = Z.of_nat n.
Proof. unfold len. f_equal. induction n; cbn; congruence. Qed.
Lemma len_0 {A} (b : list A) : len b = 0 -> b = [].
Proof. destruct b; [done|]. rewrite len_cons. pose proof (len_nonneg b). lia. Qed.
Lemma len_sub b lo hi : 0 <= lo <= hi -> hi <= len b -> len (sub b lo hi) = hi - lo.
Proof. unfold len, sub. intros. rewrite length_take, length_drop. lia. Qed.
Lemma len_put b lo src : 0 <= lo -> lo + len src <= len b -> len (put b lo src) = len b.
Proof.
  intros. pose proof (len_nonneg src). unfold put. rewrite !len_app.
  unfold len in *. rewrite length_take, length_drop. lia.
Qed.
Lemma len_fmap {A B} (f : A -> B) l : len (f <$> l) = len l.
Proof. unfold len. by rewrite length_fmap. Qed.
Lemma len_map {A B} (f : A -> B) l : len (map f l) = len l.
Proof. exact (len_fmap f l). Qed.
Lemma len_take {A} (l : list A) n : len (take n l) = Z.min (Z.of_nat n) (len l).
Proof. unfold len. rewrite length_take. lia. Qed.
Lemma len_drop {A} (l : list A) n : len (drop n l) = Z.max 0 (len l - Z.of_nat n).
Proof. unfold len. rewrite length_drop. lia. Qed.

Ltac len_simpl :=
  repeat first [ rewrite len_app | rewrite len_cons | rewrite len_nil | rewrite len_be
               | rewrite len_fmap | rewrite len_map | rewrite len_zeros by lia ].
Ltac len_simpl_in H :=
  repeat first [ rewrite len_app in H | rewrite len_cons in H | rewrite len_nil in H
               | rewrite len_be in H | rewrite len_fmap in H | rewrite len_map in H
               | rewrite len_zeros in H by lia ].


Lemma get_range_Some b lo hi s :
  get_range b lo hi = Some s <-> 0 <= lo <= hi /\ hi <= len b /\ s = sub b lo hi.
Proof.
  unfold get_range.
  destruct (Z.leb_spec 0 lo), (Z.leb_spec lo hi), (Z.leb_spec hi (len b));
    cbn; naive_solver lia.
Qed.
Lemma slice_Ok {E} b lo hi s :
  slice (E:=E) b lo hi = Ok s <-> 0 <= lo <= hi /\ hi <= len b /\ s = sub b lo hi.
Proof. unfold slice. rewrite unwrap_Ok. apply get_range_Some. Qed.
Lemma slice_from_Ok {E} b lo s :
  slice_from (E:=E) b lo = Ok s <-> 0 <= lo <= len b /\ s = sub b lo (len b).
Proof. unfold slice_from. rewrite slice_Ok. naive_solver lia. Qed.
Lemma idx_Ok {E A} (b : list A) i x :
  idx (E:=E) b i = Ok x <-> 0 <= i /\ b !! Z.to_nat i = Some x.
Proof.
  unfold idx. destruct (Z.ltb_spec i 0); [naive_solver lia|].
  destruct (b !! Z.to_nat i); naive_solver lia.
Qed.
Lemma idx_Ok_lt {E A} (b : list A) i x : idx (E:=E) b i = Ok x -> 0 <= i < len b.
Proof.
  intros [? Hl]%idx_Ok. apply lookup_lt_Some in Hl. unfold len. lia.
Qed.
Lemma copy_at_Ok {E} b lo src r :
  copy_at (E:=E) b lo src = Ok r <-> 0 <= lo /\ lo + len src <= len b /\ r = put b lo src.
Proof.
  unfold copy_at.
  destruct (Z.leb_spec 0 lo), (Z.leb_spec (lo + len src) (len b)); cbn; naive_solver lia.
Qed.

Lemma safe_idx {E A} (b : list A) i : 0 <= i < len b -> safe (idx (E:=E) b i).
Proof.
  intros. unfold idx. destruct (Z.ltb_spec i 0); [lia|].
  destruct (lookup_lt_is_Some_2 b (Z.to_nat i)) as [x ->]; [|done].
  unfold len in *. lia.
Qed.
Lemma safe_slice {E} b lo hi : 0 <= lo <= hi -> hi <= len b -> safe (slice (E:=E) b lo hi).
Proof.
  intros. unfold slice. apply safe_unwrap. eexists. apply get_range_Some. eauto.
Qed.
Lemma safe_slice_from {E} b lo : 0 <= lo <= len b -> safe (slice_from (E:=E) b lo).
Proof. intros. apply safe_slice; lia. Qed.
Lemma safe_copy_at {E} b lo src :
  0 <= lo -> lo + len src <= len b -> safe (copy_at (E:=E) b lo src).
Proof.
  intros. unfold copy_at.
  destruct (Z.leb_spec 0 lo), (Z.leb_spec (lo + len src) (len b)); cbn; [done|lia..].
Qed.
#[export] Hint Resolve safe_Ok safe_Err safe_ok_or : snac.

(** ** Well-formed byte strings *)

Lemma is_bytes_app a b : is_bytes (a ++ b) <-> is_bytes a /\ is_bytes b.
Proof. apply Forall_app. Qed.
Lemma is_bytes_cons x b : is_bytes (x :: b) <-> is_u8 x /\ is_bytes b.
Proof. apply Forall_cons_iff. Qed.
Lemma is_bytes_sub b lo hi : is_bytes b -> is_bytes (sub b lo hi).
Proof. intros. by apply Forall_take, Forall_drop. Qed.
Lemma is_bytes_put b lo src : is_bytes b -> is_bytes src -> is_bytes (put b lo src).
Proof.
  intros. apply is_bytes_app; split; [by apply Forall_take|].
  apply is_bytes_app; split; [done | by apply Forall_drop].
Qed.
Lemma is_bytes_be n x : is_bytes (be n x).
Proof.
  induction n as [|n IH]; [constructor|]. constructor; [|exact IH].
  pose proof (Z.mod_pos_bound (x / 256 ^ Z.of_nat n) 256). unfold is_u8, u8_max. lia.
Qed.
Lemma is_bytes_zeros n : is_bytes (zeros n).
Proof. apply Forall_replicate. unfold is_u8, u8_max. lia. Qed.
Lemma is_bytes_idx {E} b i x : is_bytes b -> idx (E:=E) b i = Ok x -> is_u8 x.
Proof.
  intros Hb [_ Hl]%idx_Ok. by eapply Forall_lookup_1.
Qed.
#[export] Hint Resolve is_bytes_sub is_bytes_put is_bytes_be is_bytes_zeros : snac.

(** ** Prefixes and suffixes *)

Lemma sub_from b lo : 0 <= lo -> sub b lo (len b) = drop (Z.to_nat lo) b.
Proof. intros. unfold sub. apply take_ge. rewrite length_drop. unfold len. lia. Qed.
Lemma sub_to b hi : sub b 0 hi = take (Z.to_nat hi) b.
Proof. unfold sub. by rewrite drop_0, Z.sub_0_r. Qed.
Lemma sub_all b : sub b 0 (len b) = b.
Proof. by rewrite sub_from, drop_0. Qed.
Lemma sub_app_l a b lo hi : 0 <= lo <= hi -> hi <= len a -> sub (a ++ b) lo hi = sub a lo hi.
Proof.
  unfold sub, len. intros. rewrite drop_app_le by lia. apply take_app_le.
  rewrite length_drop. lia.
Qed.
Lemma sub_app_r a b lo hi :
  len a <= lo -> sub (a ++ b) lo hi = sub b (lo - len a) (hi - len a).
Proof.
  unfold sub, len. intros. rewrite drop_app_ge by lia. do 2 f_equal; lia.
Qed.

(** ** Big-endian integers *)


Lemma of_be_app a b : of_be (a ++ b) = of_be a * 256 ^ len b + of_be b.
Proof.
  unfold of_be. rewrite foldl_app. generalize (foldl (fun acc x => acc * 256 + x) 0 a).
  induction b as [|x b IH]; intros z; cbn [foldl].
  - rewrite len_nil. lia.
  - rewrite IH, (IH (0 * 256 + x)), len_cons, Z.pow_add_r by (pose proof (len_nonneg b); lia).
    lia.
Qed.
Lemma of_be_cons x b : of_be (x :: b) = x * 256 ^ len b + of_be b.
Proof. change (x :: b) with ([x] ++ b). by rewrite of_be_app. Qed.
Lemma of_be_bound b : is_bytes b -> 0 <= of_be b < 256 ^ len b.
Proof.
  induction 1 as [|x b Hx _ IH]; [done|].
  rewrite of_be_cons, len_cons, Z.pow_add_r by (pose proof (len_nonneg b); lia).
  unfold is_u8, u8_max in Hx. nia.
Qed.
Lemma of_be_be n x : of_be (be n x) = x mod 256 ^ Z.of_nat n.
Proof.
  induction n as [|n IH]; [by rewrite Z.mod_1_r|].
  cbn [be]. rewrite of_be_cons, len_be, IH, Nat2Z.inj_succ, Z.pow_succ_r by lia.
  rewrite (Z.mul_comm 256), Z.rem_mul_r by lia. lia.
Qed.
Lemma be_high n k x y : (n <= k)%nat -> be n (x * 256 ^ Z.of_nat k + y) = be n y.
Proof.
  induction n as [|n IH]; intros Hk; [done|]. cbn [be]. f_equal; [|apply IH; lia].
  replace (Z.of_nat k) with (Z.of_nat n + 1 + (Z.of_nat k - Z.of_nat n - 1)) by lia.
  rewrite !Z.pow_add_r by lia.
  replace (x * (256 ^ Z.of_nat n * 256 ^ 1 * 256 ^ (Z.of_nat k - Z.of_nat n - 1)) + y)
    with ((x * 256 ^ (Z.of_nat k - Z.of_nat n - 1) * 256) * 256 ^ Z.of_nat n + y) by ring.
  rewrite Z.div_add_l by lia. rewrite Z.add_comm, Z.mod_add; lia.
Qed.
Lemma be_of_be b : is_bytes b -> be (length b) (of_be b) = b.
Proof.
  induction 1 as [|x b Hx Hb IH]; [done|]. cbn [length be].
  pose proof (of_be_bound b Hb). rewrite of_be_cons. unfold len in *. f_equal.
  - rewrite Z.div_add_l by lia. rewrite Z.div_small by lia.
    unfold is_u8, u8_max in Hx. rewrite Z.mod_small; lia.
  - by rewrite be_high.
Qed.
Lemma of_be_be_small n x : 0 <= x < 256 ^ Z.of_nat n -> of_be (be n x) = x.
Proof. intros. rewrite of_be_be. by apply Z.mod_small. Qed.
Lemma of_be_inj a b : is_bytes a -> is_bytes b -> length a = length b ->
  of_be a = of_be b -> a = b.
Proof.
  intros Ha Hb Hl He. rewrite <-(be_of_be a Ha), <-(be_of_be b Hb). congruence.
Qed.
Lemma be16_u16be a b : is_u8 a -> is_u8 b -> be16 (u16be a b) = [a; b].
Proof.
  intros Ha Hb. apply (be_of_be [a; b]). do 2 (apply is_bytes_cons; split; [done|]). constructor.
Qed.

Lemma be_app m k x : be (m + k) x = be m (x / 256 ^ Z.of_nat k) ++ be k x.
Proof.
  induction m as [|m IH]; [done|]. cbn [be Nat.add app]. rewrite IH. f_equal.
  rewrite Z.div_div, <-Z.pow_add_r by lia. do 3 f_equal. lia.
Qed.
Lemma of_be_zeros n : of_be (zeros n) = 0.
Proof. unfold zeros. generalize (Z.to_nat n). induction n0 as [|m IH]; [done|]. exact IH. Qed.

Lemma u16be_be16 w : is_u16 w ->
  u16be ((w / 256 ^ Z.of_nat 1) mod 256) ((w / 256 ^ Z.of_nat 0) mod 256) = w.
Proof.
  intros. assert (of_be (be 2 w) = w) as H1
    by (apply of_be_be_small; change (256 ^ Z.of_nat 2) with 65536; unfold is_u16, u16_max in *; lia).
  unfold of_be in H1. cbn [be foldl] in H1. unfold u16be. lia.
Qed.

(** ** Reading back what was appended *)

Lemma sub_mid a s c lo hi : lo = len a -> hi = len a + len s -> sub (a ++ s ++ c) lo hi = s.
Proof.
  intros -> ->. rewrite sub_app_r, Z.sub_diag by lia.
  replace (len a + len s - len a) with (len s) by lia.
  rewrite sub_app_l by (pose proof (len_nonneg s); lia). apply sub_all.
Qed.
Lemma slice_mid {E} a s c lo hi :
  lo = len a -> hi = len a + len s -> slice (E:=E) (a ++ s ++ c) lo hi = Ok s.
Proof.
  intros. apply slice_Ok. rewrite (sub_mid a s c) by done. len_simpl.
  pose proof (len_nonneg a). pose proof (len_nonneg s). pose proof (len_nonneg c). naive_solver lia.
Qed.
Lemma slice_from_app {E} a s lo : lo = len a -> slice_from (E:=E) (a ++ s) lo = Ok s.
Proof.
  intros. unfold slice_from. rewrite <-(app_nil_r s) at 1. apply slice_mid; [done|].
  rewrite len_app. lia.
Qed.
Lemma idx_mid {E A} (a : list A) x c i : i = len a -> idx (E:=E) (a ++ x :: c) i = Ok x.
Proof.
  intros ->. apply idx_Ok. split; [apply len_nonneg|]. unfold len. rewrite Nat2Z.id.
  by apply list_lookup_middle.
Qed.
Lemma idx_app_l {E A} (a b : list A) i x : idx (E:=E) a i = Ok x -> idx (E:=E) (a ++ b) i = Ok x.
Proof. rewrite !idx_Ok. intros [? ?]. split; [done|]. by apply lookup_app_l_Some. Qed.
Lemma idx_app_r {E A} (a b : list A) i : len a <= i -> idx (E:=E) (a ++ b) i = idx b (i - len a).
Proof.
  intros Hi. pose proof (len_nonneg a). unfold idx, len in *.
  destruct (Z.ltb_spec i 0), (Z.ltb_spec (i - Z.of_nat (length a)) 0); [lia..|].
  rewrite lookup_app_r by lia. by replace (Z.to_nat i - length a)%nat with (Z.to_nat (i - Z.of_nat (length a))) by lia.
Qed.
Lemma copy_zeros {E} n src :
  0 <= n -> len src <= n -> copy_at (E:=E) (zeros n) 0 src = Ok (src ++ zeros (n - len src)).
Proof.
  intros Hn Hs. apply copy_at_Ok. rewrite len_zeros by done. split_and!; [lia|lia|].
  unfold put. change (Z.to_nat 0) with O. rewrite take_0. cbn [app]. f_equal.
  unfold zeros. rewrite drop_replicate. f_equal.
  pose proof (len_nonneg src). lia.
Qed.

Lemma put_put b lo s t :
  0 <= lo -> lo + len s <= len b -> len s = len t -> put (put b lo s) lo t = put b lo t.
Proof.
  intros Hlo Hb Hs. pose proof (len_nonneg s). unfold put. unfold len in *.
  rewrite take_app_le by (rewrite length_take; lia). rewrite take_take, Nat.min_id. do 2 f_equal.
  rewrite drop_app_ge by (rewrite length_take; lia).
  rewrite drop_app_ge by (rewrite length_take; lia).
  rewrite drop_drop, length_take. f_equal. lia.
Qed.

(** ** Bit operations as arithmetic *)

Lemma testbit_high x n i : 0 <= x < 2 ^ n -> 0 <= n <= i -> Z.testbit x i = false.
Proof. intros. rewrite <-(Z.mod_small x (2 ^ n)) by lia. apply Z.mod_pow2_bits_high. lia. Qed.
Lemma land_shiftl_low a b n : 0 <= n -> 0 <= b < 2 ^ n -> Z.land (Z.shiftl a n) b = 0.
Proof.
  intros. apply Z.bits_inj'. intros i Hi. rewrite Z.land_spec, Z.shiftl_spec, Z.bits_0 by lia.
  destruct (decide (i < n)); [by rewrite Z.testbit_neg_r by lia|].
  rewrite (testbit_high b n i) by lia. apply andb_false_r.
Qed.
Lemma lor_shiftl a b n : 0 <= n -> 0 <= b < 2 ^ n -> Z.lor (Z.shiftl a n) b = a * 2 ^ n + b.
Proof.
  intros. rewrite <-Z.lxor_lor by (by apply land_shiftl_low).
  rewrite <-Z.add_nocarry_lxor by (by apply land_shiftl_low).
  by rewrite Z.shiftl_mul_pow2.
Qed.
Lemma land_ones_mod a n : 0 <= n -> Z.land a (2 ^ n - 1) = a mod 2 ^ n.
Proof. intros. rewrite <-Z.land_ones by lia. f_equal. rewrite Z.ones_equiv. lia. Qed.
Lemma shiftr_div a n : 0 <= n -> Z.shiftr a n = a / 2 ^ n.
Proof. apply Z.shiftr_div_pow2. Qed.

(** ** Tests *)

Lemma beq_eq a b : beq a b = true <-> a = b.
Proof.
  revert b; induction a as [|x a IH]; intros [|y b]; cbn; [naive_solver..|].
  rewrite andb_true_iff, Z.eqb_eq, IH. naive_solver.
Qed.
Lemma beq_refl a : beq a a = true.
Proof. by apply beq_eq. Qed.
Lemma mem_In x l : mem x l = true <-> In x l.
Proof.
  unfold mem. rewrite existsb_exists. split.
  - by intros (y & ? & <-%Z.eqb_eq).
  - intros. exists x. by rewrite Z.eqb_refl.
Qed.

(** ** Automation

    [inv_ok] turns a hypothesis [computation = Ok r] into the facts it needs;
    [safe_step] takes one step of a proof that a computation does not panic;
    [u_lia] is [lia] with the widths unfolded. *)

Ltac unfold_widths :=
  unfold sat64, sat32, sat_add, sat_sub, u16be, is_u8, is_u16, is_u32, is_u64, is_u128 in *;
  unfold u8_max, u16_max, u32_max, u64_max, u128_max in *.
Ltac u_lia := unfold_widths; lia.
(** Arithmetic with quotients and remainders by constants. *)
Ltac div_lia := Z.to_euclidean_division_equations; lia.

Ltac inv_ok_hyp H :=
  lazymatch type of H with
  | _ ≫= _ = Ok _ =>
      let x := fresh "x" in let Hx := fresh "Hx" in
      apply bind_Ok in H as (x & Hx & H); cbv beta in H; inv_ok_hyp Hx; inv_ok_hyp H
  | _ <$> _ = Ok _ =>
      let x := fresh "x" in let Hx := fresh "Hx" in
      apply fmap_Ok in H as (x & Hx & H); inv_ok_hyp Hx
  | (if ?c then Err _ else _) = Ok _ =>
      let Hc := fresh "Hc" in destruct c eqn:Hc; [discriminate H|]; inv_ok_hyp H
  | ok_or _ _ = Ok _ => apply ok_or_Ok in H
  | unwrap _ = Ok _ => apply unwrap_Ok in H
  | map_err _ _ = Ok _ => apply map_err_Ok in H; inv_ok_hyp H
  | slice _ _ _ = Ok _ => apply slice_Ok in H as (? & ? & H)
  | slice_from _ _ = Ok _ => apply slice_from_Ok in H as (? & H)
  | copy_at _ _ _ = Ok _ => apply copy_at_Ok in H as (? & ? & H)
  | add_chk _ _ _ = Ok _ => apply add_chk_Ok in H as (H & ?)
  | sub_chk _ _ = Ok _ => apply sub_chk_Ok in H as (H & ?)
  | Ok _ = Ok _ => injection H as H
  | _ => idtac
  end.

Ltac safe_step :=
  lazymatch goal with
  | |- safe (Ok _) => apply safe_Ok
  | |- safe (Err _) => apply safe_Err
  | |- safe (mret _) => apply safe_Ok
  | |- safe (ok_or _ _) => apply safe_ok_or
  | |- safe (_ ≫= _) => apply safe_bind; [|let x := fresh "x" in let Hx := fresh "Hx" in intros x Hx; cbv beta]
  | |- safe (_ <$> _) => apply safe_fmap
  | |- safe (map_err _ _) => apply safe_map_err
  | |- safe (idx _ _) => apply safe_idx
  | |- safe (slice _ _ _) => apply safe_slice
  | |- safe (slice_from _ _) => apply safe_slice_from
  | |- safe (copy_at _ _ _) => apply safe_copy_at
  | |- safe (add_chk _ _ _) => apply safe_add_chk
  | |- safe (sub_chk _ _) => apply safe_sub_chk
  | |- safe (if ?c then _ else _) => let Hc := fresh "Hc" in destruct c eqn:Hc
  | |- safe (match ?c with _ => _ end) => let Hc := fresh "Hc" in destruct c eqn:Hc
  end.

(** Facts about the bytes read, and [lia] with them. *)
Ltac inv_all_ok :=
  repeat match goal with
  | H : _ = Ok _ |- _ => progress (inv_ok_hyp H)
  | H : get_range _ _ _ = Some _ |- _ => apply get_range_Some in H as (? & ? & ?)
  end.
Ltac byte_facts :=
  repeat match goal with
  | H : idx ?b ?i = Ok ?x |- _ =>
      lazymatch goal with
      | _ : 0 <= i < len b |- _ => fail
      | _ => pose proof (idx_Ok_lt b i x H)
      end
  | H : idx ?b ?i = Ok ?x |- _ =>
      lazymatch goal with
      | _ : is_u8 x |- _ => fail
      | _ => assert (is_u8 x) by (eapply (is_bytes_idx b i x); [solve [eauto with snac] | exact H])
      end
  end.
Ltac len_facts := repeat (rewrite len_sub in * by u_lia); rewrite ?len_app, ?len_cons, ?len_nil in *.
Ltac safe_lia := byte_facts; solve [u_lia | len_facts; u_lia].
Ltac safe_auto := repeat (safe_step; try safe_lia).

(** [slice b lo hi = Ok s] and [slice_from b lo = Ok s] for a [b] built by appends of
    pieces of known length. *)
Lemma sub_exact s lo hi : lo = 0 -> hi = len s -> sub s lo hi = s.
Proof. intros -> ->. apply sub_all. Qed.
Ltac len_lia := len_simpl; unfold len in *; cbn [length] in *; lia.
Ltac slice_tac :=
  unfold be16, be32, be128, slice_from; apply slice_Ok; split_and!; [lia | len_lia | len_lia |];
  symmetry; repeat (rewrite sub_app_r by len_lia);
  first [ apply sub_exact; len_lia | rewrite sub_app_l by len_lia; apply sub_exact; len_lia ].

Ltac read_slice lo hi s :=
  match goal with
  | |- context [@slice ?E ?b lo hi] => assert (@slice E b lo hi = Ok s) as -> by slice_tac
  end; cbn [mbind outcome_bind].
Ltac read_from lo s :=
  match goal with
  | |- context [@slice_from ?E ?b lo] => assert (@slice_from E b lo = Ok s) as -> by slice_tac
  end; cbn [mbind outcome_bind].
(** Reads a byte of the literal list at the head of an append. *)
Ltac read_head :=
  repeat match goal with
  | |- context [ idx (?h ++ ?t) ?i ≫= _ ] =>
      erewrite (idx_app_l h t i) by reflexivity; cbn [mbind outcome_bind]
  end.

(** Byte strings built from literals, encodings and slices. *)
Ltac bytes_tac :=
  repeat match goal with
  | |- is_bytes (_ ++ _) => apply is_bytes_app; split
  | |- is_bytes (_ :: _) => apply is_bytes_cons; split; [u_lia|]
  | |- is_bytes [] => constructor
  | |- is_bytes (be _ _) => apply is_bytes_be
  | |- is_bytes (zeros _) => apply is_bytes_zeros
  | |- is_bytes (sub _ _ _) => apply is_bytes_sub
  end; try done.

(** Exhaustive checking of a predicate of a small unsigned integer. *)
Lemma check_below n (P : Z -> bool) :
  forallb P (seqZ 0 n) = true -> forall x, 0 <= x < n -> P x = true.
Proof.
  rewrite forallb_forall. intros H x Hx. apply H. apply list_elem_of_In, elem_of_seqZ. lia.
Qed.

(** ** Partial results: no panic, and a property of what is returned *)

Definition yields {E A} (P : A -> Prop) (m : outcome E A) : Prop :=
  match m with Ok a => P a | Err _ => True | Panic => False end.

Section yields_lemmas.
Context {E A B : Type}.
Implicit Types (m : outcome E A) (f : A -> outcome E B).

Lemma yields_bind (P : A -> Prop) (Q : B -> Prop) m f :
  yields P m -> (forall a, P a -> yields Q (f a)) -> yields Q (m ≫= f).
Proof. destruct m; cbn; auto. Qed.
Lemma yields_weaken (P Q : A -> Prop) m : yields P m -> (forall a, P a -> Q a) -> yields Q m.
Proof. destruct m; cbn; auto. Qed.
Lemma yields_of_safe (P : A -> Prop) m : safe m -> (forall a, m = Ok a -> P a) -> yields P m.
Proof. destruct m; cbn; auto. Qed.
Lemma yields_safe (P : A -> Prop) m : yields P m -> safe m.
Proof. by destruct m. Qed.
Lemma yields_Ok (P : A -> Prop) m a : yields P m -> m = Ok a -> P a.
Proof. by intros H ->. Qed.
Lemma yields_map_err {F} (g : E -> F) (P : A -> Prop) m : yields P m -> yields P (map_err g m).
Proof. by destruct m. Qed.
Lemma yields_reject (P : A -> Prop) (c : bool) (e : E) m : (c = false -> yields P m) -> yields P (if c then Err e else m).
Proof. destruct c; cbn; auto. Qed.
End yields_lemmas.
Lemma yields_idx {E} (b : list Z) i : is_bytes b -> 0 <= i < len b -> yields (E:=E) is_u8 (idx b i).
Proof. intros Hb Hi. apply yields_of_safe; [by apply safe_idx|]. intros. by eapply is_bytes_idx. Qed.
(** A buffer: bytes of a known length. *)
Definition buffer (n : Z) (b : list Z) : Prop := is_bytes b /\ len b = n.
Lemma yields_copy {E} n (b : list Z) lo src : buffer n b -> is_bytes src -> 0 <= lo -> lo + len src <= n ->
  yields (E:=E) (buffer n) (copy_at b lo src).
Proof.
  intros [Hb <-] Hs Hlo Hn. apply yields_of_safe; [by apply safe_copy_at|]. intros a (_ & _ & ->)%copy_at_Ok.
  split; [by apply is_bytes_put|by apply len_put].
Qed.
Lemma yields_slice {E} (b : list Z) lo hi : is_bytes b -> 0 <= lo <= hi -> hi <= len b ->
  yields (E:=E) (buffer (hi - lo)) (slice b lo hi).
Proof.
  intros. apply yields_of_safe; [by apply safe_slice|]. intros a (_ & _ & ->)%slice_Ok. split; [by apply is_bytes_sub|by apply len_sub].
Qed.
Lemma yields_slice_from {E} (b : list Z) lo : is_bytes b -> 0 <= lo <= len b ->
  yields (E:=E) (buffer (len b - lo)) (slice_from b lo).
Proof. intros. apply yields_slice; [done|lia|lia]. Qed.
(** The next index, slice or test of a result. *)
Ltac y_bind := first
  [ eapply yields_bind; [first [apply yields_idx; [done|lia] | apply yields_slice; [done|lia|lia] | apply yields_slice_from; [done|lia]]|
      let x := fresh "x" in let H := fresh "H" in intros x H; try destruct H as [? ?]; cbv beta ]
  | apply yields_reject; let H := fresh "Hc" in intros H ].
Lemma yields_sub_chk {E} a b : b <= a -> yields (E:=E) (eq (a - b)) (sub_chk a b).
Proof. intros Hle. apply yields_of_safe; [by apply safe_sub_chk|]. by intros c [-> _]%sub_chk_Ok. Qed.
Lemma yields_ok_or {E A} (P : A -> Prop) (o : option A) (e : E) : (forall a, o = Some a -> P a) -> yields P (ok_or o e).
Proof. destruct o; cbn; auto. Qed.
(** Concrete bytes are bytes. *)
Lemma bytes_check b : forallb (fun x => (0 <=? x) && (x <=? 255)) b = true -> is_bytes b.
Proof.
  intros Hb. apply List.Forall_forall. intros x Hx. pose proof (proj1 (forallb_forall _ _) Hb x Hx) as Hr.
  apply andb_true_iff in Hr as [?%Z.leb_le ?%Z.leb_le]. u_lia. 
Qed.

Lemma foldl_keeps {A B} (P : A -> Prop) (f : A -> B -> A) l a : P a -> (forall a b, In b l -> P a -> P (f a b)) -> P (foldl f a l).
Proof.
  revert a. induction l as [|b l IH]; intros a Ha Hf; [done|]. cbn [foldl]. apply IH; [by apply Hf; [left|]|]. intros x y Hy. apply Hf. by right.
Qed.
Lemma lor_u128 a b : is_u128 a -> is_u128 b -> is_u128 (Z.lor a b).
Proof.
  intros [Ha1 Ha2] [Hb1 Hb2]. split; [by apply Z.lor_nonneg|]. enough (Z.lor a b < 2 ^ 128) by (change (2 ^ 128) with (u128_max + 1) in *; lia).
  apply Z.log2_lt_cancel. rewrite Z.log2_lor by done. change (Z.log2 (2 ^ 128)) with 128.
  assert (forall x, 0 <= x <= u128_max -> Z.log2 x < 128) as Hl.
  { intros x Hx. destruct (Z.eqb_spec x 0) as [->|]; [reflexivity|]. apply Z.log2_lt_pow2; [lia|]. change (2 ^ 128) with (u128_max + 1). lia. }
  apply Z.max_lub_lt; by apply Hl.
Qed.
