(* ===== verification/Effects.v ===== *)
(** A state and error monad for methods that take [&mut self], and the
    verification rules used for them.

    A computation of [M S E A] is a method body: it takes the state, and returns an
    [outcome] with the state as the method leaves it, also when the method returns
    early with [Err].  [triple P m Q X] is total-safety correctness: from a state
    satisfying [P] the method does not panic, satisfies [Q] when it returns [Ok] and
    [X] when it returns [Err]. *)

From S2P Require Import Prelude.

Definition M (S E A : Type) : Type := S -> outcome E A * S.

#[global] Instance M_ret S E : MRet (M S E) := fun A a s => (Ok a, s).
#[global] Instance M_bind S E : MBind (M S E) := fun A B f m s =>
  match m s with
  | (Ok a, s') => f a s'
  | (Err e, s') => (Err e, s')
  | (Panic, s') => (Panic, s')
  end.

Definition get {S E} : M S E S := fun s => (Ok s, s).
Definition gets {S E A} (f : S -> A) : M S E A := fun s => (Ok (f s), s).
Definition modify {S E} (f : S -> S) : M S E unit := fun s => (Ok tt, f s).
Definition throw {S E A} (e : E) : M S E A := fun s => (Err e, s).
Definition lift {S E A} (m : outcome E A) : M S E A := fun s => (m, s).

(** A method of the first or second half of a pair of states. *)
Definition on_fst {S T E A} (m : M S E A) : M (S * T) E A := fun st =>
  let '(r, s) := m (fst st) in (r, (s, snd st)).
Definition on_snd {S T E A} (m : M T E A) : M (S * T) E A := fun st =>
  let '(r, t) := m (snd st) in (r, (fst st, t)).

(** [for x in xs { body }] *)
Fixpoint for_each {S E A} (xs : list A) (body : A -> M S E unit) : M S E unit :=
  match xs with
  | [] => mret tt
  | x :: xs => body x ;; for_each xs body
  end.

Section triples.
Context {S E : Type}.
Implicit Types (P : S -> Prop) (X : E -> S -> Prop).

Definition triple {A} P (m : M S E A) (Q : A -> S -> Prop) X : Prop :=
  forall s, P s ->
  match m s with
  | (Ok a, s') => Q a s'
  | (Err e, s') => X e s'
  | (Panic, _) => False
  end.

(** The method keeps [I], whether it succeeds or fails, and does not panic. *)
Definition preserves {A} (I : S -> Prop) (m : M S E A) : Prop :=
  triple I m (fun _ => I) (fun _ => I).

Lemma triple_ret {A} (a : A) (Q : A -> S -> Prop) X : triple (Q a) (mret a) Q X.
Proof. by intros s ?. Qed.
Lemma triple_bind {A B} P (m : M S E A) (f : A -> M S E B) (R : A -> S -> Prop) Q X :
  triple P m R X -> (forall a, triple (R a) (f a) Q X) -> triple P (m ≫= f) Q X.
Proof.
  intros Hm Hf s Hs. specialize (Hm s Hs). cbv [mbind M_bind].
  destruct (m s) as [[a|e|] s']; [by apply Hf | done | done].
Qed.
Lemma triple_weaken {A} P P' (m : M S E A) (Q Q' : A -> S -> Prop) X X' :
  triple P' m Q' X' -> (forall s, P s -> P' s) -> (forall a s, Q' a s -> Q a s) ->
  (forall e s, X' e s -> X e s) -> triple P m Q X.
Proof.
  intros Hm HP HQ HX s Hs. specialize (Hm s (HP s Hs)).
  destruct (m s) as [[a|e|] s']; auto.
Qed.
Lemma triple_get P (Q : S -> S -> Prop) X :
  (forall s, P s -> Q s s) -> triple P get Q X.
Proof. intros H s Hs. by apply H. Qed.
Lemma triple_gets {A} P (f : S -> A) (Q : A -> S -> Prop) X :
  (forall s, P s -> Q (f s) s) -> triple P (gets f) Q X.
Proof. intros H s Hs. by apply H. Qed.
Lemma triple_modify P (f : S -> S) (Q : unit -> S -> Prop) X :
  (forall s, P s -> Q tt (f s)) -> triple P (modify f) Q X.
Proof. intros H s Hs. by apply H. Qed.
Lemma triple_throw {A} P (e : E) (Q : A -> S -> Prop) X :
  (forall s, P s -> X e s) -> triple P (throw e) Q X.
Proof. intros H s Hs. by apply H. Qed.
Lemma triple_lift {A} P (m : outcome E A) (Q : A -> S -> Prop) X :
  (forall s, P s -> match m with Ok a => Q a s | Err e => X e s | Panic => False end) ->
  triple P (lift m) Q X.
Proof. intros H s Hs. specialize (H s Hs). cbn. by destruct m. Qed.
Lemma triple_pure {A} (F : Prop) P (m : M S E A) Q X :
  (F -> triple P m Q X) -> triple (fun s => F /\ P s) m Q X.
Proof. intros H s [HF Hs]. by apply H. Qed.
Lemma triple_for_each {A} (I : list A -> S -> Prop) xs (body : A -> M S E unit) X :
  (forall x rest, triple (I (x :: rest)) (body x) (fun _ => I rest) X) ->
  triple (I xs) (for_each xs body) (fun _ => I []) X.
Proof.
  intros Hb. induction xs as [|x xs IH]; [by intros s ?|].
  eapply triple_bind; [apply Hb | intros []; exact IH].
Qed.
End triples.

Lemma preserves_on_snd {S T E A} (m : M T E A) (I : S -> Prop) :
  (forall t, safe (fst (m t))) -> preserves (fun st => I (fst st)) (on_snd (S:=S) m).
Proof.
  intros Hm [s t] HI. unfold on_snd. cbn in *. specialize (Hm t).
  destruct (m t) as [[a|e|] t']; [done | done | by destruct Hm].
Qed.
