(* ===== verification/Time.v ===== *)
(** Monotonic time, lifetimes and the random source ([src/src/time.rs]).

    [RandomSource] is the trait: [fill] is its required method and [sample_loop] the
    rejection loop of its provided method [sample].  [Sampler] is what the other
    components rely on: a sample within the requested range, and no panic.
    [ScriptedRandom] implements it, and the loop's fuel is proved enough for it. *)

From S2P Require Import Prelude Effects.

(** ** Clock and lifetimes *)

Record ManualClock := { clock_now : Z }.
Definition advance (ms : Z) (c : ManualClock) : ManualClock :=
  {| clock_now := sat64 (clock_now c) ms |}.

Inductive Lifetime := Until (t : Z) | Infinite.
#[global] Instance Lifetime_eq_dec : EqDecision Lifetime.
Proof. solve_decision. Defined.

Definition from_secs (now seconds : Z) : Lifetime :=
  if seconds =? u32_max then Infinite else Until (sat64 now (seconds * 1000)).
Definition remaining (l : Lifetime) (now : Z) : Z :=
  match l with
  | Infinite => u32_max
  | Until t => Z.min (sat_sub t now / 1000) u32_max
  end.
Definition live (l : Lifetime) (now : Z) : bool :=
  match l with Infinite => true | Until t => now <? t end.

(** ** Random sources *)

Class RandomSource (R : Type) := fill : nat -> M R io_error bytes.

(** [u64::from_le_bytes] *)
Definition of_le (b : bytes) : Z := of_be (rev b).
Definition le64 (x : Z) : bytes := rev (be 8 x).

(** The [loop] of [RandomSource::sample]; [None] is fuel running out. *)
Fixpoint sample_loop {R} `{RandomSource R} (fuel : nat) (limit range : Z) (r : R)
  : option (outcome io_error Z * R) :=
  match fuel with
  | O => None
  | S fuel =>
      match fill 8 r with
      | (Ok b, r') =>
          let x := of_le b in
          if x <? limit then Some (Ok (x mod range), r') else sample_loop fuel limit range r'
      | (Err e, r') => Some (Err e, r')
      | (Panic, r') => Some (Panic, r')
      end
  end.
Definition sample_limit (range : Z) : Z := u64_max - u64_max mod range.
Definition sample_with {R} `{RandomSource R} (fuel : nat) (max : Z) (r : R)
  : option (outcome io_error Z * R) :=
  if max =? u64_max then Some (Err OtherError, r)
  else sample_loop fuel (sample_limit (max + 1)) (max + 1) r.

(** What clients rely on. *)
Class Sampler (R : Type) `{RandomSource R} := {
  sample : Z -> M R io_error Z;
  sample_range max r x r' : is_u64 max -> sample max r = (Ok x, r') -> 0 <= x <= max;
  sample_safe max r : is_u64 max -> safe (fst (sample max r));
}.

(** Random bytes as asked for. *)
Class ByteSource (R : Type) `{RandomSource R} := {
  fill_ok n r : match fill n r with (Ok b, _) => is_bytes b /\ length b = n | (Err _, _) => True | (Panic, _) => False end;
}.

(** ** The scripted source *)

Record ScriptedRandom := { values : list Z }.
Definition pop_value (r : ScriptedRandom) : Z * ScriptedRandom :=
  match values r with
  | [] => (0, r)
  | v :: vs => (v, {| values := vs |})
  end.
(** [for chunk in b.chunks_mut(8)]: [n] is the number of bytes still to fill. *)
Fixpoint scripted_chunks (chunks n : nat) (r : ScriptedRandom) : bytes * ScriptedRandom :=
  match chunks with
  | O => ([], r)
  | S chunks =>
      let '(v, r1) := pop_value r in
      let '(rest, r2) := scripted_chunks chunks (n - 8) r1 in
      (take (Nat.min 8 n) (le64 v) ++ rest, r2)
  end.
#[global] Instance scripted_fill : RandomSource ScriptedRandom := fun n r =>
  let '(b, r') := scripted_chunks ((n + 7) / 8)%nat n r in (Ok b, r').
Definition scripted_fuel (r : ScriptedRandom) : nat := S (length (values r)).
Definition scripted_sample (max : Z) : M ScriptedRandom io_error Z := fun r =>
  match sample_with (scripted_fuel r) max r with
  | Some res => res
  | None => (Panic, r)
  end.

(** ** Lemmas *)

Lemma of_le_le64 x : is_u64 x -> of_le (le64 x) = x.
Proof.
  intros. unfold of_le, le64. rewrite rev_involutive. apply of_be_be_small.
  change (256 ^ Z.of_nat 8) with (u64_max + 1). u_lia.
Qed.
Lemma scripted_fill_8 (r : ScriptedRandom) :
  fill 8 r = (Ok (le64 (pop_value r).1), (pop_value r).2).
Proof. unfold fill, scripted_fill. cbn. by destruct (pop_value r). Qed.

Definition scripted_wf (r : ScriptedRandom) : Prop := Forall is_u64 (values r).
Lemma pop_value_wf r : scripted_wf r -> is_u64 (pop_value r).1 /\ scripted_wf (pop_value r).2.
Proof.
  unfold scripted_wf, pop_value. destruct r as [[|v vs]]; cbn; [intros; split; [u_lia|done]|].
  intros H%Forall_cons_iff. exact H.
Qed.

Lemma sample_limit_spec range :
  0 < range <= u64_max -> 0 < sample_limit range <= u64_max /\
  sample_limit range mod range = 0.
Proof.
  intros. unfold sample_limit. pose proof (Z.mod_pos_bound u64_max range ltac:(lia)).
  pose proof (Z.mod_le u64_max range ltac:(u_lia) ltac:(lia)).
  destruct (decide (u64_max mod range = u64_max)) as [He|].
  - destruct (decide (range = u64_max)) as [->|]; [by rewrite Z.mod_same in He by u_lia|lia].
  - split; [u_lia|]. rewrite Zminus_mod_idemp_r, Z.sub_diag. apply Z.mod_0_l. lia.
Qed.

(** A value at or below the limit's complement is never drawn once the script is
    exhausted, so one round per scripted value and one more is enough. *)
Lemma scripted_loop_total limit range fuel r :
  0 < limit -> (length (values r) < fuel)%nat ->
  exists x r', sample_loop fuel limit range r = Some (Ok (x mod range), r').
Proof.
  intros Hl. revert r. induction fuel as [|fuel IH]; intros r Hf; [lia|]. cbn [sample_loop].
  rewrite scripted_fill_8. destruct (Z.ltb_spec (of_le (le64 (pop_value r).1)) limit) as [|Hge]; [eauto|].
  apply IH. destruct r as [[|v vs]]; cbn [pop_value values length fst snd] in *; [|lia].
  rewrite of_le_le64 in Hge by u_lia. lia.
Qed.
Lemma scripted_sample_spec max r :
  is_u64 max -> max < u64_max ->
  exists x r', scripted_sample max r = (Ok x, r') /\ 0 <= x <= max.
Proof.
  intros. unfold scripted_sample, sample_with. destruct (Z.eqb_spec max u64_max); [lia|].
  destruct (scripted_loop_total (sample_limit (max + 1)) (max + 1) (scripted_fuel r) r)
    as (x & r' & ->); [apply sample_limit_spec; u_lia | unfold scripted_fuel; lia |].
  eexists _, r'. split; [done|]. pose proof (Z.mod_pos_bound x (max + 1)). u_lia.
Qed.
Lemma scripted_sample_max r : scripted_sample u64_max r = (Err OtherError, r).
Proof. done. Qed.

#[global] Program Instance scripted_sampler : Sampler ScriptedRandom :=
  {| sample := scripted_sample |}.
Next Obligation.
  intros max r x r' Hm. destruct (decide (max = u64_max)) as [->|]; [done|].
  destruct (scripted_sample_spec max r) as (y & r1 & -> & ?); [done | u_lia | naive_solver].
Qed.
Next Obligation.
  intros max r Hm. destruct (decide (max = u64_max)) as [->|]; [done|].
  by destruct (scripted_sample_spec max r) as (y & r1 & -> & ?); [|u_lia|].
Qed.

Lemma scripted_chunks_ok chunks n r : (n <= 8 * chunks)%nat ->
  is_bytes (scripted_chunks chunks n r).1 /\ length (scripted_chunks chunks n r).1 = n.
Proof.
  revert n r. induction chunks as [|chunks IH]; intros n r Hn; cbn [scripted_chunks].
  - cbn. split; [constructor|lia].
  - destruct (pop_value r) as [v r1]. destruct (IH (n - 8)%nat r1 ltac:(lia)) as [Hb Hl].
    destruct (scripted_chunks chunks (n - 8) r1) as [rest r2]. cbn [fst] in *. split.
    + apply is_bytes_app. split; [|done]. apply Forall_take. unfold le64. apply Forall_rev, is_bytes_be.
    + rewrite length_app, length_take, Hl. unfold le64. rewrite length_rev. assert (length (be 8 v) = 8%nat) as -> by reflexivity. lia.
Qed.
#[global] Instance scripted_bytes : ByteSource ScriptedRandom.
Proof.
  split. intros n r. unfold fill, scripted_fill. pose proof (scripted_chunks_ok ((n + 7) / 8) n r) as Hc.
  destruct (scripted_chunks _ n r) as [b r']. apply Hc. pose proof (Nat.div_mod (n + 7) 8). pose proof (Nat.mod_upper_bound (n + 7) 8). lia.
Qed.
(** Case analysis on a fill. *)
Lemma fill_cases {R} `{RandomSource R} `{!ByteSource R} n r :
  (exists b r', fill n r = (Ok b, r') /\ is_bytes b /\ length b = n) \/ (exists e r', fill n r = (Err e, r')).
Proof.
  pose proof (fill_ok n r) as Hf. destruct (fill n r) as [[b|e|] r'] eqn:Hr; [left|right|done].
  - destruct Hf. by exists b, r'.
  - by exists e, r'.
Qed.

(** Case analysis on a draw, with the sampler's promises. *)
Lemma sample_cases {R} `{Sampler R} max r : is_u64 max ->
  (exists x r', sample max r = (Ok x, r') /\ 0 <= x <= max) \/ (exists e r', sample max r = (Err e, r')).
Proof.
  intros Hm. pose proof (sample_safe max r Hm) as Hs.
  destruct (sample max r) as [[x|e|] r'] eqn:Hr; [left|right|by destruct Hs].
  - exists x, r'. split; [done|]. by eapply sample_range.
  - by exists e, r'.
Qed.

(** ** Properties *)

(** [RandomSource::sample] terminates on a scripted source whatever it holds, and
    returns a value in [0, max]; only the full range [u64::MAX] is refused. *)
Theorem scripted_sample_total max r :
  is_u64 max ->
  (max < u64_max -> exists x r', scripted_sample max r = (Ok x, r') /\ 0 <= x <= max) /\
  (max = u64_max -> scripted_sample max r = (Err OtherError, r)).
Proof.
  intros. split; [by apply scripted_sample_spec|]. intros ->. apply scripted_sample_max.
Qed.

(** The accepted 64-bit words are spread evenly over the results: the words below
    the rejection limit that give [v] are exactly [q * range + v] for the same number
    of quotients [q], whatever [v] is, and the limit leaves no residue uncovered. *)
Theorem sample_unbiased range v x :
  0 < range <= u64_max -> 0 <= v < range ->
  0 < sample_limit range / range /\
  (0 <= x < sample_limit range /\ x mod range = v <->
   exists q, 0 <= q < sample_limit range / range /\ x = q * range + v).
Proof.
  intros Hr Hv. destruct (sample_limit_spec range Hr) as [Hl Hm].
  pose proof (Z.div_mod (sample_limit range) range ltac:(lia)) as Hd. rewrite Hm in Hd.
  set (k := sample_limit range / range) in *. split; [nia|]. split.
  - intros [Hx Hxm]. exists (x / range). pose proof (Z.div_mod x range ltac:(lia)).
    pose proof (Z.div_pos x range ltac:(lia) ltac:(lia)). split; nia.
  - intros (q & Hq & ->). rewrite Z.add_comm, Z.mod_add, Z.mod_small by lia. nia.
Qed.

(** A lifetime built from an advertised number of seconds stays live for exactly
    that long, counts down by whole seconds, never reports more than was advertised,
    and only the all-ones value is infinite (barring clock saturation). *)
Theorem lifetime_countdown now seconds later :
  is_u32 seconds -> 0 <= now <= later -> later + u32_max * 1000 <= u64_max ->
  live (from_secs now seconds) later = (seconds =? u32_max) || (later <? now + seconds * 1000) /\
  remaining (from_secs now seconds) later =
    (if seconds =? u32_max then u32_max else Z.max 0 ((now + seconds * 1000 - later) / 1000)) /\
  remaining (from_secs now seconds) later <= seconds.
Proof.
  intros. unfold from_secs. destruct (Z.eqb_spec seconds u32_max) as [->|]; cbn; [u_lia|].
  replace (sat64 now (seconds * 1000)) with (now + seconds * 1000) by u_lia.
  unfold sat_sub. split; [done|].
  assert ((now + seconds * 1000 - later) / 1000 <= seconds).
  { apply Z.div_le_upper_bound; lia. }
  destruct (Z.max_spec (now + seconds * 1000 - later) 0) as [[? ->]|[? ->]].
  - rewrite Z.div_0_l by lia. pose proof (Z.div_lt_upper_bound (now + seconds * 1000 - later) 1000 0).
    u_lia.
  - pose proof (Z.div_pos (now + seconds * 1000 - later) 1000). u_lia.
Qed.

(** ** Witnesses *)

Lemma scripted_sample_total_witness :
  exists x r', scripted_sample 5 {| values := [u64_max; 11] |} = (Ok x, r') /\ 0 <= x <= 5.
Proof.
  apply (proj1 (scripted_sample_total 5 {| values := [u64_max; 11] |} ltac:(split; vm_compute; discriminate))).
  vm_compute. reflexivity.
Defined.
Lemma sample_unbiased_witness :
  0 <= 11 < sample_limit 6 /\ 11 mod 6 = 5.
Proof.
  apply (sample_unbiased 6 5 11); [split; [lia | vm_compute; discriminate] | lia |].
  exists 1. split; [split; [lia | vm_compute; reflexivity] | reflexivity].
Defined.
Lemma lifetime_countdown_witness :
  live (from_secs 1000 600) 400000 = true /\ remaining (from_secs 1000 600) 400000 = 201.
Proof.
  destruct (lifetime_countdown 1000 600 400000) as (H1 & H2 & _);
    [split; vm_compute; discriminate | lia | vm_compute; discriminate |].
  split; [rewrite H1 | rewrite H2]; reflexivity.
Defined.
