(* ===== verification/Checksum.v ===== *)
(** The Internet checksum (the [add] helper and the carry loop of [wire::checksum] and
    [ipv4::wire::checksum]): 16-bit words, end-around carry, one's complement. *)

From S2P Require Import Prelude.

Definition word (hi lo : Z) : Z := Z.lor (Z.shiftl hi 8) lo.
(** [for p in b.chunks(2)] *)
Fixpoint sum_words (b : bytes) : Z :=
  match b with
  | [] => 0
  | [x] => word x 0
  | x :: y :: b => word x y + sum_words b
  end.
(** [while n >> 16 != 0]; two rounds are enough for a [u32]. *)
Fixpoint fold_carry (fuel : nat) (n : Z) : Z :=
  match fuel with
  | O => n
  | S fuel =>
      if Z.shiftr n 16 =? 0 then n else fold_carry fuel (Z.land n 65535 + Z.shiftr n 16)
  end.
Definition complement16 (n : Z) : Z := 65535 - n mod 65536.

(** ** Sums of words *)

Lemma word_add x y : is_u8 y -> word x y = x * 256 + y.
Proof. intros. unfold word. rewrite lor_shiftl by u_lia. done. Qed.

(** Induction two bytes at a time, the way [chunks(2)] walks. *)
Lemma pairs_ind (P : list Z -> Prop) :
  P [] -> (forall x, P [x]) -> (forall x y b, P b -> P (x :: y :: b)) -> forall b : list Z, P b.
Proof.
  intros H0 H1 H2. assert (forall n b, (length b <= n)%nat -> P b) as H.
  { induction n as [|n IH]; intros [|x [|y b]] Hl; cbn in Hl; auto; try lia.
    apply H2, IH. lia. }
  intros b. by apply (H (length b)).
Qed.
Lemma sum_words_bound (b : list Z) : is_bytes b -> 0 <= sum_words b <= 65535 * ((len b + 1) / 2).
Proof.
  induction b as [|x|x y b IH] using pairs_ind; intros Hb; [done| |].
  - apply is_bytes_cons in Hb as [Hx _]. cbn [sum_words]. rewrite word_add by u_lia.
    change ((len [x] + 1) / 2) with 1. u_lia.
  - apply is_bytes_cons in Hb as [Hx [Hy Hb]%is_bytes_cons]. specialize (IH Hb).
    cbn [sum_words]. rewrite word_add by done. rewrite !len_cons.
    replace (1 + (1 + len b) + 1) with (len b + 1 + 1 * 2) by lia.
    rewrite Z.div_add by lia. u_lia.
Qed.
Lemma sum_words_app (a b : list Z) : Z.even (len a) = true -> sum_words (a ++ b) = sum_words a + sum_words b.
Proof.
  induction a as [|x|x y a IH] using pairs_ind; intros He; [done|done|].
  cbn [app sum_words]. rewrite IH; [lia|]. rewrite <-He, !len_cons.
  replace (1 + (1 + len a)) with (Z.succ (Z.succ (len a))) by lia.
  by rewrite Z.even_succ_succ.
Qed.
Lemma sum_words_be16 c : is_u16 c -> sum_words (be16 c) = c.
Proof.
  intros. cbn [be16 be sum_words]. rewrite word_add by (pose proof (Z.mod_pos_bound (c / 256 ^ Z.of_nat 0) 256); u_lia).
  change (256 ^ Z.of_nat 1) with 256. change (256 ^ Z.of_nat 0) with 1. rewrite Z.div_1_r.
  rewrite (Z.mod_small (c / 256)) by (split; [apply Z.div_pos | apply Z.div_lt_upper_bound]; u_lia).
  pose proof (Z.div_mod c 256). lia.
Qed.
(** Filling a zeroed field at an even offset adds its value to the sum. *)
Lemma sum_words_fill b lo c :
  0 <= lo -> Z.even lo = true -> lo + 2 <= len b -> is_u16 c ->
  sum_words (put b lo (be16 c)) = sum_words (put b lo [0; 0]) + c.
Proof.
  intros Hlo He Hb Hc. unfold put.
  assert (Z.even (len (take (Z.to_nat lo) b)) = true) by (rewrite len_take, Z.min_l by lia; by rewrite Z2Nat.id).
  rewrite !(sum_words_app (take _ _)) by done.
  rewrite (sum_words_app (be16 c)), (sum_words_app [0; 0]) by (unfold be16; by rewrite ?len_be).
  rewrite sum_words_be16 by done. unfold be16. rewrite len_be.
  change (len [0; 0]) with 2. change (Z.of_nat 2) with 2. change (sum_words [0; 0]) with 0. lia.
Qed.

(** ** Carries *)

Lemma fold_sum n : Z.land n 65535 + Z.shiftr n 16 = n mod 65536 + n / 65536.
Proof. rewrite shiftr_div by lia. f_equal. by apply (land_ones_mod n 16). Qed.
Lemma fold_step n : 65536 <= n ->
  let r := Z.land n 65535 + Z.shiftr n 16 in
  0 < r < n /\ r mod 65535 = n mod 65535 /\ r <= 65535 + n / 65536.
Proof.
  intros Hn. cbv zeta. rewrite fold_sum.
  pose proof (Z.div_mod n 65536 ltac:(lia)). pose proof (Z.mod_pos_bound n 65536 ltac:(lia)).
  assert (1 <= n / 65536) by (apply Z.div_le_lower_bound; lia).
  split_and!; [lia|lia| |lia].
  replace n with (n mod 65536 + n / 65536 + n / 65536 * 65535) at 3 by lia.
  by rewrite Z.mod_add.
Qed.
Lemma fold_carry_small fuel n : 0 <= n < 65536 -> fold_carry fuel n = n.
Proof.
  intros. destruct fuel; [done|]. cbn. rewrite shiftr_div, Z.div_small by lia. done.
Qed.
Lemma fold_carry_large fuel n : 65536 <= n ->
  fold_carry (S fuel) n = fold_carry fuel (Z.land n 65535 + Z.shiftr n 16).
Proof.
  intros. cbn. rewrite shiftr_div by lia. change (2 ^ 16) with 65536.
  assert (1 <= n / 65536) by (apply Z.div_le_lower_bound; lia).
  destruct (Z.eqb_spec (n / 65536) 0); [lia|done].
Qed.
(** For a [u32] two rounds reach a 16-bit value congruent to the sum. *)
Lemma fold_carry_spec fuel n : (2 <= fuel)%nat -> is_u32 n ->
  let r := fold_carry fuel n in
  0 <= r < 65536 /\ r mod 65535 = n mod 65535 /\ (0 < n -> 0 < r).
Proof.
  intros Hf Hn. cbv zeta.
  destruct (decide (n < 65536)); [rewrite fold_carry_small by u_lia; u_lia|].
  destruct fuel as [|[|fuel]]; [lia..|]. rewrite fold_carry_large by lia.
  destruct (fold_step n ltac:(lia)) as (H1 & H2 & H3). set (m := Z.land n 65535 + Z.shiftr n 16) in *.
  assert (n / 65536 <= 65535) by (apply Z.lt_succ_r, Z.div_lt_upper_bound; u_lia).
  destruct (decide (m < 65536)); [rewrite fold_carry_small by lia; lia|].
  rewrite fold_carry_large by lia. destruct (fold_step m ltac:(lia)) as (H4 & H5 & H6).
  assert (m / 65536 <= 1) by (apply Z.lt_succ_r, Z.div_lt_upper_bound; lia).
  set (k := Z.land m 65535 + Z.shiftr m 16) in *.
  assert (k < 65536).
  { destruct (decide (k < 65536)); [done|]. assert (k = 65536) by lia.
    unfold k in *. rewrite fold_sum in *. pose proof (Z.div_mod m 65536 ltac:(lia)). lia. }
  rewrite fold_carry_small by lia. lia.
Qed.

(** Storing the complement of the folded sum makes the whole sum verify. *)
Lemma complement_verifies fuel n :
  (2 <= fuel)%nat -> is_u32 n -> is_u32 (n + 65535) ->
  complement16 (fold_carry fuel (n + complement16 (fold_carry fuel n))) = 0.
Proof.
  intros Hf H1 H2. destruct (fold_carry_spec fuel n Hf H1) as (Ha & Hb & _).
  unfold complement16 at 2. rewrite (Z.mod_small (fold_carry fuel n)) by done.
  set (r := fold_carry fuel n) in *. set (m := n + (65535 - r)).
  destruct (fold_carry_spec fuel m Hf ltac:(unfold m; u_lia)) as (Hc & Hd & He).
  assert (m mod 65535 = 0).
  { unfold m. pose proof (Z.div_mod n 65535 ltac:(lia)). pose proof (Z.div_mod r 65535 ltac:(lia)).
    replace (n + (65535 - r)) with ((n / 65535 - r / 65535 + 1) * 65535) by lia.
    by rewrite Z.mod_mul. }
  assert (0 < m).
  { unfold m. destruct (decide (n = 0)) as [->|]; [|u_lia]. unfold r. rewrite fold_carry_small; lia. }
  assert (fold_carry fuel m = 65535).
  { rewrite H in Hd. apply Z.mod_divide in Hd as [q Hq]; [|lia]. lia. }
  unfold complement16. by rewrite H3.
Qed.
Lemma complement16_u16 n : is_u16 (complement16 n).
Proof. unfold complement16. pose proof (Z.mod_pos_bound n 65536). u_lia. Qed.
