(* ===== verification/Wire.v ===== *)
(** IPv6, ICMPv6 and Neighbor Discovery wire formats ([src/src/wire.rs]), and the two
    links of [src/src/lib.rs].

    An IPv6 address is the [u128] of its octets.  A Rust [Option] returned by a decoder
    that indexes its input is an [outcome unit]: [Err tt] is [None], [Panic] stays
    visible.  Loops that Rust leaves unbounded carry fuel, and running out of it is
    [Panic], so that the safety theorems also give termination. *)

From S2P Require Import Prelude Checksum.

(** ** Links ([lib.rs]) *)

Inductive Link := Ail | Stub.
#[global] Instance Link_eq_dec : EqDecision Link.
Proof. solve_decision. Defined.
Definition link_index (l : Link) : Z := match l with Ail => 0 | Stub => 1 end.
Definition link_other (l : Link) : Link := match l with Ail => Stub | Stub => Ail end.

(** ** IPv6 addresses ([std::net::Ipv6Addr]) *)

Definition octets6 (a : Z) : bytes := be128 a.
Definition addr6 (b : bytes) : Z := of_be b.
Definition segment6 (a i : Z) : Z := Z.shiftr a (112 - 16 * i) mod 65536.
Definition is_multicast6 (a : Z) : bool := Z.shiftr a 120 mod 256 =? 255.
Definition is_unspecified6 (a : Z) : bool := a =? 0.
Definition is_loopback6 (a : Z) : bool := a =? 1.
Definition link_local (a : Z) : bool := Z.land (segment6 a 0) 0xffc0 =? 0xfe80.
Definition solicited_node (a : Z) : Z :=
  Z.lor 0xff0200000000000000000001ff000000 (Z.land a 0xffffff).

(** ** Envelopes *)

Inductive FrameKind := Ethernet | RawIpv6.
Inductive WireError := Truncated | Invalid | Unsupported | Capacity.
#[global] Instance WireError_eq_dec : EqDecision WireError.
Proof. solve_decision. Defined.

Record Envelope := mkEnvelope {
  e_packet : bytes;
  e_payload : bytes;
  e_source : Z;
  e_destination : Z;
  e_next_header : Z;
  e_hop_limit : Z;
}.

Definition envelope (kind : FrameKind) (frame : bytes) : outcome WireError Envelope :=
  p ← match kind with
      | RawIpv6 => Ok frame
      | Ethernet =>
          reject_if len frame <? 14 with Truncated;
          ethertype ← slice frame 12 14;
          reject_if negb (beq ethertype [0x86; 0xdd]) with Unsupported;
          slice_from frame 14
      end;
  reject_if len p <? 40 with Truncated;
  p0 ← p.[0];
  reject_if negb (Z.shiftr p0 4 =? 6) with Invalid;
  p4 ← p.[4];
  p5 ← p.[5];
  let last := 40 + u16be p4 p5 in
  packet ← ok_or (get_range p 0 last) Truncated;
  payload ← slice_from packet 40;
  source ← slice p 8 24;
  destination ← slice p 24 40;
  next_header ← p.[6];
  hop_limit ← p.[7];
  Ok (mkEnvelope packet payload (addr6 source) (addr6 destination) next_header hop_limit).

(** ** The Internet checksum *)

Definition checksum (source destination next : Z) (data : bytes) : Z :=
  let n := sum_words (octets6 source) in
  let n := n + sum_words (octets6 destination) in
  let n := n + sum_words (be32 (len data)) in
  let n := n + next in
  let n := n + sum_words data in
  complement16 (fold_carry 4 n).

(** ** Extension headers *)

Record Transport := mkTransport {
  t_protocol : Z;
  t_bytes : bytes;
  t_fragmented : bool;
  t_non_initial : bool;
}.

(** The step after the header's size [n] is known. *)
Definition transport_advance (next : Z) (p : bytes) (fragmented : bool) (n : Z)
    (rest : Z -> bytes -> outcome WireError Transport) : outcome WireError Transport :=
  reject_if len p <? n with Truncated;
  nonfirst ← (if next =? 44
              then p2 ← p.[2]; p3 ← p.[3]; Ok (negb (Z.land (u16be p2 p3) 0xfff8 =? 0))
              else Ok false);
  next' ← p.[0];
  p' ← slice_from p n;
  if nonfirst : bool then Ok (mkTransport next' p' fragmented true) else rest next' p'.

(** [for _ in 0..16] *)
Fixpoint transport_loop (rounds : nat) (next : Z) (p : bytes) (fragmented : bool)
  : outcome WireError Transport :=
  match rounds with
  | O => Err Invalid
  | S rounds =>
      if mem next [0; 43; 60] then
        reject_if len p <? 2 with Truncated;
        p1 ← p.[1];
        transport_advance next p fragmented ((p1 + 1) * 8)
          (fun next p => transport_loop rounds next p fragmented)
      else if next =? 44 then
        transport_advance next p true 8 (fun next p => transport_loop rounds next p true)
      else if next =? 51 then
        reject_if len p <? 2 with Truncated;
        p1 ← p.[1];
        transport_advance next p fragmented ((p1 + 2) * 4)
          (fun next p => transport_loop rounds next p fragmented)
      else Ok (mkTransport next p fragmented false)
  end.
Definition transport (e : Envelope) : outcome WireError Transport :=
  transport_loop 16 (e_next_header e) (e_payload e) false.

(** ** Neighbor Discovery *)

Record NdOption := mkNdOption { o_kind : Z; o_bytes : bytes }.
Record Nd := mkNd { nd_kind : Z; nd_body : bytes; nd_options : list NdOption }.

(** [while !rest.is_empty()] *)
Fixpoint nd_options_loop (fuel : nat) (rest : bytes) : outcome WireError (list NdOption) :=
  match rest with
  | [] => Ok []
  | _ =>
      match fuel with
      | O => Panic
      | S fuel =>
          reject_if len rest <? 2 with Truncated;
          r1 ← rest.[1];
          let n := r1 * 8 in
          reject_if (n =? 0) || (len rest <? n) with Invalid;
          kind ← rest.[0];
          body ← slice rest 0 n;
          rest' ← slice_from rest n;
          options ← nd_options_loop fuel rest';
          Ok (mkNdOption kind body :: options)
      end
  end.

Definition nd_base (kind : Z) : outcome WireError Z :=
  if kind =? 133 then Ok 8
  else if kind =? 134 then Ok 16
  else if (kind =? 135) || (kind =? 136) then Ok 24
  else Err Unsupported.
(** The checks on a solicitation's or advertisement's target, [if b[0] >= 135]. *)
Definition nd_target (e : Envelope) (b : bytes) (b0 : Z) : outcome WireError unit :=
  if negb (135 <=? b0) then Ok tt else
  t8 ← slice b 8 24;
  let target := addr6 t8 in
  reject_if is_multicast6 target || is_unspecified6 target with Invalid;
  reject_if (b0 =? 135) && is_unspecified6 (e_source e)
            && negb (e_destination e =? solicited_node target) with Invalid;
  b4 ← b.[4];
  reject_if (b0 =? 136)
            && (is_unspecified6 (e_source e)
                || is_multicast6 (e_destination e) && negb (Z.land b4 0x40 =? 0)) with Invalid;
  Ok tt.
Definition decode_nd (e : Envelope) : outcome WireError Nd :=
  t ← transport e;
  let b := t_bytes t in
  reject_if negb (t_protocol t =? 58) || t_fragmented t || negb (e_hop_limit e =? 255)
            || (len b <? 4) with Invalid;
  b1 ← b.[1];
  reject_if negb (b1 =? 0)
            || negb (checksum (e_source e) (e_destination e) 58 b =? 0) with Invalid;
  b0 ← b.[0];
  base ← nd_base b0;
  reject_if len b <? base with Truncated;
  reject_if (b0 =? 134) && negb (link_local (e_source e)) with Invalid;
  reject_if is_multicast6 (e_source e) with Invalid;
  rest ← slice_from b base;
  options ← nd_options_loop (length rest) rest;
  reject_if ((b0 =? 133) || (b0 =? 135)) && is_unspecified6 (e_source e)
            && existsb (fun o => o_kind o =? 1) options with Invalid;
  nd_target e b b0 ;;
  Ok (mkNd b0 b options).

(** ** Prefixes *)

Record Prefix := mkPrefix { p_address : Z; p_length : Z }.
#[global] Instance Prefix_eq_dec : EqDecision Prefix.
Proof. solve_decision. Defined.

Definition prefix_mask (length : Z) : Z :=
  if length =? 0 then 0 else Z.land (Z.shiftl u128_max (128 - length)) u128_max.
Definition prefix_new (address length : Z) : option Prefix :=
  if 128 <? length then None
  else Some (mkPrefix (Z.land address (prefix_mask length)) length).
Definition contains (p : Prefix) (address : Z) : bool :=
  bool_decide (prefix_new address (p_length p) = Some p).
Definition ula (p : Prefix) : bool := Z.land (Z.shiftr (p_address p) 120 mod 256) 0xfe =? 0xfc.
Definition routable (p : Prefix) : bool :=
  (0 <? p_length p) && negb (link_local (p_address p)) && negb (is_multicast6 (p_address p))
  && negb (is_unspecified6 (p_address p)) && negb (is_loopback6 (p_address p)).
(** The derived [Ord]: address, then length. *)
Definition prefix_leb (p q : Prefix) : bool :=
  (p_address p <? p_address q) || (p_address p =? p_address q) && (p_length p <=? p_length q).

Definition u32_at {E} (b : bytes) (n : Z) : outcome E Z := s ← slice b n (n + 4); Ok (of_be s).

(** ** Prefix Information options *)

Record Pio := mkPio { pio_prefix : Prefix; pio_flags : Z; pio_preferred : Z; pio_valid : Z }.
#[global] Instance Pio_eq_dec : EqDecision Pio.
Proof. solve_decision. Defined.

Definition pio_decode (b : bytes) : outcome unit Pio :=
  reject_if negb (len b =? 32) with tt;
  b0 ← b.[0]; b1 ← b.[1];
  reject_if negb (b0 =? 3) || negb (b1 =? 4) with tt;
  a ← slice b 16 32;
  b2 ← b.[2];
  prefix ← ok_or (prefix_new (addr6 a) b2) tt;
  flags ← b.[3];
  preferred ← u32_at b 8;
  valid ← u32_at b 4;
  Ok (mkPio prefix flags preferred valid).
Definition pio_on_link (p : Pio) : bool := negb (Z.land (pio_flags p) 0x80 =? 0).
Definition pio_suitable (p : Pio) : bool :=
  (p_length (pio_prefix p) =? 64) && routable (pio_prefix p) && pio_on_link p
  && negb (Z.land (pio_flags p) 0x50 =? 0) && (1800 <=? pio_preferred p)
  && (pio_preferred p <=? pio_valid p).
Definition pio_encode (p : Pio) : bytes :=
  [3; 4; p_length (pio_prefix p); pio_flags p] ++ be32 (pio_valid p) ++ be32 (pio_preferred p)
  ++ zeros 4 ++ octets6 (p_address (pio_prefix p)).

(** ** Route Information options *)

Inductive Preference := Low | Medium | High.
#[global] Instance Preference_eq_dec : EqDecision Preference.
Proof. solve_decision. Defined.
Definition preference_decode (flags : Z) : option Preference :=
  let v := Z.land flags 0x18 in
  if v =? 0 then Some Medium else if v =? 8 then Some High
  else if v =? 24 then Some Low else None.
Definition preference_bits (p : Preference) : Z :=
  match p with Low => 24 | Medium => 0 | High => 8 end.

Record Rio := mkRio { rio_prefix : Prefix; rio_preference : Preference; rio_lifetime : Z }.
#[global] Instance Rio_eq_dec : EqDecision Rio.
Proof. solve_decision. Defined.

Definition rio_decode (b : bytes) : outcome unit Rio :=
  reject_if len b <? 8 with tt;
  b0 ← b.[0]; b1 ← b.[1]; b2 ← b.[2];
  reject_if negb (b0 =? 24) || negb ((1 <=? b1) && (b1 <=? 3)) || negb (len b =? b1 * 8)
            || (128 <? b2) || (0 <? b2) && (b1 <? 2) || (64 <? b2) && (b1 <? 3) with tt;
  src ← slice_from b 8;
  a ← copy_at (zeros 16) 0 src;
  prefix ← ok_or (prefix_new (addr6 a) b2) tt;
  b3 ← b.[3];
  preference ← ok_or (preference_decode b3) tt;
  lifetime ← u32_at b 4;
  Ok (mkRio prefix preference lifetime).
Definition rio_units (p : Prefix) : Z :=
  if p_length p =? 0 then 1 else if p_length p <=? 64 then 2 else 3.
Definition rio_encode (r : Rio) : bytes :=
  let n := rio_units (rio_prefix r) in
  [24; n; p_length (rio_prefix r); preference_bits (rio_preference r)]
  ++ be32 (rio_lifetime r) ++ sub (octets6 (p_address (rio_prefix r))) 0 ((n - 1) * 8).

(** ** PREF64 options *)

Record Pref64 := mkPref64 { pref64_prefix : Prefix; pref64_lifetime : Z }.
#[global] Instance Pref64_eq_dec : EqDecision Pref64.
Proof. solve_decision. Defined.

Definition plc_lengths : list Z := [96; 64; 56; 48; 40; 32].
Fixpoint position (x : Z) (l : list Z) : option Z :=
  match l with
  | [] => None
  | y :: l => if y =? x then Some 0 else Z.succ <$> position x l
  end.
Definition pref64_encode (p : Pref64) : outcome WireError bytes :=
  plc ← ok_or (position (p_length (pref64_prefix p)) plc_lengths) Invalid;
  reject_if negb (bool_decide (prefix_new (p_address (pref64_prefix p)) (p_length (pref64_prefix p))
                               = Some (pref64_prefix p))) with Invalid;
  let scaled := Z.shiftl ((Z.min (pref64_lifetime p) 65528 + 7) / 8) 3 in
  let word := Z.lor scaled plc in
  Ok ([38; 2] ++ be16 word ++ sub (octets6 (p_address (pref64_prefix p))) 0 12).
Definition pref64_decode (b : bytes) : outcome unit Pref64 :=
  reject_if negb (len b =? 16) with tt;
  b0 ← b.[0]; b1 ← b.[1];
  reject_if negb (b0 =? 38) || negb (b1 =? 2) with tt;
  b2 ← b.[2]; b3 ← b.[3];
  let word := u16be b2 b3 in
  length ← ok_or (plc_lengths !! Z.to_nat (Z.land word 7)) tt;
  src ← slice_from b 4;
  a ← copy_at (zeros 16) 0 src;
  prefix ← ok_or (prefix_new (addr6 a) length) tt;
  Ok (mkPref64 prefix (Z.land word 0xfff8)).

(** ** Building packets *)

Definition ipv6_packet (source destination next hop : Z) (payload : bytes)
  : outcome WireError bytes :=
  reject_if u16_max <? len payload with Capacity;
  Ok ([0x60; 0; 0; 0] ++ be16 (len payload) ++ [next; hop]
      ++ octets6 source ++ octets6 destination ++ payload).
Definition icmp_packet (source destination hop : Z) (body : bytes) : outcome WireError bytes :=
  reject_if len body <? 4 with Invalid;
  body ← copy_at body 2 [0; 0];
  let c := checksum source destination 58 body in
  body ← copy_at body 2 (be16 c);
  ipv6_packet source destination 58 hop body.

(** ** Router Advertisements *)

Record Advertisement := mkAdvertisement {
  ad_link : Link;
  ad_source : Z;
  ad_destination : Z;
  ad_mac : option bytes;
  ad_mtu : Z;
  ad_mo : Z;
  ad_default_lifetime : Z;
  ad_pios : list Pio;
  ad_rios : list Rio;
}.

Section sorting.
Context {A : Type} (key : A -> Prefix).
(** [sort_by_key] is stable; [dedup_by_key] keeps the first of a run. *)
Fixpoint insert_by (x : A) (l : list A) : list A :=
  match l with
  | [] => [x]
  | y :: l' => if prefix_leb (key x) (key y) then x :: y :: l' else y :: insert_by x l'
  end.
Definition sort_by_prefix (l : list A) : list A := foldr insert_by [] l.
Fixpoint dedup_from (prev : A) (l : list A) : list A :=
  match l with
  | [] => []
  | y :: l => if decide (key prev = key y) then dedup_from prev l else y :: dedup_from y l
  end.
Definition dedup_by_prefix (l : list A) : list A :=
  match l with [] => [] | x :: l => x :: dedup_from x l end.
End sorting.

Fixpoint encode_resolvers (resolvers : list (Z * Z)) : outcome WireError bytes :=
  match resolvers with
  | [] => Ok []
  | (address, lifetime) :: rest =>
      reject_if is_unspecified6 address || is_multicast6 address || is_loopback6 address
        with Invalid;
      b ← encode_resolvers rest;
      Ok ([25; 3; 0; 0] ++ be32 lifetime ++ octets6 address ++ b)
  end.
Fixpoint encode_pref64s (pref64 : list Pref64) : outcome WireError bytes :=
  match pref64 with
  | [] => Ok []
  | p :: rest => x ← pref64_encode p; b ← encode_pref64s rest; Ok (x ++ b)
  end.

Definition encode_services (self : Advertisement) (resolvers : list (Z * Z))
    (pref64 : list Pref64) : outcome WireError bytes :=
  reject_if (2 <? len resolvers) || (8 <? len pref64) with Capacity;
  let ail := bool_decide (ad_link self = Ail) in
  reject_if ail && (negb (len resolvers =? 0) || negb (len pref64 =? 0)) with Invalid;
  reject_if (ad_mtu self <? 1280) || negb (link_local (ad_source self)) with Invalid;
  let b := [134; 0; 0; 0; 0; if ail then Z.lor 2 (Z.land (ad_mo self) 0xc0) else 0]
           ++ be16 (if ail then 0 else Z.min (ad_default_lifetime self) 1800) ++ zeros 8
           ++ match ad_mac self with Some mac => [1; 1] ++ mac | None => [] end
           ++ (if ail then [] else [5; 1; 0; 0] ++ be32 (ad_mtu self))
           ++ concat (map pio_encode (sort_by_prefix pio_prefix (ad_pios self)))
           ++ concat (map rio_encode
                (dedup_by_prefix rio_prefix (sort_by_prefix rio_prefix (ad_rios self)))) in
  r ← encode_resolvers resolvers;
  p ← encode_pref64s pref64;
  let b := b ++ r ++ p in
  reject_if 1280 <? len b + 40 with Capacity;
  icmp_packet (ad_source self) (ad_destination self) 255 b.
Definition encode (self : Advertisement) : outcome WireError bytes := encode_services self [] [].

(** ** Hop-by-Hop options *)

(** [while at < end] *)
Fixpoint hop_loop (fuel : nat) (e : Envelope) (at_ last : Z) : outcome WireError (option Z) :=
  if last <=? at_ then Ok None else
  match fuel with
  | O => Panic
  | S fuel =>
      let p := e_payload e in
      kind ← p.[at_];
      if kind =? 0 then hop_loop fuel e (at_ + 1) last else
      reject_if last <? at_ + 2 with Truncated;
      length ← p.[at_ + 1];
      reject_if last <? at_ + 2 + length with Truncated;
      if kind =? 1 then
        pad ← slice p (at_ + 2) (at_ + 2 + length);
        reject_if existsb (fun x => negb (x =? 0)) pad with Invalid;
        hop_loop fuel e (at_ + 2 + length) last
      else if kind =? 5 then
        reject_if negb (length =? 2) with Invalid;
        hop_loop fuel e (at_ + 2 + length) last
      else
        let action := Z.shiftr kind 6 in
        if action =? 0 then hop_loop fuel e (at_ + 2 + length) last
        else if action =? 1 then Err Unsupported
        else if (action =? 3) && is_multicast6 (e_destination e) then Err Unsupported
        else Ok (Some (40 + at_))
  end.
Definition hop_options (e : Envelope) : outcome WireError (option Z) :=
  if negb (e_next_header e =? 0) then Ok None else
  let p := e_payload e in
  reject_if len p <? 2 with Truncated;
  p1 ← p.[1];
  let last := (p1 + 1) * 8 in
  reject_if len p <? last with Truncated;
  hop_loop (Z.to_nat last) e 2 last.

#[global] Arguments envelope : simpl never.
#[global] Arguments checksum : simpl never.
#[global] Arguments transport : simpl never.
#[global] Arguments decode_nd : simpl never.
#[global] Arguments hop_options : simpl never.
#[global] Arguments pio_encode : simpl never.
#[global] Arguments rio_encode : simpl never.
#[global] Arguments octets6 : simpl never.
