(* ===== verification/WireFacts.v ===== *)
(** Properties of the IPv6 and Neighbor Discovery wire formats. *)

From S2P Require Import Prelude Checksum Wire.

(** Conversion keeps the sixteen-round loop folded. *)
#[global] Strategy 100 [transport_loop].

(** ** Parsers do not panic *)

Definition envelope_wf (e : Envelope) : Prop :=
  is_bytes (e_packet e) /\ is_bytes (e_payload e) /\
  len (e_packet e) = 40 + len (e_payload e) /\ e_payload e = drop 40 (e_packet e) /\
  is_u128 (e_source e) /\ is_u128 (e_destination e) /\
  is_u8 (e_next_header e) /\ is_u8 (e_hop_limit e).

Lemma envelope_safe kind frame : is_bytes frame -> safe (envelope kind frame).
Proof.
  intros. unfold envelope. destruct kind; safe_auto; inv_all_ok; subst; safe_lia.
Qed.
Lemma addr6_sub b lo hi : is_bytes b -> 0 <= lo -> hi = lo + 16 -> hi <= len b ->
  is_u128 (addr6 (sub b lo hi)).
Proof.
  intros ? ? -> ?. pose proof (of_be_bound (sub b lo (lo + 16)) ltac:(eauto with snac)) as Hb.
  rewrite len_sub in Hb by lia. replace (lo + 16 - lo) with 16 in Hb by lia.
  unfold addr6. change (256 ^ 16) with (u128_max + 1) in Hb. u_lia.
Qed.
Lemma envelope_Ok kind frame e : is_bytes frame -> envelope kind frame = Ok e -> envelope_wf e.
Proof.
  intros Hb He. unfold envelope in He.
  destruct kind; inv_all_ok; subst; unfold envelope_wf; cbn [e_packet e_payload e_source
    e_destination e_next_header e_hop_limit]; byte_facts;
  (split_and!; [eauto with snac | eauto 6 with snac | | by rewrite sub_from by lia
    | apply addr6_sub; eauto with snac; lia | apply addr6_sub; eauto with snac; lia | done | done]).
  all: rewrite (len_sub (sub _ _ _) 40 (len (sub _ _ _))), !len_sub; u_lia.
Qed.

Lemma transport_advance_safe next p frag n rest :
  is_bytes p -> 8 <= n -> (forall next p', is_bytes p' -> is_u8 next -> safe (rest next p')) ->
  safe (transport_advance next p frag n rest).
Proof.
  intros. unfold transport_advance. safe_auto; inv_all_ok; subst.
  byte_facts. eauto with snac.
Qed.
Lemma transport_loop_safe rounds next p frag :
  is_bytes p -> safe (transport_loop rounds next p frag).
Proof.
  revert next p frag. induction rounds as [|rounds IH]; intros next p frag Hp; cbn [transport_loop]; [done|].
  safe_auto; byte_facts; try (apply transport_advance_safe; [done | u_lia | auto]).
Qed.
Lemma transport_safe e : envelope_wf e -> safe (transport e).
Proof. intros (_ & ? & _). by apply transport_loop_safe. Qed.

Lemma transport_advance_Ok next p frag n rest t :
  is_bytes p -> transport_advance next p frag n rest = Ok t ->
  exists next' p', is_bytes p' /\
    (t = mkTransport next' p' frag true \/ rest next' p' = Ok t).
Proof.
  intros Hp Ht. unfold transport_advance in Ht. inv_ok_hyp Ht; inv_all_ok; subst.
  destruct x; [injection Ht as <-|]; eauto 8 with snac.
Qed.
Lemma transport_loop_bytes rounds next p frag t :
  is_bytes p -> transport_loop rounds next p frag = Ok t -> is_bytes (t_bytes t).
Proof.
  revert next p frag. induction rounds as [|rounds IH]; intros next p frag Hp; [done|].
  cbn [transport_loop]. intros Ht. repeat case_match; inv_all_ok; try done; subst; try done.
  all: eapply transport_advance_Ok in Ht as (? & ? & ? & [->|?]); eauto.
Qed.
Lemma transport_bytes e t : envelope_wf e -> transport e = Ok t -> is_bytes (t_bytes t).
Proof. unfold transport. intros (_ & ? & _). by apply transport_loop_bytes. Qed.
Lemma transport_loop_len rounds next p frag t : transport_loop rounds next p frag = Ok t -> len (t_bytes t) <= len p.
Proof.
  assert (forall next p frag n rest, (forall next p', rest next p' = Ok t -> len (t_bytes t) <= len p') -> transport_advance next p frag n rest = Ok t -> len (t_bytes t) <= len p) as Hadv.
  { clear. intros next p frag n rest Hrest Ht. unfold transport_advance in Ht. inv_ok_hyp Ht; inv_all_ok; subst.
    match goal with Ht : (if ?x then _ else _) = Ok t |- _ => destruct x; [injection Ht as <-|apply Hrest in Ht] end; cbn [t_bytes] in *; rewrite ?len_sub in * by lia; lia. }
  revert next p frag. induction rounds as [|rounds IH]; intros next p frag; cbn [transport_loop]; [done|]. intros Ht.
  destruct (mem next [0; 43; 60]); [inv_all_ok; eapply Hadv; [|eassumption]; cbv beta; intros; by eapply IH|]. destruct (next =? 44); [eapply Hadv; [|exact Ht]; cbv beta; intros; by eapply IH|].
  destruct (next =? 51); [inv_all_ok; eapply Hadv; [|eassumption]; cbv beta; intros; by eapply IH|]. by injection Ht as <-.
Qed.
Lemma nd_options_safe fuel rest :
  is_bytes rest -> (length rest <= fuel)%nat -> safe (nd_options_loop fuel rest).
Proof.
  revert rest. induction fuel as [|fuel IH]; intros [|x r] Hb Hf; cbn [nd_options_loop]; try done.
  { cbn in Hf. lia. }
  safe_auto; inv_all_ok; subst. apply IH; [eauto with snac|]. byte_facts.
  rewrite sub_from, length_drop by u_lia. u_lia.
Qed.
Lemma nd_base_Ok kind n : nd_base kind = Ok n -> 8 <= n <= 24 /\ (135 <= kind -> n = 24).
Proof. unfold nd_base. repeat case_match; naive_solver lia. Qed.
Lemma nd_base_safe kind : safe (nd_base kind).
Proof. unfold nd_base. by repeat case_match. Qed.
Lemma nd_target_safe e b b0 : is_bytes b -> (135 <= b0 -> 24 <= len b) -> safe (nd_target e b b0).
Proof. intros. unfold nd_target. safe_auto. Qed.
Lemma decode_nd_safe e : envelope_wf e -> safe (decode_nd e).
Proof.
  intros He. unfold decode_nd. safe_step; [by apply transport_safe|].
  apply transport_bytes in Hx; [|done].
  safe_auto; inv_all_ok; subst; try apply nd_base_safe;
    match goal with H : nd_base _ = Ok _ |- _ => apply nd_base_Ok in H end;
    [lia | apply nd_options_safe; eauto with snac | apply nd_target_safe; [done|lia]].
Qed.
Lemma hop_loop_safe fuel e at_ last :
  is_bytes (e_payload e) -> 0 <= at_ -> last <= len (e_payload e) ->
  last - at_ <= Z.of_nat fuel -> safe (hop_loop fuel e at_ last).
Proof.
  revert at_. induction fuel as [|fuel IH]; intros at_ Hb H0 Hl Hf; cbn [hop_loop];
    (safe_step; [done|]); [lia|].
  safe_auto; byte_facts; apply IH; first [done | u_lia].
Qed.
Lemma hop_options_safe e : is_bytes (e_payload e) -> safe (hop_options e).
Proof.
  intros. unfold hop_options. safe_auto; byte_facts. apply hop_loop_safe; first [done | u_lia].
Qed.

(** ** Prefixes *)

Definition prefix_wf (p : Prefix) : Prop :=
  is_u128 (p_address p) /\ 0 <= p_length p <= 128 /\
  prefix_new (p_address p) (p_length p) = Some p.

Lemma prefix_mask_spec n : 0 <= n <= 128 -> prefix_mask n = Z.shiftl (Z.ones n) (128 - n).
Proof.
  intros. apply Z.eqb_eq.
  apply (check_below 129 (fun n => prefix_mask n =? Z.shiftl (Z.ones n) (128 - n))); [|lia].
  by vm_compute.
Qed.
Lemma land_high a n k : 0 <= k -> 0 <= n -> 0 <= a < 2 ^ (n + k) ->
  Z.land a (Z.shiftl (Z.ones n) k) = a / 2 ^ k * 2 ^ k.
Proof.
  intros. rewrite <-Z.shiftl_mul_pow2, <-Z.shiftr_div_pow2 by lia.
  apply Z.bits_inj'. intros i Hi. rewrite Z.land_spec, !Z.shiftl_spec by lia.
  destruct (decide (i < k)); [rewrite !(Z.testbit_neg_r _ (i - k)) by lia; apply andb_false_r|].
  rewrite Z.shiftr_spec by lia. replace (i - k + k) with i by lia.
  destruct (decide (i < n + k)).
  - rewrite Z.ones_spec_low by lia. apply andb_true_r.
  - rewrite (testbit_high a (n + k) i) by lia. done.
Qed.
Lemma prefix_new_spec a n : is_u128 a -> 0 <= n <= 128 ->
  prefix_new a n = Some (mkPrefix (a / 2 ^ (128 - n) * 2 ^ (128 - n)) n).
Proof.
  intros. unfold prefix_new. destruct (Z.ltb_spec 128 n); [lia|].
  rewrite prefix_mask_spec by lia. rewrite land_high; [done|lia|lia|].
  replace (n + (128 - n)) with 128 by lia. change (2 ^ 128) with (u128_max + 1). u_lia.
Qed.
Lemma prefix_wf_divides p : prefix_wf p ->
  p_address p / 2 ^ (128 - p_length p) * 2 ^ (128 - p_length p) = p_address p.
Proof. intros (? & ? & Hp). rewrite prefix_new_spec in Hp by done. destruct p. by injection Hp. Qed.
Lemma prefix_new_wf a n p : is_u128 a -> 0 <= n -> prefix_new a n = Some p -> prefix_wf p.
Proof.
  intros Ha Hn Hp. assert (n <= 128) by (unfold prefix_new in Hp; case_match; [done|lia]).
  rewrite prefix_new_spec in Hp by (done || lia). injection Hp as <-. unfold prefix_wf. cbn.
  set (k := 2 ^ (128 - n)). assert (0 < k) by (apply Z.pow_pos_nonneg; lia).
  pose proof (Z.div_mod a k ltac:(lia)). pose proof (Z.mod_pos_bound a k ltac:(lia)).
  assert (0 <= a / k) by (apply Z.div_pos; u_lia).
  assert (is_u128 (a / k * k)) by (unfold_widths; nia).
  split_and!; [u_lia..|lia|lia|]. rewrite prefix_new_spec by (done || lia).
  fold k. by rewrite Z.div_mul by lia.
Qed.

(** ** Option round trips *)

Lemma len_octets6 a : len (octets6 a) = 16.
Proof. apply len_be. Qed.
Lemma addr6_octets6 a : is_u128 a -> addr6 (octets6 a) = a.
Proof.
  intros. unfold addr6, octets6, be128. apply of_be_be_small.
  change (256 ^ Z.of_nat 16) with (u128_max + 1). u_lia.
Qed.
Lemma of_be_be32 x : is_u32 x -> of_be (be32 x) = x.
Proof. intros. apply of_be_be_small. change (256 ^ Z.of_nat 4) with (u32_max + 1). u_lia. Qed.

Definition pio_wf (p : Pio) : Prop :=
  prefix_wf (pio_prefix p) /\ is_u8 (pio_flags p) /\ is_u32 (pio_preferred p) /\ is_u32 (pio_valid p).

Lemma len_pio_encode p : len (pio_encode p) = 32.
Proof. done. Qed.
Lemma pio_decode_encode p : pio_wf p -> pio_decode (pio_encode p) = Ok p.
Proof.
  intros ((Ha & Hl & Hp) & Hf & Hpr & Hv). unfold pio_decode. rewrite len_pio_encode.
  unfold pio_encode, u32_at, octets6. cbn [Z.eqb Pos.eqb negb].
  read_head. cbn [Z.eqb Pos.eqb negb orb].
  read_slice 16 32 (be128 (p_address (pio_prefix p))). read_head.
  fold (octets6 (p_address (pio_prefix p))). rewrite (addr6_octets6 _ Ha), Hp. cbn [ok_or mbind outcome_bind]. read_head.
  read_slice 8 (8 + 4) (be32 (pio_preferred p)). read_slice 4 (4 + 4) (be32 (pio_valid p)).
  rewrite !of_be_be32 by done. by destruct p.
Qed.

Definition rio_wf (r : Rio) : Prop := prefix_wf (rio_prefix r) /\ is_u32 (rio_lifetime r).

Lemma rio_units_spec p : 0 <= p_length p <= 128 ->
  1 <= rio_units p <= 3 /\ p_length p <= (rio_units p - 1) * 64.
Proof. intros. unfold rio_units. repeat case_match; lia. Qed.
Lemma len_rio_encode r : prefix_wf (rio_prefix r) -> len (rio_encode r) = rio_units (rio_prefix r) * 8.
Proof.
  intros (_ & Hl & _). destruct (rio_units_spec _ Hl). unfold rio_encode, be32. len_simpl.
  rewrite len_sub; rewrite ?len_octets6; lia.
Qed.
(** The octets of a prefix beyond its length are zero, so a truncated address
    padded with zeros is the whole address. *)
Lemma addr6_truncated p m : prefix_wf p -> 0 <= m <= 16 -> p_length p <= 8 * m ->
  addr6 (sub (octets6 (p_address p)) 0 m ++ zeros (16 - m)) = p_address p.
Proof.
  intros Hp Hm Hl. pose proof (prefix_wf_divides p Hp) as Hd. destruct Hp as (Ha & Hn & _).
  unfold addr6. rewrite of_be_app, of_be_zeros, len_zeros, sub_to, Z.add_0_r by lia.
  unfold octets6, be128. replace 16%nat with (Z.to_nat m + Z.to_nat (16 - m))%nat by lia.
  rewrite be_app, take_app_length' by (pose proof (len_be (Z.to_nat m) (p_address p / 256 ^ Z.of_nat (Z.to_nat (16 - m)))); unfold len in *; lia).
  rewrite of_be_be, !Z2Nat.id by lia. set (k := 16 - m) in *.
  assert (256 ^ k = 2 ^ (8 * k)) as Hk by (change 256 with (2 ^ 8); rewrite <-Z.pow_mul_r; lia).
  rewrite Z.mod_small.
  - assert (exists w, p_address p = w * 256 ^ k) as [w ->].
    { replace (128 - p_length p) with (8 * m - p_length p + 8 * k) in Hd by lia.
      rewrite Z.pow_add_r, <-Hk, Z.mul_assoc in Hd by lia. eexists. symmetry. exact Hd. }
    by rewrite Z.div_mul by (apply Z.pow_nonzero; lia).
  - split; [apply Z.div_pos; [u_lia|apply Z.pow_pos_nonneg; lia]|].
    apply Z.div_lt_upper_bound; [apply Z.pow_pos_nonneg; lia|].
    rewrite <-Z.pow_add_r by lia. replace (k + m) with 16 by lia.
    change (256 ^ 16) with (u128_max + 1). u_lia.
Qed.
Lemma preference_roundtrip p : preference_decode (preference_bits p) = Some p.
Proof. by destruct p. Qed.
Lemma rio_decode_encode r : rio_wf r -> rio_decode (rio_encode r) = Ok r.
Proof.
  intros [Hw Ht]. pose proof Hw as (Ha & Hl & Hp).
  destruct (rio_units_spec _ Hl) as [Hu Hu'].
  unfold rio_decode. rewrite len_rio_encode by done. destruct (Z.ltb_spec (rio_units (rio_prefix r) * 8) 8); [lia|].
  unfold rio_encode, u32_at. set (n := rio_units (rio_prefix r)) in *. read_head.
  destruct (_ || _) eqn:Hc; [exfalso; unfold n, rio_units in Hc; clear -Hc Hl; repeat case_match; lia|].
  assert (len (sub (octets6 (p_address (rio_prefix r))) 0 ((n - 1) * 8)) = (n - 1) * 8) as Hs.
  { rewrite len_sub; rewrite ?len_octets6; lia. }
  set (a := sub (octets6 (p_address (rio_prefix r))) 0 ((n - 1) * 8)) in *.
  assert (slice_from (E:=unit) ([24; n; p_length (rio_prefix r); preference_bits (rio_preference r)]
     ++ be32 (rio_lifetime r) ++ a) 8 = Ok a) as ->.
  { rewrite app_assoc. by apply slice_from_app. }
  cbn [mbind outcome_bind]. rewrite copy_zeros by lia. cbn [mbind outcome_bind]. rewrite Hs.
  unfold a. rewrite addr6_truncated by (done || lia). rewrite Hp. cbn [ok_or mbind outcome_bind].
  read_head. rewrite preference_roundtrip. cbn [ok_or mbind outcome_bind].
  rewrite slice_mid by done. cbn [mbind outcome_bind]. rewrite of_be_be32 by done. by destruct r.
Qed.

Lemma land_fff8 w : is_u16 w -> Z.land w 0xfff8 = w / 8 * 8.
Proof. intros. by apply (land_high w 13 3); u_lia. Qed.

(** RFC 8781: the lifetime on the wire is a multiple of eight, rounded up and clamped. *)
Definition pref64_rounded (lifetime : Z) : Z := (Z.min lifetime 65528 + 7) / 8 * 8.
Definition pref64_wf (p : Pref64) : Prop :=
  is_u128 (p_address (pref64_prefix p)) /\ is_u32 (pref64_lifetime p).

Lemma position_plc n plc : position n plc_lengths = Some plc ->
  0 <= plc < 6 /\ plc_lengths !! Z.to_nat plc = Some n /\ 32 <= n <= 96.
Proof.
  cbn [position plc_lengths]. repeat match goal with
  | |- context [?m =? n] => destruct (Z.eqb_spec m n) as [<-|_];
      [intros [= <-]; split_and!; (done || lia)|]
  end. done.
Qed.
Lemma pref64_encode_Ok p b : pref64_wf p -> pref64_encode p = Ok b ->
  exists w, is_u16 w /\ w / 8 * 8 = pref64_rounded (pref64_lifetime p) /\
    plc_lengths !! Z.to_nat (Z.land w 7) = Some (p_length (pref64_prefix p)) /\
    p_length (pref64_prefix p) <= 96 /\ prefix_wf (pref64_prefix p) /\
    b = [38; 2] ++ be16 w ++ sub (octets6 (p_address (pref64_prefix p))) 0 12.
Proof.
  intros [Ha Hl] Hb. unfold pref64_encode in Hb. inv_ok_hyp Hb. subst b.
  apply position_plc in Hx as (Hp & Hn & Hr). set (s := (Z.min (pref64_lifetime p) 65528 + 7) / 8) in *.
  assert (0 <= s <= 8191) by (unfold s; split; [apply Z.div_pos | apply Z.lt_succ_r, Z.div_lt_upper_bound]; u_lia).
  rewrite lor_shiftl by (cbn; lia). change (2 ^ 3) with 8.
  exists (s * 8 + x). change 7 with (2 ^ 3 - 1) at 1. rewrite land_ones_mod by lia. change (2 ^ 3) with 8.
  rewrite Z.div_add_l, (Z.div_small x), Z.add_0_r by lia.
  rewrite (Z.add_comm (s * 8)), Z.mod_add, Z.mod_small by lia.
  rewrite negb_false_iff, bool_decide_eq_true in Hc.
  split_and!; [u_lia..| done | done | lia | split_and!; [u_lia..|lia|lia|done] | ].
  by rewrite (Z.add_comm x).
Qed.
Lemma len_pref64 p b : pref64_wf p -> pref64_encode p = Ok b -> len b = 16.
Proof.
  intros Hp (w & _ & _ & _ & _ & _ & ->)%pref64_encode_Ok; [|done].
  unfold be16. len_simpl. rewrite len_sub by (rewrite ?len_octets6; lia). lia.
Qed.
Lemma pref64_decode_encode p b : pref64_wf p -> pref64_encode p = Ok b ->
  pref64_decode b = Ok (mkPref64 (pref64_prefix p) (pref64_rounded (pref64_lifetime p))).
Proof.
  intros Hp Hb. pose proof (len_pref64 p b Hp Hb) as Hlen.
  apply pref64_encode_Ok in Hb as (w & Hw & Hl & Hn & Hr & Hwf & ->); [|done].
  unfold pref64_decode. rewrite Hlen, app_assoc. cbn [Z.eqb Pos.eqb negb]. read_head.
  cbn [Z.eqb Pos.eqb negb orb]. rewrite u16be_be16, Hn by done. cbn [ok_or mbind outcome_bind].
  rewrite slice_from_app by done. cbn [mbind outcome_bind].
  assert (len (sub (octets6 (p_address (pref64_prefix p))) 0 12) = 12) as H12
    by (rewrite len_sub; rewrite ?len_octets6; lia).
  rewrite copy_zeros by lia. cbn [mbind outcome_bind]. rewrite H12, addr6_truncated by (done || lia).
  pose proof Hwf as (_ & _ & ->). cbn. by rewrite land_fff8, Hl.
Qed.

(** ** Packets as their header fields *)

Definition packet6 (v : bytes) (nh hop s d : Z) (pl : bytes) : bytes :=
  (v ++ be16 (len pl) ++ [nh; hop]) ++ octets6 s ++ octets6 d ++ pl.
Lemma envelope_packet6 v nh hop s d pl :
  (exists v0 v1 v2 v3, v = [v0; v1; v2; v3] /\ Z.shiftr v0 4 = 6) -> is_u128 s -> is_u128 d -> len pl <= u16_max ->
  envelope RawIpv6 (packet6 v nh hop s d pl) = Ok (mkEnvelope (packet6 v nh hop s d pl) pl s d nh hop) /\
  len (packet6 v nh hop s d pl) = 40 + len pl.
Proof.
  intros (v0 & v1 & v2 & v3 & -> & Hv) Hs Hd Hpl0. pose proof (len_nonneg pl) as Hpl.
  assert (is_u16 (len pl)) as Hu by u_lia. unfold packet6.
  unfold octets6. set (h8 := [v0; v1; v2; v3] ++ be16 (len pl) ++ [nh; hop]).
  assert (len (h8 ++ be128 s ++ be128 d ++ pl) = 40 + len pl) as Hl.
  { unfold be128. rewrite !len_app, !len_be. change (len h8) with 8. lia. }
  split; [|done]. unfold envelope. cbn [mbind outcome_bind]. rewrite Hl.
  destruct (Z.ltb_spec (40 + len pl) 40) as [|_]; [lia|]. unfold h8 at 1 2 3 5 6. read_head.
  rewrite Hv. cbn [Z.eqb Pos.eqb negb]. rewrite u16be_be16 by done. fold h8.
  assert (get_range (h8 ++ be128 s ++ be128 d ++ pl) 0 (40 + len pl)
    = Some (h8 ++ be128 s ++ be128 d ++ pl)) as ->.
  { apply get_range_Some. rewrite Hl. split_and!; [lia..|]. by rewrite <-Hl, sub_all. }
  cbn [ok_or mbind outcome_bind].
  assert (slice_from (E:=WireError) (h8 ++ be128 s ++ be128 d ++ pl) 40 = Ok pl) as ->
    by (rewrite !app_assoc; by apply slice_from_app).
  cbn [mbind outcome_bind].
  assert (slice (E:=WireError) (h8 ++ be128 s ++ be128 d ++ pl) 8 24 = Ok (be128 s)) as ->
    by (by apply slice_mid).
  cbn [mbind outcome_bind].
  assert (slice (E:=WireError) (h8 ++ be128 s ++ be128 d ++ pl) 24 40 = Ok (be128 d)) as ->
    by (rewrite (app_assoc h8); by apply slice_mid).
  cbn [mbind outcome_bind]. unfold h8. read_head. by rewrite !addr6_octets6.
Qed.
(** Every accepted packet that fills its buffer has this shape. *)
Lemma envelope_shape b e :
  is_bytes b -> envelope RawIpv6 b = Ok e -> len (e_packet e) = len b ->
  exists v0 v1 v2 v3, Z.shiftr v0 4 = 6 /\ is_bytes [v0; v1; v2; v3] /\ len (e_payload e) <= u16_max /\
    b = packet6 [v0; v1; v2; v3] (e_next_header e) (e_hop_limit e) (e_source e) (e_destination e) (e_payload e).
Proof.
  intros Hb He Hlen. pose proof (envelope_Ok _ _ _ Hb He) as (_ & _ & Hl & Hdrop & _).
  pose proof (len_nonneg (e_payload e)). unfold envelope in He. cbn [mbind outcome_bind] in He.
  destruct b as [|v0 [|v1 [|v2 [|v3 [|v4 [|v5 [|nh [|hop r]]]]]]]];
    try (rewrite ?len_cons in *; unfold len in *; cbn [length] in *; lia).
  assert (len r = 32 + len (e_payload e)) as Hr by (rewrite !len_cons in Hlen; lia).
  exists v0, v1, v2, v3. inv_all_ok. subst e. cbn [e_packet e_payload e_next_header e_hop_limit e_source e_destination] in *.
  inversion Hx; inversion Hx0; inversion Hx1; inversion Hx6; inversion Hx7. subst. clear Hx Hx0 Hx1 Hx6 Hx7.
  clear Hl Hdrop H Hr. set (B := x :: v1 :: v2 :: v3 :: x0 :: x1 :: x6 :: x7 :: r) in *.
  rewrite len_sub in Hlen by lia. rewrite Z.sub_0_r in Hlen. rewrite Hlen, sub_all in *.
  assert (sub B 8 24 = take 16 r) as -> by reflexivity.
  assert (sub B 24 40 = take 16 (drop 16 r)) as -> by reflexivity.
  assert (sub B 40 (len B) = drop 32 r) as -> by (by rewrite sub_from by lia).
  apply Forall_cons_iff in Hb as [B0 Hb]. apply Forall_cons_iff in Hb as [B1 Hb].
  apply Forall_cons_iff in Hb as [B2 Hb]. apply Forall_cons_iff in Hb as [B3 Hb].
  apply Forall_cons_iff in Hb as [B4 Hb]. apply Forall_cons_iff in Hb as [B5 Hb].
  apply Forall_cons_iff in Hb as [_ Hb]. apply Forall_cons_iff in Hb as [_ Hb].
  unfold B in Hlen. rewrite !len_cons in Hlen.
  assert (len (drop 32 r) = u16be x0 x1) as Hd by (rewrite len_drop; u_lia).
  split_and!; [lia|bytes_tac|u_lia|].
  unfold packet6. rewrite Hd, be16_u16be by done. unfold octets6, addr6.
  assert (forall s, is_bytes s -> len s = 16 -> be128 (of_be s) = s) as Hoct.
  { intros s Hs Hls. unfold be128. replace 16%nat with (length s) by (unfold len in Hls; lia). by apply be_of_be. }
  rewrite !Hoct; [| by apply Forall_take, Forall_drop | rewrite len_take, len_drop; u_lia
    | by apply Forall_take | rewrite len_take; u_lia].
  unfold B. cbn [app]. do 8 f_equal. rewrite <-(take_drop 16 r) at 1. f_equal.
  rewrite <-(take_drop 16 (drop 16 r)) at 1. f_equal. by rewrite drop_drop.
Qed.

Lemma envelope_ipv6_packet s d n h pl pkt :
  is_u128 s -> is_u128 d -> ipv6_packet s d n h pl = Ok pkt ->
  envelope RawIpv6 pkt = Ok (mkEnvelope pkt pl s d n h) /\ len pkt = 40 + len pl.
Proof.
  intros Hs Hd H. unfold ipv6_packet in H. inv_ok_hyp H. pose proof (len_nonneg pl).
  assert (pkt = packet6 [0x60; 0; 0; 0] n h s d pl) as -> by (unfold packet6; by rewrite <-H, <-!app_assoc).
  apply envelope_packet6; [by exists 0x60, 0, 0, 0 | done | done | u_lia].
Qed.

(** Inserting the computed checksum makes the pseudo-header sum verify. *)
Lemma checksum_fill s d next b lo :
  is_bytes b -> len b <= u16_max -> is_u8 next -> 0 <= lo -> Z.even lo = true -> lo + 2 <= len b ->
  checksum s d next (put b lo (be16 (checksum s d next (put b lo [0; 0])))) = 0.
Proof.
  intros Hb Hl Hn Hlo He Hf. unfold checksum at 1.
  assert (len (put b lo (be16 (checksum s d next (put b lo [0; 0])))) = len (put b lo [0; 0])) as ->
    by (rewrite !len_put; [done|..]; unfold be16; rewrite ?len_be; change (len [0; 0]) with 2; lia).
  rewrite sum_words_fill; [|done..|apply complement16_u16]. rewrite !Z.add_assoc.
  unfold checksum. pose proof (sum_words_bound (octets6 s) ltac:(apply is_bytes_be)) as H1.
  pose proof (sum_words_bound (octets6 d) ltac:(apply is_bytes_be)) as H2.
  pose proof (sum_words_bound (be32 (len (put b lo [0; 0]))) ltac:(apply is_bytes_be)) as H3.
  pose proof (sum_words_bound (put b lo [0; 0])) as H4. rewrite len_octets6 in *.
  unfold be32 in *. rewrite len_be in H3. rewrite len_put in H4 by (change (len [0; 0]) with 2; lia).
  specialize (H4 ltac:(apply is_bytes_put; [done|]; do 2 (apply is_bytes_cons; split; [u_lia|]); constructor)).
  assert ((len b + 1) / 2 <= 32768) by (apply Z.lt_succ_r, Z.div_lt_upper_bound; u_lia).
  change ((16 + 1) / 2) with 8 in *. change ((Z.of_nat 4 + 1) / 2) with 2 in *.
  apply complement_verifies; [lia|u_lia|u_lia].
Qed.

Lemma icmp_packet_Ok s d hop body pkt :
  is_bytes body -> icmp_packet s d hop body = Ok pkt ->
  4 <= len body <= u16_max /\
  exists c, is_u16 c /\ checksum s d 58 (put body 2 (be16 c)) = 0 /\
    ipv6_packet s d 58 hop (put body 2 (be16 c)) = Ok pkt.
Proof.
  intros Hb H. unfold icmp_packet in H. inv_ok_hyp H. subst.
  set (c := checksum s d 58 (put body 2 [0; 0])) in *.
  assert (is_u16 c) by apply complement16_u16. change (len [0; 0]) with 2 in *.
  rewrite put_put in H by (done || (change (len [0; 0]) with 2; lia)).
  assert (len (put body 2 (be16 c)) = len body) as Hl
    by (apply len_put; [lia|unfold be16; rewrite len_be; lia]).
  assert (len body <= u16_max) by (unfold ipv6_packet in H; rewrite Hl in H; case_match; [done|lia]).
  split; [lia|]. exists c. split_and!; [done| |done]. apply checksum_fill; (done || u_lia).
Qed.

(** What the builders give, and that a short ICMPv6 message always fits. *)
Lemma ipv6_packet_yields s d nh hop (pl : list Z) n : is_u8 nh -> is_u8 hop -> buffer n pl ->
  yields (buffer (40 + n)) (ipv6_packet s d nh hop pl).
Proof.
  intros Hn Hh [Hp <-]. unfold ipv6_packet. apply yields_reject. intros _. cbn [yields]. split.
  - rewrite !is_bytes_app. split_and!; try done; try apply is_bytes_be; bytes_tac.
  - unfold be16. rewrite !len_app, len_be, !len_octets6. change (len [96; 0; 0; 0]) with 4. change (len [nh; hop]) with 2. lia.
Qed.
Lemma icmp_packet_yields s d hop b : is_u8 hop -> is_bytes b -> yields is_bytes (icmp_packet s d hop b).
Proof.
  intros Hh Hb. unfold icmp_packet. apply yields_reject. intros Hl%Z.ltb_ge.
  eapply yields_bind; [apply (yields_copy (len b)); [done|by repeat constructor|lia|change (len [0; 0]) with 2; lia]|]. intros b1 [H1 Hl1]. cbv zeta.
  eapply yields_bind; [apply (yields_copy (len b)); [done|apply is_bytes_be|lia|unfold be16; rewrite len_be; lia]|]. intros b2 H2.
  eapply yields_weaken; [by apply (ipv6_packet_yields _ _ _ _ _ (len b))|]. by intros a [].
Qed.
Lemma icmp_packet_fits s d hop b : is_u8 hop -> is_bytes b -> 4 <= len b <= u16_max -> exists p, icmp_packet s d hop b = Ok p /\ is_bytes p.
Proof.
  intros Hh Hb Hl. pose proof (icmp_packet_yields s d hop b Hh Hb) as Hy. destruct (icmp_packet s d hop b) as [p|e|] eqn:E; [by exists p| |done].
  exfalso. unfold icmp_packet in E. destruct (Z.ltb_spec (len b) 4); [lia|]. unfold copy_at in E. change (len [0; 0]) with 2 in E.
  destruct (Z.leb_spec (2 + 2) (len b)); [|lia]. cbn [Z.leb Z.compare andb mbind outcome_bind] in E. unfold be16 in E. rewrite len_be in E. rewrite len_put in E by (done || (change (len [0; 0]) with 2; lia)).
  destruct (Z.leb_spec (2 + Z.of_nat 2) (len b)); [|lia]. cbn [Z.leb Z.compare andb mbind outcome_bind] in E. unfold ipv6_packet in E.
  rewrite !len_put in E by (rewrite ?len_be; rewrite ?len_put; rewrite ?len_be; change (len [0; 0]) with 2; lia). destruct (Z.ltb_spec u16_max (len b)); [lia|done].
Qed.

Lemma icmp_packet_safe s d hop b : safe (icmp_packet s d hop b).
Proof.
  unfold icmp_packet. destruct (Z.ltb_spec (len b) 4); [done|]. unfold copy_at. change (len [0; 0]) with 2. destruct (Z.leb_spec (2 + 2) (len b)); [|lia].
  cbn [Z.leb Z.compare andb mbind outcome_bind]. unfold be16. rewrite len_be, len_put by (done || (change (len [0; 0]) with 2; lia)).
  destruct (Z.leb_spec (2 + Z.of_nat 2) (len b)); [|lia]. cbn [Z.leb Z.compare andb mbind outcome_bind]. unfold ipv6_packet. by case_match.
Qed.
(** A parsed packet, with its hop limit at its place. *)
Definition received (e : Envelope) : Prop := envelope_wf e /\ (forall E, idx (E:=E) (e_packet e) 7 = Ok (e_hop_limit e)) /\ len (e_payload e) <= u16_max.
Lemma envelope_received kind frame e : is_bytes frame -> envelope kind frame = Ok e -> received e.
Proof.
  intros Hb He. split; [by eapply envelope_Ok|]. unfold envelope in He. apply bind_Ok in He as (p & Hp & He). cbv beta zeta in He. assert (is_bytes p) as Hpb by (destruct kind; inv_all_ok; subst; eauto with snac). clear Hp.
  inv_all_ok. subst e. cbn [e_packet e_hop_limit e_payload]. split; [intros E|byte_facts; match goal with H : ?x = sub ?y 40 (len ?y) |- _ => subst x; rewrite len_sub by lia; subst y; rewrite len_sub by lia end; u_lia].
  match goal with H : idx p 7 = Ok _ |- _ => apply idx_Ok in H as [_ H]; rename H into H7 end. match goal with H : 0 <= 40 <= len ?v |- _ => subst v; rewrite len_sub in H by lia end. rewrite sub_to. apply idx_Ok. split; [lia|]. rewrite lookup_take_lt by lia. exact H7.
Qed.

(** ** Option lists *)

Definition option_wf (o : bytes) : Prop :=
  exists k n rest, o = k :: n :: rest /\ 1 <= n /\ len o = n * 8.
Definition nd_option (o : bytes) : NdOption := mkNdOption (nth 0 o 0) o.

Lemma option_wf_nonempty o : option_wf o -> 8 <= len o.
Proof. intros (k & n & rest & _ & ? & ->). lia. Qed.
Lemma nd_options_concat os fuel :
  Forall option_wf os -> (length os <= fuel)%nat ->
  nd_options_loop fuel (concat os) = Ok (map nd_option os).
Proof.
  intros Hos. revert fuel. induction Hos as [|o os Ho Hos IH]; intros fuel Hf; [by destruct fuel|].
  destruct fuel as [|fuel]; cbn in Hf; [lia|]. cbn [concat map].
  destruct Ho as (k & n & rest & -> & Hn & Hl). pose proof (len_nonneg (concat os)).
  assert (slice (E:=WireError) ((k :: n :: rest) ++ concat os) 0 (n * 8) = Ok (k :: n :: rest)) as Hs
    by (apply (slice_mid [] (k :: n :: rest) (concat os) 0 (n * 8)); [done | by rewrite <-Hl]).
  assert (slice_from (E:=WireError) ((k :: n :: rest) ++ concat os) (n * 8) = Ok (concat os)) as Hr
    by (by apply slice_from_app).
  assert (len ((k :: n :: rest) ++ concat os) = n * 8 + len (concat os)) as Hlen by (rewrite len_app; lia).
  change ((k :: n :: rest) ++ concat os) with (k :: n :: (rest ++ concat os)) in *.
  cbn [nd_options_loop]. rewrite Hlen.
  destruct (Z.ltb_spec (n * 8 + len (concat os)) 2); [lia|].
  change (idx (E:=WireError) (k :: n :: rest ++ concat os) 1) with (Ok (E:=WireError) n).
  cbn [mbind outcome_bind]. destruct (_ || _) eqn:Hc; [lia|].
  change (idx (E:=WireError) (k :: n :: rest ++ concat os) 0) with (Ok (E:=WireError) k).
  cbn [mbind outcome_bind]. rewrite Hs. cbn [mbind outcome_bind]. rewrite Hr. cbn [mbind outcome_bind].
  rewrite IH by lia. done.
Qed.
Lemma length_concat_ge os : Forall option_wf os -> (length os <= length (concat os))%nat.
Proof.
  induction 1 as [|o os Ho Hos IH]; [done|]. cbn. rewrite length_app.
  apply option_wf_nonempty in Ho. unfold len in Ho. lia.
Qed.

(** The options an advertisement carries, in wire order. *)
Definition resolver_option (r : Z * Z) : bytes := [25; 3; 0; 0] ++ be32 (snd r) ++ octets6 (fst r).
Definition ra_options (a : Advertisement) (resolvers : list (Z * Z)) (pref64s : list bytes) : list bytes :=
  match ad_mac a with Some mac => [[1; 1] ++ mac] | None => [] end
  ++ (if decide (ad_link a = Ail) then [] else [[5; 1; 0; 0] ++ be32 (ad_mtu a)])
  ++ map pio_encode (sort_by_prefix pio_prefix (ad_pios a))
  ++ map rio_encode (dedup_by_prefix rio_prefix (sort_by_prefix rio_prefix (ad_rios a)))
  ++ map resolver_option resolvers ++ pref64s.
Definition ra_header (a : Advertisement) : bytes :=
  let ail := bool_decide (ad_link a = Ail) in
  [134; 0; 0; 0; 0; if ail then Z.lor 2 (Z.land (ad_mo a) 0xc0) else 0]
  ++ be16 (if ail then 0 else Z.min (ad_default_lifetime a) 1800) ++ zeros 8.

Definition advertisement_wf (a : Advertisement) : Prop :=
  is_u128 (ad_source a) /\ is_u128 (ad_destination a) /\
  (forall mac, ad_mac a = Some mac -> len mac = 6 /\ is_bytes mac) /\
  is_u32 (ad_mtu a) /\ is_u8 (ad_mo a) /\ is_u16 (ad_default_lifetime a) /\
  Forall pio_wf (ad_pios a) /\ Forall rio_wf (ad_rios a).

Lemma encode_resolvers_Ok rs b :
  encode_resolvers rs = Ok b -> b = concat (map resolver_option rs).
Proof.
  revert b. induction rs as [|[a l] rs IH]; intros b Hb; cbn [encode_resolvers] in Hb; [by injection Hb|].
  inv_ok_hyp Hb. apply IH in Hx as ->. subst b. unfold resolver_option. cbn [map concat fst snd]. by rewrite <-!app_assoc.
Qed.
Lemma encode_pref64s_Ok ps b :
  encode_pref64s ps = Ok b -> exists os, b = concat os /\ Forall2 (fun p o => pref64_encode p = Ok o) ps os.
Proof.
  revert b. induction ps as [|p ps IH]; intros b Hb; cbn [encode_pref64s] in Hb.
  - injection Hb as <-. exists []. by split; [|constructor].
  - inv_ok_hyp Hb. apply IH in Hx0 as (os & -> & Hos). exists (x :: os). split; [by rewrite <-Hb|by constructor].
Qed.
Lemma sort_by_prefix_perm {A} (key : A -> Prefix) l : sort_by_prefix key l ≡ₚ l.
Proof.
  induction l as [|x l IH]; [done|]. change (insert_by key x (sort_by_prefix key l) ≡ₚ x :: l).
  transitivity (x :: sort_by_prefix key l); [|by constructor].
  generalize (sort_by_prefix key l). clear IH l.
  intros l. induction l as [|y l IH]; cbn; [reflexivity|]. case_match; [reflexivity|].
  rewrite IH. apply Permutation_swap.
Qed.
Lemma dedup_from_incl {A} (key : A -> Prefix) x l : dedup_from key x l ⊆ l.
Proof. revert x. induction l as [|y l IH]; intros x; cbn; [done|]. case_decide; set_solver. Qed.
Lemma dedup_incl {A} (key : A -> Prefix) l : dedup_by_prefix key l ⊆ l.
Proof. destruct l as [|x l]; [done|]. cbn. pose proof (dedup_from_incl key x l). set_solver. Qed.
Lemma Forall_sort {A} (P : A -> Prop) key l : Forall P l -> Forall P (sort_by_prefix key l).
Proof. by rewrite sort_by_prefix_perm. Qed.
Lemma Forall_dedup {A} (P : A -> Prop) key l : Forall P l -> Forall P (dedup_by_prefix key l).
Proof. rewrite !Forall_forall. intros H x Hx. apply H.
  by apply list_elem_of_In, (dedup_incl key l), list_elem_of_In.
Qed.

Lemma encode_services_safe a rs ps : safe (encode_services a rs ps).
Proof.
  unfold encode_services. case_match; [done|]. cbv zeta. case_match; [done|]. case_match; [done|]. apply safe_bind; [|intros b1 _; apply safe_bind; [|intros b2 _; case_match; [done|apply icmp_packet_safe]]].
  - clear. induction rs as [|[x l] rs IH]; cbn [encode_resolvers]; [done|]. case_match; [done|]. apply safe_bind; [exact IH|done].
  - clear. induction ps as [|p ps IH]; cbn [encode_pref64s]; [done|]. apply safe_bind; [|intros; apply safe_bind; [exact IH|done]]. unfold pref64_encode.
    apply safe_bind; [apply safe_ok_or|]. intros. by case_match.
Qed.
Lemma encode_services_Ok a rs ps pkt :
  encode_services a rs ps = Ok pkt ->
  link_local (ad_source a) = true /\
  exists os, Forall2 (fun p o => pref64_encode p = Ok o) ps os /\
    len (ra_header a ++ concat (ra_options a rs os)) + 40 <= 1280 /\
    icmp_packet (ad_source a) (ad_destination a) 255 (ra_header a ++ concat (ra_options a rs os)) = Ok pkt.
Proof.
  intros H. unfold encode_services in H. inv_ok_hyp H.
  apply encode_resolvers_Ok in Hx as ->. apply encode_pref64s_Ok in Hx0 as (os & -> & Hos).
  split; [by destruct (link_local (ad_source a)); [|rewrite orb_true_r in Hc1]|]. exists os. split; [done|].
  assert (ra_header a ++ concat (ra_options a rs os) =
    ([134; 0; 0; 0; 0; if bool_decide (ad_link a = Ail) then Z.lor 2 (Z.land (ad_mo a) 0xc0) else 0]
     ++ be16 (if bool_decide (ad_link a = Ail) then 0 else Z.min (ad_default_lifetime a) 1800) ++ zeros 8
     ++ match ad_mac a with Some mac => [1; 1] ++ mac | None => [] end
     ++ (if bool_decide (ad_link a = Ail) then [] else [5; 1; 0; 0] ++ be32 (ad_mtu a))
     ++ concat (map pio_encode (sort_by_prefix pio_prefix (ad_pios a)))
     ++ concat (map rio_encode
                (dedup_by_prefix rio_prefix (sort_by_prefix rio_prefix (ad_rios a)))))
    ++ concat (map resolver_option rs) ++ concat os) as ->; [|split; [lia|done]].
  clear. unfold ra_header, ra_options. rewrite !concat_app, <-!app_assoc.
  destruct (ad_mac a), (ad_link a); cbn [concat]; rewrite ?app_nil_l, ?app_nil_r, <-?app_assoc;
    reflexivity.
Qed.
Lemma pref64_options_wf ps os :
  Forall pref64_wf ps -> Forall2 (fun p o => pref64_encode p = Ok o) ps os ->
  Forall option_wf os /\ Forall is_bytes os.
Proof.
  intros Hps Hos. induction Hos as [|p o ps os Ho _ IH]; [by split; constructor|].
  apply Forall_cons_iff in Hps as [Hp Hps]. destruct (IH Hps).
  pose proof (len_pref64 _ _ Hp Ho). apply pref64_encode_Ok in Ho as (w & _ & _ & _ & _ & _ & ->); [|done].
  split; constructor; try done; [by eexists 38, 2, _|].
  unfold be16, octets6, be128. bytes_tac.
Qed.

Lemma pio_option p : pio_wf p -> option_wf (pio_encode p) /\ is_bytes (pio_encode p).
Proof.
  intros ((_ & Hl & _) & Hf & _). split; [by eexists 3, 4, _|].
  unfold pio_encode, be32, octets6, be128. bytes_tac.
Qed.
Lemma rio_option r : rio_wf r -> option_wf (rio_encode r) /\ is_bytes (rio_encode r).
Proof.
  intros [Hw _]. pose proof Hw as (_ & Hl & _). destruct (rio_units_spec _ Hl) as [Hu _]. split.
  - eexists 24, (rio_units (rio_prefix r)), _. split; [done|]. split; [lia|]. by apply len_rio_encode.
  - unfold rio_encode, be32, octets6, be128.
    assert (is_u8 (preference_bits (rio_preference r))) by (destruct (rio_preference r); cbn; u_lia). bytes_tac.
Qed.
Lemma resolver_option_wf r : option_wf (resolver_option r) /\ is_bytes (resolver_option r).
Proof.
  split; [by eexists 25, 3, _|]. unfold resolver_option, be32, octets6, be128. bytes_tac.
Qed.

Lemma Forall_map_both {A} (f : A -> bytes) (P : A -> Prop) l :
  (forall x, P x -> option_wf (f x) /\ is_bytes (f x)) -> Forall P l ->
  Forall option_wf (map f l) /\ Forall is_bytes (map f l).
Proof. intros Hf. induction 1 as [|x l Hx _ [IH1 IH2]]; cbn; [done|]. destruct (Hf x Hx). by split; constructor. Qed.
Lemma ra_options_wf a rs ps os :
  advertisement_wf a -> Forall pref64_wf ps -> Forall2 (fun p o => pref64_encode p = Ok o) ps os ->
  Forall option_wf (ra_options a rs os) /\ Forall is_bytes (ra_options a rs os).
Proof.
  intros (_ & _ & Hmac & _ & _ & _ & Hp & Hr) Hps Hos.
  destruct (pref64_options_wf ps os Hps Hos) as [Ho1 Ho2].
  destruct (Forall_map_both pio_encode pio_wf (sort_by_prefix pio_prefix (ad_pios a)) pio_option) as [Hp1 Hp2];
    [by apply Forall_sort|].
  destruct (Forall_map_both rio_encode rio_wf
    (dedup_by_prefix rio_prefix (sort_by_prefix rio_prefix (ad_rios a))) rio_option) as [Hr1 Hr2];
    [by apply Forall_dedup, Forall_sort|].
  destruct (Forall_map_both resolver_option (fun _ => True) rs) as [Hs1 Hs2];
    [intros; apply resolver_option_wf | by apply Forall_true|].
  assert (Forall option_wf (match ad_mac a with Some mac => [[1; 1] ++ mac] | None => [] end) /\
          Forall is_bytes (match ad_mac a with Some mac => [[1; 1] ++ mac] | None => [] end)) as [Hm1 Hm2].
  { destruct (ad_mac a) as [mac|]; [|by split]. destruct (Hmac mac eq_refl) as [Hl Hb]. split; (constructor; [|done]).
    - eexists 1, 1, mac. split; [done|]. split; [lia|]. rewrite len_app, Hl. done.
    - bytes_tac. }
  unfold ra_options. rewrite !Forall_app. split_and!; try done; destruct (decide _); try done;
    (constructor; [|done]); [by eexists 5, 1, _ | unfold be32; bytes_tac].
Qed.

(** ** What a decoder finds among the options *)

Definition decoded {A} (dec : bytes -> outcome unit A) (os : list NdOption) : list A :=
  omap (fun o => match dec (o_bytes o) with Ok a => Some a | _ => None end) os.

Lemma decoded_app {A} (dec : bytes -> outcome unit A) l k :
  decoded dec (l ++ k) = decoded dec l ++ decoded dec k.
Proof. apply omap_app. Qed.
Lemma decoded_other {A} (dec : bytes -> outcome unit A) kind os :
  (forall o a, dec o = Ok a -> nth 0 o 0 = kind) -> Forall (fun o => nth 0 o 0 <> kind) os ->
  decoded dec (map nd_option os) = [].
Proof.
  intros Hk. induction 1 as [|o os Ho _ IH]; [done|]. cbn. change (nd_option o) with (mkNdOption (nth 0 o 0) o).
  destruct (dec o) eqn:Hd; [by apply Hk in Hd|done|done].
Qed.
Lemma decoded_map {A B} (dec : bytes -> outcome unit A) (f : B -> bytes) (g : B -> A) l :
  Forall (fun x => dec (f x) = Ok (g x)) l -> decoded dec (map nd_option (map f l)) = map g l.
Proof. induction 1 as [|x l Hx _ IH]; [done|]. cbn. rewrite Hx. by rewrite <-IH. Qed.
Lemma idx0_nth {E} o x : idx (E:=E) o 0 = Ok x -> nth 0 o 0 = x.
Proof. destruct o; intros [_ H]%idx_Ok; [done|]. by injection H. Qed.
Lemma pio_decode_kind o p : pio_decode o = Ok p -> nth 0 o 0 = 3.
Proof. intros H. unfold pio_decode in H. inv_ok_hyp H. apply idx0_nth in Hx. lia. Qed.
Lemma rio_decode_kind o r : rio_decode o = Ok r -> nth 0 o 0 = 24.
Proof. intros H. unfold rio_decode in H. inv_ok_hyp H. apply idx0_nth in Hx. lia. Qed.
Lemma pref64_decode_kind o r : pref64_decode o = Ok r -> nth 0 o 0 = 38.
Proof. intros H. unfold pref64_decode in H. inv_ok_hyp H. apply idx0_nth in Hx. lia. Qed.

Lemma decoded_pios a rs ps os :
  advertisement_wf a -> Forall pref64_wf ps -> Forall2 (fun p o => pref64_encode p = Ok o) ps os ->
  decoded pio_decode (map nd_option (ra_options a rs os)) = sort_by_prefix pio_prefix (ad_pios a) /\
  decoded rio_decode (map nd_option (ra_options a rs os)) =
    dedup_by_prefix rio_prefix (sort_by_prefix rio_prefix (ad_rios a)) /\
  decoded pref64_decode (map nd_option (ra_options a rs os)) =
    map (fun p => mkPref64 (pref64_prefix p) (pref64_rounded (pref64_lifetime p))) ps.
Proof.
  intros (_ & _ & _ & _ & _ & _ & Hp & Hr) Hps Hos.
  assert (Forall (fun o => nth 0 o 0 = 38) os) as H38.
  { clear -Hps Hos. induction Hos as [|p o ps os Ho _ IH]; [constructor|].
    apply Forall_cons_iff in Hps as [Hp Hps]. constructor; [|by apply IH].
    by apply pref64_encode_Ok in Ho as (w & _ & _ & _ & _ & _ & ->). }
  assert (decoded pref64_decode (map nd_option os) =
    map (fun p => mkPref64 (pref64_prefix p) (pref64_rounded (pref64_lifetime p))) ps) as H64.
  { clear -Hps Hos. induction Hos as [|p o ps os Ho _ IH]; [done|].
    apply Forall_cons_iff in Hps as [Hp Hps]. cbn. rewrite (pref64_decode_encode p o Hp Ho).
    by rewrite <-IH. }
  assert (forall x kind l, x <> kind -> Forall (fun o => nth 0 o 0 = x) l -> Forall (fun o : bytes => nth 0 o 0 <> kind) l) as Hne.
  { intros x kind l Hx Hl. eapply Forall_impl; [|exact Hl]. cbn. congruence. }
  assert (forall (A : Type) (f : A -> bytes) x l, (forall y, nth 0 (f y) 0 = x) ->
    Forall (fun o => nth 0 o 0 = x) (map f l)) as Hmap.
  { intros A f x l Hf. induction l; constructor; auto. }
  unfold ra_options. rewrite !map_app, !decoded_app, H64.
  rewrite (decoded_map pio_decode pio_encode id) by
    (eapply Forall_impl; [|by apply Forall_sort]; intros; by apply pio_decode_encode).
  rewrite (decoded_map rio_decode rio_encode id) by
    (eapply Forall_impl; [|by apply Forall_dedup, Forall_sort]; intros; by apply rio_decode_encode).
  rewrite !map_id.
  set (m1 := match ad_mac a with Some mac => [[1; 1] ++ mac] | None => [] end).
  set (m2 := if decide (ad_link a = Ail) then [] else [[5; 1; 0; 0] ++ be32 (ad_mtu a)]).
  assert (Forall (fun o => nth 0 o 0 = 1) m1) as H1 by (unfold m1; destruct (ad_mac a); by repeat constructor).
  assert (Forall (fun o => nth 0 o 0 = 5) m2) as H2 by (unfold m2; case_decide; by repeat constructor).
  assert (H3 := Hmap _ pio_encode 3 (sort_by_prefix pio_prefix (ad_pios a)) (fun _ => eq_refl)).
  assert (H24 := Hmap _ rio_encode 24 (dedup_by_prefix rio_prefix (sort_by_prefix rio_prefix (ad_rios a))) (fun _ => eq_refl)).
  assert (H25 := Hmap _ resolver_option 25 rs (fun _ => eq_refl)).
  split_and!.
  - rewrite !(decoded_other pio_decode 3) by (apply pio_decode_kind || (eapply Hne; [|eassumption]; done)).
    by rewrite !app_nil_r.
  - rewrite !(decoded_other rio_decode 24) by (apply rio_decode_kind || (eapply Hne; [|eassumption]; done)).
    by rewrite !app_nil_r.
  - by rewrite !(decoded_other pref64_decode 38) by (apply pref64_decode_kind || (eapply Hne; [|eassumption]; done)).
Qed.

Lemma link_local_unicast a : is_u128 a -> link_local a = true -> is_multicast6 a = false.
Proof.
  intros Ha Hl. unfold link_local, segment6 in Hl. apply Z.eqb_eq in Hl. unfold is_multicast6.
  apply Z.eqb_neq. replace (112 - 16 * 0) with 112 in Hl by lia.
  rewrite !shiftr_div in * by lia.
  assert (a / 2 ^ 120 = a / 2 ^ 112 / 256) as -> by (by rewrite Z.div_div by lia).
  assert (0 <= a / 2 ^ 112 < 65536) as Hw
    by (split; [apply Z.div_pos | apply Z.div_lt_upper_bound]; [u_lia|lia|lia|u_lia]).
  set (w := a / 2 ^ 112) in *. rewrite (Z.mod_small w) in Hl by done.
  assert (w / 64 * 64 = 0xfe80) as Hw2 by (rewrite <-Hl; symmetry; apply (land_high w 10 6); lia).
  pose proof (Z.div_mod w 64). pose proof (Z.mod_pos_bound w 64).
  assert (w / 256 = 254) as -> by (symmetry; apply (Z.div_unique w 256 254 (w - 254 * 256)); lia). done.
Qed.
(** The parsed view of a packet whose payload is an advertisement. *)
Lemma decode_nd_advertisement pkt s d c rest os :
  link_local s = true -> is_u128 s -> is_u16 c -> len rest = 12 -> Forall option_wf os ->
  let body := ([134; 0] ++ be16 c ++ rest) ++ concat os in
  checksum s d 58 body = 0 ->
  decode_nd (mkEnvelope pkt body s d 58 255) = Ok (mkNd 134 body (map nd_option os)).
Proof.
  intros Hs Hs' Hc Hr Hos body Hsum. unfold decode_nd, transport. cbn [e_next_header e_payload].
  change (transport_loop 16 58 body false) with (Ok (E:=WireError) (mkTransport 58 body false false)).
  cbn [mbind outcome_bind t_bytes t_protocol t_fragmented e_hop_limit e_source e_destination].
  assert (len ([134; 0] ++ be16 c ++ rest) = 16) as H16 by (unfold be16; len_lia).
  assert (len body = 16 + len (concat os)) as Hl by (unfold body; rewrite len_app; lia).
  pose proof (len_nonneg (concat os)). rewrite Hl.
  destruct (Z.ltb_spec (16 + len (concat os)) 4); [lia|]. cbn [Z.eqb Pos.eqb negb orb].
  assert (idx (E:=WireError) body 0 = Ok 134) as Hb0 by done.
  assert (idx (E:=WireError) body 1 = Ok 0) as Hb1 by done.
  rewrite Hb1. cbn [mbind outcome_bind]. rewrite Hsum. cbn [Z.eqb negb orb]. rewrite Hb0.
  cbn [mbind outcome_bind]. change (nd_base 134) with (Ok (E:=WireError) 16). cbn [mbind outcome_bind].
  destruct (Z.ltb_spec (16 + len (concat os)) 16); [lia|].
  rewrite Hs, link_local_unicast by done. cbn [Z.eqb Pos.eqb negb andb].
  assert (slice_from (E:=WireError) body 16 = Ok (concat os)) as -> by (by apply slice_from_app).
  cbn [mbind outcome_bind]. rewrite nd_options_concat by (try apply length_concat_ge; done).
  cbn [mbind outcome_bind Z.eqb Pos.eqb orb andb]. done.
Qed.

(** ** Properties *)

(** No frame, however malformed, makes the IPv6 parsers index out of range or loop:
    [envelope] is total, and on what it accepts so are the extension-header walk, the
    Neighbor Discovery decoder and the Hop-by-Hop processor. *)
Theorem ipv6_parsers_never_panic kind frame :
  is_bytes frame ->
  safe (envelope kind frame) /\
  forall e, envelope kind frame = Ok e ->
    safe (transport e) /\ safe (decode_nd e) /\ safe (hop_options e).
Proof.
  intros Hb. split; [by apply envelope_safe|]. intros e He. apply envelope_Ok in He; [|done].
  split_and!; [by apply transport_safe | by apply decode_nd_safe | apply hop_options_safe; apply He].
Qed.

(** The Prefix Information and Route Information options read back what was
    written, for every canonical prefix; the route option's length follows the prefix. *)
Theorem pio_rio_roundtrip p r :
  pio_wf p -> rio_wf r ->
  pio_decode (pio_encode p) = Ok p /\
  rio_decode (rio_encode r) = Ok r /\ len (rio_encode r) = rio_units (rio_prefix r) * 8.
Proof.
  intros Hp Hr. split_and!; [by apply pio_decode_encode | by apply rio_decode_encode |].
  apply len_rio_encode, Hr.
Qed.

(** A PREF64 option reads back with its prefix, and with the lifetime rounded up to
    the next multiple of eight seconds, clamped to 65528: never less than what backs it. *)
Theorem pref64_roundtrip p b :
  pref64_wf p -> pref64_encode p = Ok b ->
  pref64_decode b = Ok (mkPref64 (pref64_prefix p) (pref64_rounded (pref64_lifetime p))) /\
  pref64_rounded (pref64_lifetime p) mod 8 = 0 /\
  Z.min (pref64_lifetime p) 65528 <= pref64_rounded (pref64_lifetime p) < Z.min (pref64_lifetime p) 65528 + 8.
Proof.
  intros Hp Hb. split; [by apply pref64_decode_encode|]. unfold pref64_rounded.
  rewrite Z.mod_mul by lia. split; [done|].
  pose proof (Z.div_mod (Z.min (pref64_lifetime p) 65528 + 7) 8).
  pose proof (Z.mod_pos_bound (Z.min (pref64_lifetime p) 65528 + 7) 8). lia.
Qed.

(** Membership in a canonical prefix is equality of the leading bits. *)
Theorem contains_leading_bits p a :
  prefix_wf p -> is_u128 a ->
  contains p a = true <-> a / 2 ^ (128 - p_length p) = p_address p / 2 ^ (128 - p_length p).
Proof.
  intros Hp Ha. pose proof (prefix_wf_divides p Hp) as Hd. destruct Hp as (_ & Hl & _).
  unfold contains. rewrite bool_decide_eq_true, prefix_new_spec by done.
  assert (0 < 2 ^ (128 - p_length p)) by (apply Z.pow_pos_nonneg; lia).
  destruct p as [pa pl]; cbn in *. split.
  - intros [= <-]. by rewrite Z.div_mul by lia.
  - intros ->. by rewrite Hd.
Qed.

(** Every Router Advertisement the router builds is accepted by its own decoder: it
    fits the minimum IPv6 MTU, has hop limit 255 and a verifying checksum, carries
    exactly the sorted prefixes, the sorted and deduplicated routes and the PREF64s,
    and never announces a default router lifetime on the infrastructure link. *)
Theorem advertisement_accepted a rs ps pkt :
  advertisement_wf a -> Forall pref64_wf ps -> encode_services a rs ps = Ok pkt ->
  len pkt <= 1280 /\
  exists e nd, envelope RawIpv6 pkt = Ok e /\ decode_nd e = Ok nd /\
    e_source e = ad_source a /\ e_destination e = ad_destination a /\ e_hop_limit e = 255 /\
    nd_kind nd = 134 /\
    decoded pio_decode (nd_options nd) = sort_by_prefix pio_prefix (ad_pios a) /\
    decoded rio_decode (nd_options nd) =
      dedup_by_prefix rio_prefix (sort_by_prefix rio_prefix (ad_rios a)) /\
    decoded pref64_decode (nd_options nd) =
      map (fun p => mkPref64 (pref64_prefix p) (pref64_rounded (pref64_lifetime p))) ps /\
    sub (nd_body nd) 6 8 =
      be16 (if bool_decide (ad_link a = Ail) then 0 else Z.min (ad_default_lifetime a) 1800).
Proof.
  intros Ha Hps H. apply encode_services_Ok in H as (Hll & os & Hos & Hlen & H).
  destruct (ra_options_wf a rs ps os Ha Hps Hos) as [Ho1 Ho2].
  assert (is_bytes (ra_header a ++ concat (ra_options a rs os))) as Hbytes.
  { apply is_bytes_app. split; [|by apply Forall_concat].
    unfold ra_header. pose proof Ha as (_ & _ & _ & _ & Hmo & _).
    assert (is_u8 (Z.lor 2 (Z.land (ad_mo a) 0xc0))).
    { assert (let y := Z.lor 2 (Z.land (ad_mo a) 0xc0) in (0 <=? y) && (y <=? 255) = true) as Hy.
      { apply (check_below 256 (fun x => let y := Z.lor 2 (Z.land x 0xc0) in (0 <=? y) && (y <=? 255)));
          [by vm_compute | u_lia]. }
      cbv zeta in Hy. u_lia. }
    destruct (bool_decide (ad_link a = Ail)); unfold be16; bytes_tac. }
  apply icmp_packet_Ok in H as (Hl & c & Hc & Hsum & H); [|done].
  pose proof Ha as (Hs & Hd & _). apply envelope_ipv6_packet in H as [Hev Hpl]; [|done..].
  rewrite len_put in Hpl by (unfold be16; rewrite ?len_be; lia). split; [lia|].
  set (lt := be16 (if bool_decide (ad_link a = Ail) then 0 else Z.min (ad_default_lifetime a) 1800)).
  set (flags := if bool_decide (ad_link a = Ail) then Z.lor 2 (Z.land (ad_mo a) 0xc0) else 0).
  assert (put (ra_header a ++ concat (ra_options a rs os)) 2 (be16 c) =
    ([134; 0] ++ be16 c ++ ([0; flags] ++ lt ++ zeros 8)) ++ concat (ra_options a rs os)) as Hput by done.
  rewrite Hput in *.
  eexists _, _. split; [exact Hev|]. split; [by apply decode_nd_advertisement|].
  cbn [e_source e_destination e_hop_limit nd_kind nd_options nd_body].
  destruct (decoded_pios a rs ps os Ha Hps Hos) as (-> & -> & ->). done.
Qed.

(** ** Witnesses *)

Definition sample_prefix : Prefix := mkPrefix 0x20010db8000000010000000000000000 64.
Definition sample_pio : Pio := mkPio sample_prefix 0xc0 1800 1800.
Definition sample_rio : Rio := mkRio sample_prefix Medium 1800.
Definition sample_pref64 : Pref64 := mkPref64 (mkPrefix 0x0064ff9b000000000000000000000000 96) 1801.
Definition sample_advertisement : Advertisement :=
  mkAdvertisement Stub 0xfe800000000000000000000000000001 0xff020000000000000000000000000001
    (Some [2; 0; 0; 0; 0; 1]) 1500 0 1800 [sample_pio] [sample_rio].
Ltac wf_compute := repeat constructor; try (vm_compute; first [reflexivity | discriminate]).

Lemma ipv6_parsers_never_panic_witness : safe (envelope Ethernet (zeros 13 ++ [6; 0])).
Proof. apply (ipv6_parsers_never_panic Ethernet (zeros 13 ++ [6; 0])). wf_compute. Defined.
Lemma pio_rio_roundtrip_witness :
  pio_decode (pio_encode sample_pio) = Ok sample_pio /\
  rio_decode (rio_encode sample_rio) = Ok sample_rio.
Proof. split; apply (pio_rio_roundtrip sample_pio sample_rio); wf_compute. Defined.
Lemma pref64_roundtrip_witness :
  match pref64_encode sample_pref64 with
  | Ok b => pref64_decode b = Ok (mkPref64 (pref64_prefix sample_pref64) 1808)
  | _ => False
  end.
Proof.
  destruct (pref64_encode sample_pref64) as [b|e|] eqn:Hb; [|vm_compute in Hb; discriminate..].
  exact (proj1 (pref64_roundtrip sample_pref64 b ltac:(wf_compute) Hb)).
Defined.
Lemma contains_leading_bits_witness :
  contains sample_prefix 0x20010db8000000010000000000000005 = true.
Proof.
  apply (contains_leading_bits sample_prefix 0x20010db8000000010000000000000005);
    [wf_compute | wf_compute | vm_compute; reflexivity].
Defined.
Lemma advertisement_accepted_witness :
  exists pkt, encode_services sample_advertisement [] [sample_pref64] = Ok pkt /\ len pkt <= 1280.
Proof.
  destruct (encode_services sample_advertisement [] [sample_pref64]) as [pkt|e|] eqn:Hp;
    [|vm_compute in Hp; discriminate..].
  exists pkt. split; [reflexivity|].
  apply (advertisement_accepted sample_advertisement [] [sample_pref64] pkt); [|wf_compute|exact Hp].
  split_and!; [wf_compute | wf_compute | | wf_compute | wf_compute | wf_compute | wf_compute | wf_compute].
  intros ? [= <-]. wf_compute.
Defined.
