(* ===== verification/Scheduler.v ===== *)
(** The Router Advertisement scheduler ([src/src/scheduler.rs]).

    The state machine is driven by [enable], [changed], [sent] and [receive_rs]; the
    router sends an advertisement when [due].  The plain [+] of the source is checked
    addition: overflow is [Panic]. *)

From S2P Require Import Prelude Effects Time Checksum Wire WireFacts.

Record RaScheduler := mkRaScheduler {
  next : Z;
  last : option Z;
  burst : Z;
  response : option Z;
}.

Definition set_next (f : RaScheduler -> Z) (s : RaScheduler) : RaScheduler :=
  mkRaScheduler (f s) (last s) (burst s) (response s).
Definition set_burst (v : Z) (s : RaScheduler) : RaScheduler :=
  mkRaScheduler (next s) (last s) v (response s).
Definition set_response (v : option Z) (s : RaScheduler) : RaScheduler :=
  mkRaScheduler (next s) (last s) (burst s) v.
Definition set_last (v : option Z) (s : RaScheduler) : RaScheduler :=
  mkRaScheduler (next s) v (burst s) (response s).

Definition deadline (s : RaScheduler) : Z :=
  match response s with None => next s | Some t => Z.min t (next s) end.
Definition due (s : RaScheduler) (now : Z) : bool := deadline s <=? now.
Definition spaced {E} (s : RaScheduler) (t : Z) : outcome E Z :=
  match last s with
  | None => Ok t
  | Some l => m ← add_chk u64_max l 3000; Ok (Z.max t m)
  end.

Section scheduler.
Context {R : Type} `{Sampler R}.
(** A method takes the scheduler and the random source. *)
Abbreviation MS := (M (RaScheduler * R) io_error).

Definition self : MS RaScheduler := gets fst.
Definition update (f : RaScheduler -> RaScheduler) : MS unit := on_fst (modify f).
Definition draw (max : Z) : MS Z := on_snd (sample max).

Definition new (now : Z) : M R io_error RaScheduler :=
  x ← sample 16000;
  n ← lift (add_chk u64_max now x);
  mret (mkRaScheduler n None 3 None).
Definition enable (now : Z) : MS unit :=
  update (set_burst 3) ;;
  update (set_response None) ;;
  x ← draw 16000;
  s ← self;
  t ← lift (spaced s (sat64 now x));
  update (set_next (fun _ => t)).
Definition changed (now : Z) : MS unit :=
  update (set_burst 3) ;;
  x ← draw 16000;
  n ← lift (add_chk u64_max now x);
  s ← self;
  t ← lift (spaced s n);
  update (set_next (fun s => Z.min (next s) t)).
Definition sent (now : Z) : MS unit :=
  update (set_response None) ;;
  update (set_last (Some now)) ;;
  update (fun s => set_burst (sat_sub (burst s) 1) s) ;;
  s ← self;
  delay ← (if 0 <? burst s then draw 16000 else x ← draw 52000; mret (154000 + x));
  n ← lift (add_chk u64_max now delay);
  s ← self;
  t ← lift (spaced s n);
  update (set_next (fun _ => t)).
Definition receive_rs (packet : Envelope) (now : Z) : MS unit :=
  nd ← lift (map_err (fun _ => OtherError) (decode_nd packet));
  if negb (nd_kind nd =? 133) then throw OtherError else
  s ← self;
  match response s with
  | Some _ => mret tt
  | None =>
      x ← draw 500;
      n ← lift (add_chk u64_max now x);
      t ← lift (spaced s n);
      update (set_response (Some t))
  end.

(** ** The spacing invariant

    RFC 4861's MIN_DELAY_BETWEEN_RAS: nothing is scheduled within three seconds of the
    last advertisement sent. *)
Definition spacing (s : RaScheduler) : Prop :=
  forall l, last s = Some l -> l + 3000 <= deadline s.

(** Times stay far enough from [u64::MAX] for the unchecked additions. *)
Definition horizon : Z := u64_max - 300000.
Definition timely (now : Z) (s : RaScheduler) : Prop :=
  0 <= now <= horizon /\ forall l, last s = Some l -> 0 <= l <= now.

(** One event of the scheduler's life, at the time [now]. *)
Inductive event := Enable | Changed | Sent | ReceiveRs (packet : Envelope).
Definition run (ev : event) (now : Z) : MS unit :=
  match ev with
  | Enable => enable now
  | Changed => changed now
  | Sent => sent now
  | ReceiveRs p => receive_rs p now
  end.
Definition admissible (ev : event) (now : Z) (s : RaScheduler) : Prop :=
  match ev with Sent => due s now = true | ReceiveRs p => envelope_wf p | _ => True end.

(** A history: successful events at non-decreasing times, each admissible (a failing
    random source ends it); it records when advertisements were sent, latest first. *)
Inductive history : RaScheduler * R -> Z -> list Z -> Prop :=
| history_new now r s r' :
    0 <= now <= horizon -> new now r = (Ok s, r') -> history (s, r') now []
| history_step st t log ev now st' :
    history st t log -> t <= now <= horizon -> admissible ev now (fst st) ->
    run ev now st = (Ok tt, st') ->
    history st' now (match ev with Sent => now :: log | _ => log end).

(** Case analysis on the draws. *)
Ltac draws :=
  repeat match goal with
  | |- context [sample ?m ?r] =>
      let x := fresh "x" in let r' := fresh "r" in let Hs := fresh "Hs" in
      destruct (sample_cases m r ltac:(u_lia)) as [(x & r' & Hs & ?)|(? & ? & Hs)];
      rewrite Hs; cbn
  end.
Lemma spaced_Ok {E} s now t : timely now s -> exists m, spaced (E:=E) s t = Ok m /\ t <= m /\
  (forall l, last s = Some l -> l + 3000 <= m) /\ (last s = None -> m = t).
Proof.
  intros [Hn Hl]. unfold spaced. destruct (last s) as [l|]; [|by exists t; split_and!; [|lia| |]].
  specialize (Hl l eq_refl). unfold add_chk. destruct (Z.leb_spec (l + 3000) u64_max); [|unfold horizon in *; u_lia].
  eexists. split; [done|]. split_and!; [lia| |done]. intros ? [= <-]. lia.
Qed.

Definition step_ok (now : Z) (ev : event) (s : RaScheduler) (st : outcome io_error unit * (RaScheduler * R)) : Prop :=
  safe (fst st) /\
  (fst st = Ok tt -> spacing (fst (snd st)) /\ timely now (fst (snd st)) /\
     last (fst (snd st)) = match ev with Sent => Some now | _ => last s end).

Lemma run_ok ev now s r :
  spacing s -> timely now s -> admissible ev now s -> step_ok now ev s (run ev now (s, r)).
Proof.
  intros Hsp Ht Ha. pose proof Ht as [Hn Hl]. unfold step_ok.
  assert (forall x, 0 <= x <= 206000 -> add_chk (E:=io_error) u64_max now x = Ok (now + x)) as Hadd.
  { intros x Hx. apply add_chk_Ok. unfold horizon in *. u_lia. }
  destruct ev as [| | |p]; cbn [run admissible] in *.
  - cbv [enable update self draw gets on_fst on_snd modify lift mbind M_bind mret M_ret]. cbn. draws; [|done].
    destruct (spaced_Ok (E:=io_error) (mkRaScheduler (next s) (last s) 3 None) now (sat64 now x) Ht)
      as (m & Hm & _ & Hsp1 & _). unfold set_response, set_burst. cbn. rewrite Hm. cbn. split; [done|].
    intros _. by split_and!.
  - cbv [changed update self draw gets on_fst on_snd modify lift mbind M_bind mret M_ret]. cbn. draws; [|done].
    rewrite Hadd by lia. cbn. unfold set_burst.
    destruct (spaced_Ok (E:=io_error) (mkRaScheduler (next s) (last s) 3 (response s)) now (now + x) Ht)
      as (m & Hm & _ & Hsp1 & _). rewrite Hm. cbn. split; [done|].
    intros _. split_and!; try done. intros l Hl'. cbn in *. specialize (Hsp l Hl'). specialize (Hsp1 l Hl').
    unfold deadline in *. cbn. destruct (response s); lia.
  - cbv [sent update self draw gets on_fst on_snd modify lift mbind M_bind mret M_ret]. cbn.
    assert (timely now (mkRaScheduler (next s) (Some now) (sat_sub (burst s) 1) None)) as Ht'
      by (split; [done|]; intros l [= <-]; lia).
    unfold set_response, set_last, set_burst. cbn.
    destruct (0 <? sat_sub (burst s) 1); cbn; draws; try done; rewrite !Hadd by lia; cbn;
      (split; [done|]); intros _; (split_and!; [|done|done]); intros l [= <-]; unfold deadline; cbn; lia.
  - cbv [receive_rs update self draw gets on_fst on_snd modify lift mbind M_bind mret M_ret throw]. cbn.
    pose proof (decode_nd_safe p Ha) as Hd. clear Ha. revert Hd. generalize (decode_nd p). intros d Hd.
    destruct d as [nd|e|]; cbn; [|split; [done|by intros [=]]|by destruct Hd].
    destruct (negb (nd_kind nd =? 133)); cbn; [done|].
    destruct (response s) eqn:Hr; cbn; [by split|]. draws; [|done]. rewrite Hadd by lia. cbn.
    destruct (spaced_Ok (E:=io_error) s now (now + x) Ht) as (m & Hm & _ & Hsp1 & _). rewrite Hm. cbn.
    split; [done|]. intros _. split_and!; try done. intros l Hl'. cbn in *. specialize (Hsp l Hl').
    specialize (Hsp1 l Hl'). unfold deadline in *. rewrite Hr in Hsp. cbn. lia.
Qed.

Lemma new_ok now r s r' : 0 <= now <= horizon -> new now r = (Ok s, r') ->
  spacing s /\ timely now s /\ last s = None.
Proof.
  intros Hn. cbv [new mbind M_bind lift mret M_ret]. draws; [|done].
  destruct (add_chk _ _ _); [|done|done]. intros [= <- <-]. unfold spacing, timely. cbn. naive_solver.
Qed.

Lemma history_inv st t log : history st t log ->
  spacing (fst st) /\ timely t (fst st) /\ last (fst st) = head log.
Proof.
  induction 1 as [now r s r' Hn Hnew|st t log ev now st' _ (Hs & Ht & Hl) Hn Ha Hrun].
  - by apply new_ok in Hnew.
  - destruct st as [s r]. cbn in *. destruct Ht as [Ht Htl].
    assert (timely now s) as Ht' by (split; [lia|]; intros l Hl'; specialize (Htl l Hl'); lia).
    destruct (run_ok ev now s r Hs Ht' Ha) as [_ Hok]. rewrite Hrun in Hok. cbn in Hok.
    destruct (Hok eq_refl) as (? & ? & ->). split_and!; [done|done|]. by destruct ev.
Qed.

(** Consecutive elements of a latest-first log are three seconds apart. *)
Fixpoint spaced_log (log : list Z) : Prop :=
  match log with
  | t :: ((t' :: _) as rest) => t' + 3000 <= t /\ spaced_log rest
  | _ => True
  end.
Lemma history_spaced st t log : history st t log -> spaced_log log.
Proof.
  induction 1 as [|st t log ev now st' Hh IH Hn Ha Hrun]; [done|].
  destruct (history_inv _ _ _ Hh) as (Hs & _ & Hl). destruct ev; try done.
  destruct log as [|t' log]; [done|]. split; [|done]. cbn in *.
  specialize (Hs t' Hl). unfold due in Ha. lia.
Qed.

Lemma sent_window now s r s' r' :
  0 <= now <= horizon -> sent now (s, r) = (Ok tt, (s', r')) ->
  now + 3000 <= deadline s' <= now + (if 1 <? burst s then 16000 else 206000).
Proof.
  intros Hn. cbv [sent update self draw gets on_fst on_snd modify lift mbind M_bind mret M_ret]. cbn.
  assert (forall x, 0 <= x <= 206000 -> add_chk (E:=io_error) u64_max now x = Ok (now + x)) as Hadd.
  { intros x Hx. apply add_chk_Ok. unfold horizon in *. u_lia. }
  destruct (Z.ltb_spec 0 (sat_sub (burst s) 1)), (Z.ltb_spec 1 (burst s)); unfold sat_sub in *; try lia;
    cbn; draws; try done; rewrite !Hadd by lia; cbn; intros [= <- <-]; unfold deadline; cbn; lia.
Qed.

(** C38. Whatever sequence of enables, changes, solicitations and transmissions the
    router goes through, two advertisements on a link are never sent less than three
    seconds apart, provided it sends only when one is due. *)
Theorem ra_minimum_spacing st t log :
  history st t log -> spaced_log log.
Proof. apply history_spaced. Qed.

(** C39. No event of such a history overflows or panics; and a transmission schedules the
    next advertisement at least three and at most 16 seconds later during the initial
    burst, at most 206 seconds later after it. *)
Theorem ra_scheduler_progress st t log ev now :
  history st t log -> t <= now <= horizon -> admissible ev now (fst st) ->
  safe (fst (run ev now st)) /\
  (forall st', ev = Sent -> run ev now st = (Ok tt, st') ->
     now + 3000 <= deadline (fst st') <= now + (if 1 <? burst (fst st) then 16000 else 206000)).
Proof.
  intros Hh Hn Ha. destruct (history_inv _ _ _ Hh) as (Hs & [Ht Htl] & _). destruct st as [s r].
  split.
  - apply run_ok; [done| |done]. split; [lia|]. intros l Hl. specialize (Htl l Hl). cbn in *. lia.
  - intros [s' r'] -> Hrun. eapply sent_window; [|exact Hrun]. cbn in *. lia.
Qed.
End scheduler.

(** ** Witnesses: two transmissions on a scripted source *)

Lemma ra_minimum_spacing_witness :
  exists st, history (R:=ScriptedRandom) st 90000 [90000; 21000] /\ spaced_log [90000; 21000].
Proof.
  eexists. assert (history (R:=ScriptedRandom)
    (snd (run Sent 90000 (snd (run Sent 21000 (mkRaScheduler 1000 None 3 None, Build_ScriptedRandom [])))))
    90000 [90000; 21000]) as Hh.
  { apply (history_step (snd (run Sent 21000 (mkRaScheduler 1000 None 3 None, Build_ScriptedRandom [])))
      21000 [21000] Sent 90000); [|unfold horizon, u64_max; lia|vm_compute; reflexivity|vm_compute; reflexivity].
    apply (history_step (mkRaScheduler 1000 None 3 None, Build_ScriptedRandom []) 1000 [] Sent 21000);
      [|unfold horizon, u64_max; lia|vm_compute; reflexivity|vm_compute; reflexivity].
    apply (history_new 1000 (Build_ScriptedRandom [])); [unfold horizon, u64_max; lia|vm_compute; reflexivity]. }
  split; [exact Hh|]. exact (ra_minimum_spacing _ _ _ Hh).
Defined.
Lemma ra_scheduler_progress_witness :
  safe (fst (run (R:=ScriptedRandom) Sent 21000 (mkRaScheduler 1000 None 3 None, Build_ScriptedRandom []))).
Proof.
  apply (ra_scheduler_progress (mkRaScheduler 1000 None 3 None, Build_ScriptedRandom []) 1000 [] Sent 21000);
    [|unfold horizon, u64_max; lia|vm_compute; reflexivity].
  apply (history_new 1000 (Build_ScriptedRandom [])); [unfold horizon, u64_max; lia|vm_compute; reflexivity].
Defined.
