(* ===== verification/Ipv4Wire.v ===== *)
(** IPv4, ARP and ICMPv4 wire formats ([src/src/ipv4/wire.rs]) and the [unicast] test of
    [src/src/ipv4/mod.rs].

    An IPv4 address is the [u32] of its octets; every error is the [InvalidData] of
    [invalid()]. *)

From S2P Require Import Prelude Checksum.

(** ** Addresses ([std::net::Ipv4Addr]) *)

Definition octets4 (a : Z) : bytes := be32 a.
Definition addr4 (b : bytes) : Z := of_be b.
Definition octet4_0 (a : Z) : Z := Z.shiftr a 24.
Definition is_unspecified4 (a : Z) : bool := a =? 0.
Definition is_multicast4 (a : Z) : bool := (224 <=? octet4_0 a) && (octet4_0 a <=? 239).
Definition is_broadcast4 (a : Z) : bool := a =? u32_max.
Definition is_loopback4 (a : Z) : bool := octet4_0 a =? 127.
Definition unicast (ip : Z) : bool :=
  negb (is_unspecified4 ip) && negb (is_multicast4 ip) && negb (is_broadcast4 ip)
  && negb (is_loopback4 ip) && negb (octet4_0 ip =? 0) && (octet4_0 ip <? 240).

(** ** Checksum *)

(** [while sum > 65535] *)
Fixpoint fold_overflow (fuel : nat) (sum : Z) : Z :=
  match fuel with
  | O => sum
  | S fuel =>
      if 65535 <? sum then fold_overflow fuel (Z.land sum 65535 + Z.shiftr sum 16) else sum
  end.
Definition checksum4 (b : bytes) : Z := complement16 (fold_overflow 4 (sum_words b)).

(** ** Packets *)

Record Packet := mkPacket {
  pk_source : Z;
  pk_destination : Z;
  pk_ttl : Z;
  pk_protocol : Z;
  pk_payload : bytes;
  pk_bytes : bytes;
  pk_header_len : Z;
  pk_fragment_offset : Z;
  pk_more_fragments : bool;
  pk_dont_fragment : bool;
  pk_id : Z;
  pk_traffic_class : Z;
}.

(** The walk over the header's options, [while at < h]. *)
Fixpoint options_walk (fuel : nat) (b : bytes) (at_ h : Z) : outcome io_error unit :=
  if h <=? at_ then Ok tt else
  match fuel with
  | O => Panic
  | S fuel =>
      t ← b.[at_];
      if t =? 0 then
        rest ← slice b (at_ + 1) h;
        reject_if existsb (fun v => negb (v =? 0)) rest with InvalidData;
        Ok tt
      else if t =? 1 then options_walk fuel b (at_ + 1) h
      else
        reject_if h <? at_ + 2 with InvalidData;
        length ← b.[at_ + 1];
        reject_if (length <? 2) || (h <? at_ + length) with InvalidData;
        options_walk fuel b (at_ + length) h
  end.

Definition parse_inner (b : bytes) (quoted : bool) : outcome io_error Packet :=
  reject_if len b <? 20 with InvalidData;
  b0 ← b.[0];
  reject_if negb (Z.shiftr b0 4 =? 4) with InvalidData;
  let h := Z.land b0 15 * 4 in
  b2 ← b.[2]; b3 ← b.[3];
  let n := u16be b2 b3 in
  reject_if (h <? 20) || (len b <? h) || (n <? h) || negb quoted && (len b <? n) with InvalidData;
  header ← slice b 0 h;
  reject_if negb (checksum4 header =? 0) with InvalidData;
  options_walk (Z.to_nat h) b 20 h ;;
  b6 ← b.[6]; b7 ← b.[7];
  let flags := u16be b6 b7 in
  let offset := Z.land flags 0x1fff * 8 in
  let more := negb (Z.land flags 0x2000 =? 0) in
  let df := negb (Z.land flags 0x4000 =? 0) in
  reject_if negb (Z.land flags 0x8000 =? 0)
            || df && (more || negb (offset =? 0))
            || more && (negb ((n - h) mod 8 =? 0) || (n =? h))
            || (65535 <? offset + n - h) with InvalidData;
  let n := Z.min n (len b) in
  source ← slice b 12 16;
  destination ← slice b 16 20;
  ttl ← b.[8];
  protocol ← b.[9];
  payload ← slice b h n;
  packet ← slice b 0 n;
  b4 ← b.[4]; b5 ← b.[5];
  b1 ← b.[1];
  Ok (mkPacket (addr4 source) (addr4 destination) ttl protocol payload packet h offset more df
        (u16be b4 b5) b1).
Definition parse (b : bytes) : outcome io_error Packet := parse_inner b false.
Definition quoted (b : bytes) : outcome io_error Packet := parse_inner b true.

Definition encode (source destination protocol ttl : Z) (payload : bytes) : outcome io_error bytes :=
  reject_if u16_max <? 20 + len payload with InvalidData;
  let n := 20 + len payload in
  let b := [0x45; 0] ++ be16 n ++ [0; 0; 0; 0; ttl; protocol; 0; 0]
           ++ octets4 source ++ octets4 destination in
  let c := checksum4 b in
  b ← copy_at b 10 (be16 c);
  Ok (b ++ payload).

(** ** ARP *)

Record Arp := mkArp {
  operation : Z;
  sender_mac : bytes;
  sender : Z;
  target_mac : bytes;
  target : Z;
}.

Definition arp_parse (frame : bytes) : outcome io_error Arp :=
  reject_if len frame <? 42 with InvalidData;
  fixed ← slice frame 12 22;
  reject_if negb (beq fixed [8; 6; 0; 1; 8; 0; 6; 4; 0; 1])
            && negb (beq fixed [8; 6; 0; 1; 8; 0; 6; 4; 0; 2]) with InvalidData;
  sender_mac ← slice frame 22 28;
  s ← slice frame 28 32;
  t ← slice frame 38 42;
  let sender := addr4 s in
  let target := addr4 t in
  f20 ← frame.[20]; f21 ← frame.[21];
  let operation := u16be f20 f21 in
  mac0 ← sender_mac.[0];
  link_source ← slice frame 6 12;
  f0 ← frame.[0];
  link_destination ← slice frame 0 6;
  target_mac ← slice frame 32 38;
  reject_if negb (Z.land mac0 1 =? 0)
            || beq sender_mac (zeros 6)
            || negb (beq link_source sender_mac)
            || (operation =? 2) && is_unspecified4 sender
            || (operation =? 2) && (Z.land f0 1 =? 0) && negb (beq link_destination target_mac)
            || negb (is_unspecified4 sender) && negb (unicast sender)
            || negb (unicast target || (operation =? 2) && is_unspecified4 target)
    with InvalidData;
  Ok (mkArp operation sender_mac sender target_mac target).
Definition arp_encode (a : Arp) (destination : bytes) : bytes :=
  destination ++ sender_mac a ++ [8; 6; 0; 1; 8; 0; 6; 4] ++ be16 (operation a)
  ++ sender_mac a ++ octets4 (sender a) ++ target_mac a ++ octets4 (target a).

(** ** ICMP *)

Record Icmp := mkIcmp { icmp_kind : Z; icmp_code : Z; icmp_bytes : bytes }.

Definition max_code (kind : Z) : Z :=
  if kind =? 3 then 15 else if kind =? 4 then 0 else if kind =? 5 then 3
  else if kind =? 11 then 1 else 2.
Definition icmp_parse (b : bytes) : outcome io_error Icmp :=
  reject_if negb ((8 <=? len b) && (len b <=? 65515)) || negb (checksum4 b =? 0) with InvalidData;
  b0 ← b.[0]; b1 ← b.[1];
  (if mem b0 [0; 8] && negb (b1 =? 0) then Err InvalidData
   else if mem b0 [3; 4; 5; 11; 12] then
     reject_if max_code b0 <? b1 with InvalidData;
     reject_if len b <? 36 with InvalidData;
     inner ← slice_from b 8;
     q ← quoted inner;
     reject_if len (pk_payload q) <? 8 with InvalidData;
     Ok tt
   else Ok tt) ;;
  Ok (mkIcmp b0 b1 b).

#[global] Arguments parse_inner : simpl never.
#[global] Arguments checksum4 : simpl never.
#[global] Arguments octets4 : simpl never.

(** ** Checksum facts *)

Lemma fold_overflow_carry fuel n : 0 <= n -> fold_overflow fuel n = fold_carry fuel n.
Proof.
  revert n. induction fuel as [|fuel IH]; intros n Hn; [done|]. cbn.
  rewrite shiftr_div by lia. change (2 ^ 16) with 65536.
  destruct (Z.ltb_spec 65535 n), (Z.eqb_spec (n / 65536) 0) as [He|He].
  - apply Z.div_small_iff in He; lia.
  - rewrite IH; [done|]. change 65535 with (2 ^ 16 - 1). rewrite land_ones_mod by lia.
    pose proof (Z.mod_pos_bound n (2 ^ 16)). pose proof (Z.div_pos n 65536). lia.
  - done.
  - rewrite Z.div_small in He by lia. done.
Qed.
Lemma checksum4_u16 b : is_u16 (checksum4 b).
Proof. apply complement16_u16. Qed.
(** Storing the checksum computed over the zeroed field makes the header verify. *)
Lemma checksum4_fill b lo :
  is_bytes b -> len b <= u16_max -> 0 <= lo -> Z.even lo = true -> lo + 2 <= len b ->
  checksum4 (put b lo (be16 (checksum4 (put b lo [0; 0])))) = 0.
Proof.
  intros Hb Hl Hlo He Hf. assert (is_bytes (put b lo [0; 0])) as Hz.
  { apply is_bytes_put; [done|]. bytes_tac. }
  pose proof (sum_words_bound _ Hz) as H4. rewrite len_put in H4 by (change (len [0; 0]) with 2; lia).
  assert ((len b + 1) / 2 <= 32768) by (apply Z.lt_succ_r, Z.div_lt_upper_bound; u_lia).
  unfold checksum4 at 1. rewrite sum_words_fill; [|done..|apply checksum4_u16].
  pose proof (checksum4_u16 (put b lo [0; 0])) as Hc. rewrite fold_overflow_carry by u_lia.
  unfold checksum4. rewrite fold_overflow_carry by lia. apply complement_verifies; [lia|u_lia|u_lia].
Qed.

(** ** Parsers do not panic *)

Lemma options_walk_safe fuel b at_ h :
  is_bytes b -> 0 <= at_ -> h <= len b -> h - at_ <= Z.of_nat fuel -> safe (options_walk fuel b at_ h).
Proof.
  intros Hb. revert at_. induction fuel as [|fuel IH]; intros at_ Ha Hh Hf; cbn [options_walk];
    (destruct (Z.leb_spec h at_); [done|]); [lia|].
  safe_auto; byte_facts; apply IH; u_lia.
Qed.
Lemma parse_inner_safe b q : is_bytes b -> safe (parse_inner b q).
Proof.
  intros Hb. unfold parse_inner. safe_auto; try (apply options_walk_safe; [done|lia..]).
  all: pose proof (Z.land_nonneg x 15); safe_lia.
Qed.

(** What an accepted packet looks like. *)
Definition packet_wf (b : bytes) (p : Packet) : Prop :=
  pk_bytes p = sub b 0 (len (pk_bytes p)) /\ len (pk_bytes p) <= len b /\
  20 <= pk_header_len p <= 60 /\ pk_header_len p <= len (pk_bytes p) /\
  pk_payload p = sub b (pk_header_len p) (len (pk_bytes p)) /\
  is_u32 (pk_source p) /\ is_u32 (pk_destination p) /\ is_u8 (pk_ttl p) /\ is_u8 (pk_protocol p) /\
  is_u16 (pk_id p) /\ is_u8 (pk_traffic_class p) /\
  0 <= pk_fragment_offset p /\ pk_fragment_offset p mod 8 = 0 /\
  pk_fragment_offset p + len (pk_payload p) <= 65535.
Lemma addr4_sub b lo hi : is_bytes b -> 0 <= lo -> hi = lo + 4 -> hi <= len b ->
  is_u32 (addr4 (sub b lo hi)).
Proof.
  intros ? ? -> ?. pose proof (of_be_bound (sub b lo (lo + 4)) ltac:(eauto with snac)) as Hb.
  rewrite len_sub in Hb by lia. replace (lo + 4 - lo) with 4 in Hb by lia.
  unfold addr4. change (256 ^ 4) with (u32_max + 1) in Hb. u_lia.
Qed.
Lemma land15 x : is_u8 x -> 0 <= Z.land x 15 <= 15.
Proof. intros. change 15 with (2 ^ 4 - 1). rewrite land_ones_mod by lia. pose proof (Z.mod_pos_bound x (2 ^ 4)). lia. Qed.
Lemma parse_inner_Ok b q p : is_bytes b -> parse_inner b q = Ok p -> packet_wf b p.
Proof.
  intros Hb H. unfold parse_inner in H. inv_all_ok. subst. unfold packet_wf. cbn. byte_facts.
  pose proof (land15 x ltac:(done)).
  assert (0 <= Z.land (u16be x4 x5) 0x1fff) by (apply Z.land_nonneg; lia).
  assert (len (sub b 0 (Z.min (u16be x0 x1) (len b))) = Z.min (u16be x0 x1) (len b)) as Hl
    by (rewrite len_sub; u_lia).
  rewrite Hl, len_sub by u_lia. split_and!; try first [apply addr4_sub; (done || lia) | u_lia | done].
  by rewrite Z.mod_mul.
Qed.

Lemma arp_parse_safe frame : is_bytes frame -> safe (arp_parse frame).
Proof. intros Hb. unfold arp_parse. safe_auto. inv_all_ok. subst. rewrite len_sub; lia. Qed.
Lemma icmp_parse_safe b : is_bytes b -> safe (icmp_parse b).
Proof.
  intros Hb. unfold icmp_parse. safe_auto. inv_all_ok. subst.
  apply parse_inner_safe. eauto with snac.
Qed.

(** ** Round trips *)

Lemma len_octets4 a : len (octets4 a) = 4.
Proof. apply (len_be 4). Qed.
Lemma addr4_octets4 a : is_u32 a -> addr4 (octets4 a) = a.
Proof. intros. apply of_be_be_small. change (256 ^ Z.of_nat 4) with (u32_max + 1). u_lia. Qed.

(** A 20-byte header without options, with its checksum field given. *)
Definition header20 (tos n id flags ttl protocol c source destination : Z) : bytes :=
  [0x45; tos] ++ be16 n ++ be16 id ++ be16 flags ++ [ttl; protocol] ++ be16 c
  ++ octets4 source ++ octets4 destination.

(** The flags and offset word: [more] and the offset in units of eight bytes. *)
Definition flags_wf (flags n : Z) : Prop :=
  is_u16 flags /\ Z.land flags 0x8000 = 0 /\
  (Z.land flags 0x4000 <> 0 -> Z.land flags 0x2000 = 0 /\ Z.land flags 0x1fff = 0) /\
  (Z.land flags 0x2000 <> 0 -> (n - 20) mod 8 = 0 /\ n <> 20) /\
  Z.land flags 0x1fff * 8 + n - 20 <= 65535.
Lemma flags_wf_accepted flags n : flags_wf flags n ->
  negb (Z.land flags 0x8000 =? 0)
  || negb (Z.land flags 0x4000 =? 0) && (negb (Z.land flags 0x2000 =? 0) || negb (Z.land flags 0x1fff * 8 =? 0))
  || negb (Z.land flags 0x2000 =? 0) && (negb ((n - 20) mod 8 =? 0) || (n =? 20))
  || (65535 <? Z.land flags 0x1fff * 8 + n - 20) = false.
Proof. intros (Hf & Hf1 & Hf2 & Hf3 & Hf4). lia. Qed.

Ltac read_at h :=
  repeat match goal with
  | |- context [ idx (h ++ ?t) ?i ≫= _ ] =>
      erewrite (idx_app_l h t i) by reflexivity; cbn [mbind outcome_bind]
  end.
Lemma parse_header20 tos id flags ttl protocol c source destination pl q :
  let n := 20 + len pl in
  let h := header20 tos n id flags ttl protocol c source destination in
  is_u16 n -> is_u16 id -> is_u32 source -> is_u32 destination -> flags_wf flags n ->
  checksum4 h = 0 ->
  parse_inner (h ++ pl) q = Ok (mkPacket source destination ttl protocol pl (h ++ pl) 20
    (Z.land flags 0x1fff * 8) (negb (Z.land flags 0x2000 =? 0)) (negb (Z.land flags 0x4000 =? 0)) id tos).
Proof.
  intros n h Hn Hid Hs Hd Hf Hc. pose proof (len_nonneg pl). pose proof (flags_wf_accepted _ _ Hf) as Hacc.
  destruct Hf as (Hf & _). assert (len h = 20) as Hh by reflexivity.
  assert (len (h ++ pl) = n) as Hb by (rewrite len_app; lia).
  unfold parse_inner. rewrite Hb. destruct (Z.ltb_spec n 20) as [|_]; [lia|]. read_at h.
  change (Z.shiftr 69 4) with 4. change (Z.land 69 15 * 4) with 20. cbn [negb Z.eqb Pos.eqb].
  rewrite u16be_be16 by done. change (20 <? 20) with false.
  destruct (Z.ltb_spec n 20) as [|_]; [lia|]. rewrite Z.ltb_irrefl, andb_false_r. cbn [orb].
  rewrite (slice_mid [] h pl 0 20) by done. cbn [mbind outcome_bind]. rewrite Hc. cbn [Z.eqb negb].
  assert (options_walk (Z.to_nat 20) (h ++ pl) 20 20 = Ok tt) as -> by reflexivity. cbn [mbind outcome_bind].
  read_at h. rewrite u16be_be16 by done. rewrite Hacc. rewrite Z.min_id.
  assert (slice (E:=io_error) (h ++ pl) 12 16 = Ok (octets4 source)) as ->.
  { unfold h, header20, octets4. rewrite <-!app_assoc. slice_tac. }
  assert (slice (E:=io_error) (h ++ pl) 16 20 = Ok (octets4 destination)) as ->.
  { unfold h, header20, octets4. rewrite <-!app_assoc. slice_tac. }
  cbn [mbind outcome_bind]. read_at h.
  assert (slice (E:=io_error) (h ++ pl) 20 n = Ok pl) as -> by slice_tac.
  assert (slice (E:=io_error) (h ++ pl) 0 n = Ok (h ++ pl)) as ->
    by (apply slice_Ok; rewrite Hb, <-Hb, sub_all; split_and!; [lia|lia|lia|done]).
  cbn [mbind outcome_bind]. read_at h. by rewrite u16be_be16, !addr4_octets4.
Qed.

Lemma header20_checksum tos n id flags ttl protocol source destination :
  is_u8 tos -> is_u8 ttl -> is_u8 protocol ->
  let h := header20 tos n id flags ttl protocol in
  checksum4 (h (checksum4 (h 0 source destination)) source destination) = 0.
Proof.
  intros Ht Htt Hp h. change (h (checksum4 (h 0 source destination)) source destination)
    with (put (h 0 source destination) 10 (be16 (checksum4 (put (h 0 source destination) 10 [0; 0])))).
  apply checksum4_fill; [|vm_compute; discriminate|lia|done|done].
  unfold h, header20, octets4. unfold be16, be32. bytes_tac.
Qed.

Lemma encode_header20 source destination protocol ttl payload :
  len payload <= 65515 ->
  let h := header20 0 (20 + len payload) 0 0 ttl protocol in
  encode source destination protocol ttl payload =
    Ok (h (checksum4 (h 0 source destination)) source destination ++ payload).
Proof.
  intros Hp h. pose proof (len_nonneg payload). unfold encode.
  destruct (Z.ltb_spec u16_max (20 + len payload)) as [|_]; [u_lia|]. reflexivity.
Qed.

Lemma encode_parse source destination protocol ttl payload :
  is_u32 source -> is_u32 destination -> is_u8 protocol -> is_u8 ttl -> len payload <= 65515 ->
  exists b, encode source destination protocol ttl payload = Ok b /\ len b = 20 + len payload /\
    parse b = Ok (mkPacket source destination ttl protocol payload b 20 0 false false 0 0).
Proof.
  intros Hs Hd Hp Ht Hl. pose proof (len_nonneg payload). rewrite encode_header20 by done. eexists. split; [done|].
  split; [by rewrite len_app|].
  apply (parse_header20 0 0 0 ttl protocol _ source destination payload false); try u_lia.
  - unfold flags_wf. rewrite !Z.land_0_l. u_lia.
  - apply header20_checksum; (done || u_lia).
Qed.

(** Every accepted packet without options that fills its buffer has this shape. *)
Lemma parse_shape b p :
  is_bytes b -> parse b = Ok p -> len (pk_bytes p) = len b -> pk_header_len p = 20 ->
  exists flags c, len (pk_payload p) <= 65515 /\
    b = header20 (pk_traffic_class p) (20 + len (pk_payload p)) (pk_id p) flags (pk_ttl p) (pk_protocol p) c
          (pk_source p) (pk_destination p) ++ pk_payload p.
Proof.
  intros Hb Hp Hlen Hh. unfold parse, parse_inner in Hp. pose proof Hb as Hb0.
  destruct b as [|b0 [|b1 [|b2 [|b3 [|b4 [|b5 [|b6 [|b7 [|ttl [|pr [|c0 [|c1 r]]]]]]]]]]]];
    try (cbn in Hp; discriminate Hp).
  set (B := b0 :: b1 :: b2 :: b3 :: b4 :: b5 :: b6 :: b7 :: ttl :: pr :: c0 :: c1 :: r) in *.
  inv_all_ok. subst p. cbn [pk_payload pk_header_len pk_bytes pk_traffic_class pk_id pk_ttl pk_protocol pk_source pk_destination] in *.
  do 12 (let B1 := fresh "B" in apply Forall_cons_iff in Hb as [B1 Hb]). byte_facts.
  repeat match goal with H : idx B ?i = Ok ?y |- _ => vm_compute in H; injection H as <- end.
  rewrite Hh in *. subst x2 x6 x7 x10 x11. exists (u16be b6 b7), (u16be c0 c1).
  rewrite len_sub in Hlen by u_lia. rewrite Z.sub_0_r in Hlen.
  assert (u16be b2 b3 = len B) as Hn by lia. rewrite Hlen in *. rewrite len_sub by lia.
  assert (12 + len r = len B) as Hr by (unfold B; rewrite !len_cons; lia).
  assert (sub B 12 16 = take 4 r) as -> by reflexivity.
  assert (sub B 16 20 = take 4 (drop 4 r)) as -> by reflexivity.
  assert (sub B 20 (len B) = drop 8 r) as -> by (by rewrite sub_from by lia).
  split; [u_lia|]. replace (20 + (len B - 20)) with (u16be b2 b3) by lia.
  unfold header20, octets4, addr4. rewrite !be16_u16be by done.
  assert (forall s, is_bytes s -> len s = 4 -> be32 (of_be s) = s) as Hoct.
  { intros s Hs Hls. unfold be32. replace 4%nat with (length s) by (unfold len in Hls; lia). by apply be_of_be. }
  rewrite !Hoct; [| by apply Forall_take, Forall_drop | rewrite len_take, len_drop; u_lia
    | by apply Forall_take | rewrite len_take; u_lia].
  assert (b0 = 69) as ->.
  { assert (let y := b0 in negb ((Z.shiftr y 4 =? 4) && (Z.land y 15 * 4 =? 20)) || (y =? 69) = true) as Hy.
    { apply (check_below 256 (fun y => negb ((Z.shiftr y 4 =? 4) && (Z.land y 15 * 4 =? 20)) || (y =? 69)));
        [by vm_compute|u_lia]. }
    cbv zeta in Hy. lia. }
  unfold B. cbn [app]. do 12 f_equal. rewrite <-(take_drop 4 r) at 1. rewrite <-app_assoc. f_equal.
  rewrite <-(take_drop 4 (drop 4 r)) at 1. f_equal. by rewrite drop_drop.
Qed.


(** ** Properties *)

(** No byte string makes the IPv4, ARP or ICMPv4 parsers panic or loop, quoted
    packets included; an accepted packet's payload and header are ranges of the input
    and its reassembled end fits in 65535 bytes. *)
Theorem ipv4_parsers_never_panic b q :
  is_bytes b ->
  safe (parse_inner b q) /\ safe (arp_parse b) /\ safe (icmp_parse b) /\
  forall p, parse_inner b q = Ok p -> packet_wf b p.
Proof.
  intros Hb. split_and!; [by apply parse_inner_safe | by apply arp_parse_safe
    | by apply icmp_parse_safe | intros p; by apply parse_inner_Ok].
Qed.

(** [encode] builds a packet that [Packet::parse] accepts and reads back field for
    field, for every payload that fits; larger payloads are refused. *)
Theorem ipv4_roundtrip source destination protocol ttl payload :
  is_u32 source -> is_u32 destination -> is_u8 protocol -> is_u8 ttl ->
  (len payload <= 65515 ->
    exists b, encode source destination protocol ttl payload = Ok b /\ len b = 20 + len payload /\
      parse b = Ok (mkPacket source destination ttl protocol payload b 20 0 false false 0 0)) /\
  (65515 < len payload -> encode source destination protocol ttl payload = Err InvalidData).
Proof.
  intros Hs Hd Hp Ht. split; [by apply encode_parse|].
  intros Hl. unfold encode. destruct (Z.ltb_spec u16_max (20 + len payload)); [done|u_lia].
Qed.

(** The ARP messages the stack accepts. *)
Definition arp_wf (a : Arp) : Prop :=
  (operation a = 1 \/ operation a = 2) /\
  len (sender_mac a) = 6 /\ (exists m, sender_mac a !! 0%nat = Some m /\ Z.land m 1 = 0) /\
  sender_mac a <> zeros 6 /\ len (target_mac a) = 6 /\
  is_u32 (sender a) /\ is_u32 (target a) /\
  (sender a <> 0 -> unicast (sender a) = true) /\ (operation a = 2 -> sender a <> 0) /\
  (unicast (target a) = true \/ operation a = 2 /\ target a = 0).
Lemma arp_reads a d : len d = 6 -> len (sender_mac a) = 6 -> len (target_mac a) = 6 ->
  let f := arp_encode a d in
  len f = 42 /\
  slice (E:=io_error) f 12 22 = Ok ([8; 6; 0; 1; 8; 0; 6; 4] ++ be16 (operation a)) /\
  slice (E:=io_error) f 22 28 = Ok (sender_mac a) /\
  slice (E:=io_error) f 28 32 = Ok (octets4 (sender a)) /\
  slice (E:=io_error) f 38 42 = Ok (octets4 (target a)) /\
  slice (E:=io_error) f 6 12 = Ok (sender_mac a) /\
  slice (E:=io_error) f 0 6 = Ok d /\
  slice (E:=io_error) f 32 38 = Ok (target_mac a) /\
  idx (E:=io_error) f 20 = Ok ((operation a / 256 ^ Z.of_nat 1) mod 256) /\
  idx (E:=io_error) f 21 = Ok ((operation a / 256 ^ Z.of_nat 0) mod 256).
Proof.
  intros Hd Hs Ht f.
  assert (f = d ++ sender_mac a ++ ([8; 6; 0; 1; 8; 0; 6; 4] ++ be16 (operation a)) ++ sender_mac a
    ++ octets4 (sender a) ++ target_mac a ++ octets4 (target a)) as ->
    by (unfold f, arp_encode; by rewrite <-!app_assoc).
  unfold octets4, be16, be32. split_and!; try slice_tac; [len_lia|..];
    rewrite idx_app_r, Hd, idx_app_r, Hs by lia; reflexivity.
Qed.
Lemma arp_operation a : operation a = 1 \/ operation a = 2 ->
  negb (beq ([8; 6; 0; 1; 8; 0; 6; 4] ++ be16 (operation a)) [8; 6; 0; 1; 8; 0; 6; 4; 0; 1])
  && negb (beq ([8; 6; 0; 1; 8; 0; 6; 4] ++ be16 (operation a)) [8; 6; 0; 1; 8; 0; 6; 4; 0; 2]) = false.
Proof. by intros [-> | ->]. Qed.

(** An ARP message survives encoding and parsing, whether it is sent to the target's
    own address or to a group address; the link-layer sender is checked against it. *)
Theorem arp_roundtrip a d m :
  arp_wf a -> len d = 6 -> d !! 0%nat = Some m ->
  (operation a = 2 -> Z.land m 1 = 0 -> d = target_mac a) ->
  arp_parse (arp_encode a d) = Ok a.
Proof.
  intros (Hop & Hsm & (m0 & Hm0 & Hm1) & Hz & Htm & Hs & Ht & Hu & Hu2 & Hu3) Hd Hm Hdst.
  destruct (arp_reads a d Hd Hsm Htm) as (Hl & R1 & R2 & R3 & R4 & R5 & R6 & R7 & R8 & R9).
  assert (idx (E:=io_error) (arp_encode a d) 0 = Ok m) as R10 by (apply idx_app_l, idx_Ok; done).
  assert (idx (E:=io_error) (sender_mac a) 0 = Ok m0) as R11 by (by apply idx_Ok).
  unfold arp_parse. rewrite Hl. change (42 <? 42) with false.
  rewrite R1. cbn [mbind outcome_bind]. rewrite arp_operation by done.
  rewrite R2, R3, R4, R8, R9. cbn [mbind outcome_bind]. rewrite R11, R5, R10, R6, R7. cbn [mbind outcome_bind].
  rewrite Hm1, !addr4_octets4, beq_refl, u16be_be16 by (done || u_lia).
  assert (beq (sender_mac a) (zeros 6) = false) as -> by (apply not_true_iff_false; by rewrite beq_eq).
  unfold is_unspecified4. cbn [negb orb Z.eqb].
  replace (_ || _) with false; [by destruct a|]. symmetry.
  destruct (Z.eqb_spec (operation a) 2), (Z.eqb_spec (sender a) 0), (Z.eqb_spec (Z.land m 1) 0); cbn;
    try (destruct Hu2; [done|done]); rewrite ?Hu by done; cbn;
    try (rewrite Hdst by done; rewrite beq_refl; cbn).
  all: destruct Hu3 as [Hu3|[? Hu3]]; rewrite ?Hu3; try done; try lia; by rewrite orb_true_r.
Qed.

(** ** Witnesses *)

Lemma ipv4_parsers_never_panic_witness : safe (parse_inner ([0x4f] ++ zeros 30) true).
Proof. apply (ipv4_parsers_never_panic ([0x4f] ++ zeros 30) true). repeat constructor; vm_compute; discriminate. Defined.
Lemma ipv4_roundtrip_witness :
  exists b, encode 0xc0000201 0xc0000202 17 64 [1; 2; 3] = Ok b /\ len b = 23 /\
    parse b = Ok (mkPacket 0xc0000201 0xc0000202 64 17 [1; 2; 3] b 20 0 false false 0 0).
Proof.
  apply (ipv4_roundtrip 0xc0000201 0xc0000202 17 64 [1; 2; 3]); try (split; vm_compute; discriminate).
  vm_compute. discriminate.
Defined.
Definition sample_arp : Arp :=
  mkArp 2 [2; 0; 0; 0; 0; 1] 0xc0000201 [2; 0; 0; 0; 0; 2] 0xc0000202.
Lemma arp_roundtrip_witness :
  arp_parse (arp_encode sample_arp [2; 0; 0; 0; 0; 2]) = Ok sample_arp.
Proof.
  apply (arp_roundtrip sample_arp [2; 0; 0; 0; 0; 2] 2); [|reflexivity|reflexivity|reflexivity].
  unfold arp_wf. split_and!; try reflexivity; try (split; vm_compute; discriminate); try discriminate.
  - right. reflexivity.
  - exists 2. split; reflexivity.
  - left. reflexivity.
Defined.
