(* ===== verification/Reassembly.v ===== *)
(** Bounded IP reassembly and fragmentation ([src/src/ip_reassembly.rs]).

    [Reassembler] is the state, a map from fragment keys to contexts; [input_scoped] is
    its method in the state and error monad.  A context's [parts] is the [BTreeMap] of the
    source as its sorted list of entries, since the code iterates over it in order. *)

From S2P Require Import Prelude Effects Checksum Wire Ipv4Wire.

Definition CAP : Z := 4 * 1024 * 1024.

(** [std::net::IpAddr] *)
Inductive IpAddr := V4 (a : Z) | V6 (a : Z).
#[global] Instance IpAddr_eq_dec : EqDecision IpAddr.
Proof. solve_decision. Defined.
#[global] Instance IpAddr_countable : Countable IpAddr :=
  inj_countable' (fun x => match x with V4 a => inl a | V6 a => inr a end)
    (fun x => match x with inl a => V4 a | inr a => V6 a end) ltac:(by intros []).

Record Datagram := mkDatagram { d_packet : bytes; d_fragment_id : option Z }.

(** scope, source, destination, protocol, identification *)
Definition Key : Type := Z * IpAddr * IpAddr * Z * Z.
Definition key_scope (k : Key) (scope : Z) : Key :=
  let '(_, s, d, p, i) := k in (scope, s, d, p, i).
Definition key_id (k : Key) : Z := let '(_, _, _, _, i) := k in i.

(** ** Contexts *)

(** [BTreeMap<usize, Vec<u8>>] *)
Definition Parts : Type := list (Z * bytes).
Fixpoint parts_insert (at_ : Z) (b : bytes) (m : Parts) : Parts :=
  match m with
  | [] => [(at_, b)]
  | (k, v) :: m' =>
      if at_ <? k then (at_, b) :: m
      else if at_ =? k then (at_, b) :: m'
      else (k, v) :: parts_insert at_ b m'
  end.

Record Context := mkContext {
  c_header : bytes;
  c_parts : Parts;
  c_end : option Z;
  c_deadline : Z;
}.
Definition parts_bytes (m : Parts) : Z := foldr (fun p acc => len (snd p) + 128 + acc) 0 m.
Definition context_bytes (c : Context) : Z := 128 + len (c_header c) + parts_bytes (c_parts c).

Record Reassembler := mkReassembler { contexts : gmap Key Context }.
Definition reassembler_new : Reassembler := mkReassembler ∅.

Record Fragment := mkFragment {
  f_key : Key;
  f_header : bytes;
  f_offset : Z;
  f_more : bool;
  f_payload : bytes;
}.

Definition context_count (r : Reassembler) : Z := Z.of_nat (size (contexts r)).
Definition retained_bytes (r : Reassembler) : Z :=
  map_fold (fun _ c acc => context_bytes c + acc) 0 (contexts r).
Definition next_deadline (r : Reassembler) : option Z :=
  map_fold (fun _ c acc => Some (match acc with None => c_deadline c | Some t => Z.min (c_deadline c) t end))
    None (contexts r).
Definition expire (now : Z) (r : Reassembler) : Reassembler :=
  mkReassembler (filter (fun kc => now < c_deadline (snd kc)) (contexts r)).

(** ** Rebuilding a packet *)

Definition complete (header data : bytes) : outcome io_error bytes :=
  h0 ← header.[0];
  header ←
    (if Z.shiftr h0 4 =? 6 then
       n ← sub_chk (len header) 40;
       reject_if u16_max <? n + len data with InvalidData;
       copy_at header 4 (be16 (n + len data))
     else
       reject_if u16_max <? len header + len data with InvalidData;
       header ← copy_at header 2 (be16 (len header + len data));
       let c := checksum4 header in
       copy_at header 10 (be16 c));
  Ok (header ++ data).

(** ** Parsing fragments *)

(** The [for _ in 0..16] walk over the extension headers. *)
Fixpoint parse6_loop (rounds : nat) (b : bytes) (e : Envelope) (previous at_ : Z)
  : outcome io_error (option Fragment) :=
  match rounds with
  | O => Err InvalidData
  | S rounds =>
      next ← b.[previous];
      if next =? 44 then
        reject_if len b <? at_ + 8 with InvalidData;
        reserved ← b.[at_ + 1];
        reject_if negb (reserved =? 0) with InvalidData;
        b2 ← b.[at_ + 2]; b3 ← b.[at_ + 3];
        let flags := u16be b2 b3 in
        inner ← b.[at_];
        reject_if negb (Z.land flags 6 =? 0) || mem inner [0; 43; 44; 51; 60] with InvalidData;
        header ← slice b 0 at_;
        header ← copy_at header previous [inner];
        header ← copy_at header 4 [0; 0];
        id ← slice b (at_ + 4) (at_ + 8);
        payload ← slice_from b (at_ + 8);
        Ok (Some (mkFragment (0, V6 (e_source e), V6 (e_destination e), 0, of_be id)
                    header (Z.land flags 0xfff8) (negb (Z.land flags 1 =? 0)) payload))
      else if mem next [0; 43; 60] then
        reject_if len b <? at_ + 2 with InvalidData;
        l ← b.[at_ + 1];
        reject_if len b <? at_ + (l + 1) * 8 with InvalidData;
        parse6_loop rounds b e at_ (at_ + (l + 1) * 8)
      else if next =? 51 then
        reject_if len b <? at_ + 2 with InvalidData;
        l ← b.[at_ + 1];
        reject_if len b <? at_ + (l + 2) * 4 with InvalidData;
        parse6_loop rounds b e at_ (at_ + (l + 2) * 4)
      else Ok None
  end.
Definition parse4_fragment (b : bytes) : outcome io_error (option Fragment) :=
  p ← Ipv4Wire.parse b;
  reject_if negb (len (pk_bytes p) =? len b) with InvalidData;
  if negb (pk_more_fragments p) && (pk_fragment_offset p =? 0) then Ok None else
  header ← slice b 0 (pk_header_len p);
  header ← copy_at header 2 [0; 0];
  header ← copy_at header 6 [0; 0];
  header ← copy_at header 10 [0; 0];
  Ok (Some (mkFragment (0, V4 (pk_source p), V4 (pk_destination p), pk_protocol p, pk_id p)
              header (pk_fragment_offset p) (pk_more_fragments p) (pk_payload p))).
Definition parse6_fragment (b : bytes) : outcome io_error (option Fragment) :=
  e ← map_err (fun _ => InvalidData) (envelope RawIpv6 b);
  reject_if negb (len (e_packet e) =? len b) with InvalidData;
  parse6_loop 16 b e 6 40.
Definition parse (b : bytes) : outcome io_error (option Fragment) :=
  match b with
  | [] => Err InvalidData
  | v :: _ =>
      if Z.shiftr v 4 =? 4 then parse4_fragment b
      else if Z.shiftr v 4 =? 6 then parse6_fragment b
      else Err InvalidData
  end.

(** ** Input *)

(** A fragment that the context of its datagram contradicts: another header, an overlap,
    data beyond the known end, or an end before known data. *)
Definition conflicts (c : Context) (f : Fragment) (end_ : Z) : bool :=
  negb (beq (c_header c) (f_header f))
  || existsb (fun p => (f_offset f <? fst p + len (snd p)) && (fst p <? end_)) (c_parts c)
  || match c_end c with
     | Some e => (e <? end_) || negb (f_more f) && negb (end_ =? e)
     | None => false
     end
  || negb (f_more f) && existsb (fun p => end_ <? fst p + len (snd p)) (c_parts c).

(** [next] after the loop over the parts, unless a gap makes it return early. *)
Fixpoint contiguous (m : Parts) (next : Z) : option Z :=
  match m with
  | [] => Some next
  | (at_, b) :: m => if at_ =? next then contiguous m (next + len b) else None
  end.
Definition set_contexts (f : gmap Key Context -> gmap Key Context) (r : Reassembler) : Reassembler :=
  mkReassembler (f (contexts r)).
Definition datagram (id : Z) (packet : bytes) : option Datagram := Some (mkDatagram packet (Some id)).

(** [or_insert(Context ..)], and the context after the fragment is added to it. *)
Definition fresh_context (f : Fragment) (now : Z) : Context :=
  mkContext (f_header f) [] None (sat64 now 60000).
Definition extended (c : Context) (f : Fragment) : Context :=
  mkContext (c_header c) (parts_insert (f_offset f) (f_payload f) (c_parts c))
    (if f_more f then c_end c else Some (f_offset f + len (f_payload f))) (c_deadline c).
(** The datagram is returned and its context removed once the parts run without a gap
    from zero to the known end. *)
Definition finish (k : Key) (c : Context) (id : Z) : M Reassembler io_error (option Datagram) :=
  if bool_decide (contiguous (c_parts c) 0 = c_end c /\ c_end c <> None) then
    modify (set_contexts (delete k)) ;;
    packet ← lift (complete (c_header c) (concat (map snd (c_parts c))));
    mret (datagram id packet)
  else mret None.

Definition input_fragment (f : Fragment) (now : Z) : M Reassembler io_error (option Datagram) :=
  let id := key_id (f_key f) in
  if (f_offset f =? 0) && negb (f_more f) then
    packet ← lift (complete (f_header f) (f_payload f));
    mret (datagram id packet)
  else
  let end_ := f_offset f + len (f_payload f) in
  h0 ← lift ((f_header f).[0]);
  overhead ← lift (if Z.shiftr h0 4 =? 6 then sub_chk (len (f_header f)) 40 else Ok (len (f_header f)));
  if (len (f_payload f) =? 0) || (65535 <? end_ + overhead)
     || f_more f && negb (len (f_payload f) mod 8 =? 0) then throw InvalidData else
  r ← get;
  match contexts r !! f_key f with
  | Some c =>
      if conflicts c f end_ then
        modify (set_contexts (delete (f_key f))) ;; throw InvalidData
      else mret tt
  | None => mret tt
  end ;;
  let fresh := bool_decide (contexts r !! f_key f = None) in
  let charge := len (f_payload f) + 128 + (if fresh then 128 + len (f_header f) else 0) in
  if fresh && (64 <=? context_count r) || (CAP <? retained_bytes r + charge)
  then throw WouldBlock else
  let c := extended (default (fresh_context f now) (contexts r !! f_key f)) f in
  modify (set_contexts (insert (f_key f) c)) ;;
  finish (f_key f) c id.
Definition input_scoped (b : bytes) (now scope : Z) : M Reassembler io_error (option Datagram) :=
  modify (expire now) ;;
  parsed ← lift (parse b);
  match parsed with
  | None => mret (Some (mkDatagram b None))
  | Some f =>
      input_fragment (mkFragment (key_scope (f_key f) scope) (f_header f) (f_offset f) (f_more f) (f_payload f)) now
  end.
Definition input (b : bytes) (now : Z) : M Reassembler io_error (option bytes) :=
  d ← input_scoped b now 0; mret (d_packet <$> d).

(** ** Fragmentation *)

(** [payload.chunks(chunk)] *)
Fixpoint chunks (fuel : nat) (n : Z) (b : bytes) : list bytes :=
  match fuel, b with
  | _, [] => []
  | O, _ => []
  | S fuel, _ => take (Z.to_nat n) b :: chunks fuel n (drop (Z.to_nat n) b)
  end.

(** One iteration of the loop over the chunks. *)
Definition fragment_one (b : bytes) (header id total offset : Z) (data : bytes) : outcome io_error bytes :=
  let more := offset + len data <? total in
  h ← slice b 0 header;
  h ← (if header =? 40 then
         h ← copy_at h 6 [44];
         h ← copy_at h 4 (be16 (len data + 8));
         b6 ← b.[6];
         Ok (h ++ [b6; 0] ++ be16 (Z.lor (offset mod 65536) (of_bool more)) ++ be32 id)
       else
         h ← copy_at h 2 (be16 (len data + 20));
         h ← copy_at h 4 (be16 (id mod 65536));
         h ← copy_at h 6 (be16 (Z.lor (offset mod 65536 / 8) (if more then 0x2000 else 0)));
         h ← copy_at h 10 [0; 0];
         let c := checksum4 h in
         copy_at h 10 (be16 c));
  Ok (h ++ data).
Fixpoint fragment_loop (b : bytes) (header id chunk total i : Z) (ds : list bytes)
  : outcome io_error (list bytes) :=
  match ds with
  | [] => Ok []
  | data :: ds =>
      h ← fragment_one b header id total (i * chunk) data;
      rest ← fragment_loop b header id chunk total (i + 1) ds;
      Ok (h :: rest)
  end.
Definition fragment_plan (b : bytes) (mtu : Z) : outcome io_error (Z * Z) :=
  match b with
  | [] => Err InvalidData
  | v :: _ =>
      if Z.shiftr v 4 =? 6 then
        e ← map_err (fun _ => InvalidData) (envelope RawIpv6 b);
        reject_if negb (mem (e_next_header e) [6; 17; 58]) || (mtu <? 1280) with InvalidData;
        Ok (40, 48)
      else if Z.shiftr v 4 =? 4 then
        p ← Ipv4Wire.parse b;
        reject_if negb (pk_header_len p =? 20) || pk_more_fragments p
                  || negb (pk_fragment_offset p =? 0) || (mtu <? 68) with InvalidData;
        Ok (20, 20)
      else Err InvalidData
  end.
Definition fragment (b : bytes) (mtu id : Z) : outcome io_error (list bytes) :=
  if len b <=? mtu then Ok [b] else
  '(header, overhead) ← fragment_plan b mtu;
  room ← sub_chk mtu overhead;
  let chunk := room / 8 * 8 in
  reject_if chunk =? 0 with InvalidData;
  payload ← slice_from b header;
  fragment_loop b header id chunk (len payload) 0 (chunks (length payload) chunk payload).
