(* ===== verification/ReassemblyFacts.v ===== *)
(** Properties of reassembly and fragmentation: safety, the capacity invariant, and that
    the fragments of a packet put it together again in whatever order they arrive. *)

From S2P Require Import Prelude Effects Checksum Wire WireFacts Ipv4Wire Reassembly.

(** ** Fragments read from the wire *)

Definition header_wf (h : bytes) : Prop :=
  is_bytes h /\ 20 <= len h /\ exists h0, h !! 0%nat = Some h0 /\ (Z.shiftr h0 4 = 6 -> 40 <= len h).
Definition fragment_wf (f : Fragment) : Prop :=
  header_wf (f_header f) /\ is_bytes (f_payload f) /\ 0 <= f_offset f.

Lemma lookup_put b lo src i : 0 <= lo -> lo + len src <= len b -> Z.of_nat i < lo ->
  put b lo src !! i = b !! i.
Proof.
  intros Hlo Hb Hi. pose proof (len_nonneg src). unfold put, len in *.
  rewrite lookup_app_l by (rewrite length_take; lia). apply lookup_take_lt. lia.
Qed.
Lemma header_wf_put h lo src :
  header_wf h -> is_bytes src -> 0 < lo -> lo + len src <= len h -> header_wf (put h lo src).
Proof.
  intros (Hb & Hl & h0 & Hh & H6) Hs Hlo Hle. split; [by apply is_bytes_put|].
  rewrite len_put by lia. split; [done|]. exists h0. rewrite lookup_put; [done|lia..].
Qed.
Lemma header_wf_sub b n v : is_bytes b -> 20 <= n <= len b -> b !! 0%nat = Some v ->
  (Z.shiftr v 4 = 6 -> 40 <= n) -> header_wf (sub b 0 n).
Proof.
  intros Hb Hn Hv H6. split; [eauto with snac|]. rewrite len_sub by lia. split; [lia|].
  exists v. rewrite Z.sub_0_r. split; [|done]. rewrite sub_to, lookup_take_lt; [done|lia].
Qed.

Lemma parse6_loop_ok rounds b e previous at_ v :
  is_bytes b -> 6 <= previous < at_ -> 40 <= at_ <= len b -> b !! 0%nat = Some v ->
  safe (parse6_loop rounds b e previous at_) /\
  forall f, parse6_loop rounds b e previous at_ = Ok (Some f) -> fragment_wf f.
Proof.
  intros Hb Hp Ha Hv. revert previous at_ Hp Ha.
  induction rounds as [|rounds IH]; intros previous at_ Hp Ha; cbn [parse6_loop]; [done|].
  pose proof (safe_idx (E:=io_error) b previous ltac:(lia)) as Hs.
  destruct (idx b previous) as [next|e'|] eqn:Hn; [|done|by destruct Hs]. cbn [mbind outcome_bind].
  destruct (next =? 44).
  - split.
    + safe_auto; inv_all_ok; subst; rewrite ?len_put; rewrite ?len_sub; safe_lia || (cbn; safe_lia).
    + intros f Hf. inv_all_ok. subst. byte_facts. split_and!; cbn [f_header f_payload f_offset].
      * apply header_wf_put; [|bytes_tac|lia|done].
        apply header_wf_put; [|bytes_tac|lia|done]. apply (header_wf_sub b at_ v); (done || lia).
      * eauto with snac.
      * apply Z.land_nonneg. lia.
  - destruct (mem next [0; 43; 60]); [|destruct (next =? 51)]; [..|done].
    all: destruct (Z.ltb_spec (len b) (at_ + 2)); [done|].
    all: pose proof (safe_idx (E:=io_error) b (at_ + 1) ltac:(lia)) as Hs1.
    all: destruct (idx b (at_ + 1)) as [l|e'|] eqn:Hl; [|done|by destruct Hs1]; cbn [mbind outcome_bind]; byte_facts.
    all: case_match; [done|]; apply IH; u_lia.
Qed.

Lemma parse_ok b : is_bytes b ->
  safe (parse b) /\ forall f, parse b = Ok (Some f) -> fragment_wf f.
Proof.
  intros Hb. unfold parse. destruct b as [|v b']; [done|]. set (b := v :: b') in *.
  destruct (Z.eqb_spec (Z.shiftr v 4) 4) as [H4|H4].
  - unfold parse4_fragment. pose proof (parse_inner_safe b false Hb) as Hs. unfold Ipv4Wire.parse.
    destruct (parse_inner b false) as [p|e|] eqn:Hp; [|done|by destruct Hs]. cbn [mbind outcome_bind].
    apply parse_inner_Ok in Hp as (Hw1 & Hw2 & Hw3 & Hw4 & Hw5 & _ & _ & _ & _ & _ & _ & Hw6 & _); [|done].
    split.
    + safe_auto; inv_all_ok; subst; rewrite ?len_put; rewrite ?len_sub; cbn; safe_lia.
    + intros f Hf. case_match; [done|]. case_match; [done|]. inv_all_ok. subst.
      split_and!; cbn [f_header f_payload f_offset]; [|rewrite Hw5; eauto with snac|done].
      do 3 (apply header_wf_put; [|bytes_tac|lia|done]).
      apply (header_wf_sub b (pk_header_len p) v); [done|lia|done|lia].
  - destruct (Z.eqb_spec (Z.shiftr v 4) 6) as [H6|H6]; [|done]. unfold parse6_fragment.
    pose proof (envelope_safe RawIpv6 b Hb) as Hs.
    destruct (envelope RawIpv6 b) as [e|e|] eqn:He; [|done|by destruct Hs]. cbn [map_err mbind outcome_bind].
    apply envelope_Ok in He as (_ & _ & Hl & _); [|done]. pose proof (len_nonneg (e_payload e)).
    destruct (negb (len (e_packet e) =? len b)) eqn:Hlen; [done|].
    apply (parse6_loop_ok 16 b e 6 40 v); [done|lia|lia|done].
Qed.

Lemma complete_safe h data : header_wf h -> safe (complete h data).
Proof.
  intros (Hb & Hl & h0 & Hh & H6). unfold complete.
  assert (idx (E:=io_error) h 0 = Ok h0) as -> by (by apply idx_Ok). cbn [mbind outcome_bind].
  safe_auto; inv_all_ok; subst; unfold be16; rewrite ?len_put; unfold be16; rewrite ?len_be; safe_lia.
Qed.

(** ** Contexts *)

(** The parts are sorted, non-empty and disjoint, from [lo] on. *)
Fixpoint parts_ok (lo : Z) (m : Parts) : Prop :=
  match m with
  | [] => True
  | (at_, b) :: m => lo <= at_ /\ 0 < len b /\ is_bytes b /\ parts_ok (at_ + len b) m
  end.
Definition part_end (p : Z * bytes) : Z := fst p + len (snd p).
Definition overlaps (at_ end_ : Z) (p : Z * bytes) : bool := (at_ <? part_end p) && (fst p <? end_).

Lemma parts_bytes_cons k v m : parts_bytes ((k, v) :: m) = len v + 128 + parts_bytes m.
Proof. done. Qed.
Lemma parts_ok_insert at_ b m lo :
  parts_ok lo m -> lo <= at_ -> 0 < len b -> is_bytes b ->
  existsb (overlaps at_ (at_ + len b)) m = false ->
  parts_ok lo (parts_insert at_ b m) /\
  parts_bytes (parts_insert at_ b m) = len b + 128 + parts_bytes m /\
  parts_insert at_ b m ≡ₚ (at_, b) :: m.
Proof.
  intros Hm Hlo Hl Hb. revert lo Hm Hlo. induction m as [|[k v] m IH]; intros lo Hm Hlo Ho; [done|].
  cbn [existsb] in Ho. apply orb_false_iff in Ho as [Ho Hr].
  destruct Hm as (H1 & H2 & H3 & H4). unfold overlaps, part_end in Ho. cbn [fst snd] in Ho.
  cbn [parts_insert]. destruct (Z.ltb_spec at_ k); [|destruct (Z.eqb_spec at_ k)]; [|lia|].
  - cbn [parts_ok]. split_and!; try done; lia.
  - destruct (IH (k + len v) H4 ltac:(lia) Hr) as (A & B & C).
    split_and!; [by cbn [parts_ok] | |].
    + rewrite !parts_bytes_cons, B. lia.
    + rewrite C. apply Permutation_swap.
Qed.

Definition overhead (h : bytes) : Z :=
  match h with h0 :: _ => if Z.shiftr h0 4 =? 6 then len h - 40 else len h | [] => 0 end.
Definition is_complete (c : Context) : Prop := contiguous (c_parts c) 0 = c_end c /\ c_end c <> None.
Record context_pre (c : Context) : Prop := {
  cw_header : header_wf (c_header c);
  cw_parts : parts_ok 0 (c_parts c);
  cw_end : forall e, c_end c = Some e -> Forall (fun p => part_end p <= e) (c_parts c);
  cw_size : Forall (fun p => part_end p + overhead (c_header c) <= 65535) (c_parts c);
}.
Definition context_wf (c : Context) : Prop :=
  context_pre c /\ c_parts c <> [] /\ ~ is_complete c.

Lemma conflicts_false c f : conflicts c f (f_offset f + len (f_payload f)) = false ->
  c_header c = f_header f /\
  existsb (overlaps (f_offset f) (f_offset f + len (f_payload f))) (c_parts c) = false /\
  (forall e, c_end c = Some e -> f_offset f + len (f_payload f) <= e /\
     (f_more f = false -> f_offset f + len (f_payload f) = e)) /\
  (f_more f = false -> Forall (fun p => part_end p <= f_offset f + len (f_payload f)) (c_parts c)).
Proof.
  unfold conflicts. rewrite !orb_false_iff, negb_false_iff, beq_eq. intros [[[Hh Ho] He] Hm].
  split_and!; [done|done| |].
  - intros e Hce. rewrite Hce in He. destruct (f_more f); split; intros; try discriminate; lia.
  - intros Hf. rewrite Hf in Hm. cbn in Hm. apply List.Forall_forall. intros p Hp.
    destruct (Z.ltb_spec (f_offset f + len (f_payload f)) (part_end p)) as [Hlt|]; [|done].
    assert (existsb (fun p : Z * bytes => f_offset f + len (f_payload f) <? p.1 + len p.2) (c_parts c) = true); [|congruence].
    apply existsb_exists. exists p. split; [done|]. unfold part_end in Hlt. lia.
Qed.
Lemma extended_pre c f :
  context_pre c -> fragment_wf f -> 0 < len (f_payload f) ->
  f_offset f + len (f_payload f) + overhead (f_header f) <= 65535 ->
  conflicts c f (f_offset f + len (f_payload f)) = false ->
  context_pre (extended c f) /\ c_parts (extended c f) <> [] /\
  context_bytes (extended c f) = len (f_payload f) + 128 + context_bytes c.
Proof.
  intros [Hh Hp He Hs] (Hfh & Hfb & Hfo) Hl Hsz (Hch & Ho & Hce & Hm)%conflicts_false.
  destruct (parts_ok_insert (f_offset f) (f_payload f) (c_parts c) 0) as (A & B & C); [done..|].
  split_and!; [split|..]; cbn [extended c_header c_parts c_end].
  - done.
  - done.
  - intros e Hen. rewrite C. apply Forall_cons_iff. unfold part_end at 1. cbn [fst snd].
    destruct (f_more f) eqn:Hmore.
    + split; [by apply Hce | by apply He].
    + injection Hen as <-. split; [lia|]. by apply Hm.
  - rewrite C. apply Forall_cons_iff. split; [|done]. rewrite Hch. unfold part_end. cbn [fst snd]. done.
  - intros Hnil. rewrite Hnil in C. by apply Permutation_nil_cons in C.
  - unfold context_bytes. cbn [extended c_header c_parts]. rewrite B. lia.
Qed.

(** ** The state *)

Record reassembly_inv (r : Reassembler) : Prop := {
  ri_contexts : map_Forall (fun _ c => context_wf c) (contexts r);
  ri_count : context_count r <= 64;
  ri_bytes : retained_bytes r <= CAP;
}.

Definition total (m : gmap Key Context) : Z := map_fold (fun _ c acc => context_bytes c + acc) 0 m.
Lemma retained_total r : retained_bytes r = total (contexts r).
Proof. done. Qed.
Lemma total_insert (m : gmap Key Context) k c :
  m !! k = None -> total (<[k:=c]> m) = context_bytes c + total m.
Proof. intros. unfold total. rewrite map_fold_insert_L; [done|intros; lia|done]. Qed.
Lemma total_delete (m : gmap Key Context) k c :
  m !! k = Some c -> total m = context_bytes c + total (delete k m).
Proof. intros. unfold total. by rewrite (map_fold_delete_L _ _ k c m) by (done || intros; lia). Qed.
Lemma parts_bytes_nonneg m : 0 <= parts_bytes m.
Proof. induction m as [|[k v] m IH]; cbn; [lia|]. pose proof (len_nonneg v). unfold parts_bytes in IH. lia. Qed.
Lemma context_bytes_pos c : 0 < context_bytes c.
Proof. unfold context_bytes. pose proof (len_nonneg (c_header c)). pose proof (parts_bytes_nonneg (c_parts c)). lia. Qed.
Lemma total_replace (m : gmap Key Context) k c c' :
  m !! k = Some c -> total (<[k:=c']> m) = total m - context_bytes c + context_bytes c'.
Proof.
  intros Hk. rewrite <-insert_delete_eq, total_insert by apply lookup_delete_eq.
  rewrite (total_delete m k c Hk). lia.
Qed.
Lemma total_filter (m : gmap Key Context) (P : Key * Context -> Prop) `{!forall x, Decision (P x)} :
  total (filter P m) <= total m.
Proof.
  induction m as [|k c m Hk IH] using map_ind; [done|]. rewrite (total_insert m) by done.
  pose proof (context_bytes_pos c). destruct (decide (P (k, c))).
  - rewrite map_filter_insert_True, total_insert by (done || by rewrite map_lookup_filter_None; left). lia.
  - rewrite map_filter_insert_not' by naive_solver. lia.
Qed.

Lemma inv_new : reassembly_inv reassembler_new.
Proof. split; [apply map_Forall_empty | done | done]. Qed.
Lemma inv_expire now r : reassembly_inv r -> reassembly_inv (expire now r).
Proof.
  intros [Hc Hn Hb]. split; unfold expire, context_count in *; rewrite ?retained_total in *; cbn [contexts].
  - intros k c [Hk _]%map_lookup_filter_Some. by eapply Hc.
  - pose proof (map_size_filter (fun kc : Key * Context => now < c_deadline (snd kc)) (contexts r)). lia.
  - pose proof (total_filter (contexts r) (fun kc => now < c_deadline (snd kc))). lia.
Qed.
Lemma inv_delete k r : reassembly_inv r -> reassembly_inv (set_contexts (delete k) r).
Proof.
  intros [Hc Hn Hb]. split; unfold set_contexts, context_count in *; rewrite ?retained_total in *; cbn [contexts].
  - by apply map_Forall_delete.
  - rewrite map_size_delete. destruct (contexts r !! k); unfold id; lia.
  - destruct (contexts r !! k) as [c|] eqn:Hk.
    + pose proof (total_delete _ k c Hk). pose proof (context_bytes_pos c). lia.
    + by rewrite delete_id.
Qed.

Lemma fresh_context_pre f now : fragment_wf f ->
  context_pre (fresh_context f now) /\ conflicts (fresh_context f now) f (f_offset f + len (f_payload f)) = false.
Proof.
  intros (Hh & _). split; [by split|]. unfold conflicts. cbn. by rewrite beq_refl, andb_false_r.
Qed.
Lemma header_overhead h : header_wf h -> exists h0,
  idx (E:=io_error) h 0 = Ok h0 /\
  (if Z.shiftr h0 4 =? 6 then sub_chk (E:=io_error) (len h) 40 else Ok (len h)) = Ok (overhead h).
Proof.
  intros (_ & _ & h0 & Hh & H6). exists h0. split; [by apply idx_Ok|]. destruct h as [|x h]; [done|].
  injection Hh as ->. unfold overhead. destruct (Z.eqb_spec (Z.shiftr h0 4) 6) as [He|]; [|done].
  apply sub_chk_Ok. auto.
Qed.

(** Storing an extended context keeps the invariant as long as it is charged for. *)
Lemma inv_insert r k c c' charge :
  reassembly_inv r -> context_wf c' -> context_bytes c' = charge + context_bytes c ->
  (contexts r !! k = Some c \/ contexts r !! k = None /\ context_count r < 64) ->
  retained_bytes r + charge + (match contexts r !! k with Some _ => 0 | None => context_bytes c end) <= CAP ->
  reassembly_inv (set_contexts (insert k c') r).
Proof.
  intros [Hc Hn Hb] Hwf Hby Hk Hcap. split; unfold set_contexts, context_count in *; cbn [contexts].
  - by apply map_Forall_insert_2.
  - rewrite map_size_insert. destruct Hk as [-> | [-> ?]]; unfold id; lia.
  - rewrite retained_total in *. cbn [contexts]. destruct Hk as [Hk | [Hk ?]]; rewrite Hk in Hcap.
    + rewrite (total_replace _ k c c' Hk). lia.
    + rewrite total_insert by done. lia.
Qed.

Lemma delete_insert_contexts k c r :
  set_contexts (delete k) (set_contexts (insert k c) r) = set_contexts (delete k) r.
Proof. unfold set_contexts. cbn [contexts]. by rewrite delete_insert_eq. Qed.
Lemma finish_inv r k c id : reassembly_inv r -> context_pre c ->
  (~ is_complete c -> reassembly_inv (set_contexts (insert k c) r)) ->
  match finish k c id (set_contexts (insert k c) r) with
  | (Ok _, r') | (Err _, r') => reassembly_inv r'
  | (Panic, _) => False
  end.
Proof.
  intros Hr Hc Hi. unfold finish. case_bool_decide as Hcomp; [|by apply Hi].
  cbv [mbind M_bind lift mret M_ret modify]. rewrite delete_insert_contexts.
  pose proof (complete_safe (c_header c) (concat (map snd (c_parts c))) (cw_header c Hc)) as Hs.
  destruct (complete _ _); [by apply inv_delete..|by destruct Hs].
Qed.

Lemma input_fragment_inv f now : fragment_wf f -> preserves reassembly_inv (input_fragment f now).
Proof.
  intros Hf r Hr. pose proof Hf as (Hh & Hfb & Hfo).
  cbv [input_fragment mbind M_bind lift mret M_ret get modify throw].
  destruct ((f_offset f =? 0) && negb (f_more f)) eqn:Hz.
  { pose proof (complete_safe (f_header f) (f_payload f) Hh) as Hs.
    destruct (complete _ _); [done|done|by destruct Hs]. }
  destruct (header_overhead _ Hh) as (h0 & -> & ->).
  destruct (_ || _ || _) eqn:Hg; [done|]. pose proof (len_nonneg (f_payload f)).
  set (end_ := f_offset f + len (f_payload f)) in *.
  destruct (match contexts r !! f_key f with Some c => conflicts c f end_ | None => false end) eqn:Hcf.
  { destruct (contexts r !! f_key f); [|done]. rewrite Hcf. by apply inv_delete. }
  destruct (contexts r !! f_key f) as [c|] eqn:Hk; [rewrite Hcf|]; cbn [default].
  - pose proof (ri_contexts r Hr _ _ Hk) as [Hpre _]. rewrite bool_decide_false by done. cbn [andb orb].
    destruct (Z.ltb_spec CAP (retained_bytes r + (len (f_payload f) + 128 + 0))); [done|].
    destruct (extended_pre c f) as (He1 & He2 & He3); [done|done|lia|lia|done|].
    apply (finish_inv r (f_key f) (extended c f)); [done|done|]. intros Hcomp.
    apply (inv_insert r (f_key f) c (extended c f) (len (f_payload f) + 128));
      [done | done | done | by left | rewrite Hk; lia].
  - destruct (fresh_context_pre f now Hf) as [Hpre Hnc]. rewrite bool_decide_true by done. cbn [andb].
    destruct (Z.leb_spec 64 (context_count r)); [done|]. cbn [orb].
    destruct (Z.ltb_spec CAP (retained_bytes r + (len (f_payload f) + 128 + (128 + len (f_header f))))); [done|].
    destruct (extended_pre (fresh_context f now) f) as (He1 & He2 & He3); [done|done|lia|lia|done|].
    apply (finish_inv r (f_key f) (extended (fresh_context f now) f)); [done|done|]. intros Hcomp.
    apply (inv_insert r (f_key f) (fresh_context f now) (extended (fresh_context f now) f) (len (f_payload f) + 128));
      [done | done | done | by right | rewrite Hk; unfold context_bytes; cbn; lia].
Qed.

Lemma input_scoped_inv b now scope : is_bytes b -> preserves reassembly_inv (input_scoped b now scope).
Proof.
  intros Hb r Hr. cbv [input_scoped mbind M_bind lift mret M_ret modify].
  destruct (parse_ok b Hb) as [Hs Hf]. apply (inv_expire now) in Hr.
  destruct (parse b) as [[f|]|e|]; [|done|done|by destruct Hs].
  apply input_fragment_inv; [exact (Hf f eq_refl)|done].
Qed.

(** ** Tilings

    The fragments of one datagram: consecutive non-empty pieces from 0 to [n]. *)

Definition disjoint (p q : Z * bytes) : Prop := part_end p <= fst q \/ part_end q <= fst p.
Lemma pairs_perm (l k : Parts) :
  l ≡ₚ k -> ForallOrdPairs disjoint l -> ForallOrdPairs disjoint k.
Proof.
  induction 1 as [|x l k Hp IH|x y l|l k m _ IH1 _ IH2]; intros H; auto.
  - inversion_clear H as [|? ? Hx Hl]. constructor; [by rewrite <-Hp|auto].
  - inversion_clear H as [|? ? Hx Hl]. inversion_clear Hl as [|? ? Hy Hl'].
    apply Forall_cons_iff in Hx as [Hxy Hx]. constructor; [|by constructor].
    apply Forall_cons_iff. split; [|done]. unfold disjoint in *. tauto.
Qed.
#[global] Instance pairs_proper : Proper ((≡ₚ) ==> iff) (ForallOrdPairs disjoint).
Proof. intros l k Hp. split; apply pairs_perm; [done|by symmetry]. Qed.
Lemma parts_ok_ge lo m p : parts_ok lo m -> p ∈ m -> lo <= fst p /\ 0 < len (snd p).
Proof.
  revert lo. induction m as [|[k v] m IH]; intros lo Hm Hp; [by apply elem_of_nil in Hp|].
  destruct Hm as (H1 & H2 & H3 & H4). apply elem_of_cons in Hp as [->|Hp]; [done|].
  destruct (IH _ H4 Hp). split; lia.
Qed.
Lemma parts_ok_pairs lo m : parts_ok lo m -> ForallOrdPairs disjoint m.
Proof.
  revert lo. induction m as [|[k v] m IH]; intros lo Hm; constructor; [|by eapply IH, Hm].
  apply List.Forall_forall. intros q Hq%list_elem_of_In. destruct Hm as (_ & _ & _ & Hm).
  left. by apply (parts_ok_ge _ _ q Hm).
Qed.
Lemma parts_ok_unique lo m1 m2 : parts_ok lo m1 -> parts_ok lo m2 -> m1 ≡ₚ m2 -> m1 = m2.
Proof.
  revert lo m2. induction m1 as [|p m1 IH]; intros lo m2 H1 H2 Hp.
  { by apply Permutation_nil_l in Hp. }
  destruct m2 as [|q m2]; [by symmetry in Hp; apply Permutation_nil_cons in Hp|].
  assert (p = q) as ->.
  { assert (p ∈ q :: m2) as Hpi by (rewrite <-Hp; left).
    assert (q ∈ p :: m1) as Hqi by (rewrite Hp; left).
    apply elem_of_cons in Hpi as [|Hpi]; [done|]. apply elem_of_cons in Hqi as [|Hqi]; [done|].
    destruct p as [kp vp], q as [kq vq]. destruct H1 as (A1 & B1 & C1 & D1), H2 as (A2 & B2 & C2 & D2).
    destruct (parts_ok_ge _ _ _ D1 Hqi), (parts_ok_ge _ _ _ D2 Hpi). cbn in *. lia. }
  f_equal. destruct q as [k v]. apply Permutation_cons_inv in Hp.
  eapply IH; [apply H1 | apply H2 | done].
Qed.
Definition sum_len (m : Parts) : Z := foldr (fun p acc => len (snd p) + acc) 0 m.
Lemma sum_len_perm m k : m ≡ₚ k -> sum_len m = sum_len k.
Proof. induction 1; cbn in *; unfold sum_len in *; cbn in *; lia. Qed.
Lemma contiguous_sum m lo n : contiguous m lo = Some n -> n = lo + sum_len m.
Proof.
  revert lo. induction m as [|[k v] m IH]; cbn; intros lo H; [injection H; lia|].
  case_match; [|done]. apply IH in H. unfold sum_len in *. cbn in *. lia.
Qed.
Lemma contiguous_ends m lo n : contiguous m lo = Some n -> parts_ok lo m ->
  Forall (fun p => part_end p <= n) m /\ (m <> [] -> exists p, p ∈ m /\ part_end p = n).
Proof.
  revert lo. induction m as [|[k v] m IH]; cbn; intros lo H Hm; [done|].
  destruct (Z.eqb_spec k lo) as [->|]; [|done]. destruct Hm as (_ & Hv & _ & Hm).
  destruct (IH _ H Hm) as [I1 I2]. destruct m as [|q m].
  - injection H as <-. split; [|intros _; exists (lo, v); split; [left|done]].
    constructor; [unfold part_end; cbn; lia|constructor].
  - destruct I2 as (p & Hp & He); [done|]. split; [|intros _; exists p; split; [by right|done]].
    constructor; [|done]. pose proof (parts_ok_ge _ _ p Hm Hp). unfold part_end in *. cbn in *.
    pose proof (len_nonneg (snd p)). lia.
Qed.

(** ** Delivery of the fragments of one datagram, in any order *)

(** The arrivals, each at its time, given to the reassembler one after the other. *)
Fixpoint deliver (scope : Z) (arrivals : list (Z * bytes)) : M Reassembler io_error (list (option Datagram)) :=
  match arrivals with
  | [] => mret []
  | (now, b) :: rest =>
      d ← input_scoped b now scope;
      ds ← deliver scope rest;
      mret (d :: ds)
  end.

Section delivery.
Context (k : Key) (scope : Z) (header : bytes) (tiles : Parts) (n t0 : Z) (packet : bytes).
Context (frame : Z * bytes -> bytes).
Definition frag (p : Z * bytes) : Fragment :=
  mkFragment k header (fst p) (part_end p <? n) (snd p).
Definition scoped : Key := key_scope k scope.
Hypothesis header_ok : header_wf header.
Hypothesis tiles_ok : parts_ok 0 tiles.
Hypothesis tiles_end : contiguous tiles 0 = Some n.
Hypothesis tiles_many : forall p, p ∈ tiles -> fst p = 0 -> part_end p <> n.
Hypothesis tiles_units : forall p, p ∈ tiles -> part_end p < n -> len (snd p) mod 8 = 0.
Hypothesis tiles_fit : n + overhead header <= 65535.
Hypothesis packet_ok : complete header (concat (map snd tiles)) = Ok packet.
Hypothesis frame_ok : forall p, p ∈ tiles -> parse (frame p) = Ok (Some (frag p)).
Hypothesis t0_ok : 0 <= t0 /\ t0 + 60000 <= u64_max.

(** The context that has received exactly the tiles [l]. *)
Definition has (l : Parts) (c : Context) : Prop :=
  c_header c = header /\ parts_ok 0 (c_parts c) /\ c_parts c ≡ₚ l /\
  c_end c = (if existsb (fun p => part_end p =? n) l then Some n else None) /\
  t0 + 60000 <= c_deadline c.
Definition scoped_frag (p : Z * bytes) : Fragment :=
  mkFragment scoped header (fst p) (part_end p <? n) (snd p).
Definition partial (l : Parts) (r : Reassembler) : Prop :=
  match contexts r !! scoped with
  | Some c => has l c
  | None => l = [] /\ context_count r < 64
  end.
Definition base (p : Z * bytes) (now : Z) (r : Reassembler) : Context :=
  default (fresh_context (scoped_frag p) now) (contexts r !! scoped).

Lemma base_has l p now r : partial l r -> t0 <= now -> has l (base p now r).
Proof.
  unfold partial, base. destruct (contexts r !! scoped) as [c|]; [done|]. intros [-> _] Hn.
  unfold has, fresh_context. cbn. split_and!; try done. u_lia.
Qed.
Lemma tile_facts p : p ∈ tiles -> 0 <= fst p /\ 0 < len (snd p) /\ part_end p <= n.
Proof.
  intros Hp. destruct (parts_ok_ge _ _ p tiles_ok Hp).
  destruct (contiguous_ends _ _ _ tiles_end tiles_ok) as [He _]. rewrite List.Forall_forall in He.
  split_and!; [done|done|]. apply He. by apply list_elem_of_In.
Qed.
Lemma has_no_conflict l p rest c :
  l ++ p :: rest ≡ₚ tiles -> has l c -> conflicts c (scoped_frag p) (part_end p) = false.
Proof.
  intros Hp (Hh & Hok & Hpm & He & _).
  assert (forall q, q ∈ c_parts c -> part_end q <= n /\ disjoint p q) as Hq.
  { intros q Hq. rewrite Hpm in Hq. split; [apply tile_facts; rewrite <-Hp; apply elem_of_app; by left|].
    pose proof (parts_ok_pairs _ _ tiles_ok) as Hd. rewrite <-Hp, (Permutation_app_comm l) in Hd.
    inversion_clear Hd as [|? ? Hd' _]. rewrite List.Forall_forall in Hd'. apply Hd'.
    apply in_or_app. right. by apply list_elem_of_In. }
  assert (p ∈ tiles) as Hpt by (rewrite <-Hp; apply elem_of_app; right; left).
  destruct (tile_facts p Hpt) as (F1 & F2 & F3). unfold conflicts. cbn [f_header f_offset f_more scoped_frag].
  assert (forall g, (forall q, q ∈ c_parts c -> g q = false) -> existsb g (c_parts c) = false) as Hex.
  { intros g Hg. apply not_true_iff_false. rewrite existsb_exists. intros (q & Hin%list_elem_of_In & Hgq).
    rewrite Hg in Hgq by done. done. }
  rewrite Hh, beq_refl, (Hex (fun q => (fst p <? fst q + len (snd q)) && (fst q <? part_end p))).
  2:{ intros q Hin. destruct (Hq q Hin) as [_ Hd]. unfold disjoint, part_end in *. lia. }
  rewrite He. destruct (Z.ltb_spec (part_end p) n); [destruct (existsb _ l); cbn; [|done]; lia|].
  rewrite Hex; [destruct (existsb _ l); cbn; [|done]; lia|].
  intros q Hin. destruct (Hq q Hin) as [Hle _]. fold (part_end q). lia.
Qed.
Lemma has_extended l p rest c :
  l ++ p :: rest ≡ₚ tiles -> is_bytes (snd p) -> has l c ->
  has (p :: l) (extended c (scoped_frag p)) /\
  context_bytes (extended c (scoped_frag p)) = len (snd p) + 128 + context_bytes c.
Proof.
  intros Hp Hb Hc. pose proof (has_no_conflict l p rest c Hp Hc) as Hn.
  apply conflicts_false in Hn as (_ & Ho & _). destruct Hc as (Hh & Hok & Hpm & He & Hd).
  assert (p ∈ tiles) as Hpt by (rewrite <-Hp; apply elem_of_app; right; left).
  destruct (tile_facts p Hpt) as (F1 & F2 & F3).
  destruct (parts_ok_insert (fst p) (snd p) (c_parts c) 0) as (A & B & C); [done..|].
  split; [|unfold context_bytes; cbn [extended c_header c_parts scoped_frag f_offset f_payload]; rewrite B; lia].
  unfold has. cbn [extended c_header c_parts c_end c_deadline scoped_frag f_offset f_payload f_more].
  split_and!; [done|done| | |done].
  - rewrite C, Hpm. by destruct p.
  - cbn [existsb]. fold (part_end p).
    destruct (Z.ltb_spec (part_end p) n), (Z.eqb_spec (part_end p) n); try lia; [done|].
    cbn [orb]. f_equal. unfold part_end in *. lia.
Qed.
(** A context is complete exactly when it has every tile. *)
Lemma has_complete l rest c : l ++ rest ≡ₚ tiles -> has l c ->
  (rest <> [] -> ~ is_complete c) /\
  (rest = [] -> l <> [] -> is_complete c /\ c_parts c = tiles).
Proof.
  intros Hp (Hh & Hok & Hpm & He & Hd). split.
  - intros Hr [Hc Hn]. rewrite He in *. destruct (existsb _ l); [|done].
    apply contiguous_sum in Hc. rewrite (sum_len_perm _ _ Hpm) in Hc.
    pose proof (contiguous_sum _ _ _ tiles_end) as Hs. rewrite <-(sum_len_perm _ _ Hp) in Hs.
    destruct rest as [|q rest]; [done|].
    assert (forall a b, sum_len (a ++ b) = sum_len a + sum_len b) as Hsa.
    { induction a; intros; cbn; [done|]. unfold sum_len in *. rewrite IHa. lia. }
    assert (q ∈ tiles) as Hq by (rewrite <-Hp; apply elem_of_app; right; left).
    destruct (tile_facts q Hq) as (_ & Hq2 & _). rewrite Hsa in Hs. change (sum_len (q :: rest)) with (len (snd q) + sum_len rest) in Hs.
    assert (0 <= sum_len rest). { clear. induction rest as [|x rest IH]; cbn; [lia|]. pose proof (len_nonneg (snd x)). unfold sum_len in IH. lia. }
    lia.
  - intros -> Hl. rewrite app_nil_r in Hp. assert (c_parts c = tiles) as Hpt
      by (eapply parts_ok_unique; [done|done|by rewrite Hpm]).
    split; [|done]. unfold is_complete. rewrite He, Hpt, tiles_end.
    destruct (contiguous_ends _ _ _ tiles_end tiles_ok) as [_ (q & Hq & Hqe)].
    { intros Hn. rewrite Hn in Hp. by apply Permutation_nil_r in Hp. }
    assert (existsb (fun p => part_end p =? n) l = true) as ->; [|done].
    apply existsb_exists. exists q. split; [|lia]. apply list_elem_of_In. by rewrite Hp.
Qed.

Lemma input_fragment_step l p rest now r :
  partial l r -> l ++ p :: rest ≡ₚ tiles -> is_bytes (snd p) -> t0 <= now ->
  retained_bytes r + (len (snd p) + 128 + match contexts r !! scoped with Some _ => 0 | None => 128 + len header end) <= CAP ->
  let c := extended (base p now r) (scoped_frag p) in
  has (p :: l) c /\
  input_fragment (scoped_frag p) now r =
    match rest with
    | [] => (Ok (datagram (key_id scoped) packet), set_contexts (delete scoped) r)
    | _ => (Ok None, set_contexts (insert scoped c) r)
    end.
Proof.
  intros Hpar Hp Hb Hnow Hcap c.
  assert (p ∈ tiles) as Hpt by (rewrite <-Hp; apply elem_of_app; right; left).
  destruct (tile_facts p Hpt) as (F1 & F2 & F3).
  pose proof (base_has l p now r Hpar Hnow) as Hbase.
  destruct (has_extended l p rest _ Hp Hb Hbase) as [Hext _]. fold c in Hext. split; [done|].
  assert (p :: l ++ rest ≡ₚ tiles) as Hp' by (rewrite <-Hp; apply Permutation_middle).
  destruct (has_complete (p :: l) rest c Hp' Hext) as [Hc1 Hc2].
  assert (finish scoped c (key_id scoped) (set_contexts (insert scoped c) r) = match rest with
    | [] => (Ok (datagram (key_id scoped) packet), set_contexts (delete scoped) r)
    | _ => (Ok None, set_contexts (insert scoped c) r) end) as Hfin.
  { unfold finish. destruct rest as [|q rest].
    - destruct Hc2 as [Hcomp Hct]; [done|done|]. rewrite bool_decide_true by exact Hcomp.
      cbv [mbind M_bind lift mret M_ret modify]. rewrite delete_insert_contexts, Hct.
      destruct Hext as (-> & _). by rewrite packet_ok.
    - rewrite bool_decide_false; [done|]. by apply Hc1. }
  clear Hc1 Hc2. cbv [input_fragment mbind M_bind lift mret M_ret get modify throw].
  cbn [scoped_frag f_key f_header f_offset f_more f_payload].
  assert ((fst p =? 0) && negb (part_end p <? n) = false) as ->.
  { pose proof (tiles_many p Hpt). lia. }
  destruct (header_overhead header header_ok) as (h0 & -> & ->).
  fold (part_end p). assert ((len (snd p) =? 0) || (65535 <? part_end p + overhead header)
    || (part_end p <? n) && negb (len (snd p) mod 8 =? 0) = false) as ->.
  { pose proof (tiles_units p Hpt). lia. }
  pose proof (has_no_conflict l p rest (base p now r) Hp Hbase) as Hnc.
  fold (scoped_frag p). fold (base p now r). fold c. clearbody c.
  unfold partial, base in *. destruct (contexts r !! scoped) as [c0|] eqn:Hk; cbn [default] in *.
  - unfold id in Hnc. rewrite Hnc. rewrite bool_decide_false by done. cbn [andb orb].
    destruct (Z.ltb_spec CAP (retained_bytes r + (len (snd p) + 128 + 0))); [lia|exact Hfin].
  - rewrite bool_decide_true by done. cbn [andb]. destruct Hpar as [_ Hcnt].
    destruct (Z.leb_spec 64 (context_count r)); [lia|]. cbn [orb].
    destruct (Z.ltb_spec CAP (retained_bytes r + (len (snd p) + 128 + (128 + len header)))); [lia|exact Hfin].
Qed.

Definition room (rest : Parts) (r : Reassembler) : Prop :=
  retained_bytes r + parts_bytes rest + match contexts r !! scoped with Some _ => 0 | None => 128 + len header end <= CAP.
Lemma expire_partial l rest now r : partial l r -> room rest r -> now < t0 + 60000 ->
  partial l (expire now r) /\ room rest (expire now r).
Proof.
  unfold partial, room. intros Hl Hr Hn.
  assert (contexts (expire now r) !! scoped = contexts r !! scoped) as ->.
  { destruct (contexts r !! scoped) as [c|] eqn:Hk; unfold expire; cbn [contexts].
    - apply map_lookup_filter_Some. split; [done|]. destruct Hl as (_ & _ & _ & _ & Hd). cbn. lia.
    - apply map_lookup_filter_None. by left. }
  split.
  - destruct (contexts r !! scoped); [done|]. destruct Hl as [-> Hc]. split; [done|].
    unfold context_count, expire in *. cbn [contexts].
    pose proof (map_size_filter (fun kc : Key * Context => now < c_deadline (snd kc)) (contexts r)). lia.
  - rewrite retained_total in *. unfold expire. cbn [contexts].
    pose proof (total_filter (contexts r) (fun kc => now < c_deadline (snd kc))). lia.
Qed.
Lemma insert_partial l p rest now r :
  partial l r -> l ++ p :: rest ≡ₚ tiles -> is_bytes (snd p) -> t0 <= now -> room (p :: rest) r ->
  let r' := set_contexts (insert scoped (extended (base p now r) (scoped_frag p))) r in
  partial (p :: l) r' /\ room rest r'.
Proof.
  intros Hpar Hp Hb Hnow Hroom r'. pose proof (base_has l p now r Hpar Hnow) as Hbase.
  destruct (has_extended l p rest _ Hp Hb Hbase) as [Hext Hby]. unfold partial, room, r' in *.
  cbn [set_contexts contexts]. rewrite lookup_insert_eq. split; [done|].
  rewrite retained_total in *. cbn [contexts set_contexts]. destruct p as [pk pv]. rewrite parts_bytes_cons in Hroom.
  unfold base in *. cbn [snd] in *. destruct (contexts r !! scoped) as [c0|] eqn:Hk; cbn [default] in *; unfold id in *.
  - rewrite (total_replace _ _ _ _ Hk), Hby. lia.
  - rewrite total_insert, Hby by done. unfold context_bytes, fresh_context. cbn [c_header c_parts scoped_frag f_header].
    change (parts_bytes []) with 0. lia.
Qed.

Lemma parts_ok_bytes lo m p : parts_ok lo m -> p ∈ m -> is_bytes (snd p).
Proof.
  revert lo. induction m as [|[kk v] m IH]; intros lo Hm Hp; [by apply elem_of_nil in Hp|].
  destruct Hm as (_ & _ & H3 & H4). apply elem_of_cons in Hp as [->|Hp]; [done|]. by eapply IH.
Qed.
Lemma deliver_tiles arr l r :
  partial l r -> room (map snd arr) r -> l ++ map snd arr ≡ₚ tiles -> arr <> [] ->
  Forall (fun tp => t0 <= fst tp < t0 + 60000) arr ->
  exists r', deliver scope (map (fun tp => (fst tp, frame (snd tp))) arr) r =
    (Ok (replicate (length arr - 1) None ++ [datagram (key_id k) packet]), r') /\
    contexts r' !! scoped = None.
Proof.
  revert l r. induction arr as [|[now p] arr IH]; intros l r Hl Hr Hp Hne Ht; [done|].
  apply Forall_cons_iff in Ht as [Hnow Ht]. cbn [map fst snd] in *.
  assert (p ∈ tiles) as Hpt by (rewrite <-Hp; apply elem_of_app; right; left).
  pose proof (parts_ok_bytes _ _ _ tiles_ok Hpt) as Hb.
  destruct (expire_partial l _ now r Hl Hr ltac:(lia)) as [Hl' Hr'].
  destruct (input_fragment_step l p (map snd arr) now (expire now r) Hl' Hp Hb ltac:(lia)) as [_ Hin].
  { unfold room in Hr'. destruct p as [pk pv]. rewrite parts_bytes_cons in Hr'. cbn [snd].
    pose proof (parts_bytes_nonneg (map snd arr)). lia. }
  destruct (insert_partial l p (map snd arr) now (expire now r) Hl' Hp Hb ltac:(lia) Hr') as [Hl2 Hr2].
  assert (input_scoped (frame p) now scope r = input_fragment (scoped_frag p) now (expire now r)) as Hsc.
  { cbv [input_scoped mbind M_bind lift modify]. by rewrite frame_ok. }
  assert (key_id scoped = key_id k) as Hid by (unfold scoped, key_scope; by destruct k as [[[[? ?] ?] ?] ?]).
  cbn [deliver]. cbv [mbind M_bind mret M_ret]. rewrite Hsc, Hin. destruct arr as [|tp arr].
  - cbn. rewrite Hid. eexists. split; [done|]. cbn. apply lookup_delete_eq.
  - cbn [map] in *. destruct (IH (p :: l) _ Hl2 Hr2) as (r' & Hd & Hnone); [|done|done|].
    { rewrite <-Hp. apply Permutation_middle. }
    rewrite Hd. eexists. split; [|done]. cbn [length]. rewrite !Nat.sub_succ, !Nat.sub_0_r. done.
Qed.
End delivery.
