(* ===== verification/FragmentFacts.v ===== *)
(** Fragmentation: the fragments fit the MTU, are accepted by the fragment parser, and
    put the packet together again in whatever order they arrive. *)

From S2P Require Import Prelude Effects Checksum Wire WireFacts Ipv4Wire Reassembly ReassemblyFacts.

(** ** Chunks *)

Fixpoint tiles_from (chunk i : Z) (ds : list bytes) : Parts :=
  match ds with
  | [] => []
  | d :: ds => (i * chunk, d) :: tiles_from chunk (i + 1) ds
  end.
Definition tiling (chunk : Z) (payload : bytes) : Parts :=
  tiles_from chunk 0 (chunks (length payload) chunk payload).

Lemma chunks_concat fuel n b : 0 < n -> (length b <= fuel)%nat -> concat (chunks fuel n b) = b.
Proof.
  intros Hn. revert b. induction fuel as [|fuel IH]; intros b Hf; destruct b as [|x b]; cbn [chunks]; try done.
  { cbn in Hf. lia. }
  cbn [concat]. rewrite IH; [apply take_drop|]. rewrite length_drop. cbn [length] in *. lia.
Qed.
Lemma tiles_snd chunk i ds : map snd (tiles_from chunk i ds) = ds.
Proof. revert i. induction ds as [|d ds IH]; intros i; cbn; [done|]. by rewrite IH. Qed.
Lemma tiles_facts fuel n b i :
  0 < n -> (length b <= fuel)%nat -> is_bytes b -> 0 <= i ->
  let m := tiles_from n i (chunks fuel n b) in
  contiguous m (i * n) = Some (i * n + len b) /\ parts_ok (i * n) m /\
  (forall p, p ∈ m -> (exists q, fst p = q * n) /\ len (snd p) <= n /\
     (part_end p < i * n + len b -> len (snd p) = n)).
Proof.
  intros Hn. revert b i. induction fuel as [|fuel IH]; intros b i Hf Hb Hi; destruct b as [|x b].
  - cbn [chunks tiles_from contiguous parts_ok]. rewrite len_nil, Z.add_0_r. split_and!; [done|done|].
    intros p Hp. by apply elem_of_nil in Hp.
  - cbn in Hf. lia.
  - cbn [chunks tiles_from contiguous parts_ok]. rewrite len_nil, Z.add_0_r. split_and!; [done|done|].
    intros p Hp. by apply elem_of_nil in Hp.
  - cbn [chunks tiles_from contiguous parts_ok]. set (B := x :: b) in *. rewrite Z.eqb_refl.
    assert (0 < len B) as HB by (unfold B; rewrite len_cons; pose proof (len_nonneg b); lia).
    assert (len (take (Z.to_nat n) B) = Z.min n (len B)) as Ht by (rewrite len_take; lia).
    assert (len (drop (Z.to_nat n) B) = Z.max 0 (len B - n)) as Hd by (rewrite len_drop; lia).
    assert (is_bytes (take (Z.to_nat n) B)) by (by apply Forall_take).
    destruct (decide (len B <= n)) as [Hle|Hgt].
    + assert (drop (Z.to_nat n) B = []) as -> by (apply len_0; lia).
      assert (chunks fuel n [] = []) as -> by (by destruct fuel). cbn [tiles_from contiguous parts_ok].
      rewrite Ht. split_and!; [f_equal; lia|lia|lia|done|done|].
      intros p Hp. apply list_elem_of_singleton in Hp as ->. unfold part_end. cbn [fst snd].
      rewrite Ht. split_and!; [by exists i|lia|lia].
    + destruct (IH (drop (Z.to_nat n) B) (i + 1)) as (I1 & I2 & I3);
        [rewrite length_drop; unfold B in *; cbn [length] in *; lia | by apply Forall_drop | lia |].
      rewrite Ht, Z.min_l by lia. replace (i * n + n) with ((i + 1) * n) by lia.
      split_and!; [rewrite I1; f_equal; lia | lia | lia | done | done |].
      intros p Hp. apply elem_of_cons in Hp as [->|Hp].
      * cbn [fst snd]. split_and!; [by exists i|lia|lia].
      * destruct (I3 p Hp) as (J1 & J2 & J3). split_and!; [done|done|]. intros. apply J3. lia.
Qed.

Lemma fragment_loop_map b header id chunk total i ds (g : Z * bytes -> bytes) :
  (forall p, p ∈ tiles_from chunk i ds -> fragment_one b header id total (fst p) (snd p) = Ok (g p)) ->
  fragment_loop b header id chunk total i ds = Ok (map g (tiles_from chunk i ds)).
Proof.
  revert i. induction ds as [|d ds IH]; intros i Hg; [done|]. cbn [fragment_loop tiles_from map].
  pose proof (Hg (i * chunk, d) ltac:(left)) as H0. cbn [fst snd] in H0. rewrite H0. cbn [mbind outcome_bind].
  rewrite IH; [done|]. intros p Hp. apply Hg. by right.
Qed.

(** ** Flag words *)

Lemma land_shifted a b c n : 0 <= n -> 0 <= b < 2 ^ n ->
  Z.land (a * 2 ^ n + b) (c * 2 ^ n) = Z.land a c * 2 ^ n.
Proof.
  intros Hn Hb. rewrite <-lor_shiftl by done. rewrite Z.land_lor_distr_l.
  rewrite <-!Z.shiftl_mul_pow2 by done. rewrite <-Z.shiftl_land, (Z.land_comm b), land_shiftl_low by done.
  apply Z.lor_0_r.
Qed.
Lemma flags6 q (more : bool) : 0 <= q < 8192 ->
  let w := Z.lor (q * 8) (of_bool more) in
  is_u16 w /\ Z.land w 6 = 0 /\ Z.land w 0xfff8 = q * 8 /\ negb (Z.land w 1 =? 0) = more.
Proof.
  intros Hq w. assert (w = q * 2 ^ 3 + of_bool more) as ->.
  { unfold w. rewrite <-lor_shiftl by (destruct more; cbn; lia). by rewrite Z.shiftl_mul_pow2. }
  change (2 ^ 3) with 8. assert (is_u16 (q * 8 + of_bool more)) by (destruct more; cbn [of_bool]; u_lia).
  assert (forall k, 0 <= k < 8 -> Z.land (q * 8 + of_bool more) k = Z.land (of_bool more) k) as Hk.
  { intros k Hk. replace k with (Z.land 7 k) at 1.
    - rewrite Z.land_assoc. change 7 with (2 ^ 3 - 1). rewrite land_ones_mod by lia.
      rewrite Z.add_comm, Z.mod_add, Z.mod_small by (destruct more; cbn; lia). done.
    - change 7 with (2 ^ 3 - 1). rewrite Z.land_comm, land_ones_mod by lia. apply Z.mod_small. lia. }
  split_and!; [done| | |].
  - rewrite Hk by lia. by destruct more.
  - rewrite land_fff8 by done. rewrite Z.div_add_l by lia. destruct more; cbn [of_bool]; change (1 / 8) with 0; change (0 / 8) with 0; lia.
  - rewrite Hk by lia. by destruct more.
Qed.
Lemma flags4 q (more : bool) : 0 <= q < 8192 ->
  let w := Z.lor q (if more then 0x2000 else 0) in
  is_u16 w /\ Z.land w 0x8000 = 0 /\ Z.land w 0x4000 = 0 /\ Z.land w 0x1fff = q /\
  negb (Z.land w 0x2000 =? 0) = more.
Proof.
  intros Hq w. assert (w = of_bool more * 2 ^ 13 + q) as ->.
  { unfold w. rewrite <-lor_shiftl by lia. rewrite Z.lor_comm. by destruct more. }
  assert (is_u16 (of_bool more * 2 ^ 13 + q)) by (destruct more; cbn [of_bool]; u_lia).
  split_and!; [done| | | |].
  - change 0x8000 with (4 * 2 ^ 13). rewrite land_shifted by lia. by destruct more.
  - change 0x4000 with (2 * 2 ^ 13). rewrite land_shifted by lia. by destruct more.
  - change 0x1fff with (2 ^ 13 - 1). rewrite land_ones_mod by lia.
    rewrite Z.add_comm, Z.mod_add, Z.mod_small by lia. done.
  - change 0x2000 with (1 * 2 ^ 13). rewrite land_shifted by lia. by destruct more.
Qed.

(** ** IPv6 fragments *)

Section frames6.
Context (v0 v1 v2 v3 nh hop s d id total : Z).
Let v : bytes := [v0; v1; v2; v3].
Hypothesis v_ok : Z.shiftr v0 4 = 6 /\ is_bytes v.
Hypothesis hop_ok : is_u8 hop.
Hypothesis nh_ok : mem nh [6; 17; 58] = true.
Hypothesis s_ok : is_u128 s.
Hypothesis d_ok : is_u128 d.
Hypothesis id_ok : is_u32 id.

Definition header6 : bytes := (v ++ [0; 0] ++ [nh; hop]) ++ octets6 s ++ octets6 d.
Definition key6 : Key := (0, V6 s, V6 d, 0, id).
Definition body6 (p : Z * bytes) : bytes :=
  [nh; 0] ++ be16 (Z.lor (fst p) (of_bool (part_end p <? total))) ++ be32 id ++ snd p.
Definition frame6 (p : Z * bytes) : bytes := packet6 v 44 hop s d (body6 p).

Lemma len_body6 p : len (body6 p) = 8 + len (snd p).
Proof. unfold body6, be16, be32. len_simpl. lia. Qed.
Lemma fragment_one_6 pl p q :
  fst p = q * 8 -> 0 <= q < 8192 -> len (snd p) <= 65527 ->
  fragment_one (packet6 v nh hop s d pl) 40 id total (fst p) (snd p) = Ok (frame6 p).
Proof.
  intros Hp Hq Hl. unfold fragment_one.
  assert (slice (E:=io_error) (packet6 v nh hop s d pl) 0 40 =
    Ok ((v ++ be16 (len pl) ++ [nh; hop]) ++ octets6 s ++ octets6 d)) as ->.
  { unfold packet6. rewrite (app_assoc (octets6 s)), (app_assoc (_ ++ _ ++ _)). by apply (slice_mid []). }
  cbn [mbind outcome_bind]. change (40 =? 40) with true. cbv iota.
  unfold packet6 at 1. cbn [app]. rewrite Hp. rewrite (Z.mod_small (q * 8)) by lia. rewrite <-Hp.
  unfold frame6, packet6. rewrite len_body6. replace (8 + len (snd p)) with (len (snd p) + 8) by lia.
  unfold body6. reflexivity.
Qed.
Lemma parse_frame6 p q :
  fst p = q * 8 -> 0 <= q < 8192 -> len (snd p) <= 65527 ->
  parse (frame6 p) = Ok (Some (frag key6 header6 total p)).
Proof.
  intros Hp Hq Hl. destruct v_ok as [Hv Hvb]. unfold frame6, parse.
  destruct (flags6 q (part_end p <? total) Hq) as (W1 & W2 & W3 & W4).
  destruct (envelope_packet6 v 44 hop s d (body6 p)) as [He Hlen];
    [by exists v0, v1, v2, v3 | done | done | rewrite len_body6; u_lia |].
  set (b := packet6 v 44 hop s d (body6 p)) in *. unfold parse6_fragment.
  assert (b = v0 :: drop 1 b) as Hb by reflexivity. rewrite Hb at 1. rewrite Hv. cbn [Z.eqb Pos.eqb].
  rewrite He. cbn [map_err mbind outcome_bind e_packet]. rewrite Z.eqb_refl. cbn [negb].
  change (parse6_loop 16) with (parse6_loop (S 15)). generalize 15%nat as rounds. intros rounds. cbn [parse6_loop].
  assert (idx (E:=io_error) b 6 = Ok 44) as -> by reflexivity. cbn [mbind outcome_bind Z.eqb Pos.eqb].
  rewrite Hlen, len_body6. pose proof (len_nonneg (snd p)).
  destruct (Z.ltb_spec (40 + (8 + len (snd p))) (40 + 8)) as [|_]; [lia|].
  set (w := Z.lor (fst p) (of_bool (part_end p <? total))).
  assert (idx (E:=io_error) b (40 + 1) = Ok 0) as -> by reflexivity.
  assert (idx (E:=io_error) b (40 + 2) = Ok ((w / 256 ^ Z.of_nat 1) mod 256)) as -> by reflexivity.
  assert (idx (E:=io_error) b (40 + 3) = Ok ((w / 256 ^ Z.of_nat 0) mod 256)) as -> by reflexivity.
  assert (idx (E:=io_error) b 40 = Ok nh) as -> by reflexivity. cbn [mbind outcome_bind negb Z.eqb].
  assert (mem nh [0; 43; 44; 51; 60] = false) as ->
    by (cbn in nh_ok |- *; lia).
  rewrite u16be_be16 by (unfold w; by rewrite Hp). unfold w. rewrite Hp, W2. cbn [Z.eqb negb orb].
  assert (b = ((v ++ be16 (len (body6 p)) ++ [44; hop]) ++ octets6 s ++ octets6 d) ++ 
    ([nh; 0] ++ be16 w) ++ be32 id ++ snd p) as Hb2 by (unfold b, packet6, body6; by rewrite <-!app_assoc).
  assert (slice (E:=io_error) b 0 40 = Ok ((v ++ be16 (len (body6 p)) ++ [44; hop]) ++ octets6 s ++ octets6 d)) as ->.
  { rewrite Hb2. by apply (slice_mid []). }
  assert (slice (E:=io_error) b (40 + 4) (40 + 8) = Ok (be32 id)) as ->.
  { rewrite Hb2. rewrite app_assoc. by apply slice_mid. }
  assert (slice_from (E:=io_error) b (40 + 8) = Ok (snd p)) as ->.
  { rewrite Hb2, !app_assoc. by apply slice_from_app. }
  cbn [mbind outcome_bind].
  rewrite W3, W4, of_be_be32 by done. unfold frag. rewrite Hp. reflexivity.
Qed.
Lemma complete_header6 data : len data <= u16_max -> complete header6 data = Ok (packet6 v nh hop s d data).
Proof.
  intros Hl. unfold complete, header6. destruct v_ok as [Hv _].
  assert (idx (E:=io_error) ((v ++ [0; 0] ++ [nh; hop]) ++ octets6 s ++ octets6 d) 0 = Ok v0) as -> by reflexivity.
  cbn [mbind outcome_bind]. rewrite Hv. cbn [Z.eqb Pos.eqb].
  assert (len ((v ++ [0; 0] ++ [nh; hop]) ++ octets6 s ++ octets6 d) = 40) as -> by reflexivity.
  change (sub_chk 40 40) with (@Ok io_error Z 0). cbn [mbind outcome_bind].
  destruct (Z.ltb_spec u16_max (0 + len data)) as [|_]; [lia|]. reflexivity.
Qed.
Lemma header6_ok : is_bytes v -> is_u8 nh -> header_wf header6 /\ overhead header6 = 0.
Proof.
  intros Hvb Hn. split.
  - split_and!; [unfold header6, octets6, be128; bytes_tac | cbv; discriminate |].
    exists v0. split; [done|]. intros _. cbv. discriminate.
  - unfold overhead, header6. cbn [app]. unfold v. cbn [app]. destruct v_ok as [-> _]. done.
Qed.
End frames6.

(** ** Putting packets together again *)

Lemma parts_bytes_sum m : parts_bytes m = sum_len m + 128 * len m.
Proof.
  induction m as [|[k v] m IH]; [done|]. rewrite parts_bytes_cons, IH, len_cons. cbn [sum_len foldr snd]. 
  unfold sum_len. lia.
Qed.
(** An arrival order of the frames is an arrival order of the tiles. *)
Lemma arrivals_tiles (frame : Z * bytes -> bytes) (tiles : Parts) (arrivals : list (Z * bytes)) :
  map snd arrivals ≡ₚ map frame tiles ->
  exists arr, map (fun tp => (fst tp, frame (snd tp))) arr = arrivals /\ map snd arr ≡ₚ tiles /\
    map fst arr = map fst arrivals.
Proof.
  intros (l & Hl & Hp)%Permutation_map_inv. revert l tiles Hl Hp.
  induction arrivals as [|[t f] arrivals IH]; intros l tiles Hl Hp.
  - destruct l; [|done]. exists []. by rewrite Hp.
  - destruct l as [|p l]; [done|]. injection Hl as -> Hl.
    destruct (IH l l Hl) as (arr & <- & Hq & Hf); [done|]. exists ((t, p) :: arr). cbn [map fst snd].
    split_and!; [done|by rewrite Hp, <-Hq|by rewrite Hf].
Qed.
Lemma Forall_fst {A} (P : Z -> Prop) (l : list (Z * A)) : Forall (fun x => P (fst x)) l <-> Forall P (map fst l).
Proof. symmetry. apply Forall_map. Qed.

(** What the reassembler needs to take a whole datagram: a free context and the room
    for it, and the fragments within a minute. *)
Definition accepts (r : Reassembler) (key : Key) (header_len payload_len count : Z) : Prop :=
  contexts r !! key = None /\ context_count r < 64 /\
  retained_bytes r + 128 + header_len + payload_len + 128 * count <= CAP.
Definition within_minute (t0 : Z) (arrivals : list (Z * bytes)) : Prop :=
  0 <= t0 /\ t0 + 60000 <= u64_max /\ Forall (fun a => t0 <= fst a < t0 + 60000) arrivals.

Lemma reassemble_tiles k scope header tiles n t0 packet frame r arrivals :
  header_wf header -> parts_ok 0 tiles -> contiguous tiles 0 = Some n -> tiles <> [] ->
  (forall p, p ∈ tiles -> fst p = 0 -> part_end p <> n) ->
  (forall p, p ∈ tiles -> part_end p < n -> len (snd p) mod 8 = 0) ->
  n + overhead header <= 65535 -> complete header (concat (map snd tiles)) = Ok packet ->
  (forall p, p ∈ tiles -> parse (frame p) = Ok (Some (frag k header n p))) ->
  accepts r (key_scope k scope) (len header) n (len tiles) -> within_minute t0 arrivals ->
  map snd arrivals ≡ₚ map frame tiles ->
  exists r', deliver scope arrivals r =
    (Ok (replicate (length arrivals - 1) None ++ [datagram (key_id k) packet]), r') /\
    contexts r' !! key_scope k scope = None.
Proof.
  intros Hh Hok Hc Hne Hm Hu Hf Hp Hfr (Ha1 & Ha2 & Ha3) (Ht1 & Ht2 & Ht3) Hperm.
  destruct (arrivals_tiles frame tiles arrivals Hperm) as (arr & <- & Hq & Htimes).
  assert (Forall (fun tp => t0 <= fst tp < t0 + 60000) arr) as Ht4.
  { apply (Forall_fst (fun t => t0 <= t < t0 + 60000)). rewrite Htimes. by apply (Forall_fst (fun t => t0 <= t < t0 + 60000)). }
  rewrite length_map.
  apply (deliver_tiles k scope header tiles n t0 packet frame Hh Hok Hc Hm Hu Hf Hp Hfr
    ltac:(done) arr [] r).
  - unfold partial, scoped. by rewrite Ha1.
  - unfold room, scoped. rewrite Ha1, parts_bytes_sum, (sum_len_perm _ _ Hq).
    pose proof (contiguous_sum _ _ _ Hc). assert (len (map snd arr) = len tiles) as -> by (unfold len; by rewrite Hq).
    lia.
  - done.
  - intros ->. cbn in Hq. by apply Permutation_nil_l in Hq.
  - done.
Qed.

Lemma tiling_facts c payload n : 8 * c < len payload -> 0 < c -> is_bytes payload -> len payload = n -> n <= u16_max ->
  let m := tiling (8 * c) payload in
  parts_ok 0 m /\ contiguous m 0 = Some n /\ m <> [] /\ concat (map snd m) = payload /\
  forall p, p ∈ m -> (exists q, fst p = q * 8 /\ 0 <= q < 8192) /\ len (snd p) <= 8 * c /\
    (fst p = 0 -> part_end p <> n) /\ (part_end p < n -> len (snd p) mod 8 = 0).
Proof.
  intros Hc Hc0 Hb Hn Hmax. unfold tiling.
  destruct (tiles_facts (length payload) (8 * c) payload 0) as (I1 & I2 & I3); [lia|lia|done|lia|].
  cbn zeta in *. rewrite Z.mul_0_l in *. rewrite Z.add_0_l in *. rewrite Hn in *.
  destruct (contiguous_ends _ _ _ I1 I2) as [I4 _]. rewrite List.Forall_forall in I4.
  split_and!; [done|done| | |].
  - intros He. rewrite He in I1. cbn in I1. injection I1 as <-. lia.
  - rewrite tiles_snd. apply chunks_concat; lia.
  - intros p Hp. destruct (I3 p Hp) as ((q & Hq) & J2 & J3). destruct (parts_ok_ge _ _ p I2 Hp) as [K1 K2].
    pose proof (I4 p ltac:(by apply list_elem_of_In)) as I4p. unfold part_end in *. split_and!.
    + exists (q * c). split; [lia|]. u_lia.
    + done.
    + lia.
    + intros Hlt. rewrite J3 by lia. rewrite Z.mul_comm. apply Z.mod_mul. lia.
Qed.

Lemma len_packet6 v0 v1 v2 v3 nh hop s d pl : len (packet6 [v0; v1; v2; v3] nh hop s d pl) = 40 + len pl.
Proof. unfold packet6, octets6, be16, be128. len_simpl. lia. Qed.
Lemma fragment6_frames b e mtu id frs :
  is_bytes b -> envelope RawIpv6 b = Ok e -> len (e_packet e) = len b -> is_u32 id ->
  mtu < len b -> fragment b mtu id = Ok frs ->
  exists v0 v1 v2 v3 c, let n := len (e_payload e) in
    let g := frame6 v0 v1 v2 v3 (e_next_header e) (e_hop_limit e) (e_source e) (e_destination e) id n in
    Z.shiftr v0 4 = 6 /\ is_bytes [v0; v1; v2; v3] /\ n <= u16_max /\ mem (e_next_header e) [6; 17; 58] = true /\
    0 < c /\ 8 * c <= mtu - 48 /\ 8 * c < n /\
    b = packet6 [v0; v1; v2; v3] (e_next_header e) (e_hop_limit e) (e_source e) (e_destination e) (e_payload e) /\
    frs = map g (tiling (8 * c) (e_payload e)).
Proof.
  intros Hb He Hlen Hid Hmtu Hf.
  destruct (envelope_shape b e Hb He Hlen) as (v0 & v1 & v2 & v3 & Hv & Hvb & Hn & Hshape).
  pose proof (envelope_Ok _ _ _ Hb He) as (_ & Hpb & Hl & _ & Hs & Hd & Hnh & Hhop).
  unfold fragment in Hf. destruct (Z.leb_spec (len b) mtu); [lia|].
  assert (fragment_plan b mtu = if negb (mem (e_next_header e) [6; 17; 58]) || (mtu <? 1280) then Err InvalidData
    else Ok (40, 48)) as Hplan.
  { unfold fragment_plan. rewrite Hshape at 1. cbn [packet6 app]. rewrite Hv. cbn [Z.eqb Pos.eqb]. by rewrite He. }
  rewrite Hplan in Hf. destruct (negb (mem _ _)) eqn:Hm; [done|]. destruct (Z.ltb_spec mtu 1280); [done|].
  cbn [orb mbind outcome_bind] in Hf. inv_ok_hyp Hf. subst x.
  assert (x0 = e_payload e) as ->.
  { rewrite Hx0, sub_from by lia. rewrite Hshape. unfold packet6. rewrite !app_assoc. by rewrite drop_app_length'. }
  exists v0, v1, v2, v3, ((mtu - 48) / 8). cbv zeta.
  pose proof (Z.div_mod (mtu - 48) 8 ltac:(lia)). pose proof (Z.mod_pos_bound (mtu - 48) 8 ltac:(lia)).
  rewrite (Z.mul_comm 8) in *. split_and!; [done|done|done|by apply negb_false_iff|lia|lia|lia|done|].
  rewrite (fragment_loop_map _ _ _ _ _ _ _
    (frame6 v0 v1 v2 v3 (e_next_header e) (e_hop_limit e) (e_source e) (e_destination e) id (len (e_payload e)))) in Hf.
  { injection Hf as <-. done. }
  intros p Hp. rewrite Hshape. rewrite (Z.mul_comm _ 8) in Hp.
  destruct (tiling_facts ((mtu - 48) / 8) (e_payload e) (len (e_payload e))) as (_ & _ & _ & _ & Ht); [lia|lia|done|done|done|].
  destruct (Ht p Hp) as ((q & Hq & Hq2) & Hpl & _). apply fragment_one_6 with (q := q); (done || u_lia).
Qed.

(** ** IPv4 fragments *)

(** A header with its checksum. *)
Definition summed20 (tos n id flags ttl protocol s d : Z) : bytes :=
  header20 tos n id flags ttl protocol (checksum4 (header20 tos n id flags ttl protocol 0 s d)) s d.

Section frames4.
Context (tos ttl protocol s d id total : Z).
Hypothesis tos_ok : is_u8 tos.
Hypothesis ttl_ok : is_u8 ttl.
Hypothesis protocol_ok : is_u8 protocol.
Hypothesis s_ok : is_u32 s.
Hypothesis d_ok : is_u32 d.

Definition header4 : bytes := header20 tos 0 (id mod 65536) 0 ttl protocol 0 s d.
Definition key4 : Key := (0, V4 s, V4 d, protocol, id mod 65536).
Definition flags4_of (p : Z * bytes) : Z := Z.lor (fst p / 8) (if part_end p <? total then 0x2000 else 0).
Definition frame4 (p : Z * bytes) : bytes :=
  summed20 tos (20 + len (snd p)) (id mod 65536) (flags4_of p) ttl protocol s d ++ snd p.

Lemma fragment_one_4 n id0 flags c pl p q :
  fst p = q * 8 -> 0 <= q < 8192 ->
  fragment_one (header20 tos n id0 flags ttl protocol c s d ++ pl) 20 id total (fst p) (snd p) = Ok (frame4 p).
Proof.
  intros Hp Hq. unfold fragment_one.
  rewrite (slice_mid [] (header20 tos n id0 flags ttl protocol c s d) pl 0 20) by done.
  cbn [mbind outcome_bind]. change (20 =? 40) with false. cbv iota.
  replace (fst p mod 65536) with (fst p) by (rewrite Hp, Z.mod_small; lia).
  fold (part_end p). fold (flags4_of p). replace (len (snd p) + 20) with (20 + len (snd p)) by lia.
  unfold frame4, summed20. reflexivity.
Qed.
Lemma parse_frame4 p q :
  fst p = q * 8 -> 0 <= q < 8192 -> 0 < len (snd p) -> part_end p <= total -> total <= 65515 ->
  (part_end p < total -> len (snd p) mod 8 = 0) -> (fst p = 0 -> part_end p <> total) ->
  Reassembly.parse (frame4 p) = Ok (Some (frag key4 header4 total p)).
Proof.
  intros Hp Hq Hl He Ht Hu Hm. destruct (flags4 q (part_end p <? total) Hq) as (W1 & W2 & W3 & W4 & W5).
  assert (flags4_of p = Z.lor q (if part_end p <? total then 0x2000 else 0)) as Hfl
    by (unfold flags4_of; rewrite Hp, Z.div_mul by lia; done).
  unfold part_end in *. rewrite <-Hfl in *.
  pose proof (Z.mod_pos_bound id 65536 ltac:(lia)) as Hid.
  pose proof (parse_header20 tos (id mod 65536) (flags4_of p) ttl protocol
    (checksum4 (header20 tos (20 + len (snd p)) (id mod 65536) (flags4_of p) ttl protocol 0 s d)) s d (snd p) false) as HP.
  cbv zeta in HP. fold (summed20 tos (20 + len (snd p)) (id mod 65536) (flags4_of p) ttl protocol s d) in HP.
  fold (frame4 p) in HP.
  assert (Ipv4Wire.parse (frame4 p) = Ok (mkPacket s d ttl protocol (snd p) (frame4 p) 20 (q * 8)
    (fst p + len (snd p) <? total) false (id mod 65536) tos)) as Hparse.
  { unfold Ipv4Wire.parse. rewrite HP; [|u_lia|u_lia|done|done| |by apply header20_checksum].
    - rewrite W3, W4, W5. done.
    - unfold flags_wf. rewrite W4. refine (conj W1 (conj W2 (conj _ (conj _ _)))); [by rewrite W3| |lia].
      intros Hz. replace (20 + len (snd p) - 20) with (len (snd p)) by lia.
      assert ((fst p + len (snd p) <? total) = true) by (rewrite <-W5; lia). split; [apply Hu; lia|lia]. }
  unfold Reassembly.parse. assert (frame4 p = 69 :: drop 1 (frame4 p)) as Hb by reflexivity.
  rewrite Hb at 1. change (Z.shiftr 69 4 =? 4) with true. cbv iota. unfold parse4_fragment.
  rewrite Hparse. cbn [mbind outcome_bind pk_bytes pk_more_fragments pk_fragment_offset pk_header_len pk_source pk_destination pk_protocol pk_id pk_payload].
  rewrite Z.eqb_refl. cbn [negb].
  assert (negb (fst p + len (snd p) <? total) && (q * 8 =? 0) = false) as -> by lia.
  assert (slice (E:=io_error) (frame4 p) 0 20 =
    Ok (summed20 tos (20 + len (snd p)) (id mod 65536) (flags4_of p) ttl protocol s d)) as ->
    by (by apply (slice_mid [])).
  unfold frag, part_end. rewrite Hp. reflexivity.
Qed.
Lemma complete_header4 data : len data <= 65515 ->
  complete header4 data = Ok (summed20 tos (20 + len data) (id mod 65536) 0 ttl protocol s d ++ data).
Proof.
  intros Hl. unfold complete. assert (idx (E:=io_error) header4 0 = Ok 69) as -> by reflexivity.
  cbn [mbind outcome_bind]. change (Z.shiftr 69 4 =? 6) with false. cbv iota.
  assert (len header4 = 20) as -> by reflexivity.
  destruct (Z.ltb_spec u16_max (20 + len data)) as [|_]; [u_lia|]. reflexivity.
Qed.
Lemma header4_ok : header_wf header4 /\ overhead header4 = 20.
Proof.
  split; [|reflexivity]. split_and!; [unfold header4, header20, octets4, be16, be32; bytes_tac | cbv; discriminate |].
  exists 69. split; [done|]. intros H. vm_compute in H. discriminate.
Qed.
End frames4.

Lemma fragment4_frames b p mtu id frs :
  is_bytes b -> Ipv4Wire.parse b = Ok p -> len (pk_bytes p) = len b -> mtu < len b -> fragment b mtu id = Ok frs ->
  exists c, let n := len (pk_payload p) in
    let g := frame4 (pk_traffic_class p) (pk_ttl p) (pk_protocol p) (pk_source p) (pk_destination p) id n in
    n <= 65515 /\ len b = 20 + n /\ 0 < c /\ 8 * c <= mtu - 20 /\ 8 * c < n /\
    frs = map g (tiling (8 * c) (pk_payload p)).
Proof.
  intros Hb Hparse Hlen Hmtu Hf. pose proof Hparse as Hwf. apply parse_inner_Ok in Hwf; [|done].
  destruct Hwf as (_ & _ & _ & Hh1 & Hpl & _).
  unfold fragment in Hf. destruct (Z.leb_spec (len b) mtu); [lia|].
  assert (exists b0 b', b = b0 :: b' /\ Z.shiftr b0 4 = 4) as (b0 & b' & Hcons & Hb0).
  { unfold Ipv4Wire.parse, parse_inner in Hparse. destruct b as [|b0 b']; [done|]. exists b0, b'. split; [done|].
    cbn [idx Z.ltb Z.compare Z.to_nat lookup list_lookup mbind outcome_bind] in Hparse. inv_ok_hyp Hparse. cbn in Hx. inversion Hx. subst. lia. }
  assert (fragment_plan b mtu = if negb (pk_header_len p =? 20) || pk_more_fragments p
    || negb (pk_fragment_offset p =? 0) || (mtu <? 68) then Err InvalidData else Ok (20, 20)) as Hplan.
  { unfold fragment_plan. rewrite Hcons at 1. rewrite Hb0. cbn [Z.eqb Pos.eqb]. by rewrite Hparse. }
  rewrite Hplan in Hf. destruct (_ || _ || _ || _) eqn:Hg; [done|]. cbn [mbind outcome_bind] in Hf.
  assert (pk_header_len p = 20) as H20 by lia. rewrite H20 in *. clear Hplan.
  destruct (parse_shape b p Hb Hparse Hlen H20) as (flags & c & Hn & Hshape).
  inv_ok_hyp Hf. subst x. assert (x0 = pk_payload p) as -> by (rewrite Hx0, Hpl, Hlen; done).
  assert (len b = 20 + len (pk_payload p)) as Hlb by (rewrite Hpl, Hlen, len_sub; lia).
  assert (is_bytes (pk_payload p)) as Hpb by (rewrite Hpl; eauto with snac).
  exists ((mtu - 20) / 8). cbv zeta.
  pose proof (Z.div_mod (mtu - 20) 8 ltac:(lia)). pose proof (Z.mod_pos_bound (mtu - 20) 8 ltac:(lia)).
  rewrite (Z.mul_comm 8) in *. split_and!; [done|done|lia|lia|lia|].
  rewrite (fragment_loop_map _ _ _ _ _ _ _
    (frame4 (pk_traffic_class p) (pk_ttl p) (pk_protocol p) (pk_source p) (pk_destination p) id (len (pk_payload p)))) in Hf.
  { injection Hf as <-. done. }
  intros t Hin. rewrite (Z.mul_comm _ 8) in Hin.
  destruct (tiling_facts ((mtu - 20) / 8) (pk_payload p) (len (pk_payload p))) as (_ & _ & _ & _ & Ht);
    [lia|lia|done|done|u_lia|].
  destruct (Ht t Hin) as ((q & Hq & Hq2) & _). rewrite Hshape. by apply fragment_one_4 with (q := q).
Qed.

(** ** Fragmentation does not panic *)

Lemma copy_at_len {E} b lo src r : copy_at (E:=E) b lo src = Ok r -> len r = len b.
Proof. intros (H1 & H2 & ->)%copy_at_Ok. by apply len_put. Qed.
Lemma slice_len {E} b lo hi r : slice (E:=E) b lo hi = Ok r -> len r = hi - lo.
Proof. intros (H1 & H2 & ->)%slice_Ok. by apply len_sub. Qed.
Ltac copy_facts :=
  repeat match goal with
  | H : copy_at _ _ _ = Ok _ |- _ => apply copy_at_len in H
  | H : slice _ _ _ = Ok _ |- _ => apply slice_len in H
  end.
Lemma fragment_one_safe b header id total offset data :
  (header = 20 \/ header = 40) -> header <= len b -> safe (fragment_one b header id total offset data).
Proof.
  intros Hh Hb. unfold fragment_one. destruct Hh as [-> | ->]; cbn [Z.eqb Pos.eqb].
  all: safe_auto; copy_facts; unfold be16; rewrite ?len_be; change (len [44]) with 1; change (len [0; 0]) with 2; lia.
Qed.
Lemma fragment_loop_safe b header id chunk total i ds :
  (header = 20 \/ header = 40) -> header <= len b -> safe (fragment_loop b header id chunk total i ds).
Proof.
  intros Hh Hb. revert i. induction ds as [|d ds IH]; intros i; cbn [fragment_loop]; [done|].
  safe_step; [by apply fragment_one_safe|]. safe_step; [apply IH|done].
Qed.
Lemma fragment_plan_ok b mtu : is_bytes b ->
  safe (fragment_plan b mtu) /\ forall h o, fragment_plan b mtu = Ok (h, o) ->
    (h = 20 \/ h = 40) /\ h <= len b /\ o <= mtu.
Proof.
  intros Hb. unfold fragment_plan. destruct b as [|v b']; [done|]. set (b := v :: b') in *.
  destruct (Z.shiftr v 4 =? 6); [|destruct (Z.shiftr v 4 =? 4); [|done]].
  - pose proof (envelope_safe RawIpv6 b Hb) as Hs.
    destruct (envelope RawIpv6 b) as [e|e|] eqn:He; [|done|by destruct Hs]. cbn [map_err mbind outcome_bind].
    apply envelope_Ok in He as Hwf; [|done]. destruct Hwf as (_ & _ & Hl & _). pose proof (len_nonneg (e_payload e)).
    assert (len (e_packet e) <= len b).
    { unfold envelope in He. cbn [mbind outcome_bind] in He. inv_all_ok. subst. cbn. rewrite len_sub; lia. }
    destruct (_ || _) eqn:Hg; [done|]. split; [done|]. intros h o [= <- <-]. split_and!; [by right|lia|lia].
  - pose proof (parse_inner_safe b false Hb) as Hs. unfold Ipv4Wire.parse.
    destruct (parse_inner b false) as [p|e|] eqn:Hp; [|done|by destruct Hs]. cbn [mbind outcome_bind].
    apply parse_inner_Ok in Hp as (_ & Hl & Hh & Hh2 & _); [|done].
    destruct (_ || _) eqn:Hg; [done|]. split; [done|]. intros h o [= <- <-]. split_and!; [by left|lia|lia].
Qed.
Lemma fragment_safe b mtu id : is_bytes b -> safe (fragment b mtu id).
Proof.
  intros Hb. unfold fragment. destruct (_ <=? _); [done|]. destruct (fragment_plan_ok b mtu Hb) as [Hs Hok].
  destruct (fragment_plan b mtu) as [[h o]|e|]; [|done|by destruct Hs]. cbn [mbind outcome_bind].
  destruct (Hok h o eq_refl) as (Hh & Hl & Ho). safe_auto; try lia. inv_all_ok. by apply fragment_loop_safe.
Qed.

(** ** Properties *)

(** C15. No input makes the reassembler or the fragmenter panic, and whatever arrives, in
    whatever order, the reassembler holds at most 64 contexts and 4 MiB; its contexts
    are made of disjoint non-empty parts below their known end and below 64 KiB, and
    none that is complete is kept. *)
Theorem reassembler_bounded r b now scope mtu id :
  reassembly_inv r -> is_bytes b ->
  match input_scoped b now scope r with
  | (Panic, _) => False
  | (_, r') => reassembly_inv r'
  end /\ reassembly_inv (expire now r) /\ reassembly_inv reassembler_new /\ safe (fragment b mtu id).
Proof.
  intros Hr Hb. split_and!; [|by apply inv_expire|apply inv_new|by apply fragment_safe].
  pose proof (input_scoped_inv b now scope Hb r Hr) as H. by destruct (input_scoped b now scope r) as [[]].
Qed.

(** C14. The fragments of an IPv6 packet fit the MTU, and given to the reassembler in any
    order within a minute they yield nothing until the last one, then the packet itself,
    byte for byte, with nothing retained for it. *)
Theorem fragment6_reassemble b e mtu id frs r scope t0 arrivals :
  is_bytes b -> envelope RawIpv6 b = Ok e -> len (e_packet e) = len b -> is_u32 id ->
  mtu < len b -> fragment b mtu id = Ok frs ->
  let key := (scope, V6 (e_source e), V6 (e_destination e), 0, id) in
  accepts r key 40 (len (e_payload e)) (len frs) -> within_minute t0 arrivals ->
  map snd arrivals ≡ₚ frs ->
  Forall (fun f => len f <= mtu) frs /\
  exists r', deliver scope arrivals r =
    (Ok (replicate (length frs - 1) None ++ [Some (mkDatagram b (Some id))]), r') /\
    contexts r' !! key = None.
Proof.
  intros Hb He Hlen Hid Hmtu Hf key Ha Ht Hp.
  destruct (fragment6_frames b e mtu id frs) as
    (v0 & v1 & v2 & v3 & c & Hv & Hvb & Hn & Hnh & Hc0 & Hc & Hcn & Hshape & Hfrs); [done..|].
  pose proof (envelope_Ok _ _ _ Hb He) as (_ & Hpb & Hlb & _ & Hs & Hd & Hu8 & Hhop).
  destruct (tiling_facts c (e_payload e) (len (e_payload e))) as (T1 & T2 & T3 & T4 & T5); [done..|].
  split.
  - rewrite Hfrs. apply Forall_map, List.Forall_forall. intros p Hin%list_elem_of_In.
    destruct (T5 p Hin) as (_ & Hpl & _). unfold frame6.
    rewrite len_packet6, len_body6. lia.
  - assert (length frs = length arrivals) as -> by (rewrite <-Hp; by rewrite length_map).
    assert (len frs = len (tiling (8 * c) (e_payload e))) as Hlf by (rewrite Hfrs; apply len_map).
    destruct (header6_ok v0 v1 v2 v3 (e_next_header e) (e_hop_limit e) (e_source e) (e_destination e))
      as [Hw1 Hw2]; [done|done|done|done|].
    apply (reassemble_tiles (key6 (e_source e) (e_destination e) id) scope _ _ (len (e_payload e)) t0 b
      (frame6 v0 v1 v2 v3 (e_next_header e) (e_hop_limit e) (e_source e) (e_destination e) id (len (e_payload e)))
      r arrivals Hw1 T1 T2 T3); [by intros; apply T5 | by intros; apply T5 | u_lia | | | | done | by rewrite Hp, Hfrs].
    + rewrite T4, complete_header6 by done. by rewrite <-Hshape.
    + intros p Hin. destruct (T5 p Hin) as ((q & Hq & Hq2) & Hpl & _).
      apply parse_frame6 with (q := q); (done || u_lia).
    + by rewrite <-Hlf.
Qed.

(** The fragments of an IPv4 packet fit the MTU, and given to the reassembler in any
    order within a minute they yield nothing until the last one, then the packet under
    the fragments' identification: same addresses, protocol, TTL, traffic class and
    payload, flags cleared, with a header checksum that verifies. *)
Theorem fragment4_reassemble b p mtu id frs r scope t0 arrivals :
  is_bytes b -> Ipv4Wire.parse b = Ok p -> len (pk_bytes p) = len b ->
  mtu < len b -> fragment b mtu id = Ok frs ->
  let key := (scope, V4 (pk_source p), V4 (pk_destination p), pk_protocol p, id mod 65536) in
  accepts r key 20 (len (pk_payload p)) (len frs) -> within_minute t0 arrivals ->
  map snd arrivals ≡ₚ frs ->
  Forall (fun f => len f <= mtu) frs /\
  exists r' b', deliver scope arrivals r =
    (Ok (replicate (length frs - 1) None ++ [Some (mkDatagram b' (Some (id mod 65536)))]), r') /\
    contexts r' !! key = None /\
    Ipv4Wire.parse b' = Ok (mkPacket (pk_source p) (pk_destination p) (pk_ttl p) (pk_protocol p) (pk_payload p)
      b' 20 0 false false (id mod 65536) (pk_traffic_class p)).
Proof.
  intros Hb Hparse Hlen Hmtu Hf key Ha Ht Hp.
  destruct (fragment4_frames b p mtu id frs) as (c & Hn & Hlb & Hc0 & Hc & Hcn & Hfrs); [done..|].
  pose proof (parse_inner_Ok _ _ _ Hb Hparse) as (_ & _ & _ & _ & Hpl & Hs & Hd & Httl & Hpr & _ & Htos & _).
  assert (is_bytes (pk_payload p)) as Hpb by (rewrite Hpl; eauto with snac).
  destruct (tiling_facts c (pk_payload p) (len (pk_payload p))) as (T1 & T2 & T3 & T4 & T5);
    [done|done|done|done|u_lia|].
  destruct (contiguous_ends _ _ _ T2 T1) as [T6 _]. rewrite List.Forall_forall in T6.
  split.
  - rewrite Hfrs. apply Forall_map, List.Forall_forall. intros t Hin%list_elem_of_In.
    destruct (T5 t Hin) as (_ & Htl & _). unfold frame4. rewrite len_app.
    match goal with |- len ?h + _ <= _ => change (len h) with 20 end. lia.
  - assert (length frs = length arrivals) as -> by (rewrite <-Hp; by rewrite length_map).
    assert (len frs = len (tiling (8 * c) (pk_payload p))) as Hlf by (rewrite Hfrs; apply len_map).
    destruct (header4_ok (pk_traffic_class p) (pk_ttl p) (pk_protocol p) (pk_source p) (pk_destination p) id)
      as [Hw1 Hw2]; [done|done|done|].
    pose proof (Z.mod_pos_bound id 65536 ltac:(lia)) as Hid.
    destruct (reassemble_tiles (key4 (pk_protocol p) (pk_source p) (pk_destination p) id) scope
      (header4 (pk_traffic_class p) (pk_ttl p) (pk_protocol p) (pk_source p) (pk_destination p) id)
      (tiling (8 * c) (pk_payload p)) (len (pk_payload p)) t0
      (summed20 (pk_traffic_class p) (20 + len (pk_payload p)) (id mod 65536) 0 (pk_ttl p) (pk_protocol p)
         (pk_source p) (pk_destination p) ++ pk_payload p)
      (frame4 (pk_traffic_class p) (pk_ttl p) (pk_protocol p) (pk_source p) (pk_destination p) id (len (pk_payload p)))
      r arrivals Hw1 T1 T2 T3) as (r' & Hdel & Hnone);
      [by intros; apply T5 | by intros; apply T5 | u_lia | by rewrite T4, complete_header4 | | by rewrite <-Hlf | done
      | by rewrite Hp, Hfrs |].
    { intros t Hin. destruct (T5 t Hin) as ((q & Hq & Hq2) & Htl & Hz & Hu).
      apply parse_frame4 with (q := q); try done.
      - apply (parts_ok_ge _ _ t T1 Hin).
      - apply T6. by apply list_elem_of_In. }
    eexists r', _. split_and!; [exact Hdel|exact Hnone|].
    apply (parse_header20 (pk_traffic_class p) (id mod 65536) 0 (pk_ttl p) (pk_protocol p) _
      (pk_source p) (pk_destination p) (pk_payload p) false); try done; try u_lia.
    + unfold flags_wf. rewrite !Z.land_0_l. pose proof (len_nonneg (pk_payload p)). u_lia.
    + by apply header20_checksum.
Qed.

(** ** Witnesses: a 1300-byte payload in two fragments, delivered last first *)

Definition sample_packet6 : bytes :=
  packet6 [0x60; 0; 0; 0] 17 64 0x20010db8000000000000000000000001 0x20010db8000000000000000000000002 (zeros 1300).
Definition sample_packet4 : bytes :=
  match Ipv4Wire.encode 0xc0000201 0xc0000202 17 64 (zeros 100) with Ok b => b | _ => [] end.
Definition last_first (frs : list bytes) : list (Z * bytes) :=
  match frs with [a; b] => [(5000, b); (6000, a)] | _ => [] end.
Lemma is_bytes_check b : forallb (fun x => (0 <=? x) && (x <=? 255)) b = true -> is_bytes b.
Proof.
  rewrite forallb_forall. intros H. apply List.Forall_forall. intros x Hx. specialize (H x Hx). u_lia.
Qed.

Lemma reassembler_bounded_witness :
  match input_scoped sample_packet6 0 0 reassembler_new with
  | (Panic, _) => False
  | (_, r') => reassembly_inv r'
  end.
Proof.
  apply (reassembler_bounded reassembler_new sample_packet6 0 0 1280 7);
    [apply inv_new | apply is_bytes_check; vm_compute; reflexivity].
Defined.
Lemma fragment6_reassemble_witness :
  exists frs r', fragment sample_packet6 1280 7 = Ok frs /\
    deliver 1 (last_first frs) reassembler_new = (Ok [None; Some (mkDatagram sample_packet6 (Some 7))], r').
Proof.
  destruct (fragment sample_packet6 1280 7) as [frs|e|] eqn:Hf; [|vm_compute in Hf; discriminate Hf..].
  exists frs.
  destruct (fragment6_reassemble sample_packet6
    (mkEnvelope sample_packet6 (zeros 1300) 0x20010db8000000000000000000000001 0x20010db8000000000000000000000002 17 64)
    1280 7 frs reassembler_new 1 0 (last_first frs)) as [_ (r' & Hd & _)];
    [apply is_bytes_check; vm_compute; reflexivity | vm_compute; reflexivity | reflexivity
    | split; vm_compute; discriminate | vm_compute; reflexivity | exact Hf | ..].
  - vm_compute in Hf. injection Hf as <-. split_and!; vm_compute; (reflexivity || discriminate).
  - vm_compute in Hf. injection Hf as <-. split_and!; [vm_compute; discriminate.. |].
    repeat constructor; vm_compute; (reflexivity || discriminate).
  - vm_compute in Hf. injection Hf as <-. apply Permutation_swap.
  - exists r'. split; [reflexivity|]. rewrite Hd. vm_compute in Hf. injection Hf as <-. reflexivity.
Defined.
Lemma fragment4_reassemble_witness :
  exists frs r' b', fragment sample_packet4 100 7 = Ok frs /\
    deliver 1 (last_first frs) reassembler_new = (Ok [None; Some (mkDatagram b' (Some 7))], r').
Proof.
  destruct (fragment sample_packet4 100 7) as [frs|e|] eqn:Hf; [|vm_compute in Hf; discriminate Hf..].
  exists frs.
  destruct (fragment4_reassemble sample_packet4
    (mkPacket 0xc0000201 0xc0000202 64 17 (zeros 100) sample_packet4 20 0 false false 0 0)
    100 7 frs reassembler_new 1 0 (last_first frs)) as [_ (r' & b' & Hd & _)];
    [apply is_bytes_check; vm_compute; reflexivity | vm_compute; reflexivity | reflexivity
    | vm_compute; reflexivity | exact Hf | ..].
  - vm_compute in Hf. injection Hf as <-. split_and!; vm_compute; (reflexivity || discriminate).
  - vm_compute in Hf. injection Hf as <-. split_and!; [vm_compute; discriminate.. |].
    repeat constructor; vm_compute; (reflexivity || discriminate).
  - vm_compute in Hf. injection Hf as <-. apply Permutation_swap.
  - exists r', b'. split; [reflexivity|]. rewrite Hd. vm_compute in Hf. injection Hf as <-. reflexivity.
Defined.
