(* ===== verification/Maps.v ===== *)
(** Sums over finite maps: the counters and byte totals that the program keeps beside its
    [BTreeMap]s are compared with these. *)

From S2P Require Import Prelude.

Section msum.
Context {K A : Type} `{Countable K}.
Implicit Types (m : gmap K A) (f : K -> A -> Z).

(** [m.iter().map(f).sum()] *)
Definition msum f m : Z := map_fold (fun k v acc => f k v + acc) 0 m.

Lemma msum_empty f : msum f ∅ = 0.
Proof. apply map_fold_empty. Qed.
Lemma msum_insert f m k v : m !! k = None -> msum f (<[k:=v]> m) = f k v + msum f m.
Proof. intros. unfold msum. rewrite map_fold_insert_L; [done|intros; lia|done]. Qed.
Lemma msum_delete f m k v : m !! k = Some v -> msum f m = f k v + msum f (delete k m).
Proof. intros. unfold msum. by rewrite (map_fold_delete_L _ _ k v m) by (done || intros; lia). Qed.
Lemma msum_update f m k v w : m !! k = Some v -> msum f (<[k:=w]> m) = msum f m - f k v + f k w.
Proof.
  intros Hk. rewrite <-insert_delete_eq, msum_insert by apply lookup_delete_eq.
  rewrite (msum_delete f m k v Hk). lia.
Qed.
Lemma msum_ext f g m : (forall k v, m !! k = Some v -> f k v = g k v) -> msum f m = msum g m.
Proof.
  induction m as [|k v m Hk IH] using map_ind; intros Hfg; [done|].
  rewrite !msum_insert by done. rewrite (Hfg k v) by apply lookup_insert_eq. f_equal. apply IH.
  intros k' v' Hk'. apply Hfg. rewrite lookup_insert_ne; [done|]. intros ->. congruence.
Qed.
Lemma msum_nonneg f m : (forall k v, m !! k = Some v -> 0 <= f k v) -> 0 <= msum f m.
Proof.
  induction m as [|k v m Hk IH] using map_ind; intros Hf; [done|]. rewrite msum_insert by done.
  pose proof (Hf k v ltac:(apply lookup_insert_eq)). enough (0 <= msum f m) by lia. apply IH.
  intros k' v' Hk'. apply (Hf k' v'). rewrite lookup_insert_ne; [done|]. intros ->. congruence.
Qed.
Lemma msum_zero f m : (forall k v, m !! k = Some v -> f k v = 0) -> msum f m = 0.
Proof.
  intros Hf. rewrite (msum_ext f (fun _ _ => 0)) by done. clear Hf.
  induction m as [|k v m Hk IH] using map_ind; [done|]. by rewrite msum_insert, IH.
Qed.
Lemma msum_scale n f m : n * msum f m = msum (fun k v => n * f k v) m.
Proof.
  induction m as [|k v m Hk IH] using map_ind; [rewrite !msum_empty; lia|]. rewrite !msum_insert, <-IH by done. lia.
Qed.
Lemma msum_mono f g m : (forall k v, m !! k = Some v -> f k v <= g k v) -> msum f m <= msum g m.
Proof.
  intros Hfg. enough (0 <= msum (fun k v => g k v - f k v) m /\ msum (fun k v => g k v - f k v) m = msum g m - msum f m) by lia. split.
  - apply msum_nonneg. intros k v Hk. specialize (Hfg k v Hk). lia.
  - clear Hfg. induction m as [|k v m Hk IH] using map_ind; [by rewrite !msum_empty|]. rewrite !msum_insert, IH by done. lia.
Qed.
Lemma msum_pos f m k v : (forall k v, m !! k = Some v -> 0 <= f k v) -> m !! k = Some v -> f k v <= msum f m.
Proof.
  intros Hf Hk. rewrite (msum_delete f m k v Hk).
  enough (0 <= msum f (delete k m)) by lia. apply msum_nonneg. intros k' v' [_ Hk']%lookup_delete_Some. by eapply Hf.
Qed.
Lemma msum_filter f m (P : K * A -> Prop) `{!forall x, Decision (P x)} :
  msum f (filter P m) = msum (fun k v => if decide (P (k, v)) then f k v else 0) m.
Proof.
  induction m as [|k v m Hk IH] using map_ind; [done|]. rewrite (msum_insert _ m) by done.
  destruct (decide (P (k, v))).
  - rewrite map_filter_insert_True, msum_insert, IH by (done || by rewrite map_lookup_filter_None; left). lia.
  - rewrite map_filter_insert_not', IH by naive_solver. lia.
Qed.
(** The number of entries that satisfy a test. *)
Definition mcount (p : K -> A -> bool) m : Z := msum (fun k v => of_bool (p k v)) m.
Lemma mcount_nonneg p m : 0 <= mcount p m.
Proof. apply msum_nonneg. intros k v _. destruct (p k v); cbn; lia. Qed.
Lemma mcount_pos p m k v : m !! k = Some v -> p k v = true -> 1 <= mcount p m.
Proof.
  intros Hk Hp. unfold mcount. change 1 with (of_bool true). rewrite <-Hp.
  apply (msum_pos (fun k v => of_bool (p k v)) m k v); [|done].
  intros k' v' _. destruct (p k' v'); cbn; lia.
Qed.
Lemma mcount_zero p m : mcount p m = 0 -> forall k v, m !! k = Some v -> p k v = false.
Proof.
  intros Hc k v Hk. destruct (p k v) eqn:Hp; [|done]. pose proof (mcount_pos p m k v Hk Hp). lia.
Qed.
Lemma mcount_witness p m : 0 < mcount p m -> exists k v, m !! k = Some v /\ p k v = true.
Proof.
  induction m as [|k v m Hk IH] using map_ind; [done|]. unfold mcount in *. rewrite msum_insert by done.
  destruct (p k v) eqn:Hp; [intros _; exists k, v; split; [apply lookup_insert_eq|done]|].
  cbn [of_bool]. intros (k' & v' & Hk' & Hp')%IH. exists k', v'. split; [|done].
  rewrite lookup_insert_ne; [done|]. intros ->. congruence.
Qed.
Lemma mcount_le_size p m : mcount p m <= Z.of_nat (size m).
Proof.
  induction m as [|k v m Hk IH] using map_ind; [done|]. unfold mcount in *. rewrite msum_insert by done.
  rewrite map_size_insert_None by done. destruct (p k v); cbn [of_bool]; lia.
Qed.
Lemma mcount_size p m : (forall k v, m !! k = Some v -> p k v = true) -> mcount p m = Z.of_nat (size m).
Proof.
  induction m as [|k v m Hk IH] using map_ind; intros Hp; [done|]. unfold mcount in *. rewrite msum_insert by done.
  rewrite map_size_insert_None by done. rewrite (Hp k v) by apply lookup_insert_eq. rewrite IH; [cbn [of_bool]; lia|].
  intros k' v' Hk'. apply Hp. rewrite lookup_insert_ne; [done|]. intros ->. congruence.
Qed.

(** [m.values().map(f).min()] *)
Definition mmin (g : A -> Z) m : option Z :=
  map_fold (fun _ v acc => Some (match acc with None => g v | Some t => Z.min (g v) t end)) None m.
Lemma mmin_insert (g : A -> Z) m k v : m !! k = None ->
  mmin g (<[k:=v]> m) = Some (match mmin g m with None => g v | Some t => Z.min (g v) t end).
Proof.
  intros. unfold mmin. rewrite map_fold_insert_L; [done| |done].
  intros. f_equal. destruct y; lia.
Qed.
Lemma mmin_spec (g : A -> Z) m :
  match mmin g m with
  | None => m = ∅
  | Some t => (forall k v, m !! k = Some v -> t <= g v) /\ exists k v, m !! k = Some v /\ g v = t
  end.
Proof.
  induction m as [|k v m Hk IH] using map_ind; [done|]. rewrite mmin_insert by done.
  destruct (mmin g m) as [t|].
  - destruct IH as [IH1 (k1 & v1 & Hk1 & Hv1)]. split.
    + intros k' v' [[-> ->]|[_ Hk']]%lookup_insert_Some; [lia|]. specialize (IH1 _ _ Hk'). lia.
    + destruct (Z.min_spec (g v) t) as [[_ ->]|[_ ->]]; [exists k, v; split; [apply lookup_insert_eq|done]|].
      exists k1, v1. split; [|done]. rewrite lookup_insert_ne; [done|]. intros ->. congruence.
  - subst m. split.
    + intros k' v' [[-> ->]|[_ Hk']]%lookup_insert_Some; [lia|]. by rewrite lookup_empty in Hk'.
    + exists k, v. split; [apply lookup_insert_eq|done].
Qed.
End msum.

Lemma msum_fmap {K A B} `{Countable K} (g : A -> B) (f : K -> B -> Z) (m : gmap K A) : msum f (g <$> m) = msum (fun k v => f k (g v)) m.
Proof.
  induction m as [|k v m Hk IH] using map_ind; [done|]. rewrite fmap_insert, !msum_insert, IH; [done|done|].
  by rewrite lookup_fmap, Hk.
Qed.

(** ** Size and keys *)

(** [map.len()] *)
Definition slen {K A} `{Countable K} (m : gmap K A) : Z := Z.of_nat (size m).
Lemma slen_insert {K A} `{Countable K} (m : gmap K A) k v : m !! k = None -> slen (<[k:=v]> m) = slen m + 1.
Proof. intros. unfold slen. rewrite map_size_insert_None by done. lia. Qed.
Lemma slen_update {K A} `{Countable K} (m : gmap K A) k v : is_Some (m !! k) -> slen (<[k:=v]> m) = slen m.
Proof. intros [w Hw]. unfold slen. by rewrite (map_size_insert_Some k v m) by done. Qed.
Lemma slen_delete {K A} `{Countable K} (m : gmap K A) k : is_Some (m !! k) -> slen (delete k m) = slen m - 1.
Proof.
  intros [w Hw]. unfold slen. assert (size m <> 0%nat) by (by eapply map_size_ne_0_lookup_2).
  rewrite map_size_delete_Some by done. lia.
Qed.
Lemma slen_nonneg {K A} `{Countable K} (m : gmap K A) : 0 <= slen m.
Proof. unfold slen. lia. Qed.

Lemma slen_filter {K A} `{Countable K} (P : K * A -> Prop) `{!forall x, Decision (P x)} (m : gmap K A) : slen (filter P m) <= slen m.
Proof. apply inj_le, map_subseteq_size, map_filter_subseteq. Qed.
Lemma msum_filter_le {K A} `{Countable K} (f : K -> A -> Z) (P : K * A -> Prop) `{!forall x, Decision (P x)} (m : gmap K A) :
  (forall k v, 0 <= f k v) -> msum f (filter P m) <= msum f m.
Proof.
  intros Hf. rewrite msum_filter. induction m as [|k v m Hk IH] using map_ind; [by rewrite !msum_empty|].
  rewrite !msum_insert by done. specialize (Hf k v). destruct (decide _); lia.
Qed.
(** Replacing an entry, or adding it. *)
Lemma msum_upsert {K A} `{Countable K} (f : K -> A -> Z) (m : gmap K A) k w :
  msum f (<[k:=w]> m) = msum f m - from_option (f k) 0 (m !! k) + f k w.
Proof.
  destruct (m !! k) as [v|] eqn:Hk; cbn; [rewrite (msum_update f m k v w Hk); lia|rewrite msum_insert by done; lia].
Qed.

(** [map.contains_key(&k)] *)
Definition has_key {K A} `{Countable K} (m : gmap K A) (k : K) : bool := bool_decide (is_Some (m !! k)).
Lemma has_key_false {K A} `{Countable K} (m : gmap K A) k : has_key m k = false <-> m !! k = None.
Proof. unfold has_key. rewrite bool_decide_eq_false. symmetry. apply eq_None_not_Some. Qed.
Lemma has_key_true {K A} `{Countable K} (m : gmap K A) k : has_key m k = true <-> is_Some (m !! k).
Proof. unfold has_key. apply bool_decide_eq_true. Qed.

(** ** Counters under insertion and deletion *)

Lemma mcount_delete {K A} `{Countable K} (p : K -> A -> bool) m k v :
  m !! k = Some v -> mcount p (delete k m) = mcount p m - of_bool (p k v).
Proof. intros Hk. unfold mcount. rewrite (msum_delete (fun k v => of_bool (p k v)) m k v Hk). lia. Qed.
Lemma mcount_insert {K A} `{Countable K} (p : K -> A -> bool) m k v :
  m !! k = None -> mcount p (<[k:=v]> m) = mcount p m + of_bool (p k v).
Proof. intros Hk. unfold mcount. rewrite msum_insert by done. lia. Qed.
Lemma mcount_update {K A} `{Countable K} (p : K -> A -> bool) m k v w :
  m !! k = Some v -> p k v = p k w -> mcount p (<[k:=w]> m) = mcount p m.
Proof. intros Hk Hp. unfold mcount. rewrite (msum_update _ m k v w Hk). rewrite Hp. lia. Qed.
Lemma mcount_filter_le {K A} `{Countable K} (q : K -> A -> bool) (m : gmap K A) (P : K * A -> Prop) `{!forall x, Decision (P x)} :
  mcount q (filter P m) <= mcount q m.
Proof.
  unfold mcount. rewrite msum_filter. induction m as [|k v m Hk IH] using map_ind; [done|].
  rewrite !msum_insert by done. case_decide; destruct (q k v); cbn [of_bool]; lia.
Qed.
Lemma mcount_upsert {K A} `{Countable K} (p : K -> A -> bool) (m : gmap K A) k w :
  mcount p (<[k:=w]> m) = mcount p m - from_option (fun v => of_bool (p k v)) 0 (m !! k) + of_bool (p k w).
Proof. apply (msum_upsert (fun k v => of_bool (p k v))). Qed.
(** A property of entries that survive a filter. *)
Lemma forall_filter {K A} `{Countable K} (Q : K -> A -> Prop) (P : K * A -> Prop) `{!forall x, Decision (P x)} (m : gmap K A) : map_Forall Q m -> map_Forall Q (filter P m).
Proof. intros Hm k v [Hk _]%map_lookup_filter_Some. by apply Hm. Qed.
Lemma slen_insert_le {K A} `{Countable K} (m : gmap K A) k v : slen (<[k := v]> m) <= slen m + 1.
Proof. unfold slen. destruct (m !! k) eqn:E; [rewrite (map_size_insert_Some k v m) by (by eexists)|rewrite (map_size_insert_None k v m E)]; lia. Qed.

