(* ===== verification/Ports.v ===== *)
(** Ownership of transport ports and ICMP identifiers ([src/src/service_io/ports.rs]).

    The registry is shared by reference in the source; here it is a state passed to
    whoever claims or releases.  A [Held] is what a [Lease] keeps, and [drop_held] is the
    destructor that runs when the last lease goes.  A poisoned lock does not arise: no
    operation panics while holding it. *)

From S2P Require Import Prelude Maps.

Inductive Owner := Local | Translation.
#[global] Instance Owner_eq_dec : EqDecision Owner.
Proof. solve_decision. Defined.

(** protocol and port *)
Abbreviation PortKey := (Z * Z)%type.
Record State := mkState {
  entries : gmap PortKey (Z * Owner);
  local : Z;
  translation : Z;
  generation : Z;
}.
Definition no_ports : State := mkState ∅ 0 0 0.

Record Held := mkHeld { h_key : PortKey; h_id : Z }.
#[global] Instance Held_eq_dec : EqDecision Held.
Proof. solve_decision. Defined.

Definition drop_held (h : Held) (s : State) : outcome io_error State :=
  match entries s !! h_key h with
  | Some (id, owner) =>
      if id =? h_id h then
        match owner with
        | Local =>
            n ← sub_chk (local s) 1;
            Ok (mkState (delete (h_key h) (entries s)) n (translation s) (generation s))
        | Translation =>
            n ← sub_chk (translation s) 1;
            Ok (mkState (delete (h_key h) (entries s)) (local s) n (generation s))
        end
      else Ok s
  | None => Ok s
  end.

Definition occupied (s : State) (protocol port : Z) : bool :=
  bool_decide (is_Some (entries s !! (protocol, port))).
Definition counts (s : State) : Z * Z := (local s, translation s).

Definition claim (protocol port : Z) (owner : Owner) (s : State) : outcome io_error (Held * State) :=
  reject_if negb (mem protocol [1; 6; 17]) || negb (protocol =? 1) && (port =? 0) with InvalidInput;
  reject_if occupied s protocol port
            || match owner with Local => 256 <=? local s | Translation => 4096 <=? translation s end
    with WouldBlock;
  reject_if generation s =? u64_max with OtherError;
  let id := generation s + 1 in
  let es := <[(protocol, port) := (id, owner)]> (entries s) in
  Ok (mkHeld (protocol, port) id,
      match owner with
      | Local => mkState es (local s + 1) (translation s) id
      | Translation => mkState es (local s) (translation s + 1) id
      end).

(** ** The registry's invariant *)

Definition owned_by (o : Owner) (_ : PortKey) (v : Z * Owner) : bool := bool_decide (snd v = o).
Record ports_wf (s : State) : Prop := {
  pw_local : local s = mcount (owned_by Local) (entries s);
  pw_translation : translation s = mcount (owned_by Translation) (entries s);
  pw_caps : local s <= 256 /\ translation s <= 4096;
  pw_generation : 0 <= generation s <= u64_max;
  pw_ids : forall k id o, entries s !! k = Some (id, o) -> 0 < id <= generation s;
  pw_keys : forall k v, entries s !! k = Some v ->
    mem (fst k) [1; 6; 17] = true /\ (fst k <> 1 -> snd k <> 0);
}.
(** [h] is the lease that owns its port for [o]. *)
Definition holds (s : State) (h : Held) (o : Owner) : Prop := entries s !! h_key h = Some (h_id h, o).

Lemma no_ports_wf : ports_wf no_ports.
Proof. split; try done; u_lia. Qed.

Lemma claim_Ok protocol port owner s h s' :
  ports_wf s -> claim protocol port owner s = Ok (h, s') ->
  ports_wf s' /\ h_key h = (protocol, port) /\ holds s' h owner /\
  entries s !! (protocol, port) = None /\ (protocol <> 1 -> port <> 0) /\
  entries s' = <[(protocol, port) := (h_id h, owner)]> (entries s).
Proof.
  intros [W1 W2 W3 W4 W5 W6] H. unfold claim in H. inv_all_ok. unfold occupied in Hc0.
  destruct (entries s !! (protocol, port)) eqn:Hk; [rewrite bool_decide_true in Hc0 by done; done|].
  rewrite bool_decide_false in Hc0 by (intros [? ?]; done).
  simplify_eq. cbn [h_key h_id]. split_and!; try done; [|destruct owner; apply lookup_insert_eq|lia|by destruct owner].
  assert (forall k id o, <[(protocol, port):=(generation s + 1, owner)]> (entries s) !! k = Some (id, o) ->
    0 < id <= generation s + 1) as Hids.
  { intros k id o [[_ [= <- <-]]|[_ Hk']]%lookup_insert_Some; [lia|]. specialize (W5 k id o Hk'). lia. }
  assert (forall k v, <[(protocol, port):=(generation s + 1, owner)]> (entries s) !! k = Some v ->
    mem (fst k) [1; 6; 17] = true /\ (fst k <> 1 -> snd k <> 0)) as Hkeys.
  { intros k v [[<- <-]|[_ Hk']]%lookup_insert_Some; [cbn [fst snd]; apply orb_false_iff in Hc as [Hc Hc2]; split; [by apply negb_false_iff|lia]|]. by eapply W6. }
  assert (0 <= generation s + 1 <= u64_max) by (clear Hids Hkeys; lia).
  destruct owner; split; cbn [local translation entries generation]; try done;
    try lia; unfold mcount in *; rewrite msum_insert by done; unfold owned_by at 1; cbn [snd];
    rewrite ?bool_decide_true, ?bool_decide_false by done; cbn [of_bool]; lia.
Qed.
Lemma claim_safe protocol port owner s : safe (claim protocol port owner s).
Proof. unfold claim. safe_auto. Qed.

(** Dropping a lease releases its own port and no other; a stale one does nothing. *)
Lemma drop_held_Ok h s : ports_wf s ->
  exists s', drop_held h s = Ok s' /\ ports_wf s' /\ generation s' = generation s /\
    (forall o, holds s h o -> entries s' = delete (h_key h) (entries s)) /\
    ((forall o, ~ holds s h o) -> s' = s).
Proof.
  intros Hw. pose proof Hw as [W1 W2 W3 W4 W5 W6]. unfold drop_held, holds.
  destruct (entries s !! h_key h) as [[id owner]|] eqn:Hk.
  2:{ exists s. split_and!; try done. }
  destruct (Z.eqb_spec id (h_id h)) as [->|Hne].
  2:{ exists s. split_and!; try done. intros o [= -> ->]. done. }
  assert (forall k v, delete (h_key h) (entries s) !! k = Some v -> entries s !! k = Some v) as Hd
    by (by intros k v [_ ?]%lookup_delete_Some).
  assert (forall o, mcount (owned_by o) (entries s) =
    of_bool (match owner, o with Local, Local | Translation, Translation => true | _, _ => false end)
    + mcount (owned_by o) (delete (h_key h) (entries s))) as D.
  { intros o. unfold mcount. rewrite (msum_delete (fun k v => of_bool (owned_by o k v)) _ _ _ Hk).
    by destruct owner, o. }
  pose proof (D Local) as D1. pose proof (D Translation) as D2. clear D.
  pose proof (mcount_nonneg (owned_by Local) (delete (h_key h) (entries s))).
  pose proof (mcount_nonneg (owned_by Translation) (delete (h_key h) (entries s))).
  destruct owner; cbn [of_bool] in D1, D2; unfold sub_chk.
  - destruct (Z.leb_spec 1 (local s)); [|lia]. eexists. split; [reflexivity|].
    split_and!; [|done|done|intros Hn; by destruct (Hn Local)].
    split; cbn [local translation entries generation]; try lia.
    + intros k id o Hk'. by eapply W5, Hd.
    + intros k v Hk'. by eapply W6, Hd.
  - destruct (Z.leb_spec 1 (translation s)); [|lia]. eexists. split; [reflexivity|].
    split_and!; [|done|done|intros Hn; by destruct (Hn Translation)].
    split; cbn [local translation entries generation]; try lia.
    + intros k id o Hk'. by eapply W5, Hd.
    + intros k v Hk'. by eapply W6, Hd.
Qed.
