(* ===== verification/TcpState.v ===== *)
(** The TCP session state machine of the translator and its header check
    ([src/src/nat64/tcp.rs]). *)

From S2P Require Import Prelude.

Definition ESTABLISHED : Z := 7200000.
Definition TRANSITORY : Z := 240000.

Inductive TcpState := V4Init | V6Init | Established | V4Fin | V6Fin | BothFin | Transitory.
#[global] Instance TcpState_eq_dec : EqDecision TcpState.
Proof. solve_decision. Defined.

Definition has_fin (flags : Z) : bool := negb (Z.land flags 1 =? 0).
Definition has_syn (flags : Z) : bool := negb (Z.land flags 2 =? 0).
Definition has_rst (flags : Z) : bool := negb (Z.land flags 4 =? 0).

(** The state and expiry after a packet from the IPv6 ([v6]) or the IPv4 side. *)
Definition packet (self : TcpState) (v6 : bool) (flags expires now : Z) : TcpState * Z :=
  let syn := has_syn flags in
  let fin := has_fin flags in
  let rst := has_rst flags in
  let est := sat64 now ESTABLISHED in
  let trans := sat64 now TRANSITORY in
  match self with
  | V4Init => if v6 && syn then (Established, est) else (self, expires)
  | V6Init =>
      if negb v6 && syn then (Established, est)
      else if v6 && syn then (self, trans) else (self, expires)
  | BothFin => (self, expires)
  | Established =>
      if fin then (if v6 then V6Fin else V4Fin, expires)
      else if rst then (Transitory, trans) else (self, est)
  | V4Fin => if v6 && fin then (BothFin, trans) else (self, est)
  | V6Fin => if negb v6 && fin then (BothFin, trans) else (self, est)
  | Transitory => if negb rst then (Established, est) else (self, expires)
  end.

(** The options of a TCP header, [while at < header]. *)
Definition bad_option (kind n : Z) : bool :=
  if kind =? 2 then negb (n =? 4)
  else if kind =? 3 then negb (n =? 3)
  else if kind =? 4 then negb (n =? 2)
  else if kind =? 5 then (n <? 10) || negb ((n - 2) mod 8 =? 0)
  else if kind =? 8 then negb (n =? 10)
  else false.
Fixpoint tcp_options (fuel : nat) (b : bytes) (at_ header : Z) : outcome io_error unit :=
  if header <=? at_ then Ok tt else
  match fuel with
  | O => Panic
  | S fuel =>
      kind ← b.[at_];
      if kind =? 0 then
        rest ← slice b (at_ + 1) header;
        reject_if existsb (fun x => negb (x =? 0)) rest with InvalidData;
        Ok tt
      else if kind =? 1 then tcp_options fuel b (at_ + 1) header
      else
        reject_if header <? at_ + 2 with InvalidData;
        n ← b.[at_ + 1];
        reject_if (n <? 2) || (header <? at_ + n) || bad_option kind n with InvalidData;
        tcp_options fuel b (at_ + n) header
  end.
Definition tcp_ports (b : bytes) : outcome io_error (Z * Z) :=
  reject_if len b <? 20 with InvalidData;
  b12 ← b.[12];
  let header := Z.shiftr b12 4 * 4 in
  b0 ← b.[0]; b1 ← b.[1]; b2 ← b.[2]; b3 ← b.[3];
  let source := u16be b0 b1 in
  let dest := u16be b2 b3 in
  b13 ← b.[13];
  reject_if (header <? 20) || (len b <? header) || (source =? 0) || (dest =? 0)
            || negb (Z.land b13 2 =? 0) && negb (Z.land b13 5 =? 0) with InvalidData;
  tcp_options (Z.to_nat header) b 20 header ;;
  Ok (source, dest).

(** ** Lemmas *)

Lemma tcp_options_safe fuel b at_ h :
  is_bytes b -> 0 <= at_ -> h <= len b -> h - at_ <= Z.of_nat fuel -> safe (tcp_options fuel b at_ h).
Proof.
  intros Hb. revert at_. induction fuel as [|fuel IH]; intros at_ Ha Hh Hf; cbn [tcp_options];
    (destruct (Z.leb_spec h at_); [done|]); [lia|].
  safe_auto; byte_facts; apply IH; u_lia.
Qed.
Lemma tcp_ports_safe b : is_bytes b -> safe (tcp_ports b).
Proof.
  intros Hb. unfold tcp_ports. safe_auto. apply tcp_options_safe; [done|lia..].
Qed.
Lemma tcp_ports_Ok b s d : is_bytes b -> tcp_ports b = Ok (s, d) ->
  20 <= len b /\ 0 < s <= u16_max /\ 0 < d <= u16_max.
Proof.
  intros Hb H. unfold tcp_ports in H. inv_all_ok. simplify_eq. byte_facts. u_lia.
Qed.

(** A packet keeps the expiry or sets it two hours or four minutes ahead. *)
Lemma packet_expiry self v6 flags expires now :
  let e := (packet self v6 flags expires now).2 in
  e = expires \/ e = sat64 now ESTABLISHED \/ e = sat64 now TRANSITORY.
Proof. unfold packet. destruct self; cbn; repeat case_match; cbn; auto. Qed.
Lemma packet_u64 self v6 flags expires now :
  is_u64 expires -> 0 <= now -> is_u64 (packet self v6 flags expires now).2.
Proof.
  intros He Hn. destruct (packet_expiry self v6 flags expires now) as [-> | [-> | ->]]; [done|..];
    unfold ESTABLISHED, TRANSITORY; u_lia.
Qed.

(** ** Runs of packets *)

(** What the translator sees of a packet of the session. *)
Record Seen := mkSeen { seen_v6 : bool; seen_flags : Z; seen_at : Z }.
Definition step (st : TcpState * Z) (p : Seen) : TcpState * Z :=
  packet st.1 (seen_v6 p) (seen_flags p) st.2 (seen_at p).
Definition run (st : TcpState * Z) (ps : list Seen) : TcpState * Z := foldl step st ps.
Definition from_side (v6 : bool) (test : Z -> bool) (p : Seen) : bool :=
  Bool.eqb (seen_v6 p) v6 && test (seen_flags p).

(** The flags that must have been seen for a session to be in its state; [opener] is the
    side that opened it. *)
Definition justified (opener : bool) (s : TcpState) (ps : list Seen) : Prop :=
  let sent side test := existsb (from_side side test) ps = true in
  match s with
  | V4Init => opener = false
  | V6Init => opener = true
  | Established | Transitory => sent (negb opener) has_syn
  | V4Fin => sent (negb opener) has_syn /\ sent false has_fin
  | V6Fin => sent (negb opener) has_syn /\ sent true has_fin
  | BothFin => sent (negb opener) has_syn /\ sent false has_fin /\ sent true has_fin
  end.
Lemma existsb_snoc {A} (f : A -> bool) l x : existsb f (l ++ [x]) = existsb f l || f x.
Proof. rewrite existsb_app. cbn. by rewrite orb_false_r. Qed.
Lemma justified_step opener st ps p :
  justified opener st.1 ps -> justified opener (step st p).1 (ps ++ [p]).
Proof.
  destruct st as [s e], p as [v6 flags now]. unfold step, justified, packet. cbn [fst snd seen_v6 seen_flags seen_at].
  rewrite !existsb_snoc. unfold from_side at 2 4 6 8 10 12 14 16. cbn [seen_v6 seen_flags].
  destruct s, opener, v6, (has_syn flags) eqn:Hs, (has_fin flags) eqn:Hf, (has_rst flags) eqn:Hr; cbn;
    rewrite ?orb_true_r; intros H; try done; destruct_and?; split_and?; try done; try (apply orb_true_iff; auto).
Qed.
Lemma run_snoc st ps p : run st (ps ++ [p]) = step (run st ps) p.
Proof. unfold run. by rewrite foldl_app. Qed.
Lemma run_justified (opener : bool) s0 e0 ps :
  s0 = (if opener then V6Init else V4Init) -> justified opener (run (s0, e0) ps).1 ps.
Proof.
  intros ->. induction ps as [|p ps IH] using rev_ind; [by destruct opener|].
  rewrite run_snoc. by apply justified_step.
Qed.

(** ** Properties *)

(** A session becomes established only after a SYN from the side that did not open
    it, is half closed only after that side's FIN and closed only after a FIN from both
    sides, whatever packets arrive; and each packet leaves the expiry as it was or moves it
    two hours (established) or four minutes (transitory) ahead of the packet. *)
Theorem tcp_session_justified (opener : bool) e0 ps p :
  let st := run (if opener then V6Init else V4Init, e0) ps in
  justified opener st.1 ps /\
  ((step st p).2 = st.2 \/ (step st p).2 = sat64 (seen_at p) ESTABLISHED \/
   (step st p).2 = sat64 (seen_at p) TRANSITORY) /\
  (st.1 = BothFin -> step st p = st).
Proof.
  intros st. split_and!.
  - by apply run_justified.
  - apply packet_expiry.
  - destruct st as [s e]. cbn. by intros ->.
Qed.
