(* ===== verification/Icmp64.v ===== *)
(** Translation of ICMP error types, codes, MTUs and pointers ([src/src/nat64/icmp.rs]). *)

From S2P Require Import Prelude.

(** [.into_iter().find(|v| v < quoted_length)] *)
Definition plateaus : list Z := [65535; 32000; 17914; 8166; 4352; 2002; 1492].
Fixpoint find_below (bound : Z) (l : list Z) : option Z :=
  match l with
  | [] => None
  | v :: l => if v <? bound then Some v else find_below bound l
  end.
Definition between (lo x hi : Z) : bool := (lo <=? x) && (x <=? hi).

Definition v4_to_v6 (kind code value quoted_length mtu4 mtu6 : Z) : option (Z * Z * Z) :=
  if kind =? 3 then
    if mem code [0; 1; 5; 6; 7; 8; 11; 12] then Some (1, 0, 0)
    else if code =? 2 then Some (4, 1, 6)
    else if code =? 3 then Some (1, 4, 0)
    else if code =? 4 then
      let mtu := if value =? 0 then default 0 (find_below quoted_length plateaus) else value in
      Some (2, 0, Z.max (Z.min (Z.min (sat32 mtu 20) mtu6) (sat32 mtu4 20)) 1280)
    else if mem code [9; 10; 13; 15] then Some (1, 1, 0)
    else None
  else if (kind =? 11) && mem code [0; 1] then Some (3, code, 0)
  else if (kind =? 12) && mem code [0; 2] then
    pointer ← (if value =? 0 then Some 0 else if value =? 1 then Some 1
               else if mem value [2; 3] then Some 4 else if value =? 8 then Some 7
               else if value =? 9 then Some 6 else if between 12 value 15 then Some 8
               else if between 16 value 19 then Some 24 else None);
    Some (4, 0, pointer)
  else None.

Definition v6_to_v4 (kind code value mtu4 mtu6 : Z) : option (Z * Z * Z) :=
  if kind =? 1 then
    if mem code [0; 2; 3] then Some (3, 1, 0)
    else if code =? 1 then Some (3, 10, 0)
    else if code =? 4 then Some (3, 3, 0)
    else None
  else if (kind =? 2) && (code =? 0) then
    Some (3, 4, Z.min (Z.max (Z.min (Z.min (sat_sub value 20) mtu4) (sat_sub mtu6 20)) 68) 65535)
  else if (kind =? 3) && mem code [0; 1] then Some (11, code, 0)
  else if (kind =? 4) && (code =? 0) then
    pointer ← (if value =? 0 then Some 0 else if value =? 1 then Some 1
               else if mem value [4; 5] then Some 2 else if value =? 6 then Some 9
               else if value =? 7 then Some 8 else if between 8 value 23 then Some 12
               else if between 24 value 39 then Some 16 else None);
    Some (12, 0, pointer)
  else if (kind =? 4) && (code =? 1) then Some (3, 2, 0)
  else None.

(** ** Properties *)

Lemma find_below_spec bound l v : find_below bound l = Some v -> v < bound /\ In v l.
Proof. induction l as [|x l IH]; cbn; [done|]. case_match; naive_solver lia. Qed.

(** A Fragmentation Needed error becomes a Packet Too Big that never promises more than
    either link carries (below the IPv6 minimum of 1280 excepted), and with no MTU in the
    error falls to an RFC 1191 plateau below the packet that caused it. *)
Theorem packet_too_big_bounds value quoted_length mtu4 mtu6 :
  is_u32 value -> is_u32 quoted_length -> is_u32 mtu4 -> is_u32 mtu6 ->
  (exists mtu, v4_to_v6 3 4 value quoted_length mtu4 mtu6 = Some (2, 0, mtu) /\ is_u32 mtu /\ 1280 <= mtu /\
     (1280 < mtu -> mtu <= mtu6 /\ mtu <= mtu4 + 20 /\
        if value =? 0 then mtu < quoted_length + 20 else mtu <= value + 20)) /\
  (exists mtu, v6_to_v4 2 0 value mtu4 mtu6 = Some (3, 4, mtu) /\ 68 <= mtu <= u16_max /\
     (68 < mtu -> mtu <= mtu4 /\ mtu + 20 <= mtu6 /\ mtu + 20 <= value)).
Proof.
  intros Hv Hq H4 H6. split.
  - unfold v4_to_v6. cbn [Z.eqb Pos.eqb mem existsb orb]. eexists. split; [reflexivity|].
    destruct (Z.eqb_spec value 0) as [->|].
    + destruct (find_below quoted_length plateaus) as [v|] eqn:Hf; cbn [default].
      * apply find_below_spec in Hf as [Hf Hin]. unfold id.
        assert (1492 <= v <= 65535) by (unfold plateaus in Hin; cbn in Hin; intuition lia). u_lia.
      * u_lia.
    + u_lia.
  - unfold v6_to_v4. cbn [Z.eqb Pos.eqb andb]. eexists. split; [reflexivity|]. u_lia.
Qed.

(** What [v4_to_v6] makes of an IPv4 error that [v6_to_v4] produced. *)
Definition there_and_back (kind code value mtu : Z) : option (Z * Z * Z) :=
  r ← v6_to_v4 kind code value mtu mtu;
  let '(k, c, v) := r in v4_to_v6 k c v u16_max mtu mtu.
(** The error classes survive the way there and back: an IPv6 error that the
    translator turns into an IPv4 one comes back with the same type, unreachable ports
    stay unreachable ports, hop-limit codes are kept, and a pointer returns to the start
    of the header field it was in. *)
Theorem icmp_error_classes kind code value mtu k c v :
  is_u32 value -> is_u32 mtu -> 88 <= mtu ->
  there_and_back kind code value mtu = Some (k, c, v) ->
  k = kind /\ (kind = 3 -> c = code) /\ (kind = 1 -> code = 4 -> c = 4) /\ (kind = 1 -> code = 1 -> c = 1) /\
  (kind = 4 -> code = 0 -> v <= value /\ (value < 8 -> v = value \/ (value = 5 /\ v = 4)) /\
     (8 <= value < 24 -> v = 8) /\ (24 <= value -> v = 24)).
Proof.
  intros Hv Hm Hl. unfold there_and_back, v6_to_v4.
  destruct (Z.eqb_spec kind 1) as [->|].
  { destruct (mem code [0; 2; 3]) eqn:Hc; [|destruct (Z.eqb_spec code 1); [|destruct (Z.eqb_spec code 4)]]; cbn; try done.
    all: intros [= <- <- <-]; subst; split_and!; try done; intros; subst; done. }
  destruct (Z.eqb_spec kind 2) as [->|]; [destruct (Z.eqb_spec code 0) as [->|]; cbn [andb Z.eqb]|].
  { cbn [mbind option_bind]. unfold v4_to_v6. cbn [Z.eqb Pos.eqb mem existsb orb]. intros [= <- <- <-]. by split_and!. }
  { done. }
  cbn [andb]. destruct (Z.eqb_spec kind 3) as [->|].
  { destruct (mem code [0; 1]) eqn:Hc; cbn [andb]; [|done]. cbn [mbind option_bind]. unfold v4_to_v6.
    cbn [Z.eqb Pos.eqb andb]. rewrite Hc. intros [= <- <- <-]. by split_and!. }
  cbn [andb]. destruct (Z.eqb_spec kind 4) as [->|]; [|done].
  destruct (Z.eqb_spec code 0) as [->|]; cbn [andb].
  2:{ destruct (Z.eqb_spec code 1) as [->|]; [|done]. cbn. intros [= <- <- <-]. split_and!; done. }
  intros H. assert (0 <= value) by u_lia. split; [|split_and!; try done; intros _ _].
  - revert H. unfold between, mem, existsb.
    repeat (case_match; [try (subst; cbn; intros [= <- <- <-]; done)|]); cbn; try done;
      intros [= <- <- <-]; done.
  - revert H. unfold between, mem. cbn [existsb].
    destruct (Z.eqb_spec value 0), (Z.eqb_spec value 1); subst; try (cbn; intros [= <- <- <-]; lia).
    destruct (_ || _) eqn:E1; [cbn; intros [= <- <- <-]; lia|].
    destruct (Z.eqb_spec value 6); subst; [cbn; intros [= <- <- <-]; lia|].
    destruct (Z.eqb_spec value 7); subst; [cbn; intros [= <- <- <-]; lia|].
    destruct ((8 <=? value) && _) eqn:E2; [cbn; intros [= <- <- <-]; lia|].
    destruct ((24 <=? value) && _) eqn:E3; [cbn; intros [= <- <- <-]; lia|]. done.
Qed.

(** ** Witnesses *)

Lemma packet_too_big_bounds_witness :
  exists mtu, v4_to_v6 3 4 0 1500 1500 1500 = Some (2, 0, mtu) /\ 1280 <= mtu.
Proof.
  destruct (packet_too_big_bounds 0 1500 1500 1500) as [(mtu & H & _ & Hm & _) _];
    [split; vm_compute; discriminate..|]. exists mtu. split; [exact H | exact Hm].
Defined.
Lemma icmp_error_classes_witness : exists c v, there_and_back 4 0 30 1500 = Some (4, c, v) /\ v = 24.
Proof.
  destruct (icmp_error_classes 4 0 30 1500 4 0 24) as (_ & _ & _ & _ & H);
    [split; vm_compute; discriminate.. | lia | reflexivity |].
  exists 0, 24. split; [reflexivity | apply H; lia].
Defined.
