(* ===== verification/Bindings.v ===== *)
(** The translator's binding and session tables ([src/src/nat64/bindings.rs] with its
    submodules [bindings/tcp.rs] and [bindings/icmp.rs]).

    Each [BTreeMap] is a [gmap]; where the code iterates in key order and the order shows
    in the result, [session_keys] gives the keys in the derived [Ord].  The port registry is
    part of the state, since bindings own leases of it.  [unwrap] on a missing entry and
    counter underflow are [Panic]. *)

From S2P Require Import Prelude Effects Time Maps Ports TcpState Wire.

(** ** Keys *)

(** protocol, host, port, domain *)
Record Key := mkKey { k_protocol : Z; k_host : Z; k_port : Z; k_domain : Z }.
#[global] Instance Key_eq_dec : EqDecision Key.
Proof. solve_decision. Defined.
#[global] Instance Key_countable : Countable Key :=
  inj_countable' (fun k => (k_protocol k, k_host k, k_port k, k_domain k))
    (fun '(a, b, c, d) => mkKey a b c d) ltac:(by intros []).
(** [std::net::SocketAddrV4] *)
Record Remote := mkRemote { r_ip : Z; r_port : Z }.
#[global] Instance Remote_eq_dec : EqDecision Remote.
Proof. solve_decision. Defined.
#[global] Instance Remote_countable : Countable Remote :=
  inj_countable' (fun r => (r_ip r, r_port r)) (fun '(a, b) => mkRemote a b) ltac:(by intros []).
Abbreviation SessionKey := (Key * Remote)%type.

(** The derived [Ord] of [SessionKey]: field by field. *)
Fixpoint lex (a b : list Z) : comparison :=
  match a, b with
  | x :: a, y :: b => match x ?= y with Eq => lex a b | c => c end
  | [], [] => Eq
  | [], _ => Lt
  | _, [] => Gt
  end.
Definition key_fields (k : Key) : list Z := [k_protocol k; k_host k; k_port k; k_domain k].
Definition session_fields (sk : SessionKey) : list Z := key_fields sk.1 ++ [r_ip sk.2; r_port sk.2].
Definition session_le (a b : SessionKey) : Prop := lex (session_fields a) (session_fields b) <> Gt.

(** ** State *)

Inductive UdpFiltering := AddressDependent | EndpointIndependent.
#[global] Instance UdpFiltering_eq_dec : EqDecision UdpFiltering.
Proof. solve_decision. Defined.

Record Binding := mkBinding { b_lease : Held; b_port : Z; b_sessions : Z }.
Record Session := mkSession {
  s_expires : Z;
  s_tcp : option TcpState;
  s_probe : bool;
  s_syn_quote : bytes;
}.
Record Bindings := mkBindings {
  domain : Z;
  ports : Ports.State;
  bindings : gmap Key Binding;
  reverse : gmap (Z * Z) Key;
  sessions : gmap SessionKey Session;
  hosts : gmap Z (Z * Z);
  next : option Z;
  udp_filtering : UdpFiltering;
  udp_seconds : Z;
  icmp_seconds : Z;
  tcp_timeouts : list bytes;
  tcp_quote_bytes : Z;
}.
Definition with_ports (p : Ports.State) : Bindings :=
  mkBindings 0 p ∅ ∅ ∅ ∅ None AddressDependent 300 60 [] 0.

Definition set_domain v b := mkBindings v (ports b) (bindings b) (reverse b) (sessions b) (hosts b) (next b)
  (udp_filtering b) (udp_seconds b) (icmp_seconds b) (tcp_timeouts b) (tcp_quote_bytes b).
Definition set_ports v b := mkBindings (domain b) v (bindings b) (reverse b) (sessions b) (hosts b) (next b)
  (udp_filtering b) (udp_seconds b) (icmp_seconds b) (tcp_timeouts b) (tcp_quote_bytes b).
Definition set_bindings v b := mkBindings (domain b) (ports b) v (reverse b) (sessions b) (hosts b) (next b)
  (udp_filtering b) (udp_seconds b) (icmp_seconds b) (tcp_timeouts b) (tcp_quote_bytes b).
Definition set_reverse v b := mkBindings (domain b) (ports b) (bindings b) v (sessions b) (hosts b) (next b)
  (udp_filtering b) (udp_seconds b) (icmp_seconds b) (tcp_timeouts b) (tcp_quote_bytes b).
Definition set_sessions v b := mkBindings (domain b) (ports b) (bindings b) (reverse b) v (hosts b) (next b)
  (udp_filtering b) (udp_seconds b) (icmp_seconds b) (tcp_timeouts b) (tcp_quote_bytes b).
Definition set_hosts v b := mkBindings (domain b) (ports b) (bindings b) (reverse b) (sessions b) v (next b)
  (udp_filtering b) (udp_seconds b) (icmp_seconds b) (tcp_timeouts b) (tcp_quote_bytes b).
Definition set_next v b := mkBindings (domain b) (ports b) (bindings b) (reverse b) (sessions b) (hosts b) v
  (udp_filtering b) (udp_seconds b) (icmp_seconds b) (tcp_timeouts b) (tcp_quote_bytes b).
Definition set_filtering v b := mkBindings (domain b) (ports b) (bindings b) (reverse b) (sessions b) (hosts b)
  (next b) v (udp_seconds b) (icmp_seconds b) (tcp_timeouts b) (tcp_quote_bytes b).
Definition set_udp_seconds v b := mkBindings (domain b) (ports b) (bindings b) (reverse b) (sessions b) (hosts b)
  (next b) (udp_filtering b) v (icmp_seconds b) (tcp_timeouts b) (tcp_quote_bytes b).
Definition set_icmp_seconds v b := mkBindings (domain b) (ports b) (bindings b) (reverse b) (sessions b) (hosts b)
  (next b) (udp_filtering b) (udp_seconds b) v (tcp_timeouts b) (tcp_quote_bytes b).
Definition set_timeouts v b := mkBindings (domain b) (ports b) (bindings b) (reverse b) (sessions b) (hosts b)
  (next b) (udp_filtering b) (udp_seconds b) (icmp_seconds b) v (tcp_quote_bytes b).
Definition set_quote_bytes v b := mkBindings (domain b) (ports b) (bindings b) (reverse b) (sessions b) (hosts b)
  (next b) (udp_filtering b) (udp_seconds b) (icmp_seconds b) (tcp_timeouts b) v.

(** [map.keys().copied().collect()], in order. *)
Definition session_keys (m : gmap SessionKey Session) : list SessionKey :=
  merge_sort session_le (map fst (map_to_list m)).

Definition port_le (a b : Z * Z) : Prop := lex [a.1; a.2] [b.1; b.2] <> Gt.
Definition port_keys (m : gmap (Z * Z) Key) : list (Z * Z) := merge_sort port_le (map fst (map_to_list m)).

(** ** Queries *)

Definition domain_for (b : Bindings) (protocol port : Z) : option Z :=
  k_domain <$> reverse b !! (protocol, port).
Definition owns (b : Bindings) (protocol port : Z) : bool := has_key (reverse b) (protocol, port).
Definition live_session (b : Bindings) (sk : SessionKey) (now : Z) : option Session :=
  s ← sessions b !! sk; if now <? s_expires s then Some s else None.
Definition error_in (b : Bindings) (protocol port : Z) (remote : Remote) (now : Z) : option (Z * Z) :=
  key ← reverse b !! (protocol, port);
  _ ← live_session b (key, remote) now;
  Some (k_host key, k_port key).
Definition error_out (b : Bindings) (protocol host port : Z) (remote : Remote) (now : Z) : option Z :=
  let key := mkKey protocol host port (domain b) in
  _ ← live_session b (key, remote) now;
  b_port <$> bindings b !! key.
Definition bib_counts (b : Bindings) : Z * Z * Z := (slen (bindings b), slen (sessions b), slen (hosts b)).
Definition charged_bytes (b : Bindings) : Z :=
  slen (bindings b) * 192 + slen (reverse b) * 96 + slen (sessions b) * 256 + slen (hosts b) * 128
  + len (tcp_timeouts b) * 128 + tcp_quote_bytes b.
Definition next_deadline (b : Bindings) : option Z :=
  if negb (len (tcp_timeouts b) =? 0) || existsb (fun kv => s_probe kv.2) (map_to_list (sessions b))
  then Some 0 else next b.
Definition tcp_timeout_load (b : Bindings) : Z * Z :=
  (len (tcp_timeouts b), foldr (fun q acc => len q + acc) 0 (tcp_timeouts b)).
Definition tcp_state (b : Bindings) (source port : Z) (remote : Remote) : option (TcpState * Z) :=
  s ← sessions b !! (mkKey 6 source port (domain b), remote);
  t ← s_tcp s;
  Some (t, s_expires s).

(** ** Configuration *)

Abbreviation MB := (M Bindings io_error).
Definition set_udp_filtering (filter : UdpFiltering) : MB unit := modify (set_filtering filter).
Definition set_udp_timeout (seconds : Z) : MB unit :=
  if negb ((120 <=? seconds) && (seconds <=? 86400)) then throw InvalidInput
  else modify (set_udp_seconds seconds).
Definition set_icmp_timeout (seconds : Z) : MB unit :=
  if negb ((60 <=? seconds) && (seconds <=? 86400)) then throw InvalidInput
  else modify (set_icmp_seconds seconds).

(** ** Removing *)

(** Dropping a [Binding] drops its lease. *)
Definition drop_binding (bd : Binding) : MB unit :=
  b ← get;
  p ← lift (drop_held (b_lease bd) (ports b));
  modify (set_ports p).
(** [s.tcp == Established] and expired: the session is kept for a transitory time, with a
    probe to find out whether the peers are still there. *)
Definition demote (now : Z) (s : Session) : Session :=
  if (s_expires s <=? now) && bool_decide (s_tcp s = Some Established) then
    let expires := sat64 (s_expires s) TRANSITORY in
    mkSession expires (Some Transitory) (now <? expires) (s_syn_quote s)
  else s.
(** One round of [for key in old], with the ports released so far. *)
Definition remove_session (key : SessionKey) (released : list (Z * Z)) : MB (list (Z * Z)) :=
  b ← get;
  s ← lift (unwrap (sessions b !! key));
  q ← lift (sub_chk (tcp_quote_bytes b) (len (s_syn_quote s)));
  modify (set_sessions (delete key (sessions b))) ;;
  modify (set_quote_bytes q) ;;
  (if bool_decide (s_tcp s = Some V4Init) && negb (len (s_syn_quote s) =? 0) && (len (tcp_timeouts b) <? 32)
   then modify (set_timeouts (tcp_timeouts b ++ [s_syn_quote s])) else mret tt) ;;
  bd ← lift (unwrap (bindings b !! key.1));
  n ← lift (sub_chk (b_sessions bd) 1);
  modify (set_bindings (<[key.1 := mkBinding (b_lease bd) (b_port bd) n]> (bindings b))) ;;
  host ← lift (unwrap (hosts b !! k_host key.1));
  h1 ← lift (sub_chk host.2 1);
  '(h0, out) ←
    (if n =? 0 then
       modify (set_bindings (delete key.1 (bindings b))) ;;
       drop_binding bd ;;
       modify (set_reverse (delete (k_protocol key.1, b_port bd) (reverse b))) ;;
       h0 ← lift (sub_chk host.1 1);
       mret (h0, released ++ [(k_protocol key.1, b_port bd)])
     else mret (host.1, released));
  modify (set_hosts (if h0 =? 0 then delete (k_host key.1) (hosts b)
                     else <[k_host key.1 := (h0, h1)]> (hosts b))) ;;
  mret out.
Fixpoint remove_sessions (old : list SessionKey) (released : list (Z * Z)) : MB (list (Z * Z)) :=
  match old with
  | [] => mret released
  | key :: old => released ← remove_session key released; remove_sessions old released
  end.
Definition set_min_next : MB unit := b ← get; modify (set_next (mmin s_expires (sessions b))).
Definition expire (now : Z) : MB (list (Z * Z)) :=
  b ← get;
  if match next b with None => true | Some t => now <? t end then mret [] else
  modify (set_sessions (demote now <$> sessions b)) ;;
  b ← get;
  let old := session_keys (filter (fun ks => s_expires ks.2 <= now) (sessions b)) in
  released ← remove_sessions old [];
  set_min_next ;;
  mret released.

(** Dropping all the bindings of a list. *)
Definition drop_all (bds : list (Key * Binding)) : MB unit := for_each bds (fun kb => drop_binding kb.2).
Definition clear : MB (list (Z * Z)) :=
  b ← get;
  let released := port_keys (reverse b) in
  modify (set_bindings ∅) ;;
  drop_all (map_to_list (bindings b)) ;;
  modify (set_reverse ∅) ;;
  modify (set_sessions ∅) ;;
  modify (set_hosts ∅) ;;
  modify (set_next None) ;;
  modify (set_timeouts []) ;;
  modify (set_quote_bytes 0) ;;
  mret released.
(** The host counters rebuilt from the tables. *)
Definition count_binding (k : Key) (_ : Binding) (m : gmap Z (Z * Z)) : gmap Z (Z * Z) :=
  let '(x, y) := default (0, 0) (m !! k_host k) in <[k_host k := (x + 1, y)]> m.
Definition count_session (sk : SessionKey) (_ : Session) (m : gmap Z (Z * Z)) : gmap Z (Z * Z) :=
  let '(x, y) := default (0, 0) (m !! k_host sk.1) in <[k_host sk.1 := (x, y + 1)]> m.
Definition retain_domains (domains : list Prefix) : MB unit :=
  b ← get;
  let keep (k : Key) := existsb (fun p => p_address p =? k_domain k) domains in
  modify (set_sessions (filter (fun ks => keep ks.1.1 = true) (sessions b))) ;;
  modify (set_bindings (filter (fun kb => keep kb.1 = true) (bindings b))) ;;
  drop_all (map_to_list (filter (fun kb => keep kb.1 = false) (bindings b))) ;;
  modify (set_reverse (filter (fun pk => keep pk.2 = true) (reverse b))) ;;
  b ← get;
  modify (set_hosts (map_fold count_session (map_fold count_binding ∅ (bindings b)) (sessions b))) ;;
  modify (set_quote_bytes (msum (fun _ s => len (s_syn_quote s)) (sessions b))) ;;
  set_min_next.

(** ** Admission *)

Definition CAP : Z := 4 * 1024 * 1024.
Definition admit_bytes (b : Bindings) (key : Key) (remote : Remote) : Z :=
  of_bool (negb (has_key (bindings b) key)) * 288
  + of_bool (negb (has_key (hosts b) (k_host key))) * 128
  + of_bool (negb (has_key (sessions b) (key, remote))) * 256.
Definition admit_session (key : Key) (remote : Remote) : MB unit :=
  b ← get;
  let '(bs, ss) := default (0, 0) (hosts b !! k_host key) in
  if (CAP <? charged_bytes b + admit_bytes b key remote)
     || negb (has_key (bindings b) key) && ((4096 <=? slen (bindings b)) || (128 <=? bs))
     || negb (has_key (sessions b) (key, remote)) && ((8192 <=? slen (sessions b)) || (256 <=? ss))
  then throw WouldBlock else mret tt.

(** A new session is charged to its binding and host. *)
Definition charge_session (key : Key) : MB unit :=
  b ← get;
  bd ← lift (unwrap (bindings b !! key));
  modify (set_bindings (<[key := mkBinding (b_lease bd) (b_port bd) (b_sessions bd + 1)]> (bindings b))) ;;
  host ← lift (unwrap (hosts b !! k_host key));
  modify (set_hosts (<[k_host key := (host.1, host.2 + 1)]> (hosts b))).
Definition renew_next (expires : Z) : MB unit :=
  modify (fun b => set_next (Some (match next b with None => expires | Some old => Z.min old expires end)) b).
(** [self.sessions.insert(..).is_none()] and what follows, for UDP and ICMP queries. *)
Definition query_session (key : Key) (remote : Remote) (expires : Z) : MB unit :=
  b ← get;
  modify (set_sessions (<[(key, remote) := mkSession expires None false []]> (sessions b))) ;;
  (if has_key (sessions b) (key, remote) then mret tt else charge_session key) ;;
  renew_next expires.
Definition udp_session (key : Key) (remote : Remote) (now : Z) : MB unit :=
  b ← get; query_session key remote (sat64 now (udp_seconds b * 1000)).
Definition icmp_session (key : Key) (remote now : Z) : MB unit :=
  b ← get; query_session key (mkRemote remote 0) (sat64 now (icmp_seconds b * 1000)).
Definition tcp_session (key : Key) (remote : Remote) (v6 : bool) (flags now : Z) : MB unit :=
  b ← get;
  expires ←
    match sessions b !! (key, remote) with
    | Some s =>
        t ← lift (unwrap (s_tcp s));
        let '(state, expires) := packet t v6 flags (s_expires s) now in
        quote ← (if decide (state = V4Init) then mret (s_syn_quote s)
                 else
                   q ← lift (sub_chk (tcp_quote_bytes b) (len (s_syn_quote s)));
                   modify (set_quote_bytes q) ;;
                   mret []);
        modify (set_sessions (<[(key, remote) := mkSession expires (Some state) false quote]> (sessions b))) ;;
        mret expires
    | None =>
        let expires := sat64 now TRANSITORY in
        modify (set_sessions (<[(key, remote) :=
          mkSession expires (Some (if v6 then V6Init else V4Init)) false []]> (sessions b))) ;;
        charge_session key ;;
        mret expires
    end;
  renew_next expires.

(** ** Port allocation *)

Section allocation.
Context {R : Type} `{Sampler R}.
Abbreviation MR := (M (Bindings * R) io_error).

Definition self : MR Bindings := gets fst.
Definition bib {A} (m : MB A) : MR A := on_fst m.
Definition draw (max : Z) : MR Z := on_snd (sample max).

Definition free (b : Bindings) (protocol : Z) (occ : Z -> bool) (p : Z) : bool :=
  negb (has_key (reverse b) (protocol, p)) && negb (occupied (ports b) protocol p) && negb (occ p).
Definition band_first (high : bool) (parity : Z) : Z :=
  if high then 1024 + parity else if parity =? 0 then 2 else 1.
Definition band_count (high : bool) (parity : Z) : Z :=
  if high then 32256 else if parity =? 0 then 511 else 512.
(** [for n in 0..count.min(8192)] *)
Fixpoint scan (rounds : nat) (n first count start : Z) (test : Z -> bool) : option Z :=
  match rounds with
  | O => None
  | S rounds =>
      let candidate := first + (start + n) mod count * 2 in
      if test candidate then Some candidate else scan rounds (n + 1) first count start test
  end.
(** The four bands in the order of preference: the port's own range and parity first. *)
Definition bands (port : Z) : list (bool * Z) :=
  let high := 1024 <=? port in
  let parity := port mod 2 in
  [(high, parity); (high, 1 - parity); (negb high, parity); (negb high, 1 - parity)].
Fixpoint try_bands (bs : list (bool * Z)) (test : Z -> bool) : MR Z :=
  match bs with
  | [] => throw WouldBlock
  | (high, parity) :: bs =>
      let count := band_count high parity in
      start ← draw (count - 1);
      match scan (Z.to_nat (Z.min count 8192)) 0 (band_first high parity) count start test with
      | Some candidate => mret candidate
      | None => try_bands bs test
      end
  end.
Definition allocate (protocol port : Z) (occ : Z -> bool) : MR Z :=
  b ← self;
  if (negb (port =? 0) || (protocol =? 1)) && free b protocol occ port then mret port
  else try_bands (bands port) (free b protocol occ).

(** The port of the binding, made with a fresh lease if there is none. *)
Definition assign (key : Key) (occ : Z -> bool) : MR Z :=
  b ← self;
  match bindings b !! key with
  | Some bd => mret (b_port bd)
  | None =>
      allocated ← allocate (k_protocol key) (k_port key) occ;
      '(lease, p) ← lift (claim (k_protocol key) allocated Translation (ports b));
      bib (modify (set_ports p)) ;;
      bib (modify (set_bindings (<[key := mkBinding lease allocated 0]> (bindings b)))) ;;
      bib (modify (set_reverse (<[(k_protocol key, allocated) := key]> (reverse b)))) ;;
      let '(x, y) := default (0, 0) (hosts b !! k_host key) in
      bib (modify (set_hosts (<[k_host key := (x + 1, y)]> (hosts b)))) ;;
      mret allocated
  end.

(** ** Outbound packets *)

Definition udp_out (source port : Z) (remote : Remote) (now : Z) (occ : Z -> bool) : MR Z :=
  bib (expire now) ;;
  b ← self;
  let key := mkKey 17 source port (domain b) in
  bib (admit_session key remote) ;;
  assigned ← assign key occ;
  bib (udp_session key remote now) ;;
  mret assigned.
Definition icmp_out (source id remote now : Z) : MR Z :=
  bib (expire now) ;;
  b ← self;
  let key := mkKey 1 source id (domain b) in
  bib (admit_session key (mkRemote remote 0)) ;;
  assigned ← assign key (fun _ => false);
  bib (icmp_session key remote now) ;;
  mret assigned.
Definition tcp_out (source port : Z) (remote : Remote) (flags now : Z) : MR (option Z) :=
  bib (expire now) ;;
  b ← self;
  let key := mkKey 6 source port (domain b) in
  if negb (has_key (sessions b) (key, remote)) && (Z.land flags 2 =? 0) then mret None else
  bib (admit_session key remote) ;;
  assigned ← assign key (fun _ => false);
  bib (tcp_session key remote true flags now) ;;
  mret (Some assigned).
End allocation.

(** ** Inbound packets *)

(** [self.sessions.range(low..=high).next()] for the endpoints of one address. *)
Definition known_address (b : Bindings) (key : Key) (ip : Z) : bool :=
  existsb (fun ks => bool_decide (ks.1.1 = key) && (r_ip ks.1.2 =? ip)) (map_to_list (sessions b)).
Definition udp_in (port : Z) (remote : Remote) (now : Z) : MB (option (Z * Z)) :=
  expire now ;;
  b ← get;
  match reverse b !! (17, port) with
  | None => mret None
  | Some key =>
      if bool_decide (udp_filtering b = AddressDependent) && negb (known_address b key (r_ip remote))
      then mret None else
      admit_session key remote ;;
      udp_session key remote now ;;
      modify (set_domain (k_domain key)) ;;
      mret (Some (k_host key, k_port key))
  end.
Definition icmp_in (id remote now : Z) : MB (option (Z * Z)) :=
  expire now ;;
  b ← get;
  match reverse b !! (1, id) with
  | None => mret None
  | Some key =>
      if negb (has_key (sessions b) (key, mkRemote remote 0)) then mret None else
      icmp_session key remote now ;;
      modify (set_domain (k_domain key)) ;;
      mret (Some (k_host key, k_port key))
  end.
Definition tcp_in (port : Z) (remote : Remote) (flags now : Z) : MB (option (Z * Z)) :=
  expire now ;;
  b ← get;
  match reverse b !! (6, port) with
  | None => mret None
  | Some key =>
      if negb (has_key (sessions b) (key, remote)) && (Z.land flags 2 =? 0) then mret None else
      admit_session key remote ;;
      tcp_session key remote false flags now ;;
      modify (set_domain (k_domain key)) ;;
      mret (Some (k_host key, k_port key))
  end.

(** ** SYN quotes, probes and timeouts *)

(** [(usize::from(packet[0] & 15) * 4 + 8).min(packet.len()).min(68)] *)
Definition quote_len (p : bytes) : outcome io_error Z :=
  p0 ← p.[0]; Ok (Z.min (Z.min (Z.land p0 15 * 4 + 8) (len p)) 68).
Definition remember_tcp_syn (port : Z) (remote : Remote) (p : bytes) : MB unit :=
  b ← get;
  match reverse b !! (6, port) with
  | None => mret tt
  | Some key =>
      match sessions b !! (key, remote) with
      | None => mret tt
      | Some s =>
          if bool_decide (s_tcp s = Some V4Init) && (len (s_syn_quote s) =? 0) then
            n ← lift (quote_len p);
            quote ← lift (slice p 0 n);
            modify (set_sessions (<[(key, remote) :=
              mkSession (s_expires s) (s_tcp s) (s_probe s) quote]> (sessions b))) ;;
            modify (set_quote_bytes (tcp_quote_bytes b + len quote))
          else mret tt
      end
  end.
Definition needs_quote (flags : Z) (session : option Session) : bool :=
  negb (Z.land flags 2 =? 0)
  && match session with
     | None => true
     | Some s => bool_decide (s_tcp s = Some V4Init) && (len (s_syn_quote s) =? 0)
     end.
Definition tcp_in_packet (port : Z) (remote : Remote) (flags now : Z) (p : bytes) : MB (option (Z * Z)) :=
  expire now ;;
  b ← get;
  match reverse b !! (6, port) with
  | None => mret None
  | Some key =>
      let session := sessions b !! (key, remote) in
      let needs := needs_quote flags session in
      (if needs then
         quote ← lift (quote_len p);
         let added := quote + of_bool (negb (bool_decide (is_Some session))) * 256 in
         if CAP <? charged_bytes b + added then throw WouldBlock else mret tt
       else mret tt) ;;
      result ← tcp_in port remote flags now;
      (if needs && bool_decide (is_Some result) then remember_tcp_syn port remote p else mret tt) ;;
      mret result
  end.
Definition take_tcp_timeouts (limit : Z) : MB (list bytes) :=
  b ← get;
  let n := Z.to_nat (Z.min (Z.min limit 32) (len (tcp_timeouts b))) in
  modify (set_timeouts (drop n (tcp_timeouts b))) ;;
  mret (take n (tcp_timeouts b)).
(** [for ((key, remote), s) in &mut self.sessions] *)
Fixpoint probe_loop (keys : list SessionKey) (limit : Z) (out : list (Z * Z * Z * Remote))
  : MB (list (Z * Z * Z * Remote)) :=
  match keys with
  | [] => mret out
  | key :: keys =>
      if Z.min limit 32 <=? len out then mret out else
      b ← get;
      s ← lift (unwrap (sessions b !! key));
      if s_probe s then
        modify (set_sessions (<[key := mkSession (s_expires s) (s_tcp s) false (s_syn_quote s)]> (sessions b))) ;;
        bd ← lift (unwrap (bindings b !! key.1));
        probe_loop keys limit (out ++ [(k_host key.1, k_port key.1, b_port bd, key.2)])
      else probe_loop keys limit out
  end.
Definition take_tcp_probes (limit : Z) : MB (list (Z * Z * Z * Remote)) :=
  b ← get; probe_loop (session_keys (sessions b)) limit [].
