(* ===== verification/BindingsInv.v ===== *)
(** The invariant of the translator's tables, and that removing sessions keeps it. *)

From S2P Require Import Prelude Effects Time Maps Ports TcpState Wire Bindings.

(** ** Counting *)

Definition of_key (k : Key) (sk : SessionKey) (_ : Session) : bool := bool_decide (sk.1 = k).
Definition binding_of_host (h : Z) (k : Key) (_ : Binding) : bool := k_host k =? h.
Definition session_of_host (h : Z) (sk : SessionKey) (_ : Session) : bool := k_host sk.1 =? h.
Definition quote_total (m : gmap SessionKey Session) : Z := msum (fun _ s => len (s_syn_quote s)) m.
Definition host_entry (bs : gmap Key Binding) (ss : gmap SessionKey Session) (h : Z) : option (Z * Z) :=
  let n := mcount (binding_of_host h) bs in
  if n =? 0 then None else Some (n, mcount (session_of_host h) ss).

(** A quote kept for an ICMP error: an IPv4 header and eight bytes at most. *)
Definition quote_wf (q : bytes) : Prop := is_bytes q /\ len q <= 68.
Lemma quote_wf_nil : quote_wf [].
Proof. split; [constructor|done]. Qed.
Definition session_wf (k : Key) (s : Session) : Prop :=
  is_u64 (s_expires s) /\ (is_Some (s_tcp s) <-> k_protocol k = 6) /\ quote_wf (s_syn_quote s) /\
  (s_syn_quote s <> [] -> s_tcp s = Some V4Init) /\ (s_probe s = true -> s_tcp s = Some Transitory).

(** ** The invariant

    The tables agree with each other: [reverse] inverts [bindings], the counters kept per
    binding and per host are the numbers of entries they stand for, [next] is no later than
    any expiry, every binding owns its port in the registry.  A binding has a session,
    except the one being set up, [pend]. *)
Record bib_wf (pend : option Key) (b : Bindings) : Prop := {
  bi_ports : ports_wf (ports b);
  bi_lease : forall k bd, bindings b !! k = Some bd ->
    h_key (b_lease bd) = (k_protocol k, b_port bd) /\ holds (ports b) (b_lease bd) Translation;
  bi_reverse : forall k bd, bindings b !! k = Some bd -> reverse b !! (k_protocol k, b_port bd) = Some k;
  bi_bindings : forall pp k, reverse b !! pp = Some k ->
    exists bd, bindings b !! k = Some bd /\ pp = (k_protocol k, b_port bd);
  bi_size : slen (reverse b) = slen (bindings b);
  bi_count : forall k bd, bindings b !! k = Some bd ->
    b_sessions bd = mcount (of_key k) (sessions b) /\ (0 < b_sessions bd \/ pend = Some k);
  bi_sessions : forall sk s, sessions b !! sk = Some s -> is_Some (bindings b !! sk.1) /\ session_wf sk.1 s;
  bi_hosts : forall h, hosts b !! h = host_entry (bindings b) (sessions b) h;
  bi_next : forall sk s, sessions b !! sk = Some s -> exists t, next b = Some t /\ t <= s_expires s;
  bi_quotes : tcp_quote_bytes b = quote_total (sessions b);
  bi_timeouts : len (tcp_timeouts b) <= 32 /\ Forall quote_wf (tcp_timeouts b);
  bi_config : 120 <= udp_seconds b <= 86400 /\ 60 <= icmp_seconds b <= 86400;
}.
(** The limits the program promises. *)
Record bib_caps (b : Bindings) : Prop := {
  bc_bindings : slen (bindings b) <= 4096;
  bc_sessions : slen (sessions b) <= 8192;
  bc_hosts : forall h n m, hosts b !! h = Some (n, m) -> n <= 128 /\ m <= 256;
  bc_bytes : charged_bytes b <= CAP;
}.
Definition bib_inv (b : Bindings) : Prop := bib_wf None b /\ bib_caps b.

Lemma with_ports_inv p : ports_wf p -> bib_inv (with_ports p).
Proof.
  intros Hp. split; split; try done; try (by intros ? ? ?%lookup_empty_Some); try u_lia.
Qed.

Section wf_facts.
Context (pend : option Key) (b : Bindings) (Hwf : bib_wf pend b).

Lemma quote_nonneg : 0 <= tcp_quote_bytes b.
Proof. rewrite (bi_quotes _ _ Hwf). apply msum_nonneg. intros k v _. apply len_nonneg. Qed.
Lemma binding_of_session sk s : sessions b !! sk = Some s ->
  exists bd, bindings b !! sk.1 = Some bd /\ 1 <= b_sessions bd.
Proof.
  intros Hs. destruct (bi_sessions _ _ Hwf sk s Hs) as [[bd Hbd] _]. exists bd. split; [done|].
  destruct (bi_count _ _ Hwf _ _ Hbd) as [-> _]. apply (mcount_pos _ _ sk s); [done|].
  unfold of_key. by rewrite bool_decide_true.
Qed.
Lemma host_of_binding k bd : bindings b !! k = Some bd ->
  exists m, hosts b !! k_host k = Some (mcount (binding_of_host (k_host k)) (bindings b), m) /\
    m = mcount (session_of_host (k_host k)) (sessions b) /\ 1 <= mcount (binding_of_host (k_host k)) (bindings b).
Proof.
  intros Hbd. rewrite (bi_hosts _ _ Hwf). unfold host_entry.
  assert (1 <= mcount (binding_of_host (k_host k)) (bindings b)).
  { apply (mcount_pos _ _ k bd); [done|]. unfold binding_of_host. apply Z.eqb_refl. }
  destruct (Z.eqb_spec (mcount (binding_of_host (k_host k)) (bindings b)) 0); [lia|]. by eexists.
Qed.
(** Two bindings never share a port. *)
Lemma port_unique k1 k2 bd1 bd2 : bindings b !! k1 = Some bd1 -> bindings b !! k2 = Some bd2 ->
  k_protocol k1 = k_protocol k2 -> b_port bd1 = b_port bd2 -> k1 = k2.
Proof.
  intros H1 H2 Hp Hport. apply (bi_reverse _ _ Hwf) in H1, H2. rewrite Hp, Hport in H1. congruence.
Qed.
End wf_facts.

(** ** Removing a session *)

Lemma host_update (hs : gmap Z (Z * Z)) bs ss bs' ss' host h0 h1 :
  (forall h, hs !! h = host_entry bs ss h) ->
  h0 = mcount (binding_of_host host) bs' -> h1 = mcount (session_of_host host) ss' ->
  (forall h, h <> host -> mcount (binding_of_host h) bs' = mcount (binding_of_host h) bs /\
     mcount (session_of_host h) ss' = mcount (session_of_host h) ss) ->
  forall h, (if h0 =? 0 then delete host hs else <[host := (h0, h1)]> hs) !! h = host_entry bs' ss' h.
Proof.
  intros Hhs -> -> Ho h. unfold host_entry in *. destruct (decide (h = host)) as [->|Hne].
  - destruct (Z.eqb_spec (mcount (binding_of_host host) bs') 0); [apply lookup_delete_eq | apply lookup_insert_eq].
  - destruct (Ho h Hne) as [-> ->]. destruct (_ =? 0) at 1;
      [rewrite lookup_delete_ne by done | rewrite lookup_insert_ne by done]; apply Hhs.
Qed.
Lemma of_host_ne h k (bd : Binding) : h <> k_host k -> binding_of_host h k bd = false.
Proof. intros. unfold binding_of_host. lia. Qed.
Lemma session_of_host_ne h (sk : SessionKey) (s : Session) : h <> k_host sk.1 -> session_of_host h sk s = false.
Proof. intros. unfold session_of_host. lia. Qed.

(** What removing sessions leaves as it was, and what it can only lower. *)
Record shrinks (b b' : Bindings) : Prop := {
  sh_domain : domain b' = domain b;
  sh_config : udp_filtering b' = udp_filtering b /\ udp_seconds b' = udp_seconds b /\ icmp_seconds b' = icmp_seconds b;
  sh_bindings : forall k bd', bindings b' !! k = Some bd' ->
    exists bd, bindings b !! k = Some bd /\ b_port bd' = b_port bd;
  sh_reverse : forall pp k, reverse b' !! pp = Some k -> reverse b !! pp = Some k;
  sh_sizes : slen (bindings b') <= slen (bindings b) /\ slen (sessions b') <= slen (sessions b);
  sh_hosts : forall h n m, hosts b' !! h = Some (n, m) -> exists n0 m0, hosts b !! h = Some (n0, m0) /\ n <= n0 /\ m <= m0;
  sh_bytes : charged_bytes b' <= charged_bytes b;
  sh_ports : forall k v, entries (ports b') !! k = Some v -> entries (ports b) !! k = Some v;
}.
#[global] Instance shrinks_refl : Reflexive shrinks.
Proof. intros b. split; try done; try lia; naive_solver lia. Qed.
#[global] Instance shrinks_trans : Transitive shrinks.
Proof.
  intros x y z [A1 (A2 & A3 & A4) A5 A6 A7 A8 A9 A10] [B1 (B2 & B3 & B4) B5 B6 B7 B8 B9 B10].
  split; [congruence | split_and!; congruence | | auto | lia | | lia | auto].
  - intros k bd'' H. apply B5 in H as (bd' & H & ->). by apply A5.
  - intros h n m H. apply B8 in H as (n1 & m1 & H & ? & ?). apply A8 in H as (n0 & m0 & H & ? & ?).
    exists n0, m0. split; [done|]. lia.
Qed.
Lemma shrinks_caps b b' : bib_caps b -> shrinks b b' -> bib_caps b'.
Proof.
  intros [C1 C2 C3 C4] [_ _ _ _ S1 S2 S3 _]. split; [lia|lia| |lia].
  intros h n m (n0 & m0 & Hh & ? & ?)%S2. specialize (C3 h n0 m0 Hh). lia.
Qed.

Section remove.
Context (b : Bindings) (Hwf : bib_wf None b).
Context (key : SessionKey) (s : Session) (Hs : sessions b !! key = Some s).
Context (bd : Binding) (Hbd : bindings b !! key.1 = Some bd).

Definition timeouts_after : list bytes :=
  if bool_decide (s_tcp s = Some V4Init) && negb (len (s_syn_quote s) =? 0) && (len (tcp_timeouts b) <? 32)
  then tcp_timeouts b ++ [s_syn_quote s] else tcp_timeouts b.
Lemma timeouts_after_ok : len timeouts_after <= 32 /\ Forall quote_wf timeouts_after /\
  len timeouts_after <= len (tcp_timeouts b) + 1.
Proof.
  destruct (bi_timeouts _ _ Hwf) as [T1 T2]. unfold timeouts_after.
  destruct (_ && _) eqn:Hc; [|split_and!; [done|done|lia]].
  rewrite len_app, len_cons, len_nil. split_and!; [lia| |lia]. apply Forall_app. split; [done|].
  constructor; [|constructor]. destruct (bi_sessions _ _ Hwf _ _ Hs) as [_ (_ & _ & Hq & _)]. done.
Qed.
(** The state when the binding keeps other sessions. *)
Definition kept (h0 h1 : Z) : Bindings :=
  mkBindings (domain b) (ports b) (<[key.1 := mkBinding (b_lease bd) (b_port bd) (b_sessions bd - 1)]> (bindings b))
    (reverse b) (delete key (sessions b))
    (if h0 =? 0 then delete (k_host key.1) (hosts b) else <[k_host key.1 := (h0, h1)]> (hosts b))
    (next b) (udp_filtering b) (udp_seconds b) (icmp_seconds b) timeouts_after
    (tcp_quote_bytes b - len (s_syn_quote s)).
(** The state when it was the binding's last. *)
Definition dropped (p : Ports.State) (h0 h1 : Z) : Bindings :=
  mkBindings (domain b) p (delete key.1 (bindings b))
    (delete (k_protocol key.1, b_port bd) (reverse b)) (delete key (sessions b))
    (if h0 =? 0 then delete (k_host key.1) (hosts b) else <[k_host key.1 := (h0, h1)]> (hosts b))
    (next b) (udp_filtering b) (udp_seconds b) (icmp_seconds b) timeouts_after
    (tcp_quote_bytes b - len (s_syn_quote s)).

Lemma session_counts : 
  mcount (of_key key.1) (delete key (sessions b)) = b_sessions bd - 1 /\
  (forall k, k <> key.1 -> mcount (of_key k) (delete key (sessions b)) = mcount (of_key k) (sessions b)) /\
  mcount (session_of_host (k_host key.1)) (delete key (sessions b)) =
    mcount (session_of_host (k_host key.1)) (sessions b) - 1 /\
  (forall h, h <> k_host key.1 -> mcount (session_of_host h) (delete key (sessions b)) = mcount (session_of_host h) (sessions b)) /\
  quote_total (delete key (sessions b)) = tcp_quote_bytes b - len (s_syn_quote s).
Proof.
  destruct (bi_count _ _ Hwf _ _ Hbd) as [Hc _]. split_and!.
  - rewrite (mcount_delete _ _ _ _ Hs), <-Hc. unfold of_key. rewrite bool_decide_true by done. cbn; lia.
  - intros k Hk. rewrite (mcount_delete _ _ _ _ Hs). unfold of_key at 2. rewrite bool_decide_false by congruence. cbn; lia.
  - rewrite (mcount_delete _ _ _ _ Hs). unfold session_of_host at 2. rewrite Z.eqb_refl. cbn; lia.
  - intros h Hh. rewrite (mcount_delete _ _ _ _ Hs), session_of_host_ne by done. cbn; lia.
  - rewrite (bi_quotes _ _ Hwf). unfold quote_total. rewrite (msum_delete (fun _ s => len (s_syn_quote s)) _ _ _ Hs). lia.
Qed.
Lemma kept_wf h0 h1 :
  1 < b_sessions bd ->
  h0 = mcount (binding_of_host (k_host key.1)) (bindings b) ->
  h1 = mcount (session_of_host (k_host key.1)) (sessions b) - 1 ->
  bib_wf None (kept h0 h1).
Proof.
  intros Hn -> ->. pose proof Hwf as [W1 W2 W3 W4 W5 W6 W7 W8 W9 W10 W11 W12].
  destruct session_counts as (S1 & S2 & S3 & S4 & S5). destruct timeouts_after_ok as (T1 & T2 & _).
  split; cbn [kept ports bindings reverse sessions hosts next tcp_quote_bytes tcp_timeouts udp_seconds icmp_seconds]; try done.
  - intros k bd' [[<- <-]|[_ Hk]]%lookup_insert_Some; [exact (W2 _ _ Hbd)|by apply W2].
  - intros k bd' [[<- <-]|[_ Hk]]%lookup_insert_Some; [exact (W3 _ _ Hbd)|by apply W3].
  - intros pp k Hk. destruct (W4 pp k Hk) as (bd0 & Hbd0 & ->). destruct (decide (k = key.1)) as [->|Hne].
    + rewrite lookup_insert_eq. eexists. split; [done|]. cbn. congruence.
    + rewrite lookup_insert_ne by done. by exists bd0.
  - by rewrite slen_update.
  - intros k bd' [[<- <-]|[Hne Hk]]%lookup_insert_Some.
    + cbn [b_sessions]. split; [by rewrite S1|left; lia].
    + rewrite S2 by done. by apply W6.
  - intros sk s' [_ Hk]%lookup_delete_Some. destruct (W7 _ _ Hk) as [[bd0 Hb0] ?]. split; [|done].
    destruct (decide (sk.1 = key.1)) as [->|Hne]; [rewrite lookup_insert_eq; by eexists|].
    rewrite lookup_insert_ne by done. by eexists.
  - apply (host_update _ (bindings b) (sessions b)); [done| |by rewrite S3|].
    + symmetry. apply (mcount_update _ _ _ _ _ Hbd). done.
    + intros h Hh. rewrite S4 by done. split; [|done]. apply (mcount_update _ _ _ _ _ Hbd). done.
  - intros sk s' [_ Hk]%lookup_delete_Some. by eapply W9.
Qed.
Lemma dropped_wf p h0 h1 :
  b_sessions bd = 1 -> ports_wf p -> entries p = delete (k_protocol key.1, b_port bd) (entries (ports b)) ->
  h0 = mcount (binding_of_host (k_host key.1)) (bindings b) - 1 ->
  h1 = mcount (session_of_host (k_host key.1)) (sessions b) - 1 ->
  bib_wf None (dropped p h0 h1).
Proof.
  intros Hn Hp He -> ->. pose proof Hwf as [W1 W2 W3 W4 W5 W6 W7 W8 W9 W10 W11 W12].
  destruct session_counts as (S1 & S2 & S3 & S4 & S5). destruct timeouts_after_ok as (T1 & T2 & _).
  assert (forall k bd', key.1 <> k -> bindings b !! k = Some bd' -> (k_protocol key.1, b_port bd) <> (k_protocol k, b_port bd')) as Hne.
  { intros k bd' Hk Hb [= E1 E2]. apply Hk. by eapply (port_unique None b Hwf). }
  split; cbn [dropped ports bindings reverse sessions hosts next tcp_quote_bytes tcp_timeouts udp_seconds icmp_seconds]; try done.
  - intros k bd' [Hk Hb]%lookup_delete_Some. destruct (W2 _ _ Hb) as [E1 E2]. split; [done|].
    unfold holds in *. rewrite He, E1 in *. rewrite lookup_delete_ne by (by apply Hne). done.
  - intros k bd' [Hk Hb]%lookup_delete_Some. rewrite lookup_delete_ne by (by apply Hne). by apply W3.
  - intros pp k [Hpp Hk]%lookup_delete_Some. destruct (W4 pp k Hk) as (bd0 & Hb0 & ->). exists bd0.
    split; [|done]. rewrite lookup_delete_ne; [done|]. intros <-. congruence.
  - rewrite !slen_delete; [lia|by eexists|]. rewrite (W3 _ _ Hbd). by eexists.
  - intros k bd' [Hk Hb]%lookup_delete_Some. rewrite S2 by done. by apply W6.
  - intros sk s' Hk. destruct (decide (sk.1 = key.1)) as [E|Hk1].
    + pose proof (mcount_zero _ _ ltac:(rewrite S1, Hn; lia) sk s' Hk) as Hz. unfold of_key in Hz.
      rewrite bool_decide_true in Hz by done. done.
    + apply lookup_delete_Some in Hk as [_ Hk]. destruct (W7 _ _ Hk). split; [|done]. by rewrite lookup_delete_ne.
  - apply (host_update _ (bindings b) (sessions b)); [done| |by rewrite S3|].
    + rewrite (mcount_delete _ _ _ _ Hbd). unfold binding_of_host at 3. rewrite Z.eqb_refl. cbn; lia.
    + intros h Hh. rewrite S4 by done. split; [|done]. rewrite (mcount_delete _ _ _ _ Hbd), of_host_ne by done. cbn; lia.
  - intros sk s' [_ Hk]%lookup_delete_Some. by eapply W9.
Qed.

Lemma hosts_shrink (bs' : gmap Key Binding) (hs' : gmap Z (Z * Z)) :
  (forall h, hs' !! h = host_entry bs' (delete key (sessions b)) h) ->
  (forall h, mcount (binding_of_host h) bs' <= mcount (binding_of_host h) (bindings b)) ->
  forall h n m, hs' !! h = Some (n, m) -> exists n0 m0, hosts b !! h = Some (n0, m0) /\ n <= n0 /\ m <= m0.
Proof.
  intros Hhs Hb h n m Hh. rewrite Hhs in Hh. unfold host_entry in Hh. case_match; [done|]. injection Hh as <- <-.
  specialize (Hb h). pose proof (mcount_nonneg (binding_of_host h) bs').
  exists (mcount (binding_of_host h) (bindings b)), (mcount (session_of_host h) (sessions b)).
  rewrite (bi_hosts _ _ Hwf). unfold host_entry. destruct (Z.eqb_spec (mcount (binding_of_host h) (bindings b)) 0); [lia|].
  split_and!; [done|done|]. rewrite (mcount_delete _ _ _ _ Hs). destruct (session_of_host h key s); cbn; lia.
Qed.
Lemma slen_hosts_after (hs : gmap Z (Z * Z)) host h0 h1 : is_Some (hs !! host) ->
  slen (if h0 =? 0 then delete host hs else <[host := (h0, h1)]> hs) <= slen hs.
Proof. intros Hh. destruct (h0 =? 0); [rewrite slen_delete by done; lia|by rewrite slen_update]. Qed.
Lemma kept_shrinks h0 h1 :
  bib_wf None (kept h0 h1) -> is_Some (hosts b !! k_host key.1) -> shrinks b (kept h0 h1).
Proof.
  intros Hw Hh. destruct (timeouts_after_ok) as (_ & _ & T). split; try done.
  - cbn [kept bindings]. intros k bd' [[<- <-]|[_ Hk]]%lookup_insert_Some; [by exists bd|by exists bd'].
  - cbn [kept bindings sessions]. rewrite slen_update by done. rewrite slen_delete by done. lia.
  - apply (hosts_shrink (bindings (kept h0 h1))); [apply (bi_hosts _ _ Hw)|].
    intros h. cbn [kept bindings]. rewrite (mcount_update _ _ _ _ _ Hbd); [lia|done].
  - unfold charged_bytes. cbn [kept bindings reverse sessions hosts tcp_timeouts tcp_quote_bytes].
    rewrite slen_update, slen_delete by done. pose proof (slen_hosts_after (hosts b) (k_host key.1) h0 h1 Hh).
    pose proof (len_nonneg (s_syn_quote s)). lia.
Qed.
Lemma dropped_shrinks p h0 h1 :
  bib_wf None (dropped p h0 h1) -> is_Some (hosts b !! k_host key.1) ->
  entries p = delete (k_protocol key.1, b_port bd) (entries (ports b)) -> shrinks b (dropped p h0 h1).
Proof.
  intros Hw Hh He. destruct (timeouts_after_ok) as (_ & _ & T). split; try done.
  - cbn [dropped bindings]. intros k bd' [_ Hk]%lookup_delete_Some. by exists bd'.
  - cbn [dropped reverse]. by intros pp k [_ Hk]%lookup_delete_Some.
  - cbn [dropped bindings sessions]. rewrite !slen_delete by done. lia.
  - apply (hosts_shrink (bindings (dropped p h0 h1))); [apply (bi_hosts _ _ Hw)|].
    intros h. cbn [dropped bindings]. rewrite (mcount_delete _ _ _ _ Hbd). destruct (binding_of_host h key.1 bd); cbn; lia.
  - unfold charged_bytes. cbn [dropped bindings reverse sessions hosts tcp_timeouts tcp_quote_bytes].
    rewrite !slen_delete; [|done|rewrite (bi_reverse _ _ Hwf _ _ Hbd); by eexists|done].
    pose proof (slen_hosts_after (hosts b) (k_host key.1) h0 h1 Hh). pose proof (len_nonneg (s_syn_quote s)). lia.
  - cbn [dropped ports]. rewrite He. by intros k v [_ ?]%lookup_delete_Some.
Qed.
End remove.

Lemma sub_chk_1 {E} n : 1 <= n -> sub_chk (E:=E) n 1 = Ok (n - 1).
Proof. intros. by apply sub_chk_Ok. Qed.

Lemma remove_session_ok key s rel b :
  bib_wf None b -> sessions b !! key = Some s ->
  exists rel' b', remove_session key rel b = (Ok rel', b') /\ bib_wf None b' /\ shrinks b b' /\
    sessions b' = delete key (sessions b).
Proof.
  intros Hwf Hs. destruct (binding_of_session None b Hwf key s Hs) as (bd & Hbd & Hn).
  destruct (host_of_binding None b Hwf _ _ Hbd) as (hm & Hh & Hhm & Hh1).
  assert (1 <= hm).
  { rewrite Hhm. apply (mcount_pos _ _ key s); [done|]. unfold session_of_host. apply Z.eqb_refl. }
  assert (sub_chk (E:=io_error) (tcp_quote_bytes b) (len (s_syn_quote s)) = Ok (tcp_quote_bytes b - len (s_syn_quote s))) as Hq.
  { apply sub_chk_Ok. split; [done|]. rewrite (bi_quotes _ _ Hwf).
    apply (msum_pos (fun _ s => len (s_syn_quote s)) _ key s); [|done]. intros. apply len_nonneg. }
  set (h0 := mcount (binding_of_host (k_host key.1)) (bindings b)) in *.
  destruct (decide (b_sessions bd = 1)) as [H1|H1].
  - destruct (bi_lease _ _ Hwf _ _ Hbd) as [Hk Hold].
    destruct (drop_held_Ok (b_lease bd) (ports b) (bi_ports _ _ Hwf)) as (p & Hdrop & Hp & _ & He & _).
    specialize (He _ Hold). rewrite Hk in He.
    assert (bib_wf None (dropped b key s bd p (h0 - 1) (hm - 1))) as Hw by (apply dropped_wf; (done || by rewrite Hhm)).
    exists (rel ++ [(k_protocol key.1, b_port bd)]), (dropped b key s bd p (h0 - 1) (hm - 1)).
    split_and!; [|done|apply dropped_shrinks; [done..|by rewrite Hh|done]|done].
    cbv [remove_session drop_binding mbind M_bind get lift modify mret M_ret]. rewrite Hs. cbn [unwrap].
    rewrite Hq. cbv beta iota. unfold timeouts_after in *.
    set (T := dropped b key s bd p (h0 - 1) (hm - 1)).
    destruct (bool_decide (s_tcp s = Some V4Init) && negb (len (s_syn_quote s) =? 0) && (len (tcp_timeouts b) <? 32)) eqn:Hc;
      rewrite Hbd; cbn [unwrap]; rewrite (sub_chk_1 (b_sessions bd)) by lia; rewrite Hh; cbn [unwrap fst snd];
      rewrite (sub_chk_1 hm) by lia; rewrite H1; change (1 - 1 =? 0) with true; cbv beta iota;
      cbn [set_sessions set_quote_bytes set_timeouts set_bindings ports]; rewrite Hdrop, (sub_chk_1 h0) by lia;
      unfold T, dropped, timeouts_after; rewrite Hc; reflexivity.
  - assert (bib_wf None (kept b key s bd h0 (hm - 1))) as Hw by (apply kept_wf; (done || lia)).
    exists rel, (kept b key s bd h0 (hm - 1)). split_and!; [|done|apply kept_shrinks; (done || by rewrite Hh)|done].
    cbv [remove_session drop_binding mbind M_bind get lift modify mret M_ret]. rewrite Hs. cbn [unwrap].
    rewrite Hq. cbv beta iota.
    destruct (bool_decide (s_tcp s = Some V4Init) && negb (len (s_syn_quote s) =? 0) && (len (tcp_timeouts b) <? 32)) eqn:Hc;
      rewrite Hbd; cbn [unwrap]; rewrite (sub_chk_1 (b_sessions bd)) by lia; rewrite Hh; cbn [unwrap fst snd];
      rewrite (sub_chk_1 hm) by lia; (destruct (Z.eqb_spec (b_sessions bd - 1) 0); [lia|]);
      unfold kept, timeouts_after; rewrite Hc; reflexivity.
Qed.

(** ** Expiry *)

Lemma remove_sessions_ok old rel b :
  bib_wf None b -> NoDup old -> (forall sk, sk ∈ old -> is_Some (sessions b !! sk)) ->
  exists rel' b', remove_sessions old rel b = (Ok rel', b') /\ bib_wf None b' /\ shrinks b b' /\
    forall sk, sessions b' !! sk = if decide (sk ∈ old) then None else sessions b !! sk.
Proof.
  revert rel b. induction old as [|key old IH]; intros rel b Hwf Hnd Hin.
  - exists rel, b. split_and!; [done|done|done|]. intros sk. by rewrite decide_False by set_solver.
  - inversion_clear Hnd as [|? ? Hni Hnd']. destruct (Hin key) as [s Hs]; [set_solver|].
    destruct (remove_session_ok key s rel b Hwf Hs) as (rel1 & b1 & H1 & Hwf1 & Hsh1 & Hse1).
    destruct (IH rel1 b1 Hwf1 Hnd') as (rel2 & b2 & H2 & Hwf2 & Hsh2 & Hse2).
    { intros sk Hsk. rewrite Hse1, lookup_delete_ne by set_solver. apply Hin. set_solver. }
    exists rel2, b2. split_and!; [|done|by etrans|].
    + cbn [remove_sessions]. cbv [mbind M_bind]. by rewrite H1.
    + intros sk. rewrite Hse2, Hse1. destruct (decide (sk = key)) as [->|Hne].
      * rewrite lookup_delete_eq, (decide_True (P := key ∈ key :: old)) by set_solver. by case_decide.
      * rewrite lookup_delete_ne by done. destruct (decide (sk ∈ old)).
        -- by rewrite decide_True by set_solver.
        -- rewrite decide_False; [done|]. intros [?|?]%elem_of_cons; done.
Qed.

Lemma demote_wf now k s : session_wf k s -> session_wf k (demote now s).
Proof.
  intros (H1 & H2 & H3 & H4 & H5). unfold demote. case_match eqn:Hc; [|by split_and!].
  apply andb_true_iff in Hc as [_ Hc]. apply bool_decide_eq_true in Hc. unfold session_wf.
  cbn [s_expires s_tcp s_probe s_syn_quote].
  refine (conj _ (conj _ (conj H3 (conj _ (fun _ => eq_refl))))); [unfold TRANSITORY; u_lia| |].
  - rewrite <-H2, Hc. split; intros; by eexists.
  - intros Hq. apply H4 in Hq. congruence.
Qed.
Lemma demote_later now s : is_u64 (s_expires s) -> s_expires s <= s_expires (demote now s).
Proof. intros H. unfold demote. case_match; [|done]. cbn. unfold TRANSITORY. u_lia. Qed.
Lemma demote_live now s : now < s_expires s -> demote now s = s.
Proof. intros H. unfold demote. destruct (Z.leb_spec (s_expires s) now); [lia|done]. Qed.

Lemma demote_sessions_ok now b : bib_wf None b ->
  let b' := set_sessions (demote now <$> sessions b) b in bib_wf None b' /\ shrinks b b'.
Proof.
  intros Hwf b'. pose proof Hwf as [W1 W2 W3 W4 W5 W6 W7 W8 W9 W10 W11 W12].
  assert (forall h, mcount (session_of_host h) (demote now <$> sessions b) = mcount (session_of_host h) (sessions b)) as M1
    by (intros h; unfold mcount; by rewrite msum_fmap).
  assert (forall k, mcount (of_key k) (demote now <$> sessions b) = mcount (of_key k) (sessions b)) as M2
    by (intros h; unfold mcount; by rewrite msum_fmap).
  assert (quote_total (demote now <$> sessions b) = quote_total (sessions b)) as M3.
  { unfold quote_total. rewrite msum_fmap. apply msum_ext. intros k v _. unfold demote. by case_match. }
  assert (forall h, hosts b !! h = host_entry (bindings b) (demote now <$> sessions b) h) as M4
    by (intros h; rewrite W8; unfold host_entry; by rewrite M1).
  split.
  - split; cbn [b' set_sessions ports bindings reverse sessions hosts next tcp_quote_bytes tcp_timeouts udp_seconds icmp_seconds]; try done.
    + intros k bd Hk. rewrite M2. by apply W6.
    + intros sk s. rewrite lookup_fmap. destruct (sessions b !! sk) as [s0|] eqn:Hs; [|done].
      intros [= <-]. destruct (W7 _ _ Hs). split; [done|]. by apply demote_wf.
    + intros sk s. rewrite lookup_fmap. destruct (sessions b !! sk) as [s0|] eqn:Hs; [|done].
      intros [= <-]. destruct (W9 _ _ Hs) as (t & Ht & Hle). exists t. split; [done|].
      destruct (W7 _ _ Hs) as [_ [Hu _]]. pose proof (demote_later now s0 Hu). lia.
    + by rewrite M3.
  - split; try done.
    + intros k bd Hk. by exists bd.
    + cbn [b' set_sessions bindings sessions]. unfold slen. rewrite map_size_fmap. lia.
    + intros h n m Hh. exists n, m. split; [done|lia].
    + unfold charged_bytes, slen. cbn [b' set_sessions bindings reverse sessions hosts tcp_timeouts tcp_quote_bytes].
      rewrite map_size_fmap. lia.
Qed.
Lemma min_next_ok b : bib_wf None b ->
  let b' := set_next (mmin s_expires (sessions b)) b in bib_wf None b' /\ shrinks b b'.
Proof.
  intros Hwf b'. pose proof Hwf as [W1 W2 W3 W4 W5 W6 W7 W8 W9 W10 W11 W12]. split.
  - split; cbn [b' set_next ports bindings reverse sessions hosts next tcp_quote_bytes tcp_timeouts udp_seconds icmp_seconds]; try done.
    intros sk s Hs. pose proof (mmin_spec s_expires (sessions b)) as Hm. destruct (mmin s_expires (sessions b)) as [t|].
    + exists t. split; [done|]. by eapply Hm.
    + rewrite Hm in Hs. by rewrite lookup_empty in Hs.
  - split; try done; [intros k bd Hk; by exists bd | intros h n m Hh; exists n, m; split; [done|lia]].
Qed.

(** The sessions that outlive [now]. *)
Definition survivors (now : Z) (m : gmap SessionKey Session) : gmap SessionKey Session :=
  filter (fun ks => now < s_expires ks.2) (demote now <$> m).
Lemma survivors_id now m : (forall sk s, m !! sk = Some s -> now < s_expires s) -> survivors now m = m.
Proof.
  intros H. apply map_eq. intros sk. unfold survivors. destruct (m !! sk) as [s|] eqn:Hs.
  - apply map_lookup_filter_Some. rewrite lookup_fmap, Hs. cbn. rewrite demote_live by eauto. split; [done|]. cbn. eauto.
  - apply map_lookup_filter_None. left. by rewrite lookup_fmap, Hs.
Qed.
Lemma session_keys_spec m sk : sk ∈ session_keys m <-> is_Some (m !! sk).
Proof.
  unfold session_keys. rewrite merge_sort_Permutation, list_elem_of_fmap. split.
  - intros ([k v] & -> & Hk%elem_of_map_to_list). by eexists.
  - intros [v Hv]. exists (sk, v). split; [done|]. by apply elem_of_map_to_list.
Qed.
Lemma session_keys_NoDup m : NoDup (session_keys m).
Proof. unfold session_keys. rewrite merge_sort_Permutation. apply NoDup_fst_map_to_list. Qed.

Lemma expire_ok now b : bib_wf None b ->
  exists rel b', expire now b = (Ok rel, b') /\ bib_wf None b' /\ shrinks b b' /\
    sessions b' = survivors now (sessions b).
Proof.
  intros Hwf. cbv [expire mbind M_bind get]. 
  destruct (match next b with None => true | Some t => now <? t end) eqn:Hn.
  - exists [], b. split_and!; [done|done|done|]. symmetry. apply survivors_id. intros sk s Hs.
    destruct (bi_next _ _ Hwf sk s Hs) as (t & Ht & Hle). rewrite Ht in Hn. lia.
  - destruct (demote_sessions_ok now b Hwf) as [Hwf1 Hsh1]. cbv [modify].
    set (b1 := set_sessions (demote now <$> sessions b) b) in *.
    set (old := session_keys (filter (fun ks : SessionKey * Session => s_expires ks.2 <= now) (sessions b1))).
    assert (forall sk, sk ∈ old <-> exists s, sessions b1 !! sk = Some s /\ s_expires s <= now) as Hold.
    { intros sk. unfold old. rewrite session_keys_spec. split.
      - intros [s [Hs Hle]%map_lookup_filter_Some]. by exists s.
      - intros (s & Hs & Hle). exists s. by apply map_lookup_filter_Some. }
    destruct (remove_sessions_ok old [] b1 Hwf1) as (rel & b2 & H2 & Hwf2 & Hsh2 & Hse2).
    { apply session_keys_NoDup. }
    { intros sk (s & Hs & _)%Hold. by eexists. }
    rewrite H2. destruct (min_next_ok b2 Hwf2) as [Hwf3 Hsh3].
    eexists _, _. split; [reflexivity|]. split_and!; [done|etrans; [done|]; etrans; done|].
    cbn [set_next sessions]. apply map_eq. intros sk. rewrite Hse2. unfold survivors.
    destruct (decide (sk ∈ old)) as [Hin|Hni].
    + apply Hold in Hin as (s & Hs & Hle). symmetry. apply map_lookup_filter_None. right.
      intros s' Hs' Hlt. change (sessions b1) with (demote now <$> sessions b) in Hs. cbn in Hlt. simplify_eq. lia.
    + destruct (sessions b1 !! sk) as [s|] eqn:Hs.
      * symmetry. apply map_lookup_filter_Some. split; [done|]. cbn.
        destruct (decide (now < s_expires s)); [done|]. destruct Hni. apply Hold. exists s. split; [done|lia].
      * symmetry. apply map_lookup_filter_None. by left.
Qed.
