(* ===== verification/BindingsOps.v ===== *)
(** Admission, binding set-up, session renewal and the packet handlers of the translator's
    tables keep the invariant and never panic. *)

From S2P Require Import Prelude Effects Time Maps Ports TcpState Wire Bindings BindingsInv.

(** ** Sessions *)

Definition earliest (b : Bindings) (expires : Z) : option Z :=
  Some (match next b with None => expires | Some old => Z.min old expires end).
(** The state after a session that exists is replaced. *)
Definition refreshed (b : Bindings) (sk : SessionKey) (s : Session) (q : Z) : Bindings :=
  mkBindings (domain b) (ports b) (bindings b) (reverse b) (<[sk := s]> (sessions b)) (hosts b)
    (earliest b (s_expires s)) (udp_filtering b) (udp_seconds b) (icmp_seconds b) (tcp_timeouts b) q.
(** The state after one is opened for a binding. *)
Definition opened (b : Bindings) (sk : SessionKey) (s : Session) (bd : Binding) (h : Z * Z) : Bindings :=
  mkBindings (domain b) (ports b)
    (<[sk.1 := mkBinding (b_lease bd) (b_port bd) (b_sessions bd + 1)]> (bindings b)) (reverse b)
    (<[sk := s]> (sessions b)) (<[k_host sk.1 := (h.1, h.2 + 1)]> (hosts b))
    (earliest b (s_expires s)) (udp_filtering b) (udp_seconds b) (icmp_seconds b) (tcp_timeouts b) (tcp_quote_bytes b).

Lemma earliest_ok pend b sk s' : bib_wf pend b ->
  forall k s, <[sk := s']> (sessions b) !! k = Some s -> exists t, earliest b (s_expires s') = Some t /\ t <= s_expires s.
Proof.
  intros Hwf k s [[_ <-]|[_ Hk]]%lookup_insert_Some; unfold earliest.
  - destruct (next b); eexists; (split; [done|lia]).
  - destruct (bi_next _ _ Hwf _ _ Hk) as (t & -> & Hle). eexists; (split; [done|lia]).
Qed.
Lemma counts_update (m : gmap SessionKey Session) sk s s' : m !! sk = Some s ->
  (forall k, mcount (of_key k) (<[sk := s']> m) = mcount (of_key k) m) /\
  (forall h, mcount (session_of_host h) (<[sk := s']> m) = mcount (session_of_host h) m) /\
  quote_total (<[sk := s']> m) = quote_total m - len (s_syn_quote s) + len (s_syn_quote s').
Proof.
  intros Hs. split_and!.
  - intros k. by apply (mcount_update _ _ _ _ _ Hs).
  - intros h. by apply (mcount_update _ _ _ _ _ Hs).
  - unfold quote_total. by rewrite (msum_update _ _ _ _ _ Hs).
Qed.
Lemma refreshed_wf b sk s s' q :
  bib_wf None b -> sessions b !! sk = Some s -> session_wf sk.1 s' ->
  q = tcp_quote_bytes b - len (s_syn_quote s) + len (s_syn_quote s') -> bib_wf None (refreshed b sk s' q).
Proof.
  intros Hwf Hs Hs' ->. pose proof Hwf as [W1 W2 W3 W4 W5 W6 W7 W8 W9 W10 W11 W12].
  destruct (counts_update _ _ _ s' Hs) as (C1 & C2 & C3).
  split; cbn [refreshed ports bindings reverse sessions hosts next tcp_quote_bytes tcp_timeouts udp_seconds icmp_seconds]; try done.
  - intros k bd Hk. rewrite C1. by apply W6.
  - intros k s0 [[<- <-]|[_ Hk]]%lookup_insert_Some; [|by apply W7]. split; [by eapply W7|done].
  - intros h. rewrite W8. unfold host_entry. by rewrite C2.
  - by apply (earliest_ok None).
  - rewrite C3. lia.
Qed.
Lemma refreshed_caps b sk s s' q :
  bib_caps b -> sessions b !! sk = Some s -> charged_bytes b - tcp_quote_bytes b + q <= CAP ->
  bib_caps (refreshed b sk s' q).
Proof.
  intros [C1 C2 C3 C4] Hs Hq. split; cbn [refreshed bindings sessions hosts]; try done.
  - by rewrite slen_update.
  - unfold charged_bytes in *. cbn [refreshed bindings reverse sessions hosts tcp_timeouts tcp_quote_bytes].
    rewrite slen_update by done. lia.
Qed.

Definition new_session (s : Session) : Prop := s_syn_quote s = [].
Lemma opened_wf b sk s bd n m :
  bib_wf (Some sk.1) b -> sessions b !! sk = None -> bindings b !! sk.1 = Some bd ->
  hosts b !! k_host sk.1 = Some (n, m) -> session_wf sk.1 s -> new_session s ->
  bib_wf None (opened b sk s bd (n, m)).
Proof.
  intros Hwf Hs Hbd Hh Hs' Hq. pose proof Hwf as [W1 W2 W3 W4 W5 W6 W7 W8 W9 W10 W11 W12].
  destruct (host_of_binding _ b Hwf _ _ Hbd) as (m0 & Hh0 & Hm0 & Hn1). rewrite Hh in Hh0. injection Hh0 as -> ->. subst m0.
  assert (forall k, mcount (of_key k) (<[sk := s]> (sessions b)) = mcount (of_key k) (sessions b) + of_bool (bool_decide (sk.1 = k))) as C1
    by (intros k; by rewrite mcount_insert).
  assert (forall h, mcount (session_of_host h) (<[sk := s]> (sessions b)) = mcount (session_of_host h) (sessions b) + of_bool (k_host sk.1 =? h)) as C2
    by (intros h; by rewrite mcount_insert).
  split; cbn [opened ports bindings reverse sessions hosts next tcp_quote_bytes tcp_timeouts udp_seconds icmp_seconds]; try done.
  - intros k bd' [[<- <-]|[_ Hk]]%lookup_insert_Some; [exact (W2 _ _ Hbd)|by apply W2].
  - intros k bd' [[<- <-]|[_ Hk]]%lookup_insert_Some; [exact (W3 _ _ Hbd)|by apply W3].
  - intros pp k Hk. destruct (W4 pp k Hk) as (bd0 & Hbd0 & ->). destruct (decide (k = sk.1)) as [->|Hne].
    + rewrite lookup_insert_eq. eexists. split; [done|]. cbn. congruence.
    + rewrite lookup_insert_ne by done. by exists bd0.
  - by rewrite slen_update.
  - intros k bd' [[<- <-]|[Hne Hk]]%lookup_insert_Some; rewrite C1; cbn [b_sessions].
    + rewrite bool_decide_true by done. destruct (W6 _ _ Hbd) as [-> _]. cbn.
      pose proof (mcount_nonneg (of_key sk.1) (sessions b)). split; [done|left; lia].
    + rewrite bool_decide_false by done. cbn [of_bool]. rewrite Z.add_0_r.
      destruct (W6 _ _ Hk) as [? [?|?]]; [by auto|congruence].
  - intros k s0 [[<- <-]|[_ Hk]]%lookup_insert_Some.
    + split; [|done]. rewrite lookup_insert_eq. by eexists.
    + destruct (W7 _ _ Hk). split; [|done]. destruct (decide (sk.1 = k.1)) as [->|]; [rewrite lookup_insert_eq; by eexists|].
      by rewrite lookup_insert_ne.
  - intros h. cbn [fst snd]. pose proof (host_update (hosts b) (bindings b) (sessions b)
      (<[sk.1 := mkBinding (b_lease bd) (b_port bd) (b_sessions bd + 1)]> (bindings b)) (<[sk := s]> (sessions b))
      (k_host sk.1) (mcount (binding_of_host (k_host sk.1)) (bindings b)) (mcount (session_of_host (k_host sk.1)) (sessions b) + 1)) as Hup.
    destruct (Z.eqb_spec (mcount (binding_of_host (k_host sk.1)) (bindings b)) 0); [lia|]. apply Hup; [done| | |].
    + symmetry. by apply (mcount_update _ _ _ _ _ Hbd).
    + rewrite C2, Z.eqb_refl. done.
    + intros h' Hh'. split; [by apply (mcount_update _ _ _ _ _ Hbd)|]. rewrite C2. destruct (Z.eqb_spec (k_host sk.1) h'); [done|]. cbn; lia.
  - by apply (earliest_ok (Some sk.1)).
  - rewrite W10. unfold quote_total. rewrite msum_insert, Hq, len_nil by done. lia.
Qed.
Lemma opened_caps b sk s bd n m :
  bib_caps b -> sessions b !! sk = None -> bindings b !! sk.1 = Some bd -> hosts b !! k_host sk.1 = Some (n, m) ->
  slen (sessions b) < 8192 -> m < 256 -> charged_bytes b + 256 <= CAP -> bib_caps (opened b sk s bd (n, m)).
Proof.
  intros [C1 C2 C3 C4] Hs Hbd Hh Hn Hm Hc. split; cbn [opened bindings sessions hosts].
  - by rewrite slen_update.
  - rewrite slen_insert by done. lia.
  - intros h n' m' [[<- [= <- <-]]|[_ Hk]]%lookup_insert_Some; [|by eapply C3]. specialize (C3 _ _ _ Hh). lia.
  - unfold charged_bytes in *. cbn [opened bindings reverse sessions hosts tcp_timeouts tcp_quote_bytes].
    rewrite (slen_update (bindings b)), slen_insert, (slen_update (hosts b)) by done. lia.
Qed.

(** ** Opening and renewing sessions *)

(** Room for a session, as [admit] grants it. *)
Definition session_room (b : Bindings) (sk : SessionKey) : Prop :=
  sessions b !! sk = None ->
  slen (sessions b) < 8192 /\ (forall n m, hosts b !! k_host sk.1 = Some (n, m) -> m < 256) /\ charged_bytes b + 256 <= CAP.
(** A binding is there and only it may be without sessions. *)
Definition ready (b : Bindings) (sk : SessionKey) : Prop :=
  bib_wf (Some sk.1) b /\ bib_caps b /\ is_Some (bindings b !! sk.1) /\ session_room b sk /\
  (is_Some (sessions b !! sk) -> bib_wf None b).
(** What opening or renewing the session [sk] does to the rest of the state. *)
Record renewed (b b' : Bindings) (sk : SessionKey) (s : Session) : Prop := {
  rn_sessions : sessions b' = <[sk := s]> (sessions b);
  rn_reverse : reverse b' = reverse b;
  rn_ports : ports b' = ports b;
  rn_domain : domain b' = domain b;
  rn_config : udp_filtering b' = udp_filtering b /\ udp_seconds b' = udp_seconds b /\ icmp_seconds b' = icmp_seconds b;
  rn_bindings : forall k, b_port <$> bindings b' !! k = b_port <$> bindings b !! k;
}.
Lemma refreshed_renewed b sk s q : renewed b (refreshed b sk s q) sk s.
Proof. by split. Qed.
Lemma opened_renewed b sk s bd h : bindings b !! sk.1 = Some bd -> renewed b (opened b sk s bd h) sk s.
Proof.
  intros Hbd. split; try done. intros k. cbn [opened bindings].
  destruct (decide (sk.1 = k)) as [<-|]; [by rewrite lookup_insert_eq, Hbd|by rewrite lookup_insert_ne].
Qed.

Lemma query_session_ok key remote expires b :
  ready b (key, remote) -> k_protocol key <> 6 -> is_u64 expires ->
  let s := mkSession expires None false [] in
  exists b', query_session key remote expires b = (Ok tt, b') /\ bib_inv b' /\ renewed b b' (key, remote) s.
Proof.
  intros (Hwf & Hcaps & [bd Hbd] & Hroom & Hold) Hp He s. cbn [fst] in Hbd.
  assert (session_wf key s) as Hs'.
  { refine (conj He (conj _ (conj _ (conj _ _)))); cbn; [|apply quote_wf_nil|done|done].
    split; [by intros [? ?]|done]. }
  cbv [query_session charge_session renew_next mbind M_bind get lift modify mret M_ret]. unfold has_key.
  destruct (sessions b !! (key, remote)) as [s0|] eqn:Hs.
  - rewrite bool_decide_true by done. specialize (Hold ltac:(done)).
    exists (refreshed b (key, remote) s (tcp_quote_bytes b)).
    assert (s_syn_quote s0 = []) as Hq0.
    { destruct (bi_sessions _ _ Hold _ _ Hs) as [_ (_ & Ht & _ & Hq & _)].
      destruct (s_syn_quote s0) eqn:E; [done|]. rewrite Hq in Ht by done. cbn in Ht. destruct Hp. by apply Ht. }
    split_and!; [done| |apply refreshed_renewed]. split.
    + apply (refreshed_wf b _ s0); [done..|]. rewrite Hq0. cbn [s s_syn_quote]. lia.
    + apply (refreshed_caps b _ s0); [done..|]. destruct Hcaps. lia.
  - rewrite bool_decide_false by (intros [? ?]; congruence). cbn [bindings set_sessions]. rewrite Hbd. cbn [unwrap].
    destruct (host_of_binding _ b Hwf _ _ Hbd) as (m & Hh & _). cbn [fst] in Hh.
    cbn [set_sessions set_bindings hosts]. rewrite Hh. cbn [unwrap].
    destruct Hroom as (R1 & R2 & R3); [done|]. cbn [fst] in R2.
    exists (opened b (key, remote) s bd (mcount (binding_of_host (k_host key)) (bindings b), m)).
    split_and!; [done| |by apply opened_renewed]. split.
    + by apply opened_wf.
    + apply opened_caps; try done. by eapply R2.
Qed.

Lemma udp_session_ok key remote now b :
  ready b (key, remote) -> k_protocol key = 17 -> 0 <= now ->
  exists b', udp_session key remote now b = (Ok tt, b') /\ bib_inv b' /\
    renewed b b' (key, remote) (mkSession (sat64 now (udp_seconds b * 1000)) None false []).
Proof.
  intros Hr Hp Hn. pose proof Hr as [Hwf _]. destruct (bi_config _ _ Hwf) as [Hc _].
  apply query_session_ok; [done|lia|u_lia].
Qed.
Lemma icmp_session_ok key remote now b :
  ready b (key, mkRemote remote 0) -> k_protocol key = 1 -> 0 <= now ->
  exists b', icmp_session key remote now b = (Ok tt, b') /\ bib_inv b' /\
    renewed b b' (key, mkRemote remote 0) (mkSession (sat64 now (icmp_seconds b * 1000)) None false []).
Proof.
  intros Hr Hp Hn. pose proof Hr as [Hwf _]. destruct (bi_config _ _ Hwf) as [_ Hc].
  apply query_session_ok; [done|lia|u_lia].
Qed.

(** The session after a packet. *)
Definition tcp_after (old : option Session) (v6 : bool) (flags now : Z) : Session :=
  match old with
  | None => mkSession (sat64 now TRANSITORY) (Some (if v6 then V6Init else V4Init)) false []
  | Some s =>
      let '(state, expires) := packet (default Transitory (s_tcp s)) v6 flags (s_expires s) now in
      mkSession expires (Some state) false (if decide (state = V4Init) then s_syn_quote s else [])
  end.
Lemma tcp_session_ok key remote v6 flags now b :
  ready b (key, remote) -> k_protocol key = 6 -> 0 <= now ->
  exists b', tcp_session key remote v6 flags now b = (Ok tt, b') /\ bib_inv b' /\
    renewed b b' (key, remote) (tcp_after (sessions b !! (key, remote)) v6 flags now) /\
    charged_bytes b' <= charged_bytes b + (match sessions b !! (key, remote) with Some _ => 0 | None => 256 end).
Proof.
  intros (Hwf & Hcaps & [bd Hbd] & Hroom & Hold) Hp Hn. cbn [fst] in Hbd.
  cbv [tcp_session charge_session renew_next mbind M_bind get lift modify mret M_ret].
  destruct (sessions b !! (key, remote)) as [s0|] eqn:Hs.
  - specialize (Hold ltac:(done)). destruct (bi_sessions _ _ Hold _ _ Hs) as [_ (Hu & Ht & Hq & Hqt & Hpr)].
    cbn [fst] in Ht. destruct (s_tcp s0) as [t|] eqn:Htcp; [|by destruct (proj2 Ht Hp)].
    cbn [unwrap tcp_after]. rewrite Htcp. cbn [default]. unfold id.
    pose proof (packet_u64 t v6 flags (s_expires s0) now Hu Hn) as Hpu.
    destruct (packet t v6 flags (s_expires s0) now) as [state expires] eqn:Hpk. cbn [snd] in Hpu.
    assert (forall q, q = (if decide (state = V4Init) then s_syn_quote s0 else []) ->
      session_wf key (mkSession expires (Some state) false q)) as Hs'.
    { intros q ->. refine (conj Hpu (conj _ (conj _ (conj _ _)))); cbn [s_tcp s_syn_quote s_probe]; [| | |done].
      - split; [done|]. intros _. by eexists.
      - case_decide; [done|apply quote_wf_nil].
      - case_decide as Hd; [|done]. intros _. by subst. }
    assert (len (s_syn_quote s0) <= tcp_quote_bytes b) as Hle.
    { rewrite (bi_quotes _ _ Hwf). apply (msum_pos (fun _ s => len (s_syn_quote s)) _ (key, remote) s0); [|done].
      intros. apply len_nonneg. }
    destruct (decide (state = V4Init)) as [Hst|Hst].
    + exists (refreshed b (key, remote) (mkSession expires (Some state) false (s_syn_quote s0)) (tcp_quote_bytes b)).
      split_and!; [done| |apply refreshed_renewed|].
      * split; [apply (refreshed_wf b _ s0); [done|done|by apply Hs'|cbn [s_syn_quote]; lia]|].
        apply (refreshed_caps b _ s0); [done..|]. destruct Hcaps. lia.
      * unfold charged_bytes. cbn [refreshed bindings reverse sessions hosts tcp_timeouts tcp_quote_bytes].
        rewrite slen_update by done. lia.
    + pose proof (len_nonneg (s_syn_quote s0)).
      assert (sub_chk (E:=io_error) (tcp_quote_bytes b) (len (s_syn_quote s0)) =
        Ok (tcp_quote_bytes b - len (s_syn_quote s0))) as -> by (by apply sub_chk_Ok).
      exists (refreshed b (key, remote) (mkSession expires (Some state) false []) (tcp_quote_bytes b - len (s_syn_quote s0))).
      split_and!; [done| |apply refreshed_renewed|].
      * split; [apply (refreshed_wf b _ s0); [done|done|by apply Hs'|cbn [s_syn_quote]; rewrite len_nil; lia]|].
        apply (refreshed_caps b _ s0); [done..|]. destruct Hcaps. lia.
      * unfold charged_bytes. cbn [refreshed bindings reverse sessions hosts tcp_timeouts tcp_quote_bytes].
        rewrite slen_update by done. lia.
  - cbn [bindings set_sessions]. rewrite Hbd. cbn [unwrap tcp_after].
    destruct (host_of_binding _ b Hwf _ _ Hbd) as (m & Hh & _). cbn [fst] in Hh.
    cbn [set_sessions set_bindings hosts]. rewrite Hh. cbn [unwrap]. destruct Hroom as (R1 & R2 & R3); [done|]. cbn [fst] in R2.
    set (s := mkSession (sat64 now TRANSITORY) (Some (if v6 then V6Init else V4Init)) false []).
    assert (session_wf key s) as Hs'.
    { refine (conj _ (conj _ (conj _ (conj _ _)))); cbn; [unfold TRANSITORY; u_lia| |apply quote_wf_nil|done|done].
      split; [done|]. intros _. by eexists. }
    exists (opened b (key, remote) s bd (mcount (binding_of_host (k_host key)) (bindings b), m)).
    split_and!; [done| |by apply opened_renewed|].
    + split; [by apply opened_wf|]. apply opened_caps; try done. by eapply R2.
    + unfold charged_bytes. cbn [opened bindings reverse sessions hosts tcp_timeouts tcp_quote_bytes].
      rewrite (slen_update (bindings b)), slen_insert, (slen_update (hosts b)) by done. lia.
Qed.

(** ** Admission *)

Record admitted (b : Bindings) (key : Key) (remote : Remote) : Prop := {
  ad_bytes : charged_bytes b + admit_bytes b key remote <= CAP;
  ad_binding : bindings b !! key = None ->
    slen (bindings b) < 4096 /\ (forall n m, hosts b !! k_host key = Some (n, m) -> n < 128);
  ad_session : sessions b !! (key, remote) = None ->
    slen (sessions b) < 8192 /\ (forall n m, hosts b !! k_host key = Some (n, m) -> m < 256);
}.
Lemma admit_cases key remote b :
  (admit_session key remote b = (Ok tt, b) /\ admitted b key remote) \/
  admit_session key remote b = (Err WouldBlock, b).
Proof.
  cbv [admit_session mbind M_bind get throw mret M_ret].
  destruct (default (0, 0) (hosts b !! k_host key)) as [bs ss] eqn:Hd.
  destruct (_ || _ || _) eqn:Hc; [by right|left]. split; [done|].
  apply orb_false_iff in Hc as [[H1 H2]%orb_false_iff H3]. split.
  - lia.
  - intros Hb. apply has_key_false in Hb. rewrite Hb in H2. cbn in H2. split; [lia|].
    intros n m Hh. rewrite Hh in Hd. injection Hd as -> ->. lia.
  - intros Hb. apply has_key_false in Hb. rewrite Hb in H3. cbn in H3. split; [lia|].
    intros n m Hh. rewrite Hh in Hd. injection Hd as -> ->. lia.
Qed.

(** ** Bindings *)

(** The state after a binding is made for [key] on the port [p] with the lease [l]. *)
Definition bound (b : Bindings) (key : Key) (p : Z) (l : Held) (ps : Ports.State) : Bindings :=
  let '(x, y) := default (0, 0) (hosts b !! k_host key) in
  mkBindings (domain b) ps (<[key := mkBinding l p 0]> (bindings b)) (<[(k_protocol key, p) := key]> (reverse b))
    (sessions b) (<[k_host key := (x + 1, y)]> (hosts b)) (next b) (udp_filtering b) (udp_seconds b)
    (icmp_seconds b) (tcp_timeouts b) (tcp_quote_bytes b).
Lemma host_default b h : bib_wf None b ->
  default (0, 0) (hosts b !! h) = (mcount (binding_of_host h) (bindings b), mcount (session_of_host h) (sessions b)).
Proof.
  intros Hwf. rewrite (bi_hosts _ _ Hwf). unfold host_entry.
  destruct (Z.eqb_spec (mcount (binding_of_host h) (bindings b)) 0) as [E|]; [|done]. cbn [default]. rewrite E. f_equal.
  symmetry. apply msum_zero. intros sk s Hs. destruct (binding_of_session _ b Hwf sk s Hs) as (bd & Hbd & _).
  pose proof (mcount_zero _ _ E _ _ Hbd) as Hz. unfold binding_of_host in Hz. unfold session_of_host. by rewrite Hz.
Qed.
Lemma no_sessions b key : bib_wf None b -> bindings b !! key = None ->
  mcount (of_key key) (sessions b) = 0 /\ forall remote, sessions b !! (key, remote) = None.
Proof.
  intros Hwf Hb. split.
  - apply msum_zero. intros sk s Hs. unfold of_key. rewrite bool_decide_false; [done|]. intros <-.
    destruct (bi_sessions _ _ Hwf _ _ Hs) as [[bd Hbd] _]. congruence.
  - intros remote. destruct (sessions b !! (key, remote)) as [s|] eqn:Hs; [|done].
    destruct (bi_sessions _ _ Hwf _ _ Hs) as [[bd Hbd] _]. cbn in Hbd. congruence.
Qed.
Section bind.
Context (b : Bindings) (key : Key) (p : Z) (l : Held) (ps : Ports.State).
Hypothesis Hwf : bib_wf None b.
Hypothesis Hb : bindings b !! key = None.
Hypothesis Hclaim : claim (k_protocol key) p Translation (ports b) = Ok (l, ps).

Lemma reverse_unused : reverse b !! (k_protocol key, p) = None.
Proof.
  apply claim_Ok in Hclaim as (_ & _ & _ & Hfree & _); [|apply Hwf].
  destruct (reverse b !! (k_protocol key, p)) as [k|] eqn:Hr; [|done].
  destruct (bi_bindings _ _ Hwf _ _ Hr) as (bd & Hbd & Heq). destruct (bi_lease _ _ Hwf _ _ Hbd) as [Hk Hh].
  unfold holds in Hh. rewrite Hk, <-Heq in Hh. congruence.
Qed.
Lemma bound_wf : bib_wf (Some key) (bound b key p l ps).
Proof.
  pose proof reverse_unused as Hru. pose proof (host_default b (k_host key) Hwf) as Hd.
  pose proof Hwf as [W1 W2 W3 W4 W5 W6 W7 W8 W9 W10 W11 W12]. destruct (no_sessions b key Hwf Hb) as [N1 N2].
  apply claim_Ok in Hclaim as (Hps & Hlk & Hlh & Hfree & _ & Hent); [|done]. unfold bound. rewrite Hd.
  assert (forall k bd, bindings b !! k = Some bd -> (k_protocol k, b_port bd) <> (k_protocol key, p)) as Hne.
  { intros k bd Hk E. apply W3 in Hk. rewrite E in Hk. congruence. }
  split; cbn [ports bindings reverse sessions hosts next tcp_quote_bytes tcp_timeouts udp_seconds icmp_seconds]; try done.
  - intros k bd [[<- <-]|[_ Hk]]%lookup_insert_Some; [done|]. destruct (W2 _ _ Hk) as [E1 E2]. split; [done|].
    unfold holds in *. rewrite Hent, E1 in *. rewrite lookup_insert_ne; [done|]. intros E. by apply (Hne _ _ Hk).
  - intros k bd [[<- <-]|[_ Hk]]%lookup_insert_Some; [apply lookup_insert_eq|].
    rewrite lookup_insert_ne; [by apply W3|]. intros E. by apply (Hne _ _ Hk).
  - intros pp k [[<- <-]|[_ Hk]]%lookup_insert_Some.
    + rewrite lookup_insert_eq. by eexists.
    + destruct (W4 _ _ Hk) as (bd & Hbd & ->). exists bd. split; [|done]. rewrite lookup_insert_ne; [done|]. intros ->. congruence.
  - rewrite !slen_insert by done. lia.
  - intros k bd [[<- <-]|[_ Hk]]%lookup_insert_Some; [split; [by rewrite N1|by right]|].
    destruct (W6 _ _ Hk) as [? [?|?]]; [by auto|done].
  - intros sk s Hs. destruct (W7 _ _ Hs) as [[bd Hbd] ?]. split; [|done]. rewrite lookup_insert_ne; [by eexists|]. intros ->. congruence.
  - intros h. pose proof (mcount_nonneg (binding_of_host (k_host key)) (bindings b)).
    pose proof (host_update (hosts b) (bindings b) (sessions b) (<[key := mkBinding l p 0]> (bindings b)) (sessions b) (k_host key)
      (mcount (binding_of_host (k_host key)) (bindings b) + 1) (mcount (session_of_host (k_host key)) (sessions b))) as Hup.
    destruct (Z.eqb_spec (mcount (binding_of_host (k_host key)) (bindings b) + 1) 0); [lia|]. apply Hup; [done| |done|].
    + rewrite mcount_insert by done. unfold binding_of_host at 3. rewrite Z.eqb_refl. done.
    + intros h' Hh'. split; [|done]. rewrite mcount_insert, of_host_ne by done. cbn; lia.
Qed.
Lemma bound_caps remote : bib_caps b -> admitted b key remote ->
  bib_caps (bound b key p l ps) /\ session_room (bound b key p l ps) (key, remote).
Proof.
  pose proof reverse_unused as Hru. pose proof (host_default b (k_host key) Hwf) as Hd.
  destruct (no_sessions b key Hwf Hb) as [N1 N2]. intros [C1 C2 C3 C4] [A1 A2 A3].
  destruct (A2 Hb) as [B1 B2]. destruct (A3 (N2 remote)) as [S1 S2].
  assert (charged_bytes (bound b key p l ps) + 256 <= CAP) as Hc.
  { unfold admit_bytes in A1. rewrite (proj2 (has_key_false _ _) Hb), (proj2 (has_key_false _ _) (N2 remote)) in A1.
    cbn [negb of_bool] in A1. unfold charged_bytes, bound in *. rewrite Hd.
    cbn [bindings reverse sessions hosts tcp_timeouts tcp_quote_bytes].
    rewrite (slen_insert (bindings b)), (slen_insert (reverse b)) by done.
    destruct (has_key (hosts b) (k_host key)) eqn:Hh; cbn [negb of_bool] in A1.
    - rewrite slen_update by (by apply has_key_true). lia.
    - rewrite slen_insert by (by apply has_key_false). lia. }
  assert (forall n m, default (0, 0) (hosts b !! k_host key) = (n, m) -> n < 128 /\ m < 256) as Hdef.
  { intros n m. destruct (hosts b !! k_host key) as [[n0 m0]|] eqn:Hh; cbn; intros [= <- <-]; [|lia].
    split; [by eapply B2|by eapply S2]. }
  unfold bound in *. rewrite Hd in *. specialize (Hdef _ _ eq_refl). split.
  - split; cbn [bindings sessions hosts]; [rewrite slen_insert by done; lia|done| |lia].
    intros h n m [[<- [= <- <-]]|[_ Hk]]%lookup_insert_Some; [lia|by eapply C3].
  - intros _. cbn [sessions hosts]. split_and!; [done| |done].
    intros n m. cbn [fst]. rewrite lookup_insert_eq. intros [= <- <-]. lia.
Qed.
End bind.

(** ** Allocation *)

Section handlers.
Context {R : Type} `{Sampler R}.
Abbreviation MR := (M (Bindings * R) io_error).

Lemma scan_spec rounds n first count start test p :
  0 < count -> scan rounds n first count start test = Some p ->
  test p = true /\ first <= p <= first + (count - 1) * 2 /\ p mod 2 = first mod 2.
Proof.
  intros Hc. revert n. induction rounds as [|rounds IH]; intros n; cbn [scan]; [done|].
  destruct (test (first + (start + n) mod count * 2)) eqn:Ht; [|apply IH]. intros [= <-]. pose proof (Z.mod_pos_bound (start + n) count Hc).
  split_and!; [done|lia|lia|]. by rewrite Z.mod_add.
Qed.
Definition band_ok (band : bool * Z) : Prop := band.2 = 0 \/ band.2 = 1.
(** A port of the band: its parity, and its side of 1024. *)
Definition in_band (band : bool * Z) (p : Z) : Prop :=
  1 <= p <= u16_max /\ p mod 2 = band.2 /\ (band.1 = (1024 <=? p)).
Lemma try_bands_ok bs test b r : Forall band_ok bs ->
  match try_bands bs test (b, r) with
  | (Ok p, (b', _)) => b' = b /\ test p = true /\ exists band, band ∈ bs /\ in_band band p
  | (Err _, (b', _)) => b' = b
  | (Panic, _) => False
  end.
Proof.
  revert r. induction bs as [|[high parity] bs IH]; intros r Hb; [done|]. apply Forall_cons_iff in Hb as [Hp Hb].
  cbn [try_bands]. cbv [mbind M_bind draw on_snd].
  cbn [fst snd]. destruct (sample_cases (band_count high parity - 1) r) as [(x & r' & Hs & Hx)|(e & r' & Hs)];
    [unfold band_count; destruct high, (parity =? 0); u_lia| |by rewrite Hs].
  rewrite Hs. destruct (scan _ _ _ _ _ _) as [p|] eqn:Hsc.
  - apply scan_spec in Hsc as (T1 & T2 & T3); [|unfold band_count; destruct high, (parity =? 0); lia].
    cbn. split_and!; [done|done|]. exists (high, parity). split; [left|].
    unfold in_band. cbn [fst snd]. unfold band_ok in Hp. cbn in Hp.
    unfold band_first, band_count in *.
    destruct high; destruct Hp as [-> | ->]; cbn in T2, T3; (split_and!; [u_lia|u_lia|done|lia]).
  - specialize (IH r' Hb). destruct (try_bands bs test (b, r')) as [[p|e|] [b' r2]]; [|done|done].
    destruct IH as (-> & ? & band & Hin & ?). split_and!; [done|done|]. exists band. split; [by right|done].
Qed.
Lemma bands_ok port : 0 <= port -> Forall band_ok (bands port).
Proof.
  intros Hp. pose proof (Z.mod_pos_bound port 2 ltac:(lia)). unfold bands, band_ok.
  do 4 (apply Forall_cons_iff; split; [cbn [snd]; lia|]). constructor.
Qed.
Lemma allocate_ok protocol port occ b r : is_u16 port ->
  match allocate protocol port occ (b, r) with
  | (Ok p, (b', _)) => b' = b /\ free b protocol occ p = true /\ is_u16 p /\
      (p = port /\ (port <> 0 \/ protocol = 1) \/
       ~ (free b protocol occ port = true /\ (port <> 0 \/ protocol = 1)) /\ 1 <= p)
  | (Err _, (b', _)) => b' = b
  | (Panic, _) => False
  end.
Proof.
  intros Hp. cbv [allocate mbind M_bind self gets mret M_ret]. cbn [fst snd].
  destruct ((negb (port =? 0) || (protocol =? 1)) && free b protocol occ port) eqn:Hf.
  - apply andb_true_iff in Hf as [H1 H2]. split_and!; [done|done|u_lia|]. left. split; [done|lia].
  - pose proof (try_bands_ok (bands port) (free b protocol occ) b r (bands_ok port ltac:(u_lia))) as Ht.
    destruct (try_bands _ _ _) as [[p|e|] [b' r']]; [|done|done]. destruct Ht as (-> & Ht & band & _ & Hin & _).
    split_and!; [done|done|u_lia|]. right. split; [|lia]. intros [H1 H2]. rewrite H1, andb_true_r in Hf. lia.
Qed.

(** ** Assigning a port to a source *)

Lemma bib_wf_weaken k b : bib_wf None b -> bib_wf (Some k) b.
Proof.
  intros [W1 W2 W3 W4 W5 W6 W7 W8 W9 W10 W11 W12]. split; try done.
  intros k' bd Hk. destruct (W6 _ _ Hk) as [? [?|?]]; [by auto|done].
Qed.
(** What [assign] leaves unchanged. *)
Record assigned (b b' : Bindings) (key : Key) (p : Z) : Prop := {
  as_sessions : sessions b' = sessions b;
  as_domain : domain b' = domain b;
  as_config : udp_filtering b' = udp_filtering b /\ udp_seconds b' = udp_seconds b /\ icmp_seconds b' = icmp_seconds b;
  as_port : b_port <$> bindings b' !! key = Some p;
  as_others : forall k, k <> key -> bindings b' !! k = bindings b !! k;
  as_reverse : forall pp k, reverse b !! pp = Some k -> reverse b' !! pp = Some k;
  as_bindings : forall k, is_Some (bindings b !! k) -> bindings b' !! k = bindings b !! k;
}.
Lemma assign_ok key remote occ b r :
  bib_inv b -> admitted b key remote -> is_u16 (k_port key) ->
  match assign key occ (b, r) with
  | (Ok p, (b', _)) => ready b' (key, remote) /\ assigned b b' key p /\ (bindings b !! key = None -> occ p = false)
  | (Err _, (b', _)) => b' = b
  | (Panic, _) => False
  end.
Proof.
  intros [Hwf Hcaps] Had Hport. cbv [assign mbind M_bind self gets bib on_fst lift modify mret M_ret]. cbn [fst snd].
  destruct (bindings b !! key) as [bd|] eqn:Hb.
  - split_and!; [|by split; try done; rewrite Hb|done]. split_and!; [by apply bib_wf_weaken|done|by eexists| |done].
    intros Hs. destruct Had as [A1 _ A3]. destruct (A3 Hs) as [S1 S2]. split_and!; [done|done|].
    unfold admit_bytes in A1. rewrite (proj2 (has_key_false _ _) Hs) in A1. cbn [negb of_bool] in A1.
    destruct (has_key (bindings b) key), (has_key (hosts b) (k_host key)); cbn in A1; lia.
  - pose proof (allocate_ok (k_protocol key) (k_port key) occ b r Hport) as Hal.
    destruct (allocate _ _ _ _) as [[p|e|] [b0 r0]]; [|done|done]. destruct Hal as (-> & Hfree & _).
    pose proof (claim_safe (k_protocol key) p Translation (ports b)) as Hcs.
    destruct (claim (k_protocol key) p Translation (ports b)) as [[l ps]|e|] eqn:Hcl; [|done|by destruct Hcs].
    destruct (default (0, 0) (hosts b !! k_host key)) as [x y] eqn:Hd. cbn [fst snd].
    set (b1 := bound b key p l ps).
    assert (forall z, z = b1 -> ready z (key, remote) /\ assigned b z key p /\ (@None Binding = None -> occ p = false)) as Hgoal.
    { intros z ->. destruct (bound_caps b key p l ps Hwf Hb Hcl remote Hcaps Had) as [B1 B2].
      assert (bindings b1 = <[key := mkBinding l p 0]> (bindings b)) as Eb by (unfold b1, bound; by rewrite Hd).
      assert (sessions b1 = sessions b) as Es by (unfold b1, bound; by rewrite Hd).
      assert (reverse b1 = <[(k_protocol key, p) := key]> (reverse b)) as Er by (unfold b1, bound; by rewrite Hd).
      split_and!.
      - split_and!; [by apply bound_wf|done| |done|].
        + cbn [fst]. rewrite Eb, lookup_insert_eq. by eexists.
        + rewrite Es. rewrite (proj2 (no_sessions b key Hwf Hb)). by intros [? ?].
      - split; try done; try (unfold b1, bound; by rewrite Hd).
        + by rewrite Eb, lookup_insert_eq.
        + intros k Hk. rewrite Eb. by rewrite lookup_insert_ne.
        + intros pp k Hk. rewrite Er, lookup_insert_ne; [done|]. intros <-.
          rewrite (reverse_unused b key p l ps Hwf Hcl) in Hk. done.
        + intros k [bd Hk]. rewrite Eb, lookup_insert_ne; [done|]. intros ->. congruence.
      - intros _. unfold free in Hfree. apply andb_true_iff in Hfree as [_ Hf]. by apply negb_true_iff in Hf. }
    apply Hgoal. unfold b1, bound. rewrite Hd. reflexivity.
Qed.
End handlers.
