(* ===== verification/BindingsFacts.v ===== *)
(** The packet handlers of the translator's tables: they keep the invariant, never panic,
    and bind, renew and filter as they promise. *)

From S2P Require Import Prelude Effects Time Maps Ports TcpState Wire Bindings BindingsInv BindingsOps.

Lemma expire_inv now b : bib_inv b ->
  exists rel b', expire now b = (Ok rel, b') /\ bib_inv b' /\ shrinks b b' /\ sessions b' = survivors now (sessions b).
Proof.
  intros [Hwf Hc]. destruct (expire_ok now b Hwf) as (rel & b' & H1 & H2 & H3 & H4). exists rel, b'.
  split_and!; [done|by split; [|by eapply shrinks_caps]|done|done].
Qed.
Lemma admitted_ready b key remote :
  bib_inv b -> is_Some (bindings b !! key) -> admitted b key remote -> ready b (key, remote).
Proof.
  intros [Hwf Hc] Hb [A1 _ A3]. split_and!; [by apply bib_wf_weaken|done|done| |done].
  intros Hs. destruct (A3 Hs) as [S1 S2]. split_and!; [done|done|].
  unfold admit_bytes in A1. rewrite (proj2 (has_key_false _ _) Hs) in A1. cbn [negb of_bool] in A1.
  destruct (has_key (bindings b) key), (has_key (hosts b) (k_host key)); cbn in A1; lia.
Qed.
Lemma existing_ready b sk : bib_inv b -> is_Some (sessions b !! sk) -> ready b sk.
Proof.
  intros [Hwf Hc] [s Hs]. destruct (bi_sessions _ _ Hwf _ _ Hs) as [Hb _].
  split_and!; [by apply bib_wf_weaken|done|done| |done]. intros Hn. congruence.
Qed.
Lemma reverse_binding b proto port key : bib_inv b -> reverse b !! (proto, port) = Some key ->
  k_protocol key = proto /\ b_port <$> bindings b !! key = Some port.
Proof.
  intros [Hwf _] Hr. destruct (bi_bindings _ _ Hwf _ _ Hr) as (bd & Hbd & [= -> ->]). by rewrite Hbd.
Qed.
Lemma set_domain_inv v b : bib_inv b -> bib_inv (set_domain v b).
Proof. intros [[] []]. by split; split. Qed.

(** Discharges the first premise of a hypothesis. *)
Ltac spec_out H :=
  match type of H with
  | ?P -> _ => let HP := fresh in assert P as HP; [|specialize (H HP); clear HP]
  end.

(** ** Outbound *)

(** [b'] comes from [b] by expiry, a binding of [key] to [p], and a session with [remote]. *)
Definition bound_out (now : Z) (key : Key) (remote : Remote) (s : Bindings -> Session) (b b' : Bindings) (p : Z) : Prop :=
  exists rel b1 b2, expire now b = (Ok rel, b1) /\ bib_inv b1 /\ assigned b1 b2 key p /\
    renewed b2 b' (key, remote) (s b1).

Section outbound.
Context {R : Type} `{Sampler R}.

(** The common shape of the three handlers, after expiry. *)
Lemma out_shape key remote occ b r (renew : M Bindings io_error unit) s :
  bib_inv b -> is_u16 (k_port key) ->
  (forall b2, ready b2 (key, remote) -> sessions b2 = sessions b -> udp_seconds b2 = udp_seconds b ->
     icmp_seconds b2 = icmp_seconds b ->
     exists b', renew b2 = (Ok tt, b') /\ bib_inv b' /\ renewed b2 b' (key, remote) s) ->
  match (bib (admit_session key remote) ;; a ← assign key occ; bib renew ;; mret a) (b, r) with
  | (Ok p, (b', _)) => bib_inv b' /\ exists b2, assigned b b2 key p /\ renewed b2 b' (key, remote) s /\
      (bindings b !! key = None -> occ p = false)
  | (Err _, (b', _)) => b' = b
  | (Panic, _) => False
  end.
Proof.
  intros Hinv Hport Hrenew. cbv [mbind M_bind bib on_fst mret M_ret]. cbn [fst snd].
  destruct (admit_cases key remote b) as [[-> Had]| ->]; [|done]. cbn [fst snd].
  pose proof (assign_ok key remote occ b r Hinv Had Hport) as Has.
  destruct (assign key occ (b, r)) as [[p|e|] [b2 r2]]; [|done|done]. destruct Has as (Hready & Has & Hocc).
  destruct (Hrenew b2 Hready) as (b' & Hr & Hi & Hn); [apply Has..|]. cbn [fst snd]. rewrite Hr.
  split; [done|]. by exists b2.
Qed.

Lemma udp_out_ok source port remote now occ b r :
  bib_inv b -> is_u16 port -> 0 <= now ->
  match udp_out source port remote now occ (b, r) with
  | (Ok p, (b', _)) => bib_inv b' /\
      bound_out now (mkKey 17 source port (domain b)) remote
        (fun b1 => mkSession (sat64 now (udp_seconds b1 * 1000)) None false []) b b' p
  | (Err _, (b', _)) => bib_inv b' /\ exists rel, expire now b = (Ok rel, b')
  | (Panic, _) => False
  end.
Proof.
  intros Hi Hp Hn. destruct (expire_inv now b Hi) as (rel & b1 & He & Hi1 & Hsh & Hse).
  unfold udp_out. unfold mbind at 1, M_bind at 1, bib at 1, on_fst at 1. cbn [fst snd]. rewrite He.
  unfold mbind at 1, M_bind at 1, self, gets. cbn [fst snd]. rewrite (sh_domain _ _ Hsh).
  set (key := mkKey 17 source port (domain b)).
  pose proof (out_shape key remote occ b1 r (udp_session key remote now)
    (mkSession (sat64 now (udp_seconds b1 * 1000)) None false []) Hi1 Hp) as Hout.
  spec_out Hout; [intros b2 Hr2 _ Hu _; rewrite <-Hu; by apply udp_session_ok|].
  match type of Hout with (match ?t with _ => _ end) => destruct t as [[p|e|] [b' r']] end; [|subst b'; by eauto|done].
  destruct Hout as (Hi' & b2 & Has & Hn' & _). split; [done|]. by exists rel, b1, b2.
Qed.
Lemma icmp_out_ok source id remote now b r :
  bib_inv b -> is_u16 id -> 0 <= now ->
  match icmp_out source id remote now (b, r) with
  | (Ok p, (b', _)) => bib_inv b' /\
      bound_out now (mkKey 1 source id (domain b)) (mkRemote remote 0)
        (fun b1 => mkSession (sat64 now (icmp_seconds b1 * 1000)) None false []) b b' p
  | (Err _, (b', _)) => bib_inv b' /\ exists rel, expire now b = (Ok rel, b')
  | (Panic, _) => False
  end.
Proof.
  intros Hi Hp Hn. destruct (expire_inv now b Hi) as (rel & b1 & He & Hi1 & Hsh & Hse).
  unfold icmp_out. unfold mbind at 1, M_bind at 1, bib at 1, on_fst at 1. cbn [fst snd]. rewrite He.
  unfold mbind at 1, M_bind at 1, self, gets. cbn [fst snd]. rewrite (sh_domain _ _ Hsh).
  set (key := mkKey 1 source id (domain b)).
  pose proof (out_shape key (mkRemote remote 0) (fun _ => false) b1 r (icmp_session key remote now)
    (mkSession (sat64 now (icmp_seconds b1 * 1000)) None false []) Hi1 Hp) as Hout.
  spec_out Hout; [intros b2 Hr2 _ _ Hu; rewrite <-Hu; by apply icmp_session_ok|].
  match type of Hout with (match ?t with _ => _ end) => destruct t as [[p|e|] [b' r']] end; [|subst b'; by eauto|done].
  destruct Hout as (Hi' & b2 & Has & Hn' & _). split; [done|]. by exists rel, b1, b2.
Qed.
Lemma tcp_out_ok source port remote flags now b r :
  bib_inv b -> is_u16 port -> 0 <= now ->
  let key := mkKey 6 source port (domain b) in
  match tcp_out source port remote flags now (b, r) with
  | (Ok (Some p), (b', _)) => bib_inv b' /\
      bound_out now key remote (fun b1 => tcp_after (sessions b1 !! (key, remote)) true flags now) b b' p
  | (Ok None, (b', _)) => bib_inv b' /\ (exists rel, expire now b = (Ok rel, b')) /\
      sessions b' !! (key, remote) = None /\ has_syn flags = false
  | (Err _, (b', _)) => bib_inv b' /\ exists rel, expire now b = (Ok rel, b')
  | (Panic, _) => False
  end.
Proof.
  intros Hi Hp Hn key. destruct (expire_inv now b Hi) as (rel & b1 & He & Hi1 & Hsh & Hse).
  unfold tcp_out. unfold mbind at 1, M_bind at 1, bib at 1, on_fst at 1. cbn [fst snd]. rewrite He.
  unfold mbind at 1, M_bind at 1, self, gets. cbn [fst snd]. rewrite (sh_domain _ _ Hsh). fold key.
  destruct (negb (has_key (sessions b1) (key, remote)) && (Z.land flags 2 =? 0)) eqn:Hc.
  { apply andb_true_iff in Hc as [H1 H2]. apply negb_true_iff, has_key_false in H1. split_and!; [done|by eauto|done|].
    unfold has_syn. by rewrite H2. }
  pose proof (out_shape key remote (fun _ => false) b1 r (tcp_session key remote true flags now)
    (tcp_after (sessions b1 !! (key, remote)) true flags now) Hi1 Hp) as Hout.
  spec_out Hout; [intros b2 Hr2 Hs2 _ _; rewrite <-Hs2;
    destruct (tcp_session_ok key remote true flags now b2 Hr2 eq_refl Hn) as (b' & ? & ? & ? & _); by exists b'|].
  cbv [mbind M_bind bib on_fst mret M_ret] in Hout |- *. cbn [fst snd] in Hout |- *.
  destruct (admit_session key remote b1) as [[[]|e|] b0]; [|subst b0; by eauto|done].
  destruct (assign key (fun _ => false) (b0, r)) as [[p|e|] [b2 r2]]; [|subst b2; by eauto|done]. cbn [fst snd] in *.
  destruct (tcp_session key remote true flags now b2) as [[[]|e|] b3]; [|subst b3; by eauto|done].
  destruct Hout as (Hi' & b2' & Has & Hn' & _). split; [done|]. by exists rel, b1, b2'.
Qed.
End outbound.

(** ** Inbound *)

(** [b'] comes from [b] by expiry and the renewal, for [remote], of the binding that owns
    the port; [hp] is that binding's source. *)
Definition bound_in (now proto port : Z) (remote : Remote) (s : Bindings -> Key -> Session) (b b' : Bindings) (hp : Z * Z) : Prop :=
  exists rel b1 key b2, expire now b = (Ok rel, b1) /\ bib_inv b1 /\ reverse b1 !! (proto, port) = Some key /\
    hp = (k_host key, k_port key) /\ renewed b1 b2 (key, remote) (s b1 key) /\ b' = set_domain (k_domain key) b2.
Definition only_expired (now : Z) (b b' : Bindings) : Prop := bib_inv b' /\ exists rel, expire now b = (Ok rel, b').

Lemma udp_in_ok port remote now b :
  bib_inv b -> 0 <= now ->
  match udp_in port remote now b with
  | (Ok (Some hp), b') => bib_inv b' /\
      bound_in now 17 port remote (fun b1 _ => mkSession (sat64 now (udp_seconds b1 * 1000)) None false []) b b' hp
  | (Ok None, b') => only_expired now b b' /\
      (reverse b' !! (17, port) = None \/
       exists key, reverse b' !! (17, port) = Some key /\ udp_filtering b' = AddressDependent /\
         known_address b' key (r_ip remote) = false)
  | (Err e, b') => only_expired now b b' /\ e = WouldBlock
  | (Panic, _) => False
  end.
Proof.
  intros Hi Hn. destruct (expire_inv now b Hi) as (rel & b1 & He & Hi1 & Hsh & Hse).
  assert (only_expired now b b1) as Hoe by (split; eauto).
  cbv [udp_in mbind M_bind get mret M_ret modify]. rewrite He.
  destruct (reverse b1 !! (17, port)) as [key|] eqn:Hr; [|by auto].
  destruct (bool_decide (udp_filtering b1 = AddressDependent) && negb (known_address b1 key (r_ip remote))) eqn:Hf.
  { apply andb_true_iff in Hf as [H1%bool_decide_eq_true H2%negb_true_iff]. split; [done|]. right. by exists key. }
  destruct (reverse_binding b1 17 port key Hi1 Hr) as [Hpr Hpt].
  assert (is_Some (bindings b1 !! key)) as Hb by (destruct (bindings b1 !! key); [by eexists|done]).
  destruct (admit_cases key remote b1) as [[-> Had]| ->]; [|done].
  destruct (udp_session_ok key remote now b1 (admitted_ready b1 key remote Hi1 Hb Had) Hpr Hn) as (b2 & -> & Hi2 & Hn2).
  split; [by apply set_domain_inv|]. by exists rel, b1, key, b2.
Qed.
Lemma icmp_in_ok id remote now b :
  bib_inv b -> 0 <= now ->
  match icmp_in id remote now b with
  | (Ok (Some hp), b') => bib_inv b' /\
      bound_in now 1 id (mkRemote remote 0) (fun b1 _ => mkSession (sat64 now (icmp_seconds b1 * 1000)) None false []) b b' hp
  | (Ok None, b') => only_expired now b b'
  | (Err _, _) | (Panic, _) => False
  end.
Proof.
  intros Hi Hn. destruct (expire_inv now b Hi) as (rel & b1 & He & Hi1 & Hsh & Hse).
  assert (only_expired now b b1) as Hoe by (split; eauto).
  cbv [icmp_in mbind M_bind get mret M_ret modify]. rewrite He.
  destruct (reverse b1 !! (1, id)) as [key|] eqn:Hr; [|done].
  destruct (has_key (sessions b1) (key, mkRemote remote 0)) eqn:Hk; cbn [negb]; [|done].
  destruct (reverse_binding b1 1 id key Hi1 Hr) as [Hpr Hpt]. apply has_key_true in Hk.
  destruct (icmp_session_ok key remote now b1 (existing_ready b1 _ Hi1 Hk) Hpr Hn) as (b2 & -> & Hi2 & Hn2).
  split; [by apply set_domain_inv|]. by exists rel, b1, key, b2.
Qed.
Lemma tcp_in_ok port remote flags now b :
  bib_inv b -> 0 <= now ->
  match tcp_in port remote flags now b with
  | (Ok (Some hp), b') => bib_inv b' /\
      bound_in now 6 port remote (fun b1 key => tcp_after (sessions b1 !! (key, remote)) false flags now) b b' hp /\
      forall rel b1 key, expire now b = (Ok rel, b1) -> reverse b1 !! (6, port) = Some key ->
        charged_bytes b' <= charged_bytes b1 + match sessions b1 !! (key, remote) with Some _ => 0 | None => 256 end
  | (Ok None, b') => only_expired now b b' /\
      (reverse b' !! (6, port) = None \/
       exists key, reverse b' !! (6, port) = Some key /\ sessions b' !! (key, remote) = None /\ has_syn flags = false)
  | (Err e, b') => only_expired now b b' /\ e = WouldBlock
  | (Panic, _) => False
  end.
Proof.
  intros Hi Hn. destruct (expire_inv now b Hi) as (rel & b1 & He & Hi1 & Hsh & Hse).
  assert (only_expired now b b1) as Hoe by (split; eauto).
  cbv [tcp_in mbind M_bind get mret M_ret modify]. rewrite He.
  destruct (reverse b1 !! (6, port)) as [key|] eqn:Hr; [|by auto].
  destruct (negb (has_key (sessions b1) (key, remote)) && (Z.land flags 2 =? 0)) eqn:Hc.
  { apply andb_true_iff in Hc as [H1 H2]. apply negb_true_iff, has_key_false in H1. split; [done|]. right. exists key.
    split_and!; [done|done|]. unfold has_syn. by rewrite H2. }
  destruct (reverse_binding b1 6 port key Hi1 Hr) as [Hpr Hpt].
  assert (is_Some (bindings b1 !! key)) as Hb by (destruct (bindings b1 !! key); [by eexists|done]).
  destruct (admit_cases key remote b1) as [[-> Had]| ->]; [|done].
  destruct (tcp_session_ok key remote false flags now b1 (admitted_ready b1 key remote Hi1 Hb Had) Hpr Hn)
    as (b2 & -> & Hi2 & Hn2 & Hch).
  split_and!; [by apply set_domain_inv|by exists rel, b1, key, b2|].
  intros rel' b1' key' [= <- <-] Hk'. rewrite Hr in Hk'. injection Hk' as <-. exact Hch.
Qed.

(** ** SYN quotes *)

Lemma quote_len_ok p : is_bytes p -> 0 < len p -> exists n, quote_len p = Ok n /\ 0 <= n <= 68 /\ n <= len p.
Proof.
  intros Hb Hp. unfold quote_len. pose proof (safe_idx (E:=io_error) p 0 ltac:(lia)) as Hs.
  destruct (idx p 0) as [p0|e|] eqn:Hi; [|by apply idx_Ok in Hi as [_ ?] || (unfold idx in Hi; cbn in Hi; case_match; done)|by destruct Hs].
  pose proof (is_bytes_idx p 0 p0 Hb Hi). cbn [mbind outcome_bind]. eexists. split; [done|].
  assert (0 <= Z.land p0 15) by (apply Z.land_nonneg; lia). lia.
Qed.
Lemma remember_tcp_syn_ok port remote p b n :
  bib_inv b -> is_bytes p -> 0 < len p -> quote_len p = Ok n -> charged_bytes b + n <= CAP ->
  exists b', remember_tcp_syn port remote p b = (Ok tt, b') /\ bib_inv b'.
Proof.
  intros Hi Hb Hp Hn Hc. cbv [remember_tcp_syn mbind M_bind get lift mret M_ret modify].
  destruct (reverse b !! (6, port)) as [key|] eqn:Hr; [|by eauto].
  destruct (sessions b !! (key, remote)) as [s|] eqn:Hs; [|by eauto].
  destruct (bool_decide (s_tcp s = Some V4Init) && (len (s_syn_quote s) =? 0)) eqn:Hc1; [|by eauto].
  apply andb_true_iff in Hc1 as [Ht%bool_decide_eq_true Hq]. rewrite Hn.
  destruct (quote_len_ok p Hb Hp) as (n' & Hn' & Hb1 & Hb2). rewrite Hn in Hn'. injection Hn' as <-.
  assert (slice (E:=io_error) p 0 n = Ok (sub p 0 n)) as -> by (apply slice_Ok; split_and!; lia || done).
  eexists. split; [done|]. assert (len (sub p 0 n) = n) as Hln by (rewrite len_sub; lia).
  set (s' := mkSession (s_expires s) (s_tcp s) (s_probe s) (sub p 0 n)).
  pose proof Hi as [Hwf Hcaps]. destruct (bi_sessions _ _ Hwf _ _ Hs) as [_ (Hu & Htc & Hql & Hqt & Hpr)].
  assert (session_wf key s') as Hs'.
  { refine (conj Hu (conj Htc (conj _ (conj _ Hpr)))); cbn [s' s_syn_quote s_tcp]; [split; [by apply is_bytes_sub|lia]|done]. }
  pose proof Hwf as [W1 W2 W3 W4 W5 W6 W7 W8 W9 W10 W11 W12]. destruct (counts_update _ _ _ s' Hs) as (C1 & C2 & C3).
  split.
  - split; cbn [set_sessions set_quote_bytes ports bindings reverse sessions hosts next tcp_quote_bytes tcp_timeouts udp_seconds icmp_seconds]; try done.
    + intros k bd Hk. rewrite C1. by apply W6.
    + intros k s0 [[<- <-]|[_ Hk]]%lookup_insert_Some; [|by apply W7]. split; [by eapply W7|done].
    + intros h. rewrite W8. unfold host_entry. by rewrite C2.
    + intros k s0 [[<- <-]|[_ Hk]]%lookup_insert_Some; [|by eapply W9]. exact (W9 _ _ Hs).
    + rewrite C3. cbn [s' s_syn_quote]. lia.
  - destruct Hcaps as [C4 C5 C6 C7]. split; cbn [set_sessions set_quote_bytes bindings sessions hosts]; try done.
    + by rewrite slen_update.
    + unfold charged_bytes in *. cbn [set_sessions set_quote_bytes bindings reverse sessions hosts tcp_timeouts tcp_quote_bytes].
      rewrite slen_update by done. lia.
Qed.
(** A second expiry at the same time changes nothing. *)
Lemma survivors_live (now : Z) (m : gmap SessionKey Session) sk s : survivors now m !! sk = Some s -> now < s_expires s.
Proof. by intros [_ ?]%map_lookup_filter_Some. Qed.
Lemma survivors_idem (now : Z) m : survivors now (survivors now m) = survivors now m.
Proof. apply survivors_id. intros sk s. apply survivors_live. Qed.
Lemma tcp_in_packet_ok port remote flags now p b :
  bib_inv b -> 0 <= now -> is_bytes p -> 0 < len p ->
  match tcp_in_packet port remote flags now p b with
  | (Ok _, b') | (Err _, b') => bib_inv b'
  | (Panic, _) => False
  end.
Proof.
  intros Hi Hn Hb Hp. destruct (expire_inv now b Hi) as (rel & b1 & He & Hi1 & Hsh & Hse).
  destruct (quote_len_ok p Hb Hp) as (n & Hq & Hn1 & Hn2).
  cbv [tcp_in_packet mbind M_bind get lift mret M_ret]. rewrite He.
  destruct (reverse b1 !! (6, port)) as [key|] eqn:Hr; [|done].
  destruct (expire_inv now b1 Hi1) as (rel2 & b2 & He2 & Hi2 & Hsh2 & Hse2).
  assert (sessions b2 = sessions b1) as Hs21 by (rewrite Hse2, Hse; apply survivors_idem).
  pose proof (tcp_in_ok port remote flags now b1 Hi1 Hn) as Hin.
  destruct (needs_quote flags (sessions b1 !! (key, remote))) eqn:Hneed; cbn [andb].
  - rewrite Hq. cbn [throw]. destruct (Z.ltb_spec CAP (charged_bytes b1 +
      (n + of_bool (negb (bool_decide (is_Some (sessions b1 !! (key, remote))))) * 256))) as [|Hcap]; [done|].
    destruct (tcp_in port remote flags now b1) as [[[hp|]|e|] b3]; [| |by destruct Hin as [[? _] _]|done].
    + destruct Hin as (Hi3 & (rel3 & b1' & key' & b2' & He3 & _ & Hr3 & _) & Hch). rewrite He2 in He3. injection He3 as <- <-.
      rewrite bool_decide_true by done.
      assert (key' = key) as ->. { pose proof (sh_reverse _ _ Hsh2 _ _ Hr3). congruence. }
      specialize (Hch _ _ _ He2 Hr3). rewrite Hs21 in Hch. pose proof (sh_bytes _ _ Hsh2).
      destruct (remember_tcp_syn_ok port remote p b3 n Hi3 Hb Hp Hq) as (b4 & -> & Hi4); [|done].
      destruct (sessions b1 !! (key, remote)) eqn:Hk.
      * rewrite bool_decide_true in Hcap by done. cbn in Hcap. lia.
      * rewrite bool_decide_false in Hcap by (intros [? ?]; done). cbn in Hcap. lia.
    + rewrite bool_decide_false by (intros [? ?]; done). by destruct Hin as [[? _] _].
  - destruct (tcp_in port remote flags now b1) as [[[hp|]|e|] b3]; [by destruct Hin|by destruct Hin as [[? _] _]|by destruct Hin as [[? _] _]|done].
Qed.

(** ** Timeouts and probes *)

Lemma take_tcp_timeouts_ok limit b : bib_inv b ->
  exists out b', take_tcp_timeouts limit b = (Ok out, b') /\ bib_inv b' /\ out ++ tcp_timeouts b' = tcp_timeouts b.
Proof.
  intros [Hwf Hc]. cbv [take_tcp_timeouts mbind M_bind get mret M_ret modify].
  eexists _, _. split; [done|]. split; [|apply take_drop]. pose proof Hwf as [W1 W2 W3 W4 W5 W6 W7 W8 W9 W10 [T1 T2] W12].
  destruct Hc as [C1 C2 C3 C4]. split; split; cbn [set_timeouts ports bindings reverse sessions hosts next tcp_quote_bytes tcp_timeouts udp_seconds icmp_seconds]; try done.
  - rewrite len_drop. pose proof (len_nonneg (tcp_timeouts b)). split; [lia|by apply Forall_drop].
  - unfold charged_bytes in *. cbn [set_timeouts bindings reverse sessions hosts tcp_timeouts tcp_quote_bytes].
    rewrite len_drop. pose proof (len_nonneg (tcp_timeouts b)). lia.
Qed.

(** Clearing a probe changes nothing that is counted. *)
Definition unprobed (s : Session) : Session := mkSession (s_expires s) (s_tcp s) false (s_syn_quote s).
Lemma unprobe_inv b sk s : bib_inv b -> sessions b !! sk = Some s ->
  bib_inv (set_sessions (<[sk := unprobed s]> (sessions b)) b).
Proof.
  intros [Hwf Hc] Hs. pose proof Hwf as [W1 W2 W3 W4 W5 W6 W7 W8 W9 W10 W11 W12].
  destruct (counts_update _ _ _ (unprobed s) Hs) as (C1 & C2 & C3). destruct Hc as [D1 D2 D3 D4].
  split; split; cbn [set_sessions ports bindings reverse sessions hosts next tcp_quote_bytes tcp_timeouts udp_seconds icmp_seconds]; try done.
  - intros k bd Hk. rewrite C1. by apply W6.
  - intros k s0 [[<- <-]|[_ Hk]]%lookup_insert_Some; [|by apply W7]. destruct (W7 _ _ Hs) as [? (A & B & C & D & _)].
    split; [done|]. by split_and!.
  - intros h. rewrite W8. unfold host_entry. by rewrite C2.
  - intros k s0 [[<- <-]|[_ Hk]]%lookup_insert_Some; [exact (W9 _ _ Hs)|by eapply W9].
  - rewrite C3. cbn [unprobed s_syn_quote]. lia.
  - by rewrite slen_update.
  - unfold charged_bytes in *. cbn [set_sessions bindings reverse sessions hosts tcp_timeouts tcp_quote_bytes].
    by rewrite slen_update.
Qed.
(** A probe names a port that is still bound. *)
Definition probe_bound (b : Bindings) (p : Z * Z * Z * Remote) : Prop := is_Some (reverse b !! (6, p.1.2)).
Lemma probe_loop_ok keys limit out b :
  bib_inv b -> (forall sk, sk ∈ keys -> is_Some (sessions b !! sk)) -> Forall (probe_bound b) out ->
  exists res b', probe_loop keys limit out b = (Ok res, b') /\ bib_inv b' /\ len res <= Z.max (len out) (Z.min limit 32) /\
    reverse b' = reverse b /\ Forall (probe_bound b) res.
Proof.
  revert out b. induction keys as [|key keys IH]; intros out b Hi Hk Ho; cbn [probe_loop].
  { eexists _, _. split; [done|]. split_and!; [done|lia|done|done]. }
  destruct (Z.leb_spec (Z.min limit 32) (len out)); [eexists _, _; split; [done|]; split_and!; [done|lia|done|done]|].
  cbv [mbind M_bind get lift modify]. destruct (Hk key) as [s Hs]; [left|]. rewrite Hs. cbn [unwrap].
  destruct (s_probe s) eqn:Hpr.
  - pose proof Hi as [Hwf _]. destruct (binding_of_session None b Hwf _ _ Hs) as (bd & Hbd & _).
    destruct (bi_sessions _ _ Hwf _ _ Hs) as [_ (_ & [Htcp _] & _ & _ & Htr)]. specialize (Htr Hpr).
    rewrite Hbd. cbn [unwrap]. destruct (IH (out ++ [(k_host key.1, k_port key.1, b_port bd, key.2)])
      (set_sessions (<[key := unprobed s]> (sessions b)) b)) as (res & b' & Hr & Hi' & Hl & Hrev & Hres).
    + by apply unprobe_inv.
    + intros sk Hsk. cbn [set_sessions sessions]. destruct (decide (key = sk)) as [<-|]; [rewrite lookup_insert_eq; by eexists|].
      rewrite lookup_insert_ne by done. apply Hk. by right.
    + apply Forall_app. split; [done|]. constructor; [|constructor]. unfold probe_bound. cbn [fst snd set_sessions reverse].
      rewrite <-Htcp by (rewrite Htr; by eexists). rewrite (bi_reverse _ _ Hwf _ _ Hbd). by eexists.
    + exists res, b'. rewrite len_app, len_cons, len_nil in Hl. split; [exact Hr|]. split_and!; [done|lia|done|done].
  - apply IH; [done| |done]. intros sk Hsk. apply Hk. by right.
Qed.
Lemma take_tcp_probes_ok limit b : bib_inv b -> 0 <= limit ->
  exists out b', take_tcp_probes limit b = (Ok out, b') /\ bib_inv b' /\ len out <= Z.min limit 32 /\
    reverse b' = reverse b /\ Forall (probe_bound b) out.
Proof.
  intros Hi Hl. cbv [take_tcp_probes mbind M_bind get].
  destruct (probe_loop_ok (session_keys (sessions b)) limit [] b Hi) as (out & b' & H1 & H2 & H3 & H4 & H5).
  { intros sk. apply session_keys_spec. }
  { constructor. }
  exists out, b'. rewrite len_nil in H3. split_and!; [done|done|lia|done|done].
Qed.

(** ** Dropping bindings *)

Lemma drop_all_ok l b :
  ports_wf (ports b) -> NoDup (map (fun kb : Key * Binding => h_key (b_lease kb.2)) l) ->
  (forall kb, kb ∈ l -> holds (ports b) (b_lease kb.2) Translation) ->
  exists p, drop_all l b = (Ok tt, set_ports p b) /\ ports_wf p /\
    forall k, entries p !! k = if decide (k ∈ map (fun kb => h_key (b_lease kb.2)) l) then None else entries (ports b) !! k.
Proof.
  unfold drop_all. revert b. induction l as [|kb l IH]; intros b Hp Hnd Hh; cbn [for_each map].
  { exists (ports b). split_and!; [by destruct b|done|]. intros k. rewrite decide_False; [done|]. by intros ?%elem_of_nil. }
  inversion_clear Hnd as [|? ? Hni Hnd'].
  destruct (drop_held_Ok (b_lease kb.2) (ports b) Hp) as (p & Hd & Hpw & _ & He & _).
  specialize (He Translation (Hh kb ltac:(left))). cbv [mbind M_bind drop_binding get lift modify]. rewrite Hd.
  destruct (IH (set_ports p b)) as (p' & Hfe & Hpw' & He').
  - done.
  - done.
  - intros kb' Hin. unfold holds. cbn [set_ports ports]. rewrite He, lookup_delete_ne; [apply Hh; by right|].
    intros E. apply Hni. rewrite E. apply list_elem_of_fmap. by exists kb'.
  - exists p'. split_and!; [exact Hfe|done|]. intros k. rewrite He'. cbn [set_ports ports]. rewrite He.
    destruct (decide (k = h_key (b_lease kb.2))) as [->|Hne].
    + rewrite lookup_delete_eq, (decide_True (P := _ ∈ _ :: _)) by left. by case_decide.
    + rewrite lookup_delete_ne by done. destruct (decide (k ∈ map _ l)) as [Hin|Hnin].
      * by rewrite decide_True by (by right).
      * rewrite decide_False; [done|]. intros [?|?]%elem_of_cons; done.
Qed.
(** The leases of a set of bindings, taken from a well-formed table. *)
Lemma leases_NoDup b (m : gmap Key Binding) : bib_wf None b -> m ⊆ bindings b ->
  NoDup (map (fun kb : Key * Binding => h_key (b_lease kb.2)) (map_to_list m)) /\
  (forall kb, kb ∈ map_to_list m -> holds (ports b) (b_lease kb.2) Translation) /\
  forall k, k ∈ map (fun kb => h_key (b_lease kb.2)) (map_to_list m) <->
    exists key bd, m !! key = Some bd /\ k = (k_protocol key, b_port bd).
Proof.
  intros Hwf Hsub. assert (forall k bd, m !! k = Some bd -> bindings b !! k = Some bd) as Hm
    by (intros k bd Hk; by eapply lookup_weaken).
  split_and!.
  - apply NoDup_fmap_2_strong; [|apply NoDup_map_to_list]. intros [k1 bd1] [k2 bd2] H1%elem_of_map_to_list%Hm H2%elem_of_map_to_list%Hm E.
    cbn in E. rewrite (proj1 (bi_lease _ _ Hwf _ _ H1)), (proj1 (bi_lease _ _ Hwf _ _ H2)) in E. injection E as E1 E2.
    assert (k1 = k2) as -> by (by eapply (port_unique None b Hwf)). congruence.
  - intros [k bd] Hk%elem_of_map_to_list%Hm. by apply (bi_lease _ _ Hwf _ _ Hk).
  - intros k. rewrite list_elem_of_fmap. split.
    + intros ([key bd] & -> & Hk%elem_of_map_to_list). exists key, bd. split; [done|]. cbn. by apply (bi_lease _ _ Hwf), Hm.
    + intros (key & bd & Hk & ->). exists (key, bd). cbn. split; [|by apply elem_of_map_to_list].
      symmetry. by apply (bi_lease _ _ Hwf), Hm.
Qed.
Lemma clear_ok b : bib_inv b ->
  exists p, clear b = (Ok (port_keys (reverse b)), mkBindings (domain b) p ∅ ∅ ∅ ∅ None (udp_filtering b) (udp_seconds b) (icmp_seconds b) [] 0) /\
    bib_inv (snd (clear b)) /\
    forall pp, entries p !! pp = if has_key (reverse b) pp then None else entries (ports b) !! pp.
Proof.
  intros [Hwf Hc]. cbv [clear mbind M_bind get modify mret M_ret].
  destruct (leases_NoDup b (bindings b) Hwf ltac:(done)) as (L1 & L2 & L3).
  destruct (drop_all_ok (map_to_list (bindings b)) (set_bindings ∅ b) (bi_ports _ _ Hwf) L1 L2) as (p & Hd & Hp & He).
  rewrite Hd. exists p. split_and!; [done| |].
  - destruct (bi_config _ _ Hwf) as [? ?]. split; split; try done.
  - intros pp. rewrite He. cbn [set_bindings ports]. destruct (has_key (reverse b) pp) eqn:Hk.
    + apply has_key_true in Hk as [key Hk]. rewrite decide_True; [done|]. apply L3.
      destruct (bi_bindings _ _ Hwf _ _ Hk) as (bd & Hbd & ->). by exists key, bd.
    + apply has_key_false in Hk. rewrite decide_False; [done|]. intros (key & bd & Hbd & ->)%L3.
      apply (bi_reverse _ _ Hwf) in Hbd. congruence.
Qed.

(** ** Retaining domains *)

(** The host table rebuilt from the tables is the one the invariant asks for. *)
Definition tally (n m : Z) : option (Z * Z) := if (n =? 0) && (m =? 0) then None else Some (n, m).
Lemma tally_default n m : default (0, 0) (tally n m) = (n, m).
Proof. unfold tally. destruct (Z.eqb_spec n 0), (Z.eqb_spec m 0); subst; done. Qed.
Lemma count_binding_fold (bs : gmap Key Binding) h :
  map_fold count_binding ∅ bs !! h = tally (mcount (binding_of_host h) bs) 0.
Proof.
  revert h. induction bs as [|k bd bs Hk IH] using map_ind; intros h; [done|].
  rewrite map_fold_insert_L; [|clear; intros|done].
  - unfold count_binding at 1. rewrite IH, tally_default, mcount_insert by done. unfold binding_of_host at 3.
    destruct (Z.eqb_spec (k_host k) h) as [->|Hne].
    + rewrite lookup_insert_eq. unfold tally. cbn [of_bool]. pose proof (mcount_nonneg (binding_of_host h) bs).
      destruct (Z.eqb_spec (mcount (binding_of_host h) bs + 1) 0); [lia|done].
    + rewrite lookup_insert_ne, IH by done. cbn [of_bool]. by rewrite Z.add_0_r.
  - unfold count_binding. destruct (decide (k_host j1 = k_host j2)) as [->|Hne].
    + destruct (default (0, 0) (y !! k_host j2)) as [a c] eqn:E.
      rewrite !lookup_insert_eq. cbn [default]. unfold id. by rewrite !insert_insert_eq.
    + destruct (default (0, 0) (y !! k_host j1)) as [a c] eqn:E1, (default (0, 0) (y !! k_host j2)) as [a2 c2] eqn:E2.
      rewrite (lookup_insert_ne _ (k_host j2) (k_host j1)), (lookup_insert_ne _ (k_host j1) (k_host j2)) by done.
      rewrite E1, E2. by apply insert_insert_ne.
Qed.
Lemma count_session_fold (bs : gmap Key Binding) (ss : gmap SessionKey Session) h :
  map_fold count_session (map_fold count_binding ∅ bs) ss !! h =
  tally (mcount (binding_of_host h) bs) (mcount (session_of_host h) ss).
Proof.
  revert h. induction ss as [|sk s ss Hk IH] using map_ind; intros h; [apply count_binding_fold|].
  rewrite map_fold_insert_L; [|clear; intros|done].
  - unfold count_session at 1. rewrite IH, tally_default, mcount_insert by done. unfold session_of_host at 3.
    destruct (Z.eqb_spec (k_host sk.1) h) as [->|Hne].
    + rewrite lookup_insert_eq. unfold tally. cbn [of_bool]. pose proof (mcount_nonneg (session_of_host h) ss).
      destruct (Z.eqb_spec (mcount (session_of_host h) ss + 1) 0); [lia|]. by rewrite andb_false_r.
    + rewrite lookup_insert_ne, IH by done. cbn [of_bool]. by rewrite Z.add_0_r.
  - unfold count_session. destruct (decide (k_host j1.1 = k_host j2.1)) as [->|Hne].
    + destruct (default (0, 0) (y !! k_host j2.1)) as [a c] eqn:E.
      rewrite !lookup_insert_eq. cbn [default]. unfold id. by rewrite !insert_insert_eq.
    + destruct (default (0, 0) (y !! k_host j1.1)) as [a c] eqn:E1, (default (0, 0) (y !! k_host j2.1)) as [a2 c2] eqn:E2.
      rewrite (lookup_insert_ne _ (k_host j2.1) (k_host j1.1)), (lookup_insert_ne _ (k_host j1.1) (k_host j2.1)) by done.
      rewrite E1, E2. by apply insert_insert_ne.
Qed.

Definition keeps (domains : list Prefix) (k : Key) : bool := existsb (fun p => p_address p =? k_domain k) domains.
Section retain.
Context (b : Bindings) (domains : list Prefix) (p : Ports.State).
Let keep := keeps domains.
Hypothesis Hwf : bib_wf None b.
Hypothesis Hp : ports_wf p.
Hypothesis He : forall pp, entries p !! pp =
  if decide (pp ∈ map (fun kb => h_key (b_lease kb.2))
       (map_to_list (filter (fun kb : Key * Binding => keep kb.1 = false) (bindings b))))
  then None else entries (ports b) !! pp.
Let bs := filter (fun kb : Key * Binding => keep kb.1 = true) (bindings b).
Let ss := filter (fun ks : SessionKey * Session => keep ks.1.1 = true) (sessions b).
Definition retained : Bindings :=
  mkBindings (domain b) p (filter (fun kb => keep kb.1 = true) (bindings b)) (filter (fun pk => keep pk.2 = true) (reverse b))
    (filter (fun ks => keep ks.1.1 = true) (sessions b))
    (map_fold count_session (map_fold count_binding ∅ (filter (fun kb => keep kb.1 = true) (bindings b)))
       (filter (fun ks => keep ks.1.1 = true) (sessions b)))
    (mmin s_expires (filter (fun ks => keep ks.1.1 = true) (sessions b)))
    (udp_filtering b) (udp_seconds b) (icmp_seconds b) (tcp_timeouts b)
    (msum (fun _ s => len (s_syn_quote s)) (filter (fun ks => keep ks.1.1 = true) (sessions b))).

Lemma retained_count k : keep k = true -> mcount (of_key k) ss = mcount (of_key k) (sessions b).
Proof.
  intros Hk. unfold mcount, ss. rewrite msum_filter. apply msum_ext. intros sk s _. cbn [fst].
  case_decide as Hd; [done|]. unfold of_key. rewrite bool_decide_false; [done|]. intros <-. done.
Qed.
Lemma retained_session_bound sk s : ss !! sk = Some s -> is_Some (bs !! sk.1).
Proof.
  intros [Hs Hk]%map_lookup_filter_Some. destruct (bi_sessions _ _ Hwf _ _ Hs) as [[bd Hbd] _]. exists bd.
  by apply map_lookup_filter_Some.
Qed.
Lemma retained_hosts h : map_fold count_session (map_fold count_binding ∅ bs) ss !! h = host_entry bs ss h.
Proof.
  rewrite count_session_fold. unfold tally, host_entry. destruct (Z.eqb_spec (mcount (binding_of_host h) bs) 0) as [E|]; [|done].
  assert (mcount (session_of_host h) ss = 0) as ->; [|done].
  apply msum_zero. intros sk s Hs. destruct (retained_session_bound sk s Hs) as [bd Hbd].
  pose proof (mcount_zero _ _ E _ _ Hbd) as Hz. unfold binding_of_host in Hz. unfold session_of_host. by rewrite Hz.
Qed.
(** The reverse table is the image of the bindings, so both lose as many entries. *)
Lemma reverse_size (m : gmap Key Binding) (rv : gmap (Z * Z) Key) :
  (forall k bd, m !! k = Some bd -> rv !! (k_protocol k, b_port bd) = Some k) ->
  (forall pp k, rv !! pp = Some k -> exists bd, m !! k = Some bd /\ pp = (k_protocol k, b_port bd)) ->
  slen rv = slen m.
Proof.
  revert rv. induction m as [|k bd m Hk IH] using map_ind; intros rv H1 H2.
  - assert (rv = ∅) as ->; [|done]. apply map_eq. intros pp. destruct (rv !! pp) as [k|] eqn:E; [|done].
    by destruct (H2 _ _ E) as (bd & ? & _).
  - pose proof (H1 k bd ltac:(apply lookup_insert_eq)) as Hrk.
    rewrite slen_insert by done. rewrite <-(IH (delete (k_protocol k, b_port bd) rv)).
    + rewrite slen_delete by (by eexists). lia.
    + intros k' bd' Hk'. assert (k <> k') by congruence.
      pose proof (H1 k' bd' ltac:(by rewrite lookup_insert_ne)) as Hr'. rewrite lookup_delete_ne; [done|]. intros E. congruence.
    + intros pp k' [Hne Hr]%lookup_delete_Some. destruct (H2 _ _ Hr) as (bd' & [[-> ->]|[_ Hm]]%lookup_insert_Some & ->); [done|].
      by exists bd'.
Qed.
Lemma retained_wf : bib_wf None retained.
Proof.
  pose proof Hwf as [W1 W2 W3 W4 W5 W6 W7 W8 W9 W10 W11 W12].
  assert (forall k bd, bs !! k = Some bd -> filter (fun pk : Z * Z * Key => keep pk.2 = true) (reverse b) !! (k_protocol k, b_port bd) = Some k) as R1.
  { intros k bd [Hk Hke]%map_lookup_filter_Some. apply map_lookup_filter_Some. split; [by apply W3|done]. }
  assert (forall pp k, filter (fun pk : Z * Z * Key => keep pk.2 = true) (reverse b) !! pp = Some k ->
    exists bd, bs !! k = Some bd /\ pp = (k_protocol k, b_port bd)) as R2.
  { intros pp k [Hk Hke]%map_lookup_filter_Some. destruct (W4 _ _ Hk) as (bd & Hbd & ->). exists bd. split; [|done].
    by apply map_lookup_filter_Some. }
  split; cbn [retained ports bindings reverse sessions hosts next tcp_quote_bytes tcp_timeouts udp_seconds icmp_seconds]; try done.
  - intros k bd [Hk Hke]%map_lookup_filter_Some. destruct (W2 _ _ Hk) as [E1 E2]. split; [done|]. unfold holds in *.
    rewrite He, decide_False; [done|].
    intros (k' & bd' & [Hk' Hke']%map_lookup_filter_Some & E)%(leases_NoDup b (filter (fun kb : Key * Binding => keep kb.1 = false) (bindings b)) Hwf (map_filter_subseteq _ _)).
    rewrite E1 in E. cbn in Hke'. injection E as P1 P2.
    cbn in Hke. assert (k' = k) as -> by (by eapply (port_unique None b Hwf)). congruence.
  - by apply reverse_size.
  - intros k bd [Hk Hke]%map_lookup_filter_Some. fold ss. rewrite retained_count by done. by apply W6.
  - intros sk s Hs. split; [by apply (retained_session_bound sk s)|]. apply map_lookup_filter_Some in Hs as [Hs _]. by apply W7.
  - apply retained_hosts.
  - intros sk s Hs. fold ss in Hs |- *. pose proof (mmin_spec s_expires ss) as Hm. destruct (mmin s_expires ss) as [t|].
    + exists t. split; [done|]. by eapply Hm.
    + rewrite Hm in Hs. by rewrite lookup_empty in Hs.
Qed.

Lemma retained_caps : bib_caps b -> bib_caps retained.
Proof.
  intros [C1 C2 C3 C4]. pose proof retained_wf as Hrw.
  pose proof (map_size_filter (fun kb : Key * Binding => keep kb.1 = true) (bindings b)) as S1.
  pose proof (map_size_filter (fun ks : SessionKey * Session => keep ks.1.1 = true) (sessions b)) as S2.
  pose proof (map_size_filter (fun pk : Z * Z * Key => keep pk.2 = true) (reverse b)) as S3.
  assert (forall h n m, hosts retained !! h = Some (n, m) -> exists n0 m0, hosts b !! h = Some (n0, m0) /\ n <= n0 /\ m <= m0) as Hh.
  { intros h n m Hh. rewrite (bi_hosts _ _ Hrw) in Hh. cbn [retained bindings sessions] in Hh. unfold host_entry in Hh.
    destruct (Z.eqb_spec (mcount (binding_of_host h) (filter (fun kb : Key * Binding => keep kb.1 = true) (bindings b))) 0); [done|].
    injection Hh as <- <-. pose proof (mcount_filter_le (binding_of_host h) (bindings b) (fun kb => keep kb.1 = true)).
    pose proof (mcount_filter_le (session_of_host h) (sessions b) (fun ks => keep ks.1.1 = true)).
    pose proof (mcount_nonneg (binding_of_host h) (filter (fun kb : Key * Binding => keep kb.1 = true) (bindings b))).
    rewrite (bi_hosts _ _ Hwf). unfold host_entry. destruct (Z.eqb_spec (mcount (binding_of_host h) (bindings b)) 0); [lia|].
    by eexists _, _. }
  split; cbn [retained bindings sessions].
  - unfold slen in *. lia.
  - unfold slen in *. lia.
  - intros h n m (n0 & m0 & Hh0 & ? & ?)%Hh. specialize (C3 h n0 m0 Hh0). lia.
  - assert (slen (hosts retained) <= slen (hosts b)) as S4.
    { unfold slen. apply inj_le. rewrite <-!size_dom. apply subseteq_size. intros h. rewrite !elem_of_dom.
      intros [[n m] (n0 & m0 & Hh0 & _)%Hh]. by eexists. }
    assert (tcp_quote_bytes retained <= tcp_quote_bytes b) as S5.
    { cbn [retained tcp_quote_bytes]. rewrite (bi_quotes _ _ Hwf). unfold quote_total. rewrite msum_filter.
      clear. induction (sessions b) as [|k v m Hk IH] using map_ind; [done|]. rewrite !msum_insert by done.
      pose proof (len_nonneg (s_syn_quote v)). case_decide; lia. }
    unfold charged_bytes in *. cbn [retained bindings reverse sessions tcp_timeouts] in *. unfold slen in *. lia.
Qed.
End retain.

Lemma retain_domains_ok domains b : bib_inv b ->
  exists b', retain_domains domains b = (Ok tt, b') /\ bib_inv b' /\
    sessions b' = filter (fun ks => keeps domains ks.1.1 = true) (sessions b) /\
    bindings b' = filter (fun kb => keeps domains kb.1 = true) (bindings b).
Proof.
  intros [Hwf Hc]. cbv [retain_domains set_min_next mbind M_bind get modify].
  set (m := filter (fun kb : Key * Binding => keeps domains kb.1 = false) (bindings b)).
  destruct (leases_NoDup b m Hwf ltac:(apply map_filter_subseteq)) as (L1 & L2 & _).
  destruct (drop_all_ok (map_to_list m)
    (set_bindings (filter (fun kb : Key * Binding => keeps domains kb.1 = true) (bindings b))
       (set_sessions (filter (fun ks : SessionKey * Session => keeps domains ks.1.1 = true) (sessions b)) b))
    (bi_ports _ _ Hwf) L1 L2) as (p & Hd & Hp & He).
  unfold m, keeps in Hd. rewrite Hd. exists (retained b domains p). split_and!; [done| |done|done].
  split; [by apply retained_wf|by apply retained_caps].
Qed.
