(* ===== verification/Nat64.v ===== *)
(** Properties of the translator's tables: the invariant over every sequence of
    operations, exact expiry, and the mapping and filtering behaviour of the handlers. *)

From S2P Require Import Prelude Effects Time Maps Ports TcpState Wire Bindings BindingsInv BindingsOps BindingsFacts.

(** ** Operations and runs *)

Inductive op :=
| UdpOut (source port : Z) (remote : Remote) (now : Z) (occ : Z -> bool)
| UdpIn (port : Z) (remote : Remote) (now : Z)
| TcpOut (source port : Z) (remote : Remote) (flags now : Z)
| TcpIn (port : Z) (remote : Remote) (flags now : Z)
| TcpInPacket (port : Z) (remote : Remote) (flags now : Z) (p : bytes)
| IcmpOut (source id remote now : Z)
| IcmpIn (id remote now : Z)
| Expire (now : Z)
| Clear
| RetainDomains (domains : list Prefix)
| TakeTimeouts (limit : Z)
| TakeProbes (limit : Z)
| SetDomain (d : Z)
| SetUdpFiltering (f : UdpFiltering)
| SetUdpTimeout (seconds : Z)
| SetIcmpTimeout (seconds : Z)
| LocalClaim (protocol port : Z)
| LocalDrop (h : Held).

Section runs.
Context {R : Type} `{Sampler R}.
Abbreviation MR := (M (Bindings * R) io_error).
Definition ignore {A} (m : MR A) : MR unit := m ;; mret tt.
(** A port claimed or released by the host's own services, which share the registry. *)
Definition local_claim (protocol port : Z) : MB unit :=
  b ← get; '(h, p) ← lift (claim protocol port Local (ports b)); modify (set_ports p).
Definition local_drop (h : Held) : MB unit :=
  b ← get; p ← lift (drop_held h (ports b)); modify (set_ports p).
Definition perform (o : op) : MR unit :=
  match o with
  | UdpOut s p r n occ => ignore (udp_out s p r n occ)
  | UdpIn p r n => ignore (bib (udp_in p r n))
  | TcpOut s p r f n => ignore (tcp_out s p r f n)
  | TcpIn p r f n => ignore (bib (tcp_in p r f n))
  | TcpInPacket p r f n b => ignore (bib (tcp_in_packet p r f n b))
  | IcmpOut s i r n => ignore (icmp_out s i r n)
  | IcmpIn i r n => ignore (bib (icmp_in i r n))
  | Expire n => ignore (bib (expire n))
  | Clear => ignore (bib clear)
  | RetainDomains ds => bib (retain_domains ds)
  | TakeTimeouts l => ignore (bib (take_tcp_timeouts l))
  | TakeProbes l => ignore (bib (take_tcp_probes l))
  | SetDomain d => bib (modify (set_domain d))
  | SetUdpFiltering f => bib (set_udp_filtering f)
  | SetUdpTimeout s => bib (set_udp_timeout s)
  | SetIcmpTimeout s => bib (set_icmp_timeout s)
  | LocalClaim pr p => bib (local_claim pr p)
  | LocalDrop h => bib (local_drop h)
  end.
(** Arguments as the types of the source and the callers give them; a released lease is
    one of the host's own. *)
Definition op_wf (o : op) (b : Bindings) : Prop :=
  match o with
  | UdpOut _ p _ n _ | TcpOut _ p _ _ n => is_u16 p /\ 0 <= n
  | IcmpOut _ i _ n => is_u16 i /\ 0 <= n
  | UdpIn _ _ n | TcpIn _ _ _ n | IcmpIn _ _ n => 0 <= n
  | TcpInPacket _ _ _ n b => 0 <= n /\ is_bytes b /\ 0 < len b
  | TakeProbes l => 0 <= l
  | LocalDrop h => forall k bd, bindings b !! k = Some bd -> b_lease bd <> h
  | _ => True
  end.
(** The states reachable from an empty table, whether operations succeed or fail. *)
Inductive reachable : Bindings * R -> Prop :=
| reachable_new p r : ports_wf p -> reachable (with_ports p, r)
| reachable_step st o : reachable st -> op_wf o (fst st) -> reachable (snd (perform o st)).

Lemma set_ports_inv p b : bib_inv b -> ports_wf p ->
  (forall k bd, bindings b !! k = Some bd -> holds p (b_lease bd) Translation) -> bib_inv (set_ports p b).
Proof.
  intros [[W1 W2 W3 W4 W5 W6 W7 W8 W9 W10 W11 W12] Hc] Hp Hh. split; [|by destruct Hc].
  split; try done. intros k bd Hk. split; [by apply W2|by eapply Hh].
Qed.
Lemma local_claim_ok protocol port b : bib_inv b ->
  match local_claim protocol port b with (Ok _, b') | (Err _, b') => bib_inv b' | (Panic, _) => False end.
Proof.
  intros Hi. cbv [local_claim mbind M_bind get lift modify]. pose proof (claim_safe protocol port Local (ports b)) as Hs.
  destruct (claim protocol port Local (ports b)) as [[h p]|e|] eqn:Hcl; [|done|by destruct Hs].
  pose proof Hi as [Hwf _]. apply claim_Ok in Hcl as (Hp & _ & _ & Hfree & _ & He); [|apply Hwf].
  apply set_ports_inv; [done|done|]. intros k bd Hk. destruct (bi_lease _ _ Hwf _ _ Hk) as [E1 E2].
  unfold holds in *. rewrite He, lookup_insert_ne; [done|]. intros E. rewrite <-E in E2. congruence.
Qed.
Lemma local_drop_ok h b : bib_inv b -> (forall k bd, bindings b !! k = Some bd -> b_lease bd <> h) ->
  match local_drop h b with (Ok _, b') | (Err _, b') => bib_inv b' | (Panic, _) => False end.
Proof.
  intros Hi Hne. cbv [local_drop mbind M_bind get lift modify]. pose proof Hi as [Hwf _].
  destruct (drop_held_Ok h (ports b) (bi_ports _ _ Hwf)) as (p & Hd & Hp & _ & H1 & H2). rewrite Hd.
  apply set_ports_inv; [done|done|]. intros k bd Hk. destruct (bi_lease _ _ Hwf _ _ Hk) as [E1 E2]. unfold holds in *.
  destruct (entries (ports b) !! h_key h) as [[id o]|] eqn:Hh.
  - destruct (decide (id = h_id h)) as [->|Hid].
    + rewrite (H1 o eq_refl), lookup_delete_ne; [done|]. intros E. rewrite E, E2 in Hh. injection Hh as E3 _.
      apply (Hne k bd Hk). destruct (b_lease bd), h. cbn in *. congruence.
    + by rewrite H2 by (intros ? [= ? ?]; done).
  - by rewrite H2 by (intros ? ?; done).
Qed.

Definition kept_by (o : op) (st : Bindings * R) : Prop :=
  match perform o st with
  | (Ok _, st') | (Err _, st') => bib_inv (fst st')
  | (Panic, _) => False
  end.
Lemma ignore_bib {A} (m : MB A) b r :
  match m b with (Ok _, b') | (Err _, b') => bib_inv b' | (Panic, _) => False end ->
  match ignore (bib m) (b, r) with (Ok _, st') | (Err _, st') => bib_inv (fst st') | (Panic, _) => False end.
Proof.
  cbv [ignore mbind M_bind bib on_fst mret M_ret]. cbn [fst snd]. by destruct (m b) as [[a|e|] b'].
Qed.
Lemma ignore_out {A} (m : MR A) b r :
  match m (b, r) with (Ok _, (b', _)) | (Err _, (b', _)) => bib_inv b' | (Panic, _) => False end ->
  match ignore m (b, r) with (Ok _, st') | (Err _, st') => bib_inv (fst st') | (Panic, _) => False end.
Proof. cbv [ignore mbind M_bind mret M_ret]. by destruct (m (b, r)) as [[a|e|] [b' r']]. Qed.
Lemma bib_inv_step {A} (m : MB A) b r :
  match m b with (Ok _, b') | (Err _, b') => bib_inv b' | (Panic, _) => False end ->
  match bib m (b, r) with (Ok _, st') | (Err _, st') => bib_inv (fst (A:=Bindings) (B:=R) st') | (Panic, _) => False end.
Proof. cbv [bib on_fst]. cbn [fst snd]. by destruct (m b) as [[a|e|] b']. Qed.
Lemma perform_kept o b r : bib_inv b -> op_wf o b -> kept_by o (b, r).
Proof.
  intros Hi Hw. unfold kept_by. destruct o; cbn [perform op_wf] in *; destruct_and?.
  - apply ignore_out. pose proof (udp_out_ok source port remote now occ b r Hi ltac:(done) ltac:(done)) as Ho.
    destruct (udp_out source port remote now occ (b, r)) as [[a|e|] [b' r']]; [apply Ho|apply Ho|done].
  - apply ignore_bib. pose proof (udp_in_ok port remote now b Hi Hw) as Ho.
    destruct (udp_in port remote now b) as [[[hp|]|e|] b']; unfold only_expired in *; first [apply Ho | done].
  - apply ignore_out. pose proof (tcp_out_ok source port remote flags now b r Hi ltac:(done) ltac:(done)) as Ho.
    destruct (tcp_out source port remote flags now (b, r)) as [[[a|]|e|] [b' r']]; [apply Ho|apply Ho|apply Ho|done].
  - apply ignore_bib. pose proof (tcp_in_ok port remote flags now b Hi Hw) as Ho.
    destruct (tcp_in port remote flags now b) as [[[hp|]|e|] b']; unfold only_expired in *; first [apply Ho | done].
  - apply ignore_bib. by apply tcp_in_packet_ok.
  - apply ignore_out. pose proof (icmp_out_ok source id remote now b r Hi ltac:(done) ltac:(done)) as Ho.
    destruct (icmp_out source id remote now (b, r)) as [[a|e|] [b' r']]; [apply Ho|apply Ho|done].
  - apply ignore_bib. pose proof (icmp_in_ok id remote now b Hi Hw) as Ho.
    destruct (icmp_in id remote now b) as [[[hp|]|e|] b']; unfold only_expired in *; first [apply Ho | done].
  - apply ignore_bib. by destruct (expire_inv now b Hi) as (rel & b' & -> & ? & _).
  - apply ignore_bib. destruct (clear_ok b Hi) as (p & Hcl & Hi' & _). rewrite Hcl in *. done.
  - apply bib_inv_step. by destruct (retain_domains_ok domains b Hi) as (b' & -> & ? & _).
  - apply ignore_bib. by destruct (take_tcp_timeouts_ok limit b Hi) as (out & b' & -> & ? & _).
  - apply ignore_bib. by destruct (take_tcp_probes_ok limit b Hi Hw) as (out & b' & -> & ? & _).
  - apply bib_inv_step. cbn. by apply set_domain_inv.
  - apply bib_inv_step. cbn. destruct Hi as [[] []]. by split; split.
  - apply bib_inv_step. unfold set_udp_timeout. destruct (negb _) eqn:Hc; [done|]. cbn [modify].
    destruct Hi as [[? ? ? ? ? ? ? ? ? ? ? [? ?]] []]. split; split; try done. cbn. lia.
  - apply bib_inv_step. unfold set_icmp_timeout. destruct (negb _) eqn:Hc; [done|]. cbn [modify].
    destruct Hi as [[? ? ? ? ? ? ? ? ? ? ? [? ?]] []]. split; split; try done. cbn. lia.
  - apply bib_inv_step. by apply local_claim_ok.
  - apply bib_inv_step. by apply local_drop_ok.
Qed.
Lemma reachable_inv st : reachable st -> bib_inv (fst st).
Proof.
  induction 1 as [p r Hp|[b r] o _ IH Hw]; [by apply with_ports_inv|].
  pose proof (perform_kept o b r IH Hw) as Hk. unfold kept_by in Hk. by destruct (perform o (b, r)) as [[u|e|] st'].
Qed.

(** ** Mapping *)

Lemma known_address_true b key remote s : sessions b !! (key, remote) = Some s -> known_address b key (r_ip remote) = true.
Proof.
  intros Hs. unfold known_address. apply existsb_exists. exists ((key, remote), s). split.
  - apply list_elem_of_In. by apply elem_of_map_to_list.
  - cbn. rewrite bool_decide_true by done. by rewrite Z.eqb_refl.
Qed.
Lemma known_address_spec b key ip : known_address b key ip = true ->
  exists remote s, sessions b !! (key, remote) = Some s /\ r_ip remote = ip.
Proof.
  unfold known_address. rewrite existsb_exists. intros ([[k r] s] & Hin & [Hk%bool_decide_eq_true Hip%Z.eqb_eq]%andb_true_iff).
  cbn in *. subst k. exists r, s. split; [|done]. apply list_elem_of_In in Hin. by apply elem_of_map_to_list in Hin.
Qed.
(** A session that has not expired survives with its binding and port. *)
Lemma session_survives now b key remote s p :
  bib_inv b -> sessions b !! (key, remote) = Some s -> now < s_expires s ->
  b_port <$> bindings b !! key = Some p ->
  exists rel b', expire now b = (Ok rel, b') /\ bib_inv b' /\ shrinks b b' /\
    sessions b' !! (key, remote) = Some s /\ b_port <$> bindings b' !! key = Some p /\
    reverse b' !! (k_protocol key, p) = Some key.
Proof.
  intros Hi Hs Hlive Hp. destruct (expire_inv now b Hi) as (rel & b' & He & Hi' & Hsh & Hse).
  assert (sessions b' !! (key, remote) = Some s) as Hs'.
  { rewrite Hse. apply map_lookup_filter_Some. rewrite lookup_fmap, Hs. cbn. by rewrite demote_live. }
  pose proof Hi' as [Hwf' _]. destruct (bi_sessions _ _ Hwf' _ _ Hs') as [[bd' Hbd'] _]. cbn in Hbd'.
  destruct (sh_bindings _ _ Hsh _ _ Hbd') as (bd & Hbd & Hpt). rewrite Hbd in Hp. cbn in Hp.
  exists rel, b'. split_and!; [done|done|done|done| |].
  - rewrite Hbd'. cbn. congruence.
  - replace p with (b_port bd') by congruence. by apply (bi_reverse _ _ Hwf').
Qed.
(** Renewing a session that exists needs no admission. *)
Lemma admit_existing b key remote : bib_inv b -> is_Some (sessions b !! (key, remote)) -> admit_session key remote b = (Ok tt, b).
Proof.
  intros [Hwf Hc] [s Hs]. destruct (binding_of_session None b Hwf _ _ Hs) as (bd & Hbd & _). cbn in Hbd.
  destruct (host_of_binding None b Hwf _ _ Hbd) as (m & Hh & _).
  cbv [admit_session mbind M_bind get throw mret M_ret]. rewrite Hh. cbn [default]. unfold id, admit_bytes.
  rewrite (proj2 (has_key_true (sessions b) _)), (proj2 (has_key_true (bindings b) _)), (proj2 (has_key_true (hosts b) _)) by (by eexists).
  cbn [negb of_bool andb orb]. destruct (Z.ltb_spec CAP (charged_bytes b + (0 * 288 + 0 * 128 + 0 * 256))); [|done].
  destruct Hc. lia.
Qed.
Lemma bound_out_facts now key remote s b b' p : bib_inv b -> bib_inv b' -> bound_out now key remote s b b' p ->
  exists rel b1, expire now b = (Ok rel, b1) /\ bib_inv b1 /\ shrinks b b1 /\
    b_port <$> bindings b' !! key = Some p /\ sessions b' = <[(key, remote) := s b1]> (sessions b1) /\
    udp_seconds b' = udp_seconds b /\ domain b' = domain b /\
    (forall k bd, bindings b1 !! k = Some bd -> b_port <$> bindings b' !! k = Some (b_port bd)).
Proof.
  intros Hi Hi' (rel & b1 & b2 & He & Hi1 & Has & Hn). destruct (expire_inv now b Hi) as (rel' & b1' & He' & _ & Hsh & _).
  rewrite He in He'. injection He' as <- <-. exists rel, b1. destruct Has as [A1 A2 (A3 & A4 & A5) A6 A7 A8 A9].
  destruct Hn as [N1 N2 N3 N4 (N5 & N6 & N7) N8]. destruct (sh_config _ _ Hsh) as (S1 & S2 & S3).
  split_and!; [done|done|done|by rewrite N8|by rewrite N1, A1|congruence|pose proof (sh_domain _ _ Hsh); congruence|].
  intros k bd Hk. rewrite N8, A9; [by rewrite Hk|by eexists].
Qed.
End runs.

(** ** Properties *)

(** C2. Over every sequence of outbound and inbound packets, expiries, domain changes,
    configuration changes and claims by other services, whatever the random source, the
    tables stay consistent and within their limits: [reverse] inverts [bindings], counters
    equal what they count, every binding owns its port and has a session, at most 4096
    bindings, 8192 sessions, 128 and 256 per host, and 4 MiB; and no operation panics. *)
Theorem bib_invariant {R} `{Sampler R} (st : Bindings * R) o :
  reachable st -> op_wf o (fst st) ->
  bib_inv (fst st) /\ safe (fst (perform o st)) /\ bib_inv (fst (snd (perform o st))).
Proof.
  intros Hr Hw. pose proof (reachable_inv st Hr) as Hi. destruct st as [b r].
  pose proof (perform_kept o b r Hi Hw) as Hk. unfold kept_by in Hk. cbn [fst] in Hi.
  by destruct (perform o (b, r)) as [[u|e|] st'].
Qed.

(** Expiry removes exactly the sessions whose time has come, after moving expired
    established TCP sessions to a transitory time; a binding goes if and only if its last
    session goes, the others keep their ports: a live mapping is never evicted. *)
Theorem expire_exact now b :
  bib_inv b ->
  exists rel b', expire now b = (Ok rel, b') /\ sessions b' = survivors now (sessions b) /\
    (forall k, is_Some (bindings b' !! k) <-> exists remote s, survivors now (sessions b) !! (k, remote) = Some s) /\
    (forall k bd', bindings b' !! k = Some bd' ->
       exists bd, bindings b !! k = Some bd /\ b_port bd' = b_port bd /\ reverse b' !! (k_protocol k, b_port bd) = Some k).
Proof.
  intros Hi. destruct (expire_inv now b Hi) as (rel & b' & He & [Hwf _] & Hsh & Hse). exists rel, b'.
  split_and!; [done|done| |].
  - intros k. rewrite <-Hse. split.
    + intros [bd Hbd]. destruct (bi_count _ _ Hwf _ _ Hbd) as [Hc [Hpos|]]; [|done]. rewrite Hc in Hpos.
      apply mcount_witness in Hpos as ([k' remote] & s & Hs & Hk). unfold of_key in Hk.
      apply bool_decide_eq_true in Hk as <-. by exists remote, s.
    + intros (remote & s & Hs). by apply (bi_sessions _ _ Hwf _ _ Hs).
  - intros k bd' Hbd'. destruct (sh_bindings _ _ Hsh _ _ Hbd') as (bd & Hbd & Hp). exists bd. split_and!; [done|done|].
    rewrite <-Hp. by apply (bi_reverse _ _ Hwf).
Qed.

(** A UDP source keeps its external port for as long as its binding lives, whatever
    the destination; and a reply from the destination before the timeout is delivered to
    the source, address and port. *)
Theorem udp_mapping {R} `{Sampler R} source port remote now occ b (r : R) p b' r' now' :
  bib_inv b -> is_u16 port -> 0 <= now -> udp_out source port remote now occ (b, r) = (Ok p, (b', r')) ->
  now <= now' < sat64 now (udp_seconds b * 1000) ->
  let key := mkKey 17 source port (domain b) in
  (forall rel b1 bd, expire now b = (Ok rel, b1) -> bindings b1 !! key = Some bd -> p = b_port bd) /\
  exists b'', udp_in p remote now' b' = (Ok (Some (source, port)), b'').
Proof.
  intros Hi Hp Hn Hout Hlive key. pose proof (udp_out_ok source port remote now occ b r Hi Hp Hn) as Ho.
  rewrite Hout in Ho. destruct Ho as [Hi' Hbo]. fold key in Hbo.
  destruct (bound_out_facts _ _ _ _ _ _ _ Hi Hi' Hbo) as (rel & b1 & He & Hi1 & Hsh & Hpt & Hse & Hus & Hdo & Hkeep). split.
  - intros rel' b1' bd He' Hbd. rewrite He in He'. injection He' as <- <-. specialize (Hkeep _ _ Hbd). congruence.
  - destruct (sh_config _ _ Hsh) as (_ & Hus1 & _).
    destruct (session_survives now' b' key remote (mkSession (sat64 now (udp_seconds b1 * 1000)) None false []) p)
      as (rel2 & b2 & He2 & Hi2 & Hsh2 & Hs2 & Hp2 & Hr2); [done|by rewrite Hse, lookup_insert_eq|cbn; rewrite Hus1; lia|done|].
    cbv [udp_in mbind M_bind get mret M_ret modify]. rewrite He2. cbn [key k_protocol] in Hr2. rewrite Hr2.
    rewrite (known_address_true b2 key remote _ Hs2), andb_false_r. rewrite admit_existing by (done || by eexists).
    destruct (udp_session_ok key remote now' b2 (existing_ready b2 _ Hi2 ltac:(by eexists)) eq_refl ltac:(lia)) as (b3 & -> & _).
    by eexists.
Qed.

(** With address-dependent filtering, an inbound UDP packet is delivered only to the
    source of a live binding of that port and only from an address the source has a live
    session with; otherwise nothing is recorded.  No inbound packet creates a binding. *)
Theorem udp_filtering_enforced port remote now b r b' :
  bib_inv b -> 0 <= now -> udp_filtering b = AddressDependent -> udp_in port remote now b = (Ok r, b') ->
  exists rel b1, expire now b = (Ok rel, b1) /\
    (forall k, b_port <$> bindings b' !! k = b_port <$> bindings b1 !! k) /\
    match r with
    | None => b' = b1
    | Some hp => exists key s remote', reverse b1 !! (17, port) = Some key /\ hp = (k_host key, k_port key) /\
        survivors now (sessions b) !! (key, remote') = Some s /\ r_ip remote' = r_ip remote
    end.
Proof.
  intros Hi Hn Hf Hin. destruct (expire_inv now b Hi) as (rel & b1 & He & Hi1 & Hsh & Hse). exists rel, b1. split; [done|].
  destruct (sh_config _ _ Hsh) as (Hf1 & _). rewrite Hf in Hf1.
  cbv [udp_in mbind M_bind get mret M_ret modify] in Hin. rewrite He in Hin.
  destruct (reverse b1 !! (17, port)) as [key|] eqn:Hr; [|by injection Hin as <- <-].
  rewrite Hf1, bool_decide_true in Hin by done. cbn [andb] in Hin.
  destruct (known_address b1 key (r_ip remote)) eqn:Hk; cbn [negb] in Hin; [|by injection Hin as <- <-].
  destruct (reverse_binding b1 17 port key Hi1 Hr) as [Hpr Hpt].
  assert (is_Some (bindings b1 !! key)) as Hb by (destruct (bindings b1 !! key); [by eexists|done]).
  destruct (admit_cases key remote b1) as [[Ha Had]|Ha]; rewrite Ha in Hin; [|done].
  destruct (udp_session_ok key remote now b1 (admitted_ready b1 key remote Hi1 Hb Had) Hpr Hn) as (b2 & Hu & Hi2 & Hn2).
  rewrite Hu in Hin. injection Hin as <- <-. destruct (known_address_spec _ _ _ Hk) as (remote' & s & Hs & Hip).
  split; [intros k; by apply (rn_bindings _ _ _ _ Hn2)|]. exists key, s, remote'. rewrite Hse in Hs. by split_and!.
Qed.

(** TCP state is opened only by a SYN: an outbound or inbound segment without one and
    without a live session is declined and changes nothing but expiry, and an accepted
    segment moves the session by the state machine. *)
Theorem tcp_admission {R} `{Sampler R} source port remote flags now b (r : R) :
  bib_inv b -> is_u16 port -> 0 <= now ->
  let key := mkKey 6 source port (domain b) in
  exists rel b1, expire now b = (Ok rel, b1) /\
  match tcp_out source port remote flags now (b, r) with
  | (Ok None, (b', _)) => b' = b1 /\ sessions b1 !! (key, remote) = None /\ has_syn flags = false
  | (Ok (Some p), (b', _)) => (is_Some (sessions b1 !! (key, remote)) \/ has_syn flags = true) /\
      b_port <$> bindings b' !! key = Some p /\
      sessions b' = <[(key, remote) := tcp_after (sessions b1 !! (key, remote)) true flags now]> (sessions b1)
  | (Err _, (b', _)) => b' = b1
  | (Panic, _) => False
  end.
Proof.
  intros Hi Hp Hn key. destruct (expire_inv now b Hi) as (rel & b1 & He & Hi1 & Hsh & Hse). exists rel, b1. split; [done|].
  pose proof (tcp_out_ok source port remote flags now b r Hi Hp Hn) as Ho. cbv zeta in Ho. fold key in Ho.
  destruct (tcp_out source port remote flags now (b, r)) as [[[p|]|e|] [b' r']] eqn:Hout; [| | |done].
  - destruct Ho as [Hi' Hbo]. destruct (bound_out_facts _ _ _ _ _ _ _ Hi Hi' Hbo) as (rel' & b1' & He' & _ & _ & Hpt & Hs' & _).
    rewrite He in He'. injection He' as <- <-. split_and!; [|done|done].
    destruct (sessions b1 !! (key, remote)) eqn:Hs; [left; by eexists|]. right.
    cbv [tcp_out mbind M_bind bib on_fst self gets mret M_ret] in Hout. cbn [fst snd] in Hout. rewrite He in Hout.
    cbn [fst snd] in Hout. rewrite (sh_domain _ _ Hsh) in Hout. fold key in Hout.
    rewrite (proj2 (has_key_false _ _) Hs) in Hout. cbn [negb andb] in Hout. unfold has_syn.
    by destruct (Z.land flags 2 =? 0).
  - destruct Ho as (_ & (rel' & He') & H1 & H2). rewrite He in He'. injection He' as <- <-. by split_and!.
  - destruct Ho as (_ & rel' & He'). rewrite He in He'. by injection He' as <- <-.
Qed.

(** An allocated port is free in the tables, in the registry and for the caller; it is
    the source's own port when that is free, and otherwise a non-zero port. *)
Theorem allocated_port_free {R} `{Sampler R} protocol port occ b (r : R) p st :
  is_u16 port -> allocate protocol port occ (b, r) = (Ok p, st) ->
  fst st = b /\ is_u16 p /\ reverse b !! (protocol, p) = None /\ entries (ports b) !! (protocol, p) = None /\ occ p = false /\
  (free b protocol occ port = true -> port <> 0 \/ protocol = 1 -> p = port) /\ (p = 0 -> protocol = 1).
Proof.
  intros Hp Ha. pose proof (allocate_ok protocol port occ b r Hp) as Ho. rewrite Ha in Ho. destruct st as [b' r'].
  destruct Ho as (-> & Hf & Hu & Hc). pose proof Hf as Hfree. unfold free in Hf.
  apply andb_true_iff in Hf as [[H1%negb_true_iff H2%negb_true_iff]%andb_true_iff H3%negb_true_iff].
  apply has_key_false in H1. unfold occupied in H2. apply bool_decide_eq_false in H2.
  split_and!; [done|done|done|by apply eq_None_not_Some|done| |]; destruct Hc as [[-> Hc]|[Hc Hpos]]; try done; try lia.
  intros; by destruct Hc.
Qed.

(** ** Witnesses: a host with one UDP and one TCP session *)

Definition sample_host : Z := 0xfd000000000000000000000000000001.
Definition sample_remote : Remote := mkRemote 0xc0000201 53.
Definition sample_ops : list op :=
  [UdpOut sample_host 5000 sample_remote 1000 (fun _ => false); TcpOut sample_host 5001 sample_remote 2 2000].
Definition sample_state : Bindings * ScriptedRandom :=
  foldl (fun st o => snd (perform o st)) (with_ports no_ports, Build_ScriptedRandom []) sample_ops.
Lemma sample_reachable : reachable sample_state.
Proof.
  unfold sample_state. cbn [foldl sample_ops].
  apply (reachable_step _ (TcpOut sample_host 5001 sample_remote 2 2000)); [|split; [split; vm_compute; discriminate|lia]].
  apply (reachable_step _ (UdpOut sample_host 5000 sample_remote 1000 (fun _ => false)));
    [apply reachable_new, no_ports_wf|split; [split; vm_compute; discriminate|lia]].
Qed.
Lemma sample_inv : bib_inv (fst sample_state).
Proof. apply reachable_inv, sample_reachable. Qed.

Lemma bib_invariant_witness :
  bib_counts (fst sample_state) = (2, 2, 1) /\ bib_inv (fst sample_state) /\ bib_inv (fst (snd (perform Clear sample_state))).
Proof.
  split; [vm_compute; reflexivity|].
  destruct (bib_invariant sample_state Clear sample_reachable I) as (H1 & _ & H3).
  split; [exact H1 | exact H3].
Defined.
Lemma expire_exact_witness :
  exists rel b', expire 500000 (fst sample_state) = (Ok rel, b') /\
    sessions b' = survivors 500000 (sessions (fst sample_state)).
Proof.
  pose proof sample_inv as Hi. revert Hi. generalize sample_state. intros st Hi.
  destruct (expire_exact 500000 (fst st) Hi) as (rel & b' & H1 & H2 & _).
  exists rel, b'. split; [exact H1 | exact H2].
Defined.
Lemma udp_mapping_witness :
  exists p b' r' b'', udp_out sample_host 5000 sample_remote 3000 (fun _ => false) sample_state = (Ok p, (b', r')) /\
    udp_in p sample_remote 4000 b' = (Ok (Some (sample_host, 5000)), b'').
Proof.
  pose proof sample_inv as Hi.
  assert (udp_seconds (fst sample_state) = 300) as Hu by (vm_compute; reflexivity).
  assert (match udp_out sample_host 5000 sample_remote 3000 (fun _ => false) sample_state with
          | (Ok _, _) => True | _ => False end) as Hok by (vm_compute; exact I).
  revert Hi Hu Hok. generalize sample_state. intros [b r] Hi Hu Hok. cbn [fst] in Hi, Hu.
  destruct (udp_out sample_host 5000 sample_remote 3000 (fun _ => false) (b, r)) as [[p|e|] [b' r']] eqn:Ho;
    [|destruct Hok..].
  destruct (udp_mapping sample_host 5000 sample_remote 3000 (fun _ => false) b r p b' r' 4000) as [_ [b'' Hin]];
    [exact Hi | split; vm_compute; discriminate | lia | exact Ho | rewrite Hu; split; vm_compute; [discriminate | reflexivity] |].
  exists p, b', r', b''. split; [reflexivity | exact Hin].
Defined.
Lemma udp_filtering_enforced_witness :
  exists rel b1 b', expire 3000 (fst sample_state) = (Ok rel, b1) /\
    udp_in 5000 (mkRemote 0xc0000201 99) 3000 (fst sample_state) = (Ok (Some (sample_host, 5000)), b') /\
    (forall k, b_port <$> bindings b' !! k = b_port <$> bindings b1 !! k).
Proof.
  pose proof sample_inv as Hi.
  assert (udp_filtering (fst sample_state) = AddressDependent) as Hf by (vm_compute; reflexivity).
  assert (fst (udp_in 5000 (mkRemote 0xc0000201 99) 3000 (fst sample_state)) = Ok (Some (sample_host, 5000))) as Hok
    by (vm_compute; reflexivity).
  revert Hi Hf Hok. generalize sample_state. intros st Hi Hf Hok.
  destruct (udp_in 5000 (mkRemote 0xc0000201 99) 3000 (fst st)) as [o b'] eqn:Ho. cbn [fst] in Hok. subst o.
  destruct (udp_filtering_enforced 5000 (mkRemote 0xc0000201 99) 3000 (fst st) (Some (sample_host, 5000)) b')
    as (rel & b1 & He & Hb & _); [exact Hi | lia | exact Hf | exact Ho |].
  exists rel, b1, b'. split; [exact He | split; [reflexivity | exact Hb]].
Defined.
Lemma tcp_admission_witness :
  exists rel b1, expire 3000 (fst sample_state) = (Ok rel, b1).
Proof.
  pose proof sample_inv as Hi. revert Hi. generalize sample_state. intros st Hi.
  destruct (tcp_admission sample_host 5001 sample_remote 16 3000 (fst st) (snd st))
    as (rel & b1 & He & _); [exact Hi | split; vm_compute; discriminate | lia |].
  exists rel, b1. exact He.
Defined.
Lemma allocated_port_free_witness :
  exists p st, allocate 17 5000 (fun _ => false) sample_state = (Ok p, st) /\ is_u16 p /\
    reverse (fst sample_state) !! (17, p) = None.
Proof.
  assert (match allocate 17 5000 (fun _ => false) sample_state with (Ok _, _) => True | _ => False end) as Hok
    by (vm_compute; exact I).
  revert Hok. generalize sample_state. intros [b r] Hok.
  destruct (allocate 17 5000 (fun _ => false) (b, r)) as [[p|e|] st] eqn:Ha; [|destruct Hok..].
  destruct (allocated_port_free 17 5000 (fun _ => false) b r p st) as (_ & H1 & H2 & _);
    [split; vm_compute; discriminate | exact Ha |].
  exists p, st. split; [reflexivity | split; [exact H1 | exact H2]].
Defined.
