(* ===== verification/Headers.v ===== *)
(** The translator's walks over IPv6 extension headers and IPv4 options
    ([src/src/nat64/translate/headers.rs]), and their agreement with the router's own
    walk, [wire::transport]. *)

From S2P Require Import Prelude Checksum Wire WireFacts Ipv4Wire.

(** ** IPv6 extension headers *)

(** [hop], [route], [before], [after] and [problem] of [transport6]. *)
Record Order := mkOrder {
  or_hop : bool;
  or_route : bool;
  or_before : bool;
  or_after : bool;
  or_problem : option Z;
}.
(** The [match next]: each header at most once, in the order of RFC 8200. *)
Definition order_step (b : bytes) (next at_ : Z) (o : Order) : outcome io_error Order :=
  if (next =? 0) && ((at_ =? 40) && negb (or_hop o)) then
    Ok (mkOrder true (or_route o) (or_before o) (or_after o) (or_problem o))
  else if (next =? 43) && (negb (or_route o) && negb (or_after o)) then
    left ← b.[at_ + 3];
    Ok (mkOrder (or_hop o) true (or_before o) (or_after o)
          (if left =? 0 then or_problem o else Some (at_ + 3)))
  else if (next =? 60) && (negb (or_route o) && negb (or_before o)) then
    Ok (mkOrder (or_hop o) (or_route o) true (or_after o) (or_problem o))
  else if (next =? 60) && (or_route o && negb (or_after o)) then
    Ok (mkOrder (or_hop o) (or_route o) (or_before o) true (or_problem o))
  else Err InvalidData.
(** [while option < at + n] *)
Fixpoint options6_walk (fuel : nat) (b : bytes) (option_ end_ : Z) : outcome io_error unit :=
  if end_ <=? option_ then Ok tt else
  match fuel with
  | O => Panic
  | S fuel =>
      kind ← b.[option_];
      if kind =? 0 then options6_walk fuel b (option_ + 1) end_ else
      reject_if end_ <? option_ + 2 with InvalidData;
      l ← b.[option_ + 1];
      reject_if end_ <? option_ + (l + 2) with InvalidData;
      options6_walk fuel b (option_ + (l + 2)) end_
  end.
(** [for _ in 0..16] *)
Fixpoint transport6_loop (rounds : nat) (b : bytes) (next at_ : Z) (o : Order)
  : outcome io_error (Z * Z * option Z) :=
  match rounds with
  | O => Err InvalidData
  | S rounds =>
      if negb (mem next [0; 43; 60]) then Ok (next, at_, or_problem o) else
      reject_if len b <? at_ + 8 with InvalidData;
      l ← b.[at_ + 1];
      let n := (l + 1) * 8 in
      reject_if len b <? at_ + n with InvalidData;
      o ← order_step b next at_ o;
      (if negb (next =? 43) then options6_walk (Z.to_nat n) b (at_ + 2) (at_ + n) else Ok tt) ;;
      next ← b.[at_];
      transport6_loop rounds b next (at_ + n) o
  end.
Definition transport6 (b : bytes) : outcome io_error (Z * Z * option Z) :=
  next ← b.[6];
  transport6_loop 16 b next 40 (mkOrder false false false false None).

(** ** IPv4 source routes *)

(** [while at < p.header_len]; the options were walked by [Packet::parse]. *)
Fixpoint source_route_loop (fuel : nat) (p : Packet) (at_ : Z) : outcome io_error bool :=
  if pk_header_len p <=? at_ then Ok false else
  match fuel with
  | O => Panic
  | S fuel =>
      kind ← (pk_bytes p).[at_];
      if kind =? 0 then Ok false
      else if kind =? 1 then source_route_loop fuel p (at_ + 1)
      else
        l ← (pk_bytes p).[at_ + 1];
        if mem kind [131; 137] then
          reject_if (l <? 3) || negb ((l - 3) mod 4 =? 0) with InvalidData;
          pointer ← (pk_bytes p).[at_ + 2];
          reject_if (pointer <? 4) || negb ((pointer - 4) mod 4 =? 0) with InvalidData;
          if pointer <=? l then Ok true else source_route_loop fuel p (at_ + l)
        else source_route_loop fuel p (at_ + l)
  end.
Definition unexpired_source_route (p : Packet) : outcome io_error bool :=
  source_route_loop (Z.to_nat (pk_header_len p)) p 20.

#[global] Arguments transport6 : simpl never.
#[global] Arguments unexpired_source_route : simpl never.

(** ** Safety and what is returned *)

Lemma order_step_safe b next at_ o : 0 <= at_ -> at_ + 8 <= len b -> safe (order_step b next at_ o).
Proof. intros. unfold order_step. safe_auto. Qed.
Lemma options6_walk_safe fuel b option_ end_ :
  is_bytes b -> 0 <= option_ -> end_ <= len b -> end_ - option_ <= Z.of_nat fuel -> safe (options6_walk fuel b option_ end_).
Proof.
  intros Hb. revert option_. induction fuel as [|fuel IH]; intros option_ Ho Hl Hf; cbn [options6_walk];
    (destruct (Z.leb_spec end_ option_); [done|]); [lia|].
  safe_auto; byte_facts; apply IH; u_lia.
Qed.
Lemma transport6_loop_safe rounds b next at_ o :
  is_bytes b -> 40 <= at_ <= len b -> safe (transport6_loop rounds b next at_ o).
Proof.
  intros Hb. revert next at_ o. induction rounds as [|rounds IH]; intros next at_ o Ha; cbn [transport6_loop]; [done|].
  safe_auto; byte_facts; try (apply order_step_safe; lia); try (apply options6_walk_safe; [done|u_lia..]).
  apply IH. u_lia.
Qed.
Lemma transport6_safe b : is_bytes b -> 40 <= len b -> safe (transport6 b).
Proof. intros. unfold transport6. safe_step; [safe_auto|]. apply transport6_loop_safe; [done|lia]. Qed.

Lemma transport6_loop_Ok rounds b next at_ o r :
  is_bytes b -> is_u8 next -> 40 <= at_ <= len b -> transport6_loop rounds b next at_ o = Ok r ->
  40 <= r.1.2 <= len b /\ is_u8 r.1.1 /\ mem r.1.1 [0; 43; 60] = false.
Proof.
  intros Hb. revert next at_ o. induction rounds as [|rounds IH]; intros next at_ o Hn Ha; cbn [transport6_loop]; [done|].
  destruct (mem next [0; 43; 60]) eqn:Hm; cbn [negb]; [|intros [= <-]; cbn [fst snd]; split_and!; first [done|lia]].
  intros H. inv_all_ok. byte_facts. eapply IH; [| |exact H]; [done|u_lia].
Qed.
Lemma transport6_Ok b p off problem : is_bytes b -> 40 <= len b -> transport6 b = Ok (p, off, problem) ->
  40 <= off <= len b /\ is_u8 p /\ mem p [0; 43; 60] = false.
Proof.
  intros Hb Hl H. unfold transport6 in H. inv_all_ok. byte_facts.
  apply (transport6_loop_Ok _ _ _ _ _ (p, off, problem)) in H; [done|done|done|lia].
Qed.

(** The options of an accepted packet, as its parser walked them. *)
Lemma options_walk_tlv fuel b at_ h :
  options_walk fuel b at_ h = Ok tt -> h <= at_ \/
  exists kind, idx (E:=io_error) b at_ = Ok kind /\ (kind = 0 \/ (kind = 1 /\ exists f, fuel = S f /\ options_walk f b (at_ + 1) h = Ok tt) \/
    exists l f, kind <> 1 /\ idx (E:=io_error) b (at_ + 1) = Ok l /\ 2 <= l /\ at_ + l <= h /\ fuel = S f /\ options_walk f b (at_ + l) h = Ok tt).
Proof.
  destruct fuel as [|fuel]; cbn [options_walk]; (destruct (Z.leb_spec h at_); [by left|]); [done|].
  intros H'. right. apply bind_Ok in H' as (kind & Hk & H'). cbv beta in H'. exists kind. split; [done|].
  destruct (Z.eqb_spec kind 0); [by left|]. right. destruct (Z.eqb_spec kind 1) as [->|]; [left; eauto|]. right.
  inv_all_ok. exists x, fuel. split_and!; [done|done|lia|lia|done|done].
Qed.
Lemma parse_inner_options b q p : parse_inner b q = Ok p ->
  options_walk (Z.to_nat (pk_header_len p)) b 20 (pk_header_len p) = Ok tt.
Proof. intros H. unfold parse_inner in H. inv_all_ok. subst p. cbn [pk_header_len]. repeat match goal with u : () |- _ => destruct u end. done. Qed.
Lemma source_route_loop_safe fuel b p at_ :
  is_bytes b -> pk_bytes p = sub b 0 (len (pk_bytes p)) -> pk_header_len p <= len (pk_bytes p) <= len b -> 0 <= at_ ->
  pk_header_len p - at_ <= Z.of_nat fuel -> (exists f, options_walk f b at_ (pk_header_len p) = Ok tt) ->
  safe (source_route_loop fuel p at_).
Proof.
  intros Hb Hsub Hl. revert at_. induction fuel as [|fuel IH]; intros at_ Ha Hf [f Hw]; cbn [source_route_loop];
    (destruct (Z.leb_spec (pk_header_len p) at_); [done|]); [lia|].
  assert (forall i x, i < pk_header_len p -> idx (E:=io_error) b i = Ok x -> idx (E:=io_error) (pk_bytes p) i = Ok x) as Hidx.
  { intros i x Hi Hx. pose proof (idx_Ok_lt _ _ _ Hx). rewrite Hsub, sub_to. apply idx_Ok in Hx as [? Hx]. apply idx_Ok.
    split; [done|]. rewrite lookup_take_lt by lia. done. }
  apply options_walk_tlv in Hw as [|(kind & Hk & Hw)]; [lia|].
  rewrite (Hidx at_ kind) by (lia || done). cbn [mbind outcome_bind].
  destruct Hw as [->|[(-> & f' & -> & Hw)|(l & f' & H1 & Hlk & H2 & Hh & -> & Hw)]]; [done| |].
  - cbn [Z.eqb Pos.eqb]. apply IH; [lia|lia|by exists f'].
  - destruct (kind =? 0); [done|]. destruct (Z.eqb_spec kind 1); [done|].
    rewrite (Hidx (at_ + 1) l) by (lia || done). cbn [mbind outcome_bind].
    assert (safe (source_route_loop fuel p (at_ + l))) by (apply IH; [lia|lia|by exists f']).
    safe_auto; done.
Qed.
Lemma unexpired_source_route_safe b p : is_bytes b -> parse b = Ok p -> safe (unexpired_source_route p).
Proof.
  intros Hb Hp. pose proof (parse_inner_Ok b false p Hb Hp) as (H1 & H2 & H3 & H4 & _).
  apply (source_route_loop_safe _ b); [done|done|lia|lia|lia|]. eexists. by eapply parse_inner_options.
Qed.

(** ** Agreement with [wire::transport] *)

Lemma idx_drop {E A} (b : list A) n i : 0 <= n -> 0 <= i -> idx (E:=E) (drop (Z.to_nat n) b) i = idx b (n + i).
Proof.
  intros. unfold idx. rewrite lookup_drop. destruct (Z.ltb_spec i 0), (Z.ltb_spec (n + i) 0); try lia.
  by replace (Z.to_nat n + Z.to_nat i)%nat with (Z.to_nat (n + i)) by lia.
Qed.
Lemma slice_from_drop {E} (b : list Z) n k : 0 <= n -> 0 <= k -> n + k <= len b ->
  slice_from (E:=E) (drop (Z.to_nat n) b) k = Ok (drop (Z.to_nat (n + k)) b).
Proof.
  intros. apply slice_from_Ok. split; [rewrite len_drop; lia|]. rewrite sub_from by lia. rewrite drop_drop. f_equal. lia.
Qed.
Lemma transport6_loop_agrees rounds b next at_ o p off problem :
  is_bytes b -> 40 <= at_ <= len b -> transport6_loop rounds b next at_ o = Ok (p, off, problem) ->
  mem p [44; 51] = false ->
  transport_loop rounds next (drop (Z.to_nat at_) b) false = Ok (mkTransport p (drop (Z.to_nat off) b) false false).
Proof.
  intros Hb. revert next at_ o. induction rounds as [|rounds IH]; intros next at_ o Ha; cbn [transport6_loop]; [done|].
  cbn [transport_loop]. destruct (mem next [0; 43; 60]) eqn:Hm; cbn [negb].
  - intros H Hp. inv_all_ok. byte_facts. rewrite len_drop. destruct (Z.ltb_spec (Z.max 0 (len b - Z.of_nat (Z.to_nat at_))) 2); [lia|].
    rewrite idx_drop by lia. match goal with H : idx b (at_ + 1) = Ok ?l |- _ => apply idx_Ok in H as [? Hl]; set (lx := l) in * end.
    assert (idx (E:=WireError) b (at_ + 1) = Ok lx) as -> by (by apply idx_Ok). cbn [mbind outcome_bind].
    unfold transport_advance. rewrite len_drop.
    destruct (Z.ltb_spec (Z.max 0 (len b - Z.of_nat (Z.to_nat at_))) ((lx + 1) * 8)); [u_lia|].
    assert ((next =? 44) = false) as -> by (apply mem_In in Hm; cbn in Hm; lia). cbn [mbind outcome_bind].
    rewrite idx_drop, Z.add_0_r by lia.
    match goal with H : idx b at_ = Ok ?v |- _ => apply idx_Ok in H as [? Hv]; assert (idx (E:=WireError) b at_ = Ok v) as -> by (by apply idx_Ok) end.
    cbn [mbind outcome_bind]. rewrite slice_from_drop by u_lia. cbn [mbind outcome_bind]. eapply IH; [|done|done]. u_lia.
  - intros [= <- <- <-] Hp. cbn [mem existsb] in Hp.
    destruct (Z.eqb_spec next 44); [subst; done|]. destruct (Z.eqb_spec next 51); [subst; done|]. done.
Qed.

(** The parts of a packet that fills its buffer. *)
Lemma raw_envelope b e : is_bytes b -> envelope RawIpv6 b = Ok e -> len (e_packet e) = len b ->
  e_packet e = b /\ len b = 40 + len (e_payload e) /\ e_payload e = drop (Z.to_nat 40) b /\
  idx (E:=io_error) b 6 = Ok (e_next_header e) /\ len (e_payload e) <= u16_max /\ envelope_wf e.
Proof.
  intros Hb He Hl. pose proof (envelope_Ok RawIpv6 b e Hb He) as Hwf. pose proof Hwf as (_ & _ & H3 & H4 & H5 & H6 & _).
  destruct (envelope_shape b e Hb He Hl) as (v0 & v1 & v2 & v3 & Hv & Hv4 & Hpl & Hshape).
  assert (e_packet e = b) as Hpk.
  { destruct (envelope_packet6 [v0; v1; v2; v3] (e_next_header e) (e_hop_limit e) (e_source e) (e_destination e) (e_payload e))
      as [He' _]; [by eexists _, _, _, _|done..|]. rewrite <-Hshape, He in He'. injection He' as He'. by rewrite He'. }
  rewrite Hpk in *. split_and!; [done|done|done| |done|done].
  rewrite Hshape. done.
Qed.

(** ** Properties *)

(** The translator's stricter walk over extension headers never panics or loops, and
    where it accepts a packet it finds the transport header that the router's own walk
    finds, so that both parts of the program see the same ports. *)
Theorem transport_walks_agree b e :
  is_bytes b -> envelope RawIpv6 b = Ok e -> len (e_packet e) = len b ->
  safe (transport6 b) /\
  forall p off problem, transport6 b = Ok (p, off, problem) -> mem p [44; 51] = false ->
    40 <= off <= len b /\ transport e = Ok (mkTransport p (drop (Z.to_nat off) b) false false).
Proof.
  intros Hb He Hl. destruct (raw_envelope b e Hb He Hl) as (_ & Hlen & Hpl & Hnh & _).
  pose proof (len_nonneg (e_payload e)). split; [apply transport6_safe; [done|lia]|].
  intros p off problem Ht Hp. pose proof (transport6_Ok b p off problem Hb ltac:(lia) Ht) as (Ho & _). split; [done|].
  unfold transport6 in Ht. rewrite Hnh in Ht. cbn [mbind outcome_bind] in Ht.
  apply transport6_loop_agrees in Ht; [|done|lia|done]. unfold transport. by rewrite Hpl.
Qed.

(** ** Witnesses *)

(** A UDP packet behind a destination-options header. *)
Definition sample_extended : bytes :=
  packet6 [0x60; 0; 0; 0] 60 64 1 2 [17; 0; 1; 4; 0; 0; 0; 0; 0; 53; 0; 54; 0; 8; 0; 0].
Lemma transport_walks_agree_witness : exists e,
  envelope RawIpv6 sample_extended = Ok e /\ transport6 sample_extended = Ok (17, 48, None) /\
  transport e = Ok (mkTransport 17 [0; 53; 0; 54; 0; 8; 0; 0] false false).
Proof.
  eexists. split; [vm_compute; reflexivity|]. split; [vm_compute; reflexivity|].
  refine (proj2 (proj2 (transport_walks_agree sample_extended _ _ _ _) 17 48 None _ _)).
  - repeat constructor; vm_compute; discriminate.
  - vm_compute; reflexivity.
  - vm_compute; reflexivity.
  - vm_compute; reflexivity.
  - vm_compute; reflexivity.
Defined.
