(* ===== verification/Quotes.v ===== *)
(** The translator's transport helpers ([src/src/nat64/translate.rs], below [impl
    Translator]) and its translation of the packets quoted by ICMP errors
    ([src/src/nat64/translate/errors.rs]): incremental checksum update, quotes in both
    directions and RFC 4884 extensions. *)

From S2P Require Import Prelude Checksum Wire WireFacts Ipv4Wire TcpState Headers.

(** ** Transport helpers *)

Definition udp (b : bytes) : outcome io_error (Z * Z) :=
  reject_if len b <? 8 with InvalidData;
  b4 ← b.[4]; b5 ← b.[5];
  reject_if negb (u16be b4 b5 =? len b) with InvalidData;
  b0 ← b.[0]; b1 ← b.[1]; b2 ← b.[2]; b3 ← b.[3];
  let source := u16be b0 b1 in
  let dest := u16be b2 b3 in
  reject_if dest =? 0 with InvalidData;
  Ok (source, dest).
(** [ports] *)
Definition transport_ports (protocol : Z) (b : bytes) : outcome io_error (Z * Z) :=
  if protocol =? 6 then tcp_ports b
  else if protocol =? 17 then udp b
  else if mem protocol [1; 58] then
    let types := if protocol =? 1 then [0; 8] else [128; 129] in
    reject_if len b <? 8 with InvalidData;
    b1 ← b.[1]; b0 ← b.[0];
    reject_if negb (b1 =? 0) || negb (mem b0 types) with InvalidData;
    b4 ← b.[4]; b5 ← b.[5];
    let id := u16be b4 b5 in
    Ok (id, id)
  else Err InvalidData.
Definition checksum_offset (protocol : Z) : Z :=
  if protocol =? 6 then 16 else if protocol =? 17 then 6 else 2.
Definition nonzero (value : Z) : Z := if value =? 0 then 65535 else value.
Definition transport_sum (protocol sum : Z) : Z := if protocol =? 17 then nonzero sum else sum.
(** [checksum4]: the transport checksum with the IPv4 pseudo-header. *)
Definition transport_checksum4 (source destination protocol : Z) (b : bytes) : Z :=
  if protocol =? 1 then checksum4 b
  else checksum4 (octets4 source ++ octets4 destination ++ [0; protocol] ++ be16 (len b mod 65536) ++ b).
Definition encode6 (protocol source dest class hop : Z) (payload : bytes) : outcome io_error bytes :=
  let at_ := checksum_offset protocol in
  payload ← copy_at payload at_ [0; 0];
  let sum := checksum source dest protocol payload in
  payload ← copy_at payload at_ (be16 (transport_sum protocol sum));
  out ← map_err (fun _ => InvalidData) (ipv6_packet source dest protocol hop payload);
  o0 ← out.[0];
  out ← copy_at out 0 [Z.lor o0 (Z.shiftr class 4)];
  copy_at out 1 [Z.shiftl class 4 mod 256].

(** ** Quoted packets *)

Definition extract (a : Z) : outcome io_error Z := s ← slice_from (octets6 a) 12; Ok (addr4 s).
Definition icmp4_checksum (b : bytes) : outcome io_error bytes :=
  let c := checksum4 b in copy_at b 2 (be16 c).
Definition quoted_ports (protocol : Z) (b : bytes) : outcome io_error (option (Z * Z)) :=
  if len b <? 8 then Ok None
  else if mem protocol [6; 17] then
    b0 ← b.[0]; b1 ← b.[1]; b2 ← b.[2]; b3 ← b.[3];
    Ok (Some (u16be b0 b1, u16be b2 b3))
  else if mem protocol [1; 58] then
    b1 ← b.[1]; b0 ← b.[0];
    if (b1 =? 0) && mem b0 (if protocol =? 1 then [0; 8] else [128; 129]) then
      b4 ← b.[4]; b5 ← b.[5];
      Ok (Some (u16be b4 b5, u16be b4 b5))
    else Ok None
  else Ok None.

Record Quote6 := mkQuote6 {
  q_source : Z;
  q_dest : Z;
  q_protocol : Z;
  q_hop : Z;
  q_class : Z;
  q_len : Z;
  q_payload : bytes;
  q_fragment : option (Z * bool);
  q_non_initial : bool;
}.
(** The fragment header of a quote, [if protocol == 44]. *)
Definition quote6_fragment (b : bytes) (protocol offset : Z)
  : outcome io_error (Z * Z * option (Z * bool) * bool) :=
  if protocol =? 44 then
    reject_if len b <? offset + 8 with InvalidData;
    reserved ← b.[offset + 1];
    reject_if negb (reserved =? 0) with InvalidData;
    b2 ← b.[offset + 2]; b3 ← b.[offset + 3];
    let flags := u16be b2 b3 in
    inner ← b.[offset];
    reject_if negb (Z.land flags 6 =? 0) || mem inner [0; 43; 44; 51; 60] with InvalidData;
    id ← slice b (offset + 4) (offset + 8);
    Ok (inner, offset + 8, Some (of_be id, negb (Z.land flags 1 =? 0)), negb (Z.land flags 0xfff8 =? 0))
  else Ok (protocol, offset, None, false).
Definition quote6_parse (b : bytes) : outcome io_error Quote6 :=
  reject_if len b <? 48 with InvalidData;
  b0 ← b.[0];
  reject_if negb (Z.shiftr b0 4 =? 6) with InvalidData;
  b4 ← b.[4]; b5 ← b.[5];
  let total := u16be b4 b5 in
  '(protocol, offset, problem) ← transport6 b;
  reject_if bool_decide (is_Some problem) with InvalidData;
  '(protocol, offset, fragment, non_initial) ← quote6_fragment b protocol offset;
  reject_if total <? offset - 40 with InvalidData;
  let n := total - (offset - 40) in
  reject_if negb ((8 <=? n) && (n <=? 65515)) || (len b <? offset + 8) with InvalidData;
  source ← slice b 8 24;
  dest ← slice b 24 40;
  hop ← b.[7];
  b1 ← b.[1];
  payload ← slice b offset (Z.min (len b) (offset + n));
  Ok (mkQuote6 (addr6 source) (addr6 dest) protocol hop
        (Z.lor (Z.shiftl (Z.land b0 15) 4 mod 256) (Z.shiftr b1 4)) n payload fragment non_initial).

Definition pseudo4 (src dst p n : Z) : bytes :=
  if p =? 1 then [] else octets4 src ++ octets4 dst ++ [0; p] ++ be16 (n mod 65536).
Definition pseudo6 (src dst p n : Z) : bytes :=
  octets6 src ++ octets6 dst ++ be32 (n mod 2 ^ 32) ++ [0; 0; 0; p].

(** [for chunk in before.chunks(2)]: the sum of the complemented words. *)
Fixpoint sum_not (b : bytes) : Z :=
  match b with
  | [] => 0
  | [x] => 65535 - word x 0
  | x :: y :: b => (65535 - word x y) + sum_not b
  end.
(** The quote's checksum after its pseudo-header and bytes changed.  The terms of [sum] are
    not negative, so the [u32] additions overflow if and only if the last one does. *)
Definition adjust (p : Z) (old b before after : bytes) (n : Z) : outcome io_error bytes :=
  let at_ := checksum_offset p in
  if len b <? at_ + 2 then Ok b else
  o0 ← old.[at_]; o1 ← old.[at_ + 1];
  let c := u16be o0 o1 in
  if (p =? 17) && (c =? 0) then
    reject_if negb (len b =? n) with InvalidData;
    copy_at b at_ (be16 (nonzero (checksum4 (after ++ b))))
  else
    sum ← add_chk u32_max (65535 - c + sum_not (before ++ old)) (sum_words (after ++ b));
    let sum := fold_overflow 4 sum in
    copy_at b at_ (be16 (transport_sum p (complement16 sum))).

Definition quote4_to_6 (q : Packet) (src dst port : Z) : outcome io_error bytes :=
  b2 ← (pk_bytes q).[2]; b3 ← (pk_bytes q).[3];
  n ← sub_chk (u16be b2 b3) (pk_header_len q);
  let b := pk_payload q in
  let p := if pk_protocol q =? 1 then 58 else pk_protocol q in
  b ← (if p =? 58 then
         b0 ← b.[0];
         b ← copy_at b 0 [if b0 =? 8 then 128 else 129];
         copy_at b 4 (be16 port)
       else copy_at b 0 (be16 port));
  b ← adjust p (pk_payload q) b (pseudo4 (pk_source q) (pk_destination q) (pk_protocol q) n)
        (pseudo6 src dst p n) n;
  out ← map_err (fun _ => InvalidData) (ipv6_packet src dst p (pk_ttl q) b);
  o0 ← out.[0];
  out ← copy_at out 0 [Z.lor o0 (Z.shiftr (pk_traffic_class q) 4)];
  out ← copy_at out 1 [Z.shiftl (pk_traffic_class q) 4 mod 256];
  out ← copy_at out 4 (be16 (n mod 65536));
  if pk_more_fragments q then
    out ← copy_at out 6 [44];
    reject_if u16_max <? n + 8 with InvalidData;
    out ← copy_at out 4 (be16 (n + 8));
    head ← slice out 0 40;
    tail ← slice_from out 40;
    Ok (head ++ [p; 0; 0; 1] ++ be32 (pk_id q) ++ tail)
  else Ok out.
Definition quote6_to_4 (q : Quote6) (src dst port : Z) : outcome io_error bytes :=
  let b := q_payload q in
  let p := if q_protocol q =? 58 then 1 else q_protocol q in
  b ← (if p =? 1 then
         b0 ← b.[0];
         b ← copy_at b 0 [if b0 =? 128 then 8 else 0];
         copy_at b 4 (be16 port)
       else copy_at b 2 (be16 port));
  b ← adjust p (q_payload q) b (pseudo6 (q_source q) (q_dest q) (q_protocol q) (q_len q))
        (pseudo4 src dst p (q_len q)) (q_len q);
  out ← Ipv4Wire.encode src dst p (q_hop q) b;
  out ← copy_at out 1 [q_class q];
  out ← copy_at out 2 (be16 ((q_len q + 20) mod 65536));
  out ← match q_fragment q with
        | Some (id, more) =>
            out ← copy_at out 4 (be16 (id mod 65536));
            copy_at out 6 [if more : bool then 0x20 else 0]
        | None => if 1260 <? q_len q + 20 then copy_at out 6 [0x40] else Ok out
        end;
  out ← copy_at out 10 [0; 0];
  header ← slice out 0 20;
  let c := checksum4 header in
  copy_at out 10 (be16 c).

(** ** RFC 4884 extensions *)

(** [while at < extension.len()] *)
Fixpoint extension_walk (fuel : nat) (x : bytes) (at_ : Z) : outcome io_error unit :=
  if len x <=? at_ then Ok tt else
  match fuel with
  | O => Panic
  | S fuel =>
      reject_if len x <? at_ + 4 with InvalidData;
      x0 ← x.[at_]; x1 ← x.[at_ + 1];
      let n := u16be x0 x1 in
      reject_if (n <? 4) || negb (n mod 4 =? 0) || (len x <? at_ + n) with InvalidData;
      extension_walk fuel x (at_ + n)
  end.
Definition extended_types (v4 : bool) : list Z := if v4 then [3; 11; 12] else [1; 3].
Definition split_extensions (b : bytes) (v4 : bool) : outcome io_error (bytes * bytes) :=
  b0 ← b.[0];
  units ← (if mem b0 (extended_types v4) then b.[if v4 then 5 else 4] else Ok 0);
  if units =? 0 then quote ← slice_from b 8; Ok (quote, []) else
  let n := units * (if v4 then 4 else 8) in
  reject_if (n <? 128) || (len b <? 8 + n + 8) with InvalidData;
  extension ← slice_from b (8 + n);
  x0 ← extension.[0];
  sum ← slice extension 2 4;
  reject_if negb (Z.shiftr x0 4 =? 2) || negb (len extension mod 4 =? 0)
            || negb (beq sum [0; 0]) && negb (checksum4 extension =? 0) with InvalidData;
  extension_walk (length extension) extension 4 ;;
  quote ← slice b 8 (8 + n);
  Ok (quote, extension).
(** [Vec::resize(n, 0)] *)
Definition resize (b : bytes) (n : Z) : bytes := take (Z.to_nat n) b ++ zeros (n - len b).
Definition join_extensions (kind code value : Z) (quote extension : bytes) (v4 : bool) : outcome io_error bytes :=
  let body := [kind; code; 0; 0] ++ be32 value in
  let cap := if v4 then 548 else 1232 in
  let unit := if v4 then 4 else 8 in
  let padded := (Z.max (len quote) 128 + unit - 1) / unit * unit in
  if mem kind (extended_types v4) && negb (len extension =? 0) && (padded + len extension <=? cap)
     && (padded / unit <=? 255) then
    body ← copy_at body (if v4 then 5 else 4) [padded / unit mod 256];
    Ok (body ++ resize quote padded ++ extension)
  else Ok (body ++ take (Z.to_nat cap) quote).

#[global] Arguments adjust : simpl never.
#[global] Arguments encode6 : simpl never.
#[global] Arguments quote4_to_6 : simpl never.
#[global] Arguments quote6_to_4 : simpl never.
#[global] Arguments quote6_parse : simpl never.
#[global] Arguments split_extensions : simpl never.
#[global] Arguments join_extensions : simpl never.

(** ** Checksums of quotes *)

Lemma sum_not_words (b : list Z) : is_bytes b -> sum_not b + sum_words b = 65535 * ((len b + 1) / 2).
Proof.
  induction b as [|x|x y b IH] using pairs_ind; intros Hb; [done| |].
  - cbn [sum_not sum_words]. change ((len [x] + 1) / 2) with 1. lia.
  - apply is_bytes_cons in Hb as [Hx [Hy Hb]%is_bytes_cons]. specialize (IH Hb). cbn [sum_not sum_words]. rewrite !len_cons.
    replace (1 + (1 + len b) + 1) with (len b + 1 + 1 * 2) by lia. rewrite Z.div_add by lia. lia.
Qed.
Lemma half_bound n m : n <= m -> (n + 1) / 2 <= (m + 1) / 2.
Proof. intros. apply Z.div_le_mono; lia. Qed.
Lemma halves n m : 0 <= n -> 0 <= m -> 2 * ((n + 1) / 2 + (m + 1) / 2) <= n + m + 2.
Proof. intros. pose proof (Z.mul_div_le (n + 1) 2). pose proof (Z.mul_div_le (m + 1) 2). lia. Qed.
Lemma checksum_offset_bound p : 2 <= checksum_offset p <= 16 /\ Z.even (checksum_offset p) = true.
Proof. unfold checksum_offset. repeat case_match; done. Qed.
Lemma complement16_small n : 0 <= n < 65536 -> complement16 n = 65535 - n.
Proof. intros. unfold complement16. by rewrite Z.mod_small. Qed.
(** A sum verifies when it is a positive multiple of 65535. *)
Lemma checksum4_zero b : is_bytes b -> is_u32 (sum_words b) -> 0 < sum_words b -> sum_words b mod 65535 = 0 -> checksum4 b = 0.
Proof.
  intros Hb Hu Hpos Hm. unfold checksum4. rewrite fold_overflow_carry by u_lia.
  destruct (fold_carry_spec 4 (sum_words b) ltac:(lia) Hu) as (H1 & H2 & H3). specialize (H3 Hpos). rewrite Hm in H2.
  apply Z.mod_divide in H2 as [q Hq]; [|lia]. rewrite complement16_small by lia. lia.
Qed.
Lemma checksum4_zero_mod b : is_bytes b -> is_u32 (sum_words b) -> checksum4 b = 0 -> sum_words b mod 65535 = 0.
Proof.
  intros Hb Hu Hc. unfold checksum4 in Hc. rewrite fold_overflow_carry in Hc by u_lia.
  destruct (fold_carry_spec 4 (sum_words b) ltac:(lia) Hu) as (H1 & H2 & H3). rewrite complement16_small in Hc by lia.
  rewrite <-H2. by replace (fold_carry 4 (sum_words b)) with 65535 by lia.
Qed.
Lemma transport_sum_spec p c : is_u16 c -> is_u16 (transport_sum p c) /\ transport_sum p c mod 65535 = c mod 65535.
Proof. unfold transport_sum, nonzero. intros. destruct (p =? 17); [|done]. by destruct (Z.eqb_spec c 0) as [->|]. Qed.

Section adjusting.
Context (p : Z) (old b before after : list Z) (n : Z).
Hypothesis Hold : is_bytes old.
Hypothesis Hb : is_bytes b.
Hypothesis Hbefore : is_bytes before.
Hypothesis Hafter : is_bytes after.
Hypothesis Hlen : len old = len b.
Hypothesis Hsize : len before + len after + 2 * len b <= 131070.

Lemma adjust_total : 0 <= sum_not (before ++ old) /\ 0 <= sum_words (after ++ b) /\
  65535 + sum_not (before ++ old) + sum_words (after ++ b) <= u32_max.
Proof.
  assert (is_bytes (before ++ old)) as H1 by (by apply is_bytes_app). assert (is_bytes (after ++ b)) as H2 by (by apply is_bytes_app).
  pose proof (sum_not_words _ H1). pose proof (sum_words_bound _ H1). pose proof (sum_words_bound _ H2). rewrite !len_app in *.
  pose proof (halves (len before + len old) (len after + len b)).
  pose proof (len_nonneg before). pose proof (len_nonneg after). pose proof (len_nonneg b). u_lia.
Qed.
Lemma adjust_safe : safe (adjust p old b before after n).
Proof.
  pose proof adjust_total. destruct (checksum_offset_bound p) as [Ho _]. unfold adjust.
  safe_auto; byte_facts; try u_lia; unfold be16; rewrite len_be; lia.
Qed.
Lemma adjust_keeps new : adjust p old b before after n = Ok new ->
  is_bytes new /\ len new = len b /\ forall i, i < checksum_offset p \/ checksum_offset p + 2 <= i -> 0 <= i ->
    idx (E:=io_error) new i = idx b i.
Proof.
  destruct (checksum_offset_bound p) as [Ho _]. intros H. unfold adjust in H.
  assert (forall v, (len b <? checksum_offset p + 2) = false -> copy_at (E:=io_error) b (checksum_offset p) (be16 v) = Ok new ->
    is_bytes new /\ len new = len b /\ forall i, i < checksum_offset p \/ checksum_offset p + 2 <= i -> 0 <= i ->
    idx (E:=io_error) new i = idx b i) as Hcopy.
  { intros v Hv Hc. apply copy_at_Ok in Hc as (_ & Hc & ->). split_and!.
    - by apply is_bytes_put; [|apply is_bytes_be].
    - apply len_put; lia.
    - intros i Hi H0. unfold idx, put. destruct (Z.ltb_spec i 0); [lia|]. unfold be16 in *. rewrite len_be in *.
      rewrite lookup_app. destruct (decide (i < checksum_offset p)).
      + rewrite lookup_take_lt by lia. destruct (b !! Z.to_nat i) eqn:E; [done|].
        apply lookup_ge_None in E. unfold len in Hc. lia.
      + rewrite lookup_take_ge by lia. rewrite length_take, Nat.min_l by (unfold len in Hc; lia).
        rewrite lookup_app_r by (cbn [be length]; lia). rewrite lookup_drop. cbn [be length].
        match goal with |- context [b !! (?x + ?y)%nat] => replace (x + y)%nat with (Z.to_nat i) by lia end. done. }
  destruct (len b <? checksum_offset p + 2) eqn:Hs; [injection H as <-; done|].
  inv_ok_hyp H. destruct (_ && _); inv_ok_hyp H; (eapply Hcopy; [done|]; apply copy_at_Ok;
    split_and!; [| |exact H]; done).
Qed.

(** The field of [b] still holds the old checksum: the caller changed other bytes. *)
Hypothesis Hfield : forall i, checksum_offset p <= i < checksum_offset p + 2 -> idx (E:=io_error) b i = idx old i.
Hypothesis Heven_before : Z.even (len before) = true.
Hypothesis Heven_after : Z.even (len after) = true.

Lemma sum_words_field c : checksum_offset p + 2 <= len b ->
  idx (E:=io_error) old (checksum_offset p) = Ok (c / 256) -> idx (E:=io_error) old (checksum_offset p + 1) = Ok (c mod 256) ->
  is_u16 c -> sum_words b = sum_words (put b (checksum_offset p) [0; 0]) + c.
Proof.
  intros Hl H0 H1 Hc. destruct (checksum_offset_bound p) as [Ho He].
  rewrite <-(sum_words_fill b (checksum_offset p) c) by (done || lia). f_equal.
  rewrite <-Hfield in H0 by lia. rewrite <-Hfield in H1 by lia. apply idx_Ok in H0 as [_ H0]. apply idx_Ok in H1 as [_ H1].
  set (k := Z.to_nat (checksum_offset p)) in *. replace (Z.to_nat (checksum_offset p + 1)) with (S k) in H1 by lia.
  unfold put, be16. rewrite len_be. fold k. replace (Z.to_nat (checksum_offset p + Z.of_nat 2)) with (S (S k)) by lia.
  rewrite <-(take_drop k b) at 1. f_equal. rewrite (drop_S _ _ _ H0), (drop_S _ _ _ H1). cbn [be app].
  change (256 ^ Z.of_nat 1) with 256. change (256 ^ Z.of_nat 0) with 1. rewrite Z.div_1_r.
  rewrite (Z.mod_small (c / 256)) by (split; [apply Z.div_pos | apply Z.div_lt_upper_bound]; u_lia). done.
Qed.
End adjusting.

(** [b] is [old] with bytes outside the checksum field replaced. *)
Definition rewritten (p : Z) (old b : list Z) : Prop :=
  is_bytes old /\ is_bytes b /\ len old = len b /\
  forall i, checksum_offset p <= i < checksum_offset p + 2 -> idx (E:=io_error) b i = idx old i.
Definition pseudo_wf (x : list Z) : Prop := is_bytes x /\ Z.even (len x) = true.

Lemma sum_words_tail (x t : list Z) : t = [] \/ Z.even (len x) = true -> sum_words (x ++ t) = sum_words x + sum_words t.
Proof. intros [->|He]; [rewrite app_nil_r; cbn; lia|by apply sum_words_app]. Qed.
Lemma sum_words_u32 (b : list Z) : is_bytes b -> len b <= 131070 -> is_u32 (sum_words b).
Proof.
  intros Hb Hl. pose proof (sum_words_bound b Hb). pose proof (half_bound (len b) 131070 Hl).
  change ((131070 + 1) / 2) with 65535 in *. u_lia.
Qed.
Lemma fill_sum p (old b : list Z) c v : rewritten p old b -> checksum_offset p + 2 <= len b -> is_u16 c -> is_u16 v ->
  idx (E:=io_error) old (checksum_offset p) = Ok (c / 256) -> idx (E:=io_error) old (checksum_offset p + 1) = Ok (c mod 256) ->
  sum_words (put b (checksum_offset p) (be16 v)) = sum_words b - c + v.
Proof.
  intros (Ho & Hb & Hl & Hf) Hat Hc Hv H0 H1. destruct (checksum_offset_bound p) as [? ?].
  rewrite (sum_words_fill b _ v) by (done || lia). rewrite (sum_words_field p old b Hf c) by done. lia.
Qed.
Lemma u16be_split a c : is_u8 a -> is_u8 c -> u16be a c / 256 = a /\ u16be a c mod 256 = c /\ is_u16 (u16be a c).
Proof.
  intros. unfold u16be. rewrite (Z.add_comm (a * 256)), Z.div_add, Z.mod_add by lia. rewrite Z.div_small, Z.mod_small by u_lia. u_lia.
Qed.
Lemma fold_complement s : is_u32 s ->
  is_u16 (complement16 (fold_overflow 4 s)) /\ (s + complement16 (fold_overflow 4 s)) mod 65535 = 0.
Proof.
  intros Hs. split; [apply complement16_u16|]. rewrite fold_overflow_carry by u_lia.
  destruct (fold_carry_spec 4 s ltac:(lia) Hs) as (H1 & H2 & _). rewrite complement16_small by done.
  set (r := fold_carry 4 s) in *. pose proof (Z.div_mod s 65535 ltac:(lia)). pose proof (Z.div_mod r 65535 ltac:(lia)).
  apply Z.mod_divide; [lia|]. exists (s / 65535 - r / 65535 + 1). lia.
Qed.
Lemma transport_fold p s : is_u32 s ->
  is_u16 (transport_sum p (complement16 (fold_overflow 4 s))) /\
  (s + transport_sum p (complement16 (fold_overflow 4 s))) mod 65535 = 0 /\
  (p = 17 -> 0 < transport_sum p (complement16 (fold_overflow 4 s))).
Proof.
  intros Hs. destruct (fold_complement s Hs) as [H1 H2]. destruct (transport_sum_spec p _ H1) as [H3 H4]. split_and!; [done| |].
  - by rewrite <-Zplus_mod_idemp_r, H4, Zplus_mod_idemp_r.
  - intros ->. unfold transport_sum, nonzero. change (17 =? 17) with true. cbv iota. case_match; u_lia.
Qed.

(** ** Properties *)

(** C32. The incremental update of a quoted packet's checksum (RFC 1624) is equivalent to
    recomputing it: if the checksum of the whole original packet verifies, also the part
    [t] the quote truncates, then the new one verifies with the new pseudo-header, unless
    every word is zero; a UDP packet that had no checksum gets one that verifies. *)
Theorem incremental_checksum p old b before after n t new o0 o1 :
  rewritten p old b -> pseudo_wf before -> pseudo_wf after -> is_bytes t -> t = [] \/ Z.even (len b) = true ->
  len before + len after + 2 * (len b + len t) <= 131070 -> checksum_offset p + 2 <= len b ->
  idx (E:=io_error) old (checksum_offset p) = Ok o0 -> idx (E:=io_error) old (checksum_offset p + 1) = Ok o1 ->
  adjust p old b before after n = Ok new ->
  if (p =? 17) && (u16be o0 o1 =? 0) then len b = n /\ checksum4 (after ++ new) = 0
  else checksum4 (before ++ old ++ t) = 0 ->
       sum_words (after ++ new ++ t) = 0 \/ checksum4 (after ++ new ++ t) = 0.
Proof.
  intros Hrw [Hbb Heb] [Hab Hea] Htb Ht Hsize Hat H0 H1 Hadj. pose proof Hrw as (Hold & Hb & Hlen & _).
  destruct (u16be_split o0 o1) as (E0 & E1 & Hc); [by apply (is_bytes_idx _ _ _ Hold H0)|by apply (is_bytes_idx _ _ _ Hold H1)|].
  destruct (checksum_offset_bound p) as [Ho He]. pose proof (len_nonneg before). pose proof (len_nonneg after).
  pose proof (len_nonneg t). pose proof (len_nonneg b).
  pose proof (adjust_keeps p old b before after n Hb new Hadj) as (Hnb & Hnl & _).
  pose proof (adjust_total old b before after Hold Hb Hbb Hab Hlen ltac:(lia)) as Htot.
  pose proof (fun v Hv => fill_sum p old b (u16be o0 o1) v Hrw Hat Hc Hv ltac:(by rewrite E0) ltac:(by rewrite E1)) as Hfill.
  unfold adjust in Hadj. destruct (Z.ltb_spec (len b) (checksum_offset p + 2)); [lia|].
  rewrite H0, H1 in Hadj. cbn [mbind outcome_bind] in Hadj.
  assert (is_bytes (after ++ b)) as Hafb by (by apply is_bytes_app).
  assert (is_bytes (before ++ old)) as Hbo by (by apply is_bytes_app).
  destruct ((p =? 17) && (u16be o0 o1 =? 0)) eqn:Hz.
  - inv_ok_hyp Hadj. split; [lia|]. set (v := nonzero _) in *.
    assert (is_u32 (sum_words (after ++ b))) as Hu by (apply sum_words_u32; [done|rewrite len_app; lia]).
    destruct (transport_fold 17 _ Hu) as (Hv & Hvm & Hvp). change (transport_sum 17 _) with v in *. specialize (Hvp eq_refl).
    specialize (Hfill v Hv). rewrite <-Hadj in Hfill. assert (sum_words (after ++ new) = sum_words (after ++ b) + v) as Hs.
    { rewrite !sum_words_app by done. lia. }
    pose proof (sum_words_bound _ Hafb). apply checksum4_zero; [by apply is_bytes_app| |lia|by rewrite Hs].
    apply sum_words_u32; [by apply is_bytes_app|rewrite len_app; lia].
  - inv_ok_hyp Hadj. intros Hver. set (v := transport_sum p _) in *.
    assert (is_bytes (after ++ new ++ t)) as Hant by (rewrite !is_bytes_app; done).
    assert (is_u32 (sum_words (after ++ new ++ t))) as Hu by (apply sum_words_u32; [done|rewrite !len_app; lia]).
    destruct (decide (sum_words (after ++ new ++ t) = 0)); [by left|]. right. apply checksum4_zero; [done|done|u_lia|].
    apply checksum4_zero_mod in Hver; [|rewrite !is_bytes_app; done|apply sum_words_u32; [rewrite !is_bytes_app; done|rewrite !len_app; lia]].
    match goal with H : ?x = 65535 - _ + _ + _ |- _ => rename x into total; rename H into Htotal end.
    destruct (transport_fold p total ltac:(u_lia)) as (Hv & Hvm & _). fold v in Hv, Hvm.
    specialize (Hfill v Hv). rewrite <-Hadj in Hfill. pose proof (sum_not_words _ Hbo) as Hnot.
    rewrite (sum_words_app before) in Hnot, Hver by done. rewrite (sum_words_tail old) in Hver by (by rewrite Hlen).
    rewrite (sum_words_app after) in Htotal by done.
    rewrite (sum_words_app after), (sum_words_tail new) by (try rewrite Hnl; done).
    apply Z.mod_divide in Hver as [q1 Hq1]; [|lia]. apply Z.mod_divide in Hvm as [q2 Hq2]; [|lia].
    apply Z.mod_divide; [lia|]. exists (q1 + q2 - 1 - (len (before ++ old) + 1) / 2). lia.
Qed.

(** ** Witnesses *)

(** A UDP header with two bytes of data from 192.0.2.1 to 192.0.2.2, whose source port
    5000 becomes 6000. *)
Definition sample_old : bytes := [19; 136; 0; 53; 0; 10; 103; 23; 1; 2].
Definition sample_new : bytes := [23; 112; 0; 53; 0; 10; 103; 23; 1; 2].
Definition sample_before : bytes := pseudo4 0xc0000201 0xc0000202 17 10.
Definition sample_after : bytes := pseudo6 1 2 17 10.
Lemma incremental_checksum_witness : exists new,
  adjust 17 sample_old sample_new sample_before sample_after 10 = Ok new /\
  checksum4 (sample_before ++ sample_old ++ []) = 0 /\
  (sum_words (sample_after ++ new ++ []) = 0 \/ checksum4 (sample_after ++ new ++ []) = 0).
Proof.
  eexists. split; [vm_compute; reflexivity|]. split; [vm_compute; reflexivity|].
  refine (incremental_checksum 17 sample_old sample_new sample_before sample_after 10 [] _ 103 23 _ _ _ _ _ _ _ _ _ _ _).
  - split; [|split; [|split; [reflexivity|]]]; [repeat constructor; vm_compute; discriminate..|].
    intros i Hi. change (checksum_offset 17) with 6 in Hi. assert (i = 6 \/ i = 7) as [-> | ->] by lia; reflexivity.
  - split; [repeat constructor; vm_compute; discriminate | reflexivity].
  - split; [repeat constructor; vm_compute; discriminate | reflexivity].
  - constructor.
  - left; reflexivity.
  - vm_compute; discriminate.
  - vm_compute; discriminate.
  - reflexivity.
  - reflexivity.
  - vm_compute; reflexivity.
  - vm_compute; reflexivity.
Defined.

Lemma copy_at_eq {E} (b : list Z) lo src : 0 <= lo -> lo + len src <= len b -> copy_at (E:=E) b lo src = Ok (put b lo src).
Proof. intros. unfold copy_at. destruct (Z.leb_spec 0 lo), (Z.leb_spec (lo + len src) (len b)); done || lia. Qed.

Lemma udp_safe b : is_bytes b -> safe (udp b).
Proof. intros. unfold udp. safe_auto. Qed.
Lemma transport_ports_safe protocol b : is_bytes b -> safe (transport_ports protocol b).
Proof.
  intros. unfold transport_ports. destruct (protocol =? 6); [by apply tcp_ports_safe|].
  destruct (protocol =? 17); [by apply udp_safe|]. destruct (mem protocol [1; 58]); [|done]. safe_auto.
Qed.
(** Accepted transports are long enough for what is read and written later. *)
Lemma transport_ports_Ok protocol b s d : is_bytes b -> transport_ports protocol b = Ok (s, d) ->
  8 <= len b /\ checksum_offset protocol + 2 <= len b /\ (protocol = 6 -> 20 <= len b) /\ is_u16 s /\ is_u16 d /\
  mem protocol [1; 6; 17; 58] = true.
Proof.
  intros Hb H. unfold transport_ports, checksum_offset in *. destruct (Z.eqb_spec protocol 6) as [->|].
  { apply tcp_ports_Ok in H as (? & ? & ?); [|done]. split_and!; try done; u_lia. }
  destruct (Z.eqb_spec protocol 17) as [->|].
  { unfold udp in H. inv_all_ok. simplify_eq. byte_facts. split_and!; try done; u_lia. }
  destruct (mem protocol [1; 58]) eqn:Hm; [|done]. inv_all_ok. simplify_eq. byte_facts.
  split_and!; try done; try u_lia. cbn in Hm |- *. lia.
Qed.

(** ** IPv6 packets *)

Definition total6 (s d next : Z) (b : list Z) : Z :=
  sum_words (octets6 s) + sum_words (octets6 d) + sum_words (be32 (len b)) + next + sum_words b.
Lemma total6_u32 s d next b : is_bytes b -> len b <= u16_max -> is_u8 next -> is_u32 (total6 s d next b + 65535).
Proof.
  intros Hb Hl Hn. unfold total6. pose proof (sum_words_bound (octets6 s) ltac:(apply is_bytes_be)) as H1.
  pose proof (sum_words_bound (octets6 d) ltac:(apply is_bytes_be)) as H2.
  pose proof (sum_words_bound (be32 (len b)) ltac:(apply is_bytes_be)) as H3. pose proof (sum_words_bound b Hb) as H4.
  unfold be32 in *. rewrite len_octets6 in *. rewrite len_be in H3. pose proof (half_bound (len b) 65535 ltac:(u_lia)).
  change ((16 + 1) / 2) with 8 in *. change ((Z.of_nat 4 + 1) / 2) with 2 in *. change ((65535 + 1) / 2) with 32768 in *. u_lia.
Qed.
Lemma checksum_total s d next b : is_bytes b -> len b <= u16_max -> is_u8 next ->
  checksum s d next b = complement16 (fold_overflow 4 (total6 s d next b)).
Proof. intros. pose proof (total6_u32 s d next b). unfold checksum. rewrite fold_overflow_carry; [done|].
  unfold total6 in *. pose proof (sum_words_bound b ltac:(done)). pose proof (sum_words_bound (octets6 s) ltac:(apply is_bytes_be)).
  pose proof (sum_words_bound (octets6 d) ltac:(apply is_bytes_be)).
  pose proof (sum_words_bound (be32 (len b)) ltac:(apply is_bytes_be)). u_lia.
Qed.
Lemma fold_zero n : is_u32 n -> 0 < n -> n mod 65535 = 0 -> complement16 (fold_overflow 4 n) = 0.
Proof.
  intros Hu Hpos Hm. rewrite fold_overflow_carry by u_lia.
  destruct (fold_carry_spec 4 n ltac:(lia) Hu) as (H1 & H2 & H3). specialize (H3 Hpos). rewrite Hm in H2.
  apply Z.mod_divide in H2 as [q Hq]; [|lia]. rewrite complement16_small by lia. lia.
Qed.
(** The checksum written as [transport_sum] gives it makes the packet verify. *)
Lemma checksum_transport_fill s d next b lo :
  is_bytes b -> len b <= u16_max -> 0 < next <= 255 -> 0 <= lo -> Z.even lo = true -> lo + 2 <= len b ->
  checksum s d next (put b lo (be16 (transport_sum next (checksum s d next (put b lo [0; 0]))))) = 0.
Proof.
  intros Hb Hl Hn Hlo He Hf. assert (len (put b lo [0; 0]) = len b) as Hz by (apply len_put; [lia|change (len [0; 0]) with 2; lia]).
  assert (is_bytes (put b lo [0; 0])) as Hzb by (apply is_bytes_put; [done|]; bytes_tac).
  rewrite (checksum_total _ _ _ (put b lo [0; 0])) by (rewrite ?Hz; first [done|u_lia]).
  pose proof (total6_u32 s d next _ Hzb ltac:(lia) ltac:(u_lia)) as Ht.
  assert (0 < total6 s d next (put b lo [0; 0])) as Hpos.
  { unfold total6. pose proof (sum_words_bound _ Hzb). pose proof (sum_words_bound (octets6 s) ltac:(apply is_bytes_be)).
    pose proof (sum_words_bound (octets6 d) ltac:(apply is_bytes_be)).
    pose proof (sum_words_bound (be32 (len (put b lo [0; 0]))) ltac:(apply is_bytes_be)). lia. }
  destruct (transport_fold next (total6 s d next (put b lo [0; 0])) ltac:(u_lia)) as (Hv & Hm & _).
  set (v := transport_sum _ _) in *.
  assert (len (put b lo (be16 v)) = len b) as Hvl by (apply len_put; [lia|unfold be16; rewrite len_be; lia]).
  assert (total6 s d next (put b lo (be16 v)) = total6 s d next (put b lo [0; 0]) + v) as Htot.
  { unfold total6. rewrite Hz, Hvl, (sum_words_fill b lo v) by done. lia. }
  rewrite checksum_total; [|apply is_bytes_put; [done|apply is_bytes_be]|lia|u_lia]. rewrite Htot. apply fold_zero; [u_lia|u_lia|done].
Qed.

(** The first four bytes of a packet with a traffic class. *)
Definition class_bytes (class : Z) : list Z := [Z.lor 0x60 (Z.shiftr class 4); Z.shiftl class 4 mod 256; 0; 0].
Lemma class_bytes_ok class : is_u8 class -> is_bytes (class_bytes class) /\
  exists v0 v1 v2 v3, class_bytes class = [v0; v1; v2; v3] /\ Z.shiftr v0 4 = 6.
Proof.
  intros Hc. pose (P c := (Z.lor 0x60 (Z.shiftr c 4) <=? 255) && (0 <=? Z.lor 0x60 (Z.shiftr c 4)) && (Z.shiftr (Z.lor 0x60 (Z.shiftr c 4)) 4 =? 6)).
  assert (P class = true) as HP by (apply (check_below 256 P); [by vm_compute|u_lia]). unfold P in HP.
  pose proof (Z.mod_pos_bound (Z.shiftl class 4) 256 ltac:(lia)). split; [unfold class_bytes; bytes_tac|].
  eexists _, _, _, _. split; [done|lia].
Qed.
(** The assignments to [out[0]] and [out[1]]. *)
Lemma set_class {E} class (rest : list Z) :
  (o0 ← idx (E:=E) ([0x60; 0; 0; 0] ++ rest) 0;
   out ← copy_at ([0x60; 0; 0; 0] ++ rest) 0 [Z.lor o0 (Z.shiftr class 4)];
   copy_at out 1 [Z.shiftl class 4 mod 256]) = Ok (class_bytes class ++ rest).
Proof.
  change (idx (E:=E) ([0x60; 0; 0; 0] ++ rest) 0) with (Ok (E:=E) 0x60). cbn [mbind outcome_bind]. pose proof (len_nonneg rest).
  rewrite copy_at_eq by (rewrite ?len_app; change (len [0x60; 0; 0; 0]) with 4; change (len [_]) with 1; lia). cbn [mbind outcome_bind].
  rewrite copy_at_eq; [done|lia|]. rewrite len_put; rewrite ?len_app; change (len [0x60; 0; 0; 0]) with 4; change (len [_]) with 1; lia.
Qed.
Lemma encode6_spec protocol s d class hop pl :
  is_bytes pl -> checksum_offset protocol + 2 <= len pl -> 0 < protocol <= 255 -> is_u8 class ->
  if len pl <=? u16_max then
    exists v, is_u16 v /\ checksum s d protocol (put pl (checksum_offset protocol) (be16 v)) = 0 /\
      encode6 protocol s d class hop pl =
        Ok (packet6 (class_bytes class) protocol hop s d (put pl (checksum_offset protocol) (be16 v)))
  else encode6 protocol s d class hop pl = Err InvalidData.
Proof.
  intros Hb Hl Hp Hc. destruct (checksum_offset_bound protocol) as [Ho He]. unfold encode6.
  rewrite copy_at_eq by (change (len [0; 0]) with 2; lia). cbn [mbind outcome_bind].
  set (c := checksum s d protocol (put pl (checksum_offset protocol) [0; 0])). set (v := transport_sum protocol c).
  assert (len (put pl (checksum_offset protocol) [0; 0]) = len pl) as Hz by (apply len_put; [lia|change (len [0; 0]) with 2; lia]).
  assert (is_u16 v) as Hv by (apply transport_sum_spec, complement16_u16).
  rewrite copy_at_eq by (unfold be16; rewrite ?Hz, ?len_be; lia). cbn [mbind outcome_bind].
  rewrite put_put by (done || (change (len [0; 0]) with 2; lia)).
  assert (len (put pl (checksum_offset protocol) (be16 v)) = len pl) as Hvl by (apply len_put; [lia|unfold be16; rewrite len_be; lia]).
  unfold ipv6_packet. rewrite Hvl. destruct (Z.leb_spec (len pl) u16_max), (Z.ltb_spec u16_max (len pl)); try lia; [|done].
  exists v. split_and!; [done| |].
  - apply checksum_transport_fill; first [done|lia].
  - cbn [map_err mbind outcome_bind]. unfold packet6. rewrite Hvl.
    by rewrite set_class.
Qed.
Lemma len_packet6_class v nh hop s d pl : len v = 4 -> len (packet6 v nh hop s d pl) = 40 + len pl.
Proof. intros. unfold packet6, be16. rewrite !len_app, !len_octets6, len_be. change (len [nh; hop]) with 2. lia. Qed.
Lemma is_bytes_packet6 v nh hop s d pl : is_bytes v -> is_u8 nh -> is_u8 hop -> is_bytes pl -> is_bytes (packet6 v nh hop s d pl).
Proof. intros. unfold packet6. rewrite !is_bytes_app. split_and!; try done; try apply is_bytes_be. bytes_tac. Qed.

(** ** Errors and quotes *)

Lemma extract_Ok a : is_u128 a -> exists x, extract a = Ok x /\ is_u32 x.
Proof.
  intros Ha. unfold extract. assert (slice_from (E:=io_error) (octets6 a) 12 = Ok (sub (octets6 a) 12 16)) as ->.
  { apply slice_from_Ok. by rewrite len_octets6. }
  cbn [mbind outcome_bind]. eexists. split; [done|]. apply addr4_sub; [apply is_bytes_be|lia|lia|by rewrite len_octets6].
Qed.
Lemma icmp4_checksum_Ok b : is_bytes b -> 4 <= len b -> exists b', icmp4_checksum b = Ok b' /\ len b' = len b /\ is_bytes b' /\
  b' = put b 2 (be16 (checksum4 b)).
Proof.
  intros Hb Hl. unfold icmp4_checksum. rewrite copy_at_eq by (unfold be16; rewrite ?len_be; lia). eexists. split_and!; [done| | |done].
  - apply len_put; [lia|unfold be16; rewrite len_be; lia].
  - apply is_bytes_put; [done|apply is_bytes_be].
Qed.
Lemma quoted_ports_safe protocol b : is_bytes b -> safe (quoted_ports protocol b).
Proof. intros. unfold quoted_ports. safe_auto. Qed.
Lemma quoted_ports_Ok protocol b s d : is_bytes b -> quoted_ports protocol b = Ok (Some (s, d)) ->
  8 <= len b /\ is_u16 s /\ is_u16 d /\ mem protocol [1; 6; 17; 58] = true.
Proof.
  intros Hb H. unfold quoted_ports in H. destruct (Z.ltb_spec (len b) 8); [done|].
  destruct (mem protocol [6; 17]) eqn:H1.
  { inv_all_ok. simplify_eq. byte_facts. split_and!; [done|u_lia..|cbn in H1 |- *; lia]. }
  destruct (mem protocol [1; 58]) eqn:H2; [|done]. apply bind_Ok in H as (b1 & ? & H). apply bind_Ok in H as (b0 & ? & H).
  cbv beta in H. destruct (_ && _); [|done]. inv_all_ok. simplify_eq. byte_facts. split_and!; [done|u_lia..|cbn in H2 |- *; lia].
Qed.
Lemma quote6_fragment_safe b protocol offset : is_bytes b -> 0 <= offset -> safe (quote6_fragment b protocol offset).
Proof. intros. unfold quote6_fragment. safe_auto. Qed.
Lemma quote6_fragment_Ok b protocol offset p o f ni : is_bytes b -> is_u8 protocol -> 0 <= offset <= len b ->
  quote6_fragment b protocol offset = Ok (p, o, f, ni) ->
  is_u8 p /\ offset <= o <= len b /\ (forall id more, f = Some (id, more) -> is_u32 id) /\ (protocol <> 44 -> p = protocol /\ o = offset).
Proof.
  intros Hb Hp Ho H. unfold quote6_fragment in H. destruct (Z.eqb_spec protocol 44).
  - inv_all_ok. simplify_eq. byte_facts. split_and!; [done|lia|lia| |done]. intros id more [= <- _].
    pose proof (of_be_bound (sub b (offset + 4) (offset + 8)) ltac:(eauto with snac)) as Hbound. rewrite len_sub in Hbound by lia.
    replace (offset + 8 - (offset + 4)) with 4 in Hbound by lia. change (256 ^ 4) with (u32_max + 1) in Hbound. u_lia.
  - injection H as <- <- <- <-. split_and!; try done; lia.
Qed.
Definition quote6_wf (b : list Z) (q : Quote6) : Prop :=
  is_u128 (q_source q) /\ is_u128 (q_dest q) /\ is_u8 (q_protocol q) /\ is_u8 (q_hop q) /\ is_u8 (q_class q) /\
  8 <= q_len q <= 65515 /\ is_bytes (q_payload q) /\ 8 <= len (q_payload q) /\ len (q_payload q) + 40 <= len b /\
  len (q_payload q) <= q_len q /\ (forall id more, q_fragment q = Some (id, more) -> is_u32 id).
Lemma quote6_parse_safe b : is_bytes b -> safe (quote6_parse b).
Proof.
  intros Hb. unfold quote6_parse. safe_auto; try (apply transport6_safe; [done|lia]).
  - apply transport6_Ok in Hx2 as (? & _); [|done|lia]. apply quote6_fragment_safe; [done|lia].
  - apply transport6_Ok in Hx2 as (? & ? & _); [|done|lia]. apply quote6_fragment_Ok in Hx3 as (_ & ? & _); [lia|done|done|lia].
Qed.
Lemma class_of_u8 b0 b1 : is_u8 b0 -> is_u8 b1 -> is_u8 (Z.lor (Z.shiftl (Z.land b0 15) 4 mod 256) (Z.shiftr b1 4)).
Proof.
  intros H0 H1. change 15 with (2 ^ 4 - 1). rewrite land_ones_mod by lia.
  pose proof (Z.mod_pos_bound b0 (2 ^ 4) ltac:(lia)). rewrite (Z.shiftl_mul_pow2 (b0 mod _)), Z.mod_small by lia.
  rewrite <-Z.shiftl_mul_pow2 by lia. rewrite shiftr_div by lia.
  assert (0 <= b1 / 2 ^ 4 < 2 ^ 4) by (split; [apply Z.div_pos|apply Z.div_lt_upper_bound]; u_lia).
  rewrite lor_shiftl by lia. u_lia.
Qed.
Lemma quote6_parse_Ok b q : is_bytes b -> quote6_parse b = Ok q -> quote6_wf b q.
Proof.
  intros Hb H. unfold quote6_parse in H. inv_ok_hyp H.
  do 2 (repeat match goal with p : _ * _ |- _ => destruct p end; inv_all_ok). subst q.
  repeat match goal with H : transport6 _ = Ok _ |- _ => apply transport6_Ok in H as (? & ? & _); [|done|lia] end.
  repeat match goal with H : quote6_fragment _ _ _ = Ok _ |- _ => apply quote6_fragment_Ok in H as (? & ? & ? & _); [|done|done|lia] end.
  byte_facts. unfold quote6_wf. cbn [q_source q_dest q_protocol q_hop q_class q_len q_payload q_fragment].
  split_and!; try done; try (apply addr6_sub; [done|lia..]); try (by apply class_of_u8); try lia; subst.
  all: try (by apply addr6_sub; [done|lia..]); try (by apply is_bytes_sub); rewrite ?len_sub; lia.
Qed.
Lemma len_pseudo4 s d p n : 0 <= len (pseudo4 s d p n) <= 12 /\ (is_u8 p -> is_bytes (pseudo4 s d p n)).
Proof.
  unfold pseudo4. destruct (p =? 1); [split; [done|constructor]|]. split; [done|]. intros.
  rewrite !is_bytes_app. split_and!; try apply is_bytes_be. bytes_tac.
Qed.
Lemma len_pseudo6 s d p n : len (pseudo6 s d p n) = 40 /\ (is_u8 p -> is_bytes (pseudo6 s d p n)).
Proof.
  split; [done|]. intros. unfold pseudo6. rewrite !is_bytes_app. split_and!; try apply is_bytes_be. bytes_tac.
Qed.
(** The total length that a parsed packet declares. *)
Lemma declared_length b quoted q : is_bytes b -> parse_inner b quoted = Ok q ->
  exists b2 b3, idx (E:=io_error) (pk_bytes q) 2 = Ok b2 /\ idx (E:=io_error) (pk_bytes q) 3 = Ok b3 /\ is_u8 b2 /\ is_u8 b3 /\
    len (pk_bytes q) <= u16be b2 b3.
Proof.
  intros Hb Hq. pose proof (parse_inner_Ok b quoted q Hb Hq) as (H1 & H2 & H3 & H4 & _). unfold parse_inner in Hq.
  inv_all_ok. subst q. cbn [pk_bytes pk_header_len] in *. subst. byte_facts.
  match goal with H2 : idx b 2 = Ok ?y2, H3 : idx b 3 = Ok ?y3 |- _ => exists y2, y3 end.
  rewrite len_sub in * by u_lia.
  split; [|split; [|split; [done|split; [done|lia]]]]; rewrite sub_to; apply idx_Ok;
    match goal with H : idx _ ?i = Ok ?y |- context [take _ _ !! Z.to_nat ?i] => apply idx_Ok in H as [_ H] end;
    (split; [lia|]); rewrite lookup_take_lt by lia; done.
Qed.

(** The assignments of [adjust] and the builders keep a buffer's length. *)
Lemma adjust_yields p (old b before after : list Z) n k :
  buffer k old -> buffer k b -> is_bytes before -> is_bytes after -> len before + len after + 2 * k <= 131070 ->
  yields (buffer k) (adjust p old b before after n).
Proof.
  intros [Ho Hok] [Hb Hbk] Hbb Hab Hs. apply yields_of_safe; [apply adjust_safe; try done; lia|].
  intros a Ha. apply adjust_keeps in Ha as (H1 & H2 & _); [|done]. split; [done|lia].
Qed.
Lemma encode_yields s d p ttl (pl : list Z) n : is_u8 p -> is_u8 ttl -> buffer n pl ->
  yields (buffer (20 + n)) (Ipv4Wire.encode s d p ttl pl).
Proof.
  intros Hp Ht [Hpl <-]. unfold Ipv4Wire.encode. apply yields_reject. intros _. cbv zeta. eapply yields_bind.
  - apply (yields_copy 20); [|apply is_bytes_be|lia|unfold be16; rewrite len_be; lia]. split; [|done].
    unfold octets4. rewrite !is_bytes_app. split_and!; try apply is_bytes_be; bytes_tac.
  - intros a [Ha Hl]. split; [by apply is_bytes_app|]. rewrite len_app. lia.
Qed.
Lemma class_high_u8 o0 class : is_u8 o0 -> is_u8 class -> is_u8 (Z.lor o0 (Z.shiftr class 4)).
Proof.
  intros Ho Hc. rewrite shiftr_div by lia.
  assert (0 <= class / 2 ^ 4 < 2 ^ 4) by (split; [apply Z.div_pos|apply Z.div_lt_upper_bound]; u_lia).
  split; [apply Z.lor_nonneg; u_lia|]. pose proof (Z.log2_lor o0 (class / 2 ^ 4) ltac:(u_lia) ltac:(lia)).
  destruct (decide (Z.lor o0 (class / 2 ^ 4) <= 255)); [u_lia|]. exfalso.
  pose proof (Z.log2_le_mono 256 (Z.lor o0 (class / 2 ^ 4)) ltac:(lia)). change (Z.log2 256) with 8 in *.
  pose proof (Z.log2_le_mono o0 255 ltac:(u_lia)). pose proof (Z.log2_le_mono (class / 2 ^ 4) 255 ltac:(lia)).
  change (Z.log2 255) with 7 in *. lia.
Qed.
Lemma mod256_u8 x : is_u8 (x mod 256).
Proof. pose proof (Z.mod_pos_bound x 256). u_lia. Qed.
(** One write to the buffer [out]. *)
Ltac ycopy n := eapply yields_bind; [apply (yields_copy n); [done | try apply is_bytes_be; bytes_tac; try (apply is_bytes_cons; split; [first [assumption | apply mod256_u8 | case_match; u_lia]|constructor]) | lia | unfold be16; rewrite ?len_be; change (len [_]) with 1; lia]|].

Lemma quote4_to_6_yields q b src dst port :
  is_bytes b -> quoted b = Ok q -> len b <= 65507 -> 8 <= len (pk_payload q) ->
  yields (fun out => is_bytes out /\ 48 <= len out <= 65555) (quote4_to_6 q src dst port).
Proof.
  intros Hb Hq Hl Hpl. pose proof (parse_inner_Ok b true q Hb Hq) as (H1 & H2 & H3 & H4 & H5 & H6 & H7 & H8 & H9 & H10 & H11 & _).
  destruct (declared_length b true q Hb Hq) as (b2 & b3 & E2 & E3 & Hu2 & Hu3 & Hdecl).
  assert (is_bytes (pk_payload q)) as Hpb by (rewrite H5; by apply is_bytes_sub).
  set (k := len (pk_payload q)) in *. assert (k <= 65487) by (unfold k; rewrite H5, len_sub; lia).
  assert (buffer k (pk_payload q)) as Hbuf by done.
  unfold quote4_to_6. rewrite E2, E3. cbn [mbind outcome_bind].
  assert (sub_chk (E:=io_error) (u16be b2 b3) (pk_header_len q) = Ok (u16be b2 b3 - pk_header_len q)) as ->.
  { apply sub_chk_Ok. split; [done|lia]. }
  cbn [mbind outcome_bind]. set (n := u16be b2 b3 - pk_header_len q). set (p := if pk_protocol q =? 1 then 58 else pk_protocol q).
  assert (is_u8 p) as Hp by (unfold p; case_match; u_lia).
  eapply yields_bind; [|intros pl Hbl].
  { instantiate (1 := buffer k). destruct (p =? 58).
    - eapply yields_bind; [apply yields_idx; [done|lia]|]. intros b0 _. ycopy k. intros pl Hpl1.
      apply yields_copy; [done|apply is_bytes_be|lia|unfold be16; rewrite len_be; lia].
    - apply yields_copy; [done|apply is_bytes_be|lia|unfold be16; rewrite len_be; lia]. }
  eapply yields_bind; [apply (adjust_yields _ _ _ _ _ _ k)|intros pl' Hbl']; [done|done|by apply len_pseudo4|by apply len_pseudo6| |].
  { pose proof (len_pseudo4 (pk_source q) (pk_destination q) (pk_protocol q) n) as [? _].
    destruct (len_pseudo6 src dst p n) as [-> _]. lia. }
  eapply yields_bind; [apply yields_map_err, (ipv6_packet_yields _ _ _ _ _ k); done|]. intros out Hout.
  eapply yields_bind; [apply yields_idx; [apply Hout|destruct Hout; lia]|]. intros o0 Ho0.
  pose proof (class_high_u8 o0 (pk_traffic_class q) Ho0 H11).
  ycopy (40 + k). intros out1 Hout1. ycopy (40 + k). intros out2 Hout2. ycopy (40 + k). intros out3 Hout3.
  destruct (pk_more_fragments q); [|cbn [yields]; destruct Hout3; split; [done|lia]].
  ycopy (40 + k). intros out4 Hout4. apply yields_reject. intros _. ycopy (40 + k). intros out5 [Hb5 Hl5].
  eapply yields_bind; [apply yields_slice; [done|lia|lia]|]. intros hd [Hhd Hhl].
  eapply yields_bind; [apply yields_slice_from; [done|lia]|]. intros tl [Htl Htll]. cbn [yields]. split.
  - rewrite !is_bytes_app. split_and!; [done|bytes_tac|apply is_bytes_be|done].
  - unfold be32. rewrite !len_app, len_be. change (len [p; 0; 0; 1]) with 4. lia.
Qed.
Lemma quote6_to_4_yields q b src dst port : quote6_wf b q -> len b <= 65507 ->
  yields (fun out => is_bytes out /\ 28 <= len out <= 65535) (quote6_to_4 q src dst port).
Proof.
  intros (H1 & H2 & H3 & H4 & H5 & H6 & H7 & H8 & H9 & H10 & H11) Hl. set (k := len (q_payload q)) in *.
  assert (buffer k (q_payload q)) as Hbuf by done. unfold quote6_to_4. set (p := if q_protocol q =? 58 then 1 else q_protocol q).
  assert (is_u8 p) as Hp by (unfold p; case_match; u_lia).
  eapply yields_bind; [|intros pl Hbl].
  { instantiate (1 := buffer k). destruct (p =? 1).
    - eapply yields_bind; [apply yields_idx; [done|lia]|]. intros b0 _. ycopy k. intros pl Hpl1.
      apply yields_copy; [done|apply is_bytes_be|lia|unfold be16; rewrite len_be; lia].
    - apply yields_copy; [done|apply is_bytes_be|lia|unfold be16; rewrite len_be; lia]. }
  eapply yields_bind; [apply (adjust_yields _ _ _ _ _ _ k)|intros pl' Hbl']; [done|done|by apply len_pseudo6|by apply len_pseudo4| |].
  { pose proof (len_pseudo4 src dst p (q_len q)) as [? _]. destruct (len_pseudo6 (q_source q) (q_dest q) (q_protocol q) (q_len q)) as [-> _]. lia. }
  eapply yields_bind; [by apply (encode_yields _ _ _ _ _ k)|]. intros out Hout.
  ycopy (20 + k). intros out1 Hout1. ycopy (20 + k). intros out2 Hout2.
  eapply yields_bind; [instantiate (1 := buffer (20 + k))|intros out3 Hout3].
  { destruct (q_fragment q) as [[id more]|].
    - ycopy (20 + k). intros out3 Hout3. apply yields_copy; [done| |lia|change (len [_]) with 1; lia].
      apply is_bytes_cons; split; [case_match; u_lia|constructor].
    - case_match; [|done]. apply yields_copy; [done|bytes_tac|lia|change (len [_]) with 1; lia]. }
  eapply yields_bind; [apply (yields_copy (20 + k)); [done|bytes_tac|lia|change (len [0; 0]) with 2; lia]|]. intros out4 Hout4.
  eapply yields_bind; [apply yields_slice; [apply Hout4|lia|destruct Hout4; lia]|]. intros hd _.
  eapply yields_weaken; [apply (yields_copy (20 + k)); [done|apply is_bytes_be|lia|unfold be16; rewrite len_be; lia]|].
  intros a [Ha Hla]. split; [done|lia].
Qed.

(** ** Extensions *)

Lemma extension_walk_safe fuel x at_ :
  is_bytes x -> 0 <= at_ -> len x - at_ <= Z.of_nat fuel -> safe (extension_walk fuel x at_).
Proof.
  intros Hx. revert at_. induction fuel as [|fuel IH]; intros at_ Ha Hf; cbn [extension_walk];
    (destruct (Z.leb_spec (len x) at_); [done|]); [lia|].
  safe_auto; byte_facts; apply IH; u_lia.
Qed.
Lemma split_extensions_yields b v4 : is_bytes b -> 8 <= len b ->
  yields (fun '(quote, extension) => is_bytes quote /\ is_bytes extension /\ 8 + len quote + len extension <= len b)
    (split_extensions b v4).
Proof.
  intros Hb Hl. unfold split_extensions. eapply yields_bind; [apply yields_idx; [done|lia]|]. intros b0 Hb0.
  eapply yields_bind; [instantiate (1 := is_u8)|intros units Hu].
  { case_match; [|cbn; u_lia]. apply yields_idx; [done|destruct v4; lia]. }
  destruct (Z.eqb_spec units 0).
  { eapply yields_bind; [apply yields_slice_from; [done|lia]|]. intros quote [Hq Hql]. cbn [yields].
    split_and!; [done|constructor|change (len []) with 0; lia]. }
  cbv zeta. set (sz := units * _). assert (0 <= sz) by (unfold sz; destruct v4; u_lia). apply yields_reject. intros Hc.
  eapply yields_bind; [apply yields_slice_from; [done|lia]|]. intros x [Hx Hxl].
  eapply yields_bind; [apply yields_idx; [done|lia]|]. intros x0 _.
  eapply yields_bind; [apply yields_slice; [done|lia|lia]|]. intros sum _. apply yields_reject. intros _.
  eapply yields_bind; [apply (yields_of_safe (fun _ => True)); [apply extension_walk_safe; [done|lia|unfold len; lia]|done]|]. intros _ _.
  eapply yields_bind; [apply yields_slice; [done|lia|lia]|]. intros quote [Hq Hql]. cbn [yields]. split_and!; [done|done|lia].
Qed.
Lemma join_extensions_yields kind code value quote extension (v4 : bool) :
  is_u8 kind -> is_u8 code -> is_bytes quote -> is_bytes extension ->
  yields (fun body => is_bytes body /\ 8 <= len body <= 8 + (if v4 then 548 else 1232) /\
            len body <= 8 + Z.max (Z.max (len quote) 128 + 7) (len quote) + len extension)
    (join_extensions kind code value quote extension v4).
Proof.
  intros Hk Hc Hq Hx. unfold join_extensions. set (cap := if v4 then 548 else 1232). set (unit := if v4 then 4 else 8).
  assert (cap = 548 \/ cap = 1232) as Hcap by (unfold cap; destruct v4; lia).
  assert (unit = 4 \/ unit = 8) as Hu by (unfold unit; destruct v4; lia).
  set (padded := (Z.max (len quote) 128 + unit - 1) / unit * unit).
  assert (Z.max (len quote) 128 <= padded <= Z.max (len quote) 128 + 7) as Hpad.
  { unfold padded. pose proof (Z.div_mod (Z.max (len quote) 128 + unit - 1) unit ltac:(lia)).
    pose proof (Z.mod_pos_bound (Z.max (len quote) 128 + unit - 1) unit ltac:(lia)). lia. }
  assert (buffer 8 ([kind; code; 0; 0] ++ be32 value)) as Hbody.
  { split; [|done]. apply is_bytes_app. split; [bytes_tac|apply is_bytes_be]. }
  pose proof (len_nonneg quote). pose proof (len_nonneg extension).
  destruct (_ && _) eqn:Hs.
  - eapply yields_bind; [apply (yields_copy 8); [done| |destruct v4; lia|change (len [_]) with 1; destruct v4; lia]|].
    { apply is_bytes_cons. split; [apply mod256_u8|constructor]. }
    intros body [Hbb Hbl]. cbn [yields]. unfold resize. rewrite !is_bytes_app, !len_app, len_take, len_zeros by lia.
    split_and!; [done|by apply Forall_take|apply is_bytes_zeros|done|lia|lia|lia].
  - cbn [yields]. destruct Hbody as [Hbb Hbl]. rewrite is_bytes_app, len_app, Hbl, len_take. 
    split_and!; [done|by apply Forall_take|lia|lia|lia].
Qed.

(** An extension structure as [split_extensions] accepts it. *)
Definition extension_wf (x : list Z) : Prop :=
  8 <= len x /\ (exists x0, idx (E:=io_error) x 0 = Ok x0 /\ Z.shiftr x0 4 = 2) /\ len x mod 4 = 0 /\
  (sub x 2 4 = [0; 0] \/ checksum4 x = 0) /\ extension_walk (length x) x 4 = Ok tt.
Lemma split_extensions_wf b v4 quote x : split_extensions b v4 = Ok (quote, x) -> x = [] \/ extension_wf x.
Proof.
  intros H. unfold split_extensions in H. apply bind_Ok in H as (b0 & _ & H). apply bind_Ok in H as (units & _ & H). cbv beta in H.
  destruct (units =? 0); [inv_ok_hyp H; left; by simplify_eq|right]. cbv zeta in H. set (n := units * _) in H.
  destruct ((n <? 128) || (len b <? 8 + n + 8)) eqn:Hn; [done|].
  apply bind_Ok in H as (y & Hy & H). apply slice_from_Ok in Hy as [Hr Hy].
  apply bind_Ok in H as (x0 & Hx0 & H). apply bind_Ok in H as (sum & Hsum & H). apply slice_Ok in Hsum as (_ & _ & ->). cbv beta in H.
  match type of H with (if ?c then _ else _) = _ => destruct c eqn:Hc; [done|] end. apply bind_Ok in H as ([] & Hw & H). inv_ok_hyp H.
  simplify_eq. split_and!.
  - rewrite len_sub; lia.
  - exists x0. split; [done|]. destruct (Z.eqb_spec (Z.shiftr x0 4) 2); [done|]. cbn in Hc. done.
  - lia.
  - match goal with |- ?s = _ \/ _ => destruct (beq s [0; 0]) eqn:Hb end; [left; by apply beq_eq|right]. lia.
  - done.
Qed.
(** Splitting what was joined. *)
Lemma split_joined kind code units (v4 : bool) (q x : list Z) (w : list Z) :
  mem kind (extended_types v4) = true -> len w = 4 -> idx (E:=io_error) w (if v4 then 1 else 0) = Ok units -> 0 < units ->
  128 <= len q -> len q = units * (if v4 then 4 else 8) -> extension_wf x ->
  split_extensions ([kind; code; 0; 0] ++ w ++ q ++ x) v4 = Ok (q, x).
Proof.
  intros Hk Hw Hu Hpos H128 Hq (Hx & (x0 & Hx0 & Hx2) & Hx4 & Hsum & Hwalk). unfold split_extensions.
  change (idx (E:=io_error) ([kind; code; 0; 0] ++ w ++ q ++ x) 0) with (Ok (E:=io_error) kind). cbn [mbind outcome_bind].
  rewrite Hk. assert (idx (E:=io_error) ([kind; code; 0; 0] ++ w ++ q ++ x) (if v4 then 5 else 4) = Ok units) as ->.
  { rewrite idx_app_r by (destruct v4; done). change (len [kind; code; 0; 0]) with 4.
    replace ((if v4 then 5 else 4) - 4) with (if v4 then 1 else 0) by (by destruct v4). by apply idx_app_l. }
  cbn [mbind outcome_bind]. destruct (Z.eqb_spec units 0); [lia|]. cbv zeta. rewrite <-Hq.
  assert (len ([kind; code; 0; 0] ++ w ++ q ++ x) = 8 + len q + len x) as Hl
    by (rewrite !len_app; change (len [kind; code; 0; 0]) with 4; lia).
  rewrite Hl. destruct ((len q <? 128) || (8 + len q + len x <? 8 + len q + 8)) eqn:Hc; [lia|].
  assert (slice_from (E:=io_error) ([kind; code; 0; 0] ++ w ++ q ++ x) (8 + len q) = Ok x) as ->.
  { rewrite !app_assoc. apply slice_from_app. rewrite !len_app. change (len [kind; code; 0; 0]) with 4. lia. }
  cbn [mbind outcome_bind]. rewrite Hx0. cbn [mbind outcome_bind].
  assert (slice (E:=io_error) x 2 4 = Ok (sub x 2 4)) as -> by (apply slice_Ok; split_and!; [lia|lia|lia|done]).
  cbn [mbind outcome_bind]. rewrite Hx2, Hx4, Z.eqb_refl. cbn [negb orb Z.eqb].
  assert (negb (beq (sub x 2 4) [0; 0]) && negb (checksum4 x =? 0) = false) as ->.
  { destruct Hsum as [-> | ->]; [done|]. by rewrite andb_false_r. }
  rewrite Hwalk. cbn [mbind outcome_bind].
  assert (slice (E:=io_error) ([kind; code; 0; 0] ++ w ++ q ++ x) 8 (8 + len q) = Ok q) as ->; [|done].
  rewrite (app_assoc _ w). apply slice_mid; rewrite len_app; change (len [kind; code; 0; 0]) with 4; lia.
Qed.

(** ** Properties *)

(** RFC 4884 extensions survive translation: an extension accepted in an error from one
    side, joined with a translated quote for the other side where it fits, is accepted
    there, unchanged and separate from the quote, which is padded with zeros. *)
Theorem extensions_roundtrip b v4 quote0 x kind code value quote (v4' : bool) :
  split_extensions b v4 = Ok (quote0, x) -> x <> [] -> mem kind (extended_types v4') = true ->
  let unit := if v4' then 4 else 8 in
  let padded := (Z.max (len quote) 128 + unit - 1) / unit * unit in
  padded + len x <= (if v4' then 548 else 1232) ->
  exists body, join_extensions kind code value quote x v4' = Ok body /\
    split_extensions body v4' = Ok (quote ++ zeros (padded - len quote), x).
Proof.
  intros Hs Hx Hk unit padded Hfit. apply split_extensions_wf in Hs as [?|Hwf]; [done|].
  assert (unit = 4 \/ unit = 8) as Hu by (unfold unit; destruct v4'; lia). pose proof (len_nonneg quote).
  set (units := padded / unit). assert (padded = units * unit) as Hunits by (unfold units, padded; by rewrite Z.div_mul by lia).
  assert (Z.max (len quote) 128 <= padded) as Hpad.
  { unfold padded. pose proof (Z.div_mod (Z.max (len quote) 128 + unit - 1) unit ltac:(lia)).
    pose proof (Z.mod_pos_bound (Z.max (len quote) 128 + unit - 1) unit ltac:(lia)). lia. }
  assert (0 < units <= 255) as Hur.
  { destruct Hwf as (Hwf & _). unfold unit in *. destruct v4'; lia. }
  unfold join_extensions. fold unit padded units. rewrite Hk.
  destruct Hwf as (Hx8 & Hrest). destruct (Z.eqb_spec (len x) 0); [lia|].
  destruct (Z.leb_spec (padded + len x) (if v4' then 548 else 1232)); [|lia]. destruct (Z.leb_spec units 255); [|lia].
  cbn [negb andb]. rewrite copy_at_eq by (change (len ([kind; code; 0; 0] ++ be32 value)) with 8; change (len [_]) with 1; destruct v4'; lia). cbn [mbind outcome_bind].
  eexists. split; [reflexivity|]. rewrite (Z.mod_small units) by lia.
  assert (resize quote padded = quote ++ zeros (padded - len quote)) as ->.
  { unfold resize. rewrite take_ge; [done|]. unfold len in *. lia. }
  set (q := quote ++ zeros (padded - len quote)).
  assert (len q = padded) as Hq by (unfold q; rewrite len_app, len_zeros; lia).
  assert (exists w, put ([kind; code; 0; 0] ++ be32 value) (if v4' then 5 else 4) [units] = [kind; code; 0; 0] ++ w /\
    len w = 4 /\ idx (E:=io_error) w (if v4' then 1 else 0) = Ok units) as (w & -> & Hw & Hwi).
  { destruct v4'; [exists (put (be32 value) 1 [units])|exists (put (be32 value) 0 [units])]; by split_and!. }
  rewrite <-!app_assoc. apply (split_joined _ _ units); try done; [lia|lia|]. rewrite Hq, Hunits. by destruct v4'.
Qed.

(** ** Witnesses *)

(** A Time Exceeded error with a 128-byte quote and one extension object. *)
Definition sample_error : bytes := [11; 0; 0; 0; 0; 32; 0; 0] ++ zeros 128 ++ [32; 0; 0; 0; 0; 4; 1; 1].
Lemma extensions_roundtrip_witness : exists body,
  join_extensions 3 0 0 (zeros 60) [32; 0; 0; 0; 0; 4; 1; 1] false = Ok body /\
  split_extensions body false = Ok (zeros 60 ++ zeros 68, [32; 0; 0; 0; 0; 4; 1; 1]).
Proof.
  refine (extensions_roundtrip sample_error true (zeros 128) [32; 0; 0; 0; 0; 4; 1; 1] 3 0 0 (zeros 60) false _ _ _ _).
  - vm_compute; reflexivity.
  - discriminate.
  - reflexivity.
  - vm_compute; discriminate.
Defined.
