(* ===== verification/Observations.v ===== *)
(** NAT64 prefixes observed in Router Advertisements ([src/src/nat64/mod.rs]). *)

From S2P Require Import Prelude Effects Maps Checksum Wire WireFacts.

#[global] Instance Link_countable : Countable Link :=
  inj_countable' (fun l => match l with Ail => false | Stub => true end)
    (fun b : bool => if b then Stub else Ail) ltac:(by intros []).
#[global] Instance Prefix_countable : Countable Prefix :=
  inj_countable' (fun p => (p_address p, p_length p)) (fun '(a, n) => mkPrefix a n) ltac:(by intros []).

(** [Ipv6Addr::to_ipv4_mapped().is_some()] *)
Definition is_ipv4_mapped (a : Z) : bool := Z.shiftr a 32 =? 0xffff.
Definition usable (prefix : Prefix) : bool :=
  mem (p_length prefix) [32; 40; 48; 56; 64; 96] && routable prefix
  && negb (is_ipv4_mapped (p_address prefix))
  && bool_decide (prefix_new (p_address prefix) (p_length prefix) = Some prefix).

(** link, router, prefix *)
Abbreviation ObsKey := (Link * Z * Prefix)%type.
Record Observations := mkObservations { observed : gmap ObsKey Z }.

Definition obs_len (o : Observations) : Z := Z.of_nat (size (observed o)).
Definition obs_is_empty (o : Observations) : bool := obs_len o =? 0.
Definition obs_next_deadline (o : Observations) : option Z := mmin (fun t => t) (observed o).
Definition unexpired (now : Z) (m : gmap ObsKey Z) : gmap ObsKey Z := filter (fun kt => now < kt.2) m.
Definition obs_expire (now : Z) (o : Observations) : Observations := mkObservations (unexpired now (observed o)).
Definition link_lost (link : Link) (o : Observations) : Observations :=
  mkObservations (filter (fun kt => kt.1.1.1 <> link) (observed o)).

(** One PREF64 option; invalid sizes and reserved length codes are ignored. *)
Definition observe (link : Link) (source now : Z) (opt : NdOption) (next : gmap ObsKey Z)
  : outcome io_error (gmap ObsKey Z) :=
  match pref64_decode (o_bytes opt) with
  | Panic => Panic
  | Err _ => Ok next
  | Ok p =>
      if usable (pref64_prefix p) then
        let key := (link, source, pref64_prefix p) in
        Ok (if pref64_lifetime p =? 0 then delete key next
            else <[key := sat64 now (pref64_lifetime p * 1000)]> next)
      else Ok next
  end.
(** [for opt in nd.options.iter().filter(|o| o.kind == 38)] *)
Fixpoint observe_all (link : Link) (source now : Z) (opts : list NdOption) (next : gmap ObsKey Z)
  : outcome io_error (gmap ObsKey Z) :=
  match opts with
  | [] => Ok next
  | opt :: opts =>
      next ← (if o_kind opt =? 38 then observe link source now opt next else Ok next);
      observe_all link source now opts next
  end.
Definition on_link (link : Link) (k : ObsKey) (_ : Z) : bool := bool_decide (k.1.1 = link).
Definition obs_receive (link : Link) (packet : bytes) (now : Z) : M Observations io_error unit :=
  if 4096 <? len packet then throw InvalidData else
  e ← lift (map_err (fun _ => InvalidData) (envelope RawIpv6 packet));
  nd ← lift (map_err (fun _ => InvalidData) (decode_nd e));
  if negb (nd_kind nd =? 134) || negb (len (e_packet e) =? len packet) then throw InvalidData else
  self ← get;
  next ← lift (observe_all link (e_source e) now (nd_options nd) (unexpired now (observed self)));
  if 32 <? mcount (on_link link) next then throw WouldBlock else
  modify (fun _ => mkObservations next).

(** [entry(prefix).and_modify(max).or_insert(until)] over the live entries, in prefix
    order. *)
Definition keep_latest (p : Prefix) (until : Z) (m : gmap Prefix Z) : gmap Prefix Z :=
  <[p := match m !! p with Some v => Z.max v until | None => until end]> m.
Definition obs_live_map (o : Observations) (link : Link) (now : Z) (reachable : Z -> bool) : gmap Prefix Z :=
  map_fold (fun (k : ObsKey) until m => keep_latest k.2 until m) ∅
    (filter (fun kt : ObsKey * Z => kt.1.1.1 = link /\ now < kt.2 /\ reachable kt.1.1.2 = true) (observed o)).
Definition prefix_entry_le (a b : Prefix * Z) : Prop := prefix_leb a.1 b.1 = true.
#[global] Instance prefix_entry_le_dec a b : Decision (prefix_entry_le a b).
Proof. unfold prefix_entry_le. apply _. Defined.
Definition obs_live (o : Observations) (link : Link) (now : Z) (reachable : Z -> bool) : list (Prefix * Z) :=
  merge_sort prefix_entry_le (map_to_list (obs_live_map o link now reachable)).

(** ** Lemmas *)

Lemma pref64_decode_safe b : is_bytes b -> safe (pref64_decode b).
Proof.
  intros Hb. unfold pref64_decode. safe_auto. inv_all_ok. subst. rewrite len_sub by lia. change (len (zeros 16)) with 16. lia.
Qed.
Definition options_wf (opts : list NdOption) : Prop := Forall (fun o => is_bytes (o_bytes o)) opts.
Lemma nd_options_loop_wf fuel rest opts : is_bytes rest -> nd_options_loop fuel rest = Ok opts -> options_wf opts.
Proof.
  revert rest opts. induction fuel as [|fuel IH]; intros [|x r] opts Hb; cbn [nd_options_loop]; try (intros [= <-]; by apply List.Forall_nil).
  intros H. inv_all_ok. subst. apply List.Forall_cons; [cbn [o_bytes]; by apply is_bytes_sub|]. eapply IH; [|eassumption]. by apply is_bytes_sub.
Qed.
Lemma decode_nd_options e nd : envelope_wf e -> decode_nd e = Ok nd -> options_wf (nd_options nd).
Proof.
  intros He H. unfold decode_nd in H. inv_all_ok. subst nd. cbn [nd_options].
  eapply nd_options_loop_wf; [|eassumption]. subst. apply is_bytes_sub. by eapply transport_bytes.
Qed.
Lemma observe_all_safe link source now opts next : options_wf opts -> safe (observe_all link source now opts next).
Proof.
  intros Ho. revert next. induction Ho as [|o opts Hb _ IH]; intros next; cbn [observe_all]; [done|].
  apply safe_bind; [|intros; apply IH]. destruct (o_kind o =? 38); [|done]. unfold observe.
  pose proof (pref64_decode_safe _ Hb). destruct (pref64_decode (o_bytes o)); [by case_match|done|done].
Qed.

(** What holds of the entries an advertisement adds. *)
Definition entries_wf (m : gmap ObsKey Z) : Prop := forall k t, m !! k = Some t -> usable k.2 = true.
Lemma observe_all_ind (link : Link) (source now : Z) (opts : list NdOption) (next next' : gmap ObsKey Z) (P : gmap ObsKey Z -> Prop) :
  P next ->
  (forall m p t, P m -> usable p = true -> now <= t -> P (<[(link, source, p) := t]> m)) ->
  (forall m p, P m -> P (delete (link, source, p) m)) ->
  0 <= now <= u64_max -> options_wf opts ->
  observe_all link source now opts next = Ok next' -> P next'.
Proof.
  intros H0 Hins Hdel Hn Hw. revert next H0. induction Hw as [|o opts Hb _ IH]; intros next H0; cbn [observe_all]; [by intros [= <-]|].
  intros H. apply bind_Ok in H as (m & Hm & H). eapply IH; [|done]. destruct (o_kind o =? 38); [|by injection Hm as <-].
  unfold observe in Hm. destruct (pref64_decode (o_bytes o)) as [p| |] eqn:Hp; [|by injection Hm as <-|done].
  destruct (usable (pref64_prefix p)) eqn:Hu; [|by injection Hm as <-]. injection Hm as <-.
  destruct (pref64_lifetime p =? 0); [by apply Hdel|]. apply Hins; [done|done|].
  unfold pref64_decode in Hp. inv_all_ok. subst p. cbn [pref64_lifetime]. byte_facts.
  match goal with |- context [Z.land ?w 65528] => pose proof (land_fff8 w ltac:(u_lia)) as -> end. 
  match goal with |- context [?w / 8 * 8 * 1000] => assert (0 <= w / 8) by (apply Z.div_pos; u_lia) end. u_lia.
Qed.

Lemma mcount_filter {K A} `{Countable K} (p : K -> A -> bool) (m : gmap K A) :
  mcount p m = Z.of_nat (size (filter (fun kv => p kv.1 kv.2 = true) m)).
Proof.
  rewrite <-(mcount_size p). 2:{ intros k v Hk. by apply map_lookup_filter_Some in Hk as [_ Hk]. }
  unfold mcount. rewrite msum_filter. apply msum_ext. intros k v _. cbn. case_match; [done|]. by destruct (p k v).
Qed.
(** Fewer matching entries, a smaller count. *)
Lemma mcount_sub {K A} `{Countable K} (p : K -> A -> bool) (m m' : gmap K A) :
  (forall k v, m !! k = Some v -> p k v = true -> m' !! k = Some v) -> mcount p m <= mcount p m'.
Proof.
  intros Hs. rewrite !mcount_filter. apply inj_le, map_subseteq_size, map_subseteq_spec.
  intros k v [Hk Hp]%map_lookup_filter_Some. apply map_lookup_filter_Some. auto.
Qed.

Definition obs_inv (o : Observations) : Prop :=
  entries_wf (observed o) /\ forall link, mcount (on_link link) (observed o) <= 32.
Lemma obs_inv_filter (P : ObsKey * Z -> Prop) `{!forall x, Decision (P x)} o :
  obs_inv o -> obs_inv (mkObservations (filter P (observed o))).
Proof.
  intros [Hw Hc]. split.
  - intros k t [Hk _]%map_lookup_filter_Some. by eapply Hw.
  - intros link. etrans; [|apply (Hc link)]. apply mcount_sub. by intros k v [Hk _]%map_lookup_filter_Some.
Qed.

Lemma obs_receive_ok link packet now o :
  obs_inv o -> is_bytes packet -> is_u64 now ->
  match obs_receive link packet now o with
  | (Ok _, o') => obs_inv o' /\ exists e, envelope RawIpv6 packet = Ok e /\
      forall k, k.1 <> (link, e_source e) -> observed o' !! k = unexpired now (observed o) !! k
  | (Err _, o') => o' = o
  | (Panic, _) => False
  end.
Proof.
  intros Hi Hb Hn. unfold obs_receive. destruct (4096 <? len packet); [done|].
  cbv [mbind M_bind lift get]. pose proof (envelope_safe RawIpv6 packet Hb) as Hes.
  destruct (envelope RawIpv6 packet) as [e|err|] eqn:He; [|done|by destruct Hes]. cbn [map_err].
  pose proof (envelope_Ok _ _ _ Hb He) as Hew. pose proof (decode_nd_safe e Hew) as Hds.
  destruct (decode_nd e) as [nd|err|] eqn:Hd; [|done|by destruct Hds]. cbn [map_err].
  destruct (_ || _); [done|]. pose proof (decode_nd_options e nd Hew Hd) as Hopt.
  set (m := unexpired now (observed o)). pose proof (observe_all_safe link (e_source e) now (nd_options nd) m Hopt) as Hos.
  destruct (observe_all link (e_source e) now (nd_options nd) m) as [next|err|] eqn:Hnext; [|done|by destruct Hos].
  destruct (Z.ltb_spec 32 (mcount (on_link link) next)) as [|Hle]; [done|].
  pose proof (obs_inv_filter (fun kt => now < kt.2) o Hi) as [Hw0 Hc0]. fold m in Hw0, Hc0. cbn [observed] in Hw0, Hc0.
  assert (forall k, k.1 <> (link, e_source e) -> next !! k = m !! k) as Hother.
  { apply (observe_all_ind link (e_source e) now (nd_options nd) m next (fun x => forall k, k.1 <> (link, e_source e) -> x !! k = m !! k));
      [done| | |u_lia|done|done].
    - intros x p t Hx _ _ k Hk. rewrite lookup_insert_ne; [by apply Hx|]. by intros <-.
    - intros x p Hx k Hk. rewrite lookup_delete_ne; [by apply Hx|]. by intros <-. }
  cbn [modify fst snd]. split; [|by exists e]. split.
  - cbn [observed]. apply (observe_all_ind link (e_source e) now (nd_options nd) m next entries_wf); [done| | |u_lia|done|done].
    + intros x p t Hx Hp _ k v Hk. apply lookup_insert_Some in Hk as [[<- _]|[_ Hk]]; [done|by eapply Hx].
    + intros x p Hx k v [_ Hk]%lookup_delete_Some. by eapply Hx.
  - intros l. cbn [observed]. destruct (decide (l = link)) as [->|Hl]; [done|]. etrans; [|apply (Hc0 l)]. apply mcount_sub.
    intros k v Hk Hon. apply bool_decide_eq_true in Hon. rewrite <-Hother; [done|]. destruct k as [[l' r] p]. cbn in *. congruence.
Qed.

(** ** Properties *)

(** At most 32 prefixes are remembered per link, all of them usable for translation,
    whatever advertisements arrive: one that would exceed the limit, or is malformed, is
    refused whole, and changes nothing; an accepted one changes only the entries of its own
    router on its own link, apart from expiry, and no packet panics the receiver. *)
Theorem observations_bounded link packet now o :
  obs_inv o -> is_bytes packet -> is_u64 now ->
  match obs_receive link packet now o with
  | (Ok _, o') => obs_inv o' /\ exists e, envelope RawIpv6 packet = Ok e /\
      forall k, k.1 <> (link, e_source e) -> observed o' !! k = unexpired now (observed o) !! k
  | (Err _, o') => o' = o
  | (Panic, _) => False
  end /\ obs_inv (obs_expire now o) /\ obs_inv (link_lost link o).
Proof. intros. split; [by apply obs_receive_ok|split; by apply obs_inv_filter]. Qed.

(** The latest time among the entries of a prefix. *)
Definition latest (m : gmap ObsKey Z) (p : Prefix) (t : Z) : Prop :=
  (exists k, m !! k = Some t /\ k.2 = p) /\ (forall k t', m !! k = Some t' -> k.2 = p -> t' <= t).
Lemma latest_insert_other m k u p t : m !! k = None -> k.2 <> p -> latest (<[k := u]> m) p t <-> latest m p t.
Proof.
  intros Hk Hp. unfold latest. split; intros [(k1 & Hk1 & Hp1) Hmax]; split.
  - exists k1. split; [|done]. rewrite lookup_insert_ne in Hk1; congruence.
  - intros k2 t2 Hk2 Hp2. apply (Hmax k2); [|done]. rewrite lookup_insert_ne; congruence.
  - exists k1. split; [|done]. rewrite lookup_insert_ne; congruence.
  - intros k2 t2 Hk2 Hp2. apply (Hmax k2); [|done]. rewrite lookup_insert_ne in Hk2; congruence.
Qed.
Lemma latest_insert_same m k u v : m !! k = None -> latest m k.2 v -> latest (<[k := u]> m) k.2 (Z.max v u).
Proof.
  intros Hk [(k0 & Hk0 & Hp0) Hmax]. split.
  - destruct (Z.max_spec v u) as [[_ ->]|[_ ->]]; [exists k; by rewrite lookup_insert_eq|].
    exists k0. split; [|done]. rewrite lookup_insert_ne; congruence.
  - intros k1 t1 Hk1 Hp1. apply lookup_insert_Some in Hk1 as [[_ <-]|[_ Hk1]]; [lia|]. specialize (Hmax k1 t1 Hk1 Hp1). lia.
Qed.
Lemma keep_latest_fold (m : gmap ObsKey Z) p :
  match map_fold (fun (k : ObsKey) until acc => keep_latest k.2 until acc) ∅ m !! p with
  | Some t => latest m p t
  | None => forall k t, m !! k = Some t -> k.2 <> p
  end.
Proof.
  revert p. apply (map_fold_weak_ind (fun acc m => forall p, match acc !! p with
    | Some t => latest m p t | None => forall k t, m !! k = Some t -> k.2 <> p end));
    [intros p; rewrite lookup_empty; intros k t; by rewrite lookup_empty|].
  clear m. intros k u m acc Hk IH p. unfold keep_latest. specialize (IH p). destruct (decide (k.2 = p)) as [<-|Hp].
  - rewrite lookup_insert_eq. destruct (acc !! k.2) as [v|]; [by apply latest_insert_same|].
    split; [exists k; by rewrite lookup_insert_eq|]. intros k1 t1 Hk1 Hp1.
    apply lookup_insert_Some in Hk1 as [[_ <-]|[_ Hk1]]; [lia|]. by destruct (IH k1 t1).
  - rewrite lookup_insert_ne by done. destruct (acc !! p); [by apply latest_insert_other|].
    intros k1 t1 Hk1. apply lookup_insert_Some in Hk1 as [[<- _]|[_ Hk1]]; [done|by eapply IH].
Qed.

Lemma obs_live_exact o link now reachable :
  let shown (router : Z) (p : Prefix) (t : Z) :=
    observed o !! (link, router, p) = Some t /\ now < t /\ reachable router = true in
  (forall p t, (p, t) ∈ obs_live o link now reachable <->
    (exists router, shown router p t) /\ (forall router t', shown router p t' -> t' <= t)) /\
  NoDup (obs_live o link now reachable).*1 /\ Sorted prefix_entry_le (obs_live o link now reachable).
Proof.
  intros shown. unfold obs_live. set (m := obs_live_map o link now reachable).
  assert (merge_sort prefix_entry_le (map_to_list m) ≡ₚ map_to_list m) as Hperm by apply merge_sort_Permutation.
  split_and!.
  - intros p t. rewrite Hperm, elem_of_map_to_list. unfold m, obs_live_map.
    set (f := filter _ (observed o)). pose proof (keep_latest_fold f p) as Hfold.
    assert (forall k t', f !! k = Some t' <-> observed o !! k = Some t' /\ k.1.1 = link /\ now < t' /\ reachable k.1.2 = true) as Hf
      by (intros k t'; unfold f; by rewrite map_lookup_filter_Some).
    assert (latest f p t <-> (exists router, shown router p t) /\ (forall router t', shown router p t' -> t' <= t)) as Hl.
    { unfold latest, shown. split; intros [H1 H2]; split.
      - destruct H1 as ([[l r] p'] & (Ho & Hlk & Hr)%Hf & Hp). cbn in Hlk, Hr, Hp. subst. by exists r.
      - intros r t' Hr. apply (H2 (link, r, p)); [|done]. apply Hf. cbn. by destruct Hr as (? & ? & ?).
      - destruct H1 as (r & Ho & Hr). exists (link, r, p). split; [|done]. apply Hf. by split_and!; [| |apply Hr|apply Hr].
      - intros [[l r] p'] t' (Ho & Hlk & Hr)%Hf Hp. cbn in Hlk, Hr, Hp. subst. by apply (H2 r). }
    rewrite <-Hl. destruct (map_fold _ ∅ f !! p) as [v|].
    + split; [by intros [= <-]|]. intros [(k & Hk & Hp) Hm]. destruct Hfold as [(k' & Hk' & Hp') Hm']. f_equal.
      pose proof (Hm k' v Hk' Hp'). pose proof (Hm' k t Hk Hp). lia.
    + split; [done|]. intros [(k & Hk & Hp) _]. by destruct (Hfold k t).
  - rewrite Hperm. apply NoDup_fst_map_to_list.
  - apply Sorted_merge_sort. intros [p t] [p' t']. unfold prefix_entry_le, prefix_leb. cbn. 
    destruct (Z.lt_trichotomy (p_address p) (p_address p')) as [|[|]]; lia.
Qed.
Lemma obs_live_spec o link now reachable p t : (p, t) ∈ obs_live o link now reachable ->
  (exists router, observed o !! (link, router, p) = Some t /\ now < t /\ reachable router = true) /\
  (forall router t', observed o !! (link, router, p) = Some t' -> now < t' -> reachable router = true -> t' <= t).
Proof.
  intros [Hr Hm]%(proj1 (obs_live_exact o link now reachable)). split; [exact Hr|]. intros router t' ? ? ?. by apply (Hm router t').
Qed.
(** A live entry of a reachable router shows its prefix. *)
Lemma obs_live_some o link now reachable router p t :
  observed o !! (link, router, p) = Some t -> now < t -> reachable router = true -> exists t', (p, t') ∈ obs_live o link now reachable.
Proof.
  intros Ho Hn Hr. set (f := filter (fun kt : ObsKey * Z => kt.1.1.1 = link /\ now < kt.2 /\ reachable kt.1.1.2 = true) (observed o)).
  assert (f !! (link, router, p) = Some t) as Hf by (by apply map_lookup_filter_Some).
  pose proof (keep_latest_fold f p) as Hfold. unfold obs_live. setoid_rewrite (merge_sort_Permutation prefix_entry_le).
  setoid_rewrite elem_of_map_to_list. unfold obs_live_map. fold f.
  destruct (map_fold _ ∅ f !! p) as [v|]; [by exists v|]. by destruct (Hfold _ _ Hf).
Qed.
Lemma obs_live_NoDup o link now reachable : NoDup (obs_live o link now reachable).*1.
Proof. apply (obs_live_exact o link now reachable). Qed.

(** The live prefixes of a link are those with an unexpired entry of a reachable
    router, each listed once, in order, with the latest of those entries' times. *)
Theorem live_prefixes_exact o link now reachable :
  let shown (router : Z) (p : Prefix) (t : Z) :=
    observed o !! (link, router, p) = Some t /\ now < t /\ reachable router = true in
  (forall p t, (p, t) ∈ obs_live o link now reachable <->
    (exists router, shown router p t) /\ (forall router t', shown router p t' -> t' <= t)) /\
  NoDup (obs_live o link now reachable).*1 /\ Sorted prefix_entry_le (obs_live o link now reachable).
Proof. apply obs_live_exact. Qed.

(** ** Witnesses *)

Definition no_observations : Observations := mkObservations ∅.
Lemma no_observations_inv : obs_inv no_observations.
Proof. split; [intros k t; cbn [observed no_observations]; by rewrite lookup_empty|]. intros link. vm_compute. discriminate. Qed.
(** An advertisement of 64:ff9b::/96. *)
Definition sample_ra : bytes := Eval vm_compute in
  match encode_services
    (mkAdvertisement Stub 0xfe800000000000000000000000000001 0xff020000000000000000000000000001 None 1500 0 1800 [] [])
    [] [mkPref64 (mkPrefix 0x0064ff9b000000000000000000000000 96) 1800] with
  | Ok b => b | _ => [] end.
Lemma observations_bounded_witness :
  obs_inv (snd (obs_receive Stub sample_ra 1000 no_observations)) /\
  obs_live (snd (obs_receive Stub sample_ra 1000 no_observations)) Stub 2000 (fun _ => true) =
    [(mkPrefix 0x0064ff9b000000000000000000000000 96, 1801000)].
Proof.
  assert (is_bytes sample_ra) as Hb by (repeat constructor; vm_compute; discriminate).
  pose proof (observations_bounded Stub sample_ra 1000 no_observations no_observations_inv Hb) as [H _].
  - split; vm_compute; discriminate.
  - split; [|vm_compute; reflexivity]. revert H. destruct (obs_receive Stub sample_ra 1000 no_observations) as [[u|e|] o'];
      cbn [snd]; [intros [H _]; exact H | intros ->; exact no_observations_inv | intros []].
Defined.
