(* ===== verification/Translate.v ===== *)
(** The stateful NAT64 translator ([src/src/nat64/translate.rs] with the handlers of
    [translate/errors.rs]): packets out of the stub, packets in from the infrastructure
    link, ICMP errors of both, and the timer.

    [Translator] is the struct; its methods are computations of the state and error monad,
    those that draw random ports over the pair of the translator and the random source.
    [source_allowed] and [reachable] are the closures the router passes. *)

From S2P Require Import Prelude Effects Time Maps Ports TcpState Icmp64.
From S2P Require Import Checksum Wire Ipv4Wire Reassembly Bindings Headers Quotes Observations.

(** [router::Tx] *)
Record Tx := mkTx { tx_link : Link; tx_packet : bytes }.

Record Translator := mkTranslator {
  tr_bindings : Bindings;
  tr_prefixes : list Prefix;
  tr_ipv4 : option Z;
  tr_identification : Z;
  tr_mtu0 : Z;
  tr_mtu1 : Z;
  tr_lowest_ipv6_mtu : Z;
  tr_error_window : Z;
  tr_error_count : Z;
}.
Definition put_bindings v t := mkTranslator v (tr_prefixes t) (tr_ipv4 t) (tr_identification t) (tr_mtu0 t) (tr_mtu1 t)
  (tr_lowest_ipv6_mtu t) (tr_error_window t) (tr_error_count t).
Definition put_prefixes v t := mkTranslator (tr_bindings t) v (tr_ipv4 t) (tr_identification t) (tr_mtu0 t) (tr_mtu1 t)
  (tr_lowest_ipv6_mtu t) (tr_error_window t) (tr_error_count t).
Definition put_ipv4 v t := mkTranslator (tr_bindings t) (tr_prefixes t) v (tr_identification t) (tr_mtu0 t) (tr_mtu1 t)
  (tr_lowest_ipv6_mtu t) (tr_error_window t) (tr_error_count t).
Definition put_identification v t := mkTranslator (tr_bindings t) (tr_prefixes t) (tr_ipv4 t) v (tr_mtu0 t) (tr_mtu1 t)
  (tr_lowest_ipv6_mtu t) (tr_error_window t) (tr_error_count t).
Definition put_mtus v w t := mkTranslator (tr_bindings t) (tr_prefixes t) (tr_ipv4 t) (tr_identification t) v w
  (tr_lowest_ipv6_mtu t) (tr_error_window t) (tr_error_count t).
Definition put_lowest v t := mkTranslator (tr_bindings t) (tr_prefixes t) (tr_ipv4 t) (tr_identification t) (tr_mtu0 t)
  (tr_mtu1 t) v (tr_error_window t) (tr_error_count t).
Definition put_errors v w t := mkTranslator (tr_bindings t) (tr_prefixes t) (tr_ipv4 t) (tr_identification t) (tr_mtu0 t)
  (tr_mtu1 t) (tr_lowest_ipv6_mtu t) v w.

Abbreviation MT := (M Translator io_error).
(** A method of [self.bindings]. *)
Definition on_bindings {A} (m : MB A) : MT A := fun t =>
  let '(r, b) := m (tr_bindings t) in (r, put_bindings b t).

(** ** Configuration *)

Definition translator_new (prefix : Prefix) (ipv4 : Z) (p : Ports.State) : outcome io_error Translator :=
  reject_if negb (p_length prefix =? 96) || negb (usable prefix) || negb (unicast ipv4) with InvalidData;
  Ok (mkTranslator (set_domain (p_address prefix) (with_ports p)) [prefix] (Some ipv4) 0 1500 1500 1280 0 0).
Definition set_prefixes (prefixes : list Prefix) : MT unit :=
  if (8 <? len prefixes) || existsb (fun p => negb (p_length p =? 96) || negb (usable p)) prefixes then throw InvalidData else
  t ← get;
  if bool_decide (tr_prefixes t = prefixes) then mret tt else
  on_bindings (retain_domains prefixes) ;;
  modify (put_prefixes prefixes).
Definition set_lowest_ipv6_mtu (mtu : Z) : MT unit :=
  if negb ((1280 <=? mtu) && (mtu <=? 65535)) then throw InvalidData else modify (put_lowest mtu).
Definition set_mtus (mtu0 mtu1 : Z) : MT unit := modify (put_mtus mtu0 mtu1).
Definition set_ipv4 (ipv4 : option Z) : MT unit :=
  if match ipv4 with Some a => negb (unicast a) | None => false end then throw InvalidData else
  t ← get;
  if bool_decide (tr_ipv4 t = ipv4) then mret tt else
  on_bindings clear ;;
  modify (put_ipv4 ipv4).

Definition synthesize (t : Translator) (ipv4 : Z) : Z := Z.lor (domain (tr_bindings t)) ipv4.

(** ** ICMP errors *)

Definition allow_error (now : Z) : MT bool :=
  t ← get;
  (if 1000 <=? sat_sub now (tr_error_window t) then modify (put_errors now 0) else mret tt) ;;
  t ← get;
  if tr_error_count t =? 32 then mret false else
  modify (put_errors (tr_error_window t) (tr_error_count t + 1)) ;;
  mret true.
Definition generate6 (e : Envelope) (kind code value now : Z) : MT (list Tx) :=
  ok ← allow_error now;
  if negb ok then mret [] else
  let body := [kind; code; 0; 0] ++ be32 value ++ take 1232 (e_packet e) in
  packet ← lift (encode6 58 (e_destination e) (e_source e) 0 64 body);
  mret [mkTx Stub packet].
Definition generate4 (p : Packet) (kind code value now : Z) : MT (list Tx) :=
  ok ← allow_error now;
  if negb ok then mret [] else
  let body := [kind; code; 0; 0] ++ be32 value ++ take 548 (pk_bytes p) in
  body ← lift (icmp4_checksum body);
  packet ← lift (Ipv4Wire.encode (pk_destination p) (pk_source p) 1 64 body);
  mret [mkTx Ail packet].
(** The MTU or pointer that an ICMPv4 error carries. *)
Definition error_value4 (b : bytes) (b0 : Z) : outcome io_error Z :=
  if b0 =? 12 then b.[4] else b6 ← b.[6]; b7 ← b.[7]; Ok (u16be b6 b7).
Definition error4 (p : Packet) (now : Z) : MT (list Tx) :=
  let b := pk_payload p in
  if (len b <? 8) || negb (checksum4 b =? 0) then throw InvalidData else
  t ← get;
  if negb (bool_decide (tr_ipv4 t = Some (pk_destination p))) || negb (unicast (pk_source p)) then mret [] else
  '(quoted_, extension) ← lift (split_extensions b true);
  q ← lift (quoted quoted_);
  if len (pk_payload q) <? 8 then throw InvalidData else
  b0 ← lift b.[0]; b1 ← lift b.[1];
  value ← lift (error_value4 b b0);
  b10 ← lift b.[10]; b11 ← lift b.[11];
  match v4_to_v6 b0 b1 value (u16be b10 b11) (tr_mtu0 t) (tr_mtu1 t) with
  | None => mret []
  | Some (kind, code, value) =>
      if negb (pk_source q =? pk_destination p) || negb (unicast (pk_destination q)) || negb (pk_fragment_offset q =? 0)
      then mret [] else
      ports ← lift (quoted_ports (pk_protocol q) (pk_payload q));
      match ports with
      | None => mret []
      | Some (sport, dport) =>
          let remote := mkRemote (pk_destination q) (if pk_protocol q =? 1 then 0 else dport) in
          match error_in (tr_bindings t) (pk_protocol q) sport remote now with
          | None => mret []
          | Some (host, port) =>
              d ← lift (unwrap (domain_for (tr_bindings t) (pk_protocol q) sport));
              on_bindings (modify (set_domain d)) ;;
              t ← get;
              quote ← lift (quote4_to_6 q host (synthesize t (pk_destination q)) port);
              body ← lift (join_extensions kind code value quote extension false);
              ok ← allow_error now;
              if negb ok then mret [] else
              ttl ← lift (sub_chk (pk_ttl p) 1);
              packet ← lift (encode6 58 (synthesize t (pk_source p)) host (pk_traffic_class p) ttl body);
              mret [mkTx Stub packet]
          end
      end
  end.
(** [crate::wire::Prefix::new(self.bindings.domain, 96).unwrap().contains(a)] *)
Definition in_domain (t : Translator) (a : Z) : outcome io_error bool :=
  p ← unwrap (prefix_new (domain (tr_bindings t)) 96); Ok (contains p a).
Definition error6 (e : Envelope) (now : Z) : MT (list Tx) :=
  let b := e_payload e in
  if (len b <? 8) || negb (checksum (e_source e) (e_destination e) 58 b =? 0) then throw InvalidData else
  t ← get;
  match tr_ipv4 t with
  | None => mret []
  | Some pool =>
      to_domain ← lift (in_domain t (e_destination e));
      from_domain ← lift (in_domain t (e_source e));
      if negb to_domain || from_domain || is_multicast6 (e_source e) || is_unspecified6 (e_source e)
         || is_loopback6 (e_source e) || link_local (e_source e) then mret [] else
      '(quoted_, extension) ← lift (split_extensions b false);
      q ← lift (quote6_parse quoted_);
      quoted_in ← lift (in_domain t (q_source q));
      if q_non_initial q || negb quoted_in || negb (q_source q =? e_destination e) then mret [] else
      dest ← lift (extract (q_source q));
      if negb (unicast dest) then mret [] else
      ports ← lift (quoted_ports (q_protocol q) (q_payload q));
      match ports with
      | None => mret []
      | Some (sport, dport) =>
          let protocol := if q_protocol q =? 58 then 1 else q_protocol q in
          let remote := mkRemote dest (if protocol =? 1 then 0 else sport) in
          match error_out (tr_bindings t) protocol (q_dest q) dport remote now with
          | None => mret []
          | Some port =>
              b0 ← lift b.[0]; b1 ← lift b.[1];
              value ← lift (slice b 4 8);
              let adjustment := if (b0 =? 2) && bool_decide (is_Some (q_fragment q)) then 8 else 0 in
              match v6_to_v4 b0 b1 (sat_sub (of_be value) adjustment) (tr_mtu0 t) (sat_sub (tr_mtu1 t) adjustment) with
              | None => mret []
              | Some (kind, code, value) =>
                  quote ← lift (quote6_to_4 q dest pool port);
                  body ← lift (join_extensions kind code
                           (if kind =? 12 then Z.shiftl value 24 mod 2 ^ 32 else value) quote extension true);
                  if dest =? pool then
                    body ← lift (icmp4_checksum body);
                    packet ← lift (Ipv4Wire.encode pool pool 1 (e_hop_limit e) body);
                    p ← lift (Ipv4Wire.parse packet);
                    error4 p now
                  else
                  ok ← allow_error now;
                  if negb ok then mret [] else
                  hop ← lift (sub_chk (e_hop_limit e) 1);
                  body ← lift (icmp4_checksum body);
                  packet ← lift (Ipv4Wire.encode pool dest 1 hop body);
                  mret [mkTx Ail packet]
              end
          end
      end
  end.

(** ** Out of the stub network *)

Section outbound.
Context {R : Type} `{Sampler R}.
Abbreviation MTR := (M (Translator * R) io_error).
Definition tr {A} (m : MT A) : MTR A := on_fst m.
(** A method of [self.bindings] that also uses [rng]. *)
Definition on_bindings_rng {A} (m : M (Bindings * R) io_error A) : MTR A := fun st =>
  let '(r, (b, rng)) := m (tr_bindings (fst st), snd st) in (r, (put_bindings b (fst st), rng)).
Definition tr_lift {A} (m : outcome io_error A) : MTR A := lift m.

(** A source the translator does not serve, or a destination outside its prefixes. *)
Definition declined (t : Translator) (source_allowed : Z -> bool) (e : Envelope) : bool :=
  negb (source_allowed (e_source e)) || is_unspecified6 (e_source e) || is_loopback6 (e_source e)
  || is_multicast6 (e_source e) || link_local (e_source e) || is_ipv4_mapped (e_source e)
  || existsb (fun p => contains p (e_source e)) (tr_prefixes t)
  || negb (existsb (fun p => contains p (e_destination e)) (tr_prefixes t)).
(** The external port or identifier of the source; [None] is a TCP segment declined. *)
Definition assigned_port (protocol source sport dest dport now : Z) (payload : bytes) : MTR (option Z) :=
  if protocol =? 17 then
    p ← on_bindings_rng (udp_out source sport (mkRemote dest dport) now (fun _ => false)); mret (Some p)
  else if protocol =? 58 then
    p ← on_bindings_rng (icmp_out source sport dest now); mret (Some p)
  else
    flags ← tr_lift payload.[13];
    on_bindings_rng (tcp_out source sport (mkRemote dest dport) flags now).
(** [payload] with the assigned source port, or identifier. *)
Definition set_source_port (protocol assigned : Z) (payload : bytes) : outcome io_error bytes :=
  if protocol =? 58 then copy_at payload 4 (be16 assigned) else copy_at payload 0 (be16 assigned).
(** [if dest == pool]: the packet turns around inside the translator. *)
Definition hairpin (e : Envelope) (protocol pool class assigned dport now : Z) (payload : bytes) : MT (list Tx) :=
  let remote := mkRemote pool assigned in
  target ←
    (if protocol =? 17 then on_bindings (udp_in dport remote now)
     else if protocol =? 58 then on_bindings (icmp_in assigned pool now)
     else
       flags ← lift payload.[13];
       on_bindings (tcp_in dport remote flags now));
  match target with
  | None => mret []
  | Some (target, port) =>
      payload ← lift (if protocol =? 58 then copy_at payload 4 (be16 port) else copy_at payload 2 (be16 port));
      t ← get;
      hop ← lift (sub_chk (e_hop_limit e) 1);
      packet ← lift (encode6 protocol (synthesize t pool) target class hop payload);
      mret [mkTx Stub packet]
  end.
(** The IPv4 packet for the payload, before it is fragmented: [protocol] is the IPv6 one. *)
Definition ipv4_packet (t : Translator) (fragment_id : option Z) (protocol pool dest class hop : Z) (payload : bytes)
  : outcome io_error bytes :=
  payload ← (if protocol =? 58 then
               p0 ← payload.[0]; copy_at payload 0 [if p0 =? 128 then 8 else 0]
             else Ok payload);
  let protocol := if protocol =? 58 then 1 else protocol in
  let at_ := checksum_offset protocol in
  payload ← copy_at payload at_ [0; 0];
  let sum := transport_checksum4 pool dest protocol payload in
  payload ← copy_at payload at_ (be16 (transport_sum protocol sum));
  ttl ← sub_chk hop 1;
  out ← Ipv4Wire.encode pool dest protocol ttl payload;
  out ← copy_at out 1 [class];
  out ← copy_at out 4 (be16 (match fragment_id with Some id => id mod 65536 | None => tr_identification t end));
  out ← (if (1260 <? len out) && negb (bool_decide (is_Some fragment_id)) then copy_at out 6 [0x40] else Ok out);
  out ← copy_at out 10 [0; 0];
  header ← slice out 0 20;
  let sum := checksum4 header in
  copy_at out 10 (be16 sum).
(** [self.identification.wrapping_add(1)], and the fragments of the packet. *)
Definition send_ipv4 (d : Datagram) (protocol pool dest class hop : Z) (payload : bytes) : MT (list Tx) :=
  t ← get;
  out ← lift (ipv4_packet t (d_fragment_id d) protocol pool dest class hop payload);
  modify (put_identification ((tr_identification t + 1) mod 65536)) ;;
  o4 ← lift out.[4]; o5 ← lift out.[5];
  fragments ← lift (fragment out (tr_mtu0 t) (u16be o4 o5));
  mret (map (mkTx Ail) fragments).

(** The checks on a packet that is not an ICMP error, in the order of the code. *)
Definition translate_out (d : Datagram) (e : Envelope) (problem : option Z) (pool dest now : Z) : MTR (list Tx) :=
  let protocol := e_next_header e in
  let payload := e_payload e in
  match problem with
  | Some pointer => tr (generate6 e 4 0 pointer now)
  | None =>
  if negb (mem protocol [6; 17; 58]) then tr (generate6 e 1 4 0 now) else
  '(sport, dport) ← tr_lift (transport_ports protocol payload);
  no_sum ← tr_lift (if protocol =? 17 then s ← slice payload 6 8; Ok (beq s [0; 0]) else Ok false);
  if no_sum || negb (checksum (e_source e) (e_destination e) protocol payload =? 0) then throw InvalidData else
  if e_hop_limit e <=? 1 then tr (generate6 e 3 0 0 now) else
  t ← gets fst;
  if (tr_mtu0 t <? len payload + 20) && (1260 <? len payload + 20) && negb (dest =? pool)
     && negb (bool_decide (is_Some (d_fragment_id d)))
  then tr (generate6 e 2 0 (Z.max (sat32 (tr_mtu0 t) 20) 1280) now) else
  assigned ← assigned_port protocol (e_source e) sport dest dport now payload;
  match assigned with
  | None => mret []
  | Some assigned =>
      p0 ← tr_lift (d_packet d).[0]; p1 ← tr_lift (d_packet d).[1];
      let class := Z.lor (Z.shiftl (Z.land p0 15) 4 mod 256) (Z.shiftr p1 4) in
      payload ← tr_lift (set_source_port protocol assigned payload);
      if dest =? pool then tr (hairpin e protocol pool class assigned dport now payload)
      else tr (send_ipv4 d protocol pool dest class (e_hop_limit e) payload)
  end
  end.
Definition outbound_datagram (d : Datagram) (now : Z) (source_allowed reachable : Z -> bool) : MTR (list Tx) :=
  let packet := d_packet d in
  e ← tr_lift (map_err (fun _ => InvalidData) (envelope RawIpv6 packet));
  if negb (len (e_packet e) =? len packet) then throw InvalidData else
  '(protocol, offset, problem) ← tr_lift (transport6 packet);
  payload ← tr_lift (slice_from packet offset);
  let e := mkEnvelope (e_packet e) payload (e_source e) (e_destination e) protocol (e_hop_limit e) in
  if 65515 <? len payload then throw InvalidData else
  t ← gets fst;
  match tr_ipv4 t with
  | None => mret []
  | Some pool =>
      if declined t source_allowed e then mret [] else
      chosen ← tr_lift (unwrap (List.find (fun p => contains p (e_destination e)) (tr_prefixes t)));
      tr (on_bindings (modify (set_domain (p_address chosen)))) ;;
      dest ← tr_lift (extract (e_destination e));
      if negb (unicast dest) || negb (dest =? pool) && negb (reachable dest) then mret [] else
      if (protocol =? 58) && match payload with kind :: _ => kind <? 128 | [] => false end then
        if (e_hop_limit e <=? 1) || bool_decide (is_Some problem) then mret [] else tr (error6 e now)
      else translate_out d e problem pool dest now
  end.
Definition outbound (packet : bytes) (now : Z) (source_allowed reachable : Z -> bool) : MTR (list Tx) :=
  outbound_datagram (mkDatagram packet None) now source_allowed reachable.
End outbound.

(** ** In from the infrastructure link *)

(** [self.error_in(..)] decides whether the sender of an undeliverable packet is told. *)
Definition refuse_in (p : Packet) (source_route : bool) (sport dport now : Z) : MT (list Tx) :=
  t ← get;
  let '(port, remote) :=
    if pk_protocol p =? 1 then (sport, mkRemote (pk_source p) 0) else (dport, mkRemote (pk_source p) sport) in
  match error_in (tr_bindings t) (pk_protocol p) port remote now with
  | None => mret []
  | Some _ =>
      if pk_ttl p <=? 1 then generate4 p 11 0 0 now
      else if source_route then generate4 p 3 5 0 now
      else generate4 p 3 4 (Z.max (sat_sub (tr_mtu1 t) 20) 68) now
  end.
Definition deliver_in (p : Packet) (sport dport now : Z) : MT (list Tx) :=
  target ←
    (if pk_protocol p =? 17 then on_bindings (udp_in dport (mkRemote (pk_source p) sport) now)
     else if pk_protocol p =? 1 then on_bindings (icmp_in sport (pk_source p) now)
     else
       flags ← lift (pk_payload p).[13];
       on_bindings (tcp_in_packet dport (mkRemote (pk_source p) sport) flags now (pk_bytes p)));
  match target with
  | None => mret []
  | Some (target, port) =>
      payload ← lift (if pk_protocol p =? 1 then
                        b ← copy_at (pk_payload p) 4 (be16 port);
                        b0 ← b.[0];
                        copy_at b 0 [if b0 =? 8 then 128 else 129]
                      else copy_at (pk_payload p) 2 (be16 port));
      let protocol := if pk_protocol p =? 1 then 58 else pk_protocol p in
      t ← get;
      ttl ← lift (sub_chk (pk_ttl p) 1);
      out ← lift (encode6 protocol (synthesize t (pk_source p)) target (pk_traffic_class p) ttl payload);
      let mtu := if pk_dont_fragment p then tr_mtu1 t else Z.min (tr_mtu1 t) (tr_lowest_ipv6_mtu t) in
      fragments ← lift (fragment out mtu (pk_id p));
      mret (map (mkTx Stub) fragments)
  end.
Definition inbound (packet : bytes) (now : Z) : MT (list Tx) :=
  p ← lift (Ipv4Wire.parse packet);
  if negb (len (pk_bytes p) =? len packet) || negb (mem (pk_protocol p) [1; 6; 17])
     || negb (pk_fragment_offset p =? 0) || pk_more_fragments p then throw InvalidData else
  if (pk_protocol p =? 1) && match pk_payload p with kind :: _ => negb (mem kind [0; 8]) | [] => false end then
    if pk_ttl p <=? 1 then mret [] else error4 p now
  else
  '(sport, dport) ← lift (transport_ports (pk_protocol p) (pk_payload p));
  summed ← lift (if pk_protocol p =? 17 then s ← slice (pk_payload p) 6 8; Ok (negb (beq s [0; 0])) else Ok true);
  if summed && negb (transport_checksum4 (pk_source p) (pk_destination p) (pk_protocol p) (pk_payload p) =? 0)
  then throw InvalidData else
  t ← get;
  if negb (bool_decide (tr_ipv4 t = Some (pk_destination p))) || negb (unicast (pk_source p)) then mret [] else
  source_route ← lift (unexpired_source_route p);
  if (pk_ttl p <=? 1) || source_route || pk_dont_fragment p && (tr_mtu1 t <? len (pk_payload p) + 40)
  then refuse_in p source_route sport dport now
  else deliver_in p sport dport now.

(** ** Timers *)

(** A keepalive for a TCP session whose established timer ran out. *)
Definition probe_packet (t : Translator) (source port : Z) (remote : Remote) : outcome io_error bytes :=
  tcp ← copy_at (zeros 20) 0 (be16 (r_port remote));
  tcp ← copy_at tcp 2 (be16 port);
  tcp ← copy_at tcp 12 [0x50];
  tcp ← copy_at tcp 13 [16];
  encode6 6 (synthesize t (r_ip remote)) source 0 64 tcp.
Fixpoint poll_probes (probes : list (Z * Z * Z * Remote)) : MT (list Tx) :=
  match probes with
  | [] => mret []
  | (source, port, allocated, remote) :: probes =>
      t ← get;
      d ← lift (unwrap (domain_for (tr_bindings t) 6 allocated));
      on_bindings (modify (set_domain d)) ;;
      t ← get;
      packet ← lift (probe_packet t source port remote);
      rest ← poll_probes probes;
      mret (mkTx Stub packet :: rest)
  end.
(** The error owed to the sender of a SYN that nothing answered. *)
Definition timeout_packet (pool : Z) (quote : bytes) : outcome io_error bytes :=
  p ← quoted quote;
  let icmp := [3; 3; 0; 0; 0; 0; 0; 0] ++ quote in
  let sum := checksum4 icmp in
  icmp ← copy_at icmp 2 (be16 sum);
  Ipv4Wire.encode pool (pk_source p) 1 64 icmp.
Fixpoint poll_timeouts (pool : Z) (quotes : list bytes) : MT (list Tx) :=
  match quotes with
  | [] => mret []
  | quote :: quotes =>
      packet ← lift (timeout_packet pool quote);
      rest ← poll_timeouts pool quotes;
      mret (mkTx Ail packet :: rest)
  end.
Definition poll (now : Z) : MT (list Tx) :=
  on_bindings (expire now) ;;
  t ← get;
  match tr_ipv4 t with
  | None => mret []
  | Some pool =>
      probes ← on_bindings (take_tcp_probes 32);
      output ← poll_probes probes;
      room ← lift (sub_chk 32 (len output));
      quotes ← on_bindings (take_tcp_timeouts room);
      more ← poll_timeouts pool quotes;
      mret (output ++ more)
  end.
