(* ===== verification/TranslateFacts.v ===== *)
(** The translator's handlers do not panic and keep its invariant. *)

From S2P Require Import Prelude Effects Time Maps Ports TcpState Icmp64 Checksum Wire WireFacts Ipv4Wire.
From S2P Require Import Reassembly FragmentFacts Bindings BindingsInv BindingsOps BindingsFacts Headers Quotes Observations Translate.

(** ** The invariant *)

Record tr_inv (t : Translator) : Prop := {
  ti_bindings : bib_inv (tr_bindings t);
  ti_prefixes : len (tr_prefixes t) <= 8 /\ Forall (fun p => p_length p = 96 /\ usable p = true) (tr_prefixes t);
  ti_ipv4 : forall a, tr_ipv4 t = Some a -> is_u32 a /\ unicast a = true;
  ti_identification : is_u16 (tr_identification t);
  ti_mtus : is_u32 (tr_mtu0 t) /\ is_u32 (tr_mtu1 t);
  ti_lowest : 1280 <= tr_lowest_ipv6_mtu t <= 65535;
  ti_errors : 0 <= tr_error_count t <= 32;
}.

(** A method that keeps the invariant, does not panic, and returns what satisfies [P]. *)
Definition keeps {A} (P : A -> Prop) (m : MT A) : Prop :=
  triple tr_inv m (fun a t => P a /\ tr_inv t) (fun _ t => tr_inv t).
Definition any {A} (_ : A) : Prop := True.

Lemma keeps_ret {A} (P : A -> Prop) (a : A) : P a -> keeps P (mret a).
Proof. by intros ? t ?. Qed.
Lemma keeps_throw {A} (P : A -> Prop) e : keeps P (throw e).
Proof. by intros t ?. Qed.
Lemma keeps_bind {A B} (P : A -> Prop) (Q : B -> Prop) (m : MT A) f :
  keeps P m -> (forall a, P a -> keeps Q (f a)) -> keeps Q (m ≫= f).
Proof.
  intros Hm Hf t Ht. specialize (Hm t Ht). cbv [mbind M_bind]. destruct (m t) as [[a|e|] t']; [|done|done].
  destruct Hm as [Ha Ht']. by apply Hf.
Qed.
Lemma keeps_get : keeps tr_inv get.
Proof. by intros t ?. Qed.
Lemma keeps_lift {A} (P : A -> Prop) (m : outcome io_error A) : yields P m -> keeps P (lift m).
Proof. intros Hm t Ht. cbn. by destruct m. Qed.
Lemma keeps_modify f : (forall t, tr_inv t -> tr_inv (f t)) -> keeps any (modify f).
Proof. intros Hf t Ht. split; [done|]. by apply Hf. Qed.
Lemma keeps_weaken {A} (P Q : A -> Prop) (m : MT A) : keeps P m -> (forall a, P a -> Q a) -> keeps Q m.
Proof. intros Hm HPQ t Ht. specialize (Hm t Ht). destruct (m t) as [[a|e|] t']; naive_solver. Qed.
Lemma put_bindings_inv b t : tr_inv t -> bib_inv b -> tr_inv (put_bindings b t).
Proof. intros [] Hb. by split. Qed.
(** What the tables' lemmas say of a method of [self.bindings]. *)
Definition bib_keeps {A} (P : A -> Prop) (m : MB A) : Prop := forall b, bib_inv b ->
  match m b with (Ok a, b') => P a /\ bib_inv b' | (Err _, b') => bib_inv b' | (Panic, _) => False end.
Lemma keeps_bindings {A} (P : A -> Prop) (m : MB A) : bib_keeps P m -> keeps P (on_bindings m).
Proof.
  intros Hm t Ht. specialize (Hm _ (ti_bindings _ Ht)). unfold on_bindings. destruct (m (tr_bindings t)) as [[a|e|] b']; [|by apply put_bindings_inv|done].
  destruct Hm. split; [done|by apply put_bindings_inv].
Qed.

(** ** The tables' methods *)

Lemma udp_in_keeps port remote now : 0 <= now -> bib_keeps any (udp_in port remote now).
Proof.
  intros Hn b Hb. pose proof (udp_in_ok port remote now b Hb Hn) as H. unfold only_expired in H.
  destruct (udp_in port remote now b) as [[[hp|]|e|] b']; [split; [done|apply H]|split; [done|apply H]|apply H|done].
Qed.
Lemma icmp_in_keeps id remote now : 0 <= now -> bib_keeps any (icmp_in id remote now).
Proof.
  intros Hn b Hb. pose proof (icmp_in_ok id remote now b Hb Hn) as H. unfold only_expired in H.
  destruct (icmp_in id remote now b) as [[[hp|]|e|] b']; [split; [done|apply H]|split; [done|apply H]|done|done].
Qed.
Lemma tcp_in_keeps port remote flags now : 0 <= now -> bib_keeps any (tcp_in port remote flags now).
Proof.
  intros Hn b Hb. pose proof (tcp_in_ok port remote flags now b Hb Hn) as H. unfold only_expired in H.
  destruct (tcp_in port remote flags now b) as [[[hp|]|e|] b']; [split; [done|apply H]|split; [done|apply H]|apply H|done].
Qed.
Lemma tcp_in_packet_keeps port remote flags now p : 0 <= now -> is_bytes p -> 0 < len p ->
  bib_keeps any (tcp_in_packet port remote flags now p).
Proof.
  intros Hn Hp Hl b Hb. pose proof (tcp_in_packet_ok port remote flags now p b Hb Hn Hp Hl) as H.
  by destruct (tcp_in_packet port remote flags now p b) as [[r|e|] b'].
Qed.
Lemma set_domain_keeps d : bib_keeps any (modify (set_domain d)).
Proof. intros b Hb. split; [done|by apply set_domain_inv]. Qed.
Lemma expire_keeps now : bib_keeps any (expire now).
Proof. intros b Hb. by destruct (expire_inv now b Hb) as (rel & b' & -> & ? & _). Qed.

(** ** Error messages *)

Definition tx_bytes (txs : list Tx) : Prop := Forall (fun x => is_bytes (tx_packet x)) txs.
Lemma tx_one link b : is_bytes b -> tx_bytes [mkTx link b].
Proof. intros. constructor; [done|constructor]. Qed.
Lemma tx_none : tx_bytes [].
Proof. constructor. Qed.
Lemma tx_map link fs : Forall is_bytes fs -> tx_bytes (map (mkTx link) fs).
Proof. intros. by apply Forall_map. Qed.

Lemma allow_error_keeps now : keeps any (allow_error now).
Proof.
  intros t [B P I D Mt L [E1 E2]]. cbv [allow_error mbind M_bind get modify mret M_ret].
  destruct (1000 <=? sat_sub now (tr_error_window t)); cbn [put_errors tr_error_count tr_error_window].
  - split; [done|]. split; try done; cbn; lia.
  - destruct (Z.eqb_spec (tr_error_count t) 32); [by split|]. split; [done|]. split; try done; cbn; lia.
Qed.
Lemma encode6_yields protocol s d class hop pl :
  is_bytes pl -> checksum_offset protocol + 2 <= len pl -> 0 < protocol <= 255 -> is_u8 class -> is_u8 hop ->
  yields (fun out => is_bytes out /\ len out = 40 + len pl) (encode6 protocol s d class hop pl).
Proof.
  intros Hb Hl Hp Hc Hh. pose proof (encode6_spec protocol s d class hop pl Hb Hl Hp Hc) as H.
  destruct (Z.leb_spec (len pl) u16_max); [|by rewrite H]. destruct H as (v & Hv & _ & ->). cbn [yields].
  destruct (checksum_offset_bound protocol) as [? _]. destruct (class_bytes_ok class Hc) as [Hcb _].
  assert (is_bytes (put pl (checksum_offset protocol) (be16 v))) by (apply is_bytes_put; [done|apply is_bytes_be]).
  split; [apply is_bytes_packet6; [done|u_lia|done|done]|]. rewrite len_packet6_class by done. f_equal.
  apply len_put; [lia|]. unfold be16. rewrite len_be. lia.
Qed.
Lemma generate6_keeps e kind code value now : is_bytes (e_packet e) -> is_u8 kind -> is_u8 code -> keeps tx_bytes (generate6 e kind code value now).
Proof.
  intros He Hk Hc. unfold generate6. eapply keeps_bind; [apply allow_error_keeps|]. intros [] _; cbn [negb]; [|apply keeps_ret, tx_none].
  cbv zeta. assert (is_bytes ([kind; code; 0; 0] ++ be32 value ++ take 1232 (e_packet e))) as Hb.
  { rewrite !is_bytes_app. split_and!; [bytes_tac|apply is_bytes_be|by apply Forall_take]. }
  eapply keeps_bind; [apply keeps_lift, encode6_yields; [done| |lia|u_lia|u_lia]|].
  - rewrite !len_app. change (len [kind; code; 0; 0]) with 4. unfold be32. rewrite len_be. change (checksum_offset 58) with 2.
    pose proof (len_nonneg (take 1232 (e_packet e))). lia.
  - intros p [Hp _]. by apply keeps_ret, tx_one.
Qed.
Lemma generate4_keeps p kind code value now : is_bytes (pk_bytes p) -> is_u8 kind -> is_u8 code ->
  keeps tx_bytes (generate4 p kind code value now).
Proof.
  intros He Hk Hc. unfold generate4. eapply keeps_bind; [apply allow_error_keeps|]. intros [] _; cbn [negb]; [|apply keeps_ret, tx_none].
  cbv zeta. set (body := [kind; code; 0; 0] ++ be32 value ++ take 548 (pk_bytes p)). assert (is_bytes body) as Hb.
  { unfold body. rewrite !is_bytes_app. split_and!; [bytes_tac|apply is_bytes_be|by apply Forall_take]. }
  destruct (icmp4_checksum_Ok body Hb) as (b' & -> & Hl & Hb' & _).
  { unfold body. rewrite !len_app. change (len [kind; code; 0; 0]) with 4. pose proof (len_nonneg (take 548 (pk_bytes p))).
    pose proof (len_nonneg (be32 value)). lia. }
  eapply keeps_bind; [by apply (keeps_lift is_bytes)|]. intros b1 Hb1. eapply keeps_bind.
  - apply keeps_lift, (encode_yields _ _ _ _ _ (len b1)); [u_lia|u_lia|done].
  - intros out [Ho _]. by apply keeps_ret, tx_one.
Qed.

(** One step of a method: an early return, [get], or a fallible read. *)
Ltac kstep :=
  lazymatch goal with
  | |- keeps _ (if ?c then throw _ else _) => let H := fresh "Hc" in destruct c eqn:H; [apply keeps_throw|]
  | |- keeps _ (if ?c then mret [] else _) => let H := fresh "Hc" in destruct c eqn:H; [apply keeps_ret, tx_none|]
  | |- keeps _ (get ≫= _) => eapply keeps_bind; [apply keeps_get|]
  | |- keeps _ (lift (idx _ _) ≫= _) => eapply keeps_bind; [apply keeps_lift, yields_idx; [done|]|]
  | |- keeps _ (lift _ ≫= _) => eapply keeps_bind; [apply keeps_lift|]
  | |- keeps _ (mret _) => apply keeps_ret
  end.

Lemma v4_to_v6_u8 kind code value q m4 m6 k c v : is_u8 code -> v4_to_v6 kind code value q m4 m6 = Some (k, c, v) -> is_u8 k /\ is_u8 c.
Proof.
  intros Hc. unfold v4_to_v6. destruct (kind =? 3); [repeat case_match; intros; simplify_eq; u_lia|].
  destruct (_ && _); [intros; simplify_eq; u_lia|]. destruct (_ && _); [|done]. cbn [mbind option_bind].
  repeat case_match; cbn; intros; simplify_eq; u_lia.
Qed.
Lemma v6_to_v4_u8 kind code value m4 m6 k c v : is_u8 code -> v6_to_v4 kind code value m4 m6 = Some (k, c, v) -> is_u8 k /\ is_u8 c.
Proof.
  intros Hc. unfold v6_to_v4. destruct (kind =? 1); [repeat case_match; intros; simplify_eq; u_lia|].
  destruct (_ && _); [intros; simplify_eq; u_lia|]. destruct (_ && _); [intros; simplify_eq; u_lia|].
  destruct (_ && _); [|destruct (_ && _); [intros; simplify_eq; u_lia|done]].
  repeat case_match; cbn; intros; simplify_eq; u_lia.
Qed.
Lemma error_value4_yields b b0 : is_bytes b -> 8 <= len b -> yields any (error_value4 b b0).
Proof.
  intros Hb Hl. apply yields_of_safe; [|done]. unfold error_value4. safe_auto.
Qed.
Lemma domain_for_bound b protocol port remote now hp : error_in b protocol port remote now = Some hp -> is_Some (domain_for b protocol port).
Proof.
  unfold error_in, domain_for. destruct (reverse b !! (protocol, port)); [by eexists|done].
Qed.
(** A packet as [Packet::parse] returned it. *)
Definition parsed_from (b : list Z) (p : Packet) : Prop := is_bytes b /\ Ipv4Wire.parse b = Ok p.
Lemma parsed_facts b p : parsed_from b p ->
  is_bytes (pk_payload p) /\ is_bytes (pk_bytes p) /\ is_u8 (pk_ttl p) /\ is_u8 (pk_protocol p) /\ is_u8 (pk_traffic_class p) /\
  len (pk_payload p) + 20 <= len (pk_bytes p) /\ len (pk_bytes p) <= 65535 /\ is_u16 (pk_id p) /\ is_u32 (pk_source p) /\ is_u32 (pk_destination p).
Proof.
  intros [Hb Hp]. pose proof (parse_inner_Ok b false p Hb Hp) as (H1 & H2 & H3 & H4 & H5 & H6 & H7 & H8 & H9 & H10 & H11 & H12 & H13 & H14).
  destruct (declared_length b false p Hb Hp) as (b2 & b3 & _ & _ & Hb2 & Hb3 & Hd).
  assert (len (pk_payload p) = len (pk_bytes p) - pk_header_len p) as Hl by (rewrite H5, len_sub; lia).
  split_and!; try done; try u_lia; [rewrite H5|rewrite H1]; by apply is_bytes_sub.
Qed.
Lemma error4_keeps b p now : parsed_from b p -> 2 <= pk_ttl p -> keeps tx_bytes (error4 p now).
Proof.
  intros Hp Httl. destruct (parsed_facts b p Hp) as (Hpl & Hpb & Ht8 & _ & Hcl & Hl1 & Hl2 & _). unfold error4. kstep.
  kstep. intros t Ht. kstep. kstep; [apply split_extensions_yields; [done|lia]|]. intros [quoted_ x] (Hq & Hx & Hql).
  kstep; [apply (yields_of_safe (fun q => quoted quoted_ = Ok q)); [by apply parse_inner_safe|done]|]. intros q Hquo.
  pose proof (parse_inner_Ok quoted_ true q Hq Hquo) as (Q1 & Q2 & Q3 & Q4 & Q5 & _).
  pose proof (len_nonneg x). kstep. assert (len (pk_payload q) = len (pk_bytes q) - pk_header_len q) as Hpq by (rewrite Q5, len_sub; lia).
  kstep; [lia|]. intros b0 Hb0. kstep; [lia|]. intros b1 Hb1. kstep; [apply error_value4_yields; [done|lia]|]. intros value _.
  kstep; [lia|]. intros b10 _. kstep; [lia|]. intros b11 _.
  destruct (v4_to_v6 _ _ _ _ _ _) as [[[kind code] v]|] eqn:Hv; [|apply keeps_ret, tx_none].
  apply v4_to_v6_u8 in Hv as [Hkind Hcode]; [|done]. kstep.
  kstep; [apply (yields_of_safe any); [|done]; apply quoted_ports_safe; rewrite Q5; by apply is_bytes_sub|]. intros [[sport dport]|] _; [|apply keeps_ret, tx_none].
  cbv zeta. destruct (error_in _ _ _ _ _) as [[host port]|] eqn:He; [|apply keeps_ret, tx_none].
  kstep; [apply (yields_of_safe any); [|done]; apply safe_unwrap; by eapply domain_for_bound|]. intros d _.
  eapply keeps_bind; [apply keeps_bindings, set_domain_keeps|]. intros _ _. kstep. intros t' Ht'.
  kstep; [apply (quote4_to_6_yields q quoted_); [done|done|lia|lia]|]. intros quote [Hqb _].
  kstep; [by apply join_extensions_yields|]. intros body (Hbb & Hbl & _).
  eapply keeps_bind; [apply allow_error_keeps|]. intros [] _; cbn [negb]; [|apply keeps_ret, tx_none].
  kstep; [apply (yields_of_safe is_u8); [apply safe_sub_chk; lia|]; intros ttl [-> _]%sub_chk_Ok; u_lia|]. intros ttl Httl8.
  kstep; [apply encode6_yields; [done|change (checksum_offset 58) with 2; lia|lia|done|done]|]. intros packet [Hpk _].
  kstep. by apply tx_one.
Qed.

(** An envelope whose payload starts at the transport header. *)
Record env_ok (e : Envelope) : Prop := {
  eo_packet : is_bytes (e_packet e);
  eo_payload : is_bytes (e_payload e);
  eo_source : is_u128 (e_source e);
  eo_destination : is_u128 (e_destination e);
  eo_hop : is_u8 (e_hop_limit e);
  eo_len : len (e_payload e) <= 65515;
}.
Lemma in_domain_yields t a : yields any (in_domain t a).
Proof. apply yields_of_safe; [|done]. unfold in_domain. apply safe_bind; [by apply safe_unwrap|done]. Qed.
Lemma u8_sub1 n : 1 <= n <= 255 -> yields is_u8 (sub_chk (E:=io_error) n 1).
Proof. intros. apply yields_of_safe; [apply safe_sub_chk; lia|]. intros x [-> _]%sub_chk_Ok. u_lia. Qed.
Lemma error6_keeps e now : env_ok e -> 2 <= e_hop_limit e -> keeps tx_bytes (error6 e now).
Proof.
  intros [He1 He2 He3 He4 He5 He6] Hhop. unfold error6. kstep. kstep. intros t Ht.
  destruct (tr_ipv4 t) as [pool|] eqn:Hpool; [|apply keeps_ret, tx_none]. destruct (ti_ipv4 _ Ht _ Hpool) as [Hpool32 _].
  kstep; [apply in_domain_yields|]. intros d1 _. kstep; [apply in_domain_yields|]. intros d2 _. kstep.
  kstep; [apply split_extensions_yields; [done|lia]|]. intros [quoted_ x] (Hq & Hx & Hql). pose proof (len_nonneg x).
  kstep; [apply (yields_of_safe (quote6_wf quoted_)); [by apply quote6_parse_safe|intros; by apply quote6_parse_Ok]|]. intros q Hqwf.
  kstep; [apply in_domain_yields|]. intros d3 _. kstep. pose proof Hqwf as (Q1 & Q2 & Q3 & Q4 & Q5 & Q6 & Q7 & Q8 & _).
  destruct (extract_Ok (q_source q) Q1) as (dest & Hdest & Hdest32). rewrite Hdest.
  kstep; [instantiate (1 := is_u32); done|]. intros dest' Hd'. kstep.
  kstep; [apply (yields_of_safe any); [by apply quoted_ports_safe|done]|]. intros [[sport dport]|] _; [|apply keeps_ret, tx_none].
  cbv zeta. destruct (error_out _ _ _ _ _ _) as [port|]; [|apply keeps_ret, tx_none].
  kstep; [lia|]. intros b0 Hb0. kstep; [lia|]. intros b1 Hb1. kstep; [apply yields_slice; [done|lia|lia]|]. intros v _.
  destruct (v6_to_v4 _ _ _ _ _) as [[[kind code] value]|] eqn:Hv; [|apply keeps_ret, tx_none].
  apply v6_to_v4_u8 in Hv as [Hkind Hcode]; [|done].
  kstep; [apply (quote6_to_4_yields q quoted_); [done|lia]|]. intros quote [Hqb _].
  kstep; [by apply join_extensions_yields|]. intros body (Hbb & Hbl & _).
  destruct (icmp4_checksum_Ok body Hbb ltac:(lia)) as (body' & Hbc & Hbl' & Hbb' & _).
  destruct (dest' =? pool).
  - rewrite Hbc. kstep; [instantiate (1 := eq body'); done|]. intros ? <-.
    destruct (encode_parse pool pool 1 (e_hop_limit e) body') as (out & Hout & _ & Hparse); [done|done|u_lia|done|lia|].
    rewrite Hout. kstep; [instantiate (1 := eq out); done|]. intros ? <-.
    assert (is_bytes out) as Hob.
    { pose proof (encode_yields pool pool 1 (e_hop_limit e) body' (len body') ltac:(u_lia) ltac:(done) ltac:(done)) as H'.
      rewrite Hout in H'. apply H'. }
    rewrite Hparse. kstep; [instantiate (1 := fun p => parsed_from out p /\ pk_ttl p = e_hop_limit e); done|].
    intros p [Hp Hpt]. apply (error4_keeps out); [done|lia].
  - eapply keeps_bind; [apply allow_error_keeps|]. intros [] _; cbn [negb]; [|apply keeps_ret, tx_none].
    kstep; [apply u8_sub1; u_lia|]. intros hop Hh. rewrite Hbc. kstep; [instantiate (1 := eq body'); done|]. intros ? <-.
    kstep; [apply (encode_yields _ _ _ _ _ (len body')); [u_lia|done|done]|]. intros out [Ho _]. kstep. by apply tx_one.
Qed.

(** ** Inbound packets *)

Lemma fragment_one_yields b header id total offset data : (header = 20 \/ header = 40) -> header <= len b -> is_bytes b -> is_bytes data ->
  yields is_bytes (fragment_one b header id total offset data).
Proof.
  intros Hh Hl Hb Hd. unfold fragment_one. cbv zeta.
  eapply yields_bind; [apply yields_slice; [done|lia|lia]|]. intros h Hh0. rewrite Z.sub_0_r in Hh0.
  eapply (yields_bind is_bytes); [|intros h' Hh'; cbn [yields]; by apply is_bytes_app].
  destruct Hh as [-> | ->]; cbn [Z.eqb Pos.eqb].
  - ycopy 20. intros h1 H1. ycopy 20. intros h2 H2. ycopy 20. intros h3 H3.
    eapply yields_bind; [apply (yields_copy 20); [done|bytes_tac|lia|change (len [0; 0]) with 2; lia]|]. intros h4 H4.
    eapply yields_weaken; [apply (yields_copy 20); [done|apply is_bytes_be|lia|unfold be16; rewrite len_be; lia]|]. by intros a [Ha _].
  - ycopy 40. intros h1 H1. ycopy 40. intros h2 [H2 _]. eapply yields_bind; [apply yields_idx; [done|lia]|]. intros b6 Hb6. cbn [yields].
    rewrite !is_bytes_app. split_and!; [done|bytes_tac|apply is_bytes_be|apply is_bytes_be].
Qed.
Lemma chunks_bytes fuel n b : is_bytes b -> Forall is_bytes (chunks fuel n b).
Proof.
  revert b. induction fuel as [|fuel IH]; intros [|x b] Hb; cbn [chunks]; try constructor; [by apply Forall_take|].
  apply IH. by apply Forall_drop.
Qed.
Lemma fragment_loop_yields b header id chunk total i ds : (header = 20 \/ header = 40) -> header <= len b -> is_bytes b ->
  Forall is_bytes ds -> yields (Forall is_bytes) (fragment_loop b header id chunk total i ds).
Proof.
  intros Hh Hl Hb Hds. revert i. induction Hds as [|d ds Hd _ IH]; intros i; cbn [fragment_loop]; [constructor|].
  eapply yields_bind; [by apply fragment_one_yields|]. intros h Hh0. eapply yields_bind; [apply IH|]. intros rest Hr. by constructor.
Qed.
Lemma fragment_yields b mtu id : is_bytes b -> yields (Forall is_bytes) (fragment b mtu id).
Proof.
  intros Hb. unfold fragment. destruct (_ <=? _); [by constructor|]. destruct (fragment_plan_ok b mtu Hb) as [Hs Hok].
  destruct (fragment_plan b mtu) as [[h o]|e|]; [|done|by destruct Hs]. cbn [mbind outcome_bind].
  destruct (Hok h o eq_refl) as (Hh & Hl & Ho).
  eapply yields_bind; [apply (yields_of_safe any); [apply safe_sub_chk; lia|done]|]. intros room _. cbv zeta. apply yields_reject. intros _.
  eapply yields_bind; [apply yields_slice_from; [done|lia]|]. intros pl [Hpl _]. apply fragment_loop_yields; [done|done|done|by apply chunks_bytes].
Qed.

Lemma refuse_in_keeps b p sr sport dport now : parsed_from b p -> keeps tx_bytes (refuse_in p sr sport dport now).
Proof.
  intros Hp. destruct (parsed_facts b p Hp) as (_ & Hpb & _). unfold refuse_in. kstep. intros t Ht.
  destruct (if pk_protocol p =? 1 then _ else _) as [port remote]. destruct (error_in _ _ _ _ _); [|apply keeps_ret, tx_none].
  destruct (pk_ttl p <=? 1); [apply generate4_keeps; [done|u_lia|u_lia]|]. destruct sr; (apply generate4_keeps; [done|u_lia|u_lia]).
Qed.
Lemma transport_length protocol b s d : is_bytes b -> transport_ports protocol b = Ok (s, d) -> mem protocol [1; 6; 17; 58] = true /\
  8 <= len b /\ checksum_offset protocol + 2 <= len b /\ (protocol <> 17 -> protocol <> 1 -> protocol <> 58 -> 20 <= len b) /\ 0 < protocol <= 255.
Proof.
  intros Hb H. apply transport_ports_Ok in H as (H1 & H2 & H3 & _ & _ & H6); [|done].
  pose proof H6 as Hm. apply mem_In in Hm. cbn in Hm. split_and!; try done; try lia.
Qed.
Lemma deliver_in_keeps b p sport dport now : parsed_from b p -> 2 <= pk_ttl p -> 0 <= now ->
  mem (pk_protocol p) [1; 6; 17] = true ->
  transport_ports (pk_protocol p) (pk_payload p) = Ok (sport, dport) -> keeps tx_bytes (deliver_in p sport dport now).
Proof.
  intros Hp Httl Hnow Hm Hports. destruct (parsed_facts b p Hp) as (Hpl & Hpb & Ht8 & Hp8 & Hcl & Hl1 & Hl2 & _).
  destruct (transport_length _ _ _ _ Hpl Hports) as (_ & Hl8 & Hoff & Htcp & _). apply mem_In in Hm. cbn in Hm.
  unfold deliver_in. eapply (keeps_bind any).
  { destruct (Z.eqb_spec (pk_protocol p) 17); [by apply keeps_bindings, udp_in_keeps|].
    destruct (Z.eqb_spec (pk_protocol p) 1); [by apply keeps_bindings, icmp_in_keeps|].
    kstep; [lia|]. intros flags _. apply keeps_bindings, tcp_in_packet_keeps; [done|done|lia]. }
  intros [[target port]|] _; [|apply keeps_ret, tx_none]. set (k := len (pk_payload p)) in *.
  kstep; [instantiate (1 := buffer k)|intros pl [Hpl1 Hpl2]].
  { destruct (pk_protocol p =? 1).
    - ycopy k. intros b1 [Hb1 Hb1l]. eapply yields_bind; [apply yields_idx; [done|lia]|]. intros b0 _.
      apply yields_copy; [done| |lia|change (len [_]) with 1; lia]. apply is_bytes_cons; split; [case_match; u_lia|constructor].
    - apply yields_copy; [done|apply is_bytes_be|lia|unfold be16; rewrite len_be; lia]. }
  cbv zeta. set (protocol := if pk_protocol p =? 1 then 58 else pk_protocol p). kstep. intros t Ht.
  kstep; [apply u8_sub1; u_lia|]. intros ttl Httl8.
  kstep; [apply encode6_yields; [done| | |done|done]|].
  - rewrite Hpl2. unfold protocol. destruct (Z.eqb_spec (pk_protocol p) 1) as [E|]; [|done]. change (checksum_offset 58) with 2. lia.
  - unfold protocol. destruct (pk_protocol p =? 1); u_lia.
  - intros out [Hout _]. kstep; [by apply fragment_yields|]. intros fs Hfs. kstep. by apply tx_map.
Qed.
Lemma inbound_keeps packet now : is_bytes packet -> 0 <= now -> keeps tx_bytes (inbound packet now).
Proof.
  intros Hb Hn. unfold inbound.
  kstep; [apply (yields_of_safe (parsed_from packet)); [by apply parse_inner_safe|by intros]|]. intros p Hp.
  destruct (parsed_facts packet p Hp) as (Hpl & Hpb & Ht8 & Hp8 & _). kstep.
  destruct (_ && _); [kstep; apply (error4_keeps packet); [done|lia]|].
  kstep; [apply (yields_of_safe (fun r => transport_ports (pk_protocol p) (pk_payload p) = Ok r)); [by apply transport_ports_safe|done]|].
  intros [sport dport] Hports. destruct (transport_length _ _ _ _ Hpl Hports) as (_ & Hl8 & _).
  kstep; [apply (yields_of_safe any); [|done]; destruct (_ =? 17); [|done]; apply safe_bind; [apply safe_slice; lia|done]|]. intros summed _.
  kstep. kstep. intros t Ht. kstep. destruct Hp as [_ Hp].
  kstep; [apply (yields_of_safe any); [by apply (unexpired_source_route_safe packet)|done]|]. intros sr _.
  assert (parsed_from packet p) as Hpf by done.
  destruct ((pk_ttl p <=? 1) || _ || _) eqn:Hc3; [by eapply refuse_in_keeps|].
  rewrite !orb_false_iff, !negb_false_iff in Hc. destruct_and!. apply (deliver_in_keeps packet); [done|lia|done|done|done].
Qed.

(** ** Outbound packets *)

Lemma hairpin_keeps e protocol pool class assigned dport now k payload :
  env_ok e -> 2 <= e_hop_limit e -> 0 <= now -> is_u8 class -> buffer k payload -> 8 <= k ->
  checksum_offset protocol + 2 <= k -> 0 < protocol <= 255 -> (protocol <> 17 -> protocol <> 1 -> protocol <> 58 -> 20 <= k) -> protocol <> 1 ->
  keeps tx_bytes (hairpin e protocol pool class assigned dport now payload).
Proof.
  intros He Hhop Hn Hc [Hpb Hpk] Hk8 Hoff Hpr Htcp H1. pose proof (eo_hop _ He). unfold hairpin. eapply (keeps_bind any).
  { destruct (Z.eqb_spec protocol 17); [by apply keeps_bindings, udp_in_keeps|].
    destruct (Z.eqb_spec protocol 58); [by apply keeps_bindings, icmp_in_keeps|].
    kstep; [lia|]. intros flags _. by apply keeps_bindings, tcp_in_keeps. }
  intros [[target port]|] _; [|apply keeps_ret, tx_none].
  kstep; [instantiate (1 := buffer k)|intros pl [Hpl1 Hpl2]].
  { destruct (protocol =? 58); (apply yields_copy; [done|apply is_bytes_be|lia|unfold be16; rewrite len_be; lia]). }
  kstep. intros t Ht. kstep; [apply u8_sub1; u_lia|]. intros hop Hh.
  kstep; [apply encode6_yields; [done|lia|done|done|done]|]. intros out [Hout _]. kstep. by apply tx_one.
Qed.
Lemma ipv4_packet_yields t fid protocol pool dest class hop k payload :
  buffer k payload -> is_u8 class -> 2 <= hop <= 255 -> 8 <= k -> checksum_offset protocol + 2 <= k -> 0 < protocol <= 255 ->
  yields (buffer (20 + k)) (ipv4_packet t fid protocol pool dest class hop payload).
Proof.
  intros Hb Hc Hh Hk Hoff Hp. unfold ipv4_packet. eapply (yields_bind (buffer k)).
  { destruct (protocol =? 58); [|done]. eapply yields_bind; [apply yields_idx; [apply Hb|destruct Hb; lia]|]. intros p0 _.
    apply yields_copy; [done| |lia|change (len [_]) with 1; lia]. apply is_bytes_cons; split; [case_match; u_lia|constructor]. }
  intros pl Hpl. cbv zeta. set (p4 := if protocol =? 58 then 1 else protocol).
  assert (checksum_offset p4 + 2 <= k /\ 0 < p4 <= 255) as [Hoff4 Hp4].
  { unfold p4. destruct (Z.eqb_spec protocol 58); [change (checksum_offset 1) with 2; lia|done]. }
  destruct (checksum_offset_bound p4) as [Ho _].
  eapply yields_bind; [apply (yields_copy k); [done|bytes_tac|lia|change (len [0; 0]) with 2; lia]|]. intros pl1 Hpl1.
  ycopy k. intros pl2 Hpl2. eapply yields_bind; [apply u8_sub1; lia|]. intros ttl Httl.
  eapply yields_bind; [apply (encode_yields _ _ _ _ _ k); [u_lia|done|done]|]. intros out Hout.
  ycopy (20 + k). intros out1 Hout1. ycopy (20 + k). intros out2 Hout2. eapply (yields_bind (buffer (20 + k))).
  { destruct (_ && _); [|done]. apply yields_copy; [done|bytes_tac|lia|change (len [_]) with 1; lia]. }
  intros out3 Hout3.
  eapply yields_bind; [apply (yields_copy (20 + k)); [done|bytes_tac|lia|change (len [0; 0]) with 2; lia]|]. intros out4 Hout4.
  eapply yields_bind; [apply yields_slice; [apply Hout4|lia|destruct Hout4; lia]|]. intros hd _.
  apply yields_copy; [done|apply is_bytes_be|lia|unfold be16; rewrite len_be; lia].
Qed.
Lemma send_ipv4_keeps d protocol pool dest class hop k payload :
  buffer k payload -> is_u8 class -> 2 <= hop <= 255 -> 8 <= k -> checksum_offset protocol + 2 <= k -> 0 < protocol <= 255 ->
  keeps tx_bytes (send_ipv4 d protocol pool dest class hop payload).
Proof.
  intros Hb Hc Hh Hk Hoff Hp. unfold send_ipv4. kstep. intros t Ht.
  kstep; [by apply (ipv4_packet_yields _ _ _ _ _ _ _ k)|]. intros out [Ho Hol].
  eapply keeps_bind; [apply keeps_modify|]. { intros t' []. split; try done. cbn. pose proof (Z.mod_pos_bound (tr_identification t + 1) 65536). u_lia. }
  intros _ _. kstep; [lia|]. intros o4 _. kstep; [lia|]. intros o5 _. kstep; [by apply fragment_yields|]. intros fs Hfs. kstep. by apply tx_map.
Qed.

Section with_rng.
Context {R : Type} `{Sampler R}.
Definition keepsr {A} (P : A -> Prop) (m : M (Translator * R) io_error A) : Prop :=
  triple (fun st => tr_inv (fst st)) m (fun a st => P a /\ tr_inv (fst st)) (fun _ st => tr_inv (fst st)).
Lemma keepsr_ret {A} (P : A -> Prop) (a : A) : P a -> keepsr P (mret a).
Proof. by intros ? st ?. Qed.
Lemma keepsr_throw {A} (P : A -> Prop) e : keepsr P (throw e).
Proof. by intros st ?. Qed.
Lemma keepsr_bind {A B} (P : A -> Prop) (Q : B -> Prop) (m : M (Translator * R) io_error A) f :
  keepsr P m -> (forall a, P a -> keepsr Q (f a)) -> keepsr Q (m ≫= f).
Proof.
  intros Hm Hf st Ht. specialize (Hm st Ht). cbv [mbind M_bind]. destruct (m st) as [[a|e|] st']; [|done|done].
  destruct Hm as [Ha Ht']. by apply Hf.
Qed.
Lemma keepsr_lift {A} (P : A -> Prop) (m : outcome io_error A) : yields P m -> keepsr P (tr_lift m).
Proof. intros Hm st Ht. cbn. by destruct m. Qed.
Lemma keepsr_tr {A} (P : A -> Prop) (m : MT A) : keeps P m -> keepsr P (tr m).
Proof. intros Hm [t r] Ht. specialize (Hm t Ht). cbv [tr on_fst]. cbn [fst snd]. by destruct (m t) as [[a|e|] t']. Qed.
Lemma keepsr_get : keepsr tr_inv (gets fst).
Proof. by intros st ?. Qed.
(** The tables' methods that draw ports. *)
Definition bibr_keeps {A} (m : M (Bindings * R) io_error A) : Prop := forall b r, bib_inv b ->
  match m (b, r) with (Ok _, (b', _)) | (Err _, (b', _)) => bib_inv b' | (Panic, _) => False end.
Lemma keepsr_bindings {A} (m : M (Bindings * R) io_error A) : bibr_keeps m -> keepsr any (on_bindings_rng m).
Proof.
  intros Hm [t r] Ht. specialize (Hm _ r (ti_bindings _ Ht)). unfold on_bindings_rng. cbn [fst snd] in *.
  destruct (m (tr_bindings t, r)) as [[a|e|] [b' r']]; [split; [done|]; exact (put_bindings_inv _ _ Ht Hm)|exact (put_bindings_inv _ _ Ht Hm)|done].
Qed.
Lemma assigned_port_keeps protocol source sport dest dport now payload :
  is_u16 sport -> 0 <= now -> is_bytes payload -> (protocol <> 17 -> protocol <> 58 -> 20 <= len payload) ->
  keepsr any (assigned_port protocol source sport dest dport now payload).
Proof.
  intros Hs Hn Hb Hl. unfold assigned_port. destruct (Z.eqb_spec protocol 17); [|destruct (Z.eqb_spec protocol 58)].
  - eapply keepsr_bind; [apply keepsr_bindings|intros; by apply keepsr_ret]. intros b r Hi.
    pose proof (udp_out_ok source sport (mkRemote dest dport) now (fun _ => false) b r Hi Hs Hn) as Ho.
    destruct (udp_out _ _ _ _ _ (b, r)) as [[a|e'|] [b' r']]; [apply Ho|apply Ho|done].
  - eapply keepsr_bind; [apply keepsr_bindings|intros; by apply keepsr_ret]. intros b r Hi.
    pose proof (icmp_out_ok source sport dest now b r Hi Hs Hn) as Ho.
    destruct (icmp_out _ _ _ _ (b, r)) as [[a|e'|] [b' r']]; [apply Ho|apply Ho|done].
  - eapply keepsr_bind; [apply keepsr_lift, yields_idx; [done|lia]|]. intros flags _. apply keepsr_bindings. intros b r Hi.
    pose proof (tcp_out_ok source sport (mkRemote dest dport) flags now b r Hi Hs Hn) as Ho.
    destruct (tcp_out _ _ _ _ _ (b, r)) as [[[a|]|e'|] [b' r']]; [apply Ho|apply Ho|apply Ho|done].
Qed.
Lemma translate_out_keeps d e problem pool dest now :
  env_ok e -> is_bytes (d_packet d) -> 40 <= len (d_packet d) -> 0 <= now -> keepsr tx_bytes (translate_out d e problem pool dest now).
Proof.
  intros He Hdb Hdl Hn. pose proof (eo_packet _ He) as Hpk. pose proof (eo_payload _ He) as Hpl. pose proof (eo_hop _ He) as Hhop.
  unfold translate_out. destruct problem; [apply keepsr_tr, generate6_keeps; [done|u_lia|u_lia]|].
  destruct (mem (e_next_header e) [6; 17; 58]) eqn:Hm; cbn [negb]; [|apply keepsr_tr, generate6_keeps; [done|u_lia|u_lia]].
  apply mem_In in Hm. cbn in Hm.
  eapply keepsr_bind; [apply keepsr_lift, (yields_of_safe (fun r => transport_ports (e_next_header e) (e_payload e) = Ok r)); [by apply transport_ports_safe|done]|].
  intros [sport dport] Hports. destruct (transport_length _ _ _ _ Hpl Hports) as (_ & Hl8 & Hoff & Htcp & Hpr).
  apply transport_ports_Ok in Hports as (_ & _ & _ & Hs16 & _); [|done].
  eapply keepsr_bind; [apply keepsr_lift, (yields_of_safe any); [|done]; destruct (_ =? 17); [|done]; apply safe_bind; [apply safe_slice; lia|done]|].
  intros no_sum _. destruct (_ || _); [apply keepsr_throw|]. destruct (Z.leb_spec (e_hop_limit e) 1); [apply keepsr_tr, generate6_keeps; [done|u_lia|u_lia]|].
  eapply keepsr_bind; [apply keepsr_get|]. intros t Ht. destruct (_ && _); [apply keepsr_tr, generate6_keeps; [done|u_lia|u_lia]|].
  eapply keepsr_bind; [apply assigned_port_keeps; [done|done|done|lia]|]. intros [assigned|] _; [|apply keepsr_ret, tx_none].
  eapply keepsr_bind; [apply keepsr_lift, yields_idx; [done|lia]|]. intros p0 Hp0.
  eapply keepsr_bind; [apply keepsr_lift, yields_idx; [done|lia]|]. intros p1 Hp1. cbv zeta.
  pose proof (class_of_u8 p0 p1 Hp0 Hp1) as Hclass. set (k := len (e_payload e)) in *.
  eapply (keepsr_bind (buffer k)); [apply keepsr_lift; unfold set_source_port; destruct (_ =? 58);
    (apply yields_copy; [done|apply is_bytes_be|lia|unfold be16; rewrite len_be; lia])|].
  intros payload Hbuf. destruct (dest =? pool); apply keepsr_tr.
  - apply (hairpin_keeps e _ _ _ _ _ _ k); try done; lia.
  - apply (send_ipv4_keeps _ _ _ _ _ _ k); try done; u_lia.
Qed.
Lemma outbound_datagram_keeps d now source_allowed reachable :
  is_bytes (d_packet d) -> 0 <= now -> keepsr tx_bytes (outbound_datagram d now source_allowed reachable).
Proof.
  intros Hb Hn. unfold outbound_datagram.
  eapply keepsr_bind; [apply keepsr_lift, yields_map_err, (yields_of_safe (fun e => envelope RawIpv6 (d_packet d) = Ok e)); [by apply envelope_safe|done]|].
  intros e He. destruct (Z.eqb_spec (len (e_packet e)) (len (d_packet d))) as [Hlen|]; cbn [negb]; [|apply keepsr_throw].
  destruct (raw_envelope _ _ Hb He Hlen) as (Hpk & Hl40 & Hpl & _ & Hplu & (_ & _ & _ & _ & Hs & Hd & _ & Hhop)).
  pose proof (len_nonneg (e_payload e)).
  eapply keepsr_bind; [apply keepsr_lift, (yields_of_safe (fun r => transport6 (d_packet d) = Ok r)); [apply transport6_safe; [done|lia]|done]|].
  intros [[protocol offset] problem] Ht6. apply transport6_Ok in Ht6 as (Hoff & _); [|done|lia].
  eapply keepsr_bind; [apply keepsr_lift, yields_slice_from; [done|lia]|]. intros payload [Hpb _]. cbv zeta.
  set (e' := mkEnvelope _ _ _ _ _ _). destruct (Z.ltb_spec 65515 (len payload)); [apply keepsr_throw|].
  assert (env_ok e') as He'. { split; cbn; try done. by rewrite Hpk. }
  eapply keepsr_bind; [apply keepsr_get|]. intros t Ht. destruct (tr_ipv4 t) as [pool|]; [|apply keepsr_ret, tx_none].
  destruct (declined t source_allowed e') eqn:Hdec; [apply keepsr_ret, tx_none|].
  assert (is_Some (List.find (fun p => contains p (e_destination e')) (tr_prefixes t))) as Hfind.
  { unfold declined in Hdec. rewrite !orb_false_iff in Hdec. destruct Hdec as [_ Hex].
    apply negb_false_iff in Hex. apply existsb_exists in Hex as (p & Hin & Hc). destruct (List.find _ _) eqn:Hf; [by eexists|].
    apply (List.find_none _ _ Hf) in Hin. congruence. }
  eapply keepsr_bind; [apply keepsr_lift, (yields_of_safe any); [by apply safe_unwrap|done]|]. intros chosen _.
  eapply keepsr_bind; [apply keepsr_tr, keeps_bindings, set_domain_keeps|]. intros _ _.
  destruct (extract_Ok (e_destination e') Hd) as (dest & -> & _).
  eapply keepsr_bind; [by apply keepsr_lift, (yields_of_safe any)|]. intros dest' _.
  destruct (negb (unicast dest') || _); [apply keepsr_ret, tx_none|].
  destruct ((protocol =? 58) && _).
  - destruct ((e_hop_limit e' <=? 1) || _) eqn:Hh; [apply keepsr_ret, tx_none|]. apply keepsr_tr, error6_keeps; [done|lia].
  - apply translate_out_keeps; [done|done|lia|done].
Qed.
End with_rng.

(** ** Timers and configuration *)

Lemma probe_packet_yields t source port remote : yields is_bytes (probe_packet t source port remote).
Proof.
  unfold probe_packet. assert (buffer 20 (zeros 20)) as Hz by (split; [apply is_bytes_zeros|done]).
  ycopy 20. intros b1 H1. ycopy 20. intros b2 H2. ycopy 20. intros b3 H3. ycopy 20. intros b4 [H4 H4l].
  eapply yields_weaken; [apply encode6_yields; [done|change (checksum_offset 6) with 16; lia|lia|u_lia|u_lia]|]. by intros a [Ha _].
Qed.
Lemma poll_probes_ok probes t : tr_inv t -> Forall (probe_bound (tr_bindings t)) probes ->
  match poll_probes probes t with
  | (Ok out, t') => tx_bytes out /\ tr_inv t' /\ len out = len probes /\ tr_ipv4 t' = tr_ipv4 t
  | (Err _, t') => tr_inv t'
  | (Panic, _) => False
  end.
Proof.
  intros Ht Hp. revert t Ht Hp. induction probes as [|[[[source port] allocated] remote] probes IH]; intros t Ht Hp.
  { cbn. split_and!; [apply tx_none|done|done|done]. }
  cbn [poll_probes]. apply Forall_cons_iff in Hp as [Hp0 Hp]. unfold probe_bound in Hp0. cbn [fst snd] in Hp0.
  cbv [mbind M_bind get lift]. unfold domain_for. destruct Hp0 as [key Hkey]. rewrite Hkey. cbn [fmap option_fmap option_map unwrap].
  unfold on_bindings at 1. cbn [modify]. set (t1 := put_bindings _ t).
  assert (tr_inv t1) as Ht1 by (apply put_bindings_inv; [done|apply set_domain_inv, Ht]).
  pose proof (probe_packet_yields t1 source port remote) as Hy. destruct (probe_packet t1 source port remote) as [pk|e|]; [|done|done].
  cbn [yields] in Hy. specialize (IH t1 Ht1 Hp). destruct (poll_probes probes t1) as [[out|e|] t']; [|done|done].
  destruct IH as (I1 & I2 & I3 & I4). cbn. split_and!; [by constructor|done|rewrite !len_cons; lia|done].
Qed.
Lemma timeout_packet_yields pool quote : quote_wf quote -> yields is_bytes (timeout_packet pool quote).
Proof.
  intros [Hb Hl]. unfold timeout_packet.
  eapply yields_bind; [apply (yields_of_safe (fun p => quoted quote = Ok p)); [by apply parse_inner_safe|done]|]. intros p Hp. cbv zeta.
  set (n := len ([3; 3; 0; 0; 0; 0; 0; 0] ++ quote)). assert (n = 8 + len quote) as Hn by (unfold n; by rewrite len_app).
  pose proof (len_nonneg quote).
  assert (buffer n ([3; 3; 0; 0; 0; 0; 0; 0] ++ quote)) as Hbuf by (split; [apply is_bytes_app; split; [bytes_tac|done]|done]).
  ycopy n. intros icmp Hi. eapply yields_weaken; [apply (encode_yields _ _ _ _ _ n); [u_lia|u_lia|done]|]. by intros a [Ha _].
Qed.
Lemma poll_timeouts_keeps pool quotes : Forall quote_wf quotes -> keeps tx_bytes (poll_timeouts pool quotes).
Proof.
  intros Hq. induction Hq as [|q quotes Hq _ IH]; cbn [poll_timeouts]; [apply keeps_ret, tx_none|].
  kstep; [by apply timeout_packet_yields|]. intros pk Hpk. eapply keeps_bind; [exact IH|]. intros rest Hr. kstep. by constructor.
Qed.
Lemma poll_keeps now : keeps tx_bytes (poll now).
Proof.
  unfold poll. eapply keeps_bind; [apply keeps_bindings, expire_keeps|]. intros _ _. intros t Ht.
  cbv [mbind M_bind get lift]. destruct (tr_ipv4 t) as [pool|]; [|by split; [apply tx_none|]].
  unfold on_bindings at 1. destruct (take_tcp_probes_ok 32 (tr_bindings t) (ti_bindings _ Ht) ltac:(lia)) as (probes & b1 & -> & Hb1 & Hlen & Hrev & Hbound).
  assert (tr_inv (put_bindings b1 t)) as Ht1 by (by apply put_bindings_inv).
  assert (Forall (probe_bound (tr_bindings (put_bindings b1 t))) probes) as Hbound'
    by (unfold probe_bound in *; cbn [put_bindings tr_bindings]; by rewrite Hrev).
  pose proof (poll_probes_ok probes (put_bindings b1 t) Ht1 Hbound') as Hpp.
  destruct (poll_probes probes (put_bindings b1 t)) as [[out|e|] t2]; [|done|done]. destruct Hpp as (Ho & Ht2 & Hol & _).
  assert (sub_chk (E:=io_error) 32 (len out) = Ok (32 - len out)) as -> by (apply sub_chk_Ok; split; [done|lia]).
  unfold on_bindings at 1. pose proof (ti_bindings _ Ht2) as Hb2.
  destruct (take_tcp_timeouts_ok (32 - len out) (tr_bindings t2) Hb2) as (quotes & b3 & -> & Hb3 & Hq).
  assert (tr_inv (put_bindings b3 t2)) as Ht3 by (by apply put_bindings_inv).
  pose proof (poll_timeouts_keeps pool quotes) as Hpt. assert (Forall quote_wf quotes) as Hqwf.
  { destruct Hb2 as [Hwf _]. destruct (bi_timeouts _ _ Hwf) as [_ Hall]. rewrite <-Hq in Hall. by apply Forall_app in Hall as [? _]. }
  specialize (Hpt Hqwf _ Ht3). destruct (poll_timeouts pool quotes (put_bindings b3 t2)) as [[more|e|] t4]; [|done|done].
  destruct Hpt as [Hm Ht4]. split; [|done]. by apply Forall_app.
Qed.
Lemma set_prefixes_keeps prefixes : keeps any (set_prefixes prefixes).
Proof.
  unfold set_prefixes. destruct (_ || _) eqn:Hc; [apply keeps_throw|]. apply orb_false_iff in Hc as [Hl Hex].
  kstep. intros t Ht. match goal with |- keeps _ (if ?c then _ else _) => destruct c; [by apply keeps_ret|] end. eapply keeps_bind.
  { apply (keeps_bindings any). intros b Hb. by destruct (retain_domains_ok prefixes b Hb) as (b' & -> & ? & _). }
  intros _ _. apply keeps_modify. intros t' []. split; try done. cbn [put_prefixes tr_prefixes]. split; [lia|].
  apply List.Forall_forall. intros p Hp. destruct (existsb_exists (fun p => negb (p_length p =? 96) || negb (usable p)) prefixes) as [_ Hback].
  destruct (negb (p_length p =? 96) || negb (usable p)) eqn:Hbad; [rewrite Hback in Hex by eauto; done|].
  apply orb_false_iff in Hbad as [?%negb_false_iff%Z.eqb_eq ?%negb_false_iff]. done.
Qed.
Lemma set_ipv4_keeps ipv4 : (forall a, ipv4 = Some a -> is_u32 a) -> keeps any (set_ipv4 ipv4).
Proof.
  intros Hu. unfold set_ipv4. destruct (match ipv4 with Some _ => _ | None => _ end) eqn:Hc; [apply keeps_throw|].
  kstep. intros t Ht. match goal with |- keeps _ (if ?c then _ else _) => destruct c; [by apply keeps_ret|] end. eapply keeps_bind.
  { apply (keeps_bindings any). intros b Hb. destruct (clear_ok b Hb) as (p & Hcl & Hi & _). rewrite Hcl in *. done. }
  intros _ _. apply keeps_modify. intros t' []. split; try done. cbn [put_ipv4 tr_ipv4]. intros a ->. split; [by apply Hu|].
  by apply negb_false_iff in Hc.
Qed.
Lemma set_lowest_keeps mtu : keeps any (set_lowest_ipv6_mtu mtu).
Proof.
  unfold set_lowest_ipv6_mtu. destruct (negb _) eqn:Hc; [apply keeps_throw|]. apply keeps_modify. intros t []. split; try done. cbn. lia.
Qed.
Lemma set_mtus_keeps m0 m1 : is_u32 m0 -> is_u32 m1 -> keeps any (set_mtus m0 m1).
Proof. intros H0 H1. apply keeps_modify. intros t []. by split. Qed.
Lemma translator_new_inv prefix ipv4 p t : ports_wf p -> is_u32 ipv4 -> translator_new prefix ipv4 p = Ok t -> tr_inv t.
Proof.
  intros Hp Hu H. unfold translator_new in H. destruct (_ || _) eqn:Hc; [done|]. injection H as <-.
  rewrite !orb_false_iff, !negb_false_iff in Hc. destruct Hc as [[Hl Hus] Hun]. split; cbn [tr_bindings tr_prefixes tr_ipv4 tr_identification tr_mtu0 tr_mtu1 tr_lowest_ipv6_mtu tr_error_count]; try u_lia.
  - by apply set_domain_inv, with_ports_inv.
  - split; [done|]. constructor; [|constructor]. split; [lia|done].
  - by intros a [= <-].
Qed.
