(* ===== verification/Translation.v ===== *)
(** Properties of the translator: every sequence of packets, timers and configuration
    changes, the error rate, and what the packets it builds contain. *)

From S2P Require Import Prelude Effects Time Maps Ports TcpState Icmp64 Checksum Wire WireFacts Ipv4Wire.
From S2P Require Import Reassembly FragmentFacts Bindings BindingsInv BindingsOps BindingsFacts Headers Quotes Observations Translate TranslateFacts.

(** ** Runs *)

Inductive event :=
| Out (d : Datagram) (now : Z) (source_allowed reachable : Z -> bool)
| In (packet : bytes) (now : Z)
| Tick (now : Z)
| Prefixes (prefixes : list Prefix)
| Address (ipv4 : option Z)
| Mtus (mtu0 mtu1 : Z)
| LowestMtu (mtu : Z).

Section runs.
Context {R : Type} `{Sampler R}.
Abbreviation MTR := (M (Translator * R) io_error).
Definition quiet (m : MT unit) : MTR (list Tx) := tr m ;; mret [].
Definition handle (ev : event) : MTR (list Tx) :=
  match ev with
  | Out d now allowed reachable => outbound_datagram d now allowed reachable
  | In packet now => tr (inbound packet now)
  | Tick now => tr (poll now)
  | Prefixes ps => quiet (set_prefixes ps)
  | Address a => quiet (set_ipv4 a)
  | Mtus m0 m1 => quiet (set_mtus m0 m1)
  | LowestMtu m => quiet (set_lowest_ipv6_mtu m)
  end.
(** Arguments of the source's types. *)
Definition event_wf (ev : event) : Prop :=
  match ev with
  | Out d now _ _ => is_bytes (d_packet d) /\ 0 <= now
  | In packet now => is_bytes packet /\ 0 <= now
  | Address a => forall x, a = Some x -> is_u32 x
  | Mtus m0 m1 => is_u32 m0 /\ is_u32 m1
  | _ => True
  end.
(** The states a new translator reaches, whether the handlers succeed or fail. *)
Inductive tr_reachable : Translator * R -> Prop :=
| tr_start prefix ipv4 p t r : ports_wf p -> is_u32 ipv4 -> translator_new prefix ipv4 p = Ok t -> tr_reachable (t, r)
| tr_step st ev : tr_reachable st -> event_wf ev -> tr_reachable (snd (handle ev st)).

Lemma quiet_keeps m : keeps any m -> keepsr tx_bytes (quiet m).
Proof. intros Hm. eapply keepsr_bind; [by apply keepsr_tr|]. intros [] _. apply keepsr_ret, tx_none. Qed.
Lemma handle_keeps ev : event_wf ev -> keepsr tx_bytes (handle ev).
Proof.
  destruct ev; cbn [event_wf handle]; intros Hw; destruct_and?.
  - by apply outbound_datagram_keeps.
  - by apply keepsr_tr, inbound_keeps.
  - apply keepsr_tr, poll_keeps.
  - apply quiet_keeps, set_prefixes_keeps.
  - by apply quiet_keeps, set_ipv4_keeps.
  - by apply quiet_keeps, set_mtus_keeps.
  - apply quiet_keeps, set_lowest_keeps.
Qed.
Lemma tr_reachable_inv st : tr_reachable st -> tr_inv (fst st).
Proof.
  induction 1 as [prefix ipv4 p t r Hp Hu Hn|st ev _ IH Hw]; [by eapply translator_new_inv|].
  pose proof (handle_keeps ev Hw st IH) as Hk. destruct (handle ev st) as [[txs|e|] st']; [apply Hk|exact Hk|done].
Qed.
End runs.

(** ** The error rate *)

(** Requests to send an error at the given times, in order. *)
Fixpoint requests (times : list Z) : MT (list bool) :=
  match times with
  | [] => mret []
  | now :: times => ok ← allow_error now; rest ← requests times; mret (ok :: rest)
  end.
Definition granted (l : list bool) : Z := foldr (fun b n => of_bool b + n) 0 l.
(** [allow_error] on the two fields it uses. *)
Definition error_step (now window count : Z) : bool * Z * Z :=
  let '(window, count) := if 1000 <=? sat_sub now window then (now, 0) else (window, count) in
  if count =? 32 then (false, window, count) else (true, window, count + 1).
Lemma allow_error_step now t :
  let '(ok, w, c) := error_step now (tr_error_window t) (tr_error_count t) in
  exists t', allow_error now t = (Ok ok, t') /\ tr_error_window t' = w /\ tr_error_count t' = c.
Proof.
  unfold error_step. cbv [allow_error mbind M_bind get modify mret M_ret].
  destruct (1000 <=? sat_sub now (tr_error_window t)); cbn [put_errors tr_error_count tr_error_window].
  - eexists. split; [reflexivity|done].
  - destruct (tr_error_count t =? 32); eexists; (split; [reflexivity|done]).
Qed.
Lemma requests_cons now times t : exists ok t', allow_error now t = (Ok ok, t') /\
  error_step now (tr_error_window t) (tr_error_count t) = (ok, tr_error_window t', tr_error_count t') /\
  forall l t2, requests times t' = (Ok l, t2) -> requests (now :: times) t = (Ok (ok :: l), t2).
Proof.
  pose proof (allow_error_step now t) as Hs. destruct (error_step now _ _) as [[ok w] c] eqn:He.
  destruct Hs as (t' & Ht & <- & <-). exists ok, t'. split_and!; [done|done|].
  intros l t2 Hl. cbn [requests]. cbv [mbind M_bind mret M_ret]. by rewrite Ht, Hl.
Qed.
(** Within a second of the window's start only the rest of its quota is granted. *)
Lemma requests_in_window times t : 0 <= tr_error_count t <= 32 ->
  Forall (fun now => now < tr_error_window t + 1000) times ->
  exists l t', requests times t = (Ok l, t') /\ granted l <= 32 - tr_error_count t.
Proof.
  intros Hc Hall. revert t Hc Hall. induction times as [|now times IH]; intros t Hc Hall; [exists [], t; cbn; split; [done|lia]|].
  apply Forall_cons_iff in Hall as [Hnow Hall]. destruct (requests_cons now times t) as (ok & t' & Ht & Hs & Hreq).
  unfold error_step in Hs. destruct (Z.leb_spec 1000 (sat_sub now (tr_error_window t))); [u_lia|].
  destruct (Z.eqb_spec (tr_error_count t) 32).
  - injection Hs as <- Hw Hcnt. destruct (IH t') as (l & t2 & Hl & Hg); [lia|by rewrite <-Hw|].
    exists (false :: l), t2. split; [by apply Hreq|]. cbn. fold (granted l). lia.
  - injection Hs as <- Hw Hcnt. destruct (IH t') as (l & t2 & Hl & Hg); [lia|by rewrite <-Hw|].
    exists (true :: l), t2. split; [by apply Hreq|]. cbn. fold (granted l). lia.
Qed.
Lemma requests_bound a times t : 0 <= tr_error_count t <= 32 -> Sorted Z.le times ->
  Forall (fun now => a <= now < a + 1000) times ->
  exists l t', requests times t = (Ok l, t') /\ granted l <= 64 - tr_error_count t.
Proof.
  intros Hc Hs Hall. revert t Hc Hs Hall. induction times as [|now times IH]; intros t Hc Hs Hall; [exists [], t; cbn; split; [done|lia]|].
  apply Forall_cons_iff in Hall as [Hnow Hall]. destruct (requests_cons now times t) as (ok & t' & Ht & Hst & Hreq).
  assert (StronglySorted Z.le (now :: times)) as HS by (apply Sorted_StronglySorted; [intros x y z; lia|done]). inversion HS as [|? ? _ Hge]. subst.
  unfold error_step in Hst. destruct (Z.leb_spec 1000 (sat_sub now (tr_error_window t))).
  - injection Hst as <- Hw Hcnt. destruct (requests_in_window times t') as (l & t2 & Hl & Hg); [lia| |].
    { apply List.Forall_forall. intros x Hx. rewrite List.Forall_forall in Hall. specialize (Hall x Hx). lia. }
    exists (true :: l), t2. split; [by apply Hreq|]. cbn. fold (granted l). lia.
  - inversion Hs as [|? ? Hs' _]. subst. destruct (Z.eqb_spec (tr_error_count t) 32).
    + injection Hst as <- Hw Hcnt. destruct (IH t') as (l & t2 & Hl & Hg); [lia|done|done|].
      exists (false :: l), t2. split; [by apply Hreq|]. cbn. fold (granted l). lia.
    + injection Hst as <- Hw Hcnt. destruct (IH t') as (l & t2 & Hl & Hg); [lia|done|done|].
      exists (true :: l), t2. split; [by apply Hreq|]. cbn. fold (granted l). lia.
Qed.

(** ** Packets out *)

(** The transport checksum written by [ipv4_packet] verifies. *)
Lemma transport_checksum4_fill s d p (b : list Z) lo :
  is_bytes b -> len b <= 65515 -> 0 < p <= 255 -> 0 <= lo -> Z.even lo = true -> lo + 2 <= len b ->
  transport_checksum4 s d p (put b lo (be16 (transport_sum p (transport_checksum4 s d p (put b lo [0; 0]))))) = 0.
Proof.
  intros Hb Hl Hp Hlo He Hf. assert (len (put b lo [0; 0]) = len b) as Hz by (apply len_put; [lia|change (len [0; 0]) with 2; lia]).
  assert (is_bytes (put b lo [0; 0])) as Hzb by (apply is_bytes_put; [done|]; bytes_tac).
  unfold transport_checksum4. destruct (Z.eqb_spec p 1) as [->|].
  { change (transport_sum 1 ?x) with x. apply checksum4_fill; first [done|u_lia]. }
  set (pseudo := octets4 s ++ octets4 d ++ [0; p] ++ be16 (len b mod 65536)).
  assert (len pseudo = 12) as Hpl by done. assert (is_bytes pseudo) as Hpb.
  { unfold pseudo, octets4. rewrite !is_bytes_app. split_and!; try apply is_bytes_be. bytes_tac. }
  assert (0 < sum_words pseudo) as Hpos.
  { unfold pseudo. rewrite (sum_words_app (octets4 s)), (sum_words_app (octets4 d)), (sum_words_app [0; p]) by done.
    pose proof (sum_words_bound (octets4 s) ltac:(apply is_bytes_be)). pose proof (sum_words_bound (octets4 d) ltac:(apply is_bytes_be)).
    pose proof (sum_words_bound (be16 (len b mod 65536)) ltac:(apply is_bytes_be)). cbn [sum_words]. rewrite word_add by u_lia. lia. }
  assert (forall x, octets4 s ++ octets4 d ++ [0; p] ++ be16 (len b mod 65536) ++ x = pseudo ++ x) as Hps
    by (intros; unfold pseudo; by rewrite <-!app_assoc).
  rewrite Hz, Hps. set (v := transport_sum p _).
  assert (is_u32 (sum_words (pseudo ++ put b lo [0; 0]))) as Hu.
  { apply sum_words_u32; [by apply is_bytes_app|rewrite len_app; lia]. }
  destruct (transport_fold p _ Hu) as (Hv & Hm & _). fold (checksum4 (pseudo ++ put b lo [0; 0])) in Hv, Hm. fold v in Hv, Hm.
  assert (len (put b lo (be16 v)) = len b) as Hvl by (apply len_put; [lia|unfold be16; rewrite len_be; lia]).
  rewrite Hvl, Hps. assert (is_bytes (put b lo (be16 v))) as Hvb by (apply is_bytes_put; [done|apply is_bytes_be]).
  rewrite sum_words_app in Hm by done. pose proof (sum_words_bound _ Hvb).
  apply checksum4_zero; [by apply is_bytes_app|apply sum_words_u32; [by apply is_bytes_app|rewrite len_app; lia]|..];
    rewrite sum_words_app by done; [lia|]. rewrite sum_words_fill by done. by rewrite Z.add_assoc.
Qed.

(** The payload with its ICMP type translated. *)
Definition retyped (protocol : Z) (b : list Z) : list Z :=
  match b with
  | p0 :: r => if protocol =? 58 then (if p0 =? 128 then 8 else 0) :: r else b
  | [] => []
  end.
Definition protocol4 (protocol : Z) : Z := if protocol =? 58 then 1 else protocol.
Lemma ipv4_packet_spec t fid protocol pool dest class hop (payload : list Z) :
  is_bytes payload -> checksum_offset protocol + 2 <= len payload <= 65515 -> mem protocol [6; 17; 58] = true ->
  is_u32 pool -> is_u32 dest -> is_u8 class -> 2 <= hop <= 255 -> is_u16 (tr_identification t) ->
  exists out v, is_u16 v /\ ipv4_packet t fid protocol pool dest class hop payload = Ok out /\
    let pl := put (retyped protocol payload) (checksum_offset (protocol4 protocol)) (be16 v) in
    let id := match fid with Some i => i mod 65536 | None => tr_identification t end in
    let df := (1260 <? 20 + len payload) && negb (bool_decide (is_Some fid)) in
    transport_checksum4 pool dest (protocol4 protocol) pl = 0 /\ is_bytes out /\ len out = 20 + len payload /\
    Ipv4Wire.parse out = Ok (mkPacket pool dest (hop - 1) (protocol4 protocol) pl out 20 0 false df id class).
Proof.
  intros Hb Hl Hm Hpool Hdest Hc Hhop Hid. apply mem_In in Hm. cbn in Hm.
  destruct (checksum_offset_bound protocol) as [Ho0 _]. destruct (checksum_offset_bound (protocol4 protocol)) as [Ho He].
  assert (is_bytes (retyped protocol payload) /\ len (retyped protocol payload) = len payload) as [Hrb Hrl].
  { unfold retyped. destruct payload as [|p0 r]; [done|]. apply is_bytes_cons in Hb as [? ?].
    destruct (protocol =? 58); [|by split; [apply is_bytes_cons|]]. split; [apply is_bytes_cons; split; [case_match; u_lia|done]|by rewrite !len_cons]. }
  assert (checksum_offset (protocol4 protocol) + 2 <= len payload) as Hoff.
  { unfold protocol4. destruct (Z.eqb_spec protocol 58); [change (checksum_offset 1) with 2; lia|lia]. }
  unfold ipv4_packet. assert ((if protocol =? 58 then p0 ← payload.[0]; copy_at payload 0 [if p0 =? 128 then 8 else 0] else Ok payload)
    = Ok (E:=io_error) (retyped protocol payload)) as ->.
  { unfold retyped. destruct payload as [|p0 r]; [change (len []) with 0 in Hl; lia|]. destruct (protocol =? 58); [|done].
    change (idx (E:=io_error) (p0 :: r) 0) with (Ok (E:=io_error) p0). cbn [mbind outcome_bind].
    rewrite copy_at_eq; [done|lia|change (len [_]) with 1; rewrite len_cons; pose proof (len_nonneg r); lia]. }
  cbn [mbind outcome_bind]. fold (protocol4 protocol). set (p4 := protocol4 protocol) in *. set (b := retyped protocol payload) in *.
  set (at_ := checksum_offset p4) in *. rewrite copy_at_eq by (change (len [0; 0]) with 2; lia). cbn [mbind outcome_bind].
  set (v := transport_sum p4 _). assert (is_u16 v) as Hv.
  { apply transport_sum_spec. unfold transport_checksum4. destruct (p4 =? 1); apply complement16_u16. }
  assert (0 < p4 <= 255) as Hp4 by (unfold p4, protocol4; destruct (protocol =? 58); lia).
  assert (len (put b at_ [0; 0]) = len payload) as Hz by (rewrite len_put; [done|lia|change (len [0; 0]) with 2; lia]).
  rewrite copy_at_eq by (unfold be16; rewrite ?Hz, ?len_be; lia). cbn [mbind outcome_bind].
  rewrite put_put by (done || (change (len [0; 0]) with 2; lia)). set (pl := put b at_ (be16 v)).
  assert (len pl = len payload) as Hpl by (unfold pl; rewrite len_put; [done|lia|unfold be16; rewrite len_be; lia]).
  assert (is_bytes pl) as Hplb by (apply is_bytes_put; [done|apply is_bytes_be]).
  assert (sub_chk (E:=io_error) hop 1 = Ok (hop - 1)) as -> by (apply sub_chk_Ok; split; [done|lia]). cbn [mbind outcome_bind].
  rewrite encode_header20 by lia. cbn [mbind outcome_bind]. rewrite Hpl.
  set (n := 20 + len payload). set (id := match fid with Some i => i mod 65536 | None => tr_identification t end).
  set (df := (1260 <? n) && negb (bool_decide (is_Some fid))).
  set (c0 := checksum4 _). set (flags := if df then 0x4000 else 0).
  assert (is_u16 id) as Hid16 by (unfold id; destruct fid; [pose proof (Z.mod_pos_bound z 65536); u_lia|done]).
  assert (forall tos i f c, len (header20 tos n i f (hop - 1) p4 c pool dest ++ pl) = n) as Hh by (intros; by rewrite len_app, Hpl).
  rewrite copy_at_eq by (rewrite ?Hh; change (len [_]) with 1; lia). cbn [mbind outcome_bind].
  change (put (header20 0 n 0 0 (hop - 1) p4 c0 pool dest ++ pl) 1 [class]) with (header20 class n 0 0 (hop - 1) p4 c0 pool dest ++ pl).
  rewrite copy_at_eq by (rewrite ?Hh; unfold be16; rewrite ?len_be; lia). cbn [mbind outcome_bind].
  change (put (header20 class n 0 0 (hop - 1) p4 c0 pool dest ++ pl) 4 (be16 id)) with (header20 class n id 0 (hop - 1) p4 c0 pool dest ++ pl).
  rewrite Hh. fold df.
  assert ((if df then copy_at (header20 class n id 0 (hop - 1) p4 c0 pool dest ++ pl) 6 [64] else Ok (header20 class n id 0 (hop - 1) p4 c0 pool dest ++ pl))
    = Ok (E:=io_error) (header20 class n id flags (hop - 1) p4 c0 pool dest ++ pl)) as ->.
  { unfold flags. destruct df; [|done]. rewrite copy_at_eq by (rewrite ?Hh; change (len [_]) with 1; lia). done. }
  cbn [mbind outcome_bind]. rewrite copy_at_eq by (rewrite ?Hh; change (len [0; 0]) with 2; lia). cbn [mbind outcome_bind].
  change (put (header20 class n id flags (hop - 1) p4 c0 pool dest ++ pl) 10 [0; 0]) with (header20 class n id flags (hop - 1) p4 0 pool dest ++ pl).
  rewrite (slice_mid [] (header20 class n id flags (hop - 1) p4 0 pool dest) pl 0 20) by done. cbn [mbind outcome_bind].
  rewrite copy_at_eq by (rewrite ?Hh; unfold be16; rewrite ?len_be; lia). set (c := checksum4 _).
  change (put (header20 class n id flags (hop - 1) p4 0 pool dest ++ pl) 10 (be16 c)) with (header20 class n id flags (hop - 1) p4 c pool dest ++ pl).
  eexists _, v. split; [done|]. split; [reflexivity|]. cbv zeta. split_and!.
  - apply transport_checksum4_fill; first [done|lia].
  - apply is_bytes_app. split; [|done]. unfold header20, octets4, be16, be32. rewrite !is_bytes_app. split_and!; try apply is_bytes_be; bytes_tac.
  - apply Hh.
  - pose proof (parse_header20 class id flags (hop - 1) p4 c pool dest pl false) as Hparse. cbv zeta in Hparse. rewrite Hpl in Hparse. fold n in Hparse.
    unfold Ipv4Wire.parse. rewrite Hparse; try done.
    + unfold flags. by destruct df.
    + u_lia.
    + assert (flags = 0 \/ flags = 0x4000) as Hfl by (unfold flags; destruct df; lia). clearbody flags. unfold flags_wf.
      destruct Hfl as [-> | ->]; (split; [u_lia|]; split; [done|]; split; [by intros|]; split; [by intros|unfold n; change (Z.land 0 8191) with 0; change (Z.land 16384 8191) with 0; lia]).
    + apply header20_checksum; u_lia.
Qed.

(** A packet that fits the MTU leaves in one piece. *)
Lemma fragment_fits b mtu id : len b <= mtu -> fragment b mtu id = Ok [b].
Proof. intros. unfold fragment. by destruct (Z.leb_spec (len b) mtu); [|lia]. Qed.
Lemma safe_Ok_ex {E A} (m : outcome E A) : safe m -> (forall e, m <> Err e) -> exists a, m = Ok a.
Proof. destruct m; [by eexists|naive_solver|by intros []]. Qed.
Lemma idx_ex {E A} (b : list A) i : 0 <= i < len b -> exists x, idx (E:=E) b i = Ok x.
Proof.
  intros. apply safe_Ok_ex; [by apply safe_idx|]. intros e. unfold idx. repeat case_match; done.
Qed.

(** ** Properties *)

(** C1. Over every sequence of packets from both links, timer polls and configuration
    changes, whatever the random source and the routing callbacks, no handler panics: no
    index, slice, subtraction or unwrap fails on any input bytes; the invariant of the
    tables and of the configuration holds after it, and what it sends is made of bytes. *)
Theorem translator_safe {R} `{Sampler R} (st : Translator * R) ev :
  tr_reachable st -> event_wf ev ->
  safe (fst (handle ev st)) /\ tr_inv (fst (snd (handle ev st))) /\
  (forall txs, fst (handle ev st) = Ok txs -> tx_bytes txs).
Proof.
  intros Hr Hw. pose proof (handle_keeps ev Hw st (tr_reachable_inv st Hr)) as Hk.
  destruct (handle ev st) as [[txs|e|] st']; cbn [fst snd]; [|by split|done].
  destruct Hk. split_and!; [done|done|]. by intros ? [= <-].
Qed.

(** Whatever has happened before, of the requests to send an ICMP error made within
    one second at most 64 are granted, and at most 32 of those within a second of the
    start of the current window. *)
Theorem error_rate_limited {R} `{Sampler R} (st : Translator * R) a times :
  tr_reachable st -> Sorted Z.le times -> Forall (fun now => a <= now < a + 1000) times ->
  exists l t', requests times (fst st) = (Ok l, t') /\ granted l <= 64 /\
    (a <= tr_error_window (fst st) -> granted l <= 32).
Proof.
  intros Hr Hs Hall. pose proof (ti_errors _ (tr_reachable_inv st Hr)) as Hc.
  destruct (requests_bound a times (fst st)) as (l & t' & Hl & Hg); [done..|]. exists l, t'. split_and!; [done|lia|].
  intros Hwin. destruct (requests_in_window times (fst st)) as (l2 & t2 & Hl2 & Hg2); [done| |].
  { eapply List.Forall_impl; [|exact Hall]. cbn. intros. lia. }
  rewrite Hl in Hl2. injection Hl2 as <- <-. lia.
Qed.

(** C16. The IPv4 packet sent for an IPv6 TCP, UDP or echo payload that fits the MTU of the
    IPv4 link with its header (a larger one is not covered): it parses, from the pool address to the embedded address, with the hop limit less one,
    the traffic class, the payload with only its ICMP type and checksum rewritten, a
    transport checksum that verifies, and the don't-fragment flag exactly when it is
    larger than 1260 bytes and did not arrive in fragments. *)
Theorem outbound_translation (t : Translator) d protocol pool dest class hop payload :
  is_bytes payload -> checksum_offset protocol + 2 <= len payload <= 65515 -> mem protocol [6; 17; 58] = true ->
  is_u32 pool -> is_u32 dest -> is_u8 class -> 2 <= hop <= 255 -> tr_inv t ->
  20 + len payload <= tr_mtu0 t ->
  exists out v, is_u16 v /\
    send_ipv4 d protocol pool dest class hop payload t
      = (Ok [mkTx Ail out], put_identification ((tr_identification t + 1) mod 65536) t) /\
    let pl := put (retyped protocol payload) (checksum_offset (protocol4 protocol)) (be16 v) in
    let id := match d_fragment_id d with Some i => i mod 65536 | None => tr_identification t end in
    let df := (1260 <? 20 + len payload) && negb (bool_decide (is_Some (d_fragment_id d))) in
    transport_checksum4 pool dest (protocol4 protocol) pl = 0 /\
    Ipv4Wire.parse out = Ok (mkPacket pool dest (hop - 1) (protocol4 protocol) pl out 20 0 false df id class).
Proof.
  intros Hb Hl Hm Hpool Hdest Hc Hhop Hinv Hmtu. pose proof (ti_identification _ Hinv) as Hid.
  destruct (ipv4_packet_spec t (d_fragment_id d) protocol pool dest class hop payload) as (out & v & Hv & Hout & Hsum & Hob & Hol & Hparse);
    [done..|]. exists out, v. split; [done|]. split; [|done]. pose proof (len_nonneg payload).
  destruct (idx_ex (E:=io_error) out 4) as [o4 Ho4]; [lia|]. destruct (idx_ex (E:=io_error) out 5) as [o5 Ho5]; [lia|].
  cbv [send_ipv4 mbind M_bind get lift modify mret M_ret]. rewrite Hout, Ho4, Ho5, fragment_fits by lia. done.
Qed.

(** ** Witnesses: a translator for 64:ff9b::/96 and a host sending one datagram *)

Definition sample_prefix : Prefix := mkPrefix 0x0064ff9b000000000000000000000000 96.
Definition sample_pool : Z := 0xc6336401.
Definition sample_packet : bytes :=
  match encode6 17 0xfd000000000000000000000000000005 0x0064ff9b0000000000000000c0000201 0 64
          [19; 136; 0; 53; 0; 10; 0; 0; 1; 2] with Ok b => b | _ => [] end.
Definition sample_event : event := Out (mkDatagram sample_packet None) 1000 (fun _ => true) (fun _ => true).
Definition sample_translator : Translator :=
  mkTranslator (set_domain (p_address sample_prefix) (with_ports no_ports)) [sample_prefix] (Some sample_pool) 0 1500 1500 1280 0 0.
Lemma sample_start : tr_reachable (sample_translator, Build_ScriptedRandom []).
Proof.
  apply (tr_start sample_prefix sample_pool no_ports); [apply no_ports_wf|split; vm_compute; congruence|reflexivity].
Qed.
Lemma sample_bytes : is_bytes sample_packet.
Proof.
  assert (forallb (fun x => (0 <=? x) && (x <=? 255)) sample_packet = true) as Hall by (vm_compute; reflexivity).
  apply List.Forall_forall. rewrite forallb_forall in Hall. intros x Hx%Hall. u_lia.
Qed.
Lemma translator_safe_witness :
  exists st' packet, handle sample_event (sample_translator, Build_ScriptedRandom []) = (Ok [mkTx Ail packet], st') /\
    is_bytes packet /\ tr_inv (fst st').
Proof.
  pose proof sample_start as Hr. assert (event_wf sample_event) as Hw by (split; [apply sample_bytes|lia]).
  assert (match fst (handle sample_event (sample_translator, Build_ScriptedRandom [])) with
          | Ok [tx] => tx_link tx = Ail | _ => False end) as Hok by (vm_compute; reflexivity).
  revert Hr Hw Hok. generalize sample_event, sample_translator. intros ev t Hr Hw Hok.
  destruct (translator_safe (t, Build_ScriptedRandom []) ev Hr Hw) as (_ & Hi & Hb).
  destruct (handle ev (t, Build_ScriptedRandom [])) as [[[|[l b] [|]]|e|] st']; cbn in *; try contradiction. subst l.
  exists st', b. split; [reflexivity|]. split; [|exact Hi]. specialize (Hb _ eq_refl). by inversion Hb.
Defined.
Lemma error_rate_limited_witness :
  exists l t', requests (replicate 40 500 ++ replicate 40 1200) sample_translator = (Ok l, t') /\ granted l = 64.
Proof.
  destruct (error_rate_limited (sample_translator, Build_ScriptedRandom []) 500 (replicate 40 500 ++ replicate 40 1200) sample_start)
    as (l & t' & Hl & _); [repeat constructor; lia|repeat constructor; lia|].
  exists l, t'. split; [exact Hl|]. cbn [fst] in Hl.
  assert (match fst (requests (replicate 40 500 ++ replicate 40 1200) sample_translator) with Ok l => granted l = 64 | _ => False end) as Hg
    by (vm_compute; reflexivity).
  rewrite Hl in Hg. exact Hg.
Defined.
Lemma outbound_translation_witness :
  exists out st, send_ipv4 (mkDatagram sample_packet None) 17 sample_pool 0xc0000201 0 64 [19; 136; 0; 53; 0; 10; 0; 0; 1; 2] sample_translator
    = (Ok [mkTx Ail out], st).
Proof.
  destruct (outbound_translation sample_translator (mkDatagram sample_packet None) 17 sample_pool 0xc0000201 0 64
    [19; 136; 0; 53; 0; 10; 0; 0; 1; 2]) as (out & v & _ & Hs & _);
    [by repeat constructor; u_lia|split; vm_compute; congruence|reflexivity|split; vm_compute; congruence|split; vm_compute; congruence
    |split; vm_compute; congruence|lia|exact (tr_reachable_inv _ sample_start)|vm_compute; congruence|].
  eexists out, _. exact Hs.
Defined.
