(* ===== verification/Selection.v ===== *)
(** NAT64 prefix selection ([src/src/nat64/selection.rs]): which prefix the stub's hosts
    are told to use, for how long, and the promises earlier advertisements made.

    [Selector] is the state.  [select] decides from the readiness of the services, the
    observations of both links and the routing callbacks; [advertised] records what was
    sent, [configure] changes the policy. *)

From S2P Require Import Prelude Effects Maps Checksum Wire WireFacts Observations.
From Stdlib Require String.
Import String.StringSyntax.
#[local] Open Scope string_scope.
#[local] Open Scope Z_scope.

Record Policy := mkPolicy { pol_enabled : bool; pol_infrastructure : option Prefix; pol_allow_without_pd : bool }.
#[global] Instance Policy_eq_dec : EqDecision Policy.
Proof. solve_decision. Defined.
Definition policy_default : Policy := mkPolicy true None false.
Definition validate (p : Policy) : outcome io_error unit :=
  match pol_infrastructure p with
  | Some q => if usable q then Ok tt else Err InvalidData
  | None => Ok tt
  end.

Record Readiness := mkReadiness { rd_pd : option Z; rd_ipv4 : option Z; rd_stub : option Z; rd_translator : bool }.
Inductive Mode := ModeDisabled | ModeNone | ModeLocal | ModeInfrastructure | ModePeer.
#[global] Instance Mode_eq_dec : EqDecision Mode.
Proof. solve_decision. Defined.
Inductive Source := SrcLocal | SrcInfrastructure | SrcConfigured.
#[global] Instance Source_eq_dec : EqDecision Source.
Proof. solve_decision. Defined.
Record Announcement := mkAnnouncement { an_pref64 : Pref64; an_source : Source }.
Record Decision_ := mkDecision { dc_mode : Mode; dc_announcements : list Announcement; dc_routes : list Rio; dc_reason : String.string }.

(** source, until, withdrawn *)
Abbreviation Promise := (Source * Z * bool)%type.
Definition pm_source (p : Promise) : Source := p.1.1.
Definition pm_until (p : Promise) : Z := p.1.2.
Definition pm_withdrawn (p : Promise) : bool := p.2.

Record Selector := mkSelector {
  sl_policy : Policy;
  sl_observations : Observations;
  sl_local : Prefix;
  sl_promised : gmap Prefix Promise;
  sl_suppressed : bool;
  sl_status : Mode * String.string;
  sl_blocked : gset Prefix;
}.
Definition put_policy x s := mkSelector x (sl_observations s) (sl_local s) (sl_promised s) (sl_suppressed s) (sl_status s) (sl_blocked s).
Definition put_observations x s := mkSelector (sl_policy s) x (sl_local s) (sl_promised s) (sl_suppressed s) (sl_status s) (sl_blocked s).
Definition put_local x s := mkSelector (sl_policy s) (sl_observations s) x (sl_promised s) (sl_suppressed s) (sl_status s) (sl_blocked s).
Definition put_promised x s := mkSelector (sl_policy s) (sl_observations s) (sl_local s) x (sl_suppressed s) (sl_status s) (sl_blocked s).
Definition put_suppressed x s := mkSelector (sl_policy s) (sl_observations s) (sl_local s) (sl_promised s) x (sl_status s) (sl_blocked s).
Definition put_status x s := mkSelector (sl_policy s) (sl_observations s) (sl_local s) (sl_promised s) (sl_suppressed s) x (sl_blocked s).
Definition put_blocked x s := mkSelector (sl_policy s) (sl_observations s) (sl_local s) (sl_promised s) (sl_suppressed s) (sl_status s) x.
Abbreviation MS := (M Selector io_error).

(** [Prefix::new((address | (0xffff << 64)).into(), 96).unwrap()] *)
Definition site_local (site : Prefix) : outcome io_error Prefix :=
  reject_if negb (p_length site =? 48) || negb (ula site) || negb (bool_decide (prefix_new (p_address site) 48 = Some site))
    with InvalidData;
  unwrap (prefix_new (Z.lor (p_address site) (Z.shiftl 0xffff 64)) 96).
Definition selector_new (site : Prefix) : outcome io_error Selector :=
  local ← site_local site;
  Ok (mkSelector policy_default (mkObservations ∅) local ∅ false (ModeNone, "awaiting service readiness") ∅).

Definition unexpired_promises (now : Z) (m : gmap Prefix Promise) : gmap Prefix Promise :=
  filter (fun kp => now < pm_until kp.2) m.
Definition sel_expire (now : Z) : MS unit :=
  modify (fun s => put_observations (obs_expire now (sl_observations s)) s) ;;
  modify (fun s => put_promised (unexpired_promises now (sl_promised s)) s).
Definition rotate_local (site : Prefix) (now : Z) : MS unit :=
  local ← lift (site_local site);
  sel_expire now ;;
  s ← get;
  if negb (bool_decide (local = sl_local s)) && negb (has_key (sl_promised s) local) && (slen (sl_promised s) =? 8)
  then throw WouldBlock else modify (put_local local).
(** [self.promised.iter()], in order. *)
Definition promise_le (a b : Prefix * Promise) : Prop := prefix_leb a.1 b.1 = true.
#[global] Instance promise_le_dec a b : Decision (promise_le a b).
Proof. unfold promise_le. apply _. Defined.
Definition promises (s : Selector) : list (Prefix * Promise) := merge_sort promise_le (map_to_list (sl_promised s)).
Definition local_prefixes (now : Z) (s : Selector) : list Prefix :=
  sl_local s ::
    map fst (List.filter (fun kp => negb (bool_decide (kp.1 = sl_local s)) && bool_decide (pm_source kp.2 = SrcLocal)
                                      && (now <? pm_until kp.2)) (promises s)).
Definition observed_prefixes (o : Observations) : gset Prefix := set_map (fun k : ObsKey => k.2) (dom (observed o)).
Definition option_set (p : option Prefix) : gset Prefix := match p with Some p => {[p]} | None => ∅ end.
Definition configure (policy : Policy) : MS unit :=
  lift (validate policy) ;;
  s ← get;
  (if bool_decide (sl_policy s = policy) then mret tt else
     (if negb (pol_enabled policy) then
        modify (fun s => put_blocked (sl_blocked s ∪ observed_prefixes (sl_observations s)) s) ;;
        s ← get;
        let blocked := sl_blocked s ∪ observed_prefixes (sl_observations s) ∪ dom (sl_promised s)
                       ∪ option_set (pol_infrastructure (sl_policy s)) ∪ option_set (pol_infrastructure policy) in
        if 74 <? Z.of_nat (size blocked) then throw WouldBlock else modify (put_blocked blocked)
      else modify (put_blocked ∅)) ;;
     modify (put_observations (mkObservations ∅)) ;;
     modify (put_suppressed false)) ;;
  modify (put_policy policy).
Definition is_blocked (destination : Z) (s : Selector) : bool :=
  negb (pol_enabled (sl_policy s))
  && (contains (sl_local s) destination || existsb (fun p => contains p destination) (elements (sl_blocked s))).
Definition restore_promise (prefix : Prefix) (source : Source) (until : Z) (withdrawn : bool) : MS unit :=
  s ← get;
  let a := p_address prefix in
  if negb (usable prefix)
     || bool_decide (source = SrcLocal)
        && (negb (p_length prefix =? 96) || negb (ula prefix) || negb (segment6 a 3 =? 0xffff)
            || negb ((segment6 a 4 =? 0) && (segment6 a 5 =? 0)))
     || (slen (sl_promised s) =? 8) || has_key (sl_promised s) prefix
  then throw InvalidData
  else modify (put_promised (<[prefix := (source, until, withdrawn)]> (sl_promised s))).
Definition sel_receive (link : Link) (packet : bytes) (now : Z) : MS unit :=
  s ← get;
  if negb (pol_enabled (sl_policy s)) then mret tt else
  match obs_receive link packet now (sl_observations s) with
  | (Ok _, o) => modify (put_observations o)
  | (Err e, o) => modify (put_observations o) ;; throw e
  | (Panic, _) => lift Panic
  end.
Definition sel_link_lost (link : Link) : MS unit := modify (fun s => put_observations (link_lost link (sl_observations s)) s).
Definition sel_next_deadline (s : Selector) : option Z :=
  union_with (fun a b => Some (Z.min a b)) (obs_next_deadline (sl_observations s)) (mmin pm_until (sl_promised s)).

(** [next.get_mut(&prefix)] set to withdrawn, or the promise renewed. *)
Definition record_announcement (now : Z) (a : Announcement) (next : gmap Prefix Promise) : gmap Prefix Promise :=
  let p := pref64_prefix (an_pref64 a) in
  if pref64_lifetime (an_pref64 a) =? 0 then alter (fun v => (pm_source v, pm_until v, true)) p next
  else <[p := (an_source a, sat64 now (Z.land (Z.min (pref64_lifetime (an_pref64 a)) 65528) 0xfffffff8 * 1000), false)]> next.
Fixpoint record_announcements (now : Z) (l : list Announcement) (next : gmap Prefix Promise)
  : outcome io_error (gmap Prefix Promise) :=
  match l with
  | [] => Ok next
  | a :: l =>
      reject_if negb (usable (pref64_prefix (an_pref64 a))) with InvalidData;
      record_announcements now l (record_announcement now a next)
  end.
Definition advertised (announcements : list Announcement) (now : Z) : MS unit :=
  if 8 <? len announcements then throw InvalidData else
  s ← get;
  next ← lift (record_announcements now announcements (unexpired_promises now (sl_promised s)));
  if 8 <? slen next then throw WouldBlock else modify (put_promised next).
Definition announcement_failed (mode : Mode) (now : Z) : MS unit :=
  s ← get;
  if bool_decide (mode = ModeInfrastructure)
     && negb (len (obs_live (sl_observations s) Stub now (fun _ => true)) =? 0)
  then modify (put_suppressed true) else mret tt.

(** ** Selection *)

(** Whole seconds left, in units of eight. *)
Definition remaining_life (until now : Z) : Z := Z.land (Z.min (sat_sub until now / 1000) 65528) 0xfffffff8.

Section select.
Context (now : Z) (ready : Readiness) (reachable : Link -> Z -> bool) (route : Prefix -> option Z).

Definition live_after (t : option Z) : option Z := match t with Some t => if now <? t then Some t else None | None => None end.
(** [candidates.into_iter().filter_map(..).take(8).collect()]: [n] announcements may still
    be taken; [slots] and [failed] are [slots] and [admission_failed]. *)
Fixpoint choose (allow : bool) (pd : option Z) (stub : Z) (promised : gmap Prefix Promise)
  (n : nat) (slots : Z) (failed : bool) (candidates : list (Prefix * Z * Source)) : list Announcement * bool :=
  match n, candidates with
  | O, _ | _, [] => ([], failed)
  | S n', (prefix, until, source) :: candidates =>
      let skip := choose allow pd stub promised n slots in
      match route prefix, (if allow then Some u64_max else pd) with
      | Some r, Some limit =>
          let lifetime := remaining_life (Z.min (Z.min (Z.min until r) stub) limit) now in
          if lifetime =? 0 then skip failed candidates
          else
            let new := negb (has_key promised prefix) in
            if new && (slots =? 0) then skip true candidates
            else
              let '(l, failed) := choose allow pd stub promised n' (if new then slots - 1 else slots) failed candidates in
              (mkAnnouncement (mkPref64 prefix lifetime) source :: l, failed)
      | _, _ => skip failed candidates
      end
  end.
Definition candidates (s : Selector) : list (Prefix * Z * Source) :=
  match pol_infrastructure (sl_policy s) with
  | Some p => [(p, u64_max, SrcConfigured)]
  | None => map (fun pt => (pt.1, pt.2, SrcInfrastructure)) (obs_live (sl_observations s) Ail now (reachable Ail))
  end.
Definition medium (p : Pref64) : Rio := mkRio (pref64_prefix p) Medium (pref64_lifetime p).
Definition empty_decision (mode : Mode) (reason : String.string) : Decision_ := mkDecision mode [] [] reason.

(** The infrastructure's translation, when it can be used. *)
Definition select_infrastructure (stub : Z) : MS (option Decision_) :=
  s ← get;
  let pd := live_after (rd_pd ready) in
  let allow := pol_allow_without_pd (sl_policy s) in
  if bool_decide (is_Some pd) || allow then
    slots ← lift (sub_chk 8 (slen (sl_promised s)));
    let '(announcements, admission_failed) := choose allow pd stub (sl_promised s) 8 slots false (candidates s) in
    (if (len announcements =? 0) && admission_failed then announcement_failed ModeInfrastructure now else mret tt) ;;
    s ← get;
    if (len announcements =? 0) && admission_failed && sl_suppressed s then
      mret (Some (empty_decision ModePeer "infrastructure advertisement history is full; waiting for peers to expire"))
    else if negb (len announcements =? 0) then
      mret (Some (mkDecision ModeInfrastructure announcements (map (fun a => medium (an_pref64 a)) announcements)
                    "usable infrastructure translation with a return route"))
    else mret None
  else mret None.
(** The program's own translator. *)
Definition select_local (s : Selector) (stub : Z) : option Decision_ :=
  if rd_translator ready then
    match live_after (rd_ipv4 ready) with
    | Some ipv4 =>
        let lifetime := remaining_life (Z.min (Z.min ipv4 stub) (sat64 now 1800000)) now in
        if (0 <? lifetime) && (has_key (sl_promised s) (sl_local s) || (slen (sl_promised s) <? 8)) then
          let p := mkPref64 (sl_local s) lifetime in
          Some (mkDecision ModeLocal [mkAnnouncement p SrcLocal] [medium p] "local translator and IPv4 path are ready")
        else None
    | None => None
    end
  else None.
Definition local_active (s : Selector) : bool :=
  match sl_promised s !! sl_local s with
  | Some v => bool_decide (pm_source v = SrcLocal) && (now <? pm_until v) && negb (pm_withdrawn v)
  | None => false
  end.
Definition select_active : MS Decision_ :=
  sel_expire now ;;
  s ← get;
  (if len (obs_live (sl_observations s) Stub now (fun _ => true)) =? 0 then modify (put_suppressed false) else mret tt) ;;
  s ← get;
  if negb (pol_enabled (sl_policy s)) then mret (empty_decision ModeDisabled "administratively disabled") else
  match live_after (rd_stub ready) with
  | None => mret (empty_decision ModeNone "stub address or return path is not ready")
  | Some stub =>
      if sl_suppressed s then
        mret (empty_decision ModePeer "announcement admission failed; waiting for all peer advertisements to disappear")
      else
        let peer := negb (len (obs_live (sl_observations s) Stub now (reachable Stub)) =? 0) in
        infrastructure ← select_infrastructure stub;
        match infrastructure with
        | Some d => mret d
        | None =>
            s ← get;
            if peer && negb (local_active s) then mret (empty_decision ModePeer "a reachable stub peer already provides NAT64") else
            match select_local s stub with
            | Some d => mret d
            | None => mret (empty_decision ModeNone "no usable translation path or advertisement capacity")
            end
        end
  end.

(** One round of [for (prefix, ..) in &self.promised]. *)
Definition conclude_one (enabled : bool) (kp : Prefix * Promise) (d : Decision_) : Decision_ :=
  let '(prefix, v) := kp in
  if existsb (fun a => bool_decide (pref64_prefix (an_pref64 a) = prefix)) (dc_announcements d) then d else
  let announcements :=
    if pm_withdrawn v then dc_announcements d
    else dc_announcements d ++ [mkAnnouncement (mkPref64 prefix 0) (pm_source v)] in
  let life :=
    if enabled && bool_decide (pm_source v = SrcLocal) && rd_translator ready then
      sat_sub (Z.min (Z.min (pm_until v) (default now (rd_ipv4 ready))) (default now (rd_stub ready))) now / 1000
    else 0 in
  mkDecision (dc_mode d) announcements (dc_routes d ++ [mkRio prefix Medium (Z.min life u32_max)]) (dc_reason d).
Fixpoint conclude (enabled : bool) (l : list (Prefix * Promise)) (d : Decision_) : Decision_ :=
  match l with
  | [] => d
  | kp :: l => conclude enabled l (conclude_one enabled kp d)
  end.
Definition select : MS Decision_ :=
  decision ← select_active;
  s ← get;
  let decision := conclude (pol_enabled (sl_policy s)) (promises s) decision in
  modify (put_status (dc_mode decision, dc_reason decision)) ;;
  mret decision.
End select.
