(* ===== verification/SelectionFacts.v ===== *)
(** Properties of NAT64 prefix selection: the selector's invariant, what a decision
    promises, and that every decision can be recorded. *)

From S2P Require Import Prelude Effects Maps Checksum Wire WireFacts Observations Selection.
From Stdlib Require String.
Import String.StringSyntax.
#[local] Open Scope string_scope.
#[local] Open Scope Z_scope.

(** ** Sets of prefixes *)

Section sets.
Context {A : Type} `{Countable A}.
Implicit Types X Y : gset A.
Lemma size_union_le X Y : (size (X ∪ Y) <= size X + size Y)%nat.
Proof. rewrite size_union_alt. pose proof (subseteq_size (Y ∖ X) Y ltac:(set_solver)). lia. Qed.
Lemma size_list_to_set_le (l : list A) : (size (list_to_set l : gset A) <= length l)%nat.
Proof.
  induction l as [|x l IH]; cbn [list_to_set length]; [by rewrite size_empty|].
  pose proof (size_union_le {[x]} (list_to_set l)) as Hu. rewrite size_singleton in Hu. lia.
Qed.
Lemma size_map_le {B} `{Countable B} (f : B -> A) (Z : gset B) : (size (set_map f Z : gset A) <= size Z)%nat.
Proof.
  unfold set_map. etrans; [apply size_list_to_set_le|]. by rewrite length_fmap.
Qed.
End sets.

Lemma observed_link_count (m : gmap ObsKey Z) :
  Z.of_nat (size m) = mcount (on_link Ail) m + mcount (on_link Stub) m.
Proof.
  rewrite <-(mcount_size (fun _ _ => true) m) by done. unfold mcount.
  induction m as [|k v m Hk IH] using map_ind; [done|]. rewrite !msum_insert, IH by done.
  unfold on_link. destruct k as [[[] r] p]; cbn [fst snd]; repeat case_bool_decide; try done; cbn; lia.
Qed.
Lemma observed_prefixes_size o : obs_inv o -> Z.of_nat (size (observed_prefixes o)) <= 64.
Proof.
  intros [_ Hc]. pose proof (Hc Ail). pose proof (Hc Stub). pose proof (observed_link_count (observed o)).
  pose proof (size_map_le (fun k : ObsKey => k.2) (dom (observed o))) as Hs. rewrite size_dom in Hs.
  unfold observed_prefixes. lia.
Qed.
Lemma observed_prefixes_empty : observed_prefixes (mkObservations ∅) = ∅.
Proof. unfold observed_prefixes. cbn [observed]. rewrite dom_empty_L. by rewrite set_map_empty. Qed.

(** ** The invariant *)

Record sel_inv (s : Selector) : Prop := {
  si_obs : obs_inv (sl_observations s);
  si_count : slen (sl_promised s) <= 8;
  si_promised : forall p v, sl_promised s !! p = Some v -> usable p = true;
  si_local : usable (sl_local s) = true /\ p_length (sl_local s) = 96;
  si_policy : forall p, pol_infrastructure (sl_policy s) = Some p -> usable p = true;
  si_enabled : if pol_enabled (sl_policy s) then sl_blocked s = ∅ else sl_observations s = mkObservations ∅;
  si_blocked : Z.of_nat (size (sl_blocked s)) <= 74;
}.

Lemma obs_inv_empty : obs_inv (mkObservations ∅).
Proof. exact no_observations_inv. Qed.
(** The site's translation prefix: subnet ffff, and nothing below it. *)
Lemma site_local_ok site : is_u128 (p_address site) ->
  match site_local site with
  | Ok p => usable p = true /\ p_length p = 96
  | Err _ => True
  | Panic => False
  end.
Proof.
  intros Ha. unfold site_local. destruct (negb _ || _ || _) eqn:Hc; [done|].
  apply orb_false_iff in Hc as [[H1%negb_false_iff%Z.eqb_eq H2%negb_false_iff]%orb_false_iff H3%negb_false_iff%bool_decide_eq_true].
  destruct site as [a n]. cbn [p_address p_length] in *. subst n.
  rewrite prefix_new_spec in H3 by (done || lia). injection H3 as Hk. change (2 ^ (128 - 48)) with (2 ^ 80) in Hk.
  set (k := a / 2 ^ 80) in *. assert (0 <= k < 2 ^ 48) as Hkb.
  { unfold k. split; [apply Z.div_pos; u_lia|]. apply Z.div_lt_upper_bound; [lia|]. change (2 ^ 80 * 2 ^ 48) with (u128_max + 1). u_lia. }
  assert (Z.lor a (Z.shiftl 0xffff 64) = (k * 65536 + 65535) * 2 ^ 64) as ->.
  { rewrite <-Hk, Z.shiftl_mul_pow2 by lia. replace (k * 2 ^ 80) with (Z.shiftl (k * 65536) 64) by (rewrite Z.shiftl_mul_pow2 by lia; lia).
    replace (65535 * 2 ^ 64) with (Z.shiftl 65535 64) by done. rewrite <-Z.shiftl_lor.
    change 65536 with (2 ^ 16). rewrite <-(Z.shiftl_mul_pow2 k) by lia. rewrite lor_shiftl by lia. by rewrite !Z.shiftl_mul_pow2 by lia. }
  set (j := k * 65536 + 65535). assert (is_u128 (j * 2 ^ 64)) as Hj by (unfold j; u_lia).
  rewrite prefix_new_spec by (done || lia). change (2 ^ (128 - 96)) with (2 ^ 32).
  replace (j * 2 ^ 64) with (j * 2 ^ 32 * 2 ^ 32) by lia. rewrite Z.div_mul by lia. cbn [unwrap]. split; [|done].
  replace (j * 2 ^ 32 * 2 ^ 32) with (j * 2 ^ 64) by lia.
  assert (forall n, 64 <= n -> Z.shiftr (j * 2 ^ 64) n = j / 2 ^ (n - 64)) as Hshift.
  { intros n Hn. rewrite Z.shiftr_div_pow2 by lia. replace (2 ^ n) with (2 ^ (n - 64) * 2 ^ 64) by (rewrite <-Z.pow_add_r by lia; f_equal; lia).
    apply Z.div_mul_cancel_r; [apply Z.pow_nonzero; lia|lia]. }
  assert (j / 2 ^ 56 = 252 \/ j / 2 ^ 56 = 253) as Ht.
  { assert (j / 2 ^ 56 = k / 2 ^ 40) as ->.
    { change (2 ^ 56) with (65536 * 2 ^ 40). rewrite <-Z.div_div by lia. unfold j. rewrite Z.div_add_l by lia.
      change (65535 / 65536) with 0. by rewrite Z.add_0_r. }
    unfold ula in H2. cbn [p_address] in H2.
    rewrite <-Hk, Z.shiftr_div_pow2 in H2 by lia. replace (k * 2 ^ 80 / 2 ^ 120) with (k / 2 ^ 40) in H2 by (symmetry; apply (Z.div_mul_cancel_r k (2 ^ 40) (2 ^ 80)); lia).
    assert (0 <= k / 2 ^ 40 < 256) as Htop by (split; [apply Z.div_pos; lia|apply Z.div_lt_upper_bound; [lia|exact (proj2 Hkb)]]).
    rewrite Z.mod_small in H2 by done. apply Z.eqb_eq in H2. change 0xfe with (Z.shiftl (Z.ones 7) 1) in H2.
    rewrite (land_high _ 7 1) in H2 by (exact Htop || lia).
    generalize dependent (k / 2 ^ 40). clear. intros t Hj Hb. change (2 ^ 1) with 2 in Hj. div_lia. }
  unfold usable, routable, link_local, is_multicast6, is_unspecified6, is_loopback6, is_ipv4_mapped, segment6. cbn [p_address p_length].
  rewrite !Hshift by lia. rewrite prefix_new_spec by (done || lia).
  change (112 - 16 * 0 - 64) with 48. change (120 - 64) with 56. change (2 ^ (128 - 96)) with (2 ^ 32).
  change 0xffc0 with (Z.shiftl (Z.ones 10) 6). rewrite (land_high _ 10 6) by (lia || (apply Z.mod_pos_bound; lia)).
  assert (j * 2 ^ 64 / 2 ^ 32 = j * 2 ^ 32) as Hlow
    by (replace (j * 2 ^ 64) with (j * 2 ^ 32 * 2 ^ 32) by lia; apply Z.div_mul; lia).
  rewrite Z.shiftr_div_pow2, Hlow by lia. replace (j * 2 ^ 32 * 2 ^ 32) with (j * 2 ^ 64) by lia. rewrite bool_decide_true by done.
  assert (j / 2 ^ 48 / 256 = j / 2 ^ 56) as Hh by (rewrite Z.div_div by lia; done).
  assert (0 < j) as Hpos by (unfold j; lia). clearbody j. generalize dependent (j / 2 ^ 48). generalize dependent (j / 2 ^ 56).
  intros t Ht h Hh. change (2 ^ 6) with 64. rewrite !Z.mod_small by div_lia.
  repeat match goal with |- context [?x =? ?y] => destruct (Z.eqb_spec x y); [div_lia|] end. done.
Qed.

(** ** The operations keep the invariant *)

Lemma sel_expire_ok now s : sel_inv s ->
  exists s', sel_expire now s = (Ok tt, s') /\ sel_inv s' /\ sl_promised s' = unexpired_promises now (sl_promised s) /\
    sl_observations s' = obs_expire now (sl_observations s) /\ sl_local s' = sl_local s /\ sl_policy s' = sl_policy s /\
    sl_suppressed s' = sl_suppressed s.
Proof.
  intros [Ho Hc Hp Hl Hpol He Hb]. eexists. split; [reflexivity|]. split; [|done]. split; cbn; try done.
  - by apply obs_inv_filter.
  - etrans; [apply slen_filter|done].
  - intros p v [Hv _]%map_lookup_filter_Some. by eapply Hp.
  - destruct (pol_enabled _); [done|]. unfold obs_expire, unexpired. rewrite He. cbn [observed]. by rewrite map_filter_empty.
Qed.
Lemma rotate_local_ok site now s : sel_inv s -> is_u128 (p_address site) ->
  match rotate_local site now s with (Panic, _) => False | (_, s') => sel_inv s' end.
Proof.
  intros Hs Ha. cbv [rotate_local mbind M_bind lift get throw]. pose proof (site_local_ok site Ha) as Hl.
  destruct (site_local site) as [local|e|]; [|done|done]. destruct (sel_expire_ok now s Hs) as (s' & He & Hi & _).
  rewrite He. destruct (_ && _); [done|]. destruct Hi. by split.
Qed.
Lemma size_option_set p : (size (option_set p) <= 1)%nat.
Proof. destruct p; cbn; rewrite ?size_singleton, ?size_empty; lia. Qed.
(** Disabling never runs out of room: 64 observations, 8 promises and two configured
    prefixes. A refused configuration changes nothing. *)
Lemma configure_ok policy s : sel_inv s ->
  match configure policy s with
  | (Ok _, s') => sel_inv s' /\ sl_policy s' = policy /\ sl_promised s' = sl_promised s /\ sl_local s' = sl_local s
  | (Err e, s') => s' = s /\ (e = InvalidData /\ validate policy = Err InvalidData \/
                              e = WouldBlock /\ pol_enabled (sl_policy s) = false /\ pol_enabled policy = false)
  | (Panic, _) => False
  end.
Proof.
  intros [Ho Hc Hp Hl Hpol He Hb]. cbv [configure mbind M_bind lift get throw modify mret M_ret].
  assert (validate policy = Err InvalidData \/ validate policy = Ok tt /\ forall p, pol_infrastructure policy = Some p -> usable p = true) as Hv.
  { unfold validate. destruct (pol_infrastructure policy) as [p|]; [|by right]. destruct (usable p) eqn:Hu; [|by left].
    right. split; [done|]. by intros ? [= <-]. }
  destruct Hv as [->|[-> Hv]]; [split; [done|by left]|].
  case_bool_decide as Heq; [split; [split; cbn; by rewrite <-?Heq|done]|].
  destruct (pol_enabled policy) eqn:Hen; cbn [negb].
  { split; [|done]. split; cbn; try done; first [apply obs_inv_empty | by rewrite Hen | lia]. }
  cbn [put_blocked sl_blocked sl_observations sl_promised sl_policy].
  set (blocked := _ ∪ option_set (pol_infrastructure policy)). destruct (Z.ltb_spec 74 (Z.of_nat (size blocked))) as [Hlt|Hle].
  - destruct (pol_enabled (sl_policy s)) eqn:Hold.
    + exfalso. revert Hlt. unfold blocked. rewrite He, !union_empty_l_L, union_idemp_L.
      repeat match goal with |- context [size (?X ∪ ?Y)] =>
        let H := fresh in pose proof (size_union_le X Y) as H; revert H; generalize (size (X ∪ Y)); intros ? ? end.
      pose proof (size_option_set (pol_infrastructure policy)). pose proof (size_option_set (pol_infrastructure (sl_policy s))).
      pose proof (observed_prefixes_size _ Ho). pose proof (size_dom (sl_promised s)) as Hd. unfold slen in Hc.
      repeat match goal with H : context [size (?X ∪ ?Y)] |- _ =>
        let H' := fresh in pose proof (size_union_le X Y) as H'; revert H H'; generalize (size (X ∪ Y)); intros ? ? ? end. lia.
    + split; [|by right]. rewrite He, observed_prefixes_empty, union_empty_r_L. by destruct s.
  - split; [|done]. split; cbn; try done; first [apply obs_inv_empty | by rewrite Hen | lia].
Qed.
Lemma restore_promise_ok prefix source until withdrawn s : sel_inv s ->
  match restore_promise prefix source until withdrawn s with
  | (Ok _, s') => sel_inv s' | (Err _, s') => s' = s | (Panic, _) => False end.
Proof.
  intros [Ho Hc Hp Hl Hpol He Hb]. cbv [restore_promise mbind M_bind get throw modify].
  destruct (usable prefix) eqn:Hu; [|done]. cbn [negb orb]. destruct (_ && _); [done|]. cbn [orb].
  destruct (Z.eqb_spec (slen (sl_promised s)) 8); [done|]. cbn [orb]. destruct (has_key _ _) eqn:Hk; [done|].
  apply has_key_false in Hk. split; cbn; try done.
  - unfold slen. rewrite map_size_insert_None by done. unfold slen in *. lia.
  - intros p v [[<- _]|[_ Hv]]%lookup_insert_Some; [done|by eapply Hp].
Qed.
Lemma sel_receive_ok link packet now s : sel_inv s -> is_bytes packet -> is_u64 now ->
  match sel_receive link packet now s with
  | (Ok _, s') => sel_inv s' | (Err _, s') => s' = s | (Panic, _) => False end.
Proof.
  intros Hs Hb Hn. cbv [sel_receive mbind M_bind get throw modify mret M_ret]. destruct (pol_enabled (sl_policy s)) eqn:He; [|done].
  cbn [negb]. pose proof (obs_receive_ok link packet now (sl_observations s) (si_obs _ Hs) Hb Hn) as Hr.
  destruct (obs_receive link packet now (sl_observations s)) as [[u|e|] o]; [|subst o; by destruct s|done].
  destruct Hs as [? ? ? ? ? Hen ?]. split; cbn; try done; [apply Hr|]. by rewrite He in *.
Qed.
Lemma sel_link_lost_ok link s : sel_inv s -> exists s', sel_link_lost link s = (Ok tt, s') /\ sel_inv s'.
Proof.
  intros [Ho Hc Hp Hl Hpol He Hb]. eexists. split; [reflexivity|]. split; cbn; try done; [by apply obs_inv_filter|].
  destruct (pol_enabled _); [done|]. unfold link_lost. rewrite He. cbn [observed]. by rewrite map_filter_empty.
Qed.

(** ** Recording advertisements *)

Definition an_prefix (a : Announcement) : Prefix := pref64_prefix (an_pref64 a).
Definition an_lifetime (a : Announcement) : Z := pref64_lifetime (an_pref64 a).
Definition renewed (l : list Announcement) : gset Prefix :=
  list_to_set (map an_prefix (List.filter (fun a => negb (an_lifetime a =? 0)) l)).
Lemma record_announcements_ok now l next : Forall (fun a => usable (an_prefix a) = true) l ->
  exists next', record_announcements now l next = Ok next' /\ dom next' = dom next ∪ renewed l.
Proof.
  intros Hl. revert next. induction Hl as [|a l Ha _ IH]; intros next; cbn [record_announcements];
    [exists next; split; [done|]; unfold renewed; cbn; set_solver|].
  unfold an_prefix in Ha. rewrite Ha. cbn [negb]. destruct (IH (record_announcement now a next)) as (next' & Hr & Hd).
  exists next'. split; [exact Hr|]. rewrite Hd. unfold record_announcement, renewed. cbn [List.filter]. fold (an_prefix a) (an_lifetime a).
  destruct (an_lifetime a =? 0); cbn [negb map list_to_set]; [by rewrite dom_alter_L|].
  rewrite dom_insert_L. set_solver.
Qed.
Lemma record_announcements_safe now l next : safe (record_announcements now l next) /\
  forall next', record_announcements now l next = Ok next' -> Forall (fun a => usable (an_prefix a) = true) l.
Proof.
  revert next. induction l as [|a l IH]; intros next; cbn [record_announcements]; [split; [done|by intros; apply List.Forall_nil]|].
  destruct (usable _) eqn:Hu; cbn [negb]; [|done]. destruct (IH (record_announcement now a next)) as [Hs Hf].
  split; [done|]. intros next' Hn. apply List.Forall_cons; [done|by eapply Hf].
Qed.
Lemma advertised_ok l now s : sel_inv s ->
  match advertised l now s with
  | (Ok _, s') => sel_inv s' /\ dom (sl_promised s') = dom (unexpired_promises now (sl_promised s)) ∪ renewed l
  | (Err _, s') => s' = s
  | (Panic, _) => False
  end.
Proof.
  intros [Ho Hc Hp Hl Hpol He Hb]. cbv [advertised mbind M_bind lift get throw modify]. destruct (8 <? len l); [done|].
  set (m := unexpired_promises now (sl_promised s)). destruct (record_announcements_safe now l m) as [Hs Hf].
  destruct (record_announcements now l m) as [next|e|] eqn:Hr; [|done|by destruct Hs].
  specialize (Hf _ eq_refl). destruct (record_announcements_ok now l m Hf) as (next' & Hr' & Hd). rewrite Hr in Hr'. injection Hr' as <-.
  destruct (Z.ltb_spec 8 (slen next)); [done|]. split; [|done]. split; cbn; try done.
  intros p v Hpv. apply (elem_of_dom_2 (D:=gset Prefix)) in Hpv. rewrite Hd, elem_of_union in Hpv. destruct Hpv as [Hpv|Hpv].
  - apply elem_of_dom in Hpv as [v' [Hv' _]%map_lookup_filter_Some]. by eapply Hp.
  - unfold renewed in Hpv. rewrite elem_of_list_to_set in Hpv. apply list_elem_of_In, in_map_iff in Hpv as (a & <- & Ha).
    apply filter_In in Ha as [Ha _]. rewrite List.Forall_forall in Hf. by apply Hf.
Qed.
Lemma advertised_accepts l now s : sel_inv s -> len l <= 8 -> Forall (fun a => usable (an_prefix a) = true) l ->
  Z.of_nat (size (dom (unexpired_promises now (sl_promised s)) ∪ renewed l)) <= 8 ->
  exists s', advertised l now s = (Ok tt, s').
Proof.
  intros Hs Hlen Hu Hsize. cbv [advertised mbind M_bind lift get throw modify]. destruct (Z.ltb_spec 8 (len l)); [lia|].
  destruct (record_announcements_ok now l (unexpired_promises now (sl_promised s)) Hu) as (next & -> & Hd).
  unfold slen. rewrite <-(size_dom (D:=gset Prefix)), Hd. destruct (Z.ltb_spec 8 (Z.of_nat (size (dom (unexpired_promises now (sl_promised s)) ∪ renewed l)))); [lia|].
  by eexists.
Qed.
Lemma announcement_failed_ok mode now s : sel_inv s ->
  exists b, announcement_failed mode now s = (Ok tt, put_suppressed b s) /\ sel_inv (put_suppressed b s).
Proof.
  intros Hi. cbv [announcement_failed mbind M_bind get modify mret M_ret].
  destruct (_ && _); [exists true|exists (sl_suppressed s)]; (split; [by destruct s|]); destruct Hi; by split.
Qed.

(** ** Lifetimes *)

Lemma remaining_life_spec until now :
  0 <= remaining_life until now <= 65528 /\ remaining_life until now mod 8 = 0 /\
  (0 < remaining_life until now -> now + remaining_life until now * 1000 <= until).
Proof.
  unfold remaining_life. pose proof (Z.div_pos (sat_sub until now) 1000 ltac:(u_lia) ltac:(lia)) as Hd.
  pose proof (Z.mul_div_le (sat_sub until now) 1000 ltac:(lia)) as Hm.
  set (x := Z.min _ 65528). assert (0 <= x <= 65528 /\ x <= sat_sub until now / 1000) as [Hx Hxd] by (unfold x; lia).
  assert (Z.land x 0xfffffff8 = x / 8 * 8) as -> by (apply (land_high x 29 3); lia).
  rewrite Z.mod_mul by lia. split; [div_lia|]. split; [done|]. intros Hpos. assert (x / 8 * 8 <= x) by div_lia.
  unfold sat_sub in *. lia.
Qed.

(** ** Candidates *)

Section select.
Context (now : Z) (ready : Readiness) (reachable : Link -> Z -> bool) (route : Prefix -> option Z).

(** An announcement that [t] outlives. *)
Definition outlived (a : Announcement) (t : Z) : Prop := now + an_lifetime a * 1000 <= t.
Definition new_prefixes (promised : gmap Prefix Promise) (l : list Announcement) : list Announcement :=
  List.filter (fun a => negb (has_key promised (an_prefix a))) l.

Lemma choose_spec allow pd stub promised n slots failed cands l failed' :
  choose now route allow pd stub promised n slots failed cands = (l, failed') -> 0 <= slots ->
  (length l <= n)%nat /\ len (new_prefixes promised l) <= slots /\
  map an_prefix l `sublist_of` map (fun c => c.1.1) cands /\
  Forall (fun a => 0 < an_lifetime a /\ exists until r,
    In (an_prefix a, until, an_source a) cands /\ route (an_prefix a) = Some r /\ outlived a until /\ outlived a r /\
    outlived a stub /\ (allow = false -> exists t, pd = Some t /\ outlived a t)) l.
Proof.
  revert n slots failed l. induction cands as [|[[p until] src] cands IH]; intros n slots failed l Hc Hs; destruct n as [|n]; cbn [choose] in Hc.
  1-3: injection Hc as <- <-; split_and!; [cbn; lia|done|apply sublist_nil_l|by apply List.Forall_nil].
  assert (forall f, choose now route allow pd stub promised (S n) slots f cands = (l, failed') ->
    (length l <= S n)%nat /\ len (new_prefixes promised l) <= slots /\
    map an_prefix l `sublist_of` map (fun c => c.1.1) ((p, until, src) :: cands) /\
    Forall (fun a => 0 < an_lifetime a /\ exists until' r, In (an_prefix a, until', an_source a) ((p, until, src) :: cands) /\
      route (an_prefix a) = Some r /\ outlived a until' /\ outlived a r /\ outlived a stub /\
      (allow = false -> exists t, pd = Some t /\ outlived a t)) l) as Hskip.
  { intros f Hf. destruct (IH _ _ _ _ Hf Hs) as (H1 & H2 & H3 & H4). split_and!; [done|done|by apply sublist_cons|].
    eapply List.Forall_impl; [|exact H4]. intros a (Ha & u & r & Hin & H). split; [done|]. exists u, r. by split; [right|]. }
  destruct (route p) as [r|] eqn:Hr; [|by eapply Hskip].
  destruct (if allow then Some u64_max else pd) as [limit|] eqn:Hlim; [|by eapply Hskip].
  set (u := Z.min _ limit) in Hc. destruct (Z.eqb_spec (remaining_life u now) 0); [by eapply Hskip|].
  destruct (negb (has_key promised p) && (slots =? 0)) eqn:Hslot; [by eapply Hskip|].
  destruct (choose _ _ _ _ _ _ n _ _ cands) as [l' f'] eqn:Hrec. injection Hc as <- <-.
  destruct (remaining_life_spec u now) as (Hb & _ & Hlife). specialize (Hlife ltac:(lia)).
  assert (0 <= if negb (has_key promised p) then slots - 1 else slots) as Hs'.
  { destruct (negb (has_key promised p)); [|done]. cbn in Hslot. destruct (Z.eqb_spec slots 0); [done|lia]. }
  destruct (IH _ _ _ _ Hrec Hs') as (H1 & H2 & H3 & H4). split_and!.
  - cbn. lia.
  - unfold new_prefixes in *. cbn [List.filter an_prefix an_pref64 pref64_prefix]. destruct (negb (has_key promised p)); rewrite ?len_cons; lia.
  - by apply sublist_skip.
  - apply List.Forall_cons.
    + unfold an_lifetime, outlived, an_lifetime, an_prefix. cbn. split; [lia|]. exists until, r.
      split_and!; [by left|done|unfold u in *; lia..|]. intros ->. exists limit. split; [done|unfold u in *; lia].
    + eapply List.Forall_impl; [|exact H4]. intros a (Ha & u' & r' & Hin & H). split; [done|]. exists u', r'. by split; [right|].
Qed.

(** Where a candidate comes from. *)
Definition candidate_of (s : Selector) (a : Announcement) : Prop :=
  match pol_infrastructure (sl_policy s) with
  | Some p => an_prefix a = p /\ an_source a = SrcConfigured
  | None => an_source a = SrcInfrastructure /\ exists router until,
      observed (sl_observations s) !! (Ail, router, an_prefix a) = Some until /\ reachable Ail router = true /\ outlived a until
  end.
Lemma candidates_spec s a until : In (an_prefix a, until, an_source a) (candidates now reachable s) -> outlived a until -> candidate_of s a.
Proof.
  unfold candidates, candidate_of. destruct (pol_infrastructure _) as [p|]; [by intros [[= <- _ <-]|[]]|].
  rewrite in_map_iff. intros ([p t] & [= Hp <- Hs] & Hin) Hout. split; [done|]. cbn in *.
  apply list_elem_of_In, obs_live_spec in Hin as [(router & Hobs & _ & Hr) _]. exists router, t. by rewrite <-Hp.
Qed.
Lemma candidates_NoDup s : NoDup (map (fun c => c.1.1) (candidates now reachable s)).
Proof.
  unfold candidates. destruct (pol_infrastructure _) as [p|]; [apply NoDup_singleton|].
  rewrite map_map. apply obs_live_NoDup.
Qed.
Lemma candidates_usable s c : sel_inv s -> In c (candidates now reachable s) -> usable c.1.1 = true.
Proof.
  intros Hs. unfold candidates. destruct (pol_infrastructure _) as [p|] eqn:Hp; [intros [<-|[]]; by apply (si_policy _ Hs)|].
  rewrite in_map_iff. intros ([p t] & <- & Hin). apply list_elem_of_In, obs_live_spec in Hin as [(router & Hobs & _) _].
  by apply (proj1 (si_obs _ Hs) _ _ Hobs).
Qed.

(** ** The decision *)

#[local] Set Default Proof Using "Type".

Definition announced (l : list Announcement) (p : Prefix) : bool := existsb (fun a => bool_decide (an_prefix a = p)) l.
Lemma announced_spec l p : announced l p = true <-> p ∈ map an_prefix l.
Proof.
  unfold announced. rewrite existsb_exists, list_elem_of_In, in_map_iff.
  split; intros (a & H1 & H2); exists a; [by apply bool_decide_eq_true in H2|]. split; [done|by apply bool_decide_eq_true].
Qed.
Definition withdrawals (l : list Announcement) (ps : list (Prefix * Promise)) : list Announcement :=
  map (fun kp => mkAnnouncement (mkPref64 kp.1 0) (pm_source kp.2))
    (List.filter (fun kp => negb (announced l kp.1) && negb (pm_withdrawn kp.2)) ps).
Definition kept_route (enabled : bool) (kp : Prefix * Promise) : Rio :=
  let life := if enabled && bool_decide (pm_source kp.2 = SrcLocal) && rd_translator ready then
      sat_sub (Z.min (Z.min (pm_until kp.2) (default now (rd_ipv4 ready))) (default now (rd_stub ready))) now / 1000 else 0 in
  mkRio kp.1 Medium (Z.min life u32_max).
Lemma conclude_spec enabled ps d : NoDup (map fst ps) ->
  conclude now ready enabled ps d =
    mkDecision (dc_mode d) (dc_announcements d ++ withdrawals (dc_announcements d) ps)
      (dc_routes d ++ map (kept_route enabled) (List.filter (fun kp => negb (announced (dc_announcements d) kp.1)) ps)) (dc_reason d).
Proof.
  revert d. induction ps as [|[p v] ps IH]; intros d Hnd; cbn [conclude]; [unfold withdrawals; cbn; rewrite !app_nil_r; by destruct d|].
  cbn [map fst] in Hnd. inversion_clear Hnd as [|? ? Hp Hnd']. rewrite IH by done. unfold conclude_one. fold an_prefix.
  change (existsb _ (dc_announcements d)) with (announced (dc_announcements d) p).
  unfold withdrawals. cbn [List.filter fst snd]. destruct (announced (dc_announcements d) p) eqn:Ha; cbn [negb andb]; [done|].
  set (l' := dc_announcements (mkDecision _ _ _ _)). assert (forall kp, In kp ps -> announced l' kp.1 = announced (dc_announcements d) kp.1) as Hsame.
  { intros kp Hin. unfold l'. cbn [dc_announcements]. destruct (pm_withdrawn v); [done|]. unfold announced. rewrite existsb_app. cbn.
    rewrite bool_decide_false; [by rewrite !orb_false_r|]. intros E. apply Hp. rewrite E. apply list_elem_of_In. by apply in_map. }
  cbn [dc_mode dc_routes dc_reason]. f_equal.
  - rewrite (filter_ext_in _ (fun kp => negb (announced (dc_announcements d) kp.1) && negb (pm_withdrawn kp.2)) ps)
      by (intros kp Hin; by rewrite Hsame). unfold l'. cbn [dc_announcements]. destruct (pm_withdrawn v); cbn [negb]; [done|].
    cbn [map]. by rewrite <-app_assoc.
  - rewrite (filter_ext_in _ (fun kp => negb (announced (dc_announcements d) kp.1)) ps) by (intros kp Hin; by rewrite Hsame).
    cbn [map]. by rewrite <-app_assoc.
Qed.

(** What an active decision rests on. *)
Definition justified (s : Selector) (d : Decision_) : Prop :=
  let l := dc_announcements d in
  Forall (fun a => 0 < an_lifetime a <= 65528 /\ an_lifetime a mod 8 = 0 /\ usable (an_prefix a) = true) l /\
  NoDup (map an_prefix l) /\
  match dc_mode d with
  | ModeDisabled => pol_enabled (sl_policy s) = false /\ l = []
  | ModeNone | ModePeer => pol_enabled (sl_policy s) = true /\ l = []
  | ModeLocal => pol_enabled (sl_policy s) = true /\ exists L t stub, l = [mkAnnouncement (mkPref64 (sl_local s) L) SrcLocal] /\
      rd_translator ready = true /\ rd_ipv4 ready = Some t /\ rd_stub ready = Some stub /\
      now + L * 1000 <= t /\ now + L * 1000 <= stub /\ L <= 1800 /\
      (local_active now s = true \/ forall router p until, observed (sl_observations s) !! (Stub, router, p) = Some until ->
         now < until -> reachable Stub router = false)
  | ModeInfrastructure => pol_enabled (sl_policy s) = true /\ l <> [] /\ exists stub, rd_stub ready = Some stub /\
      Forall (fun a => outlived a stub /\ (exists r, route (an_prefix a) = Some r /\ outlived a r) /\
        (pol_allow_without_pd (sl_policy s) = false -> exists t, rd_pd ready = Some t /\ outlived a t) /\
        candidate_of s a) l
  end.
(** The selector and the decision before the promises are concluded. *)
Definition active_ok (s s' : Selector) (d : Decision_) : Prop :=
  sel_inv s' /\ sl_promised s' = unexpired_promises now (sl_promised s) /\ sl_policy s' = sl_policy s /\ sl_local s' = sl_local s /\
  justified s' d /\ dc_routes d = map (fun a => medium (an_pref64 a)) (dc_announcements d) /\
  Z.of_nat (size (dom (sl_promised s') ∪ list_to_set (map an_prefix (dc_announcements d)))) <= 8.
Lemma room_of_new (promised : gmap Prefix Promise) l :
  Z.of_nat (size (dom promised ∪ list_to_set (map an_prefix l))) <= slen promised + len (new_prefixes promised l).
Proof.
  assert (dom promised ∪ list_to_set (map an_prefix l) = dom promised ∪ list_to_set (map an_prefix (new_prefixes promised l))) as ->.
  { apply set_eq. intros p. rewrite !elem_of_union, !elem_of_list_to_set, elem_of_dom, !list_elem_of_In, !in_map_iff. split; [|].
    - intros [Hp|(a & <- & Ha)]; [by left|]. destruct (has_key promised (an_prefix a)) eqn:Hk; [left; by apply has_key_true|].
      right. exists a. split; [done|]. apply filter_In. by rewrite Hk.
    - intros [Hp|(a & <- & [Ha _]%filter_In)]; [by left|right; by exists a]. }
  etrans; [apply inj_le, size_union_le|]. rewrite size_dom.
  pose proof (size_list_to_set_le (map an_prefix (new_prefixes promised l))) as Hs. rewrite length_map in Hs. unfold slen, len. lia.
Qed.
Lemma live_after_spec t t' : live_after now t = Some t' -> t = Some t' /\ now < t'.
Proof. unfold live_after. destruct t as [x|]; [|done]. destruct (Z.ltb_spec now x); [|done]. by intros [= <-]. Qed.
Lemma put_suppressed_id s : put_suppressed (sl_suppressed s) s = s.
Proof. by destruct s. Qed.
Lemma empty_active s s' mode reason :
  sel_inv s' -> sl_promised s' = unexpired_promises now (sl_promised s) -> sl_policy s' = sl_policy s -> sl_local s' = sl_local s ->
  match mode with ModeDisabled => pol_enabled (sl_policy s') = false | ModeNone | ModePeer => pol_enabled (sl_policy s') = true | _ => False end ->
  active_ok s s' (empty_decision mode reason).
Proof.
  intros Hi Hp Hpo Hl Hm. split_and!; try done.
  - split_and!; [apply List.Forall_nil|constructor|]. cbn. by destruct mode.
  - cbn. rewrite union_empty_r_L, size_dom. apply Hi.
Qed.

Lemma put_suppressed_inv b s : sel_inv s -> sel_inv (put_suppressed b s).
Proof. intros []. by split. Qed.
Lemma lifetimes_justified s l : sel_inv s -> Forall (fun a => 0 < an_lifetime a) l ->
  Forall (fun a => exists u, an_lifetime a = remaining_life u now) l -> Forall (fun a => usable (an_prefix a) = true) l ->
  Forall (fun a => 0 < an_lifetime a <= 65528 /\ an_lifetime a mod 8 = 0 /\ usable (an_prefix a) = true) l.
Proof.
  intros Hs. rewrite !List.Forall_forall. intros H1 H2 H3 a Ha. destruct (H2 a Ha) as [u Hu].
  destruct (remaining_life_spec u now) as (Hb & Hm & _). rewrite Hu in *. specialize (H1 a Ha). rewrite Hu in H1. split_and!; [lia|lia|done|by apply H3].
Qed.
Lemma choose_life allow pd stub promised n slots failed cands l failed' :
  choose now route allow pd stub promised n slots failed cands = (l, failed') ->
  Forall (fun a => exists u, an_lifetime a = remaining_life u now) l.
Proof.
  revert n slots failed l. induction cands as [|[[p until] src] cands IH]; intros n slots failed l Hc; destruct n as [|n]; cbn [choose] in Hc;
    try (injection Hc as <- <-; by apply List.Forall_nil).
  destruct (route p) as [r|]; [|by eapply IH]. destruct (if allow then Some u64_max else pd) as [limit|]; [|by eapply IH].
  destruct (_ =? 0); [by eapply IH|]. destruct (_ && _); [by eapply IH|].
  destruct (choose _ _ _ _ _ _ n _ _ cands) as [l' f'] eqn:Hrec. injection Hc as <- <-.
  apply List.Forall_cons; [by eexists|by eapply IH].
Qed.
Lemma select_infrastructure_ok stub s : sel_inv s -> rd_stub ready = Some stub -> pol_enabled (sl_policy s) = true ->
  exists o b, select_infrastructure now ready reachable route stub s = (Ok o, put_suppressed b s) /\
    forall d, o = Some d -> justified (put_suppressed b s) d /\ dc_routes d = map (fun a => medium (an_pref64 a)) (dc_announcements d) /\
      Z.of_nat (size (dom (sl_promised s) ∪ list_to_set (map an_prefix (dc_announcements d)))) <= 8.
Proof.
  intros Hs Hstub Hen. cbv [select_infrastructure mbind M_bind get lift mret M_ret].
  destruct (bool_decide _ || _) eqn:Hpd; [|exists None, (sl_suppressed s); rewrite put_suppressed_id; by split].
  pose proof (si_count _ Hs) as Hcount. assert (sub_chk (E:=io_error) 8 (slen (sl_promised s)) = Ok (8 - slen (sl_promised s))) as ->
    by (by apply sub_chk_Ok). 
  destruct (choose _ _ _ _ _ _ _ _ _ _) as [l failed] eqn:Hc. pose proof (choose_life _ _ _ _ _ _ _ _ _ _ Hc) as Hlife.
  apply choose_spec in Hc as (_ & Hnew & Hsub & Hall); [|lia].
  assert (exists b, (if (len l =? 0) && failed then announcement_failed ModeInfrastructure now else mret tt) s = (Ok tt, put_suppressed b s)) as [b Hb].
  { destruct (_ && failed); [|exists (sl_suppressed s); by rewrite put_suppressed_id].
    destruct (announcement_failed_ok ModeInfrastructure now s Hs) as (b & Hb & _). by exists b. }
  cbv [mret M_ret] in Hb. rewrite Hb. cbn [put_suppressed sl_suppressed].
  destruct ((len l =? 0) && failed && b).
  - eexists _, b. split; [reflexivity|]. intros d [= <-]. split_and!; [|done|].
    + split_and!; [apply List.Forall_nil|constructor|]. cbn. by rewrite Hen.
    + cbn. rewrite union_empty_r_L, size_dom. apply Hs.
  - destruct (Z.eqb_spec (len l) 0) as [|Hne]; cbn [negb]; [exists None, b; by split|].
    eexists _, b. split; [reflexivity|]. intros d [= <-]. rewrite List.Forall_forall in Hall. split_and!; [|done|].
    + split_and!; cbn [dc_announcements dc_mode].
      * apply (lifetimes_justified s); [done|apply List.Forall_forall; intros a Ha; by destruct (Hall a Ha)|done|].
        apply List.Forall_forall. intros a Ha. destruct (Hall a Ha) as (_ & u & r & Hin & _). by apply (candidates_usable _ _ Hs Hin).
      * eapply sublist_NoDup; [apply candidates_NoDup|exact Hsub].
      * split; [done|]. split; [by intros ->|]. exists stub. split; [done|]. apply List.Forall_forall. intros a Ha.
        destruct (Hall a Ha) as (_ & u & r & Hin & Hr & Hou & Hor & Hos & Hpdl). split_and!; [done|by exists r| |].
        -- intros Hal. destruct (Hpdl Hal) as (t & Ht & Hot). apply live_after_spec in Ht as [Ht _]. by exists t.
        -- by eapply candidates_spec.
    + cbn [dc_announcements]. etrans; [apply room_of_new|]. lia.
Qed.
Lemma obs_live_none o link reach : len (obs_live o link now reach) = 0 ->
  forall router p until, observed o !! (link, router, p) = Some until -> now < until -> reach router = false.
Proof.
  intros Hl router p until Ho Hlive. destruct (reach router) eqn:Hr; [|done]. exfalso.
  assert (obs_live o link now reach = []) as Hnil by (destruct (obs_live o link now reach); [done|rewrite len_cons in Hl; pose proof (len_nonneg l); lia]).
  pose proof (obs_live_exact o link now reach) as (Hex & _). cbv zeta in Hex.
  destruct (obs_live_some o link now reach router p until Ho Hlive Hr) as [t Ht]. rewrite Hnil in Ht. by apply not_elem_of_nil in Ht.
Qed.
Lemma select_local_ok stub s d : sel_inv s -> rd_stub ready = Some stub -> pol_enabled (sl_policy s) = true -> 
  (local_active now s = true \/ forall router p until, observed (sl_observations s) !! (Stub, router, p) = Some until ->
         now < until -> reachable Stub router = false) ->
  select_local now ready s stub = Some d -> justified s d /\ dc_routes d = map (fun a => medium (an_pref64 a)) (dc_announcements d) /\
      Z.of_nat (size (dom (sl_promised s) ∪ list_to_set (map an_prefix (dc_announcements d)))) <= 8.
Proof.
  intros Hs Hstub Hen Hpeer. unfold select_local. destruct (rd_translator ready) eqn:Htr; [|done].
  destruct (live_after now (rd_ipv4 ready)) as [t|] eqn:Ht; [|done]. apply live_after_spec in Ht as [Ht Hlt].
  set (u := Z.min (Z.min t stub) _). destruct (Z.ltb_spec 0 (remaining_life u now)) as [Hpos|]; [|done]. cbn [andb].
  destruct (has_key _ _ || _) eqn:Hroom; [|done]. intros [= <-]. destruct (remaining_life_spec u now) as (Hb & Hm & Hlife).
  specialize (Hlife Hpos). destruct (si_local _ Hs) as [Hu _]. split_and!; [|done|].
  - split_and!; cbn [dc_announcements dc_mode map].
    + apply List.Forall_cons; [|apply List.Forall_nil]. unfold an_lifetime, an_prefix. cbn. split_and!; [lia|lia|done|done].
    + apply NoDup_singleton.
    + split; [done|]. exists (remaining_life u now), t, stub. unfold u, sat64, sat_add in *. split_and!; try done; lia.
  - cbn [dc_announcements]. etrans; [apply room_of_new|]. pose proof (si_count _ Hs). unfold new_prefixes. cbn [List.filter an_prefix an_pref64 pref64_prefix].
    destruct (has_key _ _); cbn [negb]; [change (len []) with 0; lia|]. cbn [orb] in Hroom. change (len [_]) with 1. lia.
Qed.

Lemma select_active_ok s : sel_inv s ->
  exists d s', select_active now ready reachable route s = (Ok d, s') /\ active_ok s s' d.
Proof.
  intros Hs. destruct (sel_expire_ok now s Hs) as (s1 & He & Hi & Hp & Ho & Hl & Hpol & Hsup).
  cbv [select_active mbind M_bind get mret M_ret]. rewrite He.
  assert (exists b, (if len (obs_live (sl_observations s1) Stub now (fun _ => true)) =? 0 then modify (put_suppressed false) else (fun s => (Ok tt, s))) s1
    = (Ok (E:=io_error) tt, put_suppressed b s1)) as [b ->].
  { destruct (_ =? 0); [by exists false|]. exists (sl_suppressed s1). by rewrite put_suppressed_id. }
  set (s2 := put_suppressed b s1). assert (sel_inv s2) as Hi2 by (by apply put_suppressed_inv).
  change (sl_policy s2) with (sl_policy s1). destruct (pol_enabled (sl_policy s1)) eqn:Hen; cbn [negb];
    [|eexists _, s2; split; [reflexivity|]; apply empty_active; done].
  destruct (live_after now (rd_stub ready)) as [stub|] eqn:Hst; [|eexists _, s2; split; [reflexivity|]; apply empty_active; done].
  apply live_after_spec in Hst as [Hst Hlt]. destruct (sl_suppressed s2); [eexists _, s2; split; [reflexivity|]; apply empty_active; done|].
  destruct (select_infrastructure_ok stub s2 Hi2 Hst Hen) as (o & b2 & -> & Hd). set (s3 := put_suppressed b2 s2) in *.
  assert (sel_inv s3) as Hi3 by (by apply put_suppressed_inv).
  destruct o as [d|]; [destruct (Hd d eq_refl) as (H1 & H2 & H3); exists d, s3; split; [reflexivity|]; by split_and!|].
  destruct (negb (len (obs_live (sl_observations s2) Stub now (reachable Stub)) =? 0) && negb (local_active now s3)) eqn:Hpeer;
    [eexists _, s3; split; [reflexivity|]; apply empty_active; done|].
  destruct (select_local now ready s3 stub) as [d|] eqn:Hloc; [|eexists _, s3; split; [reflexivity|]; apply empty_active; done].
  apply select_local_ok in Hloc as (H1 & H2 & H3); [|done|done|done|].
  - exists d, s3. split; [reflexivity|]. by split_and!.
  - apply andb_false_iff in Hpeer as [Hz%negb_false_iff%Z.eqb_eq|Ha%negb_false_iff]; [|by left]. right. by apply obs_live_none.
Qed.
Lemma promises_perm s : promises s ≡ₚ map_to_list (sl_promised s).
Proof. apply merge_sort_Permutation. Qed.
Lemma promises_NoDup s : NoDup (map fst (promises s)).
Proof. rewrite promises_perm. apply NoDup_fst_map_to_list. Qed.
Lemma in_promises s p v : In (p, v) (promises s) <-> sl_promised s !! p = Some v.
Proof. rewrite <-elem_of_map_to_list, <-list_elem_of_In. by rewrite promises_perm. Qed.
(** [select] as the active decision with the promises concluded. *)
Lemma select_ok s : sel_inv s -> exists d s1 s',
  select now ready reachable route s = (Ok (mkDecision (dc_mode d) (dc_announcements d ++ withdrawals (dc_announcements d) (promises s1))
      (dc_routes d ++ map (kept_route (pol_enabled (sl_policy s1)))
         (List.filter (fun kp => negb (announced (dc_announcements d) kp.1)) (promises s1))) (dc_reason d)), s') /\
  active_ok s s1 d /\ sel_inv s' /\ sl_promised s' = sl_promised s1 /\ sl_policy s' = sl_policy s1 /\ sl_local s' = sl_local s1 /\
  sl_status s' = (dc_mode d, dc_reason d) /\ sl_observations s' = sl_observations s1.
Proof.
  intros Hs. destruct (select_active_ok s Hs) as (d & s1 & Ha & Hok). exists d, s1. eexists. split.
  - cbv [select mbind M_bind get modify mret M_ret]. rewrite Ha, conclude_spec by apply promises_NoDup. reflexivity.
  - split; [done|]. destruct Hok as [[] _]. split; [by split|]. done.
Qed.
Lemma withdrawals_spec l ps a : In a (withdrawals l ps) <->
  an_lifetime a = 0 /\ announced l (an_prefix a) = false /\ exists v, In (an_prefix a, v) ps /\ pm_withdrawn v = false /\ an_source a = pm_source v.
Proof.
  unfold withdrawals. rewrite in_map_iff. split.
  - intros ([p v] & <- & [Hin [H1%negb_true_iff H2%negb_true_iff]%andb_true_iff]%filter_In). cbn in *. split_and!; [done|done|]. by exists v.
  - intros (Hl & Ha & v & Hin & Hw & Hsrc). exists (an_prefix a, v). split.
    + destruct a as [[p L] src]. unfold an_prefix, an_lifetime in *. cbn in *. by subst.
    + apply filter_In. split; [done|]. cbn [fst snd]. by rewrite Ha, Hw.
Qed.
Lemma withdrawals_NoDup l ps : NoDup (map fst ps) -> NoDup (map an_prefix l) -> NoDup (map an_prefix (l ++ withdrawals l ps)).
Proof.
  intros Hps Hl. rewrite map_app. apply list.NoDup_app. split_and!; [done| |].
  - intros p Hp Hw. rewrite list_elem_of_In, in_map_iff in Hw. destruct Hw as (a & <- & Ha). apply withdrawals_spec in Ha as (_ & Hann & _).
    apply announced_spec in Hp. congruence.
  - unfold withdrawals. rewrite map_map. cbn [an_prefix an_pref64 pref64_prefix].
    eapply sublist_NoDup; [exact Hps|]. clear. induction ps as [|kp ps IH]; [done|]. cbn [List.filter].
    destruct (_ && _); cbn [map fst]; [by apply sublist_skip|by apply sublist_cons].
Qed.
Lemma renewed_spec l p : p ∈ renewed l <-> exists a, In a l /\ an_prefix a = p /\ an_lifetime a <> 0.
Proof.
  unfold renewed. rewrite elem_of_list_to_set, list_elem_of_In, in_map_iff. split.
  - intros (a & <- & [Ha Hl%negb_true_iff%Z.eqb_neq]%filter_In). by exists a.
  - intros (a & Ha & <- & Hl%Z.eqb_neq). exists a. split; [done|]. apply filter_In. by rewrite Hl.
Qed.
Lemma unexpired_idem (m : gmap Prefix Promise) : unexpired_promises now (unexpired_promises now m) = unexpired_promises now m.
Proof. clear ready reachable route. unfold unexpired_promises. rewrite map_filter_filter. apply map_filter_ext. naive_solver. Qed.
(** Every decision can be recorded when it is made. *)
Lemma decision_recordable s s1 d : active_ok s s1 d -> forall s', sel_inv s' -> sl_promised s' = sl_promised s1 ->
  exists s2, advertised (dc_announcements d ++ withdrawals (dc_announcements d) (promises s1)) now s' = (Ok tt, s2).
Proof.
  intros (Hi & Hp & _ & _ & (Hall & Hnd & _) & _ & Hroom) s' Hi' Hp'. set (l := dc_announcements d) in *.
  assert (unexpired_promises now (sl_promised s') = sl_promised s1) as Hu by (rewrite Hp', Hp; apply unexpired_idem).
  rewrite List.Forall_forall in Hall.
  assert (forall a, In a (l ++ withdrawals l (promises s1)) -> an_prefix a ∈ dom (sl_promised s1) ∪ list_to_set (map an_prefix l)) as Hin.
  { intros a [Ha|Ha]%in_app_or; apply elem_of_union.
    - right. rewrite elem_of_list_to_set, list_elem_of_In. by apply in_map.
    - left. apply withdrawals_spec in Ha as (_ & _ & v & Hv & _). apply in_promises in Hv. by apply elem_of_dom_2 in Hv. }
  apply advertised_accepts; [done| | |].
  - pose proof (withdrawals_NoDup l (promises s1) (promises_NoDup s1) Hnd) as Hnd2.
    pose proof (size_list_to_set (C:=gset Prefix) _ Hnd2) as Hsz. rewrite length_map in Hsz. unfold len. rewrite <-Hsz.
    etrans; [apply inj_le, subseteq_size|exact Hroom]. intros p. rewrite elem_of_list_to_set, list_elem_of_In, in_map_iff.
    intros (a & <- & Ha). by apply Hin.
  - apply List.Forall_forall. intros a [Ha|Ha]%in_app_or; [by destruct (Hall a Ha) as (_ & _ & ?)|].
    apply withdrawals_spec in Ha as (_ & _ & v & Hv & _). apply in_promises in Hv. by eapply (si_promised _ Hi).
  - rewrite Hu. etrans; [apply inj_le, subseteq_size|exact Hroom]. intros p [Hd|(a & Ha & <- & _)%renewed_spec]%elem_of_union; [set_solver|by apply Hin].
Qed.

Lemma justified_ext s s' d d' : sl_policy s' = sl_policy s -> sl_local s' = sl_local s -> sl_promised s' = sl_promised s ->
  sl_observations s' = sl_observations s -> dc_mode d' = dc_mode d -> dc_announcements d' = dc_announcements d ->
  justified s d -> justified s' d'.
Proof. intros H1 H2 H3 H4 H5 H6. unfold justified, local_active, candidate_of. by rewrite H1, H2, H3, H4, H5, H6. Qed.
Definition active_part (d : Decision_) : list Announcement := List.filter (fun a => negb (an_lifetime a =? 0)) (dc_announcements d).
Lemma active_part_spec s d l ps : justified s d ->
  List.filter (fun a => negb (an_lifetime a =? 0)) (dc_announcements d ++ withdrawals l ps) = dc_announcements d.
Proof.
  intros (Hall & _). rewrite filter_app, List.forallb_filter_id.
  - rewrite (filter_ext_in _ (fun _ => false) (withdrawals l ps)), List.filter_false; [apply app_nil_r|].
    intros a (Ha & _)%withdrawals_spec. by rewrite Ha.
  - apply forallb_forall. intros a Ha. rewrite List.Forall_forall in Hall. destruct (Hall a Ha) as [? _].
    destruct (Z.eqb_spec (an_lifetime a) 0); [lia|done].
Qed.
End select.

(** ** Runs *)

Inductive sel_event :=
| SelExpire (now : Z)
| SelRotate (site : Prefix) (now : Z)
| SelConfigure (policy : Policy)
| SelRestore (p : Prefix) (source : Source) (until : Z) (withdrawn : bool)
| SelReceive (link : Link) (packet : bytes) (now : Z)
| SelLinkLost (link : Link)
| SelAdvertised (l : list Announcement) (now : Z)
| SelFailed (mode : Mode) (now : Z)
| SelSelect (now : Z) (ready : Readiness) (reachable : Link -> Z -> bool) (route : Prefix -> option Z).
Definition sel_run (ev : sel_event) : MS unit :=
  match ev with
  | SelExpire now => sel_expire now
  | SelRotate site now => rotate_local site now
  | SelConfigure policy => configure policy
  | SelRestore p source until withdrawn => restore_promise p source until withdrawn
  | SelReceive link packet now => sel_receive link packet now
  | SelLinkLost link => sel_link_lost link
  | SelAdvertised l now => advertised l now
  | SelFailed mode now => announcement_failed mode now
  | SelSelect now ready reachable route => select now ready reachable route ;; mret tt
  end.
Definition sel_event_wf (ev : sel_event) : Prop :=
  match ev with
  | SelRotate site _ => is_u128 (p_address site)
  | SelReceive _ packet now => is_bytes packet /\ is_u64 now
  | _ => True
  end.
Inductive sel_reachable : Selector -> Prop :=
| sel_start site s : is_u128 (p_address site) -> selector_new site = Ok s -> sel_reachable s
| sel_next s ev : sel_reachable s -> sel_event_wf ev -> sel_reachable (snd (sel_run ev s)).
Lemma selector_new_inv site s : is_u128 (p_address site) -> selector_new site = Ok s -> sel_inv s.
Proof.
  intros Ha Hn. unfold selector_new in Hn. apply bind_Ok in Hn as (local & Hl & [= <-]). pose proof (site_local_ok site Ha) as Hs. rewrite Hl in Hs.
  by split.
Qed.
(** A refused operation, other than a rotation, which expires first, changes nothing. *)
Definition refusal_ok (ev : sel_event) (s s' : Selector) : Prop :=
  match ev with SelRotate _ _ => True | _ => s' = s end.
Lemma sel_run_ok ev s : sel_inv s -> sel_event_wf ev ->
  match sel_run ev s with
  | (Ok _, s') => sel_inv s'
  | (Err _, s') => sel_inv s' /\ refusal_ok ev s s'
  | (Panic, _) => False
  end.
Proof.
  intros Hs Hw. destruct ev; cbn [sel_run refusal_ok sel_event_wf] in *.
  - by destruct (sel_expire_ok now s Hs) as (s' & -> & ? & _).
  - pose proof (rotate_local_ok site now s Hs Hw) as H. destruct (rotate_local site now s) as [[]]; try done.
  - pose proof (configure_ok policy s Hs) as H. destruct (configure policy s) as [[]]; [apply H|by destruct H as [-> _]|done].
  - pose proof (restore_promise_ok p source until withdrawn s Hs) as H. destruct (restore_promise _ _ _ _ s) as [[]]; [done|by subst|done].
  - destruct Hw as [Hb Hn]. pose proof (sel_receive_ok link packet now s Hs Hb Hn) as H. destruct (sel_receive _ _ _ s) as [[]]; [done|by subst|done].
  - by destruct (sel_link_lost_ok link s Hs) as (s' & -> & ?).
  - pose proof (advertised_ok l now s Hs) as H. destruct (advertised l now s) as [[]]; [apply H|by subst|done].
  - by destruct (announcement_failed_ok mode now s Hs) as (b & -> & ?).
  - destruct (select_ok now ready reachable route s Hs) as (d & s1 & s' & Hsel & _ & Hi & _). cbv [mbind M_bind mret M_ret]. by rewrite Hsel.
Qed.
Lemma sel_reachable_inv s : sel_reachable s -> sel_inv s.
Proof.
  induction 1 as [site s Ha Hn|s ev _ IH Hw]; [by eapply selector_new_inv|].
  pose proof (sel_run_ok ev s IH Hw) as H. destruct (sel_run ev s) as [[u|e|] s']; [done|apply H|done].
Qed.

(** ** Properties *)

(** Over every history of the selector no operation panics; the observations, at most
    eight promises and at most 74 remembered prefixes stay usable and within bounds; an
    enabled selector blocks nothing and a disabled one observes nothing.  A refused
    operation changes nothing, and disabling is never refused for lack of room. *)
Theorem selector_invariant s ev : sel_reachable s -> sel_event_wf ev ->
  sel_inv s /\ safe (fst (sel_run ev s)) /\ sel_inv (snd (sel_run ev s)) /\
  (forall e, fst (sel_run ev s) = Err e -> refusal_ok ev s (snd (sel_run ev s))) /\
  (forall policy, ev = SelConfigure policy -> validate policy = Ok tt -> pol_enabled (sl_policy s) = true ->
     fst (sel_run ev s) = Ok tt).
Proof.
  intros Hr Hw. pose proof (sel_reachable_inv s Hr) as Hs. pose proof (sel_run_ok ev s Hs Hw) as H. split; [done|].
  assert (forall policy, ev = SelConfigure policy -> validate policy = Ok tt -> pol_enabled (sl_policy s) = true -> fst (sel_run ev s) = Ok tt) as Hdis.
  { intros policy -> Hv Hen. pose proof (configure_ok policy s Hs) as Hc. cbn [sel_run].
    destruct (configure policy s) as [[[]|e|] s']; [done| |done]. destruct Hc as [_ [[_ ?]|(_ & ? & _)]]; congruence. }
  destruct (sel_run ev s) as [[u|e|] s']; cbn [fst snd] in *; [by split_and!| |done]. by split_and!; [|apply H|intros; apply H|].
Qed.

(** C37. [select] never fails. What it announces with a lifetime is justified by its mode:
    each lifetime is a multiple of eight seconds and ends before every readiness, route,
    delegation or observation it depends on; the local prefix is announced only when the
    translator is ready and no reachable peer already translates, unless it is in use.
    Every earlier promise is renewed, withdrawn now, or was withdrawn before, only those
    are withdrawn, no prefix is announced twice, and each keeps a route. *)
Theorem selection_justified s now ready reachable route : sel_reachable s ->
  exists d s', select now ready reachable route s = (Ok d, s') /\ sl_promised s' = unexpired_promises now (sl_promised s) /\
    justified now ready reachable route s' (mkDecision (dc_mode d) (active_part d) [] (dc_reason d)) /\
    NoDup (map an_prefix (dc_announcements d)) /\
    (forall a, In a (dc_announcements d) -> an_lifetime a = 0 ->
       exists v, sl_promised s' !! an_prefix a = Some v /\ pm_withdrawn v = false /\ an_source a = pm_source v) /\
    (forall p v, sl_promised s' !! p = Some v ->
       (pm_withdrawn v = true \/ exists a, In a (dc_announcements d) /\ an_prefix a = p) /\
       exists r, In r (dc_routes d) /\ rio_prefix r = p).
Proof.
  intros Hr. destruct (select_ok now ready reachable route s (sel_reachable_inv s Hr)) as
    (d & s1 & s' & Hsel & (Hi1 & Hp1 & _ & _ & Hj & Hroutes & _) & Hi' & Hp' & Hpol & Hloc & _ & Hobs).
  eexists _, s'. split; [exact Hsel|]. rewrite Hp'. split; [done|]. split_and!; cbn [dc_announcements dc_routes dc_mode dc_reason].
  - eapply justified_ext; [done|done|done|done| | |exact Hj]; [done|]. unfold active_part. cbn [dc_announcements].
    by eapply active_part_spec.
  - destruct Hj as (_ & Hnd & _). apply withdrawals_NoDup; [apply promises_NoDup|done].
  - intros a [Ha|Ha]%in_app_or Hz.
    + destruct Hj as (Hall & _). rewrite List.Forall_forall in Hall. destruct (Hall a Ha) as [? _]. lia.
    + apply withdrawals_spec in Ha as (_ & _ & v & Hv & Hw & Hs). apply in_promises in Hv. by exists v.
  - intros p v Hv. apply in_promises in Hv as Hin. destruct (announced (dc_announcements d) p) eqn:Ha.
    + apply announced_spec, list_elem_of_In, in_map_iff in Ha as (a & Hap & Ha). split; [right; exists a; split; [by apply in_or_app; left|done]|].
      exists (medium (an_pref64 a)). split; [|done]. apply in_or_app. left. rewrite Hroutes. by apply (in_map (fun a => medium (an_pref64 a))).
    + split.
      * destruct (pm_withdrawn v) eqn:Hw; [by left|]. right. exists (mkAnnouncement (mkPref64 p 0) (pm_source v)). split; [|done].
        apply in_or_app. right. apply withdrawals_spec. split_and!; [done|done|]. by exists v.
      * exists (kept_route now ready (pol_enabled (sl_policy s1)) (p, v)). split; [|done]. apply in_or_app. right. apply in_map, filter_In.
        split; [done|]. cbn [fst]. by rewrite Ha.
Qed.

(** Every decision can be recorded when it is made: [advertised] accepts it, whatever
    is promised already, and then exactly what was promised and what is announced now with
    a lifetime is promised. *)
Theorem selection_recordable s now ready reachable route d s' : sel_reachable s ->
  select now ready reachable route s = (Ok d, s') ->
  exists s2, advertised (dc_announcements d) now s' = (Ok tt, s2) /\ sel_inv s2 /\
    dom (sl_promised s2) = dom (sl_promised s') ∪ renewed (dc_announcements d).
Proof.
  intros Hr Hsel. destruct (select_ok now ready reachable route s (sel_reachable_inv s Hr)) as
    (d1 & s1 & s1' & Hsel' & Hok & Hi' & Hp' & _). rewrite Hsel in Hsel'. injection Hsel' as -> ->. cbn [dc_announcements].
  destruct (decision_recordable now ready reachable route s s1 d1 Hok s1' Hi' Hp') as (s2 & Ha). exists s2. split; [done|].
  pose proof (advertised_ok (dc_announcements d1 ++ withdrawals (dc_announcements d1) (promises s1)) now s1' Hi') as Hadv. rewrite Ha in Hadv.
  destruct Hadv as [Hi2 Hdom]. split; [done|]. rewrite Hdom. f_equal. f_equal. destruct Hok as (_ & Hp1 & _). rewrite Hp', Hp1. apply unexpired_idem.
Qed.

(** ** Witnesses: a site with a translator, and a peer on the stub link *)

Definition sample_site : Prefix := mkPrefix 0xfd001234567800000000000000000000 48.
Definition sample_selector : Selector := Eval vm_compute in
  match selector_new sample_site with
  | Ok s => s
  | _ => mkSelector policy_default (mkObservations ∅) sample_site ∅ false (ModeNone, "awaiting service readiness") ∅
  end.
Definition sample_ready : Readiness := mkReadiness None (Some 900000) (Some 2000000) true.
Definition sample_select : sel_event := SelSelect 1000 sample_ready (fun _ _ => true) (fun _ => None).
Lemma sample_selector_reachable : sel_reachable sample_selector.
Proof. apply (sel_start sample_site); [split; vm_compute; discriminate|vm_compute; reflexivity]. Qed.
Lemma selector_invariant_witness :
  sel_inv (snd (sel_run (SelReceive Stub sample_ra 1000) sample_selector)) /\
  obs_len (sl_observations (snd (sel_run (SelReceive Stub sample_ra 1000) sample_selector))) = 1.
Proof.
  assert (is_bytes sample_ra) as Hb by (repeat constructor; vm_compute; discriminate).
  split; [|vm_compute; reflexivity].
  apply (selector_invariant sample_selector (SelReceive Stub sample_ra 1000) sample_selector_reachable).
  split; [exact Hb|split; vm_compute; discriminate].
Defined.
Lemma selection_justified_witness :
  exists d s', select 1000 sample_ready (fun _ _ => true) (fun _ => None) sample_selector = (Ok d, s') /\
    dc_mode d = ModeLocal /\ map (fun a => (an_prefix a, an_lifetime a)) (dc_announcements d) = [(mkPrefix 0xfd0012345678ffff0000000000000000 96, 896)] /\
    NoDup (map an_prefix (dc_announcements d)).
Proof.
  destruct (selection_justified sample_selector 1000 sample_ready (fun _ _ => true) (fun _ => None) sample_selector_reachable)
    as (d & s' & Hs & _ & _ & Hn & _). exists d, s'. split; [exact Hs|].
  assert (match fst (select 1000 sample_ready (fun _ _ => true) (fun _ => None) sample_selector) with
          | Ok d => dc_mode d = ModeLocal /\
              map (fun a => (an_prefix a, an_lifetime a)) (dc_announcements d) = [(mkPrefix 0xfd0012345678ffff0000000000000000 96, 896)]
          | _ => False end) as Hv by (vm_compute; split; reflexivity).
  rewrite Hs in Hv. destruct Hv as [H1 H2]. split; [exact H1|]. split; [exact H2|exact Hn].
Defined.
Lemma selection_recordable_witness :
  exists d s' s2, select 1000 sample_ready (fun _ _ => true) (fun _ => None) sample_selector = (Ok d, s') /\
    advertised (dc_announcements d) 1000 s' = (Ok tt, s2) /\ sel_inv s2.
Proof.
  assert (match fst (select 1000 sample_ready (fun _ _ => true) (fun _ => None) sample_selector) with Ok _ => True | _ => False end) as Hv
    by (vm_compute; exact I).
  destruct (select 1000 sample_ready (fun _ _ => true) (fun _ => None) sample_selector) as [[d|e|] s'] eqn:Hs; [|destruct Hv..].
  destruct (selection_recordable sample_selector 1000 sample_ready (fun _ _ => true) (fun _ => None) d s' sample_selector_reachable Hs)
    as (s2 & H1 & H2 & _). exists d, s', s2. split; [reflexivity|]. split; [exact H1|exact H2].
Defined.
