(* ===== verification/DnsWire.v ===== *)
(** DNS messages ([src/src/dns/wire.rs]): names with compression pointers, typed record
    data, parsing, and encoding with the compression dictionary of multicast DNS.

    [Parser] is the state of the parser with the position the source passes along as
    [&mut at]; [Writer] is the output buffer with the dictionary. *)

From S2P Require Import Prelude Effects Maps.

Definition MAX_WIRE : Z := 65535.
Definition MAX_RECORDS : Z := 4096.
Definition MAX_WORK : Z := 262144.

(** ** Names *)

Definition to_ascii_lowercase (c : Z) : Z := if (65 <=? c) && (c <=? 90) then c + 32 else c.
Record Name := mkName { labels : list bytes; canonical : bytes }.
Definition total (l : list Z) : Z := foldr Z.add 0 l.
Definition canonical_of (labels : list bytes) : bytes :=
  concat (map (fun l => len l mod 256 :: map to_ascii_lowercase l) labels) ++ [0].
Definition from_labels (labels : list bytes) : outcome io_error Name :=
  if existsb (fun l => (len l =? 0) || (63 <? len l)) labels || (255 <? 1 + total (map (fun l => len l + 1) labels))
  then Err InvalidData else Ok (mkName labels (canonical_of labels)).
Definition root : Name := mkName [] [0].
Definition name_wire (n : Name) : bytes := concat (map (fun l => len l mod 256 :: l) (labels n)) ++ [0].
(** [PartialEq] and [Ord] for [Name]. *)
Definition name_eq (a b : Name) : bool := beq (canonical a) (canonical b).
Fixpoint lex_cmp (a b : bytes) : comparison :=
  match a, b with
  | [], [] => Eq
  | [], _ => Lt
  | _, [] => Gt
  | x :: a, y :: b => match x ?= y with Eq => lex_cmp a b | c => c end
  end.
Definition name_cmp (a b : Name) : comparison := lex_cmp (canonical a) (canonical b).
(** [s.trim_end_matches('.')] and [split('.')], on the bytes of the text. *)
Fixpoint trim_end (s : bytes) : bytes :=
  match s with
  | [] => []
  | c :: s => match trim_end s with [] => if c =? 46 then [] else [c] | t => c :: t end
  end.
Fixpoint split_dot (s : bytes) : list bytes :=
  match s with
  | [] => [[]]
  | c :: s =>
      match split_dot s with
      | l :: ls => if c =? 46 then [] :: l :: ls else (c :: l) :: ls
      | [] => [[c]]
      end
  end.
Definition name_from_str (s : bytes) : outcome io_error Name :=
  if beq s [46] then Ok root else from_labels (split_dot (trim_end s)).

Inductive Context := Unicast | Mdns.
#[global] Instance Context_eq_dec : EqDecision Context.
Proof. solve_decision. Defined.
Record Question := mkQuestion { q_name : Name; q_kind : Z; q_class : Z }.
Inductive Rdata :=
| RdEmpty
| RdA (a : bytes)
| RdAaaa (a : bytes)
| RdName (n : Name)
| RdSrv (priority weight port : Z) (target : Name)
| RdTxt (strings : list bytes)
| RdPreference (preference : Z) (name : Name)
| RdTwoNames (first second : Name)
| RdPx (preference : Z) (map822 mapx400 : Name)
| RdSoa (mname rname : Name) (serial refresh retry expire minimum : Z)
| RdKey (flags protocol algorithm : Z) (key : bytes)
| RdSig (covered algorithm labels original_ttl expiration inception key_tag : Z) (signer : Name) (signature : bytes)
| RdOpt (options : list (Z * bytes))
| RdNsec (next : Name) (bitmap : bytes)
| RdSvcb (priority : Z) (target : Name) (params : list (Z * bytes))
| RdBytes (b : bytes)
| RdOpaque (b : bytes).
Record Rr := mkRr { r_name : Name; r_kind : Z; r_class : Z; r_ttl : Z; r_data : Rdata }.
Record RecordSpan := mkSpan { sp_wire : Z * Z; sp_ttl : Z; sp_rdata : Z * Z }.
Record Message := mkMessage {
  m_id : Z; m_flags : Z;
  m_questions : list Question;
  m_answers : list Rr; m_authority : list Rr; m_additional : list Rr;
  m_original : bytes; m_spans : list RecordSpan;
}.
Definition message_new (id flags : Z) : Message := mkMessage id flags [] [] [] [] [] [].

(** ** The parser *)

Record Parser := mkParser { pr_known : list bool; pr_work : Z; pr_at : Z }.
Definition put_known k p := mkParser k (pr_work p) (pr_at p).
Definition put_work w p := mkParser (pr_known p) w (pr_at p).
Definition put_at a p := mkParser (pr_known p) (pr_work p) a.
Abbreviation MP := (M Parser io_error).

Definition u16at (b : bytes) (at_ : Z) : outcome io_error Z :=
  s ← ok_or (get_range b at_ (at_ + 2)) InvalidData; Ok (of_be s).

Section parser.
Context (b : bytes).

(** [take] at a position of the caller's: the bytes and the next position. *)
Definition take_at (at_ end_ n : Z) : outcome io_error (bytes * Z) :=
  let next := at_ + n in
  reject_if negb ((next <=? u64_max) && (next <=? end_)) with InvalidData;
  s ← ok_or (get_range b at_ next) InvalidData;
  Ok (s, next).
Definition p_take (end_ n : Z) : MP bytes :=
  p ← get;
  '(s, next) ← lift (take_at (pr_at p) end_ n);
  modify (put_at next) ;;
  mret s.
Definition p_u8 (end_ : Z) : MP Z := s ← p_take end_ 1; lift s.[0].
Definition p_u16 (end_ : Z) : MP Z := s ← p_take end_ 2; mret (of_be s).
Definition p_u32 (end_ : Z) : MP Z := s ← p_take end_ 4; mret (of_be s).

(** The loop of [name]; [consumed], [positions], [length] and [hops] are its locals. *)
Fixpoint name_loop (fuel : nat) (compressed : bool) (pos limit : Z) (consumed : option Z)
  (ls : list bytes) (positions : list Z) (length hops : Z) : MP (list bytes * list Z * Z) :=
  match fuel with
  | O => lift Panic
  | S fuel =>
      modify (fun p => put_work (pr_work p + 1) p) ;;
      p ← get;
      if MAX_WORK <? pr_work p then throw InvalidData else
      let offset := pos in
      '(s, pos) ← lift (take_at pos limit 1);
      c ← lift s.[0];
      if c =? 0 then mret (ls, positions ++ [offset], default pos consumed)
      else if c <=? 63 then
        '(l, pos) ← lift (take_at pos limit c);
        let length := length + (1 + len l) in
        if 255 <? length then throw InvalidData else
        name_loop fuel compressed pos limit consumed (ls ++ [l]) (positions ++ [offset]) length hops
      else if (192 <=? c) && compressed then
        '(s, pos) ← lift (take_at pos limit 1);
        low ← lift s.[0];
        let target := Z.lor (Z.shiftl (Z.land c 63) 8) low in
        let hops := hops + 1 in
        if (64 <? hops) || (offset <=? target) || negb (default false (pr_known p !! Z.to_nat target)) then throw InvalidData else
        name_loop fuel compressed target (len b) (Some (default pos consumed)) ls (positions ++ [offset]) length hops
      else throw InvalidData
  end.
(** [self.known[pos] = true] for every position. *)
Fixpoint mark_all (positions : list Z) (known : list bool) : outcome io_error (list bool) :=
  match positions with
  | [] => Ok known
  | pos :: positions =>
      _ ← known.[pos];
      mark_all positions (<[Z.to_nat pos := true]> known)
  end.
(** At most 127 labels, 64 pointers and the final zero. *)
Definition NAME_FUEL : nat := 200.
Definition p_name (end_ : Z) (compressed : bool) : MP Name :=
  p ← get;
  '(ls, positions, next) ← name_loop NAME_FUEL compressed (pr_at p) end_ None [] [] 1 0;
  modify (put_at next) ;;
  p ← get;
  known ← lift (mark_all positions (pr_known p));
  modify (put_known known) ;;
  lift (from_labels ls).

(** ** Record data *)

(** [while *at < end] of character strings and of options. *)
Fixpoint strings_loop (fuel : nat) (end_ : Z) : MP (list bytes) :=
  p ← get;
  if negb (pr_at p <? end_) then mret [] else
  match fuel with
  | O => lift Panic
  | S fuel =>
      n ← p_u8 end_;
      s ← p_take end_ n;
      rest ← strings_loop fuel end_;
      mret (s :: rest)
  end.
Fixpoint options_loop (fuel : nat) (end_ : Z) (ordered : bool) (prev : option Z) : MP (list (Z * bytes)) :=
  p ← get;
  if negb (pr_at p <? end_) then mret [] else
  match fuel with
  | O => lift Panic
  | S fuel =>
      key ← p_u16 end_;
      n ← p_u16 end_;
      if ordered && match prev with Some p => key <=? p | None => false end then throw InvalidData else
      s ← p_take end_ n;
      rest ← options_loop fuel end_ ordered (Some key);
      mret ((key, s) :: rest)
  end.
Definition p_options (end_ : Z) (ordered : bool) : MP (list (Z * bytes)) := options_loop (length b) end_ ordered None.
End parser.

Fixpoint bitmap_loop (fuel : nat) (b : bytes) (at_ : Z) (prev : option Z) : outcome io_error unit :=
  if negb (at_ <? len b) then Ok tt else
  match fuel with
  | O => Panic
  | S fuel =>
      w ← ok_or (b !! Z.to_nat at_) InvalidData;
      n ← ok_or (b !! Z.to_nat (at_ + 1)) InvalidData;
      reject_if (n =? 0) || (32 <? n) || match prev with Some p => w <=? p | None => false end with InvalidData;
      bits ← ok_or (get_range b (at_ + 2) (at_ + 2 + n)) InvalidData;
      reject_if match rev bits with x :: _ => x =? 0 | [] => false end with InvalidData;
      bitmap_loop fuel b (at_ + (2 + n)) (Some w)
  end.
Definition bitmap_valid (b : bytes) : outcome io_error unit := bitmap_loop (length b) b 0 None.

(** The checks of [svcb_valid]: the mandatory keys are present and in order, and the list
    of protocols is made of non-empty strings. *)
Definition has_param (params : list (Z * bytes)) (k : Z) : bool := existsb (fun x => x.1 =? k) params.
Fixpoint mandatory_ok (params : list (Z * bytes)) (b : bytes) (prev : Z) : bool :=
  match b with
  | c0 :: c1 :: b =>
      let k := u16be c0 c1 in
      (prev <? k) && has_param params k && mandatory_ok params b k
  | _ => true
  end.
Fixpoint alpn_loop (fuel : nat) (b : bytes) (at_ : Z) : outcome io_error bool :=
  if negb (at_ <? len b) then Ok true else
  match fuel with
  | O => Panic
  | S fuel =>
      n ← b.[at_];
      let at_ := at_ + (1 + n) in
      if (n =? 0) || (len b <? at_) then Ok false else alpn_loop fuel b at_
  end.
Definition param_ok (params : list (Z * bytes)) (kb : Z * bytes) : outcome io_error bool :=
  let '(key, b) := kb in
  if key =? 0 then Ok (negb (len b =? 0) && (len b mod 2 =? 0) && mandatory_ok params b 0)
  else if key =? 1 then ok ← alpn_loop (length b) b 0; Ok (negb (len b =? 0) && ok)
  else if key =? 2 then Ok ((len b =? 0) && has_param params 1)
  else if key =? 3 then Ok (len b =? 2)
  else if key =? 4 then Ok (negb (len b =? 0) && (len b mod 4 =? 0))
  else if key =? 6 then Ok (negb (len b =? 0) && (len b mod 16 =? 0))
  else Ok true.
Fixpoint params_ok (params l : list (Z * bytes)) : outcome io_error unit :=
  match l with
  | [] => Ok tt
  | kb :: l => ok ← param_ok params kb; if (ok : bool) then params_ok params l else Err InvalidData
  end.
Definition svcb_valid (params : list (Z * bytes)) : outcome io_error unit := params_ok params params.

Section rdata.
Context (b : bytes).

Definition rd_name (end_ : Z) (compressed : bool) : MP Rdata := n ← p_name b end_ compressed; mret (RdName n).
Definition rd_srv (end_ : Z) (compressed : bool) : MP Rdata :=
  priority ← p_u16 b end_; weight ← p_u16 b end_; port ← p_u16 b end_;
  target ← p_name b end_ compressed;
  mret (RdSrv priority weight port target).
Definition rd_txt (end_ : Z) : MP Rdata :=
  v ← strings_loop b (length b) end_;
  if len v =? 0 then throw InvalidData else mret (RdTxt v).
Definition rd_soa (end_ : Z) : MP Rdata :=
  mname ← p_name b end_ true; rname ← p_name b end_ true;
  serial ← p_u32 b end_; refresh ← p_u32 b end_; retry ← p_u32 b end_; expire ← p_u32 b end_; minimum ← p_u32 b end_;
  mret (RdSoa mname rname serial refresh retry expire minimum).
Definition rd_preference (end_ : Z) (compressed : bool) : MP Rdata :=
  preference ← p_u16 b end_; n ← p_name b end_ compressed; mret (RdPreference preference n).
Definition rd_two_names (end_ : Z) : MP Rdata :=
  first ← p_name b end_ true; second ← p_name b end_ true; mret (RdTwoNames first second).
Definition rd_px (end_ : Z) : MP Rdata :=
  preference ← p_u16 b end_; map822 ← p_name b end_ true; mapx400 ← p_name b end_ true; mret (RdPx preference map822 mapx400).
(** [self.take(at, end, end - *at)] *)
Definition p_rest (end_ : Z) : MP bytes := p ← get; n ← lift (sub_chk end_ (pr_at p)); p_take b end_ n.
Definition rd_key (end_ : Z) : MP Rdata :=
  flags ← p_u16 b end_; protocol ← p_u8 b end_; algorithm ← p_u8 b end_;
  key ← p_rest end_;
  mret (RdKey flags protocol algorithm key).
Definition rd_sig (end_ : Z) : MP Rdata :=
  covered ← p_u16 b end_; algorithm ← p_u8 b end_; labels ← p_u8 b end_;
  original_ttl ← p_u32 b end_; expiration ← p_u32 b end_; inception ← p_u32 b end_;
  key_tag ← p_u16 b end_;
  signer ← p_name b end_ false;
  signature ← p_rest end_;
  if len signature =? 0 then throw InvalidData else
  mret (RdSig covered algorithm labels original_ttl expiration inception key_tag signer signature).
Definition rd_nsec (end_ : Z) (mdns : bool) : MP Rdata :=
  next ← p_name b end_ mdns;
  bitmap ← p_rest end_;
  lift (bitmap_valid bitmap) ;;
  mret (RdNsec next bitmap).
Definition rd_svcb (end_ : Z) : MP Rdata :=
  priority ← p_u16 b end_;
  target ← p_name b end_ false;
  params ← p_options b end_ true;
  (if priority =? 0 then mret tt else lift (svcb_valid params)) ;;
  mret (RdSvcb priority target params).
(** DS and CDS: the digest's length follows its type. *)
Definition rd_digest (end_ n : Z) : MP Rdata :=
  if n <? 4 then throw InvalidData else
  s ← p_take b end_ n;
  b3 ← lift s.[3];
  let expected := if b3 =? 1 then Some 20 else if b3 =? 2 then Some 32 else if b3 =? 4 then Some 48 else None in
  if match expected with Some size => negb (n =? size + 4) | None => false end then throw InvalidData else
  mret (RdBytes s).
(** NSEC3 and NSEC3PARAM: the salt, and for NSEC3 the hash and the bitmap. *)
Definition nsec3_fields (end_ kind : Z) : MP unit :=
  p_take b end_ 4 ;;
  salt ← p_u8 b end_;
  p_take b end_ salt ;;
  if kind =? 50 then
    hash ← p_u8 b end_;
    if hash =? 0 then throw InvalidData else
    p_take b end_ hash ;;
    bitmap ← p_rest end_;
    lift (bitmap_valid bitmap)
  else mret tt.
Definition rd_nsec3 (end_ kind : Z) : MP Rdata :=
  p ← get;
  let start := pr_at p in
  nsec3_fields end_ kind ;;
  p ← get;
  s ← lift (slice b start (pr_at p));
  mret (RdBytes s).
Definition p_rdata (kind end_ : Z) (srv_compressed mdns : bool) : MP Rdata :=
  p ← get;
  n ← lift (sub_chk end_ (pr_at p));
  if (kind =? 1) && (n =? 4) then a ← p_take b end_ 4; mret (RdA a)
  else if (kind =? 28) && (n =? 16) then a ← p_take b end_ 16; mret (RdAaaa a)
  else if mem kind [1; 28] then throw InvalidData
  else if mem kind [2; 5; 12; 39] then rd_name end_ (negb (kind =? 39) || mdns)
  else if kind =? 33 then rd_srv end_ srv_compressed
  else if kind =? 16 then rd_txt end_
  else if kind =? 6 then rd_soa end_
  else if mem kind [15; 18; 21; 36] then rd_preference end_ (negb (kind =? 36) || mdns)
  else if mem kind [14; 17] then rd_two_names end_
  else if kind =? 26 then rd_px end_
  else if mem kind [25; 48; 60] then rd_key end_
  else if mem kind [24; 46] then rd_sig end_
  else if kind =? 41 then v ← p_options b end_ false; mret (RdOpt v)
  else if kind =? 47 then rd_nsec end_ mdns
  else if mem kind [64; 65] then rd_svcb end_
  else if mem kind [43; 59] then rd_digest end_ n
  else if mem kind [50; 51] then rd_nsec3 end_ kind
  else s ← p_take b end_ n; mret (RdOpaque s).

(** ** Messages *)

Definition question : MP Question :=
  n ← p_name b (len b) true;
  kind ← p_u16 b (len b);
  class ← p_u16 b (len b);
  mret (mkQuestion n kind class).
Fixpoint questions_loop (count : nat) : MP (list Question) :=
  match count with
  | O => mret []
  | S count => q ← question; qs ← questions_loop count; mret (q :: qs)
  end.
Definition is_update (flags : Z) : bool := Z.land (Z.shiftr flags 11) 15 =? 5.
(** The data of a record, [length] bytes from here. *)
Definition record_data (context : Context) (flags kind class length : Z) : MP Rdata :=
  p ← get;
  let end_ := pr_at p + length in
  let update := is_update flags in
  let mdns := bool_decide (context = Mdns) in
  data ← (if update && (length =? 0) && ((class =? 254) || (class =? 255)) then mret RdEmpty
          else p_rdata kind end_ (mdns || update) mdns);
  p ← get;
  if negb (pr_at p =? end_) then throw InvalidData else mret data.
(** One record of section [section] (0, 1, 2), with [opt_seen] before and after. *)
Definition record (context : Context) (flags section : Z) (opt_seen : bool) : MP (Rr * RecordSpan * bool) :=
  p ← get;
  let start := pr_at p in
  n ← p_name b (len b) true;
  kind ← p_u16 b (len b);
  class ← p_u16 b (len b);
  p ← get;
  let ttl_at := pr_at p in
  ttl ← p_u32 b (len b);
  length ← p_u16 b (len b);
  p ← get;
  let rstart := pr_at p in
  let end_ := rstart + length in
  if negb ((end_ <=? u64_max) && (end_ <=? len b)) then throw InvalidData else
  if (kind =? 41) && (negb (section =? 2) || opt_seen || negb (len (labels n) =? 0)) then throw InvalidData else
  data ← record_data context flags kind class length;
  p ← get;
  mret (mkRr n kind class ttl data, mkSpan (start, pr_at p) ttl_at (rstart, end_), opt_seen || (kind =? 41)).
Fixpoint records_loop (context : Context) (flags section : Z) (count : nat) (opt_seen : bool)
  : MP (list Rr * list RecordSpan * bool) :=
  match count with
  | O => mret ([], [], opt_seen)
  | S count =>
      '(r, span, opt_seen) ← record context flags section opt_seen;
      '(rs, spans, opt_seen) ← records_loop context flags section count opt_seen;
      mret (r :: rs, span :: spans, opt_seen)
  end.
Definition sections (context : Context) (id flags n0 n1 n2 n3 : Z) : MP Message :=
  questions ← questions_loop (Z.to_nat n0);
  '(answers, s1, opt_seen) ← records_loop context flags 0 (Z.to_nat n1) false;
  '(authority, s2, opt_seen) ← records_loop context flags 1 (Z.to_nat n2) opt_seen;
  '(additional, s3, _) ← records_loop context flags 2 (Z.to_nat n3) opt_seen;
  p ← get;
  if negb (pr_at p =? len b) then throw InvalidData else
  mret (mkMessage id flags questions answers authority additional b (s1 ++ s2 ++ s3)).
Definition parse (context : Context) : outcome io_error Message :=
  if (len b <? 12) || (MAX_WIRE <? len b) then Err InvalidData else
  n0 ← u16at b 4; n1 ← u16at b 6; n2 ← u16at b 8; n3 ← u16at b 10;
  let count := n0 + n1 + n2 + n3 in
  reject_if (MAX_RECORDS <? count) || ((len b - 12) / 5 <? count) with InvalidData;
  id ← u16at b 0; flags ← u16at b 2;
  fst (sections context id flags n0 n1 n2 n3 (mkParser (replicate (length b) false) 0 12)).
End rdata.

(** ** The writer *)

Record Dictionary := mkDictionary { d_entries : gmap (list Z) Z; d_bytes : Z }.
Record Writer := mkWriter { w_dictionary : Dictionary; w_out : bytes }.
Abbreviation MW := (M Writer io_error).
Definition emit (x : bytes) : MW unit := modify (fun w => mkWriter (w_dictionary w) (w_out w ++ x)).
Definition write_plain (n : Name) : MW unit := emit (name_wire n).
(** [while wire[at] != 0] *)
Fixpoint write_labels (fuel : nat) (wire : bytes) (at_ : Z) : MW bool :=
  match fuel with
  | O => lift Panic
  | S fuel =>
      c ← lift wire.[at_];
      if c =? 0 then mret false else
      w ← get;
      suffix ← lift (slice_from wire at_);
      match d_entries (w_dictionary w) !! suffix with
      | Some offset =>
          if MAX_WIRE <? len (w_out w) + 2 then throw InvalidData else
          emit (be16 (Z.lor 0xc000 offset)) ;;
          mret true
      | None =>
          room ← lift (sub_chk (d_bytes (w_dictionary w) + len wire) at_);
          (if (slen (d_entries (w_dictionary w)) <? 1024) && (room <=? 65536) && (len (w_out w) <? 0x4000) then
             modify (fun w => mkWriter (mkDictionary (<[suffix := len (w_out w) mod 65536]> (d_entries (w_dictionary w)))
                                                     (d_bytes (w_dictionary w) + len suffix)) (w_out w))
           else mret tt) ;;
          let n := c + 1 in
          w ← get;
          if MAX_WIRE <? len (w_out w) + n then throw InvalidData else
          label ← lift (slice wire at_ (at_ + n));
          emit label ;;
          write_labels fuel wire (at_ + n)
      end
  end.
Definition write_name (n : Name) : MW unit :=
  let wire := name_wire n in
  done ← write_labels (length wire) wire 0;
  if done : bool then mret tt else
  w ← get;
  if len (w_out w) =? MAX_WIRE then throw InvalidData else emit [0].
Fixpoint write_options (v : list (Z * bytes)) : MW unit :=
  match v with
  | [] => mret tt
  | (code, data) :: v =>
      if MAX_WIRE <? len data then throw InvalidData else
      emit (be16 code) ;; emit (be16 (len data mod 65536)) ;; emit data ;;
      write_options v
  end.
Fixpoint write_strings (v : list bytes) : MW unit :=
  match v with
  | [] => mret tt
  | s :: v => if 255 <? len s then throw InvalidData else emit [len s mod 256] ;; emit s ;; write_strings v
  end.
Definition write_data_with (wn : Name -> MW unit) (d : Rdata) : MW unit :=
  (match d with
   | RdEmpty => mret tt
   | RdA a => emit a
   | RdAaaa a => emit a
   | RdName n => wn n
   | RdSrv priority weight port target => emit (be16 priority) ;; emit (be16 weight) ;; emit (be16 port) ;; wn target
   | RdPreference preference n => emit (be16 preference) ;; wn n
   | RdTwoNames first second => wn first ;; wn second
   | RdPx preference map822 mapx400 => emit (be16 preference) ;; wn map822 ;; wn mapx400
   | RdTxt v => write_strings v
   | RdSoa mname rname serial refresh retry expire minimum =>
       wn mname ;; wn rname ;;
       emit (be32 serial) ;; emit (be32 refresh) ;; emit (be32 retry) ;; emit (be32 expire) ;; emit (be32 minimum)
   | RdKey flags protocol algorithm key => emit (be16 flags) ;; emit [protocol; algorithm] ;; emit key
   | RdSig covered algorithm labels original_ttl expiration inception key_tag signer signature =>
       emit (be16 covered) ;; emit [algorithm; labels] ;;
       emit (be32 original_ttl) ;; emit (be32 expiration) ;; emit (be32 inception) ;;
       emit (be16 key_tag) ;; write_plain signer ;; emit signature
   | RdOpt v => write_options v
   | RdNsec next bitmap => wn next ;; emit bitmap
   | RdSvcb priority target params => emit (be16 priority) ;; write_plain target ;; write_options params
   | RdBytes v => emit v
   | RdOpaque _ => throw InvalidData
   end) ;;
  w ← get;
  if MAX_WIRE <? len (w_out w) then throw InvalidData else mret tt.
Definition write_data : Rdata -> MW unit := write_data_with write_plain.
Definition name_writer (context : Context) : Name -> MW unit :=
  if decide (context = Mdns) then write_name else write_plain.
Definition encode_question (context : Context) (q : Question) : MW unit :=
  name_writer context (q_name q) ;; emit (be16 (q_kind q)) ;; emit (be16 (q_class q)).
Definition compressible : list Z := [2; 5; 6; 12; 15; 17; 18; 21; 26; 33; 36; 39; 47].
Definition encode_record (context : Context) (r : Rr) : MW unit :=
  name_writer context (r_name r) ;;
  emit (be16 (r_kind r)) ;; emit (be16 (r_class r)) ;; emit (be32 (r_ttl r)) ;;
  w ← get;
  let at_ := len (w_out w) in
  emit [0; 0] ;;
  w ← get;
  let start := len (w_out w) in
  (if bool_decide (context = Mdns) && mem (r_kind r) compressible then write_data_with write_name (r_data r)
   else write_data (r_data r)) ;;
  w ← get;
  if MAX_WIRE <? len (w_out w) then throw InvalidData else
  n ← lift (sub_chk (len (w_out w)) start);
  out ← lift (copy_at (w_out w) at_ (be16 (n mod 65536)));
  modify (fun w => mkWriter (w_dictionary w) out).
Definition encode_body (context : Context) (m : Message) : MW unit :=
  emit (be16 (m_id m)) ;; emit (be16 (m_flags m)) ;;
  let counts := [len (m_questions m); len (m_answers m); len (m_authority m); len (m_additional m)] in
  if MAX_RECORDS <? total counts then throw InvalidData else
  for_each counts (fun n => emit (be16 (n mod 65536))) ;;
  for_each (m_questions m) (encode_question context) ;;
  for_each (m_answers m ++ m_authority m ++ m_additional m) (encode_record context).
Definition no_dictionary : Dictionary := mkDictionary ∅ 0.
Definition encode_context (m : Message) (context : Context) : outcome io_error bytes :=
  match encode_body context m (mkWriter no_dictionary []) with
  | (Ok _, w) => _ ← parse (w_out w) context; Ok (w_out w)
  | (Err e, _) => Err e
  | (Panic, _) => Panic
  end.
Definition encode (m : Message) : outcome io_error bytes := encode_context m Unicast.
