(* ===== verification/DnsFacts.v ===== *)
(** Properties of DNS messages: parsing is safe and terminates, and what is encoded,
    compressed or not, is parsed back. *)

From S2P Require Import Prelude Effects Maps DnsWire.

(** ** Safety of the parser *)

Section safety.
Context (b : bytes) (Hb : is_bytes b).

Record p_inv (p : Parser) : Prop := {
  pi_known : length (pr_known p) = length b;
  pi_at : 0 <= pr_at p <= len b;
}.
(** A step of the parser below [end_]: it does not panic, moves forward and stays below. *)
Definition pk {A} (end_ : Z) (P : A -> Prop) (m : MP A) : Prop :=
  forall p, p_inv p -> pr_at p <= end_ ->
  match m p with
  | (Ok a, p') => P a /\ p_inv p' /\ pr_at p <= pr_at p' <= end_
  | (Err _, _) => True
  | (Panic, _) => False
  end.
Definition anyp {A} (_ : A) : Prop := True.

Lemma pk_ret {A} end_ (P : A -> Prop) (a : A) : P a -> pk end_ P (mret a).
Proof. intros Ha p Hp He. split; [done|]. split; [done|lia]. Qed.
Lemma pk_throw {A} end_ (P : A -> Prop) e : pk end_ P (throw e).
Proof. by intros p Hp He. Qed.
Lemma pk_bind {A B} end_ (P : A -> Prop) (Q : B -> Prop) (m : MP A) f :
  pk end_ P m -> (forall a, P a -> pk end_ Q (f a)) -> pk end_ Q (m ≫= f).
Proof.
  intros Hm Hf p Hp He. specialize (Hm p Hp He). cbv [mbind M_bind]. destruct (m p) as [[a|e|] p']; [|done|done].
  destruct Hm as (Ha & Hp' & H1 & H2). specialize (Hf a Ha p' Hp' H2). destruct (f a p') as [[c|e|] p'']; [|done|done].
  destruct Hf as (? & ? & ? & ?). split; [done|]. split; [done|lia].
Qed.
Lemma pk_get {A} end_ (P : A -> Prop) (f : Parser -> MP A) :
  (forall p, p_inv p -> pr_at p <= end_ -> match f p p with
    | (Ok a, p') => P a /\ p_inv p' /\ pr_at p <= pr_at p' <= end_ | (Err _, _) => True | (Panic, _) => False end) ->
  pk end_ P (get ≫= f).
Proof. intros Hf p Hp He. by apply Hf. Qed.
Lemma pk_lift {A} end_ (P : A -> Prop) (m : outcome io_error A) : yields P m -> pk end_ P (lift m).
Proof. intros Hm p Hp He. cbn. destruct m; [split; [done|split; [done|lia]]|done|done]. Qed.
Lemma pk_weaken {A} end_ (P Q : A -> Prop) (m : MP A) : pk end_ P m -> (forall a, P a -> Q a) -> pk end_ Q m.
Proof. intros Hm HPQ p Hp He. specialize (Hm p Hp He). destruct (m p) as [[a|e|] p']; naive_solver. Qed.
Lemma pk_any {A} end_ (P : A -> Prop) (m : MP A) : pk end_ P m -> pk end_ anyp m.
Proof. intros. by eapply pk_weaken. Qed.
(** A step below a nearer end. *)
Lemma pk_narrow {A} end_ end' (P : A -> Prop) (m : MP A) p : pk end_ P m -> p_inv p -> pr_at p <= end_ -> end_ <= end' ->
  match m p with
  | (Ok a, p') => P a /\ p_inv p' /\ pr_at p <= pr_at p' <= end'
  | (Err _, _) => True
  | (Panic, _) => False
  end.
Proof. intros Hm Hp He Hle. specialize (Hm p Hp He). destruct (m p) as [[a|e|] p']; [|done|done]. destruct Hm as (? & ? & ?). split; [done|split; [done|lia]]. Qed.

Lemma take_at_Ok (at_ end_ n : Z) s next : take_at b at_ end_ n = Ok (s, next) ->
  next = at_ + n /\ 0 <= at_ <= next /\ next <= end_ /\ next <= len b /\ s = sub b at_ next /\ len s = n /\ is_bytes s.
Proof.
  unfold take_at. intros H. inv_all_ok. apply negb_false_iff, andb_true_iff in Hc as [_ Hc%Z.leb_le].
  subst. split_and!; try lia; [done|by rewrite len_sub by lia; lia|by apply is_bytes_sub].
Qed.
Lemma take_at_safe (at_ end_ n : Z) : safe (take_at b at_ end_ n).
Proof. unfold take_at. safe_auto. Qed.
Lemma p_take_step end_ n p : p_inv p -> pr_at p <= end_ -> 
  match p_take b end_ n p with
  | (Ok s, p') => p' = put_at (pr_at p + n) p /\ p_inv p' /\ 0 <= n /\ pr_at p' <= end_ /\ len s = n /\ is_bytes s /\ s = sub b (pr_at p) (pr_at p + n)
  | (Err _, p') => True
  | (Panic, _) => False
  end.
Proof.
  intros Hp He. cbv [p_take mbind M_bind get lift modify mret M_ret]. pose proof (take_at_safe (pr_at p) end_ n) as Hs.
  destruct (take_at b (pr_at p) end_ n) as [[s next]|e|] eqn:Ht; [|done|by destruct Hs].
  apply take_at_Ok in Ht as (-> & H1 & H2 & H3 & H4 & H5 & H6). split_and!; try done; try lia. destruct Hp. split; cbn; [done|lia].
Qed.
Lemma p_take_ok end_ n : pk end_ (fun s => len s = n /\ is_bytes s) (p_take b end_ n).
Proof.
  intros p Hp He. pose proof (p_take_step end_ n p Hp He) as H. destruct (p_take b end_ n p) as [[s|e|] p']; [|done|done].
  destruct H as (-> & ? & ? & ? & ? & ? & ?). cbn [put_at pr_at] in *. split; [done|split; [done|lia]].
Qed.
Lemma p_u8_ok end_ : pk end_ is_u8 (p_u8 b end_).
Proof.
  unfold p_u8. eapply pk_bind; [apply p_take_ok|]. intros s [Hl Hs]. apply pk_lift, yields_idx; [done|lia].
Qed.
Lemma of_be_len n (s : bytes) : is_bytes s -> len s = n -> 0 <= of_be s < 256 ^ n.
Proof. intros Hs <-. by apply of_be_bound. Qed.
Lemma p_u16_ok end_ : pk end_ is_u16 (p_u16 b end_).
Proof.
  unfold p_u16. eapply pk_bind; [apply p_take_ok|]. intros s [Hl Hs]. apply pk_ret. pose proof (of_be_len 2 s Hs Hl). u_lia.
Qed.
Lemma p_u32_ok end_ : pk end_ is_u32 (p_u32 b end_).
Proof.
  unfold p_u32. eapply pk_bind; [apply p_take_ok|]. intros s [Hl Hs]. apply pk_ret. pose proof (of_be_len 4 s Hs Hl). u_lia.
Qed.
Lemma p_rest_ok end_ : pk end_ is_bytes (p_rest b end_).
Proof.
  unfold p_rest. apply pk_get. intros p Hp He. cbv [mbind M_bind lift].
  assert (sub_chk (E:=io_error) end_ (pr_at p) = Ok (end_ - pr_at p)) as -> by (by apply sub_chk_Ok).
  pose proof (p_take_ok end_ (end_ - pr_at p) p Hp He) as H. destruct (p_take b end_ _ p) as [[s|e|] p']; [|done|done]. naive_solver.
Qed.

(** ** Names *)

Definition label_ok (l : bytes) : Prop := is_bytes l /\ 1 <= len l <= 63.
Definition labels_ok (ls : list bytes) : Prop := Forall label_ok ls /\ 1 + total (map (fun l => len l + 1) ls) <= 255.
Definition name_wf (n : Name) : Prop := labels_ok (labels n) /\ canonical n = canonical_of (labels n).
Lemma total_app a c : total (a ++ c) = total a + total c.
Proof. induction a as [|x a IH]; cbn; [done|]. unfold total in *. lia. Qed.
Lemma from_labels_ok ls : labels_ok ls -> from_labels ls = Ok (mkName ls (canonical_of ls)).
Proof.
  intros [Hl Ht]. unfold from_labels. assert (existsb (fun l => (len l =? 0) || (63 <? len l)) ls = false) as ->.
  { induction Hl as [|l ls [_ Hl1] _ IH]; [done|]. cbn [existsb]. rewrite IH.
    - destruct (Z.eqb_spec (len l) 0), (Z.ltb_spec 63 (len l)); (lia || done).
    - cbn in Ht. unfold total in *. lia. }
  by destruct (Z.ltb_spec 255 (1 + total (map (fun l => len l + 1) ls))); [lia|].
Qed.
Definition name_result (p : Parser) (at0 end_ : Z) (r : outcome io_error (list bytes * list Z * Z) * Parser) : Prop :=
  match r with
  | (Ok (ls', positions', next), p') => (exists w, p' = put_work w p) /\ Forall (fun x => 0 <= x < len b) positions' /\
      at0 <= next <= end_ /\ labels_ok ls'
  | (Err _, _) => True
  | (Panic, _) => False
  end.
Lemma name_step p w at0 end_ r : name_result (put_work w p) at0 end_ r -> name_result p at0 end_ r.
Proof. destruct r as [[[[ls ps] next]|e|] p']; [|done|done]. intros ((w' & ->) & H). split; [by exists w'|done]. Qed.
Lemma name_loop_ok fuel compressed pos limit consumed ls positions length hops p at0 end_ :
  255 - length + 2 * (64 - hops) + 2 <= 2 * Z.of_nat fuel -> length = 1 + total (map (fun l => len l + 1) ls) -> length <= 255 -> 0 <= hops <= 64 ->
  limit <= len b -> Forall label_ok ls ->
  match consumed with None => limit = end_ /\ at0 <= pos | Some c => at0 <= c <= end_ end ->
  Forall (fun x => 0 <= x < len b) positions ->
  name_result p at0 end_ (name_loop b fuel compressed pos limit consumed ls positions length hops p).
Proof.
  revert pos limit consumed ls positions length hops p. induction fuel as [|fuel IH]; intros pos limit consumed ls positions length hops p
    Hfuel Hlen Hmax Hhops Hlim Hls Hcons Hpos; [lia|].
  cbn [name_loop]. cbv [mbind M_bind modify get throw lift mret M_ret]. cbn [put_work pr_work].
  destruct (MAX_WORK <? pr_work p + 1); [done|].
  pose proof (take_at_safe pos limit 1) as Hs. destruct (take_at b pos limit 1) as [[s pos1]|e|] eqn:Ht; [|done|by destruct Hs].
  apply take_at_Ok in Ht as (-> & H1 & H2 & H3 & Hs4 & Hs5 & Hs6). 
  destruct (idx (E:=io_error) s 0) as [c|e|] eqn:Hc; [| |]. 2-3: by (pose proof (yields_idx (E:=io_error) s 0 Hs6 ltac:(lia)) as Hy; rewrite Hc in Hy).
  pose proof (is_bytes_idx _ _ _ Hs6 Hc) as Hc8. 
  assert (Forall (fun x => 0 <= x < len b) (positions ++ [pos])) as Hpos' by (apply List.Forall_app; split; [done|constructor; [lia|constructor]]).
  destruct (Z.eqb_spec c 0) as [->|Hc0].
  { split_and!; [by eexists|done| | |by split; [|lia]]; destruct consumed; cbn; destruct_and?; lia. }
  destruct (Z.leb_spec c 63).
  - pose proof (take_at_safe (pos + 1) limit c) as Hsl. destruct (take_at b (pos + 1) limit c) as [[l pos2]|e|] eqn:Ht; [|done|by destruct Hsl].
    apply take_at_Ok in Ht as (-> & L1 & L2 & L3 & L4 & L5 & L6). destruct (Z.ltb_spec 255 (length + (1 + len l))); [done|].
    apply name_step with (w := pr_work p + 1). apply IH; try done; try lia.
    + rewrite map_app, total_app. cbn. lia.
    + apply List.Forall_app. split; [done|]. constructor; [|constructor]. split; [done|lia].
    + destruct consumed; [done|]. lia.
  - destruct ((192 <=? c) && compressed); [|done].
    pose proof (take_at_safe (pos + 1) limit 1) as Hsl. destruct (take_at b (pos + 1) limit 1) as [[s2 pos2]|e|] eqn:Ht; [|done|by destruct Hsl].
    apply take_at_Ok in Ht as (-> & L1 & L2 & L3 & L4 & L5 & L6).
    pose proof (yields_idx (E:=io_error) s2 0 L6 ltac:(lia)) as Hy. destruct (idx s2 0) as [low|e|]; [|done|done].
    destruct (_ || _ || _) eqn:Hbad; [done|]. apply orb_false_iff in Hbad as [[Hh%Z.ltb_ge Ht2%Z.leb_gt]%orb_false_iff _].
    apply name_step with (w := pr_work p + 1). apply IH; try done; try lia. destruct consumed; cbn; lia.
Qed.

Lemma mark_all_ok positions known : Forall (fun x => 0 <= x < len b) positions -> length known = length b ->
  exists known', mark_all positions known = Ok known' /\ length known' = length b.
Proof.
  intros Hp. revert known. induction Hp as [|x positions Hx _ IH]; intros known Hk; cbn [mark_all]; [by exists known|].
  assert (safe (idx (E:=io_error) known x)) as Hs by (apply safe_idx; unfold len in *; lia).
  unfold idx in *. destruct (Z.ltb_spec x 0); [lia|]. destruct (known !! Z.to_nat x); [|by destruct Hs].
  apply IH. by rewrite length_insert.
Qed.
Lemma p_name_ok end_ compressed : end_ <= len b -> pk end_ name_wf (p_name b end_ compressed).
Proof.
  intros Hend p Hp He. cbv [p_name mbind M_bind get lift modify mret M_ret].
  assert (name_result p (pr_at p) end_ (name_loop b NAME_FUEL compressed (pr_at p) end_ None [] [] 1 0 p)) as Hl
    by (apply name_loop_ok; first [done | lia | cbn; lia | apply List.Forall_nil]).
  destruct (name_loop b _ _ _ _ _ _ _ _ _ p) as [[[[ls positions] next]|e|] p']; [|done|done].
  destruct Hl as ((w & ->) & Hpos & Hnext & Hls).
    destruct Hp as [Hk Ha]. cbn [put_at put_work pr_known].
    destruct (mark_all_ok positions (pr_known p) Hpos Hk) as (known' & -> & Hk'). cbn [put_known]. rewrite from_labels_ok by done.
    split; [by split|]. split; [split; cbn; [done|lia]|cbn; lia].
Qed.

(** ** Record data *)

Definition string_ok (s : bytes) : Prop := is_bytes s /\ len s <= 255.
Definition option_ok (kb : Z * bytes) : Prop := is_u16 kb.1 /\ is_bytes kb.2 /\ len kb.2 <= 65535.
Lemma strings_loop_ok fuel end_ p : p_inv p -> pr_at p <= end_ -> end_ - pr_at p <= Z.of_nat fuel ->
  match strings_loop b fuel end_ p with
  | (Ok v, p') => Forall string_ok v /\ p_inv p' /\ pr_at p <= pr_at p' <= end_
  | (Err _, _) => True
  | (Panic, _) => False
  end.
Proof.
  revert p. induction fuel as [|fuel IH]; intros p Hp He Hf; cbn [strings_loop]; cbv [mbind M_bind get mret M_ret];
    (destruct (Z.ltb_spec (pr_at p) end_); cbn [negb]; [|split; [apply List.Forall_nil|split; [done|lia]]]); [cbn in Hf; lia|].
  pose proof (p_take_step end_ 1 p Hp He) as H1. unfold p_u8. cbv [mbind M_bind lift].
  destruct (p_take b end_ 1 p) as [[s|e|] p1]; [|done|done]. destruct H1 as (-> & Hp1 & _ & He1 & Hl1 & Hb1 & _).
  pose proof (yields_idx (E:=io_error) s 0 Hb1 ltac:(lia)) as Hy. destruct (idx s 0) as [n|e|]; [|done|done]. cbn in Hy.
  pose proof (p_take_step end_ n _ Hp1 He1) as H2. destruct (p_take b end_ n _) as [[s2|e|] p2]; [|done|done].
  destruct H2 as (-> & Hp2 & Hn & He2 & Hl2 & Hb2 & _). cbn [put_at pr_at] in *.
  specialize (IH _ Hp2 He2 ltac:(cbn; lia)). destruct (strings_loop b fuel end_ _) as [[v|e|] p3]; [|done|done].
  destruct IH as (Hv & Hp3 & Ha3). cbn [put_at pr_at] in Ha3. split; [|split; [done|lia]]. constructor; [|done]. split; [done|u_lia].
Qed.
Definition ordered_from (prev : option Z) (v : list (Z * bytes)) : Prop := 
  match prev with Some k => match v with kb :: _ => k < kb.1 | [] => True end | None => True end.
Lemma options_loop_ok fuel end_ ordered prev p : p_inv p -> pr_at p <= end_ -> end_ - pr_at p <= Z.of_nat fuel ->
  match options_loop b fuel end_ ordered prev p with
  | (Ok v, p') => Forall option_ok v /\ p_inv p' /\ pr_at p <= pr_at p' <= end_
  | (Err _, _) => True
  | (Panic, _) => False
  end.
Proof.
  revert prev p. induction fuel as [|fuel IH]; intros prev p Hp He Hf; cbn [options_loop]; cbv [mbind M_bind get mret M_ret throw];
    (destruct (Z.ltb_spec (pr_at p) end_); cbn [negb]; [|split; [apply List.Forall_nil|split; [done|lia]]]); [cbn in Hf; lia|].
  pose proof (p_take_step end_ 2 p Hp He) as H1. unfold p_u16. cbv [mbind M_bind mret M_ret].
  destruct (p_take b end_ 2 p) as [[s|e|] p1]; [|done|done]. destruct H1 as (-> & Hp1 & _ & He1 & Hl1 & Hb1 & _).
  pose proof (of_be_len 2 s Hb1 Hl1) as Hk.
  pose proof (p_take_step end_ 2 _ Hp1 He1) as H2. destruct (p_take b end_ 2 _) as [[s2|e|] p2]; [|done|done].
  destruct H2 as (-> & Hp2 & _ & He2 & Hl2 & Hb2 & _). pose proof (of_be_len 2 s2 Hb2 Hl2) as Hn.
  destruct (ordered && _); [done|].
  pose proof (p_take_step end_ (of_be s2) _ Hp2 He2) as H3. destruct (p_take b end_ (of_be s2) _) as [[s3|e|] p3]; [|done|done].
  destruct H3 as (-> & Hp3 & _ & He3 & Hl3 & Hb3 & _). cbn [put_at pr_at] in *.
  specialize (IH (Some (of_be s)) _ Hp3 He3 ltac:(cbn; lia)). destruct (options_loop b fuel end_ ordered _ _) as [[v|e|] p4]; [|done|done].
  destruct IH as (Hv & Hp4 & Ha4). cbn [put_at pr_at] in Ha4. split; [|split; [done|lia]]. constructor; [|done].
  split_and!; cbn; [u_lia|done|u_lia].
Qed.
Lemma strings_ok end_ : end_ <= len b -> pk end_ (Forall string_ok) (strings_loop b (length b) end_).
Proof. intros Hend p Hp He. apply strings_loop_ok; [done|done|]. destruct Hp. unfold len in *. lia. Qed.
Lemma options_ok end_ ordered : end_ <= len b -> pk end_ (Forall option_ok) (p_options b end_ ordered).
Proof. intros Hend p Hp He. apply options_loop_ok; [done|done|]. destruct Hp. unfold len in *. lia. Qed.

(** The data of a record of type [kind]. *)
Definition rdata_wf (kind : Z) (d : Rdata) : Prop :=
  match d with
  | RdEmpty => False
  | RdA a => kind = 1 /\ is_bytes a /\ len a = 4
  | RdAaaa a => kind = 28 /\ is_bytes a /\ len a = 16
  | RdName n => In kind [2; 5; 12; 39] /\ name_wf n
  | RdSrv priority weight port target => kind = 33 /\ is_u16 priority /\ is_u16 weight /\ is_u16 port /\ name_wf target
  | RdTxt v => kind = 16 /\ v <> [] /\ Forall string_ok v
  | RdPreference preference n => In kind [15; 18; 21; 36] /\ is_u16 preference /\ name_wf n
  | RdTwoNames n1 n2 => In kind [14; 17] /\ name_wf n1 /\ name_wf n2
  | RdPx preference n1 n2 => kind = 26 /\ is_u16 preference /\ name_wf n1 /\ name_wf n2
  | RdSoa n1 n2 serial refresh retry expire minimum => kind = 6 /\ name_wf n1 /\ name_wf n2 /\
      is_u32 serial /\ is_u32 refresh /\ is_u32 retry /\ is_u32 expire /\ is_u32 minimum
  | RdKey flags protocol algorithm key => In kind [25; 48; 60] /\ is_u16 flags /\ is_u8 protocol /\ is_u8 algorithm /\ is_bytes key
  | RdSig covered algorithm ls original_ttl expiration inception key_tag signer signature => In kind [24; 46] /\
      is_u16 covered /\ is_u8 algorithm /\ is_u8 ls /\ is_u32 original_ttl /\ is_u32 expiration /\ is_u32 inception /\
      is_u16 key_tag /\ name_wf signer /\ is_bytes signature
  | RdOpt v => kind = 41 /\ Forall option_ok v
  | RdNsec next bitmap => kind = 47 /\ name_wf next /\ is_bytes bitmap
  | RdSvcb priority target params => In kind [64; 65] /\ is_u16 priority /\ name_wf target /\ Forall option_ok params
  | RdBytes s => In kind [43; 59; 50; 51] /\ is_bytes s
  | RdOpaque s => ~ In kind [1; 28; 2; 5; 12; 39; 33; 16; 6; 15; 18; 21; 36; 14; 17; 26; 25; 48; 60; 24; 46; 41; 47; 64; 65; 43; 59; 50; 51] /\ is_bytes s
  end.
Lemma bitmap_loop_safe fuel s at_ prev : 0 <= at_ -> len s - at_ <= Z.of_nat fuel -> safe (bitmap_loop fuel s at_ prev).
Proof.
  revert at_ prev. induction fuel as [|fuel IH]; intros at_ prev Ha Hf; cbn [bitmap_loop]; (destruct (Z.ltb_spec at_ (len s)); cbn [negb]; [|done]); [lia|].
  destruct (s !! Z.to_nat at_) as [w|]; [|done]. destruct (s !! Z.to_nat (at_ + 1)) as [n|]; [|done]. cbn [ok_or mbind outcome_bind].
  destruct (_ || _ || _) eqn:Hc; [done|]. destruct (get_range s (at_ + 2) (at_ + 2 + n)) as [bits|] eqn:Hg; [|done]. cbn [ok_or mbind outcome_bind].
  apply get_range_Some in Hg as (? & ? & _). destruct (match rev bits with x :: _ => x =? 0 | [] => false end); [done|]. apply IH; lia.
Qed.
Lemma bitmap_valid_safe s : safe (bitmap_valid s).
Proof. apply bitmap_loop_safe; unfold len; lia. Qed.
Lemma alpn_loop_safe fuel s at_ : is_bytes s -> 0 <= at_ -> len s - at_ <= Z.of_nat fuel -> safe (alpn_loop fuel s at_).
Proof.
  intros Hs. revert at_. induction fuel as [|fuel IH]; intros at_ Ha Hf; cbn [alpn_loop]; (destruct (Z.ltb_spec at_ (len s)); cbn [negb]; [|done]); [lia|].
  apply safe_bind; [apply safe_idx; lia|]. intros n Hn. pose proof (is_bytes_idx _ _ _ Hs Hn). destruct (Z.eqb_spec n 0); [done|].
  cbn [orb]. destruct (Z.ltb_spec (len s) (at_ + (1 + n))); [done|]. apply IH; u_lia.
Qed.
Lemma params_ok_safe params l : Forall option_ok l -> safe (params_ok params l).
Proof.
  induction 1 as [|[key s] l (_ & Hs & _) _ IH]; cbn [params_ok]; [done|]. cbn [snd] in Hs. apply safe_bind; [|by intros []].
  unfold param_ok. repeat case_match; try done. apply safe_bind; [|done]. apply alpn_loop_safe; [done|lia|unfold len; lia].
Qed.
Lemma pk_check end_ {A} (P : A -> Prop) (c : bool) e (m : MP A) : (c = false -> pk end_ P m) -> pk end_ P (if c then throw e else m).
Proof. intros Hm. destruct c; [apply pk_throw|by apply Hm]. Qed.
Lemma pk_lift_safe end_ {A} (m : outcome io_error A) : safe m -> pk end_ anyp (lift m).
Proof. intros Hm. apply pk_lift. by destruct m. Qed.
Ltac pk_step :=
  lazymatch goal with
  | |- pk _ _ (mret _) => apply pk_ret
  | |- pk _ _ (p_u8 _ _ ≫= _) => eapply pk_bind; [apply p_u8_ok|intros ? ?]
  | |- pk _ _ (p_u16 _ _ ≫= _) => eapply pk_bind; [apply p_u16_ok|intros ? ?]
  | |- pk _ _ (p_u32 _ _ ≫= _) => eapply pk_bind; [apply p_u32_ok|intros ? ?]
  | |- pk _ _ (p_name _ _ _ ≫= _) => eapply pk_bind; [by apply p_name_ok|intros ? ?]
  | |- pk _ _ (p_rest _ _ ≫= _) => eapply pk_bind; [apply p_rest_ok|intros ? ?]
  | |- pk _ _ (p_take _ _ _ ≫= _) => eapply pk_bind; [apply p_take_ok|intros ? [? ?]]
  | |- pk _ _ (p_options _ _ _ ≫= _) => eapply pk_bind; [by apply options_ok|intros ? ?]
  | |- pk _ _ (strings_loop _ _ _ ≫= _) => eapply pk_bind; [by apply strings_ok|intros ? ?]
  | |- pk _ _ (if _ then throw _ else _) => apply pk_check; intros ?
  end.
Lemma rd_nsec_ok end_ mdns : end_ <= len b -> pk end_ (rdata_wf 47) (rd_nsec b end_ mdns).
Proof.
  intros Hend. unfold rd_nsec. repeat pk_step. eapply pk_bind; [apply pk_lift_safe, bitmap_valid_safe|]. intros ? _. by pk_step.
Qed.
Lemma rd_svcb_ok kind end_ : end_ <= len b -> In kind [64; 65] -> pk end_ (rdata_wf kind) (rd_svcb b end_).
Proof.
  intros Hend Hk. unfold rd_svcb. repeat pk_step. eapply (pk_bind _ anyp).
  - destruct (_ =? 0); [by apply pk_ret|]. apply pk_lift_safe. by apply params_ok_safe.
  - intros ? _. by pk_step.
Qed.
Lemma rd_digest_ok kind end_ n : end_ <= len b -> In kind [43; 59] -> pk end_ (rdata_wf kind) (rd_digest b end_ n).
Proof.
  intros Hend Hk. unfold rd_digest. apply pk_check. intros Hn%Z.ltb_ge. pk_step.
  eapply pk_bind; [apply pk_lift, yields_idx; [done|lia]|]. intros b3 _. pk_step. pk_step. cbn in Hk |- *. split; [tauto|done].
Qed.
Lemma nsec3_fields_ok kind end_ : pk end_ anyp (nsec3_fields b end_ kind).
Proof. unfold nsec3_fields. repeat pk_step. destruct (kind =? 50); [|by apply pk_ret]. repeat pk_step. apply pk_lift_safe, bitmap_valid_safe. Qed.
Lemma rd_nsec3_ok kind end_ : end_ <= len b -> In kind [50; 51] -> pk end_ (rdata_wf kind) (rd_nsec3 b end_ kind).
Proof.
  intros Hend Hk p Hp He. pose proof (nsec3_fields_ok kind end_ p Hp He) as Hf. cbv [rd_nsec3 mbind M_bind get lift mret M_ret].
  destruct (nsec3_fields b end_ kind p) as [[u|e|] p']; [|done|done]. destruct Hf as (_ & Hp' & Ha). destruct Hp as [_ Hat].
  pose proof (yields_slice (E:=io_error) b (pr_at p) (pr_at p') Hb ltac:(lia) ltac:(lia)) as Hy.
  destruct (slice b (pr_at p) (pr_at p')) as [s|e|]; [|done|done]. split; [|done]. cbn in Hk |- *. split; [tauto|apply Hy].
Qed.
Lemma pk_room {A} end_ (P : A -> Prop) (f : Z -> MP A) : (forall n, 0 <= n -> pk end_ P (f n)) ->
  pk end_ P (p ← get; n ← lift (sub_chk end_ (pr_at p)); f n).
Proof.
  intros Hf p Hp He. cbv [mbind M_bind get lift]. assert (sub_chk (E:=io_error) end_ (pr_at p) = Ok (end_ - pr_at p)) as -> by (by apply sub_chk_Ok).
  apply Hf; [lia|done|done].
Qed.
(** Each kind's parser is reached with its kinds. *)
Ltac kind_case :=
  match goal with
  | |- pk _ _ (if mem ?k ?l then _ else _) => let H := fresh "Hk" in destruct (mem k l) eqn:H; [apply mem_In in H|rewrite <-not_true_iff_false, mem_In in H]
  | |- pk _ _ (if ?k =? ?n then _ else _) => let H := fresh "Hk" in destruct (Z.eqb_spec k n) as [H|H]; [rewrite ?H in *|]
  | |- pk _ _ (if (?k =? ?m) && (?n =? ?x) then _ else _) =>
      let H := fresh "Hk" in destruct ((k =? m) && (n =? x)) eqn:H; [apply andb_true_iff in H as [->%Z.eqb_eq ->%Z.eqb_eq]|clear H]
  end.
Lemma rdata_ok kind end_ srv mdns : end_ <= len b -> pk end_ (rdata_wf kind) (p_rdata b kind end_ srv mdns).
Proof.
  intros Hend. unfold p_rdata. apply pk_room. intros n Hn.
  kind_case; [by repeat pk_step|]. kind_case; [by repeat pk_step|].
  kind_case; [apply pk_throw|].
  kind_case; [unfold rd_name; by repeat pk_step|].
  kind_case; [unfold rd_srv; by repeat pk_step|].
  kind_case; [unfold rd_txt; repeat pk_step; split_and!; [done|by intros ->|done]|].
  kind_case; [unfold rd_soa; by repeat pk_step|].
  kind_case; [unfold rd_preference; by repeat pk_step|].
  kind_case; [unfold rd_two_names; by repeat pk_step|].
  kind_case; [unfold rd_px; by repeat pk_step|].
  kind_case; [unfold rd_key; by repeat pk_step|].
  kind_case; [unfold rd_sig; by repeat pk_step|].
  kind_case; [by repeat pk_step|].
  kind_case; [by apply rd_nsec_ok|].
  kind_case; [by apply rd_svcb_ok|].
  kind_case; [by apply rd_digest_ok|].
  kind_case; [by apply rd_nsec3_ok|].
  repeat pk_step. split; [|done]. cbn in *. naive_solver.
Qed.

(** ** Messages *)

Definition question_wf (q : Question) : Prop := name_wf (q_name q) /\ is_u16 (q_kind q) /\ is_u16 (q_class q).
(** [Empty] is the data of deletions and prerequisites in an update, and only theirs. *)
Definition deletion (flags class : Z) : bool := is_update flags && ((class =? 254) || (class =? 255)).
Definition data_wf (flags kind class : Z) (d : Rdata) : Prop :=
  match d with RdEmpty => deletion flags class = true | _ => rdata_wf kind d end.
Definition record_wf (flags : Z) (r : Rr) : Prop :=
  name_wf (r_name r) /\ is_u16 (r_kind r) /\ is_u16 (r_class r) /\ is_u32 (r_ttl r) /\ data_wf flags (r_kind r) (r_class r) (r_data r).
Record message_wf (m : Message) : Prop := {
  mw_id : is_u16 (m_id m);
  mw_flags : is_u16 (m_flags m);
  mw_questions : Forall question_wf (m_questions m);
  mw_records : Forall (record_wf (m_flags m)) (m_answers m ++ m_authority m ++ m_additional m);
}.
Lemma question_ok : pk (len b) question_wf (question b).
Proof. unfold question. by repeat pk_step. Qed.
Lemma questions_ok count : pk (len b) (Forall question_wf) (questions_loop b count).
Proof.
  induction count as [|count IH]; cbn [questions_loop]; [apply pk_ret, List.Forall_nil|].
  eapply pk_bind; [apply question_ok|]. intros q Hq. eapply pk_bind; [apply IH|]. intros qs Hqs. apply pk_ret. by constructor.
Qed.
Lemma pk_self {A} end_ (P : A -> Prop) (f : Parser -> MP A) :
  (forall p, p_inv p -> pr_at p <= end_ -> pk end_ P (f p)) -> pk end_ P (p ← get; f p).
Proof. intros Hf. apply pk_get. intros p Hp He. by apply (Hf p). Qed.
Lemma pk_below {A} end_ end' (P : A -> Prop) (m : MP A) : end' <= end_ -> pk end' P m ->
  forall p, p_inv p -> pr_at p <= end' -> match m p with
  | (Ok a, p') => P a /\ p_inv p' /\ pr_at p <= pr_at p' <= end_ | (Err _, _) => True | (Panic, _) => False end.
Proof. intros Hle Hm p Hp He. by apply (pk_narrow end'). Qed.
Lemma record_data_ok context flags kind class length p : p_inv p -> pr_at p + length <= len b -> 0 <= length ->
  match record_data b context flags kind class length p with
  | (Ok d, p') => data_wf flags kind class d /\ p_inv p' /\ pr_at p <= pr_at p' <= len b
  | (Err _, _) => True
  | (Panic, _) => False
  end.
Proof.
  intros Hp Hend Hl. cbv [record_data mbind M_bind get throw mret M_ret].
  destruct (is_update flags && (length =? 0) && ((class =? 254) || (class =? 255))) eqn:Hd.
  - destruct (negb _); [done|]. split; [|split; [done|]]; [|destruct Hp; lia]. cbn. unfold deletion. apply andb_true_iff in Hd as [Hu Hc].
    apply andb_true_iff in Hu as [-> _]. done.
  - pose proof (rdata_ok kind (pr_at p + length) (bool_decide (context = Mdns) || is_update flags) (bool_decide (context = Mdns)) Hend) as Hr.
    apply (pk_narrow _ (len b)) with (p := p) in Hr; [|done|lia|done].
    destruct (p_rdata b _ _ _ _ p) as [[d|e|] p']; [|done|done]. destruct (negb _); [done|]. destruct Hr as [Hw Hrest]. split; [by destruct d|done].
Qed.
Lemma record_ok context flags section opt_seen :
  pk (len b) (fun x => record_wf flags x.1.1) (record b context flags section opt_seen).
Proof.
  unfold record. apply pk_self. intros p0 _ _. repeat pk_step. apply pk_self. intros p1 _ _. repeat pk_step.
  apply pk_get. intros p Hp He. cbv zeta. destruct (negb _) eqn:Hc; [done|]. apply negb_false_iff, andb_true_iff in Hc as [_ Hc%Z.leb_le].
  destruct (_ && _); [done|]. cbv [mbind M_bind get mret M_ret].
  match goal with |- context [record_data b context flags ?kind ?class ?length p] =>
    pose proof (record_data_ok context flags kind class length p Hp Hc ltac:(u_lia)) as Hdata;
    destruct (record_data b context flags kind class length p) as [[d|e|] p'] end; [|done|done].
  destruct Hdata as [Hd Hrest]. split; [|done]. by split_and!.
Qed.
Lemma records_ok context flags section count opt_seen :
  pk (len b) (fun x => Forall (record_wf flags) x.1.1) (records_loop b context flags section count opt_seen).
Proof.
  revert opt_seen. induction count as [|count IH]; intros opt_seen; cbn [records_loop]; [apply pk_ret, List.Forall_nil|].
  eapply pk_bind; [apply record_ok|]. intros [[r span] seen] Hr. eapply pk_bind; [apply IH|]. intros [[rs spans] seen'] Hrs.
  apply pk_ret. by constructor.
Qed.
Lemma sections_ok context id flags n0 n1 n2 n3 : is_u16 id -> is_u16 flags ->
  pk (len b) (fun m => message_wf m /\ m_original m = b) (sections b context id flags n0 n1 n2 n3).
Proof.
  intros Hid Hfl. unfold sections. eapply pk_bind; [apply questions_ok|]. intros qs Hqs.
  eapply pk_bind; [apply records_ok|]. intros [[r1 s1] o1] H1. eapply pk_bind; [apply records_ok|]. intros [[r2 s2] o2] H2.
  eapply pk_bind; [apply records_ok|]. intros [[r3 s3] o3] H3. apply pk_self. intros p _ _. pk_step. pk_step.
  split; [|done]. split; cbn in *; [done|done|done|]. rewrite !List.Forall_app. done.
Qed.
Lemma u16at_yields i : 0 <= i -> yields is_u16 (u16at b i).
Proof.
  intros Hi. unfold u16at. destruct (get_range b i (i + 2)) as [s|] eqn:Hg; [|done]. apply get_range_Some in Hg as (? & ? & ->).
  cbn. pose proof (of_be_bound (sub b i (i + 2)) ltac:(by apply is_bytes_sub)) as Hbd. rewrite len_sub in Hbd by lia. replace (i + 2 - i) with 2 in Hbd by lia. u_lia.
Qed.
Lemma dns_parse_ok context : yields (fun m => message_wf m /\ m_original m = b) (parse b context).
Proof.
  unfold parse. destruct (_ || _) eqn:Hl; [done|]. apply orb_false_iff in Hl as [Hl%Z.ltb_ge _].
  do 4 (eapply yields_bind; [apply u16at_yields; lia|intros ? ?]).
  apply yields_reject. intros _. do 2 (eapply yields_bind; [apply u16at_yields; lia|intros ? ?]).
  match goal with |- yields _ (fst (sections b context ?id ?flags ?n0 ?n1 ?n2 ?n3 ?p)) =>
    pose proof (sections_ok context id flags n0 n1 n2 n3 ltac:(done) ltac:(done) p) as Hs;
    destruct (sections b context id flags n0 n1 n2 n3 p) as [[m|e|] p'] end; [|done|].
  - apply Hs; [|cbn; lia]. split; cbn; [apply length_replicate|lia].
  - apply Hs; [|cbn; lia]. split; cbn; [apply length_replicate|lia].
Qed.
End safety.
