(* ===== verification/DnsRoundtrip.v ===== *)
(** What is encoded, with or without compression, is parsed back. *)

From S2P Require Import Prelude Effects Maps DnsWire DnsFacts.

(** ** Reading

    [holds b o s]: the bytes [s] are in [b] at [o].  [encodes b o ls e]: the name at [o]
    has the labels [ls], through whatever pointers, and its own bytes end at [e].
    [reads m o v e]: if the parser step [m] succeeds at [o], it gives [v] and stops at [e]. *)

Definition holds (b : bytes) (o : Z) (s : bytes) : Prop := get_range b o (o + len s) = Some s.
Inductive encodes (b : bytes) : Z -> list bytes -> Z -> Prop :=
| enc_root o : holds b o [0] -> encodes b o [] (o + 1)
| enc_label o l ls e : 1 <= len l <= 63 -> holds b o (len l :: l) -> encodes b (o + (1 + len l)) ls e -> encodes b o (l :: ls) e
| enc_pointer o c0 c1 ls e : 192 <= c0 <= 255 -> holds b o [c0; c1] ->
    encodes b (Z.lor (Z.shiftl (Z.land c0 63) 8) c1) ls e -> encodes b o ls (o + 2).
Definition reads {A} (m : MP A) (o : Z) (v : A) (e : Z) : Prop :=
  forall p a p', pr_at p = o -> m p = (Ok a, p') -> a = v /\ pr_at p' = e.

Lemma holds_split a s c o : o = len a -> holds (a ++ s ++ c) o s.
Proof.
  intros ->. unfold holds. apply get_range_Some. pose proof (len_nonneg a). pose proof (len_nonneg s). pose proof (len_nonneg c).
  rewrite !len_app. split_and!; [lia..|]. by rewrite sub_mid.
Qed.
Lemma holds_inv b o s : holds b o s -> exists a c, b = a ++ s ++ c /\ o = len a.
Proof.
  unfold holds. rewrite get_range_Some. intros (H1 & H2 & H3). exists (take (Z.to_nat o) b), (drop (Z.to_nat (o + len s)) b). split.
  - rewrite H3 at 1. unfold sub. replace (o + len s - o) with (len s) by lia.
    rewrite <-(take_drop (Z.to_nat o) b) at 1. f_equal. rewrite <-(take_drop (Z.to_nat (len s)) (drop (Z.to_nat o) b)) at 1. f_equal.
    rewrite drop_drop. f_equal. lia.
  - rewrite len_take by lia. lia.
Qed.
Lemma holds_app b o s t : holds b o (s ++ t) -> holds b o s /\ holds b (o + len s) t.
Proof.
  intros (a & c & -> & ->)%holds_inv. split; [rewrite <-app_assoc; by apply holds_split|].
  rewrite <-app_assoc, (app_assoc a s). apply holds_split. by rewrite len_app.
Qed.
Lemma holds_extend b o s x : holds b o s -> holds (b ++ x) o s.
Proof. intros (a & c & -> & ->)%holds_inv. rewrite <-!app_assoc. by apply holds_split. Qed.
Lemma encodes_extend b o ls e x : encodes b o ls e -> encodes (b ++ x) o ls e.
Proof.
  induction 1; [by apply enc_root, holds_extend|by apply enc_label; [|apply holds_extend|]|by eapply enc_pointer; [|apply holds_extend|]].
Qed.
Lemma reads_ret {A} (v : A) o : reads (mret v) o v o.
Proof. intros p a p' Ho [= <- <-]. by split. Qed.
Lemma reads_bind {A B} (m : MP A) (f : A -> MP B) o v e w e' : reads m o v e -> reads (f v) e w e' -> reads (m ≫= f) o w e'.
Proof.
  intros Hm Hf p a p' Ho. cbv [mbind M_bind]. destruct (m p) as [[x|err|] p1] eqn:Hx; [|done|done].
  destruct (Hm p x p1 Ho Hx) as [-> H1]. by apply Hf.
Qed.
Lemma reads_get {A} (f : Parser -> MP A) o v e : (forall p, pr_at p = o -> reads (f p) o v e) -> reads (p ← get; f p) o v e.
Proof. intros Hf p a p' Ho. cbv [mbind M_bind get]. by apply Hf. Qed.
Lemma reads_lift {A B} (m : outcome io_error A) (f : A -> MP B) o v e : (forall x, m = Ok x -> reads (f x) o v e) -> reads (x ← lift m; f x) o v e.
Proof. intros Hf p a p' Ho. cbv [mbind M_bind lift]. destruct m as [x|err|] eqn:Hm; [|done|done]. by apply Hf. Qed.
Lemma reads_check {A} (c : bool) err (m : MP A) o v e : (c = false -> reads m o v e) -> reads (if c then throw err else m) o v e.
Proof. intros Hm. destruct c; [by intros p a p' Ho|by apply Hm]. Qed.

Section reading.
Context (b : bytes).

Lemma take_at_holds at_ end_ n s x next : holds b at_ s -> n = len s -> take_at b at_ end_ n = Ok (x, next) -> x = s /\ next = at_ + n.
Proof.
  intros Hs -> Ht. unfold take_at in Ht. inv_all_ok. subst. unfold holds in Hs. apply get_range_Some in Hs as (_ & _ & Hs). by rewrite Hs at 2.
Qed.
Lemma take_reads o s end_ n : holds b o s -> n = len s -> reads (p_take b end_ n) o s (o + n).
Proof.
  intros Hs Hn p a p' <-. cbv [p_take mbind M_bind get lift modify mret M_ret].
  destruct (take_at b (pr_at p) end_ n) as [[x next]|e|] eqn:Ht; [|done|done]. intros [= <- <-].
  by apply (take_at_holds _ _ _ s) in Ht as [-> ->].
Qed.
Lemma u8_reads o x end_ : holds b o [x] -> reads (p_u8 b end_) o x (o + 1).
Proof.
  intros Hs. unfold p_u8. eapply reads_bind; [by apply take_reads|]. intros p a p' Ho [= <- <-]. by split.
Qed.
Lemma u16_reads o x end_ : holds b o (be16 x) -> is_u16 x -> reads (p_u16 b end_) o x (o + 2).
Proof.
  intros Hs Hx. unfold p_u16. eapply reads_bind; [by apply take_reads|]. unfold be16. rewrite of_be_be_small by u_lia. apply reads_ret.
Qed.
Lemma u32_reads o x end_ : holds b o (be32 x) -> is_u32 x -> reads (p_u32 b end_) o x (o + 4).
Proof.
  intros Hs Hx. unfold p_u32. eapply reads_bind; [by apply take_reads|]. unfold be32. rewrite of_be_be_small by u_lia. apply reads_ret.
Qed.
Lemma rest_reads o s end_ : holds b o s -> end_ = o + len s -> reads (p_rest b end_) o s end_.
Proof.
  intros Hs ->. unfold p_rest. apply reads_get. intros p Hp. apply reads_lift. intros n [-> _]%sub_chk_Ok. rewrite Hp.
  replace (o + len s - o) with (len s) by lia. by apply take_reads.
Qed.

Lemma idx_head {E A} (x : A) s : idx (E:=E) (x :: s) 0 = Ok x.
Proof. done. Qed.
Lemma holds_head o c s : holds b o (c :: s) -> holds b o [c] /\ holds b (o + 1) s.
Proof. intros H. by apply (holds_app b o [c] s) in H. Qed.
Lemma name_loop_reads fuel compressed pos limit consumed acc positions length hops p ls e ls' ps next p' :
  encodes b pos ls e ->
  name_loop b fuel compressed pos limit consumed acc positions length hops p = (Ok (ls', ps, next), p') ->
  ls' = acc ++ ls /\ next = default e consumed /\ pr_at p' = pr_at p.
Proof.
  intros He. revert fuel limit consumed acc positions length hops p. induction He as [o H0|o l ls e Hl Hh _ IH|o c0 c1 ls e Hc Hh _ IH];
    intros fuel limit consumed acc positions length hops p Hrun; (destruct fuel as [|fuel]; [done|]);
    cbn [name_loop] in Hrun; cbv [mbind M_bind modify get throw lift mret M_ret] in Hrun; cbn [put_work pr_work] in Hrun;
    (destruct (MAX_WORK <? pr_work p + 1); [done|]);
    (destruct (take_at b o limit 1) as [[s next1]|err|] eqn:Ht; [|done|done]).
  - apply (take_at_holds _ _ _ [0]) in Ht as [-> ->]; [|done|done]. cbn in Hrun. injection Hrun as <- <- <- <-.
    split_and!; [by rewrite app_nil_r|done|done].
  - apply holds_head in Hh as [Hh0 Hh1]. apply (take_at_holds _ _ _ [len l]) in Ht as [-> ->]; [|done|done].
    rewrite idx_head in Hrun.
    destruct (Z.eqb_spec (len l) 0); [lia|]. destruct (Z.leb_spec (len l) 63); [|lia].
    destruct (take_at b (o + 1) limit (len l)) as [[l2 next2]|err|] eqn:Ht2; [|done|done].
    apply (take_at_holds _ _ _ l) in Ht2 as [-> ->]; [|done|done]. destruct (255 <? length + (1 + len l)); [done|].
    replace (o + 1 + len l) with (o + (1 + len l)) in Hrun by lia. apply IH in Hrun as (-> & -> & Hat).
    split_and!; [by rewrite <-app_assoc|done|by rewrite Hat].
  - apply holds_head in Hh as [Hh0 Hh1]. apply (take_at_holds _ _ _ [c0]) in Ht as [-> ->]; [|done|done].
    rewrite idx_head in Hrun.
    destruct (Z.eqb_spec c0 0); [lia|]. destruct (Z.leb_spec c0 63); [lia|]. destruct ((192 <=? c0) && compressed); [|done].
    destruct (take_at b (o + 1) limit 1) as [[s2 next2]|err|] eqn:Ht2; [|done|done].
    apply (take_at_holds _ _ _ [c1]) in Ht2 as [-> ->]; [|done|done]. rewrite idx_head in Hrun.
    cbv iota in Hrun. destruct (_ || _ || _); [done|]. replace (o + 1 + 1) with (o + 2) in Hrun by lia.
    apply IH in Hrun as (-> & -> & Hat). split_and!; [done|by destruct consumed|by rewrite Hat].
Qed.
Definition name_of (ls : list bytes) : Name := mkName ls (canonical_of ls).
Lemma name_reads o ls e end_ compressed : encodes b o ls e -> reads (p_name b end_ compressed) o (name_of ls) e.
Proof.
  intros He p a p' <-. cbv [p_name mbind M_bind get lift modify mret M_ret].
  destruct (name_loop b _ _ _ _ _ _ _ _ _ p) as [[[[ls' ps] next]|err|] p1] eqn:Hl; [|done|done].
  apply (name_loop_reads _ _ _ _ _ _ _ _ _ _ ls e) in Hl as (-> & -> & Hat); [|done]. cbn [put_at pr_known].
  destruct (mark_all _ _) as [known|err|]; [|done|done]. unfold from_labels. destruct (_ || _); [done|]. by intros [= <- <-].
Qed.
(** Uncompressed names. *)
Definition wire_of (ls : list bytes) : bytes := concat (map (fun l => len l mod 256 :: l) ls) ++ [0].
Lemma wire_cons l ls : wire_of (l :: ls) = (len l mod 256 :: l) ++ wire_of ls.
Proof. unfold wire_of. cbn [map concat]. by rewrite <-app_assoc. Qed.
Lemma wire_encodes o ls : Forall label_ok ls -> holds b o (wire_of ls) -> encodes b o ls (o + len (wire_of ls)).
Proof.
  intros Hls. revert o. induction Hls as [|l ls [_ Hl] _ IH]; intros o Hh; [by apply enc_root|].
  rewrite wire_cons in Hh |- *. rewrite Z.mod_small in Hh |- * by lia. apply holds_app in Hh as [H1 H2]. rewrite len_cons in H2.
  replace (o + len ((len l :: l) ++ wire_of ls)) with (o + (1 + len l) + len (wire_of ls)) by (rewrite len_app, len_cons; lia).
  apply enc_label; [done|done|]. by apply IH.
Qed.

(** ** Record data *)

Definition strings_wire (v : list bytes) : bytes := concat (map (fun s => len s mod 256 :: s) v).
Definition options_wire (v : list (Z * bytes)) : bytes := concat (map (fun kb => be16 kb.1 ++ be16 (len kb.2 mod 65536) ++ kb.2) v).
Lemma strings_wire_cons s v : strings_wire (s :: v) = (len s mod 256 :: s) ++ strings_wire v.
Proof. done. Qed.
Lemma options_wire_cons k s v : options_wire ((k, s) :: v) = (be16 k ++ be16 (len s mod 65536) ++ s) ++ options_wire v.
Proof. done. Qed.
(** A loop that stops, or still has to go on, at [end_]. *)
Lemma reads_stop {A} (v : A) (m : MP A) o end_ : o = end_ -> reads (p ← get; if negb (pr_at p <? end_) then mret v else m) o v end_.
Proof. intros ->. apply reads_get. intros p ->. rewrite Z.ltb_irrefl. apply reads_ret. Qed.
Lemma reads_more {A} (v w : A) (m : MP A) o end_ e : o < end_ -> reads m o w e -> reads (p ← get; if negb (pr_at p <? end_) then mret v else m) o w e.
Proof. intros Hlt Hm. apply reads_get. intros p ->. by destruct (Z.ltb_spec o end_); [|lia]. Qed.
Lemma reads_panic {A} (v : A) o e : reads (lift Panic) o v e.
Proof. by intros p a p' Ho. Qed.
Lemma strings_reads fuel v o end_ : Forall string_ok v -> holds b o (strings_wire v) -> end_ = o + len (strings_wire v) ->
  reads (strings_loop b fuel end_) o v end_.
Proof.
  intros Hv. revert fuel o. induction Hv as [|s v [_ Hs] _ IH]; intros fuel o Hh He; (destruct fuel as [|fuel]); cbn [strings_loop].
  1-2: (apply reads_stop; change (len (strings_wire [])) with 0 in He; lia).
  all: rewrite strings_wire_cons in Hh, He; rewrite Z.mod_small in Hh, He by (pose proof (len_nonneg s); lia);
    rewrite len_app, len_cons in He; pose proof (len_nonneg s); pose proof (len_nonneg (strings_wire v)); (apply reads_more; [lia|]).
  - apply reads_panic.
  - apply holds_app in Hh as [Hh Hrest]. apply holds_head in Hh as [Hh0 Hh1]. rewrite len_cons in Hrest.
    eapply reads_bind; [by apply u8_reads|]. eapply reads_bind; [by apply take_reads|].
    eapply reads_bind; [apply IH|apply reads_ret]; [|lia]. replace (o + 1 + len s) with (o + (1 + len s)) by lia. exact Hrest.
Qed.
Lemma options_reads fuel v o end_ ordered prev : Forall option_ok v -> holds b o (options_wire v) -> end_ = o + len (options_wire v) ->
  reads (options_loop b fuel end_ ordered prev) o v end_.
Proof.
  intros Hv. revert fuel o prev. induction Hv as [|[k s] v (Hk & _ & Hs) _ IH]; intros fuel o prev Hh He; (destruct fuel as [|fuel]); cbn [options_loop].
  1-2: (apply reads_stop; change (len (options_wire [])) with 0 in He; lia).
  all: cbn [fst snd] in Hk, Hs; pose proof (len_nonneg s); pose proof (len_nonneg (options_wire v));
    rewrite options_wire_cons in Hh, He; rewrite Z.mod_small in Hh, He by lia;
    rewrite !len_app in He; change (len (be16 _)) with 2 in He; (apply reads_more; [lia|]).
  - apply reads_panic.
  - apply holds_app in Hh as [Hh Hrest]. apply holds_app in Hh as [Hkey Hh]. apply holds_app in Hh as [Hlen Hh].
    rewrite !len_app in Hrest. change (len (be16 _)) with 2 in *.
    eapply reads_bind; [by apply u16_reads|]. eapply reads_bind; [apply u16_reads; [done|u_lia]|]. apply reads_check. intros _.
    eapply reads_bind; [by apply take_reads|]. eapply reads_bind; [apply IH|apply reads_ret]; [|lia].
    replace (o + 2 + 2 + len s) with (o + (2 + (2 + len s))) by lia. exact Hrest.
Qed.
(** How the data lies between [o] and [e]. *)
Definition data_at (o : Z) (d : Rdata) (e : Z) : Prop :=
  let here s := holds b o s /\ e = o + len s in
  match d with
  | RdEmpty => e = o
  | RdA a | RdAaaa a | RdBytes a => here a
  | RdOpaque _ => False
  | RdName n => encodes b o (labels n) e
  | RdSrv priority weight port target => holds b o (be16 priority ++ be16 weight ++ be16 port) /\ encodes b (o + 6) (labels target) e
  | RdTxt v => here (strings_wire v)
  | RdPreference preference n => holds b o (be16 preference) /\ encodes b (o + 2) (labels n) e
  | RdTwoNames n1 n2 => exists e1, encodes b o (labels n1) e1 /\ encodes b e1 (labels n2) e
  | RdPx preference n1 n2 => holds b o (be16 preference) /\ exists e1, encodes b (o + 2) (labels n1) e1 /\ encodes b e1 (labels n2) e
  | RdSoa n1 n2 serial refresh retry expire minimum => exists e1 e2, encodes b o (labels n1) e1 /\ encodes b e1 (labels n2) e2 /\
      holds b e2 (be32 serial ++ be32 refresh ++ be32 retry ++ be32 expire ++ be32 minimum) /\ e = e2 + 20
  | RdKey flags protocol algorithm key => here (be16 flags ++ [protocol; algorithm] ++ key)
  | RdSig covered algorithm ls original_ttl expiration inception key_tag signer signature => exists e1,
      holds b o (be16 covered ++ [algorithm; ls] ++ be32 original_ttl ++ be32 expiration ++ be32 inception ++ be16 key_tag) /\
      encodes b (o + 18) (labels signer) e1 /\ holds b e1 signature /\ e = e1 + len signature
  | RdOpt v => here (options_wire v)
  | RdNsec next bitmap => exists e1, encodes b o (labels next) e1 /\ holds b e1 bitmap /\ e = e1 + len bitmap
  | RdSvcb priority target params => exists e1, holds b o (be16 priority) /\ encodes b (o + 2) (labels target) e1 /\
      holds b e1 (options_wire params) /\ e = e1 + len (options_wire params)
  end.

Lemma name_eta n : name_wf n -> n = name_of (labels n).
Proof. intros [_ Hc]. destruct n. unfold name_of. cbn in *. by rewrite <-Hc. Qed.
Lemma wf_name_reads o n e end_ compressed : name_wf n -> encodes b o (labels n) e -> reads (p_name b end_ compressed) o n e.
Proof. intros Hn He. rewrite (name_eta n Hn). by apply name_reads. Qed.
(** The parser of a known kind. *)
Ltac known_kind :=
  repeat match goal with
  | |- context [mem (Zpos ?a) ?l] => let v := eval vm_compute in (mem (Zpos a) l) in change (mem (Zpos a) l) with v; cbv iota
  | |- context [Zpos ?a =? Zpos ?c] => let v := eval vm_compute in (Zpos a =? Zpos c) in change (Zpos a =? Zpos c) with v; cbn [andb orb negb]; cbv iota
  end.
Ltac split_holds :=
  repeat match goal with
  | H : holds _ _ (be16 _ ++ _) |- _ => apply holds_app in H as [? H]; change (len (be16 _)) with 2 in H
  | H : holds _ _ (be32 _ ++ _) |- _ => apply holds_app in H as [? H]; change (len (be32 _)) with 4 in H
  | H : holds _ _ ([?x; ?y] ++ _) |- _ => apply holds_app in H as [? H]; change (len [x; y]) with 2 in H
  | H : holds _ _ [?x; ?y] |- _ => apply holds_head in H as [? H]
  end.
Ltac at_here :=
  match goal with
  | H : holds _ ?o ?s |- holds _ ?o' _ => replace o' with o by lia; exact H
  | H : encodes _ ?o ?s ?e |- encodes _ ?o' _ _ => replace o' with o by lia; exact H
  end.
Ltac rd_step :=
  lazymatch goal with
  | |- reads (p_u8 _ _ ≫= _) _ _ _ => eapply reads_bind; [eapply u8_reads; at_here|]
  | |- reads (p_u16 _ _ ≫= _) _ _ _ => eapply reads_bind; [eapply u16_reads; [at_here|]; done|]
  | |- reads (p_u32 _ _ ≫= _) _ _ _ => eapply reads_bind; [eapply u32_reads; [at_here|]; done|]
  | |- reads (p_name _ _ _ ≫= _) _ _ _ => eapply reads_bind; [eapply wf_name_reads; [|at_here]; done|]
  | |- reads (p_rest _ _ ≫= _) _ _ _ => eapply reads_bind; [eapply rest_reads; [at_here|lia]|]
  | |- reads (p_take _ _ _ ≫= _) _ _ _ => eapply reads_bind; [eapply take_reads; [at_here|lia]|]
  | |- reads (if _ then throw _ else _) _ _ _ => apply reads_check; intros _
  | |- reads (mret _) _ _ _ => first [apply reads_ret | match goal with |- reads _ ?o _ ?e => replace e with o by lia; apply reads_ret end]
  end.
Ltac kinds := match goal with H : In ?k _ |- _ => cbn in H; decompose [or] H; subst; try done; known_kind end.
(** A step that gives [v] if it stops at [e]. *)
Definition reads_to {A} (m : MP A) (o : Z) (v : A) (e : Z) : Prop :=
  forall p a p', pr_at p = o -> m p = (Ok a, p') -> pr_at p' = e -> a = v.
Lemma reads_reads_to {A} (m : MP A) o v e : reads m o v e -> reads_to m o v e.
Proof. intros Hm p a p' Ho Hr _. by apply (Hm p a p'). Qed.
Lemma reads_still {A B} (m : MP A) (f : MP B) o v e : (forall p a p', m p = (Ok a, p') -> p' = p) -> reads f o v e -> reads (m ;; f) o v e.
Proof.
  intros Hm Hf p a p' Ho. cbv [mbind M_bind]. destruct (m p) as [[x|err|] p1] eqn:Hx; [|done|done]. apply Hm in Hx as ->. by apply Hf.
Qed.
Lemma digest_reads o s e n : holds b o s -> n = len s -> e = o + n -> reads (rd_digest b e n) o (RdBytes s) e.
Proof.
  intros Hs Hn ->. unfold rd_digest. rd_step. rd_step. apply reads_lift. intros b3 _. rd_step. rd_step.
Qed.
Lemma nsec3_reads kind o s e : holds b o s -> e = o + len s -> reads_to (rd_nsec3 b e kind) o (RdBytes s) e.
Proof.
  intros Hs -> p a p' <-. cbv [rd_nsec3 mbind M_bind get lift mret M_ret]. destruct (nsec3_fields b _ kind p) as [[u|err|] p1]; [|done|done].
  intros Hrun Hat. destruct (slice b (pr_at p) (pr_at p1)) as [x|err|] eqn:Hx; [|done|done]. injection Hrun as <- <-.
  rewrite Hat in Hx. apply slice_Ok in Hx as (_ & _ & ->). apply get_range_Some in Hs as (_ & _ & <-). done.
Qed.
Lemma reads_to_room {A} (f : Z -> MP A) o v e : (o <= e -> reads_to (f (e - o)) o v e) ->
  reads_to (p ← get; n ← lift (sub_chk e (pr_at p)); f n) o v e.
Proof.
  intros Hf p a p' Hp. cbv [mbind M_bind get lift]. destruct (sub_chk e (pr_at p)) as [n|err|] eqn:Hn; [|done|done].
  apply sub_chk_Ok in Hn as [-> Hle]. rewrite Hp in *. by apply Hf.
Qed.
Lemma data_reads kind o d e srv mdns : rdata_wf kind d -> data_at o d e -> reads_to (p_rdata b kind e srv mdns) o d e.
Proof.
  intros Hw Hd. unfold p_rdata. apply reads_to_room. intros Hle.
  destruct d; cbn [rdata_wf data_at] in Hw, Hd; destruct_and?; subst kind || idtac; [done|..].
  1-14: apply reads_reads_to.
  - replace (e - o) with 4 by lia. known_kind. by repeat rd_step.
  - replace (e - o) with 16 by lia. known_kind. by repeat rd_step.
  - kinds; unfold rd_name; by repeat rd_step.
  - known_kind. unfold rd_srv. split_holds. by repeat rd_step.
  - known_kind. unfold rd_txt. eapply reads_bind; [by apply strings_reads|]. by repeat rd_step.
  - kinds; unfold rd_preference; by repeat rd_step.
  - destruct Hd as (e1 & ? & ?). kinds; unfold rd_two_names; by repeat rd_step.
  - match goal with H : exists _, _ |- _ => destruct H as (e1 & ? & ?) end. known_kind. unfold rd_px. by repeat rd_step.
  - destruct Hd as (e1 & e2 & ? & ? & Hh & ->). known_kind. unfold rd_soa. split_holds. by repeat rd_step.
  - rewrite !len_app in *. change (len (be16 _)) with 2 in *. change (len [_; _]) with 2 in *. kinds; unfold rd_key; split_holds; by repeat rd_step.
  - destruct Hd as (e1 & Hh & ? & ? & ->). kinds; unfold rd_sig; split_holds; by repeat rd_step.
  - known_kind. eapply reads_bind; [by apply options_reads|]. by repeat rd_step.
  - destruct Hd as (e1 & ? & ? & ->). known_kind. unfold rd_nsec. repeat rd_step. apply reads_still; [|by repeat rd_step].
    intros p x p'. cbn. by destruct (bitmap_valid bitmap); [intros [= _ <-]|..].
  - destruct Hd as (e1 & ? & ? & ? & ->). kinds; unfold rd_svcb; repeat rd_step.
    1-2: eapply reads_bind; [by apply options_reads|]. 1-2: apply reads_still; [|by repeat rd_step].
    1-2: intros p x p'; destruct (priority =? 0); [by intros [= _ <-]|]; cbn; by destruct (svcb_valid params); [intros [= _ <-]|..].
  - replace (e - o) with (len b0) by lia. kinds; first [by apply nsec3_reads | apply reads_reads_to; apply digest_reads; (done || lia)].
  - done.
Qed.

Lemma encodes_pos o ls e : encodes b o ls e -> o < e.
Proof. induction 1; lia. Qed.
(** Typed data without a byte. *)
Definition is_nil {X} (l : list X) : bool := match l with [] => true | _ => false end.
Definition bare (d : Rdata) : bool := match d with RdOpt v => is_nil v | RdBytes s => is_nil s | _ => false end.
Lemma data_at_pos kind o d e : rdata_wf kind d -> data_at o d e -> bare d = false -> o < e.
Proof.
  intros Hw Hd Hbare. destruct d; cbn [rdata_wf data_at bare] in *; destruct_and?;
    repeat match goal with H : exists _, _ |- _ => destruct H end; destruct_and?;
    repeat match goal with H : encodes _ _ _ _ |- _ => apply encodes_pos in H end; subst; try done;
    repeat match goal with |- context [len ?s] => lazymatch goal with _ : 0 <= len s |- _ => fail | _ => pose proof (len_nonneg s) end end; try lia.
  - match goal with H : ?v <> [] |- _ => destruct v as [|s0 v0]; [done|] end. rewrite strings_wire_cons, len_app, len_cons. pose proof (len_nonneg s0). pose proof (len_nonneg (strings_wire v0)). lia.
  - rewrite !len_app. change (len (be16 flags)) with 2. change (len [protocol; algorithm]) with 2. pose proof (len_nonneg key). lia.
  - match goal with H : is_nil ?v = false |- _ => destruct v as [|[k0 s0] v0]; [done|] end. rewrite options_wire_cons, !len_app, !(len_be 2).
    pose proof (len_nonneg s0). pose proof (len_nonneg (options_wire v0)). lia.
  - match goal with H : is_nil ?v = false |- _ => destruct v as [|x0 s0]; [done|] end. rewrite len_cons. pose proof (len_nonneg s0). lia.
Qed.
Definition question_at (o : Z) (q : Question) (e : Z) : Prop := exists e1,
  encodes b o (labels (q_name q)) e1 /\ holds b e1 (be16 (q_kind q) ++ be16 (q_class q)) /\ e = e1 + 4.
Definition record_at (o : Z) (r : Rr) (e : Z) : Prop := exists e1,
  encodes b o (labels (r_name r)) e1 /\
  holds b e1 (be16 (r_kind r) ++ be16 (r_class r) ++ be32 (r_ttl r) ++ be16 (e - (e1 + 10))) /\
  is_u16 (e - (e1 + 10)) /\ data_at (e1 + 10) (r_data r) e.
Fixpoint list_at {X} (P : Z -> X -> Z -> Prop) (o : Z) (l : list X) (e : Z) : Prop :=
  match l with
  | [] => e = o
  | x :: l => exists m, P o x m /\ list_at P m l e
  end.
Lemma question_reads o q e : question_wf q -> question_at o q e -> reads (question b) o q e.
Proof. intros (Hn & Hk & Hc) (e1 & He & Hh & ->). unfold question. split_holds. destruct q as [n kind class]. cbn [q_name q_kind q_class] in *. by repeat rd_step. Qed.
Lemma questions_reads o qs e : Forall question_wf qs -> list_at question_at o qs e -> reads (questions_loop b (length qs)) o qs e.
Proof.
  intros Hqs. revert o. induction Hqs as [|q qs Hq _ IH]; intros o; cbn [list_at length questions_loop]; [intros ->; apply reads_ret|].
  intros (m & Hm & Hrest). eapply reads_bind; [by apply question_reads|]. eapply reads_bind; [by apply IH|]. apply reads_ret.
Qed.
(** A step whose result satisfies [Q]. *)
Definition reads_some {A} (m : MP A) (o : Z) (Q : A -> Prop) (e : Z) : Prop :=
  forall p a p', pr_at p = o -> m p = (Ok a, p') -> Q a /\ pr_at p' = e.
Lemma some_bind {A B} (m : MP A) (f : A -> MP B) o v e Q e' : reads m o v e -> reads_some (f v) e Q e' -> reads_some (m ≫= f) o Q e'.
Proof.
  intros Hm Hf p a p' Ho. cbv [mbind M_bind]. destruct (m p) as [[x|err|] p1] eqn:Hx; [|done|done].
  destruct (Hm p x p1 Ho Hx) as [-> H1]. by apply Hf.
Qed.
Lemma some_chain {A B} (m : MP A) (f : A -> MP B) o Q e R e' : reads_some m o Q e -> (forall a, Q a -> reads_some (f a) e R e') -> reads_some (m ≫= f) o R e'.
Proof.
  intros Hm Hf p a p' Ho. cbv [mbind M_bind]. destruct (m p) as [[x|err|] p1] eqn:Hx; [|done|done].
  destruct (Hm p x p1 Ho Hx) as [HQ H1]. by apply (Hf x HQ).
Qed.
Lemma some_get {A} (f : Parser -> MP A) o Q e : (forall p, pr_at p = o -> reads_some (f p) o Q e) -> reads_some (p ← get; f p) o Q e.
Proof. intros Hf p a p' Ho. cbv [mbind M_bind get]. by apply Hf. Qed.
Lemma some_check {A} (c : bool) err (m : MP A) o Q e : (c = false -> reads_some m o Q e) -> reads_some (if c then throw err else m) o Q e.
Proof. intros Hm. destruct c; [by intros p a p' Ho|by apply Hm]. Qed.
Lemma some_ret {A} (Q : A -> Prop) (v : A) o : Q v -> reads_some (mret v) o Q o.
Proof. intros Hv p a p' Ho [= <- <-]. by split. Qed.
Definition clear_of (flags : Z) (r : Rr) : Prop := deletion flags (r_class r) = true -> bare (r_data r) = false.
Lemma record_data_reads context flags kind class d o e :
  data_wf flags kind class d -> (deletion flags class = true -> bare d = false) -> data_at o d e ->
  reads (record_data b context flags kind class (e - o)) o d e.
Proof.
  intros Hw Hbare Hd p a p' Ho. cbv [record_data]. cbv [mbind M_bind get throw mret M_ret]. rewrite Ho. replace (o + (e - o)) with e by lia.
  destruct (is_update flags && (e - o =? 0) && ((class =? 254) || (class =? 255))) eqn:Hc.
  - apply andb_true_iff in Hc as [[Hu Hz%Z.eqb_eq]%andb_true_iff Hcl]. assert (e = o) as -> by lia. rewrite Ho, Z.eqb_refl. intros [= <- <-]. split; [|done].
    assert (deletion flags class = true) as Hdel by (unfold deletion; by rewrite Hu, Hcl). specialize (Hbare Hdel).
    destruct d; try done; exfalso; eapply data_at_pos in Hd; try done; lia.
  - destruct d; try (destruct (p_rdata b kind e _ _ p) as [[x|err|] p1] eqn:Hr; [|done|done]; destruct (Z.eqb_spec (pr_at p1) e) as [Hat|]; [|done];
      cbn [negb]; intros [= <- <-]; split; [|done]; by eapply data_reads).
    cbn in Hw, Hd. subst e. rewrite Z.sub_diag in Hc. unfold deletion in Hw. apply andb_true_iff in Hw as [Hu Hcl]. by rewrite Hu, Hcl in Hc.
Qed.
Lemma record_reads context flags section seen o r e : record_wf flags r -> clear_of flags r -> record_at o r e ->
  reads_some (record b context flags section seen) o (fun x => x.1.1 = r) e.
Proof.
  intros (Hn & Hk & Hcl & Ht & Hw) Hbare (e1 & He & Hh & Hu16 & Hd). destruct r as [n kind class ttl d]. unfold clear_of in Hbare. cbn [r_name r_kind r_class r_ttl r_data] in *. split_holds.
  unfold record. apply some_get. intros p _. 
  eapply some_bind; [by apply wf_name_reads|]. eapply some_bind; [by apply u16_reads|]. eapply some_bind; [by apply u16_reads|].
  apply some_get. intros p1 _. eapply some_bind; [by apply u32_reads|]. eapply some_bind; [by apply u16_reads|].
  apply some_get. intros p2 _. apply some_check. intros _. apply some_check. intros _.
  replace (e1 + 2 + 2 + 4 + 2) with (e1 + 10) by lia.
  eapply some_bind; [by apply record_data_reads|]. apply some_get. intros p3 _. by apply some_ret.
Qed.

Definition records_ok_for (flags : Z) (rs : list Rr) : Prop := Forall (record_wf flags) rs /\ Forall (clear_of flags) rs.
Lemma records_reads context flags section seen o rs e : records_ok_for flags rs -> list_at record_at o rs e ->
  reads_some (records_loop b context flags section (length rs) seen) o (fun x => x.1.1 = rs) e.
Proof.
  intros [Hw Hc]. revert o seen Hc. induction Hw as [|r rs Hr _ IH]; intros o seen Hc; cbn [list_at length records_loop];
    [intros ->; by apply some_ret|].
  apply Forall_cons_iff in Hc as [Hc0 Hc]. intros (m & Hm & Hrest). eapply some_chain; [by apply record_reads|].
  intros [[r' span] seen'] Hr'. cbn in Hr'. subst r'. eapply some_chain; [by apply IH|]. intros [[rs' spans] seen''] Hrs'. cbn in Hrs'. subst rs'.
  by apply some_ret.
Qed.
(** The same message, apart from the wire it was parsed from. *)
Definition same_message (m m' : Message) : Prop :=
  m_id m' = m_id m /\ m_flags m' = m_flags m /\ m_questions m' = m_questions m /\
  m_answers m' = m_answers m /\ m_authority m' = m_authority m /\ m_additional m' = m_additional m.
Definition message_at (m : Message) : Prop :=
  holds b 0 (be16 (m_id m) ++ be16 (m_flags m) ++ be16 (len (m_questions m)) ++ be16 (len (m_answers m)) ++
             be16 (len (m_authority m)) ++ be16 (len (m_additional m))) /\
  exists e1 e2 e3 e4, list_at question_at 12 (m_questions m) e1 /\ list_at record_at e1 (m_answers m) e2 /\
    list_at record_at e2 (m_authority m) e3 /\ list_at record_at e3 (m_additional m) e4.
Lemma sections_reads context m p m' p' : message_wf m -> Forall (clear_of (m_flags m)) (m_answers m ++ m_authority m ++ m_additional m) ->
  message_at m -> pr_at p = 12 ->
  sections b context (m_id m) (m_flags m) (len (m_questions m)) (len (m_answers m)) (len (m_authority m)) (len (m_additional m)) p = (Ok m', p') ->
  same_message m m'.
Proof.
  intros [_ _ Hq Hr] Hc (_ & e1 & e2 & e3 & e4 & H1 & H2 & H3 & H4) Hp Hrun.
  rewrite !List.Forall_app in Hr, Hc. destruct Hr as (R1 & R2 & R3), Hc as (C1 & C2 & C3).
  assert (reads_some (sections b context (m_id m) (m_flags m) (len (m_questions m)) (len (m_answers m)) (len (m_authority m)) (len (m_additional m)))
    12 (same_message m) e4) as Hs; [|by destruct (Hs p m' p' Hp Hrun)].
  unfold sections, len. rewrite !Nat2Z.id. eapply some_bind; [by apply questions_reads|].
  eapply some_chain; [by apply records_reads|]. intros [[r1 s1] o1] E1. eapply some_chain; [by apply records_reads|]. intros [[r2 s2] o2] E2.
  eapply some_chain; [by apply records_reads|]. intros [[r3 s3] o3] E3. apply some_get. intros p1 _. apply some_check. intros _.
  apply some_ret. cbn in *. by subst.
Qed.
Lemma u16at_holds o x : holds b o (be16 x) -> is_u16 x -> u16at b o = Ok x.
Proof.
  intros Hh Hx. unfold holds in Hh. change (len (be16 x)) with 2 in Hh. unfold u16at. rewrite Hh. cbn [ok_or mbind outcome_bind].
  unfold be16. rewrite of_be_be_small by u_lia. done.
Qed.
Lemma parse_reads context m m' : message_wf m -> Forall (clear_of (m_flags m)) (m_answers m ++ m_authority m ++ m_additional m) ->
  is_u16 (len (m_questions m)) -> is_u16 (len (m_answers m)) -> is_u16 (len (m_authority m)) -> is_u16 (len (m_additional m)) ->
  message_at m -> parse b context = Ok m' -> same_message m m'.
Proof.
  intros Hw Hc N0 N1 N2 N3 Hm Hrun. pose proof Hm as [Hh _]. split_holds. destruct Hw as [Wid Wfl Wq Wr] eqn:E. clear E.
  unfold parse in Hrun. destruct (_ || _); [done|].
  rewrite (u16at_holds 4 _ ltac:(eassumption) N0), (u16at_holds 6 _ ltac:(eassumption) N1), (u16at_holds 8 _ ltac:(eassumption) N2),
    (u16at_holds 10 _ ltac:(eassumption) N3) in Hrun. cbn [mbind outcome_bind] in Hrun. destruct (_ || _); [done|].
  rewrite (u16at_holds 0 _ ltac:(eassumption) Wid), (u16at_holds 2 _ ltac:(eassumption) Wfl) in Hrun. cbn [mbind outcome_bind] in Hrun.
  destruct (sections _ _ _ _ _ _ _ _ _) as [[m''|err|] p'] eqn:Hs; [|done|done]. injection Hrun as ->.
  eapply sections_reads; [exact Hw|exact Hc|exact Hm| |exact Hs]. done.
Qed.
End reading.
