(* ===== verification/DnsEncode.v ===== *)
(** The DNS encoder: what it writes is what the parser reads. *)

From S2P Require Import Prelude Effects Maps DnsWire DnsFacts DnsRoundtrip.

(** ** Writing

    A writer step depends on the buffer only through its length ([uniform]), so the
    length of a record can be filled in afterwards.  [writes m P]: the bytes [m] appends
    between [o] and [e] satisfy [P], and the dictionary stays sound. *)

Definition uniform {A} (m : MW A) : Prop := forall w a w', m w = (Ok a, w') ->
  exists x, w_out w' = w_out w ++ x /\
    forall out, len out = len (w_out w) -> m (mkWriter (w_dictionary w) out) = (Ok a, mkWriter (w_dictionary w') (out ++ x)).

Lemma uniform_ret {A} (a : A) : uniform (mret a).
Proof. intros w a' w' [= <- <-]. exists []. rewrite app_nil_r. split; [done|]. intros out _. by rewrite app_nil_r. Qed.
Lemma uniform_throw {A} e : uniform (throw e : MW A).
Proof. by intros w a w'. Qed.
Lemma uniform_lift {A} (m : outcome io_error A) : uniform (lift m).
Proof.
  intros w a w'. cbn. destruct m as [x|e|]; [|done|done]. intros [= <- <-]. exists []. rewrite app_nil_r. split; [done|]. intros out _. by rewrite app_nil_r.
Qed.
Lemma uniform_emit s : uniform (emit s).
Proof. intros w a w' [= <- <-]. by exists s. Qed.
Lemma uniform_bind {A B} (m : MW A) (f : A -> MW B) : uniform m -> (forall a, uniform (f a)) -> uniform (m ≫= f).
Proof.
  intros Hm Hf w a w'. cbv [mbind M_bind]. destruct (m w) as [[x|e|] w1] eqn:Hx; [|done|done]. intros Hr.
  destruct (Hm _ _ _ Hx) as (s & Hs & Hs2). destruct (Hf x _ _ _ Hr) as (t & Ht & Ht2). exists (s ++ t). split; [by rewrite Ht, Hs, <-app_assoc|].
  intros out Hout. rewrite Hs2 by done. cbv iota beta.
  rewrite Ht2 by (rewrite Hs, !len_app; lia). by rewrite <-app_assoc.
Qed.
Lemma uniform_get {A} (f : Writer -> MW A) : (forall d o1 o2, len o1 = len o2 -> f (mkWriter d o1) = f (mkWriter d o2)) ->
  (forall w, uniform (f w)) -> uniform (w ← get; f w).
Proof.
  intros Hd Hf [d o] a w' Hr. cbv [mbind M_bind get] in Hr. destruct (Hf _ _ _ _ Hr) as (x & Hx & Hx2). exists x. split; [done|].
  intros out Hout. cbn [w_out w_dictionary] in *. cbv [mbind M_bind get]. rewrite (Hd d out o) by done. by apply Hx2.
Qed.
Lemma uniform_dictionary (g : Dictionary -> Z -> Dictionary) :
  uniform (modify (fun w => mkWriter (g (w_dictionary w) (len (w_out w))) (w_out w))).
Proof. intros [d o] a w' [= <- <-]. exists []. cbn. rewrite app_nil_r. split; [done|]. intros out Hout. unfold modify. cbn [w_out w_dictionary] in *. by rewrite Hout, app_nil_r. Qed.
Lemma uniform_if {A} (c : bool) (m1 m2 : MW A) : uniform m1 -> uniform m2 -> uniform (if c then m1 else m2).
Proof. by destruct c. Qed.
Ltac uniform_tac :=
  repeat lazymatch goal with
  | |- uniform (mret _) => apply uniform_ret
  | |- uniform (throw _) => apply uniform_throw
  | |- uniform (lift _) => apply uniform_lift
  | |- uniform (emit _) => apply uniform_emit
  | |- uniform (get ≫= _) => apply uniform_get; [let H := fresh in intros ? ? ? H; cbn [w_out w_dictionary]; rewrite ?H; reflexivity|intros ?]
  | |- uniform (_ ≫= _) => apply uniform_bind; [|intros ?]
  | |- uniform (if _ then _ else _) => apply uniform_if
  | |- uniform (modify _) => first [apply (uniform_dictionary (fun d n => mkDictionary (<[_ := n mod 65536]> (d_entries d)) (d_bytes d + _)))]
  end.
Lemma write_labels_uniform fuel wire at_ : uniform (write_labels fuel wire at_).
Proof.
  revert at_. induction fuel as [|fuel IH]; intros at_; cbn [write_labels]; [apply uniform_lift|].
  uniform_tac. destruct (d_entries _ !! _) as [off|]; uniform_tac. apply IH.
Qed.
Lemma write_name_uniform n : uniform (write_name n).
Proof. unfold write_name. apply uniform_bind; [apply write_labels_uniform|]. intros done. uniform_tac. Qed.
Lemma write_plain_uniform n : uniform (write_plain n).
Proof. apply uniform_emit. Qed.
Lemma write_strings_uniform v : uniform (write_strings v).
Proof. induction v as [|s v IH]; cbn [write_strings]; uniform_tac. apply IH. Qed.
Lemma write_options_uniform v : uniform (write_options v).
Proof. induction v as [|[k s] v IH]; cbn [write_options]; uniform_tac. apply IH. Qed.
Lemma write_data_uniform wn d : (forall n, uniform (wn n)) -> uniform (write_data_with wn d).
Proof.
  intros Hwn. unfold write_data_with. apply uniform_bind; [|intros []; uniform_tac].
  destruct d; uniform_tac; first [apply Hwn | apply write_strings_uniform | apply write_options_uniform | apply write_plain_uniform].
Qed.

(** ** The dictionary *)

Lemma wire_inj ls ls' : Forall label_ok ls -> Forall label_ok ls' -> wire_of ls = wire_of ls' -> ls = ls'.
Proof.
  intros H. revert ls'. induction H as [|l ls [_ Hl] _ IH]; intros ls' H' E.
  - destruct H' as [|l' ls' [_ Hl'] _]; [done|]. rewrite wire_cons, Z.mod_small in E by lia. injection E. lia.
  - destruct H' as [|l' ls' [_ Hl'] H']; [rewrite wire_cons, Z.mod_small in E by lia; injection E; lia|].
    rewrite !wire_cons, !Z.mod_small in E by lia. injection E as El E. assert (length l = length l') as Hlen by (unfold len in El; lia).
    apply app_inj_1 in E as [-> E]; [|done]. f_equal. by apply IH.
Qed.
(** Entries point at their names. *)
Definition entry_ok (b : bytes) (ls : list bytes) (off : Z) : Prop := 0 <= off < 16384 /\ exists e, encodes b off ls e.
Definition dict_ok (D : Dictionary) (b : bytes) : Prop :=
  forall ls off, Forall label_ok ls -> d_entries D !! wire_of ls = Some off -> entry_ok b ls off.
Lemma entry_extend b ls off x : entry_ok b ls off -> entry_ok (b ++ x) ls off.
Proof. intros [Ho [e He]]. split; [done|]. exists e. by apply encodes_extend. Qed.
Lemma dict_extend D b x : dict_ok D b -> dict_ok D (b ++ x).
Proof. intros Hd ls off Hl Ho. by apply entry_extend, Hd. Qed.
Lemma holds_end a s : holds (a ++ s) (len a) s.
Proof. replace (a ++ s) with (a ++ s ++ []) by (by rewrite app_nil_r). by apply holds_split. Qed.
Lemma pointer_bytes off : 0 <= off < 16384 -> exists c0 c1, be16 (Z.lor 0xc000 off) = [c0; c1] /\ 192 <= c0 <= 255 /\
  Z.lor (Z.shiftl (Z.land c0 63) 8) c1 = off.
Proof.
  intros Ho. assert (Z.lor 0xc000 off = 0xc000 + off) as ->.
  { change 0xc000 with (Z.shiftl 3 14). rewrite lor_shiftl by lia. by rewrite Z.shiftl_mul_pow2 by lia. }
  exists (192 + off / 256), (off mod 256). split; [|split].
  - unfold be16. cbn [be]. change (256 ^ Z.of_nat 1) with 256. change (256 ^ Z.of_nat 0) with 1. rewrite Z.div_1_r.
    assert ((0xc000 + off) / 256 mod 256 = 192 + off / 256) as -> by div_lia.
    assert ((0xc000 + off) mod 256 = off mod 256) as -> by div_lia. done.
  - div_lia.
  - assert (Z.land (192 + off / 256) 63 = off / 256) as ->.
    { change 63 with (Z.ones 6). rewrite Z.land_ones by lia. change (2 ^ 6) with 64. div_lia. }
    rewrite lor_shiftl by (lia || apply Z.mod_pos_bound; lia). pose proof (Z.div_mod off 256). lia.
Qed.
(** The entries that the labels still to be written can match. *)
Definition short_ok (n : Z) (D : Dictionary) (b : bytes) : Prop :=
  forall ls off, Forall label_ok ls -> len (wire_of ls) <= n -> d_entries D !! wire_of ls = Some off -> entry_ok b ls off.
(** All entries, once these labels are there. *)
Definition pending_ok (ls : list bytes) (D : Dictionary) (out : bytes) : Prop :=
  forall r e, encodes (out ++ r) (len out) ls e -> dict_ok D (out ++ r).
Lemma len_wire_pos ls : 1 <= len (wire_of ls).
Proof. unfold wire_of. rewrite len_app. change (len [0]) with 1. pose proof (len_nonneg (concat (map (λ l, len l mod 256 :: l) ls))). lia. Qed.
Lemma write_labels_ok ls : Forall label_ok ls -> forall pre fuel D out (fin : bool) w',
  write_labels fuel (pre ++ wire_of ls) (len pre) (mkWriter D out) = (Ok fin, w') ->
  short_ok (len (wire_of ls)) D out -> pending_ok ls D out ->
  exists x, w_out w' = out ++ x /\
    let x' := x ++ (if fin then [] else [0]) in
    encodes (out ++ x') (len out) ls (len out + len x') /\ dict_ok (w_dictionary w') (out ++ x').
Proof.
  induction 1 as [|l ls Hl Hls IH]; intros pre fuel D out fin w' Hrun Hshort Hpend; (destruct fuel as [|fuel]; [done|]);
    cbn [write_labels] in Hrun; cbv [mbind M_bind lift get mret M_ret throw] in Hrun.
  - change (wire_of []) with [0] in Hrun. rewrite (idx_mid pre 0 []) in Hrun by done. cbn [Z.eqb] in Hrun. injection Hrun as <- <-.
    exists []. cbn [w_out w_dictionary app]. rewrite app_nil_r. split; [done|]. assert (encodes (out ++ [0]) (len out) [] (len out + 1)) as He
      by (apply enc_root, holds_end). split; [exact He|]. exact (Hpend _ _ He).
  - destruct Hl as [Hlb Hlen]. rewrite wire_cons in Hrun. rewrite Z.mod_small in Hrun by lia.
    rewrite <-app_comm_cons, (idx_mid pre (len l)) in Hrun by done. destruct (Z.eqb_spec (len l) 0); [lia|].
    assert (wire_of (l :: ls) = len l :: l ++ wire_of ls) as Hw by (rewrite wire_cons, Z.mod_small by lia; done).
    rewrite <-Hw in Hrun. rewrite (slice_from_app pre (wire_of (l :: ls))) in Hrun by done.
    destruct (d_entries _ !! wire_of (l :: ls)) as [off|] eqn:Hoff.
    + destruct (_ <? _); [done|]. injection Hrun as <- <-. cbn [w_out w_dictionary emit modify]. eexists. split; [reflexivity|]. cbn zeta.
      rewrite app_nil_r. destruct (Hshort (l :: ls) off) as [Hb [e He]]; [by constructor; [split|]|done|done|].
      destruct (pointer_bytes off Hb) as (c0 & c1 & -> & Hc & Ht). 
      assert (encodes (out ++ [c0; c1]) (len out) (l :: ls) (len out + 2)) as Henc.
      { apply (enc_pointer _ _ c0 c1 _ e); [done|apply holds_end|]. rewrite Ht. by apply encodes_extend. }
      split; [exact Henc|]. exact (Hpend _ _ Henc).
    + destruct (sub_chk _ _) as [room|?|]; [|done|done].
      set (out1 := out ++ len l :: l). assert (len out1 = len out + (1 + len l)) as Hout1 by (unfold out1; by rewrite len_app, len_cons).
      assert (pre ++ wire_of (l :: ls) = (pre ++ len l :: l) ++ wire_of ls) as Hpre by (rewrite Hw, <-app_assoc; done).
      assert (forall D1 wr, short_ok (len (wire_of ls)) D1 out1 -> pending_ok ls D1 out1 ->
        write_labels fuel (pre ++ wire_of (l :: ls)) (len pre + (len l + 1)) (mkWriter D1 out1) = (Ok fin, wr) ->
        exists x, w_out wr = out ++ x /\ let x' := x ++ (if fin then [] else [0]) in
          encodes (out ++ x') (len out) (l :: ls) (len out + len x') /\ dict_ok (w_dictionary wr) (out ++ x')) as Hrest.
      { intros D1 wr Hs1 Hp1 Hr1. rewrite Hpre in Hr1. replace (len pre + (len l + 1)) with (len (pre ++ len l :: l)) in Hr1 by (rewrite len_app, len_cons; lia).
        destruct (IH _ _ _ _ _ _ Hr1 Hs1 Hp1) as (x & Hx & He & Hd). exists ((len l :: l) ++ x). cbn zeta in *.
        unfold out1 in Hx, He, Hd. rewrite <-!app_assoc in Hx, He, Hd. rewrite <-!app_assoc. split; [exact Hx|]. split; [|exact Hd].
        replace (len out + len ((len l :: l) ++ x ++ (if fin then [] else [0]))) with (len (out ++ len l :: l) + len (x ++ (if fin then [] else [0])))
          by (rewrite !len_app, !len_cons; lia).
        apply enc_label; [done|by apply (holds_split out (len l :: l))|].
        replace (len out + (1 + len l)) with (len (out ++ len l :: l)) by (rewrite len_app, len_cons; lia). exact He. }
      assert (forall r e, encodes (out1 ++ r) (len out1) ls e -> encodes (out1 ++ r) (len out) (l :: ls) e) as Hhead.
      { intros r e He. apply enc_label; [done| |by rewrite <-Hout1]. unfold out1. rewrite <-app_assoc. by apply (holds_split out (len l :: l)). }
      assert (short_ok (len (wire_of ls)) D out1) as Hs1.
      { intros ls2 off H2 Hle Hlk. apply entry_extend. apply (Hshort ls2 off H2); [|done]. rewrite Hw, len_cons, len_app. pose proof (len_nonneg l). lia. }
      assert (pending_ok ls D out1) as Hp1.
      { intros r e He. apply Hhead in He. unfold out1 in *. rewrite <-app_assoc in *. exact (Hpend _ _ He). }
      assert (slice (E:=io_error) (pre ++ wire_of (l :: ls)) (len pre) (len pre + (len l + 1)) = Ok (len l :: l)) as Hslice.
      { rewrite Hw. apply (slice_mid pre (len l :: l) (wire_of ls)); [done|rewrite len_cons; lia]. }
      rewrite Hslice in Hrun. cbn [w_out w_dictionary] in Hrun.
      destruct (_ && _ && (len out <? 0x4000)) eqn:Hroom; cbn [modify w_out w_dictionary] in Hrun; (destruct (MAX_WIRE <? _); [done|]);
        cbn [emit modify w_out w_dictionary] in Hrun; [|exact (Hrest D w' Hs1 Hp1 Hrun)].
      apply andb_true_iff in Hroom as [_ Hout%Z.ltb_lt].
      eapply (Hrest _ w'); [| |exact Hrun].
      * intros ls2 off H2 Hle Hlk. cbn [d_entries] in Hlk. rewrite lookup_insert_ne in Hlk; [by apply Hs1|].
        intros E. rewrite <-E, Hw, len_cons, len_app in Hle. pose proof (len_nonneg l). lia.
      * intros r e He ls2 off H2 Hlk. cbn [d_entries] in Hlk. apply lookup_insert_Some in Hlk as [[E <-]|[_ Hlk]]; [|by apply (Hp1 r e He)].
        apply wire_inj in E; [|by constructor; [split|]|done]. subst ls2. pose proof (len_nonneg out). rewrite Z.mod_small by lia. split; [lia|].
        exists e. by apply Hhead.
Qed.

(** ** Steps of the writer *)

Definition region := bytes -> Z -> Z -> Prop.
Definition stable (P : region) : Prop := forall b y o e, P b o e -> P (b ++ y) o e.
Definition writes {A} (m : MW A) (P : region) : Prop := forall D out a w', dict_ok D out -> m (mkWriter D out) = (Ok a, w') ->
  exists x, w_out w' = out ++ x /\ dict_ok (w_dictionary w') (out ++ x) /\ P (out ++ x) (len out) (len out + len x).
Definition bytes_at (s : bytes) : region := fun b o e => holds b o s /\ e = o + len s.
Definition name_at (n : Name) : region := fun b o e => encodes b o (labels n) e.
Definition then_at (P Q : region) : region := fun b o e => exists m, P b o m /\ Q b m e.
Definition nothing_at : region := fun _ o e => e = o.

Lemma bytes_stable s : stable (bytes_at s).
Proof. intros b y o e [Hh ->]. split; [by apply holds_extend|done]. Qed.
Lemma name_stable n : stable (name_at n).
Proof. intros b y o e He. by apply encodes_extend. Qed.
Lemma then_stable P Q : stable P -> stable Q -> stable (then_at P Q).
Proof. intros HP HQ b y o e (m & H1 & H2). exists m. split; [by apply HP|by apply HQ]. Qed.
Lemma nothing_stable : stable nothing_at.
Proof. by intros b y o e. Qed.
Lemma writes_ret {A} (a : A) : writes (mret a) nothing_at.
Proof. intros D out x w' Hd [= _ <-]. exists []. cbn [w_out w_dictionary]. rewrite app_nil_r. split; [done|]. split; [done|]. unfold nothing_at. change (len []) with 0. lia. Qed.
Lemma writes_throw {A} e P : writes (throw e : MW A) P.
Proof. by intros D out x w' Hd. Qed.
Lemma writes_emit s : writes (emit s) (bytes_at s).
Proof. intros D out a w' Hd [= _ <-]. exists s. cbn [w_out w_dictionary]. split; [done|]. split; [by apply dict_extend|]. split; [apply holds_end|done]. Qed.
Lemma writes_seq {A B} (m1 : MW A) (m2 : MW B) P Q : stable P -> writes m1 P -> writes m2 Q -> writes (m1 ;; m2) (then_at P Q).
Proof.
  intros HP H1 H2 D out b w' Hd. cbv [mbind M_bind]. destruct (m1 (mkWriter D out)) as [[a|e|] [D1 out1]] eqn:Hm; [|done|done]. intros Hr.
  destruct (H1 _ _ _ _ Hd Hm) as (x & Hx & Hd1 & Hp). cbn [w_out w_dictionary] in *. subst out1.
  destruct (H2 _ _ _ _ Hd1 Hr) as (y & Hy & Hd2 & Hq). exists (x ++ y). rewrite app_assoc. split; [done|]. split; [done|].
  exists (len out + len x). split; [by apply HP|]. rewrite !len_app in *. by rewrite Z.add_assoc.
Qed.
Lemma writes_weaken {A} (m : MW A) (P Q : region) : writes m P -> (forall b o e, P b o e -> Q b o e) -> writes m Q.
Proof. intros Hm HPQ D out a w' Hd Hr. destruct (Hm _ _ _ _ Hd Hr) as (x & ? & ? & ?). exists x. split; [done|]. split; [done|]. by apply HPQ. Qed.
(** A check at the end. *)
Lemma writes_check {A} (m : MW A) P (c : Writer -> bool) e : writes m P -> writes (m ;; w ← get; if c w then throw e else mret tt) P.
Proof.
  intros Hm D out b w' Hd. cbv [mbind M_bind get throw mret M_ret]. destruct (m (mkWriter D out)) as [[a|err|] w1] eqn:Hr; [|done|done].
  destruct (c w1); [done|]. intros [= _ <-]. by eapply Hm.
Qed.
Lemma write_name_ok n : name_wf n -> writes (write_name n) (name_at n).
Proof.
  intros [[Hl _] _] D out a w' Hd. cbv [write_name mbind M_bind get throw mret M_ret].
  destruct (write_labels _ _ _ _) as [[fin|e|] w1] eqn:Hr; [|done|done].
  apply (write_labels_ok _ Hl []) in Hr as (x & Hx & He & Hd'); cbn zeta in *.
  - destruct fin; [rewrite app_nil_r in *; intros [= _ <-]; by exists x|]. destruct (_ =? _); [done|]. intros [= _ <-]. cbn [w_out w_dictionary emit modify].
    exists (x ++ [0]). rewrite Hx, <-app_assoc. split; [done|]. split; [done|]. exact He.
  - intros ls off Hls _ Hlk. by apply Hd.
  - intros r e _. by apply dict_extend.
Qed.
Lemma write_plain_ok n : name_wf n -> writes (write_plain n) (name_at n).
Proof.
  intros [[Hl _] _]. eapply writes_weaken; [apply writes_emit|]. intros b o e [Hh ->]. unfold name_at. change (name_wire n) with (wire_of (labels n)) in *.
  by apply wire_encodes.
Qed.
Lemma holds_join b o s t : holds b o s -> holds b (o + len s) t -> holds b o (s ++ t).
Proof.
  unfold holds. rewrite !get_range_Some, len_app. intros (H1 & H2 & H3) (H4 & H5 & H6). split; [lia|]. split; [lia|].
  rewrite H3 at 1. rewrite H6 at 1. unfold sub. replace (o + len s - o) with (len s) by lia. replace (o + len s + len t - (o + len s)) with (len t) by lia.
  replace (o + (len s + len t) - o) with (len s + len t) by lia. pose proof (len_nonneg s). pose proof (len_nonneg t).
  rewrite (Z2Nat.inj_add (len s)) by lia. rewrite <-take_take_drop. f_equal. rewrite drop_drop. do 2 f_equal. lia.
Qed.

Lemma bytes_join s t b o e : then_at (bytes_at s) (bytes_at t) b o e -> bytes_at (s ++ t) b o e.
Proof. intros (m & [H1 ->] & [H2 ->]). split; [by apply holds_join|rewrite len_app; lia]. Qed.
Lemma writes_bytes {A B} (m1 : MW A) (m2 : MW B) s t : writes m1 (bytes_at s) -> writes m2 (bytes_at t) -> writes (m1 ;; m2) (bytes_at (s ++ t)).
Proof. intros H1 H2. eapply writes_weaken; [eapply writes_seq; [apply bytes_stable|exact H1|exact H2]|]. intros. by apply bytes_join. Qed.
Lemma writes_if {A} (c : bool) e (m : MW A) P : writes m P -> writes (if c then throw e else m) P.
Proof. intros Hm. destruct c; [apply writes_throw|done]. Qed.
Lemma writes_nil {A} (a : A) : writes (mret a) (bytes_at []).
Proof.
  intros D out x w' Hd [= _ <-]. exists []. cbn [w_out w_dictionary]. split; [by rewrite app_nil_r|]. split; [by rewrite app_nil_r|].
  split; [apply holds_end|done].
Qed.
Lemma write_strings_ok v : writes (write_strings v) (bytes_at (strings_wire v)).
Proof.
  induction v as [|s v IH]; cbn [write_strings]; [apply writes_nil|]. apply writes_if. rewrite strings_wire_cons.
  change ((len s mod 256 :: s) ++ strings_wire v) with ([len s mod 256] ++ s ++ strings_wire v).
  apply writes_bytes; [apply writes_emit|]. by apply writes_bytes; [apply writes_emit|].
Qed.
Lemma write_options_ok v : writes (write_options v) (bytes_at (options_wire v)).
Proof.
  induction v as [|[k s] v IH]; cbn [write_options]; [apply writes_nil|]. apply writes_if. rewrite options_wire_cons, <-!app_assoc.
  do 3 (apply writes_bytes; [apply writes_emit|]). exact IH.
Qed.
(** What a writer of names must do. *)
Definition names_ok (wn : Name -> MW unit) : Prop := forall n, name_wf n -> writes (wn n) (name_at n).
Ltac writes_tac :=
  repeat lazymatch goal with
  | |- writes (emit _ ;; _) _ => eapply writes_seq; [apply bytes_stable|apply writes_emit|]
  | |- writes (emit _) _ => apply writes_emit
  | |- writes (write_plain _ ;; _) _ => eapply writes_seq; [apply name_stable|by apply write_plain_ok|]
  | |- writes (write_options _) _ => apply write_options_ok
  | |- writes (write_strings _) _ => apply write_strings_ok
  | H : names_ok ?wn |- writes (?wn _ ;; _) _ => eapply writes_seq; [apply name_stable|by apply H|]
  | H : names_ok ?wn |- writes (?wn _) _ => by apply H
  end.
(** Consecutive bytes as one string. *)
Ltac join_tac :=
  repeat match goal with
  | H : then_at _ _ _ _ _ |- _ => let m := fresh "m" in destruct H as (m & ? & ?)
  | H : bytes_at _ _ _ _ |- _ => let E := fresh "E" in destruct H as [? E]; rewrite ?(len_be 2), ?(len_be 4) in E; try change (len [_; _]) with 2 in E; subst
  end.
Ltac gather :=
  repeat first
    [ match goal with
      | H : holds ?b ?o ?s |- holds ?b ?o' ?s => replace o' with o by lia; exact H
      | H : name_at ?n ?b ?o ?e |- encodes ?b ?o' (labels ?n) ?e' => replace o' with o by lia; first [is_evar e'; exact H|replace e' with e by lia; exact H]
      end
    | apply holds_join; rewrite ?(len_be 2), ?(len_be 4); try change (len [_; _]) with 2
    | lia ].
Lemma write_data_ok wn kind d : names_ok wn -> rdata_wf kind d -> writes (write_data_with wn d) (fun b o e => data_at b o d e).
Proof.
  intros Hwn Hw. unfold write_data_with. apply (writes_check _ _ (fun w => MAX_WIRE <? len (w_out w))).
  destruct d; cbn [rdata_wf] in Hw; destruct_and?; try done; (eapply writes_weaken; [writes_tac|]); intros bb oo ee Hat; cbn [data_at].
  - by destruct Hat.
  - by destruct Hat.
  - done.
  - join_tac. split; gather.
  - by destruct Hat.
  - join_tac. split; gather.
  - join_tac. eexists. split; gather.
  - join_tac. split; [gather|]. eexists. split; gather.
  - join_tac. eexists _, _. split; [gather|]. split; [gather|]. split; gather.
  - join_tac. split; [gather|]. rewrite !len_app, !(len_be 2). change (len [protocol; algorithm]) with 2. lia.
  - join_tac. eexists. split; [gather|]. split; [gather|]. split; gather.
  - by destruct Hat.
  - join_tac. eexists. split; [gather|]. split; gather.
  - join_tac. eexists. split; [gather|]. split; [gather|]. split; gather.
  - by destruct Hat.
Qed.

(** ** Records: the length is filled in once the data is there *)

Lemma put_mid a s t c : len s = len t -> put (a ++ s ++ c) (len a) t = a ++ t ++ c.
Proof.
  intros Hst. unfold put. assert (Z.to_nat (len a) = length a) as -> by (unfold len; lia). rewrite take_app_length. do 2 f_equal.
  replace (Z.to_nat (len a + len t)) with (length (a ++ s)) by (rewrite length_app; unfold len in *; lia). by rewrite app_assoc, drop_app_length.
Qed.
Lemma sized_ok (m : MW unit) (P : region) : uniform m -> writes m P ->
  writes (w ← get;
          let at_ := len (w_out w) in
          emit [0; 0] ;;
          w ← get;
          let start := len (w_out w) in
          m ;;
          w ← get;
          if MAX_WIRE <? len (w_out w) then throw InvalidData else
          n ← lift (sub_chk (len (w_out w)) start);
          out ← lift (copy_at (w_out w) at_ (be16 (n mod 65536)));
          modify (fun w => mkWriter (w_dictionary w) out))
         (fun b o e => holds b o (be16 (e - (o + 2))) /\ is_u16 (e - (o + 2)) /\ P b (o + 2) e).
Proof.
  intros Hu Hm D out a w' Hd. cbv [mbind M_bind get throw lift mret M_ret emit modify]. cbn [w_out w_dictionary].
  destruct (m (mkWriter D (out ++ [0; 0]))) as [[u|e|] w1] eqn:Hr; [|done|done]. destruct (Hu _ _ _ Hr) as (x & Hx & Hreplay). cbn [w_out w_dictionary] in *.
  destruct (Z.ltb_spec MAX_WIRE (len (w_out w1))) as [|Hmax]; [done|]. rewrite Hx in *. rewrite !len_app in *. change (len [0; 0]) with 2 in *.
  pose proof (len_nonneg x). pose proof (len_nonneg out). unfold MAX_WIRE in Hmax.
  destruct (sub_chk _ _) as [n|e|] eqn:Hn; [|done|done]. apply sub_chk_Ok in Hn as [-> _].
  replace (len out + 2 + len x - (len out + 2)) with (len x) by lia. rewrite Z.mod_small by lia.
  destruct (copy_at _ _ _) as [b|e|] eqn:Hc; [|done|done]. apply copy_at_Ok in Hc as (_ & _ & ->). intros [= _ <-]. cbn [w_out w_dictionary].
  rewrite <-app_assoc, put_mid by done. specialize (Hreplay (out ++ be16 (len x)) ltac:(by rewrite !len_app)).
  destruct (Hm D (out ++ be16 (len x)) u _ (dict_extend _ _ _ Hd) Hreplay) as (x' & Hx' & Hd' & HP). cbn [w_out w_dictionary] in *.
  apply app_inv_head in Hx' as <-. rewrite !len_app, (len_be 2), <-app_assoc in *. change (Z.of_nat 2) with 2 in *.
  exists (be16 (len x) ++ x). split; [done|]. split; [done|]. rewrite len_app, (len_be 2). change (Z.of_nat 2) with 2.
  replace (len out + (2 + len x) - (len out + 2)) with (len x) by lia. split; [by apply holds_split|]. split; [u_lia|].
  by rewrite Z.add_assoc.
Qed.
Lemma name_writer_ok context : names_ok (name_writer context).
Proof. intros n Hn. unfold name_writer. destruct (decide _); [by apply write_name_ok|by apply write_plain_ok]. Qed.
Definition data_writer (context : Context) (kind : Z) (d : Rdata) : MW unit :=
  if bool_decide (context = Mdns) && mem kind compressible then write_data_with write_name d else write_data d.
Lemma data_writer_uniform context kind d : uniform (data_writer context kind d).
Proof. unfold data_writer, write_data. apply uniform_if; apply write_data_uniform; [apply write_name_uniform|apply write_plain_uniform]. Qed.
Lemma empty_ok wn : writes (write_data_with wn RdEmpty) nothing_at.
Proof. unfold write_data_with. apply (writes_check _ _ (fun w => MAX_WIRE <? len (w_out w))), writes_ret. Qed.
Lemma data_writer_ok context flags kind class d : data_wf flags kind class d -> writes (data_writer context kind d) (fun b o e => data_at b o d e).
Proof.
  intros Hw. unfold data_writer, write_data.
  destruct d; try (destruct (_ && _); (eapply write_data_ok; [|exact Hw]); intros n0 Hn0; [by apply write_name_ok|by apply write_plain_ok]).
  destruct (_ && _); apply empty_ok.
Qed.

(** ** Questions, records and messages *)

Lemma encodes_stable (P : region) n : stable P -> stable (then_at (name_at n) P).
Proof. intros HP. apply then_stable; [apply name_stable|done]. Qed.
Lemma encode_question_ok context q : question_wf q -> writes (encode_question context q) (fun b o e => question_at b o q e).
Proof.
  intros (Hn & _ & _). unfold encode_question. pose proof (name_writer_ok context) as Hw. eapply writes_weaken; [writes_tac|].
  intros bb oo ee Hat. join_tac. eexists. split; [gather|]. split; gather.
Qed.
Lemma encode_record_ok context flags r : record_wf flags r -> writes (encode_record context r) (fun b o e => record_at b o r e).
Proof.
  intros (Hn & _ & _ & _ & Hd). unfold encode_record. pose proof (name_writer_ok context) as Hw. eapply writes_weaken.
  - eapply writes_seq; [apply name_stable|by apply Hw|]. do 3 (eapply writes_seq; [apply bytes_stable|apply writes_emit|]).
    apply (sized_ok (data_writer context (r_kind r) (r_data r))); [apply data_writer_uniform|by eapply data_writer_ok].
  - intros bb oo ee Hat. join_tac. destruct_and?. replace (m + Z.of_nat 2 + Z.of_nat 2 + Z.of_nat 4 + 2) with (m + 10) in * by lia.
    exists m. split; [done|]. split; [gather|done].
Qed.
Lemma question_stable q : stable (fun b o e => question_at b o q e).
Proof. intros b y o e (e1 & He & Hh & ->). exists e1. split; [by apply encodes_extend|]. split; [by apply holds_extend|done]. Qed.
Lemma data_stable d : stable (fun b o e => data_at b o d e).
Proof.
  intros b y o e. destruct d; cbn [data_at]; intros Hd; destruct_and?;
    repeat match goal with H : exists _, _ |- _ => destruct H end; destruct_and?; repeat (split || eexists); try done;
    first [by apply holds_extend | by apply encodes_extend | idtac].
Qed.
Lemma record_stable r : stable (fun b o e => record_at b o r e).
Proof.
  intros b y o e (e1 & He & Hh & Hu & Hd). exists e1. split; [by apply encodes_extend|]. split; [by apply holds_extend|]. split; [done|by apply data_stable].
Qed.
Lemma list_ok {X} (P : bytes -> Z -> X -> Z -> Prop) (f : X -> MW unit) l : (forall x, stable (fun b o e => P b o x e)) ->
  Forall (fun x => writes (f x) (fun b o e => P b o x e)) l -> writes (for_each l f) (fun b o e => list_at (P b) o l e).
Proof.
  intros HP. induction 1 as [|x l Hx _ IH]; cbn [for_each]; [eapply writes_weaken; [apply writes_ret|done]|].
  eapply writes_weaken; [by apply (writes_seq _ _ (fun b o e => P b o x e))|]. done.
Qed.
Lemma list_stable {X} (P : bytes -> Z -> X -> Z -> Prop) l : (forall x, stable (fun b o e => P b o x e)) -> stable (fun b o e => list_at (P b) o l e).
Proof. intros HP b y. induction l as [|x l IH]; intros o e; cbn [list_at]; [done|]. intros (m & Hx & Hl). exists m. split; [by apply HP|by apply IH]. Qed.
Lemma list_at_app {X} (P : Z -> X -> Z -> Prop) l1 l2 o e : list_at P o (l1 ++ l2) e -> exists m, list_at P o l1 m /\ list_at P m l2 e.
Proof.
  revert o. induction l1 as [|x l1 IH]; intros o; cbn [list_at app]; [by exists o|]. intros (m & Hx & Hr). destruct (IH _ Hr) as (m' & H1 & H2).
  exists m'. split; [by exists m|done].
Qed.
Lemma writes_unless {A} (c : bool) e (m : MW A) P : (c = false -> writes m P) -> writes (if c then throw e else m) P.
Proof. intros Hm. destruct c; [apply writes_throw|by apply Hm]. Qed.
Definition counts_ok (m : Message) : Prop :=
  len (m_questions m) + len (m_answers m) + len (m_authority m) + len (m_additional m) <= MAX_RECORDS.
Lemma counts_u16 m : counts_ok m -> is_u16 (len (m_questions m)) /\ is_u16 (len (m_answers m)) /\ is_u16 (len (m_authority m)) /\ is_u16 (len (m_additional m)).
Proof.
  unfold counts_ok, MAX_RECORDS. pose proof (len_nonneg (m_questions m)). pose proof (len_nonneg (m_answers m)).
  pose proof (len_nonneg (m_authority m)). pose proof (len_nonneg (m_additional m)). intros. split; [u_lia|]. split; [u_lia|]. split; u_lia.
Qed.
Lemma encode_body_ok context m : message_wf m ->
  writes (encode_body context m) (fun b o e => o = 0 -> counts_ok m /\ message_at b m).
Proof.
  intros [_ _ Hq Hr]. unfold encode_body. destruct (Z.ltb_spec MAX_RECORDS (total [len (m_questions m); len (m_answers m); len (m_authority m); len (m_additional m)])) as [_|Hc].
  { eapply writes_weaken; [writes_tac; apply (writes_throw _ (fun _ _ _ => False))|]. intros b o e (? & _ & ? & _ & []). }
  assert (counts_ok m) as Hn by (unfold counts_ok; cbn [total foldr] in Hc; lia). destruct (counts_u16 m Hn) as (N0 & N1 & N2 & N3).
  eapply writes_weaken.
  - writes_tac. cbn [for_each]. eapply writes_seq; [|writes_tac; apply writes_ret|].
    { repeat apply then_stable; first [apply bytes_stable|apply nothing_stable]. }
    eapply writes_seq; [|apply (list_ok question_at); [exact question_stable|]|apply (list_ok record_at); [exact record_stable|]].
    + apply (list_stable question_at), question_stable.
    + eapply Forall_impl; [|exact Hq]. intros q. apply encode_question_ok.
    + eapply Forall_impl; [|exact Hr]. intros r. apply encode_record_ok.
  - intros bb oo ee Hat ->. split; [done|]. rewrite !Z.mod_small in Hat by u_lia. join_tac. split; [gather|].
    match goal with H : nothing_at _ _ _ |- _ => unfold nothing_at in H; replace m2 with 12 in * by lia end.
    match goal with H : list_at _ _ (_ ++ _) _ |- _ => apply list_at_app in H as (m4 & ? & (m5 & ? & ?)%list_at_app) end.
    by exists m3, m4, m5, ee.
Qed.
Lemma dict_ok_empty : dict_ok no_dictionary [].
Proof. intros ls off _. unfold no_dictionary. cbn [d_entries]. by rewrite lookup_empty. Qed.
(** What is encoded is accepted by the parser, and is the same message. *)
Lemma encode_reads context m b : message_wf m -> Forall (clear_of (m_flags m)) (m_answers m ++ m_authority m ++ m_additional m) ->
  encode_context m context = Ok b -> exists m', parse b context = Ok m' /\ same_message m m'.
Proof.
  intros Hm Hc. unfold encode_context. destruct (encode_body context m _) as [[u|e|] w] eqn:Hr; [|done|done].
  destruct (encode_body_ok context m Hm _ _ _ _ dict_ok_empty Hr) as (x & Hx & _ & Hat). rewrite Hx, app_nil_l in *.
  destruct (Hat ltac:(done)) as [Hn Hat']. destruct (counts_u16 m Hn) as (N0 & N1 & N2 & N3).
  destruct (parse x context) as [m'|e|] eqn:Hp; [|done|done]. intros [= <-]. exists m'. split; [done|]. by eapply parse_reads.
Qed.
