(* ===== verification/DnsFormat.v ===== *)
(** The DNS format: the encoder does not panic, and the theorems on the format. *)

From S2P Require Import Prelude Effects Maps DnsWire DnsFacts DnsRoundtrip DnsEncode.

(** ** The limits of the encoder *)

(** 1024 entries, and 64 KiB of names, counted as they are kept. *)
Definition dictionary_bounded (d : Dictionary) : Prop :=
  slen (d_entries d) <= 1024 /\ d_bytes d = msum (fun k _ => len k) (d_entries d) /\ d_bytes d <= 65536.
Definition winv (w : Writer) : Prop := is_bytes (w_out w) /\ dictionary_bounded (w_dictionary w).
Abbreviation writer_safe m := (preserves winv m).

Lemma d_bytes_pos d : dictionary_bounded d -> 0 <= d_bytes d.
Proof. intros (_ & -> & _). apply msum_nonneg. intros k v _. apply len_nonneg. Qed.
Lemma writer_bind {A B} (m : MW A) (f : A -> MW B) : writer_safe m -> (forall a, writer_safe (f a)) -> writer_safe (m ≫= f).
Proof. intros Hm Hf. by eapply triple_bind. Qed.
Lemma safe_emit s : is_bytes s -> writer_safe (emit s).
Proof. intros Hs w [Hw Hd]. split; [by apply is_bytes_app|done]. Qed.
Lemma safe_throw {A} e : writer_safe (throw e : MW A).
Proof. by intros w Hw. Qed.
Lemma safe_ret {A} (a : A) : writer_safe (mret a : MW A).
Proof. by intros w Hw. Qed.
Lemma safe_check {A} (c : bool) e (m : MW A) : writer_safe m -> writer_safe (if c then throw e else m).
Proof. intros Hm. destruct c; [apply safe_throw|done]. Qed.
(** From the state that was read. *)
Definition safe_from {A} (w : Writer) (m : MW A) : Prop := triple (fun s => s = w) m (fun _ => winv) (fun _ => winv).
Lemma safe_here {A} w (m : MW A) : winv w -> writer_safe m -> safe_from w m.
Proof. intros Hw Hm s ->. by apply Hm. Qed.
Lemma safe_get {A} (f : Writer -> MW A) : (forall w, winv w -> safe_from w (f w)) -> writer_safe (w ← get; f w).
Proof. intros Hf w Hw. cbv [mbind M_bind get]. by apply Hf. Qed.
Lemma from_lift {A B} w (m : outcome io_error A) (P : A -> Prop) (f : A -> MW B) : winv w ->
  yields P m -> (forall a, P a -> safe_from w (f a)) -> safe_from w (a ← lift m; f a).
Proof. intros Hw Hm Hf s ->. cbv [mbind M_bind lift]. destruct m as [a|e|]; [by apply Hf|done|done]. Qed.
Lemma from_bind {A B} w (m : MW A) (f : A -> MW B) : safe_from w m -> (forall a, writer_safe (f a)) -> safe_from w (m ≫= f).
Proof. intros Hm Hf. eapply triple_bind; [exact Hm|]. intros a. apply Hf. Qed.
Lemma safe_lift {A B} (m : outcome io_error A) (P : A -> Prop) (f : A -> MW B) : yields P m -> (forall a, P a -> writer_safe (f a)) -> writer_safe (a ← lift m; f a).
Proof. intros Hm Hf w Hw. cbv [mbind M_bind lift]. destruct m as [a|e|]; [by apply Hf|done|done]. Qed.
Lemma is_bytes_wire ls : Forall label_ok ls -> is_bytes (wire_of ls).
Proof.
  induction 1 as [|l ls [Hb Hl] _ IH]; [by repeat constructor; cbn|]. rewrite wire_cons. apply is_bytes_app. split; [|done].
  constructor; [|done]. rewrite Z.mod_small by lia. u_lia.
Qed.
Lemma write_labels_safe ls : Forall label_ok ls -> forall pre fuel, is_bytes pre -> (length ls < fuel)%nat ->
  writer_safe (write_labels fuel (pre ++ wire_of ls) (len pre)).
Proof.
  induction 1 as [|l ls [Hlb Hl] Hls IH]; intros pre fuel Hpre Hf; (destruct fuel as [|fuel]; [lia|]); cbn [write_labels].
  { change (wire_of []) with [0]. rewrite (idx_mid pre 0 []) by done. apply (safe_lift (Ok 0) (eq 0)); [done|]. intros ? <-. apply safe_ret. }
  assert (wire_of (l :: ls) = len l :: l ++ wire_of ls) as Hw by (rewrite wire_cons, Z.mod_small by lia; done).
  assert (is_bytes (wire_of (l :: ls))) as Hwb by (by apply is_bytes_wire; constructor).
  rewrite Hw at 1. rewrite (idx_mid pre (len l)) by done. apply (safe_lift (Ok (len l)) (eq (len l))); [done|]. intros ? <-.
  destruct (Z.eqb_spec (len l) 0); [lia|]. apply safe_get. intros w Hw0. rewrite (slice_from_app pre (wire_of (l :: ls))) by done.
  apply (from_lift w (Ok (wire_of (l :: ls))) (eq (wire_of (l :: ls)))); [done..|]. intros ? <-.
  destruct (d_entries _ !! _) as [off|] eqn:Hoff.
  { apply safe_here; [done|]. apply safe_check, writer_bind; [apply safe_emit, is_bytes_be|intros; apply safe_ret]. }
  pose proof (d_bytes_pos _ (proj2 Hw0)) as Hpos. pose proof (len_nonneg (wire_of (l :: ls))).
  apply (from_lift w _ (eq (d_bytes (w_dictionary w) + len (wire_of (l :: ls))))); [done| |].
  { rewrite len_app. unfold sub_chk. destruct (Z.leb_spec (len pre) (d_bytes (w_dictionary w) + (len pre + len (wire_of (l :: ls))))); [cbn; lia|lia]. }
  intros ? <-. apply from_bind.
  - destruct (_ && _ && _) eqn:Hroom; [|by apply safe_here, safe_ret].
    apply andb_true_iff in Hroom as [[Hn%Z.ltb_lt Hr%Z.leb_le]%andb_true_iff _]. intros s ->. destruct Hw0 as [Hb (H1 & H2 & H3)].
    split; [done|]. cbn [modify w_dictionary d_entries d_bytes]. split; [|split; [|done]].
    + cbn [d_entries]. rewrite slen_insert by done. lia.
    + cbn [d_entries d_bytes]. rewrite msum_insert by done. lia.
  - intros _. apply safe_get. intros w1 Hw1. apply safe_here; [done|]. apply safe_check.
    assert (pre ++ wire_of (l :: ls) = (pre ++ len l :: l) ++ wire_of ls) as Hpre2 by (rewrite Hw, <-app_assoc; done).
    assert (slice (E:=io_error) (pre ++ wire_of (l :: ls)) (len pre) (len pre + (len l + 1)) = Ok (len l :: l)) as ->.
    { rewrite Hw. apply (slice_mid pre (len l :: l) (wire_of ls)); [done|rewrite len_cons; lia]. }
    assert (is_bytes (len l :: l)) as Hlb2 by (constructor; [u_lia|done]).
    apply (safe_lift (Ok (len l :: l)) (eq (len l :: l))); [done|]. intros ? <-. apply writer_bind; [by apply safe_emit|]. intros _.
    rewrite Hpre2. replace (len pre + (len l + 1)) with (len (pre ++ len l :: l)) by (rewrite len_app, len_cons; lia).
    apply IH; [by apply is_bytes_app|cbn in Hf; lia].
Qed.
Lemma length_wire ls : (length ls < length (wire_of ls))%nat.
Proof. induction ls as [|l ls IH]; [cbn; lia|]. rewrite wire_cons, length_app. cbn [length]. lia. Qed.
Definition safe_names (wn : Name -> MW unit) : Prop := forall n, name_wf n -> writer_safe (wn n).
Lemma write_name_safe : safe_names write_name.
Proof.
  intros n [[Hl _] _]. unfold write_name. apply writer_bind; [apply (write_labels_safe _ Hl []); [constructor|apply length_wire]|].
  intros []; [apply safe_ret|]. apply safe_get. intros w Hw. apply safe_here; [done|]. apply safe_check, safe_emit. constructor; [u_lia|constructor].
Qed.
Lemma write_plain_safe : safe_names write_plain.
Proof. intros n [[Hl _] _]. by apply safe_emit, is_bytes_wire. Qed.
Lemma safe_sub_at {B} w base (f : Z -> MW B) : base <= len (w_out w) -> winv w -> (forall n, safe_from w (f n)) ->
  safe_from w (n ← lift (sub_chk (len (w_out w)) base); f n).
Proof. intros Hle Hw Hf. apply (from_lift w _ (fun _ => True)); [done| |auto]. apply yields_of_safe; [by apply safe_sub_chk|done]. Qed.
Lemma write_strings_safe v : Forall string_ok v -> writer_safe (write_strings v).
Proof.
  induction 1 as [|s v [Hs _] _ IH]; cbn [write_strings]; [apply safe_ret|]. apply safe_check.
  apply writer_bind; [apply safe_emit; constructor; [|constructor]|intros _; apply writer_bind; [by apply safe_emit|intros _; exact IH]].
  pose proof (Z.mod_pos_bound (len s) 256). u_lia.
Qed.
Lemma write_options_safe v : Forall option_ok v -> writer_safe (write_options v).
Proof.
  induction 1 as [|[k s] v (_ & Hs & _) _ IH]; cbn [write_options]; [apply safe_ret|]. apply safe_check.
  do 2 (apply writer_bind; [apply safe_emit, is_bytes_be|intros _]). apply writer_bind; [by apply safe_emit|intros _; exact IH].
Qed.
Ltac safe_tac :=
  repeat lazymatch goal with
  | |- preserves _ (emit _ ;; _) => apply writer_bind; [apply safe_emit|intros _]
  | |- preserves _ (?m ;; _) => apply writer_bind; [|intros _]
  | |- preserves _ (emit _) => apply safe_emit
  | |- preserves _ (throw _) => apply safe_throw
  | |- preserves _ (mret _) => apply safe_ret
  | |- preserves _ (write_options _) => by apply write_options_safe
  | |- preserves _ (write_plain _) => by apply write_plain_safe
  | H : safe_names ?wn |- preserves _ (?wn _) => by apply H
  | |- is_bytes (be16 _) => apply is_bytes_be
  | |- is_bytes (be32 _) => apply is_bytes_be
  | |- is_bytes [_; _] => constructor; [assumption|constructor; [assumption|constructor]]
  end.
Lemma write_data_safe wn flags kind class d : safe_names wn -> data_wf flags kind class d -> writer_safe (write_data_with wn d).
Proof.
  intros Hwn Hw. unfold write_data_with. apply writer_bind; [|intros _; apply safe_get; intros w Hi; apply safe_here; [done|]; apply safe_check, safe_ret].
  destruct d; cbn [data_wf rdata_wf] in Hw; destruct_and?; safe_tac; try done. by apply write_strings_safe.
Qed.

(** [sized_ok]'s step is safe. *)
Lemma sized_safe (m : MW unit) : uniform m -> writer_safe m ->
  writer_safe (w ← get;
          let at_ := len (w_out w) in
          emit [0; 0] ;;
          w ← get;
          let start := len (w_out w) in
          m ;;
          w ← get;
          if MAX_WIRE <? len (w_out w) then throw InvalidData else
          n ← lift (sub_chk (len (w_out w)) start);
          out ← lift (copy_at (w_out w) at_ (be16 (n mod 65536)));
          modify (fun w => mkWriter (w_dictionary w) out)).
Proof.
  intros Hu Hm w Hw. cbv [mbind M_bind get throw lift mret M_ret emit modify]. cbn [w_out w_dictionary].
  specialize (Hm (mkWriter (w_dictionary w) (w_out w ++ [0; 0]))). destruct (m _) as [[u|e|] w1] eqn:Hr.
  - destruct (Hu _ _ _ Hr) as (x & Hx & _). cbn [w_out] in Hx. destruct Hm as [Hb Hd]; [apply (safe_emit [0; 0]); [|done]; constructor; [u_lia|constructor; [u_lia|constructor]]|].
    destruct (_ <? _); [done|]. rewrite Hx in Hb |- *. pose proof (len_nonneg x). pose proof (len_nonneg (w_out w)).
    rewrite !len_app. change (len [0; 0]) with 2. unfold sub_chk. destruct (Z.leb_spec (len (w_out w) + 2) (len (w_out w) + 2 + len x)); [|lia].
    match goal with |- context [copy_at ?b ?o (be16 ?n)] => assert (copy_at (E:=io_error) b o (be16 n) = Ok (put b o (be16 n))) as -> end.
    { apply copy_at_Ok. rewrite !len_app, (len_be 2). change (len [0; 0]) with 2. split; [done|]. split; [lia|done]. }
    split; [|done]. cbn [w_out]. apply is_bytes_put; [done|apply is_bytes_be].
  - apply Hm, (safe_emit [0; 0]); [|done]. constructor; [u_lia|constructor; [u_lia|constructor]].
  - apply Hm, (safe_emit [0; 0]); [|done]. constructor; [u_lia|constructor; [u_lia|constructor]].
Qed.
Lemma name_writer_safe context : safe_names (name_writer context).
Proof. unfold name_writer. destruct (decide _); [apply write_name_safe|apply write_plain_safe]. Qed.
Lemma encode_question_safe context q : question_wf q -> writer_safe (encode_question context q).
Proof. intros (Hn & _ & _). pose proof (name_writer_safe context). unfold encode_question. safe_tac. Qed.
Lemma encode_record_safe context flags r : record_wf flags r -> writer_safe (encode_record context r).
Proof.
  intros (Hn & _ & _ & _ & Hd). pose proof (name_writer_safe context) as Hw. unfold encode_record.
  apply writer_bind; [by apply Hw|intros _]. do 3 (apply writer_bind; [apply safe_emit, is_bytes_be|intros _]).
  apply (sized_safe (data_writer context (r_kind r) (r_data r))); [apply data_writer_uniform|].
  unfold data_writer, write_data. destruct (_ && _); eapply write_data_safe; [apply write_name_safe|done|apply write_plain_safe|done].
Qed.
Lemma for_each_safe {X} (f : X -> MW unit) l : Forall (fun x => writer_safe (f x)) l -> writer_safe (for_each l f).
Proof. induction 1 as [|x l Hx _ IH]; cbn [for_each]; [apply safe_ret|]. by apply writer_bind. Qed.
Lemma encode_body_safe context m : message_wf m -> writer_safe (encode_body context m).
Proof.
  intros [_ _ Hq Hr]. unfold encode_body. safe_tac. apply safe_check. apply writer_bind; [|intros _; apply writer_bind; [|intros _]].
  - apply for_each_safe. apply Forall_forall. intros n _. apply safe_emit, is_bytes_be.
  - apply for_each_safe. eapply Forall_impl; [|exact Hq]. intros q. apply encode_question_safe.
  - apply for_each_safe. eapply Forall_impl; [|exact Hr]. intros r. apply encode_record_safe.
Qed.
Lemma winv_empty : winv (mkWriter no_dictionary []).
Proof. split; [constructor|]. unfold dictionary_bounded, slen, no_dictionary. cbn [w_dictionary d_entries d_bytes]. rewrite map_size_empty, msum_empty. lia. Qed.
Lemma parse_len context b m : parse b context = Ok m -> len b <= MAX_WIRE.
Proof. unfold parse. destruct (_ || _) eqn:Hl; [done|]. by apply orb_false_iff in Hl as [_ Hl%Z.ltb_ge]. Qed.
Lemma encode_safe context m : message_wf m -> yields (fun b => is_bytes b /\ len b <= MAX_WIRE) (encode_context m context).
Proof.
  intros Hm. pose proof (encode_body_safe context m Hm _ winv_empty) as Hs. unfold encode_context.
  destruct (encode_body context m _) as [[u|e|] w]; [|done|done]. destruct Hs as [Hb _].
  pose proof (dns_parse_ok (w_out w) Hb context) as Hp. destruct (parse (w_out w) context) as [m'|e|] eqn:Hr; [|done|done].
  split; [done|by eapply parse_len].
Qed.

(** ** Theorems *)

(** C22. The parser takes any bytes: it does not panic and does not run out of its bounds
    (positions, recursion, name lengths), and what it accepts is a well-formed message
    that keeps the bytes it came from. *)
Theorem dns_parse_safe b context : is_bytes b -> yields (fun m => message_wf m /\ m_original m = b) (parse b context).
Proof. intros Hb. by apply dns_parse_ok. Qed.
Lemma dns_parse_safe_witness : let b := [0; 1; 0; 0; 0; 0; 0; 0; 0; 0; 0; 0] in
  is_bytes b /\ yields (fun m => message_wf m /\ m_original m = b) (parse b Unicast).
Proof.
  assert (is_bytes [0; 1; 0; 0; 0; 0; 0; 0; 0; 0; 0; 0]) as Hb by (repeat (constructor; [u_lia|]); constructor).
  split; [exact Hb|exact (dns_parse_safe _ Unicast Hb)].
Defined.

(** A response with a pointer to an address: the names share their suffixes. *)
Definition host : Name := mkName [[104; 111]; [108; 111; 99; 97; 108]] [2; 104; 111; 5; 108; 111; 99; 97; 108; 0].
Definition service : Name := mkName [[95; 120]; [108; 111; 99; 97; 108]] [2; 95; 120; 5; 108; 111; 99; 97; 108; 0].
Definition response : Message :=
  mkMessage 0x1234 0x8400 [mkQuestion service 12 1]
    [mkRr service 12 1 120 (RdName host); mkRr host 33 1 120 (RdSrv 0 0 80 host)] []
    [mkRr host 1 0x8001 120 (RdA [192; 168; 1; 2])] [] [].
Definition response_wire : bytes :=
  [18; 52; 132; 0; 0; 1; 0; 2; 0; 0; 0; 1; 2; 95; 120; 5; 108; 111; 99; 97; 108; 0; 0; 12; 0; 1;
   192; 12; 0; 12; 0; 1; 0; 0; 0; 120; 0; 5; 2; 104; 111; 192; 15;
   192; 38; 0; 33; 0; 1; 0; 0; 0; 120; 0; 8; 0; 0; 0; 0; 0; 80; 192; 38;
   192; 38; 0; 1; 128; 1; 0; 0; 0; 120; 0; 4; 192; 168; 1; 2].
Lemma host_wf : name_wf host.
Proof. split; [split|done]; [|vm_compute; congruence]. repeat (constructor; [split; [by repeat (constructor; [u_lia|])|vm_compute; split; congruence]|]). constructor. Qed.
Lemma service_wf : name_wf service.
Proof. split; [split|done]; [|vm_compute; congruence]. repeat (constructor; [split; [by repeat (constructor; [u_lia|])|vm_compute; split; congruence]|]). constructor. Qed.
Lemma response_wf : message_wf response.
Proof.
  pose proof host_wf. pose proof service_wf.
  assert (forall x, (0 <=? x) = true -> (x <=? u16_max) = true -> is_u16 x) as Hu by (intros; u_lia).
  split; cbn; [by apply Hu..| |].
  - repeat constructor; cbn; (done || by apply Hu).
  - repeat (apply List.Forall_cons; [split; [done|]; repeat split; cbn; (done || u_lia || (try tauto))|]); try apply List.Forall_nil.
    all: exact (proj1 (proj1 host_wf)).
Qed.

(** A well-formed message is encoded without a panic, with or without compression, in
    at most 65535 bytes; the dictionary never holds more than 1024 names or 64 KiB, and
    counts the bytes it owns. *)
Theorem dns_encode_bounded m context : message_wf m ->
  yields (fun b => is_bytes b /\ len b <= 65535) (encode_context m context) /\
  let '(r, w) := encode_body context m (mkWriter no_dictionary []) in
  let d := w_dictionary w in
  safe r /\ slen (d_entries d) <= 1024 /\ d_bytes d = msum (fun k _ => len k) (d_entries d) /\ d_bytes d <= 65536.
Proof.
  intros Hm. split; [by apply encode_safe|]. pose proof (encode_body_safe context m Hm _ winv_empty) as Hs.
  destruct (encode_body context m _) as [[u|e|] w']; [| |done]; by destruct Hs as [_ Hd].
Qed.
Lemma dns_encode_bounded_witness : message_wf response /\ yields (fun b => is_bytes b /\ len b <= 65535) (encode_context response Mdns).
Proof. destruct (dns_encode_bounded response Mdns response_wf) as [Hb _]. split; [exact response_wf|exact Hb]. Defined.

(** C17. What is encoded, with the compression of multicast DNS or without, is accepted by the
    parser and parsed back to the same identifier, flags, questions and records. The
    side condition [clear_of] excludes one thing only: in an update, a record of class ANY
    or NONE with options or plain data of no bytes, which the parser reads as no data. *)
Theorem dns_roundtrip m context b : message_wf m -> Forall (clear_of (m_flags m)) (m_answers m ++ m_authority m ++ m_additional m) ->
  encode_context m context = Ok b -> exists m', parse b context = Ok m' /\ same_message m m'.
Proof. intros. by apply encode_reads. Qed.
Lemma dns_roundtrip_witness : exists m', parse response_wire Mdns = Ok m' /\ same_message response m'.
Proof.
  apply (dns_roundtrip response Mdns response_wire); [exact response_wf| |vm_compute; reflexivity].
  repeat (apply List.Forall_cons; [discriminate|]). apply List.Forall_nil.
Defined.
