(* ===== verification/TcpFrames.v ===== *)
(** DNS over TCP ([TcpFrames] of [src/src/dns/wire.rs]): the two-byte length framing, with
    its limits, and that it refines cutting the stream into frames.

    The capacity of a vector is kept beside its bytes: [with_capacity] and
    [reserve_exact] give what they are asked for. *)

From S2P Require Import Prelude Effects DnsWire.

Record TcpFrames := mkFrames {
  t_max : Z;
  t_partial : bytes; t_capacity : Z;
  t_ready : list (bytes * Z);
  t_bytes : Z;
}.
Abbreviation MT := (M TcpFrames io_error).
Definition put_partial s c t := mkFrames (t_max t) s c (t_ready t) (t_bytes t).
Definition push_ready s c t := mkFrames (t_max t) (t_partial t) (t_capacity t) (t_ready t ++ [(s, c)]) (t_bytes t).
Definition put_bytes n t := mkFrames (t_max t) (t_partial t) (t_capacity t) (t_ready t) n.
Definition put_ready r t := mkFrames (t_max t) (t_partial t) (t_capacity t) r (t_bytes t).

Definition frames_new (max : Z) : outcome io_error TcpFrames :=
  if negb ((12 <=? max) && (max <=? MAX_WIRE)) then Err InvalidData else Ok (mkFrames max [] 0 [] 0).
Definition frame (b : bytes) : outcome io_error bytes :=
  if negb ((12 <=? len b) && (len b <=? MAX_WIRE)) then Err InvalidData else Ok (be16 (len b mod 65536) ++ b).
(** The closure [byte] of [input_with_limit]. *)
Definition byte_at (partial b : bytes) (n : Z) : outcome io_error Z :=
  if n <? len partial then partial.[n] else b.[n - len partial].
Definition capacities (r : list (bytes * Z)) : Z := foldr Z.add 0 (map snd r).
Definition allocated (t : TcpFrames) : Z := t_capacity t + capacities (t_ready t).
Definition buffered (t : TcpFrames) : Z := t_bytes t.
Definition is_ready (t : TcpFrames) : bool := negb (len (t_ready t) =? 0).

(** The loop over the headers: the position it stops at, and the bytes to be allocated. *)
Fixpoint scan (fuel : nat) (max : Z) (partial b : bytes) (total at_ count allocated : Z) : outcome io_error (Z * Z) :=
  if negb (2 <=? total - at_) then Ok (at_, allocated) else
  match fuel with
  | O => Panic
  | S fuel =>
      c0 ← byte_at partial b at_;
      c1 ← byte_at partial b (at_ + 1);
      let n := u16be c0 c1 in
      reject_if (n <? 12) || (max <? n) with InvalidData;
      let allocated := allocated + (n + 2) in
      if total - at_ <? n + 2 then Ok (total, allocated) else
      let count := count + 1 in
      reject_if 32 <? count with InvalidData;
      scan fuel max partial b total (at_ + (n + 2)) count allocated
  end.
(** [Vec::extend_from_slice] and [Vec::reserve_exact] on [partial]. *)
Definition extend (s : bytes) : MT unit :=
  modify (fun t => put_partial (t_partial t ++ s) (Z.max (t_capacity t) (len (t_partial t ++ s))) t).
Definition reserve_exact (n : Z) : MT unit :=
  modify (fun t => put_partial (t_partial t) (Z.max (t_capacity t) (len (t_partial t) + n)) t).
(** The body of a frame, once its two bytes of length are there. *)
Definition feed_body (b : bytes) : MT bytes :=
  t ← get;
  c0 ← lift (t_partial t).[0];
  c1 ← lift (t_partial t).[1];
  let size := u16be c0 c1 + 2 in
  room ← lift (sub_chk size (len (t_partial t)));
  reserve_exact room ;;
  let n := Z.min room (len b) in
  s ← lift (slice b 0 n);
  extend s ;;
  b ← lift (slice_from b n);
  t ← get;
  (if len (t_partial t) =? size then
     let frame := t_partial t in
     let capacity := t_capacity t in
     modify (put_partial [] 0) ;;
     body ← lift (slice_from frame 2);
     frame ← lift (copy_at frame 0 body);
     keep ← lift (sub_chk size 2);
     modify (push_ready (take (Z.to_nat keep) frame) capacity)
   else mret tt) ;;
  mret b.
(** [while !b.is_empty()] *)
Fixpoint feed (fuel : nat) (b : bytes) : MT unit :=
  if len b =? 0 then mret tt else
  match fuel with
  | O => lift Panic
  | S fuel =>
      t ← get;
      (if t_capacity t =? 0 then modify (put_partial [] 2) else mret tt) ;;
      t ← get;
      if len (t_partial t) <? 2 then
        room ← lift (sub_chk 2 (len (t_partial t)));
        let n := Z.min room (len b) in
        s ← lift (slice b 0 n);
        extend s ;;
        b ← lift (slice_from b n);
        t ← get;
        if len (t_partial t) <? 2 then mret tt else
        b ← feed_body b;
        feed fuel b
      else
        b ← feed_body b;
        feed fuel b
  end.
Definition input_with_limit (b : bytes) (limit : Z) : MT unit :=
  let limit := Z.min limit (MAX_WIRE + 2) in
  t ← get;
  if sat_sub (MAX_WIRE + 2) (t_bytes t) <? len b then throw InvalidData else
  let total := len (t_partial t) + len b in
  '(at_, alloc) ← lift (scan (length (t_partial t) + length b) (t_max t) (t_partial t) b total 0
                          (len (t_ready t)) (capacities (t_ready t)));
  let alloc := if at_ <? total then alloc + 2 else alloc in
  if limit <? alloc then throw InvalidData else
  modify (fun t => put_bytes (t_bytes t + len b) t) ;;
  feed (length b) b.
Definition input (b : bytes) : MT unit := input_with_limit b (MAX_WIRE + 2).
Definition pop : MT (option bytes) :=
  t ← get;
  match t_ready t with
  | [] => mret None
  | (s, _) :: r =>
      modify (put_ready r) ;;
      n ← lift (sub_chk (t_bytes t) (len s + 2));
      modify (put_bytes n) ;;
      mret (Some s)
  end.

(** ** What the loops do to the stream *)

(** [scans max s fs r]: the stream [s] is the frames [fs], then the start [r] of one. *)
Inductive scans (max : Z) : bytes -> list bytes -> bytes -> Prop :=
| sc_end s : len s < 2 -> scans max s [] s
| sc_part c0 c1 s : 12 <= u16be c0 c1 <= max -> len s < u16be c0 c1 -> scans max (c0 :: c1 :: s) [] (c0 :: c1 :: s)
| sc_frame c0 c1 s rest fs r : 12 <= u16be c0 c1 <= max -> len s = u16be c0 c1 -> scans max rest fs r ->
    scans max (c0 :: c1 :: s ++ rest) (s :: fs) r.
(** The capacity that the start of a frame needs. *)
Definition reserved (r : bytes) : Z :=
  match r with [] => 0 | [_] => 2 | c0 :: c1 :: _ => u16be c0 c1 + 2 end.
Definition held (fs : list bytes) : list (bytes * Z) := map (fun s => (s, len s + 2)) fs.
Lemma held_cons s fs : capacities (held (s :: fs)) = len s + 2 + capacities (held fs).
Proof. done. Qed.
Lemma capacities_app r1 r2 : capacities (r1 ++ r2) = capacities r1 + capacities r2.
Proof. unfold capacities. rewrite map_app, foldr_app. induction (map snd r1) as [|x l IH]; cbn; lia. Qed.
Lemma byte_at_app p b n : 0 <= n -> byte_at p b n = idx (p ++ b) n.
Proof.
  intros Hn. unfold byte_at, idx. destruct (Z.ltb_spec n (len p)) as [Hl|Hl]; (destruct (Z.ltb_spec n 0); [lia|]).
  - by rewrite lookup_app_l by (unfold len in Hl; lia).
  - destruct (Z.ltb_spec (n - len p) 0); [lia|]. rewrite lookup_app_r by (unfold len in Hl; lia). replace (Z.to_nat (n - len p)) with (Z.to_nat n - length p)%nat by (unfold len; lia). done.
Qed.
Lemma scan_ok max p b fuel pre s count alloc : p ++ b = pre ++ s -> len s <= Z.of_nat fuel -> count <= 32 ->
  match scan fuel max p b (len p + len b) (len pre) count alloc with
  | Ok (at_, al) => exists fs r, scans max s fs r /\ count + len fs <= 32 /\
      (if at_ <? len p + len b then al + 2 else al) = alloc + capacities (held fs) + reserved r
  | Err _ => True
  | Panic => False
  end.
Proof.
  revert pre s count alloc. induction fuel as [|fuel IH]; intros pre s count alloc Hs Hf Hc; cbn [scan];
    assert (len p + len b = len pre + len s) as Ht by (rewrite <-!len_app; by f_equal); rewrite Ht; pose proof (len_nonneg s) as Hlen;
    replace (len pre + len s - len pre) with (len s) by lia; (destruct (Z.leb_spec 2 (len s)) as [Hl|Hl]; cbn [negb]).
  1: lia. 1, 3: exists [], s; (split; [by apply sc_end|]); (split; [change (len (@nil bytes)) with 0; lia|]); cbn [held map capacities foldr];
    destruct s as [|x [|y s]]; [| |unfold len in Hl; cbn in Hl; lia]; unfold reserved, capacities; cbn [foldr map];
    change (len (@nil Z)) with 0; try change (len [x]) with 1; match goal with |- context [?a <? ?c] => destruct (Z.ltb_spec a c) end; lia.
  pose proof (len_nonneg pre). rewrite !byte_at_app by lia. rewrite Hs.
  destruct s as [|c0 [|c1 s]]; [unfold len in Hl; cbn in Hl; lia..|]. rewrite (idx_mid pre c0 (c1 :: s) (len pre)) by done.
  assert (idx (E:=io_error) (pre ++ c0 :: c1 :: s) (len pre + 1) = Ok c1) as ->.
  { change (pre ++ c0 :: c1 :: s) with (pre ++ [c0] ++ c1 :: s). rewrite app_assoc. apply idx_mid. by rewrite len_app. }
  cbn [mbind outcome_bind]. destruct (_ || _) eqn:Hn; [done|]. apply orb_false_iff in Hn as [Hn1%Z.ltb_ge Hn2%Z.ltb_ge]. rewrite !len_cons in *.
  destruct (Z.ltb_spec (1 + (1 + len s)) (u16be c0 c1 + 2)).
  { exists [], (c0 :: c1 :: s). split; [apply sc_part; lia|]. split; [change (len (@nil bytes)) with 0; lia|]. rewrite Z.ltb_irrefl. cbn. unfold capacities. cbn. lia. }
  destruct (Z.ltb_spec 32 (count + 1)); [done|].
  assert (exists s1 s2, s = s1 ++ s2 /\ len s1 = u16be c0 c1) as (s1 & s2 & -> & Hs1).
  { exists (take (Z.to_nat (u16be c0 c1)) s), (drop (Z.to_nat (u16be c0 c1)) s). split; [by rewrite take_drop|]. rewrite len_take; lia. }
  rewrite len_app in *. pose proof (len_nonneg s1). pose proof (len_nonneg s2).
  assert (p ++ b = (pre ++ c0 :: c1 :: s1) ++ s2) as Hs' by (rewrite Hs, <-app_assoc; done).
  specialize (IH _ s2 (count + 1) (alloc + (u16be c0 c1 + 2)) Hs'). rewrite len_app, !len_cons in IH.
  replace (len pre + (u16be c0 c1 + 2)) with (len pre + (1 + (1 + len s1))) by lia. rewrite Ht in IH.
  destruct (scan _ _ _ _ _ _ _ _) as [[at_ al]|e|]; [|done|apply IH; lia]. destruct IH as (fs & r & Hsc & Hcount & ->); [lia..|].
  exists (s1 :: fs), r. split; [by apply sc_frame|]. rewrite len_cons. split; [lia|]. rewrite held_cons. lia.
Qed.

(** The start of a frame, with the capacity reserved for it. *)
Definition partial_ok (max : Z) (p : bytes) : Prop :=
  match p with c0 :: c1 :: s => 12 <= u16be c0 c1 <= max /\ len s < u16be c0 c1 | _ => True end.
Lemma feed_body_ok max c0 c1 q cap ready n b : cap <= u16be c0 c1 + 2 -> len q < u16be c0 c1 ->
  feed_body b (mkFrames max (c0 :: c1 :: q) cap ready n) =
  if len q + len b <? u16be c0 c1 then (Ok [], mkFrames max (c0 :: c1 :: q ++ b) (u16be c0 c1 + 2) ready n)
  else let m := Z.to_nat (u16be c0 c1 - len q) in
    (Ok (drop m b), mkFrames max [] 0 (ready ++ held [q ++ take m b]) n).
Proof.
  intros Hcap Hq. set (N := u16be c0 c1) in *. pose proof (len_nonneg q) as Hq0. pose proof (len_nonneg b) as Hb0. unfold feed_body.
  cbv [mbind M_bind get lift mret M_ret reserve_exact extend modify put_partial push_ready t_partial t_capacity t_max t_ready t_bytes].
  change ((c0 :: c1 :: q).[0]) with (Ok (E:=io_error) c0). change ((c0 :: c1 :: q).[1]) with (Ok (E:=io_error) c1).
  cbv iota beta. fold N. rewrite !len_cons. unfold sub_chk at 1. destruct (Z.leb_spec (1 + (1 + len q)) (N + 2)); [|lia].
  replace (N + 2 - (1 + (1 + len q))) with (N - len q) by lia. set (k := Z.min (N - len q) (len b)).
  assert (slice (E:=io_error) b 0 k = Ok (take (Z.to_nat k) b)) as ->.
  { apply slice_Ok. split; [lia|]. split; [lia|]. unfold sub. by rewrite Z.sub_0_r. }
  assert (slice_from (E:=io_error) b k = Ok (drop (Z.to_nat k) b)) as ->.
  { unfold slice_from. apply slice_Ok. split; [lia|]. split; [lia|]. unfold sub. rewrite take_ge; [done|]. rewrite length_drop. unfold len. lia. }
  cbv iota beta. cbn [app]. rewrite !len_cons, len_app, len_take by lia. replace (Z.min (Z.of_nat (Z.to_nat k)) (len b)) with k by lia.
  replace (Z.max (Z.max cap _) _) with (N + 2) by lia. destruct (Z.ltb_spec (len q + len b) N).
  - assert (k = len b) as -> by lia. destruct (Z.eqb_spec (1 + (1 + (len q + len b))) (N + 2)); [lia|].
    by rewrite drop_ge, take_ge by (unfold len; lia).
  - assert (k = N - len q) as -> by lia. destruct (Z.eqb_spec (1 + (1 + (len q + (N - len q)))) (N + 2)); [|lia].
    set (body := q ++ take (Z.to_nat (N - len q)) b). assert (len body = N) as Hbody by (unfold body; rewrite len_app, len_take; lia).
    assert (slice_from (E:=io_error) (c0 :: c1 :: body) 2 = Ok body) as -> by (by apply (slice_from_app [c0; c1] body)).
    assert (copy_at (E:=io_error) (c0 :: c1 :: body) 0 body = Ok (put (c0 :: c1 :: body) 0 body)) as ->.
    { apply copy_at_Ok. rewrite !len_cons. split; [lia|]. split; [lia|done]. }
    unfold sub_chk. destruct (Z.leb_spec 2 (N + 2)); [|lia].
    replace (N + 2 - 2) with N by lia. unfold put. change (take (Z.to_nat 0) (c0 :: c1 :: body)) with (@nil Z). cbn [app].
    replace (Z.to_nat N) with (length body) by (rewrite <-Hbody; unfold len; lia). rewrite take_app_length. cbn [held map]. by rewrite Hbody.
Qed.
Lemma scans_inv max c0 c1 t fs r : scans max (c0 :: c1 :: t) fs r ->
  12 <= u16be c0 c1 <= max /\
  ((len t < u16be c0 c1 /\ fs = [] /\ r = c0 :: c1 :: t) \/
   (exists s rest fs', t = s ++ rest /\ len s = u16be c0 c1 /\ fs = s :: fs' /\ scans max rest fs' r)).
Proof.
  inversion 1; subst; [|by split; [|left]|split; [done|right; by repeat eexists]].
  exfalso. rewrite !len_cons in *. pose proof (len_nonneg t). lia.
Qed.
Lemma scans_short max s fs r : len s < 2 -> scans max s fs r -> fs = [] /\ r = s.
Proof. intros Hl. inversion 1; subst; [done|exfalso..]; rewrite !len_cons, ?len_app in *; [pose proof (len_nonneg s0)|pose proof (len_nonneg s0); pose proof (len_nonneg rest)]; lia. Qed.
Lemma feed_nil fuel t : feed fuel [] t = (Ok tt, t).
Proof. by destruct fuel. Qed.
Lemma body_feed_ok max fuel c0 c1 q cap b ready n fs r :
  (forall b fs r ready, len b <= Z.of_nat fuel -> scans max b fs r ->
     feed fuel b (mkFrames max [] 0 ready n) = (Ok tt, mkFrames max r (reserved r) (ready ++ held fs) n)) ->
  len b <= Z.of_nat fuel + 1 -> cap <= u16be c0 c1 + 2 -> len q < u16be c0 c1 -> scans max (c0 :: c1 :: q ++ b) fs r ->
  (b ← feed_body b; feed fuel b) (mkFrames max (c0 :: c1 :: q) cap ready n) = (Ok tt, mkFrames max r (reserved r) (ready ++ held fs) n).
Proof.
  intros IH Hf Hcap Hq Hs. cbv [mbind M_bind]. rewrite feed_body_ok by done. apply scans_inv in Hs as [HN [(Hl & -> & ->)|(s & rest & fs' & Hb & Hls & -> & Hs)]].
  - rewrite len_app in Hl. destruct (Z.ltb_spec (len q + len b) (u16be c0 c1)); [|lia]. rewrite feed_nil. cbn [held map]. by rewrite app_nil_r.
  - assert (len q + len b = len s + len rest) as Hlen by (rewrite <-!len_app; by f_equal). pose proof (len_nonneg rest).
    destruct (Z.ltb_spec (len q + len b) (u16be c0 c1)); [lia|]. pose proof (len_nonneg q).
    assert (exists x, s = q ++ x /\ b = x ++ rest) as (x & -> & ->).
    { apply app_eq_app in Hb as (y & [[-> ->]|[-> ->]]); [|by eexists]. rewrite len_app in *. pose proof (len_nonneg y). exists []. rewrite app_nil_r in *.
      assert (y = []) as -> by (destruct y; [done|]; rewrite len_cons in *; pose proof (len_nonneg y); lia). by rewrite app_nil_r. }
    rewrite len_app in Hls. replace (Z.to_nat (u16be c0 c1 - len q)) with (length x) by (unfold len in *; lia).
    cbv zeta iota beta. rewrite take_app_length, drop_app_length. rewrite len_app in Hf. pose proof (len_nonneg x). rewrite (IH rest fs' r) by (done || lia).
    by rewrite <-app_assoc.
Qed.
Lemma feed_ok max fuel p b ready n fs r : len b <= Z.of_nat fuel -> partial_ok max p -> scans max (p ++ b) fs r ->
  feed fuel b (mkFrames max p (reserved p) ready n) = (Ok tt, mkFrames max r (reserved r) (ready ++ held fs) n).
Proof.
  revert p b ready fs r. induction fuel as [|fuel IH]; intros p b ready fs r Hf Hp Hs.
  all: destruct b as [|x b]; [rewrite feed_nil; rewrite app_nil_r in Hs;
    assert (fs = [] /\ r = p) as [-> ->]; [|cbn [held map]; by rewrite app_nil_r];
    destruct p as [|c0 [|c1 q]]; [by apply (scans_short max)..|]; apply scans_inv in Hs as [HN [(Hl & -> & ->)|(s & rest & fs' & -> & Hls & -> & Hs)]]; [done|];
    destruct Hp as [_ Hp]; rewrite len_app in Hp; pose proof (len_nonneg rest); lia|].
  { rewrite len_cons in Hf. pose proof (len_nonneg b). lia. }
  rewrite len_cons in Hf. assert (forall b fs r ready, len b <= Z.of_nat fuel -> scans max b fs r ->
     feed fuel b (mkFrames max [] 0 ready n) = (Ok tt, mkFrames max r (reserved r) (ready ++ held fs) n)) as IH0 by (intros; by apply (IH [])).
  pose proof (len_nonneg b).
  assert (forall c0 c1 b' ready, (len b' <= Z.of_nat fuel) -> scans max (c0 :: c1 :: b') fs r -> 
    (b ← feed_body b'; feed fuel b) (mkFrames max [c0; c1] 2 ready n) = (Ok tt, mkFrames max r (reserved r) (ready ++ held fs) n)) as IH2.
  { intros c0 c1 b' rd Hb' Hs'. pose proof Hs' as [HN _]%scans_inv. apply body_feed_ok; [done|lia|lia|change (len (@nil Z)) with 0; lia|done]. }
  cbn [feed]. rewrite len_cons. destruct (Z.eqb_spec (1 + len b) 0); [lia|].
  cbv [mbind M_bind get lift mret M_ret extend modify put_partial t_partial t_capacity t_max t_ready t_bytes].
  cbv [mbind M_bind] in IH2. destruct p as [|c0 [|c1 q]].
  - change (reserved [] =? 0) with true. cbv iota beta. change (len [] <? 2) with true. cbv iota. change (sub_chk (E:=io_error) 2 (len [])) with (Ok (E:=io_error) 2).
    cbv iota beta. destruct b as [|y b].
    + apply scans_short in Hs as [-> ->]; [|done]. cbn [held map]. by rewrite app_nil_r.
    + rewrite len_cons in *. pose proof (len_nonneg b). replace (Z.min 2 (1 + (1 + len b))) with 2 by lia.
      rewrite (slice_mid [] [x; y] b 0 2), (slice_from_app [x; y] b 2) by done. apply IH2; [lia|done].
  - change (reserved [c0] =? 0) with false. cbv iota beta. change (len [c0] <? 2) with true. cbv iota. change (sub_chk (E:=io_error) 2 (len [c0])) with (Ok (E:=io_error) 1).
    cbv iota beta. replace (Z.min 1 (1 + len b)) with 1 by lia.
    rewrite (slice_mid [] [x] b 0 1), (slice_from_app [x] b 1) by done. apply IH2; [lia|done].
  - destruct Hp as [HN Hq]. cbn [reserved]. destruct (Z.eqb_spec (u16be c0 c1 + 2) 0); [lia|]. rewrite !len_cons. pose proof (len_nonneg q).
    destruct (Z.ltb_spec (1 + (1 + len q)) 2); [lia|].
    apply (body_feed_ok max fuel c0 c1 q); [done|rewrite len_cons; lia|lia|done|done].
Qed.

(** ** The stream and its frames *)

Definition frame_wire (s : bytes) : bytes := be16 (len s) ++ s.
(** Everything received and not yet popped. *)
Definition stream (t : TcpFrames) : bytes := concat (map (fun x => frame_wire x.1) (t_ready t)) ++ t_partial t.
Record frames_wf (t : TcpFrames) : Prop := {
  fw_max : 12 <= t_max t <= MAX_WIRE;
  fw_bytes : is_bytes (t_partial t);
  fw_partial : partial_ok (t_max t) (t_partial t);
  fw_capacity : t_capacity t = reserved (t_partial t);
  fw_ready : Forall (fun x => is_bytes x.1 /\ 12 <= len x.1 <= t_max t /\ x.2 = len x.1 + 2) (t_ready t);
  fw_count : len (t_ready t) <= 32;
  fw_buffered : t_bytes t = len (stream t);
  fw_limit : t_bytes t <= MAX_WIRE + 2;
}.
(** The reference: cut the stream into frames from its start. *)
Fixpoint deframe (fuel : nat) (s : bytes) : list bytes * bytes :=
  match fuel, s with
  | S fuel, c0 :: c1 :: rest =>
      let n := u16be c0 c1 in
      if len rest <? n then ([], s)
      else let '(fs, r) := deframe fuel (drop (Z.to_nat n) rest) in (take (Z.to_nat n) rest :: fs, r)
  | _, _ => ([], s)
  end.
Definition decode (s : bytes) : list bytes * bytes := deframe (length s) s.

Lemma scans_deframe max s fs r : scans max s fs r -> forall fuel, (length s <= fuel)%nat -> deframe fuel s = (fs, r).
Proof.
  induction 1 as [s Hl|c0 c1 s Hn Hl|c0 c1 s rest fs r Hn Hl _ IH]; intros fuel Hf.
  - destruct fuel, s as [|x [|y s]]; try done. unfold len in Hl. cbn in Hl. lia.
  - destruct fuel; [cbn in Hf; lia|]. cbn [deframe]. by destruct (Z.ltb_spec (len s) (u16be c0 c1)); [|lia].
  - destruct fuel; [cbn in Hf; lia|]. cbn [deframe]. rewrite len_app. pose proof (len_nonneg rest).
    destruct (Z.ltb_spec (len s + len rest) (u16be c0 c1)); [lia|]. replace (Z.to_nat (u16be c0 c1)) with (length s) by (unfold len in Hl; lia).
    rewrite take_app_length, drop_app_length, IH; [done|]. cbn in Hf. rewrite length_app in Hf. lia.
Qed.
Lemma scans_decode max s fs r : scans max s fs r -> decode s = (fs, r).
Proof. intros Hs. by eapply scans_deframe. Qed.
Lemma be16_split n : is_u16 n -> exists c0 c1, be16 n = [c0; c1] /\ u16be c0 c1 = n.
Proof.
  intros Hn. destruct (be16 n) as [|c0 [|c1 [|? ?]]] eqn:E; try (apply (f_equal length) in E; done). exists c0, c1. split; [done|].
  assert (of_be (be16 n) = n) as Hb by (unfold be16; apply of_be_be_small; u_lia). rewrite E in Hb. cbn in Hb. unfold u16be. lia.
Qed.
(** Ready frames before a scanned rest. *)
Lemma scans_ready max (ready : list (bytes * Z)) s fs r : max <= MAX_WIRE ->
  Forall (fun x => is_bytes x.1 /\ 12 <= len x.1 <= max /\ x.2 = len x.1 + 2) ready -> scans max s fs r ->
  scans max (concat (map (fun x => frame_wire x.1) ready) ++ s) (map fst ready ++ fs) r.
Proof.
  intros Hmax. induction 1 as [|[f c] ready (_ & Hf & _) _ IH]; intros Hs; [done|]. cbn [map concat fst app] in *. unfold frame_wire at 1. unfold MAX_WIRE in Hmax.
  destruct (be16_split (len f)) as (c0 & c1 & -> & Hn); [u_lia|]. cbn [app]. rewrite <-app_assoc. apply sc_frame; [lia|done|by apply IH].
Qed.
Lemma scans_parts max s fs r : is_bytes s -> scans max s fs r ->
  s = concat (map frame_wire fs) ++ r /\ is_bytes r /\ partial_ok max r /\ Forall (fun f => is_bytes f /\ 12 <= len f <= max) fs.
Proof.
  intros Hb. induction 1 as [s Hl|c0 c1 s Hn Hl|c0 c1 s rest fs r Hn Hl _ IH].
  - split; [done|]. split; [done|]. split; [|constructor]. destruct s as [|x [|y s]]; try done. unfold len in Hl. cbn in Hl. lia.
  - split; [done|]. split; [done|]. split; [done|constructor].
  - apply is_bytes_cons in Hb as [H0 Hb]. apply is_bytes_cons in Hb as [H1 Hb]. apply is_bytes_app in Hb as [H2 H3].
    destruct (IH H3) as (-> & ? & ? & ?). cbn [map concat]. unfold frame_wire at 2. rewrite Hl, be16_u16be by done.
    split; [by rewrite <-!app_assoc|]. split; [done|]. split; [done|]. constructor; [split; [done|lia]|done].
Qed.
Lemma ready_held fs : map (fun x : bytes * Z => frame_wire x.1) (held fs) = map frame_wire fs.
Proof. unfold held. by rewrite map_map. Qed.
Lemma fst_held fs : map fst (held fs) = fs.
Proof. unfold held. rewrite map_map. apply map_id. Qed.

Lemma input_ok t b limit : frames_wf t -> is_bytes b ->
  match input_with_limit b limit t with
  | (Ok _, t') => frames_wf t' /\ stream t' = stream t ++ b /\ decode (stream t') = (map fst (t_ready t'), t_partial t') /\
      allocated t' <= Z.min limit (MAX_WIRE + 2) /\ buffered t' = buffered t + len b
  | (Err _, t') => t' = t
  | (Panic, _) => False
  end.
Proof.
  intros [Hmax Hpb Hp Hcap Hready Hcount Hbuf Hlim] Hb. destruct t as [max p cap ready n]. cbn [t_partial t_capacity t_max t_ready t_bytes] in *.
  subst cap. unfold input_with_limit. cbv [mbind M_bind get lift throw modify put_bytes t_partial t_capacity t_max t_ready t_bytes].
  destruct (Z.ltb_spec (sat_sub (MAX_WIRE + 2) n) (len b)) as [|Hroom]; [done|].
  pose proof (scan_ok max p b (length p + length b) [] (p ++ b) (len ready) (capacities ready) eq_refl ltac:(unfold len; rewrite length_app; lia) Hcount) as Hscan.
  change (len []) with 0 in Hscan. destruct (scan _ _ _ _ _ _ _ _) as [[at_ al]|e|]; [|done|done]. destruct Hscan as (fs & r & Hs & Hc & Hal).
  destruct (Z.ltb_spec (Z.min limit (MAX_WIRE + 2)) (if at_ <? len p + len b then al + 2 else al)) as [|Hlimit]; [done|]. 
  rewrite (feed_ok max (length b) p b ready _ fs r) by (unfold len; lia || done).
  apply scans_parts in Hs as Hparts; [|by apply is_bytes_app]. destruct Hparts as (Hst & Hrb & Hrp & Hfs).
  assert (Forall (fun x : bytes * Z => is_bytes x.1 /\ 12 <= len x.1 <= max /\ x.2 = len x.1 + 2) (held fs)) as Hheld.
  { unfold held. apply List.Forall_map. eapply Forall_impl; [|exact Hfs]. cbn. intuition. }
  assert (stream (mkFrames max r (reserved r) (ready ++ held fs) (n + len b)) = stream (mkFrames max p (reserved p) ready n) ++ b) as Hstream.
  { unfold stream. cbn. rewrite map_app, concat_app, ready_held, <-!app_assoc. f_equal. by rewrite <-Hst. }
  pose proof (scans_ready _ _ _ _ _ (proj2 Hmax) Hready Hs) as Hall.
  unfold sat_sub in Hroom. pose proof (len_nonneg b). rewrite Hstream. split; [|split; [done|split; [|split]]].
  - split; cbn [t_partial t_capacity t_max t_ready t_bytes]; [done|done|done|done|by apply List.Forall_app| | |lia].
    + rewrite len_app. unfold held, len in *. rewrite length_map. lia.
    + rewrite Hstream, len_app, <-Hbuf. done.
  - cbn [t_ready t_partial]. rewrite map_app, fst_held. unfold stream. cbn [t_ready t_partial]. rewrite <-app_assoc.
    by apply (scans_decode max).
  - unfold allocated. cbn [t_ready t_capacity]. rewrite capacities_app. lia.
  - done.
Qed.
Lemma pop_ok t : frames_wf t ->
  match pop t with
  | (Ok (Some s), t') => frames_wf t' /\ stream t = frame_wire s ++ stream t'
  | (Ok None, t') => t_ready t = [] /\ t' = t
  | _ => False
  end.
Proof.
  intros [Hmax Hpb Hp Hcap Hready Hcount Hbuf Hlim]. destruct t as [max p cap ready n]. cbn [t_partial t_capacity t_max t_ready t_bytes] in *.
  unfold pop. cbv [mbind M_bind get lift mret M_ret modify put_bytes put_ready t_partial t_capacity t_max t_ready t_bytes].
  destruct ready as [|[s c] ready]; [done|]. apply Forall_cons_iff in Hready as [(Hsb & Hs & Hc) Hready]. cbn [fst snd] in *.
  assert (stream (mkFrames max p cap ((s, c) :: ready) n) = frame_wire s ++ stream (mkFrames max p cap ready (n - (len s + 2)))) as Hstream
    by (unfold stream; cbn [t_ready t_partial map concat fst]; by rewrite <-app_assoc).
  rewrite Hstream, len_app in Hbuf. unfold frame_wire at 1 in Hbuf. rewrite len_app, (len_be 2) in Hbuf.
  pose proof (len_nonneg (stream (mkFrames max p cap ready (n - (len s + 2))))).
  unfold sub_chk. destruct (Z.leb_spec (len s + 2) n); [|lia]. split; [|done].
  rewrite len_cons in Hcount. split; cbn [t_partial t_capacity t_max t_ready t_bytes]; [done|done|done|done|done|lia|lia|lia].
Qed.

(** C30. TCP framing is exact and all-or-nothing: input that is accepted is appended to the
    stream, whose complete frames, cut from its start, are the ready ones, in whatever pieces
    it came; at most 32 frames and the limit's bytes are held. Refused input changes nothing.
    [pop] takes the first frame off the stream. *)
Theorem tcp_frames_stream t b limit : frames_wf t -> is_bytes b ->
  match input_with_limit b limit t with
  | (Ok _, t') => frames_wf t' /\ stream t' = stream t ++ b /\ decode (stream t') = (map fst (t_ready t'), t_partial t') /\
      allocated t' <= Z.min limit (MAX_WIRE + 2) /\ buffered t' = buffered t + len b
  | (Err _, t') => t' = t
  | (Panic, _) => False
  end /\
  match pop t with
  | (Ok (Some s), t') => frames_wf t' /\ stream t = frame_wire s ++ stream t'
  | (Ok None, t') => t_ready t = [] /\ t' = t
  | _ => False
  end.
Proof. intros Ht Hb. split; [by apply input_ok|by apply pop_ok]. Qed.
Definition sample_state : TcpFrames := mkFrames 512 [0] 2 [] 1.
Definition sample_input : bytes := [12; 1; 2; 3; 4; 5; 6; 7; 8; 9; 10; 11; 12; 0; 13].
Lemma sample_state_wf : frames_wf sample_state.
Proof. split; try done. constructor; [u_lia|constructor]. Qed.
Lemma tcp_frames_stream_witness : exists t', input_with_limit sample_input 40 sample_state = (Ok tt, t') /\
  decode (stream t') = (map fst (t_ready t'), t_partial t') /\ map fst (t_ready t') = [[1; 2; 3; 4; 5; 6; 7; 8; 9; 10; 11; 12]].
Proof.
  assert (is_bytes sample_input) as Hb by (repeat (constructor; [u_lia|]); constructor).
  pose proof (tcp_frames_stream sample_state sample_input 40 sample_state_wf Hb) as Hs.
  assert (let r := input_with_limit sample_input 40 sample_state in r.1 = Ok tt /\ map fst (t_ready r.2) = [[1; 2; 3; 4; 5; 6; 7; 8; 9; 10; 11; 12]]) as Hr
    by (vm_compute; split; reflexivity).
  destruct (input_with_limit sample_input 40 sample_state) as [r t']. destruct Hr as [Hr Hf]. cbn [fst snd] in Hr, Hf. subst r.
  destruct Hs as [(_ & _ & Hs & _) _]. exists t'. split; [reflexivity|]. split; [exact Hs|exact Hf].
Defined.

(** What is sent is one frame of the stream; a connection starts with an empty one. *)
Lemma frame_decode s w : frame s = Ok w -> decode w = ([s], []).
Proof.
  unfold frame. destruct (negb _) eqn:Hc; [done|]. apply negb_false_iff, andb_true_iff in Hc as [H1%Z.leb_le H2%Z.leb_le]. intros Hw. assert (w = be16 (len s mod 65536) ++ s) as -> by congruence.
  unfold MAX_WIRE in H2. rewrite (Z.mod_small (len s) 65536) by lia. destruct (be16_split (len s)) as (c0 & c1 & -> & Hn); [u_lia|]. cbn [app].
  apply (scans_decode MAX_WIRE). rewrite <-(app_nil_r s) at 1. apply sc_frame; [unfold MAX_WIRE; lia|done|by apply sc_end].
Qed.
Lemma frames_new_ok max t : frames_new max = Ok t -> frames_wf t /\ stream t = [].
Proof.
  unfold frames_new. destruct (negb _) eqn:Hc; [done|]. apply negb_false_iff, andb_true_iff in Hc as [H1%Z.leb_le H2%Z.leb_le]. intros [= <-].
  split; [|done]. by split; try done; constructor.
Qed.
