(* ===== verification/Ipv4Host.v ===== *)
(** The IPv4 host interface ([src/src/ipv4/mod.rs]): its address, routes, the neighbor
    cache with packets waiting for ARP, and the queue of received packets. *)

From S2P Require Import Prelude Effects Ipv4Wire Maps.

Record Neighbor := mkNeighbor { n_mac : option bytes; n_deadline : Z; n_attempts : Z; n_queue : list bytes }.
Record Route := mkRoute { rt_network : Z; rt_length : Z; rt_gateway : Z }.
Record Ipv4 := mkIpv4 {
  i_mac : bytes;
  i_address : option (Z * Z);
  i_gateway : option Z;
  i_neighbors : gmap Z Neighbor;
  i_routes : list Route;
  i_input : list bytes;
  i_arp_window : Z;
  i_arp_sent : Z;
}.
Abbreviation MI := (M Ipv4 io_error).
Definition put_neighbors n h := mkIpv4 (i_mac h) (i_address h) (i_gateway h) n (i_routes h) (i_input h) (i_arp_window h) (i_arp_sent h).
Definition put_routes r h := mkIpv4 (i_mac h) (i_address h) (i_gateway h) (i_neighbors h) r (i_input h) (i_arp_window h) (i_arp_sent h).
Definition put_input q h := mkIpv4 (i_mac h) (i_address h) (i_gateway h) (i_neighbors h) (i_routes h) q (i_arp_window h) (i_arp_sent h).
Definition put_arp w n h := mkIpv4 (i_mac h) (i_address h) (i_gateway h) (i_neighbors h) (i_routes h) (i_input h) w n.
(** A new address, or none, with everything learned dropped. *)
Definition put_address a g h := mkIpv4 (i_mac h) a g ∅ [] [] (i_arp_window h) (i_arp_sent h).

Definition host_new (mac : bytes) : Ipv4 := mkIpv4 mac None None ∅ [] [] 0 0.
Definition host_default : Ipv4 := host_new [2; 0; 0; 0; 0; 1].

(** ** Prefixes; every length is checked to be at most 32 before it comes here *)

(** [u32::MAX.checked_shl(32 - length).unwrap_or(0)] *)
Definition mask_high (length : Z) : Z :=
  if 32 - length <? 32 then Z.land (Z.shiftl u32_max (32 - length)) u32_max else 0.
(** [u32::MAX.checked_shr(length).unwrap_or(0)] *)
Definition mask_low (length : Z) : Z := if length <? 32 then Z.shiftr u32_max length else 0.
Definition same_prefix (a b length : Z) : bool := Z.land a (mask_high length) =? Z.land b (mask_high length).
Definition host_address (address length : Z) : bool :=
  (31 <=? length)
  || negb (Z.land address (mask_low length) =? 0) && negb (Z.land address (mask_low length) =? mask_low length).

Definition configure (address length : Z) (gateway : option Z) : MI unit :=
  if (32 <? length) || negb (unicast address) || negb (host_address address length)
     || match gateway with Some g => negb (unicast g) || negb (same_prefix address g length) | None => false end
  then throw OtherError
  else modify (put_address (Some (address, length)) gateway).
Definition unavailable : MI unit := modify (put_address None None).
Definition ready (h : Ipv4) : bool := bool_decide (is_Some (i_address h)).
Definition route_refused (address length : Z) (r : Route) : bool :=
  (32 <? rt_length r)
  || negb (rt_length r =? 0) && negb (unicast (rt_network r))
  || negb (Z.land (rt_network r) (mask_low (rt_length r)) =? 0)
  || negb (is_unspecified4 (rt_gateway r))
     && (negb (unicast (rt_gateway r)) || negb (host_address (rt_gateway r) length)
         || negb (same_prefix address (rt_gateway r) length)).
Definition set_routes (routes : list Route) : MI unit :=
  h ← get;
  '(address, length) ← lift (ok_or (i_address h) OtherError);
  if (64 <? len routes) || existsb (route_refused address length) routes then throw OtherError else
  modify (put_routes routes) ;;
  modify (put_neighbors ∅).
Definition bytes_total (l : list bytes) : Z := foldr (fun p n => len p + n) 0 l.
Definition pending_input (h : Ipv4) : Z * Z := (len (i_input h), bytes_total (i_input h)).
Definition take_packet : MI (option bytes) :=
  h ← get;
  match i_input h with
  | [] => mret None
  | p :: rest => modify (put_input rest) ;; mret (Some p)
  end.
(** [.filter(..).max_by_key(|r| r.length)]: the last of the longest. *)
Definition longer (best : option Route) (r : Route) : option Route :=
  match best with
  | Some b => if rt_length r <? rt_length b then Some b else Some r
  | None => Some r
  end.
Definition best_route (routes : list Route) (destination : Z) : option Route :=
  foldl longer None (filter (fun r => same_prefix (rt_network r) destination (rt_length r) = true) routes).
Definition next_hop (destination : Z) (h : Ipv4) : option Z :=
  match i_address h with
  | None => None
  | Some (address, length) =>
      if negb (unicast destination) then None else
      let mask := mask_low length in
      if (length <? 31) && same_prefix address destination length
         && ((Z.land destination mask =? mask) || (Z.land destination mask =? 0))
      then None else
      match best_route (i_routes h) destination with
      | Some route =>
          if (length <? rt_length route) || negb (same_prefix address destination length) then
            Some (if is_unspecified4 (rt_gateway route) then destination else rt_gateway route)
          else if same_prefix address destination length then Some destination else i_gateway h
      | None => if same_prefix address destination length then Some destination else i_gateway h
      end
  end.

(** ** ARP and packets *)

Definition ethernet (source destination payload : bytes) : bytes := destination ++ source ++ [8; 0] ++ payload.
Definition probe (destination : Z) : MI bytes :=
  h ← get;
  a ← lift (unwrap (i_address h));
  mret (arp_encode (mkArp 1 (i_mac h) a.1 (zeros 6) destination) (replicate 6 255)).
Definition allow_arp (now : Z) : MI bool :=
  h ← get;
  (if sat64 (i_arp_window h) 1000 <=? now then modify (put_arp now 0) else mret tt) ;;
  h ← get;
  if 32 <=? i_arp_sent h then mret false else
  n ← lift (add_chk u8_max (i_arp_sent h) 1);
  modify (put_arp (i_arp_window h) n) ;;
  mret true.
Definition queued_packets (m : gmap Z Neighbor) : Z := msum (fun _ n => len (n_queue n)) m.
Definition queued_bytes (m : gmap Z Neighbor) : Z := msum (fun _ n => bytes_total (n_queue n)) m.
Definition set_neighbor (ip : Z) (n : Neighbor) : MI unit := modify (fun h => put_neighbors (<[ip := n]> (i_neighbors h)) h).
Definition is_resolved (now : Z) (n : Neighbor) : option bytes := if now <? n_deadline n then n_mac n else None.
Definition no_mac (n : Neighbor) : bool := match n_mac n with None => true | Some _ => false end.
Definition send (packet : bytes) (now : Z) : MI (list bytes) :=
  p ← lift (parse packet);
  h ← get;
  next ← lift (ok_or (next_hop (pk_destination p) h) OtherError);
  match n ← i_neighbors h !! next; is_resolved now n with
  | Some mac => mret [ethernet (i_mac h) mac (pk_bytes p)]
  | None =>
      modify (fun h => put_neighbors (filter (fun kn => no_mac kn.2 || (now <? n_deadline kn.2) = true) (i_neighbors h)) h) ;;
      h ← get;
      let m := i_neighbors h in
      if negb (has_key m next) && (256 <=? slen m)
         || (64 <=? queued_packets m)
         || (256 * 1024 <? queued_bytes m + len packet)
         || match m !! next with Some n => 4 <=? len (n_queue n) | None => false end
      then throw WouldBlock else
      let first := negb (has_key m next) in
      let n := default (mkNeighbor None (sat64 now 1000) 0 []) (m !! next) in
      set_neighbor next (mkNeighbor (n_mac n) (n_deadline n) (n_attempts n) (n_queue n ++ [pk_bytes p])) ;;
      allowed ← (if first then allow_arp now else mret false);
      if allowed : bool then
        h ← get;
        n ← lift (unwrap (i_neighbors h !! next));
        set_neighbor next (mkNeighbor (n_mac n) (n_deadline n) 1 (n_queue n)) ;;
        q ← probe next;
        mret [q]
      else mret []
  end.
(** A packet for this host goes to the input queue, if there is room. *)
Definition receive_packet (frame : bytes) (address : Z) : MI (list bytes) :=
  h ← get;
  payload ← lift (slice_from frame 14);
  destination ← lift (slice frame 0 6);
  match parse payload with
  | Ok p =>
      let '(count, size) := pending_input h in
      (if (pk_destination p =? address) && unicast (pk_source p) && (0 <? pk_ttl p)
          && beq destination (i_mac h) && (count <? 64) && (size + len (pk_bytes p) <=? 256 * 1024)
       then modify (put_input (i_input h ++ [pk_bytes p])) else mret tt) ;;
      mret []
  | Err _ => mret []
  | Panic => lift Panic
  end.
(** The sender of an ARP message is learned if it asked us, or if we wait for it. *)
Definition learn (a : Arp) (now : Z) : MI (list bytes) :=
  h ← get;
  let m := i_neighbors h in
  if negb (is_unspecified4 (sender a))
     && (has_key m (sender a) || (operation a =? 1))
     && (has_key m (sender a) || (slen m <? 256))
     && ((operation a =? 1)
         || match m !! sender a with
            | Some n => match n_mac n with None => true | Some mac => beq mac (sender_mac a) end
            | None => false
            end)
  then
    let n := default (mkNeighbor None now 0 []) (m !! sender a) in
    set_neighbor (sender a) (mkNeighbor (Some (sender_mac a)) (sat64 now 60000) 0 []) ;;
    mret (map (ethernet (i_mac h) (sender_mac a)) (n_queue n))
  else mret [].
Definition receive_arp (a : Arp) (address length now : Z) : MI (list bytes) :=
  h ← get;
  if beq (sender_mac a) (i_mac h) || (sender a =? address) || negb (target a =? address)
     || negb (is_unspecified4 (sender a)) && negb (same_prefix address (sender a) length)
  then mret [] else
  out ← learn a now;
  allowed ← (if operation a =? 1 then allow_arp now else mret false);
  mret (if allowed : bool
        then out ++ [arp_encode (mkArp 2 (i_mac h) address (sender_mac a) (sender a)) (sender_mac a)]
        else out).
Definition receive (frame : bytes) (now : Z) : MI (list bytes) :=
  h ← get;
  match i_address h with
  | None => mret []
  | Some (address, length) =>
      if len frame <? 14 then mret [] else
      source ← lift (slice frame 6 12);
      s0 ← lift frame.[6];
      d0 ← lift frame.[0];
      destination ← lift (slice frame 0 6);
      if beq source (i_mac h) || negb (Z.land s0 1 =? 0) || beq source (zeros 6)
         || (Z.land d0 1 =? 0) && negb (beq destination (i_mac h))
      then mret [] else
      kind ← lift (slice frame 12 14);
      if beq kind [8; 0] then receive_packet frame address else
      match arp_parse frame with
      | Ok a => receive_arp a address length now
      | Err _ => mret []
      | Panic => lift Panic
      end
  end.
(** Neighbors past their deadline: the unresolved ones that may be asked again. *)
Definition waiting (now : Z) (n : Neighbor) : bool := negb (now <? n_deadline n) && no_mac n && (n_attempts n <? 3).
Fixpoint ask_all (destinations : list Z) (now : Z) : MI (list bytes) :=
  match destinations with
  | [] => mret []
  | ip :: destinations =>
      allowed ← allow_arp now;
      if negb allowed then mret [] else
      h ← get;
      n ← lift (unwrap (i_neighbors h !! ip));
      attempts ← lift (add_chk u8_max (n_attempts n) 1);
      set_neighbor ip (mkNeighbor (n_mac n) (sat64 now 1000) attempts (n_queue n)) ;;
      q ← probe ip;
      out ← ask_all destinations now;
      mret (q :: out)
  end.
Definition poll (now : Z) : MI (list bytes) :=
  h ← get;
  let destinations := merge_sort Z.le (map fst (map_to_list (filter (fun kn => waiting now kn.2 = true) (i_neighbors h)))) in
  modify (put_neighbors (filter (fun kn => (now <? n_deadline kn.2) || waiting now kn.2 = true) (i_neighbors h))) ;;
  ask_all destinations now.

(** ** The invariant *)

Record neighbor_wf (n : Neighbor) : Prop := {
  nw_attempts : 0 <= n_attempts n <= 3;
  nw_queue : len (n_queue n) <= 4;
  nw_resolved : n_mac n <> None -> n_queue n = [];
  nw_packets : Forall is_bytes (n_queue n);
}.
Record table_wf (m : gmap Z Neighbor) : Prop := {
  tw_count : slen m <= 256;
  tw_packets : queued_packets m <= 64;
  tw_bytes : queued_bytes m <= 256 * 1024;
  tw_neighbors : forall ip n, m !! ip = Some n -> neighbor_wf n;
}.
Definition gateway_ok (address length g : Z) : bool := unicast g && same_prefix address g length.
Record host_wf (h : Ipv4) : Prop := {
  hw_table : table_wf (i_neighbors h);
  hw_input : len (i_input h) <= 64 /\ bytes_total (i_input h) <= 256 * 1024;
  hw_arp : 0 <= i_arp_sent h <= 32;
  hw_routes : len (i_routes h) <= 64;
  hw_address :
    match i_address h with
    | Some (a, l) => 0 <= l <= 32 /\ unicast a = true /\ host_address a l = true /\
        (forall g, i_gateway h = Some g -> gateway_ok a l g = true) /\
        Forall (fun r => route_refused a l r = false) (i_routes h)
    | None => i_neighbors h = ∅ /\ i_routes h = [] /\ i_gateway h = None
    end;
}.

Lemma bytes_total_nonneg l : 0 <= bytes_total l.
Proof. unfold bytes_total. induction l as [|p l IH]; cbn [foldr]; [done|]. pose proof (len_nonneg p). lia. Qed.
Lemma bytes_total_app l1 l2 : bytes_total (l1 ++ l2) = bytes_total l1 + bytes_total l2.
Proof. unfold bytes_total. induction l1 as [|p l1 IH]; cbn [app foldr]; [done|]. rewrite IH. lia. Qed.
Lemma table_empty : table_wf ∅.
Proof.
  split; [unfold slen; by rewrite map_size_empty|unfold queued_packets; by rewrite msum_empty|unfold queued_bytes; by rewrite msum_empty|].
  intros ip n. by rewrite lookup_empty.
Qed.
Lemma table_filter (P : Z * Neighbor -> Prop) `{!forall x, Decision (P x)} m : table_wf m -> table_wf (filter P m).
Proof.
  intros [H1 H2 H3 H4]. split.
  - etrans; [apply slen_filter|done].
  - etrans; [apply msum_filter_le; intros; apply len_nonneg|done].
  - etrans; [apply msum_filter_le; intros; apply bytes_total_nonneg|done].
  - intros ip n [Hn _]%map_lookup_filter_Some. by eapply H4.
Qed.
Definition old_queue (m : gmap Z Neighbor) (ip : Z) : list bytes := from_option n_queue [] (m !! ip).
Lemma table_upsert m ip n : table_wf m -> neighbor_wf n -> (m !! ip = None -> slen m < 256) ->
  queued_packets m - len (old_queue m ip) + len (n_queue n) <= 64 ->
  queued_bytes m - bytes_total (old_queue m ip) + bytes_total (n_queue n) <= 256 * 1024 -> table_wf (<[ip := n]> m).
Proof.
  intros [H1 H2 H3 H4] Hn Hc Hp Hb. unfold old_queue in *. split.
  - destruct (m !! ip) as [v|] eqn:Hk; [rewrite slen_update by (by rewrite Hk); done|]. rewrite slen_insert by done. specialize (Hc eq_refl). lia.
  - unfold queued_packets in *. rewrite msum_upsert. by destruct (m !! ip).
  - unfold queued_bytes in *. rewrite msum_upsert. by destruct (m !! ip).
  - intros ip' n' [[_ <-]|[_ Hl]]%lookup_insert_Some; [done|by eapply H4].
Qed.
Lemma table_old m ip n : table_wf m -> m !! ip = Some n -> neighbor_wf n.
Proof. intros Ht. apply (tw_neighbors _ Ht). Qed.
Lemma host_put_arp w n h : host_wf h -> 0 <= n <= 32 -> host_wf (put_arp w n h).
Proof. intros [H1 H2 H3 H4 H5] Hn. by split. Qed.
Lemma host_put_table m h : host_wf h -> table_wf m -> i_address h <> None -> host_wf (put_neighbors m h).
Proof. intros [H1 H2 H3 H4 H5] Hm Ha. split; try done. cbn. by destruct (i_address h) as [[a l]|]. Qed.
Lemma host_filter (P : Z * Neighbor -> Prop) `{!forall x, Decision (P x)} h : host_wf h -> host_wf (put_neighbors (filter P (i_neighbors h)) h).
Proof.
  intros [H1 H2 H3 H4 H5]. split; try done; cbn; [by apply table_filter|].
  destruct (i_address h) as [[a l]|]; [done|]. destruct H5 as (-> & ? & ?). by rewrite map_filter_empty.
Qed.
(** Some ARP is allowed or not, and the count stays within its limit. *)
Lemma allow_arp_ok h now : 0 <= i_arp_sent h <= 32 -> exists b w n, allow_arp now h = (Ok b, put_arp w n h) /\ 0 <= n <= 32.
Proof.
  intros Hn. unfold allow_arp. cbv [mbind M_bind get]. destruct (_ <=? now).
  - cbv [modify lift mret M_ret throw]. cbn. eexists true, _, _. split; [reflexivity|lia].
  - cbv [mret M_ret lift modify]. destruct (Z.leb_spec 32 (i_arp_sent h)).
    + exists false, (i_arp_window h), (i_arp_sent h). by destruct h.
    + unfold add_chk. destruct (Z.leb_spec (i_arp_sent h + 1) u8_max); [|u_lia]. eexists true, _, _. split; [reflexivity|lia].
Qed.

(** ** Every operation keeps it *)

Lemma next_hop_address d h n : next_hop d h = Some n -> i_address h <> None.
Proof. unfold next_hop. by destruct (i_address h) as [[a l]|]. Qed.
Lemma parse_bytes b p : is_bytes b -> parse b = Ok p -> is_bytes (pk_bytes p) /\ len (pk_bytes p) <= len b.
Proof.
  intros Hb Hp. apply (parse_inner_Ok b false) in Hp as (H1 & H2 & _); [|done].
  split; [rewrite H1; by apply is_bytes_sub|done].
Qed.
Lemma host_configure_ok a l g : is_u8 l -> preserves host_wf (configure a l g).
Proof.
  intros Hl h Hh. unfold configure. destruct (_ || _ || _ || _) eqn:Hc; [done|]. apply orb_false_iff in Hc as [[[H1%Z.ltb_ge H2%negb_false_iff]%orb_false_iff H3%negb_false_iff]%orb_false_iff H4].
  destruct Hh as [_ _ Ha _ _]. split; cbn; [exact table_empty|done|done|done|]. split; [u_lia|]. split; [done|]. split; [done|]. split; [|constructor].
  intros g' ->. apply orb_false_iff in H4 as [? ?]. unfold gateway_ok. apply andb_true_iff. split; by apply negb_false_iff.
Qed.
Lemma unavailable_ok : preserves host_wf unavailable.
Proof. intros h [_ _ Ha _ _]. split; cbn; [exact table_empty|done|done|done|done]. Qed.
Lemma set_routes_ok rs : preserves host_wf (set_routes rs).
Proof.
  intros h Hh. cbv [set_routes mbind M_bind get lift throw modify]. destruct (i_address h) as [[a l]|] eqn:Ha; [|done]. cbn [ok_or].
  destruct (_ || _) eqn:Hc; [done|]. apply orb_false_iff in Hc as [H1%Z.ltb_ge H2]. destruct Hh as [_ Hi Harp _ H]. rewrite Ha in H. destruct H as (? & ? & ? & ? & _).
  split; cbn; [exact table_empty|done|done|done|]. rewrite Ha. do 4 (split; [done|]). apply List.Forall_forall. intros r Hr.
  apply not_true_iff_false. intros Hx. apply not_true_iff_false in H2. apply H2, existsb_exists. by exists r.
Qed.
Lemma take_packet_ok : preserves host_wf take_packet.
Proof.
  intros h Hh. cbv [take_packet mbind M_bind get mret M_ret modify]. destruct (i_input h) as [|p rest] eqn:Hi; [done|].
  destruct Hh as [H1 H2 H3 H4 H5]. rewrite Hi in H2. split; try done. cbn. rewrite len_cons in H2. unfold bytes_total in *. cbn [foldr] in H2. pose proof (len_nonneg p). lia.
Qed.

Lemma no_mac_true n : no_mac n = true <-> n_mac n = None.
Proof. unfold no_mac. by destruct (n_mac n). Qed.
Lemma host_sent h now : host_wf h -> exists b h', allow_arp now h = (Ok b, h') /\ host_wf h' /\ i_neighbors h' = i_neighbors h /\ i_address h' = i_address h /\ i_mac h' = i_mac h.
Proof. intros Hh. destruct (allow_arp_ok h now (hw_arp _ Hh)) as (b & w & n & -> & Hn). eexists b, _. split; [reflexivity|]. split; [by apply host_put_arp|done]. Qed.
Lemma probe_ok ip h : i_address h <> None -> exists q, probe ip h = (Ok q, h).
Proof. intros Ha. unfold probe. cbv [mbind M_bind get lift unwrap mret M_ret]. destruct (i_address h) as [[a l]|]; [by eexists|done]. Qed.
Lemma queue_ok m next n p size : table_wf m -> is_bytes p -> len p <= size ->
  n = default (mkNeighbor None n.(n_deadline) 0 []) (m !! next) -> n_mac n = None ->
  negb (has_key m next) && (256 <=? slen m) || (64 <=? queued_packets m) || (256 * 1024 <? queued_bytes m + size)
    || match m !! next with Some n => 4 <=? len (n_queue n) | None => false end = false ->
  table_wf (<[next := mkNeighbor (n_mac n) (n_deadline n) (n_attempts n) (n_queue n ++ [p])]> m).
Proof.
  intros Hm Hp Hsize Hn Hmac Hroom. apply orb_false_iff in Hroom as [[[H1 H2%Z.leb_gt]%orb_false_iff H3%Z.ltb_ge]%orb_false_iff H4].
  assert (neighbor_wf n) as [W1 W2 W3 W4].
  { rewrite Hn. destruct (m !! next) as [n'|] eqn:E; cbn; [by eapply table_old|]. split; cbn; [lia|unfold len; cbn; lia|done|constructor]. }
  assert (old_queue m next = n_queue n) as Hold by (unfold old_queue; rewrite Hn; by destruct (m !! next)).
  assert (len (n_queue n) < 4) as Hlen.
  { rewrite <-Hold. unfold old_queue. destruct (m !! next); cbn; [lia|unfold len; cbn; lia]. }
  assert (bytes_total [p] = len p) as Hone by (unfold bytes_total; cbn [foldr]; lia).
  apply table_upsert; [done| | | |]; cbn [n_queue n_mac n_attempts]; rewrite ?Hold, ?len_app, ?bytes_total_app, ?Hone; change (len [p]) with 1.
  - split; cbn [n_queue n_mac n_attempts]; [done|rewrite len_app; change (len [p]) with 1; lia|by rewrite Hmac|].
    apply List.Forall_app. split; [done|by constructor].
  - intros E. apply andb_false_iff in H1 as [H1|H1%Z.leb_gt]; [|done]. apply negb_false_iff, has_key_true in H1. rewrite E in H1. by destruct H1.
  - lia.
  - lia.
Qed.
(** Asking again for an entry. *)
Lemma table_touch m ip n d a : table_wf m -> m !! ip = Some n -> 0 <= a <= 3 ->
  table_wf (<[ip := mkNeighbor (n_mac n) d a (n_queue n)]> m).
Proof.
  intros Hm Hn Ha. assert (old_queue m ip = n_queue n) as Hold by (unfold old_queue; by rewrite Hn).
  destruct (table_old _ _ _ Hm Hn) as [_ W2 W3 W4]. pose proof (tw_packets _ Hm). pose proof (tw_bytes _ Hm).
  apply table_upsert; [done|by split| |rewrite Hold; cbn [n_queue]; lia|rewrite Hold; cbn [n_queue]; lia]. by rewrite Hn.
Qed.
Lemma send_ok packet now : is_bytes packet -> preserves host_wf (send packet now).
Proof.
  intros Hb h Hh. cbv [send mbind M_bind get lift throw mret M_ret]. pose proof (parse_inner_safe packet false Hb) as Hsafe.
  change (parse_inner packet false) with (parse packet) in Hsafe. destruct (parse packet) as [p|e|] eqn:Hp; [|done|done].
  destruct (parse_bytes _ _ Hb Hp) as [Hpb Hpl]. destruct (next_hop (pk_destination p) h) as [next|] eqn:Hnext; [|done]. cbn [ok_or].
  pose proof (next_hop_address _ _ _ Hnext) as Ha.
  destruct (option_bind _ _ _ _) as [mac|] eqn:Hres; [done|]. unfold modify at 1. cbv iota beta.
  set (h1 := put_neighbors (filter _ _) h). assert (host_wf h1) as H1 by (by apply host_filter).
  set (m := i_neighbors h1). destruct (_ || _) eqn:Hroom; [exact H1|].
  set (n := default _ (m !! next)). cbv [set_neighbor modify].
  assert (n_mac n = None) as Hmac.
  { unfold n. destruct (m !! next) as [n'|] eqn:Hn; [|done]. apply map_lookup_filter_Some in Hn as [Hn Hkeep]. cbn [default snd] in *.
    rewrite Hn in Hres. cbn in Hres. unfold is_resolved in Hres. apply orb_true_iff in Hkeep as [Hk|Hk]; [by apply no_mac_true|]. by rewrite Hk in Hres. }
  assert (table_wf (<[next := mkNeighbor (n_mac n) (n_deadline n) (n_attempts n) (n_queue n ++ [pk_bytes p])]> m)) as Ht.
  { apply (queue_ok m next n (pk_bytes p) (len packet)); [apply H1|done|done| |done|exact Hroom]. unfold n. by destruct (m !! next). }
  set (h2 := put_neighbors _ h1). assert (host_wf h2) as H2 by (by apply host_put_table).
  destruct (negb _); [|exact H2]. destruct (host_sent h2 now H2) as (b & h3 & -> & H3 & Hn3 & Ha3 & _). destruct b; [|exact H3].
  rewrite Hn3. cbn [h2 put_neighbors i_neighbors]. rewrite lookup_insert_eq. cbn [unwrap].
  cbv [set_neighbor modify].
  match goal with |- context [probe next ?h4] => destruct (probe_ok next h4) as [q ->]; [cbn; by rewrite Ha3|] end.
  apply host_put_table; [exact H3|apply (table_touch _ _ _ _ 1 Ht)|by rewrite Ha3]; [by rewrite lookup_insert_eq|lia].
Qed.
Lemma receive_packet_ok frame a : is_bytes frame -> 14 <= len frame -> preserves host_wf (receive_packet frame a).
Proof.
  intros Hf Hl h Hh. cbv [receive_packet mbind M_bind get lift mret M_ret modify].
  assert (slice_from (E:=io_error) frame 14 = Ok (sub frame 14 (len frame))) as -> by (apply slice_from_Ok; split; [lia|done]).
  assert (slice (E:=io_error) frame 0 6 = Ok (sub frame 0 6)) as -> by (apply slice_Ok; split; [lia|]; split; [lia|done]).
  assert (is_bytes (sub frame 14 (len frame))) as Hb by (by apply is_bytes_sub).
  pose proof (parse_inner_safe _ false Hb) as Hsafe. change (parse_inner ?b false) with (parse b) in Hsafe.
  destruct (parse _) as [p|e|] eqn:Hp; [|done|done]. unfold pending_input. destruct (_ && _) eqn:Hc; [|done].
  apply andb_true_iff in Hc as [[_ Hcount%Z.ltb_lt]%andb_true_iff Hsize%Z.leb_le]. destruct Hh as [H1 H2 H3 H4 H5].
  split; try done. cbn [put_input i_input]. rewrite len_app, bytes_total_app. unfold bytes_total at 2. cbn [foldr]. change (len [pk_bytes p]) with 1. lia.
Qed.
Lemma learn_ok h a now : host_wf h -> i_address h <> None ->
  exists out h', learn a now h = (Ok out, h') /\ host_wf h' /\ i_address h' = i_address h.
Proof.
  intros Hh Ha. cbv [learn mbind M_bind get mret M_ret set_neighbor modify]. destruct (_ && _) eqn:Hc; [|by eexists _, h].
  eexists _, _. split; [reflexivity|]. split; [|done]. apply host_put_table; [done| |done]. pose proof (hw_table _ Hh) as Ht.
  pose proof (tw_packets _ Ht). pose proof (tw_bytes _ Ht). pose proof (len_nonneg (old_queue (i_neighbors h) (sender a))).
  pose proof (bytes_total_nonneg (old_queue (i_neighbors h) (sender a))).
  apply table_upsert; [done| | | |]; cbn [n_queue].
  - split; cbn; [lia|unfold len; cbn; lia|done|constructor].
  - intros Hn. apply andb_true_iff in Hc as [[_ Hc]%andb_true_iff _]. apply orb_true_iff in Hc as [Hc|Hc%Z.ltb_lt]; [|done].
    apply has_key_true in Hc as [? Hc]. congruence.
  - change (len (@nil bytes)) with 0. lia.
  - change (bytes_total []) with 0. lia.
Qed.
Lemma receive_arp_ok h a ad l now : host_wf h -> i_address h <> None ->
  exists out h', receive_arp a ad l now h = (Ok out, h') /\ host_wf h'.
Proof.
  intros Hh Ha. cbv [receive_arp mbind M_bind get mret M_ret]. destruct (_ || _); [by eexists _, h|].
  destruct (learn_ok h a now Hh Ha) as (out & h1 & -> & H1 & _). destruct (operation a =? 1); [|by eexists _, h1].
  destruct (host_sent h1 now H1) as (b & h2 & -> & H2 & _). by eexists _, h2.
Qed.
Lemma receive_ok frame now : is_bytes frame -> preserves host_wf (receive frame now).
Proof.
  intros Hf h Hh. cbv [receive mbind M_bind get lift mret M_ret]. destruct (i_address h) as [[a l]|] eqn:Ha; [|done].
  destruct (Z.ltb_spec (len frame) 14) as [|Hl]; [done|].
  assert (slice (E:=io_error) frame 6 12 = Ok (sub frame 6 12)) as -> by (apply slice_Ok; split; [lia|]; split; [lia|done]).
  pose proof (safe_idx (E:=io_error) frame 6 ltac:(lia)). destruct (frame.[6]) as [s0|e|]; [|done|done].
  pose proof (safe_idx (E:=io_error) frame 0 ltac:(lia)). destruct (frame.[0]) as [d0|e|]; [|done|done].
  assert (slice (E:=io_error) frame 0 6 = Ok (sub frame 0 6)) as -> by (apply slice_Ok; split; [lia|]; split; [lia|done]).
  destruct (_ || _); [done|].
  assert (slice (E:=io_error) frame 12 14 = Ok (sub frame 12 14)) as -> by (apply slice_Ok; split; [lia|]; split; [lia|done]).
  destruct (beq _ _); [by apply receive_packet_ok|]. pose proof (arp_parse_safe frame Hf).
  destruct (arp_parse frame) as [m|e|]; [|done|done].
  destruct (receive_arp_ok h m a l now Hh) as (out & h' & -> & H'); [by rewrite Ha|done].
Qed.
Lemma waiting_wf now n : waiting now n = true -> n_attempts n < 3.
Proof. intros [_ H%Z.ltb_lt]%andb_true_iff. done. Qed.
(** The keys still to be asked may be asked. *)
Lemma ask_all_ok ds now h : host_wf h -> i_address h <> None -> NoDup ds ->
  (forall ip, ip ∈ ds -> exists n, i_neighbors h !! ip = Some n /\ n_attempts n < 3) ->
  exists out h', ask_all ds now h = (Ok out, h') /\ host_wf h'.
Proof.
  revert h. induction ds as [|ip ds IH]; intros h Hh Ha Hnd Hds; cbn [ask_all]; [by eexists _, h|].
  cbv [mbind M_bind get lift mret M_ret]. destruct (host_sent h now Hh) as (b & h1 & -> & H1 & Hn1 & Ha1 & _). destruct b; cbn [negb]; [|by eexists _, h1].
  destruct (Hds ip) as (n & Hn & Hat); [by left|]. rewrite Hn1, Hn. cbn [unwrap].
  pose proof (hw_table _ Hh) as Ht. pose proof (nw_attempts _ (table_old _ _ _ Ht Hn)).
  unfold add_chk. destruct (Z.leb_spec (n_attempts n + 1) u8_max); [|u_lia]. cbv [set_neighbor modify].
  match goal with |- context [probe ip ?h2] => set (H2 := h2); destruct (probe_ok ip H2) as [q ->]; [cbn; by rewrite Ha1|] end.
  apply list.NoDup_cons in Hnd as [Hip Hnd]. destruct (IH H2) as (out & h' & -> & H'); [| |done| |by eexists _, h'].
  - apply host_put_table; [done| |by rewrite Ha1]. rewrite Hn1. apply table_touch; [done|done|lia].
  - cbn. by rewrite Ha1.
  - intros ip' Hin. cbn. rewrite Hn1, lookup_insert_ne by (by intros ->). apply Hds. by right.
Qed.
Lemma poll_ok now : preserves host_wf (poll now).
Proof.
  intros h Hh. cbv [poll mbind M_bind get modify]. set (ds := merge_sort _ _). set (h1 := put_neighbors _ h).
  assert (host_wf h1) as H1 by (by apply host_filter).
  assert (forall ip, ip ∈ ds -> exists n, i_neighbors h !! ip = Some n /\ waiting now n = true) as Hds.
  { intros ip Hin. unfold ds in Hin. rewrite merge_sort_Permutation, list_elem_of_fmap in Hin. destruct Hin as ([k n] & -> & Hk%elem_of_map_to_list).
    apply map_lookup_filter_Some in Hk as [Hk Hw]. by exists n. }
  assert (i_address h <> None \/ ds = []) as [Ha|Hnil].
  { destruct (i_address h) as [[a l]|] eqn:Ha; [by left|right]. pose proof (hw_address _ Hh) as H. rewrite Ha in H. destruct H as [H _].
    destruct ds as [|ip ds']; [done|]. destruct (Hds ip) as (n & Hn & _); [by left|]. by rewrite H in Hn. }
  - destruct (ask_all_ok ds now h1) as (out & h' & -> & H'); [done|done| | |done].
    + unfold ds. rewrite merge_sort_Permutation. apply NoDup_fst_map_to_list.
    + intros ip Hin. destruct (Hds ip Hin) as (n & Hn & Hw). exists n. split; [|by eapply waiting_wf]. cbn. apply map_lookup_filter_Some. split; [done|].
      cbn. by rewrite Hw, orb_true_r.
  - rewrite Hnil. exact H1.
Qed.

(** ** Histories *)

Inductive host_event :=
| Configured (address length : Z) (gateway : option Z)
| Unavailable
| RoutesSet (routes : list Route)
| PacketTaken
| Sent (packet : bytes) (now : Z)
| Received (frame : bytes) (now : Z)
| Polled (now : Z).
Definition host_event_ok (e : host_event) : Prop :=
  match e with
  | Configured _ length _ => is_u8 length
  | Sent b _ | Received b _ => is_bytes b
  | _ => True
  end.
Definition no_output {A} (m : MI A) : MI (list bytes) := m ;; mret [].
Definition host_handle (e : host_event) : MI (list bytes) :=
  match e with
  | Configured a l g => no_output (configure a l g)
  | Unavailable => no_output unavailable
  | RoutesSet rs => no_output (set_routes rs)
  | PacketTaken => no_output take_packet
  | Sent p now => send p now
  | Received f now => receive f now
  | Polled now => poll now
  end.
Inductive host_reachable : Ipv4 -> Prop :=
| host_start mac : host_reachable (host_new mac)
| host_step h e : host_reachable h -> host_event_ok e -> host_reachable (snd (host_handle e h)).
Lemma no_output_ok {A} (m : MI A) : preserves host_wf m -> preserves host_wf (no_output m).
Proof. intros Hm. eapply triple_bind; [exact Hm|]. intros a h Hh. exact Hh. Qed.
Lemma handle_ok e : host_event_ok e -> preserves host_wf (host_handle e).
Proof.
  destruct e; cbn [host_event_ok host_handle]; intros He; try apply no_output_ok;
    [by apply host_configure_ok|apply unavailable_ok|apply set_routes_ok|apply take_packet_ok|by apply send_ok|by apply receive_ok|apply poll_ok].
Qed.
Lemma host_new_ok mac : host_wf (host_new mac).
Proof. split; cbn; [exact table_empty|done|done|done|done]. Qed.
Lemma host_reachable_ok h : host_reachable h -> host_wf h.
Proof.
  induction 1 as [mac|h e _ IH He]; [apply host_new_ok|]. pose proof (handle_ok e He h IH) as H. destruct (host_handle e h) as [[out|err|] h']; [done|done|done].
Qed.

(** ** Theorems *)

Lemma longer_spec rs acc : 
  match foldl longer acc rs with
  | Some r => (r ∈ rs \/ acc = Some r) /\ (forall r', r' ∈ rs \/ acc = Some r' -> rt_length r' <= rt_length r)
  | None => acc = None /\ rs = []
  end.
Proof.
  revert acc. induction rs as [|x rs IH]; intros acc; cbn [foldl].
  - destruct acc as [r|]; [|done]. split; [by right|]. intros r' [H|[= ->]]; [by apply not_elem_of_nil in H|lia].
  - specialize (IH (longer acc x)). destruct (foldl longer (longer acc x) rs) as [r|].
    + destruct IH as [Hr Hmax]. split.
      * destruct Hr as [Hr|Hr]; [left; by right|]. unfold longer in Hr. destruct acc as [b|]; [|injection Hr as ->; left; by left].
        destruct (_ <? _); injection Hr as ->; [by right|left; by left].
      * assert (rt_length x <= rt_length r /\ (forall b, acc = Some b -> rt_length b <= rt_length r)) as [Hx Hb].
        { unfold longer in Hmax. destruct acc as [b|]; [|split; [by apply Hmax; right|done]].
          destruct (Z.ltb_spec (rt_length x) (rt_length b)); specialize (Hmax _ (or_intror eq_refl)); (split; [lia|]); intros ? [= <-]; lia. }
        intros r' [Hin|Hacc]; [|by apply Hb]. apply elem_of_cons in Hin as [->|Hin]; [done|]. apply Hmax. by left.
    + destruct IH as [IH _]. unfold longer in IH. destruct acc as [b|]; [|done]. by destruct (_ <? _).
Qed.
Definition matches (d : Z) (r : Route) : Prop := same_prefix (rt_network r) d (rt_length r) = true.
Lemma best_route_spec rs d :
  match best_route rs d with
  | Some r => r ∈ rs /\ matches d r /\ forall r', r' ∈ rs -> matches d r' -> rt_length r' <= rt_length r
  | None => forall r, r ∈ rs -> ~ matches d r
  end.
Proof.
  unfold best_route. pose proof (longer_spec (filter (fun r => same_prefix (rt_network r) d (rt_length r) = true) rs) None) as H.
  destruct (foldl _ _ _) as [r|].
  - destruct H as [[Hr|Hr] Hmax]; [|done]. apply list_elem_of_filter in Hr as [Hm Hr]. split; [done|]. split; [done|].
    intros r' Hr' Hm'. apply Hmax. left. by apply list_elem_of_filter.
  - destruct H as [_ H]. intros r Hr Hm. assert (r ∈ filter (fun r => same_prefix (rt_network r) d (rt_length r) = true) rs) as Hin by (by apply list_elem_of_filter).
    rewrite H in Hin. by apply not_elem_of_nil in Hin.
Qed.

(** The IPv4 interface stays within its limits over every history of configuration,
    packets, ARP and polls, for all input bytes: 256 neighbors, 64 packets and 256 KiB
    waiting for ARP and as many received, four per neighbor, three requests each; and no
    operation panics. *)
Theorem ipv4_host_safe h e : host_reachable h -> host_event_ok e ->
  host_wf h /\ safe (fst (host_handle e h)) /\ host_wf (snd (host_handle e h)).
Proof.
  intros Hh He. apply host_reachable_ok in Hh. split; [done|]. pose proof (handle_ok e He h Hh) as H.
  by destruct (host_handle e h) as [[out|err|] h'].
Qed.

(** The next hop is that of the longest matching prefix among the subnet and the routes,
    the gateway only where none matches, and can always be asked for with ARP: it is a
    unicast address, the destination itself or a host of the subnet. *)
Theorem ipv4_next_hop h d n : host_wf h -> next_hop d h = Some n ->
  exists a l, i_address h = Some (a, l) /\ unicast d = true /\ unicast n = true /\ (n = d \/ same_prefix a n l = true) /\
    ((same_prefix a d l = true /\ n = d /\ forall r, r ∈ i_routes h -> matches d r -> rt_length r <= l) \/
     (exists r, r ∈ i_routes h /\ matches d r /\ n = (if is_unspecified4 (rt_gateway r) then d else rt_gateway r) /\
        (same_prefix a d l = true -> l < rt_length r) /\ forall r', r' ∈ i_routes h -> matches d r' -> rt_length r' <= rt_length r) \/
     (same_prefix a d l = false /\ (forall r, r ∈ i_routes h -> ~ matches d r) /\ i_gateway h = Some n)).
Proof.
  intros Hh. unfold next_hop. pose proof (hw_address _ Hh) as H. destruct (i_address h) as [[a l]|]; [|done]. destruct H as (_ & _ & _ & Hg & Hr).
  destruct (unicast d) eqn:Hd; [|done]. cbn [negb]. destruct (_ && _ && _); [done|]. pose proof (best_route_spec (i_routes h) d) as Hbest.
  assert (forall g, i_gateway h = Some g -> unicast g = true /\ same_prefix a g l = true) as Hgw by (intros g E; by apply andb_true_iff, Hg).
  intros Hn. exists a, l. split; [done|]. split; [done|].
  destruct (best_route (i_routes h) d) as [r|].
  - destruct Hbest as (Hin & Hm & Hmax). destruct ((l <? rt_length r) || negb (same_prefix a d l)) eqn:Hc.
    + injection Hn as <-. assert (let n := if is_unspecified4 (rt_gateway r) then d else rt_gateway r in unicast n = true /\ (n = d \/ same_prefix a n l = true)) as [H1 H2].
      { rewrite List.Forall_forall in Hr. specialize (Hr r ltac:(by apply list_elem_of_In)). apply orb_false_iff in Hr as [_ Hr].
        destruct (is_unspecified4 (rt_gateway r)); [split; [done|by left]|]. cbn in Hr. apply orb_false_iff in Hr as [[H1%negb_false_iff _]%orb_false_iff H2%negb_false_iff].
        split; [done|by right]. }
      split; [done|]. split; [done|]. right; left. exists r. split; [done|]. split; [done|]. split; [done|]. split; [|done].
      intros E. rewrite E, orb_false_r in Hc. by apply Z.ltb_lt.
    + apply orb_false_iff in Hc as [Hc%Z.ltb_ge Hs%negb_false_iff]. rewrite Hs in Hn. injection Hn as <-. split; [done|]. split; [by left|]. left.
      split; [done|]. split; [done|]. intros r' Hr' Hm'. etrans; [by apply Hmax|done].
  - destruct (same_prefix a d l) eqn:Hs.
    + injection Hn as <-. split; [done|]. split; [by left|]. left. split; [done|]. split; [done|]. intros r Hin Hm. by destruct (Hbest r Hin).
    + destruct (Hgw n Hn). split; [done|]. split; [by right|]. right; right. done.
Qed.

(** The answer of a neighbor that is waited for. *)
Definition reply (h : Ipv4) (mac : bytes) (s a : Z) : Arp := mkArp 2 mac s (i_mac h) a.
(** Packets wait for their next hop and are not lost: its ARP reply releases all of them,
    in order, to the address it gives, and for a minute later packets leave at once. *)
Theorem ipv4_waiting_delivered h a l s mac n now : host_wf h -> i_address h = Some (a, l) ->
  arp_wf (reply h mac s a) -> mac <> i_mac h -> s <> a -> same_prefix a s l = true ->
  i_neighbors h !! s = Some n -> n_mac n = None ->
  let h' := put_neighbors (<[s := mkNeighbor (Some mac) (sat64 now 60000) 0 []]> (i_neighbors h)) h in
  receive (arp_encode (reply h mac s a) (i_mac h)) now h = (Ok (map (ethernet (i_mac h) mac) (n_queue n)), h') /\
  forall t packet p, t < sat64 now 60000 -> parse packet = Ok p -> next_hop (pk_destination p) h = Some s ->
    send packet t h' = (Ok [ethernet (i_mac h) mac (pk_bytes p)], h').
Proof.
  intros Hh Ha Hwf Hmac Hs Hsub Hn Hnone h'. split.
  - pose proof Hwf as (_ & Hsm & (m0 & Hm0 & Hm1) & Hz & Htm & _). cbn [reply sender_mac target_mac] in Hsm, Hm0, Hz, Htm.
    assert (exists d0, i_mac h !! 0%nat = Some d0) as [d0 Hd0] by (apply lookup_lt_is_Some_2; unfold len in Htm; lia).
    assert (arp_parse (arp_encode (reply h mac s a) (i_mac h)) = Ok (reply h mac s a)) as Hparse by (by apply (arp_roundtrip _ _ d0)).
    destruct (arp_reads (reply h mac s a) (i_mac h) Htm Hsm Htm) as (Hl & R1 & _ & _ & _ & R6 & R7 & _).
    cbv [receive mbind M_bind get lift mret M_ret]. rewrite Ha, Hl. change (42 <? 14) with false. cbv iota. rewrite R6, R7. cbv iota beta.
    assert (idx (E:=io_error) (arp_encode (reply h mac s a) (i_mac h)) 6 = Ok m0) as ->.
    { unfold arp_encode. cbn [reply sender_mac]. apply idx_Ok. split; [lia|]. rewrite lookup_app_r by (unfold len in Htm; lia).
      replace (Z.to_nat 6 - length (i_mac h))%nat with 0%nat by (unfold len in Htm; lia). by destruct mac. }
    assert (idx (E:=io_error) (arp_encode (reply h mac s a) (i_mac h)) 0 = Ok d0) as ->.
    { unfold arp_encode. apply idx_Ok. split; [lia|]. by apply lookup_app_l_Some. }
    cbv iota beta. cbn [reply sender_mac]. rewrite Hm1. assert (beq mac (i_mac h) = false) as -> by (apply not_true_iff_false; by rewrite beq_eq).
    assert (beq mac (zeros 6) = false) as -> by (apply not_true_iff_false; by rewrite beq_eq). rewrite beq_refl, andb_false_r. cbn [Z.eqb negb orb].
    assert (slice (E:=io_error) (arp_encode (reply h mac s a) (i_mac h)) 12 14 = Ok [8; 6]) as ->.
    { unfold arp_encode. rewrite app_assoc. apply (slice_mid (i_mac h ++ mac) [8; 6]); [rewrite len_app; lia|rewrite len_app; change (len [8; 6]) with 2; lia]. }
    cbn [beq Z.eqb Pos.eqb andb]. cbv iota. rewrite Hparse. cbv [receive_arp mbind M_bind get mret M_ret]. cbn [reply sender_mac sender target operation].
    assert (beq mac (i_mac h) = false) as -> by (apply not_true_iff_false; by rewrite beq_eq).
    rewrite Hsub, Z.eqb_refl, andb_false_r. destruct (Z.eqb_spec s a); [done|]. cbn [negb orb].
    assert (s <> 0) as Hs0 by (by apply Hwf). cbv [learn mbind M_bind get mret M_ret set_neighbor modify]. cbn [reply sender operation sender_mac].
    unfold is_unspecified4. destruct (Z.eqb_spec s 0); [done|]. assert (has_key (i_neighbors h) s = true) as -> by (apply has_key_true; by eexists).
    rewrite Hn, Hnone. cbn [negb andb orb Z.eqb Pos.eqb default]. done.
  - intros t packet p Ht Hp Hnext. cbv [send mbind M_bind get lift mret M_ret]. rewrite Hp.
    assert (next_hop (pk_destination p) h' = Some s) as -> by exact Hnext. cbn [ok_or].
    unfold h'. cbn [put_neighbors i_neighbors]. rewrite lookup_insert_eq. cbn. unfold is_resolved. cbn. by destruct (Z.ltb_spec t (sat64 now 60000)); [|lia].
Qed.

(** ** Witnesses *)

(** 10.0.0.1/24 behind 10.0.0.254, with a packet for 10.0.0.2 waiting. *)
Definition sample_neighbor : Neighbor := mkNeighbor None 1000 1 [[1; 2; 3]].
Definition sample_host : Ipv4 :=
  mkIpv4 [2; 0; 0; 0; 0; 1] (Some (167772161, 24)) (Some 167772414) (<[167772162 := sample_neighbor]> ∅) [] [] 0 1.
Lemma sample_host_wf : host_wf sample_host.
Proof.
  split; cbn; try (split; unfold len; cbn; lia); try (unfold len; cbn; lia).
  - apply table_upsert; [exact table_empty| | | |].
    + split; cbn; [lia|unfold len; cbn; lia|done|]. repeat constructor; u_lia.
    + intros _. unfold slen. rewrite map_size_empty. lia.
    + unfold queued_packets, old_queue. rewrite msum_empty, lookup_empty. vm_compute. discriminate.
    + unfold queued_bytes, old_queue. rewrite msum_empty, lookup_empty. vm_compute. discriminate.
  - split; [lia|]. split; [reflexivity|]. split; [reflexivity|]. split; [|constructor]. intros g [= <-]. reflexivity.
Qed.
Lemma ipv4_host_safe_witness : let e := Configured 167772161 24 (Some 167772414) in
  host_event_ok e /\ host_wf (snd (host_handle e (host_new [2; 0; 0; 0; 0; 1]))).
Proof.
  assert (host_event_ok (Configured 167772161 24 (Some 167772414))) as He by (cbn; u_lia).
  split; [exact He|]. apply (ipv4_host_safe (host_new [2; 0; 0; 0; 0; 1]) _ (host_start _) He).
Defined.
Lemma ipv4_next_hop_witness : next_hop 134744072 sample_host = Some 167772414 /\ unicast 167772414 = true.
Proof.
  split; [reflexivity|]. destruct (ipv4_next_hop sample_host 134744072 167772414 sample_host_wf eq_refl) as (a & l & _ & _ & Hu & _). exact Hu.
Defined.
Lemma ipv4_waiting_delivered_witness :
  fst (receive (arp_encode (reply sample_host [2; 0; 0; 0; 0; 9] 167772162 167772161) [2; 0; 0; 0; 0; 1]) 500 sample_host)
  = Ok [[2; 0; 0; 0; 0; 9; 2; 0; 0; 0; 0; 1; 8; 0; 1; 2; 3]].
Proof.
  destruct (ipv4_waiting_delivered sample_host 167772161 24 167772162 [2; 0; 0; 0; 0; 9] sample_neighbor 500 sample_host_wf eq_refl) as [Hr _];
    [|discriminate|discriminate|reflexivity|reflexivity|reflexivity|].
  - unfold arp_wf. cbn. split; [by right|]. split; [reflexivity|]. split; [by exists 2|]. split; [discriminate|]. split; [reflexivity|].
    split; [u_lia|]. split; [u_lia|]. split; [reflexivity|]. split; [discriminate|]. by left.
  - exact (f_equal fst Hr).
Defined.
