(* ===== verification/DhcpWire.v ===== *)
(** DHCPv4 replies ([src/src/ipv4/dhcp/wire.rs]) and what a lease holds
    ([src/src/ipv4/dhcp/mod.rs]); what is read is safe
    to use and fits every interface. *)

From S2P Require Import Prelude Effects Ipv4Wire Maps Ipv4Host.

Record Configuration := mkConfiguration {
  c_address : Z; c_length : Z; c_routes : list Route; c_dns : list Z; c_search : list (list bytes);
}.
Record Lease := mkLease { l_config : Configuration; l_server : Z; l_t1 : Z; l_t2 : Z; l_expires : Z }.

Definition OPTION_BYTES : Z := 4096.
Definition ip (b : bytes) : outcome io_error Z := if len b =? 4 then Ok (of_be b) else Err InvalidData.
Abbreviation Options := (gmap Z bytes).
Record Message := mkMessage {
  m_kind : Z; m_xid : Z; m_mac : bytes; m_address : Z; m_server : Z; m_options : Options;
}.

(** [while at < b.len()]: the options so far, and the bytes they take. *)
Fixpoint options_from (fuel : nat) (b : bytes) (overloaded : bool) (at_ : Z) (options : Options) (budget : Z)
  : outcome io_error (Options * Z) :=
  if negb (at_ <? len b) then Err InvalidData else
  match fuel with
  | O => Panic
  | S fuel =>
      code ← b.[at_];
      let at_ := at_ + 1 in
      if code =? 0 then options_from fuel b overloaded at_ options budget else
      if code =? 255 then Ok (options, budget) else
      reject_if (len b <=? at_) || overloaded && (code =? 52) with InvalidData;
      n ← b.[at_];
      let at_ := at_ + 1 in
      room ← sub_chk (len b) at_;
      reject_if (room <? n) || (OPTION_BYTES <? budget + n) with InvalidData;
      value ← slice b at_ (at_ + n);
      options_from fuel b overloaded (at_ + n) (<[code := default [] (options !! code) ++ value]> options) (budget + n)
  end.
Definition parse_options (b : bytes) (overloaded : bool) (options : Options) (budget : Z) : outcome io_error (Options * Z) :=
  options_from (length b) b overloaded 0 options budget.
(** The pseudo header of UDP and the datagram. *)
Definition udp_pseudo (source destination : Z) (udp : bytes) : bytes :=
  octets4 source ++ octets4 destination ++ [0; 17] ++ be16 (len udp mod 65536) ++ udp.
(** The options, with those of the overloaded fields. *)
Definition all_options (b : bytes) : outcome io_error Options :=
  tail ← slice_from b 240;
  '(options, budget) ← parse_options tail false ∅ 0;
  match options !! 52 with
  | None => Ok options
  | Some o =>
      flags ← (match o with [flags] => if (1 <=? flags) && (flags <=? 3) then Ok flags else Err InvalidData | _ => Err InvalidData end);
      '(options, budget) ←
        (if negb (Z.land flags 1 =? 0) then file ← slice b 108 236; parse_options file true options budget else Ok (options, budget));
      '(options, _) ←
        (if negb (Z.land flags 2 =? 0) then sname ← slice b 44 108; parse_options sname true options budget else Ok (options, budget));
      Ok options
  end.
Definition parse_udp (p : Packet) : outcome io_error bytes :=
  let udp := pk_payload p in
  ports ← slice udp 0 4;
  u4 ← udp.[4]; u5 ← udp.[5];
  reject_if negb (beq ports [0; 67; 0; 68]) || negb (u16be u4 u5 =? len udp) with InvalidData;
  check ← slice udp 6 8;
  reject_if negb (beq check [0; 0]) && negb (checksum4 (udp_pseudo (pk_source p) (pk_destination p) udp) =? 0) with InvalidData;
  slice_from udp 8.
Definition parse (bytes : list Z) : outcome io_error Message :=
  reject_if OPTION_BYTES + 300 <? len bytes with InvalidData;
  p ← Ipv4Wire.parse bytes;
  reject_if negb (pk_protocol p =? 17) || (pk_ttl p =? 0) || negb (pk_fragment_offset p =? 0) || pk_more_fragments p
            || (len (pk_payload p) <? 248) || negb (unicast (pk_source p)) with InvalidData;
  b ← parse_udp p;
  head ← slice b 0 3; cookie ← slice b 236 240;
  b28 ← b.[28]; mac ← slice b 28 34;
  b10 ← b.[10]; b11 ← b.[11];
  reject_if negb (beq head [2; 1; 6]) || negb (beq cookie [99; 130; 83; 99]) || negb (Z.land b28 1 =? 0)
            || beq mac (zeros 6) || negb (Z.land b10 0x7f =? 0) || negb (b11 =? 0) with InvalidData;
  options ← all_options b;
  kind ← (match options !! 53 with Some [k] => Ok k | _ => Err InvalidData end);
  reject_if negb (mem kind [2; 5; 6]) with InvalidData;
  id ← ok_or (options !! 54) InvalidData;
  server ← ip id;
  reject_if negb (unicast server) with InvalidData;
  xid ← slice b 4 8;
  yiaddr ← slice b 16 20;
  address ← ip yiaddr;
  Ok (mkMessage kind (of_be xid) mac address server options).

(** ** The lease of an acknowledgement *)

Definition number (m : Message) (code : Z) : outcome io_error (option Z) :=
  match m_options m !! code with
  | Some b => if len b =? 4 then Ok (Some (of_be b)) else Err InvalidData
  | None => Ok None
  end.
(** [u32::leading_ones] *)
Fixpoint leading_ones (width : nat) (m : Z) : Z :=
  match width with
  | O => 0
  | S width => if Z.testbit m (Z.of_nat width) then 1 + leading_ones width m else 0
  end.
Definition is_link_local4 (a : Z) : bool := Z.shiftr a 16 =? 169 * 256 + 254.
(** [chunks_exact(4)] *)
Fixpoint chunks4 (b : bytes) : list bytes :=
  match b with
  | b0 :: b1 :: b2 :: b3 :: rest => [b0; b1; b2; b3] :: chunks4 rest
  | _ => []
  end.
Fixpoint collect_addresses (l : list bytes) : outcome io_error (list Z) :=
  match l with
  | [] => Ok []
  | b :: l =>
      a ← ip b;
      reject_if negb (unicast a) with InvalidData;
      rest ← collect_addresses l;
      Ok (a :: rest)
  end.
Definition addresses (b : bytes) (cap : Z) : outcome io_error (list Z) :=
  reject_if (len b =? 0) || negb (len b mod 4 =? 0) || (cap <? len b / 4) with InvalidData;
  collect_addresses (chunks4 b).
Fixpoint routes_from (fuel : nat) (b : bytes) (at_ : Z) (out : list Route) : outcome io_error (list Route) :=
  if negb (at_ <? len b) then Ok out else
  match fuel with
  | O => Panic
  | S fuel =>
      length ← b.[at_];
      let at_ := at_ + 1 in
      let n := (length + 7) / 8 in
      room ← sub_chk (len b) at_;
      reject_if (32 <? length) || (room <? n + 4) || (64 <=? len out) with InvalidData;
      octets ← slice b at_ (at_ + n);
      network ← copy_at (zeros 4) 0 octets;
      let at_ := at_ + n in
      let network := Z.land (of_be network) (mask_high length) in
      g ← slice b at_ (at_ + 4);
      gateway ← ip g;
      routes_from fuel b (at_ + 4) (out ++ [mkRoute network length gateway])
  end.
Definition routes (b : bytes) : outcome io_error (list Route) :=
  reject_if len b =? 0 with InvalidData;
  routes_from (length b) b 0 [].
Definition is_ascii_alphanumeric (c : Z) : bool :=
  (48 <=? c) && (c <=? 57) || (65 <=? c) && (c <=? 90) || (97 <=? c) && (c <=? 122).
(** [split(|c| *c == b'.')] *)
Fixpoint split_dots (b : bytes) : list bytes :=
  match b with
  | [] => [[]]
  | c :: b =>
      if c =? 46 then [] :: split_dots b
      else match split_dots b with l :: ls => (c :: l) :: ls | [] => [[c]] end
  end.
Definition strip_dot (b : bytes) : bytes := match rev b with 46 :: r => rev r | _ => b end.
Definition domain_label_bad (l : bytes) : bool :=
  (len l =? 0) || (63 <? len l) || existsb (fun c => negb (is_ascii_alphanumeric c) && negb (c =? 45)) l.
Definition domain (b : bytes) : outcome io_error (list (list bytes)) :=
  let b := strip_dot b in
  reject_if (len b =? 0) || (253 <? len b) || existsb domain_label_bad (split_dots b) with InvalidData;
  Ok [split_dots b].
(** One name of the search list: [for _ in 0..128], with the cursor and the boundaries. *)
Fixpoint search_name (rounds : nat) (b : bytes) (cursor at_ : Z) (consumed : option Z) (labels : list bytes) (size : Z)
  (boundaries : gset Z) : outcome io_error (Z * list bytes * gset Z) :=
  match rounds with
  | O => Ok (cursor, labels, boundaries)
  | S rounds =>
      n ← ok_or (b !! Z.to_nat at_) InvalidData;
      let boundaries := {[at_]} ∪ boundaries in
      if n =? 0 then Ok (default (at_ + 1) consumed, labels, boundaries) else
      if Z.land n 0xc0 =? 0xc0 then
        low ← ok_or (b !! Z.to_nat (at_ + 1)) InvalidData;
        let ptr := Z.lor (Z.shiftl (Z.land n 63) 8) low in
        reject_if (at_ <=? ptr) || negb (bool_decide (ptr ∈ boundaries)) with InvalidData;
        search_name rounds b cursor ptr (Some (default (at_ + 2) consumed)) labels size boundaries
      else
        reject_if (63 <? n) || (len b <? at_ + n + 1) || (255 <? size + n + 1) with InvalidData;
        label ← slice b (at_ + 1) (at_ + 1 + n);
        search_name rounds b cursor (at_ + (n + 1)) consumed (labels ++ [label]) (size + (n + 1)) boundaries
  end.
Fixpoint search_from (fuel : nat) (b : bytes) (cursor : Z) (out : list (list bytes)) (boundaries : gset Z)
  : outcome io_error (list (list bytes)) :=
  if negb (cursor <? len b) then Ok out else
  match fuel with
  | O => Panic
  | S fuel =>
      let start := cursor in
      reject_if 16 <=? len out with InvalidData;
      '(cursor, labels, boundaries) ← search_name 128 b cursor cursor None [] 1 boundaries;
      reject_if (cursor <=? start) || (len labels =? 0) with InvalidData;
      search_from fuel b cursor (out ++ [labels]) boundaries
  end.
Definition search (b : bytes) : outcome io_error (list (list bytes)) :=
  reject_if 1024 <? len b with InvalidData;
  search_from (length b) b 0 [] ∅.

(** The parts of [Message::lease]. *)
Definition lease_length (m : Message) (prior : option Lease) : outcome io_error Z :=
  match m_options m !! 1 with
  | Some b =>
      mask ← ip b;
      let n := leading_ones 32 mask in
      reject_if negb (mask =? mask_high n) with InvalidData;
      Ok n
  | None => l ← ok_or prior InvalidData; Ok (c_length (l_config l))
  end.
Definition prior_or {A} (f : Configuration -> list A) (prior : option Lease) : list A :=
  match prior with Some l => f (l_config l) | None => [] end.
Definition lease_routes (m : Message) (prior : option Lease) : outcome io_error (list Route) :=
  match m_options m !! 121 with
  | Some b => routes b
  | None =>
      match m_options m !! 3 with
      | Some b => a ← addresses b 8; Ok (match a with g :: _ => [mkRoute 0 0 g] | [] => [] end)
      | None => Ok (prior_or c_routes prior)
      end
  end.
Definition lease_dns (m : Message) (prior : option Lease) : outcome io_error (list Z) :=
  match m_options m !! 6 with
  | Some b => addresses b 8
  | None => Ok (prior_or c_dns prior)
  end.
Definition lease_search (m : Message) (prior : option Lease) : outcome io_error (list (list bytes)) :=
  match m_options m !! 119 with
  | Some b => search b
  | None =>
      match m_options m !! 15 with
      | Some b => domain b
      | None => Ok (prior_or c_search prior)
      end
  end.
Definition lease_timers (seconds : Z) (a b : option Z) : Z * Z :=
  let a := default (seconds / 2) a in
  let b := default (seconds * 7 / 8) b in
  if (0 <? a) && (a <? b) && (b <? seconds) then (a, b) else (seconds / 2, seconds * 7 / 8).
(** The checks of a fresh interface: [v.configure(..)?] and [v.set_routes(..)?]. *)
Definition checked_config (address length : Z) (rs : list Route) : outcome io_error unit :=
  fst ((configure address length None ;; set_routes rs) host_default).
Definition lease (m : Message) (now : Z) (prior : option Lease) : outcome io_error Lease :=
  seconds ← number m 51;
  seconds ← ok_or seconds InvalidData;
  reject_if (seconds =? 0) || negb (unicast (m_address m)) || is_link_local4 (m_address m) with InvalidData;
  length ← lease_length m prior;
  _ ← fst (configure (m_address m) length None host_default);
  routes ← lease_routes m prior;
  _ ← checked_config (m_address m) length routes;
  dns ← lease_dns m prior;
  search ← lease_search m prior;
  a ← number m 58;
  b ← number m 59;
  let '(a, b) := lease_timers seconds a b in
  let deadline s := sat64 now (s * 1000) in
  Ok (mkLease (mkConfiguration (m_address m) length routes dns search) (m_server m)
        (deadline a) (deadline b) (if seconds =? u32_max then u64_max else deadline seconds)).

(** ** Parsing *)

Definition options_ok (o : Options) : Prop := map_Forall (fun _ b => is_bytes b) o.
Lemma ip_ok b : is_bytes b -> yields is_u32 (ip b).
Proof.
  intros Hb. unfold ip. destruct (Z.eqb_spec (len b) 4) as [Hl|]; [|done]. pose proof (of_be_bound b Hb) as H. rewrite Hl in H. change (256 ^ 4) with 4294967296 in H. cbn. u_lia.
Qed.
Lemma options_from_ok fuel b ov at_ o n : is_bytes b -> 0 <= at_ -> len b - at_ <= Z.of_nat fuel -> options_ok o ->
  yields (fun r => options_ok r.1) (options_from fuel b ov at_ o n).
Proof.
  intros Hb. revert at_ o n. induction fuel as [|fuel IH]; intros at_ o n Ha Hf Ho; cbn [options_from];
    (destruct (Z.ltb_spec at_ (len b)); cbn [negb]; [|done]); [lia|]. y_bind. destruct (x =? 0); [apply IH; [lia|lia|done]|].
  destruct (x =? 255); [done|]. y_bind. apply orb_false_iff in Hc as [Hc%Z.leb_gt _]. y_bind.
  eapply yields_bind; [apply yields_sub_chk; lia|]. intros room <-. y_bind. apply orb_false_iff in Hc0 as [Hr%Z.ltb_ge _].
  rename x0 into k. assert (0 <= k) by u_lia. y_bind. apply IH; [lia|lia|]. apply map_Forall_insert_2; [|done].
  apply is_bytes_app. split; [|done]. destruct (o !! x) eqn:E; cbn; [by eapply Ho|constructor].
Qed.
Lemma parse_options_ok b ov o n : is_bytes b -> options_ok o -> yields (fun r => options_ok r.1) (parse_options b ov o n).
Proof. intros Hb Ho. apply options_from_ok; [done|lia|unfold len; lia|done]. Qed.
Lemma all_options_ok b : is_bytes b -> 240 <= len b -> yields options_ok (all_options b).
Proof.
  intros Hb Hl. unfold all_options. y_bind. eapply yields_bind; [apply parse_options_ok; [done|apply map_Forall_empty]|].
  intros [o n] Ho. cbn [fst] in Ho. destruct (o !! 52) as [f|]; [|done].
  eapply (yields_bind (fun _ => True)); [destruct f as [|f [|? ?]]; [done| |done]; by destruct (_ && _)|]. intros f' _.
  eapply (yields_bind (fun r => options_ok r.1)).
  { destruct (negb _); [|done]. y_bind. by apply parse_options_ok. }
  intros [o2 n2] Ho2. cbn [fst] in Ho2. eapply (yields_bind (fun r => options_ok r.1)); [|by intros [o3 n3] Ho3].
  destruct (negb _); [|done]. y_bind. by apply parse_options_ok.
Qed.
Record message_ok (m : Message) : Prop := {
  mo_kind : In (m_kind m) [2; 5; 6];
  mo_xid : is_u32 (m_xid m);
  mo_mac : is_bytes (m_mac m) /\ len (m_mac m) = 6;
  mo_address : is_u32 (m_address m);
  mo_server : is_u32 (m_server m) /\ unicast (m_server m) = true;
  mo_options : options_ok (m_options m);
}.
Lemma parse_udp_ok p : is_bytes (pk_payload p) -> 248 <= len (pk_payload p) ->
  yields (fun b => is_bytes b /\ 240 <= len b) (parse_udp p).
Proof.
  intros Hb Hl. unfold parse_udp. do 3 y_bind. y_bind. y_bind. y_bind. eapply yields_weaken; [apply yields_slice_from; [done|lia]|].
  intros a [Ha Hla]. split; [done|lia].
Qed.
Lemma dhcp_parse_ok b : is_bytes b -> yields message_ok (parse b).
Proof.
  intros Hb. unfold parse. y_bind. eapply (yields_bind (fun p => is_bytes (pk_payload p))).
  { apply yields_of_safe; [by apply (parse_inner_safe b false)|]. intros p Hp. apply (parse_inner_Ok b false) in Hp as (_ & _ & H); [|done].
    destruct H as (_ & _ & -> & _). by apply is_bytes_sub. }
  intros p Hp. y_bind. apply orb_false_iff in Hc0 as [[_ Hl%Z.ltb_ge]%orb_false_iff _].
  eapply yields_bind; [by apply parse_udp_ok|]. intros d [Hd Hdl]. do 6 y_bind. y_bind.
  eapply yields_bind; [by apply all_options_ok|]. intros o Ho.
  eapply (yields_bind (fun _ => True)); [by destruct (o !! 53) as [[|k [|? ?]]|]|]. intros k _. y_bind.
  eapply (yields_bind is_bytes); [apply yields_ok_or; intros a Ha; by apply (Ho 54)|]. intros id Hid.
  eapply yields_bind; [by apply ip_ok|]. intros server Hs. y_bind. y_bind. y_bind. eapply yields_bind; [apply ip_ok; done|]. intros a Ha.
  apply negb_false_iff in Hc2. split; cbn [m_kind m_xid m_mac m_address m_server m_options]; try done.
  - apply negb_false_iff in Hc1. unfold mem in Hc1. apply existsb_exists in Hc1 as (k' & Hk & <-%Z.eqb_eq). done.
  - pose proof (of_be_bound x5 ltac:(done)) as Hx. replace (len x5) with 4 in Hx by lia. change (256 ^ 4) with 4294967296 in Hx. u_lia.
Qed.

(** ** Leases *)

(** A search name is of labels of 1 to 63 bytes, within 255 bytes with their lengths. *)
Definition name_total (ls : list bytes) : Z := foldr (fun l n => len l + 1 + n) 1 ls.
Definition name_ok (ls : list bytes) : Prop := ls <> [] /\ Forall (fun l => 1 <= len l <= 63) ls /\ name_total ls <= 255.
Definition address_ok (a : Z) : Prop := is_u32 a /\ unicast a = true.
(** A configuration that an interface takes. *)
Record config_ok (c : Configuration) : Prop := {
  co_address : address_ok (c_address c);
  co_length : is_u8 (c_length c);
  co_checked : checked_config (c_address c) (c_length c) (c_routes c) = Ok tt;
  co_dns : len (c_dns c) <= 8 /\ Forall address_ok (c_dns c);
  co_search : len (c_search c) <= 16 /\ Forall name_ok (c_search c);
}.
Record lease_ok (l : Lease) : Prop := {
  lo_config : config_ok (l_config l);
  lo_local : is_link_local4 (c_address (l_config l)) = false;
  lo_server : is_u32 (l_server l);
  lo_times : l_t1 l <= l_t2 l <= l_expires l /\ l_expires l <= u64_max;
}.
Lemma chunks4_ok b : is_bytes b -> Forall is_bytes (chunks4 b) /\ len (chunks4 b) <= len b / 4.
Proof.
  remember (length b) as n eqn:Hn. revert b Hn. induction n as [n IH] using lt_wf_ind. intros b Hn Hb.
  destruct b as [|b0 [|b1 [|b2 [|b3 r]]]]; try (split; [constructor|unfold len; cbn; div_lia]). cbn [chunks4].
  do 4 (apply is_bytes_cons in Hb as [? Hb]). destruct (IH (length r)) with (b := r) as [Hc Hl]; [cbn in Hn; lia|done|done|].
  split; [constructor; [by do 4 (apply is_bytes_cons; split; [done|]); constructor|done]|]. rewrite !len_cons. div_lia.
Qed.
Lemma addresses_ok b cap : is_bytes b -> yields (fun l => len l <= cap /\ Forall address_ok l) (addresses b cap).
Proof.
  intros Hb. unfold addresses. y_bind. apply orb_false_iff in Hc as [_ Hc%Z.ltb_ge]. destruct (chunks4_ok b Hb) as [Hcb Hl].
  apply (yields_weaken (fun l => len l = len (chunks4 b) /\ Forall address_ok l)); [|intros l [-> ?]; split; [lia|done]].
  clear Hl. induction Hcb as [|c l Hc0 _ IH]; cbn [collect_addresses]; [done|]. eapply yields_bind; [by apply ip_ok|]. intros a Ha. y_bind.
  eapply yields_bind; [exact IH|]. intros rest [Hl Hr]. cbn. rewrite !len_cons, Hl. split; [lia|]. constructor; [split; [done|by apply negb_false_iff]|done].
Qed.
Lemma routes_from_ok fuel b at_ out : is_bytes b -> 0 <= at_ -> len b - at_ <= Z.of_nat fuel -> safe (routes_from fuel b at_ out).
Proof.
  intros Hb. revert at_ out. induction fuel as [|fuel IH]; intros at_ out Ha Hf; cbn [routes_from];
    (destruct (Z.ltb_spec at_ (len b)); cbn [negb]; [|done]); [lia|]. apply (yields_safe (fun _ => True)). y_bind.
  eapply yields_bind; [apply yields_sub_chk; lia|]. intros room <-. y_bind. apply orb_false_iff in Hc as [[Hl%Z.ltb_ge Hr%Z.ltb_ge]%orb_false_iff _].
  assert (0 <= (x + 7) / 8 <= 4) as Hn by div_lia. y_bind. 
  eapply yields_bind; [apply (yields_copy 4); [split; [apply is_bytes_zeros|by rewrite len_zeros]|done|lia|lia]|]. intros net [Hnet _].
  y_bind. eapply yields_bind; [by apply ip_ok|]. intros g Hg. apply yields_of_safe; [|done]. apply IH; lia.
Qed.
Lemma routes_ok b : is_bytes b -> safe (routes b).
Proof. intros Hb. unfold routes. destruct (_ =? 0); [done|]. apply routes_from_ok; [done|lia|unfold len; lia]. Qed.

Lemma split_dots_total b : split_dots b <> [] /\ name_total (split_dots b) = len b + 2.
Proof.
  induction b as [|c b [Hne IH]]; [done|]. cbn [split_dots]. rewrite len_cons. destruct (c =? 46).
  - split; [done|]. unfold name_total in *. cbn [foldr]. change (len (@nil Z)) with 0. lia.
  - destruct (split_dots b) as [|l ls]; [done|]. split; [done|]. unfold name_total in *. cbn [foldr] in *. rewrite len_cons. lia.
Qed.
Lemma domain_ok b : yields (fun l => len l <= 16 /\ Forall name_ok l) (domain b).
Proof.
  unfold domain. set (s := strip_dot b). apply yields_reject. intros Hc. apply orb_false_iff in Hc as [[_ Hl%Z.ltb_ge]%orb_false_iff Hbad].
  destruct (split_dots_total s) as [Hne Ht]. cbn. split; [unfold len; cbn; lia|]. constructor; [|constructor]. split; [done|]. split; [|lia].
  apply List.Forall_forall. intros l Hin. apply not_true_iff_false in Hbad. destruct (Z.le_gt_cases 1 (len l)), (Z.le_gt_cases (len l) 63); [lia|..];
    exfalso; apply Hbad, existsb_exists; exists l; (split; [done|]); unfold domain_label_bad; pose proof (len_nonneg l);
    destruct (Z.eqb_spec (len l) 0), (Z.ltb_spec 63 (len l)); try done; lia.
Qed.
Definition partial_name_ok (ls : list bytes) (size : Z) : Prop := Forall (fun l => 1 <= len l <= 63) ls /\ name_total ls = size /\ size <= 255.
Lemma name_total_app a c : name_total (a ++ c) = name_total a + name_total c - 1.
Proof. unfold name_total. induction a as [|l a IH]; cbn [app foldr]; [lia|]. rewrite IH. lia. Qed.
Lemma search_name_ok rounds b cursor at_ consumed ls size bd : is_bytes b -> 0 <= at_ -> partial_name_ok ls size ->
  yields (fun r => Forall (fun l => 1 <= len l <= 63) r.1.2 /\ name_total r.1.2 <= 255) (search_name rounds b cursor at_ consumed ls size bd).
Proof.
  intros Hb. revert at_ consumed ls size bd. induction rounds as [|rounds IH]; intros at_ consumed ls size bd Ha (H1 & H2 & H3); cbn [search_name]; [cbn [yields fst snd]; split; [done|lia]|].
  eapply (yields_bind (fun n => is_u8 n /\ 0 <= at_ < len b)).
  { apply yields_ok_or. intros n Hn. split; [by eapply Forall_lookup_1|]. apply lookup_lt_Some in Hn. unfold len. lia. }
  intros n [Hn Hat]. destruct (Z.eqb_spec n 0); [cbn [yields fst snd]; split; [done|lia]|]. destruct (_ =? 0xc0).
  - eapply (yields_bind is_u8); [apply yields_ok_or; intros a Hl; by eapply Forall_lookup_1|]. intros low Hlow. apply yields_reject. intros _.
    apply IH; [|by split]. apply Z.lor_nonneg. split; [apply Z.shiftl_nonneg, Z.land_nonneg; right; lia|u_lia].
  - apply yields_reject. intros Hc. apply orb_false_iff in Hc as [[Hc1%Z.ltb_ge Hc2%Z.ltb_ge]%orb_false_iff Hc3%Z.ltb_ge].
    assert (0 < n) by u_lia. y_bind. assert (len x = n) as Hx by lia. apply IH; [lia|]. split; [|split].
    + apply List.Forall_app. split; [done|]. constructor; [lia|constructor].
    + rewrite name_total_app, H2. unfold name_total. cbn [foldr]. lia.
    + lia.
Qed.
Lemma search_from_ok fuel b cursor out bd : is_bytes b -> 0 <= cursor -> len b - cursor <= Z.of_nat fuel -> len out <= 16 -> Forall name_ok out ->
  yields (fun l => len l <= 16 /\ Forall name_ok l) (search_from fuel b cursor out bd).
Proof.
  intros Hb. revert cursor out bd. induction fuel as [|fuel IH]; intros cursor out bd Hc Hf Hl Hout; cbn [search_from];
    (destruct (Z.ltb_spec cursor (len b)); cbn [negb]; [|done]); [lia|]. apply yields_reject. intros Hlen%Z.leb_gt.
  eapply yields_bind; [apply search_name_ok; [done|done|]; split; [constructor|]; done|]. intros [[cursor' ls] bd'] [H1 H2]. cbn [fst snd] in H1, H2.
  apply yields_reject. intros Hcur. apply orb_false_iff in Hcur as [Hcur%Z.leb_gt Hne%Z.eqb_neq]. apply IH; [lia|lia| |].
  - rewrite len_app. change (len [ls]) with 1. lia.
  - apply List.Forall_app. split; [done|]. constructor; [|constructor]. split; [by intros ->|done].
Qed.
Lemma search_ok b : is_bytes b -> yields (fun l => len l <= 16 /\ Forall name_ok l) (search b).
Proof. intros Hb. unfold search. apply yields_reject. intros _. apply search_from_ok; [done|lia|unfold len; lia|done|constructor]. Qed.
Lemma number_ok m code : options_ok (m_options m) -> yields (fun o => forall n, o = Some n -> is_u32 n) (number m code).
Proof.
  intros Ho. unfold number. destruct (m_options m !! code) as [b|] eqn:E; [|done]. pose proof (of_be_bound b ltac:(by eapply Ho)) as Hb.
  destruct (Z.eqb_spec (len b) 4) as [Hl|]; [|done]. rewrite Hl in Hb. change (256 ^ 4) with 4294967296 in Hb. cbn. intros n [= <-]. u_lia.
Qed.
Lemma leading_ones_bound w m : 0 <= leading_ones w m <= Z.of_nat w.
Proof. induction w as [|w IH]; cbn [leading_ones]; [lia|]. destruct (Z.testbit _ _); lia. Qed.
Lemma host_default_wf : host_wf host_default.
Proof. apply host_new_ok. Qed.
Lemma checked_safe a l rs : is_u8 l -> safe (checked_config a l rs).
Proof.
  intros Hl. assert (preserves host_wf (configure a l None ;; set_routes rs)) as H.
  { eapply triple_bind; [by apply host_configure_ok|]. intros u. apply set_routes_ok. }
  specialize (H _ host_default_wf). unfold checked_config. by destruct ((configure a l None ;; set_routes rs) host_default) as [[u|e|] h].
Qed.
Lemma lease_length_ok m prior : options_ok (m_options m) -> (forall l, prior = Some l -> lease_ok l) -> yields is_u8 (lease_length m prior).
Proof.
  intros Ho Hp. unfold lease_length. destruct (m_options m !! 1) as [b|] eqn:E.
  - eapply yields_bind; [apply ip_ok; by eapply Ho|]. intros mask _. apply yields_reject. intros _. pose proof (leading_ones_bound 32 mask) as Hn. change (Z.of_nat 32) with 32 in Hn. cbn [yields]. u_lia.
  - destruct prior as [l|]; [|done]. cbn. apply (Hp l eq_refl).
Qed.
Lemma lease_routes_safe m prior : options_ok (m_options m) -> safe (lease_routes m prior).
Proof.
  intros Ho. unfold lease_routes. destruct (m_options m !! 121) as [b|] eqn:E; [apply routes_ok; by eapply Ho|].
  destruct (m_options m !! 3) as [b|] eqn:E3; [|done]. apply (yields_safe (fun _ => True)). eapply yields_bind; [apply addresses_ok; by eapply Ho|].
  by intros [|g l].
Qed.
Lemma lease_dns_ok m prior : options_ok (m_options m) -> (forall l, prior = Some l -> lease_ok l) ->
  yields (fun l => len l <= 8 /\ Forall address_ok l) (lease_dns m prior).
Proof.
  intros Ho Hp. unfold lease_dns. destruct (m_options m !! 6) as [b|] eqn:E; [apply addresses_ok; by eapply Ho|].
  destruct prior as [l|]; cbn; [apply (Hp l eq_refl)|]. split; [unfold len; cbn; lia|constructor].
Qed.
Lemma lease_search_ok m prior : options_ok (m_options m) -> (forall l, prior = Some l -> lease_ok l) ->
  yields (fun l => len l <= 16 /\ Forall name_ok l) (lease_search m prior).
Proof.
  intros Ho Hp. unfold lease_search. destruct (m_options m !! 119) as [b|] eqn:E; [apply search_ok; by eapply Ho|].
  destruct (m_options m !! 15) as [b|] eqn:E2; [apply domain_ok|].
  destruct prior as [l|]; cbn; [apply (Hp l eq_refl)|]. split; [unfold len; cbn; lia|constructor].
Qed.
Lemma lease_timers_ok seconds a b : 1 <= seconds -> let t := lease_timers seconds a b in 0 <= t.1 <= t.2 /\ t.2 <= seconds.
Proof.
  intros Hs. unfold lease_timers. destruct (_ && _ && _) eqn:Hc; cbn [fst snd]; [|div_lia].
  apply andb_true_iff in Hc as [[H1%Z.ltb_lt H2%Z.ltb_lt]%andb_true_iff H3%Z.ltb_lt]. lia.
Qed.
Lemma lease_lease_ok m now prior : message_ok m -> is_u64 now -> (forall l, prior = Some l -> lease_ok l) -> yields lease_ok (lease m now prior).
Proof.
  intros [_ _ _ Ha [Hs _] Ho] Hnow Hp. unfold lease.
  eapply yields_bind; [by apply number_ok|]. intros so Hso. eapply (yields_bind is_u32); [by apply yields_ok_or|]. intros seconds Hsec.
  apply yields_reject. intros Hc. apply orb_false_iff in Hc as [[Hz%Z.eqb_neq Hu%negb_false_iff]%orb_false_iff Hll].
  eapply yields_bind; [by apply lease_length_ok|]. intros l Hl.
  eapply (yields_bind (fun _ => True)).
  { pose proof (host_configure_ok (m_address m) l None Hl _ host_default_wf) as H. by destruct (configure _ _ _ _) as [[u|e|] h]. }
  intros _ _. eapply (yields_bind (fun _ => True)); [apply yields_of_safe; [by apply lease_routes_safe|done]|]. intros rs _.
  eapply (yields_bind (fun u => checked_config (m_address m) l rs = Ok tt)).
  { apply yields_of_safe; [by apply checked_safe|]. by intros []. }
  intros _ Hchk. eapply yields_bind; [by apply lease_dns_ok|]. intros dns Hdns. eapply yields_bind; [by apply lease_search_ok|]. intros srch Hsrch.
  eapply yields_bind; [by apply number_ok|]. intros a _. eapply yields_bind; [by apply number_ok|]. intros b _.
  pose proof (lease_timers_ok seconds a b ltac:(u_lia)) as Ht. destruct (lease_timers seconds a b) as [ta tb]. cbn [fst snd] in Ht.
  split; cbn [l_config l_server l_t1 l_t2 l_expires c_address]; [by split|done|done|]. destruct (seconds =? u32_max); u_lia.
Qed.
(** A checked configuration suits every interface. *)
Lemma checked_installs a l rs h : checked_config a l rs = Ok tt ->
  (configure a l None ;; set_routes rs) h = (Ok tt, put_neighbors ∅ (put_routes rs (put_address (Some (a, l)) None h))).
Proof.
  unfold checked_config. cbv [configure set_routes mbind M_bind get lift throw modify]. destruct (_ || _ || _ || _); [done|]. cbn [put_address i_address ok_or].
  destruct (_ || _); done.
Qed.
