(* ===== verification/Stateful.v ===== *)
(** Methods of a component that draw from a random source: the state and the source beside
    each other, and the rules that follow the outcomes of a method step by step. *)

From S2P Require Import Prelude Effects Time.

Section methods.
Context {S R : Type} `{Sampler R}.
Abbreviation MS := (M (S * R) io_error).

Definition self : MS S := gets fst.
Definition update (f : S -> S) : MS unit := on_fst (modify f).
Definition draw (max : Z) : MS Z := on_snd (sample max).
Definition fresh_bytes (n : nat) : MS bytes := on_snd (fill n).

(** From [st] the method does not panic, gives [Q] when it succeeds and leaves a state that
    satisfies [I] when it fails. *)
Definition gives {A} (I : S -> Prop) (m : MS A) (st : S * R) (Q : A -> S -> Prop) : Prop :=
  match m st with
  | (Ok a, st') => Q a st'.1
  | (Err _, st') => I st'.1
  | (Panic, _) => False
  end.

Context {I : S -> Prop}.
Lemma gives_bind {A B} (m : MS A) (f : A -> MS B) st P Q :
  gives I m st P -> (forall a c r, P a c -> gives I (f a) (c, r) Q) -> gives I (m ≫= f) st Q.
Proof. unfold gives. cbv [mbind M_bind]. intros Hm Hf. destruct (m st) as [[a|e|] [c r]]; [by apply Hf|done|done]. Qed.
Lemma gives_weaken {A} (m : MS A) st P Q : gives I m st P -> (forall a c, P a c -> Q a c) -> gives I m st Q.
Proof. unfold gives. destruct (m st) as [[a|e|] st']; auto. Qed.
Lemma gives_ret {A} (a : A) c r (Q : A -> S -> Prop) : Q a c -> gives I (mret a) (c, r) Q.
Proof. done. Qed.
Lemma gives_throw {A} e c r (Q : A -> S -> Prop) : I c -> gives I (throw e) (c, r) Q.
Proof. done. Qed.
Lemma gives_update f c r (Q : unit -> S -> Prop) : Q tt (f c) -> gives I (update f) (c, r) Q.
Proof. done. Qed.
Lemma gives_step {A} f (m : MS A) c r Q : gives I m (f c, r) Q -> gives I (update f ;; m) (c, r) Q.
Proof. done. Qed.
Lemma gives_self {A} (f : S -> MS A) c r Q : gives I (f c) (c, r) Q -> gives I (x ← self; f x) (c, r) Q.
Proof. done. Qed.
Lemma gives_if {A} (b : bool) (m1 m2 : MS A) st Q :
  (b = true -> gives I m1 st Q) -> (b = false -> gives I m2 st Q) -> gives I (if b then m1 else m2) st Q.
Proof. destruct b; auto. Qed.
Lemma gives_lift {A} (x : A) c r (Q : A -> S -> Prop) : Q x c -> gives I (lift (Ok x)) (c, r) Q.
Proof. done. Qed.
(** A result that is computed without the state. *)
Lemma gives_yields {A} (m : outcome io_error A) P c r (Q : A -> S -> Prop) : yields P m -> I c -> (forall a, P a -> Q a c) -> gives I (lift m) (c, r) Q.
Proof. unfold gives. cbn. destruct m; cbn; auto. Qed.
Lemma gives_draw n c r (Q : Z -> S -> Prop) : is_u64 n -> I c -> (forall x, 0 <= x <= n -> Q x c) -> gives I (draw n) (c, r) Q.
Proof.
  intros Hn Hc HQ. unfold gives, draw, on_snd. cbn. destruct (sample_cases n r Hn) as [(x & r' & -> & Hx)|(e & r' & ->)]; [by apply HQ|done].
Qed.
Lemma gives_fresh `{!ByteSource R} n c r (Q : bytes -> S -> Prop) : I c -> (forall b, is_bytes b -> length b = n -> Q b c) -> gives I (fresh_bytes n) (c, r) Q.
Proof.
  intros Hc HQ. unfold gives, fresh_bytes, on_snd. cbn. destruct (fill_cases n r) as [(b & r' & -> & Hb & Hl)|(e & r' & ->)]; [by apply HQ|done].
Qed.
(** A sequence of events, each handled by a method; a failure does not end it, and [None] is
    a panic. *)
Fixpoint run_all {V A} (step : V -> MS A) (es : list V) (st : S * R) : option (S * R) :=
  match es with
  | [] => Some st
  | e :: es => match step e st with (Panic, _) => None | (_, st) => run_all step es st end
  end.
Lemma run_all_gives {V A} (ok : V -> Prop) (step : V -> MS A) es st :
  (forall e c r, ok e -> I c -> gives I (step e) (c, r) (fun _ => I)) -> Forall ok es -> I st.1 ->
  exists st', run_all step es st = Some st' /\ I st'.1.
Proof.
  intros Hstep Hes. revert st. induction Hes as [|e es He _ IH]; intros [c r] Hc; cbn [run_all]; [by eexists|].
  specialize (Hstep e c r He Hc). unfold gives in Hstep. destruct (step e (c, r)) as [[a|x|] [c' r']]; [by apply IH|by apply IH|done].
Qed.
(** Running a method that changes nothing. *)
Lemma self_run {A} (f : S -> MS A) c r : (self ≫= f) (c, r) = f c (c, r).
Proof. done. Qed.
Lemma bind_run {A B} (m : MS A) (f : A -> MS B) st a : m st = (Ok a, st) -> (m ≫= f) st = f a st.
Proof. intros E. cbv [mbind M_bind]. by rewrite E. Qed.
Lemma then_run {B} (m : MS unit) (k : MS B) st : m st = (Ok tt, st) -> (m ;; k) st = k st.
Proof. exact (bind_run m (fun _ => k) st tt). Qed.
Lemma bind_moves {A B} (m : MS A) (f : A -> MS B) st st1 a : m st = (Ok a, st1) -> (m ≫= f) st = f a st1.
Proof. intros E. cbv [mbind M_bind]. by rewrite E. Qed.
Lemma bind_run_Ok {A B} (m : MS A) (f : A -> MS B) st b st' : (m ≫= f) st = (Ok b, st') -> exists a st1, m st = (Ok a, st1) /\ f a st1 = (Ok b, st').
Proof. cbv [mbind M_bind]. destruct (m st) as [[a|e|] st1]; [by exists a, st1|done|done]. Qed.
Lemma update_run {B} f (k : MS B) c r : (update f ;; k) (c, r) = k (f c, r).
Proof. done. Qed.
Lemma lift_run {A B} (a : A) (f : A -> MS B) st : (lift (Ok a) ≫= f) st = f a st.
Proof. done. Qed.
(** Loops: [for x in xs { body }], and the one that also extends a list. *)
Fixpoint collect {A B} (xs : list A) (body : A -> MS (list B)) : MS (list B) :=
  match xs with
  | [] => mret []
  | x :: xs => out ← body x; rest ← collect xs body; mret (out ++ rest)
  end.
Lemma gives_for_each {A} (J : S -> Prop) (xs : list A) body c r : J c ->
  (forall x c r, In x xs -> J c -> gives I (body x) (c, r) (fun _ => J)) -> gives I (for_each xs body) (c, r) (fun _ => J).
Proof.
  intros Hc Hb. revert c r Hc. induction xs as [|x xs IH]; intros c r Hc; cbn [for_each]; [by apply gives_ret|].
  eapply gives_bind; [apply Hb; [by left|done]|]. intros a c' r' Hc'. apply IH; [|done]. intros y c2 r2 Hy. apply Hb. by right.
Qed.
Lemma gives_collect {A B} (J : S -> Prop) (P : B -> Prop) (xs : list A) body c r : J c ->
  (forall x c r, In x xs -> J c -> gives I (body x) (c, r) (fun out c' => J c' /\ Forall P out)) ->
  gives I (collect xs body) (c, r) (fun out c' => J c' /\ Forall P out).
Proof.
  intros Hc Hb. revert c r Hc. induction xs as [|x xs IH]; intros c r Hc; cbn [collect]; [by apply gives_ret|].
  eapply gives_bind; [apply Hb; [by left|done]|]. intros out c' r' [Hc' Ho].
  eapply gives_bind; [apply IH; [intros y c2 r2 Hy; apply Hb; by right|done]|]. intros rest c2 r2 [Hc2 Hr]. apply gives_ret.
  split; [done|]. by apply List.Forall_app.
Qed.
End methods.

(** A larger invariant of failures. *)
Lemma gives_larger {S R A} (I1 I2 : S -> Prop) (m : M (S * R) io_error A) st Q Q' : (forall c, I1 c -> I2 c) -> (forall a c, Q a c -> Q' a c) -> gives I1 m st Q -> gives I2 m st Q'.
Proof. intros Hi Hq. unfold gives. destruct (m st) as [[a|e|] st']; auto. Qed.

(** A method of a part of the state. *)
Section part.
Context {S T R : Type} (get : S -> T) (set : T -> S -> S).
Definition within {E A} (m : M (T * R) E A) : M (S * R) E A := fun st =>
  let '(o, (t, r)) := m (get st.1, st.2) in (o, (set t st.1, r)).
Definition field {E A} (m : M T E A) : M (S * R) E A := fun st =>
  let '(o, t) := m (get st.1) in (o, (set t st.1, st.2)).
Lemma gives_within {A} (J : T -> Prop) (I : S -> Prop) (m : M (T * R) io_error A) c r Q :
  gives J m (get c, r) (fun a t => Q a (set t c)) -> (forall t, J t -> I (set t c)) -> gives I (within m) (c, r) Q.
Proof. unfold gives, within. cbn. destruct (m (get c, r)) as [[a|e|] [t r']]; cbn; auto. Qed.
Lemma gives_field {A} (I : S -> Prop) (m : M T io_error A) c r (Q : A -> S -> Prop) :
  match m (get c) with (Ok a, t) => Q a (set t c) | (Err _, t) => I (set t c) | (Panic, _) => False end -> gives I (field m) (c, r) Q.
Proof. unfold gives, field. cbn. by destruct (m (get c)) as [[a|e|] t]. Qed.
End part.
