(* ===== verification/Dhcp.v ===== *)
(** The DHCPv4 client ([src/src/ipv4/dhcp/mod.rs]): its states, the lease, address probing
    and defence, and the installation of its configuration ([src/src/runtime.rs]). *)

From S2P Require Import Prelude Effects Time Ipv4Wire Maps Ipv4Host DhcpWire Stateful.

Inductive State := Selecting | Requesting | Reboot | Bound | Renewing | Rebinding | Stopped.
#[global] Instance State_eq_dec : EqDecision State.
Proof. solve_decision. Defined.
Definition is_state (l : list State) (s : State) : bool := bool_decide (s ∈ l).
Inductive OutputKind := Broadcast | Unicast | ArpFrame.
Record Output := mkOutput { o_kind : OutputKind; o_packet : bytes }.
Record Probe := mkProbe { pb_address : Z; pb_lease : option Lease; pb_sent : Z; pb_next : Z }.
Record Client := mkClient {
  k_mac : bytes;
  k_xid : Z;
  k_state : State;
  k_offers : list Lease;
  k_selected : option Lease;
  k_active : option Lease;
  k_probe : option Probe;
  k_next : Z;
  k_started : Z;
  k_retry : Z;
  k_link_local : option Configuration;
  k_fallback_at : Z;
  k_conflicts : Z;
  k_defended_at : option Z;
}.
Definition put_state v c := mkClient (k_mac c) (k_xid c) v (k_offers c) (k_selected c) (k_active c) (k_probe c) (k_next c) (k_started c) (k_retry c) (k_link_local c) (k_fallback_at c) (k_conflicts c) (k_defended_at c).
Definition put_offers v c := mkClient (k_mac c) (k_xid c) (k_state c) v (k_selected c) (k_active c) (k_probe c) (k_next c) (k_started c) (k_retry c) (k_link_local c) (k_fallback_at c) (k_conflicts c) (k_defended_at c).
Definition put_selected v c := mkClient (k_mac c) (k_xid c) (k_state c) (k_offers c) v (k_active c) (k_probe c) (k_next c) (k_started c) (k_retry c) (k_link_local c) (k_fallback_at c) (k_conflicts c) (k_defended_at c).
Definition put_active v c := mkClient (k_mac c) (k_xid c) (k_state c) (k_offers c) (k_selected c) v (k_probe c) (k_next c) (k_started c) (k_retry c) (k_link_local c) (k_fallback_at c) (k_conflicts c) (k_defended_at c).
Definition put_probe v c := mkClient (k_mac c) (k_xid c) (k_state c) (k_offers c) (k_selected c) (k_active c) v (k_next c) (k_started c) (k_retry c) (k_link_local c) (k_fallback_at c) (k_conflicts c) (k_defended_at c).
Definition put_next v c := mkClient (k_mac c) (k_xid c) (k_state c) (k_offers c) (k_selected c) (k_active c) (k_probe c) v (k_started c) (k_retry c) (k_link_local c) (k_fallback_at c) (k_conflicts c) (k_defended_at c).
Definition put_retry v c := mkClient (k_mac c) (k_xid c) (k_state c) (k_offers c) (k_selected c) (k_active c) (k_probe c) (k_next c) (k_started c) v (k_link_local c) (k_fallback_at c) (k_conflicts c) (k_defended_at c).
Definition put_started v c := mkClient (k_mac c) (k_xid c) (k_state c) (k_offers c) (k_selected c) (k_active c) (k_probe c) (k_next c) v (k_retry c) (k_link_local c) (k_fallback_at c) (k_conflicts c) (k_defended_at c).
Definition put_xid v c := mkClient (k_mac c) v (k_state c) (k_offers c) (k_selected c) (k_active c) (k_probe c) (k_next c) (k_started c) (k_retry c) (k_link_local c) (k_fallback_at c) (k_conflicts c) (k_defended_at c).
Definition put_link_local v c := mkClient (k_mac c) (k_xid c) (k_state c) (k_offers c) (k_selected c) (k_active c) (k_probe c) (k_next c) (k_started c) (k_retry c) v (k_fallback_at c) (k_conflicts c) (k_defended_at c).
Definition put_fallback v n c := mkClient (k_mac c) (k_xid c) (k_state c) (k_offers c) (k_selected c) (k_active c) (k_probe c) (k_next c) (k_started c) (k_retry c) (k_link_local c) v n (k_defended_at c).
Definition put_defended v c := mkClient (k_mac c) (k_xid c) (k_state c) (k_offers c) (k_selected c) (k_active c) (k_probe c) (k_next c) (k_started c) (k_retry c) (k_link_local c) (k_fallback_at c) (k_conflicts c) v.

Definition configuration (c : Client) : option Configuration :=
  match k_active c with Some l => Some (l_config l) | None => k_link_local c end.
Definition next_deadline (c : Client) : option Z :=
  if decide (k_state c = Stopped) then None else
  let next := if decide (k_state c = Bound) then u64_max else k_next c in
  let next := match k_probe c with Some p => Z.min next (pb_next p) | None => next end in
  let next :=
    match k_active c with
    | Some l =>
        let next := Z.min next (l_expires l) in
        let next := if decide (k_state c = Bound) then Z.min next (l_t1 l) else next in
        if decide (k_state c = Rebinding) then next else Z.min next (l_t2 l)
    | None => next
    end in
  Some (match configuration c, k_probe c with None, None => Z.min next (k_fallback_at c) | _, _ => next end).

(** ** Messages *)

(** [b.resize(b.len().max(300), 0)] *)
Definition pad300 (b : bytes) : bytes := b ++ zeros (Z.max (300 - len b) 0).
Definition request_options (c : Client) (kind destination : Z) : bytes :=
  [53; 1; kind; 61; 7; 1] ++ k_mac c
  ++ match k_selected c with
     | Some l =>
         (if (kind =? 3) || (kind =? 4) then [50; 4] ++ octets4 (c_address (l_config l)) else [])
         ++ (if bool_decide (k_state c = Requesting) || (kind =? 4) then [54; 4] ++ octets4 (l_server l) else [])
     | None => []
     end
  ++ (if kind =? 7 then [54; 4] ++ octets4 destination else [])
  ++ (if negb (kind =? 4) && negb (kind =? 7) then [55; 8; 1; 3; 6; 15; 119; 121; 58; 59; 57; 2; 0x10; 0x00] else [])
  ++ [255].
Definition bootp (c : Client) (kind now ciaddr destination : Z) : outcome io_error bytes :=
  let b := zeros 240 in
  b ← copy_at b 0 [1; 1; 6];
  b ← copy_at b 4 (be32 (k_xid c));
  b ← (if negb (kind =? 7) && negb (kind =? 4)
       then copy_at b 8 (be16 (Z.min (sat_sub now (k_started c) / 1000) 65535)) else Ok b);
  b ← (if is_unspecified4 ciaddr && negb (kind =? 4) then copy_at b 10 [0x80] else Ok b);
  b ← copy_at b 12 (octets4 ciaddr);
  b ← copy_at b 28 (k_mac c);
  b ← copy_at b 236 [99; 130; 83; 99];
  Ok (pad300 (b ++ request_options c kind destination)).
Definition message_source (c : Client) (kind : Z) : Z :=
  if (kind =? 7) || (kind =? 3) && is_state [Renewing; Rebinding] (k_state c) then
    match k_active c with Some l => c_address (l_config l) | None => 0 end
  else 0.
Definition message (c : Client) (kind now : Z) : outcome io_error Output :=
  let ciaddr := message_source c kind in
  let unicast := (kind =? 7) || (kind =? 3) && bool_decide (k_state c = Renewing) in
  destination ← (if unicast then l ← unwrap (k_active c); Ok (l_server l) else Ok u32_max);
  b ← bootp c kind now ciaddr destination;
  let udp := [0; 68; 0; 67] ++ be16 ((len b + 8) mod 65536) ++ [0; 0] ++ b in
  let sum := checksum4 (udp_pseudo ciaddr destination udp) in
  udp ← copy_at udp 6 (be16 (if sum =? 0 then 65535 else sum));
  packet ← encode ciaddr destination 17 64 udp;
  Ok (mkOutput (if unicast then Unicast else Broadcast) packet).
Definition arp_request (c : Client) (sender target : Z) : Output :=
  mkOutput ArpFrame (arp_encode (mkArp 1 (k_mac c) sender (zeros 6) target) (replicate 6 255)).

(** ** Operations *)

Section client.
Context {R : Type} `{Sampler R}.
Abbreviation MK := (M (Client * R) io_error).
Definition client_new (mac : bytes) (now : Z) : M R io_error Client :=
  b ← fill 4;
  x ← sample 9000;
  mret (mkClient mac (of_be b) Selecting [] None None None (sat64 now (1000 + x)) now 4000 None (sat64 now 60000) 0 None).
Definition transaction (now : Z) : MK unit :=
  b ← fresh_bytes 4;
  update (put_xid (of_be b)) ;;
  update (put_started now) ;;
  update (put_next now) ;;
  update (put_retry 4000).
Definition restart (now : Z) : MK unit :=
  update (put_active None) ;;
  update (put_selected None) ;;
  update (put_offers []) ;;
  update (put_probe None) ;;
  update (put_state Selecting) ;;
  transaction now.
Definition restore (l : Lease) (now : Z) : MK unit :=
  restart now ;;
  if now <? l_expires l then
    update (put_selected (Some l)) ;;
    update (put_state Reboot) ;;
    update (put_next now)
  else mret tt.
(** An offer, while selecting. *)
Definition receive_offer (m : Message) (now : Z) : MK unit :=
  match lease m now None with
  | Ok l =>
      c ← self;
      if existsb (fun l => l_server l =? m_server m) (k_offers c) || (8 <=? len (k_offers c)) then mret tt else
      (if len (k_offers c) =? 0 then update (put_next (sat64 now 1000)) else mret tt) ;;
      update (put_offers (k_offers c ++ [l]))
  | Err _ => mret tt
  | Panic => lift Panic
  end.
Definition same_address (l : Lease) (o : option Lease) : bool :=
  match o with Some x => c_address (l_config x) =? c_address (l_config l) | None => false end.
(** An acknowledgement that gives [l]. *)
Definition accept_lease (l : Lease) (now : Z) : MK unit :=
  c ← self;
  if match k_selected c with Some s => negb (c_address (l_config s) =? c_address (l_config l)) | None => false end then mret tt else
  (if same_address l (k_active c) then update (put_active (Some l))
   else
     x ← draw 1000;
     update (put_probe (Some (mkProbe (c_address (l_config l)) (Some l) 0 (sat64 now x))))) ;;
  update (put_selected None) ;;
  update (put_offers []) ;;
  update (put_state Bound).
Definition or_else {A} (a b : option A) : option A := match a with Some _ => a | None => b end.
Definition receive_message (m : Message) (now : Z) : MK unit :=
  c ← self;
  if negb (m_xid m =? k_xid c) || negb (beq (m_mac m) (k_mac c)) then mret tt else
  if (m_kind m =? 2) && bool_decide (k_state c = Selecting) then receive_offer m now else
  if negb (is_state [Requesting; Reboot; Renewing; Rebinding] (k_state c)) then mret tt else
  let prior := or_else (k_selected c) (k_active c) in
  if is_state [Requesting; Renewing] (k_state c)
     && match prior with Some l => negb (l_server l =? m_server m) | None => true end
  then mret tt else
  if m_kind m =? 6 then
    restart now ;;
    x ← draw 9000;
    update (put_next (sat64 now (1000 + x)))
  else if negb (m_kind m =? 5) then mret tt else
  match lease m now prior with
  | Ok l => accept_lease l now
  | Err _ => mret tt
  | Panic => lift Panic
  end.
Definition receive (packet : bytes) (now : Z) : MK unit :=
  match DhcpWire.parse packet with
  | Ok m => receive_message m now
  | Err _ => mret tt
  | Panic => lift Panic
  end.

(** The stretches of [poll], in their order. *)
Definition expired (now : Z) (o : option Lease) : bool := match o with Some l => l_expires l <=? now | None => false end.
Definition poll_expiry (now : Z) : MK unit :=
  c ← self;
  if expired now (k_active c) then restart now else mret tt.
Definition poll_timers (now : Z) : MK unit :=
  c ← self;
  match k_active c with
  | Some l =>
      if (l_t2 l <=? now) && negb (bool_decide (k_state c = Rebinding)) then
        update (put_state Rebinding) ;; transaction now
      else if (l_t1 l <=? now) && bool_decide (k_state c = Bound) then
        update (put_state Renewing) ;; transaction now
      else mret tt
  | None => mret tt
  end.
Definition poll_probe_expiry (now : Z) : MK unit :=
  c ← self;
  if match k_probe c with Some p => expired now (pb_lease p) | None => false end then restart now else mret tt.
Definition poll_fallback (now : Z) : MK unit :=
  c ← self;
  match k_probe c, configuration c with
  | None, None =>
      if k_fallback_at c <=? now then
        a ← draw (254 * 256 - 1);
        x ← draw 1000;
        update (put_probe (Some (mkProbe (2851995904 + a) None 0 (sat64 now x))))
      else mret tt
  | _, _ => mret tt
  end.
(** The probed address is taken into use. *)
Definition adopt (p : Probe) : MK unit :=
  match pb_lease p with
  | Some l =>
      update (put_probe (Some (mkProbe (pb_address p) None (pb_sent p) (pb_next p)))) ;;
      update (put_active (Some l)) ;;
      update (put_link_local None)
  | None => update (put_link_local (Some (mkConfiguration (pb_address p) 16 [] [] [])))
  end ;;
  update (put_defended None).
Definition poll_probe (now : Z) : MK (list Output) :=
  c ← self;
  match k_probe c with
  | Some p =>
      if now <? pb_next p then mret [] else
      let out := [arp_request c (if pb_sent p <? 3 then 0 else pb_address p) (pb_address p)] in
      sent ← lift (add_chk u8_max (pb_sent p) 1);
      update (put_probe (Some (mkProbe (pb_address p) (pb_lease p) sent (pb_next p)))) ;;
      delay ← (if sent <? 3 then x ← draw 1000; mret (1000 + x) else mret 2000);
      let p := mkProbe (pb_address p) (pb_lease p) sent (sat64 now delay) in
      update (put_probe (Some p)) ;;
      (if sent =? 4 then adopt p else mret tt) ;;
      (if sent =? 5 then update (put_probe None) else mret tt) ;;
      mret out
  | None => mret []
  end.
(** [max_by_key(|l| (l.expires, Reverse(l.server)))]: the last of the best. *)
Definition better (best : option Lease) (l : Lease) : option Lease :=
  match best with
  | Some b =>
      if (l_expires l <? l_expires b) || (l_expires l =? l_expires b) && (l_server b <? l_server l) then Some b else Some l
  | None => Some l
  end.
Definition best_offer (offers : list Lease) : option Lease := foldl better None offers.
Definition poll_select (now : Z) : MK unit :=
  c ← self;
  if bool_decide (k_state c = Selecting) && negb (len (k_offers c) =? 0) then
    update (put_selected (best_offer (k_offers c))) ;;
    update (put_offers []) ;;
    update (put_state Requesting) ;;
    update (put_started now) ;;
    update (put_retry 4000)
  else if is_state [Requesting; Reboot] (k_state c) && (sat64 (k_started c) 60000 <=? now) then restart now
  else mret tt.
Definition poll_delay (now : Z) : MK Z :=
  c ← self;
  if is_state [Renewing; Rebinding] (k_state c) then
    l ← lift (unwrap (k_active c));
    let end_ := if decide (k_state c = Renewing) then l_t2 l else l_expires l in
    mret (Z.min (Z.max (sat_sub end_ now / 2) 60000) (sat_sub end_ now))
  else
    d ← lift (sub_chk (k_retry c) 1000);
    x ← draw 2000;
    update (put_retry (Z.min (k_retry c * 2) 64000)) ;;
    mret (d + x).
Definition poll_send (now : Z) : MK (list Output) :=
  c ← self;
  if (now <? k_next c) || is_state [Bound; Stopped] (k_state c) then mret [] else
  poll_select now ;;
  c ← self;
  let kind := if decide (k_state c = Selecting) then 1 else 3 in
  o ← lift (message c kind now);
  delay ← poll_delay now;
  update (put_next (sat64 now delay)) ;;
  mret [o].
Definition poll (now : Z) : MK (list Output) :=
  c ← self;
  if decide (k_state c = Stopped) then mret [] else
  poll_expiry now ;;
  poll_timers now ;;
  poll_probe_expiry now ;;
  poll_fallback now ;;
  out1 ← poll_probe now;
  out2 ← poll_send now;
  mret (out1 ++ out2).

Definition release : MK unit :=
  update (put_state Stopped) ;;
  update (put_active None) ;;
  update (put_link_local None) ;;
  update (put_selected None) ;;
  update (put_probe None) ;;
  update (put_offers []).
Definition stop (now : Z) : MK (list Output) :=
  c ← self;
  out ← (match k_active c with Some _ => o ← lift (message c 7 now); mret [o] | None => mret [] end);
  release ;;
  mret out.
Definition set_link (up : bool) (now : Z) : MK unit :=
  c ← self;
  if up && bool_decide (k_state c = Stopped) then
    restart now ;;
    x ← draw 9000;
    update (put_next (sat64 now (1000 + x))) ;;
    update (fun c => put_fallback (sat64 now 60000) (k_conflicts c) c)
  else if negb up then
    release ;;
    update (put_defended None)
  else mret tt.
(** The address under probe that an ARP message conflicts with. *)
Definition candidate (a : Arp) (c : Client) : option Probe :=
  match k_probe c with
  | Some p =>
      if (pb_sent p <? 4) && ((sender a =? pb_address p) || is_unspecified4 (sender a) && (target a =? pb_address p))
      then Some p else None
  | None => None
  end.
Definition used_by_other (a : Arp) (c : Client) : option Z :=
  match configuration c with
  | Some cf => if sender a =? c_address cf then Some (c_address cf) else None
  | None => None
  end.
Definition conflict (cand : option Probe) (now : Z) : MK (list Output) :=
  c ← self;
  lease ← (match cand with
           | Some _ => update (put_probe None) ;; mret (p ← k_probe c; pb_lease p)
           | None => update (put_probe None) ;; update (put_active None) ;; mret (k_active c)
           end);
  update (put_defended None) ;;
  match lease with
  | Some l =>
      update (put_selected (Some l)) ;;
      c ← self;
      o ← lift (message c 4 now);
      restart now ;;
      update (put_next (sat64 now 10000)) ;;
      mret [o]
  | None =>
      update (put_link_local None) ;;
      update (fun c => put_fallback (k_fallback_at c) (sat32 (k_conflicts c) 1) c) ;;
      update (fun c => put_fallback (sat64 now (if 10 <=? k_conflicts c then 60000 else 0)) (k_conflicts c) c) ;;
      mret []
  end.
Definition handle_arp (a : Arp) (now : Z) : MK (list Output) :=
  c ← self;
  if beq (sender_mac a) (k_mac c) || bool_decide (k_state c = Stopped) then mret [] else
  let cand := candidate a c in
  let active := used_by_other a c in
  match cand, active with
  | None, None => mret []
  | _, Some address =>
      if match k_defended_at c with Some t => sat64 t 10000 <=? now | None => true end then
        update (put_defended (Some now)) ;;
        mret [arp_request c address address]
      else conflict cand now
  | Some _, None => conflict cand now
  end.
Definition receive_arp (frame : bytes) (now : Z) : MK (list Output) :=
  match arp_parse frame with
  | Ok a => handle_arp a now
  | Err _ => mret []
  | Panic => lift Panic
  end.
End client.

(** [sync_ipv4_configuration] of the runtime: the interface follows the client. *)
Definition route_eqb (a b : Route) : bool :=
  (rt_network a =? rt_network b) && (rt_length a =? rt_length b) && (rt_gateway a =? rt_gateway b).
Fixpoint routes_eqb (a b : list Route) : bool :=
  match a, b with
  | [], [] => true
  | x :: a, y :: b => route_eqb x y && routes_eqb a b
  | _, _ => false
  end.
Definition sync_ipv4_configuration (client : option Client) : M Ipv4 io_error unit :=
  match client with
  | None => mret tt
  | Some c =>
      match configuration c with
      | Some cf =>
          h ← get;
          (if bool_decide (i_address h = Some (c_address cf, c_length cf)) then mret tt
           else configure (c_address cf) (c_length cf) None) ;;
          h ← get;
          if routes_eqb (i_routes h) (c_routes cf) then mret tt else set_routes (c_routes cf)
      | None => unavailable
      end
  end.
