(* ===== verification/DhcpInv.v ===== *)
(** The DHCPv4 client: its invariant, and that every operation keeps it. *)

From S2P Require Import Prelude Effects Time Ipv4Wire Maps Ipv4Host DhcpWire Stateful Dhcp.

(** ** The invariant *)

Record base_wf (c : Client) : Prop := {
  bw_mac : is_bytes (k_mac c) /\ len (k_mac c) = 6;
  bw_xid : is_u32 (k_xid c);
  bw_next : is_u64 (k_next c);
  bw_started : is_u64 (k_started c);
  bw_fallback : is_u64 (k_fallback_at c);
  bw_retry : 4000 <= k_retry c <= 64000;
  bw_link_local : forall cf, k_link_local c = Some cf -> config_ok cf;
}.
Definition probe_ok (p : Probe) : Prop :=
  0 <= pb_sent p <= 4 /\ is_u32 (pb_address p) /\ is_u64 (pb_next p) /\
  match pb_lease p with
  | Some l => lease_ok l /\ c_address (l_config l) = pb_address p /\ pb_sent p <= 3
  | None => 2851995904 <= pb_address p <= 2851995904 + 65023 \/ pb_sent p = 4
  end.
(** A lease is probed only once it is bound, a link-local address only without a lease. *)
Definition probe_fits (s : State) (active : option Lease) (p : Probe) : Prop :=
  match pb_lease p with
  | Some _ => s = Bound \/ s = Renewing \/ s = Rebinding
  | None => pb_sent p = 4 \/ active = None
  end.
(** What each state has at hand. *)
Definition state_ok (c : Client) : Prop :=
  match k_state c with
  | Selecting => k_selected c = None /\ k_active c = None
  | Requesting | Reboot => k_selected c <> None /\ k_active c = None
  | Bound => k_selected c = None
  | Renewing | Rebinding => k_selected c = None /\ k_active c <> None
  | Stopped => k_selected c = None /\ k_active c = None /\ k_probe c = None /\ k_link_local c = None
  end.
Record client_wf (c : Client) : Prop := {
  cw_base : base_wf c;
  cw_offers : len (k_offers c) <= 8 /\ Forall lease_ok (k_offers c);
  cw_selected : forall l, k_selected c = Some l -> lease_ok l;
  cw_active : forall l, k_active c = Some l -> lease_ok l /\ k_link_local c = None;
  cw_probe : forall p, k_probe c = Some p -> probe_ok p /\ probe_fits (k_state c) (k_active c) p;
  cw_state : state_ok c;
}.
Ltac unput := cbn [k_mac k_xid k_state k_offers k_selected k_active k_probe k_next k_started k_retry k_link_local k_fallback_at k_conflicts k_defended_at
  put_state put_offers put_selected put_active put_probe put_next put_retry put_started put_xid put_link_local put_fallback put_defended].
Ltac unput_in H := cbn [k_mac k_xid k_state k_offers k_selected k_active k_probe k_next k_started k_retry k_link_local k_fallback_at k_conflicts k_defended_at
  put_state put_offers put_selected put_active put_probe put_next put_retry put_started put_xid put_link_local put_fallback put_defended] in H.

Section client.
Context {R : Type} `{Sampler R} `{!ByteSource R}.
Abbreviation MK := (M (Client * R) io_error).
#[local] Abbreviation gives := (gives (S:=Client) (R:=R) client_wf).

Lemma transaction_gives now c r (Q : unit -> Client -> Prop) : client_wf c ->
  (forall x, is_u32 x -> Q tt (put_retry 4000 (put_next now (put_started now (put_xid x c))))) -> gives (transaction now) (c, r) Q.
Proof.
  intros Hc HQ. unfold transaction. eapply gives_bind; [apply (gives_fresh 4 _ _ (fun b c' => c' = c /\ is_bytes b /\ length b = 4%nat)); [done|by intros]|].
  intros b c' r' (-> & Hb & Hl). do 3 apply gives_step. apply gives_update. apply HQ.
  pose proof (of_be_bound b Hb) as Hx. unfold len in Hx. rewrite Hl in Hx. change (256 ^ Z.of_nat 4) with 4294967296 in Hx. u_lia.
Qed.
Lemma base_transaction now x c : is_u64 now -> is_u32 x -> base_wf c -> base_wf (put_retry 4000 (put_next now (put_started now (put_xid x c)))).
Proof. intros Hn Hx []. split; unput; try done; lia. Qed.
(** The client after a restart: looking for a server again. *)
Definition restarted (c0 c : Client) : Prop :=
  client_wf c /\ k_state c = Selecting /\ k_active c = None /\ k_selected c = None /\ k_offers c = [] /\ k_probe c = None /\
  k_link_local c = k_link_local c0 /\ k_fallback_at c = k_fallback_at c0 /\ k_conflicts c = k_conflicts c0 /\ k_mac c = k_mac c0.
Lemma restart_gives now c r : is_u64 now -> base_wf c -> gives (restart now) (c, r) (fun _ => restarted c).
Proof.
  intros Hn Hb. unfold restart. do 5 apply gives_step. set (c1 := put_state _ _).
  assert (base_wf c1) as Hb1 by (destruct Hb; split; unput; done).
  assert (client_wf c1) as Hc1 by (split; unput; [done|split; [unfold len; cbn; lia|constructor]|done|done|done|done]).
  apply transaction_gives; [done|]. intros x Hx. split; [|done].
  destruct Hc1 as [_ H2 H3 H4 H5 H6]. split; unput; [by apply base_transaction|done..].
Qed.
(** An address in use after an operation was in use before it. *)
Definition kept (c c' : Client) : Prop :=
  forall cf', configuration c' = Some cf' -> exists cf, configuration c = Some cf /\ c_address cf = c_address cf'.
Definition sound (c c' : Client) : Prop := client_wf c' /\ kept c c'.
Lemma same_kept c c' : k_active c' = k_active c -> k_link_local c' = k_link_local c -> kept c c'.
Proof. intros E1 E2 cf Hcf. exists cf. split; [|done]. unfold configuration in *. by rewrite <- E1, <- E2. Qed.
Lemma kept_refl c : kept c c.
Proof. by apply same_kept. Qed.
Lemma sound_refl c : client_wf c -> sound c c.
Proof. intros Hc. split; [done|apply kept_refl]. Qed.
Lemma no_lease_kept c c' : client_wf c -> k_active c' = None -> k_link_local c' = k_link_local c -> kept c c'.
Proof.
  intros Hc E1 E2 cf Hcf. exists cf. split; [|done]. unfold configuration in *. rewrite E1, E2 in Hcf. destruct (k_active c) as [l|] eqn:Ha; [|done].
  destruct (cw_active _ Hc _ Ha) as [_ Hl]. by rewrite Hl in Hcf.
Qed.
Lemma restarted_sound c c' : client_wf c -> restarted c c' -> sound c c'.
Proof. intros Hc (H1 & _ & A1 & _ & _ & _ & L1 & _). split; [done|by apply no_lease_kept]. Qed.

(** ** Messages are always built *)

Lemma bootp_ok c kind now ci de : base_wf c -> exists b, bootp c kind now ci de = Ok b /\ 300 <= len b <= 1000.
Proof.
  intros [[_ Hm] _ _ _ _ _ _]. unfold bootp.
  assert (forall b lo s, len b = 240 -> 0 <= lo -> lo + len s <= 240 -> exists b', copy_at (E:=io_error) b lo s = Ok b' /\ len b' = 240) as Hput.
  { intros b lo s Hb Hlo Hs. exists (put b lo s). split; [apply copy_at_Ok; split; [done|]; split; [lia|done]|]. rewrite len_put by lia. done. }
  assert (len (octets4 ci) = 4) as Hci by (unfold octets4, be32; by rewrite (len_be 4)).
  destruct (Hput (zeros 240) 0 [1; 1; 6]) as (b1 & -> & H1); [done|lia|unfold len; cbn; lia|]. cbn [mbind outcome_bind].
  destruct (Hput b1 4 (be32 (k_xid c))) as (b2 & -> & H2); [done|lia|rewrite (len_be 4); lia|]. cbn [mbind outcome_bind].
  assert (exists b3, (if negb (kind =? 7) && negb (kind =? 4) then copy_at (E:=io_error) b2 8 (be16 (Z.min (sat_sub now (k_started c) / 1000) 65535)) else Ok b2) = Ok b3 /\ len b3 = 240) as (b3 & -> & H3).
  { destruct (_ && _); [apply Hput; [done|lia|rewrite (len_be 2); lia]|by exists b2]. }
  cbn [mbind outcome_bind].
  assert (exists b4, (if is_unspecified4 ci && negb (kind =? 4) then copy_at (E:=io_error) b3 10 [0x80] else Ok b3) = Ok b4 /\ len b4 = 240) as (b4 & -> & H4).
  { destruct (_ && _); [apply Hput; [done|lia|unfold len; cbn; lia]|by exists b3]. }
  cbn [mbind outcome_bind].
  destruct (Hput b4 12 (octets4 ci)) as (b5 & -> & H5); [done|lia|lia|]. cbn [mbind outcome_bind].
  destruct (Hput b5 28 (k_mac c)) as (b6 & -> & H6); [done|lia|lia|]. cbn [mbind outcome_bind].
  destruct (Hput b6 236 [99; 130; 83; 99]) as (b7 & -> & H7); [done|lia|unfold len; cbn; lia|]. cbn [mbind outcome_bind].
  eexists. split; [reflexivity|]. unfold pad300. set (x := b7 ++ _).
  assert (240 <= len x <= 400) as Hx.
  { unfold x. rewrite len_app, H7. unfold request_options.
    assert (forall s : bytes, 0 <= len s) as Hnn by (intros; apply len_nonneg).
    assert (forall a, len (octets4 a) = 4) as Ho by (intros; unfold octets4, be32; by rewrite (len_be 4)).
    destruct (k_selected c); repeat match goal with |- context [if ?c then _ else _] => destruct c end; rewrite ?len_app, ?Ho, ?Hm; unfold len; cbn; lia. }
  rewrite len_app, len_zeros by lia. lia.
Qed.
Lemma built_ok c kind now : base_wf c -> ((kind =? 7) || (kind =? 3) && bool_decide (k_state c = Renewing) = true -> k_active c <> None) ->
  exists o, message c kind now = Ok o.
Proof.
  intros Hb Ha. unfold message. set (u := (kind =? 7) || _) in *.
  assert (exists d, (if u then l ← unwrap (k_active c); Ok (l_server l) else Ok (E:=io_error) u32_max) = Ok d) as [d ->].
  { destruct u; [|by eexists]. destruct (k_active c); [by eexists|by destruct (Ha eq_refl)]. }
  cbn [mbind outcome_bind]. destruct (bootp_ok c kind now (message_source c kind) d Hb) as (b & -> & Hl). cbn [mbind outcome_bind].
  set (udp := [0; 68; 0; 67] ++ _). assert (len udp = len b + 8) as Hudp by (unfold udp; rewrite !len_app, (len_be 2); unfold len; cbn; lia).
  set (s := if _ =? 0 then 65535 else _). assert (copy_at (E:=io_error) udp 6 (be16 s) = Ok (put udp 6 (be16 s))) as ->.
  { apply copy_at_Ok. rewrite (len_be 2). split; [lia|]. split; [lia|done]. }
  cbn [mbind outcome_bind]. unfold encode. rewrite len_put by (rewrite ?(len_be 2); lia). unfold u16_max.
  destruct (Z.ltb_spec 65535 (20 + len udp)); [lia|].
  match goal with |- context [copy_at ?h 10 ?c] => assert (copy_at (E:=io_error) h 10 c = Ok (put h 10 c)) as -> end.
  { apply copy_at_Ok. unfold octets4, be32, be16. rewrite !len_app, !len_be. split; [lia|]. split; [unfold len; cbn; lia|done]. }
  cbn [mbind outcome_bind]. by eexists.
Qed.

(** ** Operations *)

Lemma restore_gives l now c r : is_u64 now -> lease_ok l -> client_wf c -> gives (restore l now) (c, r) (fun _ => sound c).
Proof.
  intros Hn Hl Hc. unfold restore. eapply gives_bind; [apply restart_gives; [done|apply Hc]|].
  intros u c1 r1 Hr. destruct (restarted_sound c c1 Hc Hr) as [_ Hk]. destruct Hr as (H1 & S1 & A1 & _ & _ & P1 & _).
  destruct (_ <? _); [|by apply gives_ret]. do 2 apply gives_step. apply gives_update.
  split; [|exact Hk]. destruct H1 as [[] H2 H3 H4 H5 H6]. split; unput; [by split|done|by intros ? [= <-]|done|by rewrite P1|done].
Qed.

Lemma receive_offer_gives m now c r : is_u64 now -> message_ok m -> client_wf c -> gives (receive_offer m now) (c, r) (fun _ => sound c).
Proof.
  intros Hn Hm Hc. unfold receive_offer. pose proof (lease_lease_ok m now None Hm Hn ltac:(done)) as Hl. destruct (lease m now None) as [l|e|]; [|by apply gives_ret, sound_refl|done].
  cbn [yields] in Hl. apply gives_self. apply gives_if; [intros _; by apply gives_ret, sound_refl|]. intros Hroom. apply orb_false_iff in Hroom as [_ Hroom%Z.leb_gt].
  destruct Hc as [[] [H2 H2'] H3 H4 H5 H6].
  assert (forall n, is_u64 n -> sound c (put_offers (k_offers c ++ [l]) (put_next n c))) as Hw.
  { intros n Hnn. split; [|by apply same_kept]. split; unput; [by split| |done|done|done|done]. rewrite len_app. change (len [l]) with 1. split; [lia|].
    apply List.Forall_app. split; [done|]. constructor; [done|constructor]. }
  destruct (len (k_offers c) =? 0).
  - apply gives_step, gives_update. apply Hw. u_lia.
  - change (put_offers (k_offers c ++ [l]) (put_next (k_next c) c)) with (put_offers (k_offers c ++ [l]) c) in Hw. apply gives_update. 
    specialize (Hw (k_next c) bw_next0). by destruct c.
Qed.
Lemma accept_lease_gives l now c r : is_u64 now -> lease_ok l -> client_wf c -> k_state c <> Stopped -> gives (accept_lease l now) (c, r) (fun _ => sound c).
Proof.
  intros Hn Hl Hc Hs. unfold accept_lease. apply gives_self. apply gives_if; [intros _; by apply gives_ret, sound_refl|]. intros _.
  destruct Hc as [Hb H2 H3 H4 H5 H6].
  eapply (gives_bind _ _ _ (fun _ c' => base_wf c' /\ (forall l, k_active c' = Some l -> lease_ok l /\ k_link_local c' = None) /\
    (forall p, k_probe c' = Some p -> probe_ok p /\ probe_fits Bound (k_active c') p) /\ kept c c')).
  - apply gives_if; intros Hsame.
    + apply gives_update. unput. split; [by destruct Hb; split|]. destruct (k_active c) as [l0|] eqn:Ha; [|done]. split; [|split].
      * intros l' [= <-]. split; [done|]. by apply (H4 l0).
      * intros p Hp. destruct (H5 p Hp) as [Hok Hfits]. split; [done|]. unfold probe_fits in *. destruct (pb_lease p); [by left|left; by destruct Hfits].
      * intros cf [= <-]. exists (l_config l0). unfold configuration. rewrite Ha. split; [done|]. cbn in Hsame. by apply Z.eqb_eq.
    + eapply gives_bind; [apply (gives_draw _ _ _ (fun x c' => c' = c /\ 0 <= x <= 1000)); [u_lia|by split|done]|].
      intros x c' r' [-> Hx]. apply gives_update. unput. split; [by destruct Hb; split|]. split; [done|]. split; [|by apply same_kept]. intros p [= <-].
      split; [|by left]. split; cbn; [lia|]. split; [apply Hl|]. split; [u_lia|]. cbn. split; [done|]. split; [done|lia].
  - intros [] c1 r1 (B1 & A1 & P1 & K1). do 2 apply gives_step. apply gives_update. split; [|exact K1]. split; unput; [by destruct B1; split|split; [unfold len; cbn; lia|constructor]|done|done|done|].
    unfold state_ok. by unput.
Qed.
Lemma receive_message_gives m now c r : is_u64 now -> message_ok m -> client_wf c -> gives (receive_message m now) (c, r) (fun _ => sound c).
Proof.
  intros Hn Hm Hc. unfold receive_message. apply gives_self.
  do 2 (apply gives_if; [intros Hif; first [by apply gives_ret, sound_refl|by apply receive_offer_gives]|intros _]).
  apply gives_if; [intros _; by apply gives_ret, sound_refl|]. intros Hst. apply negb_false_iff in Hst.
  assert (k_state c <> Stopped) as Hns.
  { unfold is_state in Hst. apply bool_decide_eq_true in Hst. intros E. rewrite E in Hst. set_solver. }
  apply gives_if; [intros _; by apply gives_ret, sound_refl|]. intros _. apply gives_if; [intros _|intros _].
  - eapply gives_bind; [apply restart_gives; [done|apply Hc]|]. intros [] c1 r1 Hr. apply restarted_sound in Hr as [H1 Hk]; [|done].
    eapply gives_bind; [apply (gives_draw _ _ _ (fun x c' => c' = c1 /\ 0 <= x <= 9000)); [u_lia|done|done]|]. intros x c' r' [-> Hx].
    apply gives_update. split; [|exact Hk]. destruct H1 as [[] ]. split; unput; try done. split; unput; try done. u_lia.
  - apply gives_if; [intros _; by apply gives_ret, sound_refl|intros _].
    assert (forall l, or_else (k_selected c) (k_active c) = Some l -> lease_ok l) as Hprior.
    { intros l. destruct Hc as [_ _ H3 H4 _ _]. destruct (k_selected c) as [s|] eqn:E; cbn; [intros [= <-]; by apply H3|]. intros Hl. by apply H4. }
    pose proof (lease_lease_ok m now _ Hm Hn Hprior) as Hl. destruct (lease m now _) as [l|e|]; [|by apply gives_ret, sound_refl|done].
    by apply accept_lease_gives.
Qed.
Lemma receive_gives packet now c r : is_u64 now -> is_bytes packet -> client_wf c -> gives (receive packet now) (c, r) (fun _ => sound c).
Proof.
  intros Hn Hb Hc. unfold receive. pose proof (dhcp_parse_ok packet Hb) as Hm. destruct (DhcpWire.parse packet) as [m|e|]; [|by apply gives_ret, sound_refl|done].
  by apply receive_message_gives.
Qed.

(** Nothing in use or under probe has expired. *)
Definition fresh (now : Z) (c : Client) : Prop :=
  (forall l, k_active c = Some l -> now < l_expires l) /\
  (forall p l, k_probe c = Some p -> pb_lease p = Some l -> now < l_expires l).
Definition live_wf (now : Z) (c : Client) : Prop := client_wf c /\ k_state c <> Stopped /\ fresh now c.
Lemma restarted_live now c0 c : restarted c0 c -> live_wf now c.
Proof. intros (H1 & S1 & A1 & _ & _ & P1 & _). split; [done|]. split; [by rewrite S1|]. split; [by rewrite A1|by rewrite P1]. Qed.
(** What a stretch of [poll] before the probe may do: addresses in use were in use, and
    probes under way were under way or have just begun. *)
Definition eases (c c' : Client) : Prop :=
  kept c c' /\ forall p, k_probe c' = Some p -> k_probe c = Some p \/ pb_sent p = 0.
Lemma eases_refl c : eases c c.
Proof. split; [apply kept_refl|by left]. Qed.
Lemma kept_trans a b c : kept a b -> kept b c -> kept a c.
Proof. intros H1 H2 cf Hcf. destruct (H2 cf Hcf) as (x & Hx & <-). by apply H1. Qed.
Lemma eases_trans a b c : eases a b -> eases b c -> eases a c.
Proof. intros [K1 P1] [K2 P2]. split; [by eapply kept_trans|]. intros p Hp. destruct (P2 p Hp); [by apply P1|by right]. Qed.
Lemma restarted_eases c c' : client_wf c -> restarted c c' -> eases c c'.
Proof. intros Hc Hr. split; [by apply restarted_sound|]. destruct Hr as (_ & _ & _ & _ & _ & P1 & _). by rewrite P1. Qed.
Lemma same_eases c c' : k_active c' = k_active c -> k_link_local c' = k_link_local c -> k_probe c' = k_probe c -> eases c c'.
Proof. intros E1 E2 E3. split; [by apply same_kept|]. rewrite E3. by left. Qed.
Lemma poll_expiry_gives now c r : is_u64 now -> client_wf c -> k_state c <> Stopped ->
  gives (poll_expiry now) (c, r) (fun _ c' => client_wf c' /\ k_state c' <> Stopped /\ eases c c' /\ forall l, k_active c' = Some l -> now < l_expires l).
Proof.
  intros Hn Hc Hs. unfold poll_expiry. apply gives_self. apply gives_if; intros He.
  - eapply gives_weaken; [apply restart_gives; [done|apply Hc]|]. intros u c1 Hr. pose proof (restarted_eases c c1 Hc Hr) as Hea. destruct Hr as (H1 & S1 & A1 & _). split; [done|]. split; [by rewrite S1|]. split; [done|by rewrite A1].
  - apply gives_ret. split; [done|]. split; [done|]. split; [apply eases_refl|]. intros l E. unfold expired in He. rewrite E in He. by apply Z.leb_gt.
Qed.
Lemma state_change s c : client_wf c -> (s = Renewing \/ s = Rebinding) -> k_active c <> None -> client_wf (put_state s c).
Proof.
  intros [H1 H2 H3 H4 H5 H6] Hs Ha.
  assert (forall p, k_probe c = Some p -> probe_ok p /\ probe_fits s (k_active c) p) as H5'.
  { intros p Hp. destruct (H5 p Hp) as [Hok Hf]. split; [done|]. unfold probe_fits in *. destruct (pb_lease p); [by right|done]. } assert (k_selected c = None) as Hsel by (unfold state_ok in H6; destruct (k_state c); naive_solver).
  split; unput; try done; [by destruct H1; split|]. unfold state_ok. unput. by destruct Hs as [-> | ->].
Qed.
Lemma transaction_wf now c r : is_u64 now -> client_wf c ->
  gives (transaction now) (c, r) (fun _ c' => client_wf c' /\ k_state c' = k_state c /\ k_active c' = k_active c /\ k_probe c' = k_probe c /\ k_link_local c' = k_link_local c).
Proof.
  intros Hn Hc. apply transaction_gives; [done|]. intros x Hx. split; [|done]. destruct Hc as [H1 H2 H3 H4 H5 H6]. split; unput; try done. by apply base_transaction.
Qed.
Lemma poll_timers_gives now c r : is_u64 now -> client_wf c -> k_state c <> Stopped ->
  gives (poll_timers now) (c, r) (fun _ c' => client_wf c' /\ k_state c' <> Stopped /\ eases c c' /\ k_active c' = k_active c).
Proof.
  intros Hn Hc Hs. unfold poll_timers. apply gives_self. destruct (k_active c) as [l|] eqn:Ha; [|apply gives_ret; split; [done|split; [done|split; [apply eases_refl|done]]]].
  apply gives_if; intros _; [|apply gives_if; intros _; [|apply gives_ret; split; [done|split; [done|split; [apply eases_refl|done]]]]].
  - apply gives_step. eapply gives_weaken; [apply transaction_wf; [done|apply state_change; [done|by right|by rewrite Ha]]|].
    intros u c' (H1 & S1 & A1 & P1 & L1). split; [done|]. rewrite S1. split; [done|]. split; [by apply same_eases|by rewrite A1].
  - apply gives_step. eapply gives_weaken; [apply transaction_wf; [done|apply state_change; [done|by left|by rewrite Ha]]|].
    intros u c' (H1 & S1 & A1 & P1 & L1). split; [done|]. rewrite S1. split; [done|]. split; [by apply same_eases|by rewrite A1].
Qed.
Lemma poll_probe_expiry_gives now c r : is_u64 now -> client_wf c -> k_state c <> Stopped -> (forall l, k_active c = Some l -> now < l_expires l) ->
  gives (poll_probe_expiry now) (c, r) (fun _ c' => live_wf now c' /\ eases c c').
Proof.
  intros Hn Hc Hs Ha. unfold poll_probe_expiry. apply gives_self. apply gives_if; intros He.
  - eapply gives_weaken; [apply restart_gives; [done|apply Hc]|]. intros u c1 H1. split; [exact (restarted_live now c c1 H1)|by apply restarted_eases].
  - apply gives_ret. split; [|apply eases_refl]. split; [done|]. split; [done|]. split; [done|]. intros p l E El. rewrite E in He. unfold expired in He. rewrite El in He. by apply Z.leb_gt.
Qed.
Lemma with_probe p c : client_wf c -> probe_ok p -> probe_fits (k_state c) (k_active c) p -> k_state c <> Stopped -> client_wf (put_probe (Some p) c).
Proof.
  intros [H1 H2 H3 H4 H5 H6] Hp Hf Hs. split; unput; try done; [by destruct H1; split|by intros ? [= <-]|]. unfold state_ok in *. unput.
  by destruct (k_state c).
Qed.
Lemma poll_fallback_gives now c r : is_u64 now -> live_wf now c -> gives (poll_fallback now) (c, r) (fun _ c' => live_wf now c' /\ eases c c').
Proof.
  intros Hn (Hc & Hs & Hf). unfold poll_fallback. apply gives_self. destruct (k_probe c) as [p|] eqn:Hp; [apply gives_ret; split; [done|apply eases_refl]|].
  destruct (configuration c) as [cf|] eqn:Hcf; [apply gives_ret; split; [done|apply eases_refl]|].
  apply gives_if; intros _; [|apply gives_ret; split; [done|apply eases_refl]].
  eapply gives_bind; [apply (gives_draw _ _ _ (fun x c' => c' = c /\ 0 <= x <= 65023)); [u_lia|done|done]|]. intros a c' r' [-> Ha].
  eapply gives_bind; [apply (gives_draw _ _ _ (fun x c' => c' = c /\ 0 <= x <= 1000)); [u_lia|done|done]|]. intros x c' r'' [-> Hx].
  apply gives_update. split; [|split; [by apply same_kept|intros p [= <-]; by right]]. split; [|split; [done|]].
  - assert (k_active c = None) as Hact by (unfold configuration in Hcf; by destruct (k_active c)).
    apply with_probe; [done| |by right|done]. split; cbn; [lia|]. split; [u_lia|]. split; [u_lia|]. left. lia.
  - destruct Hf as [Hf _]. split; [done|]. unput. by intros p l [= <-].
Qed.
Lemma link_local_ok a : 2851995904 <= a <= 2851995904 + 65023 -> config_ok (mkConfiguration a 16 [] [] []).
Proof.
  intros Ha. assert (exists d, a = 2851995904 + d /\ 0 <= d <= 65023) as (d & -> & Hd) by (exists (a - 2851995904); lia). clear Ha.
  assert (octet4_0 (2851995904 + d) = 169) as Ho.
  { unfold octet4_0. rewrite Z.shiftr_div_pow2 by lia. change (2 ^ 24) with 16777216. symmetry. apply (Z.div_unique _ _ _ (16646400 + d)); lia. }
  assert (unicast (2851995904 + d) = true) as Hu.
  { unfold unicast, is_multicast4, is_loopback4, is_unspecified4, is_broadcast4, u32_max. rewrite Ho. cbn.
    destruct (Z.eqb_spec (2851995904 + d) 0), (Z.eqb_spec (2851995904 + d) 4294967295); try done; lia. }
  assert (host_address (2851995904 + d) 16 = true) as Hh.
  { unfold host_address. assert (Z.land (2851995904 + d) (mask_low 16) = 256 + d) as ->.
    { change (mask_low 16) with (Z.ones 16). rewrite Z.land_ones by lia. change (2 ^ 16) with 65536. symmetry. apply (Z.mod_unique _ _ 43518); lia. }
    change (mask_low 16) with 65535. by destruct (Z.eqb_spec (256 + d) 0), (Z.eqb_spec (256 + d) 65535); try lia. }
  split; cbn [c_address c_length c_routes c_dns c_search]; [split; [u_lia|done]|u_lia| |split; [unfold len; cbn; lia|constructor]|split; [unfold len; cbn; lia|constructor]].
  unfold checked_config, configure, set_routes. rewrite Hu, Hh. done.
Qed.

(** What [poll_probe] can do to the configuration: only an address announced three times
    before is taken. *)
Definition probed (c c' : Client) : Prop :=
  (k_active c' = k_active c /\ k_link_local c' = k_link_local c) \/
  (exists p cf, k_probe c = Some p /\ pb_sent p = 3 /\ configuration c' = Some cf /\ c_address cf = pb_address p).
Definition advanced (p : Probe) (sent next : Z) : Probe := mkProbe (pb_address p) (pb_lease p) sent next.
Lemma probe_advances now c p n : live_wf now c -> k_probe c = Some p -> is_u64 n -> pb_sent p <= 2 ->
  live_wf now (put_probe (Some (advanced p (pb_sent p + 1) n)) c).
Proof.
  intros (Hc & Hs & Hf1 & Hf2) Hp Hn Hle. destruct (cw_probe _ Hc _ Hp) as [(Hsent & Haddr & Hnext & Hlease) Hfits].
  split; [|split; [done|split; [done|]]].
  - apply with_probe; [done| | |done].
    + unfold probe_ok, advanced. cbn [pb_sent pb_address pb_next pb_lease]. split; [lia|]. split; [done|]. split; [done|].
      destruct (pb_lease p); [destruct Hlease as (? & ? & ?); split; [done|]; split; [done|lia]|]. left. destruct Hlease; [done|lia].
    + unfold probe_fits, advanced in *. cbn [pb_lease pb_sent]. destruct (pb_lease p); [done|]. right. destruct Hfits; [lia|done].
  - unput. intros q l [= <-] Hl. by apply (Hf2 p).
Qed.
Lemma probe_ends now c p : live_wf now c -> k_probe c = Some p -> pb_sent p = 4 -> live_wf now (put_probe None c).
Proof.
  intros (Hc & Hs & Hf1 & Hf2) Hp Hle. destruct (cw_probe _ Hc _ Hp) as [(Hsent & Haddr & Hnext & Hlease) Hfits].
  assert (pb_lease p = None) as Hl by (destruct (pb_lease p); [lia|done]).
  split; [|split; [done|split; [done|by unput]]]. destruct Hc as [H1 H2 H3 H4 H5 H6].
  split; unput; try done; [by destruct H1; split|]. unfold state_ok in *. unput. by destruct (k_state c).
Qed.
(** The fourth announcement takes the address into use. *)
Definition adopted (p : Probe) (next : Z) (c : Client) : Client :=
  put_defended None
    match pb_lease p with
    | Some l => put_link_local None (put_active (Some l) (put_probe (Some (mkProbe (pb_address p) None 4 next)) c))
    | None => put_link_local (Some (mkConfiguration (pb_address p) 16 [] [] [])) (put_probe (Some (advanced p 4 next)) c)
    end.
Lemma probe_adopts now c p n : live_wf now c -> k_probe c = Some p -> is_u64 n -> pb_sent p = 3 ->
  live_wf now (adopted p n c) /\ exists cf, configuration (adopted p n c) = Some cf /\ c_address cf = pb_address p.
Proof.
  intros (Hc & Hs & Hf1 & Hf2) Hp Hn Hle. destruct (cw_probe _ Hc _ Hp) as [(Hsent & Haddr & Hnext & Hlease) Hfits].
  destruct Hc as [H1 H2 H3 H4 H5 H6]. unfold adopted, probe_fits in *. destruct (pb_lease p) as [l|] eqn:Hl.
  - destruct Hlease as (Hlo & Hla & _). split; [|by exists (l_config l)]. split; [|split; [done|split]].
    + split; unput; try done; [by destruct H1; split|by intros ? [= <-]| |].
      * intros q [= <-]. split; [|by left]. split; cbn; [lia|]. split; [done|]. split; [done|]. by right.
      * unfold state_ok in *. unput. destruct Hfits as [E|[E|E]]; rewrite E in *; [done|by split; [apply H6|]..].
    + unput. intros l' [= <-]. by apply (Hf2 p).
    + unput. by intros q l' [= <-].
  - assert (k_active c = None) as Ha by (destruct Hfits; [lia|done]).
    split; [|exists (mkConfiguration (pb_address p) 16 [] [] []); split; [unfold configuration; unput; by rewrite Ha|done]].
    split; [|split; [done|split; [by unput|unput; by intros q l [= <-] Hq; cbn in Hq; congruence]]].
    assert (2851995904 <= pb_address p <= 2851995904 + 65023) as Hrange by (destruct Hlease; [done|lia]).
    split; unput; try done; [destruct H1; split; unput; try done; intros cf [= <-]; by apply link_local_ok|by rewrite Ha| |].
    + intros q [= <-]. split; [|unfold probe_fits; cbn; rewrite ?Hl; by left]. split; cbn; [lia|]. split; [done|]. split; [done|]. rewrite Hl. by right.
    + unfold state_ok in *. unput. by destruct (k_state c).
Qed.
Lemma poll_probe_gives now c r : is_u64 now -> live_wf now c ->
  gives (poll_probe now) (c, r) (fun _ c' => live_wf now c' /\ probed c c').
Proof.
  intros Hn Hlive. unfold poll_probe. apply gives_self. destruct (k_probe c) as [p|] eqn:Hp; [|apply gives_ret; split; [done|by left]].
  apply gives_if; intros Hdue; [apply gives_ret; split; [done|by left]|].
  destruct Hlive as (Hc & Hrest). pose proof (cw_probe _ Hc _ Hp) as [(Hsent & _ & Hnext & _) _]. assert (live_wf now c) as Hlive by done.
  unfold add_chk. destruct (Z.leb_spec (pb_sent p + 1) u8_max); [|u_lia].
  eapply (gives_bind _ _ _ (fun s c' => c' = c /\ s = pb_sent p + 1)); [apply gives_lift; done|]. intros s c' r' [-> ->]. apply gives_step.
  eapply (gives_bind _ _ _ (fun d c' => c' = put_probe (Some (advanced p (pb_sent p + 1) (pb_next p))) c /\ 0 <= d)).
  { apply gives_if; [intros Hlt%Z.ltb_lt|intros _; by apply gives_ret]. 
    eapply gives_bind; [apply (gives_draw _ _ _ (fun x c' => c' = put_probe (Some (advanced p (pb_sent p + 1) (pb_next p))) c /\ 0 <= x)); [u_lia| |]|].
    - apply probe_advances with now; try done. lia.
    - intros x Hx. split; [done|lia].
    - intros x c1 r1 [-> Hx]. apply gives_ret. split; [done|lia]. }
  intros d c1 r1 [-> Hd]. apply gives_step. set (n := sat64 now d). assert (is_u64 n) as Hn' by (unfold n; u_lia).
  destruct (Z.eqb_spec (pb_sent p + 1) 4) as [E4|E4]; [|destruct (Z.eqb_spec (pb_sent p + 1) 5) as [E5|E5]].
  - destruct (probe_adopts now c p n Hlive Hp Hn' ltac:(lia)) as [Hw (cf & Hcf & Ha)].
    eapply (gives_bind _ _ _ (fun _ c' => c' = adopted p n c)).
    + rewrite E4. unfold adopt, adopted, advanced. cbn [pb_lease pb_address pb_sent pb_next]. by destruct (pb_lease p).
    + intros _ c2 r2 ->. rewrite E4. apply gives_ret. split; [done|]. right. exists p, cf. split; [done|]. split; [lia|done].
  - eapply gives_bind; [apply (gives_ret tt _ _ (fun _ c' => c' = put_probe (Some (advanced p (pb_sent p + 1) n)) c)); exact eq_refl|intros _ ? ? ->].
    eapply gives_bind; [apply (gives_update _ _ _ (fun _ c' => c' = put_probe None c)); exact eq_refl|intros _ ? ? ->].
    apply gives_ret. split; [apply probe_ends with p; try done; lia|by left].
  - do 2 (eapply gives_bind; [apply (gives_ret tt _ _ (fun _ c' => c' = put_probe (Some (advanced p (pb_sent p + 1) n)) c)); exact eq_refl|intros _ ? ? ->]).
    apply gives_ret. split; [apply probe_advances; try done; lia|by left].
Qed.

(** ** Sending *)

Lemma best_offer_in offers l : best_offer offers = Some l -> In l offers.
Proof.
  unfold best_offer. assert (forall best, foldl better best offers = Some l -> best = Some l \/ In l offers) as Hf.
  { induction offers as [|o rest IH]; intros best; cbn [foldl]; [by left|]. intros E. destruct (IH _ E) as [Hb|Hr]; [|by right; right].
    unfold better in Hb. destruct best as [b|]; [|right; left; congruence]. destruct (_ || _); [by left|right; left; congruence]. }
  intros E. by destruct (Hf None E).
Qed.
Lemma best_offer_some offers : offers <> [] -> best_offer offers <> None.
Proof.
  unfold best_offer. assert (forall os o, o <> None -> foldl better o os <> None) as Hf.
  { induction os as [|x rest IH]; intros o Ho; cbn [foldl]; [done|]. apply IH. unfold better. destruct o; [|done]. by destruct (_ || _). }
  destruct offers; [done|]. intros _. cbn [foldl]. by apply Hf.
Qed.
Lemma poll_select_gives now c r : is_u64 now -> live_wf now c ->
  gives (poll_select now) (c, r) (fun _ c' => live_wf now c' /\ sound c c').
Proof.
  intros Hn Hlive. assert (live_wf now c) as (Hc & Hs & Hf) by done. unfold poll_select. apply gives_self. apply gives_if; intros H1.
  - apply andb_true_iff in H1 as [Hsel%bool_decide_eq_true Hne%negb_true_iff%Z.eqb_neq]. pose proof (cw_state _ Hc) as Hst. unfold state_ok in Hst. rewrite Hsel in Hst.
    do 4 apply gives_step. apply gives_update. assert (forall c', k_active c' = k_active c -> k_link_local c' = k_link_local c -> client_wf c' -> k_probe c' = k_probe c -> k_state c' = Requesting -> live_wf now c' /\ sound c c') as Hdone.
    { intros c' E1 E2 E3 E4 E5. split; [|split; [done|by apply same_kept]]. split; [done|]. split; [by rewrite E5|]. unfold fresh. by rewrite E1, E4. }
    apply Hdone; try done. destruct Hc as [[] [H2 H2'] H3 H4 H5 H6]. split; unput; [split; unput; try done; lia|split; [unfold len; cbn; lia|constructor]| |done| |].
    + intros l Hl. apply best_offer_in in Hl. by apply (proj1 (List.Forall_forall _ _) H2').
    + intros p Hp. destruct (H5 p Hp) as [Hok Hfits]. split; [done|]. unfold probe_fits in *. destruct (pb_lease p); [|done]. rewrite Hsel in Hfits. naive_solver.
    + unfold state_ok. unput. split; [|apply Hst]. apply best_offer_some. intros E. by rewrite E in Hne.
  - apply gives_if; intros _; [|apply gives_ret; split; [done|by apply sound_refl]].
    eapply gives_weaken; [apply restart_gives; [done|apply Hc]|]. intros u c1 Hr. split; [exact (restarted_live now c c1 Hr)|by apply restarted_sound].
Qed.
(** Changes of the timers alone. *)
Lemma timer_live now c c' : live_wf now c -> base_wf c' -> k_offers c' = k_offers c -> k_selected c' = k_selected c -> k_active c' = k_active c -> k_probe c' = k_probe c ->
  k_state c' = k_state c -> k_link_local c' = k_link_local c -> live_wf now c' /\ sound c c'.
Proof.
  intros ([H1 H2 H3 H4 H5 H6] & Hs & Hf) Hb E1 E2 E3 E4 E5 E6.
  assert (client_wf c') as Hw.
  { split; [done|by rewrite E1|by rewrite E2|by rewrite E3, E6|by rewrite E3, E4, E5|]. unfold state_ok in *. by rewrite E2, E3, E4, E5, E6. }
  split; [|split; [done|by apply same_kept]]. split; [done|]. split; [by rewrite E5|]. unfold fresh. by rewrite E3, E4.
Qed.
Lemma poll_delay_gives now c r : is_u64 now -> live_wf now c ->
  gives (poll_delay now) (c, r) (fun d c' => 0 <= d /\ live_wf now c' /\ sound c c').
Proof.
  intros Hn Hlive. assert (live_wf now c) as (Hc & Hs & Hf) by done. unfold poll_delay. apply gives_self. apply gives_if; intros Hst.
  - assert (exists l, k_active c = Some l) as (l & Ha).
    { unfold is_state in Hst. apply bool_decide_eq_true in Hst. pose proof (cw_state _ Hc) as H1. unfold state_ok in H1.
      destruct (k_active c) as [l|]; [by exists l|]. destruct (k_state c); try set_solver; naive_solver. }
    rewrite Ha. eapply (gives_bind _ _ _ (fun x c' => c' = c)); [apply gives_lift; done|]. intros l' c' r' ->. apply gives_ret.
    split; [|split; [done|by apply sound_refl]]. unfold sat_sub. lia.
  - pose proof (bw_retry _ (cw_base _ Hc)) as Hr. unfold sub_chk. destruct (Z.leb_spec 1000 (k_retry c)); [|lia].
    eapply (gives_bind _ _ _ (fun x c' => c' = c /\ x = k_retry c - 1000)); [apply gives_lift; done|]. intros d c' r' [-> ->].
    eapply gives_bind; [apply (gives_draw _ _ _ (fun x c' => c' = c /\ 0 <= x <= 2000)); [u_lia|done|done]|]. intros x c' r'' [-> Hx].
    apply gives_step, gives_ret. split; [lia|]. apply timer_live; try done. destruct (cw_base _ Hc). split; unput; try done. lia.
Qed.
Lemma sound_trans a b c : sound a b -> sound b c -> sound a c.
Proof. intros [_ K1] [H2 K2]. split; [done|by eapply kept_trans]. Qed.
Lemma renewing_active c : client_wf c -> k_state c = Renewing -> k_active c <> None.
Proof. intros Hc E. pose proof (cw_state _ Hc) as H1. unfold state_ok in H1. rewrite E in H1. apply H1. Qed.
Lemma poll_send_gives now c r : is_u64 now -> live_wf now c ->
  gives (poll_send now) (c, r) (fun _ c' => live_wf now c' /\ sound c c').
Proof.
  intros Hn Hlive. unfold poll_send. apply gives_self. apply gives_if; intros _; [apply gives_ret; split; [done|apply sound_refl, Hlive]|].
  eapply gives_bind; [by apply poll_select_gives|]. intros u c1 r1 [L1 S1]. apply gives_self. cbv zeta.
  assert (exists o, message c1 (if decide (k_state c1 = Selecting) then 1 else 3) now = Ok o) as [o Ho].
  { apply built_ok; [apply L1|]. intros Hk. apply renewing_active; [apply L1|]. destruct (decide _); [done|].
    change (3 =? 7) with false in Hk. change (3 =? 3) with true in Hk. by apply bool_decide_eq_true in Hk. }
  rewrite Ho. eapply (gives_bind _ _ _ (fun x c' => c' = c1)); [apply gives_lift; done|]. intros o' c1' r1' ->.
  eapply gives_bind; [by apply poll_delay_gives|]. intros d c2 r2 (Hd & L2 & S2). apply gives_step, gives_ret.
  destruct (timer_live now c2 (put_next (sat64 now d) c2) L2) as [L3 S3]; try done.
  - destruct (cw_base _ (proj1 L2)). split; unput; try done. u_lia.
  - split; [done|]. eapply sound_trans; [exact S1|]. by eapply sound_trans.
Qed.
(** Where the address in use after a poll comes from. *)
Definition announced (c c' : Client) : Prop :=
  forall cf', configuration c' = Some cf' ->
    (exists cf, configuration c = Some cf /\ c_address cf = c_address cf') \/
    (exists p, k_probe c = Some p /\ pb_sent p = 3 /\ pb_address p = c_address cf').
Lemma poll_gives now c r : is_u64 now -> client_wf c ->
  gives (poll now) (c, r) (fun _ c' => client_wf c' /\ fresh now c' /\ announced c c').
Proof.
  intros Hn Hc. unfold poll. apply gives_self. destruct (decide (k_state c = Stopped)) as [Hs|Hs].
  { apply gives_ret. pose proof (cw_state _ Hc) as H1. unfold state_ok in H1. rewrite Hs in H1. destruct H1 as (_ & A1 & P1 & L1). split; [done|].
    split; [by split; rewrite ?A1, ?P1|]. intros cf. unfold configuration. by rewrite A1, L1. }
  eapply gives_bind; [by apply poll_expiry_gives|]. intros u1 c1 r1 (H1 & S1 & E1 & F1).
  eapply gives_bind; [by apply poll_timers_gives|]. intros u2 c2 r2 (H2 & S2 & E2 & F2).
  eapply gives_bind; [apply poll_probe_expiry_gives; try done; by rewrite F2|]. intros u3 c3 r3 (L3 & E3).
  eapply gives_bind; [by apply poll_fallback_gives|]. intros u4 c4 r4 (L4 & E4).
  eapply gives_bind; [by apply poll_probe_gives|]. intros o5 c5 r5 (L5 & P5).
  eapply gives_bind; [by apply poll_send_gives|]. intros o6 c6 r6 (L6 & _ & K6). apply gives_ret. split; [apply L6|]. split; [apply L6|].
  assert (eases c c4) as [K4 P4] by (do 3 (eapply eases_trans; [eassumption|]); done).
  intros cf6 Hcf6. destruct (K6 _ Hcf6) as (cf5 & Hcf5 & <-). destruct P5 as [[A5 A5']|(p & cf & Hp & Hs3 & Hcf & Ha)].
  - destruct (same_kept c4 c5 A5 A5' _ Hcf5) as (cf4 & Hcf4 & <-). left. by apply K4.
  - right. exists p. destruct (P4 p Hp) as [Hp'|]; [|lia]. split; [done|]. split; [done|]. rewrite <- Ha. congruence.
Qed.

(** ** Leaving, the link, and ARP *)

Lemma release_gives c r (Q : unit -> Client -> Prop) : (forall c', base_wf c' -> client_wf c' -> configuration c' = None -> k_state c' = Stopped -> Q tt c') -> base_wf c ->
  gives release (c, r) Q.
Proof.
  intros HQ Hb. unfold release. do 5 apply gives_step. apply gives_update. set (c' := put_offers _ _).
  assert (base_wf c') as Hb' by (destruct Hb; split; unput; done). apply HQ; try done.
Qed.
Lemma none_kept c c' : configuration c' = None -> kept c c'.
Proof. intros E cf. by rewrite E. Qed.
Lemma stop_gives now c r : is_u64 now -> client_wf c ->
  gives (stop now) (c, r) (fun _ c' => sound c c' /\ k_state c' = Stopped).
Proof.
  intros Hn Hc. unfold stop. apply gives_self. eapply (gives_bind _ _ _ (fun _ c' => c' = c)).
  - destruct (k_active c) as [l|] eqn:Ha; [|by apply gives_ret]. destruct (built_ok c 7 now (cw_base _ Hc)) as [o Ho]; [by rewrite Ha|]. rewrite Ho.
    eapply (gives_bind _ _ _ (fun x c' => c' = c)); [apply gives_lift; done|]. intros o' c' r' ->. by apply gives_ret.
  - intros out c' r' ->. eapply gives_bind; [apply (release_gives _ _ (fun _ c' => sound c c' /\ k_state c' = Stopped)); [|apply Hc]|intros u c2 r2 H2; by apply gives_ret].
    intros c' Hb Hw Hcf Hs. split; [|done]. split; [done|by apply none_kept].
Qed.
Lemma set_link_gives up now c r : is_u64 now -> client_wf c -> gives (set_link up now) (c, r) (fun _ => sound c).
Proof.
  intros Hn Hc. unfold set_link. apply gives_self. apply gives_if; intros _; [|apply gives_if; intros _; [|by apply gives_ret, sound_refl]].
  - eapply gives_bind; [apply restart_gives; [done|apply Hc]|]. intros u c1 r1 Hr. apply restarted_sound in Hr as [H1 K1]; [|done].
    eapply gives_bind; [apply (gives_draw _ _ _ (fun x c' => c' = c1 /\ 0 <= x <= 9000)); [u_lia|done|done]|]. intros x c' r' [-> Hx].
    apply gives_step, gives_update. split; [|exact K1]. destruct H1 as [[] ]. split; unput; try done. split; unput; try done; u_lia.
  - eapply gives_bind; [apply (release_gives _ _ (fun _ c' => client_wf c' /\ configuration c' = None)); [done|apply Hc]|].
    intros u c1 r1 [H1 K1]. apply gives_update. split; [|by apply none_kept]. destruct H1 as [[] ]. by split; unput; [split|..].
Qed.
(** A conflict takes the address out of use, whichever it was. *)
Lemma conflict_gives cand now c r : is_u64 now -> client_wf c -> gives (conflict cand now) (c, r) (fun _ => sound c).
Proof.
  intros Hn Hc. unfold conflict. apply gives_self.
  eapply (gives_bind _ _ _ (fun l c' => base_wf c' /\ k_link_local c' = k_link_local c /\ (l = None -> client_wf c' /\ kept c c'))).
  - assert (base_wf (put_probe None c)) as Hb by (destruct (cw_base _ Hc); by split). destruct cand as [p|].
    + apply gives_step, gives_ret. split; [done|]. split; [done|]. intros _. split; [|by apply same_kept]. destruct Hc as [H1 H2 H3 H4 H5 H6].
      split; unput; try done. unfold state_ok in *. unput. clear - H6. destruct (k_state c); intuition congruence.
    + do 2 apply gives_step. apply gives_ret. split; [by destruct Hb; split|]. split; [done|]. intros Ha. split; [|by apply no_lease_kept]. destruct Hc as [H1 H2 H3 H4 H5 H6].
      split; unput; try done; [by destruct H1; split|]. unfold state_ok in *. unput. rewrite Ha in H6. clear - H6. destruct (k_state c); intuition congruence.
  - intros l c1 r1 (B1 & L1 & H1). apply gives_step. destruct l as [l|].
    + apply gives_step, gives_self. match goal with |- gives _ (?x, _) _ => set (c2 := x) end.
      assert (base_wf c2) as B2 by (destruct B1; by split). destruct (built_ok c2 4 now B2) as [o Ho]; [done|]. rewrite Ho.
      eapply (gives_bind _ _ _ (fun x c' => c' = c2)); [apply gives_lift; done|]. intros o' c' r' ->.
      eapply gives_bind; [by apply restart_gives|]. intros u c3 r3 (H3 & _ & A3 & _ & _ & _ & L3 & _). apply gives_step, gives_ret. split.
      * destruct H3 as [[] ]. split; unput; try done. split; unput; try done. u_lia.
      * apply no_lease_kept; [done|done|]. unput. rewrite L3. unfold c2. by unput.
    + destruct (H1 eq_refl) as [Hw Hk]. do 3 apply gives_step. apply gives_ret. split.
      * destruct Hw as [[] H2 H3 H4 H5 H6]. split; unput; try done; [split; unput; try done; destruct (_ <=? _); u_lia| |].
        -- intros l Hl. split; [by apply (H4 l)|done].
        -- unfold state_ok in *. unput. clear - H6. destruct (k_state c1); intuition congruence.
      * intros cf Hcf. apply Hk. unfold configuration in *. revert Hcf. unput. by destruct (k_active c1).
Qed.
Lemma receive_arp_gives frame now c r : is_u64 now -> is_bytes frame -> client_wf c -> gives (receive_arp frame now) (c, r) (fun _ => sound c).
Proof.
  intros Hn Hb Hc. unfold receive_arp. pose proof (arp_parse_safe frame Hb) as Hp. destruct (arp_parse frame) as [a|e|]; [|by apply gives_ret, sound_refl|done].
  unfold handle_arp. apply gives_self. apply gives_if; intros _; [by apply gives_ret, sound_refl|].
  destruct (candidate a c) as [p|], (used_by_other a c) as [address|]; try (by apply conflict_gives); try (by apply gives_ret, sound_refl).
  all: apply gives_if; intros _; [|by apply conflict_gives]. all: apply gives_step, gives_ret; split; [|by apply same_kept].
  all: destruct Hc as [[] ]; split; unput; try done; by split.
Qed.
End client.

Lemma client_new_ok {R} `{Sampler R} `{!ByteSource R} mac now : is_u64 now -> is_bytes mac -> len mac = 6 -> forall r : R,
  match client_new mac now r with (Ok c, _) => client_wf c /\ configuration c = None | (Err _, _) => True | (Panic, _) => False end.
Proof.
  intros Hn Hb Hl r. unfold client_new. cbv [mbind M_bind mret M_ret].
  destruct (fill_cases 4 r) as [(b & r' & -> & Hb4 & Hl4)|(e & r' & ->)]; [|done].
  destruct (sample_cases 9000 r' ltac:(u_lia)) as [(x & r'' & -> & Hx)|(e & r'' & ->)]; [|done].
  pose proof (of_be_bound b Hb4) as Hx4. unfold len in Hx4. rewrite Hl4 in Hx4. change (256 ^ Z.of_nat 4) with 4294967296 in Hx4.
  split; [|done]. split; try done; split; cbn [k_mac k_xid k_next k_started k_fallback_at k_retry k_link_local]; try done; try u_lia.
Qed.
