(* ===== verification/DhcpFacts.v ===== *)
(** Theorems of the DHCPv4 client over the histories of what happens to it. *)

From S2P Require Import Prelude Effects Time Ipv4Wire Maps Ipv4Host DhcpWire Stateful Dhcp DhcpInv.

(** ** Histories *)

Inductive Event :=
  | Receive (packet : bytes) (now : Z)
  | Poll (now : Z)
  | ArpFrameIn (frame : bytes) (now : Z)
  | Stop (now : Z)
  | SetLink (up : bool) (now : Z)
  | Resume (l : Lease) (now : Z).
Definition event_ok (e : Event) : Prop :=
  match e with
  | Receive b now | ArpFrameIn b now => is_bytes b /\ is_u64 now
  | Poll now | Stop now | SetLink _ now => is_u64 now
  | Resume l now => lease_ok l /\ is_u64 now
  end.

Section history.
Context {R : Type} `{Sampler R} `{!ByteSource R}.
Definition run_event (e : Event) : M (Client * R) io_error (list Output) :=
  match e with
  | Receive b now => receive b now ;; mret []
  | Poll now => poll now
  | ArpFrameIn b now => receive_arp b now
  | Stop now => stop now
  | SetLink up now => set_link up now ;; mret []
  | Resume l now => restore l now ;; mret []
  end.
Definition is_poll (e : Event) : bool := match e with Poll _ => true | _ => false end.
#[local] Abbreviation gives := (gives (S:=Client) (R:=R) client_wf).
Lemma gives_then c r (m : M (Client * R) io_error unit) (Q : Client -> Prop) : gives m (c, r) (fun _ => Q) -> gives (m ;; mret []) (c, r) (fun _ : list Output => Q).
Proof. intros Hm. eapply gives_bind; [exact Hm|]. intros u c' r' Hc'. by apply gives_ret. Qed.
Lemma run_event_gives e c r : event_ok e -> client_wf c ->
  gives (run_event e) (c, r) (fun _ c' => client_wf c' /\ if is_poll e then announced c c' else kept c c').
Proof.
  intros He Hc. destruct e as [b now|now|b now|now|up now|l now]; cbn [event_ok run_event is_poll] in *; try destruct He as [Hx Hy].
  - by apply gives_then, receive_gives.
  - eapply gives_weaken; [by apply poll_gives|]. intros a c' (H1 & _ & H2). done.
  - by apply receive_arp_gives.
  - eapply gives_weaken; [by apply stop_gives|]. by intros a c' [? _].
  - by apply gives_then, set_link_gives.
  - by apply gives_then, restore_gives.
Qed.
Lemma history_wf es st : Forall event_ok es -> client_wf st.1 -> exists st', run_all run_event es st = Some st' /\ client_wf st'.1.
Proof.
  apply (run_all_gives event_ok). intros e c r He Hc. eapply gives_weaken; [by apply run_event_gives|]. by intros a c' [].
Qed.
End history.

(** ** Concrete histories *)

Definition sample_mac : bytes := [2; 0; 0; 0; 0; 1].
Definition no_entropy : ScriptedRandom := {| values := [] |}.
Definition sample_server : Z := 3221225985. (* 192.0.2.1 *)
Definition sample_address : Z := 3221225994. (* 192.0.2.10 *)
(** A reply of [sample_server] to the transaction 0: the offer (2) or acknowledgement (5)
    of [sample_address] for an hour. *)
Definition reply_udp (kind : Z) : bytes :=
  let body := [2; 1; 6] ++ zeros 13 ++ octets4 sample_address ++ zeros 8 ++ sample_mac ++ zeros 202 ++ [99; 130; 83; 99]
    ++ [53; 1; kind; 54; 4] ++ octets4 sample_server ++ [51; 4; 0; 0; 14; 16; 1; 4; 255; 255; 255; 0; 255] in
  [0; 67; 0; 68] ++ be16 (len body + 8) ++ [0; 0] ++ body.
Definition sample_reply (kind : Z) : bytes :=
  match encode sample_server u32_max 17 64 (reply_udp kind) with Ok b => b | _ => [] end.
Definition new_client : option (Client * ScriptedRandom) :=
  match client_new sample_mac 0 no_entropy with (Ok c, r) => Some (c, r) | _ => None end.
Definition after (es : list Event) : option (Client * ScriptedRandom) := st ← new_client; run_all run_event es st.
(** An offer and its acknowledgement, then the four announcements. *)
Definition lease_events : list Event :=
  [Poll 1000; Receive (sample_reply 2) 1001; Poll 2001; Receive (sample_reply 5) 2002; Poll 2002; Poll 3002; Poll 4002].
(** A link-local address, then an offer and its acknowledgement, and while the leased address
    is probed two conflicts about the link-local one. *)
Definition link_local_conflict : bytes := arp_encode (mkArp 1 [2; 0; 0; 0; 0; 9] 2851995904 (zeros 6) 2851995904) (replicate 6 255).
Definition conflict_events : list Event :=
  [Poll 60000; Poll 61000; Poll 62000; Poll 64000; Receive (sample_reply 2) 64001; Poll 65001; Receive (sample_reply 5) 65002;
   ArpFrameIn link_local_conflict 65003; ArpFrameIn link_local_conflict 65004].

(** ** A lease that is lost while it is probed *)

(** Bound, with neither a lease in use nor one under probe. *)
Definition leaseless (c : Client) : Prop :=
  k_state c = Bound /\ k_active c = None /\ forall p, k_probe c = Some p -> pb_lease p = None.
Section leaseless.
Context {R : Type} `{Sampler R} `{!ByteSource R}.
Definition spares {A} (m : M (Client * R) io_error A) (st : Client * R) (Q : A -> Prop) : Prop :=
  leaseless (m st).2.1 /\ match (m st).1 with Ok a => Q a | _ => True end.
Lemma spares_bind {A B} (m : M (Client * R) io_error A) (f : A -> M (Client * R) io_error B) st P Q :
  spares m st P -> (forall a c r, leaseless c -> P a -> spares (f a) (c, r) Q) -> spares (m ≫= f) st Q.
Proof. unfold spares. cbv [mbind M_bind]. intros [H1 H2] Hf. destruct (m st) as [[a|e|] [c r]]; [by apply Hf|done|done]. Qed.
Lemma spares_ret {A} (a : A) c r (Q : A -> Prop) : leaseless c -> Q a -> spares (mret a) (c, r) Q.
Proof. done. Qed.
Lemma spares_self {A} (f : Client -> M (Client * R) io_error A) c r Q : spares (f c) (c, r) Q -> spares (x ← self; f x) (c, r) Q.
Proof. done. Qed.
Lemma spares_update f c r : leaseless (f c) -> spares (update f) (c, r) (fun _ => True).
Proof. done. Qed.
Lemma spares_lift {A} (x : outcome io_error A) c r : leaseless c -> spares (lift x) (c, r) (fun _ => True).
Proof. intros Hc. split; [done|by destruct x]. Qed.
Lemma spares_draw n c r : leaseless c -> spares (draw n) (c, r) (fun _ => True).
Proof. intros Hc. unfold spares, draw, on_snd. cbn. destruct (sample n r) as [o r']. split; [done|by destruct o]. Qed.
Lemma spares_if {A} (b : bool) (m1 m2 : M (Client * R) io_error A) st Q : spares m1 st Q -> spares m2 st Q -> spares (if b then m1 else m2) st Q.
Proof. by destruct b. Qed.
Lemma leaseless_probe p c : leaseless c -> pb_lease p = None -> leaseless (put_probe (Some p) c).
Proof. intros (H1 & H2 & _) Hp. split; [done|]. split; [done|]. by intros q [= <-]. Qed.
Lemma fallback_spares now c r : leaseless c -> spares (poll_fallback now) (c, r) (fun _ => True).
Proof.
  intros Hc. apply spares_self. destruct (k_probe c); [by apply spares_ret|]. destruct (configuration c); [by apply spares_ret|].
  apply spares_if; [|by apply spares_ret]. do 2 (eapply spares_bind; [by apply spares_draw|]; intros ? ? ? ? _).
  apply spares_update. by apply leaseless_probe.
Qed.
Lemma poll_probe_spares now c r : leaseless c -> spares (poll_probe now) (c, r) (Forall (fun o => o_kind o = ArpFrame)).
Proof.
  intros Hc. apply spares_self. destruct (k_probe c) as [p|] eqn:Hp; [|by apply spares_ret]. assert (pb_lease p = None) as Hl by by apply Hc.
  apply spares_if; [by apply spares_ret|]. eapply spares_bind; [by apply spares_lift|]. intros s c1 r1 H1 _.
  eapply spares_bind; [by apply spares_update, leaseless_probe|]. intros u c2 r2 H2 _. eapply (spares_bind _ _ _ (fun _ => True)).
  { apply spares_if; [|by apply spares_ret]. eapply spares_bind; [by apply spares_draw|]. intros. by apply spares_ret. }
  intros d c3 r3 H3 _. eapply spares_bind; [by apply spares_update, leaseless_probe|]. intros u4 c4 r4 H4 _. eapply (spares_bind _ _ _ (fun _ => True)).
  { apply spares_if; [|by apply spares_ret]. unfold adopt. cbn [pb_lease]. rewrite Hl. eapply spares_bind; [by apply spares_update|]. intros u5 c5 r5 H5 _. by apply spares_update. }
  intros u5 c5 r5 H5 _. eapply (spares_bind _ _ _ (fun _ => True)).
  { apply spares_if; [|by apply spares_ret]. apply spares_update. destruct H5 as (? & ? & ?). by split. }
  intros. apply spares_ret; [done|]. constructor; [done|constructor].
Qed.
Lemma poll_spares now c r : leaseless c -> spares (poll now) (c, r) (Forall (fun o => o_kind o = ArpFrame)).
Proof.
  intros Hc. apply spares_self. assert (leaseless c) as (Hs & Ha & Hp) by done. destruct (decide _) as [E|_]; [congruence|].
  eapply (spares_bind _ _ _ (fun _ => True)). { apply spares_self. rewrite Ha. by apply spares_ret. } intros u1 c1 r1 H1 _.
  eapply (spares_bind _ _ _ (fun _ => True)). { apply spares_self. assert (leaseless c1) as (_ & Ha1 & _) by done. rewrite Ha1. by apply spares_ret. } intros u2 c2 r2 H2 _.
  eapply (spares_bind _ _ _ (fun _ => True)).
  { apply spares_self. assert (leaseless c2) as (_ & _ & Hp2) by done. destruct (k_probe c2) as [p|] eqn:E; [|by apply spares_ret].
    rewrite (Hp2 p eq_refl). by apply spares_ret. }
  intros u3 c3 r3 H3 _. eapply spares_bind; [by apply fallback_spares|]. intros u4 c4 r4 H4 _.
  eapply spares_bind; [by apply poll_probe_spares|]. intros o5 c5 r5 H5 Ho. eapply (spares_bind _ _ _ (fun o => o = [])).
  { apply spares_self. assert (leaseless c5) as (E5 & _) by done. rewrite E5. change (is_state [Bound; Stopped] Bound) with true. rewrite orb_true_r. by apply spares_ret. }
  intros o6 c6 r6 H6 ->. apply spares_ret; [done|]. by rewrite app_nil_r.
Qed.
End leaseless.

(** ** The deadline *)

Lemma deadline_facts now c : k_state c <> Stopped -> match next_deadline c with Some d => now < d | None => True end ->
  (forall l, k_active c = Some l -> now < l_expires l /\ (k_state c = Bound -> now < l_t1 l) /\ (k_state c <> Rebinding -> now < l_t2 l)) /\
  (forall p, k_probe c = Some p -> now < pb_next p) /\ (k_state c <> Bound -> now < k_next c) /\
  (configuration c = None -> k_probe c = None -> now < k_fallback_at c).
Proof.
  intros Hs. unfold next_deadline. destruct (decide (k_state c = Stopped)); [done|].
  destruct (decide (k_state c = Bound)), (decide (k_state c = Rebinding)), (k_active c) as [l|], (k_probe c) as [p|], (configuration c); intros Hd.
  all: split; [intros ? [=]; subst|split; [intros ? [=]; subst|split]]; intros; try done; try lia; try (split; [lia|split; intros; try done; lia]).
Qed.

(** ** What is sent before an address is used *)

Definition event_time (e : Event) : Z :=
  match e with Receive _ now | Poll now | ArpFrameIn _ now | Stop now | SetLink _ now | Resume _ now => now end.
(** The ARP probe for an address and the announcement of it, to everyone. *)
Definition probe_frame (mac : bytes) (a : Z) : Output := mkOutput ArpFrame (arp_encode (mkArp 1 mac 0 (zeros 6) a) (replicate 6 255)).
Definition announcement (mac : bytes) (a : Z) : Output := mkOutput ArpFrame (arp_encode (mkArp 1 mac a (zeros 6) a) (replicate 6 255)).

Section trace.
Context {R : Type} `{Sampler R} `{!ByteSource R}.
Abbreviation MK := (M (Client * R) io_error).

(** A history in which nothing fails, with all that it sends and when. *)
Fixpoint run_out (es : list Event) (st : Client * R) : option (list (Z * Output) * (Client * R)) :=
  match es with
  | [] => Some ([], st)
  | e :: es =>
      match run_event e st with
      | (Ok out, st) => '(rest, st) ← run_out es st; Some (map (fun o => (event_time e, o)) out ++ rest, st)
      | _ => None
      end
  end.

(** The hardware address stays, and a probe that is under way was under way or begins. *)
Definition eased (c c' : Client) : Prop :=
  k_mac c' = k_mac c /\ forall p, k_probe c' = Some p -> k_probe c = Some p \/ pb_sent p = 0.
Lemma eased_refl c : eased c c.
Proof. split; [done|by left]. Qed.
Lemma eased_trans a b c : eased a b -> eased b c -> eased a c.
Proof. intros [M1 P1] [M2 P2]. split; [congruence|]. intros p Hp. destruct (P2 p Hp); [by apply P1|by right]. Qed.
Definition easing {A} (m : MK A) : Prop := forall c r, eased c (m (c, r)).2.1.
Lemma easing_bind {A B} (m : MK A) (f : A -> MK B) : easing m -> (forall a, easing (f a)) -> easing (m ≫= f).
Proof.
  intros Hm Hf c r. cbv [mbind M_bind]. specialize (Hm c r). destruct (m (c, r)) as [[a|e|] [c' r']]; cbn in *; [|done|done].
  eapply eased_trans; [exact Hm|apply Hf].
Qed.
Lemma easing_ret {A} (a : A) : easing (mret a).
Proof. intros c r. apply eased_refl. Qed.
Lemma easing_throw {A} e : easing (throw e : MK A).
Proof. intros c r. apply eased_refl. Qed.
Lemma easing_lift {A} (o : outcome io_error A) : easing (lift o).
Proof. intros c r. apply eased_refl. Qed.
Lemma easing_draw n : easing (draw n).
Proof. intros c r. unfold draw, on_snd. cbn. destruct (sample n r). apply eased_refl. Qed.
Lemma easing_fresh n : easing (fresh_bytes n).
Proof. intros c r. unfold fresh_bytes, on_snd. cbn. destruct (fill n r). apply eased_refl. Qed.
Lemma easing_self {A} (f : Client -> MK A) : (forall c r, eased c (f c (c, r)).2.1) -> easing (x ← self; f x).
Proof. intros Hf c r. apply Hf. Qed.
Lemma easing_self_any {A} (f : Client -> MK A) : (forall c, easing (f c)) -> easing (x ← self; f x).
Proof. intros Hf. apply easing_self. intros c r. apply Hf. Qed.
Lemma easing_update f : (forall c, eased c (f c)) -> easing (update f).
Proof. intros Hf c r. apply Hf. Qed.
Lemma easing_if {A} (b : bool) (m1 m2 : MK A) : easing m1 -> easing m2 -> easing (if b then m1 else m2).
Proof. by destruct b. Qed.
Ltac ease_update := apply easing_update; intros ?; split; [done|]; cbn [k_probe put_state put_offers put_selected put_active put_probe put_next put_retry put_started put_xid put_link_local put_fallback put_defended];
  intros ?; first [by left | by intros [=] | by intros [= <-]; right].
Ltac ease := repeat (first [apply easing_ret | apply easing_throw | apply easing_lift | apply easing_draw | apply easing_fresh | ease_update
  | apply easing_self_any; intros ? | apply easing_bind; [|intros ?] | apply easing_if | case_match]).

Lemma restart_easing now : easing (restart now).
Proof. unfold restart, transaction. ease. Qed.
Lemma receive_easing b now : easing (receive b now).
Proof. unfold receive, receive_message, receive_offer, accept_lease. pose proof restart_easing. ease; auto. Qed.
Lemma send_easing now : easing (poll_send now).
Proof. unfold poll_send, poll_select, poll_delay. pose proof restart_easing. ease; auto. Qed.
Lemma arp_easing b now : easing (receive_arp b now).
Proof. unfold receive_arp, handle_arp, conflict. pose proof restart_easing. ease; auto. Qed.
Lemma other_easing e : is_poll e = false -> easing (run_event e).
Proof.
  intros He. destruct e as [b now|now|b now|now|up now|l now]; try done; cbn [run_event].
  - apply easing_bind; [apply receive_easing|intros; apply easing_ret].
  - apply arp_easing.
  - unfold stop, release. ease.
  - unfold set_link, release. pose proof restart_easing. ease; auto.
  - unfold restore. pose proof restart_easing. ease; auto.
Qed.
Lemma before_easing now : easing (poll_expiry now ;; poll_timers now ;; poll_probe_expiry now ;; poll_fallback now).
Proof. unfold poll_expiry, poll_timers, poll_probe_expiry, poll_fallback, transaction. pose proof restart_easing. ease; auto. Qed.

(** A poll that is due sends the frame that is next and counts it. *)
Lemma poll_probe_run now c r out c' r' : poll_probe now (c, r) = (Ok out, (c', r')) ->
  match k_probe c with
  | None => out = [] /\ c' = c
  | Some p => (out = [] /\ c' = c) \/
      (pb_next p <= now /\ k_mac c' = k_mac c /\ out = [if pb_sent p <? 3 then probe_frame (k_mac c) (pb_address p) else announcement (k_mac c) (pb_address p)] /\
       forall p', k_probe c' = Some p' -> pb_sent p' = pb_sent p + 1 /\ pb_address p' = pb_address p /\ sat64 now (if pb_sent p' <? 3 then 1000 else 2000) <= pb_next p')
  end.
Proof.
  unfold poll_probe. rewrite self_run. destruct (k_probe c) as [p|] eqn:Hp; [|by intros [= <- <- _]].
  destruct (Z.ltb_spec now (pb_next p)) as [|Hdue]; [intros [= <- <- _]; by left|]. intros E. right. split; [done|].
  apply bind_run_Ok in E as (sent & [c1 r1] & E1 & E). unfold lift in E1. unfold add_chk in E1. destruct (_ <=? _); [|done]. injection E1 as <- <- <-. rewrite update_run in E.
  apply bind_run_Ok in E as (delay & [c2 r2] & E2 & E). rewrite update_run in E. set (n := sat64 now delay) in *.
  assert (c2 = put_probe (Some (mkProbe (pb_address p) (pb_lease p) (pb_sent p + 1) (pb_next p))) c /\ sat64 now (if pb_sent p + 1 <? 3 then 1000 else 2000) <= n) as [-> Hd].
  { destruct (pb_sent p + 1 <? 3); [|injection E2 as <- <- _; split; [done|apply Z.le_refl]]. apply bind_run_Ok in E2 as (x & [c3 r3] & E3 & E2). injection E2 as <- <- _.
    unfold draw, on_snd in E3. cbn in E3. destruct (sample 1000 r) as [o r4] eqn:Es. injection E3 as -> <- _. apply sample_range in Es; [|u_lia]. split; [done|]. unfold n, sat64, sat_add. lia. }
  set (p' := mkProbe (pb_address p) (pb_lease p) (pb_sent p + 1) n) in *.
  assert (exists c3, k_mac c3 = k_mac c /\ (forall q, k_probe c3 = Some q -> pb_sent q = pb_sent p + 1 /\ pb_address q = pb_address p /\ pb_next q = n) /\
    (c' = c3 \/ c' = put_probe None c3) /\ out = [arp_request c (if pb_sent p <? 3 then 0 else pb_address p) (pb_address p)]) as (c3 & M3 & Q3 & Hc' & ->).
  { apply bind_run_Ok in E as (u & [c3 r3] & E3 & E). apply bind_run_Ok in E as (u' & [c4 r4] & E4 & E). injection E as <- <- _. exists c3.
    assert (k_mac c3 = k_mac c /\ forall q, k_probe c3 = Some q -> pb_sent q = pb_sent p + 1 /\ pb_address q = pb_address p /\ pb_next q = n) as [M3 Q3].
    { destruct (pb_sent p + 1 =? 4); [|injection E3 as _ <- _; split; [done|by intros q [= <-]]]. unfold adopt in E3. cbn [pb_lease p'] in E3.
      destruct (pb_lease p); injection E3 as _ <- _; (split; [done|by intros q [= <-]]). }
    split; [done|]. split; [done|]. split; [|done]. destruct (pb_sent p + 1 =? 5); injection E4 as _ <- _; [by right|by left]. }
  split; [by destruct Hc' as [-> | ->]|]. split; [unfold arp_request, probe_frame, announcement; by destruct (pb_sent p <? 3)|].
  intros q Hq. destruct Hc' as [-> | ->]; [|done]. destruct (Q3 q Hq) as (H1 & H2 & H3). rewrite H1, H3. done.
Qed.
(** A poll that succeeds, around the frame it sends for the address under probe. *)
Lemma poll_parts now c r out c' r' : is_u64 now -> client_wf c -> poll now (c, r) = (Ok out, (c', r')) ->
  (out = [] /\ c' = c) \/
  exists c4 r4 o5 c5 r5 o6, kept c c4 /\ eased c c4 /\ live_wf now c4 /\ poll_probe now (c4, r4) = (Ok o5, (c5, r5)) /\ out = o5 ++ o6 /\ kept c5 c' /\ eased c5 c'.
Proof.
  intros Hn Hc. unfold poll. rewrite self_run. destruct (decide (k_state c = Stopped)) as [|Hs]; [intros [= <- <- _]; by left|]. intros E. right.
  assert (exists u c4 r4, (poll_expiry now ;; poll_timers now ;; poll_probe_expiry now ;; poll_fallback now) (c, r) = (Ok u, (c4, r4)) /\ (o5 ← poll_probe now; o6 ← poll_send now; mret (o5 ++ o6)) (c4, r4) = (Ok out, (c', r'))) as (u & c4 & r4 & E4 & E').
  { revert E. cbv [mbind M_bind]. destruct (poll_expiry now (c, r)) as [[u1|e|] s1]; [|done|done]. destruct (poll_timers now s1) as [[u2|e|] s2]; [|done|done].
    destruct (poll_probe_expiry now s2) as [[u3|e|] s3]; [|done|done]. destruct (poll_fallback now s3) as [[u4|e|] [c4 r4]]; [|done|done]. intros E. by exists u4, c4, r4. }
  assert (gives (S:=Client) (R:=R) client_wf (poll_expiry now ;; poll_timers now ;; poll_probe_expiry now ;; poll_fallback now) (c, r) (fun _ c' => live_wf now c' /\ eases c c')) as Hg.
  { eapply gives_bind; [by apply poll_expiry_gives|]. intros u1 c1 r1 (H1 & S1 & K1 & F1). eapply gives_bind; [by apply poll_timers_gives|]. intros u2 c2 r2 (H2 & S2 & K2 & F2).
    eapply gives_bind; [apply poll_probe_expiry_gives; try done; by rewrite F2|]. intros u3 c3 r3 (L3 & K3). eapply gives_weaken; [by apply poll_fallback_gives|]. intros u4 c5 [L4 K4].
    split; [done|]. do 3 (eapply eases_trans; [eassumption|]). done. }
  unfold Stateful.gives in Hg. rewrite E4 in Hg. destruct Hg as [L4 [K4 _]]. pose proof (before_easing now c r) as P4. rewrite E4 in P4.
  apply bind_run_Ok in E' as (o5 & [c5 r5] & E5 & E'). apply bind_run_Ok in E' as (o6 & [c6 r6] & E6 & E'). injection E' as <- <- _.
  exists c4, r4, o5, c5, r5, o6. split; [exact K4|]. split; [exact P4|]. split; [exact L4|]. split; [exact E5|]. split; [done|].
  pose proof (poll_probe_gives now c4 r4 Hn L4) as G5. unfold Stateful.gives in G5. rewrite E5 in G5. destruct G5 as [L5 _].
  pose proof (poll_send_gives now c5 r5 Hn L5) as G6. unfold Stateful.gives in G6. rewrite E6 in G6. pose proof (send_easing now c5 r5) as P6. rewrite E6 in P6. split; [apply G6|exact P6].
Qed.

(** ** The trace *)

Definition at_ (mac : bytes) (a t : Z) : Z * Output := (t, probe_frame mac a).
Fixpoint spaced (ts : list Z) : Prop :=
  match ts with
  | t :: (t' :: _) as ts => sat64 t 1000 <= t' /\ spaced ts
  | _ => True
  end.
Lemma spaced_snoc ts t : spaced ts -> (forall x, list.last ts = Some x -> sat64 x 1000 <= t) -> spaced (ts ++ [t]).
Proof.
  induction ts as [|x ts IH]; intros Hs Hl; [done|]. destruct ts as [|y ts]; [split; [by apply Hl|done]|]. destruct Hs as [H1 H2]. split; [exact H1|]. by apply IH.
Qed.
(** The frames sent for the address under probe, and those for an address that was probed. *)
Definition backed (mac : bytes) (tr : list (Z * Output)) (p : Probe) : Prop :=
  pb_sent p <= 3 -> exists ts, len ts = pb_sent p /\ spaced ts /\ map (at_ mac (pb_address p)) ts `sublist_of` tr /\
    forall t, list.last ts = Some t -> sat64 t (if pb_sent p <? 3 then 1000 else 2000) <= pb_next p.
Definition completed (mac : bytes) (tr : list (Z * Output)) (a : Z) : Prop :=
  exists t1 t2 t3 t4, sat64 t1 1000 <= t2 /\ sat64 t2 1000 <= t3 /\ sat64 t3 2000 <= t4 /\
    [(t1, probe_frame mac a); (t2, probe_frame mac a); (t3, probe_frame mac a); (t4, announcement mac a)] `sublist_of` tr.
Lemma backed_more mac tr tr' p : backed mac tr p -> backed mac (tr ++ tr') p.
Proof. intros Hb Hle. destruct (Hb Hle) as (ts & H1 & H2 & H3 & H4). exists ts. split_and!; try done. by apply sublist_inserts_r. Qed.
Lemma completed_more mac tr tr' a : completed mac tr a -> completed mac (tr ++ tr') a.
Proof. intros (t1 & t2 & t3 & t4 & H1 & H2 & H3 & H4). exists t1, t2, t3, t4. split_and!; try done. by apply sublist_inserts_r. Qed.

(** From [c0], what is sent and what is used. *)
Record traced (c0 : Client) (tr : list (Z * Output)) (c : Client) : Prop := {
  td_mac : k_mac c = k_mac c0;
  td_probe : forall p, k_probe c = Some p -> backed (k_mac c0) tr p;
  td_used : forall cf, configuration c = Some cf -> (exists cf0, configuration c0 = Some cf0 /\ c_address cf0 = c_address cf) \/ completed (k_mac c0) tr (c_address cf);
}.
Lemma traced_eased c0 tr more c c' : traced c0 tr c -> kept c c' -> eased c c' -> traced c0 (tr ++ more) c'.
Proof.
  intros [M1 P1 U1] Hk [M2 P2]. split; [congruence| |].
  - intros p Hp. destruct (P2 p Hp) as [Hp'|Hz]; [by apply backed_more, P1|]. intros _. exists []. rewrite Hz. split_and!; try done. apply sublist_nil_l.
  - intros cf Hcf. destruct (Hk cf Hcf) as (cf1 & Hcf1 & <-). destruct (U1 cf1 Hcf1) as [Hl|Hr]; [by left|right; by apply completed_more].
Qed.
Lemma three_of (ts : list Z) : len ts = 3 -> exists t1 t2 t3, ts = [t1; t2; t3].
Proof. destruct ts as [|t1 [|t2 [|t3 [|]]]]; unfold len; cbn; try lia. by exists t1, t2, t3. Qed.
Lemma traced_probe c0 tr now c r out c' r' : is_u64 now -> live_wf now c -> traced c0 tr c -> poll_probe now (c, r) = (Ok out, (c', r')) ->
  traced c0 (tr ++ map (fun o => (now, o)) out) c'.
Proof.
  intros Hn Hl Ht E. pose proof (poll_probe_run now c r out c' r' E) as Hr. pose proof (poll_probe_gives now c r Hn Hl) as Hg. unfold Stateful.gives in Hg. rewrite E in Hg. destruct Hg as [_ Hg].
  assert (out = [] /\ c' = c -> traced c0 (tr ++ map (fun o => (now, o)) out) c') as Hsame by (intros [-> ->]; by rewrite app_nil_r).
  destruct (k_probe c) as [p|] eqn:Hp; [|by apply Hsame]. destruct Hr as [Hr|(Hdue & Hm & -> & Hnext)]; [by apply Hsame|]. clear Hsame.
  destruct Ht as [M1 P1 U1]. rewrite M1 in *. destruct (cw_probe _ (proj1 Hl) _ Hp) as [(Hsent & _) _]. cbn [map]. split; [congruence| |].
  - intros p' Hp' Hle. destruct (Hnext p' Hp') as (Hs & Ha & Hnx). destruct (Z.ltb_spec (pb_sent p) 3) as [Hlt|]; [|lia]. destruct (P1 p Hp ltac:(lia)) as (ts & H1 & H2 & H3 & H4).
    exists (ts ++ [now]). rewrite Hs, Ha in *. split; [rewrite len_app, H1; done|]. split; [|split].
    + apply spaced_snoc; [done|]. intros x Hx. specialize (H4 x Hx). destruct (Z.ltb_spec (pb_sent p) 3); lia.
    + rewrite map_app. by apply sublist_app.
    + intros t Hlast. rewrite last_snoc in Hlast. injection Hlast as <-. exact Hnx.
  - intros cf Hcf. destruct Hg as [[A L]|(q & cf' & Hq & Hs3 & Hcf' & Ha)].
    + destruct (same_kept c c' A L cf Hcf) as (cf1 & Hcf1 & <-). destruct (U1 cf1 Hcf1) as [Hx|Hx]; [by left|right; by apply completed_more].
    + right. assert (q = p) as -> by congruence. cbn [fst] in Hcf'. assert (cf' = cf) as -> by congruence. rewrite Ha, Hs3 in *. change (3 <? 3) with false.
      destruct (P1 p Hp ltac:(lia)) as (ts & H1 & H2 & H3 & H4). rewrite Hs3 in *. destruct (three_of ts H1) as (t1 & t2 & t3 & ->). destruct H2 as (S1 & S2 & _). specialize (H4 t3 eq_refl). cbn in H4.
      exists t1, t2, t3, now. split; [done|]. split; [done|]. split; [lia|].
      change [(t1, probe_frame (k_mac c0) (pb_address p)); (t2, probe_frame (k_mac c0) (pb_address p)); (t3, probe_frame (k_mac c0) (pb_address p)); (now, announcement (k_mac c0) (pb_address p))]
        with (map (at_ (k_mac c0) (pb_address p)) [t1; t2; t3] ++ [(now, announcement (k_mac c0) (pb_address p))]). by apply sublist_app.
Qed.
Lemma traced_event c0 tr e c r out c' r' : event_ok e -> client_wf c -> traced c0 tr c -> run_event e (c, r) = (Ok out, (c', r')) ->
  traced c0 (tr ++ map (fun o => (event_time e, o)) out) c'.
Proof.
  intros He Hc Ht E. destruct (is_poll e) eqn:Hp.
  - destruct e as [|now| | | |]; try done. cbn [run_event event_time] in *. destruct (poll_parts now c r out c' r' He Hc E) as [[-> ->]|(c4 & r4 & o5 & c5 & r5 & o6 & K4 & P4 & L4 & E5 & -> & K6 & P6)]; [by rewrite app_nil_r|].
    rewrite map_app, app_assoc. eapply traced_eased; [|exact K6|exact P6]. eapply traced_probe; [exact He|exact L4| |exact E5].
    rewrite <-(app_nil_r tr). by eapply traced_eased.
  - pose proof (other_easing e Hp c r) as Hea. rewrite E in Hea. pose proof (run_event_gives e c r He Hc) as Hg. unfold Stateful.gives in Hg. rewrite E in Hg. destruct Hg as [_ Hk]. rewrite Hp in Hk.
    by eapply traced_eased.
Qed.
Lemma traced_history c0 es tr c r out c' r' : Forall event_ok es -> client_wf c -> traced c0 tr c -> run_out es (c, r) = Some (out, (c', r')) -> traced c0 (tr ++ out) c'.
Proof.
  revert tr c r out. induction es as [|e es IH]; intros tr c r out Hes Hc Ht; cbn [run_out]; [intros [= <- <- _]; by rewrite app_nil_r|].
  apply List.Forall_cons_iff in Hes as [He Hes]. destruct (run_event e (c, r)) as [[o|x|] [c1 r1]] eqn:E; [|done|done]. destruct (run_out es (c1, r1)) as [[rest st]|] eqn:E2; [|done].
  cbn [mbind option_bind]. intros [= <- ->]. rewrite app_assoc. eapply IH; [exact Hes| | |exact E2].
  - pose proof (run_event_gives e c r He Hc) as Hg. unfold Stateful.gives in Hg. rewrite E in Hg. apply Hg.
  - by eapply traced_event.
Qed.
(** C34. An address that comes into use was probed and announced on the wire: over every history
    in which no event fails, from a client that has sent no probe, an address that is in use
    at the end and was not at the start has had three ARP probes from no address, a second or
    more apart, and at least two seconds after the last of them its announcement; the frames
    are among those the client gave to be sent, in this order, with its hardware address.
    The distances are those of saturating addition, which only the last seconds of the clock
    cut short. *)
Theorem dhcp_address_probed es c (r : R) out c' r' cf : Forall event_ok es -> client_wf c -> (forall p, k_probe c = Some p -> pb_sent p = 0) ->
  run_out es (c, r) = Some (out, (c', r')) -> configuration c' = Some cf ->
  (exists cf0, configuration c = Some cf0 /\ c_address cf0 = c_address cf) \/
  exists t1 t2 t3 t4, sat64 t1 1000 <= t2 /\ sat64 t2 1000 <= t3 /\ sat64 t3 2000 <= t4 /\
    [(t1, probe_frame (k_mac c) (c_address cf)); (t2, probe_frame (k_mac c) (c_address cf)); (t3, probe_frame (k_mac c) (c_address cf));
     (t4, announcement (k_mac c) (c_address cf))] `sublist_of` out.
Proof.
  intros Hes Hc Hp E Hcf. assert (traced c [] c) as Ht.
  { split; [done| |intros cf1 Hcf1; left; by exists cf1]. intros p Hk _. exists []. rewrite (Hp p Hk). by split_and!. }
  exact (td_used _ _ _ (traced_history c es [] c r out c' r' Hes Hc Ht E) cf Hcf).
Qed.
End trace.

(** ** Theorems *)

Section theorems.
Context {R : Type} `{Sampler R} `{!ByteSource R}.
(** C33. Whatever a client hears and whenever it is polled, it does not panic, and it keeps its
    invariant: every lease it holds, is offered or probes has a configuration that an
    interface takes and timers in order; a request is only built with a lease at hand; a
    leased and a link-local address are never in use together; a stopped client holds
    nothing; the retry delay stays between 4 and 64 seconds and at most eight offers are
    kept. A lease that is restored from the store is one that was well formed
    ([event_ok]). *)
Theorem dhcp_client_safe mac now c (r r' : R) es : is_u64 now -> is_bytes mac -> len mac = 6 -> client_new mac now r = (Ok c, r') ->
  Forall event_ok es -> exists st, run_all run_event es (c, r') = Some st /\ client_wf st.1.
Proof.
  intros Hn Hm Hl Hnew Hes. pose proof (client_new_ok mac now Hn Hm Hl r) as Hok. rewrite Hnew in Hok. by apply history_wf; [|apply Hok].
Qed.
(** After a successful poll, no lease in use or under probe has expired. *)
Theorem dhcp_no_expired_lease now c (r : R) out c' r' : is_u64 now -> client_wf c -> poll now (c, r) = (Ok out, (c', r')) -> fresh now c'.
Proof. intros Hn Hc E. pose proof (poll_gives now c r Hn Hc) as Hg. unfold Stateful.gives in Hg. rewrite E in Hg. apply Hg. Qed.
(** Before the deadline that the client announces a poll does nothing, unless the lease
    under probe has expired. *)
Theorem dhcp_poll_idle now c (r : R) : match next_deadline c with Some d => now < d | None => True end ->
  (forall p l, k_probe c = Some p -> pb_lease p = Some l -> now < l_expires l) -> poll now (c, r) = (Ok [], (c, r)).
Proof.
  intros Hd Hl. destruct (decide (k_state c = Stopped)) as [Hs|Hs]; [unfold poll; rewrite self_run; by destruct (decide _)|].
  destruct (deadline_facts now c Hs Hd) as (Ha & Hp & Hk & Hf). unfold poll. rewrite self_run. destruct (decide _); [done|].
  rewrite (then_run (poll_expiry now)), (then_run (poll_timers now)), (then_run (poll_probe_expiry now)), (then_run (poll_fallback now)); 
    [rewrite (bind_run (poll_probe now) _ _ []); [rewrite (bind_run (poll_send now) _ _ []); [done|]|]|..].
  - unfold poll_send. rewrite self_run. destruct (decide (k_state c = Bound)) as [->|Hb]; [by rewrite orb_true_r|].
    destruct (Z.ltb_spec now (k_next c)); [done|]. specialize (Hk Hb). lia.
  - unfold poll_probe. rewrite self_run. destruct (k_probe c) as [p|]; [|done]. specialize (Hp p eq_refl). by destruct (Z.ltb_spec now (pb_next p)); [|lia].
  - unfold poll_fallback. rewrite self_run. destruct (k_probe c); [done|]. destruct (configuration c); [done|]. specialize (Hf eq_refl eq_refl).
    by destruct (Z.leb_spec (k_fallback_at c) now); [lia|].
  - unfold poll_probe_expiry. rewrite self_run. destruct (k_probe c) as [p|]; [|done]. destruct (pb_lease p) as [l|] eqn:E; [|done].
    specialize (Hl p l eq_refl E). unfold expired. by destruct (Z.leb_spec (l_expires l) now); [lia|].
  - unfold poll_timers. rewrite self_run. destruct (k_active c) as [l|]; [|done]. destruct (Ha l eq_refl) as (He & H1 & H2).
    destruct (Z.leb_spec (l_t2 l) now) as [Ht2|_], (Z.leb_spec (l_t1 l) now) as [Ht1|_]; cbn [andb]; try done;
      repeat case_bool_decide; cbn [andb negb]; try done; exfalso; try (specialize (H1 ltac:(done)); lia); specialize (H2 ltac:(done)); lia.
  - unfold poll_expiry. rewrite self_run. destruct (k_active c) as [l|]; [|done]. destruct (Ha l eq_refl) as (He & _). unfold expired.
    by destruct (Z.leb_spec (l_expires l) now); [lia|].
Qed.
(** C35. A bound client that has lost the lease it was probing does not ask for another one
    however long it is polled: no message it receives changes it, and all it sends when polled
    are ARP frames, after which it is still without a lease. What ends this is a restart:
    the link goes down and comes up again, or a further conflict that [receive_arp] sees, neither
    of which is part of the statement. *)
Theorem dhcp_lost_lease now c (r : R) : leaseless c ->
  (forall packet, is_bytes packet -> receive packet now (c, r) = (Ok tt, (c, r))) /\
  leaseless (snd (poll now (c, r))).1 /\
  match fst (poll now (c, r)) with Ok out => Forall (fun o => o_kind o = ArpFrame) out | _ => True end.
Proof.
  intros Hc. split; [|by apply poll_spares]. intros packet Hb. unfold receive. pose proof (dhcp_parse_ok packet Hb) as Hp.
  destruct (DhcpWire.parse packet) as [m|e|]; [|done|done]. unfold receive_message. cbv [self gets on_fst mbind M_bind fst snd]. 
  destruct Hc as (Hs & _). destruct (_ || _); [done|]. rewrite !Hs. 
  change (bool_decide (Bound = Selecting)) with false. rewrite andb_false_r. done.
Qed.
End theorems.

(** ** Installation on the interface *)

Lemma routes_eqb_eq a b : routes_eqb a b = true -> a = b.
Proof.
  revert b. induction a as [|x a IH]; intros [|y b]; cbn [routes_eqb]; try done. intros [Hr Hab]%andb_true_iff. rewrite (IH b Hab).
  unfold route_eqb in Hr. apply andb_true_iff in Hr as [[H1%Z.eqb_eq H2%Z.eqb_eq]%andb_true_iff H3%Z.eqb_eq]. destruct x, y. cbn in *. by subst.
Qed.
Lemma checked_parts a l rs : checked_config a l rs = Ok tt -> forall h,
  configure a l None h = (Ok tt, put_address (Some (a, l)) None h) /\
  (i_address h = Some (a, l) -> set_routes rs h = (Ok tt, put_neighbors ∅ (put_routes rs h))).
Proof.
  unfold checked_config. cbv [configure set_routes mbind M_bind get lift throw modify]. destruct (_ || _ || _ || _); [done|]. cbn [put_address i_address ok_or].
  intros Hc h. split; [done|]. intros ->. cbn. by destruct (_ || _).
Qed.
Definition installed (c : Client) (h : Ipv4) : Prop :=
  match configuration c with
  | Some cf => i_address h = Some (c_address cf, c_length cf) /\ i_routes h = c_routes cf
  | None => i_address h = None
  end.
Lemma configuration_ok c cf : client_wf c -> configuration c = Some cf -> config_ok cf.
Proof.
  intros Hc. unfold configuration. destruct (k_active c) as [l|] eqn:Ha; [intros [= <-]; by apply (cw_active _ Hc l Ha)|]. by apply (bw_link_local _ (cw_base _ Hc)).
Qed.
(** The runtime's interface follows the client: installing what a client in its invariant
    offers succeeds on every interface, which then has the client's address, prefix and
    routes, or none when the client has none, and keeps its own invariant. *)
Theorem dhcp_configuration_installs c h : client_wf c -> host_wf h ->
  exists h', sync_ipv4_configuration (Some c) h = (Ok tt, h') /\ installed c h' /\ host_wf h'.
Proof.
  intros Hc Hh. unfold sync_ipv4_configuration, installed. destruct (configuration c) as [cf|] eqn:Hcf; [|eexists; split; [reflexivity|split; [done|by apply (unavailable_ok h)]]].
  destruct (configuration_ok c cf Hc Hcf) as [Ha Hl Hchk _ _]. pose proof (checked_parts _ _ _ Hchk) as Hp.
  cbv [mbind M_bind get]. set (h1 := if bool_decide (i_address h = Some (c_address cf, c_length cf)) then h else put_address (Some (c_address cf, c_length cf)) None h).
  assert (i_address h1 = Some (c_address cf, c_length cf) /\ host_wf h1) as [Ha1 Hw1].
  { unfold h1. case_bool_decide as E; [done|]. split; [done|]. pose proof (host_configure_ok (c_address cf) (c_length cf) None Hl h Hh) as Hw. by rewrite (proj1 (Hp h)) in Hw. }
  assert ((if bool_decide (i_address h = Some (c_address cf, c_length cf)) then mret tt else configure (c_address cf) (c_length cf) None) h = (Ok tt, h1)) as ->.
  { unfold h1. case_bool_decide; [done|]. apply (proj1 (Hp h)). }
  destruct (routes_eqb (i_routes h1) (c_routes cf)) eqn:Hr.
  - exists h1. apply routes_eqb_eq in Hr. done.
  - eexists. split; [by apply (proj2 (Hp h1))|]. split; [done|]. pose proof (set_routes_ok (c_routes cf) h1 Hw1) as Hw. by rewrite (proj2 (Hp h1) Ha1) in Hw.
Qed.
(** What a server acknowledges is a lease that can be used, or it is refused: reading a
    packet and the lease in it never panics, and the lease's address, routes and prefix are
    taken by an interface, its timers are in order, its name servers are unicast addresses
    and its search names are of proper labels. *)
Theorem dhcp_lease_usable packet now prior : is_bytes packet -> is_u64 now -> (forall l, prior = Some l -> lease_ok l) ->
  yields lease_ok (m ← DhcpWire.parse packet; lease m now prior).
Proof.
  intros Hb Hn Hp. eapply yields_bind; [by apply dhcp_parse_ok|]. intros m Hm. by apply lease_lease_ok.
Qed.

(** ** Witnesses *)

Definition bound_client : Client := Eval vm_compute in match after lease_events with Some (c, _) => c | None => mkClient [] 0 Stopped [] None None None 0 0 0 None 0 0 None end.
Definition fresh_client : Client := Eval vm_compute in match new_client with Some (c, _) => c | None => mkClient [] 0 Stopped [] None None None 0 0 0 None 0 0 None end.
Definition lost_client : Client := Eval vm_compute in match after conflict_events with Some (c, _) => c | None => mkClient [] 0 Stopped [] None None None 0 0 0 None 0 0 None end.
Ltac check_events := repeat (apply List.Forall_cons; [cbn [event_ok]; first [u_lia|split; [apply bytes_check; vm_compute; reflexivity|u_lia]]|]); constructor.
Lemma after_wf es : Forall event_ok es -> forall st, after es = Some st -> client_wf st.1.
Proof.
  intros Hes st. unfold after, new_client. assert (is_bytes sample_mac) as Hm by by apply bytes_check.
  pose proof (client_new_ok sample_mac 0 ltac:(u_lia) Hm eq_refl no_entropy) as Hok. destruct (client_new _ _ _) as [[c|e|] r]; [|done|done].
  destruct (history_wf es (c, r) Hes (proj1 Hok)) as (st' & E & Hw). cbv [mbind option_bind]. rewrite E. by intros [= <-].
Qed.
Lemma bound_client_wf : client_wf bound_client.
Proof.
  assert (exists r, after lease_events = Some (bound_client, r)) as [r Hr] by (eexists; vm_compute; reflexivity).
  apply (after_wf lease_events) in Hr; [done|]. unfold lease_events. check_events.
Qed.
Lemma fresh_client_wf : client_wf fresh_client.
Proof.
  assert (exists r, after [] = Some (fresh_client, r)) as [r Hr] by (eexists; vm_compute; reflexivity). by apply (after_wf []) in Hr.
Qed.
Lemma dhcp_client_safe_witness : exists c r, client_new sample_mac 0 no_entropy = (Ok c, r) /\ exists st, run_all run_event lease_events (c, r) = Some st /\ client_wf st.1.
Proof.
  do 2 eexists. split; [reflexivity|]. eapply (dhcp_client_safe sample_mac 0 _ no_entropy); [u_lia|by apply bytes_check|reflexivity|reflexivity|].
  unfold lease_events. check_events.
Defined.
Lemma dhcp_no_expired_lease_witness : exists out c' r', poll 6002 (bound_client, no_entropy) = (Ok out, (c', r')) /\ fresh 6002 c'.
Proof.
  do 3 eexists. split; [vm_compute; reflexivity|]. eapply (dhcp_no_expired_lease 6002 bound_client no_entropy); [u_lia|exact bound_client_wf|vm_compute; reflexivity].
Defined.
(** The lease of the sample is in use after the poll at 6002, and what was sent before. *)
Lemma dhcp_address_probed_witness : exists out c' r' cf, run_out (lease_events ++ [Poll 6002]) (fresh_client, no_entropy) = Some (out, (c', r')) /\
  configuration c' = Some cf /\ c_address cf = sample_address /\
  exists t1 t2 t3 t4, sat64 t1 1000 <= t2 /\ sat64 t2 1000 <= t3 /\ sat64 t3 2000 <= t4 /\
    [(t1, probe_frame sample_mac sample_address); (t2, probe_frame sample_mac sample_address); (t3, probe_frame sample_mac sample_address);
     (t4, announcement sample_mac sample_address)] `sublist_of` out.
Proof.
  do 4 eexists. split; [vm_compute; reflexivity|]. split; [reflexivity|]. split; [reflexivity|].
  edestruct (dhcp_address_probed (lease_events ++ [Poll 6002]) fresh_client no_entropy) as [(cf & Hcf & _)|Hp];
    [apply Forall_app_2; unfold lease_events; check_events|exact fresh_client_wf|discriminate|vm_compute; reflexivity|reflexivity|discriminate|exact Hp].
Defined.
Lemma dhcp_poll_idle_witness : next_deadline bound_client = Some 6002 /\ poll 6001 (bound_client, no_entropy) = (Ok [], (bound_client, no_entropy)).
Proof.
  split; [reflexivity|]. apply (dhcp_poll_idle 6001 bound_client no_entropy); [reflexivity|]. intros p l [= <-] [= <-]. reflexivity.
Defined.
Lemma dhcp_lost_lease_witness : (exists r, after conflict_events = Some (lost_client, r)) /\ leaseless lost_client /\ leaseless (snd (poll 70000 (lost_client, no_entropy))).1.
Proof.
  split; [eexists; vm_compute; reflexivity|]. assert (leaseless lost_client) as Hl by (split; [reflexivity|split; [reflexivity|intros p [=]]]).
  split; [exact Hl|]. exact (proj1 (proj2 (dhcp_lost_lease 70000 lost_client no_entropy Hl))).
Defined.
Lemma dhcp_configuration_installs_witness : exists h', sync_ipv4_configuration (Some bound_client) host_default = (Ok tt, h') /\ installed bound_client h' /\ host_wf h'.
Proof. exact (dhcp_configuration_installs bound_client host_default bound_client_wf host_default_wf). Defined.
Lemma dhcp_lease_usable_witness : exists l, (m ← DhcpWire.parse (sample_reply 5); lease m 2002 None) = Ok l /\ lease_ok l.
Proof.
  eexists. split; [vm_compute; reflexivity|]. assert (is_bytes (sample_reply 5)) as Hb by (apply bytes_check; vm_compute; reflexivity).
  exact (dhcp_lease_usable (sample_reply 5) 2002 None Hb ltac:(u_lia) ltac:(discriminate)).
Defined.
