(* ===== verification/Dhcp6Wire.v ===== *)
(** DHCPv6 messages ([src/src/wire/dhcpv6.rs]): options, UDP packets, and the replies of a
    server with the prefixes it delegates. *)

From S2P Require Import Prelude Checksum Wire WireFacts.

(** ** Options *)

Definition option6 (code : Z) (value : bytes) : bytes := be16 code ++ be16 (len value mod 65536) ++ value.
(** [while !b.is_empty()] *)
Fixpoint options_loop (fuel : nat) (b : bytes) : outcome WireError (list (Z * bytes)) :=
  match b with
  | [] => Ok []
  | _ =>
      match fuel with
      | O => Panic
      | S fuel =>
          reject_if len b <? 4 with Truncated;
          b2 ← b.[2]; b3 ← b.[3];
          let n := u16be b2 b3 in
          room ← sub_chk (len b) 4;
          reject_if room <? n with Truncated;
          b0 ← b.[0]; b1 ← b.[1];
          value ← slice b 4 (4 + n);
          rest ← slice_from b (4 + n);
          out ← options_loop fuel rest;
          Ok ((u16be b0 b1, value) :: out)
      end
  end.
Definition options (b : bytes) : outcome WireError (list (Z * bytes)) := options_loop (length b) b.

(** ** UDP *)

Definition udp_packet (source dest sport dport : Z) (body : bytes) : outcome WireError bytes :=
  reject_if u16_max <? len body + 8 with Capacity;
  let b := be16 sport ++ be16 dport ++ be16 (len body + 8) ++ [0; 0] ++ body in
  let sum := checksum source dest 17 b in
  b ← copy_at b 6 (be16 (if sum =? 0 then 65535 else sum));
  ipv6_packet source dest 17 1 b.
Definition udp_payload (e : Envelope) : outcome WireError bytes :=
  t ← transport e;
  let b := t_bytes t in
  reject_if negb (t_protocol t =? 17) || t_fragmented t || (len b <? 12) with Invalid;
  ports ← slice b 0 4;
  reject_if negb (beq ports [2; 35; 2; 34]) with Invalid;
  check ← slice b 6 8;
  reject_if beq check [0; 0] with Invalid;
  b4 ← b.[4]; b5 ← b.[5];
  reject_if negb (u16be b4 b5 =? len b) || negb (checksum (e_source e) (e_destination e) 17 b =? 0) with Invalid;
  slice_from b 8.

(** ** Messages *)

Record Delegation := mkDelegation {
  dg_iaid : Z;
  dg_t1 : Z;
  dg_t2 : Z;
  dg_prefix : Prefix;
  dg_preferred : Z;
  dg_valid : Z;
}.
Record Message := mkMessage {
  ms_kind : Z;
  ms_xid : bytes;
  ms_client : bytes;
  ms_server : bytes;
  ms_preference : Z;
  ms_sol_max_rt : option Z;
  ms_status : Z;
  ms_delegations : list Delegation;
}.
Definition with_code (code : Z) (opts : list (Z * bytes)) : list bytes :=
  map snd (List.filter (fun o => fst o =? code) opts).
Definition single (opts : list (Z * bytes)) (code : Z) : outcome WireError (option bytes) :=
  match with_code code opts with
  | [] => Ok None
  | [b] => Ok (Some b)
  | _ => Err Invalid
  end.
(** [Option::filter] *)
Definition keep_if {A} (p : A -> bool) (o : option A) : option A :=
  match o with Some a => if p a then Some a else None | None => None end.
Definition decode_preference (o : option bytes) : outcome WireError Z :=
  match keep_if (fun b => len b =? 1) o with Some b => b.[0] | None => Ok 0 end.
Definition decode_sol_max_rt (o : option bytes) : outcome WireError (option Z) :=
  match keep_if (fun b => len b =? 4) o with
  | Some b => n ← u32_at b 0; Ok (keep_if (fun n => (60 <=? n) && (n <=? 86400)) (Some n))
  | None => Ok None
  end.
Definition decode_status (o : option bytes) : outcome WireError Z :=
  match keep_if (fun b => 2 <=? len b) o with
  | Some b => b0 ← b.[0]; b1 ← b.[1]; Ok (u16be b0 b1)
  | None => Ok 0
  end.
(** [nested.iter().find(..)]: the first status code option that reports a failure. *)
Fixpoint failure_code (nested : list (Z * bytes)) : outcome WireError (option bytes) :=
  match nested with
  | [] => Ok None
  | (c, b) :: nested =>
      if (c =? 13) && (2 <=? len b) then
        code ← slice b 0 2;
        if beq code [0; 0] then failure_code nested else Ok (Some code)
      else failure_code nested
  end.
(** The prefixes of one association, [for (_, p) in nested..]. *)
Fixpoint decode_prefixes (ps : list bytes) (iaid t1 t2 : Z) (delegations : list Delegation)
  : outcome WireError (list Delegation) :=
  match ps with
  | [] => Ok delegations
  | p :: ps =>
      reject_if len p <? 25 with Truncated;
      rest ← slice_from p 25;
      _ ← options rest;
      preferred ← u32_at p 0;
      valid ← u32_at p 4;
      a ← slice p 9 25;
      p8 ← p.[8];
      match prefix_new (addr6 a) p8 with
      | None => decode_prefixes ps iaid t1 t2 delegations
      | Some prefix =>
          if valid <? preferred then decode_prefixes ps iaid t1 t2 delegations else
          reject_if 16 <=? len delegations with Capacity;
          decode_prefixes ps iaid t1 t2 (delegations ++ [mkDelegation iaid t1 t2 prefix preferred valid])
      end
  end.
(** The associations, [for (_, ia) in opts..], with the identifiers seen so far. *)
Fixpoint decode_associations (ias : list bytes) (iaids : list Z) (status : Z) (delegations : list Delegation)
  : outcome WireError (Z * list Delegation) :=
  match ias with
  | [] => Ok (status, delegations)
  | ia :: ias =>
      reject_if len ia <? 12 with Truncated;
      iaid ← u32_at ia 0;
      reject_if mem iaid iaids with Invalid;
      let iaids := iaid :: iaids in
      t1 ← u32_at ia 4;
      t2 ← u32_at ia 8;
      rest ← slice_from ia 12;
      nested ← options rest;
      if negb (mem iaid [1; 2]) || negb (t1 =? 0) && negb (t2 =? 0) && (t2 <? t1) then
        decode_associations ias iaids status delegations
      else
      failure ← failure_code nested;
      match failure with
      | Some code =>
          decode_associations ias iaids (if (status =? 0) && beq code [0; 3] then 3 else status) delegations
      | None =>
          delegations ← decode_prefixes (with_code 26 nested) iaid t1 t2 delegations;
          decode_associations ias iaids status delegations
      end
  end.
Definition decode (b : bytes) : outcome WireError Message :=
  reject_if len b <? 4 with Truncated;
  body ← slice_from b 4;
  opts ← options body;
  client ← single opts 1;
  client ← ok_or client Invalid;
  server ← single opts 2;
  server ← ok_or server Invalid;
  reject_if (len server =? 0) || (128 <? len server) || (128 <? len client) with Invalid;
  o ← single opts 7;
  preference ← decode_preference o;
  o ← single opts 82;
  sol_max_rt ← decode_sol_max_rt o;
  o ← single opts 13;
  status ← decode_status o;
  '(status, delegations) ← decode_associations (with_code 25 opts) [] status [];
  b0 ← b.[0];
  xid ← slice b 1 4;
  Ok (mkMessage b0 xid client server preference sol_max_rt status delegations).
Definition delegation_option (d : Delegation) : bytes :=
  option6 26 (be32 (dg_preferred d) ++ be32 (dg_valid d) ++ [p_length (dg_prefix d)] ++ octets6 (p_address (dg_prefix d))).

(** ** The decoder *)

Lemma u16be_u16 a b : is_u8 a -> is_u8 b -> is_u16 (u16be a b).
Proof. intros. unfold u16be. u_lia. Qed.
Lemma yields_u32_at {E} b n : is_bytes b -> 0 <= n -> n + 4 <= len b -> yields (E:=E) is_u32 (u32_at b n).
Proof.
  intros Hb Hn Hl. unfold u32_at. y_bind. pose proof (of_be_bound x ltac:(done)) as Hx. replace (len x) with 4 in Hx by lia. change (256 ^ 4) with 4294967296 in Hx. cbn. u_lia.
Qed.
Definition opt_ok (o : Z * bytes) : Prop := is_u16 o.1 /\ is_bytes o.2 /\ len o.2 <= u16_max.
Lemma dhcp6_options_loop_ok fuel b : is_bytes b -> (length b <= fuel)%nat -> yields (Forall opt_ok) (options_loop fuel b).
Proof.
  revert b. induction fuel as [|fuel IH]; intros [|b0 r] Hb Hf; try (by constructor); [cbn in Hf; lia|]. set (b := b0 :: r) in *. cbn [options_loop].
  change (match b with [] => Ok [] | _ :: _ => ?x end) with x. y_bind. apply Z.ltb_ge in Hc. do 2 y_bind.
  eapply yields_bind; [apply yields_sub_chk; lia|]. intros room <-. y_bind. apply Z.ltb_ge in Hc0. 
  pose proof (u16be_u16 x x0 ltac:(done) ltac:(done)) as Hn. assert (0 <= u16be x x0) as Hn0 by u_lia. do 4 y_bind.
  assert (length x4 <= fuel)%nat as Hx4.
  { rename select (len x4 = _) into Hx. unfold len in Hx, Hc. unfold b in *. cbn [length] in *. lia. }
  eapply yields_bind; [by apply (IH x4)|].
  intros out Hout. constructor; [|done]. split; [by apply u16be_u16|]. split; [done|]. cbn [snd]. u_lia.
Qed.
Lemma dhcp6_options_ok b : is_bytes b -> yields (Forall opt_ok) (options b).
Proof. intros Hb. by apply dhcp6_options_loop_ok. Qed.
Lemma with_code_ok code opts : Forall opt_ok opts -> Forall (fun b => is_bytes b /\ len b <= u16_max) (with_code code opts).
Proof. unfold with_code. induction 1 as [|o l [_ Ho] _ IH]; cbn; [constructor|]. destruct (_ =? code); [constructor|]; done. Qed.
Lemma single_ok opts code : Forall opt_ok opts -> yields (fun o => forall b, o = Some b -> is_bytes b /\ len b <= u16_max) (single opts code).
Proof.
  intros Ho%(with_code_ok code). unfold single. destruct (with_code code opts) as [|b [|? ?]]; cbn; [done| |done].
  intros b0 [= <-]. by apply Forall_cons_iff in Ho as [Ho _].
Qed.
Lemma keep_if_Some {A} (p : A -> bool) o a : keep_if p o = Some a <-> o = Some a /\ p a = true.
Proof.
  destruct o as [x|]; cbn; [|by split; [|intros [? _]]]. destruct (p x) eqn:E; split; [by intros [= <-]|by intros [? _]|done|intros [[= ->] ?]; congruence].
Qed.

Record delegation_ok (d : Delegation) : Prop := {
  do_iaid : In (dg_iaid d) [1; 2];
  do_t1 : is_u32 (dg_t1 d);
  do_t2 : is_u32 (dg_t2 d);
  do_order : dg_t1 d = 0 \/ dg_t2 d = 0 \/ dg_t1 d <= dg_t2 d;
  do_prefix : prefix_wf (dg_prefix d);
  do_preferred : 0 <= dg_preferred d <= dg_valid d;
  do_valid : dg_valid d <= u32_max;
}.
Record message6_ok (m : Message) : Prop := {
  mso_kind : is_u8 (ms_kind m);
  mso_xid : is_bytes (ms_xid m) /\ len (ms_xid m) = 3;
  mso_client : is_bytes (ms_client m) /\ len (ms_client m) <= 128;
  mso_server : is_bytes (ms_server m) /\ 1 <= len (ms_server m) <= 128;
  mso_preference : is_u8 (ms_preference m);
  mso_sol_max_rt : forall n, ms_sol_max_rt m = Some n -> 60 <= n <= 86400;
  mso_status : is_u16 (ms_status m);
  mso_delegations : len (ms_delegations m) <= 16 /\ Forall delegation_ok (ms_delegations m);
}.
Definition ds_ok (ds : list Delegation) : Prop := len ds <= 16 /\ Forall delegation_ok ds.
Lemma decode_prefixes_ok ps iaid t1 t2 ds : Forall (fun b => is_bytes b /\ len b <= u16_max) ps ->
  In iaid [1; 2] -> is_u32 t1 -> is_u32 t2 -> t1 = 0 \/ t2 = 0 \/ t1 <= t2 -> ds_ok ds -> yields ds_ok (decode_prefixes ps iaid t1 t2 ds).
Proof.
  intros Hps Hi H1 H2 H12. revert ds. induction Hps as [|p ps [Hp _] _ IH]; intros ds Hds; cbn [decode_prefixes]; [done|]. y_bind. apply Z.ltb_ge in Hc.
  y_bind. eapply yields_bind; [by apply dhcp6_options_ok|]. intros _o _. eapply yields_bind; [apply yields_u32_at; [done|lia|lia]|]. intros pref Hpref.
  eapply yields_bind; [apply yields_u32_at; [done|lia|lia]|]. intros val Hval. do 2 y_bind.
  destruct (prefix_new _ _) as [prefix|] eqn:Hpx; [|by apply IH]. destruct (Z.ltb_spec val pref); [by apply IH|]. y_bind. apply Z.leb_gt in Hc0.
  destruct Hds as [Hl Hds]. apply IH. split; [rewrite len_app; change (len [_]) with 1; lia|]. apply List.Forall_app. split; [done|]. constructor; [|constructor].
  split; cbn [dg_iaid dg_t1 dg_t2 dg_prefix dg_preferred dg_valid]; try done; [|u_lia|u_lia].
  eapply prefix_new_wf; [|eassumption|exact Hpx].
  unfold addr6. rename select (len x0 = _) into Hx0. pose proof (of_be_bound x0 ltac:(done)) as Hb. rewrite Hx0 in Hb. change (256 ^ (25 - 9)) with (u128_max + 1) in Hb. u_lia.
Qed.
Lemma failure_code_ok nested : Forall opt_ok nested -> yields (fun _ => True) (failure_code nested).
Proof.
  induction 1 as [|[c b] l (_ & Hb & _) _ IH]; cbn [failure_code]; [done|]. destruct (_ && _) eqn:E; [|done].
  apply andb_true_iff in E as [_ E%Z.leb_le]. cbn in Hb. y_bind. by destruct (beq _ _).
Qed.
Lemma decode_associations_ok ias iaids status ds : Forall (fun b => is_bytes b /\ len b <= u16_max) ias -> is_u16 status -> ds_ok ds ->
  yields (fun r => is_u16 r.1 /\ ds_ok r.2) (decode_associations ias iaids status ds).
Proof.
  intros Hias. revert iaids status ds. induction Hias as [|ia ias [Hia _] _ IH]; intros iaids status ds Hs Hds; cbn [decode_associations]; [done|].
  y_bind. apply Z.ltb_ge in Hc. eapply yields_bind; [apply yields_u32_at; [done|lia|lia]|]. intros iaid Hi. y_bind.
  eapply yields_bind; [apply yields_u32_at; [done|lia|lia]|]. intros t1 H1. eapply yields_bind; [apply yields_u32_at; [done|lia|lia]|]. intros t2 H2.
  y_bind. eapply yields_bind; [by apply dhcp6_options_ok|]. intros nested Hn. destruct (_ || _) eqn:Hbad; [by apply IH|].
  apply orb_false_iff in Hbad as [Hin%negb_false_iff Hord]. 
  eapply yields_bind; [by apply failure_code_ok|]. intros [code|] _.
  - apply IH; [|done]. case_match; [u_lia|done].
  - eapply yields_bind; [apply decode_prefixes_ok; try done; [by apply with_code_ok|..]|].
    + unfold mem in Hin. apply existsb_exists in Hin as (k & Hk & <-%Z.eqb_eq). done.
    + revert Hord. destruct (Z.eqb_spec t1 0), (Z.eqb_spec t2 0), (Z.ltb_spec t2 t1); cbn; intros; try done; lia.
    + intros ds' Hds'. by apply IH.
Qed.
Lemma decode6_ok b : is_bytes b -> yields message6_ok (decode b).
Proof.
  intros Hb. unfold decode. y_bind. apply Z.ltb_ge in Hc. y_bind. eapply yields_bind; [by apply dhcp6_options_ok|]. intros opts Ho.
  eapply yields_bind; [by apply single_ok|]. intros oc Hoc. eapply (yields_bind (fun b => is_bytes b /\ len b <= u16_max)); [by apply yields_ok_or|]. intros client [Hcl _].
  eapply yields_bind; [by apply single_ok|]. intros os Hos. eapply (yields_bind (fun b => is_bytes b /\ len b <= u16_max)); [by apply yields_ok_or|]. intros server [Hsv _].
  y_bind. apply orb_false_iff in Hc0 as [[Hz%Z.eqb_neq Hs128%Z.ltb_ge]%orb_false_iff Hc128%Z.ltb_ge]. pose proof (len_nonneg server).
  eapply yields_bind; [by apply single_ok|]. intros o7 Ho7. eapply (yields_bind is_u8).
  { unfold decode_preference. destruct (keep_if _ o7) as [b7|] eqn:E; [|cbn; u_lia]. apply keep_if_Some in E as [-> E%Z.eqb_eq]. apply yields_idx; [by apply Ho7|lia]. }
  intros pref Hpref. eapply yields_bind; [by apply single_ok|]. intros o82 Ho82. eapply (yields_bind (fun o => forall n, o = Some n -> 60 <= n <= 86400)).
  { unfold decode_sol_max_rt. destruct (keep_if _ o82) as [b82|] eqn:E; [|done]. apply keep_if_Some in E as [-> E%Z.eqb_eq].
    eapply yields_bind; [apply yields_u32_at; [by apply Ho82|lia|lia]|]. intros n Hn. intros n' [[= <-] Hr]%keep_if_Some. lia. }
  intros rt Hrt. eapply yields_bind; [by apply single_ok|]. intros o13 Ho13. eapply (yields_bind is_u16).
  { unfold decode_status. destruct (keep_if _ o13) as [b13|] eqn:E; [|cbn; u_lia]. apply keep_if_Some in E as [-> E%Z.leb_le]. destruct (Ho13 _ eq_refl) as [Hb13 _].
    do 2 y_bind. by apply u16be_u16. }
  intros status Hst. eapply yields_bind; [apply decode_associations_ok; [by apply with_code_ok|done|split; [unfold len; cbn; lia|constructor]]|].
  intros [st ds] [Hst' Hds]. cbn [fst snd] in *. do 2 y_bind. split; cbn [ms_kind ms_xid ms_client ms_server ms_preference ms_sol_max_rt ms_status ms_delegations]; try done; split; try done; lia.
Qed.

(** ** Round trips *)

Definition write_options (opts : list (Z * bytes)) : bytes := concat (map (fun o => option6 o.1 o.2) opts).
Definition option_fits (o : Z * bytes) : Prop := is_u16 o.1 /\ len o.2 <= u16_max.
Lemma len_option6 c v : len (option6 c v) = 4 + len v.
Proof. unfold option6, be16. rewrite !len_app, !len_be. lia. Qed.
Lemma be16_bytes x : is_u16 x -> exists hi lo, be16 x = [hi; lo] /\ u16be hi lo = x.
Proof.
  intros Hx. pose proof (u16be_be16 x Hx) as Hb. unfold be16 in *. cbn [be app] in *. eexists _, _. split; [reflexivity|]. done.
Qed.
Lemma options_loop_concat opts fuel : Forall option_fits opts -> (length opts <= fuel)%nat -> options_loop fuel (write_options opts) = Ok opts.
Proof.
  intros Ho. revert fuel. induction Ho as [|[c v] opts [Hc Hv] _ IH]; intros fuel Hf; [by destruct fuel|]. cbn [fst snd] in *.
  destruct fuel as [|fuel]; [cbn in Hf; lia|]. pose proof (len_nonneg v) as Hnv. pose proof (len_nonneg (write_options opts)) as Hno.
  unfold write_options. cbn [map concat fst snd]. fold (write_options opts).
  assert (option6 c v ++ write_options opts = be16 c ++ be16 (len v mod 65536) ++ v ++ write_options opts) as -> by (unfold option6; by rewrite <-!app_assoc).
  rewrite Z.mod_small by u_lia.
  destruct (be16_bytes c Hc) as (c0 & c1 & -> & Hcc). destruct (be16_bytes (len v) ltac:(u_lia)) as (n0 & n1 & -> & Hn).
  set (b := [c0; c1] ++ [n0; n1] ++ v ++ write_options opts).
  assert (len b = 4 + len v + len (write_options opts)) as Hl by (unfold b; rewrite !len_app; unfold len at 1 2; cbn; lia).
  change (options_loop (S fuel) b) with (
    reject_if len b <? 4 with Truncated;
    b2 ← b.[2]; b3 ← b.[3];
    let n := u16be b2 b3 in
    room ← sub_chk (len b) 4;
    reject_if room <? n with Truncated;
    b0 ← b.[0]; b1 ← b.[1];
    value ← slice b 4 (4 + n);
    rest ← slice_from b (4 + n);
    out ← options_loop fuel rest;
    Ok ((u16be b0 b1, value) :: out)).
  assert (b.[0] = Ok (E:=WireError) c0 /\ b.[1] = Ok (E:=WireError) c1 /\ b.[2] = Ok (E:=WireError) n0 /\ b.[3] = Ok (E:=WireError) n1) as (-> & -> & -> & ->) by done.
  rewrite Hl. destruct (Z.ltb_spec (4 + len v + len (write_options opts)) 4); [lia|]. cbn [mbind outcome_bind]. rewrite Hn.
  unfold sub_chk. destruct (Z.leb_spec 4 (4 + len v + len (write_options opts))); [|lia]. cbn [mbind outcome_bind].
  destruct (Z.ltb_spec (4 + len v + len (write_options opts) - 4) (len v)); [lia|].
  assert (slice b 4 (4 + len v) = Ok (E:=WireError) v) as -> by (apply (slice_mid ([c0; c1] ++ [n0; n1]) v); done).
  assert (slice_from b (4 + len v) = Ok (E:=WireError) (write_options opts)) as ->.
  { unfold b. rewrite !app_assoc. apply slice_from_app. rewrite !len_app. unfold len at 2 3. cbn [length]. lia. }
  cbn [mbind outcome_bind]. rewrite (IH fuel) by (cbn in Hf; lia). cbn [mbind outcome_bind]. by rewrite Hcc.
Qed.
Lemma length_write_options opts : (length opts <= length (write_options opts))%nat.
Proof.
  induction opts as [|o l IH]; [done|]. unfold write_options in *. cbn [map concat length]. rewrite length_app.
  pose proof (len_option6 o.1 o.2) as Hl. pose proof (len_nonneg o.2). unfold len in *. lia.
Qed.
(** Any list of options that fit their length fields is read back as it was written. *)
Lemma options_written opts : Forall option_fits opts -> options (write_options opts) = Ok opts.
Proof. intros Ho. apply options_loop_concat; [done|apply length_write_options]. Qed.

Definition prefix_fields (d : Delegation) : bytes :=
  be32 (dg_preferred d) ++ be32 (dg_valid d) ++ [p_length (dg_prefix d)] ++ octets6 (p_address (dg_prefix d)).
Lemma len_prefix_fields d : len (prefix_fields d) = 25.
Proof. done. Qed.
Lemma decode_prefixes_read iaid t1 t2 ds acc : Forall delegation_ok ds -> Forall (fun d => dg_iaid d = iaid /\ dg_t1 d = t1 /\ dg_t2 d = t2) ds ->
  len acc + len ds <= 16 -> decode_prefixes (map prefix_fields ds) iaid t1 t2 acc = Ok (acc ++ ds).
Proof.
  intros Hds. revert acc. induction Hds as [|d ds Hd _ IH]; intros acc Hsame Hl; cbn [map decode_prefixes]; [by rewrite app_nil_r|].
  apply Forall_cons_iff in Hsame as [(E1 & E2 & E3) Hsame]. rewrite len_cons in Hl. pose proof (len_nonneg ds).
  rewrite len_prefix_fields. change (25 <? 25) with false. destruct Hd as [_ _ _ _ Hp Hpr Hv]. destruct Hp as (Ha & Hlen & Hpn).
  assert (slice_from (E:=WireError) (prefix_fields d) 25 = Ok []) as -> by reflexivity. cbn [mbind outcome_bind].
  change (options []) with (Ok (E:=WireError) (@nil (Z * bytes))). cbn [mbind outcome_bind]. unfold u32_at, prefix_fields, octets6.
  read_slice 0 (0 + 4) (be32 (dg_preferred d)). read_slice 4 (4 + 4) (be32 (dg_valid d)). read_slice 9 25 (be128 (p_address (dg_prefix d))).
  change (idx (E:=WireError) _ 8) with (Ok (E:=WireError) (p_length (dg_prefix d))). cbn [mbind outcome_bind].
  fold (octets6 (p_address (dg_prefix d))). rewrite (addr6_octets6 _ Ha), Hpn, !of_be_be32 by u_lia.
  destruct (Z.ltb_spec (dg_valid d) (dg_preferred d)); [lia|]. destruct (Z.leb_spec 16 (len acc)); [lia|].
  rewrite IH; [|done|rewrite len_app; change (len [_]) with 1; lia]. rewrite <-app_assoc. do 2 f_equal. cbn. f_equal. destruct d. cbn in *. by subst.
Qed.
(** An association as a server writes it: its identity, timers and prefixes. *)
Record Ia := mkIa { ia_id : Z; ia_t1 : Z; ia_t2 : Z; ia_prefixes : list Delegation }.
Definition ia_fields (a : Ia) : bytes := be32 (ia_id a) ++ be32 (ia_t1 a) ++ be32 (ia_t2 a) ++ concat (map delegation_option (ia_prefixes a)).
Record ia_ok (a : Ia) : Prop := {
  io_id : In (ia_id a) [1; 2];
  io_t1 : is_u32 (ia_t1 a);
  io_t2 : is_u32 (ia_t2 a);
  io_order : ia_t1 a = 0 \/ ia_t2 a = 0 \/ ia_t1 a <= ia_t2 a;
  io_prefixes : Forall delegation_ok (ia_prefixes a);
  io_same : Forall (fun d => dg_iaid d = ia_id a /\ dg_t1 d = ia_t1 a /\ dg_t2 d = ia_t2 a) (ia_prefixes a);
}.
Definition ia_delegations (l : list Ia) : list Delegation := concat (map ia_prefixes l).

Lemma with_code_map {A} c k (f : A -> bytes) l : with_code c (map (fun a => (k, f a)) l) = if k =? c then map f l else [].
Proof. unfold with_code. induction l as [|a l IH]; cbn; [by destruct (k =? c)|]. destruct (k =? c); cbn; by rewrite IH. Qed.
Lemma with_code_cons c k v l : with_code c ((k, v) :: l) = if k =? c then v :: with_code c l else with_code c l.
Proof. unfold with_code. cbn. by destruct (k =? c). Qed.
Lemma no_failure {A} (f : A -> bytes) l : failure_code (map (fun a => (26, f a)) l) = Ok None.
Proof. induction l as [|a l IH]; [done|]. exact IH. Qed.
Lemma prefix_options ds : concat (map delegation_option ds) = write_options (map (fun d => (26, prefix_fields d)) ds).
Proof. unfold write_options. by rewrite map_map. Qed.
Lemma prefix_options_fit ds : Forall option_fits (map (fun d => (26, prefix_fields d)) ds).
Proof. induction ds as [|d ds IH]; cbn [map]; constructor; [|done]. split; cbn [fst snd]; rewrite ?len_prefix_fields; u_lia. Qed.
Lemma len_prefix_options ds : len (concat (map delegation_option ds)) = 29 * len ds.
Proof. induction ds as [|d ds IH]; [done|]. cbn [map concat]. rewrite len_app, IH, len_cons. unfold delegation_option. rewrite len_option6. change (len (be32 _ ++ _)) with 25. lia. Qed.
Lemma len_ia_fields a : len (ia_fields a) = 12 + 29 * len (ia_prefixes a).
Proof. unfold ia_fields. rewrite !len_app, len_prefix_options. change (len (be32 _)) with 4. lia. Qed.
Lemma decode_associations_read l iaids acc : Forall ia_ok l -> NoDup (map ia_id l) -> (forall a, In a l -> ~ In (ia_id a) iaids) ->
  len acc + len (ia_delegations l) <= 16 -> decode_associations (map ia_fields l) iaids 0 acc = Ok (0, acc ++ ia_delegations l).
Proof.
  intros Hl. revert iaids acc. induction Hl as [|a l Ha _ IH]; intros iaids acc Hnd Hfresh Hlen; cbn [map decode_associations]; [by rewrite app_nil_r|].
  cbn [map] in Hnd. apply list.NoDup_cons in Hnd as [Hn Hnd]. unfold ia_delegations in Hlen. cbn [map concat] in Hlen. rewrite len_app in Hlen.
  fold (ia_delegations l) in Hlen. pose proof (len_nonneg (ia_delegations l)) as Hn1. pose proof (len_nonneg (ia_prefixes a)) as Hn2.
  rewrite len_ia_fields. destruct (Z.ltb_spec (12 + 29 * len (ia_prefixes a)) 12) as [Hlt|_]; [lia|]. destruct Ha as [Hid H1 H2 Hord Hp Hsame].
  unfold u32_at, ia_fields. assert (is_u32 (ia_id a)) by (destruct Hid as [<-|[<-|[]]]; u_lia).
  read_slice 0 (0 + 4) (be32 (ia_id a)). rewrite of_be_be32 by done.
  assert (mem (ia_id a) iaids = false) as -> by (apply not_true_iff_false; rewrite mem_In; apply Hfresh; by left).
  read_slice 4 (4 + 4) (be32 (ia_t1 a)). read_slice 8 (8 + 4) (be32 (ia_t2 a)). rewrite !of_be_be32 by done.
  read_from 12 (concat (map delegation_option (ia_prefixes a))). rewrite prefix_options, options_written by apply prefix_options_fit. cbn [mbind outcome_bind].
  assert (mem (ia_id a) [1; 2] = true) as -> by by apply mem_In. cbn [negb orb].
  assert (negb (ia_t1 a =? 0) && negb (ia_t2 a =? 0) && (ia_t2 a <? ia_t1 a) = false) as ->.
  { destruct (Z.eqb_spec (ia_t1 a) 0), (Z.eqb_spec (ia_t2 a) 0), (Z.ltb_spec (ia_t2 a) (ia_t1 a)); try done; lia. }
  rewrite no_failure. cbn [mbind outcome_bind]. rewrite with_code_map. change (26 =? 26) with true. cbv iota.
  rewrite decode_prefixes_read by (done || lia). cbn [mbind outcome_bind]. rewrite IH; [|done| |rewrite len_app; lia].
  - unfold ia_delegations. cbn [map concat]. by rewrite <-app_assoc.
  - intros b Hb [E|Hin]; [|by apply (Hfresh b); [right|]]. apply Hn. rewrite E. by apply list_elem_of_In, in_map.
Qed.

(** A reply of a server: its identity, the client's, and the associations. *)
Definition write_reply (kind : Z) (xid client server : bytes) (l : list Ia) : bytes :=
  [kind] ++ xid ++ write_options ((1, client) :: (2, server) :: map (fun a => (25, ia_fields a)) l).
(** What a server delegates is what the client reads: a reply written with any
    associations of the two identities, up to sixteen prefixes in all, decodes to exactly
    these delegations, with the identities and the transaction it was written with. *)
Theorem dhcp6_reply_roundtrip kind xid client server l : is_u8 kind -> is_bytes xid -> len xid = 3 ->
  len client <= 128 -> 1 <= len server <= 128 -> Forall ia_ok l -> NoDup (map ia_id l) -> len (ia_delegations l) <= 16 ->
  decode (write_reply kind xid client server l) = Ok (mkMessage kind xid client server 0 None 0 (ia_delegations l)).
Proof.
  intros Hk Hx Hxl Hc Hs Hl Hnd Hlen. unfold decode, write_reply.
  set (opts := (1, client) :: (2, server) :: map (fun a => (25, ia_fields a)) l).
  pose proof (len_nonneg (write_options opts)). assert (len ([kind] ++ xid ++ write_options opts) = 4 + len (write_options opts)) as Htot.
  { rewrite !len_app, Hxl. change (len [kind]) with 1. lia. }
  rewrite Htot. destruct (Z.ltb_spec (4 + len (write_options opts)) 4); [lia|].
  assert (slice_from (E:=WireError) ([kind] ++ xid ++ write_options opts) 4 = Ok (write_options opts)) as ->.
  { rewrite app_assoc. apply slice_from_app. rewrite len_app, Hxl. done. }
  cbn [mbind outcome_bind]. rewrite options_written.
  2:{ constructor; [split; cbn [fst snd]; u_lia|]. constructor; [split; cbn [fst snd]; u_lia|]. clear -Hlen. 
      induction l as [|a l IH]; cbn [map]; constructor.
      - unfold ia_delegations in Hlen. cbn [map concat] in Hlen. rewrite len_app in Hlen. pose proof (len_nonneg (concat (map ia_prefixes l))).
        split; cbn [fst snd]; [u_lia|]. rewrite len_ia_fields. u_lia.
      - apply IH. unfold ia_delegations in *. cbn [map concat] in Hlen. rewrite len_app in Hlen. pose proof (len_nonneg (ia_prefixes a)). lia. }
  cbn [mbind outcome_bind]. unfold single, opts. rewrite !with_code_cons, !with_code_map.
  cbn [Z.eqb Pos.eqb ok_or mbind outcome_bind]. 
  destruct (Z.eqb_spec (len server) 0); [lia|]. destruct (Z.ltb_spec 128 (len server)); [lia|]. destruct (Z.ltb_spec 128 (len client)); [lia|].
  cbn [orb keep_if decode_preference decode_sol_max_rt decode_status mbind outcome_bind].
  rewrite decode_associations_read; [|done|done|by intros a _ []|change (len []) with 0; lia]. cbn [mbind outcome_bind app].
  change (idx (E:=WireError) (kind :: ?t) 0) with (Ok (E:=WireError) kind). cbn [mbind outcome_bind].
  assert (forall t, slice (E:=WireError) (kind :: xid ++ t) 1 4 = Ok xid) as Hxs by (intros t; apply (slice_mid [kind] xid); [done|by rewrite Hxl]).
  by rewrite Hxs.
Qed.

(** ** UDP *)

(** A UDP checksum that comes out as zero is sent as all ones, and verifies all the same. *)
Lemma complement_udp fuel n : (2 <= fuel)%nat -> is_u32 n -> is_u32 (n + 65535) ->
  let c := complement16 (fold_carry fuel n) in complement16 (fold_carry fuel (n + (if c =? 0 then 65535 else c))) = 0.
Proof.
  intros Hf H1 H2 c. destruct (Z.eqb_spec c 0) as [E|_]; [|by apply complement_verifies].
  destruct (fold_carry_spec fuel n Hf H1) as (Ha & Hb & _). unfold c, complement16 in E. rewrite Z.mod_small in E by done.
  assert (fold_carry fuel n = 65535) as Hr by lia. rewrite Hr in Hb. change (65535 mod 65535) with 0 in Hb.
  destruct (fold_carry_spec fuel (n + 65535) Hf H2) as (Hc & Hd & He). rewrite Zplus_mod, <-Hb in Hd. change ((0 + 65535 mod 65535) mod 65535) with 0 in Hd.
  specialize (He ltac:(u_lia)). apply Z.mod_divide in Hd as [q Hq]; [|lia]. assert (fold_carry fuel (n + 65535) = 65535) as -> by lia. done.
Qed.
Lemma checksum_fill_udp s d next b lo (c := checksum s d next (put b lo [0; 0])) :
  is_bytes b -> len b <= u16_max -> is_u8 next -> 0 <= lo -> Z.even lo = true -> lo + 2 <= len b ->
  checksum s d next (put b lo (be16 (if c =? 0 then 65535 else c))) = 0.
Proof.
  intros Hb Hl Hn Hlo He Hf. assert (is_u16 (if c =? 0 then 65535 else c)) as Hc by (destruct (c =? 0); [u_lia|apply complement16_u16]).
  revert Hc. set (c' := if c =? 0 then 65535 else c). intros Hc. unfold checksum at 1.
  assert (len (put b lo (be16 c')) = len (put b lo [0; 0])) as ->
    by (rewrite !len_put; [done|..]; unfold be16; rewrite ?len_be; change (len [0; 0]) with 2; lia).
  rewrite sum_words_fill by done. rewrite !Z.add_assoc. unfold c', c, checksum.
  pose proof (sum_words_bound (octets6 s) ltac:(apply is_bytes_be)) as H1.
  pose proof (sum_words_bound (octets6 d) ltac:(apply is_bytes_be)) as H2.
  pose proof (sum_words_bound (be32 (len (put b lo [0; 0]))) ltac:(apply is_bytes_be)) as H3.
  pose proof (sum_words_bound (put b lo [0; 0])) as H4. rewrite len_octets6 in *.
  unfold be32 in *. rewrite len_be in H3. rewrite len_put in H4 by (change (len [0; 0]) with 2; lia).
  specialize (H4 ltac:(apply is_bytes_put; [done|]; do 2 (apply is_bytes_cons; split; [u_lia|]); constructor)).
  assert ((len b + 1) / 2 <= 32768) by (apply Z.lt_succ_r, Z.div_lt_upper_bound; u_lia).
  change ((16 + 1) / 2) with 8 in *. change ((Z.of_nat 4 + 1) / 2) with 2 in *.
  apply (complement_udp 4); [lia|u_lia|u_lia].
Qed.
(** What is sent to the client's port reaches it: a datagram from a server's port to the
    client's, of at least four bytes, is accepted with the payload it was built from; one
    that does not fit a UDP length is refused when it is built. *)
Theorem dhcp6_udp_roundtrip source dest body : is_u128 source -> is_u128 dest -> is_bytes body ->
  match udp_packet source dest 547 546 body with
  | Ok pkt => len body <= 65527 /\ exists e, envelope RawIpv6 pkt = Ok e /\ (4 <= len body -> udp_payload e = Ok body)
  | Err e => e = Capacity /\ 65527 < len body
  | Panic => False
  end.
Proof.
  intros Hs Hd Hb. unfold udp_packet. destruct (Z.ltb_spec u16_max (len body + 8)) as [Hbig|Hfit]; [split; [done|u_lia]|].
  pose proof (len_nonneg body) as Hnn. set (b := be16 547 ++ _). assert (len b = len body + 8) as Hl.
  { unfold b, be16. rewrite !len_app, !len_be. change (len [0; 0]) with 2. lia. }
  assert (is_bytes b) as Hbb by (unfold b, be16; bytes_tac). set (c := checksum source dest 17 b).
  set (c' := if c =? 0 then 65535 else c). assert (copy_at (E:=WireError) b 6 (be16 c') = Ok (put b 6 (be16 c'))) as ->.
  { apply copy_at_Ok. unfold be16. rewrite len_be. split; [lia|]. split; [lia|done]. }
  cbn [mbind outcome_bind]. set (u := put b 6 (be16 c')). assert (len u = len body + 8) as Hlu.
  { unfold u. rewrite len_put; [done|lia|]. unfold be16. rewrite len_be. lia. }
  destruct (ipv6_packet source dest 17 1 u) as [pkt|e|] eqn:Hp; unfold ipv6_packet in Hp; rewrite Hlu in Hp; (destruct (Z.ltb_spec u16_max (len body + 8)); [lia|]); try done.
  split; [u_lia|]. destruct (envelope_ipv6_packet source dest 17 1 u pkt Hs Hd) as [He _].
  { unfold ipv6_packet. rewrite Hlu. by destruct (Z.ltb_spec u16_max (len body + 8)); [lia|]. }
  eexists. split; [exact He|]. intros H4. unfold udp_payload.
  assert (transport (mkEnvelope pkt u source dest 17 1) = Ok (mkTransport 17 u false false)) as -> by reflexivity.
  cbn [mbind outcome_bind t_bytes t_protocol t_fragmented e_source e_destination]. change (17 =? 17) with true. cbn [negb orb]. rewrite Hlu.
  destruct (Z.ltb_spec (len body + 8) 12); [lia|]. 
  assert (u = [2; 35; 2; 34] ++ be16 (len body + 8) ++ be16 c' ++ body) as Eu.
  { unfold u, put, b. unfold be16. rewrite len_be. reflexivity. }
  assert (b = put b 6 [0; 0]) as Ebz by reflexivity.
  assert (checksum source dest 17 u = 0) as Hck by (apply (checksum_fill_udp source dest 17 b 6); try done; lia || u_lia).
  assert (is_u16 c') as Hc' by (unfold c'; destruct (c =? 0); [u_lia|apply complement16_u16]).
  assert (c' <> 0) as Hc0 by (unfold c'; destruct (Z.eqb_spec c 0); lia).
  rewrite Hck. clearbody u. subst u. destruct (be16_bytes (len body + 8) ltac:(u_lia)) as (l0 & l1 & -> & Hl01).
  destruct (be16_bytes c' Hc') as (k0 & k1 & -> & Hk01). set (u := [2; 35; 2; 34] ++ [l0; l1] ++ [k0; k1] ++ body).
  assert (forall lo hi s c, u = c ++ s ++ drop (length c + length s) u -> lo = len c -> hi = len c + len s -> slice (E:=WireError) u lo hi = Ok s) as Hsl.
  { intros lo hi s cc E -> ->. rewrite E. by apply slice_mid. }
  rewrite (Hsl 0 4 [2; 35; 2; 34] []), (Hsl 6 8 [k0; k1] ([2; 35; 2; 34] ++ [l0; l1])) by done. cbn [mbind outcome_bind].
  change (beq [2; 35; 2; 34] [2; 35; 2; 34]) with true. cbn [negb].
  assert (beq [k0; k1] [0; 0] = false) as ->.
  { apply not_true_iff_false. rewrite beq_eq. intros [= -> ->]. by apply Hc0. }
  assert (u.[4] = Ok (E:=WireError) l0 /\ u.[5] = Ok (E:=WireError) l1) as [-> ->] by done. cbn [mbind outcome_bind]. rewrite Hl01, Z.eqb_refl.
  change (0 =? 0) with true. cbn [negb orb]. apply (slice_from_app ([2; 35; 2; 34] ++ [l0; l1] ++ [k0; k1]) body). done.
Qed.

(** ** A reply with two prefixes of one association *)

Definition sample_duid : bytes := [0; 3; 0; 1; 2; 0; 0; 0; 0; 1].
Definition server_duid : bytes := [0; 3; 0; 1; 2; 0; 0; 0; 0; 9].
Definition client_address : Z := 0xfe800000000000000000000000000001.
Definition server_address : Z := 0xfe800000000000000000000000000009.
Definition prefix_a : Prefix := mkPrefix 0x20010db8000100000000000000000000 64.
Definition prefix_b : Prefix := mkPrefix 0x20010db8000200000000000000000000 64.
(** Two prefixes of one class: the second is preferred longer, the first is returned. *)
Definition sample_ia : Ia := mkIa 1 0 0 [mkDelegation 1 0 0 prefix_a 1800 7200; mkDelegation 1 0 0 prefix_b 3600 7200].

Ltac delegation_tac := split; cbn [dg_iaid dg_t1 dg_t2 dg_prefix dg_preferred dg_valid]; try u_lia; first [by left|do 2 (split; [split; vm_compute; discriminate|]); vm_compute; reflexivity].
Lemma sample_ia_ok : ia_ok sample_ia.
Proof.
  split; cbn [sample_ia ia_id ia_t1 ia_t2 ia_prefixes].
  - by left.
  - u_lia.
  - u_lia.
  - by left.
  - repeat apply List.Forall_cons; [delegation_tac|delegation_tac|constructor].
  - repeat apply List.Forall_cons; [done|done|constructor].
Qed.
Lemma dhcp6_reply_roundtrip_witness : decode (write_reply 7 [0; 0; 0] sample_duid server_duid [sample_ia]) =
  Ok (mkMessage 7 [0; 0; 0] sample_duid server_duid 0 None 0 (ia_prefixes sample_ia)).
Proof.
  apply (dhcp6_reply_roundtrip 7 [0; 0; 0] sample_duid server_duid [sample_ia]);
    [u_lia|apply bytes_check; reflexivity|reflexivity|vm_compute; discriminate|split; vm_compute; discriminate|constructor; [exact sample_ia_ok|constructor]| |vm_compute; discriminate].
  apply (NoDup_singleton (ia_id sample_ia)).
Defined.
Lemma dhcp6_udp_roundtrip_witness : exists pkt e, udp_packet server_address client_address 547 546 server_duid = Ok pkt /\
  envelope RawIpv6 pkt = Ok e /\ udp_payload e = Ok server_duid.
Proof.
  pose proof (dhcp6_udp_roundtrip server_address client_address server_duid
    ltac:(split; vm_compute; discriminate) ltac:(split; vm_compute; discriminate) ltac:(apply bytes_check; reflexivity)) as Hr.
  assert (exists pkt, udp_packet server_address client_address 547 546 server_duid = Ok pkt) as [pkt E] by (eexists; vm_compute; reflexivity).
  rewrite E in Hr. destruct Hr as (_ & e & He & Hp). exists pkt, e. split; [exact E|]. split; [exact He|]. apply Hp. vm_compute. discriminate.
Defined.
