(* ===== verification/Pd.v ===== *)
(** The DHCPv6 prefix delegation client ([PdClient] of [src/src/router/pd.rs]): its
    exchanges, the choice of an offer, the leases and what is released. *)

From S2P Require Import Prelude Effects Time Wire Maps Observations Stateful Dhcp6Wire.

Record Offer := mkOffer { of_server : bytes; of_preference : Z; of_delegations : list Delegation }.
Inductive PdState := Dormant | Soliciting | Requesting | Bound | Renewing | Rebinding.
#[global] Instance PdState_eq_dec : EqDecision PdState.
Proof. solve_decision. Defined.
Definition is_state (l : list PdState) (s : PdState) : bool := bool_decide (s ∈ l).
Record Exchange := mkExchange {
  ex_kind : Z;
  ex_xid : bytes;
  ex_started : Z;
  ex_next : Z;
  ex_interval : Z;
  ex_count : Z;
  ex_server : bytes;
}.
Abbreviation LeaseKey := (Z * Prefix)%type.
Record Association := mkAssociation { as_iaid : Z; as_server : bytes; as_t1 : Lifetime; as_t2 : Lifetime }.
Record Lease := mkLease { ls_association : Association; ls_preferred : Lifetime; ls_valid : Lifetime; ls_used : bool }.
Record Release := mkRelease { rl_exchange : Exchange; rl_prefixes : list Delegation }.
Record PdClient := mkPdClient {
  pd_sol_max_rt_seen : option (option Z);
  pd_reserved_xid : option bytes;
  pd_refresh_after : Z;
  pd_fallback_at : option Z;
  pd_leases : gmap LeaseKey Lease;
  pd_releases : list Release;
  pd_offers : list Offer;
  pd_requested : list Delegation;
  pd_state : PdState;
  pd_exchange : option Exchange;
  pd_sol_max_rt : Z;
}.
Definition pd_default : PdClient := mkPdClient None None 0 None ∅ [] [] [] Dormant None 3600000.
Definition set_seen v n c := mkPdClient v (pd_reserved_xid c) (pd_refresh_after c) (pd_fallback_at c) (pd_leases c) (pd_releases c) (pd_offers c) (pd_requested c) (pd_state c) (pd_exchange c) n.
Definition reserve_xid v c := mkPdClient (pd_sol_max_rt_seen c) v (pd_refresh_after c) (pd_fallback_at c) (pd_leases c) (pd_releases c) (pd_offers c) (pd_requested c) (pd_state c) (pd_exchange c) (pd_sol_max_rt c).
Definition set_refresh_after v c := mkPdClient (pd_sol_max_rt_seen c) (pd_reserved_xid c) v (pd_fallback_at c) (pd_leases c) (pd_releases c) (pd_offers c) (pd_requested c) (pd_state c) (pd_exchange c) (pd_sol_max_rt c).
Definition set_fallback_at v c := mkPdClient (pd_sol_max_rt_seen c) (pd_reserved_xid c) (pd_refresh_after c) v (pd_leases c) (pd_releases c) (pd_offers c) (pd_requested c) (pd_state c) (pd_exchange c) (pd_sol_max_rt c).
Definition set_leases v c := mkPdClient (pd_sol_max_rt_seen c) (pd_reserved_xid c) (pd_refresh_after c) (pd_fallback_at c) v (pd_releases c) (pd_offers c) (pd_requested c) (pd_state c) (pd_exchange c) (pd_sol_max_rt c).
Definition set_releases v c := mkPdClient (pd_sol_max_rt_seen c) (pd_reserved_xid c) (pd_refresh_after c) (pd_fallback_at c) (pd_leases c) v (pd_offers c) (pd_requested c) (pd_state c) (pd_exchange c) (pd_sol_max_rt c).
Definition set_offers v c := mkPdClient (pd_sol_max_rt_seen c) (pd_reserved_xid c) (pd_refresh_after c) (pd_fallback_at c) (pd_leases c) (pd_releases c) v (pd_requested c) (pd_state c) (pd_exchange c) (pd_sol_max_rt c).
Definition set_requested v c := mkPdClient (pd_sol_max_rt_seen c) (pd_reserved_xid c) (pd_refresh_after c) (pd_fallback_at c) (pd_leases c) (pd_releases c) (pd_offers c) v (pd_state c) (pd_exchange c) (pd_sol_max_rt c).
Definition set_state v c := mkPdClient (pd_sol_max_rt_seen c) (pd_reserved_xid c) (pd_refresh_after c) (pd_fallback_at c) (pd_leases c) (pd_releases c) (pd_offers c) (pd_requested c) v (pd_exchange c) (pd_sol_max_rt c).
Definition set_exchange v c := mkPdClient (pd_sol_max_rt_seen c) (pd_reserved_xid c) (pd_refresh_after c) (pd_fallback_at c) (pd_leases c) (pd_releases c) (pd_offers c) (pd_requested c) (pd_state c) v (pd_sol_max_rt c).

(** ** Leases in the order of their keys *)

(** The derived [Ord] of [Lifetime]. *)
Definition lifetime_ltb (a b : Lifetime) : bool :=
  match a, b with Until s, Until t => s <? t | Until _, Infinite => true | Infinite, _ => false end.
Definition key_leb (a b : LeaseKey) : bool := (fst a <? fst b) || (fst a =? fst b) && prefix_leb (snd a) (snd b).
Definition entry_le (a b : LeaseKey * Lease) : Prop := key_leb (fst a) (fst b) = true.
#[global] Instance entry_le_dec a b : Decision (entry_le a b).
Proof. unfold entry_le. apply _. Defined.
Definition entries (m : gmap LeaseKey Lease) : list (LeaseKey * Lease) := merge_sort entry_le (map_to_list m).
Definition lease_delegation (now : Z) (kl : LeaseKey * Lease) : Delegation :=
  let '((iaid, prefix), l) := kl in
  mkDelegation iaid 0 0 prefix (remaining (ls_preferred l) now) (remaining (ls_valid l) now).
(** [leases.values().map(|l| l.t2 as a time).min()] *)
Definition lifetime_time (l : Lifetime) : Z := match l with Until t => t | Infinite => u64_max end.
Definition earliest_t2 (m : gmap LeaseKey Lease) : option Z := mmin (fun l => lifetime_time (as_t2 (ls_association l))) m.

(** [selected]: of each class of prefixes the live lease preferred longest. *)
Definition selectable (now : Z) (is_ula : bool) (kl : LeaseKey * Lease) : bool :=
  let '((_, p), l) := kl in
  (p_length p <=? 64) && routable p && Bool.eqb (ula p) is_ula && live (ls_valid l) now && live (ls_preferred l) now.
(** [(l.preferred, Reverse(key))] is not below the best so far. *)
Definition preferable (best : option (LeaseKey * Lease)) (kl : LeaseKey * Lease) : option (LeaseKey * Lease) :=
  match best with
  | Some b =>
      if lifetime_ltb (ls_preferred (snd kl)) (ls_preferred (snd b))
         || bool_decide (ls_preferred (snd kl) = ls_preferred (snd b)) && negb (key_leb (fst kl) (fst b))
      then Some b else Some kl
  | None => Some kl
  end.
Definition best_lease (now : Z) (is_ula : bool) (m : gmap LeaseKey Lease) : option (LeaseKey * Lease) :=
  foldl preferable None (List.filter (selectable now is_ula) (entries m)).
Definition option_list {A} (o : option A) : list A := match o with Some a => [a] | None => [] end.
Definition selected (now : Z) (c : PdClient) : list LeaseKey :=
  if match pd_fallback_at c with Some t => t <=? now | None => false end then [] else
  concat (map (fun is_ula => option_list (fst <$> best_lease now is_ula (pd_leases c))) [false; true]).

(** ** Packets *)

Definition all_servers : Z := 0xff020000000000000000000000010002.
Definition elapsed (now started : Z) : bytes := option6 8 (be16 (Z.min (sat_sub now started / 10) 65535)).
Definition hint : bytes := zeros 8 ++ [64] ++ zeros 16.
Definition request_ia (e : Exchange) (requested : list Delegation) (iaid : Z) : bytes :=
  let ds := List.filter (fun d => dg_iaid d =? iaid) requested in
  option6 25 (be32 iaid ++ zeros 8
    ++ if (ex_kind e =? 1) || match ds with [] => true | _ => false end
       then option6 26 hint else concat (map delegation_option ds)).
Definition request_body (e : Exchange) (requested : list Delegation) (now : Z) (duid : bytes) : bytes :=
  [ex_kind e] ++ ex_xid e ++ option6 1 duid
  ++ match ex_server e with [] => [] | s => option6 2 s end
  ++ elapsed now (ex_started e)
  ++ option6 6 [0; 23; 0; 24; 0; 82]
  ++ concat (map (request_ia e requested) [1; 2]).
Definition release_ia (prefixes : list Delegation) (iaid : Z) : bytes :=
  let ia := be32 iaid ++ zeros 8 ++ concat (map delegation_option (List.filter (fun d => dg_iaid d =? iaid) prefixes)) in
  if 12 <? len ia then option6 25 ia else [].
Definition release_body (r : Release) (now : Z) (duid : bytes) : bytes :=
  let e := rl_exchange r in
  [8] ++ ex_xid e ++ option6 1 duid ++ option6 2 (ex_server e) ++ elapsed now (ex_started e)
  ++ concat (map (release_ia (rl_prefixes r)) [1; 2]).
Definition send_to_servers (source : Z) (body : bytes) : outcome io_error bytes :=
  map_err (fun _ => OtherError) (udp_packet source all_servers 546 547 body).

(** ** Choosing an offer *)

Definition usable (d : Delegation) : bool :=
  (p_length (dg_prefix d) <=? 64) && routable (dg_prefix d) && (1800 <=? dg_preferred d).
Definition classes_offered (ds : list Delegation) : Z :=
  len (List.filter (fun is_ula => existsb (fun d => Bool.eqb (ula (dg_prefix d)) is_ula && usable d) ds) [false; true]).
Definition longest_preferred (ds : list Delegation) : Z := foldl (fun n d => Z.max n (dg_preferred d)) 0 ds.
(** The derived [Ord] of [Vec<u8>]. *)
Fixpoint bytes_ltb (a b : bytes) : bool :=
  match a, b with
  | _, [] => false
  | [], _ => true
  | x :: a, y :: b => (x <? y) || (x =? y) && bytes_ltb a b
  end.
(** Whether [a] sorts before [b]: preference, classes, longest preferred lifetime, all
    reversed, then the server. *)
Definition offer_ltb (a b : Offer) : bool :=
  let gt x y rest := (y <? x) || (x =? y) && rest in
  gt (of_preference a) (of_preference b)
    (gt (classes_offered (of_delegations a)) (classes_offered (of_delegations b))
       (gt (longest_preferred (of_delegations a)) (longest_preferred (of_delegations b))
          (bytes_ltb (of_server a) (of_server b)))).
(** The first of the stable sort. *)
Definition first_offer (offers : list Offer) : option Offer :=
  foldl (fun best o => match best with Some b => if offer_ltb o b then Some o else Some b | None => Some o end) None offers.

(** ** Installing a reply *)

Definition acquired_keys (leases : gmap LeaseKey Lease) (ds : list Delegation) : gset LeaseKey :=
  foldl (fun s d => let key := (dg_iaid d, dg_prefix d) in if dg_valid d =? 0 then s ∖ {[ key ]} else s ∪ {[ key ]}) (dom leases) ds.
(** The shortest positive preferred lifetime of each association. *)
Definition shortest_preferred (ds : list Delegation) : gmap Z Z :=
  foldl (fun m d =>
    if (0 <? dg_preferred d) && (0 <? dg_valid d)
    then <[dg_iaid d := match m !! dg_iaid d with Some p => Z.min p (dg_preferred d) | None => dg_preferred d end]> m
    else m) ∅ ds.
Definition derived (preferred numerator denominator : Z) : Z :=
  if preferred =? u32_max then u32_max else Z.max ((preferred * numerator / denominator) mod 4294967296) 1.
Definition new_association (server : bytes) (now preferred : Z) (d : Delegation) : Association :=
  let t1 := if dg_t1 d =? 0 then derived preferred 1 2 else dg_t1 d in
  let t2 := if dg_t2 d =? 0 then Z.max (derived preferred 4 5) t1 else dg_t2 d in
  mkAssociation (dg_iaid d) server (from_secs now (Z.min t1 t2)) (from_secs now t2).
Definition install_one (server : bytes) (now : Z) (shortest : gmap Z Z)
    (st : gmap LeaseKey Lease * gmap Z Association) (d : Delegation) : gmap LeaseKey Lease * gmap Z Association :=
  let '(leases, associations) := st in
  let key := (dg_iaid d, dg_prefix d) in
  if dg_valid d =? 0 then (delete key leases, associations) else
  let used := match leases !! key with Some l => ls_used l | None => false end in
  let preferred := match shortest !! dg_iaid d with Some p => p | None => 1 end in
  let association := match associations !! dg_iaid d with Some a => a | None => new_association server now preferred d end in
  (<[key := mkLease association (from_secs now (dg_preferred d)) (from_secs now (dg_valid d)) used]> leases,
   <[dg_iaid d := association]> associations).
Definition install_all (server : bytes) (now : Z) (ds : list Delegation) (leases : gmap LeaseKey Lease) : gmap LeaseKey Lease :=
  fst (foldl (install_one server now (shortest_preferred ds)) (leases, ∅) ds).
Definition use_lease (l : Lease) : Lease := mkLease (ls_association l) (ls_preferred l) (ls_valid l) true.
(** [for key in &selected { .. .get_mut(key).unwrap().used = true }] *)
Fixpoint mark_used (keys : list LeaseKey) (leases : gmap LeaseKey Lease) : outcome io_error (gmap LeaseKey Lease) :=
  match keys with
  | [] => Ok leases
  | k :: keys => l ← unwrap (leases !! k); mark_used keys (<[k := use_lease l]> leases)
  end.
Definition unused (m : gmap LeaseKey Lease) : list (LeaseKey * Lease) := List.filter (fun kl => negb (ls_used (snd kl))) (entries m).
Definition keep_used (m : gmap LeaseKey Lease) : gmap LeaseKey Lease := filter (fun kl => ls_used (snd kl) = true) m.
Definition live_leases (now : Z) (m : gmap LeaseKey Lease) : gmap LeaseKey Lease := filter (fun kl => live (ls_valid (snd kl)) now = true) m.

Section client.
Context {R : Type} `{Sampler R}.
Abbreviation MP := (M (PdClient * R) io_error).

(** ** Exchanges *)

Definition begin (kind : Z) (server : bytes) (now next : Z) : MP unit :=
  update (set_refresh_after (sat64 now 1000)) ;;
  xid ← fresh_bytes 3;
  c ← self;
  xid ← (if bool_decide (pd_reserved_xid c = Some xid)
         then x ← lift xid.[2]; lift (copy_at xid 2 [Z.lxor x 1]) else mret xid);
  update (set_exchange (Some (mkExchange kind xid now next 0 0 server))).
Definition start (now : Z) : MP unit :=
  update (set_offers []) ;;
  update (fun c => set_seen None (pd_sol_max_rt c) c) ;;
  update (set_requested []) ;;
  update (set_state Soliciting) ;;
  x ← draw 1000;
  next ← lift (add_chk u64_max now x);
  begin 1 [] now next.
(** [retransmission]: RFC 9915, section 15, in [i128]. *)
Definition retransmission (e : Exchange) (mrt : Z) : MP Z :=
  if (ex_count e =? 0) && (ex_kind e =? 1) then
    x ← draw 99;
    mret (1001 + x)
  else
    let previous :=
      if ex_count e =? 0 then (if (ex_kind e =? 5) || (ex_kind e =? 6) then 10000 else 1000) else ex_interval e in
    x ← draw 2000;
    let rand := x - 1000 in
    let base := previous * (if ex_count e =? 0 then 1 else 2) in
    let rt := Z.quot (base * 10000 + previous * rand) 10000 in
    let rt := if negb (mrt =? 0) && (mrt <? rt) then Z.quot (mrt * (10000 + rand)) 10000 else rt in
    mret (Z.min (Z.max rt 1) u64_max).
Definition queue_release (server : bytes) (prefixes : list Delegation) (now : Z) : MP unit :=
  match prefixes with
  | [] => mret tt
  | _ =>
      c ← self;
      if 16 <=? len (pd_releases c) then throw OtherError else
      xid ← fresh_bytes 3;
      update (fun c => set_releases (pd_releases c ++ [mkRelease (mkExchange 8 xid now now 1000 0 server) prefixes]) c)
  end.
Definition set_release (i : nat) (r : Release) (c : PdClient) : PdClient := set_releases (<[i := r]> (pd_releases c)) c.
Definition sent (e : Exchange) (interval next count : Z) : Exchange :=
  mkExchange (ex_kind e) (ex_xid e) (ex_started e) next interval count (ex_server e).
(** One round of the loop of [poll_releases]. *)
Definition poll_release (i : nat) (r : Release) (now source : Z) (duid : bytes) : MP (list bytes) :=
  let e := rl_exchange r in
  if (4 <=? ex_count e) || (now <? ex_next e) then mret [] else
  packet ← lift (send_to_servers source (release_body r now duid));
  interval ← retransmission e 0;
  update (set_release i (mkRelease (sent e interval (ex_next e) (ex_count e)) (rl_prefixes r))) ;;
  count ← lift (add_chk u8_max (ex_count e) 1);
  update (set_release i (mkRelease (sent e interval (sat64 now interval) count) (rl_prefixes r))) ;;
  mret [packet].
Fixpoint release_rounds (n i : nat) (now source : Z) (duid : bytes) : MP (list bytes) :=
  match n with
  | O => mret []
  | S n =>
      c ← self;
      match pd_releases c !! i with
      | Some r =>
          out ← poll_release i r now source duid;
          rest ← release_rounds n (S i) now source duid;
          mret (out ++ rest)
      | None => mret []
      end
  end.
Definition poll_releases (now source : Z) (duid : bytes) : MP (list bytes) :=
  c ← self;
  out ← release_rounds (length (pd_releases c)) 0 now source duid;
  update (fun c => set_releases (List.filter (fun r => (ex_count (rl_exchange r) <? 4) || (now <? ex_next (rl_exchange r))) (pd_releases c)) c) ;;
  mret out.

Definition choose (now : Z) : MP unit :=
  c ← self;
  offer ← lift (unwrap (first_offer (pd_offers c)));
  update (set_offers []) ;;
  update (set_requested (List.filter usable (of_delegations offer))) ;;
  update (set_state Requesting) ;;
  begin 3 (of_server offer) now now.
Definition max_interval (e : Exchange) (c : PdClient) : Z :=
  if ex_kind e =? 1 then pd_sol_max_rt c else if (ex_kind e =? 5) || (ex_kind e =? 6) then 600000 else 30000.
Definition due (now : Z) (c : PdClient) : bool := match pd_exchange c with Some e => ex_next e <=? now | None => false end.
(** The exchange's message and its next time, from [let mut b = vec![e.kind]] on. *)
Definition poll_exchange (e : Exchange) (now source : Z) (duid : bytes) : MP (list bytes) :=
  c ← self;
  packet ← lift (send_to_servers source (request_body e (pd_requested c) now duid));
  interval ← retransmission e (max_interval e c);
  update (set_exchange (Some (sent e interval (ex_next e) (ex_count e)))) ;;
  next ← lift (add_chk u64_max now interval);
  let count := sat_add u8_max (ex_count e) 1 in
  update (set_exchange (Some (sent e interval next count))) ;;
  (if (ex_kind e =? 6) && (count =? 1)
   then update (fun c => set_fallback_at (Some (Z.max next (match earliest_t2 (pd_leases c) with Some t => t | None => now end))) c)
   else mret tt) ;;
  mret [packet].
Definition poll (now source : Z) (duid : bytes) : MP (list bytes) :=
  c ← self;
  (if bool_decide (pd_state c = Soliciting) && negb (len (pd_offers c) =? 0) && due now c then choose now else mret tt) ;;
  c ← self;
  (if bool_decide (pd_state c = Requesting)
      && match pd_exchange c with Some e => (10 <=? ex_count e) && (ex_next e <=? now) | None => false end
   then start now else mret tt) ;;
  out ← poll_releases now source duid;
  c ← self;
  match pd_exchange c with
  | None => mret out
  | Some e =>
      if now <? ex_next e then mret out else
      sent ← poll_exchange e now source duid;
      mret (out ++ sent)
  end.

(** ** Replies *)

Definition finish : MP unit := update (set_state Bound) ;; update (set_exchange None).
Definition install (m : Message) (now : Z) : MP unit :=
  c ← self;
  if (ms_status m =? 3) && is_state [Renewing; Rebinding] (pd_state c) then
    update (set_state Requesting) ;;
    begin 3 (ms_server m) now now
  else if (ms_status m =? 6) && bool_decide (pd_state c = Requesting) then start now
  else if negb (ms_status m =? 0) then mret tt else
  update (fun c => set_leases (live_leases now (pd_leases c)) c) ;;
  c ← self;
  if 16 <? Z.of_nat (size (acquired_keys (pd_leases c) (ms_delegations m))) then
    queue_release (ms_server m)
      (List.filter (fun d => negb (dg_valid d =? 0) && negb (bool_decide (is_Some (pd_leases c !! (dg_iaid d, dg_prefix d))))) (ms_delegations m)) now ;;
    finish ;;
    throw OtherError
  else
  update (set_leases (install_all (ms_server m) now (ms_delegations m) (pd_leases c))) ;;
  update (set_fallback_at None) ;;
  c ← self;
  leases ← lift (mark_used (selected now c) (pd_leases c));
  update (set_leases (keep_used leases)) ;;
  queue_release (ms_server m) (map (lease_delegation now) (unused leases)) now ;;
  update (set_fallback_at None) ;;
  finish ;;
  update (set_requested []).
(** An advertisement of a server, while soliciting. *)
Definition see_sol_max_rt (max : Z) (c : PdClient) : PdClient :=
  let seen := match pd_sol_max_rt_seen c with
              | None => Some max
              | Some (Some prior) => if prior =? max then Some max else None
              | Some None => None
              end in
  set_seen (Some seen) (match seen with Some n => n * 1000 | None => 3600000 end) c.
Definition advertise (m : Message) (now : Z) (allowed : Prefix -> bool) : MP unit :=
  let ds := List.filter (fun d => allowed (dg_prefix d)) (ms_delegations m) in
  (match ms_sol_max_rt m with Some max => update (see_sol_max_rt max) | None => mret tt end) ;;
  if negb (ms_status m =? 0) || negb (existsb usable ds) then mret tt else
  c ← self;
  if 16 <=? len (pd_offers c) then throw OtherError else
  update (set_offers (pd_offers c ++ [mkOffer (ms_server m) (ms_preference m) ds])) ;;
  if ms_preference m =? 255 then choose now else mret tt.
Definition released (m : Message) (r : Release) : bool :=
  beq (ex_xid (rl_exchange r)) (ms_xid m) && beq (ex_server (rl_exchange r)) (ms_server m).
Definition receive_message (m : Message) (duid : bytes) (now : Z) (allowed : Prefix -> bool) : MP unit :=
  (if (ms_kind m =? 7) && beq (ms_client m) duid
   then update (fun c => set_releases (List.filter (fun r => negb (released m r)) (pd_releases c)) c) else mret tt) ;;
  c ← self;
  match pd_exchange c with
  | None => mret tt
  | Some e =>
      if negb (beq (ms_xid m) (ex_xid e)) || negb (beq (ms_client m) duid) then mret tt else
      if (ms_kind m =? 7) && is_state [Requesting; Renewing; Rebinding] (pd_state c)
         && (bool_decide (pd_state c = Rebinding) || beq (ms_server m) (ex_server e))
      then install m now
      else if bool_decide (pd_state c = Soliciting) && (ms_kind m =? 2) then advertise m now allowed
      else mret tt
  end.
Definition receive_with_policy (e : Envelope) (duid : bytes) (now : Z) (allowed : Prefix -> bool) : MP unit :=
  match udp_payload e with
  | Ok b =>
      match decode b with
      | Ok m => receive_message m duid now allowed
      | Err _ => mret tt
      | Panic => lift Panic
      end
  | Err _ => mret tt
  | Panic => lift Panic
  end.
Definition receive (e : Envelope) (duid : bytes) (now : Z) : MP unit := receive_with_policy e duid now (fun _ => true).

(** ** Time *)

(** [min_by_key(|l| l.t1)]: the first of the earliest. *)
Definition earlier (best : option Lease) (kl : LeaseKey * Lease) : option Lease :=
  match best with
  | Some b => if lifetime_ltb (as_t1 (ls_association (snd kl))) (as_t1 (ls_association b)) then Some (snd kl) else Some b
  | None => Some (snd kl)
  end.
Definition refresh (kind now : Z) : MP unit :=
  c ← self;
  if (slen (pd_leases c) =? 0) || (now <? pd_refresh_after c) then mret tt else
  server ← (if kind =? 5
            then l ← lift (unwrap (foldl earlier None (entries (pd_leases c)))); mret (as_server (ls_association l))
            else mret []);
  update (set_requested (map (lease_delegation now)
    (List.filter (fun kl => (kind =? 6) || beq (as_server (ls_association (snd kl))) server) (entries (pd_leases c))))) ;;
  update (set_state (if kind =? 5 then Renewing else Rebinding)) ;;
  begin kind server now now.
Definition any_past (f : Association -> Lifetime) (now : Z) (m : gmap LeaseKey Lease) : bool :=
  existsb (fun kl => negb (live (f (ls_association (snd kl))) now)) (entries m).
Definition advance (now : Z) : MP unit :=
  update (fun c => set_leases (live_leases now (pd_leases c)) c) ;;
  c ← self;
  (if (slen (pd_leases c) =? 0) && is_state [Bound; Renewing; Rebinding] (pd_state c) then start now else mret tt) ;;
  c ← self;
  if is_state [Bound; Renewing] (pd_state c) && any_past as_t2 now (pd_leases c) then refresh 6 now
  else if bool_decide (pd_state c = Bound) && any_past as_t1 now (pd_leases c) then refresh 5 now
  else mret tt.
End client.
