(* ===== verification/PdInv.v ===== *)
(** The prefix delegation client: its invariant, and that every operation keeps it. *)

From S2P Require Import Prelude Effects Time Wire WireFacts Maps Observations Stateful Dhcp6Wire Pd.

(** ** The invariant *)

(** No exchange waits longer than the largest SOL_MAX_RT and a tenth. *)
Definition longest_wait : Z := 95040000.
Record exchange_wf (e : Exchange) : Prop := {
  xw_xid : len (ex_xid e) = 3;
  xw_interval : 0 <= ex_interval e <= longest_wait;
  xw_count : is_u8 (ex_count e);
  xw_waited : (ex_count e =? 0) = false -> 1 <= ex_interval e;
}.
Record lease_wf (k : LeaseKey) (l : Lease) : Prop := {
  lw_iaid : In (fst k) [1; 2] /\ as_iaid (ls_association l) = fst k;
  lw_prefix : prefix_wf (snd k);
}.
Record release_wf (r : Release) : Prop := {
  rw_xid : len (ex_xid (rl_exchange r)) = 3;
  rw_interval : 1 <= ex_interval (rl_exchange r) <= u64_max;
  rw_count : 0 <= ex_count (rl_exchange r) <= 4;
}.
Definition offer_wf (o : Offer) : Prop := Forall delegation_ok (of_delegations o) /\ of_delegations o <> [].
Record pd_wf (c : PdClient) : Prop := {
  pw_leases : slen (pd_leases c) <= 16 /\ map_Forall lease_wf (pd_leases c);
  pw_releases : len (pd_releases c) <= 16 /\ Forall release_wf (pd_releases c);
  pw_offers : len (pd_offers c) <= 16 /\ Forall offer_wf (pd_offers c);
  pw_sol_max_rt : 60000 <= pd_sol_max_rt c <= 86400000;
  pw_seen : forall n, pd_sol_max_rt_seen c = Some (Some n) -> 60 <= n <= 86400;
  pw_exchange : forall e, pd_exchange c = Some e -> exchange_wf e;
  pw_bound : pd_state c = Bound \/ pd_state c = Dormant -> pd_exchange c = None;
}.
Ltac unset := cbn [pd_sol_max_rt_seen pd_reserved_xid pd_refresh_after pd_fallback_at pd_leases pd_releases pd_offers pd_requested pd_state pd_exchange pd_sol_max_rt
  set_seen reserve_xid set_refresh_after set_fallback_at set_leases set_releases set_offers set_requested set_state set_exchange].

Lemma pd_default_wf : pd_wf pd_default.
Proof. split; cbn; try done. Qed.
(** What the setters need. *)
Lemma with_leases m c : pd_wf c -> slen m <= 16 -> map_Forall lease_wf m -> pd_wf (set_leases m c).
Proof. intros [] Hs Hm. by split; unset. Qed.
Lemma with_releases l c : pd_wf c -> len l <= 16 -> Forall release_wf l -> pd_wf (set_releases l c).
Proof. intros [] Hs Hm. by split; unset. Qed.
Lemma with_offers l c : pd_wf c -> len l <= 16 -> Forall offer_wf l -> pd_wf (set_offers l c).
Proof. intros [] Hs Hm. by split; unset. Qed.
Lemma with_requested l c : pd_wf c -> pd_wf (set_requested l c).
Proof. intros []. by split; unset. Qed.
Lemma with_fallback v c : pd_wf c -> pd_wf (set_fallback_at v c).
Proof. intros []. by split; unset. Qed.
Lemma with_refresh v c : pd_wf c -> pd_wf (set_refresh_after v c).
Proof. intros []. by split; unset. Qed.
Lemma with_state s c : pd_wf c -> s <> Bound -> s <> Dormant -> pd_wf (set_state s c).
Proof. intros [] H1 H2. split; unset; try done. by intros []. Qed.
Lemma with_exchange e c : pd_wf c -> exchange_wf e -> pd_state c <> Bound -> pd_state c <> Dormant -> pd_wf (set_exchange (Some e) c).
Proof. intros [] He H1 H2. split; unset; try done; [by intros ? [= <-]|by intros []]. Qed.
Lemma with_seen v n c : pd_wf c -> 60000 <= n <= 86400000 -> (forall k, v = Some (Some k) -> 60 <= k <= 86400) -> pd_wf (set_seen v n c).
Proof. intros [] H1 H2. by split; unset. Qed.

(** ** Retransmission times *)

Definition backoff (previous mrt rt : Z) : Prop :=
  (19 * previous <= 10 * rt + 9 /\ 10 * rt <= 21 * previous /\ (mrt = 0 \/ rt <= mrt)) \/
  (9 * mrt <= 10 * rt + 9 /\ 10 * rt <= 11 * mrt /\ 10 * mrt < 21 * previous).
Definition initial_wait (e : Exchange) : Z := if (ex_kind e =? 5) || (ex_kind e =? 6) then 10000 else 1000.
(** The times RFC 9915 asks for. *)
Definition wait_ok (e : Exchange) (mrt rt : Z) : Prop :=
  if ex_count e =? 0 then
    if ex_kind e =? 1 then (1001 <= rt <= 1100) else (9 * initial_wait e <= 10 * rt <= 11 * initial_wait e)
  else backoff (ex_interval e) mrt rt.

Section client.
Context {R : Type} `{Sampler R} `{!ByteSource R}.
#[local] Abbreviation gives := (gives (S:=PdClient) (R:=R) pd_wf).
#[local] Abbreviation MP := (M (PdClient * R) io_error).

Lemma retransmission_gives e mrt c r : pd_wf c -> ((ex_count e =? 0) = false -> 1 <= ex_interval e <= u64_max) -> mrt = 0 \/ 30000 <= mrt <= 86400000 ->
  gives (retransmission e mrt) (c, r) (fun rt c' => c' = c /\ 1 <= rt <= u64_max /\ (mrt <> 0 -> rt <= longest_wait) /\ (2100 * ex_interval e <= u64_max -> wait_ok e mrt rt)).
Proof.
  intros Hc Hi Hm. unfold retransmission, wait_ok. destruct (ex_count e =? 0) eqn:E0; cbn [andb].
  - destruct (ex_kind e =? 1).
    + eapply gives_bind; [apply (gives_draw _ _ _ (fun x c' => c' = c /\ 0 <= x <= 99)); [u_lia|done|done]|]. intros x c' r' [-> Hx].
      apply gives_ret. unfold longest_wait. split; [done|]. split; [u_lia|]. split; lia.
    + eapply gives_bind; [apply (gives_draw _ _ _ (fun x c' => c' = c /\ 0 <= x <= 2000)); [u_lia|done|done]|]. intros x c' r' [-> Hx].
      apply gives_ret. split; [done|]. unfold initial_wait, longest_wait.
      assert (exists p, (if (ex_kind e =? 5) || (ex_kind e =? 6) then 10000 else 1000) = p /\ (p = 10000 \/ p = 1000)) as (p & -> & Hp) by (destruct (_ || _); eauto).
      rewrite Z.quot_div_nonneg by nia. set (q := (p * 1 * 10000 + p * (x - 1000)) / 10000).
      assert (9 * p <= 10 * q <= 11 * p) as Hq by (unfold q; destruct Hp as [-> | ->]; div_lia).
      destruct (Z.ltb_spec mrt q); [|rewrite andb_false_r; u_lia]. destruct (Z.eqb_spec mrt 0); cbn [negb andb]; [u_lia|]. lia.
  - eapply gives_bind; [apply (gives_draw _ _ _ (fun x c' => c' = c /\ 0 <= x <= 2000)); [u_lia|done|done]|]. intros x c' r' [-> Hx].
    apply gives_ret. split; [done|]. specialize (Hi eq_refl). unfold backoff, longest_wait. set (p := ex_interval e) in *.
    rewrite Z.quot_div_nonneg by nia. set (q := (p * 2 * 10000 + p * (x - 1000)) / 10000).
    assert (19 * p <= 10 * q + 9 /\ 10 * q <= 21 * p) as Hq by (unfold q; split; [|]; Z.to_euclidean_division_equations; nia).
    rewrite Z.quot_div_nonneg by nia. set (q2 := mrt * (10000 + (x - 1000)) / 10000).
    assert (0 <= mrt -> 9 * mrt <= 10 * q2 + 9 /\ 10 * q2 <= 11 * mrt) as Hq2 by (intros; unfold q2; split; Z.to_euclidean_division_equations; nia).
    destruct (Z.eqb_spec mrt 0) as [E|E]; cbn [negb andb]; [|destruct (Z.ltb_spec mrt q)].
    + u_lia.
    + specialize (Hq2 ltac:(lia)). u_lia.
    + u_lia.
Qed.

(** ** Exchanges begin *)

Definition begun (kind : Z) (server : bytes) (now next : Z) (c c' : PdClient) : Prop :=
  exists xid, len xid = 3 /\ pd_reserved_xid c <> Some xid /\
    c' = set_exchange (Some (mkExchange kind xid now next 0 0 server)) (set_refresh_after (sat64 now 1000) c).
Lemma other_xid xid x : len xid = 3 -> idx (E:=io_error) xid 2 = Ok x -> put xid 2 [Z.lxor x 1] <> xid /\ len (put xid 2 [Z.lxor x 1]) = 3.
Proof.
  intros Hl Hx. split; [|rewrite len_put; [done|lia|change (len [_]) with 1; lia]].
  destruct xid as [|a [|b [|d [|? ?]]]]; try (unfold len in Hl; cbn in Hl; lia). injection Hx as <-. unfold put. cbn. intros [= Hd].
  assert (Z.testbit (Z.lxor d 1) 0 = Z.testbit d 0) as Hb by by rewrite Hd. rewrite Z.lxor_spec in Hb. by destruct (Z.testbit d 0).
Qed.
Lemma begin_gives kind server now next c r : pd_wf c -> pd_state c <> Bound -> pd_state c <> Dormant ->
  gives (begin kind server now next) (c, r) (fun _ c' => begun kind server now next c c').
Proof.
  intros Hc H1 H2. unfold begin. apply gives_step. assert (pd_wf (set_refresh_after (sat64 now 1000) c)) as Hc1 by by apply with_refresh.
  set (c1 := set_refresh_after _ c) in *.
  eapply gives_bind; [apply (gives_fresh 3 _ _ (fun b c' => c' = c1 /\ len b = 3)); [done|]|]. { intros b Hb Hl. split; [done|]. unfold len. by rewrite Hl. }
  intros xid c' r' [-> Hl]. apply gives_self. eapply (gives_bind _ _ _ (fun x c' => c' = c1 /\ len x = 3 /\ pd_reserved_xid c <> Some x)).
  - case_bool_decide as E; [|apply gives_ret; by split].
    assert (exists x, idx (E:=io_error) xid 2 = Ok x) as [x Hx] by (destruct xid as [|? [|? [|d ?]]]; try (unfold len in Hl; cbn in Hl; lia); by exists d).
    rewrite Hx.
    + eapply gives_bind; [apply (gives_lift x _ _ (fun y c' => c' = c1 /\ y = x)); done|]. intros y c' r2 [-> ->].
      destruct (other_xid xid x Hl Hx) as [Hne Hl']. unfold copy_at. change (len [_]) with 1.
      destruct ((0 <=? 2) && (2 + 1 <=? len xid)) eqn:Hfit; [|rewrite Hl in Hfit; done].
      apply gives_lift. split; [done|]. split; [done|]. change (pd_reserved_xid c1) with (pd_reserved_xid c) in E. rewrite E. intros [= Hx2]. congruence.
  - intros x c' r2 (-> & Hx & Hne). apply gives_update. by exists x.
Qed.
Lemma begun_wf kind server now next c c' : pd_wf c -> pd_state c <> Bound -> pd_state c <> Dormant -> begun kind server now next c c' -> pd_wf c'.
Proof.
  intros Hc H1 H2 (xid & Hl & _ & ->). apply with_exchange; [by apply with_refresh| |done|done]. split; cbn; [done|unfold longest_wait; lia|u_lia|done].
Qed.
(** [start], from any state. *)
Definition started (now : Z) (c c' : PdClient) : Prop :=
  pd_wf c' /\ pd_state c' = Soliciting /\ pd_offers c' = [] /\ pd_leases c' = pd_leases c /\ pd_releases c' = pd_releases c /\
  exists e, pd_exchange c' = Some e /\ ex_kind e = 1 /\ ex_count e = 0 /\ now <= ex_next e <= now + 1000.
Lemma start_gives now c r : 0 <= now <= u64_max - longest_wait -> pd_wf c -> gives (start now) (c, r) (fun _ => started now c).
Proof.
  intros Hn Hc. unfold start. do 4 apply gives_step. set (c1 := set_state Soliciting _). assert (pd_wf c1) as Hc1.
  { apply with_state; [|done..]. apply with_requested, with_seen; [by apply with_offers; [|unfold len; cbn; lia|constructor]|apply Hc|done]. }
  eapply gives_bind; [apply (gives_draw _ _ _ (fun x c' => c' = c1 /\ 0 <= x <= 1000)); [u_lia|done|done]|]. intros x c' r' [-> Hx].
  unfold add_chk, longest_wait in *. destruct (Z.leb_spec (now + x) u64_max); [|u_lia].
  eapply (gives_bind _ _ _ (fun n c' => c' = c1 /\ n = now + x)); [by apply gives_lift|]. intros n c' r2 [-> ->].
  eapply gives_weaken; [apply begin_gives; done|]. intros u c2 Hb. split; [eapply begun_wf; [exact Hc1|done|done|exact Hb]|]. destruct Hb as (xid & _ & _ & ->).
  do 4 (split; [done|]). eexists. split; [reflexivity|]. cbn. split; [done|]. split; [done|]. lia.
Qed.
Lemma queue_release_gives server ps now c r (Q : unit -> PdClient -> Prop) : pd_wf c ->
  (ps = [] -> Q tt c) ->
  (forall xid, ps <> [] -> len xid = 3 -> len (pd_releases c) < 16 -> Q tt (set_releases (pd_releases c ++ [mkRelease (mkExchange 8 xid now now 1000 0 server) ps]) c)) ->
  gives (queue_release server ps now) (c, r) Q.
Proof.
  intros Hc Q0 Q1. unfold queue_release. destruct ps as [|p ps]; [apply gives_ret; by apply Q0|]. apply gives_self.
  apply gives_if; [intros _; by apply gives_throw|]. intros Hroom%Z.leb_gt.
  eapply gives_bind; [apply (gives_fresh 3 _ _ (fun b c' => c' = c /\ len b = 3)); [done|]|]. { intros b Hb Hl. split; [done|]. unfold len. by rewrite Hl. }
  intros xid c' r' [-> Hl]. apply gives_update. by apply Q1.
Qed.
Lemma release_added c xid server ps now : pd_wf c -> len xid = 3 -> len (pd_releases c) < 16 ->
  pd_wf (set_releases (pd_releases c ++ [mkRelease (mkExchange 8 xid now now 1000 0 server) ps]) c).
Proof.
  intros Hc Hl Hr. apply with_releases; [done|rewrite len_app; change (len [_]) with 1; lia|]. apply List.Forall_app. split; [apply Hc|].
  constructor; [|constructor]. split; cbn; [done|u_lia|lia].
Qed.
Lemma first_offer_in offers o : first_offer offers = Some o -> In o offers.
Proof.
  unfold first_offer. set (f := fun best o => _). assert (forall best, foldl f best offers = Some o -> best = Some o \/ In o offers) as Hf.
  { induction offers as [|x rest IH]; intros best; cbn [foldl]; [by left|]. intros E. destruct (IH _ E) as [Hb|Hr]; [|by right; right].
    unfold f in Hb. destruct best as [b|]; [|right; left; congruence]. destruct (offer_ltb x b); [right; left; congruence|by left]. }
  intros E. by destruct (Hf None E).
Qed.
Lemma first_offer_some offers : offers <> [] -> exists o, first_offer offers = Some o.
Proof.
  unfold first_offer. set (f := fun best o => _). assert (forall os b, exists o, foldl f (Some b) os = Some o) as Hf.
  { induction os as [|x rest IH]; intros b; cbn [foldl]; [by exists b|]. unfold f at 2. destruct (offer_ltb x b); apply IH. }
  destruct offers as [|o os]; [done|]. intros _. apply Hf.
Qed.
Lemma choose_gives now c r : is_u64 now -> pd_wf c -> pd_offers c <> [] ->
  gives (choose now) (c, r) (fun _ c' => pd_wf c' /\ pd_state c' = Requesting /\ pd_leases c' = pd_leases c).
Proof.
  intros Hn Hc Ho. unfold choose. apply gives_self. destruct (first_offer_some _ Ho) as [o Hf]. rewrite Hf.
  eapply (gives_bind _ _ _ (fun x c' => c' = c /\ x = o)); [by apply gives_lift|]. intros x c' r' [-> ->]. do 3 apply gives_step.
  set (c1 := set_state Requesting _). assert (pd_wf c1) as Hc1.
  { apply with_state; [|done..]. apply with_requested. apply with_offers; [done|unfold len; cbn; lia|constructor]. }
  eapply gives_weaken; [by apply begin_gives|]. intros u c2 Hb. split; [eapply begun_wf; [exact Hc1|done|done|exact Hb]|]. by destruct Hb as (xid & _ & _ & ->).
Qed.


(** ** Polling *)

Definition same_but_releases (c c' : PdClient) : Prop := exists l, c' = set_releases l c.
Lemma same_releases_refl c : same_but_releases c c.
Proof. exists (pd_releases c). by destruct c. Qed.
Lemma same_releases_trans a b c : same_but_releases a b -> same_but_releases b c -> same_but_releases a c.
Proof. intros [l ->] [l' ->]. by exists l'. Qed.
Lemma yields_send source body : yields (E:=io_error) (fun _ => True) (send_to_servers source body).
Proof.
  unfold send_to_servers. apply yields_map_err. unfold udp_packet. apply yields_reject. intros Hc%Z.ltb_ge. set (b := be16 546 ++ _).
  pose proof (len_nonneg body). assert (8 <= len b) as Hl. { unfold b, be16. rewrite !len_app, !len_be. change (len [0; 0]) with 2. lia. }
  eapply (yields_bind (fun _ => True)).
  - unfold copy_at. unfold be16. rewrite len_be. destruct (Z.leb_spec (6 + Z.of_nat 2) (len b)); [done|lia].
  - intros x _. unfold ipv6_packet. by apply yields_reject.
Qed.
Lemma poll_release_gives i x now source duid c r : is_u64 now -> pd_wf c -> pd_releases c !! i = Some x ->
  gives (poll_release i x now source duid) (c, r) (fun _ c' => pd_wf c' /\ same_but_releases c c').
Proof.
  intros Hn Hc Hx. unfold poll_release. apply gives_if; [intros _; apply gives_ret; split; [done|apply same_releases_refl]|].
  intros [Hcount%Z.leb_gt _]%orb_false_iff. destruct (pw_releases _ Hc) as [Hlen Hall].
  assert (release_wf x) as [Hxid Hint Hcnt] by (eapply Forall_lookup_1; eassumption).
  assert (forall y, release_wf y -> pd_wf (set_release i y c)) as Hset.
  { intros y Hy. apply with_releases; [done|unfold len; rewrite length_insert; done|]. by apply Forall_insert. }
  eapply gives_bind; [apply (gives_yields _ (fun _ => True) _ _ (fun _ c' => c' = c)); [apply yields_send|done|done]|]. intros packet c' r' ->.
  eapply gives_bind; [apply retransmission_gives; [done| |by left]|]. { intros _. lia. } intros rt c' r2 (-> & Hrt & _).
  apply gives_step. set (y1 := mkRelease _ _). assert (release_wf y1) as Hy1 by (split; cbn; [done|lia|lia]).
  unfold add_chk. destruct (Z.leb_spec (ex_count (rl_exchange x) + 1) u8_max); [|u_lia].
  eapply (gives_bind _ _ _ (fun n c' => c' = set_release i y1 c /\ n = ex_count (rl_exchange x) + 1)); [by apply gives_lift|]. intros n c' r3 [-> ->].
  apply gives_step, gives_ret. unfold set_release. unset. rewrite list_insert_insert_eq. split; [|by eexists]. apply Hset. split; cbn; [done|lia|lia].
Qed.
Lemma release_rounds_gives n i now source duid c r : is_u64 now -> pd_wf c ->
  gives (release_rounds n i now source duid) (c, r) (fun _ c' => pd_wf c' /\ same_but_releases c c').
Proof.
  intros Hn. revert i c r. induction n as [|n IH]; intros i c r Hc; cbn [release_rounds]; [apply gives_ret; split; [done|apply same_releases_refl]|].
  apply gives_self. destruct (pd_releases c !! i) as [x|] eqn:Hx; [|apply gives_ret; split; [done|apply same_releases_refl]].
  eapply gives_bind; [by apply poll_release_gives|]. intros out c1 r1 [H1 S1]. eapply gives_bind; [by apply IH|]. intros rest c2 r2 [H2 S2].
  apply gives_ret. split; [done|]. by eapply same_releases_trans.
Qed.
Lemma filter_len {A} (p : A -> bool) l : len (List.filter p l) <= len l.
Proof. induction l as [|x l IH]; [done|]. cbn [List.filter]. destruct (p x); rewrite ?len_cons; lia. Qed.
Lemma filter_Forall {A} (P : A -> Prop) p (l : list A) : Forall P l -> Forall P (List.filter p l).
Proof. induction 1 as [|x l Hx _ IH]; cbn; [constructor|]. destruct (p x); [by constructor|done]. Qed.
Lemma poll_releases_gives now source duid c r : is_u64 now -> pd_wf c ->
  gives (poll_releases now source duid) (c, r) (fun _ c' => pd_wf c' /\ same_but_releases c c').
Proof.
  intros Hn Hc. unfold poll_releases. apply gives_self. eapply gives_bind; [by apply release_rounds_gives|]. intros out c1 r1 [H1 S1].
  apply gives_step, gives_ret. destruct (pw_releases _ H1) as [Hl Hf]. split; [|eapply same_releases_trans; [exact S1|by eexists]].
  apply with_releases; [done|pose proof (filter_len (fun r => (ex_count (rl_exchange r) <? 4) || (now <? ex_next (rl_exchange r))) (pd_releases c1)); lia|by apply filter_Forall].
Qed.
Lemma exchange_state c e : pd_wf c -> pd_exchange c = Some e -> pd_state c <> Bound /\ pd_state c <> Dormant.
Proof. intros Hc E. pose proof (pw_bound _ Hc) as Hb. split; intros S; rewrite Hb in E; auto; done. Qed.
(** What is sent waits as RFC 9915 asks for. *)
Definition waiting (now : Z) (e : Exchange) (c c' : PdClient) : Prop :=
  pd_wf c' /\ pd_leases c' = pd_leases c /\ pd_state c' = pd_state c /\
  exists e', pd_exchange c' = Some e' /\ ex_next e' = now + ex_interval e' /\ wait_ok e (max_interval e c) (ex_interval e').
Lemma poll_exchange_gives e now source duid c r : 0 <= now <= u64_max - longest_wait -> pd_wf c -> pd_exchange c = Some e ->
  gives (poll_exchange e now source duid) (c, r) (fun _ => waiting now e c).
Proof.
  intros Hn Hc He. destruct (pw_exchange _ Hc _ He) as [Hx Hint Hcnt Hi]. destruct (exchange_state c e Hc He) as [Hs1 Hs2].
  unfold longest_wait in *. unfold poll_exchange. apply gives_self.
  eapply gives_bind; [apply (gives_yields _ (fun _ => True) _ _ (fun _ c' => c' = c)); [apply yields_send|done|done]|]. intros packet c' r' ->.
  assert (30000 <= max_interval e c <= 86400000) as Hm.
  { pose proof (pw_sol_max_rt _ Hc). unfold max_interval. destruct (_ =? 1); [lia|]. destruct (_ || _); lia. }
  eapply gives_bind; [apply retransmission_gives; [done| |by right]|]. { intros E. specialize (Hi E). u_lia. } intros rt c' r2 (-> & Hrt & Hmax & Hok).
  specialize (Hmax ltac:(lia)). specialize (Hok ltac:(u_lia)). unfold longest_wait in *. apply gives_step.
  unfold add_chk. destruct (Z.leb_spec (now + rt) u64_max); [|u_lia]. set (c1 := set_exchange _ c).
  eapply (gives_bind _ _ _ (fun n c' => c' = c1 /\ n = now + rt)); [by apply gives_lift|]. intros n c' r3 [-> ->]. cbv zeta. apply gives_step.
  set (e' := sent e rt (now + rt) (sat_add u8_max (ex_count e) 1)). assert (pd_wf (set_exchange (Some e') c1)) as Hw.
  { apply (with_exchange e' c); try done. split; cbn; [done|unfold longest_wait; lia|u_lia|lia]. }
  eapply (gives_bind _ _ _ (fun _ c' => pd_wf c' /\ pd_leases c' = pd_leases c /\ pd_state c' = pd_state c /\ pd_exchange c' = Some e')).
  - apply gives_if; intros _; [apply gives_update; split; [by apply with_fallback|done]|by apply gives_ret].
  - intros u c' r4 (W & L & S & X). apply gives_ret. do 3 (split; [done|]). by exists e'.
Qed.

Lemma pd_poll_gives now source duid c r : 0 <= now <= u64_max - longest_wait -> pd_wf c ->
  gives (poll now source duid) (c, r) (fun _ c' => pd_wf c' /\ pd_leases c' = pd_leases c).
Proof.
  intros Hn Hc. assert (is_u64 now) as Hn' by (unfold longest_wait in *; u_lia). unfold poll. apply gives_self.
  eapply (gives_bind _ _ _ (fun _ c' => pd_wf c' /\ pd_leases c' = pd_leases c)).
  { apply gives_if; [intros [[_ Ho%negb_true_iff%Z.eqb_neq]%andb_true_iff _]%andb_true_iff|intros _; by apply gives_ret].
    eapply gives_weaken; [apply choose_gives; [done|done|by intros E; rewrite E in Ho]|]. intros u c' (? & _ & ?). done. }
  intros u1 c1 r1 [W1 L1]. apply gives_self. eapply (gives_bind _ _ _ (fun _ c' => pd_wf c' /\ pd_leases c' = pd_leases c)).
  { apply gives_if; intros _; [|by apply gives_ret]. eapply gives_weaken; [apply start_gives; [exact Hn|done]|]. intros u c' (? & _ & _ & E & _). split; [done|by rewrite E, L1]. }
  intros u2 c2 r2 [W2 L2]. eapply gives_bind; [by apply poll_releases_gives|]. intros out c3 r3 [W3 (l & E3)].
  assert (pd_leases c3 = pd_leases c) as L3 by by rewrite E3. apply gives_self. destruct (pd_exchange c3) as [e|] eqn:He; [|by apply gives_ret].
  apply gives_if; intros _; [by apply gives_ret|]. eapply gives_bind; [apply poll_exchange_gives; [exact Hn|done|done]|]. intros o c4 r4 (W4 & L4 & _). apply gives_ret. split; [done|by rewrite L4, L3].
Qed.

(** ** Leases *)

End client.
Lemma entries_perm m : entries m ≡ₚ map_to_list m.
Proof. apply merge_sort_Permutation. Qed.
Lemma entries_in m k l : In (k, l) (entries m) <-> m !! k = Some l.
Proof. by rewrite <-list_elem_of_In, entries_perm, elem_of_map_to_list. Qed.
Lemma foldl_some_in {A} (f : option A -> A -> option A) (l : list A) (o : option A) x :
  (forall b y, f b y = b \/ f b y = Some y) -> foldl f o l = Some x -> o = Some x \/ In x l.
Proof.
  intros Hf. revert o. induction l as [|y l IH]; intros o; cbn [foldl]; [by left|]. intros E. destruct (IH _ E) as [Hb|]; [|by right; right].
  destruct (Hf o y) as [E'|E']; rewrite E' in Hb; [by left|right; left; congruence].
Qed.
Lemma preferable_or b kl : preferable b kl = b \/ preferable b kl = Some kl.
Proof. unfold preferable. destruct b as [b|]; [|by right]. destruct (_ || _); [by left|by right]. Qed.
Lemma best_lease_in now u m kl : best_lease now u m = Some kl -> m !! kl.1 = Some kl.2 /\ selectable now u kl = true.
Proof.
  unfold best_lease. intros E. apply foldl_some_in in E as [E|E]; [done| |apply preferable_or]. apply filter_In in E as [E Hs].
  split; [|done]. destruct kl as [k l]. by apply entries_in.
Qed.
Lemma selected_in now c k : In k (selected now c) -> is_Some (pd_leases c !! k).
Proof.
  unfold selected. destruct (match pd_fallback_at c with Some t => t <=? now | None => false end); [by intros []|].
  intros Hin. apply in_concat in Hin as (x & Hx & Hin). apply in_map_iff in Hx as (u & <- & _).
  destruct (best_lease now u (pd_leases c)) as [kl|] eqn:E; [|by destruct Hin]. destruct Hin as [<-|[]]. apply best_lease_in in E as [E _]. by exists kl.2.
Qed.
Lemma mark_used_ok keys m : (forall k, In k keys -> is_Some (m !! k)) ->
  exists m', mark_used keys m = Ok m' /\ dom m' = dom m /\ (forall P : LeaseKey -> Lease -> Prop, (forall k l, P k l -> P k (use_lease l)) -> map_Forall P m -> map_Forall P m').
Proof.
  revert m. induction keys as [|k keys IH]; intros m Hk; cbn [mark_used]; [by exists m|]. destruct (Hk k ltac:(by left)) as [l Hl]. rewrite Hl. cbn [unwrap mbind outcome_bind].
  destruct (IH (<[k := use_lease l]> m)) as (m' & E & Hd & HP).
  - intros k' Hk'. destruct (decide (k = k')) as [->|Hne]; [rewrite lookup_insert_eq; by eexists|rewrite lookup_insert_ne by done; apply Hk; by right].
  - exists m'. split; [done|]. split; [rewrite Hd, dom_insert_lookup_L; [done|by eexists]|]. intros P Huse Hm. apply HP; [done|].
    apply map_Forall_insert_2; [apply Huse; by apply (Hm k)|done].
Qed.
Lemma acquired_step (m : gmap LeaseKey Lease) server now sh a d :
  dom (install_one server now sh (m, a) d).1 =
  (if dg_valid d =? 0 then dom m ∖ {[ (dg_iaid d, dg_prefix d) ]} else dom m ∪ {[ (dg_iaid d, dg_prefix d) ]}).
Proof. unfold install_one. destruct (_ =? 0); cbn [fst]; [apply dom_delete_L|]. rewrite dom_insert_L. set_solver. Qed.
Lemma install_dom server now ds leases : dom (install_all server now ds leases) = acquired_keys leases ds.
Proof.
  unfold install_all, acquired_keys. generalize (shortest_preferred ds). intros sh.
  assert (forall m a, dom (foldl (install_one server now sh) (m, a) ds).1 =
    foldl (fun s d => let key := (dg_iaid d, dg_prefix d) in if dg_valid d =? 0 then s ∖ {[ key ]} else s ∪ {[ key ]}) (dom m) ds) as Hg; [|apply Hg].
  induction ds as [|d ds IH]; intros m a; cbn [foldl]; [done|]. pose proof (acquired_step m server now sh a d) as Hs.
  destruct (install_one server now sh (m, a) d) as [m' a']. rewrite IH. cbn [fst] in Hs. rewrite Hs. cbv zeta. by destruct (dg_valid d =? 0).
Qed.
Lemma install_wf server now ds leases : Forall delegation_ok ds -> map_Forall lease_wf leases -> map_Forall lease_wf (install_all server now ds leases).
Proof.
  intros Hds Hl. unfold install_all. generalize (shortest_preferred ds). intros sh.
  assert (forall m a, map_Forall lease_wf m -> map_Forall (fun i x => as_iaid x = i) a -> map_Forall lease_wf (foldl (install_one server now sh) (m, a) ds).1) as Hg; [|apply Hg; [done|apply map_Forall_empty]].
  induction Hds as [|d ds Hd _ IH]; intros m a Hm Ha; cbn [foldl]; [done|]. unfold install_one at 2. destruct (dg_valid d =? 0).
  - apply IH; [by apply map_Forall_delete|done].
  - assert (as_iaid (match a !! dg_iaid d with Some x => x | None => new_association server now (match sh !! dg_iaid d with Some p => p | None => 1 end) d end) = dg_iaid d) as Hi.
    { destruct (a !! dg_iaid d) as [x|] eqn:E; [by apply (Ha _ _ E)|done]. }
    apply IH; apply map_Forall_insert_2; try done. split; cbn; [by split; [apply Hd|]|apply Hd].
Qed.
Lemma live_leases_wf now m : map_Forall lease_wf m -> map_Forall lease_wf (live_leases now m).
Proof. intros Hm k l Hk. apply map_lookup_filter_Some in Hk as [Hk _]. by apply Hm. Qed.
Lemma unused_in m k l : In (k, l) (unused m) <-> m !! k = Some l /\ ls_used l = false.
Proof. unfold unused. rewrite filter_In, entries_in. cbn. by rewrite negb_true_iff. Qed.
Lemma slen_dom (m : gmap LeaseKey Lease) : slen m = Z.of_nat (size (dom m)).
Proof. unfold slen. by rewrite size_dom. Qed.

Section replies.
Context {R : Type} `{Sampler R} `{!ByteSource R}.
#[local] Abbreviation gives := (gives (S:=PdClient) (R:=R) pd_wf).
#[local] Abbreviation MP := (M (PdClient * R) io_error).

(** A prefix on its way back to its server. *)
Definition returned (server : bytes) (k : LeaseKey) (c : PdClient) : Prop :=
  exists r d, In r (pd_releases c) /\ ex_server (rl_exchange r) = server /\ In d (rl_prefixes r) /\ (dg_iaid d, dg_prefix d) = k.
(** After a reply what the client holds or is given is in use or returned. *)
Definition settled (m : Message) (now : Z) (c c' : PdClient) : Prop :=
  pd_state c' = Bound /\ (forall k l, pd_leases c' !! k = Some l -> ls_used l = true) /\
  (forall k, k ∈ acquired_keys (live_leases now (pd_leases c)) (ms_delegations m) -> is_Some (pd_leases c' !! k) \/ returned (ms_server m) k c').
Lemma finish_wf c : pd_wf c -> pd_wf (set_exchange None (set_state Bound c)).
Proof. intros []. by split; unset. Qed.
Lemma finish_gives c c' r : c' = set_exchange None (set_state Bound c) -> gives finish (c, r) (fun _ x => x = c').
Proof. by intros ->. Qed.
Lemma keep_used_settled (server : bytes) (now : Z) (leases : gmap LeaseKey Lease) xid c k : k ∈ dom leases ->
  is_Some (keep_used leases !! k) \/
  (unused leases <> [] /\ returned server k (set_releases (pd_releases c ++ [mkRelease (mkExchange 8 xid now now 1000 0 server) (map (lease_delegation now) (unused leases))]) c)).
Proof.
  intros [l Hl]%elem_of_dom. destruct (ls_used l) eqn:Hu; [left; exists l; by apply map_lookup_filter_Some|right].
  assert (In (k, l) (unused leases)) as Hin by by apply unused_in. split; [by intros E; rewrite E in Hin|].
  exists (mkRelease (mkExchange 8 xid now now 1000 0 server) (map (lease_delegation now) (unused leases))), (lease_delegation now (k, l)).
  split; [apply in_app_iff; right; by left|]. split; [done|]. split; [by apply in_map|]. destruct k as [i p]. done.
Qed.
Lemma keep_used_wf m : map_Forall lease_wf m -> map_Forall lease_wf (keep_used m) /\ slen (keep_used m) <= slen m.
Proof.
  intros Hm. split; [|apply slen_filter]. intros k l Hk. apply map_lookup_filter_Some in Hk as [Hk _]. by apply Hm.
Qed.
Lemma install_gives m now c r : 0 <= now <= u64_max - longest_wait -> message6_ok m -> pd_wf c -> pd_state c <> Bound -> pd_state c <> Dormant ->
  gives (install m now) (c, r) (fun _ c' => pd_wf c' /\ (ms_status m = 0 -> settled m now c c')).
Proof.
  intros Hn Hm Hc Hs1 Hs2. unfold install. apply gives_self.
  apply gives_if; [intros [Hst%Z.eqb_eq _]%andb_true_iff|intros _].
  { apply gives_step. assert (pd_wf (set_state Requesting c)) as Hc1 by by apply with_state.
    eapply gives_weaken; [by apply begin_gives|]. intros u c' Hb. split; [eapply begun_wf; [exact Hc1|done|done|exact Hb]|by rewrite Hst]. }
  apply gives_if; [intros [Hst%Z.eqb_eq _]%andb_true_iff|intros _].
  { eapply gives_weaken; [apply start_gives; [exact Hn|done]|]. intros u c' [Hw _]. split; [done|by rewrite Hst]. }
  apply gives_if; [intros Hst%negb_true_iff%Z.eqb_neq; apply gives_ret; by split|intros _].
  apply gives_step. set (c1 := set_leases (live_leases now (pd_leases c)) c). apply gives_self.
  destruct (pw_leases _ Hc) as [Hlen Hall]. assert (pd_wf c1) as Hc1.
  { apply with_leases; [done| |by apply live_leases_wf]. pose proof (slen_filter (fun kl => live (ls_valid (snd kl)) now = true) (pd_leases c)) as Hf. unfold live_leases. lia. }
  destruct (mso_delegations _ Hm) as [_ Hds].
  apply gives_if; intros Hcap.
  { eapply (gives_bind _ _ _ (fun _ => pd_wf)).
    - apply queue_release_gives; [done|done|]. intros xid _ Hx Hroom. by apply release_added.
    - intros u c2 r2 H2. eapply gives_bind; [apply finish_gives; exact eq_refl|]. intros u2 c3 r3 ->. apply gives_throw. by apply finish_wf. }
  apply Z.ltb_ge in Hcap. do 2 apply gives_step. apply gives_self. set (c2 := set_fallback_at None _).
  set (leases1 := install_all (ms_server m) now (ms_delegations m) (pd_leases c1)).
  assert (map_Forall lease_wf leases1) as Hw1 by (apply install_wf; [done|apply Hc1]).
  assert (slen leases1 <= 16) as Hl1 by (rewrite slen_dom; unfold leases1; rewrite install_dom; lia).
  destruct (mark_used_ok (selected now c2) leases1) as (leases2 & Hmark & Hdom & Hkeep); [intros k Hk; by apply (selected_in now c2)|].
  change (pd_leases c2) with leases1. rewrite Hmark.
  eapply (gives_bind _ _ _ (fun x c' => x = leases2 /\ c' = c2)); [by apply gives_lift|]. intros x c' r' [-> ->]. apply gives_step.
  assert (map_Forall lease_wf leases2) as Hw2 by (apply Hkeep; [by intros k l []|done]).
  destruct (keep_used_wf leases2 Hw2) as [Hw3 Hl3]. assert (slen leases2 <= 16) as Hl2 by (rewrite slen_dom, Hdom, <-slen_dom; done).
  set (c3 := set_leases (keep_used leases2) c2). assert (pd_wf c3) as Hc3.
  { apply with_leases; [apply with_fallback, with_leases; done|lia|done]. }
  assert (forall k, k ∈ acquired_keys (live_leases now (pd_leases c)) (ms_delegations m) -> k ∈ dom leases2) as Hin.
  { intros k Hk. rewrite Hdom. unfold leases1. by rewrite install_dom. }
  assert (forall k l, keep_used leases2 !! k = Some l -> ls_used l = true) as Hused by (intros k l Hk; by apply map_lookup_filter_Some in Hk as [_ Hk]).
  eapply (gives_bind _ _ _ (fun _ c' => pd_wf c' /\ pd_leases c' = keep_used leases2 /\ forall k, k ∈ dom leases2 -> is_Some (keep_used leases2 !! k) \/ returned (ms_server m) k c')).
  - apply queue_release_gives; [done| |].
    + intros E. split; [done|]. split; [done|]. intros k Hk. destruct (keep_used_settled (ms_server m) now leases2 [] c3 k Hk) as [|[Hne _]]; [by left|].
      destruct (unused leases2); done.
    + intros xid _ Hx Hroom. split; [by apply release_added|]. split; [done|]. intros k Hk.
      destruct (keep_used_settled (ms_server m) now leases2 xid c3 k Hk) as [|[_ Hr]]; [by left|by right].
  - intros u c4 r4 (W4 & L4 & R4). apply gives_step. eapply gives_bind; [apply finish_gives; exact eq_refl|]. intros u2 c5 r5 ->. apply gives_update.
    split; [apply with_requested, finish_wf, with_fallback; done|]. intros _. split; [done|]. unset. rewrite L4. split; [exact Hused|].
    intros k Hk. apply R4. by apply Hin.
Qed.
Lemma advertise_gives m now allowed c r : is_u64 now -> message6_ok m -> pd_wf c -> pd_state c = Soliciting ->
  gives (advertise m now allowed) (c, r) (fun _ => pd_wf).
Proof.
  intros Hn Hm Hc Hs. unfold advertise. eapply (gives_bind _ _ _ (fun _ c' => pd_wf c' /\ pd_state c' = Soliciting)).
  { destruct (ms_sol_max_rt m) as [max|] eqn:Hmax; [|by apply gives_ret]. apply gives_update. split; [|done]. pose proof (mso_sol_max_rt _ Hm _ Hmax) as Hr.
    pose proof (pw_seen _ Hc) as Hseen. unfold see_sol_max_rt. apply with_seen; [done| |].
    - destruct (pd_sol_max_rt_seen c) as [[p|]|]; [destruct (p =? max)|..]; lia.
    - intros k. destruct (pd_sol_max_rt_seen c) as [[p|]|]; [destruct (p =? max)|..]; try done; intros [= <-]; lia. }
  intros u c1 r1 [H1 S1]. apply gives_if; [intros _; by apply gives_ret|]. intros [_ Hu%negb_false_iff]%orb_false_iff. apply gives_self.
  apply gives_if; [intros _; by apply gives_throw|]. intros Hroom%Z.leb_gt. apply gives_step. set (c2 := set_offers _ c1).
  assert (pd_wf c2) as Hc2.
  { apply with_offers; [done|rewrite len_app; change (len [_]) with 1; lia|]. apply List.Forall_app. split; [apply H1|]. constructor; [|constructor].
    split; [apply filter_Forall, Hm|]. cbn [of_delegations]. intros E. by rewrite E in Hu. }
  apply gives_if; intros _; [|by apply gives_ret]. eapply gives_weaken; [apply choose_gives; [done|done|]|by intros ? ? []].
  unfold c2. unset. by destruct (pd_offers c1).
Qed.
Lemma pd_receive_message_gives m duid now allowed c r : 0 <= now <= u64_max - longest_wait -> message6_ok m -> pd_wf c ->
  gives (receive_message m duid now allowed) (c, r) (fun _ => pd_wf).
Proof.
  intros Hn Hm Hc. unfold receive_message. eapply (gives_bind _ _ _ (fun _ => pd_wf)).
  { apply gives_if; intros _; [|by apply gives_ret]. apply gives_update. destruct (pw_releases _ Hc) as [Hl Hf].
    apply with_releases; [done|pose proof (filter_len (fun r => negb (released m r)) (pd_releases c)); lia|by apply filter_Forall]. }
  intros u c1 r1 H1. apply gives_self. destruct (pd_exchange c1) as [e|] eqn:He; [|by apply gives_ret].
  destruct (exchange_state c1 e H1 He) as [Hs1 Hs2]. apply gives_if; [intros _; by apply gives_ret|intros _].
  apply gives_if; intros Hk.
  - eapply gives_weaken; [apply install_gives; [exact Hn|done..]|]. by intros ? ? [].
  - apply gives_if; [intros [Hs%bool_decide_eq_true _]%andb_true_iff|intros _; by apply gives_ret].
    assert (is_u64 now) as Hn' by (unfold longest_wait in *; u_lia). apply advertise_gives; [exact Hn'|done|done|done].
Qed.
Lemma udp_payload_bytes e : envelope_wf e -> yields is_bytes (udp_payload e).
Proof.
  intros He. unfold udp_payload. eapply yields_bind; [apply (yields_of_safe (fun t => is_bytes (t_bytes t))); [by apply transport_safe|intros t Ht; by eapply transport_bytes]|].
  intros t Ht. y_bind. apply orb_false_iff in Hc as [_ Hc%Z.ltb_ge]. do 2 y_bind. do 2 y_bind. do 2 y_bind. y_bind.
  eapply yields_weaken; [apply yields_slice_from; [done|lia]|]. by intros a [].
Qed.
Lemma receive_with_policy_gives e duid now allowed c r : 0 <= now <= u64_max - longest_wait -> envelope_wf e -> pd_wf c ->
  gives (receive_with_policy e duid now allowed) (c, r) (fun _ => pd_wf).
Proof.
  intros Hn He Hc. unfold receive_with_policy. pose proof (udp_payload_bytes e He) as Hb. destruct (udp_payload e) as [b|x|]; [|by apply gives_ret|done].
  pose proof (decode6_ok b Hb) as Hm. destruct (decode b) as [m|x|]; [|by apply gives_ret|done].
  apply pd_receive_message_gives; [exact Hn|done|done].
Qed.
Lemma foldl_earlier m : m <> ∅ -> exists l, foldl earlier None (entries m) = Some l.
Proof.
  intros Hm. assert (forall es b, exists l, foldl earlier (Some b) es = Some l) as Hf.
  { induction es as [|x es IH]; intros b; cbn [foldl]; [by exists b|]. unfold earlier at 2. destruct (lifetime_ltb _ _); apply IH. }
  destruct (entries m) as [|x es] eqn:E; [|apply Hf]. exfalso. apply Hm. pose proof (entries_perm m) as Hp. rewrite E in Hp.
  apply Permutation_nil in Hp. by apply map_to_list_empty_iff.
Qed.
Lemma refresh_gives kind now c r : pd_wf c -> gives (refresh kind now) (c, r) (fun _ => pd_wf).
Proof.
  intros Hc. unfold refresh. apply gives_self. apply gives_if; [intros _; by apply gives_ret|]. intros [Hne%Z.eqb_neq _]%orb_false_iff.
  eapply (gives_bind _ _ _ (fun _ c' => c' = c)).
  { apply gives_if; intros _; [|by apply gives_ret]. destruct (foldl_earlier (pd_leases c)) as [l ->].
    - intros E. apply Hne. by rewrite E.
    - eapply (gives_bind _ _ _ (fun _ c' => c' = c)); [by apply gives_lift|]. intros x c' r' ->. by apply gives_ret. }
  intros server c' r' ->. do 2 apply gives_step. set (c1 := set_state _ _). assert (pd_wf c1 /\ pd_state c1 <> Bound /\ pd_state c1 <> Dormant) as (H1 & S1 & S2).
  { unfold c1. unset. split; [apply with_state; [by apply with_requested|..]; by destruct (kind =? 5)|]. by destruct (kind =? 5). }
  eapply gives_weaken; [by apply begin_gives|]. intros u c2 Hb. eapply begun_wf; [exact H1|done|done|exact Hb].
Qed.
Lemma advance_gives now c r : 0 <= now <= u64_max - longest_wait -> pd_wf c -> gives (advance now) (c, r) (fun _ => pd_wf).
Proof.
  intros Hn Hc. unfold advance. apply gives_step. set (c1 := set_leases _ c). destruct (pw_leases _ Hc) as [Hlen Hall]. assert (pd_wf c1) as H1.
  { apply with_leases; [done| |by apply live_leases_wf]. pose proof (slen_filter (fun kl => live (ls_valid (snd kl)) now = true) (pd_leases c)) as Hf. unfold live_leases. lia. }
  apply gives_self. eapply (gives_bind _ _ _ (fun _ => pd_wf)).
  { apply gives_if; intros _; [|by apply gives_ret]. eapply gives_weaken; [apply start_gives; [exact Hn|done]|]. by intros ? ? []. }
  intros u c2 r2 H2. apply gives_self. do 2 (apply gives_if; intros _; [by apply refresh_gives|]). by apply gives_ret.
Qed.
End replies.
