(* ===== verification/PdFacts.v ===== *)
(** Theorems of the prefix delegation client. *)

From S2P Require Import Prelude Effects Time Wire WireFacts Maps Observations Stateful Dhcp6Wire Pd PdInv.

(** ** Histories *)

Inductive Event :=
  | Start (now : Z)
  | Poll (now source : Z) (duid : bytes)
  | Receive (e : Envelope) (duid : bytes) (now : Z) (allowed : Prefix -> bool)
  | Advance (now : Z)
  | Refresh (kind now : Z)
  | Reserve (xid : option bytes).
Definition in_time (now : Z) : Prop := 0 <= now <= u64_max - longest_wait.
Definition event_ok (e : Event) : Prop :=
  match e with
  | Start now | Poll now _ _ | Advance now | Refresh _ now => in_time now
  | Receive e _ now _ => in_time now /\ envelope_wf e
  | Reserve _ => True
  end.
Section history.
Context {R : Type} `{Sampler R} `{!ByteSource R}.
Definition run_event (e : Event) : M (PdClient * R) io_error (list bytes) :=
  match e with
  | Start now => start now ;; mret []
  | Poll now source duid => poll now source duid
  | Receive e duid now allowed => receive_with_policy e duid now allowed ;; mret []
  | Advance now => advance now ;; mret []
  | Refresh kind now => refresh kind now ;; mret []
  | Reserve xid => update (reserve_xid xid) ;; mret []
  end.
#[local] Abbreviation gives := (gives (S:=PdClient) (R:=R) pd_wf).
Lemma pd_gives_then c r (m : M (PdClient * R) io_error unit) : gives m (c, r) (fun _ => pd_wf) -> gives (m ;; mret []) (c, r) (fun _ : list bytes => pd_wf).
Proof. intros Hm. eapply gives_bind; [exact Hm|]. intros u c' r' Hc'. by apply gives_ret. Qed.
Lemma pd_event_gives e c r : event_ok e -> pd_wf c -> gives (run_event e) (c, r) (fun _ => pd_wf).
Proof.
  intros He Hc. destruct e as [now|now source duid|x duid now allowed|now|kind now|xid]; cbn [event_ok run_event] in *.
  - apply pd_gives_then. eapply gives_weaken; [apply start_gives; [exact He|done]|]. by intros ? ? [].
  - eapply gives_weaken; [apply pd_poll_gives; [exact He|done]|]. by intros ? ? [].
  - destruct He as [Hn Hx]. apply pd_gives_then, receive_with_policy_gives; [exact Hn|done|done].
  - apply pd_gives_then, advance_gives; [exact He|done].
  - by apply pd_gives_then, refresh_gives.
  - apply pd_gives_then, gives_update. destruct Hc. by split; unset.
Qed.
End history.

(** ** The selection *)

(** [a] is preferred at least as long as [b], and of equals has the smaller key. *)
Definition at_least (a b : LeaseKey * Lease) : Prop :=
  lifetime_ltb (ls_preferred a.2) (ls_preferred b.2) = false /\ (ls_preferred a.2 = ls_preferred b.2 -> key_leb a.1 b.1 = true).
Lemma key_leb_trans a b c : key_leb a b = true -> key_leb b c = true -> key_leb a c = true.
Proof. unfold key_leb, prefix_leb. destruct a as [? []], b as [? []], c as [? []]. cbn. lia. Qed.
Lemma key_leb_total a b : key_leb a b = true \/ key_leb b a = true.
Proof. unfold key_leb, prefix_leb. destruct a as [? []], b as [? []]. cbn. lia. Qed.
Lemma at_least_trans a b c : at_least a b -> at_least b c -> at_least a c.
Proof.
  intros [H1 H2] [H3 H4]. split.
  - destruct (ls_preferred a.2), (ls_preferred b.2), (ls_preferred c.2); cbn in *; try done; lia.
  - intros E. assert (ls_preferred a.2 = ls_preferred b.2) as E1; [|apply (key_leb_trans _ b.1); [by apply H2|apply H4; congruence]].
    destruct (ls_preferred a.2), (ls_preferred b.2), (ls_preferred c.2); cbn in *; try done; injection E as <-; f_equal; lia.
Qed.
Lemma at_least_refl a : at_least a a.
Proof. split; [destruct (ls_preferred a.2); cbn; [lia|done]|]. intros _. by destruct (key_leb_total a.1 a.1). Qed.
Lemma key_leb_antisym a b : key_leb a b = true -> key_leb b a = true -> a = b.
Proof.
  unfold key_leb, prefix_leb. destruct a as [i [x n]], b as [j [y m]]. cbn. intros H1 H2.
  assert (i = j /\ x = y /\ n = m) as (-> & -> & ->) by lia. done.
Qed.
Lemma at_least_antisym a b : at_least a b -> at_least b a -> a.1 = b.1.
Proof.
  intros [H1 H2] [H3 H4]. assert (ls_preferred a.2 = ls_preferred b.2) as E; [|by apply key_leb_antisym; [apply H2|apply H4]].
  destruct (ls_preferred a.2), (ls_preferred b.2); cbn in *; try done. f_equal. lia.
Qed.
Lemma preferable_at_least b x r : preferable (Some b) x = Some r -> at_least r b /\ at_least r x.
Proof.
  unfold preferable, at_least. destruct (lifetime_ltb (ls_preferred x.2) (ls_preferred b.2)) eqn:El; cbn [orb].
  - intros [= <-]. split; [apply at_least_refl|]. destruct (ls_preferred b.2), (ls_preferred x.2); cbn in *; try done; split; try lia; try done; intros [= ->]; lia.
  - case_bool_decide as Ee; cbn [andb].
    + destruct (key_leb x.1 b.1) eqn:Ek; cbn [negb]; intros [= <-].
      * split; [|apply at_least_refl]. by rewrite <-Ee, El, Ek in *.
      * split; [apply at_least_refl|]. rewrite Ee in *. split; [done|]. intros _. by destruct (key_leb_total b.1 x.1); [|congruence].
    + intros [= <-]. split; [done|apply at_least_refl].
Qed.
Lemma best_lease_best now u m :
  match best_lease now u m with
  | Some kl => m !! kl.1 = Some kl.2 /\ selectable now u kl = true /\ forall k l, m !! k = Some l -> selectable now u (k, l) = true -> at_least kl (k, l)
  | None => forall k l, m !! k = Some l -> selectable now u (k, l) = false
  end.
Proof.
  destruct (best_lease now u m) as [kl|] eqn:E.
  - destruct (best_lease_in _ _ _ _ E) as [H1 H2]. split; [done|]. split; [done|]. intros k l Hk Hs.
    assert (In (k, l) (List.filter (selectable now u) (entries m))) as Hin by (apply filter_In; split; [by apply entries_in|done]).
    unfold best_lease in E. revert E Hin. generalize (List.filter (selectable now u) (entries m)). intros es.
    assert (forall es b, foldl preferable (Some b) es = Some kl -> at_least kl b /\ forall x, In x es -> at_least kl x) as Hf.
    { clear. induction es as [|x es IH]; intros b; cbn [foldl]; [intros [= <-]; split; [apply at_least_refl|by intros ? []]|].
      destruct (preferable (Some b) x) as [r|] eqn:Er; [|unfold preferable in Er; by destruct (_ || _)].
      intros Ek. destruct (IH r Ek) as [Hr Hx]. destruct (preferable_at_least b x r Er) as [Hb Hx']. split; [by eapply at_least_trans|].
      intros y [<-|Hy]; [by eapply at_least_trans|by apply Hx]. }
    destruct es as [|x es]; [by intros _ []|]. cbn [foldl]. intros Ek [<-|Hin]; [exact (proj1 (Hf es x Ek))|exact (proj2 (Hf es x Ek) _ Hin)].
  - intros k l Hk. apply not_true_iff_false. intros Hs.
    assert (In (k, l) (List.filter (selectable now u) (entries m))) as Hin by (apply filter_In; split; [by apply entries_in|done]).
    unfold best_lease in E. revert E Hin. generalize (List.filter (selectable now u) (entries m)). intros es.
    assert (forall es b, foldl preferable (Some b) es <> None) as Hg.
    { clear. induction es as [|y es IH]; intros b; cbn [foldl]; [done|]. destruct (preferable (Some b) y) as [r|] eqn:Er; [apply IH|unfold preferable in Er; by destruct (_ || _)]. }
    destruct es as [|x es]; [by intros _ []|]. intros Ek. by apply (Hg es x) in Ek.
Qed.

(** ** Theorems *)

Section theorems.
Context {R : Type} `{Sampler R} `{!ByteSource R}.
(** Whatever the client hears, under whatever policy, and whenever it is polled, started or
    refreshed, it does not panic and keeps its invariant: at most sixteen leases, offers and
    releases, all of the two associations and of proper prefixes, no empty offers, waits of
    at most SOL_MAX_RT and a tenth, and no exchange under way while it is bound. *)
Theorem pd_client_safe es (r : R) : Forall event_ok es -> exists st, run_all run_event es (pd_default, r) = Some st /\ pd_wf st.1.
Proof. intros Hes. apply (run_all_gives event_ok); [intros e c r' He Hc; by apply pd_event_gives|done|apply pd_default_wf]. Qed.
(** After a reply without an error, every prefix that the client held or was given, and that
    was not withdrawn, is in use or on its way back to the server in a release; all leases
    kept are in use, and the client is bound. *)
Theorem pd_reply_settled m now c (r : R) c' r' : in_time now -> message6_ok m -> pd_wf c -> pd_state c <> Bound -> pd_state c <> Dormant ->
  install m now (c, r) = (Ok tt, (c', r')) -> ms_status m = 0 -> settled m now c c'.
Proof.
  intros Hn Hm Hc H1 H2 E Hs. pose proof (install_gives m now c r Hn Hm Hc H1 H2) as Hg. unfold Stateful.gives in Hg. rewrite E in Hg. by apply Hg.
Qed.
(** A message that is sent is sent again when RFC 9915 asks for it: the first wait is its
    initial time and later ones double the one before, up to the largest, each within a tenth
    of jitter; a first Solicit waits a little over a second. *)
Theorem pd_poll_waits e now source duid c (r : R) out c' r' : in_time now -> pd_wf c -> pd_exchange c = Some e ->
  poll_exchange e now source duid (c, r) = (Ok out, (c', r')) -> waiting now e c c'.
Proof.
  intros Hn Hc He E. pose proof (poll_exchange_gives e now source duid c r Hn Hc He) as Hg. unfold Stateful.gives in Hg. by rewrite E in Hg.
Qed.
End theorems.
(** The prefixes selected for use are, of each class, the live lease that is preferred
    longest, the smaller key deciding between equals; a class without a live, usable lease
    selects none, and once rebinding has timed out nothing is selected. *)
Theorem pd_selection now c k : In k (selected now c) <->
  (forall t, pd_fallback_at c = Some t -> now < t) /\
  exists is_ula l, pd_leases c !! k = Some l /\ selectable now is_ula (k, l) = true /\
    forall k' l', pd_leases c !! k' = Some l' -> selectable now is_ula (k', l') = true -> at_least (k, l) (k', l').
Proof.
  unfold selected. assert (match pd_fallback_at c with Some t => t <=? now | None => false end = false <-> (forall t, pd_fallback_at c = Some t -> now < t)) as Hfb.
  { destruct (pd_fallback_at c) as [t|]; split; try done; [intros Ht%Z.leb_gt ? [= <-]; done|intros Ht; apply Z.leb_gt; by apply Ht]. }
  destruct (match pd_fallback_at c with Some t => t <=? now | None => false end); [split; [by intros []|intros [Hn _]; by apply Hfb in Hn]|].
  rewrite in_concat. split.
  - intros (x & Hx & Hin). split; [by apply Hfb|]. apply in_map_iff in Hx as (u & <- & _). pose proof (best_lease_best now u (pd_leases c)) as Hb.
    destruct (best_lease now u (pd_leases c)) as [[k0 l]|]; [|done]. destruct Hin as [<-|[]]. exists u, l. exact Hb.
  - intros [_ (u & l & Hk & Hs & Hbest)]. pose proof (best_lease_best now u (pd_leases c)) as Hb.
    exists (option_list (fst <$> best_lease now u (pd_leases c))). split; [apply (in_map (fun u => option_list (fst <$> best_lease now u (pd_leases c)))); by destruct u; [right|]; left|].
    destruct (best_lease now u (pd_leases c)) as [[k0 l0]|]; [|by rewrite (Hb k l Hk) in Hs]. left. cbn. destruct Hb as (Hk0 & Hs0 & Hb0).
    apply (at_least_antisym (k0, l0) (k, l)); [by apply Hb0|by apply Hbest].
Qed.

(** ** A delegation from the first Solicit to the leases *)

Definition no_entropy : ScriptedRandom := {| values := [] |}.
Definition sample_packet (kind : Z) : bytes :=
  match udp_packet server_address client_address 547 546 (write_reply kind [0; 0; 0] sample_duid server_duid [sample_ia]) with Ok b => b | _ => [] end.
Definition sample_envelope (kind : Z) : Envelope :=
  match envelope RawIpv6 (sample_packet kind) with Ok e => e | _ => mkEnvelope [] [] 0 0 0 0 end.
Definition sample_message : Message := mkMessage 7 [0; 0; 0] sample_duid server_duid 0 None 0 (ia_prefixes sample_ia).
Definition offer_events : list Event :=
  [Start 0; Poll 1000 client_address sample_duid; Receive (sample_envelope 2) sample_duid 1500 (fun _ => true); Poll 2001 client_address sample_duid].
Definition sample_events : list Event := offer_events ++ [Receive (sample_envelope 7) sample_duid 2100 (fun _ => true)].

Lemma sample_envelope_wf : envelope_wf (sample_envelope 2) /\ envelope_wf (sample_envelope 7).
Proof.
  split.
  - apply (envelope_Ok RawIpv6 (sample_packet 2)); [apply bytes_check; vm_compute; reflexivity|vm_compute; reflexivity].
  - apply (envelope_Ok RawIpv6 (sample_packet 7)); [apply bytes_check; vm_compute; reflexivity|vm_compute; reflexivity].
Qed.
Definition requesting_client : PdClient := Eval vm_compute in match run_all run_event offer_events (pd_default, no_entropy) with Some (c, _) => c | None => pd_default end.
Definition soliciting_client : PdClient := Eval vm_compute in match run_all run_event [Start 0] (pd_default, no_entropy) with Some (c, _) => c | None => pd_default end.

Lemma offer_events_ok : Forall event_ok offer_events.
Proof.
  destruct sample_envelope_wf as [H2 _]. unfold offer_events.
  repeat apply List.Forall_cons; [..|constructor]; cbn [event_ok]; unfold in_time, longest_wait; try (split; [|exact H2]); u_lia.
Qed.
Lemma pd_after_wf es c (r : ScriptedRandom) : Forall event_ok es -> run_all run_event es (pd_default, no_entropy) = Some (c, r) -> pd_wf c.
Proof.
  intros Hes E. assert (exists st, run_all run_event es (pd_default, no_entropy) = Some st /\ pd_wf st.1) as (st & E' & Hw).
  { apply (run_all_gives event_ok); [intros e c0 r' He Hc; by apply pd_event_gives|done|apply pd_default_wf]. }
  rewrite E in E'. by injection E' as <-.
Qed.
Lemma requesting_client_wf : pd_wf requesting_client.
Proof. apply (pd_after_wf offer_events _ no_entropy offer_events_ok). vm_compute. reflexivity. Qed.
Lemma soliciting_client_wf : pd_wf soliciting_client.
Proof.
  apply (pd_after_wf [Start 0] _ no_entropy); [|vm_compute; reflexivity]. apply List.Forall_cons; [|constructor]. cbn. unfold in_time, longest_wait. u_lia.
Qed.
Lemma sample_message_ok : message6_ok sample_message.
Proof.
  assert (decode (write_reply 7 [0; 0; 0] sample_duid server_duid [sample_ia]) = Ok sample_message) as E by (vm_compute; reflexivity).
  pose proof (decode6_ok (write_reply 7 [0; 0; 0] sample_duid server_duid [sample_ia]) ltac:(apply bytes_check; vm_compute; reflexivity)) as Hy.
  by rewrite E in Hy.
Qed.
Lemma pd_client_safe_witness : exists st, run_all run_event sample_events (pd_default, no_entropy) = Some st /\ pd_wf st.1.
Proof.
  apply (pd_client_safe sample_events no_entropy). apply List.Forall_app. split; [exact offer_events_ok|].
  apply List.Forall_cons; [|constructor]. cbn [event_ok]. split; [unfold in_time, longest_wait; u_lia|exact (proj2 sample_envelope_wf)].
Defined.
Lemma pd_reply_settled_witness : exists c' r', install sample_message 2100 (requesting_client, no_entropy) = (Ok tt, (c', r')) /\
  settled sample_message 2100 requesting_client c'.
Proof.
  do 2 eexists. split; [vm_compute; reflexivity|].
  eapply (pd_reply_settled sample_message 2100 requesting_client no_entropy); [unfold in_time, longest_wait; u_lia|exact sample_message_ok|exact requesting_client_wf|discriminate|discriminate|vm_compute; reflexivity|reflexivity].
Defined.
Lemma pd_poll_waits_witness : exists e out c' r', pd_exchange soliciting_client = Some e /\
  poll_exchange e 1000 client_address sample_duid (soliciting_client, no_entropy) = (Ok out, (c', r')) /\ waiting 1000 e soliciting_client c'.
Proof.
  do 4 eexists. split; [reflexivity|]. split; [vm_compute; reflexivity|].
  eapply (pd_poll_waits _ 1000 client_address sample_duid soliciting_client no_entropy); [unfold in_time, longest_wait; u_lia|exact soliciting_client_wf|reflexivity|vm_compute; reflexivity].
Defined.
