(* ===== verification/Ordered.v ===== *)
(** Iteration in key order: the entries of a [BTreeMap] as the source's loops see them, and
    the choices [max_by_key] and [min_by_key] make among equals. *)

From S2P Require Import Prelude Maps Wire Observations.

Lemma Forall_In {A} (P : A -> Prop) l x : Forall P l -> In x l -> P x.
Proof. intros Hl Hx. exact (proj1 (List.Forall_forall _ _) Hl x Hx). Qed.

(** The [Ord] of a key type. *)
Class Ordered (K : Type) := key_le : K -> K -> bool.
Class OrderedLaws (K : Type) `{Ordered K} := {
  key_total a b : key_le a b = true \/ key_le b a = true;
  key_trans a b c : key_le a b = true -> key_le b c = true -> key_le a c = true;
  key_antisym a b : key_le a b = true -> key_le b a = true -> a = b;
}.
#[global] Instance Z_ordered : Ordered Z := Z.leb.
#[global] Instance Link_ordered : Ordered Link := fun a b => link_index a <=? link_index b.
#[global] Instance Prefix_ordered : Ordered Prefix := prefix_leb.
(** The derived order of a pair: the first components decide, then the second. *)
#[global] Instance pair_ordered {A B} `{Ordered A, Ordered B} : Ordered (A * B) :=
  fun x y => key_le x.1 y.1 && (negb (key_le y.1 x.1) || key_le x.2 y.2).

#[global] Instance Z_ordered_laws : OrderedLaws Z.
Proof. split; unfold key_le, Z_ordered; intros; lia. Qed.
#[global] Instance Link_ordered_laws : OrderedLaws Link.
Proof.
  split; unfold key_le, Link_ordered.
  - intros a b. destruct a, b; auto.
  - intros a b c. destruct a, b, c; done.
  - intros a b. destruct a, b; done.
Qed.
#[global] Instance Prefix_ordered_laws : OrderedLaws Prefix.
Proof.
  split; unfold key_le, Prefix_ordered, prefix_leb; repeat intros [? ?]; cbn; [lia|lia|].
  intros H1 H2. f_equal; lia.
Qed.
Section pair.
Context {A B : Type} `{OrderedLaws A, OrderedLaws B}.
Lemma pair_le (x y : A * B) : key_le x y = true <-> key_le x.1 y.1 = true /\ (key_le y.1 x.1 = true -> key_le x.2 y.2 = true).
Proof.
  change (key_le x y) with (key_le x.1 y.1 && (negb (key_le y.1 x.1) || key_le x.2 y.2)).
  rewrite andb_true_iff, orb_true_iff, negb_true_iff. destruct (key_le y.1 x.1); naive_solver.
Qed.
#[global] Instance pair_ordered_laws : OrderedLaws (A * B).
Proof.
  split.
  - intros [a b] [a' b']. rewrite !pair_le. cbn. destruct (key_le a a') eqn:E, (key_le a' a) eqn:E'.
    + destruct (key_total b b'); [by left|by right].
    + by left.
    + by right.
    + destruct (key_total a a'); congruence.
  - intros [a b] [a' b'] [a'' b'']. rewrite !pair_le. cbn. intros [H3 H4] [H5 H6]. split; [by eapply key_trans|]. intros H7.
    eapply key_trans; [apply H4|apply H6]; by eapply key_trans.
  - intros [a b] [a' b']. rewrite !pair_le. cbn. intros [H3 H4] [H5 H6]. f_equal; apply key_antisym; auto.
Qed.
End pair.

Definition le_key {K A} `{Ordered K} (x y : K * A) : Prop := key_le x.1 y.1 = true.
#[global] Instance le_key_dec {K A} `{Ordered K} (x y : K * A) : Decision (le_key x y).
Proof. unfold le_key. apply _. Defined.
(** [m.iter()] *)
Definition sorted {K A} `{Countable K, Ordered K} (m : gmap K A) : list (K * A) := merge_sort le_key (map_to_list m).
Definition sorted_keys {K A} `{Countable K, Ordered K} (m : gmap K A) : list K := map fst (sorted m).
Definition sorted_values {K A} `{Countable K, Ordered K} (m : gmap K A) : list A := map snd (sorted m).

(** The members of a [BTreeSet] collected from a list. *)
Definition in_order {K} `{Countable K, Ordered K} (l : list K) : list K :=
  sorted_keys (list_to_map (map (fun k => (k, tt)) l) : gmap K unit).

Section sorted.
Context {K A : Type} `{Countable K, Ordered K}.
Implicit Types (m : gmap K A).
Lemma sorted_perm m : sorted m ≡ₚ map_to_list m.
Proof. apply merge_sort_Permutation. Qed.
Lemma sorted_in m k v : In (k, v) (sorted m) <-> m !! k = Some v.
Proof. rewrite <-list_elem_of_In, sorted_perm, elem_of_map_to_list. done. Qed.
Lemma sorted_NoDup m : NoDup (map fst (sorted m)).
Proof. rewrite sorted_perm. apply NoDup_fst_map_to_list. Qed.
Lemma sorted_length m : len (sorted m) = slen m.
Proof. unfold len, slen. by rewrite sorted_perm, length_map_to_list. Qed.
Lemma sorted_keys_in m k : In k (sorted_keys m) <-> is_Some (m !! k).
Proof.
  unfold sorted_keys. rewrite in_map_iff. split.
  - intros ([k' v] & <- & Hin%sorted_in). by exists v.
  - intros [v Hv]. exists (k, v). by rewrite sorted_in.
Qed.
Lemma sorted_values_in m v : In v (sorted_values m) <-> exists k, m !! k = Some v.
Proof.
  unfold sorted_values. rewrite in_map_iff. split.
  - intros ([k v'] & <- & Hin%sorted_in). by exists k.
  - intros [k Hk]. exists (k, v). by rewrite sorted_in.
Qed.
Lemma sorted_existsb (f : K * A -> bool) m : existsb f (sorted m) = true <-> exists k v, m !! k = Some v /\ f (k, v) = true.
Proof.
  rewrite existsb_exists. split.
  - intros ([k v] & Hin%sorted_in & Hf). by exists k, v.
  - intros (k & v & Hk & Hf). exists (k, v). by rewrite sorted_in.
Qed.
#[global] Instance le_key_trans `{!OrderedLaws K} : Transitive (@le_key K A _).
Proof. intros x y z. apply key_trans. Qed.
#[global] Instance le_key_total `{!OrderedLaws K} : Total (@le_key K A _).
Proof. intros x y. apply key_total. Qed.
Lemma sorted_ordered `{!OrderedLaws K} m : StronglySorted le_key (sorted m).
Proof. apply StronglySorted_merge_sort; apply _. Qed.
End sorted.

Lemma in_order_in {K} `{Countable K, Ordered K} (l : list K) k : In k (in_order l) <-> In k l.
Proof.
  unfold in_order. rewrite sorted_keys_in. split.
  - intros [u Hu]. apply elem_of_list_to_map_2 in Hu. rewrite list_elem_of_In, in_map_iff in Hu. by destruct Hu as (x & [= ->] & Hx).
  - intros Hk. destruct (list_to_map (map (fun k => (k, tt)) l) !! k) as [u|] eqn:E; [by exists u|]. apply not_elem_of_list_to_map in E.
    destruct E. rewrite list_elem_of_In, map_map. by rewrite map_id.
Qed.

(** [iter.max_by_key(key)]: the last of the greatest, [ge x best] says that the key of [x]
    is not below that of [best]. *)
Definition max_by {A} (ge : A -> A -> bool) (l : list A) : option A :=
  foldl (fun best x => match best with Some b => if ge x b then Some x else Some b | None => Some x end) None l.
(** [iter.min_by_key(key)]: the first of the least. *)
Definition min_by {A} (lt : A -> A -> bool) (l : list A) : option A :=
  foldl (fun best x => match best with Some b => if lt x b then Some x else Some b | None => Some x end) None l.
Lemma choice_in {A} (better : A -> A -> bool) l b :
  foldl (fun best x => match best with Some b => if better x b then Some x else Some b | None => Some x end) None l = Some b -> In b l.
Proof.
  enough (forall o, (forall a, o = Some a -> In a l \/ True) ->
    foldl (fun best x => match best with Some b => if better x b then Some x else Some b | None => Some x end) o l = Some b -> In b l \/ o = Some b) as H.
  { intros E. destruct (H None ltac:(done) E) as [|[=]]; done. }
  induction l as [|x l IH]; intros o _; cbn [foldl]; [by right|]. intros E.
  destruct (IH _ ltac:(intros; by right) E) as [|Ho]; [by left; right|].
  destruct o as [a|]; [destruct (better x a)|]; injection Ho as ->; [left; by left|by right|left; by left].
Qed.
Lemma max_by_in {A} (ge : A -> A -> bool) l b : max_by ge l = Some b -> In b l.
Proof. apply choice_in. Qed.
Lemma max_by_none {A} (ge : A -> A -> bool) l : max_by ge l = None -> l = [].
Proof.
  assert (forall l b, foldl (fun best x => match best with Some b => if ge x b then Some x else Some b | None => Some x end) (Some b) l <> None) as H.
  { clear. induction l as [|x l IH]; intros b; cbn [foldl]; [done|]. destruct (ge x b); apply IH. }
  destruct l as [|x l]; [done|]. unfold max_by. cbn [foldl]. intros E. by apply H in E.
Qed.
(** With a total preorder the chosen one is not below any other. *)
Lemma max_by_greatest {A} (ge : A -> A -> bool) l b :
  (forall x y, ge x y = true \/ ge y x = true) -> (forall x y z, ge x y = true -> ge y z = true -> ge x z = true) ->
  max_by ge l = Some b -> forall x, In x l -> ge b x = true.
Proof.
  intros Htot Htr. assert (forall x, ge x x = true) as Hrefl by (intros x; destruct (Htot x x); done).
  assert (forall l b, forall r, foldl (fun best x => match best with Some b => if ge x b then Some x else Some b | None => Some x end) (Some b) l = Some r ->
    ge r b = true /\ forall x, In x l -> ge r x = true) as H.
  { clear -Htot Htr Hrefl. induction l as [|y l IH]; intros b r; cbn [foldl]; [intros [= ->]; split; [apply Hrefl|by intros ? []]|].
    intros E. destruct (ge y b) eqn:Eg; destruct (IH _ _ E) as [H1 H2].
    - split; [by eapply Htr|]. intros x [<-|Hx]; [done|by apply H2].
    - split; [done|]. intros x [<-|Hx]; [|by apply H2]. destruct (Htot y b) as [|Hb]; [congruence|by eapply Htr]. }
  destruct l as [|x l]; [done|]. unfold max_by. cbn [foldl]. intros E. destruct (H _ _ _ E) as [H1 H2]. intros y [<-|Hy]; [done|by apply H2].
Qed.
