(* ===== verification/Identity.v ===== *)
(** The router's identity and its stores ([src/src/persist.rs]): the site prefix, interface
    identifiers, hardware addresses and DUID, drawn once and kept. *)

From S2P Require Import Prelude Effects Maps Time Stateful Checksum Wire Observations.

(** ** One value for each link, [[T; 2]] *)

Record Both (A : Type) := both { of_ail : A; of_stub : A }.
Arguments both {A} _ _.
Arguments of_ail {A} _.
Arguments of_stub {A} _.
Definition at_link {A} (l : Link) (b : Both A) : A := match l with Ail => of_ail b | Stub => of_stub b end.
Definition set_at {A} (l : Link) (v : A) (b : Both A) : Both A :=
  match l with Ail => both v (of_stub b) | Stub => both (of_ail b) v end.

(** ** [Identity] *)

(** [Prefix::new(address, 64).unwrap()], see [prefix_new_64]. *)
Definition net64 (a : Z) : Prefix := mkPrefix (Z.land a (prefix_mask 64)) 64.
Lemma prefix_new_64 a : prefix_new a 64 = Some (net64 a).
Proof. done. Qed.
Definition fe80 : Z := 0xfe800000000000000000000000000000.

Record Identity := mkIdentity {
  id_attachment : bytes;
  id_site : Prefix;
  id_iids : Both Z;
  id_macs : Both bytes;
  id_duid : bytes;
}.
Definition id_prefix (i : Identity) (l : Link) : Prefix :=
  net64 (Z.lor (p_address (id_site i)) (Z.shiftl (link_index l + 1) 64)).
Definition id_address (i : Identity) (l : Link) (p : Prefix) : Z := Z.lor (p_address p) (at_link l (id_iids i)).
Definition id_link_local (i : Identity) (l : Link) : Z := id_address i l (net64 fe80).

(** [String::from_utf8]: the well-formed byte sequences of Unicode, table 3-7. *)
Definition utf8_tail (b : Z) : bool := (128 <=? b) && (b <=? 191).
Fixpoint is_utf8 (b : bytes) : bool :=
  match b with
  | [] => true
  | b0 :: b =>
      if b0 <=? 127 then is_utf8 b else
      match b with
      | b1 :: b =>
          if (194 <=? b0) && (b0 <=? 223) then utf8_tail b1 && is_utf8 b else
          match b with
          | b2 :: b =>
              if (224 <=? b0) && (b0 <=? 239) then
                ((if b0 =? 224 then 160 else 128) <=? b1) && (b1 <=? if b0 =? 237 then 159 else 191) && utf8_tail b2 && is_utf8 b
              else
              match b with
              | b3 :: b =>
                  (240 <=? b0) && (b0 <=? 244) && ((if b0 =? 240 then 144 else 128) <=? b1)
                  && (b1 <=? if b0 =? 244 then 143 else 191) && utf8_tail b2 && utf8_tail b3 && is_utf8 b
              | [] => false
              end
          | [] => false
          end
      | [] => false
      end
  end.

Definition be64 : Z -> bytes := be 8.
Definition magic : bytes := [83; 78; 65; 67; 1].
Definition id_encode (i : Identity) : outcome io_error bytes :=
  reject_if u16_max <? len (id_attachment i) with OtherError;
  site ← slice (octets6 (p_address (id_site i))) 0 6;
  Ok (magic ++ be16 (len (id_attachment i)) ++ id_attachment i ++ site
      ++ be64 (of_ail (id_iids i)) ++ be64 (of_stub (id_iids i))
      ++ of_ail (id_macs i) ++ of_stub (id_macs i) ++ id_duid i).
(** The fixed part, [let b = &b[7 + n..]]. *)
Definition id_decode_fixed (attachment b : bytes) : outcome io_error Identity :=
  site ← slice b 0 6;
  a ← copy_at (zeros 16) 0 site;
  i0 ← slice b 6 14;
  i1 ← slice b 14 22;
  m0 ← slice b 22 28;
  m1 ← slice b 28 34;
  duid ← slice b 34 52;
  a0 ← a.[0];
  d01 ← slice duid 0 2;
  d8 ← duid.[8];
  d10 ← duid.[10];
  m00 ← m0.[0];
  m10 ← m1.[0];
  reject_if negb (a0 =? 0xfd) || (of_be i0 =? 0) || (of_be i1 =? 0) || negb (beq d01 [0; 4])
            || negb (Z.shiftr d8 4 =? 4) || negb (Z.shiftr d10 6 =? 2)
            || negb (Z.land m00 3 =? 2) || negb (Z.land m10 3 =? 2) with InvalidData;
  site ← unwrap (prefix_new (addr6 a) 48);
  Ok (mkIdentity attachment site (both (of_be i0) (of_be i1)) (both m0 m1) duid).
Definition id_decode (b : bytes) : outcome io_error Identity :=
  reject_if len b <? 7 with InvalidData;
  b05 ← slice b 0 5;
  reject_if negb (beq b05 magic) with InvalidData;
  b5 ← b.[5];
  b6 ← b.[6];
  let n := u16be b5 b6 in
  reject_if negb (len b =? 7 + n + 52) with InvalidData;
  attachment ← slice b 7 (7 + n);
  reject_if negb (is_utf8 attachment) with InvalidData;
  rest ← slice_from b (7 + n);
  id_decode_fixed attachment rest.

(** ** Stores *)

Class StateStore (S : Type) := {
  load : M S io_error (option bytes);
  save : bytes -> M S io_error unit;
}.
Record MemoryStore := mkMemoryStore { ms_bytes : option bytes }.
#[global] Instance memory_store : StateStore MemoryStore := {
  load := gets ms_bytes;
  save b := modify (fun _ => mkMemoryStore (Some b));
}.
(** What a store promises: it gives back what it holds, and a save that fails leaves the old
    contents or all of the new ones, as [atomic_replace_atomic] shows of files and [part_laws]
    of a part of the journal. *)
Class StoreLaws (S : Type) `{StateStore S} := {
  stored : S -> option bytes;
  load_law s :
    match load s with
    | (Ok o, s') => o = stored s /\ stored s' = stored s
    | (Err _, s') => stored s' = stored s
    | (Panic, _) => False
    end;
  save_law b s : b <> [] ->
    match save b s with
    | (Ok _, s') => stored s' = Some b
    | (Err _, s') => stored s' = stored s \/ stored s' = Some b
    | (Panic, _) => False
    end;
}.
#[global] Program Instance memory_store_laws : StoreLaws MemoryStore := { stored := ms_bytes }.
Next Obligation. done. Qed.
Next Obligation. done. Qed.

Section create.
Context {S R : Type} `{StateStore S, Sampler R}.
Abbreviation MI := (M (S * R) io_error).
Definition draw_iid : MI Z :=
  b ← fresh_bytes 8;
  let iid := Z.land (of_be b) 0xfdffffffffffffff in
  mret (if iid =? 0 then 1 else iid).
Definition draw_mac : MI bytes :=
  mac ← fresh_bytes 6;
  m0 ← lift mac.[0];
  lift (copy_at mac 0 [Z.lor (Z.land m0 0xfc) 2]).
Definition draw_duid : MI bytes :=
  d ← fresh_bytes 16;
  let duid := [0; 4] ++ d in
  d8 ← lift duid.[8];
  duid ← lift (copy_at duid 8 [Z.lor (Z.land d8 15) 64]);
  d10 ← lift duid.[10];
  lift (copy_at duid 10 [Z.lor (Z.land d10 63) 128]).
Definition create (attachment : bytes) : MI Identity :=
  s ← fresh_bytes 5;
  let site := [0xfd] ++ s ++ zeros 10 in
  i0 ← draw_iid;
  i1 ← draw_iid;
  m0 ← draw_mac;
  m1 ← draw_mac;
  m1 ← (if beq m0 m1 then m15 ← lift m1.[5]; lift (copy_at m1 5 [Z.lxor m15 1]) else mret m1);
  duid ← draw_duid;
  site ← lift (unwrap (prefix_new (addr6 site) 48));
  let identity := mkIdentity attachment site (both i0 i1) (both m0 m1) duid in
  b ← lift (id_encode identity);
  on_fst (save b) ;;
  mret identity.
Definition load_or_create (attachment : bytes) : MI Identity :=
  o ← on_fst load;
  match o with
  | Some b =>
      old ← lift (id_decode b);
      if beq (id_attachment old) attachment then mret old else create attachment
  | None => create attachment
  end.
End create.
