(* ===== verification/IdentityFacts.v ===== *)
(** The router's identity is well formed when it is created or loaded, what is stored is read
    back, and what was created is found again. *)

From S2P Require Import Prelude Effects Time Checksum Wire WireFacts Maps Observations Stateful Dhcp6Wire Identity.

(** ** Well-formed identities *)

(** A locally administered unicast address. *)
Definition local_mac (m : bytes) : Prop := is_bytes m /\ len m = 6 /\ Z.land (nth 0 m 0) 3 = 2.
(** A DUID-UUID with a random UUID. *)
Definition uuid_duid (d : bytes) : Prop := is_bytes d /\ len d = 18 /\ take 2 d = [0; 4] /\ Z.shiftr (nth 8 d 0) 4 = 4 /\ Z.shiftr (nth 10 d 0) 6 = 2.
Definition site_octets (s : bytes) : bytes := [0xfd] ++ s ++ zeros 10.
Record identity_wf (i : Identity) : Prop := {
  if_attachment : is_bytes (id_attachment i) /\ is_utf8 (id_attachment i) = true /\ len (id_attachment i) <= u16_max;
  if_site : exists s, is_bytes s /\ len s = 5 /\ id_site i = mkPrefix (addr6 (site_octets s)) 48;
  if_iids : 0 < of_ail (id_iids i) <= u64_max /\ 0 < of_stub (id_iids i) <= u64_max;
  if_macs : local_mac (of_ail (id_macs i)) /\ local_mac (of_stub (id_macs i));
  if_duid : uuid_duid (id_duid i);
}.
Lemma site_octets_ok s : is_bytes s -> len s = 5 -> is_bytes (site_octets s) /\ len (site_octets s) = 16 /\ octets6 (addr6 (site_octets s)) = site_octets s /\
  prefix_new (addr6 (site_octets s)) 48 = Some (mkPrefix (addr6 (site_octets s)) 48).
Proof.
  intros Hs Hl. assert (is_bytes (site_octets s)) as Hb by (unfold site_octets; rewrite !is_bytes_app; split_and!; [bytes_tac|done|apply is_bytes_zeros]).
  assert (len (site_octets s) = 16) as Hlen by (unfold site_octets; rewrite !len_app, Hl; reflexivity).
  assert (is_u128 (addr6 (site_octets s))) as Hu. { pose proof (of_be_bound _ Hb) as H. rewrite Hlen in H. change (256 ^ 16) with (u128_max + 1) in H. unfold addr6. u_lia. }
  do 2 (split; [done|]). split.
  - unfold octets6, be128, addr6. replace 16%nat with (length (site_octets s)) by (unfold len in Hlen; lia). by apply be_of_be.
  - rewrite prefix_new_spec by (done || lia). do 2 f_equal. change (2 ^ (128 - 48)) with (256 ^ 10).
    assert (addr6 (site_octets s) = of_be ([0xfd] ++ s) * 256 ^ 10) as ->; [|by rewrite Z.div_mul by lia].
    unfold addr6, site_octets. rewrite app_assoc, of_be_app, of_be_zeros. change (len (zeros 10)) with 10. lia.
Qed.

(** ** Reading *)

(** The fields of the fixed part, in their places. *)
Lemma decode_fixed_run att s i0 i1 m0 m1 d : len s = 6 -> len i0 = 8 -> len i1 = 8 -> len m0 = 6 -> len m1 = 6 -> len d = 18 ->
  id_decode_fixed att (s ++ i0 ++ i1 ++ m0 ++ m1 ++ d) =
    if negb (nth 0 s 0 =? 0xfd) || (of_be i0 =? 0) || (of_be i1 =? 0) || negb (beq (take 2 d) [0; 4]) || negb (Z.shiftr (nth 8 d 0) 4 =? 4)
       || negb (Z.shiftr (nth 10 d 0) 6 =? 2) || negb (Z.land (nth 0 m0 0) 3 =? 2) || negb (Z.land (nth 0 m1 0) 3 =? 2) then Err InvalidData
    else site ← unwrap (prefix_new (addr6 (s ++ zeros 10)) 48); Ok (mkIdentity att site (both (of_be i0) (of_be i1)) (both m0 m1) d).
Proof.
  intros L1 L2 L3 L4 L5 L6. set (b := s ++ i0 ++ i1 ++ m0 ++ m1 ++ d).
  assert (forall a x c lo hi, b = a ++ x ++ c -> lo = len a -> hi = len a + len x -> slice (E:=io_error) b lo hi = Ok x) as Hm by (intros a x c lo hi ->; by apply slice_mid).
  assert (forall (l : bytes) i, 0 <= i < len l -> idx (E:=io_error) l i = Ok (nth (Z.to_nat i) l 0)) as Hi.
  { intros l i Hlt. apply idx_Ok. split; [lia|]. destruct (nth_lookup_or_length l (Z.to_nat i) 0) as [E|E]; [done|unfold len in Hlt; lia]. }
  unfold id_decode_fixed.
  rewrite (Hm [] s (i0 ++ i1 ++ m0 ++ m1 ++ d) 0 6) by (done || (cbn; lia)). cbn [mbind outcome_bind].
  assert (copy_at (E:=io_error) (zeros 16) 0 s = Ok (s ++ zeros 10)) as ->.
  { unfold copy_at. rewrite L1. cbn [Z.leb Z.compare andb]. f_equal. unfold put. rewrite L1. done. }
  cbn [mbind outcome_bind]. rewrite (Hm s i0 (i1 ++ m0 ++ m1 ++ d) 6 14) by (done || lia). cbn [mbind outcome_bind].
  rewrite (Hm (s ++ i0) i1 (m0 ++ m1 ++ d) 14 22) by (rewrite <-?app_assoc, ?len_app; done || lia). cbn [mbind outcome_bind].
  rewrite (Hm (s ++ i0 ++ i1) m0 (m1 ++ d) 22 28) by (rewrite <-?app_assoc, ?len_app; done || lia). cbn [mbind outcome_bind].
  rewrite (Hm (s ++ i0 ++ i1 ++ m0) m1 d 28 34) by (rewrite <-?app_assoc, ?len_app; done || lia). cbn [mbind outcome_bind].
  rewrite (Hm (s ++ i0 ++ i1 ++ m0 ++ m1) d [] 34 52) by (rewrite <-?app_assoc, ?app_nil_r, ?len_app; done || lia). cbn [mbind outcome_bind]. clear Hm.
  assert (slice (E:=io_error) d 0 2 = Ok (take 2 d)) as -> by (apply slice_Ok; rewrite sub_to; split_and!; [lia|lia|lia|done]).
  rewrite !Hi by (rewrite ?len_app; change (len (zeros 10)) with 10; lia). cbn [mbind outcome_bind Z.to_nat]. rewrite app_nth1 by (unfold len in L1; cbn; lia). done.
Qed.
Lemma decode_run att rest : len att <= u16_max -> is_bytes att ->
  id_decode (magic ++ be16 (len att) ++ att ++ rest) = if negb (len rest =? 52) then Err InvalidData else if negb (is_utf8 att) then Err InvalidData else id_decode_fixed att rest.
Proof.
  intros Hl Ha. pose proof (len_nonneg att). pose proof (len_nonneg rest). set (b := magic ++ be16 (len att) ++ att ++ rest).
  assert (len b = 7 + len att + len rest) as Hb by (unfold b, be16; rewrite !len_app, len_be; change (len magic) with 5; lia).
  unfold id_decode. destruct (Z.ltb_spec (len b) 7); [lia|].
  assert (slice (E:=io_error) b 0 5 = Ok magic) as -> by (apply (slice_mid [] magic); done). cbn [mbind outcome_bind]. rewrite beq_refl. cbn [negb].
  assert (exists x y, be16 (len att) = [x; y] /\ u16be x y = len att) as (x & y & E & Exy).
  { exists (len att / 256 ^ Z.of_nat 1 mod 256), (len att / 256 ^ Z.of_nat 0 mod 256). split; [done|]. change (u16be ?x ?y) with (of_be [x; y]). change (of_be (be16 (len att)) = len att). apply of_be_be_small. change (256 ^ Z.of_nat 2) with (u16_max + 1). lia. }
  assert (idx (E:=io_error) b 5 = Ok x /\ idx (E:=io_error) b 6 = Ok y) as [-> ->] by (unfold b; rewrite E; split; apply idx_Ok; split; done || lia).
  cbn [mbind outcome_bind]. rewrite Exy, Hb. replace (7 + len att + len rest =? 7 + len att + 52) with (len rest =? 52) by (destruct (Z.eqb_spec (len rest) 52), (Z.eqb_spec (7 + len att + len rest) (7 + len att + 52)); lia).
  destruct (negb (len rest =? 52)); [done|]. unfold b. rewrite app_assoc. assert (len (magic ++ be16 (len att)) = 7) as H7 by (unfold be16; by rewrite len_app, len_be).
  rewrite (slice_mid _ att rest 7 (7 + len att)) by lia. cbn [mbind outcome_bind]. destruct (negb (is_utf8 att)); [done|].
  rewrite app_assoc, slice_from_app by (rewrite len_app; lia). done.
Qed.

Lemma len8 x : len (be64 x) = 8.
Proof. by unfold be64; rewrite len_be. Qed.
(** What the encoder writes. *)
Lemma encode_run i s : identity_wf i -> is_bytes s -> len s = 5 -> id_site i = mkPrefix (addr6 (site_octets s)) 48 ->
  id_encode i = Ok (magic ++ be16 (len (id_attachment i)) ++ id_attachment i ++
    ([0xfd] ++ s) ++ be64 (of_ail (id_iids i)) ++ be64 (of_stub (id_iids i)) ++ of_ail (id_macs i) ++ of_stub (id_macs i) ++ id_duid i).
Proof.
  intros [(_ & _ & Hl) _ _ _ _] Hs Hls E. destruct (site_octets_ok s Hs Hls) as (_ & _ & Ho & _). unfold id_encode. destruct (Z.ltb_spec u16_max (len (id_attachment i))); [lia|].
  rewrite E. cbn [p_address]. rewrite Ho. assert (slice (E:=io_error) (site_octets s) 0 6 = Ok ([0xfd] ++ s)) as ->; [|done].
  unfold site_octets. rewrite app_assoc. apply (slice_mid []); [done|]. rewrite len_app, Hls. done.
Qed.
Lemma decode_encoded i : identity_wf i -> exists b, id_encode i = Ok b /\ id_decode b = Ok i.
Proof.
  intros Hi. pose proof Hi as [(Ha & Hu & Hl) (s & Hs & Hls & E) [[H1 H2] [H3 H4]] [(B1 & L1 & M1) (B2 & L2 & M2)] (B3 & L3 & D1 & D2 & D3)].
  eexists. split; [exact (encode_run i s Hi Hs Hls E)|]. rewrite decode_run by done. assert (len ([0xfd] ++ s) = 6) as L6 by (rewrite len_app, Hls; done).
  rewrite !len_app, !len8, Hls, L1, L2, L3. change (len [0xfd]) with 1. cbn [Z.add Z.eqb Pos.eqb Pos.add Pos.succ negb]. rewrite Hu. cbn [negb].
  rewrite decode_fixed_run by (done || apply len8). unfold be64. rewrite !of_be_be_small by (change (256 ^ Z.of_nat 8) with (u64_max + 1); lia).
  destruct (Z.eqb_spec (of_ail (id_iids i)) 0), (Z.eqb_spec (of_stub (id_iids i)) 0); try lia. rewrite D1, D2, D3, M1, M2. cbn [app nth Z.eqb Pos.eqb negb orb]. rewrite beq_refl. cbn [negb orb].
  change (0xfd :: s ++ zeros 10) with (site_octets s). rewrite (proj2 (proj2 (proj2 (site_octets_ok s Hs Hls)))). cbn [unwrap mbind outcome_bind].
  rewrite <-E. by destruct i as [? ? [] [] ?].
Qed.
(** Cutting a byte string. *)
Lemma cut (n : nat) (b : bytes) : Z.of_nat n <= len b -> exists x y, b = x ++ y /\ len x = Z.of_nat n.
Proof. intros Hn. exists (take n b), (drop n b). split; [by rewrite take_drop|]. rewrite len_take. lia. Qed.
Lemma decode_fixed_wf att rest : is_bytes att -> is_utf8 att = true -> len att <= u16_max -> is_bytes rest -> len rest = 52 ->
  safe (id_decode_fixed att rest) /\ forall i, id_decode_fixed att rest = Ok i -> identity_wf i /\ id_encode i = Ok (magic ++ be16 (len att) ++ att ++ rest).
Proof.
  intros Ha Hu Hl Hb Hlen. destruct (cut 6 rest ltac:(lia)) as (s & r1 & -> & L1). rewrite len_app, L1 in Hlen. destruct (cut 8 r1 ltac:(lia)) as (i0 & r2 & -> & L2). rewrite len_app, L2 in Hlen.
  destruct (cut 8 r2 ltac:(lia)) as (i1 & r3 & -> & L3). rewrite len_app, L3 in Hlen. destruct (cut 6 r3 ltac:(lia)) as (m0 & r4 & -> & L4). rewrite len_app, L4 in Hlen.
  destruct (cut 6 r4 ltac:(lia)) as (m1 & d & -> & L5). rewrite len_app, L5 in Hlen. rewrite !is_bytes_app in Hb. destruct Hb as (Bs & B0 & B1 & C0 & C1 & Bd).
  rewrite decode_fixed_run by (done || lia). match goal with |- context [if ?g then _ else _] => destruct g eqn:G end; [by split|].
  rewrite !orb_false_iff, !negb_false_iff, !Z.eqb_eq, !Z.eqb_neq, beq_eq in G. destruct G as [[[[[[[G1 G2] G3] G4] G5] G6] G7] G8].
  assert (exists t, s = [0xfd] ++ t /\ is_bytes t /\ len t = 5) as (t & -> & Bt & Lt).
  { destruct s as [|x t]; [done|]. cbn in G1. subst x. exists t. split; [done|]. rewrite len_cons in L1. apply is_bytes_cons in Bs as [_ Bt]. split; [done|lia]. }
  change (([0xfd] ++ t) ++ zeros 10) with (site_octets t). destruct (site_octets_ok t Bt Lt) as (_ & _ & _ & ->). cbn [unwrap mbind outcome_bind]. split; [done|]. intros i [= <-].
  pose proof (of_be_bound i0 B0) as H0. pose proof (of_be_bound i1 B1) as H1. rewrite L2 in H0. rewrite L3 in H1. change (256 ^ Z.of_nat 8) with (u64_max + 1) in *.
  set (i := mkIdentity _ _ _ _ _). assert (identity_wf i) as Hw.
  { split; cbn; [done|by exists t|lia|by split|]. split_and!; done || lia. }
  split; [done|]. rewrite (encode_run i t Hw Bt Lt eq_refl). cbn [id_attachment id_iids id_macs id_duid of_ail of_stub i]. unfold be64.
  assert (forall b, is_bytes b -> len b = Z.of_nat 8 -> be 8 (of_be b) = b) as Hbe by (intros b Hb Hlb; replace 8%nat with (length b) by (unfold len in Hlb; lia); by apply be_of_be).
  by rewrite !Hbe.
Qed.
Lemma decode_wf b : is_bytes b -> safe (id_decode b) /\ forall i, id_decode b = Ok i -> identity_wf i /\ id_encode i = Ok b.
Proof.
  intros Hb. destruct (Z.ltb_spec (len b) 7) as [Hlt|Hge]; [unfold id_decode; by rewrite (proj2 (Z.ltb_lt _ _) Hlt)|].
  destruct (cut 5 b ltac:(lia)) as (m & r1 & -> & Lm). rewrite len_app, Lm in Hge. destruct (cut 2 r1 ltac:(lia)) as (n & r2 & -> & Ln).
  apply is_bytes_app in Hb as [_ Hb]. apply is_bytes_app in Hb as [Hn Hb]. destruct n as [|x [|y [|]]]; try (unfold len in Ln; cbn in Ln; lia).
  apply is_bytes_cons in Hn as [Hx [Hy _]%is_bytes_cons]. assert (0 <= u16be x y <= u16_max) as Hxy by exact (u16be_u16 x y Hx Hy).
  destruct (decide (m = magic)) as [->|Hm].
  - assert (forall att : bytes, len att = u16be x y -> be16 (len att) = [x; y]) as E by (intros att ->; by apply be16_u16be).
    destruct (Z.eq_dec (len r2) (u16be x y + 52)) as [El|Hne].
    + destruct (cut (Z.to_nat (u16be x y)) r2 ltac:(lia)) as (att & rest & -> & La). rewrite Z2Nat.id in La by lia. rewrite <-(E att La).
      rewrite len_app in El. apply is_bytes_app in Hb as [Hatt Hrest]. rewrite decode_run by (done || lia). destruct (Z.eqb_spec (len rest) 52); [|lia]. cbn [negb].
      destruct (is_utf8 att) eqn:Hu; cbn [negb]; [|done]. apply decode_fixed_wf; done || lia.
    + assert (id_decode (magic ++ [x; y] ++ r2) = Err InvalidData) as ->; [|done]. unfold id_decode. rewrite !len_app. change (len magic) with 5. change (len [x; y]) with 2.
      pose proof (len_nonneg r2). destruct (Z.ltb_spec (5 + (2 + len r2)) 7); [lia|]. assert (slice (E:=io_error) (magic ++ [x; y] ++ r2) 0 5 = Ok magic) as -> by (by apply (slice_mid [] magic)). cbn [mbind outcome_bind].
      rewrite beq_refl. cbn [negb]. assert (idx (E:=io_error) (magic ++ [x; y] ++ r2) 5 = Ok x /\ idx (E:=io_error) (magic ++ [x; y] ++ r2) 6 = Ok y) as [-> ->] by (split; apply idx_Ok; split; done || lia).
      cbn [mbind outcome_bind]. destruct (Z.eqb_spec (5 + (2 + len r2)) (7 + u16be x y + 52)); [lia|done].
  - assert (id_decode (m ++ [x; y] ++ r2) = Err InvalidData) as ->; [|done]. unfold id_decode. rewrite !len_app, Lm. change (len [x; y]) with 2. pose proof (len_nonneg r2).
    destruct (Z.ltb_spec (Z.of_nat 5 + (2 + len r2)) 7); [lia|]. assert (slice (E:=io_error) (m ++ [x; y] ++ r2) 0 5 = Ok m) as -> by (apply (slice_mid [] m); [done|by rewrite Lm]). cbn [mbind outcome_bind].
    destruct (beq m magic) eqn:Eb; [by apply beq_eq in Eb|done].
Qed.

(** ** Creation *)

(** Facts about the bits of a byte, by trying them all. *)
Lemma mac_bits x : is_u8 x -> is_u8 (Z.lor (Z.land x 0xfc) 2) /\ Z.land (Z.lor (Z.land x 0xfc) 2) 3 = 2.
Proof.
  intros Hx. pose proof (check_below 256 (fun x => let y := Z.lor (Z.land x 0xfc) 2 in (0 <=? y) && (y <=? 255) && (Z.land y 3 =? 2)) ltac:(by vm_compute) x ltac:(u_lia)) as H.
  cbv beta zeta in H. rewrite !andb_true_iff in H. u_lia.
Qed.
Lemma uuid_bits x : is_u8 x -> (is_u8 (Z.lor (Z.land x 15) 64) /\ Z.shiftr (Z.lor (Z.land x 15) 64) 4 = 4) /\ (is_u8 (Z.lor (Z.land x 63) 128) /\ Z.shiftr (Z.lor (Z.land x 63) 128) 6 = 2).
Proof.
  intros Hx. pose proof (check_below 256 (fun x => let y := Z.lor (Z.land x 15) 64 in let z := Z.lor (Z.land x 63) 128 in
    (0 <=? y) && (y <=? 255) && (Z.shiftr y 4 =? 4) && (0 <=? z) && (z <=? 255) && (Z.shiftr z 6 =? 2)) ltac:(by vm_compute) x ltac:(u_lia)) as H.
  cbv beta zeta in H. rewrite !andb_true_iff in H. u_lia.
Qed.
Lemma flip_bits x : is_u8 x -> is_u8 (Z.lxor x 1).
Proof.
  intros Hx. pose proof (check_below 256 (fun x => let y := Z.lxor x 1 in (0 <=? y) && (y <=? 255)) ltac:(by vm_compute) x ltac:(u_lia)) as H. cbv beta zeta in H. rewrite andb_true_iff in H. u_lia.
Qed.
Lemma masked_iid b : is_bytes b -> length b = 8%nat -> is_u64 (Z.land (of_be b) 0xfdffffffffffffff).
Proof.
  intros Hb Hl. pose proof (of_be_bound b Hb) as H. assert (0 <= Z.land (of_be b) 0xfdffffffffffffff) by (apply Z.land_nonneg; lia). assert (Z.land (of_be b) 0xfdffffffffffffff < 2 ^ 64).
  { apply Z.log2_lt_cancel. eapply Z.le_lt_trans; [apply Z.log2_land; lia|]. eapply Z.le_lt_trans; [apply Z.le_min_r|]. reflexivity. }
  change (2 ^ 64) with (u64_max + 1) in *. u_lia.
Qed.
(** The elements of a list of known length. *)
Ltac explode l H := repeat (let x := fresh "x" in destruct l as [|x l]; [discriminate H|]); destruct l; [clear H|discriminate H].
Ltac each_byte := repeat match goal with H : is_bytes (_ :: _) |- _ => apply is_bytes_cons in H as [? H] end.

Section creation.
Context {S R : Type} `{StoreLaws S, Sampler R} `{!ByteSource R} (s0 : S) (att : bytes).
(** An identity that was drawn for the attachment, and its bytes. *)
Definition drawn_for (i : Identity) (b : bytes) : Prop := identity_wf i /\ id_attachment i = att /\ id_encode i = Ok b.
(** The store holds what it held, or a new identity that was not acknowledged. *)
Definition unsaved (s : S) : Prop := stored s = stored s0 \/ exists i b, drawn_for i b /\ stored s = Some b.
#[local] Abbreviation I := unsaved.
#[local] Abbreviation gives := (gives (S:=S) (R:=R) I).
Lemma draw_iid_gives c r : I c -> gives draw_iid (c, r) (fun x c' => c' = c /\ 0 < x <= u64_max).
Proof using All.
  intros Hc. unfold draw_iid. eapply gives_bind; [by eapply (gives_fresh _ _ _ (fun b c' => c' = c /\ is_bytes b /\ length b = 8%nat))|].
  intros b c' r' (-> & Hb & Hl). apply gives_ret. split; [done|]. pose proof (masked_iid b Hb Hl) as Hx.
  destruct (Z.eqb_spec (Z.land (of_be b) 0xfdffffffffffffff) 0); u_lia.
Qed.
Lemma draw_mac_gives c r : I c -> gives draw_mac (c, r) (fun m c' => c' = c /\ local_mac m).
Proof using All.
  intros Hc. unfold draw_mac. eapply gives_bind; [by eapply (gives_fresh _ _ _ (fun b c' => c' = c /\ is_bytes b /\ length b = 6%nat))|].
  intros b c' r' (-> & Hb & Hl). explode b Hl. each_byte. eapply (gives_bind _ _ _ (fun a c' => a = x /\ c' = c)); [by apply gives_lift|]. intros a c' r2 [-> ->].
  apply gives_lift. split; [done|]. destruct (mac_bits x ltac:(done)). unfold put. cbn. split; [by repeat (apply is_bytes_cons; split)|]. by split.
Qed.
Lemma draw_duid_gives c r : I c -> gives draw_duid (c, r) (fun d c' => c' = c /\ uuid_duid d).
Proof using All.
  intros Hc. unfold draw_duid. eapply gives_bind; [by eapply (gives_fresh _ _ _ (fun b c' => c' = c /\ is_bytes b /\ length b = 16%nat))|].
  intros b c' r' (-> & Hb & Hl). explode b Hl. each_byte. cbv zeta. cbn [app].
  eapply (gives_bind _ _ _ (fun a c' => a = x5 /\ c' = c)); [by apply gives_lift|]. intros a c' r2 [-> ->].
  eapply (gives_bind _ _ _ (fun a c' => a = [0; 4; x; x0; x1; x2; x3; x4; Z.lor (Z.land x5 15) 64; x6; x7; x8; x9; x10; x11; x12; x13; x14] /\ c' = c)); [by apply gives_lift|]. intros a c' r3 [-> ->].
  eapply (gives_bind _ _ _ (fun a c' => a = x7 /\ c' = c)); [by apply gives_lift|]. intros a c' r4 [-> ->].
  apply gives_lift. split; [done|]. destruct (uuid_bits x5 ltac:(done)) as [[] _], (uuid_bits x7 ltac:(done)) as [_ []].
  unfold put. cbn. split_and!; try done. by repeat (apply is_bytes_cons; split).
Qed.
Lemma differ_gives m0 m1 c r : I c -> local_mac m1 ->
  gives (if beq m0 m1 then m15 ← lift m1.[5]; lift (copy_at m1 5 [Z.lxor m15 1]) else mret m1) (c, r) (fun m c' => c' = c /\ local_mac m).
Proof using All.
  intros Hc (Hb & Hl & H3). apply gives_if; [intros _|intros _; by apply gives_ret]. assert (length m1 = 6%nat) as Hn by (unfold len in Hl; lia). explode m1 Hn. each_byte.
  eapply (gives_bind _ _ _ (fun a c' => a = x4 /\ c' = c)); [by apply gives_lift|]. intros a c' r2 [-> ->]. apply gives_lift. split; [done|].
  pose proof (flip_bits x4 ltac:(done)). unfold put. cbn in *. split_and!; try done. by repeat (apply is_bytes_cons; split).
Qed.
Lemma create_gives c r : is_bytes att -> is_utf8 att = true -> len att <= u16_max -> stored c = stored s0 ->
  gives (create att) (c, r) (fun i c' => exists b, drawn_for i b /\ stored c' = Some b).
Proof using All.
  intros Ha Hu Hl Hs0. assert (I c) as Hc by by left. unfold create. eapply gives_bind; [by eapply (gives_fresh _ _ _ (fun b c' => c' = c /\ is_bytes b /\ length b = 5%nat))|].
  intros s c' r1 (-> & Hs & Hls). assert (len s = 5) as Ls by (unfold len; lia). cbv zeta.
  eapply gives_bind; [by apply draw_iid_gives|]. intros i0 c' r2 [-> Hi0]. eapply gives_bind; [by apply draw_iid_gives|]. intros i1 c' r3 [-> Hi1].
  eapply gives_bind; [by apply draw_mac_gives|]. intros m0 c' r4 [-> M0]. eapply gives_bind; [by apply draw_mac_gives|]. intros m1 c' r5 [-> M1].
  eapply gives_bind; [by apply differ_gives|]. clear m1 M1. intros m1 c' r6 [-> M1]. eapply gives_bind; [by apply draw_duid_gives|]. intros d c' r7 [-> D].
  destruct (site_octets_ok s Hs Ls) as (_ & _ & _ & Ep). change ([0xfd] ++ s ++ zeros 10) with (site_octets s). rewrite Ep. cbn [unwrap].
  eapply (gives_bind _ _ _ (fun a c' => a = mkPrefix (addr6 (site_octets s)) 48 /\ c' = c)); [by apply gives_lift|]. intros a c' r8 [-> ->].
  set (i := mkIdentity _ _ _ _ _). assert (identity_wf i) as Hi by (split; cbn; [done|by exists s|done|done|done]).
  rewrite (encode_run i s Hi Hs Ls eq_refl). match goal with |- context [lift (Ok ?x)] => set (b := x) end.
  eapply (gives_bind _ _ _ (fun a c' => a = b /\ c' = c)); [by apply gives_lift|]. intros a c' r9 [-> ->].
  assert (drawn_for i b) as Hd by (split; [done|]; split; [done|]; exact (encode_run i s Hi Hs Ls eq_refl)).
  eapply (gives_bind _ _ _ (fun _ c' => stored c' = Some b)); [|intros u c' r10 Hsv; apply gives_ret; by exists b].
  assert (b <> []) as Hne by done. pose proof (save_law b c Hne) as Hsave. unfold Stateful.gives, on_fst. cbn [fst snd]. destruct (save b c) as [[u|e|] s']; [done| |done].
  cbn [fst snd]. destruct Hsave as [E|E]; [left; congruence|right; by exists i, b].
Qed.
End creation.

(** Reading stored bytes does not panic; an identity that is read is well formed, and reading and writing well-formed identities are inverse to each other. *)
Theorem identity_codec b : is_bytes b -> safe (id_decode b) /\ forall i, id_decode b = Ok i <-> identity_wf i /\ id_encode i = Ok b.
Proof.
  intros Hb. destruct (decode_wf b Hb) as [Hs Hd]. split; [done|]. intros i. split; [apply Hd|]. intros [Hi He]. destruct (decode_encoded i Hi) as (b' & Hb' & Hd'). congruence.
Qed.
(** The store has no identity yet, or one for another attachment. *)
Definition to_create (att : bytes) (o : option bytes) : Prop :=
  match o with None => True | Some b => exists old, id_decode b = Ok old /\ id_attachment old <> att end.
Lemma decode_stored {S R} `{StateStore S, Sampler R} att b i (s s' : S) (r : R) : load s = (Ok (Some b), s') -> id_decode b = Ok i -> id_attachment i = att ->
  load_or_create att (s, r) = (Ok i, (s', r)).
Proof. intros Hl Hd <-. unfold load_or_create. cbv [mbind M_bind on_fst]. cbn [fst snd]. rewrite Hl. cbv [lift]. by rewrite Hd, beq_refl. Qed.
(** C40. In any lawful store, creating or loading an identity does not panic. One that results
    is well formed, belongs to the attachment asked for and is what the store holds, so that
    it is found again unchanged and without new random bytes whenever the store can be read.
    A failure leaves the store with what it held or, when it was the save of a new identity
    that failed, with that identity complete. The store changes only if it had no identity
    or that of another attachment: one for this attachment, and bytes that are no identity,
    are not replaced. *)
Theorem identity_kept {S R} `{StoreLaws S, Sampler R} `{!ByteSource R} att (s : S) (r : R) : is_bytes att -> is_utf8 att = true -> len att <= u16_max ->
  (forall b, stored s = Some b -> is_bytes b) ->
  match load_or_create att (s, r) with
  | (Ok i, (s', _)) => identity_wf i /\ id_attachment i = att /\ (exists b, stored s' = Some b /\ id_decode b = Ok i) /\
      (stored s' = stored s \/ to_create att (stored s)) /\
      forall o s2 r2, load s' = (Ok o, s2) -> load_or_create att (s', r2) = (Ok i, (s2, r2))
  | (Err _, (s', _)) => stored s' = stored s \/ (to_create att (stored s) /\ exists i b, drawn_for att i b /\ stored s' = Some b)
  | (Panic, _) => False
  end.
Proof.
  intros Ha Hu Hl Ho.
  set (P := fun s' => stored s' = stored s \/ (to_create att (stored s) /\ exists i b, drawn_for att i b /\ stored s' = Some b)).
  set (Q := fun i s' => identity_wf i /\ id_attachment i = att /\ (exists b, stored s' = Some b /\ id_decode b = Ok i) /\ (stored s' = stored s \/ to_create att (stored s))).
  assert (gives (R:=R) P (load_or_create att) (s, r) Q) as Hg.
  { unfold load_or_create. eapply (gives_bind _ _ _ (fun a c => a = stored s /\ stored c = stored s)).
    { pose proof (load_law s) as Hld. unfold gives, on_fst. cbn [fst snd]. destruct (load s) as [[o|e|] s1]; [done|by left|done]. }
    intros a c r1 [-> Hc]. assert (forall r2 : R, to_create att (stored s) -> gives P (create att) (c, r2) Q) as Hnew.
    { intros r2 Ht. pose proof (create_gives s att c r2 Ha Hu Hl Hc) as Hcr. unfold gives in *. destruct (create att (c, r2)) as [[i|e|] [s1 r3]]; [| |done]; cbn [fst] in *.
      - destruct Hcr as (b & (Hi & Hat & He) & Hb). do 2 (split; [done|]). split; [|by right]. exists b. split; [done|]. destruct (decode_encoded i Hi) as (b' & Hb' & Hd). congruence.
      - destruct Hcr as [Hcr|Hcr]; [by left|by right]. }
    destruct (stored s) as [b|] eqn:Es; [|by apply Hnew]. destruct (decode_wf b (Ho b eq_refl)) as [Hs Hd].
    eapply (gives_bind _ _ _ (fun i c' => c' = c /\ id_decode b = Ok i)); [unfold gives; cbn; destruct (id_decode b); [done|by left|done]|]. intros i c' r2 [-> Hi].
    apply gives_if; [|intros Hat; apply Hnew; exists i; split; [done|]; intros E; by rewrite E, beq_refl in Hat].
    intros Hat%beq_eq. apply gives_ret. split; [by apply Hd|]. split; [done|]. split; [by exists b|by left]. }
  unfold gives in Hg. destruct (load_or_create att (s, r)) as [[i|e|] [s' r']]; [|exact Hg|done]. destruct Hg as (Hi & Hat & (b & Hb & Hd) & Hch). cbn [fst] in *.
  do 2 (split; [done|]). split; [by exists b|]. split; [done|]. intros o s2 r2 Hld. pose proof (load_law s') as Hlaw. rewrite Hld in Hlaw. destruct Hlaw as [-> _]. rewrite Hb in Hld.
  by eapply decode_stored.
Qed.

(** A stored identity, for the attachment "a". *)
Definition sample_state : bytes :=
  magic ++ [0; 1; 97] ++ [253; 1; 2; 3; 4; 5] ++ be64 17 ++ be64 34 ++ [2; 0; 0; 0; 0; 1] ++ [6; 0; 0; 0; 0; 2] ++ [0; 4] ++ zeros 6 ++ [64; 0; 128] ++ zeros 7.
Lemma sample_state_bytes : is_bytes sample_state.
Proof. by apply bytes_check. Qed.
Lemma identity_codec_witness : safe (id_decode sample_state) /\ exists i, id_decode sample_state = Ok i /\ identity_wf i /\ id_encode i = Ok sample_state.
Proof.
  destruct (identity_codec sample_state sample_state_bytes) as [Hs Hi]. split; [exact Hs|].
  assert (is_Some (match id_decode sample_state with Ok i => Some i | _ => None end)) as [i E] by (vm_compute; by eexists).
  destruct (id_decode sample_state) as [j|e|] eqn:Ed; [|done|done]. injection E as ->. exists i. split; [done|]. by apply Hi.
Defined.
