(* ===== verification/Text.v ===== *)
(** Byte strings of the source's literals, and tests on prefixes of byte strings. *)

From Stdlib Require Strings.String Strings.Ascii.
From S2P Require Import Prelude.
Export (notations) Stdlib.Strings.String Stdlib.Strings.Ascii.

(** The bytes of a literal, [b"..."]. *)
Definition ascii (s : String.string) : bytes := List.map (fun c => Z.of_nat (Ascii.nat_of_ascii c)) (String.list_ascii_of_string s).
Arguments ascii s%_string.
Lemma ascii_bytes s : is_bytes (ascii s).
Proof.
  unfold ascii, is_bytes. apply List.Forall_map, List.Forall_forall. intros c _. pose proof (Ascii.nat_ascii_bounded c). u_lia.
Qed.

(** [b.starts_with(p)] *)
Definition starts_with (b p : bytes) : bool := beq (take (length p) b) p.
Lemma starts_with_app p b : starts_with (p ++ b) p = true.
Proof. unfold starts_with. rewrite take_app_length. apply beq_refl. Qed.
Lemma starts_with_spec b p : starts_with b p = true -> exists t, b = p ++ t.
Proof. unfold starts_with. intros H%beq_eq. exists (drop (length p) b). by rewrite <-H at 1; rewrite take_drop. Qed.
