(* ===== verification/Lexis.v ===== *)
(** Text as the standard library prints and parses it: integers in decimal and hexadecimal,
    lines and words, and IPv6 addresses; what is printed is parsed back. *)

From S2P Require Import Prelude Wire Text.

(** ** Integers *)

(** The digit of a value below 16, in lower case. *)
Definition digit (n : Z) : Z := if n <? 10 then 48 + n else 87 + n.
(** [char::to_digit]: digits and letters of either case. *)
Definition to_digit (radix c : Z) : option Z :=
  let d := if (48 <=? c) && (c <=? 57) then c - 48
           else if (97 <=? c) && (c <=? 122) then c - 87
           else if (65 <=? c) && (c <=? 90) then c - 55 else 255 in
  if d <? radix then Some d else None.
(** [{}] and [{:x}] of an unsigned integer, the last digit first found; forty digits are
    enough for 128 bits. *)
Fixpoint digits_before (fuel : nat) (radix n : Z) (acc : bytes) : bytes :=
  match fuel with
  | O => acc
  | S fuel => let acc := digit (n mod radix) :: acc in if n <? radix then acc else digits_before fuel radix (n / radix) acc
  end.
Definition number (radix n : Z) : bytes := digits_before 40 radix n [].
Definition dec : Z -> bytes := number 10.
(** [from_str_radix]: an optional sign, at least one digit, no overflow. *)
Fixpoint read_digits (radix max acc : Z) (b : bytes) : option Z :=
  match b with
  | [] => Some acc
  | c :: b => d ← to_digit radix c; let acc := acc * radix + d in if max <? acc then None else read_digits radix max acc b
  end.
Definition parse_int (radix max : Z) (b : bytes) : option Z :=
  match b with
  | [] => None
  | c :: t => let ds := if c =? 43 then t else b in match ds with [] => None | _ => read_digits radix max 0 ds end
  end.
Definition parse_u64 : bytes -> option Z := parse_int 10 u64_max.

(** [hex] and [unhex] of [restart.rs]: two digits to a byte. *)
Definition hex (b : bytes) : bytes := concat (map (fun v => [digit (Z.shiftr v 4); digit (Z.land v 15)]) b).
Fixpoint unhex_pairs (b : bytes) : outcome io_error bytes :=
  match b with
  | x :: y :: b => v ← ok_or (parse_int 16 u8_max [x; y]) OtherError; t ← unhex_pairs b; Ok (v :: t)
  | _ => Ok []
  end.
Definition unhex (b : bytes) : outcome io_error bytes :=
  reject_if negb (len b mod 2 =? 0) || negb (forallb (fun c => c <? 128) b) with OtherError;
  unhex_pairs b.

(** ** Pieces *)

(** [split(c)]: the pieces between the occurrences of a byte. *)
Fixpoint split_on (c : Z) (b : bytes) : list bytes :=
  match b with
  | [] => [[]]
  | x :: b => if x =? c then [] :: split_on c b else match split_on c b with p :: ps => (x :: p) :: ps | [] => [[x]] end
  end.
(** [split_once(c)] *)
Fixpoint split_once (c : Z) (b : bytes) : option (bytes * bytes) :=
  match b with
  | [] => None
  | x :: b => if x =? c then Some ([], b) else '(l, r) ← split_once c b; Some (x :: l, r)
  end.
(** [rsplit_once(pattern)]: at the last occurrence. *)
Fixpoint rsplit_once (pattern b : bytes) : option (bytes * bytes) :=
  match b with
  | [] => None
  | x :: t =>
      match rsplit_once pattern t with
      | Some (l, r) => Some (x :: l, r)
      | None => if starts_with b pattern then Some ([], drop (length pattern) b) else None
      end
  end.
Definition strip_prefix (pattern b : bytes) : option bytes := if starts_with b pattern then Some (drop (length pattern) b) else None.
(** [strip_suffix] of one byte. *)
Definition strip_last (c : Z) (b : bytes) : option bytes :=
  match list.last b with Some x => if x =? c then Some (List.removelast b) else None | None => None end.
(** [lines()]: a carriage return before the end of a line goes; nothing follows the last end. *)
Fixpoint ended (ps : list bytes) : list bytes :=
  match ps with
  | [] => []
  | [p] => match p with [] => [] | _ => [p] end
  | p :: ps => default p (strip_last 13 p) :: ended ps
  end.
Definition lines (b : bytes) : list bytes := ended (split_on 10 b).
(** The length of the white space a string begins with, in UTF-8: 0 when it does not. *)
Definition white (b : bytes) : nat :=
  match b with
  | c :: t =>
      if ((9 <=? c) && (c <=? 13)) || (c =? 32) then 1%nat else
      match t with
      | d :: t =>
          if (c =? 0xc2) && ((d =? 0x85) || (d =? 0xa0)) then 2%nat else
          match t with
          | e :: _ =>
              if ((c =? 0xe1) && (d =? 0x9a) && (e =? 0x80))
                 || ((c =? 0xe2) && (d =? 0x80) && (((0x80 <=? e) && (e <=? 0x8a)) || (e =? 0xa8) || (e =? 0xa9) || (e =? 0xaf)))
                 || ((c =? 0xe2) && (d =? 0x81) && (e =? 0x9f))
                 || ((c =? 0xe3) && (d =? 0x80) && (e =? 0x80)) then 3%nat else 0%nat
          | [] => 0%nat
          end
      | [] => 0%nat
      end
  | [] => 0%nat
  end.
(** [split_whitespace()]; [word] is the piece under way. *)
Fixpoint words (fuel : nat) (b word : bytes) : list bytes :=
  let out rest := match word with [] => rest | _ => word :: rest end in
  match fuel with
  | O => out []
  | S fuel =>
      match b with
      | [] => out []
      | c :: t => match white b with O => words fuel t (word ++ [c]) | n => out (words fuel (drop n b) []) end
      end
  end.
Definition split_whitespace (b : bytes) : list bytes := words (S (length b)) b [].

(** ** IPv6 addresses *)

(** The parser of [std::net]: what is read, and what is left of the text. *)
Definition given (c : Z) (b : bytes) : option bytes := match b with x :: t => if x =? c then Some t else None | [] => None end.
(** The digits at the front, at most [room] of them. *)
Fixpoint read_run (radix max : Z) (room : nat) (n : Z) (b : bytes) {struct b} : option (Z * bytes) :=
  match b with
  | [] => Some (n, [])
  | c :: t =>
      match to_digit radix c with
      | None => Some (n, b)
      | Some d =>
          let n := n * radix + d in
          if max <? n then None else match room with O => None | S room => read_run radix max room n t end
      end
  end.
Definition read_number (radix max : Z) (room : nat) (zeros_ok : bool) (b : bytes) : option (Z * bytes) :=
  '(n, rest) ← read_run radix max room 0 b;
  let count := len b - len rest in
  if count =? 0 then None
  else if negb zeros_ok && starts_with b [48] && (1 <? count) then None
  else Some (n, rest).
Definition separated {A} (c i : Z) (inner : bytes -> option (A * bytes)) (b : bytes) : option (A * bytes) :=
  b ← (if 0 <? i then given c b else Some b); inner b.
Fixpoint read_octets (n : nat) (i : Z) (b : bytes) : option (bytes * bytes) :=
  match n with
  | O => Some ([], b)
  | S n =>
      '(x, b) ← separated 46 i (read_number 10 u8_max 3 false) b;
      '(xs, b) ← read_octets n (i + 1) b;
      Some (x :: xs, b)
  end.
(** [read_ipv4_addr], as the two groups it stands for. *)
Definition read_ipv4 (b : bytes) : option ((Z * Z) * bytes) :=
  '(os, b) ← read_octets 4 0 b;
  match os with [o0; o1; o2; o3] => Some ((u16be o0 o1, u16be o2 o3), b) | _ => None end.
(** [read_groups]: the groups, whether they end in an IPv4 address. *)
Fixpoint read_groups (room : nat) (i : Z) (b : bytes) : list Z * bool * bytes :=
  match room with
  | O => ([], false, b)
  | S room =>
      match (if 0 <? Z.of_nat room then separated 58 i read_ipv4 b else None) with
      | Some ((g, h), b) => ([g; h], true, b)
      | None =>
          match separated 58 i (read_number 16 u16_max 4 true) b with
          | Some (g, b) => let '(gs, v4, b) := read_groups room (i + 1) b in (g :: gs, v4, b)
          | None => ([], false, b)
          end
      end
  end.
Definition read_ipv6 (b : bytes) : option (list Z * bytes) :=
  let '(head, v4, b) := read_groups 8 0 b in
  if len head =? 8 then Some (head, b)
  else if v4 then None else
  b ← given 58 b;
  b ← given 58 b;
  let '(tail, _, b) := read_groups (7 - length head) 0 b in
  Some (head ++ replicate (8 - length head - length tail) 0 ++ tail, b).
Definition of_groups (gs : list Z) : Z := foldl (fun a g => a * 65536 + g) 0 gs.
(** [str::parse::<Ipv6Addr>] *)
Definition parse_ipv6 (b : bytes) : option Z :=
  '(gs, rest) ← read_ipv6 b;
  match rest with [] => Some (of_groups gs) | _ => None end.

Definition groups (a : Z) : list Z := map (segment6 a) [0; 1; 2; 3; 4; 5; 6; 7].
(** The first of the longest runs of zeros: where it starts and how long it is. *)
Fixpoint zero_run (gs : list Z) (i : Z) (current longest : Z * Z) : Z * Z :=
  match gs with
  | [] => longest
  | g :: gs =>
      if g =? 0 then
        let current := if snd current =? 0 then (i, 1) else (fst current, snd current + 1) in
        zero_run gs (i + 1) current (if snd longest <? snd current then current else longest)
      else zero_run gs (i + 1) (0, 0) longest
  end.
Fixpoint join (c : Z) (ps : list bytes) : bytes :=
  match ps with
  | [] => []
  | [p] => p
  | p :: ps => p ++ c :: join c ps
  end.
Definition show_groups (gs : list Z) : bytes := join 58 (map (number 16) gs).
Definition show_ipv4 (a : Z) : bytes := join 46 (map dec (be32 a)).
(** [Display] of [Ipv6Addr] *)
Definition show_ipv6 (a : Z) : bytes :=
  if Z.shiftr a 32 =? 0xffff then ascii "::ffff:" ++ show_ipv4 (a mod 2 ^ 32) else
  let gs := groups a in
  let '(start, n) := zero_run gs 0 (0, 0) (0, 0) in
  if 1 <? n
  then show_groups (take (Z.to_nat start) gs) ++ [58; 58] ++ show_groups (drop (Z.to_nat (start + n)) gs)
  else show_groups gs.

(** ** What parsers give *)

Lemma to_digit_bound radix c d : 0 <= c -> to_digit radix c = Some d -> 0 <= d < radix.
Proof.
  unfold to_digit. intros Hc.
  destruct ((48 <=? c) && (c <=? 57)) eqn:E1; [|destruct ((97 <=? c) && (c <=? 122)) eqn:E2; [|destruct ((65 <=? c) && (c <=? 90)) eqn:E3]];
    cbv zeta; match goal with |- context [?x <? radix] => destruct (Z.ltb_spec x radix) end; intros [= <-]; lia.
Qed.
Lemma read_digits_bound radix max b acc n : is_bytes b -> 0 <= acc <= max -> 0 <= radix -> read_digits radix max acc b = Some n -> 0 <= n <= max.
Proof.
  revert acc. induction b as [|c b IH]; intros acc Hb Ha Hr; cbn [read_digits]; [by intros [= <-]|].
  apply is_bytes_cons in Hb as [Hc Hb]. destruct (to_digit radix c) as [d|] eqn:Ed; [|done]. cbn [mbind option_bind].
  apply to_digit_bound in Ed; [|u_lia]. cbv zeta. destruct (Z.ltb_spec max (acc * radix + d)); [done|]. apply IH; [done| |done]. nia.
Qed.
Lemma parse_int_bound radix max b n : is_bytes b -> 0 <= max -> 0 <= radix -> parse_int radix max b = Some n -> 0 <= n <= max.
Proof.
  intros Hb Hm Hr. destruct b as [|c b]; [done|]. cbn [parse_int]. cbv zeta. intros H. apply is_bytes_cons in Hb as Hb'.
  destruct (if c =? 43 then b else c :: b) as [|x ds] eqn:E; [done|]. refine (read_digits_bound radix max _ 0 n _ (conj (Z.le_refl 0) Hm) Hr H).
  rewrite <-E. destruct (c =? 43); [apply Hb'|done].
Qed.
Lemma unhex_pairs_ok n b : (length b <= n)%nat -> is_bytes b -> match unhex_pairs b with Ok r => is_bytes r | Err _ => True | Panic => False end.
Proof.
  revert b. induction n as [|n IH]; intros b Hn Hb; destruct b as [|x [|y b]]; try (cbn; by constructor); [cbn in Hn; lia|].
  cbn [unhex_pairs]. pose proof Hb as (Hx & Hb1)%is_bytes_cons. apply is_bytes_cons in Hb1 as (Hy & Hb1).
  destruct (parse_int 16 u8_max [x; y]) as [v|] eqn:E; [|done]. cbn [ok_or mbind outcome_bind].
  apply parse_int_bound in E; [|apply is_bytes_cons; split; [done|]; apply is_bytes_cons; split; [done|apply List.Forall_nil]|done|done].
  specialize (IH b ltac:(cbn in Hn; lia) Hb1). destruct (unhex_pairs b); [|done|done]. cbn. apply is_bytes_cons. by split.
Qed.
Lemma unhex_ok b : is_bytes b -> match unhex b with Ok r => is_bytes r | Err _ => True | Panic => False end.
Proof. intros Hb. unfold unhex. destruct (_ || _); [done|]. by apply (unhex_pairs_ok (length b)). Qed.

(** *** Addresses *)
Lemma read_run_suffix radix max room n b m rest : read_run radix max room n b = Some (m, rest) -> rest `suffix_of` b.
Proof.
  revert room n. induction b as [|c b IH]; intros room n; cbn [read_run]; [by intros [= _ <-]|].
  destruct (to_digit radix c) as [d|]; [|by intros [= _ <-]]. cbv zeta. destruct (max <? _); [done|]. destruct room as [|room]; [done|].
  intros H%IH. by apply suffix_cons_r.
Qed.
Lemma read_run_bound radix max room n b m rest : is_bytes b -> 0 <= n <= max -> 0 <= radix -> read_run radix max room n b = Some (m, rest) -> 0 <= m <= max.
Proof.
  revert room n. induction b as [|c b IH]; intros room n Hb Hn Hr; cbn [read_run]; [by intros [= <- _]|].
  apply is_bytes_cons in Hb as [Hc Hb]. destruct (to_digit radix c) as [d|] eqn:Ed; [|by intros [= <- _]].
  apply to_digit_bound in Ed; [|u_lia]. cbv zeta. destruct (Z.ltb_spec max (n * radix + d)); [done|]. destruct room as [|room]; [done|]. apply IH; [done| |done]. nia.
Qed.
Lemma suffix_bytes a b : a `suffix_of` b -> is_bytes b -> is_bytes a.
Proof. intros [k ->] [_ H]%is_bytes_app. done. Qed.
Lemma read_number_ok radix max room z b m rest : read_number radix max room z b = Some (m, rest) -> 0 <= max -> 0 <= radix ->
  is_bytes b -> 0 <= m <= max /\ is_bytes rest.
Proof.
  unfold read_number. destruct (read_run radix max room 0 b) as [[n r]|] eqn:E; [|done]. cbn [mbind option_bind]. cbv zeta.
  destruct (len b - len r =? 0); [done|]. destruct (_ && _ && _); [done|]. intros [= <- <-] Hm Hr Hb. split; [apply (read_run_bound radix max room 0 b n r Hb); [lia|done|done]|].
  apply read_run_suffix in E. by eapply suffix_bytes.
Qed.
Lemma separated_ok {A} c i (inner : bytes -> option (A * bytes)) b x rest : separated c i inner b = Some (x, rest) ->
  is_bytes b -> exists b', inner b' = Some (x, rest) /\ is_bytes b'.
Proof.
  unfold separated. destruct (0 <? i); cbn [mbind option_bind]; [|by exists b]. destruct b as [|y b]; [done|]. cbn [given].
  destruct (y =? c); [|done]. cbn [mbind option_bind]. intros H [_ Hb]%is_bytes_cons. by exists b.
Qed.
Lemma read_octets_ok n i b os rest : read_octets n i b = Some (os, rest) -> is_bytes b -> is_bytes os /\ is_bytes rest.
Proof.
  revert i b os. induction n as [|n IH]; intros i b os; cbn [read_octets]; [intros [= <- <-] Hb; split; [by constructor|done]|].
  destruct (separated 46 i _ b) as [[x b1]|] eqn:E1; [|done]. cbn [mbind option_bind]. destruct (read_octets n (i + 1) b1) as [[xs b2]|] eqn:E2; [|done].
  cbn [mbind option_bind]. intros [= <- <-] Hb. destruct (separated_ok _ _ _ _ _ _ E1 Hb) as (b' & E & Hb'). apply read_number_ok in E as [Hx H1]; [|done..].
  destruct (IH _ _ _ E2 H1). split; [apply is_bytes_cons; by split|done].
Qed.
Lemma read_ipv4_ok b g h rest : read_ipv4 b = Some ((g, h), rest) -> is_bytes b -> is_u16 g /\ is_u16 h /\ is_bytes rest.
Proof.
  unfold read_ipv4. destruct (read_octets 4 0 b) as [[os r]|] eqn:E; [|done]. cbn [mbind option_bind]. destruct os as [|o0 [|o1 [|o2 [|o3 [|]]]]]; try done.
  intros [= <- <- <-] Hb. destruct (read_octets_ok _ _ _ _ _ E Hb) as [Ho Hr]. unfold is_bytes in Ho. rewrite !List.Forall_cons_iff in Ho.
  destruct Ho as (H0 & H1 & H2 & H3 & _). unfold u16be. split_and!; [u_lia|u_lia|done].
Qed.
Lemma read_groups_ok room i b gs v4 rest : read_groups room i b = (gs, v4, rest) -> is_bytes b ->
  Forall is_u16 gs /\ (length gs <= room)%nat /\ is_bytes rest.
Proof.
  revert i b gs v4. induction room as [|room IH]; intros i b gs v4; cbn [read_groups]; [intros [= <- _ <-] Hb; by split_and!|].
  assert (forall o : option ((Z * Z) * bytes), o = (if 0 <? Z.of_nat room then separated 58 i read_ipv4 b else None) -> is_bytes b ->
    match o with Some ((g, h), b') => is_u16 g /\ is_u16 h /\ is_bytes b' /\ (1 <= room)%nat | None => True end) as H4.
  { intros o -> Hb. destruct (Z.ltb_spec 0 (Z.of_nat room)); [|done]. destruct (separated 58 i read_ipv4 b) as [[[g h] b']|] eqn:E; [|done].
    destruct (separated_ok _ _ _ _ _ _ E Hb) as (b1 & E1 & Hb1). apply read_ipv4_ok in E1; [|done]. destruct E1 as (? & ? & ?). split_and!; done || lia. }
  specialize (H4 _ eq_refl). destruct (if 0 <? Z.of_nat room then separated 58 i read_ipv4 b else None) as [[[g h] b']|].
  { intros [= <- _ <-] Hb. destruct (H4 Hb) as (? & ? & ? & ?). split_and!; [apply List.Forall_cons; [done|]; by apply List.Forall_cons|cbn; lia|done]. }
  clear H4. destruct (separated 58 i (read_number 16 u16_max 4 true) b) as [[g b']|] eqn:E; [|intros [= <- _ <-] Hb; split_and!; [done|cbn; lia|done]].
  destruct (read_groups room (i + 1) b') as [[gs' v] b2] eqn:E2. intros [= <- _ <-] Hb. destruct (separated_ok _ _ _ _ _ _ E Hb) as (b1 & E1 & Hb1).
  apply read_number_ok in E1 as [Hg Hb']; [|done..]. destruct (IH _ _ _ _ E2 Hb') as (? & ? & ?). split_and!; [by constructor|cbn; lia|done].
Qed.
Lemma given_bytes c b t : given c b = Some t -> is_bytes b -> is_bytes t.
Proof. destruct b as [|x b]; [done|]. cbn [given]. destruct (x =? c); [|done]. by intros [= <-] [_ H]%is_bytes_cons. Qed.
Lemma read_ipv6_ok b gs rest : read_ipv6 b = Some (gs, rest) -> is_bytes b -> Forall is_u16 gs /\ length gs = 8%nat.
Proof.
  intros H Hb. unfold read_ipv6 in H. destruct (read_groups 8 0 b) as [[head v4] b1] eqn:E. destruct (read_groups_ok _ _ _ _ _ _ E Hb) as (Hg & Hl & Hb1).
  destruct (Z.eqb_spec (len head) 8) as [L|L]; [injection H as <- <-; split; [done|unfold len in L; lia]|]. destruct v4; [done|].
  destruct (given 58 b1) as [b2|] eqn:E2; [|done]. cbn [mbind option_bind] in H. apply given_bytes in E2; [|done].
  destruct (given 58 b2) as [b3|] eqn:E3; [|done]. cbn [mbind option_bind] in H. apply given_bytes in E3; [|done].
  destruct (read_groups (7 - length head) 0 b3) as [[tail v] b4] eqn:E4. destruct (read_groups_ok _ _ _ _ _ _ E4 E3) as (Ht & Hlt & _). injection H as <- <-.
  unfold len in L. split; [|rewrite !length_app, length_replicate; lia]. apply Forall_app. split; [done|]. apply Forall_app. split; [|done]. apply Forall_replicate. u_lia.
Qed.
Lemma of_groups_app a b : of_groups (a ++ b) = of_groups a * 65536 ^ len b + of_groups b.
Proof.
  unfold of_groups. rewrite foldl_app. generalize (foldl (fun a g => a * 65536 + g) 0 a) as x. induction b as [|g b IH] using rev_ind; intros x; [rewrite len_nil, Z.pow_0_r; cbn; lia|].
  rewrite !foldl_app, len_app. cbn [foldl]. rewrite IH. change (len [g]) with 1. rewrite Z.pow_add_r by (pose proof (len_nonneg b); lia). lia.
Qed.
Lemma of_groups_bound gs : Forall is_u16 gs -> 0 <= of_groups gs < 65536 ^ len gs.
Proof.
  induction gs as [|g gs IH] using rev_ind; [done|]. rewrite Forall_app. intros [H1 H2%List.Forall_inv]. specialize (IH H1). rewrite of_groups_app, len_app.
  change (len [g]) with 1. change (of_groups [g]) with g. rewrite Z.pow_add_r by (pose proof (len_nonneg gs); lia). unfold is_u16, u16_max in H2. lia.
Qed.
Lemma parse_ipv6_u128 b a : is_bytes b -> parse_ipv6 b = Some a -> is_u128 a.
Proof.
  unfold parse_ipv6. intros Hb. destruct (read_ipv6 b) as [[gs rest]|] eqn:E; [|done]. cbn [mbind option_bind]. destruct rest; [|done]. intros [= <-].
  destruct (read_ipv6_ok _ _ _ E Hb) as [Hg Hl]. pose proof (of_groups_bound gs Hg) as H. replace (len gs) with 8 in H by (unfold len; lia). change (65536 ^ 8) with (u128_max + 1) in H. u_lia.
Qed.

(** ** What is printed is parsed back *)

Definition value (radix acc : Z) (xs : list Z) : Z := foldl (fun a x => a * radix + x) acc xs.
Lemma value_ge radix acc xs : 1 <= radix -> 0 <= acc -> Forall (fun x => 0 <= x < radix) xs -> acc <= value radix acc xs.
Proof.
  revert acc. induction xs as [|x xs IH]; intros acc Hr Ha Hx; [done|]. apply List.Forall_cons_iff in Hx as [H1 H2]. change (acc <= value radix (acc * radix + x) xs).
  specialize (IH (acc * radix + x) Hr ltac:(nia) H2). nia.
Qed.
Lemma value_snoc radix acc xs x : value radix acc (xs ++ [x]) = value radix acc xs * radix + x.
Proof. unfold value. by rewrite foldl_app. Qed.
(** The digits of a number: those of its value, without leading zeros. *)
Record digits_of (radix n : Z) (xs : list Z) : Prop := {
  do_each : Forall (fun x => 0 <= x < radix) xs;
  do_value : value radix 0 xs = n;
  do_some : xs <> [];
  do_first : 0 < n -> hd 0 xs <> 0;
  do_zero : n = 0 -> xs = [0];
}.
Lemma digits_before_spec radix fuel n acc : 2 <= radix -> 0 <= n < radix ^ Z.of_nat fuel -> fuel <> O ->
  exists xs, digits_before fuel radix n acc = map digit xs ++ acc /\ digits_of radix n xs.
Proof.
  intros Hr. revert n acc. induction fuel as [|fuel IH]; intros n acc Hn Hf; [done|]. cbn [digits_before]. cbv zeta. destruct (Z.ltb_spec n radix).
  - exists [n]. rewrite Z.mod_small by lia. split; [done|]. split; try done; [apply List.Forall_cons; [lia|constructor]|cbn; lia|intros ->; done].
  - rewrite Nat2Z.inj_succ, Z.pow_succ_r in Hn by lia. pose proof (Z.mod_pos_bound n radix ltac:(lia)) as Hm. pose proof (Z.div_mod n radix ltac:(lia)) as Hd.
    assert (1 <= n / radix) as H1 by (apply Z.div_le_lower_bound; lia).
    destruct (IH (n / radix) (digit (n mod radix) :: acc)) as (xs & -> & [D1 D2 D3 D4 D5]).
    { split; [lia|]. apply Z.div_lt_upper_bound; lia. }
    { intros ->. cbn in Hn. lia. }
    exists (xs ++ [n mod radix]). split; [by rewrite map_app, <-app_assoc|]. split.
    + apply Forall_app. split; [done|]. apply List.Forall_cons; [done|constructor].
    + rewrite value_snoc, D2. lia.
    + by destruct xs.
    + intros _. destruct xs as [|x xs]; [done|]. apply D4. lia.
    + lia.
Qed.
Lemma value_pow radix acc xs : 2 <= radix -> 0 <= acc -> Forall (fun x => 0 <= x < radix) xs -> acc * radix ^ len xs <= value radix acc xs.
Proof.
  intros Hr. revert acc. induction xs as [|x xs IH]; intros acc Ha Hx; [rewrite len_nil, Z.pow_0_r; cbn; lia|]. apply List.Forall_cons_iff in Hx as [H1 H2].
  rewrite len_cons, Z.pow_add_r, Z.pow_1_r by (pose proof (len_nonneg xs); lia). change (value radix acc (x :: xs)) with (value radix (acc * radix + x) xs).
  specialize (IH (acc * radix + x) ltac:(nia) H2). pose proof (Z.pow_pos_nonneg radix (len xs) ltac:(lia) (len_nonneg xs)). nia.
Qed.
Lemma digits_short radix n xs k : 2 <= radix -> digits_of radix n xs -> 0 <= n < radix ^ Z.of_nat k -> (1 <= k)%nat -> (length xs <= k)%nat.
Proof.
  intros Hr [D1 D2 D3 D4 D5] Hn Hk. destruct (Z.eq_dec n 0) as [E|E]; [by rewrite (D5 E)|]. destruct xs as [|x xs]; [done|]. specialize (D4 ltac:(lia)). cbn [hd] in D4.
  apply List.Forall_cons_iff in D1 as [Hx D1]. pose proof (value_pow radix x xs Hr ltac:(lia) D1) as H.
  change (value radix 0 (x :: xs)) with (value radix (0 * radix + x) xs) in D2. rewrite Z.mul_0_l, Z.add_0_l in D2. rewrite D2 in H.
  cbn [length]. destruct (decide (S (length xs) <= k)%nat) as [|Hgt]; [done|]. pose proof (Z.pow_le_mono_r radix (Z.of_nat k) (len xs) ltac:(lia) ltac:(unfold len; lia)).
  pose proof (Z.pow_pos_nonneg radix (len xs) ltac:(lia) (len_nonneg xs)). nia.
Qed.

(** A text that no digit begins. *)
Definition stops (radix : Z) (b : bytes) : Prop := match b with [] => True | c :: _ => to_digit radix c = None end.
Lemma to_digit_digit radix x : radix <= 16 -> 0 <= x < radix -> to_digit radix (digit x) = Some x.
Proof.
  intros Hr Hx. unfold digit, to_digit. destruct (Z.ltb_spec x 10).
  - destruct (Z.leb_spec 48 (48 + x)), (Z.leb_spec (48 + x) 57); try lia. cbn [andb]. cbv zeta. replace (48 + x - 48) with x by lia. by destruct (Z.ltb_spec x radix); [|lia].
  - destruct (Z.leb_spec 48 (87 + x)), (Z.leb_spec (87 + x) 57), (Z.leb_spec 97 (87 + x)), (Z.leb_spec (87 + x) 122); try lia. cbn [andb]. cbv zeta.
    replace (87 + x - 87) with x by lia. by destruct (Z.ltb_spec x radix); [|lia].
Qed.
Lemma digit_bytes x : 0 <= x < 16 -> 48 <= digit x <= 102 /\ digit x <> 58.
Proof. intros. unfold digit. destruct (Z.ltb_spec x 10); lia. Qed.
Lemma digit_zero x : 0 <= x < 16 -> digit x = 48 -> x = 0.
Proof. intros. unfold digit in *. destruct (Z.ltb_spec x 10); lia. Qed.
Lemma number_digits radix n : radix = 10 \/ radix = 16 -> is_u128 n -> exists xs, number radix n = map digit xs /\ digits_of radix n xs.
Proof.
  intros Hr Hn. destruct (digits_before_spec radix 40 n []) as (xs & E & Hd); [lia| |done|].
  - assert (u128_max < radix ^ Z.of_nat 40) by (destruct Hr as [-> | ->]; by vm_compute). u_lia.
  - exists xs. unfold number. by rewrite E, app_nil_r.
Qed.
Lemma read_digits_value radix max acc xs : radix <= 16 -> 1 <= radix -> 0 <= acc -> Forall (fun x => 0 <= x < radix) xs -> value radix acc xs <= max ->
  read_digits radix max acc (map digit xs) = Some (value radix acc xs).
Proof.
  intros Hr Hr1. revert acc. induction xs as [|x xs IH]; intros acc Ha Hx Hv; [done|]. apply List.Forall_cons_iff in Hx as [H1 H2]. cbn [map read_digits].
  rewrite to_digit_digit by done. cbn [mbind option_bind]. cbv zeta. change (value radix acc (x :: xs)) with (value radix (acc * radix + x) xs) in *.
  pose proof (value_ge radix (acc * radix + x) xs Hr1 ltac:(nia) H2). destruct (Z.ltb_spec max (acc * radix + x)); [lia|]. apply IH; [nia|done|done].
Qed.
Lemma parse_int_number radix max n : radix = 10 \/ radix = 16 -> is_u128 n -> n <= max -> parse_int radix max (number radix n) = Some n.
Proof.
  intros Hr Hn Hm. destruct (number_digits radix n Hr Hn) as (xs & -> & [D1 D2 D3 _ _]). destruct xs as [|x xs]; [done|]. cbn [map parse_int]. cbv zeta.
  assert (0 <= x < radix) as Hx by exact (List.Forall_inv D1). pose proof (digit_bytes x ltac:(lia)). destruct (Z.eqb_spec (digit x) 43); [lia|]. change (digit x :: map digit xs) with (map digit (x :: xs)).
  rewrite read_digits_value; [by rewrite D2|lia|lia|done|done|lia].
Qed.
Lemma read_run_value radix max room acc xs rest : radix <= 16 -> 1 <= radix -> 0 <= acc -> Forall (fun x => 0 <= x < radix) xs -> value radix acc xs <= max ->
  (length xs <= room)%nat -> stops radix rest -> read_run radix max room acc (map digit xs ++ rest) = Some (value radix acc xs, rest).
Proof.
  intros Hr Hr1. revert room acc. induction xs as [|x xs IH]; intros room acc Ha Hx Hv Hl Hs.
  - cbn [map app]. destruct rest as [|c rest]; [done|]. cbn [read_run]. cbn [stops] in Hs. by rewrite Hs.
  - apply List.Forall_cons_iff in Hx as [H1 H2]. cbn [map app read_run]. rewrite to_digit_digit by done. cbv zeta. change (value radix acc (x :: xs)) with (value radix (acc * radix + x) xs) in *.
    pose proof (value_ge radix (acc * radix + x) xs Hr1 ltac:(nia) H2). destruct (Z.ltb_spec max (acc * radix + x)); [lia|]. cbn [length] in Hl. destruct room as [|room]; [lia|].
    apply IH; [nia|done|done|lia|done].
Qed.
Lemma read_number_number radix max room z n rest : radix = 10 \/ radix = 16 -> is_u128 n -> n <= max -> n < radix ^ Z.of_nat room -> (1 <= room)%nat -> stops radix rest ->
  read_number radix max room z (number radix n ++ rest) = Some (n, rest).
Proof.
  intros Hr Hn Hm Hroom H1 Hs. destruct (number_digits radix n Hr Hn) as (xs & -> & Hd). pose proof (digits_short radix n xs room ltac:(lia) Hd ltac:(u_lia) H1) as Hl.
  destruct Hd as [D1 D2 D3 D4 D5]. unfold read_number. rewrite read_run_value by (done || lia). rewrite D2. cbn [mbind option_bind]. cbv zeta.
  rewrite len_app, len_map. replace (len xs + len rest - len rest) with (len xs) by lia. destruct (Z.eqb_spec (len xs) 0) as [E|E]; [by apply len_0 in E|].
  destruct (negb z && _ && _) eqn:G; [|done]. rewrite !andb_true_iff in G. destruct G as [[_ G1] G2%Z.ltb_lt]. apply starts_with_spec in G1 as (t & G1).
  destruct xs as [|x xs]; [done|]. cbn [map app] in G1. injection G1 as G1 _. apply digit_zero in G1; [|assert (0 <= x < radix) by exact (List.Forall_inv D1); lia]. subst x.
  destruct (Z.eq_dec n 0) as [Z0|Z0]; [specialize (D5 Z0); injection D5 as ->; done|]. specialize (D4 ltac:(u_lia)). done.
Qed.

(** *** Addresses *)

Lemma separated_suffix {A} c i (inner : bytes -> option (A * bytes)) b x rest : (forall b, forall y r, inner b = Some (y, r) -> r `suffix_of` b) ->
  separated c i inner b = Some (x, rest) -> rest `suffix_of` b.
Proof.
  intros Hi. unfold separated. destruct (0 <? i); cbn [mbind option_bind]; [|apply Hi]. destruct b as [|y b]; [done|]. cbn [given].
  destruct (y =? c); [|done]. cbn [mbind option_bind]. intros H%Hi. by apply suffix_cons_r.
Qed.
Lemma read_number_suffix radix max room z b n rest : read_number radix max room z b = Some (n, rest) -> rest `suffix_of` b.
Proof.
  unfold read_number. destruct (read_run radix max room 0 b) as [[m r]|] eqn:Er; [|done]. cbn [mbind option_bind]. cbv zeta.
  destruct (len b - len r =? 0); [done|]. destruct (_ && _ && _); [done|]. intros [= <- <-]. by eapply read_run_suffix.
Qed.
Lemma suffix_not_in (c : Z) a b : a `suffix_of` b -> ~ In c b -> ~ In c a.
Proof. intros [k ->] Hn Hin. apply Hn, in_app_iff. by right. Qed.
Lemma separated_absent {A} c i (inner : bytes -> option (A * bytes)) b : 0 < i -> ~ In c b -> separated c i inner b = None.
Proof.
  intros Hi Hb. unfold separated. rewrite (proj2 (Z.ltb_lt _ _) Hi). destruct b as [|y b]; [done|]. cbn [given]. destruct (Z.eqb_spec y c) as [->|]; [|done].
  destruct Hb. by left.
Qed.
Lemma read_number_none radix max room z b : stops radix b -> read_number radix max room z b = None.
Proof.
  intros Hs. unfold read_number. replace (read_run radix max room 0 b) with (Some (0, b)) by (destruct b as [|c b]; [done|cbn [read_run stops] in *; by rewrite Hs]).
  cbn [mbind option_bind]. cbv zeta. by rewrite Z.sub_diag.
Qed.
(** A text without a full stop holds no IPv4 address. *)
Lemma read_ipv4_plain b : ~ In 46 b -> read_ipv4 b = None.
Proof.
  intros Hb. unfold read_ipv4. cbn [read_octets]. destruct (separated 46 0 (read_number 10 u8_max 3 false) b) as [[x b1]|] eqn:E; [|done]. cbn [mbind option_bind].
  apply separated_suffix in E; [|intros ? ? ?; apply read_number_suffix]. rewrite separated_absent by (done || by eapply suffix_not_in). done.
Qed.
Lemma read_ipv4_none b : stops 10 b -> separated 58 0 read_ipv4 b = None.
Proof. intros Hs. unfold read_ipv4, separated. cbn [Z.ltb Z.compare mbind option_bind read_octets]. unfold separated. cbn [Z.ltb Z.compare mbind option_bind]. by rewrite read_number_none. Qed.
Lemma separated_plain i b : ~ In 46 b -> separated 58 i read_ipv4 b = None.
Proof.
  intros Hb. unfold separated. destruct (0 <? i); cbn [mbind option_bind]; [|by apply read_ipv4_plain]. destruct b as [|y b]; [done|]. cbn [given].
  destruct (y =? 58); [|done]. cbn [mbind option_bind]. apply read_ipv4_plain. intros H. apply Hb. by right.
Qed.
Lemma number_chars radix n c : radix = 10 \/ radix = 16 -> is_u128 n -> In c (number radix n) -> 48 <= c <= 102 /\ c <> 58.
Proof.
  intros Hr Hn. destruct (number_digits radix n Hr Hn) as (xs & -> & [D1 _ _ _ _]). intros (x & <- & Hx)%in_map_iff. apply digit_bytes.
  assert (0 <= x < radix) by exact (proj1 (List.Forall_forall _ _) D1 x Hx). lia.
Qed.
(** What follows the groups that are read: nothing, or the gap. *)
Definition ends_groups (b : bytes) : Prop := b = [] \/ exists t, b = 58 :: 58 :: t.
Lemma ends_stops b : ends_groups b -> stops 16 b.
Proof. intros [->|[t ->]]; done. Qed.
Definition tailed (gs : list Z) : bytes := concat (map (fun g => 58 :: number 16 g) gs).
Lemma show_tailed g gs : show_groups (g :: gs) = number 16 g ++ tailed gs.
Proof.
  unfold show_groups, tailed. revert g. induction gs as [|h gs IH]; intros g; [cbn; by rewrite app_nil_r|]. cbn [map concat]. specialize (IH h). cbn [map] in IH.
  change (join 58 (number 16 g :: number 16 h :: map (number 16) gs)) with (number 16 g ++ 58 :: join 58 (number 16 h :: map (number 16) gs)). rewrite IH. done.
Qed.
Lemma tailed_plain gs c : Forall is_u16 gs -> In c (tailed gs) -> 48 <= c.
Proof.
  intros Hg. unfold tailed. intros (t & (g & <- & Hin)%in_map_iff & Hc)%in_concat. destruct Hc as [<-|Hc]; [lia|]. apply number_chars in Hc; [lia|by right|].
  pose proof (proj1 (List.Forall_forall _ _) Hg g Hin). u_lia.
Qed.
Lemma tailed_stops gs rest : ends_groups rest -> stops 16 (tailed gs ++ rest).
Proof. intros Hr. destruct gs as [|g gs]; [by apply ends_stops|done]. Qed.
Lemma read_group g rest : is_u16 g -> stops 16 rest -> read_number 16 u16_max 4 true (number 16 g ++ rest) = Some (g, rest).
Proof. intros Hg Hs. apply read_number_number; [by right|u_lia|u_lia|change (16 ^ Z.of_nat 4) with (u16_max + 1); u_lia|lia|done]. Qed.
Lemma no_group_at i rest : 0 <= i -> ends_groups rest -> separated 58 i (read_number 16 u16_max 4 true) rest = None.
Proof.
  intros Hi [->|[t ->]]; unfold separated; destruct (Z.ltb_spec 0 i); [done|by apply read_number_none| |].
  - cbn [given Z.eqb Pos.eqb mbind option_bind]. by apply read_number_none.
  - cbn [mbind option_bind]. by apply read_number_none.
Qed.
Lemma read_groups_end room i rest : 0 <= i -> ends_groups rest -> ~ In 46 rest -> read_groups room i rest = ([], false, rest).
Proof.
  intros Hi Hr Hp. destruct room as [|room]; [done|]. cbn [read_groups]. rewrite separated_plain by done. rewrite no_group_at by done. by destruct (0 <? Z.of_nat room).
Qed.
Lemma read_tailed gs room i rest : Forall is_u16 gs -> (length gs <= room)%nat -> 0 < i -> ends_groups rest -> ~ In 46 rest ->
  read_groups room i (tailed gs ++ rest) = (gs, false, rest).
Proof.
  intros Hg. revert room i. induction gs as [|g gs IH]; intros room i Hl Hi Hr Hp; [apply read_groups_end; try done; lia|].
  apply List.Forall_cons_iff in Hg as [Hg1 Hg2]. cbn [length] in Hl. destruct room as [|room]; [lia|]. cbn [read_groups].
  rewrite separated_plain.
  2:{ intros [Hc|Hc]%in_app_iff; [|done]. apply tailed_plain in Hc; [lia|by constructor]. }
  assert (separated 58 i (read_number 16 u16_max 4 true) (tailed (g :: gs) ++ rest) = Some (g, tailed gs ++ rest)) as ->.
  { unfold separated. rewrite (proj2 (Z.ltb_lt _ _) Hi). change (tailed (g :: gs)) with (58 :: number 16 g ++ tailed gs). cbn [app given Z.eqb Pos.eqb mbind option_bind].
    rewrite <-app_assoc. apply read_group; [done|by apply tailed_stops]. }
  rewrite (IH Hg2 room (i + 1)) by (done || lia). by destruct (0 <? Z.of_nat room).
Qed.
Lemma read_shown gs room rest : Forall is_u16 gs -> (length gs <= room)%nat -> ends_groups rest -> ~ In 46 rest ->
  read_groups room 0 (show_groups gs ++ rest) = (gs, false, rest).
Proof.
  intros Hg Hl Hr Hp. destruct gs as [|g gs].
  - by apply read_groups_end.
  - cbn [length] in Hl. destruct room as [|room]; [lia|]. cbn [read_groups]. apply List.Forall_cons_iff in Hg as [Hg1 Hg2]. rewrite show_tailed. rewrite <-app_assoc.
    rewrite separated_plain.
    2:{ intros [Hc|[Hc|Hc]%in_app_iff]%in_app_iff; [|apply tailed_plain in Hc; [lia|done]|done]. apply number_chars in Hc; [lia|by right|u_lia]. }
    assert (separated 58 0 (read_number 16 u16_max 4 true) (number 16 g ++ tailed gs ++ rest) = Some (g, tailed gs ++ rest)) as ->.
    { unfold separated. cbn [Z.ltb Z.compare mbind option_bind]. apply read_group; [done|by apply tailed_stops]. }
    rewrite read_tailed by (done || lia). by destruct (0 <? Z.of_nat room).
Qed.
(** The run of zeros that the gap stands for. *)
Lemma zero_run_spec gs : forall i done_ current longest, len done_ = i ->
  (0 <= current.2 <= i /\ (current.2 <> 0 -> current.1 = i - current.2) /\ drop (Z.to_nat (i - current.2)) done_ = replicate (Z.to_nat current.2) 0) ->
  (0 <= longest.1 /\ 0 <= longest.2 /\ longest.1 + longest.2 <= i /\ take (Z.to_nat longest.2) (drop (Z.to_nat longest.1) done_) = replicate (Z.to_nat longest.2) 0) ->
  let r := zero_run gs i current longest in
  0 <= r.1 /\ 0 <= r.2 /\ r.1 + r.2 <= len (done_ ++ gs) /\ take (Z.to_nat r.2) (drop (Z.to_nat r.1) (done_ ++ gs)) = replicate (Z.to_nat r.2) 0.
Proof.
  induction gs as [|g gs IH]; intros i done_ current longest Hi Hc Hl; cbn zeta; cbn [zero_run].
  { rewrite app_nil_r, Hi. exact Hl. }
  replace (done_ ++ g :: gs) with ((done_ ++ [g]) ++ gs) by (by rewrite <-app_assoc). assert (len (done_ ++ [g]) = i + 1) as Hi' by (rewrite len_app, len_cons, len_nil; lia).
  assert (forall c : Z * Z, 0 <= c.1 -> 0 <= c.2 -> c.1 + c.2 <= i -> take (Z.to_nat c.2) (drop (Z.to_nat c.1) done_) = replicate (Z.to_nat c.2) 0 ->
    take (Z.to_nat c.2) (drop (Z.to_nat c.1) (done_ ++ [g])) = replicate (Z.to_nat c.2) 0) as Hkeep.
  { intros c H1 H2 H3 <-. unfold len in Hi. rewrite drop_app_le by lia. rewrite take_app_le; [done|]. rewrite length_drop. lia. }
  destruct Hc as (C1 & C2 & C3). destruct Hl as (L1 & L2 & L3 & L4). destruct (Z.eqb_spec g 0) as [->|Hg].
  - set (c := if current.2 =? 0 then (i, 1) else (current.1, current.2 + 1)). assert (c.2 = current.2 + 1 /\ c.1 = i - current.2) as [E2 E1].
    { unfold c. destruct (Z.eqb_spec current.2 0) as [->|]; cbn; [lia|]. split; [done|by apply C2]. }
    assert (drop (Z.to_nat (i + 1 - c.2)) (done_ ++ [0]) = replicate (Z.to_nat c.2) 0) as Hd.
    { replace (i + 1 - c.2) with (i - current.2) by lia. unfold len in Hi. rewrite drop_app_le by lia. rewrite C3, E2. replace (Z.to_nat (current.2 + 1)) with (Z.to_nat current.2 + 1)%nat by lia. by rewrite replicate_add. }
    apply IH; [done|split_and!; [lia|lia|lia|done]|]. destruct (Z.ltb_spec longest.2 c.2); [|split_and!; [done|done|lia|by apply Hkeep]].
    split_and!; [lia|lia|lia|]. rewrite E1. replace (i - current.2) with (i + 1 - c.2) by lia. rewrite Hd. apply take_ge. rewrite length_replicate. lia.
  - apply IH; [done|split_and!; cbn; [lia|lia|lia|]|split_and!; [done|done|lia|by apply Hkeep]]. rewrite Z.sub_0_r. apply drop_ge. unfold len in Hi'. lia.
Qed.
Lemma zero_run_gap gs s n : zero_run gs 0 (0, 0) (0, 0) = (s, n) ->
  0 <= s /\ 0 <= n /\ s + n <= len gs /\ gs = take (Z.to_nat s) gs ++ replicate (Z.to_nat n) 0 ++ drop (Z.to_nat (s + n)) gs.
Proof.
  intros E. pose proof (zero_run_spec gs 0 [] (0, 0) (0, 0) eq_refl) as H. cbn zeta in H. rewrite E in H. cbn in H.
  destruct H as (H1 & H2 & H3 & H4); [by split_and!|by split_and!|]. split_and!; try done. rewrite <-H4. rewrite Z2Nat.inj_add by lia. rewrite <-drop_drop.
  by rewrite !take_drop.
Qed.
Lemma groups_u16 a : Forall is_u16 (groups a).
Proof. unfold groups. apply List.Forall_map, List.Forall_forall. intros i _. unfold segment6. pose proof (Z.mod_pos_bound (Z.shiftr a (112 - 16 * i)) 65536 ltac:(lia)). u_lia. Qed.
Lemma of_groups_groups a : is_u128 a -> of_groups (groups a) = a.
Proof.
  intros Ha. unfold groups, segment6, of_groups. cbn [map foldl]. rewrite !Z.shiftr_div_pow2 by lia.
  assert (forall k, 0 <= k -> a / 2 ^ k = a / 2 ^ (k + 16) * 65536 + (a / 2 ^ k) mod 65536) as H.
  { intros k Hk. rewrite Z.pow_add_r, <-Z.div_div by lia. change (2 ^ 16) with 65536. rewrite Z.mul_comm. apply Z.div_mod. done. }
  assert (a / 2 ^ 128 = 0) as H8 by (apply Z.div_small; change (2 ^ 128) with (u128_max + 1); u_lia).
  pose proof (H 0 ltac:(lia) : _ = a / 2 ^ 16 * _ + _) as G0. pose proof (H 16 ltac:(lia) : _ = a / 2 ^ 32 * _ + _) as G1.
  pose proof (H 32 ltac:(lia) : _ = a / 2 ^ 48 * _ + _) as G2. pose proof (H 48 ltac:(lia) : _ = a / 2 ^ 64 * _ + _) as G3.
  pose proof (H 64 ltac:(lia) : _ = a / 2 ^ 80 * _ + _) as G4. pose proof (H 80 ltac:(lia) : _ = a / 2 ^ 96 * _ + _) as G5.
  pose proof (H 96 ltac:(lia) : _ = a / 2 ^ 112 * _ + _) as G6. pose proof (H 112 ltac:(lia) : _ = a / 2 ^ 128 * _ + _) as G7. clear H.
  rewrite Z.pow_0_r, Z.div_1_r in G0. rewrite H8 in G7.
  repeat match goal with |- context [112 - ?x] => let v := eval vm_compute in (112 - x) in change (112 - x) with v end. rewrite Z.pow_0_r, Z.div_1_r. lia.
Qed.
Lemma read_octet o i rest : is_u8 o -> 0 < i -> stops 10 rest -> separated 46 i (read_number 10 u8_max 3 false) (46 :: dec o ++ rest) = Some (o, rest).
Proof.
  intros Ho Hi Hs. unfold separated. rewrite (proj2 (Z.ltb_lt _ _) Hi). cbn [given Z.eqb Pos.eqb mbind option_bind].
  apply read_number_number; [by left|u_lia|u_lia|change (10 ^ Z.of_nat 3) with 1000; u_lia|lia|done].
Qed.
Lemma read_shown4 o0 o1 o2 o3 : is_u8 o0 -> is_u8 o1 -> is_u8 o2 -> is_u8 o3 -> read_ipv4 (join 46 (map dec [o0; o1; o2; o3])) = Some ((u16be o0 o1, u16be o2 o3), []).
Proof.
  intros H0 H1 H2 H3. unfold read_ipv4. cbn [map join read_octets].
  assert (forall rest, stops 10 rest -> separated 46 0 (read_number 10 u8_max 3 false) (dec o0 ++ rest) = Some (o0, rest)) as ->.
  { intros rest Hs. unfold separated. cbn [Z.ltb Z.compare mbind option_bind]. apply read_number_number; [by left|u_lia|u_lia|change (10 ^ Z.of_nat 3) with 1000; u_lia|lia|done]. }
  2:{ done. }
  cbn [mbind option_bind Z.add Pos.add]. rewrite read_octet by done. cbn [mbind option_bind Z.add Pos.add Pos.succ]. rewrite read_octet by done. cbn [mbind option_bind Z.add Pos.add Pos.succ].
  rewrite <-(app_nil_r (dec o3)). by rewrite read_octet by done.
Qed.
Lemma read_groups_S room i b : read_groups (S room) i b =
  match (if 0 <? Z.of_nat room then separated 58 i read_ipv4 b else None) with
  | Some ((g, h), b) => ([g; h], true, b)
  | None =>
      match separated 58 i (read_number 16 u16_max 4 true) b with
      | Some (g, b) => let '(gs, v4, b) := read_groups room (i + 1) b in (g :: gs, v4, b)
      | None => ([], false, b)
      end
  end.
Proof. done. Qed.
Lemma parse_show_mapped a : is_u128 a -> Z.shiftr a 32 = 0xffff -> parse_ipv6 (ascii "::ffff:" ++ show_ipv4 (a mod 2 ^ 32)) = Some a.
Proof.
  intros Ha Hs. set (low := a mod 2 ^ 32). assert (0 <= low < 2 ^ 32) as Hl by (apply Z.mod_pos_bound; lia).
  assert (a = 0xffff * 2 ^ 32 + low) as Ea by (unfold low; rewrite <-Hs, Z.shiftr_div_pow2, Z.mul_comm by lia; by apply Z.div_mod). clearbody low. clear Hs.
  assert (is_bytes (be32 low)) as Hb by apply is_bytes_be. assert (of_be (be32 low) = low) as Eb by (apply of_be_be_small; change (256 ^ Z.of_nat 4) with (2 ^ 32); lia).
  unfold show_ipv4. destruct (be32 low) as [|o0 [|o1 [|o2 [|o3 [|]]]]] eqn:E; try done. unfold is_bytes in Hb. rewrite !List.Forall_cons_iff in Hb. destruct Hb as (H0 & H1 & H2 & H3 & _).
  set (d := join 46 (map dec [o0; o1; o2; o3])). pose proof (read_shown4 _ _ _ _ H0 H1 H2 H3) as Hd. fold d in Hd. clearbody d. clear E.
  change (ascii "::ffff:" ++ d) with (58 :: 58 :: ascii "ffff" ++ 58 :: d).
  assert (read_groups 7 0 (ascii "ffff" ++ 58 :: d) = ([0xffff; u16be o0 o1; u16be o2 o3], true, [])) as Hg.
  { rewrite read_groups_S. replace (separated 58 0 read_ipv4 (ascii "ffff" ++ 58 :: d)) with (@None ((Z * Z) * bytes)) by (symmetry; by apply read_ipv4_none).
    change (if 0 <? Z.of_nat 6 then None else None) with (@None ((Z * Z) * bytes)). change (ascii "ffff") with (number 16 0xffff). cbn match.
    assert (separated 58 0 (read_number 16 u16_max 4 true) (number 16 0xffff ++ 58 :: d) = Some (0xffff, 58 :: d)) as ->.
    { unfold separated. cbn [Z.ltb Z.compare mbind option_bind]. by apply read_group. }
    rewrite read_groups_S. assert (separated 58 (0 + 1) read_ipv4 (58 :: d) = Some ((u16be o0 o1, u16be o2 o3), [])) as ->; [exact Hd|done]. }
  unfold parse_ipv6, read_ipv6. replace (read_groups 8 0 (58 :: 58 :: ascii "ffff" ++ 58 :: d)) with (@nil Z, false, 58 :: 58 :: ascii "ffff" ++ 58 :: d).
  2:{ cbn [read_groups]. rewrite read_ipv4_none by done. unfold separated at 1. cbn [Z.ltb Z.compare Z.of_nat Pos.of_succ_nat mbind option_bind]. by rewrite read_number_none. }
  cbn [len length Z.of_nat Z.eqb given Pos.eqb mbind option_bind Nat.sub]. rewrite Hg. cbn [mbind option_bind length Nat.sub replicate app].
  change (len (@nil Z) =? 8) with false. cbn [mbind option_bind]. f_equal.
  cbn [of_be foldl] in Eb. unfold of_groups, u16be. cbn [foldl]. change (2 ^ 32) with 4294967296 in Ea. lia.
Qed.
Lemma parse_show_ipv6 a : is_u128 a -> parse_ipv6 (show_ipv6 a) = Some a.
Proof.
  intros Ha. unfold show_ipv6. destruct (Z.eqb_spec (Z.shiftr a 32) 0xffff) as [|_]; [by apply parse_show_mapped|]. pose proof (groups_u16 a) as Hg. pose proof (of_groups_groups a Ha) as Eg.
  assert (length (groups a) = 8%nat) as Hl by done. set (gs := groups a) in *. clearbody gs. destruct (zero_run gs 0 (0, 0) (0, 0)) as [s n] eqn:Ez.
  apply zero_run_gap in Ez as (H1 & H2 & H3 & E). unfold len in H3. rewrite Hl in H3.
  assert (forall c, Forall is_u16 c -> ~ In 46 (show_groups c)) as Hp.
  { intros [|g c] Hc Hin; [done|]. rewrite show_tailed in Hin. apply List.Forall_cons_iff in Hc as [Hc1 Hc2]. apply in_app_iff in Hin as [Hin|Hin]; [|apply tailed_plain in Hin; [lia|done]].
    apply number_chars in Hin; [lia|by right|u_lia]. }
  destruct (Z.ltb_spec 1 n) as [Hn|Hn].
  - set (head := take (Z.to_nat s) gs) in *. set (tl := drop (Z.to_nat (s + n)) gs) in *.
    assert (Forall is_u16 head /\ Forall is_u16 tl) as [Hh Ht] by (split; [by apply Forall_take|by apply Forall_drop]).
    assert (length head = Z.to_nat s) as Lh by (unfold head; rewrite length_take; lia). assert (length tl = (8 - Z.to_nat (s + n))%nat) as Lt by (unfold tl; rewrite length_drop; lia).
    unfold parse_ipv6, read_ipv6. rewrite read_shown; [|done|lia|right; by eexists|intros [Hc|[Hc|Hc]]; try done; by apply (Hp tl)].
    destruct (Z.eqb_spec (len head) 8); [unfold len in *; lia|]. cbn [app given Z.eqb Pos.eqb mbind option_bind].
    rewrite <-(app_nil_r (show_groups tl)). rewrite read_shown; [|done|lia|by left|by intros []].
    cbn [mbind option_bind]. replace (8 - length head - length tl)%nat with (Z.to_nat n) by lia. rewrite <-E. by rewrite Eg.
  - unfold parse_ipv6, read_ipv6. rewrite <-(app_nil_r (show_groups gs)). rewrite read_shown; [|done|lia|by left|by intros []].
    replace (len gs =? 8) with true by (symmetry; apply Z.eqb_eq; unfold len; lia). cbn [mbind option_bind]. by rewrite Eg.
Qed.

(** *** Bytes in hexadecimal *)
Lemma nibbles v : is_u8 v -> 0 <= Z.shiftr v 4 < 16 /\ 0 <= Z.land v 15 < 16 /\ Z.shiftr v 4 * 16 + Z.land v 15 = v.
Proof.
  intros Hv. change 15 with (Z.ones 4). rewrite Z.shiftr_div_pow2, Z.land_ones by lia. change (2 ^ 4) with 16. pose proof (Z.div_mod v 16 ltac:(lia)). pose proof (Z.mod_pos_bound v 16 ltac:(lia)).
  assert (v / 16 < 16) by (apply Z.div_lt_upper_bound; u_lia). assert (0 <= v / 16) by (apply Z.div_pos; u_lia). lia.
Qed.
Lemma hex_pairs b : is_bytes b -> unhex_pairs (hex b) = Ok b.
Proof.
  induction b as [|v b IH]; [done|]. intros [Hv Hb]%is_bytes_cons. destruct (nibbles v Hv) as (H1 & H2 & H3). change (hex (v :: b)) with (digit (Z.shiftr v 4) :: digit (Z.land v 15) :: hex b).
  cbn [unhex_pairs]. assert (parse_int 16 u8_max [digit (Z.shiftr v 4); digit (Z.land v 15)] = Some v) as ->; [|cbn [ok_or mbind outcome_bind]; by rewrite (IH Hb)].
  cbn [parse_int]. cbv zeta. pose proof (digit_bytes _ H1). destruct (Z.eqb_spec (digit (Z.shiftr v 4)) 43); [lia|].
  change ([digit (Z.shiftr v 4); digit (Z.land v 15)]) with (map digit [Z.shiftr v 4; Z.land v 15]).
  assert (value 16 0 [Z.shiftr v 4; Z.land v 15] = v) as E by (cbn; lia). rewrite read_digits_value; [by rewrite E|lia|lia|lia| |rewrite E; u_lia]. by repeat (apply List.Forall_cons; [done|]).
Qed.
Lemma hex_chars b c : is_bytes b -> In c (hex b) -> 48 <= c <= 102.
Proof.
  intros Hb (t & (v & <- & Hv)%in_map_iff & Hc)%in_concat. pose proof (proj1 (List.Forall_forall _ _) Hb v Hv) as Hv'. destruct (nibbles v Hv') as (H1 & H2 & _).
  pose proof (digit_bytes _ H1). pose proof (digit_bytes _ H2). destruct Hc as [<-|[<-|[]]]; lia.
Qed.
Lemma len_hex b : len (hex b) = 2 * len b.
Proof. induction b as [|v b IH]; [done|]. change (hex (v :: b)) with (digit (Z.shiftr v 4) :: digit (Z.land v 15) :: hex b). rewrite !len_cons, IH. lia. Qed.
Lemma unhex_hex b : is_bytes b -> unhex (hex b) = Ok b.
Proof.
  intros Hb. unfold unhex. rewrite len_hex, Z.mul_comm, Z.mod_mul by done. change (negb (0 =? 0)) with false. cbn [orb].
  replace (forallb (fun c => c <? 128) (hex b)) with true; [by apply hex_pairs|]. symmetry. apply forallb_forall. intros c Hc%hex_chars; [lia|done].
Qed.

(** *** Pieces *)

(** A word: printable characters without a blank. *)
Definition printable (b : bytes) : Prop := Forall (fun c => 33 <= c <= 126) b.
Definition is_word (b : bytes) : Prop := printable b /\ b <> [].
Lemma white_printable c b : 33 <= c <= 126 -> white (c :: b) = O.
Proof.
  intros Hc. cbn [white]. destruct ((9 <=? c) && (c <=? 13) || (c =? 32)) eqn:E; [lia|]. destruct b as [|d b]; [done|].
  destruct ((c =? 0xc2) && ((d =? 0x85) || (d =? 0xa0))) eqn:E2; [lia|]. destruct b as [|e b]; [done|].
  assert ((c =? 0xe1) = false /\ (c =? 0xe2) = false /\ (c =? 0xe3) = false) as (-> & -> & ->) by (split_and!; apply Z.eqb_neq; lia). done.
Qed.
Lemma words_word w fuel b word : printable w -> words (length w + fuel) (w ++ b) word = words fuel b (word ++ w).
Proof.
  revert word. induction w as [|c w IH]; intros word Hw; [by rewrite app_nil_r|]. apply List.Forall_cons_iff in Hw as [Hc Hw]. cbn [length Nat.add app words].
  rewrite white_printable by done. rewrite IH by done. by rewrite <-app_assoc.
Qed.
Lemma join_cons c p q ps : join c (p :: q :: ps) = p ++ c :: join c (q :: ps).
Proof. done. Qed.
Lemma split_join ws : Forall is_word ws -> split_whitespace (join 32 ws) = ws.
Proof.
  intros Hw. unfold split_whitespace. generalize (Nat.le_refl (S (length (join 32 ws)))) as Hf. generalize (S (length (join 32 ws))) at 2 3 as fuel.
  induction ws as [|w ws IH]; intros fuel Hf; [by destruct fuel|]. apply List.Forall_cons_iff in Hw as [[Hp Hne] Hw]. destruct ws as [|v ws].
  - cbn [join] in *. replace fuel with (length w + (fuel - length w))%nat by lia. pose proof (words_word w (fuel - length w) [] [] Hp) as E. rewrite app_nil_r in E. rewrite E. destruct (fuel - length w)%nat; cbn [words app]; by destruct w.
  - rewrite join_cons in *. rewrite length_app in Hf. cbn [length] in Hf. replace fuel with (length w + S (fuel - length w - 1))%nat by lia. rewrite words_word by done. cbn [words app].
    change (white (32 :: join 32 (v :: ws))) with 1%nat. cbn [drop]. destruct w as [|c w]; [done|]. f_equal. apply IH; [done|]. cbn [length] in *. lia.
Qed.
Lemma split_on_line c l b : ~ In c l -> split_on c (l ++ c :: b) = l :: split_on c b.
Proof.
  induction l as [|x l IH]; intros Hl; cbn [app split_on]; [by rewrite Z.eqb_refl|]. destruct (Z.eqb_spec x c) as [->|]; [destruct Hl; by left|].
  rewrite IH; [done|]. intros H. apply Hl. by right.
Qed.
Definition is_line (l : bytes) : Prop := ~ In 10 l /\ ~ In 13 l.
Lemma strip_absent c l : ~ In c l -> strip_last c l = None.
Proof.
  intros Hl. unfold strip_last. destruct (list.last l) as [x|] eqn:E; [|done]. destruct (Z.eqb_spec x c) as [->|]; [|done].
  destruct Hl. apply list_elem_of_In. apply last_Some in E as [k ->]. apply elem_of_app. right. by left.
Qed.
Lemma lines_ended ls : Forall is_line ls -> lines (concat (map (fun l => l ++ [10]) ls)) = ls.
Proof.
  unfold lines. induction ls as [|l ls IH]; intros Hl; [done|]. apply List.Forall_cons_iff in Hl as [[H1 H2] Hl]. cbn [map concat]. rewrite <-app_assoc. cbn [app].
  rewrite split_on_line by done. specialize (IH Hl). set (ps := split_on 10 (concat (map (fun l => l ++ [10]) ls))) in *.
  assert (ps <> []) as Hps by (unfold ps; by destruct (concat (map (fun l => l ++ [10]) ls)) as [|x b]; cbn [split_on]; [|destruct (x =? 10); [|destruct (split_on 10 b)]]).
  destruct ps as [|p ps]; [done|]. change (ended (l :: p :: ps)) with (default l (strip_last 13 l) :: ended (p :: ps)). by rewrite IH, strip_absent.
Qed.
Lemma rsplit_absent c p b : ~ In c b -> rsplit_once (c :: p) b = None.
Proof.
  induction b as [|x b IH]; intros Hb; [done|]. cbn [rsplit_once]. rewrite IH by (intros H; apply Hb; by right). unfold starts_with. cbn [length take beq].
  destruct (Z.eqb_spec x c) as [->|]; [destruct Hb; by left|done].
Qed.
Lemma rsplit_last c p l r : ~ In c (p ++ r) -> rsplit_once (c :: p) (l ++ (c :: p) ++ r) = Some (l, r).
Proof.
  intros Hr. induction l as [|x l IH]; cbn [app rsplit_once].
  - rewrite rsplit_absent by done. change (c :: p ++ r) with ((c :: p) ++ r). rewrite starts_with_app. cbn [app]. do 2 f_equal. change (c :: p ++ r) with ((c :: p) ++ r). by rewrite drop_app_length.
  - cbn [app] in IH. by rewrite IH.
Qed.
Lemma split_once_at c l r : ~ In c l -> split_once c (l ++ c :: r) = Some (l, r).
Proof.
  induction l as [|x l IH]; intros Hl; cbn [app split_once]; [by rewrite Z.eqb_refl|]. destruct (Z.eqb_spec x c) as [->|]; [destruct Hl; by left|].
  rewrite IH; [done|]. intros H. apply Hl. by right.
Qed.
Lemma strip_last_app c b : strip_last c (b ++ [c]) = Some b.
Proof. unfold strip_last. rewrite last_snoc, Z.eqb_refl. by rewrite List.removelast_last. Qed.
