(* ===== verification/Journal.v ===== *)
(** Durable state ([src/src/persist.rs], [src/src/persist/journal.rs]): the replacement of a
    file's contents, the journal that two owners of state share, and the table of records.

    The operations on files, [AtomicFileOps], and the store under the journal are classes;
    SHA-1 is a parameter of the journal. *)

From S2P Require Import Prelude Effects Maps Identity Text.

Definition MAX_JOURNAL_BYTES : Z := 8 * 1024 * 1024.

(** ** [atomic_replace] *)

Class AtomicFileOps (F : Type) := {
  file_write : bytes -> M F io_error Z;
  sync_file : M F io_error unit;
  file_replace : M F io_error unit;
  sync_parent : M F io_error unit;
}.

Section replace.
Context {F : Type} `{AtomicFileOps F}.
(** [while !bytes.is_empty()]; [None] is fuel running out. *)
Fixpoint write_loop (fuel : nat) (b : bytes) (f : F) : option (outcome io_error unit * F) :=
  match b with
  | [] => Some (Ok tt, f)
  | _ =>
      match fuel with
      | O => None
      | S fuel =>
          match file_write b f with
          | (Ok n, f') =>
              if n =? 0 then Some (Err WriteZero, f')
              else if n <=? len b then write_loop fuel (drop (Z.to_nat n) b) f'
              else Some (Err OtherError, f')
          | (Err e, f') => if decide (e = Interrupted) then write_loop fuel b f' else Some (Err e, f')
          | (Panic, f') => Some (Panic, f')
          end
      end
  end.
Definition finish_replace : M F io_error unit := sync_file ;; file_replace ;; sync_parent.
Definition atomic_replace (fuel : nat) (b : bytes) (f : F) : option (outcome io_error unit * F) :=
  if MAX_JOURNAL_BYTES <? len b then Some (Err OtherError, f) else
  match write_loop fuel b f with
  | Some (Ok _, f') => Some (finish_replace f')
  | Some (Err e, f') => Some (Err e, f')
  | Some (Panic, f') => Some (Panic, f')
  | None => None
  end.
End replace.

(** ** The journal *)

Definition journal_magic : bytes := ascii "SNAC-RUNTIME-1" ++ [0].
Definition legacy_snapshot : bytes := ascii "SNAC-SNAPSHOT-".
Definition legacy_identity : bytes := ascii "SNAC" ++ [1].

(** The two parts, [[Option<Vec<u8>>; 2]], and the index of one. *)
Inductive Slot := First | Second.
Record Parts := mkParts { part_first : option bytes; part_second : option bytes }.
Definition part (i : Slot) (p : Parts) : option bytes := match i with First => part_first p | Second => part_second p end.
Definition other_slot (i : Slot) : Slot := match i with First => Second | Second => First end.
Definition set_part (i : Slot) (v : option bytes) (p : Parts) : Parts :=
  match i with First => mkParts v (part_second p) | Second => mkParts (part_first p) v end.
(** [(n > 0).then(|| b.to_vec())] *)
Definition nonempty (b : bytes) : option bytes := if 0 <? len b then Some b else None.
Definition held (o : option bytes) : bytes := default [] o.

Section journal.
Context (sha1 : bytes -> bytes).

(** The [match] of [open] on the bytes of the store. *)
Definition parse_combined (b : bytes) : outcome io_error Parts :=
  let n := len journal_magic in
  reject_if len b <? n + 8 + 20 with InvalidData;
  let end_ := len b - 20 in
  body ← slice b 0 end_;
  tail ← slice_from b end_;
  reject_if negb (beq (sha1 body) tail) with InvalidData;
  a ← slice b n (n + 4);
  c ← slice b (n + 4) (n + 8);
  let a := of_be a in
  let c := of_be c in
  let start := n + 8 in
  reject_if (MAX_JOURNAL_BYTES <? a) || (MAX_JOURNAL_BYTES <? c) || negb (start + a + c =? end_) with InvalidData;
  first ← slice b start (start + a);
  second ← slice b (start + a) end_;
  Ok (mkParts (nonempty first) (nonempty second)).
Definition parts_of (o : option bytes) : outcome io_error Parts :=
  match o with
  | None => Ok (mkParts None None)
  | Some b =>
      reject_if MAX_JOURNAL_BYTES <? len b with InvalidData;
      if starts_with b journal_magic then parse_combined b
      else if starts_with b legacy_snapshot || starts_with b legacy_identity then Ok (mkParts (Some b) None)
      else Err InvalidData
  end.

Record Inner (S : Type) := mkInner { in_store : S; in_parts : Parts }.
Arguments mkInner {S} _ _.
Arguments in_store {S} _.
Arguments in_parts {S} _.

Context {S : Type} `{StateStore S}.
Definition journal_open (s : S) : outcome io_error (Inner S) * S :=
  match load s with
  | (Ok o, s') => (parts ← parts_of o; Ok (mkInner s' parts), s')
  | (Err e, s') => (Err e, s')
  | (Panic, s') => (Panic, s')
  end.
Definition part_load (i : Slot) : M (Inner S) io_error (option bytes) := gets (fun s => part i (in_parts s)).
(** What [save] writes: both parts under a checksum. *)
Definition combined (p : bytes * bytes) : bytes :=
  let b := journal_magic ++ be32 (len p.1 mod 2 ^ 32) ++ be32 (len p.2 mod 2 ^ 32) ++ p.1 ++ p.2 in
  b ++ sha1 b.
Definition save_store (b : bytes) : M (Inner S) io_error unit := fun st =>
  let '(r, s) := save b (in_store st) in (r, mkInner s (in_parts st)).
Definition part_save (i : Slot) (b : bytes) : M (Inner S) io_error unit :=
  state ← get;
  let other := held (part (other_slot i) (in_parts state)) in
  room ← lift (sub_chk MAX_JOURNAL_BYTES (len journal_magic));
  room ← lift (sub_chk room 28);
  if room <? sat64 (len b) (len other) then throw InvalidData else
  save_store (combined (match i with First => (b, other) | Second => (other, b) end)) ;;
  modify (fun st => mkInner (in_store st) (set_part i (nonempty b) (in_parts st))).
End journal.
Arguments mkInner {S} _ _.
Arguments in_store {S} _.
Arguments in_parts {S} _.

(** ** [Records] *)

Abbreviation Records := (gmap Z bytes).
Definition records_get (id : Z) (t : Records) : option bytes := t !! id.
Definition records_remove (id : Z) (t : Records) : Records := delete id t.
Definition records_set (id : Z) (b : bytes) : M Records io_error unit :=
  t ← get;
  let size := msum (fun k v => if k =? id then 0 else len v) t in
  if (4 * 1024 * 1024 <? len b) || (4 * 1024 * 1024 <? size + len b) || (negb (has_key t id) && (128 <=? slen t))
  then throw OtherError
  else modify (<[id := b]>).
