(* ===== verification/JournalFacts.v ===== *)
(** Properties of durable state: replacing a file's contents is all or nothing and ends, a
    save through the journal changes one part only, and the table of records is bounded. *)

From S2P Require Import Prelude Effects Maps Time Stateful Identity IdentityFacts Text Journal.

(** ** Files *)

(** What the operations of a file do to its new contents, to what is found under its name,
    and to what a crash keeps of the new contents; interruptions do not go on forever. *)
Class FileLaws (F : Type) `{AtomicFileOps F} := {
  staged : F -> bytes;
  visible : F -> option bytes;
  durable : F -> option bytes;
  patience : F -> nat;
  write_law b f :
    match file_write b f with
    | (Ok n, f') => 0 <= n /\ visible f' = visible f /\ (patience f' <= patience f)%nat /\
        (n <= len b -> staged f' = staged f ++ take (Z.to_nat n) b)
    | (Err e, f') => visible f' = visible f /\ staged f' = staged f /\ (e = Interrupted -> (patience f' < patience f)%nat)
    | (Panic, _) => False
    end;
  sync_law f :
    match sync_file f with
    | (Ok _, f') => visible f' = visible f /\ staged f' = staged f /\ durable f' = Some (staged f)
    | (Err _, f') => visible f' = visible f
    | (Panic, _) => False
    end;
  replace_law f :
    match file_replace f with
    | (Ok _, f') => visible f' = Some (staged f) /\ durable f' = durable f
    | (Err _, f') => visible f' = visible f
    | (Panic, _) => False
    end;
  parent_law f :
    match sync_parent f with
    | (Ok _, f') | (Err _, f') => visible f' = visible f /\ durable f' = durable f
    | (Panic, _) => False
    end;
}.

Section replacing.
Context {F : Type} `{FileLaws F}.

(** Each round writes at least one byte or uses up patience. *)
Lemma write_loop_total b f fuel : (length b + patience f <= fuel)%nat -> exists r, write_loop fuel b f = Some r.
Proof.
  revert b f. induction fuel as [|fuel IH]; intros [|x b] f Hf; cbn [write_loop length] in *; [by eexists|lia|by eexists|].
  pose proof (write_law (x :: b) f) as Hw. destruct (file_write (x :: b) f) as [[n|e|] f']; [| |done].
  - destruct (Z.eqb_spec n 0); [by eexists|]. destruct (Z.leb_spec n (len (x :: b))); [|by eexists].
    apply IH. rewrite length_drop. cbn [length]. lia.
  - destruct (decide (e = Interrupted)); [|by eexists]. apply IH. cbn [length]. destruct Hw as (_ & _ & Hp). specialize (Hp e0). lia.
Qed.
Lemma write_loop_staged b f fuel r f' : write_loop fuel b f = Some (r, f') ->
  r <> Panic /\ visible f' = visible f /\ (r = Ok tt -> staged f' = staged f ++ b).
Proof.
  revert b f. induction fuel as [|fuel IH]; intros [|x b] f; cbn [write_loop]; [intros [= <- <-]; by rewrite app_nil_r|done|intros [= <- <-]; by rewrite app_nil_r|].
  pose proof (write_law (x :: b) f) as Hw. destruct (file_write (x :: b) f) as [[n|e|] f1]; [| |done].
  - destruct Hw as (Hn & Hv & _ & Hs). destruct (Z.eqb_spec n 0); [by intros [= <- <-]|].
    destruct (Z.leb_spec n (len (x :: b))) as [Hle|]; [|by intros [= <- <-]].
    intros (H1 & H2 & H3)%IH. split; [done|]. split; [congruence|]. intros Hr. by rewrite (H3 Hr), (Hs Hle), <-app_assoc, take_drop.
  - destruct Hw as (Hv & Hs & _). destruct (decide (e = Interrupted)); [|by intros [= <- <-]].
    intros (H1 & H2 & H3)%IH. split; [done|]. split; [congruence|]. intros Hr. by rewrite (H3 Hr), Hs.
Qed.
Lemma finish_replace_atomic f r f' : finish_replace f = (r, f') ->
  r <> Panic /\ (visible f' = visible f /\ r <> Ok tt \/ visible f' = Some (staged f) /\ durable f' = Some (staged f)).
Proof.
  unfold finish_replace. cbv [mbind M_bind]. pose proof (sync_law f) as Hs. destruct (sync_file f) as [[u|e|] f1]; [|intros [= <- <-]; by split; [|left]|done].
  destruct Hs as (Hv1 & Hs1 & Hd1). pose proof (replace_law f1) as Hr. destruct (file_replace f1) as [[u1|e|] f2]; [| |done].
  - destruct Hr as (Hv2 & Hd2). pose proof (parent_law f2) as Hp. destruct (sync_parent f2) as [[[]|e|] f3]; [| |done];
      intros [= <- <-]; (split; [done|]); right; destruct Hp; split; congruence.
  - intros [= <- <-]. split; [done|]. left. split; [congruence|done].
Qed.

(** Replacing a file's contents ends: a round of the loop per byte and per interruption is enough fuel. *)
Theorem atomic_replace_terminates b f fuel : (length b + patience f <= fuel)%nat -> exists r f', atomic_replace fuel b f = Some (r, f') /\ r <> Panic.
Proof.
  intros Hf. unfold atomic_replace. destruct (_ <? _); [by eexists _, _|].
  destruct (write_loop_total b f fuel Hf) as [[r f'] Hr]. rewrite Hr. destruct (write_loop_staged b f fuel r f' Hr) as (Hs & _).
  destruct r as [u|e|]; [|by eexists _, _|done]. destruct (finish_replace f') as [r f2] eqn:Ef. eexists _, _. split; [done|].
  by destruct (finish_replace_atomic _ _ _ Ef).
Qed.
(** C28. Replacing a file's contents ends, without a panic, after at most a round per byte and per interruption; and whatever the writes, synchronizations and the renaming return, the name holds the old contents or all of the new ones, these only once they are on disk; success means the new ones. *)
Theorem atomic_replace_atomic b f fuel : staged f = [] ->
  ((length b + patience f <= fuel)%nat -> exists r f', atomic_replace fuel b f = Some (r, f') /\ r <> Panic) /\
  forall r f', atomic_replace fuel b f = Some (r, f') ->
    (r = Ok tt -> visible f' = Some b) /\
    (visible f' = visible f \/ visible f' = Some b /\ durable f' = Some b).
Proof.
  intros Hs. split; [apply atomic_replace_terminates|]. intros r f'. unfold atomic_replace. destruct (_ <? _); [intros [= <- <-]; by split; [|left]|].
  destruct (write_loop fuel b f) as [[r1 f1]|] eqn:Hw; [|done]. destruct (write_loop_staged _ _ _ _ _ Hw) as (Hp & Hv & Hst).
  destruct r1 as [[]|e|]; [|intros [= <- <-]; by split; [|left]|done]. specialize (Hst eq_refl). rewrite Hs in Hst. cbn in Hst.
  intros [= Hf]. destruct (finish_replace_atomic _ _ _ Hf) as (_ & [[Hv1 Hn]|[Hv1 Hd1]]).
  - split; [done|]. left. congruence.
  - rewrite Hst in *. split; [done|]. by right.
Qed.
End replacing.

(** A file whose writes follow a script: how many bytes are taken, or which error occurs. *)
Record ScriptedFile := mkScripted {
  sf_script : list (Z + io_error);
  sf_results : outcome io_error unit * outcome io_error unit * outcome io_error unit;
  sf_staged : bytes; sf_visible : option bytes; sf_durable : option bytes;
}.
Definition scripted_write (b : bytes) : M ScriptedFile io_error Z := fun f =>
  let took n script := (Ok n, mkScripted script (sf_results f) (sf_staged f ++ take (Z.to_nat n) b) (sf_visible f) (sf_durable f)) in
  match sf_script f with
  | inl n :: script => took (Z.max 0 (Z.min n (len b))) script
  | inr e :: script => (Err e, mkScripted script (sf_results f) (sf_staged f) (sf_visible f) (sf_durable f))
  | [] => took (len b) []
  end.
Definition or_fail (r : outcome io_error unit) (g : ScriptedFile -> ScriptedFile) : M ScriptedFile io_error unit := fun f =>
  match r with Ok _ => (Ok tt, g f) | Err e => (Err e, f) | Panic => (Err OtherError, f) end.
#[global] Instance scripted_file : AtomicFileOps ScriptedFile := {
  file_write := scripted_write;
  sync_file f := or_fail (sf_results f).1.1 (fun f => mkScripted (sf_script f) (sf_results f) (sf_staged f) (sf_visible f) (Some (sf_staged f))) f;
  file_replace f := or_fail (sf_results f).1.2 (fun f => mkScripted (sf_script f) (sf_results f) (sf_staged f) (Some (sf_staged f)) (sf_durable f)) f;
  sync_parent f := or_fail (sf_results f).2 (fun f => f) f;
}.
#[global] Program Instance scripted_laws : FileLaws ScriptedFile := {
  staged := sf_staged; visible := sf_visible; durable := sf_durable; patience f := length (sf_script f);
}.
Next Obligation.
  intros b [script res st vi du]. cbn. unfold scripted_write. cbn. pose proof (len_nonneg b).
  destruct script as [|[n|e] script]; cbn; split_and!; try done; try lia.
Qed.
Next Obligation. intros [script [[r1 r2] r3] st vi du]. cbn. by destruct r1. Qed.
Next Obligation. intros [script [[r1 r2] r3] st vi du]. cbn. by destruct r2. Qed.
Next Obligation. intros [script [[r1 r2] r3] st vi du]. cbn. by destruct r3. Qed.

Definition torn_file : ScriptedFile :=
  mkScripted [inl 2; inr Interrupted; inl 1] (Ok tt, Ok tt, Err OtherError) [] (Some [1; 2; 3]) None.
Lemma atomic_replace_terminates_witness : exists r f', atomic_replace 10 [7; 8; 9; 10] torn_file = Some (r, f') /\ r <> Panic.
Proof. apply (atomic_replace_terminates [7; 8; 9; 10] torn_file 10). cbn. lia. Defined.
Lemma atomic_replace_atomic_witness : exists f', atomic_replace 10 [7; 8; 9; 10] torn_file = Some (Err OtherError, f') /\
  (visible f' = Some [1; 2; 3] \/ visible f' = Some [7; 8; 9; 10] /\ durable f' = Some [7; 8; 9; 10]).
Proof.
  pose proof (atomic_replace_atomic [7; 8; 9; 10] torn_file 10) as Ha. destruct (Ha eq_refl) as [Hend Hall]. destruct (Hend ltac:(cbn; lia)) as (r & f' & E & _).
  assert (option_map fst (atomic_replace 10 [7; 8; 9; 10] torn_file) = Some (Err OtherError)) as Er by reflexivity. rewrite E in Er. injection Er as ->.
  exists f'. split; [exact E|]. exact (proj2 (Hall _ f' E)).
Defined.

(** ** The journal *)

(** No part holds an empty byte string. *)
Definition parts_wf (p : Parts) : Prop := forall i, part i p <> Some [].
Definition parts_fit (p : Parts) : Prop := len (held (part_first p)) + len (held (part_second p)) <= MAX_JOURNAL_BYTES - len journal_magic - 28.

Lemma magic_len : len journal_magic = 15.
Proof. reflexivity. Qed.
Lemma max_fits : MAX_JOURNAL_BYTES - 15 - 28 < u64_max.
Proof. reflexivity. Qed.
Lemma nonempty_held b : held (nonempty b) = b.
Proof.
  unfold nonempty. destruct (Z.ltb_spec 0 (len b)) as [|Hb]; [done|]. symmetry. apply len_0. pose proof (len_nonneg b). lia.
Qed.
Lemma nonempty_wf b : nonempty b <> Some [].
Proof. unfold nonempty. destruct (Z.ltb_spec 0 (len b)) as [Hb|]; [|done]. intros [= E]. subst b. by cbn in Hb. Qed.
Lemma held_nonempty o : o <> Some [] -> nonempty (held o) = o.
Proof.
  destruct o as [b|]; [|done]. intros Hb. unfold nonempty. cbn. destruct (Z.ltb_spec 0 (len b)) as [|Hl]; [done|].
  pose proof (len_nonneg b). rewrite (len_0 b) in Hb by lia. done.
Qed.
Lemma set_part_wf i b p : parts_wf p -> parts_wf (set_part i (nonempty b) p).
Proof. intros Hp j. pose proof (Hp First). pose proof (Hp Second). pose proof (nonempty_wf b). by destruct i, j. Qed.

Section journal.
Context (sha1 : bytes -> bytes) (digest_len : forall b, len (sha1 b) = 20).

Lemma parse_combined_safe b : is_bytes b -> safe (parse_combined sha1 b).
Proof.
  intros Hb0. unfold parse_combined. cbv zeta. set (n := len journal_magic). assert (n = 15) as -> by reflexivity.
  destruct (Z.ltb_spec (len b) (15 + 8 + 20)) as [|Hl]; [done|].
  apply safe_bind; [apply safe_slice; lia|]. intros body _. apply safe_bind; [apply safe_slice_from; lia|]. intros tail _.
  destruct (negb _); [done|]. apply safe_bind; [apply safe_slice; lia|]. intros a (_ & _ & ->)%slice_Ok. apply safe_bind; [apply safe_slice; lia|]. intros c (_ & _ & ->)%slice_Ok.
  destruct (_ || _) eqn:Hc; [done|]. apply orb_false_iff in Hc as [_ Hc%negb_false_iff%Z.eqb_eq].
  pose proof (of_be_bound _ (is_bytes_sub b 15 (15 + 4) Hb0)). pose proof (of_be_bound _ (is_bytes_sub b (15 + 4) (15 + 8) Hb0)).
  apply safe_bind; [apply safe_slice; lia|]. intros first _. apply safe_bind; [apply safe_slice; lia|]. done.
Qed.
Lemma parts_of_safe o : (forall b, o = Some b -> is_bytes b) -> safe (parts_of sha1 o).
Proof.
  intros Ho. destruct o as [b|]; [|done]. cbn [parts_of]. destruct (_ <? _); [done|]. destruct (starts_with b journal_magic); [by apply parse_combined_safe, Ho|].
  by destruct (_ || _).
Qed.
Lemma parts_of_wf o p : parts_of sha1 o = Ok p -> parts_wf p.
Proof.
  destruct o as [b|]; cbn [parts_of]; [|by intros [= <-] []]. destruct (_ <? _); [done|].
  destruct (starts_with b journal_magic) eqn:Em.
  - unfold parse_combined. cbv zeta. intros H. inv_ok_hyp H. subst p. intros []; apply nonempty_wf.
  - destruct (_ || _) eqn:El; [|done]. intros [= <-] []; [|done]. cbn. intros [= ->]. vm_compute in El. done.
Qed.

(** What is written is read back. *)
Lemma combined_parts a c : len a + len c <= MAX_JOURNAL_BYTES - len journal_magic - 28 ->
  parts_of sha1 (Some (combined sha1 (a, c))) = Ok (mkParts (nonempty a) (nonempty c)).
Proof.
  intros Hl. unfold combined. cbn [fst snd]. pose proof (len_nonneg a). pose proof (len_nonneg c).
  set (body := journal_magic ++ _). pose proof (digest_len body) as Hd. set (tail := sha1 body) in *.
  assert (len body = 23 + len a + len c) as Hb.
  { subst body. rewrite !len_app. unfold be32. rewrite !len_be, magic_len. lia. }
  rewrite magic_len in Hl. unfold MAX_JOURNAL_BYTES in Hl.
  cbn [parts_of]. rewrite !len_app, Hd. destruct (Z.ltb_spec MAX_JOURNAL_BYTES (len body + 20)); [unfold MAX_JOURNAL_BYTES in *; lia|].
  assert (starts_with (body ++ tail) journal_magic = true) as -> by (subst body; rewrite <-!app_assoc; apply starts_with_app).
  unfold parse_combined. cbv zeta. rewrite magic_len, len_app, Hd.
  destruct (Z.ltb_spec (len body + 20) (15 + 8 + 20)); [lia|]. replace (len body + 20 - 20) with (len body) by lia.
  assert (slice (E:=io_error) (body ++ tail) 0 (len body) = Ok body) as -> by (apply (slice_mid [] body tail); [done|rewrite len_nil; lia]).
  cbn [mbind outcome_bind]. rewrite (slice_from_app body tail) by done. cbn [mbind outcome_bind]. rewrite beq_refl. cbn [negb].
  assert (forall x : bytes, len x <= MAX_JOURNAL_BYTES -> of_be (be32 (len x mod 2 ^ 32)) = len x) as Hbe.
  { intros x Hx. pose proof (len_nonneg x). unfold MAX_JOURNAL_BYTES in Hx. unfold be32. rewrite of_be_be_small, Z.mod_small; [done|lia|]. apply Z.mod_pos_bound. lia. }
  assert (slice (E:=io_error) (body ++ tail) 15 (15 + 4) = Ok (be32 (len a mod 2 ^ 32))) as ->.
  { subst body. rewrite <-!app_assoc. apply slice_mid; [done|]. unfold be32. by rewrite len_be. }
  assert (slice (E:=io_error) (body ++ tail) (15 + 4) (15 + 8) = Ok (be32 (len c mod 2 ^ 32))) as ->.
  { subst body. rewrite <-!app_assoc, (app_assoc journal_magic). apply slice_mid; rewrite ?len_app; unfold be32; by rewrite ?len_be. }
  cbn [mbind outcome_bind]. rewrite !Hbe by (unfold MAX_JOURNAL_BYTES; lia).
  destruct (_ || _) eqn:Hc.
  { exfalso. unfold MAX_JOURNAL_BYTES in *. destruct (Z.ltb_spec (8 * 1024 * 1024) (len a)), (Z.ltb_spec (8 * 1024 * 1024) (len c)), (Z.eqb_spec (15 + 8 + len a + len c) (len body)); cbn in Hc; (lia || done). }
  assert (slice (E:=io_error) (body ++ tail) (15 + 8) (15 + 8 + len a) = Ok a) as ->.
  { subst body. rewrite <-!app_assoc, (app_assoc journal_magic), (app_assoc (_ ++ _)). apply slice_mid; rewrite ?len_app; unfold be32; by rewrite ?len_be. }
  assert (slice (E:=io_error) (body ++ tail) (15 + 8 + len a) (len body) = Ok c) as ->.
  { subst body. rewrite <-!app_assoc, (app_assoc journal_magic), (app_assoc (_ ++ _)), (app_assoc _ a).
    apply slice_mid; rewrite ?len_app; unfold be32; rewrite ?len_be, ?magic_len; lia. }
  done.
Qed.
End journal.

Section saving.
Context (sha1 : bytes -> bytes) (digest_len : forall b, len (sha1 b) = 20).
Context {S : Type} `{StoreLaws S}.

(** The store holds the parts that are in memory. *)
Definition synced (st : Inner S) : Prop := parts_wf (in_parts st) /\ parts_of sha1 (stored (in_store st)) = Ok (in_parts st).

Lemma part_save_eq i b st : let other := held (part (other_slot i) (in_parts st)) in
  part_save sha1 i b st =
  if MAX_JOURNAL_BYTES - 15 - 28 <? sat64 (len b) (len other) then (Err InvalidData, st) else
  match save (combined sha1 (match i with First => (b, other) | Second => (other, b) end)) (in_store st) with
  | (Ok _, s) => (Ok tt, mkInner s (set_part i (nonempty b) (in_parts st)))
  | (Err e, s) => (Err e, mkInner s (in_parts st))
  | (Panic, s) => (Panic, mkInner s (in_parts st))
  end.
Proof.
  cbv zeta. unfold part_save. rewrite magic_len.
  assert (sub_chk (E:=io_error) MAX_JOURNAL_BYTES 15 = Ok (MAX_JOURNAL_BYTES - 15)) as -> by (by apply sub_chk_Ok).
  assert (sub_chk (E:=io_error) (MAX_JOURNAL_BYTES - 15) 28 = Ok (MAX_JOURNAL_BYTES - 15 - 28)) as Hs by (by apply sub_chk_Ok).
  cbv [mbind M_bind get lift throw modify]. rewrite Hs. destruct (_ <? _); [done|]. unfold save_store. by destruct (save _ _) as [[]].
Qed.
Lemma combined_nonempty p : combined sha1 p <> [].
Proof. done. Qed.
Lemma combined_slot i b p : parts_wf p -> sat64 (len b) (len (held (part (other_slot i) p))) <= MAX_JOURNAL_BYTES - 15 - 28 ->
  parts_of sha1 (Some (combined sha1 (match i with First => (b, held (part (other_slot i) p)) | Second => (held (part (other_slot i) p), b) end))) =
  Ok (set_part i (nonempty b) p).
Proof.
  intros Hp Hl. assert (len b + len (held (part (other_slot i) p)) <= MAX_JOURNAL_BYTES - 15 - 28) as Hfit
    by (revert Hl; generalize (MAX_JOURNAL_BYTES - 15 - 28) max_fits; unfold sat64, sat_add; intros; lia).
  rewrite <-magic_len in Hfit. destruct i; cbn [other_slot part set_part] in *.
  - rewrite (combined_parts sha1 digest_len b (held (part_second p)) Hfit). by rewrite (held_nonempty (part_second p) (Hp Second)).
  - rewrite Z.add_comm in Hfit. rewrite (combined_parts sha1 digest_len (held (part_first p)) b Hfit). by rewrite (held_nonempty (part_first p) (Hp First)).
Qed.
Lemma part_save_cases i b st : parts_wf (in_parts st) ->
  match part_save sha1 i b st with
  | (Ok _, st') => in_parts st' = set_part i (nonempty b) (in_parts st) /\ synced st'
  | (Err _, st') => in_parts st' = in_parts st /\
      (stored (in_store st') = stored (in_store st) \/ parts_of sha1 (stored (in_store st')) = Ok (set_part i (nonempty b) (in_parts st)))
  | (Panic, _) => False
  end.
Proof.
  intros Hp. rewrite part_save_eq. cbv zeta. pose proof (combined_slot i b (in_parts st) Hp) as Hc.
  destruct (_ <? _) eqn:Hl; [by split; [|left]|]. apply Z.ltb_ge in Hl. specialize (Hc Hl). clear Hl.
  pose proof (combined_nonempty (match i with First => (b, held (part (other_slot i) (in_parts st))) | Second => (held (part (other_slot i) (in_parts st)), b) end)) as Hw.
  generalize dependent (combined sha1 match i with First => (b, held (part (other_slot i) (in_parts st))) | Second => (held (part (other_slot i) (in_parts st)), b) end).
  intros w Hc Hw. pose proof (save_law w (in_store st) Hw) as Hs. destruct (save w (in_store st)) as [[u|e|] s]; [| |done].
  - split; [done|]. split; [by apply set_part_wf|]. cbn [in_store in_parts]. by rewrite Hs.
  - split; [done|]. cbn [in_store]. destruct Hs as [->| ->]; [by left|by right].
Qed.

(** C27. Saving one part through the journal keeps the other: a save that succeeds leaves a store from which opening gives the new part and the old other one, a save that fails changes nothing in memory and leaves a store that holds what it held, or those two parts. *)
Theorem journal_save_atomic i b st : synced st ->
  match part_save sha1 i b st with
  | (Ok _, st') => part_load i st' = (Ok (nonempty b), st') /\ part_load (other_slot i) st' = (Ok (part (other_slot i) (in_parts st)), st') /\
      forall o s, load (in_store st') = (Ok o, s) -> journal_open sha1 (in_store st') = (Ok (mkInner s (in_parts st')), s)
  | (Err _, st') => in_parts st' = in_parts st /\
      exists p, parts_of sha1 (stored (in_store st')) = Ok p /\ (p = in_parts st \/ p = set_part i (nonempty b) (in_parts st))
  | (Panic, _) => False
  end.
Proof.
  intros [Hp Hst]. pose proof (part_save_cases i b st Hp) as Hc. destruct (part_save sha1 i b st) as [[u|e|] st']; [| |done].
  - destruct Hc as [Hi Hs]. unfold part_load, gets. rewrite Hi. split; [by destruct i|]. split; [by destruct i|]. rewrite <-Hi.
    destruct Hs as [Hw Hs]. intros o s El. unfold journal_open. pose proof (load_law (in_store st')) as Hl. rewrite El in *.
    destruct Hl as [-> Hl]. by rewrite Hs.
  - destruct Hc as [Hi [Hs|Hs]]; (split; [done|]); eexists; [rewrite Hs|]; (split; [eassumption|]); [by left|by right].
Qed.
(** Each part of a journal is a store itself: what it holds is the part in memory. *)
Definition part_store (i : Slot) : StateStore (Inner S) := {| load := part_load i; save := part_save sha1 i |}.
Program Definition part_laws (i : Slot) : @StoreLaws (Inner S) (part_store i) := {| stored st := part i (in_parts st) |}.
Next Obligation. done. Qed.
Next Obligation.
  intros i b st Hb. change (@save _ (part_store i)) with (part_save sha1 i). rewrite part_save_eq. cbv zeta. destruct (_ <? _); [by left|].
  match goal with |- context [save ?w _] => pose proof (save_law w (in_store st) (combined_nonempty _)) as Hs; destruct (save w (in_store st)) as [[u|e|] s] end; [|by left|done].
  cbn [in_parts]. assert (nonempty b = Some b) as -> by (unfold nonempty; destruct b; [done|]; rewrite len_cons; pose proof (len_nonneg b); by destruct (Z.ltb_spec 0 (1 + len b)); [|lia]).
  by destruct i.
Qed.
End saving.

(** Opening any bytes does not panic, and what is opened is in step with the store. *)
Theorem journal_open_synced {S} `{StoreLaws S} sha1 (s : S) : (forall b, stored s = Some b -> is_bytes b) ->
  match journal_open sha1 s with
  | (Ok st, _) => synced sha1 st
  | (Err _, s') => stored s' = stored s
  | (Panic, _) => False
  end.
Proof.
  intros Hb. unfold journal_open. pose proof (load_law s) as Hl. destruct (load s) as [[o|e|] s']; [|done|done]. destruct Hl as [-> Hl].
  pose proof (parts_of_safe sha1 (stored s) Hb) as Hs. destruct (parts_of sha1 (stored s)) as [p|e|] eqn:Ep; [|done|by destruct Hs].
  split; cbn; [by eapply parts_of_wf|by rewrite Hl].
Qed.
(** ** Records *)

(** At most 128 records and four MiB. *)
Definition records_wf (t : Records) : Prop := slen t <= 128 /\ msum (fun _ v => len v) t <= 4 * 1024 * 1024.
(** The table stays within its limits; a refused record changes nothing, an admitted one is found and no other record changes. *)
Theorem records_bounded id b t : records_wf t ->
  match records_set id b t with
  | (Ok _, t') => records_wf t' /\ records_get id t' = Some b /\ forall id', id' <> id -> records_get id' t' = records_get id' t
  | (Err _, t') => t' = t
  | (Panic, _) => False
  end /\ records_wf (records_remove id t).
Proof.
  intros [Hn Hl]. assert (forall k, msum (fun _ v => len v) (delete k t) <= msum (fun _ (v : bytes) => len v) t) as Hdel.
  { intros k. destruct (t !! k) as [v|] eqn:E; [|by rewrite delete_id]. rewrite (msum_delete _ t k v E). pose proof (len_nonneg v). lia. }
  split.
  - unfold records_set. cbv [mbind M_bind get throw modify]. set (size := msum _ _). destruct (_ || _) eqn:Hc; [done|].
    apply orb_false_iff in Hc as [[Hb Hs]%orb_false_iff Hk]. apply Z.ltb_ge in Hs.
    assert (msum (fun _ v => len v) (<[id := b]> t) = size + len b) as Hsum.
    { rewrite <-insert_delete_eq, msum_insert by apply lookup_delete_eq. subst size. rewrite Z.add_comm. f_equal.
      destruct (t !! id) as [v|] eqn:E.
      - rewrite (msum_delete (fun k v => if k =? id then 0 else len v) t id v E), Z.eqb_refl. apply msum_ext. intros k w [Hk1 _]%lookup_delete_Some.
        by destruct (Z.eqb_spec k id).
      - rewrite delete_id by done. apply msum_ext. intros k w Hk1. destruct (Z.eqb_spec k id); [congruence|done]. }
    split; [split; [|by rewrite Hsum]|].
    + destruct (has_key t id) eqn:Hh; [apply has_key_true in Hh; by rewrite slen_update|]. apply has_key_false in Hh. cbn in Hk. apply Z.leb_gt in Hk.
      rewrite slen_insert by done. lia.
    + unfold records_get. split; [apply lookup_insert_eq|]. intros. by apply lookup_insert_ne.
  - split; [|specialize (Hdel id); unfold records_remove; lia]. unfold records_remove.
    destruct (t !! id) as [v|] eqn:E; [rewrite slen_delete by (by eexists); lia|by rewrite delete_id].
Qed.

(** ** Witnesses *)

(** A digest of the right length, for examples. *)
Definition toy_digest (b : bytes) : bytes := replicate 20 (foldr Z.add (len b) b mod 256).
Lemma toy_digest_len b : len (toy_digest b) = 20.
Proof. reflexivity. Qed.
Definition two_parts : Inner MemoryStore :=
  mkInner (mkMemoryStore (Some (combined toy_digest ([1; 2], [3])))) (mkParts (Some [1; 2]) (Some [3])).
Lemma two_parts_synced : synced toy_digest two_parts.
Proof. split; [by intros []|]. vm_compute. reflexivity. Qed.
Lemma journal_save_atomic_witness : exists st', part_save toy_digest First [9] two_parts = (Ok tt, st') /\ part_load Second st' = (Ok (Some [3]), st') /\ journal_open toy_digest (in_store st') = (Ok st', in_store st').
Proof.
  pose proof (journal_save_atomic toy_digest toy_digest_len First [9] two_parts two_parts_synced) as Hj.
  destruct (part_save toy_digest First [9] two_parts) as [[[]|e|] st'] eqn:E; [|vm_compute in E; done|done].
  destruct Hj as (_ & H2 & H3). exists st'. split; [done|]. split; [exact H2|]. rewrite (H3 (ms_bytes (in_store st')) (in_store st') eq_refl). by destruct st'.
Defined.
Lemma journal_open_synced_witness : exists st s, journal_open toy_digest (mkMemoryStore None) = (Ok st, s) /\ synced toy_digest st.
Proof.
  assert (forall b, stored (mkMemoryStore None) = Some b -> is_bytes b) as Hn by done. eexists _, _. split; [reflexivity|].
  exact (journal_open_synced toy_digest (mkMemoryStore None) Hn).
Defined.
Lemma records_bounded_witness : exists t, records_set 7 [1; 2] ∅ = (Ok tt, t) /\ records_wf t /\ records_get 7 t = Some [1; 2].
Proof.
  destruct (records_bounded 7 [1; 2] ∅ ltac:(split; vm_compute; congruence)) as [Hr _].
  destruct (records_set 7 [1; 2] ∅) as [[[]|e|] t] eqn:E; [|vm_compute in E; done|done]. destruct Hr as (H1 & H2 & _). by exists t.
Defined.
(** An identity is created in the first part of an empty journal, is found there again, and
    the journal, opened from the store, has it. *)
Definition empty_journal : Inner MemoryStore := mkInner (mkMemoryStore None) (mkParts None None).
Definition nine_values : ScriptedRandom := {| values := [1; 2; 3; 4; 5; 6; 7; 8; 9] |}.
Lemma identity_kept_witness : exists i st r', @load_or_create _ _ (part_store toy_digest First) _ [97] (empty_journal, nine_values) = (Ok i, (st, r')) /\
  identity_wf i /\ id_attachment i = [97] /\ (exists b, part_first (in_parts st) = Some b /\ id_decode b = Ok i) /\
  (forall r2, @load_or_create _ _ (part_store toy_digest First) _ [97] (st, r2) = (Ok i, (st, r2))) /\
  journal_open toy_digest (in_store st) = (Ok st, in_store st).
Proof.
  pose proof (@identity_kept _ _ _ (part_laws toy_digest First) _ _ _ [97] empty_journal nine_values ltac:(by apply bytes_check) eq_refl ltac:(vm_compute; congruence) ltac:(done)) as Hk.
  assert (is_Some (match @load_or_create _ _ (part_store toy_digest First) _ [97] (empty_journal, nine_values) with (Ok i, (st, r)) => Some (i, st, r) | _ => None end)) as [[[i st] r'] E] by (vm_compute; by eexists).
  assert (match @load_or_create _ _ (part_store toy_digest First) _ [97] (empty_journal, nine_values) with (Ok _, (st, _)) => journal_open toy_digest (in_store st) = (Ok st, in_store st) | _ => True end) as Ho by (vm_compute; reflexivity).
  destruct (@load_or_create _ _ (part_store toy_digest First) _ [97] (empty_journal, nine_values)) as [[j|e|] [st' r]]; [|done|done]. injection E as -> -> ->.
  destruct Hk as (Hi & Hat & Hb & _ & Ha). exists i, st, r'. split; [done|]. split; [exact Hi|]. split; [exact Hat|]. split; [exact Hb|]. split; [|exact Ho]. intros r2. exact (Ha _ st r2 eq_refl).
Defined.
