(* ===== verification/Names.v ===== *)
(** Names and records as keys: the order of names, the equality of records as
    [src/src/dns/wire.rs] derives it, and helpers on the records of a message. *)

From S2P Require Import Prelude Effects Maps Ordered DnsWire.

(** ** The order of byte strings, [Ord] for [Vec<u8>] *)

#[global] Instance bytes_ordered : Ordered (list Z) := fun a b => match lex_cmp a b with Gt => false | _ => true end.
Lemma lex_refl a : lex_cmp a a = Eq.
Proof. induction a as [|x a IH]; cbn; [done|]. by rewrite Z.compare_refl. Qed.
Lemma lex_eq a b : lex_cmp a b = Eq -> a = b.
Proof.
  revert b; induction a as [|x a IH]; intros [|y b]; cbn; try done. destruct (Z.compare_spec x y); try done. intros Hab. f_equal; [done|by apply IH].
Qed.
Lemma lex_swap a b : lex_cmp b a = CompOpp (lex_cmp a b).
Proof. revert b; induction a as [|x a IH]; intros [|y b]; cbn; try done. rewrite (Z.compare_antisym x y). destruct (x ?= y); cbn; auto. Qed.
Lemma lex_trans a b c : lex_cmp a b <> Gt -> lex_cmp b c <> Gt -> lex_cmp a c <> Gt.
Proof.
  revert b c; induction a as [|x a IH]; intros [|y b] [|z c]; cbn; try done.
  destruct (Z.compare_spec x y), (Z.compare_spec y z), (Z.compare_spec x z); try done; try lia. apply IH.
Qed.
#[global] Instance bytes_ordered_laws : OrderedLaws (list Z).
Proof.
  split; unfold key_le, bytes_ordered.
  - intros a b. rewrite (lex_swap a b). destruct (lex_cmp a b); cbn; auto.
  - intros a b c. pose proof (lex_trans a b c) as Ht. destruct (lex_cmp a b), (lex_cmp b c), (lex_cmp a c); try done; by destruct Ht.
  - intros a b. rewrite (lex_swap a b). destruct (lex_cmp a b) eqn:E; cbn; try done. intros _ _. by apply lex_eq.
Qed.

(** ** Equality of record data, [PartialEq] for [Rdata]: names without regard to case *)

Fixpoint list_eqb {A} (eqb : A -> A -> bool) (a b : list A) : bool :=
  match a, b with
  | [], [] => true
  | x :: a, y :: b => eqb x y && list_eqb eqb a b
  | _, _ => false
  end.
Definition option_eqb (a b : Z * bytes) : bool := (a.1 =? b.1) && beq a.2 b.2.
Definition rdata_eq (a b : Rdata) : bool :=
  match a, b with
  | RdEmpty, RdEmpty => true
  | RdA a, RdA b => beq a b
  | RdAaaa a, RdAaaa b => beq a b
  | RdName a, RdName b => name_eq a b
  | RdSrv p w o t, RdSrv p' w' o' t' => (p =? p') && (w =? w') && (o =? o') && name_eq t t'
  | RdTxt a, RdTxt b => list_eqb beq a b
  | RdPreference p n, RdPreference p' n' => (p =? p') && name_eq n n'
  | RdTwoNames a b, RdTwoNames a' b' => name_eq a a' && name_eq b b'
  | RdPx p a b, RdPx p' a' b' => (p =? p') && name_eq a a' && name_eq b b'
  | RdSoa a b s r t e m, RdSoa a' b' s' r' t' e' m' =>
      name_eq a a' && name_eq b b' && (s =? s') && (r =? r') && (t =? t') && (e =? e') && (m =? m')
  | RdKey f p a k, RdKey f' p' a' k' => (f =? f') && (p =? p') && (a =? a') && beq k k'
  | RdSig c a l o e i t s g, RdSig c' a' l' o' e' i' t' s' g' =>
      (c =? c') && (a =? a') && (l =? l') && (o =? o') && (e =? e') && (i =? i') && (t =? t') && name_eq s s' && beq g g'
  | RdOpt a, RdOpt b => list_eqb option_eqb a b
  | RdNsec n b, RdNsec n' b' => name_eq n n' && beq b b'
  | RdSvcb p t o, RdSvcb p' t' o' => (p =? p') && name_eq t t' && list_eqb option_eqb o o'
  | RdBytes a, RdBytes b => beq a b
  | RdOpaque a, RdOpaque b => beq a b
  | _, _ => false
  end.
Definition rr_eq (a b : Rr) : bool :=
  name_eq (r_name a) (r_name b) && (r_kind a =? r_kind b) && (r_class a =? r_class b) && (r_ttl a =? r_ttl b) && rdata_eq (r_data a) (r_data b).
Definition question_eq (a b : Question) : bool :=
  name_eq (q_name a) (q_name b) && (q_kind a =? q_kind b) && (q_class a =? q_class b).

(** The data with every name in its canonical form: equality of data is equality of these. *)
Definition fold_name (n : Name) : Name := mkName [] (canonical n).
Definition fold_data (d : Rdata) : Rdata :=
  match d with
  | RdName n => RdName (fold_name n)
  | RdSrv p w o t => RdSrv p w o (fold_name t)
  | RdPreference p n => RdPreference p (fold_name n)
  | RdTwoNames a b => RdTwoNames (fold_name a) (fold_name b)
  | RdPx p a b => RdPx p (fold_name a) (fold_name b)
  | RdSoa a b s r t e m => RdSoa (fold_name a) (fold_name b) s r t e m
  | RdSig c a l o e i t s g => RdSig c a l o e i t (fold_name s) g
  | RdNsec n b => RdNsec (fold_name n) b
  | RdSvcb p t o => RdSvcb p (fold_name t) o
  | d => d
  end.
Lemma name_eq_fold a b : name_eq a b = true <-> fold_name a = fold_name b.
Proof. unfold name_eq, fold_name. rewrite beq_eq. split; [by intros ->|by intros [=]]. Qed.
Lemma name_eq_canonical a b : name_eq a b = true <-> canonical a = canonical b.
Proof. apply beq_eq. Qed.
Lemma list_eqb_eq {A} (eqb : A -> A -> bool) : (forall x y, eqb x y = true <-> x = y) -> forall a b, list_eqb eqb a b = true <-> a = b.
Proof.
  intros He. induction a as [|x a IH]; intros [|y b]; cbn; try done. rewrite andb_true_iff, He, IH. naive_solver.
Qed.
Lemma option_eqb_eq a b : option_eqb a b = true <-> a = b.
Proof. destruct a, b. unfold option_eqb. cbn. rewrite andb_true_iff, Z.eqb_eq, beq_eq. naive_solver. Qed.
Lemma rdata_eq_fold a b : rdata_eq a b = true <-> fold_data a = fold_data b.
Proof.
  destruct a, b; cbn [rdata_eq fold_data]; try (split; [done|by intros [=]]);
    rewrite ?andb_true_iff, ?Z.eqb_eq, ?beq_eq, ?name_eq_fold, ?(list_eqb_eq beq beq_eq), ?(list_eqb_eq option_eqb option_eqb_eq);
    (split; [intros H; repeat match goal with E : _ /\ _ |- _ => destruct E end; subst; congruence|intros [=]; repeat split; unfold fold_name; congruence]).
Qed.
Lemma rdata_eq_refl a : rdata_eq a a = true.
Proof. by apply rdata_eq_fold. Qed.
Lemma rdata_eq_sym a b : rdata_eq a b = true -> rdata_eq b a = true.
Proof. rewrite !rdata_eq_fold. done. Qed.
Lemma rdata_eq_trans a b c : rdata_eq a b = true -> rdata_eq b c = true -> rdata_eq a c = true.
Proof. rewrite !rdata_eq_fold. congruence. Qed.

(** ** Records of a message *)

Definition set_class (class : Z) (r : Rr) : Rr := mkRr (r_name r) (r_kind r) class (r_ttl r) (r_data r).
Definition set_ttl (ttl : Z) (r : Rr) : Rr := mkRr (r_name r) (r_kind r) (r_class r) ttl (r_data r).
(** [m.answers.iter().chain(&m.authority).chain(&m.additional)] *)
Definition records_of (m : Message) : list Rr := m_answers m ++ m_authority m ++ m_additional m.
(** [iter.enumerate()] *)
Fixpoint enumerate_from {A} (i : Z) (l : list A) : list (Z * A) :=
  match l with [] => [] | x :: l => (i, x) :: enumerate_from (i + 1) l end.
Definition enumerate {A} (l : list A) : list (Z * A) := enumerate_from 0 l.
Definition is_response (m : Message) : bool := negb (Z.land (m_flags m) 0x8000 =? 0).
Definition add_answer (r : Rr) (m : Message) : Message :=
  mkMessage (m_id m) (m_flags m) (m_questions m) (m_answers m ++ [r]) (m_authority m) (m_additional m) (m_original m) (m_spans m).
Definition add_authority (r : Rr) (m : Message) : Message :=
  mkMessage (m_id m) (m_flags m) (m_questions m) (m_answers m) (m_authority m ++ [r]) (m_additional m) (m_original m) (m_spans m).
Definition add_additional (r : Rr) (m : Message) : Message :=
  mkMessage (m_id m) (m_flags m) (m_questions m) (m_answers m) (m_authority m) (m_additional m ++ [r]) (m_original m) (m_spans m).
Definition add_question (q : Question) (m : Message) : Message :=
  mkMessage (m_id m) (m_flags m) (m_questions m ++ [q]) (m_answers m) (m_authority m) (m_additional m) (m_original m) (m_spans m).
Definition set_additional (l : list Rr) (m : Message) : Message :=
  mkMessage (m_id m) (m_flags m) (m_questions m) (m_answers m) (m_authority m) l (m_original m) (m_spans m).
(** [Vec::contains] *)
Definition has_question (q : Question) (qs : list Question) : bool := existsb (question_eq q) qs.
