(* ===== verification/Tsr.v ===== *)
(** Time since received ([src/src/mdns/tsr.rs]): the EDNS option that tells when a record was
    registered and under which key, its comparison, and packing messages with it. *)

From S2P Require Import Prelude Effects Maps Ordered DnsWire Names.

Definition OPTION_CODE : Z := 65002.
Definition MAX_AGE : Z := 604800.
Definition MAX_OPTIONS : Z := 128.

(** [i128] saturates at these. *)
Definition i128_min : Z := -170141183460469231731687303715884105728.
Definition i128_max : Z := 170141183460469231731687303715884105727.
Definition sat_sub128 (a b : Z) : Z := Z.max i128_min (Z.min i128_max (a - b)).

Record Stamp := mkStamp { st_key_checksum : Z; st_received_at : Z }.
#[global] Instance Stamp_eq_dec : EqDecision Stamp.
Proof. solve_decision. Defined.

Definition stamp_age (s : Stamp) (now : Z) : Z := Z.min (Z.max (sat_sub128 now (st_received_at s)) 0 / 1000) MAX_AGE.
Definition stamp_encode (s : Stamp) (index now : Z) : bytes :=
  be16 index ++ be32 (st_key_checksum s) ++ be32 (stamp_age s now).
Definition stamp_decode (b : bytes) (received : Z) : option (Z * Stamp) :=
  if negb (len b =? 10) then None else
  let age := Z.min (of_be (sub b 6 10)) MAX_AGE in
  Some (of_be (sub b 0 2), mkStamp (of_be (sub b 2 6)) (received - age * 1000)).

(** [key.chunks(4).fold(...)], each chunk padded with zeros to a word. *)
Fixpoint checksum_words (fuel : nat) (sum : Z) (b : bytes) : Z :=
  match fuel, b with
  | S fuel, _ :: _ =>
      let chunk := take 4 b in
      checksum_words fuel ((sum + of_be (chunk ++ zeros (4 - len chunk))) mod 2 ^ 32) (drop 4 b)
  | _, _ => sum
  end.
Definition key_checksum (key : bytes) : Z := checksum_words (length key) 0 key.

Definition applies (m : Message) (index : Z) (r : Rr) : bool :=
  negb (r_kind r =? 41) && (is_response m || (len (m_answers m) <=? index)).
Definition stamp_map := gmap bytes Stamp.

(** The options of [code] in the additional section, in order. *)
Definition opt_values (code : Z) (r : Rr) : list bytes :=
  match r_data r with RdOpt options => map snd (List.filter (fun kb => kb.1 =? code) options) | _ => [] end.
(** The record an option refers to. *)
Definition stamped_record (m : Message) (index : Z) : option Rr :=
  r ← records_of m !! Z.to_nat index;
  if applies m index r then Some r else None.
Fixpoint extract_loop (m : Message) (received : Z) (options : list bytes) (out : stamp_map) (seen : gset bytes) (count : Z)
  : outcome io_error stamp_map :=
  match options with
  | [] => Ok out
  | b :: options =>
      let count := count + 1 in
      reject_if MAX_OPTIONS <? count with InvalidData;
      match stamp_decode b received with
      | None => extract_loop m received options out seen count
      | Some (index, stamp) =>
          match stamped_record m index with
          | None => extract_loop m received options out seen count
          | Some r =>
              let n := canonical (r_name r) in
              if bool_decide (n ∈ seen) then extract_loop m received options (delete n out) seen count
              else extract_loop m received options (<[n := stamp]> out) ({[n]} ∪ seen) count
          end
      end
  end.
Definition too_many (m : Message) : bool := 512 <? len (m_answers m) + len (m_authority m) + len (m_additional m).
Definition extract (m : Message) (code received : Z) : outcome io_error stamp_map :=
  reject_if (code =? 0) || too_many m with InvalidData;
  extract_loop m received (concat (map (opt_values code) (m_additional m))) ∅ ∅ 0.

(** ** Attaching stamps *)

Section attach.
Context (code now : Z) (lookup : Name -> option Stamp) (local : bool).
(** The loop over the records: the options of the first record of each stamped name. *)
Fixpoint stamp_values (m : Message) (rs : list (Z * Rr)) (seen : gset bytes) (count : Z) : outcome io_error (list (Z * bytes)) :=
  match rs with
  | [] => Ok []
  | (index, r) :: rs =>
      if negb (applies m index r) then stamp_values m rs seen count else
      match lookup (r_name r) with
      | None => stamp_values m rs seen count
      | Some stamp =>
          reject_if local && is_response m && (Z.land (r_class r) 0x8000 =? 0) with InvalidData;
          let n := canonical (r_name r) in
          if bool_decide (n ∈ seen) then stamp_values m rs seen count else
          reject_if count =? MAX_OPTIONS with InvalidData;
          rest ← stamp_values m rs ({[n]} ∪ seen) (count + 1);
          Ok ((code, stamp_encode stamp (index mod 65536) now) :: rest)
      end
  end.
(** The first OPT record, [iter_mut().find_map(...)], with its options replaced. *)
Definition is_opt (r : Rr) : bool := match r_data r with RdOpt _ => true | _ => false end.
Definition put_options (values : list (Z * bytes)) (r : Rr) : Rr :=
  match r_data r with
  | RdOpt v => mkRr (r_name r) (r_kind r) (r_class r) (r_ttl r) (RdOpt (List.filter (fun kb => negb (kb.1 =? code)) v ++ values))
  | _ => r
  end.
Fixpoint update_opt (values : list (Z * bytes)) (rs : list Rr) : list Rr :=
  match rs with
  | [] => []
  | r :: rs => if is_opt r then put_options values r :: rs else r :: update_opt values rs
  end.
Definition attach_inner (m : Message) : outcome io_error Message :=
  reject_if (code =? 0) || too_many m with InvalidData;
  values ← stamp_values m (enumerate (records_of m)) ∅ 0;
  if existsb is_opt (m_additional m) then Ok (set_additional (update_opt values (m_additional m)) m)
  else if len values =? 0 then Ok m
  else
    reject_if len (m_answers m) + len (m_authority m) + len (m_additional m) =? 512 with InvalidData;
    Ok (add_additional (mkRr root 41 9000 0 (RdOpt values)) m).
End attach.
Definition attach (m : Message) (code now : Z) (lookup : Name -> option Stamp) : outcome io_error Message :=
  attach_inner code now lookup true m.

(** ** Comparison *)

Inductive Relation := Unstamped | Conflict | Equal | Newer | Older.
#[global] Instance Relation_eq_dec : EqDecision Relation.
Proof. solve_decision. Defined.
Definition compare (local remote : option Stamp) : Relation :=
  match local, remote with
  | None, None => Unstamped
  | Some a, Some b =>
      if st_key_checksum a =? st_key_checksum b then
        let delta := sat_sub128 (st_received_at b) (st_received_at a) in
        if 1000 <? delta then Newer else if delta <? -1000 then Older else Equal
      else Conflict
  | _, _ => Conflict
  end.

(** ** Filtering and packing *)

Definition keep_named (ignored : gset bytes) (r : Rr) : bool := negb (bool_decide (canonical (r_name r) ∈ ignored)).
Definition filtered (m : Message) (ignored : gset bytes) (stamps : stamp_map) (now code : Z) : outcome io_error Message :=
  let out := mkMessage (m_id m) (m_flags m) (m_questions m)
    (List.filter (keep_named ignored) (m_answers m)) (List.filter (keep_named ignored) (m_authority m))
    (List.filter (fun r => (r_kind r =? 41) || keep_named ignored r) (m_additional m)) (m_original m) (m_spans m) in
  attach_inner code now (fun n => stamps !! canonical n) false out.

Section packetize.
Context (m : Message) (code now : Z) (lookup : Name -> option Stamp).
Definition probing : bool := negb (is_response m) && negb (len (m_authority m) =? 0).
Definition packet_base : Message :=
  mkMessage (m_id m) (m_flags m) (if probing then [] else m_questions m) [] []
    (List.filter (fun r => r_kind r =? 41) (m_additional m)) [] [].
(** The closure [append]. *)
Definition add_questions (r : Rr) (current : Message) : Message :=
  foldl (fun c q => if has_question q (m_questions c) then c else add_question q c) current
    (List.filter (fun q => name_eq (q_name q) (r_name r)) (m_questions m)).
Definition append_to (section : Z) (r : Rr) (current : Message) : Message :=
  let current := if probing then add_questions r current else current in
  if section =? 0 then add_answer r current else if section =? 1 then add_authority r current else add_additional r current.
Definition wire_len (x : Message) : outcome io_error Z := b ← encode_context x Mdns; Ok (len b).
Fixpoint pack_loop (rs : list (Z * Rr)) (current : Message) (output : list Message) (count : Z) : outcome io_error (list Message) :=
  match rs with
  | [] => Ok (if 0 <? count then output ++ [current] else output)
  | (section, r) :: rs =>
      trial ← attach (append_to section r current) code now lookup;
      n ← wire_len trial;
      '(current, output, count) ←
        (if (1200 <? n) && (0 <? count) then
           full ← attach current code now lookup;
           Ok (packet_base, output ++ [full], 0)
         else Ok (current, output, count));
      current ← attach (append_to section r current) code now lookup;
      n ← wire_len current;
      reject_if 8952 <? n with InvalidData;
      pack_loop rs current output (count + 1)
  end.
Definition sectioned : list (Z * Rr) :=
  let plain i l := map (pair i) (List.filter (fun r => negb (r_kind r =? 41)) l) in
  plain 0 (m_answers m) ++ plain 1 (m_authority m) ++ plain 2 (m_additional m).
Definition packetize : outcome io_error (list Message) :=
  complete ← attach m code now lookup;
  size ← wire_len complete;
  let count := len (List.filter (fun r => negb (r_kind r =? 41)) (records_of m)) in
  if (size <=? 1200) || ((count <=? 1) && (size <=? 8952)) then Ok [complete] else
  pack_loop sectioned packet_base [] 0.
End packetize.
Definition legacy (m : Message) : bool := is_response m && negb (len (m_questions m) =? 0).
