(* ===== verification/Cache.v ===== *)
(** The cache of multicast DNS records ([src/src/mdns/cache.rs]): record sets with their
    lifetimes, a byte budget with eviction of the set used least recently, refresh times and
    passive observation of failures. *)

From S2P Require Import Prelude Effects Maps Ordered Time Stateful DnsWire Names Tsr.

Definition SETS : Z := 1024.
Definition BYTES : Z := 4 * 1024 * 1024.
(** [(Name, u16, u16)]; names compare by their canonical bytes. *)
Abbreviation Key := (list Z * Z * Z)%type.
Record Entry := mkEntry {
  e_record : Rr; e_received : Z; e_expires : Z; e_charge : Z; e_stamp : option Stamp;
  e_refresh : list Z; e_refreshed : Z; e_failure : option (Z * Z * Z);
}.
Definition deadline (e : Entry) : Z :=
  match e_failure e with
  | Some (first, _, count) => if 2 <=? count then Z.min (e_expires e) (sat64 first 10000) else e_expires e
  | None => e_expires e
  end.
Definition set_expires (t : Z) (e : Entry) : Entry :=
  mkEntry (e_record e) (e_received e) t (e_charge e) (e_stamp e) (e_refresh e) (e_refreshed e) (e_failure e).
Definition set_refreshed (n : Z) (e : Entry) : Entry :=
  mkEntry (e_record e) (e_received e) (e_expires e) (e_charge e) (e_stamp e) (e_refresh e) n (e_failure e).
Definition set_failure (f : option (Z * Z * Z)) (e : Entry) : Entry :=
  mkEntry (e_record e) (e_received e) (e_expires e) (e_charge e) (e_stamp e) (e_refresh e) (e_refreshed e) f.

Record RrSet := mkRrSet { s_records : list Entry; s_used : Z }.
Definition on_entries (f : Entry -> Entry) (s : RrSet) : RrSet := mkRrSet (map f (s_records s)) (s_used s).
Record Cache := mkCache { c_sets : gmap Key RrSet; c_bytes : Z; c_reserved : Z }.
Definition no_cache : Cache := mkCache ∅ 0 0.
Definition set_sets (m : gmap Key RrSet) (c : Cache) : Cache := mkCache m (c_bytes c) (c_reserved c).
Definition set_bytes (n : Z) (c : Cache) : Cache := mkCache (c_sets c) n (c_reserved c).
Definition set_reserved (n : Z) (c : Cache) : Cache := mkCache (c_sets c) (c_bytes c) n.
Abbreviation MC := (M Cache io_error).

Definition key (r : Rr) : Key := (canonical (r_name r), r_kind r, Z.land (r_class r) 0x7fff).
Definition same (a b : Rr) : bool :=
  name_eq (r_name a) (r_name b) && (r_kind a =? r_kind b) && (Z.land (r_class a) 0x7fff =? Z.land (r_class b) 0x7fff)
  && rdata_eq (r_data a) (r_data b).
Definition matches (q : Question) (r : Rr) : bool :=
  name_eq (q_name q) (r_name r)
  && ((Z.land (q_class q) 0x7fff =? 255) || (Z.land (q_class q) 0x7fff =? Z.land (r_class r) 0x7fff))
  && ((q_kind q =? 255) || (q_kind q =? r_kind r) || (r_kind r =? 5)).
Definition decoded_overhead (r : Rr) : Z :=
  let ls n := len (labels n) in
  128 * (ls (r_name r) +
    match r_data r with
    | RdName n | RdSrv _ _ _ n | RdPreference _ n | RdNsec n _ | RdSig _ _ _ _ _ _ _ n _ | RdSvcb _ n _ => ls n
    | RdTwoNames a b | RdPx _ a b | RdSoa a b _ _ _ _ _ => ls a + ls b
    | RdTxt v => len v
    | RdOpt v => len v
    | _ => 0
    end).
(** [None] for a record that cannot be encoded. *)
Definition charge (r : Rr) : outcome io_error (option Z) :=
  match encode (add_answer r (message_new 0 0x8400)) with
  | Ok b => Ok (Some (1024 + 16 * len b + decoded_overhead r))
  | Err _ => Ok None
  | Panic => Panic
  end.
Definition cacheable (r : Rr) : bool :=
  negb (mem (r_kind r) [0; 41; 249; 250; 251; 252; 253; 254; 255])
  && match r_data r with RdOpaque _ | RdEmpty => false | RdSig covered _ _ _ _ _ _ _ _ => negb (covered =? 0) | _ => true end
  && negb (Z.land (r_class r) 0x7fff =? 0) && negb (Z.land (r_class r) 0x7fff =? 255).

(** ** Sums, expiry and eviction *)

Definition charges (es : list Entry) : Z := total (map e_charge es).
Definition entries (c : Cache) : list Entry := concat (map s_records (sorted_values (c_sets c))).
Definition counts (c : Cache) : Z * Z * Z := (slen (c_sets c), len (entries c), c_bytes c + c_reserved c).
Definition clear (c : Cache) : Cache := mkCache ∅ 0 (c_reserved c).
Definition minimum (l : list Z) : option Z := match l with [] => None | x :: l => Some (foldl Z.min x l) end.
Definition next_deadline (c : Cache) : option Z := minimum (map deadline (entries c)).
(** [self.bytes -= n] *)
Definition release (n : Z) : MC unit := c ← get; b ← lift (sub_chk (c_bytes c) n); modify (set_bytes b).
Definition live_entry (now : Z) (e : Entry) : bool := now <? deadline e.
Definition expire (now : Z) : MC unit :=
  c ← get;
  release (msum (fun _ s => charges (List.filter (fun e => negb (live_entry now e)) (s_records s))) (c_sets c)) ;;
  modify (set_sets (filter (fun ks => s_records ks.2 <> [])
    ((fun s => mkRrSet (List.filter (live_entry now) (s_records s)) (s_used s)) <$> c_sets c))).
Definition owner_stamp (name : bytes) (now : Z) (c : Cache) : option (option Stamp) :=
  e_stamp <$> List.find (fun e => beq (canonical (r_name (e_record e))) name && live_entry now e) (entries c).
Definition remove_owner (name : bytes) : MC unit :=
  c ← get;
  release (msum (fun k s => if beq k.1.1 name then charges (s_records s) else 0) (c_sets c)) ;;
  modify (set_sets (filter (fun ks => beq ks.1.1.1 name = false) (c_sets c))).
(** [self.sets.iter().min_by_key(|(_, s)| s.used)] *)
Definition oldest_set (c : Cache) : option (Key * RrSet) := min_by (fun x b => s_used x.2 <? s_used b.2) (sorted (c_sets c)).
Fixpoint evict_while (fuel : nat) (over : Cache -> bool) : MC unit :=
  c ← get;
  if negb (over c) then mret tt else
  match oldest_set c with
  | None => mret tt
  | Some (k, old) =>
      match fuel with
      | O => lift Panic
      | S fuel =>
          modify (set_sets (delete k (c_sets c))) ;;
          release (charges (s_records old)) ;;
          evict_while fuel over
      end
  end.
(** A round per set is enough. *)
Definition evict (over : Cache -> bool) : MC unit := c ← get; evict_while (size (c_sets c)) over.
Definition reserve (n : Z) : MC unit :=
  modify (set_reserved n) ;;
  evict (fun c => BYTES <? c_bytes c + c_reserved c).

(** ** Receiving *)

Section receiving.
Context (m : Message) (now : Z) (stamps : stamp_map).

(** The first loop: which owners of the message are stale here, and the stamp of each other. *)
Definition merged (local remote : option Stamp) : option Stamp :=
  match local, remote with
  | Some a, Some b => Some (mkStamp (st_key_checksum b) (Z.min (st_received_at a) (st_received_at b)))
  | _, _ => remote
  end.
Fixpoint select_loop (rs : list (Z * Rr)) (selected : gmap bytes (option Stamp)) (ignored : gset bytes)
  : MC (gmap bytes (option Stamp) * gset bytes) :=
  match rs with
  | [] => mret (selected, ignored)
  | (index, r) :: rs =>
      let n := canonical (r_name r) in
      if negb (cacheable r) || (negb (is_response m) && (index <? len (m_answers m))) || has_key selected n || bool_decide (n ∈ ignored)
      then select_loop rs selected ignored else
      let remote := stamps !! n in
      c ← get;
      match owner_stamp n now c with
      | None => select_loop rs (<[n := remote]> selected) ignored
      | Some local =>
          match compare local remote with
          | Older => select_loop rs selected ({[n]} ∪ ignored)
          | Newer | Conflict => remove_owner n ;; select_loop rs (<[n := remote]> selected) ignored
          | Equal => select_loop rs (<[n := merged local remote]> selected) ignored
          | Unstamped => select_loop rs (<[n := remote]> selected) ignored
          end
      end
  end.
End receiving.

Definition soon (now : Z) (e : Entry) : Entry := set_expires (Z.min (e_expires e) (sat64 now 1000)) e.
Definition alter_set (k : Key) (f : RrSet -> RrSet) (c : Cache) : Cache := set_sets (alter f k (c_sets c)) c.
(** A goodbye: the record lives for another second. *)
Definition farewell (now : Z) (r : Rr) (c : Cache) : Cache :=
  alter_set (key r) (on_entries (fun e => if same (e_record e) r then soon now e else e)) c.
(** The cache-flush bit: what was received more than a second ago lives for another second. *)
Definition flush (now : Z) (r : Rr) (c : Cache) : Cache :=
  if Z.land (r_class r) 0x8000 =? 0 then c
  else alter_set (key r) (on_entries (fun e => if 1000 <? sat_sub now (e_received e) then soon now e else e)) c.
Definition capped_ttl (r : Rr) : Z := Z.min (r_ttl r) 0x7fffffff.
Definition renewed (now : Z) (stamp : option Stamp) (refresh : list Z) (r : Rr) (e : Entry) : Entry :=
  mkEntry (set_class (r_class r) (set_ttl (capped_ttl r) (e_record e))) now (sat64 now (capped_ttl r * 1000)) (e_charge e)
    stamp refresh 0 None.
(** [iter_mut().find(...)]: the first entry of the record, updated. *)
Fixpoint renew (f : Entry -> Entry) (r : Rr) (es : list Entry) : option (list Entry) :=
  match es with
  | [] => None
  | e :: es => if same (e_record e) r then Some (f e :: es) else (fun es => e :: es) <$> renew f r es
  end.
Definition renew_in (now : Z) (stamp : option Stamp) (refresh : list Z) (r : Rr) (c : Cache) : option Cache :=
  s ← c_sets c !! key r;
  es ← renew (renewed now stamp refresh r) r (s_records s);
  Some (set_sets (<[key r := mkRrSet es now]> (c_sets c)) c).
Definition added (now cost : Z) (stamp : option Stamp) (refresh : list Z) (r : Rr) : Entry :=
  mkEntry (set_ttl (capped_ttl r) r) now (sat64 now (capped_ttl r * 1000)) cost stamp refresh 0 None.
Definition over_for (k : Key) (cost : Z) (c : Cache) : bool :=
  (BYTES <? c_bytes c + c_reserved c + cost) || (negb (has_key (c_sets c) k) && (slen (c_sets c) =? SETS)).
Definition insert_entry (k : Key) (now : Z) (e : Entry) (c : Cache) : Cache :=
  let s := default (mkRrSet [] 0) (c_sets c !! k) in
  mkCache (<[k := mkRrSet (s_records s ++ [e]) now]> (c_sets c)) (c_bytes c + e_charge e) (c_reserved c).

Section admitting.
Context {R : Type} `{Sampler R}.
Abbreviation MCR := (M (Cache * R) io_error).
(** One record of the second loop that was neither stale nor a goodbye. *)
Definition admit_record (now : Z) (stamp : option Stamp) (r : Rr) : MCR unit :=
  cost ← lift (charge r);
  match cost with
  | Some cost =>
      if BYTES <? cost then mret tt else
      let ttl_ms := capped_ttl r * 1000 in
      jitter ← draw (ttl_ms / 50);
      let refresh := map (fun p => sat64 (sat64 now (ttl_ms * p / 100)) jitter) [80; 85; 90; 95] in
      update (flush now r) ;;
      c ← self;
      match renew_in now stamp refresh r c with
      | Some c' => update (fun _ => c')
      | None =>
          on_fst (evict (over_for (key r) cost)) ;;
          update (insert_entry (key r) now (added now cost stamp refresh r))
      end
  | None => mret tt
  end.
Definition receive_record (m : Message) (now : Z) (selected : gmap bytes (option Stamp)) (ignored : gset bytes) (ir : Z * Rr) : MCR unit :=
  let '(index, r) := ir in
  let n := canonical (r_name r) in
  if negb (cacheable r) || bool_decide (n ∈ ignored)
     || (negb (is_response m) && (index <? len (m_answers m) + len (m_authority m))) then mret tt else
  if r_ttl r =? 0 then update (farewell now r) else
  admit_record now (default None (selected !! n)) r.
Definition receive_with_code (m : Message) (code now : Z) : MCR unit :=
  if too_many m then throw InvalidData else
  on_fst (expire now) ;;
  stamps ← lift (extract m code now);
  '(selected, ignored) ← on_fst (select_loop m now stamps (enumerate (records_of m)) ∅ ∅);
  for_each (enumerate (records_of m)) (receive_record m now selected ignored).
Definition receive (m : Message) (now : Z) : MCR unit := receive_with_code m OPTION_CODE now.
End admitting.

(** ** Lookups *)

Definition plain_class (r : Rr) : Rr := set_class (Z.land (r_class r) 0x7fff) r.
(** [iter.filter(...)] over the sets, which marks the sets it took from. *)
Definition mark_used (p : Entry -> bool) (now : Z) (c : Cache) : Cache :=
  set_sets ((fun s => if existsb p (s_records s) then mkRrSet (s_records s) now else s) <$> c_sets c) c.
Definition answer (now : Z) (e : Entry) : Rr :=
  set_ttl (Z.min ((sat_sub (deadline e) now + 999) / 1000) u32_max) (plain_class (e_record e)).
Definition answers (q : Question) (now : Z) (c : Cache) : list Rr * Cache :=
  let p e := live_entry now e && matches q (e_record e) in
  (map (answer now) (List.filter p (entries c)), mark_used p now c).
Fixpoint bitmap_has (fuel : nat) (b : bytes) (kind : Z) : outcome io_error bool :=
  if len b <? 2 then Ok false else
  match fuel with
  | O => Panic
  | S fuel =>
      b0 ← b.[0];
      n ← b.[1];
      if (n =? 0) || (32 <? n) || (len b <? n + 2) then Ok false else
      if b0 =? kind / 256 then
        let bit := kind mod 256 in
        if bit / 8 <? n then x ← b.[2 + bit / 8]; Ok (negb (Z.land x (Z.shiftr 0x80 (bit mod 8)) =? 0)) else Ok false
      else b ← slice_from b (2 + n); bitmap_has fuel b kind
  end.
Definition denies (q : Question) (now : Z) (e : Entry) : outcome io_error bool :=
  if negb (live_entry now e) || negb (name_eq (r_name (e_record e)) (q_name q))
     || negb (Z.land (r_class (e_record e)) 0x7fff =? Z.land (q_class q) 0x7fff) then Ok false else
  match r_data (e_record e) with
  | RdNsec _ bitmap =>
      has ← bitmap_has (length bitmap) bitmap (q_kind q);
      if has : bool then Ok false else cname ← bitmap_has (length bitmap) bitmap 5; Ok (negb cname)
  | _ => Ok false
  end.
(** [iter.any(...)] *)
Fixpoint any_of {A} (f : A -> outcome io_error bool) (l : list A) : outcome io_error bool :=
  match l with
  | [] => Ok false
  | x :: l => b ← f x; if b : bool then Ok true else any_of f l
  end.
Definition negative (q : Question) (now : Z) (c : Cache) : outcome io_error bool :=
  if q_kind q =? 255 then Ok false else any_of (denies q now) (entries c).
Definition interested (q : Question) (r : Rr) : bool :=
  matches q r || ((r_kind r =? 47) && name_eq (r_name r) (q_name q) && (Z.land (r_class r) 0x7fff =? Z.land (q_class q) 0x7fff)).
Definition next_refresh (e : Entry) : option Z := e_refresh e !! Z.to_nat (e_refreshed e).
Definition timing (q : Question) (now : Z) (c : Cache) : bool * option Z :=
  let es := List.filter (fun e => live_entry now e && interested q (e_record e)) (entries c) in
  (existsb (fun e => negb (Z.land (r_class (e_record e)) 0x8000 =? 0)) es, minimum (omap next_refresh es)).
(** [while e.refresh.get(e.refreshed).is_some_and(...)]: at most a round per refresh time. *)
Fixpoint skip_refresh (fuel : nat) (now : Z) (e : Entry) : Entry :=
  match fuel with
  | O => e
  | S fuel => match next_refresh e with Some t => if t <=? now then skip_refresh fuel now (set_refreshed (e_refreshed e + 1) e) else e | None => e end
  end.
Definition map_entries (f : Entry -> Entry) (c : Cache) : Cache := set_sets (on_entries f <$> c_sets c) c.
Definition refreshed (q : Question) (now : Z) : Cache -> Cache :=
  map_entries (fun e => if interested q (e_record e) then skip_refresh (length (e_refresh e)) now e else e).
Definition seconds_left (now : Z) (e : Entry) : Z := sat_sub (deadline e) now / 1000.
Definition known (q : Question) (now : Z) (c : Cache) : list Rr * Cache :=
  let p e := interested q (e_record e) && ((r_ttl (e_record e) + 1) / 2 <=? seconds_left now e) && (0 <? seconds_left now e) in
  (map (fun e => set_ttl (seconds_left now e mod 2 ^ 32) (plain_class (e_record e))) (List.filter p (entries c)), mark_used p now c).
Definition suspect (q : Question) (now : Z) : Cache -> Cache :=
  map_entries (fun e => if interested q (e_record e) then set_expires (Z.min (e_expires e) (sat64 now 10000)) e else e).
Definition unanswered (now : Z) (e : Entry) : Entry :=
  match e_failure e with
  | None => set_failure (Some (now, now, 1)) e
  | Some (first, last, count) =>
      if 1000 <=? sat_sub now last then set_failure (Some (first, now, sat_add u8_max count 1)) e else e
  end.
Definition observe_question (q : Question) (knowns : list Rr) (now : Z) (c : Cache) : Cache :=
  if negb (Z.land (q_class q) 0x8000 =? 0) then c else
  map_entries (fun e =>
    if (deadline e <=? now) || negb (matches q (e_record e))
       || existsb (fun r => same r (e_record e) && ((r_ttl (e_record e) + 1) / 2 <=? r_ttl r)) knowns
    then e else unanswered now e) c.
