(* ===== verification/CacheFacts.v ===== *)
(** Properties of the cache of multicast DNS records: its accounting and budget over every
    history, eviction, and what a received record does to the answers. *)

From S2P Require Import Prelude Effects Maps Ordered Time Stateful DnsWire DnsFacts DnsFormat Names Tsr Cache.

(** ** Methods that do not fail *)

Definition runs {S A} (m : M S io_error A) (s : S) (Q : A -> S -> Prop) : Prop :=
  match m s with (Ok a, s') => Q a s' | _ => False end.
Section runs.
Context {S : Type}.
Lemma runs_bind {A B} (m : M S io_error A) (f : A -> M S io_error B) s P Q :
  runs m s P -> (forall a s', P a s' -> runs (f a) s' Q) -> runs (m ≫= f) s Q.
Proof. unfold runs. cbv [mbind M_bind]. intros Hm Hf. destruct (m s) as [[a|e|] s']; [by apply Hf|done|done]. Qed.
Lemma runs_weaken {A} (m : M S io_error A) s P Q : runs m s P -> (forall a s', P a s' -> Q a s') -> runs m s Q.
Proof. unfold runs. destruct (m s) as [[a|e|] s']; auto. Qed.
Lemma runs_get {A} (f : S -> M S io_error A) s Q : runs (f s) s Q -> runs (x ← get; f x) s Q.
Proof. done. Qed.
Lemma runs_modify (f : S -> S) s (Q : unit -> S -> Prop) : Q tt (f s) -> runs (modify f) s Q.
Proof. done. Qed.
Lemma runs_step {A} (f : S -> S) (m : M S io_error A) s Q : runs m (f s) Q -> runs (modify f ;; m) s Q.
Proof. done. Qed.
Lemma gives_known {R} {A B} (I : S -> Prop) (a : A) (f : A -> M (S * R) io_error B) st Q : gives I (f a) st Q -> gives I (lift (Ok a) ≫= f) st Q.
Proof. done. Qed.
Lemma gives_runs {R} `{Sampler R} {A} (I : S -> Prop) (m : M S io_error A) c (r : R) Q :
  runs m c Q -> gives I (on_fst m) (c, r) Q.
Proof. unfold runs, gives, on_fst. cbn. destruct (m c) as [[a|e|] c']; done. Qed.
End runs.

Lemma min_by_least {A} (f : A -> Z) l b : min_by (fun x b => f x <? f b) l = Some b -> In b l /\ forall x, In x l -> f b <= f x.
Proof.
  intros Hb. split; [by eapply choice_in|]. revert Hb. unfold min_by.
  assert (forall l b r, foldl (fun best x => match best with Some b => if f x <? f b then Some x else Some b | None => Some x end) (Some b) l = Some r ->
    f r <= f b /\ forall x, In x l -> f r <= f x) as H.
  { clear. induction l as [|y l IH]; intros b r; cbn [foldl]; [intros [= ->]; split; [lia|by intros ? []]|].
    destruct (Z.ltb_spec (f y) (f b)); intros [H1 H2]%IH; (split; [lia|]); intros x [<-|Hx]; auto; lia. }
  destruct l as [|x l]; [done|]. cbn [foldl]. intros [H1 H2]%H. intros y [<-|Hy]; auto.
Qed.
Lemma min_by_nothing {A} (lt : A -> A -> bool) l : min_by lt l = None -> l = [].
Proof. exact (max_by_none lt l). Qed.

(** ** The invariant *)

Definition plain_wf (r : Rr) : Prop :=
  name_wf (r_name r) /\ is_u16 (r_kind r) /\ is_u16 (r_class r) /\ is_u32 (r_ttl r) /\ rdata_wf (r_kind r) (r_data r).
Definition entry_wf (k : Key) (e : Entry) : Prop :=
  plain_wf (e_record e) /\ key (e_record e) = k /\ 0 <= e_charge e <= BYTES /\ 0 <= e_refreshed e.
Definition set_charge (s : RrSet) : Z := charges (s_records s).
Definition content (e : Entry) : Rdata := fold_data (r_data (e_record e)).
Record set_wf (k : Key) (s : RrSet) : Prop := {
  sw_some : s_records s <> [];
  sw_entries : Forall (entry_wf k) (s_records s);
  sw_once : NoDup (map content (s_records s));
}.
Record cache_wf (c : Cache) : Prop := {
  cw_bytes : c_bytes c = msum (fun _ => set_charge) (c_sets c);
  cw_reserved : 0 <= c_reserved c;
  cw_limit : slen (c_sets c) <= SETS;
  cw_each : map_Forall set_wf (c_sets c);
}.
Definition record_total (c : Cache) : Z := msum (fun _ s => len (s_records s)) (c_sets c).
(** The budget holds, but for a single record that was admitted when nothing else was left. *)
Definition within_budget (c : Cache) : Prop := c_bytes c + c_reserved c <= BYTES \/ record_total c <= 1.

Lemma charges_nonneg k es : Forall (entry_wf k) es -> 0 <= charges es.
Proof.
  induction 1 as [|e es (_ & _ & He & _) _ IH]; [done|]. unfold charges in *. cbn [map]. change (total (e_charge e :: map e_charge es)) with (e_charge e + total (map e_charge es)). lia.
Qed.
Lemma charges_app a b : charges (a ++ b) = charges a + charges b.
Proof. unfold charges. by rewrite map_app, total_app. Qed.
Lemma set_charge_nonneg c k s : map_Forall set_wf (c_sets c) -> c_sets c !! k = Some s -> 0 <= set_charge s.
Proof. intros He Hk. by eapply charges_nonneg, sw_entries, He. Qed.
Lemma cache_empty n : 0 <= n -> cache_wf (mkCache ∅ 0 n).
Proof. intros Hn. split; cbn; [done|done|done|]. intros k s Hk. by rewrite lookup_empty in Hk. Qed.

(** Releasing what is counted. *)
Lemma release_runs n c Q : n <= c_bytes c -> Q tt (set_bytes (c_bytes c - n) c) -> runs (release n) c Q.
Proof.
  intros Hn HQ. unfold release, runs. cbv [mbind M_bind get lift modify].
  assert (sub_chk (E:=io_error) (c_bytes c) n = Ok (c_bytes c - n)) as -> by (by apply sub_chk_Ok). done.
Qed.

(** ** Eviction *)

Lemma oldest_set_spec c k s : oldest_set c = Some (k, s) -> c_sets c !! k = Some s /\ forall k' s', c_sets c !! k' = Some s' -> s_used s <= s_used s'.
Proof.
  intros Ho. apply (min_by_least (fun x => s_used x.2)) in Ho as [Hin Hle]. split; [by apply sorted_in in Hin|].
  intros k' s' Hk. apply (Hle (k', s')). by apply sorted_in.
Qed.
Lemma oldest_set_none c : oldest_set c = None -> c_sets c = ∅.
Proof.
  intros Ho%min_by_nothing. apply map_eq. intros k. rewrite lookup_empty. destruct (c_sets c !! k) as [s|] eqn:E; [|done].
  apply sorted_in in E. by rewrite Ho in E.
Qed.
Lemma cache_delete k s c : cache_wf c -> c_sets c !! k = Some s ->
  cache_wf (mkCache (delete k (c_sets c)) (c_bytes c - set_charge s) (c_reserved c)) /\ set_charge s <= c_bytes c.
Proof.
  intros [H1 H2 H3 H4] Hk. pose proof (msum_delete (fun _ => set_charge) _ _ _ Hk) as Hm. cbv beta in Hm.
  assert (0 <= msum (fun _ => set_charge) (delete k (c_sets c))) as Hn.
  { apply msum_nonneg. intros k' s' [_ Hk']%lookup_delete_Some. by eapply set_charge_nonneg. }
  split; [|lia]. split; cbn; [lia|done|rewrite slen_delete by (by eexists); lia|by apply map_Forall_delete].
Qed.
(** What eviction leaves: a part of the sets, each used no earlier than every set removed. *)
Record evicted (c c' : Cache) : Prop := {
  ev_wf : cache_wf c';
  ev_reserved : c_reserved c' = c_reserved c;
  ev_sub : c_sets c' ⊆ c_sets c;
  ev_oldest k s k' s' : c_sets c !! k = Some s -> c_sets c' !! k = None -> c_sets c' !! k' = Some s' -> s_used s <= s_used s';
}.
Lemma evicted_refl c : cache_wf c -> evicted c c.
Proof. intros Hc. split; [done|done|done|]. intros k s k' s' H1 H2. congruence. Qed.
Lemma evict_while_runs fuel over c : cache_wf c -> (size (c_sets c) <= fuel)%nat ->
  runs (evict_while fuel over) c (fun _ c' => evicted c c' /\ (over c' = false \/ c_sets c' = ∅)).
Proof.
  revert c. induction fuel as [|fuel IH]; intros c Hc Hf; cbn [evict_while]; apply runs_get;
    (destruct (over c) eqn:Eo; cbn [negb]; [|by split; [apply evicted_refl|left]]);
    (destruct (oldest_set c) as [[k s]|] eqn:Es; [|by split; [apply evicted_refl|right; apply oldest_set_none]]);
    apply oldest_set_spec in Es as [Hk Hle].
  - assert (size (c_sets c) <> 0%nat) by (by eapply map_size_ne_0_lookup_2). lia.
  - destruct (cache_delete k s c Hc Hk) as [Hd Hb]. apply runs_step. apply (runs_bind _ _ _ (fun _ c1 => c1 = mkCache (delete k (c_sets c)) (c_bytes c - set_charge s) (c_reserved c)));
      [by apply release_runs|].
    intros [] c1 ->. cbn. eapply runs_weaken; [apply IH; [exact Hd|]|].
    { cbn. rewrite map_size_delete_Some by done. lia. }
    intros [] c' [[H1 H2 H3 H4] Hend]. split; [|done]. split; [done|done| |].
    + etrans; [exact H3|]. apply delete_subseteq.
    + intros k1 s1 k2 s2 Hk1 Hn Hk2. cbn in *. destruct (decide (k1 = k)) as [->|Hne].
      * assert (s1 = s) as -> by congruence. apply (Hle k2). by eapply lookup_weaken; [eapply lookup_weaken; [exact Hk2|exact H3]|apply delete_subseteq].
      * eapply H4; [by rewrite lookup_delete_ne|done|done].
Qed.
Lemma evict_runs over c : cache_wf c -> runs (evict over) c (fun _ c' => evicted c c' /\ (over c' = false \/ c_sets c' = ∅)).
Proof. intros Hc. unfold evict. apply runs_get. by apply evict_while_runs. Qed.

(** ** Shrinking: expiry, removal of an owner *)

Lemma msum_plus {K A} `{Countable K} (f g : K -> A -> Z) m : msum (fun k v => f k v + g k v) m = msum f m + msum g m.
Proof. induction m as [|k v m Hk IH] using map_ind; [done|]. rewrite !msum_insert, IH by done. lia. Qed.
Lemma msum_le {K A} `{Countable K} (f g : K -> A -> Z) m : (forall k v, m !! k = Some v -> f k v <= g k v) -> msum f m <= msum g m.
Proof.
  intros Hle. assert (msum g m = msum f m + msum (fun k v => g k v - f k v) m) as ->.
  { rewrite <-msum_plus. apply msum_ext. intros. lia. }
  pose proof (msum_nonneg (fun k v => g k v - f k v) m). enough (0 <= msum (fun k v => g k v - f k v) m) by lia. apply H0. intros k v Hk. specialize (Hle k v Hk). lia.
Qed.
Lemma charges_split p es : charges es = charges (List.filter p es) + charges (List.filter (fun e => negb (p e)) es).
Proof.
  induction es as [|e es IH]; [done|]. cbn [List.filter]. change (charges (e :: es)) with (e_charge e + charges es).
  destruct (p e); cbn [negb]; [change (charges (e :: List.filter p es)) with (e_charge e + charges (List.filter p es))|
    change (charges (e :: List.filter (fun e => negb (p e)) es)) with (e_charge e + charges (List.filter (fun e => negb (p e)) es))]; lia.
Qed.
(** Keeping of each set the entries that pass a test, and dropping the sets that get empty. *)
Definition kept (p : Key -> Entry -> bool) (m : gmap Key RrSet) : gmap Key RrSet :=
  filter (fun ks => s_records ks.2 <> []) (map_imap (fun k s => Some (mkRrSet (List.filter (p k) (s_records s)) (s_used s))) m).
Lemma kept_lookup p m k s' : kept p m !! k = Some s' <->
  exists s, m !! k = Some s /\ s' = mkRrSet (List.filter (p k) (s_records s)) (s_used s) /\ s_records s' <> [].
Proof.
  unfold kept. rewrite map_lookup_filter_Some, map_lookup_imap. cbn. split.
  - intros [Hk Hne]. destruct (m !! k) as [s|] eqn:E; [|done]. cbn in Hk. injection Hk as <-. by exists s.
  - intros (s & -> & -> & Hne). done.
Qed.
Lemma filter_map_incl {A B} (f : A -> B) p l x : In x (map f (List.filter p l)) -> In x (map f l).
Proof. rewrite !in_map_iff. intros (y & Hy & Hin%filter_In). exists y. by destruct Hin. Qed.
Lemma NoDup_map_filter {A B} (f : A -> B) p l : NoDup (map f l) -> NoDup (map f (List.filter p l)).
Proof.
  induction l as [|x l IH]; [done|]. cbn [map List.filter]. rewrite list.NoDup_cons. intros [Hx Hl]. destruct (p x); [|by apply IH]. cbn [map].
  rewrite list.NoDup_cons. split; [|by apply IH]. rewrite list_elem_of_In in *. intros Hin. apply Hx. by eapply filter_map_incl.
Qed.
Lemma set_wf_filter k p s : set_wf k s -> List.filter p (s_records s) <> [] -> set_wf k (mkRrSet (List.filter p (s_records s)) (s_used s)).
Proof.
  intros [H1 H2 H3] Hne. split; cbn; [done| |by apply NoDup_map_filter]. apply List.Forall_forall. intros e [He _]%filter_In. by eapply Forall_In.
Qed.
Lemma kept_sum p m (f : RrSet -> Z) : (forall u, f (mkRrSet [] u) = 0) ->
  msum (fun _ => f) (kept p m) = msum (fun k s => f (mkRrSet (List.filter (p k) (s_records s)) (s_used s))) m.
Proof.
  intros Hf. unfold kept. induction m as [|k s m Hk IH] using map_ind; [by rewrite map_imap_empty|].
  rewrite map_imap_insert_Some with (y := mkRrSet (List.filter (p k) (s_records s)) (s_used s)) by done. rewrite (msum_insert _ m) by done.
  assert (map_imap (fun k s => Some (mkRrSet (List.filter (p k) (s_records s)) (s_used s))) m !! k = None) as Hn by (rewrite map_lookup_imap, Hk; done).
  destruct (List.filter (p k) (s_records s)) as [|e es] eqn:E.
  - rewrite map_filter_insert_not' by (cbn; first [tauto | intros; congruence]). rewrite IH, Hf. lia.
  - rewrite map_filter_insert_True by (cbn; congruence). rewrite msum_insert; [by rewrite IH|].
    apply map_lookup_filter_None. by left.
Qed.
Lemma cache_kept p c : cache_wf c ->
  let dead := msum (fun k s => charges (List.filter (fun e => negb (p k e)) (s_records s))) (c_sets c) in
  let c' := mkCache (kept p (c_sets c)) (c_bytes c - dead) (c_reserved c) in
  cache_wf c' /\ 0 <= dead <= c_bytes c /\ record_total c' <= record_total c.
Proof.
  intros [H1 H2 H3 H4] dead c'. assert (msum (fun _ => set_charge) (kept p (c_sets c)) = c_bytes c - dead) as Hs.
  { rewrite kept_sum by done. rewrite H1. subst dead. enough (msum (fun _ => set_charge) (c_sets c) =
      msum (fun k s => set_charge (mkRrSet (List.filter (p k) (s_records s)) (s_used s)) + charges (List.filter (fun e => negb (p k e)) (s_records s))) (c_sets c)) as ->.
    - rewrite msum_plus. lia.
    - apply msum_ext. intros k s _. apply charges_split. }
  assert (map_Forall set_wf (kept p (c_sets c))) as Hw.
  { intros k s' (s & Hk & -> & Hne)%kept_lookup. apply set_wf_filter; [by apply H4|done]. }
  assert (0 <= msum (fun _ => set_charge) (kept p (c_sets c))) as Hn.
  { apply msum_nonneg. intros k s Hk. eapply charges_nonneg, sw_entries. by apply (Hw k). }
  assert (0 <= dead) as Hd.
  { apply msum_nonneg. intros k s Hk. eapply charges_nonneg with (k := k), List.Forall_forall. intros e [He _]%filter_In. eapply Forall_In; [|exact He]. by apply sw_entries, H4. }
  split; [split; cbn; [lia|done| |done]|split; [lia|]].
  - etrans; [|exact H3]. unfold slen, kept. apply inj_le. etrans; [apply map_subseteq_size, map_filter_subseteq|]. rewrite <-!size_dom.
    apply subseteq_size. intros k. rewrite !elem_of_dom, map_lookup_imap. by destruct (c_sets c !! k).
  - unfold record_total. cbn. rewrite (kept_sum p (c_sets c) (fun s => len (s_records s))) by done. apply msum_le. intros k s _. cbn.
    unfold len. pose proof (List.filter_length_le (p k) (s_records s)). lia.
Qed.
Lemma filter_true {A} (l : list A) : List.filter (fun _ => true) l = l.
Proof. induction l as [|x l IH]; cbn; congruence. Qed.
Lemma filter_false {A} (l : list A) : List.filter (fun _ => false) l = [].
Proof. by induction l. Qed.
Lemma budget_shrinks c c' : c_bytes c' <= c_bytes c -> c_reserved c' = c_reserved c -> record_total c' <= record_total c -> within_budget c -> within_budget c'.
Proof. intros H1 H2 H3 [?|?]; [left|right]; lia. Qed.
(** What a shrinking method leaves. *)
Definition shrunk (p : Key -> Entry -> bool) (c c' : Cache) : Prop :=
  cache_wf c' /\ c_sets c' = kept p (c_sets c) /\ c_reserved c' = c_reserved c /\ (within_budget c -> within_budget c').
Lemma cache_shrunk p c : cache_wf c ->
  let dead := msum (fun k s => charges (List.filter (fun e => negb (p k e)) (s_records s))) (c_sets c) in
  dead <= c_bytes c /\ shrunk p c (mkCache (kept p (c_sets c)) (c_bytes c - dead) (c_reserved c)).
Proof.
  intros Hc dead. destruct (cache_kept p c Hc) as (H1 & H2 & H3). fold dead in H1, H2, H3. split; [lia|]. split; [done|]. split; [done|]. split; [done|].
  apply budget_shrinks; cbn; [lia|done|done].
Qed.
Lemma expire_runs now c : cache_wf c -> runs (expire now) c (fun _ => shrunk (fun _ => live_entry now) c).
Proof.
  intros Hc. destruct (cache_shrunk (fun _ => live_entry now) c Hc) as [Hd Hs]. unfold expire. apply runs_get.
  match type of Hd with ?d <= _ => set (dead := d) in * end.
  apply (runs_bind _ _ _ (fun _ c1 => c1 = set_bytes (c_bytes c - dead) c)); [by apply release_runs|]. intros [] c1 ->. apply runs_modify.
  unfold set_sets, set_bytes. cbn. match goal with |- shrunk _ _ (mkCache ?m _ _) => replace m with (kept (fun _ => live_entry now) (c_sets c)); [done|] end.
  unfold kept. f_equal. apply map_eq. intros k. rewrite map_lookup_imap, lookup_fmap. by destruct (c_sets c !! k).
Qed.
Lemma remove_owner_runs n c : cache_wf c -> runs (remove_owner n) c (fun _ => shrunk (fun k _ => negb (beq k.1.1 n)) c).
Proof.
  intros Hc. destruct (cache_shrunk (fun k _ => negb (beq k.1.1 n)) c Hc) as [Hd Hs]. unfold remove_owner. apply runs_get.
  match type of Hd with ?d <= _ => set (dead := d) in * end.
  assert (msum (fun k s => if beq k.1.1 n then charges (s_records s) else 0) (c_sets c) = dead) as ->.
  { apply msum_ext. intros k s _. destruct (beq k.1.1 n); cbn; [by rewrite (filter_true (s_records s))|]. by rewrite (filter_false (s_records s)). }
  apply (runs_bind _ _ _ (fun _ c1 => c1 = set_bytes (c_bytes c - dead) c)); [by apply release_runs|]. intros [] c1 ->. apply runs_modify.
  unfold set_sets, set_bytes. cbn. match goal with |- shrunk _ _ (mkCache ?m _ _) => replace m with (kept (fun k _ => negb (beq k.1.1 n)) (c_sets c)); [done|] end.
  apply map_eq. intros k. apply option_eq. intros s'. rewrite kept_lookup, map_lookup_filter_Some. cbn. split.
  - intros (s & Hk & -> & Hne). destruct (beq k.1.1 n); cbn in *; [by rewrite (filter_false (s_records s)) in Hne|].
    rewrite (filter_true (s_records s)) by done. by destruct s.
  - intros [Hk Hn]. exists s'. rewrite Hn. cbn. rewrite (filter_true (s_records s')) by done. split; [done|]. split; [by destruct s'|]. by eapply sw_some, cw_each.
Qed.
Lemma msum_subset {K A} `{Countable K} (f : K -> A -> Z) m' m : (forall k v, m !! k = Some v -> 0 <= f k v) -> m' ⊆ m -> msum f m' <= msum f m.
Proof.
  revert m'. induction m as [|k v m Hk IH] using map_ind; intros m' Hf Hs.
  { enough (m' = ∅) as -> by done. apply map_eq. intros k. rewrite lookup_empty. destruct (m' !! k) as [v|] eqn:E; [|done].
    pose proof (lookup_weaken _ _ _ _ E Hs) as Hw. by rewrite lookup_empty in Hw. }
  assert (forall k v, m !! k = Some v -> 0 <= f k v) as Hf'.
  { intros k' v' Hk'. apply Hf. rewrite lookup_insert_ne; [done|]. intros ->. congruence. }
  rewrite msum_insert by done. specialize (Hf k v (lookup_insert_eq _ _ _)). destruct (m' !! k) as [w|] eqn:E.
  - assert (w = v) as -> by (pose proof (lookup_weaken _ _ _ _ E Hs) as Hw; rewrite lookup_insert_eq in Hw; congruence).
    rewrite (msum_delete f m' k v E). enough (msum f (delete k m') <= msum f m) by lia. apply IH; [done|].
    apply map_subseteq_spec. intros k' v' [Hne Hk']%lookup_delete_Some. pose proof (lookup_weaken _ _ _ _ Hk' Hs) as Hw. by rewrite lookup_insert_ne in Hw.
  - enough (msum f m' <= msum f m) by lia. apply IH; [done|]. apply map_subseteq_spec. intros k' v' Hk'. pose proof (lookup_weaken _ _ _ _ Hk' Hs) as Hw.
    rewrite lookup_insert_ne in Hw; [done|]. intros ->. congruence.
Qed.
Lemma evicted_budget c c' : cache_wf c -> evicted c c' -> within_budget c -> within_budget c'.
Proof.
  intros Hc [H1 H2 H3 _]. apply budget_shrinks; [|done|].
  - rewrite (cw_bytes _ H1), (cw_bytes _ Hc). apply msum_subset; [|done]. intros k s Hk. eapply set_charge_nonneg; [apply Hc|done].
  - apply msum_subset; [|done]. intros k s _. apply len_nonneg.
Qed.
(** Room for a reservation, or nothing left. *)
Lemma reserve_runs n c : cache_wf c -> 0 <= n -> runs (reserve n) c (fun _ c' => cache_wf c' /\ within_budget c' /\ c_reserved c' = n /\ c_sets c' ⊆ c_sets c).
Proof.
  intros [H1 H2 H3 H4] Hn. unfold reserve. apply runs_step. eapply runs_weaken; [apply evict_runs; by split|].
  intros [] c' [[E1 E2 E3 _] Hend]. split; [done|]. split; [|done]. destruct Hend as [Ho%Z.ltb_ge|He]; [by left|right].
  unfold record_total. by rewrite He.
Qed.

(** ** Changing entries *)

(** A change of entries that keeps their records, up to the class bit and the lifetime. *)
Definition gentle (k : Key) (f : Entry -> Entry) : Prop := forall e, entry_wf k e -> entry_wf k (f e) /\ e_charge (f e) = e_charge e /\ content (f e) = content e.
Lemma gentle_if k (b : Entry -> bool) f : gentle k f -> gentle k (fun e => if b e then f e else e).
Proof. intros Hf e He. destruct (b e); [by apply Hf|done]. Qed.
Lemma on_entries_wf k f s : gentle k f -> set_wf k s -> set_wf k (on_entries f s) /\ set_charge (on_entries f s) = set_charge s /\ len (s_records (on_entries f s)) = len (s_records s).
Proof.
  intros Hf [H1 H2 H3]. assert (map content (map f (s_records s)) = map content (s_records s) /\ charges (map f (s_records s)) = charges (s_records s) /\ Forall (entry_wf k) (map f (s_records s))) as (Hc & Hs & Hw).
  { clear H1 H3. induction H2 as [|e es He _ (IH1 & IH2 & IH3)]; [done|]. destruct (Hf e He) as (F1 & F2 & F3). cbn [map].
    split; [by rewrite F3, IH1|]. split; [|by constructor]. change (e_charge (f e) + charges (map f es) = e_charge e + charges es). lia. }
  split; [split; cbn|split; [done|cbn; by rewrite len_map]].
  - by destruct (s_records s).
  - done.
  - by rewrite Hc.
Qed.
(** Replacing the contents of the sets without changing what they are charged. *)
Definition neutral (c c' : Cache) : Prop := cache_wf c' /\ c_bytes c' = c_bytes c /\ c_reserved c' = c_reserved c /\ record_total c' = record_total c.
Lemma neutral_refl c : cache_wf c -> neutral c c.
Proof. by split. Qed.
Lemma neutral_budget c c' : neutral c c' -> within_budget c -> within_budget c'.
Proof. intros (H1 & H2 & H3 & H4). apply budget_shrinks; [lia|done|lia]. Qed.
Lemma neutral_trans c1 c2 c3 : neutral c1 c2 -> neutral c2 c3 -> neutral c1 c3.
Proof. intros (H1 & H2 & H3 & H4) (K1 & K2 & K3 & K4). split; [done|]. split; [lia|]. split; [congruence|lia]. Qed.
Lemma update_set_neutral k s s' c : cache_wf c -> c_sets c !! k = Some s -> set_wf k s' -> set_charge s' = set_charge s -> len (s_records s') = len (s_records s) ->
  neutral c (set_sets (<[k := s']> (c_sets c)) c).
Proof.
  intros [H1 H2 H3 H4] Hk Hs Hc Hl. split; [split; cbn|split; [done|split; [done|]]].
  - rewrite (msum_update _ _ _ _ _ Hk). lia.
  - done.
  - by rewrite slen_update.
  - by apply map_Forall_insert_2.
  - unfold record_total. cbn. rewrite (msum_update _ _ _ _ _ Hk). lia.
Qed.
Lemma alter_set_neutral k f c : cache_wf c -> gentle k f -> neutral c (alter_set k (on_entries f) c).
Proof.
  intros Hc Hf. unfold alter_set. destruct (c_sets c !! k) as [s|] eqn:E.
  - destruct (on_entries_wf k f s Hf (cw_each _ Hc k s E)) as (H1 & H2 & H3).
    replace (alter (on_entries f) k (c_sets c)) with (<[k := on_entries f s]> (c_sets c)); [by eapply update_set_neutral|].
    apply map_eq. intros k'. destruct (decide (k = k')) as [<-|Hn]; [by rewrite lookup_insert_eq, lookup_alter_eq, E|by rewrite lookup_insert_ne, lookup_alter_ne].
  - rewrite (alter_id _ (c_sets c) k) by congruence. destruct c. by apply neutral_refl.
Qed.
(** The same change in every set. *)
Lemma map_sets_neutral (g : RrSet -> RrSet) c : cache_wf c ->
  (forall k s, set_wf k s -> set_wf k (g s) /\ set_charge (g s) = set_charge s /\ len (s_records (g s)) = len (s_records s)) ->
  neutral c (set_sets (g <$> c_sets c) c).
Proof.
  intros [H1 H2 H3 H4] Hg. split; [split; cbn|split; [done|split; [done|]]].
  - rewrite msum_fmap, H1. apply msum_ext. intros k s Hk. symmetry. by apply (Hg k s), H4.
  - done.
  - unfold slen. by rewrite map_size_fmap.
  - intros k s' (s & <- & Hk)%lookup_fmap_Some. by apply Hg, H4.
  - unfold record_total. cbn. rewrite msum_fmap. apply msum_ext. intros k s Hk. by apply (Hg k s), H4.
Qed.
Lemma map_entries_neutral f c : cache_wf c -> (forall k, gentle k f) -> neutral c (map_entries f c).
Proof. intros Hc Hf. apply map_sets_neutral; [done|]. intros k s Hs. by apply on_entries_wf. Qed.
Lemma mark_used_neutral p now c : cache_wf c -> neutral c (mark_used p now c).
Proof. intros Hc. apply map_sets_neutral; [done|]. intros k s [H1 H2 H3]. destruct (existsb p (s_records s)); by split. Qed.
Lemma set_expires_gentle k (t : Entry -> Z) : gentle k (fun e => set_expires (t e) e).
Proof. by intros e He. Qed.
Lemma unanswered_gentle k now : gentle k (unanswered now).
Proof. intros e He. unfold unanswered. destruct (e_failure e) as [[[? ?] ?]|]; [|done]. by destruct (_ <=? _). Qed.
Lemma skip_refresh_gentle k fuel now : gentle k (skip_refresh fuel now).
Proof.
  induction fuel as [|fuel IH]; intros e He; [done|]. cbn [skip_refresh]. destruct (next_refresh e); [|done]. destruct (_ <=? _); [|done].
  destruct (IH (set_refreshed (e_refreshed e + 1) e)) as (H1 & H2 & H3); [|done]. destruct He as (? & ? & ? & ?). hnf. split_and!; try done; cbn; lia.
Qed.

(** ** Receiving *)

Lemma same_key a b : same a b = true -> key a = key b.
Proof.
  unfold same, key. rewrite !andb_true_iff, !Z.eqb_eq. intros [[[Hn Hk] Hc] _]. apply name_eq_canonical in Hn. congruence.
Qed.
Lemma same_of_key a b : key a = key b -> same a b = rdata_eq (r_data a) (r_data b).
Proof.
  unfold same, key. intros [= Hn Hk Hc]. rewrite Hk, Hc, !Z.eqb_refl, !andb_true_r. unfold name_eq. by rewrite Hn, beq_refl.
Qed.
Lemma capped_u32 r : is_u32 (r_ttl r) -> is_u32 (capped_ttl r).
Proof. unfold capped_ttl. u_lia. Qed.
Lemma plain_wf_ttl t r : plain_wf r -> is_u32 t -> plain_wf (set_ttl t r).
Proof. intros (H1 & H2 & H3 & H4 & H5) Ht. exact (conj H1 (conj H2 (conj H3 (conj Ht H5)))). Qed.
Lemma plain_wf_class c r : plain_wf r -> is_u16 c -> plain_wf (set_class c r).
Proof. intros (H1 & H2 & H3 & H4 & H5) Hc. exact (conj H1 (conj H2 (conj Hc (conj H4 H5)))). Qed.
Lemma plain_record_wf flags r : plain_wf r -> record_wf flags r.
Proof. intros (H1 & H2 & H3 & H4 & H5). refine (conj H1 (conj H2 (conj H3 (conj H4 _)))). unfold data_wf. by destruct (r_data r). Qed.
Lemma charge_yields r : plain_wf r -> yields (fun o => forall n, o = Some n -> 0 <= n) (charge r).
Proof.
  intros Hr. unfold charge. assert (message_wf (add_answer r (message_new 0 0x8400))) as Hm.
  { split; cbn; [u_lia|u_lia|constructor|]. apply List.Forall_cons; [by apply plain_record_wf|constructor]. }
  pose proof (encode_safe Unicast _ Hm) as He. unfold encode. destruct (encode_context _ _) as [b|e|]; [|done|done].
  intros n [= <-]. pose proof (len_nonneg b). enough (0 <= decoded_overhead r) by lia. unfold decoded_overhead.
  assert (forall (A : Type) (l : list A), 0 <= len l) as Hl by (intros; apply len_nonneg).
  pose proof (Hl _ (labels (r_name r))). destruct (r_data r);
    repeat match goal with |- context [len ?l] => lazymatch goal with _ : 0 <= len l |- _ => fail | _ => pose proof (Hl _ l) end end; lia.
Qed.
Lemma renewed_gentle now stamp refresh r k : plain_wf r -> key r = k -> forall e, entry_wf k e ->
  entry_wf k (renewed now stamp refresh r e) /\ e_charge (renewed now stamp refresh r e) = e_charge e /\ content (renewed now stamp refresh r e) = content e.
Proof.
  intros Hr <- e (H1 & H2 & H3 & H4). split; [|done]. split; [|split; [|split; [done|cbn; lia]]].
  - apply plain_wf_class; [apply plain_wf_ttl; [done|apply capped_u32, Hr]|apply Hr].
  - cbn. unfold key in *. cbn. by injection H2 as -> -> _.
Qed.
Lemma renew_wf f r k es es' : (forall e, entry_wf k e -> entry_wf k (f e) /\ e_charge (f e) = e_charge e /\ content (f e) = content e) ->
  Forall (entry_wf k) es -> renew f r es = Some es' ->
  Forall (entry_wf k) es' /\ charges es' = charges es /\ map content es' = map content es /\ len es' = len es.
Proof.
  intros Hf. revert es'. induction es as [|e es IH]; intros es' He; [done|]. apply Forall_cons_iff in He as [He Hes]. cbn [renew].
  destruct (same (e_record e) r).
  - intros [= <-]. destruct (Hf e He) as (F1 & F2 & F3). split; [by constructor|]. split; [change (e_charge (f e) + charges es = e_charge e + charges es); lia|].
    split; [cbn; by rewrite F3|by rewrite !len_cons].
  - destruct (renew f r es) as [es2|]; [|done]. intros [= <-]. destruct (IH es2 Hes eq_refl) as (I1 & I2 & I3 & I4). split; [by constructor|].
    split; [change (e_charge e + charges es2 = e_charge e + charges es); lia|]. split; [cbn; by rewrite I3|rewrite !len_cons; lia].
Qed.
Lemma renew_none f r es : renew f r es = None -> forall e, In e es -> same (e_record e) r = false.
Proof.
  induction es as [|e es IH]; [by intros _ ? []|]. cbn [renew]. destruct (same (e_record e) r) eqn:E; [done|].
  destruct (renew f r es); [done|]. intros _ x [<-|Hx]; [done|by apply IH].
Qed.
Lemma renew_in_neutral now stamp refresh r c c' : cache_wf c -> plain_wf r -> renew_in now stamp refresh r c = Some c' -> neutral c c'.
Proof.
  intros Hc Hr. unfold renew_in. destruct (c_sets c !! key r) as [s|] eqn:E; [|done]. cbn [mbind option_bind].
  destruct (renew _ r (s_records s)) as [es|] eqn:Er; [|done]. intros [= <-]. destruct (cw_each _ Hc _ _ E) as [S1 S2 S3].
  destruct (renew_wf _ _ (key r) _ _ (renewed_gentle now stamp refresh r _ Hr eq_refl) S2 Er) as (H1 & H2 & H3 & H4).
  eapply update_set_neutral; [done|exact E| |exact H2|exact H4]. split; cbn; [|done|by rewrite H3].
  intros ->. destruct (s_records s); [done|]. rewrite len_cons, len_nil in H4. pose proof (len_nonneg l). lia.
Qed.
Lemma total_single (m : gmap Key RrSet) k s : m = ∅ -> msum (fun _ s => len (s_records s)) (<[k := s]> m) = len (s_records s).
Proof. intros ->. rewrite msum_insert by apply lookup_empty. rewrite msum_empty. lia. Qed.
(** Inserting after the eviction for it. *)
Lemma insert_entry_wf now e c : cache_wf c -> entry_wf (key (e_record e)) e ->
  (over_for (key (e_record e)) (e_charge e) c = false \/ c_sets c = ∅) ->
  (forall s x, c_sets c !! key (e_record e) = Some s -> In x (s_records s) -> content x <> content e) ->
  cache_wf (insert_entry (key (e_record e)) now e c) /\ within_budget (insert_entry (key (e_record e)) now e c).
Proof.
  intros [H1 H2 H3 H4] He Hover Hnew. unfold insert_entry. set (k := key (e_record e)) in *. set (s := default _ _).
  assert (s_records s = [] /\ c_sets c !! k = None \/ c_sets c !! k = Some s /\ set_wf k s) as Hs.
  { subst s. destruct (c_sets c !! k) as [s0|] eqn:E; [right|left; done]. cbn. split; [done|by apply H4]. }
  assert (set_wf k (mkRrSet (s_records s ++ [e]) now)) as Hw.
  { destruct Hs as [[-> _]|[Hk [S1 S2 S3]]]; split; cbn.
    - done.
    - by apply List.Forall_cons.
    - by apply list.NoDup_singleton.
    - by destruct (s_records s).
    - apply List.Forall_app. split; [done|by apply List.Forall_cons].
    - rewrite map_app. apply list.NoDup_app. split; [done|]. split; [|by apply list.NoDup_singleton]. intros x Hx Hx2. apply list_elem_of_singleton in Hx2 as ->.
      rewrite list_elem_of_In, in_map_iff in Hx. destruct Hx as (y & Hy & Hin). by apply (Hnew s y). }
  assert (set_charge (mkRrSet (s_records s ++ [e]) now) = set_charge s + e_charge e) as Hch.
  { unfold set_charge. cbn [s_records]. rewrite charges_app. change (charges [e]) with (e_charge e + 0). lia. }
  assert (msum (fun _ => set_charge) (<[k := mkRrSet (s_records s ++ [e]) now]> (c_sets c)) = c_bytes c + e_charge e) as Hsum.
  { destruct Hs as [[Hn Hk]|[Hk _]]; [rewrite msum_insert by done|rewrite (msum_update _ _ _ _ _ Hk)]; rewrite H1; rewrite Hch; [|lia].
    unfold set_charge at 1. rewrite Hn. change (charges []) with 0. lia. }
  split.
  - split; cbn [c_bytes c_sets c_reserved]; [by rewrite Hsum|done| |by apply map_Forall_insert_2].
    destruct Hs as [[_ Hk]|[Hk _]]; [|by rewrite slen_update]. rewrite slen_insert by done. destruct Hover as [Ho|Hempty].
    + unfold over_for in Ho. apply orb_false_iff in Ho as [_ Ho]. rewrite (proj2 (has_key_false _ _) Hk) in Ho. cbn in Ho. apply Z.eqb_neq in Ho. lia.
    + rewrite Hempty. unfold slen. rewrite map_size_empty. unfold SETS. lia.
  - destruct Hover as [Ho|Hempty]; [left|right].
    + unfold over_for in Ho. apply orb_false_iff in Ho as [Ho%Z.ltb_ge _]. cbn. lia.
    + unfold record_total. cbn. rewrite total_single by done. subst s. rewrite Hempty, lookup_empty. done.
Qed.

Definition sound (c : Cache) : Prop := cache_wf c /\ within_budget c.
Lemma shrunk_sound p c c' : shrunk p c c' -> sound c -> sound c'.
Proof. intros (H1 & _ & _ & H4) [_ Hb]. split; auto. Qed.
Lemma neutral_sound c c' : neutral c c' -> sound c -> sound c'.
Proof. intros Hn [_ Hb]. split; [apply Hn|by eapply neutral_budget]. Qed.
Lemma select_loop_runs m now stamps rs sel ign c : sound c -> runs (select_loop m now stamps rs sel ign) c (fun _ => sound).
Proof.
  revert sel ign c. induction rs as [|[i r] rs IH]; intros sel ign c Hc; cbn [select_loop]; [done|].
  destruct (_ || _); [by apply IH|]. apply runs_get. destruct (owner_stamp _ now c) as [local|]; [|by apply IH].
  destruct (compare local _); try by apply IH.
  all: eapply runs_bind; [apply remove_owner_runs, Hc|]; intros [] c1 H1; apply IH; by eapply shrunk_sound.
Qed.
Lemma farewell_neutral now r c : cache_wf c -> neutral c (farewell now r c).
Proof. intros Hc. apply alter_set_neutral; [done|]. apply gentle_if. by intros e He. Qed.
Lemma flush_neutral now r c : cache_wf c -> neutral c (flush now r c).
Proof. intros Hc. unfold flush. destruct (_ =? 0); [by apply neutral_refl|]. apply alter_set_neutral; [done|]. apply gentle_if. by intros e He. Qed.

Section receiving.
Context {R : Type} `{Sampler R}.
(** A record that is admitted is found in the cache with its lifetime and no failure. *)
Definition found (now : Z) (r : Rr) (c : Cache) : Prop :=
  exists s e, c_sets c !! key r = Some s /\ In e (s_records s) /\ same (e_record e) r = true /\ e_expires e = sat64 now (capped_ttl r * 1000) /\ e_failure e = None.
Lemma same_refl r : same r r = true.
Proof. rewrite same_of_key by done. apply rdata_eq_refl. Qed.
Lemma renew_found f r es es' (P : Entry -> Prop) : (forall e, same (e_record e) r = true -> P (f e)) -> renew f r es = Some es' -> exists e, In e es' /\ P e.
Proof.
  intros Hf. revert es'. induction es as [|e es IH]; intros es'; [done|]. cbn [renew]. destruct (same (e_record e) r) eqn:E.
  - intros [= <-]. exists (f e). split; [by left|by apply Hf].
  - destruct (renew f r es) as [es2|]; [|done]. intros [= <-]. destruct (IH es2 eq_refl) as (x & Hx & Hp). exists x. split; [by right|done].
Qed.
Lemma renew_in_found now stamp refresh r c c' : renew_in now stamp refresh r c = Some c' -> found now r c'.
Proof.
  unfold renew_in. destruct (c_sets c !! key r) as [s|] eqn:E; [|done]. cbn [mbind option_bind]. destruct (renew _ r (s_records s)) as [es|] eqn:Er; [|done].
  intros [= <-]. eapply (renew_found _ _ _ _ (fun e => same (e_record e) r = true /\ e_expires e = sat64 now (capped_ttl r * 1000) /\ e_failure e = None)) in Er.
  - destruct Er as (e & He & H1 & H2 & H3). exists (mkRrSet es now), e. cbn. split; [apply lookup_insert_eq|done].
  - intros e He. split; [|done]. cbn. unfold same in *. cbn. rewrite !andb_true_iff in *. destruct He as [[[H1 H2] H3] H4]. by rewrite Z.eqb_refl.
Qed.
Lemma added_wf now cost stamp refresh r : plain_wf r -> 0 <= cost <= BYTES -> entry_wf (key (e_record (added now cost stamp refresh r))) (added now cost stamp refresh r).
Proof. intros Hr Hc. split; [apply plain_wf_ttl; [done|apply capped_u32, Hr]|done]. Qed.
Lemma admit_gives now stamp r c rr : sound c -> plain_wf r ->
  gives sound (admit_record now stamp r) (c, rr) (fun _ c' => sound c' /\ (forall cost, charge r = Ok (Some cost) -> cost <= BYTES -> found now r c')).
Proof.
  intros Hc Hr. unfold admit_record. pose proof (charge_yields r Hr) as Hy. destruct (charge r) as [[cost|]|e|]; [| |by apply gives_throw|done].
  2: { apply gives_known, gives_ret. by split. }
  specialize (Hy cost eq_refl). apply gives_known. destruct (Z.ltb_spec BYTES cost) as [|Hle].
  { apply gives_ret. split; [done|]. intros ? [= ->] ?. lia. }
  eapply gives_bind; [apply (gives_draw (I:=sound) _ c rr (fun _ c' => c' = c)); [|done|done]|].
  { assert (is_u32 (capped_ttl r)) as Hu by (apply capped_u32, Hr). unfold is_u32, is_u64 in *. split; [apply Z.div_pos; lia|].
    apply Z.div_le_upper_bound; [lia|]. unfold u32_max, u64_max in *. lia. }
  intros jitter ? rr2 ->. apply gives_step, gives_self. set (c1 := flush now r c). assert (sound c1) as H1 by (eapply neutral_sound; [apply flush_neutral, Hc|done]).
  set (refresh := map _ _). destruct (renew_in now stamp refresh r c1) as [c'|] eqn:E.
  - apply gives_update. split; [|intros; by eapply renew_in_found]. eapply neutral_sound; [eapply renew_in_neutral; [apply H1|done|exact E]|done].
  - eapply gives_bind; [apply gives_runs, evict_runs, H1|]. intros [] c2 rr3 [Hev Hend]. apply gives_update.
    set (e := added now cost stamp refresh r).
    assert (forall s x, c_sets c2 !! key r = Some s -> In x (s_records s) -> content x <> content e) as Hnew.
    { intros s x Hs Hx Hxe. pose proof (lookup_weaken _ _ _ _ Hs (ev_sub _ _ Hev)) as Hs1.
      pose proof (Forall_In _ _ _ (sw_entries _ _ (cw_each _ (proj1 H1) _ _ Hs1)) Hx) as (_ & Hkx & _).
      unfold renew_in in E. rewrite Hs1 in E. cbn [mbind option_bind] in E. destruct (renew _ r (s_records s)) eqn:Er; [done|].
      pose proof (renew_none _ _ _ Er x Hx) as Hsame. rewrite same_of_key in Hsame by done. apply rdata_eq_fold in Hxe.
      change (r_data (e_record e)) with (r_data r) in Hxe. congruence. }
    split; [exact (insert_entry_wf now e c2 (ev_wf _ _ Hev) (added_wf now cost stamp refresh r Hr (conj Hy Hle)) Hend Hnew)|].
    intros _ _ _. eexists _, e. split; [apply lookup_insert_eq|]. split; [apply in_app_iff; right; by left|]. split; [|done].
    rewrite same_of_key by done. apply rdata_eq_refl.
Qed.
Lemma cacheable_plain flags r : record_wf flags r -> cacheable r = true -> plain_wf r.
Proof.
  intros (H1 & H2 & H3 & H4 & H5) Hc. refine (conj H1 (conj H2 (conj H3 (conj H4 _)))). unfold data_wf in H5. unfold cacheable in Hc.
  destruct (r_data r); try done. by rewrite !andb_false_r in Hc.
Qed.
Lemma receive_record_gives m now sel ign ir c rr : sound c -> record_wf (m_flags m) ir.2 ->
  gives sound (receive_record m now sel ign ir) (c, rr) (fun _ => sound).
Proof.
  intros Hc Hr. destruct ir as [i r]. cbn [snd] in Hr. unfold receive_record. apply gives_if; intros Hskip; [by apply gives_ret|].
  apply orb_false_iff in Hskip as [[Hca%negb_false_iff _]%orb_false_iff _].
  apply gives_if; intros _; [apply gives_update; eapply neutral_sound; [apply farewell_neutral, Hc|done]|].
  eapply gives_weaken; [apply admit_gives; [done|by eapply cacheable_plain]|]. by intros _ c' [].
Qed.
Lemma enumerate_in {A} (l : list A) n ix : In ix (enumerate_from n l) -> In ix.2 l.
Proof. revert n. induction l as [|x l IH]; intros n; cbn; [done|]. intros [<-|Hin]; [by left|right; by eapply IH]. Qed.
Lemma extract_safe m code received : safe (extract m code received).
Proof.
  unfold extract. destruct (_ || _); [done|]. generalize (concat (map (opt_values code) (m_additional m))) (∅ : stamp_map) (∅ : gset bytes) 0.
  intros os. induction os as [|b os IH]; intros out seen n; cbn [extract_loop]; [done|]. destruct (_ <? _); [done|].
  destruct (stamp_decode b received) as [[i s]|]; [|apply IH]. destruct (stamped_record m i); [|apply IH]. destruct (bool_decide _); apply IH.
Qed.
Lemma receive_gives_sound m code now c rr : sound c -> Forall (record_wf (m_flags m)) (records_of m) ->
  gives sound (receive_with_code m code now) (c, rr) (fun _ => sound).
Proof.
  intros Hc Hm. unfold receive_with_code. apply gives_if; intros _; [by apply gives_throw|].
  eapply gives_bind; [apply gives_runs, expire_runs, Hc|]. intros [] c1 r1 H1. assert (sound c1) as Hs by (by eapply shrunk_sound). clear H1.
  pose proof (extract_safe m code now) as He. destruct (extract m code now) as [stamps|e|]; [|by apply gives_throw|by destruct He].
  apply gives_known. eapply gives_bind; [apply gives_runs, select_loop_runs, Hs|]. intros [sel ign] c2 r2 H2.
  apply (gives_for_each sound); [done|]. intros ir c3 r3 Hin H3. apply receive_record_gives; [done|]. eapply Forall_In; [exact Hm|]. by eapply enumerate_in.
Qed.
End receiving.

(** ** Histories *)

Inductive cache_event :=
| Received (m : Message) (code now : Z) | Expired (now : Z) | Answered (q : Question) (now : Z) | Knew (q : Question) (now : Z)
| Suspected (q : Question) (now : Z) | Observed (q : Question) (knowns : list Rr) (now : Z) | Refreshed (q : Question) (now : Z)
| Reserved (n : Z) | Removed (name : bytes) | Cleared.
Definition event_ok (ev : cache_event) : Prop :=
  match ev with
  | Received m _ _ => Forall (record_wf (m_flags m)) (records_of m)
  | Reserved n => 0 <= n
  | _ => True
  end.
Definition run_cache {R} `{Sampler R} (ev : cache_event) : M (Cache * R) io_error unit :=
  match ev with
  | Received m code now => receive_with_code m code now
  | Expired now => on_fst (expire now)
  | Answered q now => update (fun c => snd (answers q now c))
  | Knew q now => update (fun c => snd (known q now c))
  | Suspected q now => update (suspect q now)
  | Observed q knowns now => update (observe_question q knowns now)
  | Refreshed q now => update (refreshed q now)
  | Reserved n => on_fst (reserve n)
  | Removed name => on_fst (remove_owner name)
  | Cleared => update clear
  end.
Lemma run_cache_gives {R} `{Sampler R} ev c (r : R) : event_ok ev -> sound c -> gives sound (run_cache ev) (c, r) (fun _ => sound).
Proof.
  intros He Hc. destruct ev as [m code now|now|q now|q now|q now|q ks now|q now|n|name|]; cbn [run_cache].
  - by apply receive_gives_sound.
  - eapply gives_runs, runs_weaken; [apply expire_runs, Hc|]. intros ? ? Hs. exact (shrunk_sound _ _ _ Hs Hc).
  - apply gives_update. eapply neutral_sound; [|exact Hc]. apply mark_used_neutral, Hc.
  - apply gives_update. eapply neutral_sound; [|exact Hc]. apply mark_used_neutral, Hc.
  - apply gives_update. eapply neutral_sound; [|exact Hc]. apply map_entries_neutral; [apply Hc|]. intros k. apply gentle_if. by intros e ?.
  - apply gives_update. unfold observe_question. destruct (negb _); [done|]. eapply neutral_sound; [|exact Hc]. apply map_entries_neutral; [apply Hc|].
    intros k e Hk. destruct (_ || _); [done|]. by apply unanswered_gentle.
  - apply gives_update. eapply neutral_sound; [|exact Hc]. apply map_entries_neutral; [apply Hc|]. intros k e Hk. destruct (interested _ _); [|done]. by apply skip_refresh_gentle.
  - eapply gives_runs, runs_weaken; [apply reserve_runs; [apply Hc|done]|]. intros ? ? (H1 & H2 & _). by split.
  - eapply gives_runs, runs_weaken; [apply remove_owner_runs, Hc|]. intros ? ? Hs. exact (shrunk_sound _ _ _ Hs Hc).
  - apply gives_update. split; [apply cache_empty, Hc|]. right. done.
Qed.
Lemma no_cache_sound : sound no_cache.
Proof. split; [by apply cache_empty|]. by left. Qed.

(** ** Answers *)

Definition holds (c : Cache) (e : Entry) : Prop := exists k s, c_sets c !! k = Some s /\ In e (s_records s).
Lemma cached_entries_in c e : In e (entries c) <-> holds c e.
Proof.
  unfold entries, holds. rewrite in_concat. split.
  - intros (l & Hl & He). apply in_map_iff in Hl as (s & <- & Hs). apply sorted_values_in in Hs as [k Hk]. by exists k, s.
  - intros (k & s & Hk & He). exists (s_records s). split; [|done]. apply in_map_iff. exists s. split; [done|]. apply sorted_values_in. by exists k.
Qed.
Lemma NoDup_map_inj {A B} (f : A -> B) l x y : NoDup (map f l) -> In x l -> In y l -> f x = f y -> x = y.
Proof.
  induction l as [|z l IH]; [done|]. cbn [map]. rewrite list.NoDup_cons, list_elem_of_In. intros [Hz Hl] [<-|Hx] [<-|Hy] Hf; [done| | |by apply IH].
  - destruct Hz. rewrite Hf. by apply in_map.
  - destruct Hz. rewrite <-Hf. by apply in_map.
Qed.
(** A record is held once. *)
Lemma held_once c e e' r : cache_wf c -> holds c e -> holds c e' -> same (e_record e) r = true -> same (e_record e') r = true -> e = e'.
Proof.
  intros Hc (k & s & Hk & Hs) (k' & s' & Hk' & Hs') H1 H2. destruct (cw_each _ Hc _ _ Hk) as [_ S2 S3]. destruct (cw_each _ Hc _ _ Hk') as [_ S2' _].
  pose proof (Forall_In _ _ _ S2 Hs) as (_ & K1 & _). pose proof (Forall_In _ _ _ S2' Hs') as (_ & K2 & _).
  apply same_key in H1 as E1. apply same_key in H2 as E2. assert (k' = k) as -> by congruence. assert (s' = s) as -> by congruence.
  eapply NoDup_map_inj; [exact S3|done|done|]. rewrite same_of_key in H1, H2 by done. apply rdata_eq_fold in H1, H2. unfold content. congruence.
Qed.
Lemma same_matches q a b : same a b = true -> matches q a = matches q b.
Proof.
  unfold same, matches. rewrite !andb_true_iff, !Z.eqb_eq. intros [[[Hn Hk] Hc] _]. apply name_eq_canonical in Hn. unfold name_eq. by rewrite Hn, Hk, Hc.
Qed.
Lemma answer_same now e r : same (answer now e) r = same (e_record e) r.
Proof. unfold same, answer, plain_class. cbn. by rewrite <-Z.land_assoc. Qed.

Lemma charges_le k es : Forall (entry_wf k) es -> charges es <= BYTES * len es.
Proof.
  induction 1 as [|e es (_ & _ & He & _) _ IH]; [done|]. unfold charges in *. cbn [map]. change (total (e_charge e :: map e_charge es)) with (e_charge e + total (map e_charge es)).
  rewrite len_cons. lia.
Qed.
(** Without what is reserved the cache is within its budget whatever it holds. *)
Lemma own_budget c : sound c -> c_bytes c <= BYTES.
Proof.
  intros [[H1 H2 H3 H4] [Hb|Hb]]; [lia|]. enough (c_bytes c <= BYTES * record_total c) by (unfold BYTES in *; lia).
  rewrite H1. unfold record_total. rewrite msum_scale. apply msum_mono. intros k s Hk. eapply charges_le, sw_entries, H4, Hk.
Qed.
(** C18. Over every history of messages, questions, reservations and expiries the cache does
    not panic, its counter is the sum of its charges, it holds at most 1024 sets and no record
    twice, and what it holds is charged at most four MiB. With what is reserved for the rest
    of the querier it is within four MiB too, except that a record that arrives when
    nothing is left to evict is kept although it exceeds what is left ([mdns_budget_overrun]). *)
Theorem cache_invariant {R} `{Sampler R} evs (r : R) : Forall event_ok evs ->
  exists c r', run_all run_cache evs (no_cache, r) = Some (c, r') /\
    c_bytes c = msum (fun _ => set_charge) (c_sets c) /\ slen (c_sets c) <= 1024 /\
    c_bytes c <= 4 * 1024 * 1024 /\ (c_bytes c + c_reserved c <= 4 * 1024 * 1024 \/ record_total c <= 1) /\
    forall e e', holds c e -> holds c e' -> same (e_record e) (e_record e') = true -> e = e'.
Proof.
  intros He. destruct (run_all_gives (I:=sound) event_ok run_cache evs (no_cache, r)) as ([c r'] & Hr & Hc); [|done|apply no_cache_sound|].
  { intros ev c r0. apply run_cache_gives. }
  exists c, r'. split; [done|]. pose proof (own_budget c Hc) as Ho. destruct Hc as [[H1 H2 H3 H4] Hb]. split; [done|]. split; [done|]. split; [exact Ho|]. split; [exact Hb|].
  intros e e' Hh Hh' Hs. eapply held_once; [by split|done|done|exact Hs|apply same_refl].
Qed.
(** C19. Eviction ends, a round per set at most: what is left has room or is empty, nothing is changed in it, and no set that was removed had been used later than one that is left. *)
Theorem eviction_terminates over c : cache_wf c ->
  exists c', evict over c = (Ok tt, c') /\ cache_wf c' /\ (over c' = false \/ c_sets c' = ∅) /\ c_sets c' ⊆ c_sets c /\
    forall k s k' s', c_sets c !! k = Some s -> c_sets c' !! k = None -> c_sets c' !! k' = Some s' -> s_used s <= s_used s'.
Proof.
  intros Hc. pose proof (evict_runs over c Hc) as He. unfold runs in He. destruct (evict over c) as [[[]|e|] c']; [|done|done].
  destruct He as [[H1 H2 H3 H4] Hend]. by exists c'.
Qed.
(** C20. A record that is admitted is among the answers to every question it matches until its lifetime is over, once, with the seconds that are left, and not after. This is of the cache that the admission leaves, before any other event: a goodbye, a suspicion or an eviction can take the record from it earlier. *)
Theorem cache_remembers {R} `{Sampler R} now stamp r cost q t c (rr : R) c' rr' : sound c -> plain_wf r -> charge r = Ok (Some cost) -> cost <= BYTES ->
  admit_record now stamp r (c, rr) = (Ok tt, (c', rr')) -> matches q r = true -> now + capped_ttl r * 1000 <= u64_max ->
  let until := now + capped_ttl r * 1000 in
  (t < until -> exists a, In a (fst (answers q t c')) /\ same a r = true /\ r_ttl a = Z.min ((until - t + 999) / 1000) u32_max /\
     forall a', In a' (fst (answers q t c')) -> same a' r = true -> a' = a) /\
  (until <= t -> forall a, In a (fst (answers q t c')) -> same a r = false).
Proof.
  intros Hc Hr Hch Hle Ha Hq Hu until. pose proof (admit_gives now stamp r c rr Hc Hr) as Hg. unfold gives in Hg. rewrite Ha in Hg. cbn [fst] in Hg.
  destruct Hg as [[Hw _] Hf]. destruct (Hf cost Hch Hle) as (s & e & Hk & Hin & Hs & Hx & Hfail). clear Hf.
  assert (holds c' e) as Hh by (by exists (key r), s). assert (deadline e = until) as Hd by (unfold deadline; rewrite Hfail, Hx; u_lia).
  assert (forall a, In a (fst (answers q t c')) -> same a r = true -> a = answer t e /\ t < until) as Honly.
  { intros a. cbn [answers fst]. rewrite in_map_iff. intros (x & <- & [Hx1 Hx2]%filter_In) Hsa. rewrite answer_same in Hsa. apply cached_entries_in in Hx1.
    assert (x = e) as -> by (by eapply held_once). apply andb_true_iff in Hx2 as [Hl%Z.ltb_lt _]. rewrite Hd in Hl. done. }
  split.
  - intros Ht. exists (answer t e). split; [|split; [by rewrite answer_same|split; [|intros a' H1 H2; by apply Honly]]].
    + apply in_map_iff. exists e. split; [done|]. apply filter_In. split; [by apply cached_entries_in|]. apply andb_true_iff. split; [apply Z.ltb_lt; lia|].
      by rewrite (same_matches q _ r).
    + cbn. rewrite Hd. do 2 f_equal. unfold sat_sub. lia.
  - intros Ht a Hin2. destruct (same a r) eqn:E; [|done]. destruct (Honly a Hin2 E). lia.
Qed.

(** ** Witnesses *)

Definition host_record : Rr := mkRr host 1 0x8001 120 (RdA [192; 168; 1; 2]).
Lemma host_record_wf : plain_wf host_record.
Proof. refine (conj host_wf _). split; [vm_compute; split; congruence|]. split; [vm_compute; split; congruence|]. split; [vm_compute; split; congruence|]. cbn. split; [done|]. by split; [apply bytes_check|]. Qed.
Definition host_message : Message := mkMessage 0 0x8400 [] [host_record] [] [] [] [].
Definition cache_history : list cache_event :=
  [Received host_message OPTION_CODE 1000; Answered (mkQuestion host 1 1) 2000; Reserved 5000; Expired 200000].
Lemma cache_history_ok : Forall event_ok cache_history.
Proof.
  apply List.Forall_cons; [|apply List.Forall_cons; [done|apply List.Forall_cons; [cbn; lia|apply List.Forall_cons; [done|constructor]]]].
  apply List.Forall_cons; [|constructor]. apply plain_record_wf, host_record_wf.
Qed.
Lemma cache_invariant_witness : exists c r', run_all run_cache cache_history (no_cache, {| values := [0] |}) = Some (c, r') /\ slen (c_sets c) <= 1024.
Proof.
  destruct (cache_invariant cache_history {| values := [0] |} cache_history_ok) as (c & r' & Hr & _ & Hs & _). exists c, r'. split; [exact Hr|exact Hs].
Defined.
(** One record in the cache. *)
Definition one_record : option Cache :=
  match admit_record 1000 None host_record (no_cache, {| values := [0] |}) with (Ok _, (c, _)) => Some c | _ => None end.
Lemma one_record_sound c : one_record = Some c -> sound c.
Proof.
  unfold one_record. pose proof (admit_gives 1000 None host_record no_cache {| values := [0] |} no_cache_sound host_record_wf) as Hg. unfold gives in Hg.
  destruct (admit_record _ _ _ _) as [[[]|e|] [c' r']]; [|done|done]. intros [= <-]. apply Hg.
Qed.
Lemma eviction_terminates_witness : exists c c', one_record = Some c /\ evict (fun c => 0 <? c_bytes c) c = (Ok tt, c') /\ c_bytes c' <= 0.
Proof.
  assert (is_Some one_record) as [c Hc] by (vm_compute; by eexists).
  destruct (eviction_terminates (fun c => 0 <? c_bytes c) c (proj1 (one_record_sound c Hc))) as (c' & H1 & H2 & H3 & _). exists c, c'.
  split; [exact Hc|]. split; [exact H1|]. destruct H3 as [H3%Z.ltb_ge|H3]; [lia|]. rewrite (cw_bytes _ H2), H3. reflexivity.
Defined.
Lemma one_record_run c : one_record = Some c -> exists r', admit_record 1000 None host_record (no_cache, {| values := [0] |}) = (Ok tt, (c, r')).
Proof. unfold one_record. destruct (admit_record _ _ _ _) as [[[]|e|] [c' r']]; [|done|done]. intros [= <-]. by exists r'. Qed.
Definition host_charge : option Z := match charge host_record with Ok (Some n) => if n <=? BYTES then Some n else None | _ => None end.
Lemma host_charge_spec n : host_charge = Some n -> charge host_record = Ok (Some n) /\ n <= BYTES.
Proof. unfold host_charge. destruct (charge host_record) as [[k|]|e|]; [|done|done|done]. destruct (Z.leb_spec k BYTES); [|done]. by intros [= <-]. Qed.
Lemma cache_remembers_witness : exists c' r' a, admit_record 1000 None host_record (no_cache, {| values := [0] |}) = (Ok tt, (c', r')) /\
  In a (fst (answers (mkQuestion host 1 1) 31500 c')) /\ same a host_record = true /\ r_ttl a = 90.
Proof.
  assert (is_Some one_record) as [c Hc] by (vm_compute; by eexists). destruct (one_record_run c Hc) as [r' Ea].
  assert (is_Some host_charge) as [n Hn] by (vm_compute; by eexists). destruct (host_charge_spec n Hn) as [Ek Hle].
  destruct (cache_remembers 1000 None host_record n (mkQuestion host 1 1) 31500 no_cache _ c r' no_cache_sound host_record_wf Ek Hle Ea eq_refl ltac:(vm_compute; congruence)) as [H _].
  destruct (H ltac:(vm_compute; congruence)) as (a & H1 & H2 & H3 & _). exists c, r', a. split; [exact Ea|]. split; [exact H1|]. split; [exact H2|]. rewrite H3. reflexivity.
Defined.
