(* ===== verification/MdnsWire.v ===== *)
(** Multicast DNS datagrams ([src/src/mdns/wire.rs]): which packets of either family carry a
    message, and the packets that do; reading is safe and strict, and what is sent is read back. *)

From S2P Require Import Prelude Dhcp6Wire Effects Checksum Wire WireFacts Ipv4Wire Reassembly Maps DnsWire DnsFacts DnsRoundtrip DnsEncode DnsFormat.

Definition multicast (v6 : bool) : IpAddr := if v6 then V6 0xff0200000000000000000000000000fb else V4 0xe00000fb.
(** [SocketAddr::new] *)
Record SocketAddr := mkSocket { sa_ip : IpAddr; sa_port : Z }.
#[global] Instance SocketAddr_eq_dec : EqDecision SocketAddr.
Proof. solve_decision. Defined.
Record MdnsDatagram := mkMdns { md_source : SocketAddr; md_destination : SocketAddr; md_message : Message }.

(** The tests of [IpAddr]. *)
Definition is_ipv6 (a : IpAddr) : bool := match a with V6 _ => true | V4 _ => false end.
Definition is_unspecified (a : IpAddr) : bool := match a with V4 a => is_unspecified4 a | V6 a => is_unspecified6 a end.
Definition is_multicast (a : IpAddr) : bool := match a with V4 a => is_multicast4 a | V6 a => is_multicast6 a end.
Definition is_ipv4_mapped (a : Z) : bool := Z.shiftr a 32 =? 0xffff.
Definition unicast_ip (a : IpAddr) : bool :=
  match a with
  | V4 a => Ipv4Wire.unicast a
  | V6 a => negb (is_unspecified6 a) && negb (is_multicast6 a) && negb (is_loopback6 a) && negb (is_ipv4_mapped a)
  end.

Definition udp_checksum (source destination : IpAddr) (udp : bytes) : outcome io_error Z :=
  match source, destination with
  | V6 s, V6 d => Ok (Wire.checksum s d 17 udp)
  | V4 s, V4 d => Ok (checksum4 (octets4 s ++ octets4 d ++ [0; 17] ++ be16 (len udp mod 65536) ++ udp))
  | _, _ => Err InvalidData
  end.

(** The packet's addresses and its UDP datagram. *)
Definition invalid_data {A} (m : outcome WireError A) : outcome io_error A := map_err (fun _ => InvalidData) m.
Definition carried (packet : bytes) : outcome io_error (IpAddr * IpAddr * bytes) :=
  match packet with
  | [] => Err InvalidData
  | b0 :: _ =>
      if Z.shiftr b0 4 =? 4 then
        p ← Ipv4Wire.parse packet;
        reject_if negb (len (pk_bytes p) =? len packet) || negb (pk_ttl p =? 255) || negb (pk_protocol p =? 17)
                  || pk_more_fragments p || negb (pk_fragment_offset p =? 0) with InvalidData;
        Ok (V4 (pk_source p), V4 (pk_destination p), pk_payload p)
      else if Z.shiftr b0 4 =? 6 then
        p ← invalid_data (envelope RawIpv6 packet);
        t ← invalid_data (transport p);
        reject_if negb (len (e_packet p) =? len packet) || negb (e_hop_limit p =? 255) || negb (t_protocol t =? 17)
                  || t_fragmented t with InvalidData;
        Ok (V6 (e_source p), V6 (e_destination p), t_bytes t)
      else Err InvalidData
  end.
Definition count_at (b : bytes) (at_ : Z) : outcome io_error Z := hi ← b.[at_]; lo ← b.[at_ + 1]; Ok (u16be hi lo).
Definition counts (b : bytes) : outcome io_error unit :=
  reject_if len b <? 12 with InvalidData;
  n4 ← count_at b 4;
  reject_if 128 <? n4 with InvalidData;
  n6 ← count_at b 6; n8 ← count_at b 8; n10 ← count_at b 10;
  reject_if 512 <? n6 + n8 + n10 with InvalidData;
  Ok tt.
(** Whether a message with these flags may go between these ports. *)
Definition misdirected (flags source_port destination_port : Z) : bool :=
  negb (Z.land flags 0x780f =? 0)
  || (negb (Z.land flags 0x8000 =? 0) && negb (source_port =? 5353))
  || ((Z.land flags 0x8000 =? 0) && negb (destination_port =? 5353)).
Definition strange_destination (source destination : IpAddr) : bool :=
  is_unspecified destination || (is_multicast destination && bool_decide (destination <> multicast (is_ipv6 source))).
Definition datagram_parse (link : Link) (packet : bytes) : outcome io_error MdnsDatagram :=
  reject_if bool_decide (link <> Ail) || (9000 <? len packet) with InvalidData;
  '(source, destination, udp) ← carried packet;
  reject_if negb (unicast_ip source) || strange_destination source destination || (len udp <? 20) with InvalidData;
  source_port ← count_at udp 0;
  destination_port ← count_at udp 2;
  n ← count_at udp 4;
  reject_if (source_port =? 0) || (destination_port =? 0) || negb (n =? len udp) with InvalidData;
  check ← count_at udp 6;
  reject_if (check =? 0) && is_ipv6 source with InvalidData;
  verified ← (if check =? 0 then Ok true else c ← udp_checksum source destination udp; Ok (c =? 0));
  reject_if negb verified with InvalidData;
  body ← slice_from udp 8;
  counts body ;;
  message ← DnsWire.parse body Mdns;
  reject_if misdirected (m_flags message) source_port destination_port with InvalidData;
  Ok (mkMdns (mkSocket source source_port) (mkSocket destination destination_port) message).

Definition datagram_encode (source destination : SocketAddr) (message : Message) : outcome io_error bytes :=
  let s := sa_ip source in
  let d := sa_ip destination in
  reject_if negb (unicast_ip s) || (sa_port source =? 0) || (sa_port destination =? 0) || negb (Bool.eqb (is_ipv6 s) (is_ipv6 d))
            || strange_destination s d || misdirected (m_flags message) (sa_port source) (sa_port destination) with InvalidData;
  reject_if (128 <? len (m_questions message))
            || (512 <? len (m_answers message) + len (m_authority message) + len (m_additional message)) with InvalidData;
  body ← encode_context message (if sa_port destination =? 5353 then Mdns else Unicast);
  reject_if 9000 <? len body + 8 + (if is_ipv6 s then 40 else 20) with InvalidData;
  let udp := be16 (sa_port source) ++ be16 (sa_port destination) ++ be16 ((len body + 8) mod 65536) ++ [0; 0] ++ body in
  c ← udp_checksum s d udp;
  udp ← copy_at udp 6 (be16 (if c =? 0 then u16_max else c));
  match s, d with
  | V4 s, V4 d => Ipv4Wire.encode s d 17 255 udp
  | V6 s, V6 d => invalid_data (ipv6_packet s d 17 255 udp)
  | _, _ => Err InvalidData
  end.

(** ** The checksum of IPv4 *)

Lemma checksum4_fill_udp b lo (c := checksum4 (put b lo [0; 0])) :
  is_bytes b -> len b <= u16_max -> 0 <= lo -> Z.even lo = true -> lo + 2 <= len b ->
  checksum4 (put b lo (be16 (if c =? 0 then u16_max else c))) = 0.
Proof.
  intros Hb Hl Hlo He Hf. assert (is_bytes (put b lo [0; 0])) as Hz by (apply is_bytes_put; [done|bytes_tac]).
  pose proof (sum_words_bound _ Hz) as H4. rewrite len_put in H4 by (change (len [0; 0]) with 2; lia).
  assert ((len b + 1) / 2 <= 32768) by (apply Z.lt_succ_r, Z.div_lt_upper_bound; u_lia).
  assert (is_u16 c) as Hc by apply checksum4_u16. assert (is_u16 (if c =? 0 then u16_max else c)) as Hc' by (destruct (c =? 0); [u_lia|done]).
  assert (c = complement16 (fold_carry 4 (sum_words (put b lo [0; 0])))) as Ec by (subst c; unfold checksum4; by rewrite fold_overflow_carry by lia).
  clearbody c. revert Hc'. set (c' := if c =? 0 then u16_max else c). intros Hc'. unfold checksum4. rewrite sum_words_fill by done.
  rewrite fold_overflow_carry by u_lia. subst c'. rewrite Ec. apply (complement_udp 4); [lia|u_lia|u_lia].
Qed.
Lemma count_at_be16 a x t at_ : is_u16 x -> at_ = len a -> count_at (a ++ be16 x ++ t) at_ = Ok x.
Proof.
  intros Hx ->. destruct (be16_bytes x Hx) as (h & l & -> & E). unfold count_at.
  change (a ++ [h; l] ++ t) with (a ++ h :: (l :: t)). rewrite (idx_mid a h (l :: t) (len a) eq_refl). cbn [mbind outcome_bind].
  replace (a ++ h :: l :: t) with ((a ++ [h]) ++ l :: t) by (by rewrite <-app_assoc). rewrite (idx_mid (a ++ [h]) l t); [|rewrite len_app; done].
  cbn [mbind outcome_bind]. by rewrite E.
Qed.
(** A UDP header with its checksum filled in. *)
Definition udp_of (sp dp n c : Z) (body : bytes) : bytes := be16 sp ++ be16 dp ++ be16 n ++ be16 c ++ body.
Lemma len_udp_of sp dp n c body : len (udp_of sp dp n c body) = 8 + len body.
Proof. unfold udp_of, be16. rewrite !len_app, !len_be. lia. Qed.
Lemma udp_of_put sp dp n c body : put (udp_of sp dp n 0 body) 6 (be16 c) = udp_of sp dp n c body.
Proof. reflexivity. Qed.

(** ** What is sent is read *)

(** The counts in an encoded header. *)
Lemma encoded_header context m b : message_wf m -> encode_context m context = Ok b ->
  exists t, b = be16 (m_id m) ++ be16 (m_flags m) ++ be16 (len (m_questions m)) ++ be16 (len (m_answers m)) ++ be16 (len (m_authority m)) ++ be16 (len (m_additional m)) ++ t /\ counts_ok m.
Proof.
  intros Hm. unfold encode_context. destruct (encode_body context m _) as [[u|e|] w] eqn:Hr; [|done|done].
  destruct (encode_body_ok context m Hm _ _ _ _ dict_ok_empty Hr) as (x & Hx & _ & Hat). rewrite Hx, app_nil_l in *.
  destruct (Hat ltac:(done)) as [Hn [Hh _]]. destruct (parse x context); [|done|done]. intros [= <-].
  apply holds_inv in Hh as (pre & post & -> & Ha). symmetry in Ha. apply len_0 in Ha. subst pre. exists post. split; [|done]. by rewrite app_nil_l, <-!app_assoc.
Qed.
Lemma counts_header m b context : message_wf m -> encode_context m context = Ok b -> len (m_questions m) <= 128 ->
  len (m_answers m) + len (m_authority m) + len (m_additional m) <= 512 -> counts b = Ok tt.
Proof.
  intros Hm He Hq Hr. destruct (encoded_header context m b Hm He) as (t & -> & Hn). destruct (counts_u16 m Hn) as (N0 & N1 & N2 & N3).
  set (b := be16 _ ++ _). unfold counts. assert (12 <= len b) as Hl.
  { subst b. unfold be16. rewrite !len_app, !len_be. pose proof (len_nonneg t). lia. }
  destruct (Z.ltb_spec (len b) 12); [lia|].
  assert (forall pre x post at_, b = pre ++ be16 x ++ post -> is_u16 x -> at_ = len pre -> count_at b at_ = Ok x) as Hf
    by (intros pre x post at_ -> ? ?; by apply count_at_be16).
  set (f0 := be16 (m_id m)) in *. set (f1 := be16 (m_flags m)) in *. set (f2 := be16 (len (m_questions m))) in *.
  set (f3 := be16 (len (m_answers m))) in *. set (f4 := be16 (len (m_authority m))) in *. set (f5 := be16 (len (m_additional m))) in *.
  rewrite (Hf (f0 ++ f1) (len (m_questions m)) (f3 ++ f4 ++ f5 ++ t) 4) by (done || by rewrite <-!app_assoc). cbn [mbind outcome_bind].
  destruct (Z.ltb_spec 128 (len (m_questions m))); [lia|].
  rewrite (Hf (f0 ++ f1 ++ f2) (len (m_answers m)) (f4 ++ f5 ++ t) 6) by (done || by rewrite <-!app_assoc).
  rewrite (Hf (f0 ++ f1 ++ f2 ++ f3) (len (m_authority m)) (f5 ++ t) 8) by (done || by rewrite <-!app_assoc).
  rewrite (Hf (f0 ++ f1 ++ f2 ++ f3 ++ f4) (len (m_additional m)) t 10) by (done || by rewrite <-!app_assoc).
  cbn [mbind outcome_bind]. destruct (Z.ltb_spec 512 (len (m_answers m) + len (m_authority m) + len (m_additional m))); [lia|done].
Qed.

(** A UDP datagram with its checksum, and how it is read. *)
Definition ip_ok (a : IpAddr) : Prop := match a with V4 a => is_u32 a | V6 a => is_u128 a end.
Lemma udp_reads sp dp n c body : is_u16 sp -> is_u16 dp -> is_u16 n -> is_u16 c -> let u := udp_of sp dp n c body in
  count_at u 0 = Ok sp /\ count_at u 2 = Ok dp /\ count_at u 4 = Ok n /\ count_at u 6 = Ok c /\ slice_from (E:=io_error) u 8 = Ok body.
Proof.
  intros Hs Hd Hn Hc u.
  assert (forall pre x post at_, u = pre ++ be16 x ++ post -> is_u16 x -> at_ = len pre -> count_at u at_ = Ok x) as Hf
    by (intros pre x post at_ -> ? ?; by apply count_at_be16).
  split; [exact (Hf [] sp (be16 dp ++ be16 n ++ be16 c ++ body) 0 eq_refl Hs eq_refl)|].
  split; [exact (Hf (be16 sp) dp (be16 n ++ be16 c ++ body) 2 eq_refl Hd eq_refl)|].
  split; [exact (Hf (be16 sp ++ be16 dp) n (be16 c ++ body) 4 eq_refl Hn eq_refl)|].
  split; [exact (Hf (be16 sp ++ be16 dp ++ be16 n) c body 6 eq_refl Hc eq_refl)|].
  exact (slice_from_app (be16 sp ++ be16 dp ++ be16 n ++ be16 c) body 8 eq_refl).
Qed.
Lemma Ok_inj {E A} (a b : A) : Ok (E:=E) a = Ok b -> a = b.
Proof. by intros [= ->]. Qed.
(** The checksum that is written verifies. *)
Lemma udp_verifies s d sp dp n body c : ip_ok s -> ip_ok d -> is_bytes body -> len body <= 9000 ->
  udp_checksum s d (udp_of sp dp n 0 body) = Ok c ->
  let c' := if c =? 0 then u16_max else c in is_u16 c' /\ c' <> 0 /\ udp_checksum s d (udp_of sp dp n c' body) = Ok 0.
Proof.
  intros Hs Hd Hb Hl. pose proof (len_nonneg body) as Hnn. assert (is_bytes (udp_of sp dp n 0 body)) as Hu by (unfold udp_of, be16; bytes_tac).
  pose proof (len_udp_of sp dp n 0 body) as Hul. destruct s as [s|s], d as [d|d]; cbn [udp_checksum]; try done; intros E; apply Ok_inj in E as <-; cbv zeta.
  - set (P := octets4 s ++ octets4 d ++ [0; 17] ++ be16 (len (udp_of sp dp n 0 body) mod 65536)) in *.
    assert (forall x, octets4 s ++ octets4 d ++ [0; 17] ++ be16 (len (udp_of sp dp n x body) mod 65536) ++ udp_of sp dp n x body = put (P ++ udp_of sp dp n 0 body) 18 (be16 x)) as HP.
    { intros x. unfold P. rewrite !len_udp_of. reflexivity. }
    rewrite (HP 0). set (c' := if _ =? 0 then u16_max else _). rewrite (HP c'). assert (len P = 12) as HPl by reflexivity. 
    assert (is_u16 c') as Hc by (unfold c'; case_match; [u_lia|apply checksum4_u16]). split; [done|].
    split; [unfold c'; case_match; u_lia|]. f_equal. apply checksum4_fill_udp; rewrite ?len_app, ?HPl, ?Hul; try done; try u_lia.
    unfold P, octets4, be16, be32. bytes_tac.
  - set (c' := if _ =? 0 then u16_max else _). assert (is_u16 c') as Hc by (unfold c'; case_match; [u_lia|apply complement16_u16]). split; [done|].
    split; [unfold c'; case_match; u_lia|]. f_equal. rewrite <-(udp_of_put sp dp n c' body). apply (checksum_fill_udp s d 17 (udp_of sp dp n 0 body) 6); try done; u_lia.
Qed.

(** The envelope that [datagram_encode] builds is the one that is opened. *)
Definition enclose (s d : IpAddr) (udp : bytes) : outcome io_error bytes :=
  match s, d with
  | V4 s, V4 d => Ipv4Wire.encode s d 17 255 udp
  | V6 s, V6 d => invalid_data (ipv6_packet s d 17 255 udp)
  | _, _ => Err InvalidData
  end.
Lemma enclosed s d udp pkt : ip_ok s -> ip_ok d -> len udp <= 9008 -> enclose s d udp = Ok pkt ->
  carried pkt = Ok (s, d, udp) /\ len pkt = len udp + (if is_ipv6 s then 40 else 20) /\ pkt <> [].
Proof.
  intros Hs Hd Hu. pose proof (len_nonneg udp). destruct s as [s|s], d as [d|d]; cbn [enclose ip_ok is_ipv6] in *; try done.
  - destruct (encode_parse s d 17 255 udp) as (b & Hb & Hl & Hp); try done; try u_lia. rewrite Hb. intros E. apply Ok_inj in E as <-.
    assert (b <> []) as Hne by (intros ->; change (len []) with 0 in Hl; lia). split; [|split; [lia|done]].
    rewrite encode_header20 in Hb by u_lia. apply Ok_inj in Hb. unfold carried. destruct b as [|b0 r] eqn:Eb; [done|].
    assert (b0 = 69) as -> by (by apply (f_equal (hd 0)) in Hb). change (Z.shiftr 69 4 =? 4) with true. cbv iota. rewrite Hp.
    cbn [mbind outcome_bind pk_bytes pk_ttl pk_protocol pk_more_fragments pk_fragment_offset pk_source pk_destination pk_payload].
    rewrite Z.eqb_refl. reflexivity.
  - intros E. unfold invalid_data in E. apply map_err_Ok in E. destruct (envelope_ipv6_packet s d 17 255 udp pkt Hs Hd E) as [He Hl].
    assert (pkt <> []) as Hne by (intros ->; change (len []) with 0 in Hl; lia). split; [|split; [lia|done]].
    unfold carried. destruct pkt as [|b0 r] eqn:Eb; [done|]. assert (b0 = 96) as ->.
    { unfold ipv6_packet in E. inv_ok_hyp E. done. }
    change (Z.shiftr 96 4 =? 4) with false. change (Z.shiftr 96 4 =? 6) with true. cbv iota. rewrite He.
    assert (transport (mkEnvelope (96 :: r) udp s d 17 255) = Ok (mkTransport 17 udp false false)) as Ht by reflexivity.
    cbn [invalid_data map_err mbind outcome_bind]. rewrite Ht. cbn [invalid_data map_err mbind outcome_bind e_packet e_hop_limit t_protocol t_fragmented t_bytes e_source e_destination].
    rewrite Z.eqb_refl. reflexivity.
Qed.

(** ** Theorems *)

(** C21. Whatever multicast DNS sends to its port, over IPv4 or IPv6, is accepted when it is
    received, from the same sender to the same destination and with the same message. *)
Theorem mdns_roundtrip source destination m pkt : ip_ok (sa_ip source) -> ip_ok (sa_ip destination) ->
  is_u16 (sa_port source) -> sa_port destination = 5353 -> message_wf m ->
  Forall (clear_of (m_flags m)) (m_answers m ++ m_authority m ++ m_additional m) ->
  datagram_encode source destination m = Ok pkt ->
  exists m', datagram_parse Ail pkt = Ok (mkMdns source destination m') /\ same_message m m'.
Proof.
  destruct source as [s sp], destination as [d dp]. cbn [sa_ip sa_port]. intros Hs Hd Hsp -> Hm Hc. unfold datagram_encode. cbn [sa_ip sa_port].
  destruct (_ || _) eqn:G1; [done|]. repeat rewrite orb_false_iff in G1. destruct G1 as (((((U & S0) & _) & F) & D) & M).
  destruct (_ || _) eqn:G2; [done|]. apply orb_false_iff in G2 as [Q R]. apply Z.ltb_ge in Q, R. change (5353 =? 5353) with true. cbv iota.
  destruct (encode_context m Mdns) as [body|e|] eqn:He; [|done|done]. cbn [mbind outcome_bind].
  destruct (Z.ltb_spec 9000 (len body + 8 + (if is_ipv6 s then 40 else 20))) as [|Hl]; [done|]. pose proof (len_nonneg body) as Hnn.
  assert (len body <= 9000) as Hlb by (destruct (is_ipv6 s); lia). pose proof (encode_safe Mdns m Hm) as Hbb. rewrite He in Hbb. destruct Hbb as [Hbb _].
  rewrite Z.mod_small by lia. change (be16 sp ++ be16 5353 ++ be16 (len body + 8) ++ [0; 0] ++ body) with (udp_of sp 5353 (len body + 8) 0 body).
  pose proof (len_udp_of sp 5353 (len body + 8) 0 body) as Hul.
  destruct (udp_checksum s d _) as [c|e|] eqn:Hk; [|done|done]. cbn [mbind outcome_bind].
  destruct (udp_verifies s d sp 5353 (len body + 8) body c Hs Hd Hbb Hlb Hk) as (Hc' & Hc0 & Hv). cbv zeta in Hv. revert Hv Hc' Hc0. set (c' := if c =? 0 then u16_max else c).
  intros Hv Hc' Hc0. assert (copy_at (E:=io_error) (udp_of sp 5353 (len body + 8) 0 body) 6 (be16 c') = Ok (udp_of sp 5353 (len body + 8) c' body)) as ->.
  { rewrite <-(udp_of_put sp 5353 (len body + 8) c' body). apply copy_at_Ok. rewrite Hul. split_and!; [lia| |done]. unfold be16. rewrite len_be. lia. }
  cbn [mbind outcome_bind]. intros Hp. change (enclose s d (udp_of sp 5353 (len body + 8) c' body) = Ok pkt) in Hp.
  pose proof (len_udp_of sp 5353 (len body + 8) c' body) as Hul'. destruct (enclosed s d (udp_of sp 5353 (len body + 8) c' body) pkt Hs Hd ltac:(lia) Hp) as (Hcar & Hpl & _).
  destruct (encode_reads Mdns m body Hm Hc He) as (m' & Hpar & Hsame). exists m'. split; [|exact Hsame]. unfold datagram_parse.
  destruct (Z.ltb_spec 9000 (len pkt)) as [|_]; [lia|]. rewrite bool_decide_eq_false_2 by (intros H; by apply H). cbn [orb]. rewrite Hcar. cbn [mbind outcome_bind].
  rewrite U, D, Hul'. pose proof (counts_header m body Mdns Hm He Q R) as Hcnt. destruct (Z.ltb_spec (8 + len body) 20).
  { exfalso. destruct (encoded_header Mdns m body Hm He) as (t & Et & _). apply (f_equal len) in Et. unfold be16 in Et. rewrite !len_app, !len_be in Et. pose proof (len_nonneg t). lia. }
  destruct (udp_reads sp 5353 (len body + 8) c' body Hsp ltac:(u_lia) ltac:(u_lia) Hc') as (-> & -> & -> & -> & ->).
  cbn [orb mbind outcome_bind]. rewrite S0. change (5353 =? 0) with false. rewrite (Z.add_comm (len body) 8), Z.eqb_refl. cbn [orb negb].
  destruct (Z.eqb_spec c' 0); [done|]. cbn [andb]. rewrite (Z.add_comm (len body) 8) in Hv. rewrite Hv. cbn [mbind outcome_bind]. change (0 =? 0) with true. cbn [negb]. rewrite Hcnt. cbn [mbind outcome_bind].
  rewrite Hpar. cbn [mbind outcome_bind]. destruct Hsame as (_ & -> & _). by rewrite M.
Qed.

(** ** Nothing received panics *)

Lemma carried_ok b : is_bytes b -> yields (fun '(s, d, u) => is_bytes u) (carried b).
Proof.
  intros Hb. unfold carried. destruct b as [|b0 r] eqn:Eb; [done|]. rewrite <-Eb in *. clear Eb. case_match.
  - apply (yields_bind (fun p => is_bytes (pk_payload p))).
    + apply yields_of_safe; [by apply parse_inner_safe|]. intros p Hp. apply parse_inner_Ok in Hp; [|exact Hb]. destruct Hp as (_ & _ & _ & _ & -> & _). eauto with snac.
    + intros p Hp. apply yields_reject. intros _. exact Hp.
  - case_match; [|exact I]. apply (yields_bind envelope_wf).
    + apply yields_map_err, yields_of_safe; [by apply envelope_safe|]. intros e. by apply envelope_Ok.
    + intros e He. apply (yields_bind (fun t => is_bytes (t_bytes t))).
      * apply yields_map_err, yields_of_safe; [by apply transport_safe|]. intros t. by apply transport_bytes.
      * intros t Ht. apply yields_reject. intros _. exact Ht.
Qed.
Lemma count_at_safe b i : 0 <= i -> i + 2 <= len b -> safe (count_at b i).
Proof. intros. unfold count_at. safe_auto. Qed.
(** A packet of any bytes is refused or carries a well-formed message: the datagram
    is accepted with the sender, the destination and the message, and never panics. *)
Theorem mdns_parse_safe link b : is_bytes b -> yields (fun d => message_wf (md_message d)) (datagram_parse link b).
Proof.
  intros Hb. unfold datagram_parse. case_match; [done|]. pose proof (carried_ok b Hb) as Hc. destruct (carried b) as [[[s d] u]|e|]; [|done|done].
  cbn [mbind outcome_bind]. case_match eqn:G; [done|]. apply orb_false_iff in G as [_ G]. apply Z.ltb_ge in G.
  assert (forall {A B} (P : B -> Prop) (m : outcome io_error A) (f : A -> outcome io_error B), safe m -> (forall a, yields P (f a)) -> yields P (m ≫= f)) as seq.
  { intros A B P m f Hm Hf. apply (yields_bind (fun _ => True)); [by apply yields_of_safe|intros a _; apply Hf]. }
  do 3 (apply seq; [apply count_at_safe; lia|intros ?]). apply yields_reject. intros _.
  apply seq; [apply count_at_safe; lia|intros check]. apply yields_reject. intros _.
  apply seq; [case_match; [done|apply safe_bind; [destruct s, d; done|done]]|intros v]. apply yields_reject. intros _.
  apply (yields_bind is_bytes); [apply (yields_weaken (buffer (len u - 8))); [by apply yields_slice_from; [done|lia]|by intros ? []]|]. intros body Hbody. apply seq.
  { unfold counts. case_match eqn:Hl; [done|]. apply Z.ltb_ge in Hl. apply safe_bind; [apply count_at_safe; lia|]. intros ? _. case_match; [done|].
    do 3 (apply safe_bind; [apply count_at_safe; lia|intros ? _]). by case_match. }
  intros ?. apply (yields_bind (fun m => message_wf m /\ m_original m = body)); [by apply dns_parse_ok|]. intros m [Hm _]. by apply yields_reject.
Qed.

(** ** The response of the examples, over both families *)

Definition fe80_2 : Z := 0xfe800000000000000000000000000002.
Definition response_of (v6 : bool) : IpAddr := if v6 then V6 fe80_2 else V4 0xc0a80102.
Lemma response_clear : Forall (clear_of (m_flags response)) (m_answers response ++ m_authority response ++ m_additional response).
Proof. repeat (apply List.Forall_cons; [discriminate|]). apply List.Forall_nil. Qed.
Definition response_packet (v6 : bool) : bytes :=
  match datagram_encode (mkSocket (response_of v6) 5353) (mkSocket (multicast v6) 5353) response with Ok b => b | _ => [] end.
Lemma mdns_roundtrip_witness : exists m4 m6,
  datagram_parse Ail (response_packet false) = Ok (mkMdns (mkSocket (V4 0xc0a80102) 5353) (mkSocket (V4 0xe00000fb) 5353) m4) /\ same_message response m4 /\
  datagram_parse Ail (response_packet true) = Ok (mkMdns (mkSocket (V6 fe80_2) 5353) (mkSocket (multicast true) 5353) m6) /\ same_message response m6.
Proof.
  assert (forall v6, exists m, datagram_parse Ail (response_packet v6) = Ok (mkMdns (mkSocket (response_of v6) 5353) (mkSocket (multicast v6) 5353) m) /\ same_message response m) as H.
  { intros v6. apply mdns_roundtrip; [by destruct v6; vm_compute; split; discriminate..|by vm_compute; split; discriminate|reflexivity|exact response_wf|exact response_clear|destruct v6; vm_compute; reflexivity]. }
  destruct (H false) as (m4 & H4 & S4), (H true) as (m6 & H6 & S6). exists m4, m6.
  split; [exact H4|]. split; [exact S4|]. split; [exact H6|exact S6].
Defined.
Lemma mdns_parse_safe_witness : is_bytes [0x60; 0; 0] /\ yields (fun d => message_wf (md_message d)) (datagram_parse Ail [0x60; 0; 0]).
Proof.
  assert (is_bytes [0x60; 0; 0]) as Hb by (repeat (constructor; [u_lia|]); constructor).
  split; [exact Hb|exact (mdns_parse_safe Ail [0x60; 0; 0] Hb)].
Defined.
