(* ===== verification/Query.v ===== *)
(** The querier of multicast DNS ([src/src/mdns/query.rs]): the questions that are asked with
    their intervals, the batches they are sent in with the answers already known, the rates
    at which datagrams are taken, and the cache that is fed with them. *)

From S2P Require Import Prelude Effects Time Reassembly Maps DnsWire Stateful Ordered Names Tsr Cache MdnsWire.

(** [Ord] for [IpAddr]: the families in the order of the variants. *)
#[global] Instance IpAddr_ordered : Ordered IpAddr := fun a b =>
  match a, b with V4 a, V4 b => a <=? b | V4 _, V6 _ => true | V6 _, V4 _ => false | V6 a, V6 b => a <=? b end.

Record Active := mkActive {
  a_question : Question; a_until : Z; a_next : Z; a_interval : Z; a_sent : bool;
  a_qu : option Z; a_offered : bool; a_retry : option Z; a_reconfirm : bool;
}.
Record Batch := mkBatch { b_id : Z; b_messages : list Message }.
Record Rate := mkRate { rt_start : Z; rt_count : Z; rt_peer : option (bytes * Z) }.
Record Querier := mkQuerier {
  q_cache : Cache; q_questions : gmap Z Active; q_rates : gmap IpAddr Rate; q_global : Z * Z;
  q_next_id : Z; q_up : bool; q_external : Z;
}.
Definition querier_default : Querier := mkQuerier no_cache ∅ ∅ (0, 0) 0 true 0.
Definition set_cache c q := mkQuerier c (q_questions q) (q_rates q) (q_global q) (q_next_id q) (q_up q) (q_external q).
Definition set_questions m q := mkQuerier (q_cache q) m (q_rates q) (q_global q) (q_next_id q) (q_up q) (q_external q).
Definition set_rates m q := mkQuerier (q_cache q) (q_questions q) m (q_global q) (q_next_id q) (q_up q) (q_external q).
Definition set_global g q := mkQuerier (q_cache q) (q_questions q) (q_rates q) g (q_next_id q) (q_up q) (q_external q).
Definition set_next_id n q := mkQuerier (q_cache q) (q_questions q) (q_rates q) (q_global q) n (q_up q) (q_external q).
Definition set_up b q := mkQuerier (q_cache q) (q_questions q) (q_rates q) (q_global q) (q_next_id q) b (q_external q).
Definition set_external_bytes n q := mkQuerier (q_cache q) (q_questions q) (q_rates q) (q_global q) (q_next_id q) (q_up q) n.
Definition alter_question (id : Z) (f : Active -> Active) (q : Querier) : Querier := set_questions (alter f id (q_questions q)) q.
Definition on_cache (f : Cache -> Cache) (q : Querier) : Querier := set_cache (f (q_cache q)) q.

Definition budget : Z := 4 * 1024 * 1024.
Definition masked (q : Question) : Question := mkQuestion (q_name q) (q_kind q) (Z.land (q_class q) 0x7fff).
Definition set_next t a := mkActive (a_question a) (a_until a) t (a_interval a) (a_sent a) (a_qu a) (a_offered a) (a_retry a) (a_reconfirm a).
Definition set_qu t a := mkActive (a_question a) (a_until a) (a_next a) (a_interval a) (a_sent a) t (a_offered a) (a_retry a) (a_reconfirm a).
Definition set_offered b a := mkActive (a_question a) (a_until a) (a_next a) (a_interval a) (a_sent a) (a_qu a) b (a_retry a) (a_reconfirm a).
Definition set_retry t a := mkActive (a_question a) (a_until a) (a_next a) (a_interval a) (a_sent a) (a_qu a) (a_offered a) t (a_reconfirm a).
Definition set_reconfirm a := mkActive (a_question a) (a_until a) (a_next a) (a_interval a) (a_sent a) (a_qu a) (a_offered a) (a_retry a) true.
(** What a link that comes or goes does to a question, before its next time is drawn. *)
Definition restarted a := mkActive (a_question a) (a_until a) (a_next a) 1000 false None false None (a_reconfirm a).
Definition advance (now : Z) (a : Active) : Active :=
  mkActive (a_question a) (a_until a) (sat64 now (a_interval a)) (Z.min (Z.min (a_interval a * 2) u64_max) 3600000) true (a_qu a) false None (a_reconfirm a).

(** ** Lookups *)

Definition querier_counts (q : Querier) : Z * Z := (slen (q_questions q), slen (q_rates q)).
Definition reservation (q : Querier) : Z := slen (q_questions q) * 8192 + 32 * 256.
Definition owned_bytes (q : Querier) : outcome io_error Z := sub_chk (Cache.counts (q_cache q)).2 (q_external q).
Definition due (a : Active) (now : Z) (q : Querier) : option Z :=
  match a_retry a with
  | Some t => Some t
  | None =>
      let '(unique, refresh) := timing (a_question a) now (q_cache q) in
      if unique && negb (a_reconfirm a) then refresh
      else Some (match refresh with Some r => Z.min r (a_next a) | None => a_next a end)
  end.
Definition querier_next_deadline (now : Z) (q : Querier) : option Z :=
  minimum (from_option (fun t => [t]) [] (next_deadline (q_cache q)) ++
    concat (map (fun a => a_until a :: (if q_up q then from_option (fun t => [t]) [] (due a now q) else [])) (sorted_values (q_questions q)))).
Definition peer (address : IpAddr) (now : Z) (q : Querier) : option bytes :=
  match q_rates q !! address with
  | Some r => match rt_peer r with Some (mac, until) => if now <? until then Some mac else None | None => None end
  | None => None
  end.
Definition active (id now : Z) (q : Querier) : bool := match q_questions q !! id with Some a => now <? a_until a | None => false end.

(** The first of the questions that are due, by time and then by identifier. *)
Definition first_due (now : Z) (q : Querier) : option (Z * Z) :=
  min_by (fun x b => (x.1 <? b.1) || ((x.1 =? b.1) && (x.2 <? b.2)))
    (omap (fun e => match due e.2 now q with Some t => if t <=? now then Some (t, e.1) else None | None => None end) (sorted (q_questions q))).
(** The messages of a batch, as the known answers are added. *)
Definition truncated (m : Message) : Message :=
  mkMessage (m_id m) (Z.lor (m_flags m) 0x200) (m_questions m) (m_answers m) (m_authority m) (m_additional m) (m_original m) (m_spans m).
Fixpoint batch_loop (known : list Rr) (current : Message) (messages : list Message) : outcome io_error (list Message) :=
  match known with
  | [] => Ok (messages ++ [current])
  | r :: known =>
      let longer := add_answer r current in
      length_ ← wire_len longer;
      let '(current, messages) :=
        if (1200 <? length_) && (1 <? len (m_answers longer)) then (add_answer r (message_new 0 0), messages ++ [truncated current])
        else (longer, messages) in
      n ← wire_len current;
      reject_if 8952 <? n with InvalidData;
      batch_loop known current messages
  end.
(** The question as it goes out: the first time with the bit that asks for a unicast answer. *)
Definition outgoing (a : Active) : Question :=
  let q := a_question a in if a_sent a then q else mkQuestion (q_name q) (q_kind q) (Z.lor (q_class q) 0x8000).

(** ** Operations *)

Section querier.
Context {R : Type} `{Sampler R}.
Abbreviation MQ := (M (Querier * R) io_error).

Definition querier_reserve : MQ unit :=
  q ← self;
  field q_cache set_cache (Cache.reserve (slen (q_questions q) * 8192 + slen (q_rates q) * 256 + q_external q)).
Definition set_external (n : Z) : MQ unit :=
  q ← self;
  if budget <? n + reservation q then throw WouldBlock else
  update (set_external_bytes n) ;;
  querier_reserve.
Definition querier_expire (now : Z) : MQ unit :=
  update (fun q => set_questions (filter (fun ka => now < a_until ka.2) (q_questions q)) q) ;;
  update (fun q => set_rates (filter (fun kr => sat_sub now (rt_start kr.2) < 60000) (q_rates q)) q) ;;
  field q_cache set_cache (Cache.expire now) ;;
  querier_reserve.
Definition start (question : Question) (until now : Z) : MQ Z :=
  querier_expire now ;;
  q ← self;
  if (budget <? reservation q + q_external q + 8192) || (128 <=? slen (q_questions q)) || (until <=? now)
     || (Z.land (q_class question) 0x7fff =? 0) || (q_kind question =? 0) then throw WouldBlock else
  delay ← draw 100;
  if q_next_id q =? u64_max then throw OtherError else
  let id := q_next_id q + 1 in
  update (set_next_id id) ;;
  update (fun q => set_questions (<[id := mkActive (masked question) until (sat64 now (20 + delay)) 1000 false None false None false]> (q_questions q)) q) ;;
  querier_reserve ;;
  mret id.
Definition stop (id : Z) : MQ unit :=
  update (fun q => set_questions (delete id (q_questions q)) q) ;;
  querier_reserve.
Definition reconfirm (question : Question) (now : Z) : MQ Z :=
  id ← start question (sat64 now 10000) now;
  q ← self;
  lift (unwrap (q_questions q !! id)) ;;
  update (alter_question id set_reconfirm) ;;
  update (on_cache (suspect question now)) ;;
  mret id.
Definition restart_question (now id : Z) : MQ unit :=
  update (alter_question id restarted) ;;
  delay ← draw 100;
  update (alter_question id (set_next (sat64 now (20 + delay)))).
Definition available (up : bool) (now : Z) : MQ unit :=
  q ← self;
  if Bool.eqb (q_up q) up then mret tt else
  update (fun q => set_global (now, 0) (set_rates ∅ (on_cache clear (set_up up q)))) ;;
  for_each (sorted_keys (q_questions q)) (restart_question now) ;;
  querier_reserve.
(** [poll], once the time has passed. *)
Definition poll_due (now : Z) : MQ (option Batch) :=
  q ← self;
  if negb (q_up q) then mret None else
  match first_due now q with
  | None => mret None
  | Some (_, id) =>
      a ← lift (unwrap (q_questions q !! id));
      let '(rs, c) := known (a_question a) now (q_cache q) in
      update (set_cache c) ;;
      messages ← lift (batch_loop rs (add_question (outgoing a) (message_new 0 0)) []);
      update (alter_question id (set_offered true)) ;;
      mret (Some (mkBatch id messages))
  end.
Definition poll (now : Z) : MQ (option Batch) := querier_expire now ;; poll_due now.
Definition sent (id : Z) (success : bool) (now : Z) : MQ unit :=
  q ← self;
  match q_questions q !! id with
  | Some a =>
      if negb (a_offered a) then mret tt else
      if negb success then update (alter_question id (fun a => set_retry (Some (sat64 now 100)) (set_offered false a))) else
      update (alter_question id (fun a => advance now (if a_sent a then a else set_qu (Some now) a))) ;;
      update (on_cache (refreshed (a_question a) now))
  | None => mret tt
  end.
(** Whether a datagram of [source] is within the rates. *)
Definition admit_source (source : IpAddr) (now : Z) : MQ bool :=
  update (fun q => if 1000 <=? sat_sub now (q_global q).1 then set_global (now, 0) q else q) ;;
  q ← self;
  if 128 <=? (q_global q).2 then mret false else
  update (fun q => set_global ((q_global q).1, (q_global q).2 + 1) q) ;;
  (if negb (has_key (q_rates q) source) && (32 <=? slen (q_rates q)) then
     oldest ← lift (unwrap (min_by (fun x b => rt_start x.2 <? rt_start b.2) (sorted (q_rates q))));
     update (fun q => set_rates (delete oldest.1 (q_rates q)) q)
   else mret tt) ;;
  q ← self;
  let r := default (mkRate now 0 None) (q_rates q !! source) in
  let r := if 1000 <=? sat_sub now (rt_start r) then mkRate now 0 (rt_peer r) else r in
  update (fun q => set_rates (<[source := r]> (q_rates q)) q) ;;
  if 32 <=? rt_count r then mret false else
  update (fun q => set_rates (<[source := mkRate (rt_start r) (rt_count r + 1) (rt_peer r)]> (q_rates q)) q) ;;
  querier_reserve ;;
  mret true.
Definition remember_peer (address : IpAddr) (mac : bytes) (now : Z) : MQ unit :=
  update (fun q => set_rates (alter (fun r => mkRate (rt_start r) (rt_count r) (Some (mac, sat64 now 2000))) address (q_rates q)) q).
(** A response that came to this host alone is taken while a question asked for it, or when a probe did. *)
Definition asked_for (m : Message) (now : Z) (q : Querier) : bool :=
  existsb (fun a => match a_qu a with Some t => (t <=? now) && (now - t <=? 2000) | None => false end && (now <? a_until a)
                    && existsb (matches (a_question a)) (m_answers m ++ m_additional m)) (sorted_values (q_questions q)).
Definition admit_datagram (d : MdnsDatagram) (on_link : bool) (now : Z) (probe : bool) : MQ bool :=
  q ← self;
  if negb (q_up q) || negb (sa_port (md_destination d) =? 5353) then mret false else
  within_rates ← admit_source (sa_ip (md_source d)) now;
  if negb within_rates then mret false else
  q ← self;
  mret (negb (is_response (md_message d)) || is_multicast (sa_ip (md_destination d)) || (on_link && (probe || asked_for (md_message d) now q))).
(** A question of another host, with the answers it knows. *)
Definition observe (m : Message) (now : Z) (question : Question) : MQ unit :=
  update (on_cache (observe_question question (m_answers m) now)) ;;
  if negb (Z.land (q_class question) 0x8000 =? 0) || negb (Z.land (m_flags m) 0x200 =? 0) then mret tt else
  q ← self;
  let '(own, c) := known question now (q_cache q) in
  update (set_cache c) ;;
  if forallb (fun r => existsb (same r) own) (m_answers m) then
    update (fun q => set_questions ((fun a => if question_eq (a_question a) question && (now <? a_until a) then advance now a else a) <$> q_questions q) q) ;;
    update (on_cache (refreshed question now))
  else mret tt.
Definition receive_admitted (d : MdnsDatagram) (now code : Z) : MQ unit :=
  let m := md_message d in
  if is_response m then Stateful.within q_cache set_cache (receive_with_code m code now)
  else if is_multicast (sa_ip (md_destination d)) && (sa_port (md_source d) =? 5353) then
    Stateful.within q_cache set_cache (receive_with_code m code now) ;;
    for_each (m_questions m) (observe m now)
  else mret tt.
Definition receive_with_probe (d : MdnsDatagram) (on_link : bool) (now : Z) (probe : bool) : MQ bool :=
  match extract (md_message d) OPTION_CODE now with
  | Ok _ =>
      taken ← admit_datagram d on_link now probe;
      if negb taken then mret false else
      receive_admitted d now OPTION_CODE ;;
      mret true
  | Err _ => mret false
  | Panic => lift Panic
  end.
Definition querier_receive (d : MdnsDatagram) (on_link : bool) (now : Z) : MQ bool := receive_with_probe d on_link now false.
End querier.
