(* ===== verification/QueryFacts.v ===== *)
(** Properties of the querier: over every history nothing panics and its tables stay within
    their limits, a batch carries the question and the answers known, and the rate at which
    datagrams are taken. *)

From S2P Require Import Prelude Effects Time Reassembly Maps DnsWire DnsFacts DnsFormat Stateful Ordered Names Tsr Cache CacheFacts MdnsWire Query.

(** ** What a method leaves alone *)

Definition steady {S E A T} (g : S -> T) (m : M S E A) : Prop := forall s, g (m s).2 = g s.
Section steady.
Context {S T : Type} (g : S -> T).
Lemma steady_bind {E A B} (m : M S E A) (f : A -> M S E B) : steady g m -> (forall a, steady g (f a)) -> steady g (m ≫= f).
Proof.
  intros Hm Hf s. cbv [mbind M_bind]. specialize (Hm s). destruct (m s) as [[a|e|] s']; cbn in *; [by rewrite Hf|done|done].
Qed.
Lemma steady_ret {E A} (a : A) : steady g (mret a : M S E A).
Proof. done. Qed.
Lemma steady_throw {E A} e : steady g (throw e : M S E A).
Proof. done. Qed.
Lemma steady_lift {E A} (o : outcome E A) : steady g (lift o).
Proof. by intros s. Qed.
Lemma steady_get {E} : steady g (get : M S E S).
Proof. done. Qed.
Lemma steady_modify {E} (f : S -> S) : (forall s, g (f s) = g s) -> steady g (modify f : M S E unit).
Proof. intros Hf s. apply Hf. Qed.
Lemma steady_if {E A} (b : bool) (m1 m2 : M S E A) : steady g m1 -> steady g m2 -> steady g (if b then m1 else m2).
Proof. by destruct b. Qed.
Lemma steady_for_each {E A} (xs : list A) (body : A -> M S E unit) : (forall x, steady g (body x)) -> steady g (for_each xs body).
Proof. intros Hb. induction xs as [|x xs IH]; cbn [for_each]; [done|]. by apply steady_bind. Qed.
Lemma steady_on_fst {R E A} (m : M S E A) : steady g m -> steady (fun st : S * R => g st.1) (on_fst m).
Proof. intros Hm [s r]. unfold on_fst. specialize (Hm s). cbn in *. by destruct (m s). Qed.
Lemma steady_on_snd {R E A} (m : M R E A) : steady (fun st : S * R => g st.1) (on_snd m).
Proof. intros [s r]. unfold on_snd. cbn. by destruct (m r). Qed.
End steady.
Create HintDb steady.
#[export] Hint Resolve steady_ret steady_throw steady_lift steady_get steady_on_snd : steady.
Ltac steady := repeat (first [solve [auto with steady] | apply steady_bind; [|intros ?] | apply steady_if | apply steady_for_each; intros ? | apply steady_on_fst | apply steady_modify; intros ? | case_match]).

Lemma release_steady n : steady c_reserved (release n).
Proof. unfold release. steady. Qed.
#[export] Hint Resolve release_steady : steady.
Lemma expire_steady now : steady c_reserved (expire now).
Proof. unfold expire. steady; done. Qed.
Lemma remove_owner_steady n : steady c_reserved (remove_owner n).
Proof. unfold remove_owner. steady; done. Qed.
Lemma evict_while_steady fuel over : steady c_reserved (evict_while fuel over).
Proof. induction fuel as [|fuel IH]; cbn [evict_while]; steady; done. Qed.
#[export] Hint Resolve expire_steady remove_owner_steady evict_while_steady : steady.
Lemma select_loop_steady m now stamps rs sel ign : steady c_reserved (select_loop m now stamps rs sel ign).
Proof. revert sel ign. induction rs as [|[i r] rs IH]; intros sel ign; cbn [select_loop]; steady. Qed.
#[export] Hint Resolve select_loop_steady : steady.
Lemma renew_in_reserved now stamp refresh r c c' : renew_in now stamp refresh r c = Some c' -> c_reserved c' = c_reserved c.
Proof. unfold renew_in. destruct (c_sets c !! key r); [|done]. cbn [mbind option_bind]. destruct (renew _ _ _); [|done]. by intros [= <-]. Qed.
Section records.
Context {R : Type} `{Sampler R}.
Abbreviation reserved_of := (fun st : Cache * R => c_reserved st.1).
Lemma admit_record_steady now stamp r : steady reserved_of (admit_record now stamp r).
Proof.
  unfold admit_record, draw. apply steady_bind; [auto with steady|]. intros [cost|]; [|done]. apply steady_if; [done|].
  apply steady_bind; [auto with steady|]. intros jitter. apply steady_bind; [unfold update; steady; unfold flush; by case_match|].
  intros [] [c rr]. rewrite self_run. destruct (renew_in _ _ _ _ c) as [c'|] eqn:E; [by apply renew_in_reserved in E|].
  match goal with |- context [(_ ;; ?k) (c, rr)] => assert (steady reserved_of (on_fst (evict (over_for (key r) cost)) ;; k)) as Hm by (unfold evict, update; steady; done) end.
  exact (Hm (c, rr)).
Qed.
Lemma receive_steady m code now : steady reserved_of (receive_with_code m code now).
Proof.
  pose proof admit_record_steady. unfold receive_with_code. steady. destruct x as [i r]. unfold receive_record, update. steady; done.
Qed.
End records.

(** ** The invariant *)

Definition active_wf (limit id : Z) (a : Active) : Prop :=
  question_wf (a_question a) /\ 0 <= a_interval a <= 3600000 /\ id <= limit.
Record tables_wf (q : Querier) : Prop := {
  tw_questions : slen (q_questions q) <= 128;
  tw_each : map_Forall (active_wf (q_next_id q)) (q_questions q);
  tw_rates : slen (q_rates q) <= 32;
  tw_counts : map_Forall (fun _ r => 0 <= rt_count r <= 32) (q_rates q);
  tw_global : 0 <= (q_global q).2 <= 128;
  tw_external : 0 <= q_external q /\ q_external q + reservation q <= budget;
}.
Definition querier_wf (q : Querier) : Prop :=
  tables_wf q /\ sound (q_cache q) /\ q_external q <= c_reserved (q_cache q) <= budget.

Lemma slen_alter {K A} `{Countable K} (f : A -> A) (m : gmap K A) k : slen (alter f k m) = slen m.
Proof. unfold slen. by rewrite <-!size_dom, dom_alter_L. Qed.
Lemma map_Forall_alter {K A} `{Countable K} (P : K -> A -> Prop) f (m : gmap K A) k :
  map_Forall P m -> (forall v, P k v -> P k (f v)) -> map_Forall P (alter f k m).
Proof.
  intros Hm Hf k' v. destruct (decide (k = k')) as [<-|Hn]; [rewrite lookup_alter_eq|rewrite lookup_alter_ne by done; apply Hm].
  intros (w & Hw & ->)%fmap_Some. by apply Hf, Hm.
Qed.
Lemma map_Forall_part {K A} `{Countable K} (P : K -> A -> Prop) (m' m : gmap K A) : m' ⊆ m -> map_Forall P m -> map_Forall P m'.
Proof. intros Hs Hm k v Hk. apply Hm. by eapply lookup_weaken. Qed.

(** Fewer questions and rates. *)
Lemma tables_part m r q : tables_wf q -> m ⊆ q_questions q -> r ⊆ q_rates q -> tables_wf (set_questions m (set_rates r q)).
Proof.
  intros [H1 H2 H3 H4 H5 H6] Hm Hr. assert (slen m <= slen (q_questions q)) by (apply inj_le, map_subseteq_size, Hm).
  assert (slen r <= slen (q_rates q)) by (apply inj_le, map_subseteq_size, Hr). split; cbn.
  - lia.
  - by eapply map_Forall_part.
  - lia.
  - by eapply map_Forall_part.
  - done.
  - unfold reservation in *. cbn. lia.
Qed.
(** Changing a question, or all of them. *)
Lemma tables_questions m q : tables_wf q -> slen m = slen (q_questions q) -> map_Forall (active_wf (q_next_id q)) m -> tables_wf (set_questions m q).
Proof. intros [H1 H2 H3 H4 H5 H6] Hs Hm. split; cbn; try done; [lia|]. unfold reservation in *. cbn. lia. Qed.
Definition mild (f : Active -> Active) : Prop := forall a, 0 <= a_interval a <= 3600000 -> a_question (f a) = a_question a /\ 0 <= a_interval (f a) <= 3600000.
Lemma mild_wf f limit id a : mild f -> active_wf limit id a -> active_wf limit id (f a).
Proof. intros Hf (H1 & H2 & H3). destruct (Hf a H2) as [E Hi]. split; [by rewrite E|done]. Qed.
Lemma tables_alter id f q : tables_wf q -> mild f -> tables_wf (alter_question id f q).
Proof.
  intros Hq Hf. apply tables_questions; [done|apply slen_alter|]. apply map_Forall_alter; [apply Hq|]. intros a. by apply mild_wf.
Qed.
Lemma querier_alter id f q : querier_wf q -> mild f -> querier_wf (alter_question id f q).
Proof. intros (H1 & H2) Hf. split; [by apply tables_alter|done]. Qed.
(** Another cache. *)
Lemma tables_cache c q : tables_wf q -> tables_wf (set_cache c q).
Proof. by intros [H1 H2 H3 H4 H5 H6]. Qed.
Lemma querier_cache c q : querier_wf q -> sound c -> c_reserved c = c_reserved (q_cache q) -> querier_wf (set_cache c q).
Proof. intros (H1 & H2 & H3) Hc Hr. split; [by apply tables_cache|]. split; [done|]. cbn. by rewrite Hr. Qed.
Lemma querier_neutral f q : querier_wf q -> (cache_wf (q_cache q) -> neutral (q_cache q) (f (q_cache q))) -> querier_wf (on_cache f q).
Proof. intros Hq Hn. destruct Hq as (H1 & H2 & H3). specialize (Hn (proj1 H2)). apply querier_cache; [done|by eapply neutral_sound|apply Hn]. Qed.
Lemma mild_advance now : mild (advance now).
Proof. intros a Ha. split; [done|]. cbn. unfold u64_max. lia. Qed.
Lemma question_ok_masked q : question_wf q -> question_wf (masked q).
Proof.
  intros (H1 & H2 & H3). split; [done|]. split; [done|]. cbn [masked q_class]. change 0x7fff with (2 ^ 15 - 1). rewrite land_ones_mod by lia.
  pose proof (Z.mod_pos_bound (q_class q) (2 ^ 15) ltac:(lia)). u_lia.
Qed.

(** ** Operations *)

Section operations.
Context {R : Type} {RS : RandomSource R} {SR : Sampler R}.
Abbreviation ok := querier_wf.

(** The reservation fits, so the cache makes room for it. *)
Lemma reserve_ok {I : Querier -> Prop} q (r : R) : tables_wf q -> cache_wf (q_cache q) ->
  gives I querier_reserve (q, r) (fun _ q' => ok q' /\ exists c, q' = set_cache c q).
Proof.
  intros Hq Hc. unfold querier_reserve. apply gives_self, gives_field. set (n := _ + _ + _).
  pose proof (tw_rates _ Hq) as B1. pose proof (slen_nonneg (q_rates q)) as B2. pose proof (slen_nonneg (q_questions q)) as B3. destruct (tw_external _ Hq) as [E1 E2]. unfold reservation in E2.
  pose proof (reserve_runs n (q_cache q) Hc ltac:(lia)) as Hr. unfold runs in Hr. destruct (Cache.reserve n (q_cache q)) as [[[]|e|] c']; [|done|done].
  destruct Hr as (H1 & H2 & H3 & _). split; [|by eexists]. split; [by apply tables_cache|]. split; [by split|]. cbn. lia.
Qed.
Lemma gives_runs_cache {A} (m : M Cache io_error A) q (r : R) P (Q : A -> Querier -> Prop) : runs m (q_cache q) P -> (forall a c, P a c -> Q a (set_cache c q)) -> gives ok (field q_cache set_cache m) (q, r) Q.
Proof. unfold runs. intros Hm Hq. apply gives_field. destruct (m (q_cache q)) as [[a|e|] c]; [by apply Hq|done|done]. Qed.
Lemma querier_expire_ok now q (r : R) : ok q -> gives ok (querier_expire now) (q, r) (fun _ q' => ok q' /\ map_Forall (fun _ a => now < a_until a) (q_questions q')).
Proof.
  intros (H1 & H2 & H3). unfold querier_expire. do 2 apply gives_step. set (q1 := set_rates _ _).
  assert (tables_wf q1) as Hw.
  { unfold q1. refine (tables_part (filter _ (q_questions q)) (filter _ (q_rates q)) q H1 _ _); apply map_filter_subseteq. }
  eapply gives_bind; [apply (gives_runs_cache _ _ _ (fun _ c => cache_wf c) (fun _ q' => tables_wf q' /\ cache_wf (q_cache q') /\ q_questions q' = q_questions q1))|].
  - eapply runs_weaken; [apply expire_runs, H2|]. by intros _ c [].
  - intros _ c Hc. split; [by apply tables_cache|]. by split.
  - intros [] q2 r2 (Hw2 & Hc2 & E2). eapply gives_weaken; [by apply reserve_ok|]. intros [] q3 [Hq3 [c3 ->]]. split; [done|]. cbn. rewrite E2.
    intros k a [_ Ha]%map_lookup_filter_Some. done.
Qed.
Lemma set_external_ok n q (r : R) : ok q -> 0 <= n -> gives ok (set_external n) (q, r) (fun _ => ok).
Proof.
  intros (H1 & H2 & H3) Hn. unfold set_external. apply gives_self, gives_if; intros Hb; [by apply gives_throw|]. apply Z.ltb_ge in Hb. apply gives_step.
  eapply gives_weaken; [apply reserve_ok|by intros _ c []]; [|apply H2]. destruct H1 as [? ? ? ? ? _]. by split.
Qed.
Lemma start_ok question until now q (r : R) : ok q -> question_wf question ->
  gives ok (start question until now) (q, r) (fun id q' => ok q' /\ is_Some (q_questions q' !! id)).
Proof.
  intros Hq Hw. unfold start. eapply gives_bind; [by apply querier_expire_ok|]. intros [] q1 r1 [H1 _]. apply gives_self, gives_if; intros Hb; [by apply gives_throw|].
  rewrite !orb_false_iff, Z.ltb_ge, Z.leb_gt in Hb. destruct Hb as ((((B1 & B2) & _) & _) & _).
  eapply gives_bind; [by apply (gives_draw _ _ _ (fun _ q' => q' = q1))|]. intros delay ? r2 ->.
  apply gives_if; intros Hid; [by apply gives_throw|]. do 2 apply gives_step. destruct H1 as (T1 & T2 & T3).
  assert (q_questions q1 !! (q_next_id q1 + 1) = None) as Hf.
  { destruct (_ !! _) as [a|] eqn:E; [|done]. destruct (tw_each _ T1 _ _ E) as (_ & _ & ?). lia. }
  set (a := mkActive _ _ _ _ _ _ _ _ _). assert (tables_wf (set_questions (<[q_next_id q1 + 1 := a]> (q_questions q1)) (set_next_id (q_next_id q1 + 1) q1))) as Hw2.
  { destruct T1 as [K1 K2 K3 K4 K5 K6]. unfold reservation in *. split; cbn; try done.
    - rewrite slen_insert by done. lia.
    - apply map_Forall_insert_2; [split; [by apply question_ok_masked|cbn; lia]|]. intros id b Hb. destruct (K2 id b Hb) as (? & ? & ?). hnf. split; [done|]. split; [done|lia].
    - unfold reservation. cbn. rewrite slen_insert by done. lia. }
  eapply gives_bind; [apply reserve_ok; [exact Hw2|apply T2]|]. intros [] q2 r3 [H2 [c ->]]. apply gives_ret. split; [done|]. cbn. by rewrite lookup_insert_eq.
Qed.
Lemma stop_ok id q (r : R) : ok q -> gives ok (stop id) (q, r) (fun _ => ok).
Proof.
  intros (H1 & H2 & H3). unfold stop. apply gives_step. eapply gives_weaken; [apply reserve_ok|by intros _ c []]; [|apply H2].
  destruct q as [qc qs qr g n u e]. exact (tables_part (delete id qs) qr _ H1 (delete_subseteq _ _) (reflexivity qr)).
Qed.
Lemma reconfirm_ok question now q (r : R) : ok q -> question_wf question -> gives ok (reconfirm question now) (q, r) (fun _ => ok).
Proof.
  intros Hq Hw. unfold reconfirm. eapply gives_bind; [by apply start_ok|]. intros id q1 r1 [H1 [a Ha]]. apply gives_self. rewrite Ha.
  cbn [unwrap]. apply gives_known. do 2 apply gives_step. apply gives_ret. apply querier_neutral; [apply querier_alter; [done|by intros b Hb]|].
  intros Hc. apply map_entries_neutral; [done|]. intros k. apply gentle_if. by intros e He.
Qed.
Lemma available_ok up now q (r : R) : ok q -> gives ok (available up now) (q, r) (fun _ => ok).
Proof.
  intros Hq. unfold available. apply gives_self, gives_if; intros _; [by apply gives_ret|]. apply gives_step. set (q1 := set_global _ _).
  assert (ok q1) as H1.
  { destruct Hq as ([K1 K2 K3 K4 K5 K6] & [[C1 C2 C3 C4] C5] & K7). split; [by split|split; [|done]]. split; [by apply cache_empty|by right]. }
  eapply gives_bind; [apply (gives_for_each ok); [done|]|].
  - intros id q2 r2 _ H2. unfold restart_question. apply gives_step. assert (ok (alter_question id restarted q2)) as H3 by (apply querier_alter; [done|intros a Ha; split; [done|cbn; lia]]).
    eapply gives_bind; [by apply (gives_draw _ _ _ (fun _ => ok))|]. intros d q3 r3 H4. apply gives_update. apply querier_alter; [done|by intros a Ha].
  - intros [] q2 r2 H2. eapply gives_weaken; [apply reserve_ok; [apply H2|apply H2]|]. by intros _ c [].
Qed.

Lemma sent_ok id success now q (r : R) : ok q -> gives ok (sent id success now) (q, r) (fun _ => ok).
Proof.
  intros Hq. unfold sent. apply gives_self. destruct (q_questions q !! id) as [a|]; [|by apply gives_ret]. apply gives_if; intros _; [by apply gives_ret|].
  apply gives_if; intros _; [apply gives_update, querier_alter; [done|by intros b Hb]|]. apply gives_step, gives_update.
  apply querier_neutral; [apply querier_alter; [done|]|].
  - intros b Hb. destruct (a_sent b); [by apply mild_advance|]. apply (mild_advance now (set_qu (Some now) b)). done.
  - intros Hc. apply map_entries_neutral; [done|]. intros k. apply gentle_if. intros e He. exact (skip_refresh_gentle k _ now e He).
Qed.
Lemma rates_ok m q : ok q -> slen m <= 32 -> map_Forall (fun _ r => 0 <= rt_count r <= 32) m -> ok (set_rates m q).
Proof. intros ([K1 K2 K3 K4 K5 K6] & H2) Hs Hm. by split. Qed.
Lemma global_ok g q : ok q -> 0 <= g.2 <= 128 -> ok (set_global g q).
Proof. intros ([K1 K2 K3 K4 K5 K6] & H2) Hg. by split. Qed.
(** Taking a datagram counts it, in the second that it began or in the one under way. *)
Definition counted (now : Z) (g g' : Z * Z) (taken : bool) : Prop :=
  let n := Z.of_nat (Nat.b2n taken) in
  if 1000 <=? sat_sub now g.1 then g'.1 = now /\ n <= g'.2 else g'.1 = g.1 /\ g.2 + n <= g'.2.
Lemma admit_source_ok {I : Querier -> Prop} source now q (r : R) : ok q ->
  gives I (admit_source source now) (q, r) (fun taken q' => ok q' /\ counted now (q_global q) (q_global q') taken).
Proof.
  intros Hq. unfold admit_source. apply gives_step. set (q1 := if 1000 <=? _ then set_global _ q else q).
  assert (ok q1) as H1 by (subst q1; destruct (_ <=? _); [apply global_ok; [done|cbn; lia]|done]).
  assert (forall (taken : bool) (g' : Z * Z), g'.1 = (q_global q1).1 -> (q_global q1).2 + Z.of_nat (Nat.b2n taken) <= g'.2 -> counted now (q_global q) g' taken) as Hcount.
  { intros taken g' E1 E2. unfold counted. subst q1. destruct (1000 <=? _); cbn in *; lia. }
  clearbody q1. apply gives_self, gives_if; intros Hg; [apply gives_ret; split; [done|]; apply Hcount; [done|]; cbn; lia|]. apply Z.leb_gt in Hg.
  apply gives_step. set (q2 := set_global _ q1). assert (ok q2) as H2 by (apply global_ok; [done|cbn; pose proof (tw_global _ (proj1 H1)); lia]).
  eapply (gives_bind _ _ _ (fun _ q3 => ok q3 /\ q_global q3 = q_global q2 /\ (has_key (q_rates q3) source = true \/ slen (q_rates q3) < 32))).
  { apply gives_if; intros Hk.
    - apply andb_true_iff in Hk as [_ Hk%Z.leb_le]. destruct (min_by _ (sorted (q_rates q1))) as [[ip rate]|] eqn:E.
      + apply gives_known, gives_update. apply max_by_in, sorted_in in E. split; [|split; [done|right]].
        * apply rates_ok; [done| |by apply map_Forall_delete, H2]. cbn. rewrite slen_delete by (by eexists). pose proof (tw_rates _ (proj1 H1)). lia.
        * cbn. rewrite slen_delete by (by eexists). pose proof (tw_rates _ (proj1 H1)). lia.
      + apply min_by_nothing in E. pose proof (sorted_length (q_rates q1)) as Hl. rewrite E in Hl. change (len []) with 0 in Hl. lia.
    - apply gives_ret. split; [done|]. split; [done|]. apply andb_false_iff in Hk as [Hk%negb_false_iff|Hk%Z.leb_gt]; [by left|by right]. }
  intros [] q3 r3 (H3 & E3 & Hroom). apply gives_self. set (rate := if 1000 <=? _ then _ else _).
  assert (0 <= rt_count rate <= 32) as Hrate.
  { subst rate. destruct (1000 <=? _); [cbn; lia|]. destruct (q_rates q3 !! source) as [r0|] eqn:E; [|cbn; lia]. exact (tw_counts _ (proj1 H3) _ _ E). }
  assert (forall v, slen (<[source := v]> (q_rates q3)) <= 32) as Hsize.
  { intros v. destruct Hroom as [Hk|Hr]; [|pose proof (slen_insert_le (q_rates q3) source v); lia].
    rewrite slen_update by (by apply has_key_true). apply H3. }
  apply gives_step. set (q4 := set_rates _ q3).
  assert (ok q4) as H4 by (apply rates_ok; [done|apply Hsize|apply map_Forall_insert_2; [done|apply H3]]).
  apply gives_if; intros Hc; [apply gives_ret; split; [done|]; apply Hcount; [cbn; by rewrite E3|cbn; rewrite E3; cbn; lia]|]. apply Z.leb_gt in Hc.
  apply gives_step. set (q5 := set_rates _ q4). assert (ok q5) as H5.
  { apply rates_ok; [done| |]; cbn; rewrite insert_insert_eq; [apply Hsize|]. apply map_Forall_insert_2; [cbn; lia|apply H3]. }
  eapply gives_bind; [apply reserve_ok; [apply H5|apply H5]|]. intros [] q6 r6 [H6 [c ->]]. apply gives_ret. split; [done|].
  apply Hcount; cbn; rewrite E3; [done|cbn; lia].
Qed.
(** What follows leaves the count of the second alone, also when it fails. *)
Abbreviation same_count q := (fun q' => ok q' /\ q_global q' = q_global q).
Lemma receive_cache_ok m now q (r : R) : ok q -> message_wf m ->
  gives (same_count q) (Stateful.within q_cache set_cache (receive_with_code m OPTION_CODE now)) (q, r) (fun _ => same_count q).
Proof.
  intros Hq Hm. unfold gives, Stateful.within. cbn [fst snd].
  pose proof (receive_gives_sound m OPTION_CODE now (q_cache q) r (proj1 (proj2 Hq)) (mw_records _ Hm)) as Hg. unfold gives in Hg.
  pose proof (receive_steady m OPTION_CODE now (q_cache q, r)) as Hs. cbn in Hs.
  destruct (receive_with_code m OPTION_CODE now (q_cache q, r)) as [[[]|e|] [c' r']]; cbn in *; [| |done]; (split; [by apply querier_cache|done]).
Qed.
Lemma observe_ok {I : Querier -> Prop} m now question q (r : R) : ok q -> gives I (observe m now question) (q, r) (fun _ => same_count q).
Proof.
  intros Hq. unfold observe. apply gives_step. assert (ok (on_cache (observe_question question (m_answers m) now) q)) as H1.
  { apply querier_neutral; [done|]. intros Hc. unfold observe_question. destruct (negb _); [by apply neutral_refl|]. apply map_entries_neutral; [done|].
    intros k e He. destruct (_ || _); [done|]. by apply unanswered_gentle. }
  set (q1 := on_cache _ q) in *. assert (q_global q1 = q_global q) as E1 by done. clearbody q1. apply gives_if; intros _; [by apply gives_ret|]. apply gives_self.
  unfold known. cbv zeta. apply gives_step. set (q2 := set_cache _ q1). assert (ok q2) as H2.
  { apply querier_cache; [done| |done]. eapply neutral_sound; [apply mark_used_neutral, H1|apply H1]. }
  apply gives_if; intros _; [|by apply gives_ret]. apply gives_step, gives_update. split; [|done]. apply querier_neutral.
  - destruct H2 as [T2 C2]. split; [|done]. apply tables_questions; [done|unfold slen; by rewrite map_size_fmap|].
    intros id a (b & <- & Hb)%lookup_fmap_Some. destruct (_ && _); [apply mild_wf; [apply mild_advance|]|]; by apply T2.
  - intros Hc. apply map_entries_neutral; [done|]. intros k. apply gentle_if. intros e He. exact (skip_refresh_gentle k _ now e He).
Qed.
Lemma receive_admitted_ok d now q (r : R) : ok q -> message_wf (md_message d) ->
  gives (same_count q) (receive_admitted d now OPTION_CODE) (q, r) (fun _ => same_count q).
Proof.
  intros Hq Hm. unfold receive_admitted. cbv zeta. apply gives_if; intros _; [by apply receive_cache_ok|].
  apply gives_if; intros _; [|by apply gives_ret]. eapply gives_bind; [by apply receive_cache_ok|]. intros [] q1 r1 H1.
  apply (gives_for_each (same_count q)); [done|]. intros x q2 r2 _ [H2 E2].
  eapply gives_weaken; [by apply observe_ok|]. intros [] q3 [H3 E3]. split; [done|congruence].
Qed.
Definition unless_idle (now : Z) (q : Querier) (taken : bool) (q' : Querier) : Prop :=
  ok q' /\ (counted now (q_global q) (q_global q') taken \/ taken = false /\ q_global q' = q_global q).
Lemma counted_less now g g' : counted now g g' true -> counted now g g' false.
Proof. unfold counted. cbn. destruct (_ <=? _); lia. Qed.
Lemma admit_datagram_ok {I : Querier -> Prop} d on_link now probe q (r : R) : ok q -> gives I (admit_datagram d on_link now probe) (q, r) (fun taken => unless_idle now q taken).
Proof.
  intros Hq. unfold admit_datagram. apply gives_self, gives_if; intros _; [apply gives_ret; split; [done|by right]|].
  eapply gives_bind; [by apply admit_source_ok|]. intros taken q1 r1 [H1 E1]. apply gives_if; intros Ht.
  - apply negb_true_iff in Ht as ->. apply gives_ret. split; [done|by left].
  - apply negb_false_iff in Ht as ->. apply gives_self, gives_ret. split; [done|left]. destruct (_ || _); [done|by apply counted_less].
Qed.
Lemma querier_receive_ok d on_link now probe q (r : R) : ok q -> message_wf (md_message d) ->
  gives (unless_idle now q true) (receive_with_probe d on_link now probe) (q, r) (fun taken => unless_idle now q taken).
Proof.
  intros Hq Hm. unfold receive_with_probe. pose proof (extract_safe (md_message d) OPTION_CODE now) as He.
  destruct (extract _ _ _) as [s|e|]; [|apply gives_ret; split; [done|by right]|by destruct He].
  eapply gives_bind; [by apply admit_datagram_ok|]. intros taken q1 r1 [H1 E1]. apply gives_if; intros Ht.
  - apply negb_true_iff in Ht as ->. apply gives_ret. by split.
  - apply negb_false_iff in Ht as ->. eapply gives_bind.
    + apply (gives_larger (same_count q1) _ _ _ (fun _ => same_count q1) (fun _ => same_count q1)); [|done|by apply receive_admitted_ok].
      intros q2 [H2 E2]. split; [done|]. by rewrite E2.
    + intros [] q2 r2 [H2 E2]. apply gives_ret. split; [done|]. by rewrite E2.
Qed.
End operations.

(** ** The batch *)

Definition unflagged (m : Message) : Message :=
  mkMessage (m_id m) 0 (m_questions m) (m_answers m) (m_authority m) (m_additional m) (m_original m) (m_spans m).
(** A message of a batch: it has the answers it was given, and fits one datagram, or one fragmented when it has a single answer. *)
Definition fits (m : Message) : Prop := exists n, wire_len m = Ok n /\ (n <= 1200 \/ len (m_answers m) <= 1 /\ n <= 8952).
Record part_ok (m : Message) : Prop := {
  po_flags : m_flags m = 0;
  po_fits : m_answers m <> [] -> fits m;
}.
Lemma batch_spec rs current out acc : batch_loop rs current acc = Ok out -> part_ok current ->
  exists front final, out = acc ++ map truncated front ++ [final] /\
    concat (map m_questions (front ++ [final])) = m_questions current /\
    concat (map m_answers (front ++ [final])) = m_answers current ++ rs /\
    Forall part_ok (front ++ [final]) /\ Forall (fun m => m_answers m <> []) front.
Proof.
  revert current acc. induction rs as [|r rs IH]; intros current acc; cbn [batch_loop].
  - intros [= <-] Hc. exists [], current. cbn. rewrite !app_nil_r. split_and!; try done. all: first [apply List.Forall_nil | constructor; [done|apply List.Forall_nil]].
  - destruct (wire_len (add_answer r current)) as [n|e|] eqn:En; [|done|done]. cbn [mbind outcome_bind].
    destruct ((1200 <? n) && (1 <? len (m_answers (add_answer r current)))) eqn:Eb.
    + destruct (wire_len (add_answer r (message_new 0 0))) as [k|e|] eqn:Ek; [|done|done]. cbn [mbind outcome_bind].
      destruct (Z.ltb_spec 8952 k) as [|Hk]; [done|]. intros Hl Hc.
      destruct (IH _ _ Hl) as (front & final & -> & Q & A & P & N); [split; [done|intros _; exists k; split; [done|right; by split]]|].
      exists (current :: front), final. cbn in Q, A |- *. rewrite <-app_assoc. split_and!; [done|by rewrite Q, app_nil_r|by rewrite A|by constructor|].
      constructor; [|done]. apply andb_true_iff in Eb as [_ Eb%Z.ltb_lt]. cbn [add_answer m_answers] in Eb.
      rewrite len_app in Eb. intros E. rewrite E, len_nil in Eb. change (len [r]) with 1 in Eb. lia.
    + rewrite En. cbn [mbind outcome_bind]. destruct (Z.ltb_spec 8952 n) as [|Hn]; [done|]. intros Hl Hc.
      destruct (IH _ _ Hl) as (front & final & -> & Q & A & P & N).
      { split; [apply Hc|]. intros _. exists n. split; [done|]. apply andb_false_iff in Eb as [Eb%Z.ltb_ge|Eb%Z.ltb_ge]; [by left|right; by split]. }
      exists front, final. split_and!; try done. rewrite A. cbn. by rewrite <-app_assoc.
Qed.
Lemma known_wf q now c : sound c -> Forall plain_wf (fst (known q now c)).
Proof.
  intros [Hc _]. apply List.Forall_forall. intros x (e & <- & [He _]%filter_In)%in_map_iff. apply cached_entries_in in He as (k & s & Hk & He).
  destruct (Forall_In _ _ _ (sw_entries _ _ (cw_each _ Hc _ _ Hk)) He) as (Hp & _). apply plain_wf_ttl; [apply plain_wf_class; [done|]|].
  - change 0x7fff with (2 ^ 15 - 1). rewrite land_ones_mod by lia. pose proof (Z.mod_pos_bound (r_class (e_record e)) (2 ^ 15) ltac:(lia)). u_lia.
  - pose proof (Z.mod_pos_bound (seconds_left now e) (2 ^ 32) ltac:(lia)). u_lia.
Qed.
Lemma known_of q now c x : In x (fst (known q now c)) ->
  exists e, holds c e /\ interested q (e_record e) = true /\ same (e_record e) x = true /\ r_ttl (e_record e) <= 2 * seconds_left now e.
Proof.
  intros (e & <- & [He Hp]%filter_In)%in_map_iff. exists e. split; [by apply cached_entries_in|].
  rewrite !andb_true_iff, Z.leb_le in Hp. destruct Hp as [[Hi Hh] _]. split; [done|]. split.
  - unfold same, plain_class. cbn. rewrite <-Z.land_assoc, !Z.eqb_refl, rdata_eq_refl. by rewrite (proj2 (name_eq_canonical _ _) eq_refl).
  - pose proof (Z.mul_succ_div_gt (r_ttl (e_record e) + 1) 2 ltac:(lia)). lia.
Qed.
Definition answers_only (m : Message) : Prop := message_wf m /\ m_flags m = 0 /\ m_authority m = [] /\ m_additional m = [].
Lemma answers_only_add r m : answers_only m -> plain_wf r -> answers_only (add_answer r m).
Proof.
  intros ([H1 H2 H3 H4] & E1 & E2 & E3) Hr. split; [|done]. split; [done|done|done|]. cbn. rewrite E2, E3 in *. rewrite !app_nil_r in *.
  apply List.Forall_app. split; [done|]. constructor; [by apply plain_record_wf|constructor].
Qed.
Lemma answers_only_new q : question_wf q -> answers_only (add_question q (message_new 0 0)).
Proof. intros Hq. split; [|done]. split; cbn; [u_lia|u_lia|by constructor|constructor]. Qed.
Lemma wire_len_safe m : message_wf m -> safe (wire_len m).
Proof. intros Hm. unfold wire_len. pose proof (encode_safe Mdns m Hm) as He. by destruct (encode_context m Mdns). Qed.
Lemma batch_safe rs current acc : answers_only current -> Forall plain_wf rs -> safe (batch_loop rs current acc).
Proof.
  revert current acc. induction rs as [|r rs IH]; intros current acc Hc; [done|]. intros [Hr Hrs]%List.Forall_cons_iff. cbn [batch_loop].
  pose proof (answers_only_add r current Hc Hr) as H1. apply safe_bind; [apply wire_len_safe, H1|]. intros n _.
  assert (answers_only (add_answer r (message_new 0 0))) as H2.
  { apply answers_only_add; [|done]. split; [|done]. split; cbn; [u_lia|u_lia|constructor|constructor]. }
  destruct (_ && _); (apply safe_bind; [apply wire_len_safe; (apply H1 || apply H2)|intros k _]); (destruct (_ <? k); [done|]); by apply IH.
Qed.
Lemma lor_bound n a b : 0 < n -> 0 <= a < 2 ^ n -> 0 <= b < 2 ^ n -> 0 <= Z.lor a b < 2 ^ n.
Proof.
  intros Hn Ha Hb. split; [apply Z.lor_nonneg; lia|]. apply Z.log2_lt_cancel. rewrite Z.log2_lor, Z.log2_pow2 by lia.
  assert (forall x, 0 <= x < 2 ^ n -> Z.log2 x < n) as Hl; [|apply Z.max_lub_lt; by apply Hl].
  intros x Hx. destruct (Z.eqb_spec x 0) as [->|]; [done|]. apply Z.log2_lt_pow2; lia.
Qed.
Lemma outgoing_wf a : question_wf (a_question a) -> question_wf (outgoing a).
Proof.
  intros (H1 & H2 & H3). unfold outgoing. destruct (a_sent a); [done|]. split; [done|]. split; [done|]. cbn [q_class].
  pose proof (lor_bound 16 (q_class (a_question a)) 0x8000 ltac:(lia) ltac:(u_lia) ltac:(lia)). u_lia.
Qed.

(** The least of the pairs, by the first component and then by the second. *)
Lemma min_by_lex (l : list (Z * Z)) b : min_by (fun x b => (x.1 <? b.1) || ((x.1 =? b.1) && (x.2 <? b.2))) l = Some b -> forall x, In x l -> b.1 <= x.1.
Proof.
  assert (forall l b r, foldl (fun best x => match best with Some b => if (x.1 <? b.1) || ((x.1 =? b.1) && (x.2 <? b.2)) then Some x else Some b | None => Some x end) (Some b) l = Some r ->
    r.1 <= b.1 /\ forall x, In x l -> r.1 <= x.1) as Hf.
  { clear. induction l as [|y l IH]; intros b r; cbn [foldl]; [intros [= <-]; split; [lia|done]|].
    destruct (Z.ltb_spec y.1 b.1); cbn [orb].
    - intros [H1 H2]%IH. split; [lia|]. intros x [<-|Hx]; auto.
    - destruct (Z.eqb_spec y.1 b.1); cbn [andb]; [destruct (y.2 <? b.2)|]; intros [H1 H2]%IH; (split; [lia|]); intros x [<-|Hx]; auto; lia. }
  destruct l as [|x l]; [done|]. unfold min_by. cbn [foldl]. intros [H1 H2]%Hf. intros y [<-|Hy]; auto.
Qed.
(** Each transmission doubles the wait until the next, from a second to an hour. *)
Theorem backoff now n a : a_interval a = 1000 -> a_interval (Nat.iter n (advance now) a) = Z.min (1000 * 2 ^ Z.of_nat n) 3600000.
Proof.
  intros Ha. induction n as [|n IH]; [cbn; lia|]. rewrite Nat.iter_succ. cbn [advance a_interval].
  rewrite IH, Nat2Z.inj_succ, Z.pow_succ_r by lia. pose proof (Z.pow_pos_nonneg 2 (Z.of_nat n) ltac:(lia) ltac:(lia)) as Hp. unfold u64_max. lia.
Qed.
Section poll.
Context {R : Type} {RS : RandomSource R} {SR : Sampler R}.
Lemma first_due_spec now q t id : first_due now q = Some (t, id) ->
  (exists a, q_questions q !! id = Some a /\ due a now q = Some t) /\ t <= now /\
  forall id' a' t', q_questions q !! id' = Some a' -> due a' now q = Some t' -> t' <= now -> t <= t'.
Proof.
  unfold first_due. set (l := omap _ _). intros Hf.
  assert (forall t id, In (t, id) l <-> (exists a, q_questions q !! id = Some a /\ due a now q = Some t) /\ t <= now) as Hl.
  { intros t0 id0. unfold l. rewrite <-list_elem_of_In, list_elem_of_omap. split.
    - intros ([id1 a] & Hin & Hd). rewrite list_elem_of_In, sorted_in in Hin. cbn in Hd. destruct (due a now q) as [t1|] eqn:E; [|done].
      destruct (Z.leb_spec t1 now); [|done]. injection Hd as <- <-. split; [by exists a|done].
    - intros [(a & Ha & Hd) Hle]. exists (id0, a). rewrite list_elem_of_In, sorted_in. split; [done|]. cbn. rewrite Hd. destruct (Z.leb_spec t0 now); [done|lia]. }
  pose proof (proj1 (Hl t id) (max_by_in _ _ _ Hf)) as [Ha Hle]. split; [done|]. split; [done|]. intros id' a' t' Ha' Hd' Hle'.
  assert (In (t', id') l) as Hin by (apply Hl; split; [by exists a'|done]).
  pose proof (min_by_lex _ _ Hf _ Hin). done.
Qed.
(** What a poll offers, from the querier [q1] whose time has passed: the question that is due
    first, and the answers that are known with at least half of their lifetime left. *)
Record offers (now : Z) (q1 : Querier) (b : Batch) : Prop := {
  of_up : q_up q1 = true;
  of_batch : exists a t front final, q_questions q1 !! b_id b = Some a /\ due a now q1 = Some t /\ t <= now /\
    (forall id' a' t', q_questions q1 !! id' = Some a' -> due a' now q1 = Some t' -> t' <= now -> t <= t') /\
    b_messages b = map truncated front ++ [final] /\
    concat (map m_questions (front ++ [final])) = [outgoing a] /\
    concat (map m_answers (front ++ [final])) = fst (known (a_question a) now (q_cache q1)) /\
    (forall x, In x (concat (map m_answers (front ++ [final]))) ->
      exists e, holds (q_cache q1) e /\ interested (a_question a) (e_record e) = true /\ same (e_record e) x = true /\ r_ttl (e_record e) <= 2 * seconds_left now e) /\
    Forall part_ok (front ++ [final]);
}.
Definition offered (q : Querier) (b : Batch) : Prop := exists a, q_questions q !! b_id b = Some a /\ a_offered a = true.
Lemma poll_due_ok now q1 (r : R) : querier_wf q1 ->
  gives querier_wf (poll_due now) (q1, r) (fun o q' => querier_wf q' /\ forall b, o = Some b -> offers now q1 b /\ offered q' b).
Proof.
  intros H1. unfold poll_due. apply gives_self, gives_if; intros Hup; [by apply gives_ret|]. apply negb_false_iff in Hup.
  destruct (first_due now q1) as [[t id]|] eqn:Ef; [|by apply gives_ret]. apply first_due_spec in Ef as ((a & Ha & Hd) & Hle & Hleast).
  rewrite Ha. cbn [unwrap]. apply gives_known. destruct (known (a_question a) now (q_cache q1)) as [rs c] eqn:Ek.
  assert (rs = fst (known (a_question a) now (q_cache q1))) as Ers by (by rewrite Ek).
  assert (c = snd (known (a_question a) now (q_cache q1))) as Ec by (by rewrite Ek).
  apply gives_step. assert (querier_wf (set_cache c q1)) as H2.
  { apply querier_cache; [done| |by rewrite Ec]. rewrite Ec. eapply neutral_sound; [apply mark_used_neutral, H1|apply H1]. }
  destruct (tw_each _ (proj1 H1) _ _ Ha) as (Hqw & _). pose proof (known_wf (a_question a) now _ (proj1 (proj2 H1))) as Hk. rewrite <-Ers in Hk.
  pose proof (batch_safe rs (add_question (outgoing a) (message_new 0 0)) [] (answers_only_new _ (outgoing_wf a Hqw)) Hk) as Hs.
  destruct (batch_loop rs _ []) as [ms|e|] eqn:Eb; [|by apply gives_throw|by destruct Hs]. apply gives_known, gives_step, gives_ret.
  split; [by apply querier_alter; [|intros b Hb]|]. intros b [= <-]. split.
  - split; [done|]. apply batch_spec in Eb as (front & final & -> & Q & A & P & _); [|split; [done|]; by intros []].
    exists a, t, front, final. cbn in Q, A. split_and!; try done; [by rewrite A|]. rewrite A, Ers. apply known_of.
  - exists (set_offered true a). split; [|done]. cbn. by rewrite lookup_alter_eq, Ha.
Qed.
Lemma poll_run now q (r : R) : querier_wf q -> exists q1 r1, querier_wf q1 /\ (querier_expire now (q, r) = (Ok tt, (q1, r1)) /\ poll now (q, r) = poll_due now (q1, r1) \/
  exists e, poll now (q, r) = (Err e, (q1, r1))).
Proof.
  intros Hq. pose proof (querier_expire_ok now q r Hq) as He. unfold poll, gives in *. cbv [mbind M_bind].
  destruct (querier_expire now (q, r)) as [[[]|e|] [q1 r1]]; [|exists q1, r1; split; [done|right; by eexists]|done].
  exists q1, r1. split; [apply He|]. by left.
Qed.
Lemma querier_poll_ok now q (r : R) : querier_wf q -> gives querier_wf (poll now) (q, r) (fun _ => querier_wf).
Proof.
  intros Hq. destruct (poll_run now q r Hq) as (q1 & r1 & H1 & [[_ E]|[e E]]); unfold gives; rewrite E; [|done].
  pose proof (poll_due_ok now q1 r1 H1) as Hp. unfold gives in Hp. by destruct (poll_due now (q1, r1)) as [[o|e|] st]; [destruct Hp| |].
Qed.
End poll.

(** ** Histories *)

Inductive querier_event :=
| Started (question : Question) (until now : Z) | Stopped (id : Z) | Reconfirmed (question : Question) (now : Z) | Linked (up : bool) (now : Z)
| Polled (now : Z) | Sent (id : Z) (success : bool) (now : Z) | Heard (d : MdnsDatagram) (on_link : bool) (now : Z) (probe : bool)
| Outside (n : Z) | Neighbor (address : IpAddr) (mac : bytes) (now : Z).
Definition querier_event_ok (ev : querier_event) : Prop :=
  match ev with
  | Started question _ _ | Reconfirmed question _ => question_wf question
  | Heard d _ _ _ => message_wf (md_message d)
  | Outside n => 0 <= n
  | _ => True
  end.
Section history.
Context {R : Type} {RS : RandomSource R} {SR : Sampler R}.
Definition run_querier (ev : querier_event) : M (Querier * R) io_error unit :=
  match ev with
  | Started question until now => _ ← start question until now; mret tt
  | Stopped id => stop id
  | Reconfirmed question now => _ ← reconfirm question now; mret tt
  | Linked up now => available up now
  | Polled now => _ ← poll now; mret tt
  | Sent id success now => sent id success now
  | Heard d on_link now probe => _ ← receive_with_probe d on_link now probe; mret tt
  | Outside n => set_external n
  | Neighbor address mac now => remember_peer address mac now
  end.
Lemma run_querier_gives ev q (r : R) : querier_event_ok ev -> querier_wf q -> gives querier_wf (run_querier ev) (q, r) (fun _ => querier_wf).
Proof.
  intros He Hq. destruct ev as [question until now|id|question now|up now|now|id success now|d on_link now probe|n|address mac now]; cbn [run_querier].
  - eapply gives_bind; [by apply start_ok|]. intros id q1 r1 [H1 _]. by apply gives_ret.
  - by apply stop_ok.
  - eapply gives_bind; [by apply reconfirm_ok|]. intros id q1 r1 H1. by apply gives_ret.
  - by apply available_ok.
  - eapply gives_bind; [by apply querier_poll_ok|]. intros o q1 r1 H1. by apply gives_ret.
  - by apply sent_ok.
  - apply (gives_bind _ _ _ (fun _ => querier_wf)); [|intros taken q1 r1 H1; by apply gives_ret].
    apply (gives_larger (unless_idle now q true) _ _ _ (unless_idle now q) (fun _ => querier_wf)); [by intros q1 []|by intros taken q1 []|by apply querier_receive_ok].
  - by apply set_external_ok.
  - apply gives_update. apply rates_ok; [done|rewrite slen_alter; apply Hq|]. apply map_Forall_alter; [apply Hq|done].
Qed.
Lemma querier_default_wf : querier_wf querier_default.
Proof.
  split; [split; cbn; try done|split; [apply no_cache_sound|done]].
Qed.

(** C36. Over every history of questions, links, polls, transmissions and datagrams the querier
    does not panic; it asks at most 128 questions, each at least once an hour, and keeps at
    most 32 sources; what the questions, the sources and the other owners of the shared
    budget are charged is at most four MiB, and so is what the cache is. The sum of both is
    within four MiB unless the cache holds a single record: that one can have been taken
    beyond the budget, which [mdns_budget_overrun] shows. *)
Theorem querier_safe evs (r : R) : Forall querier_event_ok evs ->
  exists q r', run_all run_querier evs (querier_default, r) = Some (q, r') /\
    slen (q_questions q) <= 128 /\ slen (q_rates q) <= 32 /\ (forall id a, q_questions q !! id = Some a -> a_interval a <= 3600000) /\
    (exists n, owned_bytes q = Ok n) /\
    c_bytes (q_cache q) <= 4 * 1024 * 1024 /\ ((Cache.counts (q_cache q)).2 <= 4 * 1024 * 1024 \/ record_total (q_cache q) <= 1) /\
    q_external q + slen (q_questions q) * 8192 + slen (q_rates q) * 256 <= 4 * 1024 * 1024.
Proof.
  intros He. destruct (run_all_gives (I:=querier_wf) querier_event_ok run_querier evs (querier_default, r)) as ([q r'] & Hr & Hq);
    [intros ev q r0; apply run_querier_gives|done|apply querier_default_wf|].
  exists q, r'. split; [done|]. pose proof (own_budget _ (proj1 (proj2 Hq))) as Ho. destruct Hq as ([T1 T2 T3 T4 T5 T6] & [C1 C2] & K). unfold reservation, budget in T6. cbn [fst] in *. split_and!; try done; try lia; try exact Ho.
  - intros id a Ha. by apply (T2 id a).
  - unfold owned_bytes, sub_chk. cbn. pose proof (cw_bytes _ C1) as Hb. assert (0 <= c_bytes (q_cache q)) by (rewrite Hb; apply msum_nonneg; intros k s Hk; by eapply set_charge_nonneg; [apply C1|]).
    case_match; [by eexists|lia].
Qed.

(** C31. What a poll offers is the question that is due first, with every answer to it that is
    known with half of its lifetime left, and no other, over as many messages as it takes:
    each but the last says that more follow, and each fits a datagram of 1200 bytes or, with
    a single answer, of 8952. *)
Theorem poll_batch now q (r : R) b q' r' : querier_wf q -> poll now (q, r) = (Ok (Some b), (q', r')) ->
  exists q1 r1, querier_expire now (q, r) = (Ok tt, (q1, r1)) /\ offers now q1 b /\ offered q' b.
Proof.
  intros Hq. destruct (poll_run now q r Hq) as (q1 & r1 & H1 & [[He ->]|[e ->]]); [|done]. intros Hp.
  pose proof (poll_due_ok now q1 r1 H1) as Hg. unfold gives in Hg. rewrite Hp in Hg. exists q1, r1. split; [done|]. by apply Hg.
Qed.

(** How many of the datagrams were not turned away; none may panic. *)
Fixpoint taken_of (ds : list (MdnsDatagram * bool * Z)) (st : Querier * R) : option (Z * (Querier * R)) :=
  match ds with
  | [] => Some (0, st)
  | (d, on_link, now) :: ds =>
      match receive_with_probe d on_link now false st with
      | (Ok false, st) => taken_of ds st
      | (Panic, _) => None
      | (_, st) => match taken_of ds st with Some (n, st) => Some (n + 1, st) | None => None end
      end
  end.
(** The count of a second that is under way, in a second: before it begins anew, and after. *)
Definition left_in (t : Z) (q : Querier) : Z :=
  if t <=? (q_global q).1 then 128 - (q_global q).2 else 256 - (q_global q).2.
Lemma counted_left t now q q' b : t <= now < t + 1000 -> 0 <= t -> querier_wf q -> counted now (q_global q) (q_global q') b ->
  querier_wf q' -> left_in t q' + Z.of_nat (Nat.b2n b) <= left_in t q.
Proof.
  intros Hn Ht Hq Hc Hq'. unfold counted in Hc. unfold left_in. pose proof (tw_global _ (proj1 Hq)). pose proof (tw_global _ (proj1 Hq')). unfold sat_sub in Hc.
  destruct (Z.leb_spec 1000 (Z.max (now - (q_global q).1) 0)); destruct (Z.leb_spec t (q_global q).1); destruct (Z.leb_spec t (q_global q').1); lia.
Qed.

(** C25. In any second, whatever the sources, at most 256 datagrams are not turned away: 128
    of the count under way when it begins, and 128 of the next. The second has datagrams only:
    a link that goes or comes within it starts the count anew. *)
Theorem admission_bounded t ds q (r : R) : querier_wf q -> 0 <= t ->
  Forall (fun d => t <= d.2 < t + 1000 /\ message_wf (md_message d.1.1)) ds ->
  exists n q' r', taken_of ds (q, r) = Some (n, (q', r')) /\ n <= 256 /\ querier_wf q'.
Proof.
  intros Hq Ht Hds. enough (exists n q' r', taken_of ds (q, r) = Some (n, (q', r')) /\ n + left_in t q' <= left_in t q /\ querier_wf q') as (n & q' & r' & E & Hn & Hq').
  { exists n, q', r'. split; [done|]. split; [|done]. unfold left_in in Hn. pose proof (tw_global _ (proj1 Hq)). pose proof (tw_global _ (proj1 Hq')).
    destruct (_ <=? _), (_ <=? _); lia. }
  revert q r Hq. induction Hds as [|[[d on_link] now] ds [Hn Hm] _ IH]; intros q r Hq; cbn [taken_of]; [exists 0, q, r; split; [done|split; [lia|done]]|].
  cbn [fst snd] in *. pose proof (querier_receive_ok d on_link now false q r Hq Hm) as Hg. unfold gives in Hg.
  assert (forall b q1, unless_idle now q b q1 -> left_in t q1 + Z.of_nat (Nat.b2n b) <= left_in t q) as Hleft.
  { intros b q1 [H1 [Hc|[-> E]]]; [by eapply counted_left|]. unfold left_in. rewrite E. cbn. lia. }
  destruct (receive_with_probe d on_link now false (q, r)) as [[b|e|] [q1 r1]]; [| |done]; cbn [fst] in Hg; pose proof (Hleft _ _ Hg) as Hl; destruct Hg as [H1 _].
  - destruct (IH q1 r1 H1) as (n & q2 & r2 & E & Hle & H2). destruct b; rewrite E; eexists _, q2, r2; (split; [done|]; split; [cbn in Hl; lia|done]).
  - destruct (IH q1 r1 H1) as (n & q2 & r2 & E & Hle & H2). rewrite E. eexists _, q2, r2. split; [done|]. split; [cbn in Hl; lia|done].
Qed.
End history.

(** ** A question, an answer and a poll *)

Definition shared_record : Rr := mkRr host 1 1 120 (RdA [192; 168; 1; 2]).
Definition shared_message : Message := mkMessage 0 0x8400 [] [shared_record] [] [] [] [].
Definition shared_datagram : MdnsDatagram := mkMdns (mkSocket (V4 0xc0a80102) 5353) (mkSocket (multicast false) 5353) shared_message.
Definition host_question : Question := mkQuestion host 1 1.
Definition question_history : list querier_event := [Started host_question 100000 0; Heard shared_datagram true 50 false].
Definition source_of_zeros : ScriptedRandom := {| values := [0; 0; 0] |}.
Lemma shared_message_wf : message_wf shared_message.
Proof.
  split; [vm_compute; split; congruence|vm_compute; split; congruence|constructor|]. apply List.Forall_cons; [|constructor].
  refine (conj host_wf _). split; [vm_compute; split; congruence|]. split; [vm_compute; split; congruence|]. split; [vm_compute; split; congruence|].
  cbn. split; [done|]. by split; [apply bytes_check|].
Qed.
Lemma host_question_wf : question_wf host_question.
Proof. split; [exact host_wf|]. split; vm_compute; split; congruence. Qed.
Lemma question_history_ok : Forall querier_event_ok question_history.
Proof. apply List.Forall_cons; [exact host_question_wf|]. apply List.Forall_cons; [exact shared_message_wf|constructor]. Qed.
Lemma querier_safe_witness : exists q r', run_all run_querier question_history (querier_default, source_of_zeros) = Some (q, r') /\
  slen (q_questions q) <= 128 /\ slen (q_rates q) <= 32.
Proof.
  destruct (querier_safe question_history source_of_zeros question_history_ok) as (q & r' & Hr & Hq & Hs & _).
  exists q, r'. split; [exact Hr|]. split; [exact Hq|exact Hs].
Defined.
Definition asking : option (Querier * ScriptedRandom) := run_all run_querier question_history (querier_default, source_of_zeros).
Lemma asking_wf st : asking = Some st -> querier_wf st.1.
Proof.
  intros Hs. destruct (run_all_gives (I:=querier_wf) querier_event_ok run_querier question_history (querier_default, source_of_zeros)) as (st' & Hr & Hq);
    [intros ev q r0; apply run_querier_gives|apply question_history_ok|apply querier_default_wf|]. unfold asking in Hs. congruence.
Qed.
(** The batch has the question, with the bit for a unicast answer, and the answer known. *)
Definition polled : option (Querier * ScriptedRandom * Batch * Querier * ScriptedRandom) :=
  match asking with
  | Some (q, r) => match poll 1000 (q, r) with (Ok (Some b), (q', r')) => Some (q, r, b, q', r') | _ => None end
  | None => None
  end.
Lemma polled_spec q r b q' r' : polled = Some (q, r, b, q', r') -> querier_wf q /\ poll 1000 (q, r) = (Ok (Some b), (q', r')).
Proof.
  unfold polled. destruct asking as [[q0 r0]|] eqn:E; [|done]. apply asking_wf in E. destruct (poll 1000 (q0, r0)) as [[[b0|]|e|] [q1 r1]] eqn:Ep; [|done..].
  by intros [= <- <- <- <- <-].
Qed.
Lemma poll_batch_witness : exists q r b q' r', polled = Some (q, r, b, q', r') /\
  b_messages b = [mkMessage 0 0 [mkQuestion host 1 0x8001] [set_ttl 119 shared_record] [] [] [] []] /\ offered q' b.
Proof.
  assert (is_Some polled) as [[[[[q r] b] q'] r'] Hp] by (vm_compute; by eexists). destruct (polled_spec q r b q' r' Hp) as [Hq He].
  destruct (poll_batch 1000 q r b q' r' Hq He) as (q1 & r1 & _ & _ & Ho). exists q, r, b, q', r'. split; [exact Hp|]. split; [|exact Ho].
  assert (match polled with Some (_, _, b, _, _) => b_messages b | None => [] end = [mkMessage 0 0 [mkQuestion host 1 0x8001] [set_ttl 119 shared_record] [] [] [] []]) as E
    by (vm_compute; reflexivity).
  rewrite Hp in E. exact E.
Defined.
Lemma admission_bounded_witness : exists n q' r', taken_of [(shared_datagram, true, 50); (shared_datagram, true, 60)] (querier_default, source_of_zeros) = Some (n, (q', r')) /\ n <= 256.
Proof.
  destruct (admission_bounded 0 [(shared_datagram, true, 50); (shared_datagram, true, 60)] querier_default source_of_zeros) as (n & q' & r' & E & Hn & _).
  - apply querier_default_wf.
  - lia.
  - apply List.Forall_cons; [split; [cbn; lia|exact shared_message_wf]|]. apply List.Forall_cons; [split; [cbn; lia|exact shared_message_wf]|constructor].
  - exists n, q', r'. split; [exact E|exact Hn].
Defined.
