(* ===== verification/SrpWire.v ===== *)
(** Updates of the service registration protocol ([src/src/srp/wire.rs]): public keys, the
    instructions of an update and their authentication.

    The signature schemes and SHA-256 are the class [Crypto]. *)

From S2P Require Import Prelude Effects Maps Ordered DnsWire Names Text.

Inductive Error := Format | ServFail | Refused | YxDomain | NotAuth | NotZone.
#[global] Instance Error_eq_dec : EqDecision Error.
Proof. solve_decision. Defined.

(** A signature scheme: which bytes are a public key and a signature, and verification of a
    message and a signature under a key. *)
Record Curve := mkCurve { cv_key : bytes -> bool; cv_signature : bytes -> bool; cv_verify : bytes -> bytes -> bytes -> bool }.
Class Crypto := { p256 : Curve; p384 : Curve; ed25519 : Curve; ed448 : Curve; ed25519_weak : bytes -> bool; sha256 : bytes -> bytes }.

Record Key := mkKey { k_flags : Z; k_protocol : Z; k_algorithm : Z; k_bytes : bytes }.
#[global] Instance Key_eq_dec : EqDecision Key.
Proof. solve_decision. Defined.
Definition same_public_key (a b : Key) : bool := (k_algorithm a =? k_algorithm b) && beq (k_bytes a) (k_bytes b).
Definition key_rdata (k : Key) : Rdata := RdKey (k_flags k) (k_protocol k) (k_algorithm k) (k_bytes k).
Definition tag (k : Key) : Z :=
  let data := be16 (k_flags k) ++ [k_protocol k; k_algorithm k] ++ k_bytes k in
  let sum := total (map (fun '(i, x) => Z.shiftl x (if i mod 2 =? 0 then 8 else 0)) (enumerate data)) in
  (sum + Z.shiftr sum 16) mod 65536.
(** The length of a key of an algorithm. *)
Definition key_len (algorithm : Z) : option Z :=
  if algorithm =? 13 then Some 64 else if algorithm =? 14 then Some 96 else if algorithm =? 15 then Some 32 else if algorithm =? 16 then Some 57 else None.
Definition from_record (r : Rr) : outcome Error Key :=
  match r_data r with
  | RdKey flags protocol algorithm key =>
      n ← ok_or (key_len algorithm) Refused;
      reject_if negb (protocol =? 3) || negb (len key =? n) with Refused;
      Ok (mkKey flags protocol algorithm key)
  | _ => Err Refused
  end.

Section crypto.
Context `{Crypto}.
Definition valid_public (k : Key) : bool :=
  let b := k_bytes k in
  if k_algorithm k =? 13 then (len b =? 64) && cv_key p256 ([4] ++ b)
  else if k_algorithm k =? 14 then (len b =? 96) && cv_key p384 ([4] ++ b)
  else if k_algorithm k =? 15 then (len b =? 32) && cv_key ed25519 b && negb (ed25519_weak b)
  else if k_algorithm k =? 16 then (len b =? 57) && cv_key ed448 b
  else false.
Definition curve_verify (c : Curve) (key message signature : bytes) : bool :=
  cv_key c key && cv_signature c signature && cv_verify c key message signature.
Definition key_verify (k : Key) (message signature : bytes) : outcome Error unit :=
  let b := k_bytes k in
  let result :=
    if k_algorithm k =? 13 then curve_verify p256 ([4] ++ b) message signature
    else if k_algorithm k =? 14 then curve_verify p384 ([4] ++ b) message signature
    else if k_algorithm k =? 15 then (len b =? 32) && curve_verify ed25519 b message signature
    else if k_algorithm k =? 16 then (len b =? 57) && curve_verify ed448 b message signature
    else false in
  if result then Ok tt else Err Refused.
Definition fingerprint (b : bytes) : bytes := sha256 b.
End crypto.

Record ServiceUpdate := mkServiceUpdate { su_name : Name; su_records : list Rr; su_discovery : list Rr; su_deleted : bool }.
Record Update := mkUpdate {
  u_digest : bytes; u_id : Z; u_zone : Name; u_host : Name; u_key : Key; u_addresses : list Rr;
  u_services : list ServiceUpdate; u_lease : Z; u_key_lease : Z; u_extended_lease : bool;
}.
(** [CryptoBudget::default] *)
Definition crypto_budget : Z := 8.
(** [Validator]: its zones. *)
Definition validator_new (zones : list Name) : outcome Error (list Name) :=
  reject_if (8 <? len zones) || existsb (fun n => bool_decide (labels n = [])) zones with Refused;
  Ok zones.

Definition instructions (rrs : list Rr) : outcome Error (list Rr) :=
  match rrs with
  | [] => Err Refused
  | first :: rest =>
      reject_if negb (r_kind first =? 255) || negb (r_class first =? 255) || negb (r_ttl first =? 0) || negb (rdata_eq (r_data first) RdEmpty) with Refused;
      reject_if existsb (fun r => negb (r_class r =? 1) || negb (mem (r_kind r) [1; 16; 25; 28; 33])) rest with Refused;
      Ok rest
  end.
(** [a.eq_ignore_ascii_case(b)] *)
Definition eq_ignore_case (a b : bytes) : bool := beq (map to_ascii_lowercase a) (map to_ascii_lowercase b).
Fixpoint zip_all {A} (f : A -> A -> bool) (a b : list A) : bool :=
  match a, b with x :: a, y :: b => f x y && zip_all f a b | _, _ => true end.
Definition within (name zone : Name) : bool :=
  (len (labels zone) <=? len (labels name)) && zip_all eq_ignore_case (rev (labels name)) (rev (labels zone)).
Definition discovery_owner (owner target zone : Name) : outcome Error bool :=
  if negb (within target zone) || negb (len (labels target) =? len (labels zone) + 3) then Ok false else
  base ← unwrap (match from_labels (drop 1 (labels target)) with Ok n => Some n | _ => None end);
  if name_eq owner base then Ok true else
  if negb (len (labels owner) =? len (labels base) + 2) then Ok false else
  l ← unwrap (labels owner !! 1%nat);
  Ok (eq_ignore_case l (ascii "_sub")
      && match from_labels (drop 2 (labels owner)) with Ok n => name_eq n base | _ => false end).

(** ** Sorting the records of an update *)

Record Collected := mkCollected { co_ttls : gmap (bytes * Z) Z; co_groups : gmap bytes (Name * list Rr); co_discovery : list Rr }.
Fixpoint collect (zone : Name) (rs : list Rr) (c : Collected) : outcome Error Collected :=
  match rs with
  | [] => Ok c
  | r :: rs =>
      let n := canonical (r_name r) in
      let id := (n, r_kind r) in
      reject_if (r_class r =? 1) && match co_ttls c !! id with Some old => negb (old =? r_ttl r) | None => false end with Refused;
      let ttls := if r_class r =? 1 then <[id := r_ttl r]> (co_ttls c) else co_ttls c in
      reject_if negb (within (r_name r) zone) with NotZone;
      if r_kind r =? 12 then
        reject_if negb (mem (r_class r) [1; 254]) || ((r_class r =? 254) && negb (r_ttl r =? 0)) with Refused;
        collect zone rs (mkCollected ttls (co_groups c) (co_discovery c ++ [r]))
      else
        reject_if negb (has_key (co_groups c) n) && (9 <=? slen (co_groups c)) with ServFail;
        let group := match co_groups c !! n with Some (k, l) => (k, l ++ [r]) | None => (r_name r, [r]) end in
        collect zone rs (mkCollected ttls (<[n := group]> (co_groups c)) (co_discovery c))
  end.
(** The addresses among the records added to the host. *)
Fixpoint host_addresses (lease : Z) (adds : list Rr) : outcome Error (list Rr) :=
  match adds with
  | [] => Ok []
  | r :: adds =>
      if r_kind r =? 25 then host_addresses lease adds else
      reject_if negb (mem (r_kind r) [1; 28]) || (lease =? 0) with Refused;
      l ← host_addresses lease adds; Ok (r :: l)
  end.
Definition host_key (lease : Z) (adds : list Rr) (found : option Key) : outcome Error Key :=
  let keys := List.filter (fun r => r_kind r =? 25) adds in
  reject_if 1 <? len keys with Refused;
  match keys with
  | k :: _ => from_record k
  | [] => if lease =? 0 then ok_or found Refused else Err Refused
  end.
(** The records of one service: those kept, and how many are SRV, TXT and KEY. *)
Fixpoint service_records (host : Name) (key : Key) (adds : list Rr) (kept : list Rr) (srv txt keys : Z) : outcome Error (list Rr * Z * Z) :=
  match adds with
  | [] => Ok (kept, srv, txt)
  | r :: adds =>
      match r_data r with
      | RdKey _ _ _ _ =>
          reject_if negb (r_kind r =? 25) with Refused;
          reject_if 1 <? keys + 1 with Refused;
          k ← from_record r;
          reject_if bool_decide (k <> key) with Refused;
          service_records host key adds kept srv txt (keys + 1)
      | RdSrv _ _ _ target =>
          reject_if negb (r_kind r =? 33) with Refused;
          reject_if negb (name_eq target host) with Refused;
          service_records host key adds (kept ++ [r]) (srv + 1) txt keys
      | RdTxt _ =>
          reject_if negb (r_kind r =? 16) with Refused;
          service_records host key adds (kept ++ [r]) srv (txt + 1) keys
      | _ => Err Refused
      end
  end.
Definition service_update (host : Name) (key : Key) (lease : Z) (group : Name * list Rr) : outcome Error ServiceUpdate :=
  adds ← instructions group.2;
  '(records, srv, txt) ← service_records host key adds [] 0 0 0;
  reject_if (1 <? srv) || ((srv =? 0) && negb (txt =? 0)) || ((srv =? 1) && (txt =? 0)) || ((lease =? 0) && negb (srv =? 0)) with Refused;
  Ok (mkServiceUpdate group.1 records [] (srv =? 0)).
Fixpoint map_ok {E A B} (f : A -> outcome E B) (l : list A) : outcome E (list B) :=
  match l with [] => Ok [] | x :: l => y ← f x; r ← map_ok f l; Ok (y :: r) end.

(** [services.iter_mut().find(|s| s.name == *target)], with the push to its pointers. *)
Definition push_discovery (r : Rr) (s : ServiceUpdate) : ServiceUpdate :=
  mkServiceUpdate (su_name s) (su_records s) (su_discovery s ++ [r]) (su_deleted s).
Fixpoint update_first {A} (p : A -> bool) (f : A -> A) (l : list A) : list A :=
  match l with [] => [] | x :: l => if p x then f x :: l else x :: update_first p f l end.
Fixpoint attach_discovery (zone : Name) (discovery : list Rr) (services : list ServiceUpdate) : outcome Error (list ServiceUpdate) :=
  match discovery with
  | [] => Ok services
  | r :: later =>
      match r_data r with
      | RdName target =>
          s ← ok_or (List.find (fun s => name_eq (su_name s) target) services) Refused;
          let replacement := existsb (fun n => (r_class n =? 1) && name_eq (r_name n) (r_name r) && rdata_eq (r_data n) (r_data r)) later in
          reject_if ((r_class r =? 1) && su_deleted s) || ((r_class r =? 254) && negb (su_deleted s) && negb replacement) with Refused;
          owner ← discovery_owner (r_name r) target zone;
          reject_if negb owner with Refused;
          attach_discovery zone later
            (if r_class r =? 1 then update_first (fun s => name_eq (su_name s) target) (push_discovery r) services else services)
      | _ => Err Refused
      end
  end.

(** ** [Validator::verify] *)

(** The names an update touches. *)
Definition touched (u_host : Name) (services : list ServiceUpdate) : list Name := u_host :: map su_name services.
Definition default_zone : outcome Error Name := unwrap (match name_from_str (ascii "default.service.arpa.") with Ok n => Some n | _ => None end).
(** The lease option: both leases, and whether both were given. *)
Definition leases (options : list (Z * bytes)) : outcome Error (Z * Z * bool) :=
  match List.filter (fun o => o.1 =? 2) options with
  | [(_, data)] =>
      reject_if negb (mem (len data) [4; 8]) with Refused;
      first ← slice data 0 4;
      second ← (if len data =? 8 then s ← slice_from data 4; Ok (of_be s) else Ok (of_be first));
      reject_if second <? of_be first with Refused;
      Ok (of_be first, second, len data =? 8)
  | _ => Err Refused
  end.
(** The signature covers the moment: the pair of zeros is for clients without a clock. *)
Definition in_bracket (now inception expiration : Z) : bool :=
  ((inception =? 0) && (expiration =? 0))
  || (((expiration - inception) mod 2 ^ 32 <? 2 ^ 31)
      && ((now mod 2 ^ 32 - inception) mod 2 ^ 32 <=? (expiration - inception) mod 2 ^ 32)).
(** What is signed: the signature's own fields, the signer and the message before it. *)
Definition signed_bytes (b : bytes) (m : Message) (host : Name) : outcome Error bytes :=
  span ← ok_or (list.last (m_spans m)) Refused;
  fields ← slice b (sp_rdata span).1 ((sp_rdata span).1 + 18);
  before ← slice b 0 (sp_wire span).1;
  n ← sub_chk (len (m_additional m) mod 65536) 1;
  let signed := fields ++ canonical host ++ before in
  copy_at signed (18 + len (canonical host) + 10) (be16 n).

Section verify.
Context `{Crypto} (zones : list Name).
Definition verify_body (b : bytes) (now : Z) (lookup : Name -> option Key) (m : Message) (zone : Name) : M Z Error Update := 
  match m_additional m with
  | [opt; sig] =>
      if negb (r_kind opt =? 41) || negb (bool_decide (labels (r_name opt) = [])) || negb (r_ttl opt =? 0) then throw Refused else
      match r_data opt, r_data sig with
      | RdOpt options, sig_data =>
          '(lease, key_lease, extended) ← lift (leases options);
          match sig_data with
          | RdSig covered algorithm labels_ _ expiration inception key_tag host signature =>
              if negb (covered =? 0) || negb (labels_ =? 0) then throw Refused else
              if negb (r_kind sig =? 24) || negb (within host zone) || name_eq host zone then throw Refused else
              c ← lift (collect zone (m_authority m) (mkCollected ∅ ∅ []));
              '(_, host_rrs) ← lift (ok_or (co_groups c !! canonical host) Refused);
              host_adds ← lift (instructions host_rrs);
              key ← lift (host_key lease host_adds (lookup host));
              addresses ← lift (host_addresses lease host_adds);
              if negb (lease =? 0) && bool_decide (addresses = []) then throw Refused else
              services ← lift (map_ok (service_update host key lease) (sorted_values (delete (canonical host) (co_groups c))));
              services ← lift (attach_discovery zone (co_discovery c) services);
              if existsb (fun n => match lookup n with Some old => negb (same_public_key old key) | None => false end) (touched host services)
              then throw YxDomain else
              if negb (algorithm =? k_algorithm key) || negb (key_tag =? tag key) then throw Refused else
              if negb (in_bracket now inception expiration) then throw Refused else
              budget ← get;
              if budget =? 0 then throw ServFail else
              modify (fun n => n - 1) ;;
              signed ← lift (signed_bytes b m host);
              lift (key_verify key signed signature) ;;
              mret (mkUpdate (fingerprint b) (m_id m) zone host key addresses services lease key_lease extended)
          | _ => throw Refused
          end
      | _, _ => throw Refused
      end
  | _ => throw Refused
  end.
Definition validator_verify (b : bytes) (now : Z) (lookup : Name -> option Key) : M Z Error Update :=
  authority ← (if 10 <=? len b then lift (hi ← b.[8]; lo ← b.[9]; Ok (u16be hi lo)) else mret 0);
  if 256 <? authority then throw ServFail else
  m ← lift (map_err (fun _ => Format) (parse b Unicast));
  match m_questions m with
  | [q] =>
      if negb (m_flags m =? 0x2800) || negb (q_kind q =? 6) || negb (q_class q =? 1) then throw Format else
      other ← (if existsb (fun z => name_eq z (q_name q)) zones then mret false else d ← lift default_zone; mret (negb (name_eq (q_name q) d)));
      if (other : bool) then throw NotAuth else
      if negb (bool_decide (m_answers m = [])) || negb (len (m_additional m) =? 2) || bool_decide (m_authority m = []) then throw Refused else
      verify_body b now lookup m (q_name q)
  | _ => throw Format
  end.
End verify.
