(* ===== verification/Srp.v ===== *)
(** The registry of the service registration protocol ([src/src/srp/registry.rs] and its
    journal, [src/src/srp/registry/journal.rs]): hosts and services with their leases, the
    replies to repeated updates, and the bytes they are saved as.

    Maps are keyed by the canonical bytes of a name and keep the name that was inserted
    first, as [BTreeMap] does.  SHA-1 is a parameter of the journal. *)

From S2P Require Import Prelude Effects Maps Ordered Stateful DnsWire Names Text Identity SrpWire.

Record LeasePolicy := mkPolicy { max_lease : Z; max_key_lease : Z; min_ttl : Z; max_ttl : Z }.
Definition default_policy : LeasePolicy := mkPolicy 7200 1209600 30 4500.
Definition policy_validate (p : LeasePolicy) : outcome io_error LeasePolicy :=
  reject_if (max_lease p =? 0) || (max_key_lease p <? max_lease p) || (min_ttl p =? 0) || (max_ttl p <? min_ttl p) || (2 ^ 31 - 1 <? max_ttl p)
    with InvalidInput;
  Ok p.
Definition MAX_BYTES : Z := 4 * 1024 * 1024.
Record Host := mkHost { h_key : Key; h_addresses : list Rr; h_expires : Z; h_key_expires : Z; h_received : Z }.
Record Service := mkService {
  sv_host : Name; sv_key : Key; sv_records : list Rr; sv_discovery : list Rr; sv_expires : Z; sv_key_expires : Z; sv_received : Z;
}.
Record Grant := mkGrant { g_lease : Z; g_key_lease : Z }.
Record Receipt := mkReceipt { rc_grant : Grant; rc_received : Z; rc_expires : Z }.
Record Registry := mkRegistry {
  hosts : gmap bytes (Name * Host); services : gmap bytes (Name * Service); replies : gmap bytes Receipt; policy : LeasePolicy;
}.
Definition registry_default : Registry := mkRegistry ∅ ∅ ∅ default_policy.
Definition put_hosts m r := mkRegistry m (services r) (replies r) (policy r).
Definition put_services m r := mkRegistry (hosts r) m (replies r) (policy r).
Definition put_replies m r := mkRegistry (hosts r) (services r) m (policy r).
Definition put_policy p r := mkRegistry (hosts r) (services r) (replies r) p.
Definition set_policy (p : LeasePolicy) (r : Registry) : outcome io_error Registry := p ← policy_validate p; Ok (put_policy p r).
(** [BTreeMap::insert], which keeps the key it has. *)
Definition insert_named {A} (n : Name) (v : A) (m : gmap bytes (Name * A)) : gmap bytes (Name * A) :=
  <[canonical n := (match m !! canonical n with Some (old, _) => old | None => n end, v)]> m.
Definition get_named {A} (n : Name) (m : gmap bytes (Name * A)) : option A := snd <$> m !! canonical n.

(** [x.clamp(lo, hi)], which asserts [lo <= hi]. *)
Definition clamp {E} (lo hi x : Z) : outcome E Z := if hi <? lo then Panic else Ok (Z.min (Z.max x lo) hi).

(** ** Replies *)

Definition grant_response (g : Grant) (request : Message) : outcome io_error bytes :=
  let length_ := head (omap (fun r => match r_data r with RdOpt v => (fun o => len o.2) <$> List.find (fun o => o.1 =? 2) v | _ => None end) (m_additional request)) in
  let wide := bool_decide (length_ = Some 8) in
  reject_if negb (wide || bool_decide (length_ = Some 4)) || negb (len (m_questions request) =? 1) with InvalidData;
  let data := be32 (g_lease g) ++ (if wide then be32 (g_key_lease g) else []) in
  encode (mkMessage (m_id request) 0xa800 (m_questions request) [] [] [mkRr root 41 4096 0 (RdOpt [(2, data)])] [] []).
(** Whole seconds since a moment, as [u32]. *)
Definition elapsed_seconds (now received : Z) : Z := Z.min (Z.max (now - received) 0 / 1000) u32_max.
Definition cached_digest (digest : bytes) (now : Z) (r : Registry) : option Grant :=
  match replies r !! digest with
  | Some c =>
      if now <? rc_expires c then
        let e := elapsed_seconds now (rc_received c) in
        Some (mkGrant (sat_sub (g_lease (rc_grant c)) e) (sat_sub (g_key_lease (rc_grant c)) e))
      else None
  | None => None
  end.
Definition cached `{Crypto} (b : bytes) (now : Z) (r : Registry) : option Grant :=
  if 65535 <? len b then None else cached_digest (fingerprint b) now r.
Definition replay_count (r : Registry) : Z := slen (replies r).

(** ** Lookups *)

Definition key_of_host (now : Z) (o : option Host) : option Key :=
  match o with Some h => if now <? h_key_expires h then Some (h_key h) else None | None => None end.
Definition key_of_service (now : Z) (o : option Service) : option Key :=
  match o with Some s => if now <? sv_key_expires s then Some (sv_key s) else None | None => None end.
Definition registry_key (name : Name) (now : Z) (r : Registry) : option Key :=
  match key_of_host now (get_named name (hosts r)) with
  | Some k => Some k
  | None => key_of_service now (get_named name (services r))
  end.
Definition host_live (now : Z) (key : Key) (o : option Host) : bool :=
  match o with Some h => (now <? h_expires h) && same_public_key (h_key h) key | None => false end.
Definition service_live (s : Service) (now : Z) (r : Registry) : bool :=
  (now <? sv_expires s) && host_live now (sv_key s) (get_named (sv_host s) (hosts r)).
Definition key_ttl (expires received : Z) (r : Registry) : outcome io_error Z :=
  t ← clamp (min_ttl (policy r)) (max_ttl (policy r)) 120;
  Ok (Z.min t (elapsed_seconds expires received)).
Definition key_record (name : Name) (k : Key) (ttl : Z) : Rr := mkRr name 25 1 ttl (key_rdata k).
(** [a.dedup_by(same)]: an element that is the same as the last one kept goes. *)
Fixpoint dedup_from {A} (same : A -> A -> bool) (kept : A) (l : list A) : list A :=
  match l with
  | [] => []
  | x :: l => if same x kept then dedup_from same kept l else x :: dedup_from same x l
  end.
Definition dedup_by {A} (same : A -> A -> bool) (l : list A) : list A := match l with [] => [] | x :: l => x :: dedup_from same x l end.
Definition of_kind (kind k : Z) : bool := (kind =? 255) || (kind =? k).
Definition host_records (name : Name) (kind now : Z) (r : Registry) : outcome io_error (list Rr) :=
  match get_named name (hosts r) with
  | None => Ok []
  | Some h =>
      keys ← (if (now <? h_key_expires h) && ((kind =? 25) || (kind =? 255))
              then t ← key_ttl (h_key_expires h) (h_received h) r; Ok [key_record name (h_key h) t] else Ok []);
      Ok (keys ++ (if now <? h_expires h then List.filter (fun a => of_kind kind (r_kind a)) (h_addresses h) else []))
  end.
Definition service_records_of (name : Name) (kind now : Z) (r : Registry) (e : Name * Service) : outcome io_error (list Rr) :=
  let '(owner, s) := e in
  keys ← (if name_eq owner name && (now <? sv_key_expires s) && ((kind =? 25) || (kind =? 255))
          then t ← key_ttl (sv_key_expires s) (sv_received s) r; Ok [key_record owner (sv_key s) t] else Ok []);
  Ok (keys ++ (if service_live s now r
               then List.filter (fun a => name_eq (r_name a) name && of_kind kind (r_kind a)) (sv_records s ++ sv_discovery s) else [])).
Definition least_ttls (l : list Rr) : gmap Z Z :=
  foldl (fun m r => <[r_kind r := Z.min (default (r_ttl r) (m !! r_kind r)) (r_ttl r)]> m) ∅ l.
Definition same_record (a b : Rr) : bool := name_eq (r_name a) (r_name b) && (r_kind a =? r_kind b) && rdata_eq (r_data a) (r_data b).
Definition registry_records (name : Name) (kind now : Z) (r : Registry) : outcome io_error (list Rr) :=
  own ← host_records name kind now r;
  of_services ← map_ok (service_records_of name kind now r) (sorted_values (services r));
  let out := own ++ concat of_services in
  let ttls := least_ttls out in
  out ← map_ok (fun a => t ← unwrap (ttls !! r_kind a); Ok (set_ttl t a)) out;
  Ok (dedup_by same_record out).

(** ** Time *)

Definition deadlines (r : Registry) : list Z :=
  concat (map (fun e => [h_expires e.2; h_key_expires e.2]) (sorted_values (hosts r))) ++
  concat (map (fun e => [sv_expires e.2; sv_key_expires e.2]) (sorted_values (services r))).
Definition registry_next_deadline (r : Registry) : option Z := min_by Z.ltb (List.filter (fun t => negb (t =? 0)) (deadlines r)).
Definition rest_host (now : Z) (h : Host) : Host :=
  if h_expires h <=? now then mkHost (h_key h) [] 0 (h_key_expires h) (h_received h) else h.
Definition silence_service (s : Service) : Service := mkService (sv_host s) (sv_key s) [] [] 0 (sv_key_expires s) (sv_received s).
Definition rest_service (now : Z) (hs : gmap bytes (Name * Host)) (s : Service) : Service :=
  if (sv_expires s <=? now) || negb (host_live now (sv_key s) (get_named (sv_host s) hs)) then silence_service s else s.
Definition expire (now : Z) (r : Registry) : Registry :=
  let hs := (fun e => (e.1, rest_host now e.2)) <$> filter (fun ke => now < h_key_expires ke.2.2) (hosts r) in
  let ss := (fun e => (e.1, rest_service now hs e.2)) <$> filter (fun ke => now < sv_key_expires ke.2.2) (services r) in
  mkRegistry hs ss (filter (fun kc => now < rc_expires kc.2) (replies r)) (policy r).

(** ** Charges and limits *)

Definition name_charge (n : Name) : Z := 64 + 4 * len (canonical n) + 48 * len (labels n).
Definition data_charge (d : Rdata) : Z :=
  match d with
  | RdName n => name_charge n
  | RdSrv _ _ _ target => name_charge target
  | RdTxt v => total (map (fun s => 48 + len s * 2) v)
  | RdKey _ _ _ key => len key * 2
  | _ => 32
  end.
Definition records_charge (rs : list Rr) : Z := total (map (fun r => 128 + name_charge (r_name r) + data_charge (r_data r)) rs).
Definition host_charge (e : Name * Host) : Z := 384 + name_charge e.1 + len (k_bytes (h_key e.2)) + records_charge (h_addresses e.2).
Definition service_charge (e : Name * Service) : Z :=
  384 + name_charge e.1 + name_charge (sv_host e.2) + len (k_bytes (sv_key e.2)) + records_charge (sv_records e.2) + records_charge (sv_discovery e.2).
Definition charge (r : Registry) : Z :=
  (msum (fun _ => host_charge) (hosts r) + msum (fun _ => service_charge) (services r) + 192 * slen (replies r)) * 3.
(** The hosts that exist or that a service names. *)
Definition parents (r : Registry) : gset bytes :=
  dom (hosts r) ∪ list_to_set (map (fun e => canonical (sv_host e.2)) (sorted_values (services r))).
Definition registry_counts (r : Registry) : Z * Z * Z := (Z.of_nat (size (parents r)), slen (services r), charge r).
Fixpoint check_per_host (l : list Service) (per_host : gmap bytes Z) : outcome Error unit :=
  match l with
  | [] => Ok tt
  | s :: l =>
      let n := canonical (sv_host s) in
      let count := default 0 (per_host !! n) + 1 in
      reject_if 8 <? count with ServFail;
      check_per_host l (<[n := count]> per_host)
  end.
Definition check_bounds (r : Registry) : outcome Error unit :=
  let '(hosts_, services_, bytes_) := registry_counts r in
  reject_if (128 <? hosts_) || (1024 <? services_) || (128 <? slen (replies r)) || (MAX_BYTES <? bytes_) with ServFail;
  check_per_host (map snd (sorted_values (services r))) ∅.

(** ** The journal *)

Definition journal_magic : bytes := ascii "SNAC-SRP-2" ++ [0].
Definition put_name (n : Name) : bytes := be16 (len (canonical n) mod 65536) ++ canonical n.
Definition put_key (k : Key) : bytes :=
  be16 (k_flags k) ++ [k_protocol k; k_algorithm k] ++ be16 (len (k_bytes k) mod 65536) ++ k_bytes k.
Fixpoint put_each (b : bytes) (rs : list Rr) : outcome io_error bytes :=
  match rs with
  | [] => Ok b
  | r :: rs =>
      wire ← encode (add_answer r (message_new 0 0));
      let b := b ++ be32 (len wire mod 2 ^ 32) ++ wire in
      reject_if MAX_BYTES <? len b with InvalidData;
      put_each b rs
  end.
Definition put_records (b : bytes) (rs : list Rr) : outcome io_error bytes := put_each (b ++ be16 (len rs mod 65536)) rs.
(** Milliseconds since a moment, as [u64]. *)
Definition age (now received : Z) : Z := Z.min (Z.max (now - received) 0) u64_max.
Definition put_leases (now expires key_expires received : Z) : bytes :=
  be64 (sat_sub expires now) ++ be64 (sat_sub key_expires now) ++ be64 (age now received).
Definition put_host (now : Z) (b : bytes) (e : Name * Host) : outcome io_error bytes :=
  let '(name, h) := e in
  put_records (b ++ put_name name ++ put_key (h_key h) ++ put_leases now (h_expires h) (h_key_expires h) (h_received h)) (h_addresses h).
Definition put_service (now : Z) (b : bytes) (e : Name * Service) : outcome io_error bytes :=
  let '(name, s) := e in
  b ← put_records (b ++ put_name name ++ put_name (sv_host s) ++ put_key (sv_key s) ++ put_leases now (sv_expires s) (sv_key_expires s) (sv_received s)) (sv_records s);
  put_records b (sv_discovery s).
Definition put_reply (now : Z) (e : bytes * Receipt) : bytes :=
  let '(digest, r) := e in
  digest ++ be32 (g_lease (rc_grant r)) ++ be32 (g_key_lease (rc_grant r)) ++ be64 (sat_sub (rc_expires r) now) ++ be64 (age now (rc_received r)).
Fixpoint fold_ok {E A B} (f : B -> A -> outcome E B) (b : B) (l : list A) : outcome E B :=
  match l with [] => Ok b | x :: l => b ← f b x; fold_ok f b l end.
Definition put_header (wall : Z) (r : Registry) : bytes :=
  journal_magic ++ be64 wall ++ be16 (slen (hosts r) mod 65536) ++ be16 (slen (services r) mod 65536) ++ be16 (slen (replies r) mod 65536).
Definition journal_encode (sha1 : bytes -> bytes) (now wall : Z) (r : Registry) : outcome io_error bytes :=
  b ← fold_ok (put_host now) (put_header wall r) (sorted_values (hosts r));
  b ← fold_ok (put_service now) b (sorted_values (services r));
  let b := b ++ concat (map (put_reply now) (sorted (replies r))) in
  let b := b ++ sha1 b in
  reject_if MAX_BYTES <? len b with InvalidData;
  Ok b.

(** [Reader], over the bytes before the digest. *)
Section reader.
Context `{Crypto} (data : bytes).
Abbreviation MR := (M Z io_error).
Definition read (n : Z) : MR bytes :=
  at_ ← get;
  if negb (at_ + n <=? len data) then throw InvalidData else
  out ← lift (slice data at_ (at_ + n));
  modify (fun _ => at_ + n) ;;
  mret out.
Definition read_int (n : Z) : MR Z := b ← read n; mret (of_be b).
(** The labels of a name in canonical form, up to the end of the bytes. *)
Fixpoint read_labels (fuel : nat) (d : bytes) (at_ : Z) (ls : list bytes) : outcome io_error Name :=
  match fuel with
  | O => Panic
  | S fuel =>
      match get_range d at_ (at_ + 1) with
      | Some [n] =>
          let at_ := at_ + 1 in
          if n =? 0 then
            reject_if negb (at_ =? len d) || bool_decide (ls = []) with InvalidData;
            from_labels ls
          else
            reject_if (63 <? n) || (len d <? at_ + n) with InvalidData;
            l ← slice d at_ (at_ + n);
            read_labels fuel d (at_ + n) (ls ++ [l])
      | _ => Err InvalidData
      end
  end.
Definition read_name : MR Name :=
  n ← read_int 2;
  if 255 <? n then throw InvalidData else
  d ← read n;
  lift (read_labels (S (length d)) d 0 []).
Definition read_key : MR Key :=
  flags ← read_int 2;
  fields ← read 2;
  protocol ← lift fields.[0];
  algorithm ← lift fields.[1];
  n ← read_int 2;
  match key_len algorithm with
  | None => throw InvalidData
  | Some expected =>
      if negb (protocol =? 3) || negb (n =? expected) then throw InvalidData else
      b ← read n;
      let k := mkKey flags protocol algorithm b in
      if negb (valid_public k) then throw InvalidData else mret k
  end.
Fixpoint read_each (count : nat) : MR (list Rr) :=
  match count with
  | O => mret []
  | S count =>
      n ← read_int 4;
      if 65535 <? n then throw InvalidData else
      b ← read n;
      m ← lift (parse b Unicast);
      match m_answers m with
      | [r] =>
          if negb (m_id m =? 0) || negb (m_flags m =? 0) || negb (bool_decide (m_questions m = []))
             || negb (bool_decide (m_authority m = [])) || negb (bool_decide (m_additional m = []))
          then throw InvalidData
          else l ← read_each count; mret (r :: l)
      | _ => throw InvalidData
      end
  end.
Definition read_records : MR (list Rr) :=
  count ← read_int 2;
  if 256 <? count then throw InvalidData else read_each (Z.to_nat count).

Context (now elapsed : Z).
Definition deadline_after (remaining : Z) : Z := if remaining <=? elapsed then 0 else sat64 now (remaining - elapsed).
Definition max_remaining : Z := u32_max * 1000.
(** The two leases and when they were granted. *)
Definition read_leases : MR (Z * Z * Z) :=
  lease ← read_int 8;
  key_lease ← read_int 8;
  if (max_remaining <? lease) || (max_remaining <? key_lease) || (key_lease <? lease) then throw InvalidData else
  a ← read_int 8;
  mret (lease, key_lease, now - a - elapsed).
Definition read_host : MR (Name * Host) :=
  name ← read_name;
  key ← read_key;
  '(lease, key_lease, received) ← read_leases;
  addresses ← read_records;
  if existsb (fun r => negb (name_eq (r_name r) name) || negb (mem (r_kind r) [1; 28]) || negb (r_class r =? 1)) addresses
  then throw InvalidData
  else mret (name, mkHost key addresses (deadline_after lease) (deadline_after key_lease) received).
Definition read_service : MR (Name * Service) :=
  name ← read_name;
  host ← read_name;
  key ← read_key;
  '(lease, key_lease, received) ← read_leases;
  records ← read_records;
  discovery ← read_records;
  if existsb (fun r => negb (name_eq (r_name r) name) || negb (r_class r =? 1) || negb (mem (r_kind r) [16; 33])
                       || match r_data r with RdSrv _ _ _ target => negb (name_eq target host) | _ => false end) records
     || existsb (fun r => negb (r_kind r =? 12) || negb (r_class r =? 1) || negb (rdata_eq (r_data r) (RdName name))) discovery
  then throw InvalidData
  else mret (name, mkService host key records discovery (deadline_after lease) (deadline_after key_lease) received).
Definition read_reply : MR (bytes * Receipt) :=
  digest ← read 32;
  lease ← read_int 4;
  key_lease ← read_int 4;
  remaining ← read_int 8;
  a ← read_int 8;
  if (key_lease <? lease) || (30000 <? remaining) || (30000 <? a) then throw InvalidData else
  mret (digest, mkReceipt (mkGrant lease key_lease) (now - a - elapsed) (deadline_after remaining)).
(** [for _ in 0..count], refusing a key that is there. *)
Fixpoint read_named {A} (count : nat) (item : MR (Name * A)) (m : gmap bytes (Name * A)) : MR (gmap bytes (Name * A)) :=
  match count with
  | O => mret m
  | S count =>
      '(n, a) ← item;
      if has_key m (canonical n) then throw InvalidData else read_named count item (<[canonical n := (n, a)]> m)
  end.
Fixpoint read_replies (count : nat) (m : gmap bytes Receipt) : MR (gmap bytes Receipt) :=
  match count with
  | O => mret m
  | S count =>
      '(d, r) ← read_reply;
      if has_key m d then throw InvalidData else read_replies count (<[d := r]> m)
  end.
Definition read_body (hosts_ services_ replies_ : Z) : MR Registry :=
  hs ← read_named (Z.to_nat hosts_) read_host ∅;
  ss ← read_named (Z.to_nat services_) read_service ∅;
  rs ← read_replies (Z.to_nat replies_) ∅;
  at_ ← get;
  if negb (at_ =? len data) then throw InvalidData else
  let out := mkRegistry hs ss rs default_policy in
  lift (map_err (fun _ => InvalidData) (check_bounds out)) ;;
  mret (expire now out).
End reader.
Definition sat_mul64 (a b : Z) : Z := Z.min (a * b) u64_max.
Definition journal_decode `{Crypto} (sha1 : bytes -> bytes) (b : bytes) (now wall : Z) : outcome io_error Registry :=
  reject_if (MAX_BYTES <? len b) || (len b <? len journal_magic + 32) || negb (starts_with b journal_magic) with InvalidData;
  n ← sub_chk (len b) 20;
  data ← slice b 0 n;
  tail ← slice_from b n;
  reject_if negb (beq (sha1 data) tail) with InvalidData;
  fst ((saved ← read_int data 8;
   let elapsed := sat_mul64 (sat_sub wall saved) 1000 in
   hosts_ ← read_int data 2;
   services_ ← read_int data 2;
   replies_ ← read_int data 2;
   if (128 <? hosts_) || (1024 <? services_) || (128 <? replies_) then throw InvalidData else
   read_body data now elapsed hosts_ services_ replies_) (len journal_magic)).
Definition restore `{Crypto} := journal_decode.

(** ** [apply] *)

Definition granted (u : Update) (p : LeasePolicy) : Grant :=
  mkGrant (Z.min (u_lease u) (max_lease p)) (Z.min (u_key_lease u) (if u_extended_lease u then max_key_lease p else max_lease p)).
Definition work_of (u : Update) : Z :=
  name_charge (u_host u) + records_charge (u_addresses u) +
  total (map (fun s => name_charge (su_name s) + records_charge (su_records s) + records_charge (su_discovery s) + 512) (u_services u)).
Fixpoint normalize_each (rs : list Rr) (lease : Z) (p : LeasePolicy) (out : list Rr) : outcome Error (list Rr) :=
  match rs with
  | [] => Ok out
  | r :: rs =>
      t ← clamp (min_ttl p) (max_ttl p) (r_ttl r);
      let r := set_ttl (Z.min t lease) r in
      normalize_each rs lease p (if existsb (rr_eq r) out then out else out ++ [r])
  end.
Definition normalized (rs : list Rr) (lease : Z) (p : LeasePolicy) : outcome Error (list Rr) := normalize_each rs lease p [].
Definition of_update (u : Update) (s : Service) : bool := name_eq (sv_host s) (u_host u) && same_public_key (sv_key s) (u_key u).
Definition silence_all (u : Update) (m : gmap bytes (Name * Service)) : gmap bytes (Name * Service) :=
  (fun e => if of_update u e.2 then (e.1, silence_service e.2) else e) <$> m.
Definition lease_end (now lease : Z) : Z := sat64 now (lease * 1000).
Fixpoint install_services (u : Update) (g : Grant) (now : Z) (p : LeasePolicy) (l : list ServiceUpdate) (m : gmap bytes (Name * Service))
  : outcome Error (gmap bytes (Name * Service)) :=
  match l with
  | [] => Ok m
  | s :: l =>
      let live := negb (su_deleted s) && negb (g_lease g =? 0) in
      records ← normalized (su_records s) (g_lease g) p;
      discovery ← normalized (su_discovery s) (g_lease g) p;
      install_services u g now p l
        (insert_named (su_name s)
          (mkService (u_host u) (u_key u) records discovery (if live then lease_end now (g_lease g) else 0) (lease_end now (g_key_lease g)) now) m)
  end.
(** The effect of an update on hosts and services. *)
Definition install (u : Update) (g : Grant) (now : Z) (r : Registry) : outcome Error Registry :=
  if g_key_lease g =? 0 then
    Ok (put_services (filter (fun ke => of_update u ke.2.2 = false) (services r)) (put_hosts (delete (canonical (u_host u)) (hosts r)) r))
  else
    addresses ← normalized (u_addresses u) (g_lease g) (policy r);
    let h := mkHost (u_key u) addresses (if g_lease g =? 0 then 0 else lease_end now (g_lease g)) (lease_end now (g_key_lease g)) now in
    ss ← install_services u g now (policy r) (u_services u) (if g_lease g =? 0 then silence_all u (services r) else services r);
    Ok (put_services ss (put_hosts (insert_named (u_host u) h (hosts r)) r)).
Definition make_room (m : gmap bytes Receipt) : outcome Error (gmap bytes Receipt) :=
  if slen m =? 128 then
    oldest ← unwrap (min_by (fun x b => rc_received x.2 <? rc_received b.2) (sorted m));
    Ok (delete oldest.1 m)
  else Ok m.
Definition next_registry (u : Update) (g : Grant) (now : Z) (r : Registry) : outcome Error Registry :=
  next ← install u g now (expire now r);
  room ← make_room (replies next);
  Ok (put_replies (<[u_digest u := mkReceipt g now (sat64 now 30000)]> room) next).

Section apply.
Context `{Crypto} (sha1 : bytes -> bytes) {S : Type} `{StateStore S}.
Abbreviation MA := (M (Registry * S) Error).
Definition store_save (b : bytes) : MA unit := fun st => let '(r, s) := save b st.2 in (map_err (fun _ => ServFail) r, (st.1, s)).
Definition apply_checked (accept : Registry -> outcome Error unit) (u : Update) (now wall : Z) : MA Grant :=
  st ← get;
  let reg := st.1 in
  match cached_digest (u_digest u) now reg with
  | Some g => mret g
  | None =>
      if existsb (fun n => match registry_key n now reg with Some k => negb (same_public_key k (u_key u)) | None => false end)
           (touched (u_host u) (u_services u)) then throw YxDomain else
      let g := granted u (policy reg) in
      if g_key_lease g <? g_lease g then throw Refused else
      if MAX_BYTES <? sat64 (charge reg) (work_of u * 2) then throw ServFail else
      next ← lift (next_registry u g now reg);
      lift (check_bounds next) ;;
      lift (accept next) ;;
      b ← lift (map_err (fun _ => ServFail) (journal_encode sha1 now wall next));
      store_save b ;;
      modify (fun st => (next, st.2)) ;;
      mret g
  end.
Definition apply_update : Update -> Z -> Z -> MA Grant := apply_checked (fun _ => Ok tt).
End apply.
