(* ===== verification/SrpFacts.v ===== *)
(** Ownership of names in the registry: what an update changes, and that a name stays with
    the key that has it; the entries' invariant, and the limits on their number and size. *)

From S2P Require Import Prelude Effects Maps DnsWire DnsFacts Stateful Ordered Identity Names SrpWire Srp.

(** ** Maps of named entries *)

Section named.
Context {A : Type}.
Implicit Types (m : gmap bytes (Name * A)).
Lemma get_named_Some n m v : get_named n m = Some v <-> exists k, m !! canonical n = Some (k, v).
Proof.
  unfold get_named. destruct (m !! canonical n) as [[k w]|]; cbn; split.
  - intros [= ->]. by exists k.
  - intros [k' [= -> ->]]. done.
  - done.
  - by intros [? ?].
Qed.
Lemma get_named_insert n v m n' :
  get_named n' (insert_named n v m) = if bool_decide (canonical n' = canonical n) then Some v else get_named n' m.
Proof.
  unfold get_named, insert_named. case_bool_decide as Hn.
  - by rewrite Hn, lookup_insert_eq.
  - by rewrite lookup_insert_ne by done.
Qed.
Lemma get_named_delete n m n' :
  get_named n' (delete (canonical n) m) = if bool_decide (canonical n' = canonical n) then None else get_named n' m.
Proof.
  unfold get_named. case_bool_decide as Hn.
  - by rewrite Hn, lookup_delete_eq.
  - by rewrite lookup_delete_ne by done.
Qed.
Lemma get_named_filter (P : bytes * (Name * A) -> Prop) `{forall x, Decision (P x)} m n v :
  get_named n (filter P m) = Some v -> get_named n m = Some v /\ exists k, P (canonical n, (k, v)).
Proof. rewrite !get_named_Some. intros (k & [Hm HP]%map_lookup_filter_Some). split; by exists k. Qed.
Lemma get_named_map {B} (f : A -> B) m n : get_named n ((fun e => (e.1, f e.2)) <$> m) = f <$> get_named n m.
Proof. unfold get_named. rewrite lookup_fmap. by destruct (m !! canonical n). Qed.
Lemma get_named_eq n n' m : canonical n = canonical n' -> get_named n m = get_named n' m.
Proof. unfold get_named. by intros ->. Qed.
End named.

Lemma same_public_key_refl k : same_public_key k k = true.
Proof. unfold same_public_key. by rewrite Z.eqb_refl, beq_refl. Qed.
Lemma same_public_key_iff a b : same_public_key a b = true <-> k_algorithm a = k_algorithm b /\ k_bytes a = k_bytes b.
Proof. unfold same_public_key. by rewrite andb_true_iff, Z.eqb_eq, beq_eq. Qed.

(** ** Who holds a name *)

(** A host or a service has the name under the key, and its key lease runs. *)
Definition holds_name (now : Z) (r : Registry) (n : Name) (k : Key) : Prop :=
  (exists h, get_named n (hosts r) = Some h /\ h_key h = k /\ now < h_key_expires h) \/
  (exists s, get_named n (services r) = Some s /\ sv_key s = k /\ now < sv_key_expires s).
(** Whoever holds a name holds it under one key. *)
Definition one_key (now : Z) (r : Registry) : Prop :=
  forall n k1 k2, holds_name now r n k1 -> holds_name now r n k2 -> same_public_key k1 k2 = true.
Lemma registry_key_holds n now r k : registry_key n now r = Some k -> holds_name now r n k.
Proof.
  unfold registry_key, key_of_host, key_of_service, holds_name. destruct (get_named n (hosts r)) as [h|].
  - destruct (Z.ltb_spec now (h_key_expires h)); [intros [= <-]; left; by exists h|].
    destruct (get_named n (services r)) as [s|]; [|done]. destruct (Z.ltb_spec now (sv_key_expires s)); [|done]. intros [= <-]. right. by exists s.
  - destruct (get_named n (services r)) as [s|]; [|done]. destruct (Z.ltb_spec now (sv_key_expires s)); [|done]. intros [= <-]. right. by exists s.
Qed.
Lemma holds_registry_key n now r k : holds_name now r n k -> exists k', registry_key n now r = Some k' /\ holds_name now r n k'.
Proof.
  intros Hk. destruct (registry_key n now r) as [k'|] eqn:E; [exists k'; split; [done|by apply registry_key_holds]|]. exfalso.
  unfold registry_key, key_of_host, key_of_service in E. destruct Hk as [(h & Hh & _ & Ht)|(s & Hs & _ & Ht)].
  - rewrite Hh in E. by destruct (Z.ltb_spec now (h_key_expires h)); [|lia].
  - rewrite Hs in E. destruct (Z.ltb_spec now (sv_key_expires s)); [|lia]. by repeat case_match.
Qed.
Lemma holds_name_eq now r n n' k : canonical n = canonical n' -> holds_name now r n k -> holds_name now r n' k.
Proof. intros Hn. unfold holds_name. by rewrite !(get_named_eq n n' _ Hn). Qed.
Lemma holds_name_later now now' r n k : now <= now' -> holds_name now' r n k -> holds_name now r n k.
Proof. intros Hle [(h & ? & ? & ?)|(s & ? & ? & ?)]; [left; exists h|right; exists s]; (split; [done|]; split; [done|lia]). Qed.
Lemma one_key_later now now' r : now <= now' -> one_key now r -> one_key now' r.
Proof. intros Hle Hr n k1 k2 H1 H2. by eapply (Hr n); eapply holds_name_later. Qed.

(** Expiry takes no name from its holder, and gives none. *)
Lemma rest_host_key now h : h_key (rest_host now h) = h_key h /\ h_key_expires (rest_host now h) = h_key_expires h.
Proof. unfold rest_host. by case_match. Qed.
Lemma rest_service_key now hs s : sv_key (rest_service now hs s) = sv_key s /\ sv_key_expires (rest_service now hs s) = sv_key_expires s.
Proof. unfold rest_service. by case_match. Qed.
Lemma expired_host now r n h : get_named n (hosts (expire now r)) = Some h <->
  exists h0, get_named n (hosts r) = Some h0 /\ now < h_key_expires h0 /\ h = rest_host now h0.
Proof.
  cbn [expire hosts]. rewrite get_named_map. split.
  - intros (h0 & Hf & ->)%fmap_Some.
    apply get_named_filter in Hf as [Hm (k & Ht)]. exists h0. done.
  - intros (h0 & Hm & Ht & ->). apply get_named_Some in Hm as (k & Hm). assert (get_named n (filter (fun ke => now < h_key_expires ke.2.2) (hosts r)) = Some h0) as ->; [|done].
    apply get_named_Some. exists k. by apply map_lookup_filter_Some.
Qed.
Lemma expired_service now r n s : get_named n (services (expire now r)) = Some s <->
  exists s0, get_named n (services r) = Some s0 /\ now < sv_key_expires s0 /\ s = rest_service now (hosts (expire now r)) s0.
Proof.
  cbn [expire services hosts]. rewrite get_named_map. split.
  - intros (s0 & Hf & ->)%fmap_Some. apply get_named_filter in Hf as [Hm (k & Ht)]. exists s0. done.
  - intros (s0 & Hm & Ht & ->). apply get_named_Some in Hm as (k & Hm). assert (get_named n (filter (fun ke => now < sv_key_expires ke.2.2) (services r)) = Some s0) as ->; [|done].
    apply get_named_Some. exists k. by apply map_lookup_filter_Some.
Qed.
Lemma expire_holds now' now r n k : holds_name now' (expire now r) n k -> holds_name now' r n k.
Proof.
  intros [(h & Hh & <- & Ht)|(s & Hs & <- & Ht)].
  - apply expired_host in Hh as (h0 & Hh & _ & ->). destruct (rest_host_key now h0) as [Ek Ee]. left. exists h0. rewrite Ek. rewrite Ee in Ht. done.
  - apply expired_service in Hs as (s0 & Hs & _ & ->). destruct (rest_service_key now (hosts (expire now r)) s0) as [Ek Ee].
    right. exists s0. rewrite Ek. rewrite Ee in Ht. done.
Qed.
Lemma holds_expire now r n k : holds_name now r n k -> holds_name now (expire now r) n k.
Proof.
  intros [(h & Hh & <- & Ht)|(s & Hs & <- & Ht)].
  - left. exists (rest_host now h). destruct (rest_host_key now h) as [-> ->]. split; [|done]. apply expired_host. by exists h.
  - right. exists (rest_service now (hosts (expire now r)) s). destruct (rest_service_key now (hosts (expire now r)) s) as [-> ->]. split; [|done].
    apply expired_service. by exists s.
Qed.

(** ** What an update installs *)

(** [n] is a name the update gives. *)
Definition named_by (u : Update) (n : Name) : Prop := exists m, In m (touched (u_host u) (u_services u)) /\ canonical m = canonical n.
Lemma silence_all_get u m n s : get_named n (silence_all u m) = Some s ->
  exists s0, get_named n m = Some s0 /\ sv_key s = sv_key s0 /\ sv_key_expires s = sv_key_expires s0.
Proof.
  unfold silence_all, get_named. rewrite lookup_fmap. destruct (m !! canonical n) as [[k s0]|]; [|done]. cbn. intros [= <-]. exists s0. by case_match.
Qed.
Lemma install_services_get u g now p l m m' n s : install_services u g now p l m = Ok m' -> get_named n m' = Some s ->
  get_named n m = Some s \/ (sv_key s = u_key u /\ exists x, In x l /\ canonical (su_name x) = canonical n).
Proof.
  revert m. induction l as [|x l IH]; intros m; cbn [install_services]; [intros [= ->]; by left|].
  intros H. inv_ok_hyp H. intros Hs. destruct (IH _ H Hs) as [Hi|(Hk & y & Hy & Hn)]; [|by right; split; [|exists y; split; [right|]]].
  rewrite get_named_insert in Hi. case_bool_decide as Hc; [|by left]. injection Hi as <-. right. split; [done|]. exists x. split; [by left|done].
Qed.
(** Whoever holds a name after an update held it before, or is the update's key on a name that it gives. *)
Lemma next_holds u g now r r' n k : next_registry u g now r = Ok r' -> holds_name now r' n k ->
  holds_name now r n k \/ (k = u_key u /\ named_by u n).
Proof.
  unfold next_registry. intros Hn. apply bind_Ok in Hn as (x & Hx & Hn). apply bind_Ok in Hn as (room & _ & [= <-]).
  assert (forall k, holds_name now (put_replies (<[u_digest u := mkReceipt g now (sat64 now 30000)]> room) x) n k -> holds_name now x n k) as Hp by (intros k0 Hk; exact Hk).
  intros Hk. apply Hp in Hk. clear Hp room. unfold install in Hx. destruct (Z.eqb_spec (g_key_lease g) 0).
  - injection Hx as <-. left. apply expire_holds with (now := now). destruct Hk as [(h & Hh & Hr)|(s & Hs & Hr)].
    + cbn [put_services put_hosts hosts] in Hh. rewrite get_named_delete in Hh. case_bool_decide; [done|]. left. by exists h.
    + cbn [put_services put_hosts services] in Hs. apply get_named_filter in Hs as [Hs _]. right. by exists s.
  - apply bind_Ok in Hx as (addresses & _ & Hx). apply bind_Ok in Hx as (ss & Hss & [= <-]). destruct Hk as [(h & Hh & <- & Ht)|(s & Hs & <- & Ht)].
    + cbn [put_services put_hosts hosts] in Hh. rewrite get_named_insert in Hh. case_bool_decide as Hc.
      * injection Hh as <-. right. split; [done|]. exists (u_host u). split; [by left|done].
      * left. apply expire_holds with (now := now). left. by exists h.
    + cbn [put_services put_hosts services] in Hs. apply (install_services_get _ _ _ _ _ _ _ _ _ Hss) in Hs as [Hs|(Hk & y & Hy & Hn)].
      * left. apply expire_holds with (now := now). right. case_match; [|by exists s]. apply silence_all_get in Hs as (s0 & Hs & -> & He).
        rewrite He in Ht. by exists s0.
      * right. split; [done|]. exists (su_name y). split; [|done]. right. by apply in_map.
Qed.

(** ** [apply_checked], branch by branch *)

(** No name that the update gives is held under another key. *)
Definition may_take (u : Update) (now : Z) (r : Registry) : Prop :=
  forall n k, In n (touched (u_host u) (u_services u)) -> registry_key n now r = Some k -> same_public_key k (u_key u) = true.

Section apply.
Context `{Crypto} (sha1 : bytes -> bytes) {S : Type} `{StateStore S}.
Lemma apply_cases accept u now wall r s :
  match apply_checked sha1 accept u now wall (r, s) with
  | (Ok g, (r', s')) => (r' = r /\ s' = s /\ cached_digest (u_digest u) now r = Some g) \/
      (cached_digest (u_digest u) now r = None /\ may_take u now r /\ g = granted u (policy r) /\ g_lease g <= g_key_lease g /\
       next_registry u g now r = Ok r' /\ check_bounds r' = Ok tt /\ accept r' = Ok tt /\
       exists b, journal_encode sha1 now wall r' = Ok b /\ save b s = (Ok tt, s'))
  | (Err e, (r', s')) => r' = r /\ (s' = s \/ e = ServFail /\
      exists next b, next_registry u (granted u (policy r)) now r = Ok next /\ check_bounds next = Ok tt /\ journal_encode sha1 now wall next = Ok b /\ s' = (save b s).2 /\ is_ok (save b s).1 = false)
  | (Panic, _) => next_registry u (granted u (policy r)) now r = Panic \/
      exists next, next_registry u (granted u (policy r)) now r = Ok next /\
        (check_bounds next = Panic \/ accept next = Panic \/ journal_encode sha1 now wall next = Panic \/ exists b, journal_encode sha1 now wall next = Ok b /\ (save b s).1 = Panic)
  end.
Proof.
  unfold apply_checked. cbv [mbind M_bind get lift throw modify mret M_ret]. cbn [fst snd].
  destruct (cached_digest (u_digest u) now r) as [g|] eqn:Ec; [by left|]. destruct (existsb _ _) eqn:Eo; [by split; [|left]|].
  assert (may_take u now r) as Hmay.
  { intros n k Hn Hk. apply not_false_iff_true. intros Hs. apply not_true_iff_false in Eo. apply Eo, existsb_exists. exists n. by rewrite Hk, Hs. }
  set (g := granted u (policy r)). destruct (Z.ltb_spec (g_key_lease g) (g_lease g)) as [|Hg]; [by split; [|left]|].
  destruct (_ <? _); [by split; [|left]|]. destruct (next_registry u g now r) as [next|e|] eqn:En; [|by split; [|left]|by left].
  destruct (check_bounds next) as [[]|e|] eqn:Eb; [|by split; [|left]|right; exists next; by split; [|left]].
  destruct (accept next) as [[]|e|] eqn:Ea; [|by split; [|left]|right; exists next; by split; [|right; left]].
  destruct (journal_encode sha1 now wall next) as [b|e|] eqn:Ej; cbn [map_err]; [|by split; [|left]|right; exists next; by split; [|right; right; left]].
  unfold store_save. cbn [fst snd]. destruct (save b s) as [[[]|e|] s'] eqn:Es; cbn [map_err fst snd].
  - right. split_and!; try done. exists b. done.
  - split; [done|]. right. split; [done|]. exists next, b. by rewrite Es.
  - right. exists next. split; [done|]. right; right; right. exists b. split; [done|]. by rewrite Es.
Qed.
End apply.

(** ** First come, first served *)

Section apply.
Context `{Crypto} (sha1 : bytes -> bytes) {S : Type} `{StateStore S}.

Lemma srp_first_come_of accept u now wall r s : one_key now r ->
  let '(res, (r', _)) := apply_checked sha1 accept u now wall (r, s) in
  res = Panic \/
  one_key now r' /\ forall n k', registry_key n now r' = Some k' ->
    match registry_key n now r with
    | Some k => same_public_key k k' = true
    | None => k' = u_key u /\ named_by u n /\ is_ok res = true
    end.
Proof.
  intros Hone. pose proof (apply_cases sha1 accept u now wall r s) as Hc.
  destruct (apply_checked sha1 accept u now wall (r, s)) as [[g|e|] [r' s']]; [| |by left]; right.
  - destruct Hc as [(-> & _)|(_ & Hmay & _ & _ & Hn & _)]; [split; [done|]; intros n k' ->; apply same_public_key_refl|]. 
    assert (forall n k1 k2, holds_name now r n k1 -> holds_name now r' n k2 -> same_public_key k1 k2 = true) as Hold.
    { intros n k1 k2 H1 H2. destruct (next_holds _ _ _ _ _ _ _ Hn H2) as [H2'|(-> & m & Hm & Hmn)]; [by eapply Hone|].
      destruct (holds_registry_key m now r k1) as (k & Hk & Hkh); [by apply (holds_name_eq now r n m)|].
      specialize (Hmay m k Hm Hk). pose proof (Hone n k1 k H1 (holds_name_eq now r m n k Hmn Hkh)) as H3.
      apply same_public_key_iff in Hmay as [], H3 as []. apply same_public_key_iff. by split; etrans. }
    split.
    + intros n k1 k2 H1 H2. destruct (next_holds _ _ _ _ _ _ _ Hn H1) as [H1'|(-> & m & Hm & Hmn)]; [by eapply Hold|].
      destruct (next_holds _ _ _ _ _ _ _ Hn H2) as [H2'|(-> & _)]; [|apply same_public_key_refl].
      pose proof (Hold n k2 (u_key u) H2' H1) as H3. apply same_public_key_iff in H3 as []. by apply same_public_key_iff.
    + intros n k' Hk'. apply registry_key_holds in Hk'. destruct (registry_key n now r) as [k|] eqn:Ek; [by eapply Hold; [apply registry_key_holds|]|].
      destruct (next_holds _ _ _ _ _ _ _ Hn Hk') as [Hr|[-> Hm]]; [|done]. apply holds_registry_key in Hr as (k & Hr & _). congruence.
  - destruct Hc as [-> _]. split; [done|]. intros n k' ->. apply same_public_key_refl.
Qed.
End apply.

Definition name_ok (n : Name) : Prop := name_wf n /\ labels n <> [].
Definition policy_ok (p : LeasePolicy) : Prop :=
  0 < max_lease p <= max_key_lease p /\ max_key_lease p <= u32_max /\ 0 < min_ttl p <= max_ttl p /\ max_ttl p <= 2 ^ 31 - 1.

(** The records of a host, of a service and the pointers to a service. *)
Definition address_ok (name : Name) (r : Rr) : Prop :=
  record_wf 0 r /\ canonical (r_name r) = canonical name /\ mem (r_kind r) [1; 28] = true /\ r_class r = 1.
Definition of_service_ok (name host : Name) (r : Rr) : Prop :=
  record_wf 0 r /\ canonical (r_name r) = canonical name /\ mem (r_kind r) [16; 33] = true /\ r_class r = 1 /\
  match r_data r with RdSrv _ _ _ target => canonical target = canonical host | _ => True end.
Definition pointer_ok (name : Name) (r : Rr) : Prop :=
  record_wf 0 r /\ r_kind r = 12 /\ r_class r = 1 /\ exists t, r_data r = RdName t /\ canonical t = canonical name.
(** Leases in [u64], the shorter first, of at most [u32::MAX] seconds. *)
Definition leases_ok (now expires key_expires : Z) : Prop :=
  0 <= expires <= key_expires /\ key_expires <= u64_max /\ key_expires <= now + max_remaining.

Section wf.
Context `{Crypto}.
Definition key_ok (k : Key) : Prop :=
  is_u16 (k_flags k) /\ k_protocol k = 3 /\ key_len (k_algorithm k) = Some (len (k_bytes k)) /\ is_bytes (k_bytes k) /\ valid_public k = true.
Record host_wf (now : Z) (n : Name) (h : Host) : Prop := {
  hw_key : key_ok (h_key h);
  hw_addresses : Forall (address_ok n) (h_addresses h);
  hw_count : len (h_addresses h) <= 256;
  hw_leases : leases_ok now (h_expires h) (h_key_expires h);
}.
Record service_wf (now : Z) (n : Name) (s : Service) : Prop := {
  sw_host : name_ok (sv_host s);
  sw_key : key_ok (sv_key s);
  sw_records : Forall (of_service_ok n (sv_host s)) (sv_records s);
  sw_discovery : Forall (pointer_ok n) (sv_discovery s);
  sw_count : len (sv_records s) <= 256 /\ len (sv_discovery s) <= 256;
  sw_leases : leases_ok now (sv_expires s) (sv_key_expires s);
}.
Record receipt_wf (now : Z) (d : bytes) (c : Receipt) : Prop := {
  cw_digest : is_bytes d /\ len d = 32;
  cw_grant : 0 <= g_lease (rc_grant c) <= g_key_lease (rc_grant c) /\ g_key_lease (rc_grant c) <= u32_max;
  cw_expires : 0 <= rc_expires c <= u64_max;
  cw_received : rc_received c <= now /\ rc_expires c <= rc_received c + 30000;
}.
Definition named_wf {A} (P : Name -> A -> Prop) (m : gmap bytes (Name * A)) : Prop :=
  forall k e, m !! k = Some e -> canonical e.1 = k /\ name_ok e.1 /\ P e.1 e.2.
(** The entries at a moment; all but the limits. *)
Record entries_wf (now : Z) (r : Registry) : Prop := {
  ew_hosts : named_wf (host_wf now) (hosts r);
  ew_services : named_wf (service_wf now) (services r);
  ew_replies : forall d c, replies r !! d = Some c -> receipt_wf now d c;
  ew_policy : policy_ok (policy r);
}.
Definition registry_wf (now : Z) (r : Registry) : Prop := entries_wf now r /\ check_bounds r = Ok tt.

(** An update that may be applied. *)
Record service_update_ok (host : Name) (s : ServiceUpdate) : Prop := {
  so_name : name_ok (su_name s);
  so_records : Forall (of_service_ok (su_name s) host) (su_records s);
  so_discovery : Forall (pointer_ok (su_name s)) (su_discovery s);
  so_count : len (su_records s) <= 256 /\ len (su_discovery s) <= 256;
}.
Record update_ok (u : Update) : Prop := {
  uo_digest : is_bytes (u_digest u) /\ len (u_digest u) = 32;
  uo_host : name_ok (u_host u);
  uo_key : key_ok (u_key u);
  uo_addresses : Forall (address_ok (u_host u)) (u_addresses u);
  uo_count : len (u_addresses u) <= 256;
  uo_services : Forall (service_update_ok (u_host u)) (u_services u);
  uo_leases : 0 <= u_lease u <= u_key_lease u /\ u_key_lease u <= u32_max;
}.
End wf.

(** ** Conditions that the name's case or the time to live do not affect *)

Lemma address_ok_eq n n' r : canonical n = canonical n' -> address_ok n r -> address_ok n' r.
Proof. unfold address_ok. by intros ->. Qed.
Lemma of_service_ok_eq n n' h r : canonical n = canonical n' -> of_service_ok n h r -> of_service_ok n' h r.
Proof. unfold of_service_ok. by intros ->. Qed.
Lemma pointer_ok_eq n n' r : canonical n = canonical n' -> pointer_ok n r -> pointer_ok n' r.
Proof. unfold pointer_ok. by intros ->. Qed.
Lemma record_wf_ttl flags r t : is_u32 t -> record_wf flags r -> record_wf flags (set_ttl t r).
Proof. intros Ht (? & ? & ? & ? & ?). by split_and!. Qed.
Lemma address_ok_ttl n r t : is_u32 t -> address_ok n r -> address_ok n (set_ttl t r).
Proof. intros Ht (? & ?). split; [by apply record_wf_ttl|done]. Qed.
Lemma of_service_ok_ttl n h r t : is_u32 t -> of_service_ok n h r -> of_service_ok n h (set_ttl t r).
Proof. intros Ht (? & ?). split; [by apply record_wf_ttl|done]. Qed.
Lemma pointer_ok_ttl n r t : is_u32 t -> pointer_ok n r -> pointer_ok n (set_ttl t r).
Proof. intros Ht (? & ?). split; [by apply record_wf_ttl|done]. Qed.
Lemma leases_ok_later now now' e k : now <= now' -> leases_ok now e k -> leases_ok now' e k.
Proof. unfold leases_ok. lia. Qed.
Lemma leases_ok_rest now e k : leases_ok now e k -> leases_ok now 0 k.
Proof. unfold leases_ok. lia. Qed.

(** ** Normalised records *)

Lemma normalized_ok (P : Rr -> Prop) rs lease p : policy_ok p -> is_u32 lease -> (forall r t, is_u32 t -> P r -> P (set_ttl t r)) -> Forall P rs ->
  exists out, normalized rs lease p = Ok out /\ Forall P out /\ len out <= len rs.
Proof.
  intros (_ & _ & Hp & Hm) Hl HP Hrs. unfold normalized. assert (forall out, Forall P out ->
    exists out', normalize_each rs lease p out = Ok out' /\ Forall P out' /\ len out' <= len out + len rs) as Hgen.
  { induction Hrs as [|r rs Hr _ IH]; intros out Ho; cbn [normalize_each]; [exists out; split_and!; [done|done|change (len []) with 0; lia]|].
    unfold clamp. destruct (Z.ltb_spec (max_ttl p) (min_ttl p)); [lia|]. cbn [mbind outcome_bind].
    set (t := Z.min (Z.min (Z.max (r_ttl r) (min_ttl p)) (max_ttl p)) lease). assert (is_u32 t) as Ht by (subst t; u_lia).
    assert (Forall P (if existsb (rr_eq (set_ttl t r)) out then out else out ++ [set_ttl t r])) as Ho'.
    { case_match; [done|]. apply List.Forall_app. split; [done|]. constructor; [by apply HP|constructor]. }
    destruct (IH _ Ho') as (out' & -> & Hf & Hlen). exists out'. split; [done|]. split; [done|].
    assert (len (if existsb (rr_eq (set_ttl t r)) out then out else out ++ [set_ttl t r]) <= len out + 1) by (case_match; rewrite ?len_app; change (len [_]) with 1; lia).
    assert (len (r :: rs) = 1 + len rs) by (unfold len; cbn [length]; lia). lia. }
  destruct (Hgen [] ltac:(constructor)) as (out' & -> & Hf & Hlen). exists out'. done.
Qed.
Lemma granted_ok u p : policy_ok p -> 0 <= u_lease u <= u_key_lease u -> u_key_lease u <= u32_max ->
  0 <= g_lease (granted u p) <= g_key_lease (granted u p) /\ g_key_lease (granted u p) <= u32_max.
Proof. intros Hp Hl Hu. unfold granted, policy_ok in *. cbn [g_lease g_key_lease]. destruct (u_extended_lease u); lia. Qed.

(** ** Every operation keeps the entries well formed *)

Section keeps.
Context `{Crypto}.
Lemma host_wf_eq now n n' h : canonical n = canonical n' -> host_wf now n h -> host_wf now n' h.
Proof. intros Hn [? Ha ? ?]. split; [done| |done|done]. eapply List.Forall_impl; [|exact Ha]. intros r. by apply address_ok_eq. Qed.
Lemma service_wf_eq now n n' s : canonical n = canonical n' -> service_wf now n s -> service_wf now n' s.
Proof.
  intros Hn [? ? Hr Hd ? ?]. split; try done.
  - eapply List.Forall_impl; [|exact Hr]. intros r. by apply of_service_ok_eq.
  - eapply List.Forall_impl; [|exact Hd]. intros r. by apply pointer_ok_eq.
Qed.
Lemma named_wf_insert {A} (P : Name -> A -> Prop) n v m : (forall n n' v, canonical n = canonical n' -> P n v -> P n' v) ->
  named_wf P m -> name_ok n -> P n v -> named_wf P (insert_named n v m).
Proof.
  intros HP Hm Hn Hv k e. unfold insert_named. rewrite lookup_insert. case_decide as Hk; [|apply Hm].
  intros [= <-]. cbn [fst snd]. destruct (m !! canonical n) as [[old w]|] eqn:E; [|by subst k].
  destruct (Hm _ _ E) as (Hc & Ho & _). cbn in Hc, Ho. split; [by rewrite Hc|]. split; [done|]. by apply (HP n).
Qed.
Lemma named_wf_filter {A} (P : Name -> A -> Prop) (F : bytes * (Name * A) -> Prop) `{forall x, Decision (F x)} m :
  named_wf P m -> named_wf P (filter F m).
Proof. intros Hm k e [He _]%map_lookup_filter_Some. by apply Hm. Qed.
Lemma named_wf_map {A} (P Q : Name -> A -> Prop) (f : Name * A -> A) m : (forall n a, P n a -> Q n (f (n, a))) ->
  named_wf P m -> named_wf Q ((fun e => (e.1, f e)) <$> m).
Proof.
  intros Hf Hm k e. rewrite lookup_fmap. destruct (m !! k) as [[n a]|] eqn:E; [|done]. cbn. intros [= <-]. cbn [fst snd].
  destruct (Hm _ _ E) as (? & ? & ?). split_and!; [done|done|by apply Hf].
Qed.
Lemma named_wf_impl {A} (P Q : Name -> A -> Prop) m : (forall n a, P n a -> Q n a) -> named_wf P m -> named_wf Q m.
Proof. intros Hf Hm k e He. destruct (Hm k e He) as (? & ? & ?). split_and!; [done|done|by apply Hf]. Qed.

Lemma rest_host_wf now n h : host_wf now n h -> host_wf now n (rest_host now h).
Proof. intros Hh. unfold rest_host. case_match; [|done]. destruct Hh as [? _ _ Hl]. split; cbn; [done|constructor|done|by eapply leases_ok_rest]. Qed.
Lemma silence_service_wf now n s : service_wf now n s -> service_wf now n (silence_service s).
Proof. intros [? ? _ _ _ Hl]. split; cbn; [done|done|constructor|constructor|done|by eapply leases_ok_rest]. Qed.
Lemma entries_later now now' r : now <= now' -> entries_wf now r -> entries_wf now' r.
Proof.
  intros Hle [Hh Hs Hr Hp]. split; [| | |done].
  - eapply named_wf_impl; [|exact Hh]. intros n h [? ? ? ?]. split; try done. by eapply leases_ok_later.
  - eapply named_wf_impl; [|exact Hs]. intros n s [? ? ? ? ? ?]. split; try done. by eapply leases_ok_later.
  - intros d c Hc. destruct (Hr d c Hc) as [? ? ? ?]. split; try done. lia.
Qed.
Lemma expire_entries now r : entries_wf now r -> entries_wf now (expire now r).
Proof.
  intros [Hh Hs Hr Hp]. split; [| | |done].
  - apply (named_wf_map (host_wf now) _ (fun e => rest_host now e.2)); [intros; by apply rest_host_wf|]. by apply named_wf_filter.
  - cbn [expire services]. set (hs := (fun e : Name * Host => (e.1, rest_host now e.2)) <$> _).
    apply (named_wf_map (service_wf now) _ (fun e => rest_service now hs e.2)); [|by apply named_wf_filter].
    intros n s Hw. cbn. unfold rest_service. case_match; [by apply silence_service_wf|done].
  - intros d c [Hc _]%map_lookup_filter_Some. by apply Hr.
Qed.
Lemma lease_end_ok now g : 0 <= now <= u64_max -> 0 <= g_lease g <= g_key_lease g -> g_key_lease g <= u32_max ->
  forall live : bool, leases_ok now (if live then lease_end now (g_lease g) else 0) (lease_end now (g_key_lease g)).
Proof. intros Hn Hg Hk live. unfold leases_ok, lease_end, max_remaining, sat64, sat_add. destruct live; u_lia. Qed.
Lemma install_services_ok u g now p l m : policy_ok p -> 0 <= now <= u64_max -> 0 <= g_lease g <= g_key_lease g -> g_key_lease g <= u32_max ->
  name_ok (u_host u) -> key_ok (u_key u) -> Forall (service_update_ok (u_host u)) l -> named_wf (service_wf now) m ->
  yields (named_wf (service_wf now)) (install_services u g now p l m).
Proof.
  intros Hp Hn Hg Hk Hhost Hkey Hl. revert m. induction Hl as [|x l [Hx Hr Hd Hc] _ IH]; intros m Hm; cbn [install_services]; [done|].
  assert (is_u32 (g_lease g)) as Hgl by u_lia.
  destruct (normalized_ok (of_service_ok (su_name x) (u_host u)) (su_records x) (g_lease g) p Hp Hgl ltac:(intros; by apply of_service_ok_ttl) Hr) as (rs & -> & Hrs & Hrl).
  destruct (normalized_ok (pointer_ok (su_name x)) (su_discovery x) (g_lease g) p Hp Hgl ltac:(intros; by apply pointer_ok_ttl) Hd) as (ds & -> & Hds & Hdl).
  cbn [mbind outcome_bind]. apply IH. apply named_wf_insert; [intros; by eapply service_wf_eq|done|done|].
  split; cbn; try done; [lia|]. by apply (lease_end_ok now g Hn Hg Hk).
Qed.
Lemma install_ok u g now r : entries_wf now r -> update_ok u -> 0 <= now <= u64_max -> 0 <= g_lease g <= g_key_lease g -> g_key_lease g <= u32_max ->
  yields (entries_wf now) (install u g now r).
Proof.
  intros [Hh Hs Hr Hp] [_ Hhost Hkey Ha Hc Hsv _] Hn Hg Hk. unfold install. destruct (g_key_lease g =? 0).
  - split; cbn; [|by apply named_wf_filter|done|done]. intros k e [_ He]%lookup_delete_Some. by apply Hh.
  - assert (is_u32 (g_lease g)) as Hgl by u_lia.
    destruct (normalized_ok (address_ok (u_host u)) (u_addresses u) (g_lease g) (policy r) Hp Hgl ltac:(intros; by apply address_ok_ttl) Ha) as (rs & -> & Hrs & Hrl).
    cbn [mbind outcome_bind]. apply (yields_bind (named_wf (service_wf now))).
    + apply install_services_ok; try done. case_match; [|done]. unfold silence_all.
      rewrite (map_fmap_ext _ (fun e => (e.1, if of_update u e.2 then silence_service e.2 else e.2))) by (intros i [n s] _; cbn; by case_match).
      apply (named_wf_map (service_wf now) _ (fun e => if of_update u e.2 then silence_service e.2 else e.2)); [|done].
      intros n s Hw. cbn. case_match; [by apply silence_service_wf|done].
    + intros ss Hss. split; cbn; [|done|done|done]. apply named_wf_insert; [intros; by eapply host_wf_eq|done|done|].
      split; cbn; [done|done|lia|]. pose proof (lease_end_ok now g Hn Hg Hk (negb (g_lease g =? 0))) as Hl. by destruct (g_lease g =? 0).
Qed.
Lemma next_registry_ok u g now r : entries_wf now r -> update_ok u -> 0 <= now <= u64_max -> 0 <= g_lease g <= g_key_lease g -> g_key_lease g <= u32_max ->
  yields (entries_wf now) (next_registry u g now r).
Proof.
  intros Hr Hu Hn Hg Hk. unfold next_registry. apply (yields_bind (entries_wf now)); [apply install_ok; try done; by apply expire_entries|].
  intros x Hx. apply (yields_bind (fun m => forall d c, m !! d = Some c -> receipt_wf now d c)).
  - unfold make_room. destruct (Z.eqb_spec (slen (replies x)) 128) as [E|]; [|by destruct Hx].
    destruct (min_by _ (sorted (replies x))) as [[d c]|] eqn:Em; cbn.
    + intros d' c' [_ Hc]%lookup_delete_Some. by apply (ew_replies _ _ Hx).
    + apply (max_by_none (fun x b => rc_received x.2 <? rc_received b.2)) in Em. pose proof (sorted_length (replies x)) as Hl. rewrite Em in Hl. change (len []) with 0 in Hl. lia.
  - intros room Hroom. destruct Hx as [? ? _ ?]. split; cbn; try done. intros d c. rewrite lookup_insert. case_decide as Hd; [|apply Hroom].
    intros [= <-]. subst d. split; cbn; [by destruct Hu|done| |]; unfold sat64, sat_add; u_lia.
Qed.
End keeps.

(** ** Sums in key order *)

Lemma total_perm (a b : list Z) : a ≡ₚ b -> total a = total b.
Proof. induction 1; cbn [total foldr] in *; unfold total in *; lia. Qed.
Lemma msum_list {K A} `{Countable K} (f : A -> Z) (m : gmap K A) : msum (fun _ => f) m = total (map f (map snd (map_to_list m))).
Proof. unfold msum. rewrite map_fold_foldr. unfold total. by induction (map_to_list m) as [|[k v] l IH]; [|cbn; rewrite IH]. Qed.
Lemma total_sorted {K A} `{Countable K, Ordered K} (f : A -> Z) (m : gmap K A) : total (map f (sorted_values m)) = msum (fun _ => f) m.
Proof. rewrite msum_list. apply total_perm. unfold sorted_values. by rewrite (sorted_perm m). Qed.

(** ** Services of one host *)

Definition at_host (n : bytes) (s : Service) : bool := beq (canonical (sv_host s)) n.
Definition on_host (n : bytes) (l : list Service) : Z := total (map (fun s => of_bool (at_host n s)) l).
Definition hosted (n : bytes) (r : Registry) : Z := mcount (fun _ e => at_host n e.2) (services r).
Lemma on_host_nonneg n l : 0 <= on_host n l.
Proof. induction l as [|s l IH]; [done|]. unfold on_host, total in *. cbn. destruct (at_host n s); cbn; lia. Qed.
Lemma on_host_none n l : ~ In n (map (fun s => canonical (sv_host s)) l) -> on_host n l = 0.
Proof.
  induction l as [|s l IH]; [done|]. intros Hn. cbn in Hn. assert (at_host n s = false) as Hs by (apply not_true_iff_false; intros E%beq_eq; tauto).
  unfold on_host, total in *. cbn. rewrite Hs, IH by tauto. done.
Qed.
Lemma on_host_sorted n r : on_host n (map snd (sorted_values (services r))) = hosted n r.
Proof. unfold on_host, hosted, mcount. rewrite map_map. apply (total_sorted (fun e : Name * Service => of_bool (at_host n e.2))). Qed.
(** The counting loop refuses exactly the lists with more than eight services of a host. *)
Lemma check_per_host_spec l m : (check_per_host l m = Ok tt <-> forall s, In s l -> default 0 (m !! canonical (sv_host s)) + on_host (canonical (sv_host s)) l <= 8) /\
  (check_per_host l m = Ok tt \/ check_per_host l m = Err ServFail).
Proof.
  revert m. induction l as [|s l IH]; intros m; cbn [check_per_host]; [split; [by split|by left]|]. set (n := canonical (sv_host s)).
  set (c := default 0 (m !! n) + 1). destruct (IH (<[n := c]> m)) as [IHl IHs]. assert (forall n', on_host n' (s :: l) = of_bool (at_host n' s) + on_host n' l) as Hc by done.
  assert (at_host n s = true) as Hs by apply beq_refl. pose proof (on_host_nonneg n l).
  assert (forall n', at_host n' s = true -> n' = n) as Hn' by (intros n' E; by apply beq_eq in E).
  destruct (Z.ltb_spec 8 c).
  { split; [|by right]. split; [done|]. intros Hall. specialize (Hall s ltac:(by left)). rewrite Hc in Hall. fold n in Hall. rewrite Hs in Hall. cbn in Hall. subst c. lia. }
  split; [|done]. rewrite IHl. split.
  - intros Hall x [<-|Hx]; rewrite Hc.
    + fold n. rewrite Hs. destruct (in_dec (list_eq_dec Z.eq_dec) n (map (fun s => canonical (sv_host s)) l)) as [Hin|Hin].
      * apply in_map_iff in Hin as (y & Hy & Hyl). specialize (Hall y Hyl). rewrite Hy, lookup_insert_eq in Hall. cbn in *. subst c. lia.
      * rewrite (on_host_none n l Hin). cbn. subst c. lia.
    + specialize (Hall x Hx). destruct (at_host (canonical (sv_host x)) s) eqn:E.
      * pose proof (Hn' _ E) as Ex. rewrite Ex in Hall |- *. rewrite lookup_insert_eq in Hall. cbn in *. subst c. lia.
      * rewrite lookup_insert_ne in Hall; [cbn in *; lia|]. intros Ex. rewrite <-Ex in E. congruence.
  - intros Hall x Hx. specialize (Hall x ltac:(by right)). rewrite Hc in Hall. destruct (at_host (canonical (sv_host x)) s) eqn:E.
    + pose proof (Hn' _ E) as Ex. rewrite Ex in Hall |- *. rewrite lookup_insert_eq. cbn in *. subst c. lia.
    + rewrite lookup_insert_ne; [cbn in *; lia|]. intros Ex. rewrite <-Ex in E. congruence.
Qed.

(** The limits. *)
Record limits (r : Registry) : Prop := {
  lm_hosts : Z.of_nat (size (parents r)) <= 128;
  lm_services : slen (services r) <= 1024;
  lm_replies : slen (replies r) <= 128;
  lm_bytes : charge r <= 4 * 1024 * 1024;
  lm_per_host : forall n, hosted n r <= 8;
}.
Lemma check_bounds_spec r : (check_bounds r = Ok tt <-> limits r) /\ (check_bounds r = Ok tt \/ check_bounds r = Err ServFail).
Proof.
  unfold check_bounds, registry_counts. destruct (check_per_host_spec (map snd (sorted_values (services r))) ∅) as [Hp Hs].
  assert ((128 <? Z.of_nat (size (parents r))) || (1024 <? slen (services r)) || (128 <? slen (replies r)) || (MAX_BYTES <? charge r) = false <->
    (Z.of_nat (size (parents r)) <= 128 /\ slen (services r) <= 1024 /\ slen (replies r) <= 128 /\ charge r <= MAX_BYTES)) as Hb.
  { rewrite !orb_false_iff, !Z.ltb_ge. tauto. }
  destruct (_ || _).
  - split; [|by right]. split; [done|]. intros [? ? ? ? _]. destruct Hb as [_ Hb]. unfold MAX_BYTES in Hb. specialize (Hb ltac:(done)). done.
  - split; [|done]. rewrite Hp. destruct Hb as [(B1 & B2 & B3 & B4) _]; [done|]. split.
    + intros Hall. split; try done. intros n. rewrite <-on_host_sorted. destruct (in_dec (list_eq_dec Z.eq_dec) n (map (fun s => canonical (sv_host s)) (map snd (sorted_values (services r))))) as [Hin|Hin].
      * apply in_map_iff in Hin as (y & <- & Hy). specialize (Hall y Hy). by rewrite lookup_empty in Hall.
      * by rewrite on_host_none.
    + intros [_ _ _ _ Hh] s _. rewrite lookup_empty, on_host_sorted. apply Hh.
Qed.

(** ** Time *)

Lemma records_charge_nonneg rs : 0 <= records_charge rs.
Proof.
  unfold records_charge. induction rs as [|r rs IH]; [done|]. cbn. assert (forall n, 0 <= name_charge n) as Hn.
  { intros n. unfold name_charge. pose proof (len_nonneg (canonical n)). pose proof (len_nonneg (labels n)). lia. }
  assert (0 <= data_charge (r_data r)); [|specialize (Hn (r_name r)); unfold total in *; lia].
  unfold data_charge. destruct (r_data r); try done; try apply Hn; [|pose proof (len_nonneg key); lia].
  induction strings as [|s l IHl]; [done|]. cbn. pose proof (len_nonneg s). unfold total in *. lia.
Qed.
Lemma name_charge_nonneg n : 0 <= name_charge n.
Proof. unfold name_charge. pose proof (len_nonneg (canonical n)). pose proof (len_nonneg (labels n)). lia. Qed.
Lemma host_charge_nonneg e : 0 <= host_charge e.
Proof. unfold host_charge. pose proof (name_charge_nonneg e.1). pose proof (len_nonneg (k_bytes (h_key e.2))). pose proof (records_charge_nonneg (h_addresses e.2)). lia. Qed.
Lemma service_charge_nonneg e : 0 <= service_charge e.
Proof.
  unfold service_charge. pose proof (name_charge_nonneg e.1). pose proof (name_charge_nonneg (sv_host e.2)). pose proof (len_nonneg (k_bytes (sv_key e.2))).
  pose proof (records_charge_nonneg (sv_records e.2)). pose proof (records_charge_nonneg (sv_discovery e.2)). lia.
Qed.
Lemma msum_filter_map_le {A} (f : A -> Z) (g : A -> A) (P : bytes * A -> Prop) `{forall x, Decision (P x)} (m : gmap bytes A) :
  (forall a, 0 <= f a) -> (forall a, f (g a) <= f a) -> msum (fun _ => f) (g <$> filter P m) <= msum (fun _ => f) m.
Proof.
  intros Hf Hg. rewrite msum_fmap. etrans; [|apply (msum_filter_le (fun _ => f) P m); intros; apply Hf].
  induction (filter P m) as [|k v n Hk IH] using map_ind; [done|]. rewrite !msum_insert by done. specialize (Hg v). lia.
Qed.
Lemma rest_service_host now hs s : sv_host (rest_service now hs s) = sv_host s.
Proof. unfold rest_service. by case_match. Qed.
Lemma parents_in r n : n ∈ parents r <-> is_Some (hosts r !! n) \/ exists k e, services r !! k = Some e /\ canonical (sv_host e.2) = n.
Proof.
  unfold parents. rewrite elem_of_union, elem_of_dom, elem_of_list_to_set, list_elem_of_In, in_map_iff. split; (intros [Hh|Hs]; [by left|right]).
  - destruct Hs as (e & <- & (k & Hk)%sorted_values_in). by exists k, e.
  - destruct Hs as (k & e & Hk & <-). exists e. split; [done|]. apply sorted_values_in. by exists k.
Qed.
Lemma expire_limits now r : limits r -> limits (expire now r).
Proof.
  intros [Hh Hs Hr Hb Hp]. split.
  - etrans; [|exact Hh]. apply inj_le, subseteq_size. intros n. rewrite !parents_in. cbn [expire hosts services]. intros [[e He]|(k & e & He & <-)]; [left|right].
    + rewrite lookup_fmap in He. apply fmap_Some in He as (e0 & [He _]%map_lookup_filter_Some & _). by exists e0.
    + rewrite lookup_fmap in He. apply fmap_Some in He as (e0 & [He _]%map_lookup_filter_Some & ->). exists k, e0. split; [done|]. cbn. by rewrite rest_service_host.
  - cbn [expire services]. unfold slen. rewrite map_size_fmap. by etrans; [apply slen_filter|].
  - cbn [expire replies]. by etrans; [apply slen_filter|].
  - etrans; [|exact Hb]. unfold charge. cbn [expire hosts services replies].
    pose proof (slen_filter (fun kc => now < rc_expires kc.2) (replies r)).
    assert (forall e, host_charge (e.1, rest_host now e.2) <= host_charge e) as H1.
    { intros [n h]. unfold host_charge. cbn. pose proof (records_charge_nonneg (h_addresses h)). unfold rest_host. case_match; [|done]. cbn. change (records_charge []) with 0. lia. }
    pose proof (msum_filter_map_le host_charge (fun e => (e.1, rest_host now e.2)) (fun ke => now < h_key_expires ke.2.2) (hosts r) host_charge_nonneg H1).
    set (hs := (fun e : Name * Host => (e.1, rest_host now e.2)) <$> _) in *.
    assert (forall e, service_charge (e.1, rest_service now hs e.2) <= service_charge e) as H2.
    { intros [n s]. unfold service_charge. cbn. pose proof (records_charge_nonneg (sv_records s)). pose proof (records_charge_nonneg (sv_discovery s)).
      unfold rest_service. case_match; [|done]. cbn. change (records_charge []) with 0. lia. }
    pose proof (msum_filter_map_le service_charge (fun e => (e.1, rest_service now hs e.2)) (fun ke => now < sv_key_expires ke.2.2) (services r) service_charge_nonneg H2). lia.
  - intros n. etrans; [|exact (Hp n)]. unfold hosted, mcount. cbn [expire services].
    apply (msum_filter_map_le (fun e : Name * Service => of_bool (at_host n e.2)) (fun e => (e.1, rest_service now _ e.2)) (fun ke => now < sv_key_expires ke.2.2) (services r)).
    + intros e. destruct (at_host n e.2); cbn; lia.
    + intros e. unfold at_host. cbn. by rewrite rest_service_host.
Qed.
