(* ===== verification/SrpJournal.v ===== *)
(** The journal of the registry: what is written is read back, at any later time. *)

From S2P Require Import Prelude Effects Maps DnsWire DnsFacts DnsRoundtrip DnsEncode DnsFormat Stateful Ordered Identity Text Names SrpWire Srp SrpFacts.

(** ** Readers *)

(** The reader finds [a] where [e] is written, and stops behind it. *)
Definition reads {A} (m : bytes -> M Z io_error A) (e : bytes) (a : A) : Prop :=
  forall pre post, m (pre ++ e ++ post) (len pre) = (Ok a, len pre + len e).
Lemma journal_reads_ret {A} (a : A) : reads (fun _ => mret a) [] a.
Proof. intros pre post. change (len []) with 0. by rewrite Z.add_0_r. Qed.
Lemma journal_reads_bind {A B} (m : bytes -> M Z io_error A) (f : A -> bytes -> M Z io_error B) e1 e2 a b :
  reads m e1 a -> reads (f a) e2 b -> reads (fun d => x ← m d; f x d) (e1 ++ e2) b.
Proof.
  intros Hm Hf pre post. cbv [mbind M_bind]. rewrite <-app_assoc, (Hm pre (e2 ++ post)). specialize (Hf (pre ++ e1) post).
  rewrite <-app_assoc, !len_app in Hf. rewrite Hf. rewrite len_app. f_equal. lia.
Qed.
Lemma reads_then {A B} (m : bytes -> M Z io_error A) (f : A -> bytes -> M Z io_error B) e a b :
  reads m e a -> reads (f a) [] b -> reads (fun d => x ← m d; f x d) e b.
Proof. intros Hm Hf. rewrite <-(app_nil_r e). by eapply journal_reads_bind. Qed.
Lemma reads_read n e : len e = n -> reads (fun d => read d n) e e.
Proof.
  intros <- pre post. unfold read. cbv [mbind M_bind get throw lift modify mret M_ret]. pose proof (len_nonneg post).
  rewrite !len_app. destruct (Z.leb_spec (len pre + len e) (len pre + (len e + len post))); [cbn [negb]|lia].
  rewrite (slice_mid pre e post); done.
Qed.
Lemma reads_int n e x : len e = n -> of_be e = x -> reads (fun d => read_int d n) e x.
Proof. intros He Hx. unfold read_int. eapply reads_then; [by apply reads_read|]. rewrite Hx. apply journal_reads_ret. Qed.
Lemma reads_be n x : 0 <= x < 256 ^ Z.of_nat n -> reads (fun d => read_int d (Z.of_nat n)) (be n x) x.
Proof. intros Hx. apply reads_int; [apply len_be|by apply of_be_be_small]. Qed.
Lemma reads_16 x : is_u16 x -> reads (fun d => read_int d 2) (be16 x) x.
Proof. intros. apply (reads_be 2). change (256 ^ Z.of_nat 2) with 65536. u_lia. Qed.
Lemma reads_32 x : is_u32 x -> reads (fun d => read_int d 4) (be32 x) x.
Proof. intros. apply (reads_be 4). change (256 ^ Z.of_nat 4) with 4294967296. u_lia. Qed.
Lemma reads_64 x : is_u64 x -> reads (fun d => read_int d 8) (be64 x) x.
Proof. intros. apply (reads_be 8). change (256 ^ Z.of_nat 8) with 18446744073709551616. u_lia. Qed.
Lemma reads_skip {A B} (m : outcome io_error A) (f : A -> bytes -> M Z io_error B) e a b :
  m = Ok a -> reads (f a) e b -> reads (fun d => x ← lift m; f x d) e b.
Proof. intros -> Hf pre post. cbv [mbind M_bind lift]. apply Hf. Qed.

(** ** Names *)

(** The name as the journal holds it: in canonical form. *)
Definition lowered (n : Name) : Name := mkName (map (map to_ascii_lowercase) (labels n)) (canonical n).
Lemma lower_twice c : to_ascii_lowercase (to_ascii_lowercase c) = to_ascii_lowercase c.
Proof.
  unfold to_ascii_lowercase at 2 3. destruct ((65 <=? c) && (c <=? 90)) eqn:E; [|unfold to_ascii_lowercase; by rewrite E].
  apply andb_true_iff in E as [H1%Z.leb_le H2%Z.leb_le]. unfold to_ascii_lowercase. by destruct (Z.leb_spec 65 (c + 32)), (Z.leb_spec (c + 32) 90); try lia.
Qed.
Lemma lower_u8 c : is_u8 c -> is_u8 (to_ascii_lowercase c).
Proof. unfold to_ascii_lowercase. destruct (Z.leb_spec 65 c), (Z.leb_spec c 90); cbn; u_lia. Qed.
Lemma lowered_labels ls : labels_ok ls -> labels_ok (map (map to_ascii_lowercase) ls) /\ canonical_of (map (map to_ascii_lowercase) ls) = canonical_of ls.
Proof.
  intros [Hl Ht]. split; [split|].
  - apply List.Forall_map. eapply List.Forall_impl; [|exact Hl]. intros l [Hb Hn]. split; [|by unfold len in *; rewrite length_map].
    apply List.Forall_map. eapply List.Forall_impl; [|exact Hb]. intros c. apply lower_u8.
  - rewrite map_map. erewrite map_ext; [exact Ht|]. intros l. unfold len. by rewrite length_map.
  - unfold canonical_of. f_equal. f_equal. rewrite map_map. apply map_ext. intros l. unfold len. rewrite length_map. f_equal. rewrite map_map.
    apply map_ext. intros c. apply lower_twice.
Qed.
Definition plain_labels (ls : list bytes) : bytes := concat (map (fun l => len l :: l) ls).
Lemma canonical_plain ls : labels_ok ls -> canonical_of ls = plain_labels (map (map to_ascii_lowercase) ls) ++ [0].
Proof.
  intros [Hl _]. unfold canonical_of, plain_labels. f_equal. f_equal. rewrite map_map. apply map_ext_in. intros l Hin.
  destruct (Forall_In _ _ _ Hl Hin) as [_ Hn]. rewrite Z.mod_small by lia. f_equal. unfold len. by rewrite length_map.
Qed.
Lemma read_labels_plain ls : Forall label_ok ls -> forall fuel pre acc, (length ls < fuel)%nat -> acc ++ ls <> [] ->
  read_labels fuel (pre ++ plain_labels ls ++ [0]) (len pre) acc = from_labels (acc ++ ls).
Proof.
  induction 1 as [|l ls [Hb Hn] _ IH]; intros fuel pre acc Hf Hne; (destruct fuel as [|fuel]; [lia|]); cbn [read_labels].
  - cbn [plain_labels map concat app]. rewrite app_nil_r in *. pose proof (len_nonneg pre).
    assert (get_range (pre ++ [0]) (len pre) (len pre + 1) = Some [0]) as ->.
    { pose proof (slice_mid (E:=io_error) pre [0] [] (len pre) (len pre + 1) eq_refl eq_refl) as Hs. unfold slice in Hs. by apply unwrap_Ok in Hs. }
    change (0 =? 0) with true. cbv iota. rewrite len_app. change (len [0]) with 1. rewrite Z.eqb_refl. by rewrite bool_decide_eq_false_2.
  - change (plain_labels (l :: ls)) with (len l :: l ++ plain_labels ls). cbn [app]. rewrite <-app_assoc. set (rest := plain_labels ls ++ [0]).
    assert (get_range (pre ++ len l :: l ++ rest) (len pre) (len pre + 1) = Some [len l]) as ->.
    { pose proof (slice_mid (E:=io_error) pre [len l] (l ++ rest) (len pre) (len pre + 1) eq_refl eq_refl) as Hs. unfold slice in Hs. by apply unwrap_Ok in Hs. }
    destruct (Z.eqb_spec (len l) 0); [lia|]. replace (pre ++ len l :: l ++ rest) with ((pre ++ [len l]) ++ l ++ rest) by (by rewrite <-app_assoc).
    assert (len (pre ++ [len l]) = len pre + 1) as Hpl by (rewrite len_app; done). pose proof (len_nonneg rest).
    assert (len ((pre ++ [len l]) ++ l ++ rest) = len pre + 1 + len l + len rest) as Hall by (rewrite len_app, Hpl, len_app; lia). rewrite Hall.
    destruct (Z.ltb_spec 63 (len l)); [lia|]. destruct (Z.ltb_spec (len pre + 1 + len l + len rest) (len pre + 1 + len l)); [lia|]. cbn [orb].
    rewrite (slice_mid (pre ++ [len l]) l rest) by (done || lia). cbn [mbind outcome_bind].
    replace (len pre + 1 + len l) with (len ((pre ++ [len l]) ++ l)) by (rewrite len_app; lia). rewrite app_assoc. subst rest.
    rewrite IH; [by rewrite <-app_assoc|cbn in Hf; lia|]. rewrite <-app_assoc. done.
Qed.
Lemma len_canonical n : name_wf n -> 1 <= len (canonical n) <= 255.
Proof.
  intros [[Hl Ht] ->]. unfold canonical_of. rewrite len_app. change (len [0]) with 1.
  enough (len (concat (map (fun l => len l mod 256 :: map to_ascii_lowercase l) (labels n))) = total (map (fun l => len l + 1) (labels n))) as ->.
  { split; [|lia]. assert (0 <= total (map (fun l => len l + 1) (labels n))); [|lia]. clear. induction (labels n) as [|l ls IH]; [done|]. unfold total in *. cbn. pose proof (len_nonneg l). lia. }
  clear. induction (labels n) as [|l ls IH]; [done|]. cbn [map concat]. rewrite len_app, IH. unfold total. cbn [map foldr]. unfold len at 1. cbn [length]. rewrite length_map. unfold len. lia.
Qed.
Lemma reads_name n : name_ok n -> reads read_name (put_name n) (lowered n).
Proof.
  intros [Hw Hne]. pose proof (len_canonical n Hw) as Hl. unfold put_name. rewrite Z.mod_small by lia. unfold read_name.
  eapply (journal_reads_bind (fun d => read_int d 2) (fun x d => if 255 <? x then throw InvalidData else r ← read d x; lift (read_labels (S (length r)) r 0 []))); [apply reads_16; u_lia|].
  destruct (Z.ltb_spec 255 (len (canonical n))); [lia|]. eapply (reads_then (fun d => read d (len (canonical n))) (fun r d => lift (read_labels (S (length r)) r 0 []))); [by apply reads_read|].
  destruct Hw as [Hok Hc]. intros pre post. change (len []) with 0. rewrite Z.add_0_r. cbv [lift]. f_equal.
  rewrite Hc, (canonical_plain _ Hok). destruct (lowered_labels _ Hok) as [Hok' Hcan].
  set (ls := map (map to_ascii_lowercase) (labels n)) in *. assert (ls <> []) as Hls by (subst ls; by destruct (labels n)).
  pose proof (read_labels_plain ls (proj1 Hok') (S (length (plain_labels ls ++ [0]))) [] []) as Hr. cbn [app] in Hr. change (len []) with 0 in Hr. rewrite Hr; [|clear|done].
  - rewrite from_labels_ok by done. unfold lowered. fold ls. by rewrite Hcan, Hc.
  - enough (length ls <= length (plain_labels ls))%nat by (rewrite length_app; cbn; lia). induction ls as [|l ls IH]; [done|]. unfold plain_labels in *. cbn [map concat length]. rewrite length_app. cbn. lia.
Qed.

(** ** Keys, records and leases *)

Section entries.
Context `{Crypto}.
Lemma key_len_spec a n : key_len a = Some n -> is_u8 a /\ 32 <= n <= 96.
Proof. unfold key_len. repeat (case_match; [intros [= <-]; u_lia|]). done. Qed.
Lemma reads_key k : key_ok k -> reads read_key (put_key k) k.
Proof.
  intros (Hf & Hp & Hl & Hb & Hv). destruct (key_len_spec _ _ Hl) as [Ha Hn]. unfold put_key, read_key. rewrite Z.mod_small by lia.
  eapply (journal_reads_bind (fun d => read_int d 2) (fun flags d => fields ← read d 2; protocol ← lift fields.[0]; algorithm ← lift fields.[1]; n ← read_int d 2; _)); [by apply reads_16|].
  eapply (journal_reads_bind (fun d => read d 2) (fun fields d => protocol ← lift fields.[0]; algorithm ← lift fields.[1]; n ← read_int d 2; _)); [by apply reads_read|].
  eapply (reads_skip _ (fun protocol d => algorithm ← lift [k_protocol k; k_algorithm k].[1]; n ← read_int d 2; _)); [done|].
  eapply (reads_skip _ (fun algorithm d => n ← read_int d 2; _)); [done|].
  eapply (journal_reads_bind (fun d => read_int d 2) (fun n d => _)); [apply reads_16; u_lia|]. rewrite Hl, Hp, !Z.eqb_refl. cbn [negb orb Z.eqb Pos.eqb].
  eapply (reads_then (fun d => read d (len (k_bytes k))) (fun b d => _)); [by apply reads_read|]. cbv zeta.
  destruct k as [kf kp ka kb]; cbn in *. subst kp. rewrite Hv. apply journal_reads_ret.
Qed.

(** The message of a record. *)
Lemma message_of_record r : record_wf 0 r -> message_wf (add_answer r (message_new 0 0)).
Proof. intros Hr. split; cbn; [u_lia|u_lia|constructor|constructor; [done|constructor]]. Qed.
Lemma put_each_reads rs b b' : Forall (record_wf 0) rs -> put_each b rs = Ok b' ->
  exists e, b' = b ++ e /\ reads (fun d => read_each d (length rs)) e rs.
Proof.
  intros Hrs. revert b. induction Hrs as [|r rs Hr _ IH]; intros b; cbn [put_each length].
  - intros [= <-]. exists []. split; [by rewrite app_nil_r|]. apply journal_reads_ret.
  - intros He. apply bind_Ok in He as (w & Hw & He). destruct (_ <? _); [done|]. destruct (IH _ He) as (e & -> & Hrest). clear IH He.
    exists (be32 (len w mod 2 ^ 32) ++ w ++ e). split; [by rewrite <-!app_assoc|].
    pose proof (message_of_record r Hr) as Hm. pose proof (encode_safe Unicast _ Hm) as Hy. unfold encode in Hw. rewrite Hw in Hy. destruct Hy as [Hb Hl].
    unfold MAX_WIRE in Hl. pose proof (len_nonneg w). rewrite Z.mod_small by lia. cbn [read_each].
    assert (Forall (clear_of 0) [r]) as Hcl by (constructor; [discriminate|constructor]).
    destruct (encode_reads Unicast _ w Hm Hcl Hw) as (m' & Hpar & Hsame).
    eapply (journal_reads_bind (fun d => read_int d 4) (fun n d => if 65535 <? n then throw InvalidData else b ← read d n; m ← lift (parse b Unicast); _)); [apply reads_32; u_lia|].
    destruct (Z.ltb_spec 65535 (len w)); [lia|].
    eapply (journal_reads_bind (fun d => read d (len w)) (fun b d => m ← lift (parse b Unicast); _)); [by apply reads_read|].
    eapply (reads_skip _ (fun m d => _)); [exact Hpar|]. cbn [message_new add_answer m_id m_flags m_questions m_answers m_authority m_additional app same_message] in Hsame.
    destruct Hsame as (Hi & Hfl & Hq & Han & Hau & Had). cbv beta. rewrite Hi, Hfl, Hq, Han, Hau, Had. cbn [Z.eqb negb orb add_answer message_new m_id m_flags m_questions m_answers m_authority m_additional app].
    rewrite !bool_decide_eq_true_2 by done. cbn [negb orb].
    eapply (reads_then (fun d => read_each d (length rs)) (fun l d => mret (r :: l))); [exact Hrest|]. apply journal_reads_ret.
Qed.
Lemma put_records_reads rs b b' : Forall (record_wf 0) rs -> len rs <= 256 -> put_records b rs = Ok b' ->
  exists e, b' = b ++ e /\ reads read_records e rs.
Proof.
  intros Hrs Hl. unfold put_records. pose proof (len_nonneg rs). rewrite Z.mod_small by lia. intros He.
  destruct (put_each_reads rs _ b' Hrs He) as (e & -> & Hr). exists (be16 (len rs) ++ e). split; [by rewrite <-app_assoc|].
  unfold read_records. eapply (journal_reads_bind (fun d => read_int d 2) (fun n d => _)); [apply reads_16; u_lia|]. destruct (Z.ltb_spec 256 (len rs)); [lia|].
  unfold len. rewrite Nat2Z.id. exact Hr.
Qed.
Lemma put_each_safe rs b : Forall (record_wf 0) rs -> safe (put_each b rs).
Proof.
  intros Hrs. revert b. induction Hrs as [|r rs Hr _ IH]; intros b; cbn [put_each]; [done|].
  apply safe_bind; [by eapply yields_safe, encode_safe, message_of_record|]. intros w _. case_match; [done|apply IH].
Qed.

(** A moment before the save, as the restored registry dates it, and what is left of a lease. *)
Context (now now' elapsed : Z).
Definition moved_age (received : Z) : Z := now' - age now received - elapsed.
Definition moved_end (expires : Z) : Z := deadline_after now' elapsed (sat_sub expires now).
Definition moved_host (h : Host) : Host := mkHost (h_key h) (h_addresses h) (moved_end (h_expires h)) (moved_end (h_key_expires h)) (moved_age (h_received h)).
Definition moved_service (s : Service) : Service :=
  mkService (lowered (sv_host s)) (sv_key s) (sv_records s) (sv_discovery s) (moved_end (sv_expires s)) (moved_end (sv_key_expires s)) (moved_age (sv_received s)).
Definition moved_receipt (c : Receipt) : Receipt := mkReceipt (rc_grant c) (moved_age (rc_received c)) (moved_end (rc_expires c)).
Definition moved (r : Registry) : Registry :=
  mkRegistry ((fun e => (lowered e.1, moved_host e.2)) <$> hosts r) ((fun e => (lowered e.1, moved_service e.2)) <$> services r) (moved_receipt <$> replies r) default_policy.

Lemma reads_leases expires key_expires received : 0 <= now -> leases_ok now expires key_expires ->
  reads (fun d => read_leases d now' elapsed) (put_leases now expires key_expires received) (sat_sub expires now, sat_sub key_expires now, moved_age received).
Proof.
  intros Hn (He & Hk & Hm). unfold max_remaining in Hm. unfold read_leases, put_leases.
  eapply (journal_reads_bind (fun d => read_int d 8) (fun lease d => key_lease ← read_int d 8; _)); [apply reads_64; unfold sat_sub; u_lia|].
  eapply (journal_reads_bind (fun d => read_int d 8) (fun key_lease d => _)); [apply reads_64; unfold sat_sub; u_lia|].
  destruct (_ || _) eqn:E.
  { exfalso. rewrite !orb_true_iff, !Z.ltb_lt in E. unfold max_remaining, sat_sub in E. u_lia. }
  eapply (reads_then (fun d => read_int d 8) (fun a d => _)); [apply reads_64; unfold age; u_lia|]. apply journal_reads_ret.
Qed.
Lemma existsb_none {A} (p : A -> bool) (P : A -> Prop) l : Forall P l -> (forall x, P x -> p x = false) -> existsb p l = false.
Proof. induction 1 as [|x l Hx _ IH]; intros Hp; [done|]. cbn. by rewrite (Hp x Hx), IH. Qed.
Lemma put_host_reads b e b' : 0 <= now -> name_ok e.1 -> host_wf now e.1 e.2 -> put_host now b e = Ok b' ->
  exists w, b' = b ++ w /\ reads (fun d => read_host d now' elapsed) w (lowered e.1, moved_host e.2).
Proof.
  intros Hn Hname. destruct e as [name h]. cbn [fst snd put_host] in *. intros [Hk Ha Hc Hl] Hput.
  destruct (put_records_reads (h_addresses h) _ b' (List.Forall_impl _ (fun r Hr => proj1 Hr) Ha) Hc Hput) as (w & -> & Hw).
  exists (put_name name ++ put_key (h_key h) ++ put_leases now (h_expires h) (h_key_expires h) (h_received h) ++ w). split; [by rewrite <-!app_assoc|].
  unfold read_host. eapply (journal_reads_bind read_name (fun name d => key ← read_key d; _)); [by apply reads_name|].
  eapply (journal_reads_bind read_key (fun key d => x ← read_leases d now' elapsed; _)); [by apply reads_key|].
  eapply (journal_reads_bind (fun d => read_leases d now' elapsed) (fun x d => _)); [by apply reads_leases|]. cbv beta iota.
  eapply (reads_then read_records (fun addresses d => _)); [exact Hw|]. cbv beta.
  rewrite (existsb_none _ (address_ok name)); [apply journal_reads_ret|exact Ha|].
  intros r (_ & Hrn & Hrk & Hrc). rewrite Hrk, Hrc. unfold name_eq, lowered. cbn [canonical]. by rewrite Hrn, beq_refl.
Qed.
Lemma put_service_reads b e b' : 0 <= now -> name_ok e.1 -> service_wf now e.1 e.2 -> put_service now b e = Ok b' ->
  exists w, b' = b ++ w /\ reads (fun d => read_service d now' elapsed) w (lowered e.1, moved_service e.2).
Proof.
  intros Hn Hname. destruct e as [name s]. cbn [fst snd put_service] in *. intros [Hh Hk Hr Hd [Hc1 Hc2] Hl] Hput.
  apply bind_Ok in Hput as (b1 & Hput1 & Hput2).
  destruct (put_records_reads (sv_records s) _ b1 (List.Forall_impl _ (fun r Hr => proj1 Hr) Hr) Hc1 Hput1) as (w1 & -> & Hw1).
  destruct (put_records_reads (sv_discovery s) _ b' (List.Forall_impl _ (fun r Hr => proj1 Hr) Hd) Hc2 Hput2) as (w2 & -> & Hw2).
  exists (put_name name ++ put_name (sv_host s) ++ put_key (sv_key s) ++ put_leases now (sv_expires s) (sv_key_expires s) (sv_received s) ++ w1 ++ w2). split; [by rewrite <-!app_assoc|].
  unfold read_service. eapply (journal_reads_bind read_name (fun name d => host ← read_name d; key ← read_key d; _)); [by apply reads_name|].
  eapply (journal_reads_bind read_name (fun host d => key ← read_key d; _)); [by apply reads_name|].
  eapply (journal_reads_bind read_key (fun key d => x ← read_leases d now' elapsed; _)); [by apply reads_key|].
  eapply (journal_reads_bind (fun d => read_leases d now' elapsed) (fun x d => _)); [by apply reads_leases|]. cbv beta iota.
  eapply (journal_reads_bind read_records (fun records d => discovery ← read_records d; _)); [exact Hw1|]. cbv beta.
  eapply (reads_then read_records (fun discovery d => _)); [exact Hw2|]. cbv beta.
  rewrite (existsb_none _ (of_service_ok name (sv_host s))), (existsb_none _ (pointer_ok name)); [apply journal_reads_ret|exact Hd| |exact Hr|].
  - intros r (_ & Hrk & Hrc & t & Hrd & Ht). rewrite Hrk, Hrc, Hrd. unfold rdata_eq, name_eq, lowered. cbn [canonical]. by rewrite Ht, beq_refl.
  - intros r (_ & Hrn & Hrk & Hrc & Ht). rewrite Hrk, Hrc. unfold name_eq, lowered. cbn [canonical]. rewrite Hrn, beq_refl. destruct (r_data r); try done. by rewrite Ht, beq_refl.
Qed.
Lemma put_reply_reads d c : 0 <= now -> receipt_wf now d c -> now - rc_received c <= 30000 ->
  reads (fun d => read_reply d now' elapsed) (put_reply now (d, c)) (d, moved_receipt c).
Proof.
  intros Hn [[Hd Hdl] [Hg Hg'] He [Hr Hr']] Hage. unfold read_reply, put_reply.
  eapply (journal_reads_bind (fun d => read d 32) (fun digest d => lease ← read_int d 4; key_lease ← read_int d 4; remaining ← read_int d 8; a ← read_int d 8; _)); [by apply reads_read|].
  eapply (journal_reads_bind (fun d => read_int d 4) (fun lease d => key_lease ← read_int d 4; remaining ← read_int d 8; a ← read_int d 8; _)); [apply reads_32; u_lia|].
  eapply (journal_reads_bind (fun d => read_int d 4) (fun key_lease d => remaining ← read_int d 8; a ← read_int d 8; _)); [apply reads_32; u_lia|].
  eapply (journal_reads_bind (fun d => read_int d 8) (fun remaining d => a ← read_int d 8; _)); [apply reads_64; unfold sat_sub; u_lia|].
  eapply (reads_then (fun d => read_int d 8) (fun a d => _)); [apply reads_64; unfold age; u_lia|]. cbv beta.
  assert (age now (rc_received c) <= 30000) as H1 by (unfold age; u_lia). assert (sat_sub (rc_expires c) now <= 30000) as H2 by (unfold sat_sub; u_lia).
  destruct (Z.ltb_spec (g_key_lease (rc_grant c)) (g_lease (rc_grant c))); [lia|]. destruct (Z.ltb_spec 30000 (sat_sub (rc_expires c) now)); [lia|].
  destruct (Z.ltb_spec 30000 (age now (rc_received c))); [lia|]. cbn [orb]. destruct c as [[gl gk] cr ce]. apply journal_reads_ret.
Qed.
End entries.

(** ** Tables *)

Lemma sorted_values_perm {K A} `{Countable K, Ordered K} (m : gmap K A) : sorted_values m = map snd (sorted m).
Proof. done. Qed.
(** The writer's loop, entry by entry. *)
Lemma fold_reads {A B} (put_ : bytes -> A -> outcome io_error bytes) (item : bytes -> M Z io_error B) (f : A -> B) (P : A -> Prop) l :
  (forall b x b', P x -> put_ b x = Ok b' -> exists w, b' = b ++ w /\ reads item w (f x)) -> Forall P l ->
  forall b b', fold_ok put_ b l = Ok b' -> exists ws, b' = b ++ concat ws /\ Forall2 (fun x w => reads item w (f x)) l ws.
Proof.
  intros Hput. induction 1 as [|x l Hx _ IH]; intros b b'; cbn [fold_ok]; [intros [= <-]; exists []; by rewrite app_nil_r|].
  intros Hf. apply bind_Ok in Hf as (b1 & H1 & Hf). destruct (Hput _ _ _ Hx H1) as (w & -> & Hw). destruct (IH _ _ Hf) as (ws & -> & Hws).
  exists (w :: ws). split; [cbn; by rewrite <-app_assoc|by constructor].
Qed.
Definition by_name {A} (l : list (Name * A)) : list (bytes * (Name * A)) := map (fun e => (canonical e.1, e)) l.
Lemma read_named_reads {A} (item : bytes -> M Z io_error (Name * A)) es ws : Forall2 (fun e w => reads item w e) es ws ->
  forall m, NoDup (map fst (by_name es)) -> (forall k, In k (map fst (by_name es)) -> m !! k = None) ->
  reads (fun d => read_named (length es) (item d) m) (concat ws) (list_to_map (by_name es) ∪ m).
Proof.
  induction 1 as [|[n a] w es ws Hw _ IH]; intros m Hnd Hm; cbn [length read_named concat by_name map]; [rewrite list_to_map_nil, (left_id_L ∅ (∪)); apply journal_reads_ret|].
  cbn [by_name map] in Hnd. apply list.NoDup_cons in Hnd as [Hni Hnd]. rewrite list_elem_of_In in Hni.
  eapply (journal_reads_bind item (fun e d => let '(n, a) := e in _)); [exact Hw|]. cbv beta iota.
  assert (m !! canonical n = None) as Hmn by (apply Hm; by left). rewrite (proj2 (has_key_false m (canonical n)) Hmn). cbn [fst].
  rewrite list_to_map_cons, <-insert_union_l, insert_union_r by (apply not_elem_of_list_to_map_1; by rewrite list_elem_of_In).
  apply IH; [done|]. intros k Hk. rewrite lookup_insert_ne; [apply Hm; by right|]. intros <-. done.
Qed.
Lemma read_replies_reads `{Crypto} now' elapsed (es : list (bytes * Receipt)) ws : Forall2 (fun e w => reads (fun d => read_reply d now' elapsed) w e) es ws ->
  forall m, NoDup (map fst es) -> (forall k, In k (map fst es) -> m !! k = None) ->
  reads (fun d => read_replies d now' elapsed (length es) m) (concat ws) (list_to_map es ∪ m).
Proof.
  induction 1 as [|[n a] w es ws Hw _ IH]; intros m Hnd Hm; cbn [length read_replies concat map]; [rewrite list_to_map_nil, (left_id_L ∅ (∪)); apply journal_reads_ret|].
  cbn [map fst] in Hnd. apply list.NoDup_cons in Hnd as [Hni Hnd]. rewrite list_elem_of_In in Hni.
  eapply (journal_reads_bind (fun d => read_reply d now' elapsed) (fun e d => let '(n, a) := e in _)); [exact Hw|]. cbv beta iota.
  assert (m !! n = None) as Hmn by (apply Hm; by left). rewrite (proj2 (has_key_false m n) Hmn). cbn [fst].
  rewrite list_to_map_cons, <-insert_union_l, insert_union_r by (apply not_elem_of_list_to_map_1; by rewrite list_elem_of_In).
  apply IH; [done|]. intros k Hk. rewrite lookup_insert_ne; [apply Hm; by right|]. intros <-. done.
Qed.
Lemma sorted_list_to_map {A} (m : gmap bytes A) : (list_to_map (sorted m) : gmap bytes A) = m.
Proof.
  rewrite (list_to_map_proper (sorted m) (map_to_list m)); [apply list_to_map_to_list|apply sorted_NoDup|apply sorted_perm].
Qed.
(** The entries of a table, each read in its turn, give the table. *)
Lemma read_table {A} (item : bytes -> M Z io_error (Name * A)) (f : Name * A -> Name * A) (m : gmap bytes (Name * A)) ws :
  (forall k e, m !! k = Some e -> canonical (f e).1 = k) -> Forall2 (fun e w => reads item w (f e)) (sorted_values m) ws ->
  reads (fun d => read_named (Z.to_nat (slen m)) (item d) ∅) (concat ws) (f <$> m).
Proof.
  intros Hf Hws. assert (Forall2 (fun e w => reads item w e) (map f (sorted_values m)) ws) as Hws' by (clear Hf; induction Hws; constructor; done).
  assert (by_name (map f (sorted_values m)) = map (prod_map id f) (sorted m)) as Hby.
  { unfold by_name, sorted_values. rewrite !map_map. apply map_ext_in. intros [k e] Hin. cbn. f_equal. apply Hf. by apply sorted_in. }
  assert (map fst (by_name (map f (sorted_values m))) = map fst (sorted m)) as Hfst by (rewrite Hby, map_map; by apply map_ext; intros []).
  pose proof (read_named_reads item _ _ Hws' ∅) as Hr. rewrite Hfst in Hr. specialize (Hr (sorted_NoDup m) ltac:(done)).
  rewrite Hby in Hr. assert (length (map f (sorted_values m)) = Z.to_nat (slen m)) as El.
  { rewrite length_map. unfold sorted_values. rewrite length_map. pose proof (sorted_length m) as Hs. unfold len in Hs. lia. }
  rewrite El, (right_id_L ∅ (∪)) in Hr. change (map (prod_map id f) (sorted m)) with (prod_map id f <$> sorted m) in Hr.
  by rewrite list_to_map_fmap, sorted_list_to_map in Hr.
Qed.
Lemma Forall_sorted {A} (P : A -> Prop) (m : gmap bytes A) : (forall k e, m !! k = Some e -> P e) -> Forall P (sorted_values m).
Proof. intros HP. apply List.Forall_forall. intros e (k & Hk)%sorted_values_in. by eapply HP. Qed.

(** ** What is left to check *)

Lemma lowered_charge n : name_charge (lowered n) = name_charge n.
Proof. unfold name_charge, lowered, len. cbn [canonical labels]. by rewrite length_map. Qed.
Lemma moved_limits now now' elapsed r : limits r -> limits (moved now now' elapsed r).
Proof.
  intros [Hh Hs Hr Hb Hp]. split; cbn [moved hosts services replies].
  - assert (parents (moved now now' elapsed r) = parents r) as ->; [|exact Hh]. apply set_eq. intros n. rewrite !parents_in. cbn [moved hosts services].
    rewrite lookup_fmap, fmap_is_Some. apply or_iff_compat_l. split.
    + intros (k & e & He & <-). rewrite lookup_fmap in He. apply fmap_Some in He as (e0 & He0 & ->). exists k, e0. done.
    + intros (k & e & He & <-). exists k, (lowered e.1, moved_service now now' elapsed e.2). split; [by rewrite lookup_fmap, He|done].
  - unfold slen. by rewrite map_size_fmap.
  - unfold slen. by rewrite map_size_fmap.
  - unfold charge. cbn [moved hosts services replies]. rewrite !msum_fmap. unfold slen. rewrite map_size_fmap.
    rewrite (msum_ext _ (fun _ => host_charge)), (msum_ext (fun _ v => service_charge _) (fun _ => service_charge)); [exact Hb| |].
    + intros k [n s] _. unfold service_charge. cbn. by rewrite !lowered_charge.
    + intros k [n h] _. unfold host_charge. cbn. by rewrite lowered_charge.
  - intros n. unfold hosted, mcount. cbn [moved services]. rewrite msum_fmap. apply Hp.
Qed.

(** ** The whole journal *)

(** Receipts are at most half a minute old, as they are after [expire]. *)
Definition fresh (now : Z) (r : Registry) : Prop := forall d c, replies r !! d = Some c -> now - rc_received c <= 30000.

Section journal.
Context `{Crypto} (sha1 : bytes -> bytes) (digest_len : forall b, len (sha1 b) = 20).
Lemma read_body_reads now now' elapsed r wh ws : limits r -> 0 <= now -> entries_wf now r -> fresh now r ->
  Forall2 (fun e w => reads (fun d => read_host d now' elapsed) w (lowered e.1, moved_host now now' elapsed e.2)) (sorted_values (hosts r)) wh ->
  Forall2 (fun e w => reads (fun d => read_service d now' elapsed) w (lowered e.1, moved_service now now' elapsed e.2)) (sorted_values (services r)) ws ->
  forall pre, let data := pre ++ concat wh ++ concat ws ++ concat (map (put_reply now) (sorted (replies r))) in
  read_body data now' elapsed (slen (hosts r)) (slen (services r)) (slen (replies r)) (len pre) = (Ok (expire now' (moved now now' elapsed r)), len data).
Proof.
  intros Hlim Hn [Hh Hs Hr _] Hfresh Hwh Hws pre data. unfold read_body. set (wr := map (put_reply now) (sorted (replies r))) in *.
  pose proof (read_table (fun d => read_host d now' elapsed) (fun e => (lowered e.1, moved_host now now' elapsed e.2)) (hosts r) wh (fun k e He => proj1 (Hh k e He)) Hwh) as Rh.
  pose proof (read_table (fun d => read_service d now' elapsed) (fun e => (lowered e.1, moved_service now now' elapsed e.2)) (services r) ws (fun k e He => proj1 (Hs k e He)) Hws) as Rs.
  assert (reads (fun d => read_replies d now' elapsed (Z.to_nat (slen (replies r))) ∅) (concat wr) (moved_receipt now now' elapsed <$> replies r)) as Rr.
  { assert (Forall2 (fun e w => reads (fun d => read_reply d now' elapsed) w e) (map (prod_map id (moved_receipt now now' elapsed)) (sorted (replies r))) wr) as Hall.
    { unfold wr. assert (forall d c, In (d, c) (sorted (replies r)) -> replies r !! d = Some c) as Hin by (intros d c; by rewrite sorted_in).
      induction (sorted (replies r)) as [|[d c] l IH]; constructor; [|apply IH; intros; apply Hin; by right]. pose proof (Hin d c ltac:(by left)) as Hdc.
      apply put_reply_reads; [done|by apply Hr|by eapply Hfresh]. }
    assert (map fst (map (prod_map id (moved_receipt now now' elapsed)) (sorted (replies r))) = map fst (sorted (replies r))) as Hfst by (rewrite map_map; by apply map_ext; intros []).
    pose proof (read_replies_reads now' elapsed _ wr Hall ∅) as Hrr. rewrite Hfst in Hrr. specialize (Hrr (sorted_NoDup (replies r)) ltac:(done)).
    rewrite length_map, (right_id_L ∅ (∪)) in Hrr. pose proof (sorted_length (replies r)) as Hsl. unfold len in Hsl.
    replace (length (sorted (replies r))) with (Z.to_nat (slen (replies r))) in Hrr by lia.
    change (map (prod_map id ?f) ?l) with (prod_map id f <$> l) in Hrr. by rewrite list_to_map_fmap, sorted_list_to_map in Hrr. }
  assert (reads (fun d => hs ← read_named (Z.to_nat (slen (hosts r))) (read_host d now' elapsed) ∅;
                          ss ← read_named (Z.to_nat (slen (services r))) (read_service d now' elapsed) ∅;
                          rs ← read_replies d now' elapsed (Z.to_nat (slen (replies r))) ∅; mret (hs, ss, rs))
                (concat wh ++ concat ws ++ concat wr)
                ((fun e => (lowered e.1, moved_host now now' elapsed e.2)) <$> hosts r, (fun e => (lowered e.1, moved_service now now' elapsed e.2)) <$> services r,
                 moved_receipt now now' elapsed <$> replies r)) as Rall.
  { eapply (journal_reads_bind (fun d => read_named (Z.to_nat (slen (hosts r))) (read_host d now' elapsed) ∅) (fun hs d => ss ← read_named _ (read_service d now' elapsed) ∅; _)); [exact Rh|].
    eapply (journal_reads_bind (fun d => read_named (Z.to_nat (slen (services r))) (read_service d now' elapsed) ∅) (fun ss d => rs ← read_replies d now' elapsed _ ∅; _)); [exact Rs|].
    eapply (reads_then (fun d => read_replies d now' elapsed _ ∅) (fun rs d => _)); [exact Rr|]. apply journal_reads_ret. }
  specialize (Rall pre []). rewrite app_nil_r in Rall. fold data in Rall. cbv [mbind M_bind get throw lift mret M_ret] in Rall |- *.
  destruct (read_named (Z.to_nat (slen (hosts r))) _ ∅ _) as [[hs|e|] p1]; [|done|done].
  destruct (read_named (Z.to_nat (slen (services r))) _ ∅ _) as [[ss|e|] p2]; [|done|done].
  destruct (read_replies _ _ _ _ _ _) as [[rs|e|] p3]; [|done|done]. injection Rall as -> -> -> Hp.
  assert (p3 = len data) as -> by (rewrite Hp; symmetry; apply len_app). rewrite Z.eqb_refl. cbn [negb].
  change (mkRegistry _ _ _ default_policy) with (moved now now' elapsed r).
  destruct (check_bounds_spec (moved now now' elapsed r)) as [Hc _]. rewrite (proj2 Hc (moved_limits now now' elapsed r Hlim)). done.
Qed.

Lemma encode_shape now wall r b : 0 <= now -> entries_wf now r -> journal_encode sha1 now wall r = Ok b ->
  forall now' elapsed, exists wh ws, let body := put_header wall r ++ concat wh ++ concat ws ++ concat (map (put_reply now) (sorted (replies r))) in
    b = body ++ sha1 body /\ len b <= MAX_BYTES /\
    Forall2 (fun e w => reads (fun d => read_host d now' elapsed) w (lowered e.1, moved_host now now' elapsed e.2)) (sorted_values (hosts r)) wh /\
    Forall2 (fun e w => reads (fun d => read_service d now' elapsed) w (lowered e.1, moved_service now now' elapsed e.2)) (sorted_values (services r)) ws.
Proof.
  intros Hn [Hh Hs _ _] He now' elapsed. unfold journal_encode in He. apply bind_Ok in He as (b1 & H1 & He). apply bind_Ok in He as (b2 & H2 & He).
  cbv zeta in He. destruct (Z.ltb_spec MAX_BYTES (len ((b2 ++ concat (map (put_reply now) (sorted (replies r)))) ++ sha1 (b2 ++ concat (map (put_reply now) (sorted (replies r))))))) as [|Hl]; [done|].
  injection He as <-.
  pose proof (fold_reads (put_host now) (fun d => read_host d now' elapsed) (fun e => (lowered e.1, moved_host now now' elapsed e.2)) (fun e => name_ok e.1 /\ host_wf now e.1 e.2) (sorted_values (hosts r))) as Fh.
  destruct (Fh ltac:(intros b x b' [? ?]; by apply put_host_reads) ltac:(apply Forall_sorted; intros k e Hk; apply (Hh k e Hk)) _ _ H1) as (wh & -> & Hwh).
  pose proof (fold_reads (put_service now) (fun d => read_service d now' elapsed) (fun e => (lowered e.1, moved_service now now' elapsed e.2)) (fun e => name_ok e.1 /\ service_wf now e.1 e.2) (sorted_values (services r))) as Fs.
  destruct (Fs ltac:(intros b x b' [? ?]; by apply put_service_reads) ltac:(apply Forall_sorted; intros k e Hk; apply (Hs k e Hk)) _ _ H2) as (ws & -> & Hws).
  exists wh, ws. cbv zeta. rewrite <-!app_assoc in *. done.
Qed.
Lemma srp_magic_len : len journal_magic = 11.
Proof. reflexivity. Qed.

Lemma srp_restart_of now wall now' wall' r b : registry_wf now r -> fresh now r -> 0 <= now -> is_u64 wall ->
  journal_encode sha1 now wall r = Ok b ->
  restore sha1 b now' wall' = Ok (expire now' (moved now now' (sat_mul64 (sat_sub wall' wall) 1000) r)).
Proof.
  intros [Hw Hlim%check_bounds_spec] Hfresh Hn Hwall He. set (elapsed := sat_mul64 (sat_sub wall' wall) 1000).
  destruct (encode_shape now wall r b Hn Hw He now' elapsed) as (wh & ws & -> & Hl & Hwh & Hws). cbv zeta in Hl |- *.
  set (rest := concat wh ++ concat ws ++ concat (map (put_reply now) (sorted (replies r)))) in *. set (body := put_header wall r ++ rest) in *.
  pose proof (digest_len body) as Hd. set (tail := sha1 body) in *. pose proof Hlim as [L1 L2 L3 _ _].
  assert (slen (hosts r) <= 128) as L1' by (etrans; [|exact L1]; unfold slen; rewrite <-size_dom; apply inj_le, subseteq_size; unfold parents; set_solver).
  pose proof (slen_nonneg (hosts r)). pose proof (slen_nonneg (services r)). pose proof (slen_nonneg (replies r)).
  assert (put_header wall r = journal_magic ++ be64 wall ++ be16 (slen (hosts r)) ++ be16 (slen (services r)) ++ be16 (slen (replies r))) as Eh
    by (unfold put_header; by rewrite !Z.mod_small by lia).
  assert (len (put_header wall r) = 25) as Hhl by (rewrite Eh; reflexivity). pose proof (len_nonneg rest).
  assert (len body = 25 + len rest) as Hbl by (unfold body; rewrite len_app; lia).
  unfold restore, journal_decode. rewrite (len_app body tail), Hd, srp_magic_len in *.
  destruct (Z.ltb_spec MAX_BYTES (len body + 20)); [lia|]. destruct (Z.ltb_spec (len body + 20) (11 + 32)); [lia|].
  assert (starts_with (body ++ tail) journal_magic = true) as -> by (unfold body; rewrite Eh, <-!app_assoc; apply starts_with_app). cbn [orb negb].
  unfold sub_chk. destruct (Z.leb_spec 20 (len body + 20)); [|lia]. cbn [mbind outcome_bind]. replace (len body + 20 - 20) with (len body) by lia.
  rewrite (slice_mid [] body tail 0 (len body) eq_refl eq_refl), (slice_from_app body tail (len body) eq_refl). cbn [mbind outcome_bind].
  fold tail. rewrite beq_refl. cbn [negb].
  assert (reads (fun d => saved ← read_int d 8; hosts_ ← read_int d 2; services_ ← read_int d 2; replies_ ← read_int d 2; mret (saved, hosts_, services_, replies_))
    (be64 wall ++ be16 (slen (hosts r)) ++ be16 (slen (services r)) ++ be16 (slen (replies r))) (wall, slen (hosts r), slen (services r), slen (replies r))) as Rh.
  { eapply (journal_reads_bind (fun d => read_int d 8) (fun saved d => hosts_ ← read_int d 2; services_ ← read_int d 2; replies_ ← read_int d 2; _)); [by apply reads_64|].
    eapply (journal_reads_bind (fun d => read_int d 2) (fun hosts_ d => services_ ← read_int d 2; replies_ ← read_int d 2; _)); [apply reads_16; u_lia|].
    eapply (journal_reads_bind (fun d => read_int d 2) (fun services_ d => replies_ ← read_int d 2; _)); [apply reads_16; u_lia|].
    eapply (reads_then (fun d => read_int d 2) (fun replies_ d => _)); [apply reads_16; u_lia|]. apply journal_reads_ret. }
  specialize (Rh journal_magic rest). rewrite (app_assoc journal_magic), <-Eh, srp_magic_len in Rh. fold body in Rh.
  cbv [mbind M_bind mret M_ret] in Rh |- *.
  destruct (read_int body 8 11) as [[saved|e|] p1]; [|done|done]. destruct (read_int body 2 p1) as [[h|e|] p2]; [|done|done].
  destruct (read_int body 2 p2) as [[sv|e|] p3]; [|done|done]. destruct (read_int body 2 p3) as [[rp|e|] p4]; [|done|done].
  injection Rh as -> -> -> -> ->. destruct (Z.ltb_spec 128 (slen (hosts r))); [lia|]. destruct (Z.ltb_spec 1024 (slen (services r))); [lia|].
  destruct (Z.ltb_spec 128 (slen (replies r))); [lia|]. cbn [orb].
  pose proof (read_body_reads now now' elapsed r wh ws Hlim Hn Hw Hfresh Hwh Hws (put_header wall r)) as Rb. cbv zeta in Rb. fold rest in Rb. fold body in Rb.
  rewrite Hhl in Rb. fold elapsed. change (11 + len _) with 25. by rewrite Rb.
Qed.
End journal.
