(* ===== verification/SrpHistory.v ===== *)
(** Histories of the registry: updates, the passing of time and restarts. *)

From S2P Require Import Prelude Effects Maps DnsWire DnsFacts Stateful Ordered Identity Text Journal JournalFacts Names SrpWire Srp SrpFacts SrpJournal.

(** ** Saving does not panic *)

Section saving.
Context `{Crypto} (sha1 : bytes -> bytes).
Lemma fold_ok_safe {A B} (f : B -> A -> outcome io_error B) l : (forall b x, In x l -> safe (f b x)) -> forall b, safe (fold_ok f b l).
Proof.
  induction l as [|x l IH]; intros Hf b; cbn [fold_ok]; [done|]. apply safe_bind; [apply Hf; by left|]. intros c _. apply IH. intros ? ? ?. apply Hf. by right.
Qed.
Lemma wf_addresses now n h : host_wf now n h -> Forall (record_wf 0) (h_addresses h).
Proof. intros [_ Ha _ _]. eapply List.Forall_impl; [|exact Ha]. by intros r []. Qed.
Lemma wf_records now n s : service_wf now n s -> Forall (record_wf 0) (sv_records s) /\ Forall (record_wf 0) (sv_discovery s).
Proof. intros [_ _ Hr Hd _ _]. split; (eapply List.Forall_impl; [|eassumption]); by intros r []. Qed.
Lemma journal_encode_nonempty now wall r b : (forall b, len (sha1 b) = 20) -> journal_encode sha1 now wall r = Ok b -> b <> [].
Proof.
  unfold journal_encode. intros digest_len He. inv_ok_hyp He. subst b. intros [_ Hd]%app_eq_nil. match type of Hd with sha1 ?x = [] => pose proof (digest_len x) as Hl end. by rewrite Hd in Hl.
Qed.
Lemma journal_encode_safe now wall r : entries_wf now r -> safe (journal_encode sha1 now wall r).
Proof.
  intros [Hh Hs _ _]. unfold journal_encode. apply safe_bind.
  - apply fold_ok_safe. intros b [n h] (k & Hk)%sorted_values_in. destruct (Hh k _ Hk) as (_ & _ & Hw). apply put_each_safe. by eapply wf_addresses.
  - intros b _. apply safe_bind; [|intros; by case_match]. apply fold_ok_safe. intros b' [n s] (k & Hk)%sorted_values_in.
    destruct (Hs k _ Hk) as (_ & _ & Hw). destruct (wf_records _ _ _ Hw) as [H1 H2]. apply safe_bind; [by apply put_each_safe|]. intros ? _. by apply put_each_safe.
Qed.
End saving.

(** ** Operations and restarts keep the invariant *)

Section keeps.
Context `{Crypto}.
Lemma expire_wf now r : registry_wf now r -> registry_wf now (expire now r).
Proof. intros [Hw Hl%check_bounds_spec]. split; [by apply expire_entries|]. by apply check_bounds_spec, expire_limits. Qed.
Lemma registry_later now now' r : now <= now' -> registry_wf now r -> registry_wf now' r.
Proof. intros Hle [Hw Hl]. split; [by eapply entries_later|done]. Qed.
Lemma next_fresh u g now r next : entries_wf now r -> next_registry u g now r = Ok next -> fresh now next.
Proof.
  intros Hw Hn d c Hc. unfold next_registry in Hn. apply bind_Ok in Hn as (x & Hx & Hn). apply bind_Ok in Hn as (room & Hroom & [= <-]).
  assert (replies x = replies (expire now r)) as Ex.
  { unfold install in Hx. case_match; [by injection Hx as <-|]. apply bind_Ok in Hx as (a & _ & Hx). by apply bind_Ok in Hx as (ss & _ & [= <-]). }
  cbn [put_replies replies] in Hc. apply lookup_insert_Some in Hc as [[_ <-]|[_ Hc]]; [cbn; lia|].
  assert (replies x !! d = Some c) as Hd.
  { unfold make_room in Hroom. case_match; [|by injection Hroom as <-]. apply bind_Ok in Hroom as (o & _ & [= <-]). by apply lookup_delete_Some in Hc as []. }
  rewrite Ex in Hd. apply map_lookup_filter_Some in Hd as [Hd Hlive]. destruct (ew_replies _ _ Hw d c Hd) as [_ _ _ [_ Hr]]. cbn in Hlive. lia.
Qed.

Lemma default_policy_ok : policy_ok default_policy.
Proof. unfold policy_ok, default_policy. cbn [max_lease max_key_lease min_ttl max_ttl]. u_lia. Qed.
(** A lease after a restart. *)
Lemma moved_leases now now' elapsed e k : 0 <= now -> 0 <= now' <= u64_max -> 0 <= elapsed -> leases_ok now e k ->
  leases_ok now' (moved_end now now' elapsed e) (moved_end now now' elapsed k).
Proof.
  intros Hn Hn' He (H1 & H2 & H3). unfold leases_ok, moved_end, deadline_after, sat_sub, sat64, sat_add, max_remaining in *.
  destruct (Z.leb_spec (Z.max (e - now) 0) elapsed), (Z.leb_spec (Z.max (k - now) 0) elapsed); u_lia.
Qed.
Lemma moved_end_live now now' elapsed t : 0 <= now' -> 0 <= elapsed -> now' < moved_end now now' elapsed t -> now < t /\ moved_end now now' elapsed t <= now' + (t - now) - elapsed.
Proof. intros Hn' He. unfold moved_end, deadline_after, sat64, sat_add, sat_sub. destruct (Z.leb_spec (Z.max (t - now) 0) elapsed); lia. Qed.
Lemma lowered_ok n : name_ok n -> name_ok (lowered n).
Proof.
  intros [[Hl Hc] Hne]. destruct (lowered_labels _ Hl) as [Hl' Hc']. unfold name_ok, name_wf, lowered. cbn [labels canonical].
  split; [split; [done|by rewrite Hc']|]. by destruct (labels n).
Qed.
Lemma named_wf_moved {A} (P Q : Name -> A -> Prop) (f : A -> A) m : (forall n a, P n a -> Q (lowered n) (f a)) ->
  named_wf P m -> named_wf Q ((fun e => (lowered e.1, f e.2)) <$> m).
Proof.
  intros Hf Hm k e. rewrite lookup_fmap. destruct (m !! k) as [[n a]|] eqn:E; [|done]. cbn. intros [= <-]. cbn [fst snd].
  destruct (Hm _ _ E) as (? & ? & ?). split_and!; [done|by apply lowered_ok|by apply Hf].
Qed.
Lemma restarted_wf now now' elapsed r : 0 <= now -> 0 <= now' <= u64_max -> 0 <= elapsed -> registry_wf now r ->
  registry_wf now' (expire now' (moved now now' elapsed r)).
Proof.
  intros Hn Hn' He [[Hh Hs Hr Hp] Hl%check_bounds_spec]. split; [|by apply check_bounds_spec, expire_limits, moved_limits].
  split; [| | |exact default_policy_ok].
  - cbn [expire hosts moved]. apply (named_wf_map (host_wf now') _ (fun e => rest_host now' e.2)); [intros; by apply rest_host_wf|]. apply named_wf_filter.
    apply (named_wf_moved (host_wf now)); [|done]. intros n h [Hk Ha Hc Hle]. split; cbn; try done. by apply moved_leases.
  - cbn [expire services moved]. set (hs := (fun e : Name * Host => (e.1, rest_host now' e.2)) <$> _).
    apply (named_wf_map (service_wf now') _ (fun e => rest_service now' hs e.2)).
    { intros n s Hw. cbn. unfold rest_service. case_match; [by apply silence_service_wf|done]. }
    apply named_wf_filter. apply (named_wf_moved (service_wf now)); [|done]. intros n s [Hh' Hk Hrs Hds Hc Hle]. split; cbn; try done; [by apply lowered_ok|by apply moved_leases].
  - cbn [expire replies moved]. intros d c [Hc Hlive]%map_lookup_filter_Some. cbn in Hlive. rewrite lookup_fmap in Hc.
    apply fmap_Some in Hc as (c0 & Hc0 & ->). destruct (Hr d c0 Hc0) as [Hd Hg Hex Hrc]. cbn [moved_receipt rc_expires] in Hlive.
    destruct (moved_end_live _ _ _ _ (proj1 Hn') He Hlive) as [Ht Hle]. split; [done|done| |]; cbn [moved_receipt rc_expires rc_received rc_grant].
    + unfold moved_end, deadline_after, sat64, sat_add in *. case_match; u_lia.
    + unfold moved_age, age. u_lia.
Qed.
Lemma restarted_holds now now' elapsed r n k : 0 <= now' -> 0 <= elapsed -> holds_name now' (expire now' (moved now now' elapsed r)) n k -> holds_name now r n k.
Proof.
  intros Hn' He Hk. apply expire_holds in Hk. unfold holds_name, get_named in *. cbn [moved hosts services] in Hk. rewrite !lookup_fmap in Hk.
  destruct Hk as [(h & Hh & Hk & Ht)|(s & Hs & Hk & Ht)]; [left|right].
  - destruct (hosts r !! canonical n) as [[n0 h0]|]; [|done]. injection Hh as <-. cbn in Hk, Ht. exists h0. by destruct (moved_end_live _ _ _ _ Hn' He Ht).
  - destruct (services r !! canonical n) as [[n0 s0]|]; [|done]. injection Hs as <-. cbn in Hk, Ht. exists s0. by destruct (moved_end_live _ _ _ _ Hn' He Ht).
Qed.
End keeps.

(** ** Theorems *)

Section apply.
Context `{Crypto} (sha1 : bytes -> bytes) {S : Type} `{StateStore S}.
(** C11. Names are first come, first served: after any update, granted or refused, every
    name that has a holder has the one it had, or was free and is held by the key of the
    update that names it.  No two entries of one name are ever under different keys. *)
Theorem srp_first_come accept u now wall r s : one_key now r ->
  let '(res, (r', _)) := apply_checked sha1 accept u now wall (r, s) in
  res = Panic \/
  one_key now r' /\ forall n k', registry_key n now r' = Some k' ->
    match registry_key n now r with
    | Some k => same_public_key k k' = true
    | None => k' = u_key u /\ named_by u n /\ is_ok res = true
    end.
Proof. apply srp_first_come_of. Qed.
End apply.
Section restart.
Context `{Crypto} (sha1 : bytes -> bytes) (digest_len : forall b, len (sha1 b) = 20).
(** C13. A restart loses nothing: the bytes that a well-formed registry is saved as are read
    back, at any time of either clock, as the registry that was saved, with the same names,
    hosts, services, keys, records and grants; every lease has what it had left at the save,
    less the time the wall clock says has passed, and what has run out is expired. The
    registry to be saved has no cached reply older than thirty seconds ([fresh]), as every
    registry that an update has just changed; the policy is not in the snapshot and is the
    default one after the restart ([moved]). *)
Theorem srp_restart now wall now' wall' r b : registry_wf now r -> fresh now r -> 0 <= now -> is_u64 wall ->
  journal_encode sha1 now wall r = Ok b ->
  restore sha1 b now' wall' = Ok (expire now' (moved now now' (sat_mul64 (sat_sub wall' wall) 1000) r)).
Proof. by apply srp_restart_of. Qed.
End restart.

Section histories.
Context `{Crypto} (sha1 : bytes -> bytes) (digest_len : forall b, len (sha1 b) = 20).
Context {S : Type} `{StoreLaws S}.

(** Every branch of an update, when the registry is well formed: it does not panic. *)
Lemma apply_safe accept u now wall r s : registry_wf now r -> update_ok u -> 0 <= now <= u64_max -> (forall x, safe (accept x)) ->
  (apply_checked sha1 accept u now wall (r, s)).1 <> Panic.
Proof.
  intros [Hw _] Hu Hn Ha Hp. pose proof (apply_cases sha1 accept u now wall r s) as Hc. pose proof (next_registry_ok u (granted u (policy r)) now r Hw Hu Hn) as Hx.
  destruct (granted_ok u (policy r) (ew_policy _ _ Hw)) as [G1 G2]; [apply Hu|apply Hu|]. specialize (Hx G1 G2).
  destruct (apply_checked sha1 accept u now wall (r, s)) as [[g|e|] [r' s']]; [done|done|]. destruct Hc as [Hc|(next & Hnext & Hc)]; [by rewrite Hc in Hx|].
  rewrite Hnext in Hx. destruct Hc as [Hc|[Hc|[Hc|(b & Hb & Hc)]]].
  - destruct (check_bounds_spec next) as [_ [Hb|Hb]]; congruence.
  - by apply (Ha next).
  - by apply (journal_encode_safe sha1 now wall next Hx).
  - pose proof (save_law b s (journal_encode_nonempty sha1 now wall next b digest_len Hb)) as Hs. by destruct (save b s) as [[]].
Qed.
Lemma next_wf u now r next : registry_wf now r -> update_ok u -> 0 <= now <= u64_max ->
  next_registry u (granted u (policy r)) now r = Ok next -> check_bounds next = Ok tt -> registry_wf now next.
Proof.
  intros [Hw _] Hu Hn Hnext Hb. destruct (granted_ok u (policy r) (ew_policy _ _ Hw)) as [G1 G2]; [apply Hu|apply Hu|].
  pose proof (next_registry_ok u (granted u (policy r)) now r Hw Hu Hn G1 G2) as Hx. by rewrite Hnext in Hx.
Qed.
Lemma apply_wf accept u now wall r s : registry_wf now r -> update_ok u -> 0 <= now <= u64_max -> (forall x, safe (accept x)) ->
  registry_wf now (apply_checked sha1 accept u now wall (r, s)).2.1.
Proof.
  intros Hr Hu Hn Ha. pose proof (apply_cases sha1 accept u now wall r s) as Hc. pose proof (apply_safe accept u now wall r s Hr Hu Hn Ha) as Hsafe.
  destruct (apply_checked sha1 accept u now wall (r, s)) as [[g|e|] [r' s']]; [| |done]; cbn [fst snd].
  - destruct Hc as [(-> & _)|(_ & _ & -> & _ & Hnext & Hb' & _)]; [done|]. by apply (next_wf u now r).
  - by destruct Hc as [-> _].
Qed.

(** C6. An update is granted only when a restart would find it. After a grant the store holds
    bytes from which, at any time of either clock, the new registry is restored; a repeated
    update is answered from memory, and registry and store are as they were. A refusal leaves
    the registry as it was and the store with its old bytes, or, when it was the save that
    failed, with the bytes of the refused registry, which a restart would then find. No update
    panics. *)
Theorem srp_apply_durable accept u now wall r s : registry_wf now r -> update_ok u -> 0 <= now <= u64_max -> is_u64 wall -> (forall x, safe (accept x)) ->
  let saved b next := forall now' wall', restore sha1 b now' wall' = Ok (expire now' (moved now now' (sat_mul64 (sat_sub wall' wall) 1000) next)) in
  match apply_checked sha1 accept u now wall (r, s) with
  | (Ok g, (r', s')) => (r' = r /\ s' = s /\ cached_digest (u_digest u) now r = Some g) \/
      (next_registry u g now r = Ok r' /\ exists b, stored s' = Some b /\ saved b r')
  | (Err e, (r', s')) => r' = r /\ (stored s' = stored s \/
      (e = ServFail /\ exists b next, stored s' = Some b /\ next_registry u (granted u (policy r)) now r = Ok next /\ saved b next))
  | (Panic, _) => False
  end.
Proof.
  intros Hr Hu Hn Hwall Ha saved. pose proof (apply_safe accept u now wall r s Hr Hu Hn Ha) as Hsafe. pose proof (apply_wf accept u now wall r s Hr Hu Hn Ha) as Hwf.
  pose proof (apply_cases sha1 accept u now wall r s) as Hc. destruct (apply_checked sha1 accept u now wall (r, s)) as [[g|e|] [r' s']]; [| |done]; cbn [fst snd] in *.
  - destruct Hc as [Hc|(_ & _ & -> & _ & Hnext & _ & _ & b & Hb & Hs)]; [by left|right]. split; [done|]. exists b.
    pose proof (save_law b s (journal_encode_nonempty sha1 now wall r' b digest_len Hb)) as Hl. rewrite Hs in Hl. split; [done|]. intros now' wall'.
    apply (srp_restart_of sha1 digest_len now wall now' wall' r' b); try done; [|lia]. by eapply next_fresh; [apply Hr|].
  - destruct Hc as [-> Hc]. split; [done|]. destruct Hc as [->|(-> & next & b & Hnext & Hbn & Hb & -> & Hfail)]; [by left|].
    pose proof (save_law b s (journal_encode_nonempty sha1 now wall next b digest_len Hb)) as Hl. destruct (save b s) as [[]]; [done| |done]. cbn [fst snd] in *. destruct Hl as [->|Hl]; [by left|right]. split; [done|]. exists b, next.
    split; [done|]. split; [done|]. intros now' wall'. apply (srp_restart_of sha1 digest_len now wall now' wall' next b); try done; [|by eapply next_fresh; [apply Hr|]|lia].
    by apply (next_wf u now r).
Qed.

(** The registries that a history of updates, expiry, changes of policy and restarts reaches;
    the clock goes on, and starts anywhere after a restart, which finds what was saved. *)
Inductive srp_reachable : Z -> Registry -> Prop :=
| sr_start now p : 0 <= now <= u64_max -> policy_ok p -> srp_reachable now (put_policy p registry_default)
| sr_later now now' r : srp_reachable now r -> now <= now' <= u64_max -> srp_reachable now' r
| sr_policy now r p r' : srp_reachable now r -> set_policy p r = Ok r' -> max_key_lease p <= u32_max -> 0 <= max_lease p -> 0 <= min_ttl p -> srp_reachable now r'
| sr_expire now r : srp_reachable now r -> srp_reachable now (expire now r)
| sr_apply now wall r accept u s : srp_reachable now r -> update_ok u -> (forall x, safe (accept x)) ->
    srp_reachable now (apply_checked sha1 accept u now wall (r, s)).2.1
| sr_restart now wall r b now' wall' r' : srp_reachable now r -> fresh now r -> is_u64 wall -> is_u64 wall' -> 0 <= now' <= u64_max ->
    journal_encode sha1 now wall r = Ok b -> restore sha1 b now' wall' = Ok r' -> srp_reachable now' r'.

Lemma srp_reachable_wf now r : srp_reachable now r -> 0 <= now <= u64_max /\ registry_wf now r /\ one_key now r.
Proof.
  intros Hr.
  induction Hr as [now p Hn Hp|now now' r _ (Hn & Hw & Hk) Hle|now r p r' _ (Hn & Hw & Hk) Hset P1 P2 P3|now r _ (Hn & Hw & Hk)|now wall r accept u s _ (Hn & Hw & Hk) Hu Ha
                  |now wall r b now' wall' r' _ (Hn & Hw & Hk) Hf Hwall Hwall' Hn' Hb Hres].
  - split; [done|]. split; [|by intros n k1 k2 [(h & Hh & _)|(h & Hh & _)]]. split; [by split|reflexivity].
  - split; [lia|]. split; [apply (registry_later now); [lia|done]|apply (one_key_later now); [lia|done]].
  - unfold set_policy in Hset. apply bind_Ok in Hset as (p' & Hv & [= <-]). unfold policy_validate in Hv.
    destruct (_ || _) eqn:E; [done|]. injection Hv as <-. rewrite !orb_false_iff, !Z.ltb_ge, !Z.eqb_neq in E. split; [done|]. split; [|exact Hk].
    destruct Hw as [[? ? ? _] Hl]. split; [split; [done..|]|done]. unfold policy_ok. cbn [put_policy policy]. lia.
  - split; [done|]. split; [by apply expire_wf|]. intros n k1 k2 K1 K2. eapply (Hk n); by eapply expire_holds.
  - split; [done|]. split; [by apply apply_wf|]. pose proof (srp_first_come_of sha1 accept u now wall r s Hk) as Hc. pose proof (apply_safe accept u now wall r s Hw Hu Hn Ha) as Hsafe.
    destruct (apply_checked sha1 accept u now wall (r, s)) as [res [r' s']]. destruct Hc as [Hc|[Hc _]]; [done|exact Hc].
  - assert (0 <= sat_mul64 (sat_sub wall' wall) 1000) as He by (unfold sat_mul64, sat_sub; u_lia).
    rewrite (srp_restart_of sha1 digest_len now wall now' wall' r b Hw Hf (proj1 Hn) Hwall Hb) in Hres. injection Hres as <-. split; [done|]. split; [apply (restarted_wf now); [lia|done..]|].
    intros n k1 k2 K1 K2. eapply (Hk n); eapply (restarted_holds now now' (sat_mul64 (sat_sub wall' wall) 1000)); done || lia.
Qed.

(** C5. Every registry that is ever reached is well formed, stays within its limits (128
    hosts, 1024 services, eight of a host, 128 replies and four MiB) and never has a name
    under two keys. *)
Theorem srp_registry_invariant now r : srp_reachable now r -> entries_wf now r /\ limits r /\ one_key now r.
Proof. intros Hr. destruct (srp_reachable_wf now r Hr) as (_ & [Hw Hl%check_bounds_spec] & Hk). done. Qed.
End histories.

(** ** A registration, a rival and a restart *)

(** A host with an address and a service, under keys of 64 equal bytes; any key and any
    signature will do here. *)
Definition any_curve : Curve := mkCurve (fun _ => true) (fun _ => true) (fun _ _ _ => true).
Definition any_crypto : Crypto := {| p256 := any_curve; p384 := any_curve; ed25519 := any_curve; ed448 := any_curve; ed25519_weak := fun _ => false; sha256 := fun _ => zeros 32 |}.
Definition no_digest (_ : bytes) : bytes := zeros 20.
Definition sample_name (ls : list bytes) : Name := mkName ls (canonical_of ls).
Definition sample_zone : Name := sample_name [ascii "arpa"].
Definition sample_host : Name := sample_name [ascii "Host"; ascii "arpa"].
Definition sample_service : Name := sample_name [ascii "lamp"; ascii "_hap"; ascii "_udp"; ascii "arpa"].
Definition sample_type : Name := sample_name [ascii "_hap"; ascii "_udp"; ascii "arpa"].
Definition sample_key (x : Z) : Key := mkKey 513 3 13 (replicate 64 x).
Definition sample_update (x : Z) : Update :=
  mkUpdate (replicate 32 x) 7 sample_zone sample_host (sample_key x) [mkRr sample_host 28 1 120 (RdAaaa (replicate 16 x))]
    [mkServiceUpdate sample_service [mkRr sample_service 33 1 120 (RdSrv 0 0 80 sample_host); mkRr sample_service 16 1 120 (RdTxt [[]])]
       [mkRr sample_type 12 1 120 (RdName sample_service)] false] 3600 7200 true.
Definition sample_apply (x now : Z) := apply_checked (S:=MemoryStore) no_digest (fun _ => Ok tt) (sample_update x) now 0.
Definition sample_registry : Registry := (sample_apply 1 1000 (registry_default, mkMemoryStore None)).2.1.
Definition sample_store : MemoryStore := (sample_apply 1 1000 (registry_default, mkMemoryStore None)).2.2.

Lemma sample_name_ok ls : ls <> [] -> Forall label_ok ls -> (1 + total (map (fun l => len l + 1) ls) <=? 255) = true -> name_ok (sample_name ls).
Proof. intros Hne Hl Ht%Z.leb_le. done. Qed.
Ltac label_tac := repeat (apply List.Forall_cons; [split; [apply ascii_bytes|vm_compute; split; discriminate]|]); apply List.Forall_nil.
Lemma sample_names : name_ok sample_host /\ name_ok sample_service /\ name_ok sample_type.
Proof. split; [|split]; (apply sample_name_ok; [done|label_tac|vm_compute; reflexivity]). Qed.
Lemma is_bytes_replicate n x : is_u8 x -> is_bytes (replicate n x).
Proof. intros Hx. unfold is_bytes. induction n; constructor; done. Qed.
Lemma sample_update_ok x : is_u8 x -> @update_ok any_crypto (sample_update x).
Proof.
  intros Hx. destruct sample_names as (Hh & Hs & Ht). pose proof (is_bytes_replicate 16 x Hx). pose proof (is_bytes_replicate 32 x Hx). pose proof (is_bytes_replicate 64 x Hx).
  assert (forall k, (k <=? 65535) = true -> (0 <=? k) = true -> is_u16 k) as U by (intros k K1%Z.leb_le K2%Z.leb_le; u_lia). assert (is_u32 120) by u_lia.
  split; cbn; [done|done|split_and!; try done; by apply U| | | |split; [lia|u_lia]].
  - apply List.Forall_cons; [|apply List.Forall_nil]. split; [split_and!; cbn; try done; try (by apply U); by destruct Hh|]. done.
  - unfold len. cbn. lia.
  - apply List.Forall_cons; [|apply List.Forall_nil]. split; cbn; [done| | |].
    + apply List.Forall_cons; [|apply List.Forall_cons; [|apply List.Forall_nil]].
      * split; [split_and!; cbn; try done; try (by apply U); first [by destruct Hs|split_and!; try done; try (by apply U); by destruct Hh]|]. done.
      * split; [split_and!; cbn; try done; try (by apply U); first [by destruct Hs|split_and!; try done; apply List.Forall_cons; [split; [constructor|done]|apply List.Forall_nil]]|]. done.
    + apply List.Forall_cons; [|apply List.Forall_nil]. split; [split_and!; cbn; try done; try (by apply U); first [by destruct Ht|split; [by right; right; left|by destruct Hs]]|].
      split; [done|]. split; [done|]. by exists sample_service.
    + unfold len. cbn. lia.
Qed.
Lemma default_wf now : @registry_wf any_crypto now registry_default.
Proof. split; [|reflexivity]. split; [done..|]. exact default_policy_ok. Qed.
Lemma any_accept (x : Registry) : safe ((fun _ : Registry => Ok (E:=Error) tt) x).
Proof. done. Qed.
Lemma no_digest_len b : len (no_digest b) = 20.
Proof. reflexivity. Qed.
Lemma sample_registry_wf : @registry_wf any_crypto 1000 sample_registry.
Proof.
  unfold sample_registry, sample_apply.
  apply (@apply_wf any_crypto no_digest no_digest_len MemoryStore _ _); [apply default_wf|apply sample_update_ok; u_lia|u_lia|apply any_accept].
Qed.
Lemma sample_fresh : fresh 1000 sample_registry.
Proof.
  pose proof (apply_cases no_digest (fun _ => Ok tt) (sample_update 1) 1000 0 registry_default (mkMemoryStore None)) as Hc.
  unfold sample_registry, sample_apply. destruct (apply_checked no_digest (fun _ => Ok tt) (sample_update 1) 1000 0 (registry_default, mkMemoryStore None)) as [res [r s]] eqn:E.
  destruct res as [g|e|]; [|by destruct Hc as [-> _]|apply (f_equal (fun x => is_ok x.1)) in E; vm_compute in E; discriminate E]. destruct Hc as [(-> & _)|(_ & _ & _ & _ & Hn & _)]; [done|].
  apply (@next_fresh any_crypto _ _ _ _ _ (proj1 (default_wf 1000)) Hn).
Qed.
Lemma nobody_holds now : one_key now registry_default.
Proof. by intros n k1 k2 [(h & Hh & _)|(h & Hh & _)]. Qed.

(** The second key is refused the name of the first, also in other letters' case. *)
Lemma srp_first_come_witness : one_key 1000 sample_registry /\ registry_key (sample_name [ascii "hOST"; ascii "ARPA"]) 2000 sample_registry = Some (sample_key 1) /\
  (sample_apply 2 2000 (sample_registry, sample_store)).1 = Err YxDomain.
Proof.
  split; [|split; [vm_compute; reflexivity|vm_compute; reflexivity]].
  pose proof (srp_first_come no_digest (fun _ => Ok tt) (sample_update 1) 1000 0 registry_default (mkMemoryStore None) (nobody_holds 1000)) as H.
  unfold sample_registry, sample_apply. destruct (apply_checked no_digest (fun _ => Ok tt) (sample_update 1) 1000 0 (registry_default, mkMemoryStore None)) as [res [r s]] eqn:E.
  destruct H as [->|[H _]]; [|exact H]. apply (f_equal (fun x => is_ok x.1)) in E. vm_compute in E. discriminate E.
Defined.
(** The service has 3000 of its 3600 seconds left after ten minutes. *)
Lemma srp_restart_witness : exists b, journal_encode no_digest 1000 0 sample_registry = Ok b /\
  @restore any_crypto no_digest b 5 600 = Ok (expire 5 (moved 1000 5 600000 sample_registry)) /\
  sv_expires <$> get_named sample_service (services (expire 5 (moved 1000 5 600000 sample_registry))) = Some (5 + 3000000).
Proof.
  destruct (journal_encode no_digest 1000 0 sample_registry) as [b|e|] eqn:E; [|vm_compute in E; discriminate E|vm_compute in E; discriminate E].
  exists b. split; [reflexivity|]. split; [|vm_compute; reflexivity].
  apply (@srp_restart any_crypto no_digest no_digest_len 1000 0 5 600 sample_registry b sample_registry_wf); [|lia|u_lia|exact E].
  exact sample_fresh.
Defined.
Lemma srp_apply_durable_witness : exists g b, (sample_apply 1 1000 (registry_default, mkMemoryStore None)).1 = Ok g /\ ms_bytes sample_store = Some b /\
  @restore any_crypto no_digest b 5 600 = Ok (expire 5 (moved 1000 5 600000 sample_registry)).
Proof.
  pose proof (@srp_apply_durable any_crypto no_digest no_digest_len MemoryStore _ _ (fun _ => Ok tt) (sample_update 1) 1000 0 registry_default (mkMemoryStore None)
    (default_wf 1000) (sample_update_ok 1 ltac:(u_lia)) ltac:(u_lia) ltac:(u_lia) any_accept) as H. cbv zeta in H.
  unfold sample_store, sample_registry, sample_apply. destruct (apply_checked no_digest (fun _ => Ok tt) (sample_update 1) 1000 0 (registry_default, mkMemoryStore None)) as [[g|e|] [r s]] eqn:E.
  - destruct H as [(_ & _ & Hc)|(_ & b & Hb & Hs)]; [discriminate Hc|]. exists g, b. split; [reflexivity|]. split; [exact Hb|]. exact (Hs 5 600).
  - apply (f_equal (fun x => is_ok x.1)) in E. vm_compute in E. discriminate E.
  - destruct H.
Defined.
(** The registry with the sample, ten seconds later. *)
Lemma srp_registry_invariant_witness : limits sample_registry /\ one_key 11000 sample_registry.
Proof.
  assert (@srp_reachable any_crypto no_digest MemoryStore _ 11000 sample_registry) as Hr.
  { apply (@sr_later any_crypto no_digest MemoryStore _ 1000); [|u_lia]. unfold sample_registry, sample_apply.
    apply (@sr_apply any_crypto no_digest MemoryStore _); [|apply sample_update_ok; u_lia|apply any_accept].
    apply (@sr_start any_crypto no_digest MemoryStore _ 1000 default_policy); [u_lia|exact default_policy_ok]. }
  split; [exact (proj1 (proj2 (@srp_registry_invariant any_crypto no_digest no_digest_len MemoryStore _ _ 11000 sample_registry Hr)))|].
  exact (proj2 (proj2 (@srp_registry_invariant any_crypto no_digest no_digest_len MemoryStore _ _ 11000 sample_registry Hr))).
Defined.
