(* ===== verification/SrpVerify.v ===== *)
(** What the validator accepts: an update that it returns is well formed, within its zone,
    signed, and takes no name from another key; and sessions that apply what was accepted. *)

From S2P Require Import Prelude Effects Maps DnsWire DnsFacts DnsFormat Stateful Ordered Identity Text Journal JournalFacts Names SrpWire Srp SrpFacts SrpJournal SrpHistory.

(** What holds of a result. *)
Definition then_ {A} (m : MP A) (p : Parser) (Q : A -> Parser -> Prop) : Prop := forall a p', m p = (Ok a, p') -> Q a p'.
Lemma then_bind {A B} (m : MP A) (f : A -> MP B) p Q : then_ m p (fun a p1 => then_ (f a) p1 Q) -> then_ (m ≫= f) p Q.
Proof. intros Hm b p'. cbv [mbind M_bind]. destruct (m p) as [[x|e|] p1] eqn:E; [|done|done]. by apply Hm. Qed.
Lemma then_get {A} (f : Parser -> MP A) p Q : then_ (f p) p Q -> then_ (x ← get; f x) p Q.
Proof. done. Qed.
Lemma then_unless {A} (c : bool) e (m : MP A) p Q : (c = false -> then_ m p Q) -> then_ (if c then throw e else m) p Q.
Proof. destruct c; [by intros _ a p'|auto]. Qed.
Lemma then_ret {A} (a : A) p (Q : A -> Parser -> Prop) : Q a p -> then_ (mret a) p Q.
Proof. by intros Hq x p' [= <- <-]. Qed.

Section spans.
Context (b : bytes) (Hb : is_bytes b).

(** A step that goes [n] bytes forward or more, and not beyond [end_]. *)
Definition atleast {A} (end_ n : Z) (m : MP A) : Prop :=
  forall p a p', p_inv b p -> pr_at p <= end_ -> m p = (Ok a, p') -> p_inv b p' /\ pr_at p + n <= pr_at p' <= end_.
Lemma atleast_pk {A} end_ (P : A -> Prop) (m : MP A) : pk b end_ P m -> atleast end_ 0 m.
Proof. intros Hm p a p' Hp He E. specialize (Hm p Hp He). rewrite E in Hm. destruct Hm as (_ & ? & ?). split; [done|lia]. Qed.
Lemma atleast_bind {A B} end_ n1 n2 (m : MP A) (f : A -> MP B) : atleast end_ n1 m -> (forall a, atleast end_ n2 (f a)) -> atleast end_ (n1 + n2) (m ≫= f).
Proof.
  intros Hm Hf p a p' Hp He. cbv [mbind M_bind]. destruct (m p) as [[x|e|] p1] eqn:E; [|done|done]. destruct (Hm p x p1 Hp He E) as [Hp1 Hl1].
  intros E2. destruct (Hf x p1 a p' Hp1 ltac:(lia) E2) as [Hp2 Hl2]. split; [done|lia].
Qed.
Lemma atleast_take end_ n : atleast end_ n (p_take b end_ n).
Proof.
  intros p a p' Hp He E. unfold p_take in E. cbv [mbind M_bind get lift modify mret M_ret] in E. destruct (take_at b (pr_at p) end_ n) as [[s next]|e|] eqn:Et; [|done|done].
  injection E as <- <-. apply (take_at_Ok b Hb) in Et as (-> & Ht & Hn & Hl & _). split; [split; [by destruct Hp|cbn; lia]|cbn; lia].
Qed.
Lemma atleast_lift {A} end_ (m : outcome io_error A) : atleast end_ 0 (lift m).
Proof. intros p a p' Hp He [= _ <-]. split; [done|lia]. Qed.
Lemma atleast_ret {A} end_ (a : A) : atleast end_ 0 (mret a).
Proof. apply (atleast_lift end_ (Ok a)). Qed.
Lemma atleast_u8 end_ : atleast end_ 1 (p_u8 b end_).
Proof. apply (atleast_bind end_ 1 0); [apply atleast_take|intros s; apply atleast_lift]. Qed.
Lemma atleast_u16 end_ : atleast end_ 2 (p_u16 b end_).
Proof. apply (atleast_bind end_ 2 0); [apply atleast_take|intros s; apply atleast_ret]. Qed.
Lemma atleast_u32 end_ : atleast end_ 4 (p_u32 b end_).
Proof. apply (atleast_bind end_ 4 0); [apply atleast_take|intros s; apply atleast_ret]. Qed.
Lemma atleast_sig end_ : end_ <= len b -> atleast end_ 18 (rd_sig b end_).
Proof.
  intros Hend. unfold rd_sig. apply (atleast_bind end_ 2 16); [apply atleast_u16|intros ?]. apply (atleast_bind end_ 1 15); [apply atleast_u8|intros ?].
  apply (atleast_bind end_ 1 14); [apply atleast_u8|intros ?]. apply (atleast_bind end_ 4 10); [apply atleast_u32|intros ?].
  apply (atleast_bind end_ 4 6); [apply atleast_u32|intros ?]. apply (atleast_bind end_ 4 2); [apply atleast_u32|intros ?].
  apply (atleast_bind end_ 2 0); [apply atleast_u16|intros ?]. apply (atleast_bind end_ 0 0); [by eapply atleast_pk, p_name_ok|intros ?].
  apply (atleast_bind end_ 0 0); [by eapply atleast_pk, p_rest_ok|intros s]. destruct (len s =? 0); [done|apply atleast_ret].
Qed.
Definition is_sig (d : Rdata) : bool := match d with RdSig _ _ _ _ _ _ _ _ _ => true | _ => false end.
Lemma rdata_sig kind end_ srv mdns p d p' : end_ <= len b -> p_inv b p -> pr_at p <= end_ -> p_rdata b kind end_ srv mdns p = (Ok d, p') -> is_sig d = true ->
  pr_at p + 18 <= pr_at p'.
Proof.
  intros Hend Hp He E Hs. pose proof (rdata_ok b Hb kind end_ srv mdns Hend p Hp He) as Hok. rewrite E in Hok. destruct Hok as [Hw _].
  destruct d; try done. destruct Hw as [Hk _].
  assert (kind = 24 \/ kind = 46) as Hk2 by (destruct Hk as [Hk|[Hk|[]]]; auto).
  assert (p_rdata b kind end_ srv mdns p = (n ← lift (sub_chk end_ (pr_at p)); rd_sig b end_) p) as Hred by (destruct Hk2 as [Ek|Ek]; rewrite Ek; reflexivity). rewrite Hred in E.
  pose proof (atleast_bind end_ 0 18 (lift (sub_chk end_ (pr_at p))) (fun _ => rd_sig b end_) (atleast_lift end_ _) (fun _ => atleast_sig end_ Hend)) as Ha.
  destruct (Ha p _ p' Hp He E) as [_ ?]. lia.
Qed.

(** ** Records *)

(** The span of a record that begins at [from] or later. *)
Definition span_ok (from : Z) (r : Rr) (s : RecordSpan) : Prop :=
  from <= (sp_wire s).1 <= (sp_rdata s).1 /\ (sp_rdata s).1 <= len b /\ (is_sig (r_data r) = true -> (sp_rdata s).1 + 18 <= len b).
Lemma span_ok_weaken from from' r s : from' <= from -> span_ok from r s -> span_ok from' r s.
Proof. unfold span_ok. intros ? (? & ? & ?). split; [lia|done]. Qed.
Lemma record_data_sig context flags kind class length p d p' : p_inv b p -> 0 <= length -> pr_at p + length <= len b ->
  record_data b context flags kind class length p = (Ok d, p') -> is_sig d = true -> 18 <= length.
Proof.
  intros Hp Hl Hend. cbv [record_data mbind M_bind get throw mret M_ret].
  destruct (is_update flags && (length =? 0) && ((class =? 254) || (class =? 255))).
  - destruct (negb _); [done|]. by intros [= <- _].
  - pose proof (rdata_sig kind (pr_at p + length) (bool_decide (context = Mdns) || is_update flags) (bool_decide (context = Mdns)) p) as Hr.
    destruct (p_rdata b _ _ _ _ p) as [[d'|e|] p7]; [|discriminate|discriminate].
    destruct (Z.eqb_spec (pr_at p7) (pr_at p + length)) as [Hat|]; cbn [negb]; [|discriminate].
    intros [= <- _] Hs. assert (pr_at p <= pr_at p + length) as Hle by lia. specialize (Hr d' p7 Hend Hp Hle eq_refl Hs). rewrite Hat in Hr. clear -Hr. lia.
Qed.
Lemma then_atleast {A} end_ n (m : MP A) p (Q : A -> Parser -> Prop) : atleast end_ n m -> p_inv b p -> pr_at p <= end_ ->
  (forall a p', p_inv b p' -> pr_at p + n <= pr_at p' <= end_ -> Q a p') -> then_ m p Q.
Proof. intros Hm Hp He HQ a p' E. destruct (Hm p a p' Hp He E). by apply HQ. Qed.
Lemma record_span_then context flags section seen p : p_inv b p -> pr_at p <= len b ->
  then_ (record b context flags section seen) p (fun x _ => span_ok (pr_at p) x.1.1 x.1.2).
Proof.
  intros Hp He. unfold record. apply then_get, then_bind. eapply then_atleast; [by eapply atleast_pk, p_name_ok|done|done|]. intros n p1 Hp1 [L1 R1].
  apply then_bind. apply (then_atleast (len b) 2); [apply atleast_u16|done|done|]. intros kind p2 Hp2 [L2 R2].
  apply then_bind. apply (then_atleast (len b) 2); [apply atleast_u16|done|done|]. intros class p3 Hp3 [L3 R3].
  apply then_get, then_bind. apply (then_atleast (len b) 4); [apply atleast_u32|done|done|]. intros ttl p4 Hp4 [L4 R4].
  apply then_bind. intros length p5 E5. destruct (atleast_u16 _ _ _ _ Hp4 R4 E5) as [Hp5 [L5 R5]].
  pose proof (p_u16_ok b Hb (len b) p4 Hp4 R4) as Hu. rewrite E5 in Hu. destruct Hu as [[Hlen _] _].
  apply then_get. apply then_unless. intros [_ Hc%Z.leb_le]%negb_false_iff%andb_true_iff. apply then_unless. intros _.
  apply then_bind. intros d p6 E6. apply then_get, then_ret. unfold span_ok. cbn [sp_wire sp_rdata fst snd r_data].
  split; [lia|]. split; [lia|]. intros Hs. pose proof (record_data_sig _ _ _ _ _ _ _ _ Hp5 Hlen Hc E6 Hs). lia.
Qed.
Lemma record_span context flags section seen p r s seen' p' : p_inv b p -> pr_at p <= len b ->
  record b context flags section seen p = (Ok (r, s, seen'), p') -> span_ok (pr_at p) r s /\ p_inv b p' /\ pr_at p <= pr_at p' <= len b.
Proof.
  intros Hp He E. split; [exact (record_span_then _ _ _ _ _ Hp He _ _ E)|]. pose proof (record_ok b Hb context flags section seen p Hp He) as Hok.
  rewrite E in Hok. apply Hok.
Qed.
Lemma records_span context flags section count : forall seen p rs spans seen' p', p_inv b p -> pr_at p <= len b ->
  records_loop b context flags section count seen p = (Ok (rs, spans, seen'), p') ->
  Forall2 (span_ok (pr_at p)) rs spans /\ p_inv b p' /\ pr_at p <= pr_at p' <= len b.
Proof.
  induction count as [|count IH]; intros seen p rs spans seen' p' Hp He; cbn [records_loop].
  { intros [= <- <- _ <-]. split; [constructor|]. split; [done|lia]. }
  cbv [mbind M_bind]. destruct (record b context flags section seen p) as [[[[r sp] o]|e|] p1] eqn:E1; [|done|done].
  destruct (record_span _ _ _ _ _ _ _ _ _ Hp He E1) as (H1 & Hp1 & Hl1).
  destruct (records_loop b context flags section count o p1) as [[[[rs1 sp1] o1]|e|] p2] eqn:E2; [|done|done].
  destruct (IH _ _ _ _ _ _ Hp1 (proj2 Hl1) E2) as (H2 & Hp2 & Hl2). intros [= <- <- _ <-]. split; [|split; [done|lia]].
  constructor; [done|]. eapply Forall2_impl; [|exact H2]. intros x y Hxy. apply (span_ok_weaken (pr_at p1)); [lia|done].
Qed.
(** The spans of a message are those of its records, in order, behind the header. *)
Lemma parse_spans context m : parse b context = Ok m -> Forall2 (span_ok 12) (m_answers m ++ m_authority m ++ m_additional m) (m_spans m).
Proof.
  unfold parse. destruct (_ || _) eqn:Hl; [done|]. apply orb_false_iff in Hl as [Hl%Z.ltb_ge _]. intros Hm.
  apply bind_Ok in Hm as (n0 & _ & Hm). apply bind_Ok in Hm as (n1 & _ & Hm). apply bind_Ok in Hm as (n2 & _ & Hm).
  apply bind_Ok in Hm as (n3 & _ & Hm). cbv zeta in Hm. case_match; [done|]. apply bind_Ok in Hm as (id & _ & Hm). apply bind_Ok in Hm as (flags & _ & Hm).
  unfold sections in Hm. cbv [mbind M_bind get throw mret M_ret] in Hm. set (p0 := mkParser _ 0 12) in Hm.
  assert (p_inv b p0) as Hp0 by (split; cbn; [by rewrite length_replicate|lia]).
  destruct (questions_loop b (Z.to_nat n0) p0) as [[qs|e|] p1] eqn:E0; [|done|done].
  destruct (atleast_pk _ _ _ (questions_ok b Hb (Z.to_nat n0)) _ _ _ Hp0 Hl E0) as [Hp1 Hl1]. change (pr_at p0) with 12 in Hl1.
  destruct (records_loop b context flags 0 _ _ p1) as [[[[r1 s1] o1]|e|] p2] eqn:E1; [|done|done]. destruct (records_span _ _ _ _ _ _ _ _ _ _ Hp1 (proj2 Hl1) E1) as (H1 & Hp2 & Hl2).
  destruct (records_loop b context flags 1 _ _ p2) as [[[[r2 s2] o2]|e|] p3] eqn:E2; [|done|done]. destruct (records_span _ _ _ _ _ _ _ _ _ _ Hp2 (proj2 Hl2) E2) as (H2 & Hp3 & Hl3).
  destruct (records_loop b context flags 2 _ _ p3) as [[[[r3 s3] o3]|e|] p4] eqn:E3; [|done|done]. destruct (records_span _ _ _ _ _ _ _ _ _ _ Hp3 (proj2 Hl3) E3) as (H3 & Hp4 & Hl4).
  case_match; [done|]. injection Hm as <-. cbn [m_answers m_authority m_additional m_spans].
  assert (forall p rs ss, 12 <= pr_at p -> Forall2 (span_ok (pr_at p)) rs ss -> Forall2 (span_ok 12) rs ss) as Hw.
  { intros p rs ss Hge Hf. eapply Forall2_impl; [|exact Hf]. intros x y Hxy. by apply (span_ok_weaken (pr_at p)). }
  apply Forall2_app; [apply (Hw p1); [lia|done]|]. apply Forall2_app; [apply (Hw p2); [lia|done]|apply (Hw p3); [lia|done]].
Qed.
End spans.

(** What the schemes promise: digests of 32 bytes, and a strict verification that no weak key
    passes. *)
Class CryptoLaws `{Crypto} := {
  sha256_bytes b : is_bytes (sha256 b) /\ len (sha256 b) = 32;
  strict_law k m s : cv_verify ed25519 k m s = true -> ed25519_weak k = false;
}.

Lemma within_labels name zone : within name zone = true -> labels zone <> [] -> labels name <> [].
Proof.
  unfold within. intros [Hl%Z.leb_le _]%andb_true_iff Hz Hn. rewrite Hn in Hl. change (len []) with 0 in Hl.
  destruct (labels zone); [done|]. unfold len in Hl. cbn in Hl. lia.
Qed.

(** ** Instructions and records *)

Lemma instructions_Ok rrs rest : instructions rrs = Ok rest -> exists first, rrs = first :: rest /\ Forall (fun r => r_class r = 1 /\ mem (r_kind r) [1; 16; 25; 28; 33] = true) rest.
Proof.
  unfold instructions. destruct rrs as [|first l]; [done|]. case_match; [done|]. destruct (existsb _ l) eqn:E; [done|]. intros [= ->].
  exists first. split; [done|]. apply List.Forall_forall. intros r Hr. apply not_true_iff_false in E. 
  destruct (Z.eqb_spec (r_class r) 1) as [Hc|Hc]; [|exfalso; apply E, existsb_exists; exists r; split; [done|]; by rewrite (proj2 (Z.eqb_neq _ _) Hc)].
  split; [done|]. apply not_false_iff_true. intros Hk. apply E, existsb_exists. exists r. split; [done|]. by rewrite Hk, orb_true_r.
Qed.
Lemma record_wf_class1 flags r : record_wf flags r -> r_class r = 1 -> record_wf 0 r.
Proof.
  intros (Hn & Hk & Hc & Ht & Hd) E. split_and!; try done. unfold data_wf in *. rewrite E in *. destruct (r_data r); try done.
  unfold deletion in Hd. cbn in Hd. by rewrite andb_false_r in Hd.
Qed.
Lemma host_addresses_Ok flags host lease adds out : Forall (fun r => record_wf flags r /\ canonical (r_name r) = canonical host /\ r_class r = 1) adds ->
  host_addresses lease adds = Ok out -> Forall (address_ok host) out /\ len out <= len adds.
Proof.
  intros Ha. revert out. induction Ha as [|r adds (Hw & Hn & Hc) _ IH]; intros out; cbn [host_addresses]; [by intros [= <-]|].
  assert (len (r :: adds) = 1 + len adds) as -> by (unfold len; cbn [length]; lia).
  destruct (r_kind r =? 25); [intros H; destruct (IH _ H); split; [done|lia]|]. destruct (negb (mem (r_kind r) [1; 28]) || (lease =? 0)) eqn:E; [done|].
  apply orb_false_iff in E as [E%negb_false_iff _]. intros H. apply bind_Ok in H as (l & Hl & [= <-]). destruct (IH _ Hl) as [H1 H2].
  split; [constructor; [|done]|unfold len in *; cbn [length]; lia]. split; [by eapply record_wf_class1|]. done.
Qed.

Section keys.
Context `{CryptoLaws}.
(** All that [key_ok] asks but validity. *)
Definition key_shape (k : Key) : Prop := is_u16 (k_flags k) /\ k_protocol k = 3 /\ key_len (k_algorithm k) = Some (len (k_bytes k)) /\ is_bytes (k_bytes k).
Lemma from_record_Ok flags r k : record_wf flags r -> from_record r = Ok k -> key_shape k.
Proof.
  intros (_ & _ & _ & _ & Hd). unfold from_record. destruct (r_data r); try done. cbn in Hd. destruct Hd as (_ & ? & _ & _ & ?).
  destruct (key_len algorithm) as [n|] eqn:E; [|done]. cbn [ok_or mbind outcome_bind]. destruct (_ || _) eqn:G; [done|].
  apply orb_false_iff in G as [G1%negb_false_iff%Z.eqb_eq G2%negb_false_iff%Z.eqb_eq]. intros [= <-]. by split_and!; cbn; try done; rewrite E, G2.
Qed.
Lemma host_key_Ok flags lease adds found k : Forall (fun r => record_wf flags r) adds -> (forall k, found = Some k -> key_ok k) ->
  host_key lease adds found = Ok k -> key_shape k.
Proof.
  intros Ha Hf. unfold host_key. case_match; [done|]. destruct (List.filter (fun r => r_kind r =? 25) adds) as [|r l] eqn:E.
  - case_match; [|done]. destruct found as [k'|]; [|done]. intros [= <-]. destruct (Hf k' eq_refl) as (? & ? & ? & ? & _). done.
  - intros Hk. assert (In r adds) as Hr by (apply (filter_In (fun r => r_kind r =? 25)); rewrite E; by left). eapply from_record_Ok; [|exact Hk]. by eapply Forall_In in Ha.
Qed.
Lemma key_verify_Ok k m s : key_shape k -> key_verify k m s = Ok tt -> key_ok k.
Proof.
  intros (Hf & Hp & Hl & Hb) Hv. split_and!; try done. revert Hl Hv. unfold key_verify, valid_public, curve_verify, key_len. cbv zeta.
  generalize (k_bytes k). intros b. destruct (k_algorithm k =? 13); [|destruct (k_algorithm k =? 14); [|destruct (k_algorithm k =? 15); [|destruct (k_algorithm k =? 16); [|discriminate]]]];
    intros [= <-].
  - destruct (cv_key p256 _); [done|discriminate].
  - destruct (cv_key p384 _); [done|discriminate].
  - change (32 =? 32) with true. cbn [andb]. destruct (cv_key ed25519 b); [|discriminate]. destruct (cv_signature ed25519 s); [|discriminate].
    destruct (cv_verify ed25519 b m s) eqn:E; [|discriminate]. by rewrite (strict_law _ _ _ E).
  - destruct (cv_key ed448 b); [done|discriminate].
Qed.
End keys.

(** ** Services *)

Lemma service_records_Ok flags name host key adds kept srv txt keys out :
  Forall (fun r => record_wf flags r /\ canonical (r_name r) = canonical name /\ r_class r = 1) adds -> Forall (of_service_ok name host) kept ->
  service_records host key adds kept srv txt keys = Ok out -> Forall (of_service_ok name host) out.1.1 /\ len out.1.1 <= len kept + len adds.
Proof.
  intros Ha. revert kept srv txt keys. induction Ha as [|r adds (Hw & Hn & Hc) _ IH]; intros kept srv txt keys Hk; cbn [service_records].
  { intros [= <-]. split; [done|]. cbn. change (len []) with 0. lia. }
  assert (len (r :: adds) = 1 + len adds) as El by (unfold len; cbn [length]; lia). assert (record_wf 0 r) as Hw0 by (by eapply record_wf_class1).
  assert (forall kd, (r_kind r =? kd) = true -> mem kd [16; 33] = true -> match r_data r with RdSrv _ _ _ t => canonical t = canonical host | _ => True end -> of_service_ok name host r) as Hof.
  { intros kd E%Z.eqb_eq Hm Ht. split; [done|]. split; [done|]. split; [by rewrite E|]. done. }
  destruct (r_data r) eqn:Ed; try done.
  - destruct (r_kind r =? 33) eqn:E; [|done]. destruct (name_eq target host) eqn:Et; [|done]. cbn [negb]. intros Ho.
    destruct (IH _ _ _ _ (proj2 (List.Forall_app _ _ _) (conj Hk (List.Forall_cons _ _ _ (Hof 33 E eq_refl (proj1 (name_eq_canonical _ _) Et)) (List.Forall_nil _)))) Ho) as [H1 H2].
    split; [done|]. rewrite len_app in H2. change (len [r]) with 1 in H2. lia.
  - destruct (r_kind r =? 16) eqn:E; [|done]. cbn [negb]. intros Ho.
    destruct (IH _ _ _ _ (proj2 (List.Forall_app _ _ _) (conj Hk (List.Forall_cons _ _ _ (Hof 16 E eq_refl I) (List.Forall_nil _)))) Ho) as [H1 H2].
    split; [done|]. rewrite len_app in H2. change (len [r]) with 1 in H2. lia.
  - destruct (r_kind r =? 25); [|done]. cbn [negb]. case_match; [done|]. intros Ho. apply bind_Ok in Ho as (k & _ & Ho). case_match; [done|].
    destruct (IH _ _ _ _ Hk Ho) as [H1 H2]. split; [done|lia].
Qed.
(** What the groups of an update hold. *)
Definition group_ok (flags : Z) (zone : Name) (n : Z) (e : Name * list Rr) : Prop :=
  name_wf e.1 /\ within e.1 zone = true /\ Forall (fun r => record_wf flags r /\ canonical (r_name r) = canonical e.1) e.2 /\ len e.2 <= n.
Lemma service_update_Ok flags zone n host key lease e s : labels zone <> [] -> group_ok flags zone n e -> service_update host key lease e = Ok s ->
  su_discovery s = [] /\ su_name s = e.1 /\ name_ok (su_name s) /\ Forall (of_service_ok (su_name s) host) (su_records s) /\ len (su_records s) <= n.
Proof.
  intros Hz (Hw & Hin & Hg & Hl) Hs. unfold service_update in Hs. apply bind_Ok in Hs as (adds & Ha & Hs). apply bind_Ok in Hs as ([[rs srv] txt] & Hr & Hs).
  case_match; [done|]. injection Hs as <-. cbn. split; [done|]. split; [done|]. split; [split; [done|by eapply within_labels]|].
  apply instructions_Ok in Ha as (first & Ee & Hadds). rewrite Ee in Hg, Hl. inversion Hg as [|? ? _ Hg']; subst.
  assert (Forall (fun r => record_wf flags r /\ canonical (r_name r) = canonical e.1 /\ r_class r = 1) adds) as Hall.
  { apply List.Forall_forall. intros r Hr'. destruct (Forall_In _ _ _ Hg' Hr') as [? ?]. by destruct (Forall_In _ _ _ Hadds Hr') as [? _]. }
  destruct (service_records_Ok flags e.1 host key adds [] 0 0 0 _ Hall ltac:(constructor) Hr) as [H1 H2]. cbn in H1, H2. split; [done|].
  unfold len in *. cbn [length] in *. lia.
Qed.
Lemma map_ok_Forall {E A B} (f : A -> outcome E B) (P : A -> Prop) (Q : B -> Prop) l out : (forall x y, P x -> f x = Ok y -> Q y) -> Forall P l -> map_ok f l = Ok out -> Forall Q out.
Proof.
  intros Hf Hl. revert out. induction Hl as [|x l Hx _ IH]; intros out; cbn [map_ok]; [intros [= <-]; constructor|].
  intros H. apply bind_Ok in H as (y & Hy & H). apply bind_Ok in H as (r & Hr & [= <-]). constructor; [by eapply Hf|by apply IH].
Qed.

(** ** Collecting and attaching *)

Definition pointer_shape (flags : Z) (r : Rr) : Prop := record_wf flags r /\ r_kind r = 12 /\ (r_class r = 1 \/ r_class r = 254).
Record collected_ok (flags : Z) (zone : Name) (n : Z) (c : Collected) : Prop := {
  co_named : forall k e, co_groups c !! k = Some e -> canonical e.1 = k /\ group_ok flags zone n e;
  co_pointers : Forall (pointer_shape flags) (co_discovery c);
  co_count : 0 <= n /\ len (co_discovery c) <= n;
}.
Lemma collected_none flags zone : collected_ok flags zone 0 (mkCollected ∅ ∅ []).
Proof. split; cbn; [done|constructor|done]. Qed.
Lemma collect_Ok flags zone rs : Forall (record_wf flags) rs -> forall n c c', collected_ok flags zone n c -> collect zone rs c = Ok c' ->
  collected_ok flags zone (n + len rs) c'.
Proof.
  induction 1 as [|r rs Hr _ IH]; intros n c c' Hc; cbn [collect]; [intros [= <-]; change (len []) with 0; by rewrite Z.add_0_r|].
  case_match; [done|]. destruct (within (r_name r) zone) eqn:Hin; [|done]. cbn [negb]. replace (n + len (r :: rs)) with (n + 1 + len rs) by (unfold len; cbn [length]; lia).
  destruct Hc as [Hg Hd [Hn Hl]].
  assert (forall k e, co_groups c !! k = Some e -> canonical e.1 = k /\ group_ok flags zone (n + 1) e) as Hg'.
  { intros k e He. destruct (Hg k e He) as (? & ? & ? & ? & ?). split; [done|]. split_and!; try done. lia. }
  destruct (Z.eqb_spec (r_kind r) 12) as [Ek|Ek].
  - destruct (mem (r_class r) [1; 254]) eqn:Em; [|done]. cbn [negb orb]. destruct ((r_class r =? 254) && _); [done|]. apply IH. split; cbn; [done| |].
    + apply List.Forall_app. split; [done|]. constructor; [|constructor]. split; [done|]. split; [done|]. cbn in Em. rewrite !orb_true_iff, !Z.eqb_eq in Em. destruct Em as [?|[?|?]]; [by left|by right|done].
    + rewrite len_app. change (len [r]) with 1. lia.
  - destruct (negb (has_key _ _) && _); [done|]. apply IH. split; cbn; [|done|lia]. intros k e. rewrite lookup_insert. case_decide as Hk; [|apply Hg']. intros [= <-]. subst k.
    destruct (co_groups c !! canonical (r_name r)) as [[k l]|] eqn:E; cbn.
    + destruct (Hg _ _ E) as (Hcan & Hw & Hwi & Hall & Hlen). cbn in Hcan, Hw, Hwi, Hall, Hlen. split; [done|]. split; [done|]. split; [done|]. split; cbn.
      * apply List.Forall_app. split; [done|]. constructor; [|constructor]. by rewrite Hcan.
      * rewrite len_app. change (len [r]) with 1. lia.
    + split; [done|]. split; [by destruct Hr|]. split; [done|]. split; cbn; [constructor; [done|constructor]|]. change (len [r]) with 1. lia.
Qed.
Definition attached (host : Name) (n : Z) (s : ServiceUpdate) : Prop :=
  name_ok (su_name s) /\ Forall (of_service_ok (su_name s) host) (su_records s) /\ len (su_records s) <= 256 /\
  Forall (pointer_ok (su_name s)) (su_discovery s) /\ len (su_discovery s) <= n.
Lemma update_first_Forall {A} (p : A -> bool) (f : A -> A) (P Q : A -> Prop) l : (forall x, P x -> Q x) -> (forall x, P x -> p x = true -> Q (f x)) -> Forall P l -> Forall Q (update_first p f l).
Proof.
  intros Hpq Hf. induction 1 as [|x l Hx Hl IH]; cbn [update_first]; [constructor|]. destruct (p x) eqn:E; constructor; auto. by eapply List.Forall_impl.
Qed.
Lemma attach_Ok flags zone host ds : Forall (pointer_shape flags) ds -> forall n ss ss', Forall (attached host n) ss -> attach_discovery zone ds ss = Ok ss' ->
  Forall (attached host (n + len ds)) ss' /\ map su_name ss' = map su_name ss.
Proof.
  induction 1 as [|r ds (Hw & Hk & Hc) _ IH]; intros n ss ss' Hs; cbn [attach_discovery]; [intros [= <-]; change (len []) with 0; by rewrite Z.add_0_r|].
  destruct (r_data r) as [| | |target| | | | | | | | | | | | |] eqn:Ed; try done. intros H. apply bind_Ok in H as (s & _ & H). cbv zeta in H. case_match; [done|].
  apply bind_Ok in H as ([] & _ & H); [|done]. cbn [negb] in H. replace (n + len (r :: ds)) with (n + 1 + len ds) by (unfold len; cbn [length]; lia).
  assert (forall s, attached host n s -> attached host (n + 1) s) as Hmono by (intros x (? & ? & ? & ? & ?); split_and!; try done; lia).
  destruct (Z.eqb_spec (r_class r) 1) as [E|E]; [|by apply (IH (n + 1)) in H as [H1 H2]; [|by eapply List.Forall_impl]].
  apply (IH (n + 1)) in H as [H1 H2].
  - split; [done|]. rewrite H2. clear. induction ss as [|x ss IHs]; [done|]. cbn [update_first]. case_match; cbn; [done|by rewrite IHs].
  - eapply update_first_Forall; [exact Hmono| |exact Hs]. intros x (? & ? & ? & Hp & Hl) Hn. unfold attached, push_discovery. cbn [su_name su_records su_discovery].
    split_and!; try done; [|rewrite len_app; change (len [r]) with 1; lia]. apply List.Forall_app. split; [done|]. constructor; [|constructor].
    split; [by eapply record_wf_class1|]. split; [done|]. split; [done|]. exists target. split; [done|]. apply name_eq_canonical in Hn. by rewrite Hn.
Qed.
Lemma leases_Ok options l k x : Forall option_ok options -> leases options = Ok (l, k, x) -> 0 <= l <= k /\ k <= u32_max.
Proof.
  intros Ho. unfold leases. destruct (List.filter (fun o => o.1 =? 2) options) as [|[code data] [|]] eqn:E; try done.
  assert (is_bytes data) as Hb. { assert (In (code, data) options) as Hi by (apply (filter_In (fun o => o.1 =? 2)); rewrite E; by left). by destruct (Forall_In _ _ _ Ho Hi) as (_ & ? & _). }
  destruct (negb _); [done|]. intros H. apply bind_Ok in H as (f & Hf & H). apply bind_Ok in H as (sc & Hs & H). destruct (Z.ltb_spec sc (of_be f)); [done|].
  injection H as <- <- <-. assert (forall s, is_bytes s -> len s = 4 -> 0 <= of_be s <= u32_max) as H4.
  { intros s Hsb Hsl. pose proof (of_be_bound s Hsb) as Hbd. rewrite Hsl in Hbd. change (256 ^ 4) with 4294967296 in Hbd. u_lia. }
  apply slice_Ok in Hf as (Hf1 & Hf2 & ->). assert (0 <= of_be (sub data 0 4) <= u32_max) as Hfst by (apply H4; [by apply is_bytes_sub|rewrite len_sub by lia; lia]).
  destruct (Z.eqb_spec (len data) 8) as [E8|]; [|injection Hs as <-; lia]. apply bind_Ok in Hs as (t & Ht & [= <-]).
  unfold slice_from in Ht. apply slice_Ok in Ht as (? & ? & ->). assert (0 <= of_be (sub data 4 (len data)) <= u32_max) by (apply H4; [by apply is_bytes_sub|rewrite len_sub by lia; lia]). lia.
Qed.
(** The count of authority records is the one in the header. *)
Lemma records_loop_len b context flags section count : forall seen p rs spans seen' p', records_loop b context flags section count seen p = (Ok (rs, spans, seen'), p') -> length rs = count.
Proof.
  induction count as [|count IH]; intros seen p rs spans seen' p'; cbn [records_loop]; [by intros [= <- _ _ _]|].
  cbv [mbind M_bind]. destruct (record b context flags section seen p) as [[[[r sp] o]|e|] p1]; [|done|done].
  destruct (records_loop b context flags section count o p1) as [[[[rs1 sp1] o1]|e|] p2] eqn:E; [|done|done]. intros [= <- _ _ _]. cbn. f_equal. by eapply IH.
Qed.
Lemma authority_count b context m : parse b context = Ok m -> exists n, u16at b 8 = Ok n /\ len (m_authority m) = Z.max n 0.
Proof.
  unfold parse. case_match; [done|]. intros Hm. apply bind_Ok in Hm as (n0 & _ & Hm). apply bind_Ok in Hm as (n1 & _ & Hm). apply bind_Ok in Hm as (n2 & H2 & Hm).
  apply bind_Ok in Hm as (n3 & _ & Hm). cbv zeta in Hm. case_match; [done|]. apply bind_Ok in Hm as (id & _ & Hm). apply bind_Ok in Hm as (flags & _ & Hm).
  exists n2. split; [done|]. unfold sections in Hm. cbv [mbind M_bind get throw mret M_ret] in Hm.
  destruct (questions_loop b (Z.to_nat n0) _) as [[qs|e|] p1]; [|done|done]. destruct (records_loop b context flags 0 _ _ p1) as [[[[r1 s1] o1]|e|] p2]; [|done|done].
  destruct (records_loop b context flags 1 _ _ p2) as [[[[r2 s2] o2]|e|] p3] eqn:E2; [|done|done]. destruct (records_loop b context flags 2 _ _ p3) as [[[[r3 s3] o3]|e|] p4]; [|done|done].
  case_match; [done|]. injection Hm as <-. cbn. apply records_loop_len in E2. unfold len. lia.
Qed.

(** ** Nothing panics *)

Lemma safe_if {E A} (c : bool) (e : E) (m : outcome E A) : (c = false -> safe m) -> safe (if c then Err e else m).
Proof. destruct c; [done|auto]. Qed.
Lemma instructions_safe rrs : safe (instructions rrs).
Proof. destruct rrs; [done|]. cbn [instructions]. repeat (apply safe_if; intros _). done. Qed.
Lemma from_record_safe r : safe (from_record r).
Proof. unfold from_record. destruct (r_data r); try done. apply safe_bind; [apply safe_ok_or|]. intros n _. by apply safe_if. Qed.
Lemma collect_safe zone rs c : safe (collect zone rs c).
Proof.
  revert c. induction rs as [|r rs IH]; intros c; cbn [collect]; [done|]. apply safe_if. intros _. apply safe_if. intros _.
  case_match; (apply safe_if; intros _; apply IH).
Qed.
Lemma host_addresses_safe lease adds : safe (host_addresses lease adds).
Proof. induction adds as [|r adds IH]; cbn [host_addresses]; [done|]. case_match; [done|]. apply safe_if. intros _. by apply safe_bind. Qed.
Lemma host_key_safe lease adds found : safe (host_key lease adds found).
Proof. unfold host_key. apply safe_if. intros _. case_match; [|apply from_record_safe]. case_match; [apply safe_ok_or|done]. Qed.
Lemma service_records_safe host key adds kept srv txt keys : safe (service_records host key adds kept srv txt keys).
Proof.
  revert kept srv txt keys. induction adds as [|r adds IH]; intros kept srv txt keys; cbn [service_records]; [done|]. destruct (r_data r); try done.
  - apply safe_if. intros _. apply safe_if. intros _. apply IH.
  - apply safe_if. intros _. apply IH.
  - apply safe_if. intros _. apply safe_if. intros _. apply safe_bind; [apply from_record_safe|]. intros k _. apply safe_if. intros _. apply IH.
Qed.
Lemma service_update_safe host key lease e : safe (service_update host key lease e).
Proof.
  unfold service_update. apply safe_bind; [apply instructions_safe|]. intros adds _. apply safe_bind; [apply service_records_safe|]. intros [[rs srv] txt] _. by apply safe_if.
Qed.
Lemma map_ok_safe {E A B} (f : A -> outcome E B) l : (forall x, safe (f x)) -> safe (map_ok f l).
Proof. intros Hf. induction l as [|x l IH]; cbn [map_ok]; [done|]. apply safe_bind; [done|]. intros y _. by apply safe_bind. Qed.
Lemma labels_ok_drop ls n : labels_ok ls -> labels_ok (drop n ls).
Proof.
  revert n. induction ls as [|l ls IH]; intros [|n] Hl; cbn [drop]; try done. apply IH. destruct Hl as [Hf Ht]. inversion Hf; subst. split; [done|].
  cbn in Ht. unfold total in *. pose proof (len_nonneg l). lia.
Qed.
Lemma discovery_owner_safe owner target zone : name_wf target -> safe (discovery_owner owner target zone).
Proof.
  intros [Hl _]. unfold discovery_owner. case_match; [done|]. rewrite (from_labels_ok _ (labels_ok_drop _ 1 Hl)). cbn [unwrap mbind outcome_bind].
  case_match; [done|]. destruct (Z.eqb_spec (len (labels owner)) (len (labels (mkName (drop 1 (labels target)) (canonical_of (drop 1 (labels target))))) + 2)) as [E|]; [|done]. cbn [negb].
  apply safe_bind; [|done]. apply safe_unwrap, lookup_lt_is_Some. unfold len in E. lia.
Qed.
Lemma attach_safe flags zone ds ss : Forall (pointer_shape flags) ds -> safe (attach_discovery zone ds ss).
Proof.
  intros Hds. revert ss. induction Hds as [|r ds (Hw & _) _ IH]; intros ss; cbn [attach_discovery]; [done|]. destruct (r_data r) eqn:Ed; try done.
  apply safe_bind; [apply safe_ok_or|]. intros s _. cbv zeta. apply safe_if. intros _. apply safe_bind; [|intros owner _; apply safe_if; intros _; apply IH].
  apply discovery_owner_safe. destruct Hw as (_ & _ & _ & _ & Hd). rewrite Ed in Hd. by destruct Hd.
Qed.
Lemma leases_safe options : safe (leases options).
Proof.
  unfold leases. destruct (List.filter _ _) as [|[code data] [|]]; try done. destruct (mem (len data) [4; 8]) eqn:E; [|done]. cbn [negb].
  cbn in E. rewrite !orb_true_iff, !Z.eqb_eq in E. assert (4 <= len data) by (destruct E as [?|[?|?]]; [lia|lia|done]).
  apply safe_bind; [apply safe_slice; lia|]. intros f _. apply safe_bind; [|intros; by apply safe_if]. case_match; [|done].
  apply safe_bind; [apply safe_slice_from; lia|done].
Qed.
Lemma Forall2_last {A B} (P : A -> B -> Prop) l x k : Forall2 P (l ++ [x]) k -> exists y, list.last k = Some y /\ P x y.
Proof.
  intros H. apply Forall2_app_inv_l in H as (k1 & k2 & _ & H2 & ->). inversion H2 as [|? y ? k3 Hxy H3]; subst. inversion H3; subst.
  exists y. split; [apply last_snoc|done].
Qed.
Lemma signed_bytes_safe b m opt sig host : is_bytes b -> parse b Unicast = Ok m -> m_additional m = [opt; sig] -> is_sig (r_data sig) = true -> safe (signed_bytes b m host).
Proof.
  intros Hb Hpar Had Hs. pose proof (parse_spans b Hb Unicast m Hpar) as Hsp. rewrite Had in Hsp.
  replace (m_answers m ++ m_authority m ++ [opt; sig]) with ((m_answers m ++ m_authority m ++ [opt]) ++ [sig]) in Hsp by (by rewrite <-!app_assoc).
  apply Forall2_last in Hsp as (span & Hlast & Hw & Hr & Hsig). specialize (Hsig Hs). unfold signed_bytes. rewrite Hlast, Had. cbn [ok_or mbind outcome_bind].
  destruct (slice b (sp_rdata span).1 ((sp_rdata span).1 + 18)) as [f|e|] eqn:Ef; [|done|].
  2:{ exfalso. revert Ef. apply (safe_slice b (sp_rdata span).1 ((sp_rdata span).1 + 18)); lia. }
  cbn [mbind outcome_bind]. destruct (slice b 0 (sp_wire span).1) as [w|e|] eqn:Ew; [|done|]; [|exfalso; revert Ew; apply (safe_slice b 0 (sp_wire span).1); lia].
  cbn [mbind outcome_bind]. change (len [opt; sig] mod 65536) with 2. change (sub_chk (E:=Error) 2 1) with (Ok (E:=Error) 1). cbn [mbind outcome_bind].
  apply slice_Ok in Ef as (_ & _ & ->), Ew as (_ & _ & ->). pose proof (len_nonneg (canonical host)). apply safe_copy_at; [lia|].
  rewrite !len_app, !len_sub by lia. unfold be16. rewrite len_be. lia.
Qed.

(** ** The validator *)

Section verify.
Context `{CryptoLaws}.
(** What an update that is returned satisfies. *)
Record accepted (zones : list Name) (lookup : Name -> option Key) (b : bytes) (u : Update) : Prop := {
  ac_update : update_ok u;
  ac_digest : u_digest u = fingerprint b;
  ac_zone : existsb (fun z => name_eq z (u_zone u)) zones = true \/ exists d, default_zone = Ok d /\ name_eq (u_zone u) d = true;
  ac_within : within (u_host u) (u_zone u) = true /\ Forall (fun s => within (su_name s) (u_zone u) = true) (u_services u) /\ name_eq (u_host u) (u_zone u) = false;
  ac_names : forall n k, In n (touched (u_host u) (u_services u)) -> lookup n = Some k -> same_public_key k (u_key u) = true;
  ac_signed : exists m signed signature, parse b Unicast = Ok m /\ signed_bytes b m (u_host u) = Ok signed /\ key_verify (u_key u) signed signature = Ok tt;
}.
Lemma verify_body_Ok zones b now lookup m zone budget u budget' : is_bytes b -> parse b Unicast = Ok m -> message_wf m -> len (m_authority m) <= 256 -> labels zone <> [] ->
  (existsb (fun z => name_eq z zone) zones = true \/ exists d, default_zone = Ok d /\ name_eq zone d = true) ->
  (forall n k, lookup n = Some k -> key_ok k) -> verify_body b now lookup m zone budget = (Ok u, budget') ->
  accepted zones lookup b u /\ budget <> 0 /\ budget' = budget - 1.
Proof.
  intros Hb Hpar Hm Hcount Hz Hzone Hlook. unfold verify_body. destruct (m_additional m) as [|opt [|sig [|]]] eqn:Had; try done.
  destruct (_ || _); [done|]. destruct (r_data opt) as [| | | | | | | | | | | |options| | | |] eqn:Eopt; try done.
  cbv [mbind M_bind get lift throw modify mret M_ret]. destruct (leases options) as [[[lease key_lease] extended]|e|] eqn:El; [|done|done].
  destruct (r_data sig) as [| | | | | | | | | | |covered algorithm labels_ ottl expiration inception key_tag host signature| | | | |] eqn:Esig; try done.
  pose proof (mw_records _ Hm) as Hrecs. rewrite !List.Forall_app, Had in Hrecs. destruct Hrecs as (_ & Hauth & Hadd).
  inversion Hadd as [|? ? Hopt Hadd']; subst. inversion Hadd' as [|? ? Hsig _]; subst.
  assert (Forall option_ok options) as Hoo by (destruct Hopt as (_ & _ & _ & _ & Hd); rewrite Eopt in Hd; by destruct Hd).
  assert (name_wf host) as Hhw by (destruct Hsig as (_ & _ & _ & _ & Hd); rewrite Esig in Hd; destruct Hd as (_ & _ & _ & _ & _ & _ & _ & _ & ? & _); done).
  destruct (leases_Ok _ _ _ _ Hoo El) as [Hl1 Hl2]. clear Hopt Hadd' Hadd Hsig.
  destruct (_ || _); [done|]. destruct (negb (r_kind sig =? 24) || negb (within host zone) || name_eq host zone) eqn:Ew; [done|].
  rewrite !orb_false_iff, negb_false_iff, (negb_false_iff (within _ _)) in Ew. destruct Ew as [[_ Hin] Hne].
  destruct (collect zone (m_authority m) (mkCollected ∅ ∅ [])) as [c|e|] eqn:Ec; [|done|done].
  assert (collected_ok (m_flags m) zone (len (m_authority m)) c) as [Hg Hp [_ Hpl]] by (exact (collect_Ok _ _ _ Hauth 0 _ _ (collected_none _ _) Ec)).
  destruct (co_groups c !! canonical host) as [[hn host_rrs]|] eqn:Eh; cbn [ok_or]; [|done].
  destruct (Hg _ _ Eh) as (Hhc & _ & _ & Hhr & Hhl). cbn in Hhc, Hhr, Hhl.
  destruct (instructions host_rrs) as [adds|e|] eqn:Ei; [|done|done]. apply instructions_Ok in Ei as (first & Ei & Hadds). rewrite Ei in Hhr, Hhl. inversion Hhr as [|? ? _ Hhr']; subst.
  assert (Forall (fun r => record_wf (m_flags m) r /\ canonical (r_name r) = canonical host /\ r_class r = 1) adds) as Hall.
  { apply List.Forall_forall. intros r Hr. destruct (Forall_In _ _ _ Hhr' Hr) as [? ->]. by destruct (Forall_In _ _ _ Hadds Hr) as [? _]. }
  destruct (host_key lease adds (lookup host)) as [key|e|] eqn:Ek; [|done|done].
  assert (key_shape key) as Hks by (eapply (host_key_Ok (m_flags m)); [|apply Hlook|exact Ek]; eapply List.Forall_impl; [|exact Hall]; by intros r []).
  destruct (host_addresses lease adds) as [addresses|e|] eqn:Ea; [|done|done]. destruct (host_addresses_Ok _ _ _ _ _ Hall Ea) as [Haddr Hal].
  destruct (negb (lease =? 0) && bool_decide (addresses = [])); [done|].
  destruct (map_ok _ _) as [services|e|] eqn:Es; [|done|done].
  assert (Forall (fun s => attached host 0 s /\ within (su_name s) zone = true) services) as Hsv.
  { eapply (map_ok_Forall _ (group_ok (m_flags m) zone (len (m_authority m)))); [|apply List.Forall_forall|exact Es].
    - intros e s Hge Hs. destruct (service_update_Ok _ _ _ _ _ _ _ _ Hz Hge Hs) as (Hd & Hn & Hok & Hr & Hlen). split; [|rewrite Hn; by destruct Hge as (_ & ? & _)].
      split_and!; [done|done|lia|rewrite Hd; constructor|by rewrite Hd].
    - intros e He. apply sorted_values_in in He as (k & [_ Hk]%lookup_delete_Some). by destruct (Hg _ _ Hk). }
  destruct (attach_discovery zone (co_discovery c) services) as [services'|e|] eqn:Eat; [|done|done].
  destruct (attach_Ok _ _ host _ Hp 0 services services' ltac:(eapply List.Forall_impl; [|exact Hsv]; by intros s []) Eat) as [Hsv' Hnames].
  destruct (existsb _ (touched host services')) eqn:Eown; [done|]. destruct (_ || _); [done|]. destruct (negb (in_bracket _ _ _)); [done|].
  destruct (Z.eqb_spec budget 0) as [|Hbud]; [done|]. destruct (signed_bytes b m host) as [signed|e|] eqn:Esb; [|done|done].
  destruct (key_verify key signed signature) as [[]|e|] eqn:Ev; [|done|done]. intros [= <- <-]. split; [|done].
  split; cbn [u_digest u_id u_zone u_host u_key u_addresses u_services u_lease u_key_lease u_extended_lease]; try done.
  - split; cbn [u_digest u_host u_key u_addresses u_services u_lease u_key_lease]; try done.
    + apply sha256_bytes.
    + split; [done|by eapply within_labels].
    + by eapply key_verify_Ok.
    + unfold len in *. cbn [length] in *. lia.
    + eapply List.Forall_impl; [|exact Hsv']. intros s (? & ? & ? & ? & ?). split; try done. lia.
  - split; [done|]. split; [|done]. assert (Forall (fun n => within n zone = true) (map su_name services')) as Hw.
    { rewrite Hnames. apply List.Forall_map. eapply List.Forall_impl; [|exact Hsv]. by intros s []. }
    by apply List.Forall_map in Hw.
  - intros n k Hn Hk. apply not_false_iff_true. intros Hs. apply not_true_iff_false in Eown. apply Eown, existsb_exists. exists n. by rewrite Hk, Hs.
  - by exists m, signed, signature.
Qed.
(** A failed step leaves the budget, or has used one verification of it. *)
Definition spent (budget budget' : Z) : Prop := budget' = budget \/ (budget <> 0 /\ budget' = budget - 1).
Lemma verify_body_runs b now lookup m zone budget : is_bytes b -> parse b Unicast = Ok m -> message_wf m -> 
  match verify_body b now lookup m zone budget with (Panic, _) => False | (_, budget') => spent budget budget' end.
Proof.
  intros Hb Hpar Hm. unfold verify_body. destruct (m_additional m) as [|opt [|sig [|]]] eqn:Had; try (by left).
  destruct (_ || _); [by left|]. destruct (r_data opt) as [| | | | | | | | | | | |options| | | |] eqn:Eopt; try (by left).
  cbv [mbind M_bind get lift throw modify mret M_ret]. pose proof (leases_safe options) as Sl. destruct (leases options) as [[[lease key_lease] extended]|e|]; [|by left|done].
  destruct (r_data sig) as [| | | | | | | | | | |covered algorithm labels_ ottl expiration inception key_tag host signature| | | | |] eqn:Esig; try (by left).
  pose proof (mw_records _ Hm) as Hrecs. rewrite !List.Forall_app in Hrecs. destruct Hrecs as (_ & Hauth & _).
  destruct (_ || _); [by left|]. destruct (negb (r_kind sig =? 24) || negb (within host zone) || name_eq host zone); [by left|].
  pose proof (collect_safe zone (m_authority m) (mkCollected ∅ ∅ [])) as Sc. destruct (collect zone (m_authority m) (mkCollected ∅ ∅ [])) as [c|e|] eqn:Ec; [|by left|done].
  destruct (collect_Ok _ _ _ Hauth 0 _ _ (collected_none _ _) Ec) as [_ Hp _].
  destruct (co_groups c !! canonical host) as [[hn host_rrs]|]; cbn [ok_or]; [|by left].
  pose proof (instructions_safe host_rrs) as Si. destruct (instructions host_rrs) as [adds|e|]; [|by left|done].
  pose proof (host_key_safe lease adds (lookup host)) as Sk. destruct (host_key lease adds (lookup host)) as [key|e|]; [|by left|done].
  pose proof (host_addresses_safe lease adds) as Sa. destruct (host_addresses lease adds) as [addresses|e|]; [|by left|done].
  destruct (negb (lease =? 0) && bool_decide (addresses = [])); [by left|].
  pose proof (map_ok_safe (service_update host key lease) (sorted_values (delete (canonical host) (co_groups c))) (service_update_safe host key lease)) as Sm.
  destruct (map_ok _ _) as [services|e|]; [|by left|done].
  pose proof (attach_safe _ zone _ services Hp) as Sat. destruct (attach_discovery zone (co_discovery c) services) as [services'|e|]; [|by left|done].
  destruct (existsb _ (touched host services')); [by left|]. destruct (_ || _); [by left|]. destruct (negb (in_bracket _ _ _)); [by left|].
  destruct (Z.eqb_spec budget 0) as [|Hbud]; [by left|]. pose proof (signed_bytes_safe b m opt sig host Hb Hpar Had ltac:(by rewrite Esig)) as Ss.
  destruct (signed_bytes b m host) as [signed|e|]; [|by right|done]. destruct (key_verify key signed signature) as [[]|e|] eqn:Ev; [by right|by right|].
  unfold key_verify in Ev. cbv zeta in Ev. by repeat case_match.
Qed.
Lemma default_zone_Ok : exists d, default_zone = Ok d.
Proof. eexists. vm_compute. reflexivity. Qed.
Lemma default_zone_wf d : default_zone = Ok d -> name_wf d /\ labels d <> [].
Proof.
  intros E. vm_compute in E. injection E as <-. split; [|discriminate]. split; [split|reflexivity]; [|vm_compute; discriminate].
  repeat (apply List.Forall_cons; [split; [repeat (apply List.Forall_cons; [u_lia|]); apply List.Forall_nil|vm_compute; split; discriminate]|]). apply List.Forall_nil.
Qed.
(** Only the root has the canonical form of the root. *)
Lemma root_labels z : name_wf z -> canonical z = canonical_of [] -> labels z = [].
Proof.
  intros [[Hl _] ->]. destruct Hl as [|l ls [_ Hn] _]; [done|]. unfold canonical_of. cbn [map concat app]. intros [= E]. rewrite Z.mod_small in E by lia. lia.
Qed.

(** The count of authority records, as it is read before the message is parsed. *)
Lemma head_count b : 10 <= len b -> exists n, (hi ← b.[8]; lo ← b.[9]; Ok (E:=Error) (u16be hi lo)) = Ok n /\ u16at b 8 = Ok n.
Proof.
  intros Hl. assert (exists pre h l post, b = pre ++ [h; l] ++ post /\ len pre = 8) as (pre & h & l & post & -> & Hp).
  { exists (take 8 b). destruct (drop 8 b) as [|h [|l post]] eqn:E; [exfalso..|].
    - apply (f_equal length) in E. rewrite length_drop in E. unfold len in Hl. cbn in E. lia.
    - apply (f_equal length) in E. rewrite length_drop in E. unfold len in Hl. cbn in E. lia.
    - exists h, l, post. split; [by rewrite <-(take_drop 8 b) at 1; rewrite E|]. unfold len in *. rewrite length_take. lia. }
  exists (u16be h l). split.
  - change ([h; l] ++ post) with (h :: l :: post). rewrite (idx_mid pre h (l :: post) 8 (eq_sym Hp)). cbn [mbind outcome_bind].
    replace (pre ++ h :: l :: post) with ((pre ++ [h]) ++ l :: post) by (by rewrite <-app_assoc). assert (9 = len (pre ++ [h])) as E9 by (rewrite len_app, Hp; done). by rewrite (idx_mid (pre ++ [h]) l post 9 E9).
  - unfold u16at. assert (get_range (pre ++ [h; l] ++ post) 8 (8 + 2) = Some [h; l]) as ->; [|done].
    pose proof (slice_mid (E:=io_error) pre [h; l] post 8 (8 + 2) (eq_sym Hp)) as Hs. unfold slice in Hs. apply unwrap_Ok in Hs; [done|]. by rewrite Hp.
Qed.
Lemma verify_rest (zones : list Name) b now (lookup : Name -> option Key) budget : is_bytes b -> (forall n k, lookup n = Some k -> key_ok k) ->
  Forall name_wf zones -> existsb (fun n => bool_decide (labels n = [])) zones = false -> (forall m, parse b Unicast = Ok m -> len (m_authority m) <= 256) ->
  match (m ← lift (map_err (fun _ => Format) (parse b Unicast));
         match m_questions m with
         | [q] =>
             if negb (m_flags m =? 0x2800) || negb (q_kind q =? 6) || negb (q_class q =? 1) then throw Format else
             other ← (if existsb (fun z => name_eq z (q_name q)) zones then mret false else d ← lift default_zone; mret (negb (name_eq (q_name q) d)));
             if (other : bool) then throw NotAuth else
             if negb (bool_decide (m_answers m = [])) || negb (len (m_additional m) =? 2) || bool_decide (m_authority m = []) then throw Refused else
             verify_body b now lookup m (q_name q)
         | _ => throw Format
         end) budget with
  | (Ok u, budget') => accepted zones lookup b u /\ budget <> 0 /\ budget' = budget - 1
  | (Err _, budget') => spent budget budget'
  | (Panic, _) => False
  end.
Proof.
  intros Hb Hlook Hzw Ez Hcount. cbv [mbind M_bind get lift throw mret M_ret]. pose proof (dns_parse_ok b Hb Unicast) as Hy.
  destruct (parse b Unicast) as [m|e|] eqn:Hpar; cbn [map_err]; [|by left|done]. destruct Hy as [Hm _]. specialize (Hcount m eq_refl).
  destruct (m_questions m) as [|q [|]] eqn:Eq; [by left| |by left]. destruct (_ || _); [by left|]. destruct default_zone_Ok as [d Hd]. rewrite Hd.
  assert (name_wf (q_name q)) as Hqw by (pose proof (mw_questions _ Hm) as Hq; rewrite Eq in Hq; by inversion Hq as [|? ? []]).
  assert (forall z, name_eq z (q_name q) = true -> name_wf z -> labels z <> [] -> labels (q_name q) <> []) as Hl.
  { intros z Hz%name_eq_canonical Hzw' Hne Hnil. destruct Hqw as [_ Hc]. rewrite Hnil in Hc. rewrite Hc in Hz. by apply Hne, (root_labels z Hzw'). }
 pose proof (verify_body_runs b now lookup m (q_name q) budget Hb Hpar Hm) as Hrun.
  destruct (existsb (fun z => name_eq z (q_name q)) zones) eqn:Ex.
  - destruct (_ || _); [by left|]. destruct (verify_body b now lookup m (q_name q) budget) as [[u|e|] budget'] eqn:Ev; [|done|done].
    apply (verify_body_Ok zones b now lookup m (q_name q) budget u budget' Hb Hpar Hm Hcount); [|by left|done|done].
    apply existsb_exists in Ex as (z & Hz & Hn). apply (Hl z Hn); [by eapply Forall_In in Hzw|]. intros Hnil. apply not_true_iff_false in Ez. apply Ez, existsb_exists. exists z. by rewrite bool_decide_eq_true_2.
  - destruct (name_eq (q_name q) d) eqn:End; cbn [negb]; [|by left]. destruct (_ || _); [by left|].
    destruct (verify_body b now lookup m (q_name q) budget) as [[u|e|] budget'] eqn:Ev; [|done|done].
    apply (verify_body_Ok zones b now lookup m (q_name q) budget u budget' Hb Hpar Hm Hcount); [|right; by exists d|done|done].
    destruct (default_zone_wf d Hd) as [Hdw Hdl]. apply (Hl d); [|done|done]. apply name_eq_canonical. by apply name_eq_canonical in End.
Qed.

Lemma srp_verify_sound_of (names zones : list Name) b now (lookup : Name -> option Key) budget : validator_new names = Ok zones -> Forall name_wf names -> is_bytes b -> (forall n k, lookup n = Some k -> key_ok k) ->
  match validator_verify zones b now lookup budget with
  | (Ok u, budget') => accepted zones lookup b u /\ budget <> 0 /\ budget' = budget - 1
  | (Err _, budget') => spent budget budget'
  | (Panic, _) => False
  end.
Proof.
  intros Hz Hzw Hb Hlook. unfold validator_new in Hz. destruct (_ || _) eqn:Ez; [done|]. injection Hz as ->. apply orb_false_iff in Ez as [_ Ez].
  unfold validator_verify. cbv [mbind M_bind get lift throw mret M_ret].
  destruct (10 <=? len b) eqn:El; [|destruct (256 <? 0); [by left|]].
  - apply Z.leb_le in El. destruct (head_count b El) as (n & Ehi & En). cbv [mbind] in Ehi. rewrite Ehi.
    destruct (Z.ltb_spec 256 n) as [|Hn]; [by left|]. 
    assert (forall m, parse b Unicast = Ok m -> len (m_authority m) <= 256) as Hcount.
    { intros m Hpar. destruct (authority_count b Unicast m Hpar) as (n' & Hn' & ->). rewrite En in Hn'. injection Hn' as <-. lia. }
    exact (verify_rest zones b now lookup budget Hb Hlook Hzw Ez Hcount).
  - assert (forall m, parse b Unicast = Ok m -> len (m_authority m) <= 256) as Hcount.
    { intros m Hpar. exfalso. unfold parse in Hpar. apply Z.leb_gt in El. destruct (Z.ltb_spec (len b) 12); [done|lia]. }
    exact (verify_rest zones b now lookup budget Hb Hlook Hzw Ez Hcount).
Qed.

(** C12. What the validator accepts may be applied: it takes any bytes without a panic, spends
    at most one verification of the budget on them, none when the budget is used up, and an
    update it returns is well formed, lies within a zone that is served, takes no name from
    another key, and is signed by its own key over the bytes of its message. *)
Theorem srp_verify_sound (names zones : list Name) b now (lookup : Name -> option Key) budget : validator_new names = Ok zones -> Forall name_wf names -> is_bytes b -> (forall n k, lookup n = Some k -> key_ok k) ->
  match validator_verify zones b now lookup budget with
  | (Ok u, budget') => accepted zones lookup b u /\ budget <> 0 /\ budget' = budget - 1
  | (Err _, budget') => spent budget budget'
  | (Panic, _) => False
  end.
Proof. apply srp_verify_sound_of. Qed.
End verify.

Lemma registry_key_ok `{Crypto} now r : entries_wf now r -> forall n k, registry_key n now r = Some k -> key_ok k.
Proof.
  intros [Hh Hs _ _] n k Hk. apply registry_key_holds in Hk as [(h & Hg & <- & _)|(s & Hg & <- & _)]; apply get_named_Some in Hg as (n0 & Hg).
  - destruct (Hh _ _ Hg) as (_ & _ & [? _ _ _]). done.
  - destruct (Hs _ _ Hg) as (_ & _ & [_ ? _ _ _ _]). done.
Qed.

Section session.
Context `{CryptoLaws} (sha1 : bytes -> bytes) (digest_len : forall b, len (sha1 b) = 20).
Context {S : Type} `{StoreLaws S}.
(** C4. Whatever bytes the network sends, the registry stays one that a history reaches: they
    are refused, or they are an update whose names the registry lets its key take, and
    applying it does not panic and leaves a registry that is well formed, within its limits
    and with one key to a name. *)
Theorem srp_network_update names zones b now wall budget r s accept : srp_reachable sha1 (S:=S) now r -> 0 <= now <= u64_max ->
  validator_new names = Ok zones -> Forall name_wf names -> is_bytes b -> (forall x, safe (accept x)) ->
  match validator_verify zones b wall (fun n => registry_key n now r) budget with
  | (Ok u, _) => may_take u now r /\ let '(res, (r', s')) := apply_checked sha1 accept u now wall (r, s) in
      res <> Panic /\ srp_reachable sha1 (S:=S) now r' /\ entries_wf now r' /\ limits r' /\ one_key now r'
  | (Err _, _) => True
  | (Panic, _) => False
  end.
Proof.
  intros Hr Hn Hz Hzw Hb Ha. destruct (srp_reachable_wf sha1 digest_len now r Hr) as (_ & Hw & Hk).
  pose proof (srp_verify_sound_of names zones b wall (fun n => registry_key n now r) budget Hz Hzw Hb (registry_key_ok now r (proj1 Hw))) as Hv.
  destruct (validator_verify zones b wall _ budget) as [[u|e|] budget']; [|done|done]. destruct Hv as ([Hu _ _ _ Hnames _] & _). split; [exact Hnames|].
  pose proof (apply_safe sha1 digest_len accept u now wall r s Hw Hu Hn Ha) as Hsafe. pose proof (sr_apply sha1 now wall r accept u s Hr Hu Ha) as Hreach.
  destruct (apply_checked sha1 accept u now wall (r, s)) as [res [r' s']]. cbn [fst snd] in *. split; [done|]. split; [done|].
  destruct (srp_reachable_wf sha1 digest_len now r' Hreach) as (_ & [Hw' Hl'] & Hk'). split; [done|]. split; [by apply check_bounds_spec|done].
Qed.
End session.

(** ** The sample update as bytes *)

Lemma any_laws : @CryptoLaws any_crypto.
Proof. split; [|done]. intros b. split; [|done]. unfold sha256, any_crypto. apply is_bytes_replicate. u_lia. Qed.
Definition empty_of (n : Name) : Rr := mkRr n 255 255 0 RdEmpty.
Definition sample_key_record (x : Z) : Rr := mkRr sample_host 25 1 120 (key_rdata (sample_key x)).
Definition sample_message (x : Z) : Message :=
  mkMessage 7 0x2800 [mkQuestion sample_zone 6 1] []
    [empty_of sample_host; mkRr sample_host 28 1 120 (RdAaaa (replicate 16 x)); sample_key_record x;
     mkRr sample_type 12 1 120 (RdName sample_service); empty_of sample_service;
     mkRr sample_service 33 1 120 (RdSrv 0 0 80 sample_host); mkRr sample_service 16 1 120 (RdTxt [[]])]
    [mkRr root 41 4096 0 (RdOpt [(2, be32 3600 ++ be32 7200)]);
     mkRr root 24 255 0 (RdSig 0 13 0 0 0 0 (tag (sample_key x)) sample_host (replicate 64 x))] [] [].
Definition sample_bytes (x : Z) : bytes := match encode (sample_message x) with Ok b => b | _ => [] end.
Definition sample_verify (x : Z) := @validator_verify any_crypto [sample_zone] (sample_bytes x) 0.
Lemma sample_zone_wf : Forall name_wf [sample_zone].
Proof. apply List.Forall_cons; [|apply List.Forall_nil]. split; [split; [label_tac|vm_compute; discriminate]|done]. Qed.
Lemma is_bytes_dec (b : bytes) : forallb (fun x => (0 <=? x) && (x <=? 255)) b = true -> is_bytes b.
Proof. intros Hf. apply List.Forall_forall. intros x Hx. apply (proj1 (forallb_forall _ _) Hf) in Hx. u_lia. Qed.
Lemma sample_bytes_ok x : x = 1 \/ x = 2 -> is_bytes (sample_bytes x).
Proof. intros [->| ->]; apply is_bytes_dec; vm_compute; reflexivity. Qed.

(** The sample is accepted by a validator of its zone, with seven verifications left. *)
Lemma srp_verify_sound_witness : exists u, sample_verify 1 (fun _ => None) 8 = (Ok u, 7) /\ @accepted any_crypto [sample_zone] (fun _ => None) (sample_bytes 1) u.
Proof.
  pose proof (@srp_verify_sound any_crypto any_laws [sample_zone] [sample_zone] (sample_bytes 1) 0 (fun _ => None) 8 eq_refl sample_zone_wf (sample_bytes_ok 1 (or_introl eq_refl)) ltac:(done)) as Hv.
  unfold sample_verify. destruct (validator_verify [sample_zone] (sample_bytes 1) 0 (fun _ => None) 8) as [[u|e|] budget'] eqn:E.
  - exists u. destruct Hv as (Ha & _ & ->). split; [reflexivity|exact Ha].
  - apply (f_equal (fun x => is_ok x.1)) in E. vm_compute in E. discriminate E.
  - destruct Hv.
Defined.
(** The rival is refused by the validator already. *)
Lemma srp_network_update_witness : (sample_verify 2 (fun n => registry_key n 1000 sample_registry) 8).1 = Err YxDomain /\
  exists u, sample_verify 1 (fun n => registry_key n 1000 sample_registry) 8 = (Ok u, 7) /\ may_take u 1000 sample_registry.
Proof.
  split; [vm_compute; reflexivity|].
  assert (@srp_reachable any_crypto no_digest MemoryStore _ 1000 sample_registry) as Hr.
  { unfold sample_registry, sample_apply. apply (@sr_apply any_crypto no_digest MemoryStore _); [|apply sample_update_ok; u_lia|apply any_accept].
    apply (@sr_start any_crypto no_digest MemoryStore _ 1000 default_policy); [u_lia|exact default_policy_ok]. }
  pose proof (@srp_network_update any_crypto any_laws no_digest no_digest_len MemoryStore _ _ [sample_zone] [sample_zone] (sample_bytes 1) 1000 0 8 sample_registry (mkMemoryStore None)
    (fun _ => Ok tt) Hr ltac:(u_lia) eq_refl sample_zone_wf (sample_bytes_ok 1 (or_introl eq_refl)) any_accept) as H.
  unfold sample_verify. destruct (validator_verify [sample_zone] (sample_bytes 1) 0 (fun n => registry_key n 1000 sample_registry) 8) as [[u|e|] budget'] eqn:E.
  - exists u. split; [|exact (proj1 H)]. apply (f_equal snd) in E. cbn [snd] in E. rewrite <-E. vm_compute. reflexivity.
  - apply (f_equal (fun x => is_ok x.1)) in E. vm_compute in E. discriminate E.
  - destruct H.
Defined.
