(* ===== verification/RouterState.v ===== *)
(** The router's state ([src/src/router/mod.rs], [on_link.rs], the data of [nd.rs],
    [owned.rs], [routes.rs], [attachment.rs], [lifecycle.rs], [services.rs], and
    [src/src/io/families.rs]). *)

From S2P Require Import Prelude Effects Time Checksum Wire Scheduler Maps Observations Selection Stateful Dhcp6Wire Pd Ordered Identity.

(** ** Keys *)

Record RouterKey := mkRouterKey { rk_link : Link; rk_address : Z }.
#[global] Instance RouterKey_eq_dec : EqDecision RouterKey.
Proof. solve_decision. Defined.
#[global] Instance RouterKey_countable : Countable RouterKey :=
  inj_countable' (fun k => (rk_link k, rk_address k)) (fun p => mkRouterKey p.1 p.2) ltac:(by intros []).
#[global] Instance RouterKey_ordered : Ordered RouterKey := fun a b => key_le (rk_link a, rk_address a) (rk_link b, rk_address b).
#[global] Instance RouterKey_ordered_laws : OrderedLaws RouterKey.
Proof.
  split.
  - intros a b. exact (key_total (rk_link a, rk_address a) (rk_link b, rk_address b)).
  - intros a b c. exact (key_trans (rk_link a, rk_address a) (rk_link b, rk_address b) (rk_link c, rk_address c)).
  - intros [l a] [l' a'] H1 H2. pose proof (key_antisym (l, a) (l', a') H1 H2) as [= -> ->]. done.
Qed.

(** ** The table of on-link prefixes *)

Record OnLink := mkOnLink { ol_valid : Lifetime; ol_preferred : Lifetime }.
Record OnLinkTable := mkOnLinkTable { ol_ail : gmap (Link * Prefix) Lifetime; ol_stub : gmap (Link * Prefix) OnLink }.
Definition no_on_link : OnLinkTable := mkOnLinkTable ∅ ∅.
(** What is known of a prefix of the infrastructure link. *)
Definition ail_view (v : Lifetime) : OnLink := mkOnLink v (Until 0).
Definition ol_iter (t : OnLinkTable) : list ((Link * Prefix) * OnLink) :=
  map (fun kv => (fst kv, ail_view (snd kv))) (sorted (ol_ail t)) ++ sorted (ol_stub t).
Definition ol_keys (t : OnLinkTable) : list (Link * Prefix) := sorted_keys (ol_ail t) ++ sorted_keys (ol_stub t).
Definition ol_values (t : OnLinkTable) : list OnLink := map snd (ol_iter t).
Definition ol_is_empty (t : OnLinkTable) : bool := (slen (ol_ail t) =? 0) && (slen (ol_stub t) =? 0).
Definition is_ail (k : Link * Prefix) : bool := bool_decide (fst k = Ail).
Definition ol_get (k : Link * Prefix) (t : OnLinkTable) : option OnLink :=
  if is_ail k then ail_view <$> ol_ail t !! k else ol_stub t !! k.
Definition ol_contains (k : Link * Prefix) (t : OnLinkTable) : bool := bool_decide (is_Some (ol_get k t)).
Definition ol_insert (k : Link * Prefix) (v : OnLink) (t : OnLinkTable) : OnLinkTable :=
  if is_ail k then mkOnLinkTable (<[k := ol_valid v]> (ol_ail t)) (ol_stub t)
  else mkOnLinkTable (ol_ail t) (<[k := v]> (ol_stub t)).
Definition ol_remove (k : Link * Prefix) (t : OnLinkTable) : OnLinkTable :=
  if is_ail k then mkOnLinkTable (delete k (ol_ail t)) (ol_stub t)
  else mkOnLinkTable (ol_ail t) (delete k (ol_stub t)).
Definition ol_retain (f : Link * Prefix -> OnLink -> bool) (t : OnLinkTable) : OnLinkTable :=
  mkOnLinkTable (filter (fun kv => f (fst kv) (ail_view (snd kv)) = true) (ol_ail t))
    (filter (fun kv => f (fst kv) (snd kv) = true) (ol_stub t)).
Definition ol_set_valid (k : Link * Prefix) (valid : Lifetime) (t : OnLinkTable) : OnLinkTable :=
  if is_ail k then mkOnLinkTable (alter (fun _ => valid) k (ol_ail t)) (ol_stub t)
  else mkOnLinkTable (ol_ail t) (alter (fun v => mkOnLink valid (ol_preferred v)) k (ol_stub t)).

(** ** Data *)

Inductive AilState := Unknown | Suitable | BeginAdvertising | Advertising | Deprecating.
#[global] Instance AilState_eq_dec : EqDecision AilState.
Proof. solve_decision. Defined.
Inductive Lifecycle := Starting | Running | AilUnavailable | Degraded | Stopping | Stopped.
#[global] Instance Lifecycle_eq_dec : EqDecision Lifecycle.
Proof. solve_decision. Defined.
(** [matches!(x, a | b | ..)] *)
Definition is_one_of {A} `{EqDecision A} (l : list A) (x : A) : bool := bool_decide (x ∈ l).
Record Tx := mkTx { tx_link : Link; tx_packet : bytes }.
Record Supplier := mkSupplier { su_autonomous : bool; su_pio_at : Z; su_preferred : Lifetime; su_valid : Lifetime }.
Record Header := mkHeader { hd_last_ra_at : Z; hd_snac : bool; hd_mo : Z; hd_lifetime : option Lifetime }.
Inductive NeighborState := Incomplete | Reachable | Stale | Delay | Probe | Failed.
#[global] Instance NeighborState_eq_dec : EqDecision NeighborState.
Proof. solve_decision. Defined.
Inductive Pending := Transit (tx : Tx) | Output (tx : Tx).
Record Neighbor := mkNeighbor {
  nb_mac : option bytes;
  nb_state : NeighborState;
  nb_deadline : option Z;
  nb_probes_sent : Z;
  nb_is_router : bool;
  nb_pending : option Pending;
}.
Inductive DadState := Tentative | Ready | DadFailed.
#[global] Instance DadState_eq_dec : EqDecision DadState.
Proof. solve_decision. Defined.
Record OwnedAddress := mkOwnedAddress {
  oa_probe_sent : bool;
  oa_prefix : option Prefix;
  oa_state : DadState;
  oa_deadline : option Z;
  oa_attempts : Z;
}.
Record Route := mkRoute { rt_valid : Lifetime; rt_preference : Preference }.
Record OwnedPrefix := mkOwnedPrefix { op_lease : LeaseKey; op_deprecate_at : option Z; op_last_valid : Lifetime }.
Record Services := mkServices {
  sv_resolvers : list Z;
  sv_dns_history : gmap Z (Lifetime * Z);
  sv_ipv4 : option Z;
  sv_translator : bool;
}.
Inductive UlaPolicy := Rotate | Fixed.
#[global] Instance UlaPolicy_eq_dec : EqDecision UlaPolicy.
Proof. solve_decision. Defined.
Record Attachment := mkAttachment {
  at_policy : UlaPolicy;
  at_known : gset bytes;
  at_observed : gset bytes;
  at_discovering : bool;
}.
Record LinkState := mkLinkState {
  lk_mac : option bytes;
  lk_mtu : Z;
  lk_kind : FrameKind;
  lk_up : bool;
  lk_state : AilState;
  lk_scheduler : RaScheduler;
  lk_rs_count : Z;
  lk_rs_next : Z;
  lk_discovery_end : Z;
  lk_last_valid : Lifetime;
  lk_deprecate_at : option Z;
}.
Definition put_mac x s :=
  mkLinkState x (lk_mtu s) (lk_kind s) (lk_up s) (lk_state s) (lk_scheduler s)
    (lk_rs_count s) (lk_rs_next s) (lk_discovery_end s) (lk_last_valid s) (lk_deprecate_at s).
Definition put_mtu x s :=
  mkLinkState (lk_mac s) x (lk_kind s) (lk_up s) (lk_state s) (lk_scheduler s)
    (lk_rs_count s) (lk_rs_next s) (lk_discovery_end s) (lk_last_valid s) (lk_deprecate_at s).
Definition put_kind x s :=
  mkLinkState (lk_mac s) (lk_mtu s) x (lk_up s) (lk_state s) (lk_scheduler s)
    (lk_rs_count s) (lk_rs_next s) (lk_discovery_end s) (lk_last_valid s) (lk_deprecate_at s).
Definition put_up x s :=
  mkLinkState (lk_mac s) (lk_mtu s) (lk_kind s) x (lk_state s) (lk_scheduler s)
    (lk_rs_count s) (lk_rs_next s) (lk_discovery_end s) (lk_last_valid s) (lk_deprecate_at s).
Definition put_state x s :=
  mkLinkState (lk_mac s) (lk_mtu s) (lk_kind s) (lk_up s) x (lk_scheduler s)
    (lk_rs_count s) (lk_rs_next s) (lk_discovery_end s) (lk_last_valid s) (lk_deprecate_at s).
Definition put_scheduler x s :=
  mkLinkState (lk_mac s) (lk_mtu s) (lk_kind s) (lk_up s) (lk_state s) x
    (lk_rs_count s) (lk_rs_next s) (lk_discovery_end s) (lk_last_valid s) (lk_deprecate_at s).
Definition put_rs_count x s :=
  mkLinkState (lk_mac s) (lk_mtu s) (lk_kind s) (lk_up s) (lk_state s) (lk_scheduler s)
    x (lk_rs_next s) (lk_discovery_end s) (lk_last_valid s) (lk_deprecate_at s).
Definition put_rs_next x s :=
  mkLinkState (lk_mac s) (lk_mtu s) (lk_kind s) (lk_up s) (lk_state s) (lk_scheduler s)
    (lk_rs_count s) x (lk_discovery_end s) (lk_last_valid s) (lk_deprecate_at s).
Definition put_discovery_end x s :=
  mkLinkState (lk_mac s) (lk_mtu s) (lk_kind s) (lk_up s) (lk_state s) (lk_scheduler s)
    (lk_rs_count s) (lk_rs_next s) x (lk_last_valid s) (lk_deprecate_at s).
Definition put_last_valid x s :=
  mkLinkState (lk_mac s) (lk_mtu s) (lk_kind s) (lk_up s) (lk_state s) (lk_scheduler s)
    (lk_rs_count s) (lk_rs_next s) (lk_discovery_end s) x (lk_deprecate_at s).
Definition put_deprecate_at x s :=
  mkLinkState (lk_mac s) (lk_mtu s) (lk_kind s) (lk_up s) (lk_state s) (lk_scheduler s)
    (lk_rs_count s) (lk_rs_next s) (lk_discovery_end s) (lk_last_valid s) x.

(** ** Frames for the IPv4 side of the infrastructure link *)

Record AilFrames := mkAilFrames { af_frames : list bytes; af_bytes : Z }.
Definition no_frames : AilFrames := mkAilFrames [] 0.
Definition af_push (frame : bytes) (f : AilFrames) : bool * AilFrames :=
  if (64 <=? len (af_frames f)) || (65535 <? len frame) || (65535 <? af_bytes f + len frame) then (false, f)
  else (true, mkAilFrames (af_frames f ++ [frame]) (af_bytes f + len frame)).
Definition af_pop : M AilFrames io_error (option bytes) :=
  f ← get;
  match af_frames f with
  | [] => mret None
  | frame :: frames =>
      n ← lift (sub_chk (af_bytes f) (len frame));
      modify (fun _ => mkAilFrames frames n) ;;
      mret (Some frame)
  end.
Inductive Family := FamilyIpv6 | FamilyIpv4 | FamilyArp.
Definition ethernet_family (frame : bytes) : outcome io_error (option Family) :=
  if len frame <? 14 then Ok None else
  f12 ← frame.[12];
  f13 ← frame.[13];
  let t := u16be f12 f13 in
  Ok (if t =? 0x86dd then Some FamilyIpv6 else if t =? 0x0800 then Some FamilyIpv4
      else if t =? 0x0806 then Some FamilyArp else None).

(** ** The router *)

Record Router := mkRouter {
  r_services : Services;
  r_nat64 : Selector;
  r_ail_frames : AilFrames;
  r_attachment : Attachment;
  r_retired_ulas : gmap (Link * Prefix) Lifetime;
  r_lifecycle : Lifecycle;
  r_final_ras : Both Z;
  r_error_after : option Z;
  r_pd_hints : gmap Prefix Lifetime;
  r_pd : PdClient;
  r_pd_prefixes : gmap Prefix OwnedPrefix;
  r_withdrawals : gmap (Link * Prefix) Z;
  r_advertised_routes : gmap (Link * Prefix) Lifetime;
  r_routes : gmap (Z * Prefix) Route;
  r_no_stub_default : bool;
  r_always_advertise_ail_routes : bool;
  r_owned : gmap (Link * Z) OwnedAddress;
  r_neighbors : gmap RouterKey Neighbor;
  r_headers : gmap RouterKey Header;
  r_identity : Identity;
  r_links : Both LinkState;
  r_suppliers : gmap (RouterKey * Prefix) Supplier;
  r_on_link : OnLinkTable;
}.
Definition set_services x r :=
  mkRouter x (r_nat64 r) (r_ail_frames r) (r_attachment r) (r_retired_ulas r) (r_lifecycle r) (r_final_ras r)
    (r_error_after r) (r_pd_hints r) (r_pd r) (r_pd_prefixes r) (r_withdrawals r) (r_advertised_routes r) (r_routes r)
    (r_no_stub_default r) (r_always_advertise_ail_routes r) (r_owned r) (r_neighbors r) (r_headers r) (r_identity r)
    (r_links r) (r_suppliers r) (r_on_link r).
Definition set_nat64 x r :=
  mkRouter (r_services r) x (r_ail_frames r) (r_attachment r) (r_retired_ulas r) (r_lifecycle r) (r_final_ras r)
    (r_error_after r) (r_pd_hints r) (r_pd r) (r_pd_prefixes r) (r_withdrawals r) (r_advertised_routes r) (r_routes r)
    (r_no_stub_default r) (r_always_advertise_ail_routes r) (r_owned r) (r_neighbors r) (r_headers r) (r_identity r)
    (r_links r) (r_suppliers r) (r_on_link r).
Definition set_ail_frames x r :=
  mkRouter (r_services r) (r_nat64 r) x (r_attachment r) (r_retired_ulas r) (r_lifecycle r) (r_final_ras r)
    (r_error_after r) (r_pd_hints r) (r_pd r) (r_pd_prefixes r) (r_withdrawals r) (r_advertised_routes r) (r_routes r)
    (r_no_stub_default r) (r_always_advertise_ail_routes r) (r_owned r) (r_neighbors r) (r_headers r) (r_identity r)
    (r_links r) (r_suppliers r) (r_on_link r).
Definition set_attachment x r :=
  mkRouter (r_services r) (r_nat64 r) (r_ail_frames r) x (r_retired_ulas r) (r_lifecycle r) (r_final_ras r)
    (r_error_after r) (r_pd_hints r) (r_pd r) (r_pd_prefixes r) (r_withdrawals r) (r_advertised_routes r) (r_routes r)
    (r_no_stub_default r) (r_always_advertise_ail_routes r) (r_owned r) (r_neighbors r) (r_headers r) (r_identity r)
    (r_links r) (r_suppliers r) (r_on_link r).
Definition set_retired_ulas x r :=
  mkRouter (r_services r) (r_nat64 r) (r_ail_frames r) (r_attachment r) x (r_lifecycle r) (r_final_ras r)
    (r_error_after r) (r_pd_hints r) (r_pd r) (r_pd_prefixes r) (r_withdrawals r) (r_advertised_routes r) (r_routes r)
    (r_no_stub_default r) (r_always_advertise_ail_routes r) (r_owned r) (r_neighbors r) (r_headers r) (r_identity r)
    (r_links r) (r_suppliers r) (r_on_link r).
Definition set_lifecycle x r :=
  mkRouter (r_services r) (r_nat64 r) (r_ail_frames r) (r_attachment r) (r_retired_ulas r) x (r_final_ras r)
    (r_error_after r) (r_pd_hints r) (r_pd r) (r_pd_prefixes r) (r_withdrawals r) (r_advertised_routes r) (r_routes r)
    (r_no_stub_default r) (r_always_advertise_ail_routes r) (r_owned r) (r_neighbors r) (r_headers r) (r_identity r)
    (r_links r) (r_suppliers r) (r_on_link r).
Definition set_final_ras x r :=
  mkRouter (r_services r) (r_nat64 r) (r_ail_frames r) (r_attachment r) (r_retired_ulas r) (r_lifecycle r) x
    (r_error_after r) (r_pd_hints r) (r_pd r) (r_pd_prefixes r) (r_withdrawals r) (r_advertised_routes r) (r_routes r)
    (r_no_stub_default r) (r_always_advertise_ail_routes r) (r_owned r) (r_neighbors r) (r_headers r) (r_identity r)
    (r_links r) (r_suppliers r) (r_on_link r).
Definition set_error_after x r :=
  mkRouter (r_services r) (r_nat64 r) (r_ail_frames r) (r_attachment r) (r_retired_ulas r) (r_lifecycle r)
    (r_final_ras r) x (r_pd_hints r) (r_pd r) (r_pd_prefixes r) (r_withdrawals r) (r_advertised_routes r) (r_routes r)
    (r_no_stub_default r) (r_always_advertise_ail_routes r) (r_owned r) (r_neighbors r) (r_headers r) (r_identity r)
    (r_links r) (r_suppliers r) (r_on_link r).
Definition set_pd_hints x r :=
  mkRouter (r_services r) (r_nat64 r) (r_ail_frames r) (r_attachment r) (r_retired_ulas r) (r_lifecycle r)
    (r_final_ras r) (r_error_after r) x (r_pd r) (r_pd_prefixes r) (r_withdrawals r) (r_advertised_routes r)
    (r_routes r) (r_no_stub_default r) (r_always_advertise_ail_routes r) (r_owned r) (r_neighbors r) (r_headers r)
    (r_identity r) (r_links r) (r_suppliers r) (r_on_link r).
Definition set_pd x r :=
  mkRouter (r_services r) (r_nat64 r) (r_ail_frames r) (r_attachment r) (r_retired_ulas r) (r_lifecycle r)
    (r_final_ras r) (r_error_after r) (r_pd_hints r) x (r_pd_prefixes r) (r_withdrawals r) (r_advertised_routes r)
    (r_routes r) (r_no_stub_default r) (r_always_advertise_ail_routes r) (r_owned r) (r_neighbors r) (r_headers r)
    (r_identity r) (r_links r) (r_suppliers r) (r_on_link r).
Definition set_pd_prefixes x r :=
  mkRouter (r_services r) (r_nat64 r) (r_ail_frames r) (r_attachment r) (r_retired_ulas r) (r_lifecycle r)
    (r_final_ras r) (r_error_after r) (r_pd_hints r) (r_pd r) x (r_withdrawals r) (r_advertised_routes r) (r_routes r)
    (r_no_stub_default r) (r_always_advertise_ail_routes r) (r_owned r) (r_neighbors r) (r_headers r) (r_identity r)
    (r_links r) (r_suppliers r) (r_on_link r).
Definition set_withdrawals x r :=
  mkRouter (r_services r) (r_nat64 r) (r_ail_frames r) (r_attachment r) (r_retired_ulas r) (r_lifecycle r)
    (r_final_ras r) (r_error_after r) (r_pd_hints r) (r_pd r) (r_pd_prefixes r) x (r_advertised_routes r) (r_routes r)
    (r_no_stub_default r) (r_always_advertise_ail_routes r) (r_owned r) (r_neighbors r) (r_headers r) (r_identity r)
    (r_links r) (r_suppliers r) (r_on_link r).
Definition set_advertised_routes x r :=
  mkRouter (r_services r) (r_nat64 r) (r_ail_frames r) (r_attachment r) (r_retired_ulas r) (r_lifecycle r)
    (r_final_ras r) (r_error_after r) (r_pd_hints r) (r_pd r) (r_pd_prefixes r) (r_withdrawals r) x (r_routes r)
    (r_no_stub_default r) (r_always_advertise_ail_routes r) (r_owned r) (r_neighbors r) (r_headers r) (r_identity r)
    (r_links r) (r_suppliers r) (r_on_link r).
Definition set_routes x r :=
  mkRouter (r_services r) (r_nat64 r) (r_ail_frames r) (r_attachment r) (r_retired_ulas r) (r_lifecycle r)
    (r_final_ras r) (r_error_after r) (r_pd_hints r) (r_pd r) (r_pd_prefixes r) (r_withdrawals r)
    (r_advertised_routes r) x (r_no_stub_default r) (r_always_advertise_ail_routes r) (r_owned r) (r_neighbors r)
    (r_headers r) (r_identity r) (r_links r) (r_suppliers r) (r_on_link r).
Definition set_no_stub_default x r :=
  mkRouter (r_services r) (r_nat64 r) (r_ail_frames r) (r_attachment r) (r_retired_ulas r) (r_lifecycle r)
    (r_final_ras r) (r_error_after r) (r_pd_hints r) (r_pd r) (r_pd_prefixes r) (r_withdrawals r)
    (r_advertised_routes r) (r_routes r) x (r_always_advertise_ail_routes r) (r_owned r) (r_neighbors r) (r_headers r)
    (r_identity r) (r_links r) (r_suppliers r) (r_on_link r).
Definition set_always_advertise_ail_routes x r :=
  mkRouter (r_services r) (r_nat64 r) (r_ail_frames r) (r_attachment r) (r_retired_ulas r) (r_lifecycle r)
    (r_final_ras r) (r_error_after r) (r_pd_hints r) (r_pd r) (r_pd_prefixes r) (r_withdrawals r)
    (r_advertised_routes r) (r_routes r) (r_no_stub_default r) x (r_owned r) (r_neighbors r) (r_headers r)
    (r_identity r) (r_links r) (r_suppliers r) (r_on_link r).
Definition set_owned x r :=
  mkRouter (r_services r) (r_nat64 r) (r_ail_frames r) (r_attachment r) (r_retired_ulas r) (r_lifecycle r)
    (r_final_ras r) (r_error_after r) (r_pd_hints r) (r_pd r) (r_pd_prefixes r) (r_withdrawals r)
    (r_advertised_routes r) (r_routes r) (r_no_stub_default r) (r_always_advertise_ail_routes r) x (r_neighbors r)
    (r_headers r) (r_identity r) (r_links r) (r_suppliers r) (r_on_link r).
Definition set_neighbors x r :=
  mkRouter (r_services r) (r_nat64 r) (r_ail_frames r) (r_attachment r) (r_retired_ulas r) (r_lifecycle r)
    (r_final_ras r) (r_error_after r) (r_pd_hints r) (r_pd r) (r_pd_prefixes r) (r_withdrawals r)
    (r_advertised_routes r) (r_routes r) (r_no_stub_default r) (r_always_advertise_ail_routes r) (r_owned r) x
    (r_headers r) (r_identity r) (r_links r) (r_suppliers r) (r_on_link r).
Definition set_headers x r :=
  mkRouter (r_services r) (r_nat64 r) (r_ail_frames r) (r_attachment r) (r_retired_ulas r) (r_lifecycle r)
    (r_final_ras r) (r_error_after r) (r_pd_hints r) (r_pd r) (r_pd_prefixes r) (r_withdrawals r)
    (r_advertised_routes r) (r_routes r) (r_no_stub_default r) (r_always_advertise_ail_routes r) (r_owned r)
    (r_neighbors r) x (r_identity r) (r_links r) (r_suppliers r) (r_on_link r).
Definition set_identity x r :=
  mkRouter (r_services r) (r_nat64 r) (r_ail_frames r) (r_attachment r) (r_retired_ulas r) (r_lifecycle r)
    (r_final_ras r) (r_error_after r) (r_pd_hints r) (r_pd r) (r_pd_prefixes r) (r_withdrawals r)
    (r_advertised_routes r) (r_routes r) (r_no_stub_default r) (r_always_advertise_ail_routes r) (r_owned r)
    (r_neighbors r) (r_headers r) x (r_links r) (r_suppliers r) (r_on_link r).
Definition set_links x r :=
  mkRouter (r_services r) (r_nat64 r) (r_ail_frames r) (r_attachment r) (r_retired_ulas r) (r_lifecycle r)
    (r_final_ras r) (r_error_after r) (r_pd_hints r) (r_pd r) (r_pd_prefixes r) (r_withdrawals r)
    (r_advertised_routes r) (r_routes r) (r_no_stub_default r) (r_always_advertise_ail_routes r) (r_owned r)
    (r_neighbors r) (r_headers r) (r_identity r) x (r_suppliers r) (r_on_link r).
Definition set_suppliers x r :=
  mkRouter (r_services r) (r_nat64 r) (r_ail_frames r) (r_attachment r) (r_retired_ulas r) (r_lifecycle r)
    (r_final_ras r) (r_error_after r) (r_pd_hints r) (r_pd r) (r_pd_prefixes r) (r_withdrawals r)
    (r_advertised_routes r) (r_routes r) (r_no_stub_default r) (r_always_advertise_ail_routes r) (r_owned r)
    (r_neighbors r) (r_headers r) (r_identity r) (r_links r) x (r_on_link r).
Definition set_on_link x r :=
  mkRouter (r_services r) (r_nat64 r) (r_ail_frames r) (r_attachment r) (r_retired_ulas r) (r_lifecycle r)
    (r_final_ras r) (r_error_after r) (r_pd_hints r) (r_pd r) (r_pd_prefixes r) (r_withdrawals r)
    (r_advertised_routes r) (r_routes r) (r_no_stub_default r) (r_always_advertise_ail_routes r) (r_owned r)
    (r_neighbors r) (r_headers r) (r_identity r) (r_links r) (r_suppliers r) x.

Definition link_state (l : Link) (r : Router) : LinkState := at_link l (r_links r).
Definition set_link_state (l : Link) (s : LinkState) (r : Router) : Router := set_links (set_at l s (r_links r)) r.
Definition on_state (l : Link) (f : LinkState -> LinkState) (r : Router) : Router := set_link_state l (f (link_state l r)) r.
Definition link_up (l : Link) (r : Router) : bool := lk_up (link_state l r).
Definition state (l : Link) (r : Router) : AilState := lk_state (link_state l r).
(** [self.links[link.index()].mac.unwrap_or(self.identity.macs[link.index()])] *)
Definition own_mac (l : Link) (r : Router) : bytes := default (at_link l (id_macs (r_identity r))) (lk_mac (link_state l r)).
Definition link_local_of (l : Link) (r : Router) : Z := id_link_local (r_identity r) l.
Definition both_links : list Link := [Ail; Stub].
Definition all_nodes : Z := 0xff020000000000000000000000000001.
Definition all_routers : Z := 0xff020000000000000000000000000002.

Section new.
Context {R : Type} `{Sampler R}.
Definition new_link (now : Z) : M R io_error LinkState :=
  x ← sample 1000;
  first ← lift (add_chk u64_max now x);
  scheduler ← Scheduler.new now;
  mret (mkLinkState None 1500 Ethernet true Unknown scheduler 0 first u64_max (Until now) None).
Definition own_link_local (identity : Identity) (l : Link) (m : gmap (Link * Z) OwnedAddress) : gmap (Link * Z) OwnedAddress :=
  <[(l, id_link_local identity l) := mkOwnedAddress true None Ready None 0]> m.
Definition router_new (identity : Identity) (now : Z) : M R io_error Router :=
  nat64 ← lift (selector_new (id_site identity));
  ail ← new_link now;
  stub ← new_link now;
  mret (mkRouter (mkServices [] ∅ None false) nat64 no_frames (mkAttachment Rotate ∅ ∅ true) ∅ Running (both 0 0) None ∅
    pd_default ∅ ∅ ∅ ∅ false false (foldl (fun m l => own_link_local identity l m) ∅ both_links) ∅ ∅ identity (both ail stub) ∅ no_on_link).
End new.
