(* ===== verification/Routing.v ===== *)
(** Routes, next hops and what is exported of them ([src/src/router/routes.rs],
    [budget.rs], the lookups of [forward.rs] and [nd.rs]). *)

From S2P Require Import Prelude Effects Maps Time Checksum Wire Observations Ordered Scheduler Selection Stateful Identity RouterState.

(** [if let Some(x) = T::decode(..)] *)
Definition maybe {A} (m : outcome unit A) : outcome io_error (option A) :=
  match m with Ok a => Ok (Some a) | Err _ => Ok None | Panic => Panic end.

Definition remaining_capped (l : Lifetime) (now : Z) : Z := Z.min (remaining l now) 1800.

(** ** Neighbors as routers *)

Definition reachable (key : RouterKey) (now : Z) (r : Router) : bool :=
  match r_neighbors r !! key with
  | Some n => bool_decide (nb_state n = Reachable) && match nb_deadline n with Some t => now <? t | None => false end
  | None => false
  end.
Definition usable_route (router : Z) (route : Route) (now : Z) (r : Router) : bool :=
  live (rt_valid route) now
  && match r_neighbors r !! mkRouterKey Ail router with
     | Some n => nb_is_router n && negb (bool_decide (nb_state n = Failed))
     | None => false
     end.
Definition address_ready (link : Link) (address : Z) (r : Router) : bool :=
  match r_owned r !! (link, address) with Some a => bool_decide (oa_state a = Ready) | None => false end.
(** [self.address_ready(link, self.identity.link_local(link))] *)
Definition link_ready (link : Link) (r : Router) : bool := address_ready link (link_local_of link r) r.
(** A supplier of a prefix whose evidence is fresh. *)
Definition supplier_fresh (now : Z) (s : Supplier) : bool :=
  live (su_valid s) now && live (su_preferred s) now && (now <? sat64 (su_pio_at s) 600000).
Definition confirmed_supplier (link : Link) (now : Z) (r : Router) : bool :=
  existsb (fun ks : (RouterKey * Prefix) * Supplier =>
    bool_decide (rk_link ks.1.1 = link) && supplier_fresh now ks.2 && reachable ks.1.1 now r) (sorted (r_suppliers r)).
Definition neighbor_not_failed (key : RouterKey) (r : Router) : bool :=
  match r_neighbors r !! key with Some n => negb (bool_decide (nb_state n = Failed)) | None => true end.

(** ** What is advertised *)

Definition silenced (r : Router) : bool := is_one_of [Stopping; Stopped; Degraded] (r_lifecycle r).
(** The [max()] of a list of numbers, or zero. *)
Definition greatest (l : list Z) : Z := foldl Z.max 0 l.
Definition default_lifetime (now : Z) (r : Router) : Z :=
  if silenced r || negb (link_up Ail r) || r_no_stub_default r then 0 else
  greatest (map (fun kr : (Z * Prefix) * Route => remaining_capped (rt_valid kr.2) now)
    (List.filter (fun kr : (Z * Prefix) * Route => (p_length kr.1.2 =? 0) && usable_route kr.1.1 kr.2 now r) (sorted (r_routes r)))).
Definition low_rio (p : Prefix) (lifetime : Z) : Rio := mkRio p Low lifetime.
(** The prefixes being withdrawn from a link. *)
Definition withdrawn_from (link : Link) (r : Router) : list Prefix :=
  map snd (List.filter (fun k => bool_decide (fst k = link)) (sorted_keys (r_withdrawals r))).
(** The rounds of the loops of [stub_routes]. *)
Definition add_on_link (now : Z) (kv : (Link * Prefix) * OnLink) (routes : gmap Prefix Z) : gmap Prefix Z :=
  if bool_decide (kv.1.1 = Ail) && live (ol_valid kv.2) now then <[kv.1.2 := remaining_capped (ol_valid kv.2) now]> routes else routes.
Definition add_route (now : Z) (r : Router) (kr : (Z * Prefix) * Route) (routes : gmap Prefix Z) : gmap Prefix Z :=
  let p := kr.1.2 in
  if (0 <? p_length p) && usable_route kr.1.1 kr.2 now r && negb (ol_contains (Stub, p) (r_on_link r)) then
    let lifetime := remaining_capped (rt_valid kr.2) now in
    <[p := match routes !! p with Some l => Z.max l lifetime | None => lifetime end]> routes
  else routes.
Definition add_withdrawal (p : Prefix) (routes : gmap Prefix Z) : gmap Prefix Z :=
  match routes !! p with Some _ => routes | None => <[p := 0]> routes end.
Definition stub_route_map (now : Z) (r : Router) : gmap Prefix Z :=
  let m := if (default_lifetime now r =? 0) || r_always_advertise_ail_routes r
           then foldl (fun m kv => add_on_link now kv m) ∅ (ol_iter (r_on_link r)) else ∅ in
  let m := foldl (fun m kr => add_route now r kr m) m (sorted (r_routes r)) in
  foldl (fun m p => add_withdrawal p m) m (withdrawn_from Stub r).
Definition stub_routes (now : Z) (r : Router) : list Rio :=
  if negb (link_up Ail r) then map (fun p => low_rio p 0) (withdrawn_from Stub r)
  else map (fun pl => low_rio (fst pl) (snd pl)) (sorted (stub_route_map now r)).

Definition route_budget (link : Link) : Z := 1280 - 40 - 16 - 8 - (if bool_decide (link = Ail) then 32 else 8 + 17 * 32).
Definition reap_exports (now : Z) (r : Router) : Router :=
  let advertised := filter (fun kv => live (snd kv) now = true) (r_advertised_routes r) in
  set_withdrawals (filter (fun kc => is_Some (advertised !! fst kc)) (r_withdrawals r)) (set_advertised_routes advertised r).
(** The loops of [budget_ail], with the bytes still available. *)
Definition admit_candidate (r : Router) (st : Z * gmap Prefix Rio) (rio : Rio) : Z * gmap Prefix Rio :=
  let '(available, desired) := st in
  if has_key (r_withdrawals r) (Ail, rio_prefix rio) then st else
  let size := len (rio_encode rio) in
  if size <=? available then (available - size, <[rio_prefix rio := rio]> desired) else st.
Definition keep_advertised (now : Z) (st : Z * gmap Prefix Rio * list Rio) (kv : (Link * Prefix) * Lifetime) : Z * gmap Prefix Rio * list Rio :=
  let '(available, desired, out) := st in
  let p := kv.1.2 in
  if negb (bool_decide (kv.1.1 = Ail)) || negb (live kv.2 now) then st else
  let rio := default (low_rio p 0) (desired !! p) in
  (sat_sub available (len (rio_encode rio)), delete p desired, out ++ [rio]).
Definition admit_new (st : Z * list Rio) (rio : Rio) : Z * list Rio :=
  let '(available, out) := st in
  let size := len (rio_encode rio) in
  if size <=? available then (available - size, out ++ [rio]) else st.
Definition budget_ail (candidates : list Rio) (now : Z) (r : Router) : list Rio :=
  let desired := snd (foldl (admit_candidate r) (route_budget Ail, ∅) candidates) in
  let '(available, desired, out) := foldl (keep_advertised now) (route_budget Ail, desired, []) (sorted (r_advertised_routes r)) in
  sort_by_prefix rio_prefix (snd (foldl admit_new (available, out) (sorted_values desired))).

(** ** Next hops *)

Definition on_link_live (link : Link) (destination now : Z) (r : Router) : bool :=
  existsb (fun kv : (Link * Prefix) * OnLink => bool_decide (kv.1.1 = link) && contains kv.1.2 destination && live (ol_valid kv.2) now) (ol_iter (r_on_link r)).
Definition preference_rank (p : Preference) : Z := match p with Low => 0 | Medium => 1 | High => 2 end.
(** The key of the [max_by_key]: length, reachability, preference, the lower address. *)
Definition route_rank (now : Z) (r : Router) (kr : (Z * Prefix) * Route) : Z * Z * Z * Z :=
  (p_length kr.1.2, of_bool (reachable (mkRouterKey Ail kr.1.1) now r), preference_rank (rt_preference kr.2), - kr.1.1).
Definition route_ge (now : Z) (r : Router) (x y : (Z * Prefix) * Route) : bool := key_le (route_rank now r y) (route_rank now r x).
Definition best_route (destination now : Z) (r : Router) : option ((Z * Prefix) * Route) :=
  max_by (route_ge now r)
    (List.filter (fun kr : (Z * Prefix) * Route => contains kr.1.2 destination && usable_route kr.1.1 kr.2 now r) (sorted (r_routes r))).
Definition egress_next_hop (egress : Link) (destination now : Z) (r : Router) : option Z :=
  if link_local destination || is_multicast6 destination || on_link_live egress destination now r then Some destination
  else if bool_decide (egress = Stub) then Some destination
  else (fun kr : (Z * Prefix) * Route => kr.1.1) <$> best_route destination now r.
Definition lookup_route (ingress : Link) (destination now : Z) (r : Router) : option (Link * Z) :=
  if on_link_live Stub destination now r then
    (if bool_decide (ingress = Ail) then Some (Stub, destination) else None)
  else if bool_decide (ingress = Ail) then None
  else (fun a => (Ail, a)) <$> egress_next_hop Ail destination now r.

(** ** Learning routes *)

Section routes.
Context {R : Type} `{Sampler R}.
Abbreviation MR := (M (Router * R) io_error).

Definition scheduler_of (link : Link) (r : Router) : RaScheduler := lk_scheduler (link_state link r).
Definition put_scheduler_of (link : Link) (s : RaScheduler) (r : Router) : Router := on_state link (put_scheduler s) r.
Definition with_scheduler (link : Link) (m : M (RaScheduler * R) io_error unit) : MR unit :=
  within (scheduler_of link) (put_scheduler_of link) m.
Definition changed (link : Link) (now : Z) : MR unit := with_scheduler link (Scheduler.changed now).
Definition degrade (now : Z) : MR unit :=
  update (set_lifecycle Degraded) ;;
  changed Ail now ;;
  changed Stub now.

Definition insert_route (k : Z * Prefix) (v : Route) (r : Router) : Router := set_routes (<[k := v]> (r_routes r)) r.
Definition remove_route (k : Z * Prefix) (r : Router) : Router := set_routes (delete k (r_routes r)) r.
Definition withdraw (k : Link * Prefix) (r : Router) : Router := set_withdrawals (<[k := 3]> (r_withdrawals r)) r.
Definition unwithdraw (k : Link * Prefix) (r : Router) : Router := set_withdrawals (delete k (r_withdrawals r)) r.
Definition default_prefix : Prefix := mkPrefix 0 0.
(** One option of [observe_routes]. *)
Definition observe_route (address now : Z) (o : NdOption) : MR unit :=
  d ← lift (maybe (rio_decode (o_bytes o)));
  match d with
  | None => mret tt
  | Some rio =>
      let p := rio_prefix rio in
      let life := rio_lifetime rio in
      r ← self;
      if (p_length p =? 0) || routable p && negb (ol_contains (Stub, p) (r_on_link r)) then
        let existed := has_key (r_routes r) (address, p) in
        update (remove_route (address, p)) ;;
        r ← self;
        (if (0 <? p_length p) && (life =? 0) && existed
            && negb (existsb (fun kr : (Z * Prefix) * Route => bool_decide (kr.1.2 = p) && usable_route kr.1.1 kr.2 now r) (sorted (r_routes r)))
         then update (withdraw (Stub, p)) else mret tt) ;;
        (if 0 <? life then update (unwithdraw (Stub, p)) else mret tt) ;;
        (if 0 <? life then update (insert_route (address, p) (mkRoute (from_secs now life) (rio_preference rio))) else mret tt)
      else mret tt
  end.
Definition observe_routes (key : RouterKey) (nd : Nd) (now : Z) : MR unit :=
  if negb (bool_decide (rk_link key = Ail)) then mret tt else
  b6 ← lift (nd_body nd).[6];
  b7 ← lift (nd_body nd).[7];
  let lifetime := u16be b6 b7 in
  update (remove_route (rk_address key, default_prefix)) ;;
  (if 0 <? lifetime then
     b5 ← lift (nd_body nd).[5];
     update (insert_route (rk_address key, default_prefix) (mkRoute (from_secs now lifetime) (default Medium (preference_decode b5))))
   else mret tt) ;;
  for_each (nd_options nd) (observe_route (rk_address key) now) ;;
  changed Stub now.

Definition reconcile_exports (prior : list Rio) (now : Z) : MR unit :=
  r ← self;
  let current := stub_routes now r in
  let gone := List.filter (fun x => (0 <? rio_lifetime x)
    && negb (existsb (fun c => bool_decide (rio_prefix c = rio_prefix x) && (0 <? rio_lifetime c)) current)) prior in
  for_each gone (fun x => update (withdraw (Stub, rio_prefix x))) ;;
  if len gone =? 0 then mret tt else changed Stub now.
End routes.
