(* ===== verification/Delegated.v ===== *)
(** Delegated prefixes in use, the attachment and its site prefix, and links going up and
    down (the [impl Router] parts of [src/src/router/pd.rs], [attachment.rs], and
    [set_link] of [restart.rs]). *)

From S2P Require Import Prelude Effects Time Checksum Wire Scheduler Maps Observations Selection Stateful Dhcp6Wire Pd Ordered Identity RouterState Routing.

(** ** Delegated prefixes *)

Definition deprecation_remaining (at_ now : Z) : Z := Z.min (Z.max (at_ + 1800000 - now) 0) 1800000 / 1000.
Definition pd_conflicts (prefix : Prefix) (now : Z) (r : Router) : bool :=
  let local := net64 (p_address prefix) in
  bool_decide (local = id_prefix (r_identity r) Ail)
  || existsb (fun kv : (Link * Prefix) * OnLink =>
       bool_decide (kv.1.1 = Ail) && live (ol_valid kv.2) now
       && (contains kv.1.2 (p_address local) || contains local (p_address kv.1.2))) (ol_iter (r_on_link r)).
Definition conflict_free (now : Z) (r : Router) (o : Offer) : Offer :=
  mkOffer (of_server o) (of_preference o) (List.filter (fun d => negb (pd_conflicts (dg_prefix d) now r)) (of_delegations o)).
(** Whether a supplier on the stub link takes precedence over the delegated prefix. *)
Definition outranked (now : Z) (r : Router) (key : LeaseKey) : bool :=
  let local := net64 (p_address key.2) in
  existsb (fun ks : (RouterKey * Prefix) * Supplier =>
    let p := ks.1.2 in
    bool_decide (rk_link ks.1.1 = Stub) && Bool.eqb (ula p) (ula local) && (prefix_leb p local && negb (bool_decide (p = local)))
    && supplier_fresh now ks.2 && neighbor_not_failed ks.1.1 r) (sorted (r_suppliers r)).
Definition stub_supplied (now : Z) (r : Router) : bool :=
  existsb (fun ks : (RouterKey * Prefix) * Supplier =>
    bool_decide (rk_link ks.1.1 = Stub) && supplier_fresh now ks.2 && neighbor_not_failed ks.1.1 r) (sorted (r_suppliers r)).
Definition owns_lease (keys : list LeaseKey) (p : OwnedPrefix) : bool := bool_decide (op_lease p ∈ keys).
(** The prefixes that [sync_pd] starts to deprecate. *)
Definition newly_deprecated (keys : list LeaseKey) (p : OwnedPrefix) : bool :=
  negb (owns_lease keys p) && match op_deprecate_at p with None => true | Some _ => false end.
Definition deprecate_owned (keys : list LeaseKey) (now : Z) (p : OwnedPrefix) : OwnedPrefix :=
  if newly_deprecated keys p then mkOwnedPrefix (op_lease p) (Some now) (op_last_valid p) else p.
Definition lease_live (now : Z) (c : PdClient) (p : OwnedPrefix) : bool :=
  match pd_leases c !! op_lease p with Some l => live (ls_valid l) now | None => false end.
Definition delegated_pio (now : Z) (c : PdClient) (kp : Prefix * OwnedPrefix) : list Pio :=
  match pd_leases c !! op_lease kp.2 with
  | None => []
  | Some l =>
      let valid := remaining_capped (ls_valid l) now in
      let '(valid, preferred) :=
        match op_deprecate_at kp.2 with
        | Some at_ => (Z.min valid (deprecation_remaining at_ now), 0)
        | None => (valid, Z.min (remaining (ls_preferred l) now) valid)
        end in
      if (valid =? 0) || bool_decide (is_Some (op_deprecate_at kp.2)) && (valid <? 206) then []
      else [mkPio kp.1 0xc0 preferred valid]
  end.
Definition delegated_pios (now : Z) (r : Router) : list Pio := concat (map (delegated_pio now (r_pd r)) (sorted (r_pd_prefixes r))).

Section delegated.
Context {R : Type} `{Sampler R}.
Abbreviation MR := (M (Router * R) io_error).
Definition with_pd {A} (m : M (PdClient * R) io_error A) : MR A := within r_pd set_pd m.
Definition with_nat64 {A} (m : M Selector io_error A) : MR A := field r_nat64 set_nat64 m.
Definition on_pd (f : PdClient -> PdClient) (r : Router) : Router := set_pd (f (r_pd r)) r.

(** A lease whose prefix conflicts with the infrastructure link goes back to its server. *)
Definition release_conflict (now : Z) (kl : LeaseKey * Lease) : MR unit :=
  with_pd (queue_release (as_server (ls_association kl.2)) [lease_delegation now kl] now) ;;
  update (on_pd (fun c => set_leases (delete kl.1 (pd_leases c)) c)).
Definition use_selected (now : Z) (key : LeaseKey) : MR bool :=
  let prefix := net64 (p_address key.2) in
  r ← self;
  lease ← lift (unwrap (pd_leases (r_pd r) !! key));
  let old := r_pd_prefixes r !! prefix in
  let changed := match old with
                 | Some p => negb (bool_decide (op_lease p = key)) || bool_decide (is_Some (op_deprecate_at p))
                 | None => true
                 end in
  let owned := mkOwnedPrefix key None (match old with Some p => op_last_valid p | None => Until now end) in
  update (set_pd_prefixes (<[prefix := owned]> (r_pd_prefixes r))) ;;
  (if link_up Stub r then update (unwithdraw (Ail, prefix)) else mret tt) ;;
  update (fun r => set_on_link (ol_insert (Stub, prefix) (mkOnLink (ls_valid lease) (ls_preferred lease)) (r_on_link r)) r) ;;
  mret changed.
Fixpoint use_all (now : Z) (keys : list LeaseKey) : MR bool :=
  match keys with
  | [] => mret false
  | key :: keys => c ← use_selected now key; c' ← use_all now keys; mret (c || c')
  end.
Definition drop_invalid (prefix : Prefix) : MR unit :=
  update (fun r => set_pd_prefixes (delete prefix (r_pd_prefixes r)) r) ;;
  update (fun r => set_on_link (ol_remove (Stub, prefix) (r_on_link r)) r) ;;
  update (withdraw (Ail, prefix)).
Definition set_ail_state (link : Link) (s : AilState) (at_ : option Z) (r : Router) : Router :=
  on_state link (fun l => put_deprecate_at at_ (put_state s l)) r.
(** Whether the router's own prefix on the stub is advertised. *)
Definition stub_advertising (r : Router) : bool := is_one_of [Advertising; BeginAdvertising] (state Stub r).
Definition sync_pd (now : Z) : MR unit :=
  r ← self;
  for_each (List.filter (fun kl => pd_conflicts kl.1.2 now r) (entries (pd_leases (r_pd r)))) (release_conflict now) ;;
  r ← self;
  update (on_pd (fun c => set_offers
    (List.filter (fun o => negb (len (of_delegations o) =? 0)) (map (conflict_free now r) (pd_offers c))) c)) ;;
  r ← self;
  let had_pd := negb (slen (r_pd_prefixes r) =? 0) in
  let keys := List.filter (fun key => negb (outranked now r key)) (selected now (r_pd r)) in
  changed1 ← use_all now keys;
  r ← self;
  let changed2 := existsb (newly_deprecated keys) (sorted_values (r_pd_prefixes r)) in
  update (set_pd_prefixes (deprecate_owned keys now <$> r_pd_prefixes r)) ;;
  r ← self;
  let invalid := map fst (List.filter (fun kp => negb (lease_live now (r_pd r) kp.2)) (sorted (r_pd_prefixes r))) in
  for_each invalid drop_invalid ;;
  r ← self;
  let resume := (len keys =? 0) && had_pd && negb (stub_supplied now r) && negb (stub_advertising r) in
  (if resume then update (set_ail_state Stub BeginAdvertising None) else mret tt) ;;
  r ← self;
  let retire := negb (len keys =? 0) && stub_advertising r in
  (if retire then update (set_ail_state Stub Deprecating (Some now)) else mret tt) ;;
  if changed1 || changed2 || negb (len invalid =? 0) || resume || retire then
    changed Ail now ;;
    changed Stub now
  else mret tt.

(** ** Attachment *)

Definition at_observe (identity : bytes) : M Attachment io_error unit :=
  if (len identity =? 0) || (128 <? len identity) then throw OtherError else
  a ← get;
  if Z.of_nat (size (at_observed a)) <? 32
  then modify (fun a => mkAttachment (at_policy a) (at_known a) (at_observed a ∪ {[ identity ]}) (at_discovering a))
  else mret tt.
Definition at_finish : M Attachment io_error bool :=
  modify (fun a => mkAttachment (at_policy a) (at_known a) (at_observed a) false) ;;
  a ← get;
  if bool_decide (at_observed a = ∅) then mret false else
  let changed := negb (bool_decide (at_known a = ∅)) && bool_decide (at_known a ## at_observed a) in
  modify (fun a => mkAttachment (at_policy a) (at_observed a) ∅ (at_discovering a)) ;;
  mret (changed && bool_decide (at_policy a = Rotate)).
Definition evidence_count (a : Attachment) : Z := Z.of_nat (size (at_known a)) + Z.of_nat (size (at_observed a)).
Definition with_attachment {A} (m : M Attachment io_error A) : MR A := field r_attachment set_attachment m.
Definition set_site (site : Prefix) (r : Router) : Router :=
  let i := r_identity r in
  set_identity (mkIdentity (id_attachment i) site (id_iids i) (id_macs i) (id_duid i)) r.

(** A link leaves its prefix of the old site. *)
Definition retire_prefix (now : Z) (link : Link) : MR unit :=
  r ← self;
  let old := id_prefix (r_identity r) link in
  let valid := lk_last_valid (link_state link r) in
  (if live valid now then
     update (fun r => set_retired_ulas (<[(link, old) := valid]> (r_retired_ulas r)) r) ;;
     update (fun r => set_on_link (ol_insert (link, old) (mkOnLink valid (Until now)) (r_on_link r)) r)
   else mret tt) ;;
  update (on_state link (put_last_valid (Until now))) ;;
  update (set_ail_state link BeginAdvertising None) ;;
  changed link now.
Definition live_ulas (now : Z) (r : Router) : Router :=
  set_retired_ulas (filter (fun kv => live (snd kv) now = true) (r_retired_ulas r)) r.
Definition rotate_ula (now : Z) : MR unit :=
  update (live_ulas now) ;;
  r ← self;
  let additions := len (List.filter (fun l => live (lk_last_valid (link_state l r)) now) both_links) in
  if 16 <? slen (r_retired_ulas r) + additions then throw OtherError else
  s ← fresh_bytes 5;
  let octets := [0xfd] ++ s ++ zeros 10 in
  if beq (take 6 octets) (take 6 (octets6 (p_address (id_site (r_identity r))))) then throw OtherError else
  site ← lift (unwrap (prefix_new (addr6 octets) 48));
  with_nat64 (rotate_local site now) ;;
  for_each both_links (retire_prefix now) ;;
  update (set_site site) ;;
  with_pd (refresh 6 now).
Definition configure_attachment (policy : UlaPolicy) (configured : option bytes) (now : Z) : MR unit :=
  with_attachment (modify (fun a => mkAttachment policy (at_known a) (at_observed a) (at_discovering a))) ;;
  match configured with
  | None => mret tt
  | Some id =>
      if (len id =? 0) || (128 <? len id) then throw OtherError else
      r ← self;
      (if negb (beq (id_attachment (r_identity r)) id) && bool_decide (policy = Rotate) then rotate_ula now else mret tt) ;;
      update (fun r => let i := r_identity r in set_identity (mkIdentity id (id_site i) (id_iids i) (id_macs i) (id_duid i)) r)
  end.
Definition finish_attachment (now : Z) : MR unit :=
  r ← self;
  if at_discovering (r_attachment r) && (lk_discovery_end (link_state Ail r) <=? now) then
    moved ← with_attachment at_finish;
    if (moved : bool) then rotate_ula now else mret tt
  else mret tt.

(** ** Links *)

Definition forget_link (link : Link) (r : Router) : Router :=
  set_suppliers (filter (fun ks : (RouterKey * Prefix) * Supplier => rk_link ks.1.1 <> link) (r_suppliers r))
    (set_neighbors (filter (fun kn : RouterKey * Neighbor => rk_link kn.1 <> link) (r_neighbors r))
      (set_headers (filter (fun kh : RouterKey * Header => rk_link kh.1 <> link) (r_headers r)) r)).
Definition begin_discovery (link : Link) (now : Z) : MR unit :=
  update (forget_link link) ;;
  update (on_state link (fun s => put_rs_count 0 (put_state Unknown s))) ;;
  x ← draw 1000;
  next ← lift (add_chk u64_max now x);
  update (on_state link (fun s => put_discovery_end u64_max (put_rs_next next s))).
(** The prefixes of the stub, withdrawn from the infrastructure link or offered again. *)
Definition stub_moves (up : bool) (now : Z) (r : Router) : Router :=
  foldl (fun r (kv : (Link * Prefix) * OnLink) =>
    if bool_decide (kv.1.1 = Stub) && live (ol_valid kv.2) now
    then (if up then unwithdraw (Ail, kv.1.2) r else withdraw (Ail, kv.1.2) r) else r) r (ol_iter (r_on_link r)).
Definition withdraw_all (prior : list Rio) (r : Router) : Router :=
  foldl (fun r x => if 0 <? rio_lifetime x then withdraw (Stub, rio_prefix x) r else r) r prior.
Definition exhausted (link : Link) (r : Router) : bool :=
  existsb (fun ka : (Link * Z) * OwnedAddress => bool_decide (ka.1.1 = link) && bool_decide (oa_state ka.2 = DadFailed)) (sorted (r_owned r)).
Definition set_link (link : Link) (up : bool) (now : Z) : MR unit :=
  r ← self;
  if up && exhausted link r then mret tt else
  if Bool.eqb (link_up link r) up then mret tt else
  let prior := stub_routes now r in
  update (on_state link (put_up up)) ;;
  with_nat64 (sel_link_lost link) ;;
  (if bool_decide (link = Ail) && is_one_of [Running; AilUnavailable] (r_lifecycle r)
   then update (set_lifecycle (if up then Running else AilUnavailable)) else mret tt) ;;
  r ← self;
  (if bool_decide (r_lifecycle r = Stopping) && negb up then update (fun r => set_final_ras (set_at link 0 (r_final_ras r)) r) else mret tt) ;;
  (if up then begin_discovery link now else mret tt) ;;
  match link with
  | Stub =>
      update (stub_moves up now) ;;
      changed Ail now
  | Ail =>
      (if up then mret tt else update (withdraw_all prior)) ;;
      update (set_routes ∅) ;;
      changed Stub now ;;
      if up then
        with_attachment (modify (fun a => mkAttachment (at_policy a) (at_known a) ∅ true)) ;;
        with_pd (refresh 6 now)
      else mret tt
  end.
End delegated.
