(* ===== verification/Neighbors.v ===== *)
(** Neighbors, the router's own addresses and forwarding ([src/src/router/nd.rs],
    [owned.rs], [forward.rs]). *)

From S2P Require Import Prelude Effects Time Checksum Wire Scheduler Maps Observations Selection Stateful Dhcp6Wire Pd Ordered Identity RouterState Routing Delegated.

(** ** Packets *)

(** A Neighbor Solicitation for an address that is being probed, without options. *)
Definition dad_body (address : Z) : bytes := [135; 0; 0; 0; 0; 0; 0; 0] ++ octets6 address.
Definition dad_packet (address : Z) : outcome io_error bytes :=
  map_err (fun _ => OtherError) (icmp_packet 0 (solicited_node address) 255 (dad_body address)).
(** [.unwrap()] *)
Definition expect {E A} (m : outcome E A) : outcome io_error A := match m with Ok a => Ok a | _ => Panic end.
(** A link-layer address option, on links that have such addresses. *)
Definition link_address (kind : Z) (link : Link) (r : Router) : bytes :=
  match lk_kind (link_state link r) with Ethernet => [kind; 1] ++ own_mac link r | RawIpv6 => [] end.
(** [nd.options.iter().find(..)]: the first option of the kind with eight bytes. *)
Fixpoint option_mac (kind : Z) (l : list NdOption) : outcome io_error (option bytes) :=
  match l with
  | [] => Ok None
  | o :: l => if (o_kind o =? kind) && (len (o_bytes o) =? 8) then m ← slice (o_bytes o) 2 8; Ok (Some m) else option_mac kind l
  end.
Definition nd_address (nd : Nd) : outcome io_error Z := t ← slice (nd_body nd) 8 24; Ok (addr6 t).

(** ** State *)

Definition insert_neighbor (key : RouterKey) (n : Neighbor) (r : Router) : Router := set_neighbors (<[key := n]> (r_neighbors r)) r.
Definition insert_owned (key : Link * Z) (a : OwnedAddress) (r : Router) : Router := set_owned (<[key := a]> (r_owned r)) r.
Definition neighbor_count (link : Link) (r : Router) : Z := mcount (fun k _ => bool_decide (rk_link k = link)) (r_neighbors r).
Definition pending_count (r : Router) : Z := mcount (fun _ n => bool_decide (is_Some (nb_pending n))) (r_neighbors r).
Definition with_pending (p : option Pending) (n : Neighbor) : Neighbor :=
  mkNeighbor (nb_mac n) (nb_state n) (nb_deadline n) (nb_probes_sent n) (nb_is_router n) p.
Definition with_timer (s : NeighborState) (deadline : option Z) (probes : Z) (n : Neighbor) : Neighbor :=
  mkNeighbor (nb_mac n) s deadline probes (nb_is_router n) (nb_pending n).
Definition with_mac (mac : option bytes) (n : Neighbor) : Neighbor :=
  mkNeighbor mac (nb_state n) (nb_deadline n) (nb_probes_sent n) (nb_is_router n) (nb_pending n).
Definition with_router (b : bool) (n : Neighbor) : Neighbor :=
  mkNeighbor (nb_mac n) (nb_state n) (nb_deadline n) (nb_probes_sent n) b (nb_pending n).
Definition failed_expired (now : Z) (n : Neighbor) : bool :=
  bool_decide (nb_state n = Failed) && match nb_deadline n with Some t => t <=? now | None => false end.
(** One round of [reap_failed_neighbors]. *)
Definition reap_neighbor (r : Router) (key : RouterKey) : Router :=
  let r := set_suppliers (filter (fun ks : (RouterKey * Prefix) * Supplier => ks.1.1 <> key) (r_suppliers r)) r in
  let r := if bool_decide (rk_link key = Ail)
           then set_routes (filter (fun kr : (Z * Prefix) * Route => kr.1.1 <> rk_address key) (r_routes r)) r else r in
  set_neighbors (delete key (r_neighbors r)) r.
Definition reap_failed_neighbors (now : Z) (r : Router) : Router :=
  foldl reap_neighbor r (map fst (List.filter (fun kn : RouterKey * Neighbor => failed_expired now kn.2) (sorted (r_neighbors r)))).
Definition memberships (link : Link) (r : Router) : gset Z :=
  {[ all_nodes; all_routers ]} ∪ list_to_set
    (map (fun ka : (Link * Z) * OwnedAddress => solicited_node ka.1.2)
      (List.filter (fun ka : (Link * Z) * OwnedAddress => bool_decide (ka.1.1 = link) && negb (bool_decide (oa_state ka.2 = DadFailed))) (sorted (r_owned r)))).
(** The frame a packet leaves in. *)
Definition encapsulate (tx : Tx) (kind : FrameKind) (now : Z) (r : Router) : outcome io_error bytes :=
  match kind with
  | RawIpv6 => Ok (tx_packet tx)
  | Ethernet =>
      e ← map_err (fun _ => OtherError) (envelope RawIpv6 (tx_packet tx));
      dest ← (if is_multicast6 (e_destination e)
              then a ← slice (octets6 (e_destination e)) 12 16; Ok ([0x33; 0x33] ++ a)
              else next ← ok_or (egress_next_hop (tx_link tx) (e_destination e) now r) OtherError;
                   ok_or (match r_neighbors r !! mkRouterKey (tx_link tx) next with Some n => nb_mac n | None => None end) WouldBlock);
      Ok (dest ++ own_mac (tx_link tx) r ++ [0x86; 0xdd] ++ tx_packet tx)
  end.

Section neighbors.
Context {R : Type} `{Sampler R}.
Abbreviation MR := (M (Router * R) io_error).

(** ** Probing *)

Definition probe (key : RouterKey) (now : Z) : MR Tx :=
  r ← self;
  match r_neighbors r !! key with
  | None => throw OtherError
  | Some n =>
      let known := bool_decide (is_Some (nb_mac n)) in
      deadline ← lift (add_chk u64_max now 1000);
      probes ← lift (add_chk u8_max (nb_probes_sent n) 1);
      update (insert_neighbor key (with_timer (if known then Probe else Incomplete) (Some deadline) probes n)) ;;
      packet ← lift (map_err (fun _ => OtherError)
        (icmp_packet (link_local_of (rk_link key) r) (if known then rk_address key else solicited_node (rk_address key)) 255
           (dad_body (rk_address key) ++ link_address 1 (rk_link key) r)));
      mret (mkTx (rk_link key) packet)
  end.
Definition queue_neighbor (key : RouterKey) (pending : Pending) (now : Z) : MR (list Tx) :=
  r ← self;
  let waiting := match r_neighbors r !! key with Some n => bool_decide (is_Some (nb_pending n)) | None => false end in
  if negb (has_key (r_neighbors r) key) && (256 <=? neighbor_count (rk_link key) r) || negb waiting && (64 <=? pending_count r)
  then mret [] else
  let n := with_pending (Some pending) (default (mkNeighbor None Incomplete None 0 false None) (r_neighbors r !! key)) in
  update (insert_neighbor key n) ;;
  if nb_probes_sent n =? 0 then
    update (insert_neighbor key (with_timer (nb_state n) (Some now) 0 n)) ;;
    r ← self;
    if link_ready (rk_link key) r then tx ← probe key now; mret [tx] else mret []
  else mret [].
Definition resolve_output (tx : Tx) (now : Z) : MR (list Tx) :=
  update (reap_failed_neighbors now) ;;
  match envelope RawIpv6 (tx_packet tx) with
  | Err _ => mret []
  | Panic => lift Panic
  | Ok e =>
      r ← self;
      if match lk_kind (link_state (tx_link tx) r) with RawIpv6 => true | Ethernet => false end || is_multicast6 (e_destination e) then mret [tx] else
      match egress_next_hop (tx_link tx) (e_destination e) now r with
      | None => mret []
      | Some next =>
          let key := mkRouterKey (tx_link tx) next in
          if match r_neighbors r !! key with Some n => bool_decide (is_Some (nb_mac n)) && negb (bool_decide (nb_state n = Failed)) | None => false end
          then mret [tx] else queue_neighbor key (Output tx) now
      end
  end.

(** ** Forwarding *)

(** The router's own address that errors are sent from. *)
Definition error_source (link : Link) (r : Router) : option Z :=
  head (map (fun ka : (Link * Z) * OwnedAddress => ka.1.2)
    (List.filter (fun ka : (Link * Z) * OwnedAddress =>
       bool_decide (ka.1.1 = link) && bool_decide (oa_state ka.2 = Ready) && negb (link_local ka.1.2)) (sorted (r_owned r)))).
(** An ICMPv6 error message itself, which is never answered by another. *)
Definition is_icmp_error (e : Envelope) : outcome io_error bool :=
  match transport e with
  | Ok t => Ok ((t_protocol t =? 58) && negb (t_non_initial t) && match t_bytes t with b :: _ => b <? 128 | [] => false end)
  | Err _ => Ok false
  | Panic => Panic
  end.
Definition icmp_error (link : Link) (e : Envelope) (kind code value now : Z) : MR (list Tx) :=
  r ← self;
  if match r_error_after r with Some t => now <? t | None => false end
     || is_unspecified6 (e_source e) || is_multicast6 (e_source e) || is_loopback6 (e_source e) || link_local (e_source e)
     || is_multicast6 (e_destination e) && negb (kind =? 2) && negb ((kind =? 4) && (code =? 2))
  then mret [] else
  silent ← lift (is_icmp_error e);
  if (silent : bool) then mret [] else
  match error_source link r with
  | None => mret []
  | Some source =>
      quoted ← lift (slice (e_packet e) 0 (Z.min (len (e_packet e)) 1232));
      after ← lift (add_chk u64_max now 100);
      update (set_error_after (Some after)) ;;
      packet ← lift (expect (icmp_packet source (e_source e) 64 ([kind; code; 0; 0] ++ be32 value ++ quoted)));
      mret [mkTx link packet]
  end.
Definition forwarding (r : Router) : bool := is_one_of [Running; AilUnavailable] (r_lifecycle r) && link_up Ail r && link_up Stub r.
(** Addresses that are never forwarded from, or to. *)
Definition unroutable (a : Z) : bool := is_unspecified6 a || is_multicast6 a || is_loopback6 a || link_local a.
(** The neighbor is used; its reachability is to be confirmed. *)
Definition touch_neighbor (key : RouterKey) (now : Z) : MR unit :=
  r ← self;
  match r_neighbors r !! key with
  | Some n =>
      if bool_decide (nb_state n = Stale) then
        deadline ← lift (add_chk u64_max now 5000);
        update (insert_neighbor key (with_timer Delay (Some deadline) 0 n))
      else mret tt
  | None => mret tt
  end.
Definition unresolved (key : RouterKey) (r : Router) : bool :=
  match lk_kind (link_state (rk_link key) r) with
  | Ethernet => match r_neighbors r !! key with
                | Some n => match nb_mac n with None => true | Some _ => bool_decide (nb_state n = Failed) end
                | None => true
                end
  | RawIpv6 => false
  end.
Definition forward (link : Link) (e : Envelope) (now : Z) : MR (list Tx) :=
  r ← self;
  if is_one_of [Starting; Stopping; Stopped; Degraded] (r_lifecycle r) || negb (link_up Ail r) || negb (link_up Stub r)
     || unroutable (e_source e) || unroutable (e_destination e) then mret [] else
  if bool_decide (link = Stub) && on_link_live Stub (e_destination e) now r then mret [] else
  match lookup_route link (e_destination e) now r with
  | None => icmp_error link e 1 0 0 now
  | Some (egress, next) =>
      if e_hop_limit e <=? 1 then icmp_error link e 3 0 0 now else
      let mtu := lk_mtu (link_state egress r) in
      if mtu <? len (e_packet e) then icmp_error link e 2 0 mtu now else
      update (reap_failed_neighbors now) ;;
      r ← self;
      let key := mkRouterKey egress next in
      if unresolved key r then
        if negb (neighbor_not_failed key r) then icmp_error link e 1 3 0 now
        else queue_neighbor key (Transit (mkTx link (e_packet e))) now
      else
      touch_neighbor key now ;;
      hop ← lift (e_packet e).[7];
      hop ← lift (sub_chk hop 1);
      packet ← lift (copy_at (e_packet e) 7 [hop]);
      mret [mkTx egress packet]
  end.

(** ** Neighbor Discovery *)

(** A Router Advertisement from the neighbor. *)
Definition observe_ra (key : RouterKey) (mac : option bytes) (now : Z) : MR (option (list Tx)) :=
  r ← self;
  let n := with_router true (default (mkNeighbor None Stale None 0 true None) (r_neighbors r !! key)) in
  let n := if bool_decide (is_Some mac) && negb (bool_decide (nb_mac n = mac)) then with_timer Stale (nb_deadline n) (nb_probes_sent n) (with_mac mac n) else n in
  if is_one_of [Stale; Failed] (nb_state n) then
    let n := with_timer (nb_state n) (nb_deadline n) 0 n in
    update (insert_neighbor key n) ;;
    r ← self;
    if link_ready (rk_link key) r then tx ← probe key now; mret (Some [tx])
    else
      update (insert_neighbor key (with_timer (nb_state n) (Some now) 0 n)) ;;
      mret None
  else
    update (insert_neighbor key n) ;;
    mret None.
(** A Neighbor Advertisement for the target; [Some] ends the handling. *)
Definition observe_na (key : RouterKey) (mac : option bytes) (flags now : Z) : MR (option (list Tx)) :=
  r ← self;
  match r_neighbors r !! key with
  | None => mret None
  | Some n =>
      let changed := bool_decide (is_Some mac) && bool_decide (is_Some (nb_mac n)) && negb (bool_decide (mac = nb_mac n)) in
      if changed && (Z.land flags 0x20 =? 0) then
        update (insert_neighbor key (if bool_decide (nb_state n = Reachable) then with_timer Stale (nb_deadline n) (nb_probes_sent n) n else n)) ;;
        mret (Some [])
      else
      let n := if bool_decide (is_Some mac) then with_mac mac n else n in
      n ← (if negb (Z.land flags 0x40 =? 0)
               && (bool_decide (is_Some (nb_mac n)) || match lk_kind (link_state (rk_link key) r) with RawIpv6 => true | Ethernet => false end)
           then deadline ← lift (add_chk u64_max now 60000); mret (with_timer Reachable (Some deadline) 0 n)
           else mret (if changed then with_timer Stale (nb_deadline n) (nb_probes_sent n) n else n));
      update (insert_neighbor key (with_router (negb (Z.land flags 0x80 =? 0)) n)) ;;
      mret None
  end.
(** The packet that waited for the neighbor. *)
Definition release_pending (key : RouterKey) (now : Z) : MR (list Tx) :=
  r ← self;
  if negb (reachable key now r) then mret [] else
  match r_neighbors r !! key with
  | None => mret []
  | Some n =>
      update (insert_neighbor key (with_pending None n)) ;;
      match nb_pending n with
      | None => mret []
      | Some (Output tx) => mret [tx]
      | Some (Transit tx) =>
          match envelope RawIpv6 (tx_packet tx) with
          | Ok e => forward (tx_link tx) e now
          | Err _ => mret []
          | Panic => lift Panic
          end
      end
  end.
Definition observe_neighbor (link : Link) (e : Envelope) (nd : Nd) (now : Z) : MR (list Tx) :=
  mac ← lift (option_mac (if nd_kind nd =? 136 then 2 else 1) (nd_options nd));
  done ← (if nd_kind nd =? 134 then observe_ra (mkRouterKey link (e_source e)) mac now else mret None);
  match done with
  | Some out => mret out
  | None =>
      if nd_kind nd =? 136 then
        target ← lift (nd_address nd);
        flags ← lift (nd_body nd).[4];
        let key := mkRouterKey link target in
        done ← observe_na key mac flags now;
        match done with
        | Some out => mret out
        | None => release_pending key now
        end
      else mret []
  end.
Definition neighbor_due (now : Z) (r : Router) (kn : RouterKey * Neighbor) : bool :=
  link_up (rk_link kn.1) r && link_ready (rk_link kn.1) r
  && match nb_deadline kn.2 with Some t => t <=? now | None => false end && negb (bool_decide (nb_state kn.2 = Failed)).
Definition tick_neighbor (now : Z) (key : RouterKey) : MR (list Tx) :=
  r ← self;
  n ← lift (unwrap (r_neighbors r !! key));
  let n := if bool_decide (nb_state n = Reachable) then with_timer (nb_state n) (nb_deadline n) 0 n else n in
  update (insert_neighbor key n) ;;
  if 3 <=? nb_probes_sent n then
    update (insert_neighbor key (with_pending None (with_timer Failed (Some (sat64 now 30000)) (nb_probes_sent n) n))) ;;
    match nb_pending n with
    | Some (Transit tx) =>
        match envelope RawIpv6 (tx_packet tx) with
        | Ok e => icmp_error (tx_link tx) e 1 3 0 now
        | Err _ => mret []
        | Panic => lift Panic
        end
    | _ => mret []
    end
  else tx ← probe key now; mret [tx].
Definition tick_neighbors (now : Z) : MR (list Tx) :=
  update (reap_failed_neighbors now) ;;
  r ← self;
  collect (map fst (List.filter (neighbor_due now r) (sorted (r_neighbors r)))) (tick_neighbor now).

(** ** The router's own addresses *)

Definition begin_dad (link : Link) (address now : Z) : MR Tx :=
  (if link_local address
   then update (on_state link (fun s => put_discovery_end u64_max (put_rs_next (sat64 now 1000) (put_rs_count 0 s)))) else mret tt) ;;
  deadline ← lift (add_chk u64_max now 1000);
  update (fun r => insert_owned (link, address)
    (mkOwnedAddress true (if link_local address then None else prefix_new address 64) Tentative (Some deadline) 1) r) ;;
  packet ← lift (expect (dad_packet address));
  mret (mkTx link packet).
(** The prefixes for which the router's services need an address. *)
Definition service_prefixes (now : Z) (r : Router) : list (Link * Prefix) :=
  in_order (map (fun ks : (RouterKey * Prefix) * Supplier => (rk_link ks.1.1, ks.1.2))
    (List.filter (fun ks : (RouterKey * Prefix) * Supplier => su_autonomous ks.2 && live (su_valid ks.2) now && link_up (rk_link ks.1.1) r && link_ready (rk_link ks.1.1) r)
      (sorted (r_suppliers r)))).
Definition has_address (link : Link) (prefix : Prefix) (r : Router) : bool :=
  existsb (fun ka : (Link * Z) * OwnedAddress => bool_decide (ka.1.1 = link) && bool_decide (oa_prefix ka.2 = Some prefix)) (sorted (r_owned r)).
Definition owned_count (link : Link) (r : Router) : Z := mcount (fun k _ => bool_decide (fst k = link)) (r_owned r).
Definition prepare_address (now : Z) (lp : Link * Prefix) : MR (list Tx) :=
  r ← self;
  if has_address lp.1 lp.2 r then mret [] else
  if 32 <=? owned_count lp.1 r then degrade now ;; throw OtherError else
  tx ← begin_dad lp.1 (id_address (r_identity r) lp.1 lp.2) now;
  mret [tx].
Definition prepare_service_addresses (now : Z) : MR (list Tx) :=
  r ← self;
  collect (service_prefixes now r) (prepare_address now).
Definition tick_dad_address (now : Z) (ka : (Link * Z) * OwnedAddress) : MR (list Tx) :=
  let '((link, address), a) := ka in
  r ← self;
  if negb (link_up link r) then mret [] else
  if bool_decide (oa_state a = Tentative) && match oa_deadline a with Some t => t <=? now | None => false end then
    if (oa_attempts a =? 0) || negb (oa_probe_sent a) then
      deadline ← lift (add_chk u64_max now 1000);
      update (insert_owned (link, address) (mkOwnedAddress true (oa_prefix a) (oa_state a) (Some deadline) (Z.max (oa_attempts a) 1))) ;;
      packet ← lift (expect (dad_packet address));
      mret [mkTx link packet]
    else
      update (insert_owned (link, address) (mkOwnedAddress (oa_probe_sent a) (oa_prefix a) Ready None (oa_attempts a))) ;;
      mret []
  else mret [].
Definition tick_dad (now : Z) : MR (list Tx) :=
  r ← self;
  collect (sorted (r_owned r)) (tick_dad_address now).

(** Another node uses the address that is being probed: another one is tried. *)
Definition set_iid (link : Link) (iid : Z) (r : Router) : Router :=
  let i := r_identity r in
  set_identity (mkIdentity (id_attachment i) (id_site i) (set_at link iid (id_iids i)) (id_macs i) (id_duid i)) r.
Definition dad_conflict (link : Link) (target : Z) (own : OwnedAddress) (now : Z) : MR (list Tx) :=
  if 3 <=? oa_attempts own then
    update (insert_owned (link, target) (mkOwnedAddress (oa_probe_sent own) (oa_prefix own) DadFailed None (oa_attempts own))) ;;
    set_link link false now ;;
    throw OtherError
  else
    update (fun r => set_owned (delete (link, target) (r_owned r)) r) ;;
    b ← fresh_bytes 8;
    let iid := Z.max (Z.land (of_be b) 0xfdffffffffffffff) 1 in
    (match oa_prefix own with None => update (set_iid link iid) | Some _ => mret tt end) ;;
    let prefix := default (net64 fe80) (oa_prefix own) in
    let address := Z.lor (p_address prefix) iid in
    tx ← begin_dad link address now;
    r ← self;
    fresh ← lift (unwrap (r_owned r !! (link, address)));
    attempts ← lift (add_chk u8_max (oa_attempts own) 1);
    update (insert_owned (link, address) (mkOwnedAddress (oa_probe_sent fresh) (oa_prefix fresh) (oa_state fresh) (oa_deadline fresh) attempts)) ;;
    mret [tx].
(** The neighbor that solicits an address of the router's. *)
Definition learn_solicitor (key : RouterKey) (mac : option bytes) (r : Router) : Router :=
  insert_neighbor key
    (match r_neighbors r !! key with
     | Some n =>
         if bool_decide (is_Some mac) && (negb (bool_decide (nb_mac n = mac)) || bool_decide (nb_state n = Failed))
         then with_timer Stale None 0 (with_mac mac n) else n
     | None => mkNeighbor mac Stale None 0 false None
     end) r.
Definition answer_solicitation (link : Link) (target : Z) (e : Envelope) (nd : Nd) (now : Z) : MR (list Tx) :=
  let dad := is_unspecified6 (e_source e) in
  let key := mkRouterKey link (e_source e) in
  (if dad then mret tt else
     r ← self;
     if negb (has_key (r_neighbors r) key) && (256 <=? neighbor_count link r) then degrade now ;; throw OtherError else
     mac ← lift (option_mac 1 (nd_options nd));
     update (reap_failed_neighbors now) ;;
     update (learn_solicitor key mac)) ;;
  r ← self;
  packet ← lift (expect (icmp_packet target (if dad then all_nodes else e_source e) 255
    ([136; 0; 0; 0; if dad then 0xa0 else 0xe0; 0; 0; 0] ++ octets6 target ++ link_address 2 link r)));
  mret [mkTx link packet].
Definition owned_nd (link : Link) (e : Envelope) (nd : Nd) (now : Z) : MR (option (list Tx)) :=
  if negb (nd_kind nd =? 135) && negb (nd_kind nd =? 136) then mret None else
  target ← lift (nd_address nd);
  r ← self;
  match r_owned r !! (link, target) with
  | None => mret None
  | Some own =>
      if bool_decide (oa_state own = Tentative) then out ← dad_conflict link target own now; mret (Some out) else
      if negb (bool_decide (oa_state own = Ready)) || negb (nd_kind nd =? 135) then mret (Some []) else
      out ← answer_solicitation link target e nd now;
      mret (Some out)
  end.
End neighbors.
