(* ===== verification/Announce.v ===== *)
(** What the router announces ([snapshot] of [src/src/router/mod.rs], and [services.rs]):
    its advertisements, and the DNS resolvers and NAT64 prefixes in them. *)

From S2P Require Import Prelude Effects Time Checksum Wire Scheduler Maps Observations Selection Stateful Dhcp6Wire Pd Ordered Identity RouterState Routing Delegated Neighbors.

(** ** Advertisements *)

Definition own_pio (prefix : Prefix) (preferred valid : Z) : Pio := mkPio prefix 0xc0 preferred valid.
Definition own_pios (link : Link) (now : Z) (r : Router) : list Pio :=
  let s := link_state link r in
  let prefix := id_prefix (r_identity r) link in
  (if is_one_of [BeginAdvertising; Advertising] (lk_state s) then [own_pio prefix 1800 1800] else [])
  ++ match (if bool_decide (lk_state s = Deprecating) then lk_deprecate_at s else None) with
     | Some at_ =>
         let valid := deprecation_remaining at_ now in
         if 206 <=? valid then [own_pio prefix 0 valid] else []
     | None => []
     end
  ++ map (fun kv : (Link * Prefix) * Lifetime => own_pio kv.1.2 0 (remaining kv.2 now))
       (List.filter (fun kv : (Link * Prefix) * Lifetime => bool_decide (kv.1.1 = link) && (206 <=? remaining kv.2 now)) (sorted (r_retired_ulas r))).
Definition link_pios (link : Link) (now : Z) (r : Router) : list Pio :=
  match link with
  | Ail => own_pios Ail now r
  | Stub => sort_by_prefix pio_prefix (own_pios Stub now r ++ delegated_pios now r)
  end.
(** The stub's prefixes as routes for the infrastructure link. *)
Definition stub_rios (now : Z) (r : Router) : list Rio :=
  map (fun kv : (Link * Prefix) * OnLink => low_rio kv.1.2 (remaining_capped (ol_valid kv.2) now))
    (List.filter (fun kv : (Link * Prefix) * OnLink => link_up Stub r && bool_decide (kv.1.1 = Stub) && live (ol_valid kv.2) now) (ol_iter (r_on_link r))).
(** The sort key [(Reverse(p.preferred.live(now)), Reverse(p.valid), r.prefix)]. *)
Definition lifetime_rank (l : Lifetime) : Z := match l with Until t => t | Infinite => u64_max + 1 end.
Definition export_key (now : Z) (r : Router) (rio : Rio) : outcome io_error (Z * Z * Prefix) :=
  p ← unwrap (ol_get (Stub, rio_prefix rio) (r_on_link r));
  Ok (- of_bool (live (ol_preferred p) now), - lifetime_rank (ol_valid p), rio_prefix rio).
Fixpoint export_keys (now : Z) (r : Router) (l : list Rio) : outcome io_error (list ((Z * Z * Prefix) * Rio)) :=
  match l with
  | [] => Ok []
  | rio :: l => k ← export_key now r rio; rest ← export_keys now r l; Ok ((k, rio) :: rest)
  end.
Definition export_order (now : Z) (r : Router) (l : list Rio) : outcome io_error (list Rio) :=
  keyed ← export_keys now r l;
  Ok (map snd (merge_sort le_key keyed)).
Definition withdraw_rio (link : Link) (r : Router) (rio : Rio) : Rio :=
  if has_key (r_withdrawals r) (link, rio_prefix rio) then mkRio (rio_prefix rio) (rio_preference rio) 0 else rio.
Definition advertised_live (link : Link) (now : Z) (r : Router) : list Prefix :=
  map (fun kv : (Link * Prefix) * Lifetime => kv.1.2)
    (List.filter (fun kv : (Link * Prefix) * Lifetime => bool_decide (kv.1.1 = link) && live kv.2 now) (sorted (r_advertised_routes r))).
(** Earlier routes that are no longer announced are withdrawn. *)
Definition add_missing (rios : list Rio) (p : Prefix) : list Rio :=
  if existsb (fun x => bool_decide (rio_prefix x = p)) rios then rios else rios ++ [low_rio p 0].
Definition active_rios (link : Link) (now : Z) (r : Router) : outcome io_error (list Rio) :=
  rios ← match link with
         | Ail => l ← export_order now r (stub_rios now r); Ok (budget_ail l now r)
         | Stub => Ok (stub_routes now r)
         end;
  Ok (foldl add_missing (map (withdraw_rio link r) rios) (advertised_live link now r)).
Definition final_pio (link : Link) (now : Z) (r : Router) (p : Pio) : Pio :=
  let last := if bool_decide (pio_prefix p = id_prefix (r_identity r) link) then lk_last_valid (link_state link r)
              else match r_pd_prefixes r !! pio_prefix p with Some o => op_last_valid o | None => Until now end in
  mkPio (pio_prefix p) (pio_flags p) 0 (Z.min (pio_valid p) (remaining last now)).
Definition stopping (r : Router) : bool := is_one_of [Stopping; Stopped] (r_lifecycle r).
(** [max_by_key(|(_, h)| h.last_ra_at)]: the flags of the latest infrastructure router. *)
Definition infrastructure_mo (now : Z) (r : Router) : Z :=
  match max_by (fun x y : RouterKey * Header => hd_last_ra_at y.2 <=? hd_last_ra_at x.2)
    (List.filter (fun kh : RouterKey * Header => bool_decide (rk_link kh.1 = Ail) && negb (hd_snac kh.2)
       && match hd_lifetime kh.2 with Some l => live l now | None => true end) (sorted (r_headers r))) with
  | Some kh => hd_mo kh.2
  | None => 0
  end.
Definition snapshot (link : Link) (now : Z) (r : Router) : outcome io_error Advertisement :=
  rios ← active_rios link now r;
  let rios := if silenced r then map (fun p => low_rio p 0) (advertised_live link now r) else rios in
  let pios := link_pios link now r in
  let pios := if stopping r then List.filter (fun p => 0 <? pio_valid p) (map (final_pio link now r) pios) else pios in
  let s := link_state link r in
  Ok (mkAdvertisement link (link_local_of link r) all_nodes
        match lk_kind s with Ethernet => Some (own_mac link r) | RawIpv6 => None end
        (lk_mtu s) (infrastructure_mo now r)
        match link with Stub => default_lifetime now r | Ail => 0 end pios rios).

(** ** Services *)

Definition unspecific (a : Z) : bool := is_unspecified6 a || is_multicast6 a || is_loopback6 a.
(** Sorted by scope and address, [dedup], [truncate(2)]. *)
Definition resolver_key (a : Z) : Z * Z := (of_bool (link_local a), a).
Definition installable (r : Router) (a : Z) : bool := address_ready Stub a r && negb (unspecific a).
Definition choose_resolvers (resolvers : list Z) (r : Router) : list Z :=
  take 2 (map snd (in_order (map resolver_key (List.filter (installable r) resolvers)))).
Definition service_until (address now : Z) (r : Router) : option Z :=
  if negb (link_up Stub r) || negb (address_ready Stub address r) || silenced r then None else
  let cap := sat64 now 1800000 in
  if link_local address then Some cap else
  max_by (fun x y => y <=? x) (map (fun kv : (Link * Prefix) * OnLink => Z.min (lifetime_time (ol_valid kv.2)) cap)
    (List.filter (fun kv : (Link * Prefix) * OnLink => bool_decide (kv.1.1 = Stub) && contains kv.1.2 address && live (ol_valid kv.2) now)
       (ol_iter (r_on_link r)))).
Definition latest (l : list Z) : option Z := max_by (fun x y => y <=? x) l.
(** [iter.filter_map(f)] *)
Definition filter_map {A B} (f : A -> option B) (l : list A) : list B := concat (map (fun a => option_list (f a)) l).
Definition dns_life (now : Z) (r : Router) (until : option Z) : Z := sat_sub (default now until) now / 1000.
(** The resolvers announced: those announced before, then new ones while there is room. *)
Definition known_dns (now : Z) (r : Router) : gmap Z Z :=
  map_imap (fun address _ => Some (if mem address (sv_resolvers (r_services r)) then dns_life now r (service_until address now r) else 0))
    (sv_dns_history (r_services r)).
Fixpoint add_dns (now : Z) (r : Router) (resolvers : list Z) (dns : gmap Z Z) : gmap Z Z :=
  match resolvers with
  | [] => dns
  | address :: resolvers =>
      if slen dns =? 2 then dns else
      add_dns now r resolvers
        match service_until address now r with
        | Some until => <[address := sat_sub until now / 1000]> dns
        | None => dns
        end
  end.
Definition dns_lifetimes (now : Z) (r : Router) : gmap Z Z := add_dns now r (sv_resolvers (r_services r)) (known_dns now r).
Definition pd_ready (now : Z) (r : Router) (kp : Prefix * OwnedPrefix) : option Z :=
  if existsb (fun ka : (Link * Z) * OwnedAddress =>
       bool_decide (ka.1.1 = Stub) && bool_decide (oa_prefix ka.2 = Some kp.1) && bool_decide (is_Some (service_until ka.1.2 now r))) (sorted (r_owned r))
  then match pd_leases (r_pd r) !! op_lease kp.2 with
       | Some l =>
           let t := Z.min (lifetime_time (op_last_valid kp.2)) (lifetime_time (ls_valid l)) in
           if now <? t then Some t else None
       | None => None
       end
  else None.
Definition readiness (now : Z) (r : Router) : Readiness :=
  mkReadiness
    (latest (filter_map (pd_ready now r) (sorted (r_pd_prefixes r))))
    (sv_ipv4 (r_services r))
    (latest (filter_map (fun a => service_until a now r) (List.filter (fun a => negb (link_local a)) (sv_resolvers (r_services r)))))
    (sv_translator (r_services r) && link_up Ail r && bool_decide (r_lifecycle r = Running)).
(** Until when the infrastructure routes a prefix. *)
Definition return_route (now : Z) (r : Router) (prefix : Prefix) : option Z :=
  latest (map (fun kr : (Z * Prefix) * Route => lifetime_time (rt_valid kr.2))
    (List.filter (fun kr : (Z * Prefix) * Route => link_up Ail r && (p_length kr.1.2 <=? p_length prefix) && contains kr.1.2 (p_address prefix)
       && usable_route kr.1.1 kr.2 now r) (sorted (r_routes r)))).
(** The room for learned routes beside what the services may announce. *)
Definition service_reserve (ad : Advertisement) : Z :=
  40 + 16 + of_bool (bool_decide (is_Some (ad_mac ad))) * 8 + 8 + Z.max (len (ad_pios ad)) 17 * 32 + 2 * 24 + 8 * (16 + 24).
Fixpoint keep_promised (r : Router) (rios : list Rio) (available : Z) : outcome WireError (Z * list Rio * list Rio) :=
  match rios with
  | [] => Ok (available, [], [])
  | rio :: rios =>
      if has_key (r_advertised_routes r) (Stub, rio_prefix rio) then
        let size := len (rio_encode rio) in
        reject_if available <? size with Capacity;
        '(available, admitted, candidates) ← keep_promised r rios (available - size);
        Ok (available, rio :: admitted, candidates)
      else
        '(available, admitted, candidates) ← keep_promised r rios available;
        Ok (available, admitted, rio :: candidates)
  end.
Definition reserve_services (ad : Advertisement) (nat_prefixes : list Prefix) (r : Router) : outcome WireError (list Rio) :=
  if negb (len (sv_resolvers (r_services r)) =? 0) || negb (slen (sv_dns_history (r_services r)) =? 0) then
    let rios := List.filter (fun x => negb (bool_decide (rio_prefix x ∈ nat_prefixes))) (ad_rios ad) in
    '(available, admitted, candidates) ← keep_promised r rios (sat_sub 1280 (service_reserve ad));
    Ok (snd (foldl admit_new (available, admitted) candidates))
  else Ok (ad_rios ad).
Definition add_service_route (rios : list Rio) (route : Rio) : list Rio :=
  List.filter (fun x => negb (bool_decide (rio_prefix x = rio_prefix route))) rios ++ [route].
Definition set_rios (ad : Advertisement) (rios : list Rio) : Advertisement :=
  mkAdvertisement (ad_link ad) (ad_source ad) (ad_destination ad) (ad_mac ad) (ad_mtu ad) (ad_mo ad) (ad_default_lifetime ad) (ad_pios ad) rios.
(** [dns_history.retain(|_, (v, _)| v.live(now))] *)
Definition on_services (f : Services -> Services) (r : Router) : Router := set_services (f (r_services r)) r.
Definition put_history (h : gmap Z (Lifetime * Z)) (s : Services) : Services := mkServices (sv_resolvers s) h (sv_ipv4 s) (sv_translator s).
Definition live_history (now : Z) (s : Services) : Services :=
  put_history (filter (fun kv => live (fst (snd kv)) now = true) (sv_dns_history s)) s.
(** The lines of a DNS option, [o.bytes[8..].chunks_exact(16)]. *)
Fixpoint addresses16 (n : nat) (b : bytes) : list Z :=
  match n with O => [] | S n => if len b <? 16 then [] else addr6 (take 16 b) :: addresses16 n (drop 16 b) end.
Definition dns_announced (now lifetime : Z) (h : gmap Z (Lifetime * Z)) (a : Z) : gmap Z (Lifetime * Z) :=
  if (0 <? lifetime) && (has_key h a || (slen h <? 2)) then <[a := (from_secs now lifetime, 3)]> h
  else alter (fun vc => (fst vc, sat_sub (snd vc) 1)) a h.
Definition dns_option (now : Z) (h : gmap Z (Lifetime * Z)) (o : NdOption) : outcome io_error (gmap Z (Lifetime * Z)) :=
  if negb (o_kind o =? 25) || (len (o_bytes o) <? 24) || negb (len (o_bytes o) mod 16 =? 8) then Ok h else
  lifetime ← u32_at (o_bytes o) 4;
  rest ← slice_from (o_bytes o) 8;
  Ok (foldl (dns_announced now lifetime) h (addresses16 (length rest) rest)).
Fixpoint dns_options (now : Z) (l : list NdOption) (h : gmap Z (Lifetime * Z)) : outcome io_error (gmap Z (Lifetime * Z)) :=
  match l with [] => Ok h | o :: l => h ← dns_option now h o; dns_options now l h end.
Definition announcement (r : Router) (p : Pref64) : Announcement :=
  mkAnnouncement p
    (if bool_decide (pref64_prefix p = sl_local (r_nat64 r)) then SrcLocal
     else if bool_decide (Some (pref64_prefix p) = pol_infrastructure (sl_policy (r_nat64 r))) then SrcConfigured
     else SrcInfrastructure).
Fixpoint announcements (r : Router) (l : list NdOption) : outcome io_error (list Announcement) :=
  match l with
  | [] => Ok []
  | o :: l =>
      d ← maybe (pref64_decode (o_bytes o));
      rest ← announcements r l;
      Ok (match d with Some p => announcement r p :: rest | None => rest end)
  end.

Section services.
Context {R : Type} `{Sampler R}.
Abbreviation MR := (M (Router * R) io_error).

Definition service_inventory (resolvers : list Z) (ipv4 : option Z) (translator : bool) (now : Z) : MR unit :=
  r ← self;
  let s := r_services r in
  let addresses := choose_resolvers resolvers r in
  let same := bool_decide (sv_resolvers s = addresses) && bool_decide (sv_ipv4 s = ipv4) && Bool.eqb (sv_translator s) translator in
  update (set_services (mkServices addresses (sv_dns_history s) ipv4 translator)) ;;
  if same then mret tt else changed Stub now.
(** [encoded == Err(WireError::Capacity)] *)
Definition over_capacity {A} (m : outcome WireError A) : bool := match m with Err e => bool_decide (e = Capacity) | _ => false end.
(** A [Result] of the wire formats as a value. *)
Definition attempt {A} (m : outcome WireError A) : MR (outcome WireError A) :=
  match m with Panic => lift Panic | x => mret x end.
Definition encode_services (ad : Advertisement) (now : Z) : MR (outcome WireError bytes) :=
  match ad_link ad with
  | Ail => attempt (Wire.encode ad)
  | Stub =>
      update (on_services (live_history now)) ;;
      r ← self;
      let dns := dns_lifetimes now r in
      decision ← with_nat64 (select now (readiness now r) (fun link a => reachable (mkRouterKey link a) now r) (return_route now r));
      rios ← attempt (reserve_services ad (map rio_prefix (dc_routes decision)) r);
      match rios with
      | Ok rios =>
          let ad := set_rios ad (foldl add_service_route rios (dc_routes decision)) in
          encoded ← attempt (Wire.encode_services ad (sorted dns) (map an_pref64 (dc_announcements decision)));
          (if over_capacity encoded then with_nat64 (announcement_failed (dc_mode decision) now) else mret tt) ;;
          mret encoded
      | Err e => mret (Err e)
      | Panic => lift Panic
      end
  end.
Definition services_transmitted (link : Link) (nd : Nd) (now : Z) : MR unit :=
  match link with
  | Ail => mret tt
  | Stub =>
      r ← self;
      l ← lift (announcements r (nd_options nd));
      with_nat64 (advertised l now) ;;
      update (on_services (live_history now)) ;;
      r ← self;
      h ← lift (dns_options now (nd_options nd) (sv_dns_history (r_services r)));
      update (on_services (put_history (filter (fun kv => 0 < snd (snd kv)) h)))
  end.
End services.
