(* ===== verification/RouterCore.v ===== *)
(** The router's main handlers ([receive], [tick], [transmitted] of
    [src/src/router/mod.rs], [receive_frame] of [forward.rs], and [lifecycle.rs]). *)

From S2P Require Import Prelude Effects Time Checksum Wire Scheduler Maps Observations Selection Stateful Dhcp6Wire Pd Ordered Identity RouterState Routing Delegated Neighbors Announce.

(** ** What is kept *)

Definition header_backed (now : Z) (r : Router) (kh : RouterKey * Header) : bool :=
  let '(k, h) := kh in
  bool_decide (rk_link k = Ail) && negb (hd_snac h) && match hd_lifetime h with Some l => live l now | None => true end
  || existsb (fun ks : (RouterKey * Prefix) * Supplier => bool_decide (ks.1.1 = k) && supplier_fresh now ks.2) (sorted (r_suppliers r))
  || bool_decide (rk_link k = Ail)
     && existsb (fun kr : (Z * Prefix) * Route => bool_decide (kr.1.1 = rk_address k) && live (rt_valid kr.2) now) (sorted (r_routes r)).
Definition reap_headers (now : Z) (r : Router) : Router :=
  set_headers (filter (fun kh => header_backed now r kh = true) (r_headers r)) r.
Definition reap_suppliers (now : Z) (r : Router) : Router :=
  set_suppliers (filter (fun ks => supplier_fresh now (snd ks) = true) (r_suppliers r)) r.
Definition reap_on_link (now : Z) (r : Router) : Router := set_on_link (ol_retain (fun _ v => live (ol_valid v) now) (r_on_link r)) r.
Definition reap_routes (now : Z) (r : Router) : Router :=
  set_routes (filter (fun kr => live (rt_valid (snd kr)) now = true) (r_routes r)) r.
Definition reap_hints (now : Z) (r : Router) : Router :=
  set_pd_hints (filter (fun kl => live (snd kl) now = true) (r_pd_hints r)) r.
Definition owned_backed (now : Z) (r : Router) (ka : (Link * Z) * OwnedAddress) : bool :=
  bool_decide (oa_state ka.2 = DadFailed)
  || match oa_prefix ka.2 with
     | None => true
     | Some p => match ol_get (ka.1.1, p) (r_on_link r) with Some v => live (ol_valid v) now | None => false end
     end.
Definition reap_owned (now : Z) (r : Router) : Router :=
  set_owned (filter (fun ka => owned_backed now r ka = true) (r_owned r)) r.

(** ** Admission of Router Advertisements *)

(** Whether a prefix is offered for delegation by its router. *)
Definition hinted (p : Pio) : bool := negb (Z.land (pio_flags p) 0x10 =? 0) && (0 <? pio_preferred p) && (pio_preferred p <=? pio_valid p).
(** What the tables would hold: prefixes, hints, routes and suppliers. *)
Record Prospect := mkProspect {
  pr_prefixes : gset Prefix;
  pr_hints : gset Prefix;
  pr_routes : gset (Z * Prefix);
  pr_suppliers : gset (RouterKey * Prefix);
}.
Definition put_if {A} `{Countable A} (b : bool) (x : A) (s : gset A) : gset A := if b then s ∪ {[ x ]} else s.
Definition prospect_pio (key : RouterKey) (p : Pio) (s : Prospect) : Prospect :=
  let q := pio_prefix p in
  mkProspect
    (if pio_on_link p && routable q then put_if (0 <? pio_valid p) q (pr_prefixes s ∖ {[ q ]}) else pr_prefixes s)
    (if bool_decide (rk_link key = Ail) then put_if (hinted p) q (pr_hints s ∖ {[ q ]}) else pr_hints s)
    (pr_routes s)
    (if pio_suitable p then pr_suppliers s ∪ {[ (key, q) ]}
     else if pio_on_link p then pr_suppliers s ∖ {[ (key, q) ]} else pr_suppliers s).
Definition route_wanted (rio : Rio) (r : Router) : bool :=
  (p_length (rio_prefix rio) =? 0) || routable (rio_prefix rio) && negb (ol_contains (Stub, rio_prefix rio) (r_on_link r)).
Definition prospect_rio (key : RouterKey) (r : Router) (rio : Rio) (s : Prospect) : Prospect :=
  if bool_decide (rk_link key = Ail) && route_wanted rio r then
    mkProspect (pr_prefixes s) (pr_hints s)
      (put_if (0 <? rio_lifetime rio) (rk_address key, rio_prefix rio) (pr_routes s ∖ {[ (rk_address key, rio_prefix rio) ]})) (pr_suppliers s)
  else s.
Fixpoint prospect (key : RouterKey) (r : Router) (l : list NdOption) (s : Prospect) : outcome io_error Prospect :=
  match l with
  | [] => Ok s
  | o :: l =>
      p ← maybe (pio_decode (o_bytes o));
      rio ← maybe (rio_decode (o_bytes o));
      let s := match p with Some p => prospect_pio key p s | None => s end in
      let s := match rio with Some rio => prospect_rio key r rio s | None => s end in
      prospect key r l s
  end.
Definition ra_lifetime (nd : Nd) : outcome io_error Z := b6 ← (nd_body nd).[6]; b7 ← (nd_body nd).[7]; Ok (u16be b6 b7).
Definition initial_prospect (key : RouterKey) (lifetime : Z) (r : Router) : Prospect :=
  let default := (rk_address key, default_prefix) in
  let routes : gset (Z * Prefix) := dom (r_routes r) in
  mkProspect
    (list_to_set (map snd (List.filter (fun k : Link * Prefix => bool_decide (fst k = rk_link key)) (ol_keys (r_on_link r)))))
    (dom (r_pd_hints r))
    (if bool_decide (rk_link key = Ail) then put_if (0 <? lifetime) default (routes ∖ {[ default ]}) else routes)
    (list_to_set (List.filter (fun k : RouterKey * Prefix => bool_decide (rk_link k.1 = rk_link key)) (sorted_keys (r_suppliers r)))).
Definition ssize {A} `{Countable A} (s : gset A) : Z := Z.of_nat (size s).
(** The entries of a link, and one more unless the router is known. *)
Definition count_with {A} (key : RouterKey) (m : gmap RouterKey A) : Z :=
  mcount (fun k _ => bool_decide (rk_link k = rk_link key)) m + of_bool (negb (has_key m key)).
Definition over_capacity_of (key : RouterKey) (r : Router) (s : Prospect) : bool :=
  (32 <? count_with key (r_headers r)) || (256 <? count_with key (r_neighbors r)) || (128 <? ssize (pr_prefixes s))
  || (128 <? ssize (pr_hints s)) || (128 <? ssize (pr_routes s)) || (128 <? ssize (pr_suppliers s)).

Section router.
Context {R : Type} `{Sampler R}.
Abbreviation MR := (M (Router * R) io_error).

(** A [Result] as a value. *)
Definition catch {A} (m : MR A) : MR (outcome io_error A) := fun st =>
  match m st with (Panic, st) => (Panic, st) | (o, st) => (Ok o, st) end.
Definition reap_evidence (now : Z) (r : Router) : Router :=
  reap_suppliers now (reap_routes now (reap_on_link now (reap_hints now (reap_headers now (reap_failed_neighbors now r))))).
Definition admit_ra (key : RouterKey) (nd : Nd) (now : Z) : MR unit :=
  update (reap_evidence now) ;;
  r ← self;
  lifetime ← lift (ra_lifetime nd);
  s ← lift (prospect key r (nd_options nd) (initial_prospect key lifetime r));
  if over_capacity_of key r s then degrade now ;; throw OtherError else mret tt.

(** ** Receiving *)

Definition for_pd_client (link : Link) (e : Envelope) (r : Router) : outcome io_error bool :=
  if negb (bool_decide (link = Ail)) || negb (e_destination e =? link_local_of link r) || negb (address_ready link (e_destination e) r) then Ok false else
  match transport e with
  | Ok t => ports ← (if (t_protocol t =? 17) && negb (t_fragmented t) && (8 <=? len (t_bytes t)) then slice (t_bytes t) 0 4 else Ok []);
            Ok (beq ports [2; 35; 2; 34])
  | Err _ => Ok false
  | Panic => Panic
  end.
(** The prefixes a delegation may not overlap. *)
Definition excluded (now : Z) (r : Router) : list Prefix :=
  map (fun kv : (Link * Prefix) * OnLink => kv.1.2)
    (List.filter (fun kv : (Link * Prefix) * OnLink => bool_decide (kv.1.1 = Ail) && live (ol_valid kv.2) now) (ol_iter (r_on_link r)))
  ++ [id_prefix (r_identity r) Ail].
Definition delegation_allowed (excluded : list Prefix) (p : Prefix) : bool :=
  let local := net64 (p_address p) in
  negb (existsb (fun q => contains q (p_address local) || contains local (p_address q)) excluded).
Definition poll_pd (link : Link) (now : Z) : MR (list Tx) :=
  r ← self;
  packets ← with_pd (poll now (link_local_of link r) (id_duid (r_identity r)));
  mret (map (mkTx link) packets).
Definition receive_pd (link : Link) (e : Envelope) (now : Z) : MR (list Tx) :=
  r ← self;
  result ← catch (with_pd (receive_with_policy e (id_duid (r_identity r)) now (delegation_allowed (excluded now r))));
  match result with
  | Err x => degrade now ;; throw x
  | _ =>
      sync_pd now ;;
      poll_pd link now
  end.
(** The reply to an echo request to one of the router's addresses. *)
Definition echo_request (link : Link) (e : Envelope) (now : Z) (r : Router) : outcome io_error (option bytes) :=
  if negb (address_ready link (e_destination e) r) then Ok None else
  match transport e with
  | Ok t =>
      let b := t_bytes t in
      head ← (if (t_protocol t =? 58) && negb (t_fragmented t) && (8 <=? len b) then slice b 0 2 else Ok []);
      Ok (if beq head [128; 0] && negb (unspecific (e_source e))
             && match r_error_after r with Some t => t <=? now | None => true end
             && (checksum (e_source e) (e_destination e) 58 b =? 0)
          then Some b else None)
  | Err _ => Ok None
  | Panic => Panic
  end.
Definition answer_echo (link : Link) (e : Envelope) (b : bytes) (now : Z) : MR (list Tx) :=
  update (set_error_after (Some (sat64 now 100))) ;;
  b ← lift (copy_at b 0 [129]);
  packet ← lift (expect (icmp_packet (e_destination e) (e_source e) 64 b));
  mret [mkTx link packet].
Definition receive_solicitation (link : Link) (e : Envelope) (now : Z) : MR unit :=
  r ← self;
  (if is_one_of [Suitable; Deprecating] (state link r) && negb (confirmed_supplier link now r)
   then update (set_ail_state link BeginAdvertising None) ;; changed link now else mret tt) ;;
  with_scheduler link (receive_rs e now).

(** One prefix information option of an advertisement. *)
Definition observe_hint (p : Pio) (now : Z) : MR unit :=
  r ← self;
  let had := has_key (r_pd_hints r) (pio_prefix p) in
  let has := hinted p in
  update (set_pd_hints (if has then <[pio_prefix p := from_secs now (pio_preferred p)]> (r_pd_hints r) else delete (pio_prefix p) (r_pd_hints r))) ;;
  r ← self;
  if negb (Bool.eqb had has) && negb (slen (r_pd_hints r) =? 0)
     && match pd_exchange (r_pd r) with Some e => 1000 <=? sat_sub now (ex_started e) | None => true end
  then with_pd (refresh 6 now) else mret tt.
Definition observe_on_link (link : Link) (p : Pio) (now : Z) : MR unit :=
  let key := (link, pio_prefix p) in
  r ← self;
  (if bool_decide (link = Ail) && (0 <? pio_valid p) then update (unwithdraw (Stub, pio_prefix p)) else mret tt) ;;
  (if bool_decide (link = Stub) && negb (ol_contains key (r_on_link r)) && (0 <? pio_valid p) then changed Ail now else mret tt) ;;
  update (fun r => set_on_link
    (if pio_valid p =? 0 then ol_remove key (r_on_link r)
     else ol_insert key (mkOnLink (from_secs now (pio_valid p)) (from_secs now (pio_preferred p))) (r_on_link r)) r).
(** Whether the router's own prefix gives way to a suitable one. *)
Definition yields_to (link : Link) (own p : Prefix) (snac : bool) : bool :=
  let below := prefix_leb p own && negb (bool_decide (p = own)) in
  bool_decide (link = Ail) && negb snac || ula own && (negb (ula p) || below)
  || bool_decide (link = Stub) && negb (ula own) && negb (ula p) && below.
Definition observe_supplier (key : RouterKey) (p : Pio) (snac : bool) (now : Z) : MR unit :=
  let link := rk_link key in
  r ← self;
  let own := id_prefix (r_identity r) link in
  (if bool_decide (state link r = Advertising) && negb (bool_decide (pio_prefix p = own)) && yields_to link own (pio_prefix p) snac
   then update (set_ail_state link Deprecating (Some now)) ;; changed link now else mret tt) ;;
  update (fun r => set_suppliers
    (<[(key, pio_prefix p) := mkSupplier (negb (Z.land (pio_flags p) 0x40 =? 0)) now (from_secs now (pio_preferred p)) (from_secs now (pio_valid p))]> (r_suppliers r)) r) ;;
  r ← self;
  if bool_decide (state link r = Unknown) then
    update (on_state link (put_state Suitable)) ;;
    if link_ready link r then with_scheduler link (enable now) else mret tt
  else mret tt.
Definition observe_pio (key : RouterKey) (snac : bool) (now : Z) (o : NdOption) : MR unit :=
  d ← lift (maybe (pio_decode (o_bytes o)));
  match d with
  | None => mret tt
  | Some p =>
      (if bool_decide (rk_link key = Ail) then observe_hint p now else mret tt) ;;
      (if pio_on_link p && routable (pio_prefix p) then observe_on_link (rk_link key) p now else mret tt) ;;
      if pio_suitable p then observe_supplier key p snac now
      else if pio_on_link p then update (fun r => set_suppliers (delete (key, pio_prefix p) (r_suppliers r)) r)
      else mret tt
  end.
Definition ra_header (link : Link) (flags lifetime now : Z) : Header :=
  let snac := negb (Z.land flags 2 =? 0) in
  mkHeader now snac (if bool_decide (link = Ail) && negb snac then Z.land flags 0xc0 else 0)
    (if lifetime =? 0 then None else Some (from_secs now lifetime)).
Definition receive_ra (link : Link) (e : Envelope) (nd : Nd) (now : Z) : MR unit :=
  let key := mkRouterKey link (e_source e) in
  admit_ra key nd now ;;
  r ← self;
  (if (e_destination e =? all_nodes) || address_ready link (e_destination e) r
   then catch (with_nat64 (sel_receive link (e_packet e) now)) ;; mret tt else mret tt) ;;
  (if bool_decide (link = Ail) && at_discovering (r_attachment r) then with_attachment (at_observe (octets6 (e_source e))) else mret tt) ;;
  lifetime ← lift (ra_lifetime nd);
  (if 0 <? lifetime
   then update (on_state link (fun s =>
     let s := put_rs_count 3 s in
     if lk_discovery_end s =? u64_max then put_discovery_end (sat64 now 9000) s else s)) else mret tt) ;;
  observe_routes key nd now ;;
  flags ← lift (nd_body nd).[5];
  update (fun r => set_headers (<[key := ra_header link flags lifetime now]> (r_headers r)) r) ;;
  for_each (nd_options nd) (observe_pio key (negb (Z.land flags 2 =? 0)) now) ;;
  sync_pd now.
(** From [let Ok(nd) = decode_nd(&e)] on. *)
Definition receive_nd (link : Link) (e : Envelope) (nd : Nd) (now : Z) : MR (list Tx) :=
  r ← self;
  let prior_exports := stub_routes now r in
  let prior_default := default_lifetime now r in
  own ← owned_nd link e nd now;
  match own with
  | Some out => mret out
  | None =>
      (if nd_kind nd =? 133 then receive_solicitation link e now else mret tt) ;;
      (if nd_kind nd =? 134 then receive_ra link e nd now else mret tt) ;;
      out ← observe_neighbor link e nd now;
      reconcile_exports prior_exports now ;;
      r ← self;
      (if negb (prior_default =? default_lifetime now r) then changed Stub now else mret tt) ;;
      update (reap_exports now) ;;
      mret out
  end.
Definition receive (link : Link) (packet : bytes) (now : Z) : MR (list Tx) :=
  r ← self;
  if stopping r || negb (link_up link r) then mret [] else
  match envelope RawIpv6 packet with
  | Err _ => mret []
  | Panic => lift Panic
  | Ok e =>
      if (e_source e =? link_local_of link r) && address_ready link (e_source e) r then mret [] else
      pd ← lift (for_pd_client link e r);
      if (pd : bool) then receive_pd link e now else
      echo ← lift (echo_request link e now r);
      match echo with
      | Some b => answer_echo link e b now
      | None =>
          if negb (is_multicast6 (e_destination e)) && negb (has_key (r_owned r) (link, e_destination e)) then mret [] else
          match decode_nd e with
          | Ok nd => receive_nd link e nd now
          | Err _ => mret []
          | Panic => lift Panic
          end
      end
  end.

(** ** Frames *)

(** Frames of the IPv4 side, and frames for other stations. *)
Definition for_station (own frame : bytes) : outcome io_error bool :=
  source ← slice frame 6 12;
  f0 ← frame.[0];
  dest ← slice frame 0 6;
  Ok (negb (beq source own) && (negb (Z.land f0 1 =? 0) || beq dest own)).
Definition ipv4_frame (frame : bytes) : outcome io_error bool :=
  family ← ethernet_family frame;
  Ok match family with Some FamilyIpv4 | Some FamilyArp => true | _ => false end.
Definition receive_ipv6 (link : Link) (e : Envelope) (now : Z) : MR (list Tx) :=
  r ← self;
  match hop_options e with
  | Err _ => mret []
  | Panic => lift Panic
  | Ok (Some pointer) =>
      if is_one_of [Running; AilUnavailable] (r_lifecycle r) then icmp_error link e 4 2 pointer now else mret []
  | Ok None =>
      match transport e with
      | Err _ => mret []
      | Panic => lift Panic
      | Ok t =>
          if (t_protocol t =? 58) && negb (t_non_initial t) && match t_bytes t with b :: _ => (133 <=? b) && (b <=? 136) | [] => false end
             || has_key (r_owned r) (link, e_destination e) || is_multicast6 (e_destination e)
          then receive link (e_packet e) now
          else if is_blocked (e_destination e) (r_nat64 r) then mret []
          else forward link e now
      end
  end.
Definition receive_frame (link : Link) (kind : FrameKind) (frame : bytes) (now : Z) : MR (list Tx) :=
  r ← self;
  ipv4 ← lift match kind with Ethernet => if 14 <=? len frame then ipv4_frame frame else Ok false | RawIpv6 => Ok false end;
  if (ipv4 : bool) then
    accept ← lift (for_station (own_mac link r) frame);
    if bool_decide (link = Ail) && link_up Ail r && negb (stopping r) && accept
    then update (fun r => set_ail_frames (snd (af_push frame (r_ail_frames r))) r) ;; mret [] else mret []
  else
  match envelope kind frame with
  | Err _ => mret []
  | Panic => lift Panic
  | Ok e =>
      accept ← lift match kind with Ethernet => for_station (own_mac link r) frame | RawIpv6 => Ok true end;
      if (accept : bool) then receive_ipv6 link e now else mret []
  end.

(** ** Time *)

Definition configure_nat64 (policy : Policy) (now : Z) : MR unit :=
  r ← self;
  let same := bool_decide (sl_policy (r_nat64 r) = policy) in
  with_nat64 (configure policy) ;;
  if same then mret tt else changed Stub now.
Definition shutdown (now : Z) : MR unit :=
  r ← self;
  if stopping r then mret tt else
  update (set_lifecycle Stopping) ;;
  for_each both_links (fun link =>
    r ← self;
    update (set_final_ras (set_at link (if link_up link r then 3 else 0) (r_final_ras r))) ;;
    changed link now).
Definition no_final_ras (r : Router) : bool := (of_ail (r_final_ras r) =? 0) && (of_stub (r_final_ras r) =? 0).
Definition clear_final (link : Link) (r : Router) : Router := set_final_ras (set_at link 0 (r_final_ras r)) r.
Definition final_ra (now : Z) (link : Link) : MR (list Tx) :=
  r ← self;
  if negb (link_up link r) || negb (link_ready link r) then update (clear_final link) ;; mret [] else
  if (0 <? at_link link (r_final_ras r)) && Scheduler.due (scheduler_of link r) now then
    snap ← lift (snapshot link now r);
    if bool_decide (link = Ail) && (len (ad_pios snap) =? 0) && (len (ad_rios snap) =? 0) then update (clear_final Ail) ;; mret [] else
    encoded ← encode_services snap now;
    packet ← lift (map_err (fun _ => OtherError) encoded);
    mret [mkTx link packet]
  else mret [].
Definition stop_if_done (r : Router) : Router := if no_final_ras r then set_lifecycle Stopped r else r.
Definition stopping_tick (now : Z) : MR (list Tx) :=
  out ← collect both_links (final_ra now);
  update stop_if_done ;;
  mret out.

Definition enable_ready (ready : Link -> bool) (now : Z) (link : Link) : MR unit :=
  r ← self;
  if negb (ready link) && link_ready link r && negb (bool_decide (state link r = Unknown)) then with_scheduler link (enable now) else mret tt.
(** Whether some router or delegation supplies a prefix. *)
Definition supplied (link : Link) (now : Z) (r : Router) : bool :=
  bool_decide (link = Stub) && negb (len (selected now (r_pd r)) =? 0)
  || existsb (fun ks : (RouterKey * Prefix) * Supplier => bool_decide (rk_link ks.1.1 = link) && neighbor_not_failed ks.1.1 r) (sorted (r_suppliers r)).
Definition resume_advertising (link : Link) (now : Z) : MR unit :=
  r ← self;
  if is_one_of [Suitable; Deprecating] (state link r)
     && (negb (supplied link now r)
         || Scheduler.due (scheduler_of link r) now && negb (confirmed_supplier link now r)
            && (negb (bool_decide (link = Stub)) || (len (selected now (r_pd r)) =? 0)))
  then update (set_ail_state link BeginAdvertising None) ;; changed link now else mret tt.
Definition solicit_routers (link : Link) (now : Z) : MR (list Tx) :=
  r ← self;
  let s := link_state link r in
  if negb (bool_decide (lk_state s = Unknown)) then mret [] else
  if lk_discovery_end s <=? now then
    update (on_state link (put_state BeginAdvertising)) ;;
    with_scheduler link (enable now) ;;
    mret []
  else if (lk_rs_next s <=? now) && (lk_rs_count s <? 3) then
    packet ← lift (map_err (fun _ => OtherError)
      (icmp_packet (link_local_of link r) all_routers 255 ([133; 0; 0; 0; 0; 0; 0; 0] ++ link_address 1 link r)));
    mret [mkTx link packet]
  else mret [].
Definition begin_own_prefix (link : Link) (now : Z) : MR unit :=
  r ← self;
  let key := (link, id_prefix (r_identity r) link) in
  if bool_decide (state link r = BeginAdvertising) && negb (ol_contains key (r_on_link r)) then
    (if bool_decide (link = Stub) then changed Ail now else mret tt) ;;
    update (fun r => set_on_link (ol_insert key (mkOnLink (from_secs now 1800) (from_secs now 1800)) (r_on_link r)) r)
  else mret tt.
Definition rio_bytes (l : list Rio) : Z := foldr (fun rio n => len (rio_encode rio) + n) 0 l.
Definition bounded_snapshot (link : Link) (now : Z) : MR Advertisement :=
  r ← self;
  snap ← lift (snapshot link now r);
  if (bool_decide (link = Ail) || (len (sv_resolvers (r_services r)) =? 0)) && (route_budget link <? rio_bytes (ad_rios snap)) then
    degrade now ;;
    r ← self;
    lift (snapshot link now r)
  else mret snap.
Definition encode_or_degrade (link : Link) (snap : Advertisement) (now : Z) : MR bytes :=
  encoded ← encode_services snap now;
  match encoded with
  | Ok p => mret p
  | Err Capacity =>
      degrade now ;;
      r ← self;
      snap ← lift (snapshot link now r);
      encoded ← encode_services snap now;
      lift (map_err (fun _ => OtherError) encoded)
  | Err _ => throw OtherError
  | Panic => lift Panic
  end.
Definition advertise_link (link : Link) (now : Z) : MR (list Tx) :=
  r ← self;
  if bool_decide (state link r = Unknown) || negb (Scheduler.due (scheduler_of link r) now) then mret [] else
  snap ← bounded_snapshot link now;
  if bool_decide (link = Stub) || negb (len (ad_pios snap) =? 0) || negb (len (ad_rios snap) =? 0) then
    packet ← encode_or_degrade link snap now;
    mret [mkTx link packet]
  else mret [].
Definition tick_link (now : Z) (link : Link) : MR (list Tx) :=
  r ← self;
  if negb (link_up link r) || negb (link_ready link r) then mret [] else
  resume_advertising link now ;;
  rs ← solicit_routers link now;
  begin_own_prefix link now ;;
  ra ← advertise_link link now;
  mret (rs ++ ra).
Definition tick_pd (now : Z) : MR (list Tx) :=
  r ← self;
  if link_up Ail r && link_ready Ail r
     && (negb (bool_decide (pd_state (r_pd r) = Dormant)) || is_one_of [BeginAdvertising; Advertising; Deprecating] (state Stub r)) then
    (if bool_decide (pd_state (r_pd r) = Dormant) then with_pd (start now) else mret tt) ;;
    poll_pd Ail now
  else mret [].
Definition start_running (r : Router) : Router :=
  if bool_decide (r_lifecycle r = Starting) && link_ready Ail r && link_ready Stub r then set_lifecycle Running r else r.
Definition tick_running (now : Z) : MR (list Tx) :=
  r ← self;
  (if link_up Ail r then finish_attachment now ;; update (live_ulas now) ;; with_pd (advance now) else mret tt) ;;
  update (reap_exports now) ;;
  update (reap_hints now) ;;
  sync_pd now ;;
  r ← self;
  let ready link := link_ready link r in
  dad ← tick_dad now;
  for_each both_links (enable_ready ready now) ;;
  update start_running ;;
  r ← self;
  let prior_exports := stub_routes now r in
  let prior_default := default_lifetime now r in
  nd ← tick_neighbors now;
  reconcile_exports prior_exports now ;;
  r ← self;
  (if negb (prior_default =? default_lifetime now r) then changed Stub now else mret tt) ;;
  update (reap_suppliers now) ;;
  update (reap_on_link now) ;;
  update (reap_routes now) ;;
  update (reap_headers now) ;;
  update (reap_owned now) ;;
  ra ← collect [Stub; Ail] (tick_link now);
  pd ← tick_pd now;
  mret (dad ++ nd ++ ra ++ pd).
Definition tick (now : Z) : MR (list Tx) :=
  with_nat64 (sel_expire now) ;;
  r ← self;
  match r_lifecycle r with
  | Stopped => mret []
  | Stopping => stopping_tick now
  | _ => tick_running now
  end.

(** ** Transmission reports *)

Definition probe_lost (tx : Tx) (now : Z) : MR unit :=
  match envelope RawIpv6 (tx_packet tx) with
  | Panic => lift Panic
  | Err _ => mret tt
  | Ok e =>
      if negb (is_unspecified6 (e_source e)) then mret tt else
      match decode_nd e with
      | Panic => lift Panic
      | Err _ => mret tt
      | Ok nd =>
          if negb (nd_kind nd =? 135) then mret tt else
          target ← lift (nd_address nd);
          r ← self;
          match r_owned r !! (tx_link tx, target) with
          | Some a =>
              if bool_decide (oa_state a = Tentative)
              then update (insert_owned (tx_link tx, target) (mkOwnedAddress false (oa_prefix a) (oa_state a) (Some (sat64 now 1000)) (oa_attempts a)))
              else mret tt
          | None => mret tt
          end
      end
  end.
Definition solicitation_sent (link : Link) (now : Z) : MR unit :=
  r ← self;
  let s := link_state link r in
  if bool_decide (lk_state s = Unknown) && (lk_rs_count s <? 3) then
    count ← lift (add_chk u8_max (lk_rs_count s) 1);
    rest ← lift (sub_chk 3 count);
    update (on_state link (fun s => put_discovery_end (sat64 now (rest * 4000 + 1000)) (put_rs_next (sat64 now 4000) (put_rs_count count s))))
  else mret tt.
Fixpoint pio_options (l : list NdOption) : outcome io_error (list Pio) :=
  match l with
  | [] => Ok []
  | o :: l => p ← maybe (pio_decode (o_bytes o)); rest ← pio_options l; Ok (option_list p ++ rest)
  end.
Fixpoint rio_options (l : list NdOption) : outcome io_error (list Rio) :=
  match l with
  | [] => Ok []
  | o :: l => p ← maybe (rio_decode (o_bytes o)); rest ← rio_options l; Ok (option_list p ++ rest)
  end.
(** A route that was advertised, or withdrawn for the [n]th time. *)
Definition route_sent (link : Link) (now : Z) (r : Router) (rio : Rio) : Router :=
  let key := (link, rio_prefix rio) in
  if 0 <? rio_lifetime rio then unwithdraw key (set_advertised_routes (<[key := from_secs now (rio_lifetime rio)]> (r_advertised_routes r)) r)
  else if has_key (r_advertised_routes r) key then
    let count := sat_sub (default 3 (r_withdrawals r !! key)) 1 in
    let r := set_withdrawals (<[key := count]> (r_withdrawals r)) r in
    if count =? 0 then set_advertised_routes (delete key (r_advertised_routes r)) r else r
  else r.
Definition clean_withdrawals (r : Router) : Router := set_withdrawals (filter (fun kc => 0 < snd kc) (r_withdrawals r)) r.
Definition prefix_sent (link : Link) (now : Z) (r : Router) (p : Pio) : Router :=
  let valid := from_secs now (pio_valid p) in
  let own := id_prefix (r_identity r) link in
  let r := if bool_decide (pio_prefix p = own) then on_state link (put_last_valid valid) r
           else set_pd_prefixes (alter (fun o => mkOwnedPrefix (op_lease o) (op_deprecate_at o) valid) (pio_prefix p) (r_pd_prefixes r)) r in
  let r := set_on_link (ol_insert (link, pio_prefix p) (mkOnLink valid (from_secs now (pio_preferred p))) (r_on_link r)) r in
  if negb (stopping r) && negb (has_address link (pio_prefix p) r) then
    let key := (link, id_address (r_identity r) link (pio_prefix p)) in
    match r_owned r !! key with
    | Some _ => r
    | None => insert_owned key (mkOwnedAddress false (Some (pio_prefix p)) Tentative (Some now) 0) r
    end
  else r.
Definition final_sent (link : Link) (r : Router) : Router :=
  if bool_decide (r_lifecycle r = Stopping) then
    stop_if_done (set_final_ras (set_at link (sat_sub (at_link link (r_final_ras r)) 1) (r_final_ras r)) r)
  else r.
Definition advertisement_sent (link : Link) (nd : Nd) (now : Z) : MR unit :=
  update (final_sent link) ;;
  services_transmitted link nd now ;;
  with_scheduler link (Scheduler.sent now) ;;
  update (fun r => if bool_decide (state link r = BeginAdvertising) then on_state link (put_state Advertising) r else r) ;;
  pios ← lift (pio_options (nd_options nd));
  update (fun r =>
    if bool_decide (state link r = Deprecating) && negb (existsb (fun p => bool_decide (pio_prefix p = id_prefix (r_identity r) link)) pios)
    then on_state link (put_state Suitable) r else r) ;;
  rios ← lift (rio_options (nd_options nd));
  update (fun r => clean_withdrawals (foldl (route_sent link now) r rios)) ;;
  update (fun r => foldl (prefix_sent link now) r pios).
Definition transmitted (tx : Tx) (now : Z) (success : bool) : MR unit :=
  if negb success then probe_lost tx now else
  match envelope RawIpv6 (tx_packet tx) with
  | Panic => lift Panic
  | Err _ => mret tt
  | Ok e =>
      match decode_nd e with
      | Panic => lift Panic
      | Err _ => mret tt
      | Ok nd =>
          (if nd_kind nd =? 133 then solicitation_sent (tx_link tx) now else mret tt) ;;
          if nd_kind nd =? 134 then advertisement_sent (tx_link tx) nd now else mret tt
      end
  end.

(** ** The next deadline *)

Definition lifetime_deadline (l : Lifetime) : list Z := match l with Until t => [t] | Infinite => [] end.
Definition link_deadlines (s : LinkState) : list Z :=
  if negb (lk_up s) then [] else
  if bool_decide (lk_state s = Unknown) then (if lk_rs_count s <? 3 then [lk_rs_next s] else []) ++ [lk_discovery_end s]
  else [Scheduler.deadline (lk_scheduler s)].
Definition lease_deadlines (l : Lease) : list Z :=
  concat (map lifetime_deadline [ls_preferred l; ls_valid l; as_t1 (ls_association l); as_t2 (ls_association l)]).
Definition deadlines (r : Router) : list Z :=
  option_list (sel_next_deadline (r_nat64 r))
  ++ link_deadlines (of_ail (r_links r)) ++ link_deadlines (of_stub (r_links r))
  ++ concat (map (fun n => option_list (nb_deadline n)) (sorted_values (r_neighbors r)))
  ++ concat (map (fun a => option_list (oa_deadline a)) (sorted_values (r_owned r)))
  ++ map (fun s => sat64 (su_pio_at s) 600000) (sorted_values (r_suppliers r))
  ++ concat (map lifetime_deadline (map ol_valid (ol_values (r_on_link r)) ++ map rt_valid (sorted_values (r_routes r))))
  ++ option_list (ex_next <$> pd_exchange (r_pd r))
  ++ map (fun x => ex_next (rl_exchange x)) (pd_releases (r_pd r))
  ++ option_list (pd_fallback_at (r_pd r))
  ++ concat (map lease_deadlines (map snd (entries (pd_leases (r_pd r))))).
Definition next_deadline (now : Z) (r : Router) : Z :=
  foldl (fun next t => if now <? t then Z.min next t else next) (sat64 now 100) (deadlines r).
End router.
