(* ===== verification/RouterInv.v ===== *)
(** The router's invariant, and what one event may change of it. *)

From S2P Require Import Prelude Effects Time Checksum Wire WireFacts Scheduler Maps Observations Selection SelectionFacts Stateful Dhcp6Wire Pd PdInv Ordered Identity RouterState Routing Delegated Neighbors Announce RouterCore.

(** Times at which no sum with a timer overflows. *)
Definition in_time (now : Z) : Prop := 0 <= now <= u64_max - longest_wait.

(** ** The parts *)

Definition sched_wf (s : RaScheduler) : Prop := forall l, Scheduler.last s = Some l -> 0 <= l <= u64_max - longest_wait.
(** A hardware address, [[u8; 6]]. *)
Definition mac_ok (m : bytes) : Prop := is_bytes m /\ len m = 6.
Record link_wf (s : LinkState) : Prop := {
  kw_scheduler : sched_wf (lk_scheduler s);
  kw_mac : forall m, lk_mac s = Some m -> mac_ok m;
  kw_rs_count : 0 <= lk_rs_count s <= 3;
}.
Record identity_ok (i : Identity) : Prop := {
  iw_site : is_u128 (p_address (id_site i));
  iw_iids : is_u64 (of_ail (id_iids i)) /\ is_u64 (of_stub (id_iids i));
  iw_macs : mac_ok (of_ail (id_macs i)) /\ mac_ok (of_stub (id_macs i));
}.
Definition pending_wf (p : Pending) : Prop := match p with Transit tx | Output tx => is_bytes (tx_packet tx) end.
Record neighbor_wf (n : Neighbor) : Prop := {
  nw_probes : 0 <= nb_probes_sent n <= 3;
  nw_pending : forall p, nb_pending n = Some p -> pending_wf p;
}.
Record neighbors_wf (m : gmap RouterKey Neighbor) : Prop := {
  nw_each : map_Forall (fun _ => neighbor_wf) m;
  nw_link : forall link, mcount (fun k _ => bool_decide (rk_link k = link)) m <= 256;
  nw_waiting : mcount (fun _ n => bool_decide (is_Some (nb_pending n))) m <= 64;
}.
Record owned_wf (k : Link * Z) (a : OwnedAddress) : Prop := {
  ow_address : is_u128 k.2;
  ow_attempts : 0 <= oa_attempts a <= 3;
  ow_prefix : forall p, oa_prefix a = Some p -> prefix_wf p;
}.
Record on_link_wf (t : OnLinkTable) : Prop := {
  tw_ail : map_Forall (fun k _ => k.1 = Ail /\ prefix_wf k.2) (ol_ail t);
  tw_stub : map_Forall (fun k _ => k.1 = Stub /\ prefix_wf k.2) (ol_stub t);
}.
Definition frames_wf (f : AilFrames) : Prop :=
  len (af_frames f) <= 64 /\ af_bytes f = foldr (fun x n => len x + n) 0 (af_frames f) /\ af_bytes f <= 65535.

Record router_wf (r : Router) : Prop := {
  rw_nat64 : sel_inv (r_nat64 r);
  rw_frames : frames_wf (r_ail_frames r);
  rw_attachment : Z.of_nat (size (at_observed (r_attachment r))) <= 32 /\ Z.of_nat (size (at_known (r_attachment r))) <= 32;
  rw_retired : map_Forall (fun k _ => prefix_wf k.2) (r_retired_ulas r) /\ slen (r_retired_ulas r) <= 16;
  rw_final : 0 <= of_ail (r_final_ras r) <= 3 /\ 0 <= of_stub (r_final_ras r) <= 3;
  rw_pd : pd_wf (r_pd r);
  rw_pd_prefixes : map_Forall (fun p _ => prefix_wf p) (r_pd_prefixes r);
  rw_withdrawals : map_Forall (fun k c => prefix_wf k.2 /\ 0 <= c <= 3) (r_withdrawals r);
  rw_advertised : map_Forall (fun k _ => prefix_wf k.2) (r_advertised_routes r);
  rw_routes : map_Forall (fun k _ => prefix_wf k.2) (r_routes r);
  rw_owned : map_Forall owned_wf (r_owned r);
  rw_neighbors : neighbors_wf (r_neighbors r);
  rw_identity : identity_ok (r_identity r);
  rw_links : link_wf (of_ail (r_links r)) /\ link_wf (of_stub (r_links r));
  rw_suppliers : map_Forall (fun k _ => prefix_wf k.2) (r_suppliers r);
  rw_on_link : on_link_wf (r_on_link r);
}.

(** ** What one event changes *)

(** The lifecycle's transitions, [shutdown] apart. *)
Definition lifecycle_step (a b : Lifecycle) : Prop :=
  a = b \/
  match a, b with
  | (Starting | Running | AilUnavailable), (Running | AilUnavailable | Degraded) | Stopping, Stopped => True
  | _, _ => False
  end.
Lemma lifecycle_trans a b c : lifecycle_step a b -> lifecycle_step b c -> lifecycle_step a c.
Proof. unfold lifecycle_step. intros [->|H1] [->|H2]; auto. destruct a, b, c; auto. Qed.

(** Probing an address, and having probed it for as long as it takes. *)
Definition probing (a : OwnedAddress) : Prop := oa_state a = Tentative /\ oa_probe_sent a = true.
Definition proven (now : Z) (a : OwnedAddress) : Prop :=
  oa_state a = Ready \/ probing a /\ exists t, oa_deadline a = Some t /\ t <= now.
Definition expired (now : Z) (after : option Z) : Prop := forall t, after = Some t -> t <= now.
Record evolves (now : Z) (c c' : Router) : Prop := {
  ev_lifecycle : lifecycle_step (r_lifecycle c) (r_lifecycle c');
  ev_proven : forall k a', r_owned c' !! k = Some a' -> proven now a' -> exists a, r_owned c !! k = Some a /\ proven now a;
  ev_probing : forall k a', r_owned c' !! k = Some a' -> probing a' ->
    (exists a, r_owned c !! k = Some a /\ probing a /\ oa_deadline a = oa_deadline a') \/
    exists t, oa_deadline a' = Some t /\ now + 1000 <= t;
  ev_error : r_error_after c' = r_error_after c \/ expired now (r_error_after c) /\ r_error_after c' = Some (now + 100);
}.
Lemma evolves_same now c c' : r_lifecycle c' = r_lifecycle c -> r_owned c' = r_owned c -> r_error_after c' = r_error_after c -> evolves now c c'.
Proof.
  intros E1 E2 E3. split; rewrite ?E1, ?E2, ?E3.
  - by left.
  - intros k a' Hk Ha. by exists a'.
  - intros k a' Hk Ha. left. by exists a'.
  - by left.
Qed.
Lemma evolves_refl now c : evolves now c c.
Proof. by apply evolves_same. Qed.
Lemma evolves_trans now c c' c'' : evolves now c c' -> evolves now c' c'' -> evolves now c c''.
Proof.
  intros [L1 P1 Q1 E1] [L2 P2 Q2 E2]. split.
  - by eapply lifecycle_trans.
  - intros k a'' Hk Ha. destruct (P2 _ _ Hk Ha) as (a' & Hk' & Ha'). exact (P1 _ _ Hk' Ha').
  - intros k a'' Hk Ha. destruct (Q2 _ _ Hk Ha) as [(a' & Hk' & Ha' & Hd)|Ht]; [|by right].
    destruct (Q1 _ _ Hk' Ha') as [(a & Hk0 & Ha0 & Hd0)|(t & Ht & Hl)]; [left; exists a; by rewrite Hd0|right; exists t; by rewrite <-Hd].
  - destruct E1 as [E1|[X1 Y1]]; [by rewrite E1 in E2|]. destruct E2 as [E2|[X2 Y2]]; [right; by rewrite E2|]. rewrite Y1 in X2. specialize (X2 _ eq_refl). lia.
Qed.

(** From [c0], the invariant holds and only what an event may change has changed; and, in
    [quiet], no neighbor has. *)
Definition moved (now : Z) (c0 c : Router) : Prop := router_wf c /\ evolves now c0 c.
Definition quiet (now : Z) (c0 c : Router) : Prop := moved now c0 c /\ r_neighbors c = r_neighbors c0.
Lemma moved_refl now c : router_wf c -> moved now c c.
Proof. intros. split; [done|apply evolves_refl]. Qed.
Lemma quiet_refl now c : router_wf c -> quiet now c c.
Proof. intros. split; [by apply moved_refl|done]. Qed.
Lemma moved_trans now c0 c c' : moved now c0 c -> moved now c c' -> moved now c0 c'.
Proof. intros [_ H1] [H2 H3]. split; [done|by eapply evolves_trans]. Qed.
Lemma quiet_trans now c0 c c' : quiet now c0 c -> quiet now c c' -> quiet now c0 c'.
Proof. intros [H1 E1] [H2 E2]. split; [by eapply moved_trans|congruence]. Qed.

(** Invariants that survive whatever is quiet. *)
Class Calm (now : Z) (I : Router -> Prop) : Prop := {
  calm_wf c : I c -> router_wf c;
  calm_step c c' : I c -> quiet now c c' -> I c';
}.
#[global] Instance moved_calm now c0 : Calm now (moved now c0).
Proof. split; [by intros c []|]. intros c c' Hc [Hm _]. by eapply moved_trans. Qed.
#[global] Instance quiet_calm now c0 : Calm now (quiet now c0).
Proof. split; [by intros c [[] _]|]. intros c c' Hc Hq. by eapply quiet_trans. Qed.

Ltac unset := cbn [r_services r_nat64 r_ail_frames r_attachment r_retired_ulas r_lifecycle r_final_ras r_error_after r_pd_hints r_pd r_pd_prefixes
  r_withdrawals r_advertised_routes r_routes r_no_stub_default r_always_advertise_ail_routes r_owned r_neighbors r_headers r_identity r_links
  r_suppliers r_on_link set_services set_nat64 set_ail_frames set_attachment set_retired_ulas set_lifecycle set_final_ras set_error_after set_pd_hints
  set_pd set_pd_prefixes set_withdrawals set_advertised_routes set_routes set_owned set_neighbors set_headers set_identity set_links set_suppliers set_on_link
  on_pd on_services withdraw unwithdraw insert_route remove_route insert_neighbor insert_owned on_state set_link_state set_ail_state put_scheduler_of].
(** A part is replaced by a good one; nothing else that matters changes. *)
Ltac replace_part := match goal with H : router_wf ?c |- _ => destruct H; split; unset; try assumption end.
Lemma quiet_same now c c' : router_wf c' -> r_lifecycle c' = r_lifecycle c -> r_owned c' = r_owned c -> r_error_after c' = r_error_after c ->
  r_neighbors c' = r_neighbors c -> quiet now c c'.
Proof. intros. split; [split; [done|by apply evolves_same]|done]. Qed.

Section parts.
Context {now : Z} {I : Router -> Prop} `{!Calm now I}.
Lemma calm_same c c' : I c -> router_wf c' -> r_lifecycle c' = r_lifecycle c -> r_owned c' = r_owned c -> r_error_after c' = r_error_after c ->
  r_neighbors c' = r_neighbors c -> I c'.
Proof. intros Hc Hw E1 E2 E3 E4. eapply calm_step; [exact Hc|]. by apply quiet_same. Qed.
Ltac part := intros Hc; intros; eapply calm_same; [exact Hc| |done|done|done|done]; pose proof (calm_wf _ Hc); replace_part; auto.
Lemma calm_services c v : I c -> I (set_services v c).
Proof. part. Qed.
Lemma calm_nat64 c v : I c -> sel_inv v -> I (set_nat64 v c).
Proof. part. Qed.
Lemma calm_frames c v : I c -> frames_wf v -> I (set_ail_frames v c).
Proof. part. Qed.
Lemma calm_attachment c v : I c -> Z.of_nat (size (at_observed v)) <= 32 -> Z.of_nat (size (at_known v)) <= 32 -> I (set_attachment v c).
Proof. part. Qed.
Lemma calm_retired c v : I c -> map_Forall (fun k _ => prefix_wf k.2) v -> slen v <= 16 -> I (set_retired_ulas v c).
Proof. part. Qed.
Lemma calm_final c v : I c -> 0 <= of_ail v <= 3 -> 0 <= of_stub v <= 3 -> I (set_final_ras v c).
Proof. part. Qed.
Lemma calm_hints c v : I c -> I (set_pd_hints v c).
Proof. part. Qed.
Lemma calm_pd c v : I c -> pd_wf v -> I (set_pd v c).
Proof. part. Qed.
Lemma calm_pd_prefixes c v : I c -> map_Forall (fun p _ => prefix_wf p) v -> I (set_pd_prefixes v c).
Proof. part. Qed.
Lemma calm_withdrawals c v : I c -> map_Forall (fun k n => prefix_wf k.2 /\ 0 <= n <= 3) v -> I (set_withdrawals v c).
Proof. part. Qed.
Lemma calm_advertised c v : I c -> map_Forall (fun k _ => prefix_wf k.2) v -> I (set_advertised_routes v c).
Proof. part. Qed.
Lemma calm_routes c v : I c -> map_Forall (fun k _ => prefix_wf k.2) v -> I (set_routes v c).
Proof. part. Qed.
Lemma calm_headers c v : I c -> I (set_headers v c).
Proof. part. Qed.
Lemma calm_identity c v : I c -> identity_ok v -> I (set_identity v c).
Proof. part. Qed.
Lemma calm_suppliers c v : I c -> map_Forall (fun k _ => prefix_wf k.2) v -> I (set_suppliers v c).
Proof. part. Qed.
Lemma calm_on_link c v : I c -> on_link_wf v -> I (set_on_link v c).
Proof. part. Qed.
Lemma calm_links c v : I c -> link_wf (of_ail v) -> link_wf (of_stub v) -> I (set_links v c).
Proof. part. Qed.

(** ** Derived updates *)

Lemma wf_link link c : router_wf c -> link_wf (link_state link c).
Proof. intros Hc. destruct (rw_links _ Hc). by destruct link. Qed.
Lemma calm_on_state link f c : I c -> link_wf (f (link_state link c)) -> I (on_state link f c).
Proof.
  intros Hc Hf. destruct (rw_links _ (calm_wf _ Hc)) as [Ha Hs]. unfold on_state, set_link_state.
  apply calm_links; [done|..]; by destruct link.
Qed.
(** Replacing anything but the scheduler and the count of solicitations. *)
Lemma calm_link_same link f c : I c -> (forall s, (lk_scheduler (f s), lk_rs_count (f s), lk_mac (f s)) = (lk_scheduler s, lk_rs_count s, lk_mac s)) -> I (on_state link f c).
Proof.
  intros Hc Hf. apply calm_on_state; [done|]. specialize (Hf (link_state link c)) as [= H1 H2 H3]. destruct (wf_link link c (calm_wf _ Hc)). split; by rewrite ?H1, ?H2, ?H3.
Qed.
Lemma calm_withdraw k c : I c -> prefix_wf k.2 -> I (withdraw k c).
Proof. intros Hc Hk. apply calm_withdrawals; [done|]. apply map_Forall_insert_2; [split; [done|lia]|apply (rw_withdrawals _ (calm_wf _ Hc))]. Qed.
Lemma calm_unwithdraw k c : I c -> I (unwithdraw k c).
Proof. intros Hc. apply calm_withdrawals; [done|]. apply map_Forall_delete, (rw_withdrawals _ (calm_wf _ Hc)). Qed.
Lemma on_link_insert k v t : on_link_wf t -> prefix_wf k.2 -> on_link_wf (ol_insert k v t).
Proof.
  intros [H1 H2] Hk. unfold ol_insert, is_ail. case_bool_decide as E; split; cbn; try done; apply map_Forall_insert_2; try done.
  split; [|done]. by destruct k as [[] p].
Qed.
Lemma on_link_remove k t : on_link_wf t -> on_link_wf (ol_remove k t).
Proof. intros [H1 H2]. unfold ol_remove. case_match; split; cbn; try done; by apply map_Forall_delete. Qed.
Lemma on_link_retain f t : on_link_wf t -> on_link_wf (ol_retain f t).
Proof.
  intros [H1 H2]. split; cbn; intros k v Hk; apply map_lookup_filter_Some in Hk as [Hk _]; eauto.
Qed.
Lemma calm_insert_on_link k v c : I c -> prefix_wf k.2 -> I (set_on_link (ol_insert k v (r_on_link c)) c).
Proof. intros Hc Hk. apply calm_on_link; [done|]. apply on_link_insert; [apply (rw_on_link _ (calm_wf _ Hc))|done]. Qed.
Lemma calm_remove_on_link k c : I c -> I (set_on_link (ol_remove k (r_on_link c)) c).
Proof. intros Hc. apply calm_on_link; [done|]. apply on_link_remove, (rw_on_link _ (calm_wf _ Hc)). Qed.
Lemma calm_ail_state link s at_ c : I c -> I (set_ail_state link s at_ c).
Proof. intros Hc. by apply calm_link_same. Qed.
Lemma calm_insert_route k v c : I c -> prefix_wf k.2 -> I (insert_route k v c).
Proof. intros Hc Hk. apply calm_routes; [done|]. by apply map_Forall_insert_2, (rw_routes _ (calm_wf _ Hc)). Qed.
Lemma calm_remove_route k c : I c -> I (remove_route k c).
Proof. intros Hc. apply calm_routes; [done|]. apply map_Forall_delete, (rw_routes _ (calm_wf _ Hc)). Qed.
Lemma calm_lifecycle l c : I c -> lifecycle_step (r_lifecycle c) l -> I (set_lifecycle l c).
Proof.
  intros Hc Hl. eapply calm_step; [exact Hc|]. pose proof (calm_wf _ Hc) as Hw. split; [|done]. split; [by replace_part|].
  split; unset; [done| | |by left]; intros k a' Hk Ha; [by exists a'|left; by exists a'].
Qed.
End parts.
