(* ===== verification/RouterParts.v ===== *)
(** The invariant under the methods of the router's parts: schedulers, routes, delegated
    prefixes, the attachment. *)

From S2P Require Import Prelude Effects Time Checksum Wire WireFacts Scheduler Maps Observations Selection SelectionFacts Stateful Dhcp6Wire Pd PdInv Ordered Identity RouterState Routing Delegated Neighbors Announce RouterCore RouterInv.

(** ** The parts' methods *)

Section schedulers.
Context {R : Type} `{Sampler R}.
#[local] Abbreviation gs := (gives (S:=RaScheduler) (R:=R) sched_wf).
Lemma spaced_yields s t : sched_wf s -> yields (E:=io_error) (fun _ => True) (spaced s t).
Proof.
  intros Hs. unfold spaced. destruct (Scheduler.last s) as [l|] eqn:E; [|done]. specialize (Hs l E). unfold add_chk, longest_wait in *.
  destruct (Z.leb_spec (l + 3000) u64_max); [done|u_lia].
Qed.
Lemma sched_set s s' : sched_wf s -> Scheduler.last s' = Scheduler.last s -> sched_wf s'.
Proof. unfold sched_wf. by intros Hs ->. Qed.
Lemma gives_add now x c r : in_time now -> 0 <= x <= longest_wait -> sched_wf c ->
  gs (lift (add_chk u64_max now x)) (c, r) (fun n c' => n = now + x /\ sched_wf c').
Proof. intros Hn Hx Hc. unfold in_time in *. unfold add_chk. destruct (Z.leb_spec (now + x) u64_max); [|lia]. by apply gives_lift. Qed.
Lemma gives_spaced s t c r : sched_wf s -> sched_wf c -> gs (lift (spaced s t)) (c, r) (fun _ => sched_wf).
Proof. intros Hs Hc. eapply gives_yields; [by apply spaced_yields|done|done]. Qed.
Lemma sched_draw max s r : 0 <= max <= longest_wait -> sched_wf s -> gs (draw max) (s, r) (fun x c' => 0 <= x <= max /\ sched_wf c').
Proof. intros Hm Hs. apply gives_draw; [unfold longest_wait in *; u_lia|done|done]. Qed.
Lemma changed_gives now s r : in_time now -> sched_wf s -> gs (Scheduler.changed now) (s, r) (fun _ => sched_wf).
Proof.
  intros Hn Hs. unfold Scheduler.changed. apply (gives_step (set_burst 3)). eapply gives_bind; [by apply sched_draw|]. intros x c r1 [Hx Hc].
  eapply gives_bind; [apply gives_add; [done|unfold longest_wait; lia|done]|]. intros n c2 r2 [-> Hc2]. apply gives_self. eapply gives_bind; [by apply gives_spaced|]. intros t c3 r3 Hc3.
  apply (gives_update (fun s => Scheduler.set_next _ s)). by eapply sched_set.
Qed.
Lemma enable_gives now s r : in_time now -> sched_wf s -> gs (Scheduler.enable now) (s, r) (fun _ => sched_wf).
Proof.
  intros Hn Hs. unfold Scheduler.enable. apply (gives_step (set_burst 3)). apply (gives_step (set_response None)). eapply gives_bind; [by apply sched_draw|]. intros x c r1 [Hx Hc].
  apply gives_self. eapply gives_bind; [by apply gives_spaced|]. intros t c3 r3 Hc3. apply (gives_update (fun s => Scheduler.set_next _ s)). by eapply sched_set.
Qed.
Lemma sent_gives now s r : in_time now -> sched_wf s -> gs (Scheduler.sent now) (s, r) (fun _ => sched_wf).
Proof.
  intros Hn Hs. unfold Scheduler.sent. apply (gives_step (set_response None)). apply (gives_step (set_last (Some now))).
  set (s1 := set_last _ _). assert (sched_wf s1) as Hs1 by (intros l [= <-]; exact Hn). clearbody s1.
  apply (gives_step (fun s => set_burst (sat_sub (burst s) 1) s)). apply gives_self.
  eapply (gives_bind _ _ _ (fun x c' => 0 <= x <= longest_wait /\ sched_wf c')).
  { destruct (0 <? _).
    - eapply gives_weaken; [by apply (sched_draw 16000)|]. unfold longest_wait. intros x c [Hx Hc]. split; [lia|done].
    - eapply gives_bind; [by apply (sched_draw 52000)|]. intros x c r1 [Hx Hc]. apply gives_ret. unfold longest_wait. split; [lia|done]. }
  intros x c r1 [Hx Hc]. eapply gives_bind; [by apply gives_add|]. intros n c2 r2 [-> Hc2]. apply gives_self.
  eapply gives_bind; [by apply gives_spaced|]. intros t c3 r3 Hc3. apply (gives_update (fun s => Scheduler.set_next _ s)). by eapply sched_set.
Qed.
Lemma receive_rs_gives e now s r : in_time now -> envelope_wf e -> sched_wf s -> gs (receive_rs e now) (s, r) (fun _ => sched_wf).
Proof.
  intros Hn He Hs. unfold receive_rs. eapply gives_bind.
  { eapply (gives_yields _ (fun _ => True) _ _ (fun _ c => c = s)); [apply yields_map_err, yields_of_safe; [by apply decode_nd_safe|done]|done|done]. }
  intros nd c1 r1 ->. apply gives_if; [intros _; by apply gives_throw|intros _]. apply gives_self. destruct (response s) as [t|]; [by apply gives_ret|].
  eapply gives_bind; [by apply (sched_draw 500)|]. intros x c r2 [Hx Hc].
  eapply gives_bind; [apply gives_add; [done|unfold longest_wait; lia|done]|]. intros n c2 r3 [-> Hc2].
  eapply gives_bind; [by apply gives_spaced|]. intros t c3 r4 Hc3. apply (gives_update (set_response (Some t))). by eapply sched_set.
Qed.
End schedulers.

(** ** The same, as methods of the router *)

Section parts.
Context {R : Type} `{Sampler R} `{!ByteSource R} {now : Z} {I : Router -> Prop} `{!Calm now I} (Hnow : in_time now).
#[local] Abbreviation gives := (gives (S:=Router) (R:=R) I).
Lemma with_scheduler_gives link m c r : I c -> (forall s r, sched_wf s -> Stateful.gives (S:=RaScheduler) (R:=R) sched_wf m (s, r) (fun _ => sched_wf)) ->
  gives (with_scheduler link m) (c, r) (fun _ => I).
Proof using All.
  intros Hc Hm. assert (forall s, sched_wf s -> I (put_scheduler_of link s c)) as Hput.
  { intros s Hs. apply (calm_on_state link (put_scheduler s) c); [done|]. destruct (wf_link link c (calm_wf _ Hc)). by split. }
  apply (gives_within _ _ sched_wf); [|exact Hput]. eapply gives_weaken; [apply Hm, (kw_scheduler _ (wf_link link c (calm_wf _ Hc)))|]. intros u s Hs. by apply Hput.
Qed.
Lemma router_changed_gives link c r : I c -> gives (changed link now) (c, r) (fun _ => I).
Proof using All. intros Hc. apply with_scheduler_gives; [done|]. intros. by apply changed_gives. Qed.
Lemma router_enable_gives link c r : I c -> gives (with_scheduler link (enable now)) (c, r) (fun _ => I).
Proof using All. intros Hc. apply with_scheduler_gives; [done|]. intros. by apply enable_gives. Qed.
Lemma router_sent_gives link c r : I c -> gives (with_scheduler link (Scheduler.sent now)) (c, r) (fun _ => I).
Proof using All. intros Hc. apply with_scheduler_gives; [done|]. intros. by apply sent_gives. Qed.
Lemma router_receive_rs_gives link e c r : I c -> envelope_wf e -> gives (with_scheduler link (receive_rs e now)) (c, r) (fun _ => I).
Proof using All. intros Hc He. apply with_scheduler_gives; [done|]. intros. by apply receive_rs_gives. Qed.
Lemma with_pd_gives {A} (m : M (PdClient * R) io_error A) c r : I c -> Stateful.gives pd_wf m (r_pd c, r) (fun _ => pd_wf) -> gives (with_pd m) (c, r) (fun _ => I).
Proof using All.
  intros Hc Hm. apply (gives_within r_pd set_pd pd_wf); [|intros t Ht; by apply (calm_pd (now:=now))].
  eapply gives_weaken; [exact Hm|]. intros a t Ht. by apply (calm_pd (now:=now)).
Qed.
Lemma with_nat64_gives {A} (m : M Selector io_error A) c r (P : A -> Prop) : I c ->
  match m (r_nat64 c) with (Ok a, s) => P a /\ sel_inv s | (Err _, s) => sel_inv s | (Panic, _) => False end ->
  gives (with_nat64 m) (c, r) (fun a c' => P a /\ I c').
Proof using All.
  intros Hc Hm. apply gives_field. destruct (m (r_nat64 c)) as [[a|e|] s]; [destruct Hm as [Ha Hs]; split; [done|]| |done]; by apply (calm_nat64 (now:=now)).
Qed.
Lemma degrade_gives c r : I c -> stopping c = false -> gives (degrade now) (c, r) (fun _ => I).
Proof using All.
  intros Hc Hs. unfold degrade. apply gives_step. assert (I (set_lifecycle Degraded c)) as Hd.
  { apply (calm_lifecycle (now:=now)); [done|]. unfold stopping, is_one_of in Hs. apply bool_decide_eq_false in Hs. unfold lifecycle_step.
    destruct (r_lifecycle c); auto; set_solver. }
  eapply gives_bind; [by apply router_changed_gives|]. intros u c' r' Hc'. by apply router_changed_gives.
Qed.
End parts.

(** ** What was received *)

Lemma prefix_net64 a : is_u128 a -> prefix_wf (net64 a).
Proof. intros Ha. by apply (prefix_new_wf a 64). Qed.
Lemma yields_addr6 {E} b : is_bytes b -> len b = 16 -> yields (E:=E) is_u128 (Ok (addr6 b)).
Proof. intros Hb Hl. cbn. pose proof (of_be_bound b Hb) as H. rewrite Hl in H. unfold addr6. change (256 ^ 16) with (u128_max + 1) in H. u_lia. Qed.
Lemma addr6_u128 b : is_bytes b -> len b = 16 -> is_u128 (addr6 b).
Proof. intros Hb Hl. exact (yields_addr6 (E:=unit) b Hb Hl). Qed.
Lemma pio_decode_ok b : is_bytes b -> yields pio_wf (pio_decode b).
Proof.
  intros Hb. unfold pio_decode. y_bind. apply negb_false_iff, Z.eqb_eq in Hc. do 2 y_bind. y_bind. do 2 y_bind.
  eapply (yields_bind prefix_wf); [apply yields_ok_or; intros p Hp; eapply prefix_new_wf; [|..|exact Hp]; [apply addr6_u128; [done|lia]|u_lia]|].
  intros p Hp. y_bind. eapply yields_bind; [apply yields_u32_at; [done|lia|lia]|]. intros pref Hpref.
  eapply yields_bind; [apply yields_u32_at; [done|lia|lia]|]. intros v Hv. cbn. by split_and!.
Qed.
Lemma rio_decode_ok b : is_bytes b -> yields rio_wf (rio_decode b).
Proof.
  intros Hb. unfold rio_decode. y_bind. apply Z.ltb_ge in Hc. do 3 y_bind. y_bind. 
  rewrite !orb_false_iff in Hc0. destruct Hc0 as [[[[[_ [Hn1%Z.leb_le Hn2%Z.leb_le]%negb_false_iff%andb_true_iff] Hl%negb_false_iff%Z.eqb_eq] _] _] _]. y_bind.
  eapply yields_bind; [apply (yields_copy 16); [split; [apply is_bytes_zeros|done]|done|lia|lia]|]. intros a [Ha Hla].
  eapply (yields_bind prefix_wf); [apply yields_ok_or; intros p Hp; eapply prefix_new_wf; [|..|exact Hp]; [by apply addr6_u128|u_lia]|].
  intros p Hp. y_bind. eapply (yields_bind (fun _ => True)); [by apply yields_ok_or|]. intros q _.
  eapply yields_bind; [apply yields_u32_at; [done|lia|lia]|]. intros v Hv. cbn. by split.
Qed.
Lemma maybe_yields {A} (P : A -> Prop) (m : outcome unit A) : yields P m -> yields (fun o => forall a, o = Some a -> P a) (maybe m).
Proof. destruct m; cbn; [by intros ? ? [= <-]|done|done]. Qed.
(** A decoded Neighbor Discovery message has its fields. *)
Record nd_wf (nd : Nd) : Prop := {
  dw_body : is_bytes (nd_body nd);
  dw_kind : nd_kind nd = 133 \/ (nd_kind nd = 134 /\ 16 <= len (nd_body nd)) \/ ((nd_kind nd = 135 \/ nd_kind nd = 136) /\ 24 <= len (nd_body nd));
  dw_options : options_wf (nd_options nd);
}.
Lemma decode_nd_ok e nd : envelope_wf e -> decode_nd e = Ok nd -> nd_wf nd.
Proof.
  intros He Hd. pose proof (decode_nd_options e nd He Hd) as Ho. unfold decode_nd in Hd. inv_all_ok. subst nd. cbn [nd_options] in Ho.
  apply transport_bytes in Hx; [|done]. split; cbn [nd_body nd_kind nd_options]; [done| |done].
  match goal with H : nd_base _ = Ok _ |- _ => unfold nd_base in H; repeat case_match; inversion H; subst end; lia.
Qed.

(** ** Routes *)

Lemma ol_iter_in k v t : on_link_wf t -> In (k, v) (ol_iter t) <-> ol_get k t = Some v.
Proof.
  intros [H1 H2]. unfold ol_iter, ol_get, is_ail. rewrite in_app_iff, in_map_iff. split.
  - intros [([k' l] & [= -> <-] & Hin%sorted_in)|Hin%sorted_in].
    + rewrite bool_decide_eq_true_2 by apply (H1 _ _ Hin). cbn. by rewrite Hin.
    + destruct (H2 _ _ Hin) as [E _]. rewrite bool_decide_eq_false_2 by (rewrite E; done). done.
  - case_bool_decide; intros E.
    + apply fmap_Some in E as (l & Hl & ->). left. exists (k, l). by rewrite sorted_in.
    + right. by apply sorted_in.
Qed.
Lemma ol_get_wf k v t : on_link_wf t -> ol_get k t = Some v -> prefix_wf k.2.
Proof.
  intros [H1 H2]. unfold ol_get. case_match; [intros (l & Hl & _)%fmap_Some; apply (H1 _ _ Hl)|intros Hl; apply (H2 _ _ Hl)].
Qed.
Lemma foldl_keys {B K A} `{Countable K} (P : K -> Prop) (f : gmap K A -> B -> gmap K A) l m :
  (forall m b, In b l -> map_Forall (fun k _ => P k) m -> map_Forall (fun k _ => P k) (f m b)) -> map_Forall (fun k _ => P k) m -> map_Forall (fun k _ => P k) (foldl f m l).
Proof.
  revert m. induction l as [|b l IH]; intros m Hf Hm; [done|]. cbn [foldl]. apply IH; [intros; apply Hf; [by right|done]|]. apply Hf; [by left|done].
Qed.
Lemma withdrawn_wf link c : router_wf c -> Forall prefix_wf (withdrawn_from link c).
Proof.
  intros Hc. apply List.Forall_forall. intros p (k & <- & [Hk%sorted_keys_in _]%filter_In)%in_map_iff. destruct Hk as [n Hk].
  by apply (rw_withdrawals _ Hc) in Hk as [? _].
Qed.
Lemma stub_routes_wf now c : router_wf c -> Forall (fun x => prefix_wf (rio_prefix x)) (stub_routes now c).
Proof.
  intros Hc. pose proof (withdrawn_wf Stub c Hc) as Hw. unfold stub_routes. case_match.
  - apply List.Forall_map. eapply List.Forall_impl; [|exact Hw]. done.
  - apply List.Forall_forall. intros x (pl & <- & Hin)%in_map_iff. destruct pl as [p l]. apply sorted_in in Hin. cbn.
    assert (map_Forall (fun p _ => prefix_wf p) (stub_route_map now c)) as Hm; [|by apply Hm in Hin]. unfold stub_route_map.
    apply foldl_keys; [|apply foldl_keys].
    + intros m q Hq Hm. unfold add_withdrawal. case_match; [done|]. apply map_Forall_insert_2; [|done]. by eapply Forall_In.
    + intros m [[a q] rt] Hq%sorted_in Hm. unfold add_route. cbn. case_match; [|done]. apply map_Forall_insert_2; [|done]. by apply (rw_routes _ Hc) in Hq.
    + case_match; [|apply map_Forall_empty]. apply foldl_keys; [|apply map_Forall_empty]. intros m [[l0 q] v] Hq Hm.
      apply ol_iter_in in Hq; [|apply Hc]. unfold add_on_link. cbn. case_match; [|done]. apply map_Forall_insert_2; [|done].
      exact (ol_get_wf _ _ _ (rw_on_link _ Hc) Hq).
Qed.

Section routes.
Context {R : Type} `{Sampler R} `{!ByteSource R} {now : Z} {I : Router -> Prop} `{!Calm now I} (Hnow : in_time now).
#[local] Abbreviation gives := (gives (S:=Router) (R:=R) I).
Lemma gives_maybe {A} (P : A -> Prop) (m : outcome unit A) c r : I c -> yields P m -> gives (lift (maybe m)) (c, r) (fun o c' => c' = c /\ forall a, o = Some a -> P a).
Proof. intros Hc Hm. eapply gives_yields; [by apply maybe_yields|done|done]. Qed.
Lemma gives_when (b : bool) (m : M (Router * R) io_error unit) c r : I c -> (b = true -> gives m (c, r) (fun _ => I)) -> gives (if b then m else mret tt) (c, r) (fun _ => I).
Proof. intros Hc Hm. destruct b; [by apply Hm|by apply gives_ret]. Qed.
Lemma gives_idx b i c r : I c -> is_bytes b -> 0 <= i < len b -> gives (lift (idx b i)) (c, r) (fun x c' => c' = c /\ is_u8 x).
Proof. intros Hc Hb Hi. eapply gives_yields; [by apply yields_idx|done|done]. Qed.
Lemma observe_route_gives address o c r : I c -> is_bytes (o_bytes o) -> gives (observe_route address now o) (c, r) (fun _ => I).
Proof using All.
  intros Hc Hb. unfold observe_route. eapply gives_bind; [by apply gives_maybe, rio_decode_ok|]. intros [rio|] c1 r1 [-> Hrio]; [|by apply gives_ret].
  destruct (Hrio _ eq_refl) as [Hp Hl]. apply gives_self. apply gives_if; intros _; [|by apply gives_ret]. apply gives_step.
  assert (I (remove_route (address, rio_prefix rio) c)) as Hc2 by by apply (calm_remove_route (now:=now)). set (c2 := remove_route _ c) in *. clearbody c2.
  apply gives_self. eapply gives_bind; [apply gives_when; [done|]; intros _; apply gives_update; by apply (calm_withdraw (now:=now))|]. intros u c3 r3 Hc3.
  eapply gives_bind; [apply gives_when; [done|]; intros _; apply gives_update; by apply (calm_unwithdraw (now:=now))|]. intros u' c4 r4 Hc4.
  apply gives_when; [done|]. intros _. apply gives_update. by apply (calm_insert_route (now:=now)).
Qed.
Lemma observe_routes_gives key nd c r : I c -> nd_wf nd -> nd_kind nd = 134 -> gives (observe_routes key nd now) (c, r) (fun _ => I).
Proof using All.
  intros Hc Hnd Hk. assert (16 <= len (nd_body nd)) as Hlen by (destruct (dw_kind _ Hnd) as [|[[]|[[] _]]]; lia || congruence). pose proof (dw_body _ Hnd) as Hb.
  unfold observe_routes. apply gives_if; intros _; [by apply gives_ret|]. eapply gives_bind; [apply gives_idx; [done|done|lia]|]. intros b6 c1 r1 [-> H6].
  eapply gives_bind; [apply gives_idx; [done|done|lia]|]. intros b7 c1 r2 [-> H7]. apply gives_step.
  eapply (gives_bind _ _ _ (fun _ => I)).
  { apply gives_when; [by apply (calm_remove_route (now:=now))|]. intros _. eapply gives_bind; [apply gives_idx; [by apply (calm_remove_route (now:=now))|done|lia]|].
    intros b5 c2 r3 [-> H5]. apply gives_update. apply (calm_insert_route (now:=now)); [by apply (calm_remove_route (now:=now))|]. cbn. by apply (prefix_new_wf 0 0). }
  intros u c2 r3 Hc2. eapply gives_bind.
  { apply gives_for_each; [exact Hc2|]. intros o c3 r4 Ho Hc3. apply observe_route_gives; [done|]. exact (Forall_In _ _ _ (dw_options _ Hnd) Ho). }
  intros u' c4 r5 Hc4. by apply router_changed_gives.
Qed.
Lemma reconcile_exports_gives prior c r : I c -> Forall (fun x => prefix_wf (rio_prefix x)) prior -> gives (reconcile_exports prior now) (c, r) (fun _ => I).
Proof using All.
  intros Hc Hp. unfold reconcile_exports. apply gives_self. eapply gives_bind.
  { apply gives_for_each; [exact Hc|]. intros x c1 r1 [Hx _]%filter_In Hc1. apply gives_update. apply (calm_withdraw (now:=now)); [done|]. exact (Forall_In _ _ _ Hp Hx). }
  intros u c2 r2 Hc2. apply gives_if; intros _; [by apply gives_ret|]. by apply router_changed_gives.
Qed.
End routes.

(** ** Delegated prefixes *)

Lemma lease_key_wf c k : pd_wf c -> is_Some (pd_leases c !! k) -> prefix_wf k.2.
Proof. intros Hc [l Hl]. apply (pw_leases _ Hc) in Hl as []. done. Qed.
Lemma selected_lease now c k : In k (selected now c) -> is_Some (pd_leases c !! k).
Proof.
  unfold selected. case_match; [by intros []|]. intros (x & (u & <- & _)%in_map_iff & Hin)%in_concat. destruct (best_lease now u (pd_leases c)) as [kl|] eqn:E; [|done].
  destruct Hin as [<-|[]]. apply best_lease_in in E as [E _]. by exists kl.2.
Qed.
Lemma net64_wf p : prefix_wf p -> prefix_wf (net64 (p_address p)).
Proof. intros [Hp _]. by apply prefix_net64. Qed.
Lemma id_prefix_wf i link : identity_ok i -> prefix_wf (id_prefix i link).
Proof. intros Hi. apply prefix_net64, lor_u128; [apply (iw_site _ Hi)|]. destruct link; vm_compute; split; discriminate.
Qed.

Section delegated.
Context {R : Type} `{Sampler R} `{!ByteSource R} {now : Z} {I : Router -> Prop} `{!Calm now I} (Hnow : in_time now).
#[local] Abbreviation gives := (gives (S:=Router) (R:=R) I).
Lemma queue_release_pd server ps c r : pd_wf c -> Stateful.gives (R:=R) pd_wf (queue_release server ps now) (c, r) (fun _ => pd_wf).
Proof. intros Hc. apply queue_release_gives; [done|done|]. intros xid _ Hx Hl. by apply release_added. Qed.
Lemma release_conflict_gives kl c r : I c -> gives (release_conflict now kl) (c, r) (fun _ => I).
Proof using All.
  intros Hc. unfold release_conflict. eapply gives_bind; [apply with_pd_gives; [done|done|]; by apply queue_release_pd, (rw_pd _ (calm_wf _ Hc))|]. intros u c1 r1 Hc1.
  apply gives_update. apply (calm_pd (now:=now)); [done|]. pose proof (rw_pd _ (calm_wf _ Hc1)) as Hp. destruct (pw_leases _ Hp) as [Hlen Hall]. apply with_leases; [done| |by apply map_Forall_delete].
  etransitivity; [|exact Hlen]. unfold slen. apply inj_le, map_subseteq_size, delete_subseteq.
Qed.
Lemma use_selected_gives c0 key c r : I c -> r_pd c = c0 -> is_Some (pd_leases c0 !! key) ->
  gives (use_selected now key) (c, r) (fun _ c' => I c' /\ r_pd c' = c0).
Proof using All.
  intros Hc E [l Hl]. assert (prefix_wf (net64 (p_address key.2))) as Hwf.
  { apply net64_wf. apply (lease_key_wf c0); [|by exists l]. rewrite <-E. apply (rw_pd _ (calm_wf _ Hc)). }
  unfold use_selected. apply gives_self. rewrite E, Hl. eapply (gives_bind _ _ _ (fun _ c' => c' = c)); [by apply gives_lift|]. intros l' c1 r1 ->.
  apply gives_step. set (c1 := set_pd_prefixes _ c). assert (I c1 /\ r_pd c1 = c0) as [H1 E1].
  { split; [|exact E]. apply (calm_pd_prefixes (now:=now)); [done|]. apply map_Forall_insert_2; [done|apply (rw_pd_prefixes _ (calm_wf _ Hc))]. }
  clearbody c1. eapply (gives_bind _ _ _ (fun _ c' => I c' /\ r_pd c' = c0)).
  { apply gives_if; intros _; [|by apply gives_ret]. apply gives_update. split; [by apply (calm_unwithdraw (now:=now))|exact E1]. }
  intros u c2 r2 [H2 E2]. apply gives_step. apply gives_ret. split; [by apply (calm_insert_on_link (now:=now))|exact E2].
Qed.
Lemma use_all_gives c0 keys c r : I c -> r_pd c = c0 -> (forall k, In k keys -> is_Some (pd_leases c0 !! k)) ->
  gives (use_all now keys) (c, r) (fun _ c' => I c' /\ r_pd c' = c0).
Proof using All.
  revert c r. induction keys as [|key keys IH]; intros c r Hc E Hk; cbn [use_all]; [by apply gives_ret|].
  eapply gives_bind; [apply use_selected_gives; [done|exact E|apply Hk; by left]|]. intros b c1 r1 [H1 E1].
  eapply gives_bind; [apply IH; [done|done|intros; apply Hk; by right]|]. intros b' c2 r2 H2. by apply gives_ret.
Qed.
Lemma drop_invalid_gives p c r : I c -> prefix_wf p -> gives (drop_invalid p) (c, r) (fun _ => I).
Proof using All.
  intros Hc Hp. unfold drop_invalid. do 2 apply gives_step. apply gives_update. apply (calm_withdraw (now:=now)); [|done]. apply (calm_remove_on_link (now:=now)).
  apply (calm_pd_prefixes (now:=now)); [done|]. apply map_Forall_delete, (rw_pd_prefixes _ (calm_wf _ Hc)).
Qed.
Lemma conflict_free_wf c p : pd_wf p -> pd_wf (set_offers (List.filter (fun o => negb (len (of_delegations o) =? 0)) (map (conflict_free now c) (pd_offers p))) p).
Proof.
  intros Hp. destruct (pw_offers _ Hp) as [Hl Ho]. apply with_offers; [done| |].
  - etransitivity; [|exact Hl]. unfold len. apply inj_le. rewrite <-(length_map (conflict_free now c) (pd_offers p)). apply filter_length_le.
  - apply List.Forall_forall. intros o [(o' & <- & Hin)%in_map_iff Hne%negb_true_iff%Z.eqb_neq]%filter_In. destruct (Forall_In _ _ _ Ho Hin) as [Hd _].
    split; cbn [conflict_free of_delegations] in *; [by apply filter_Forall|]. intros E. by rewrite E in Hne.
Qed.
Lemma gives_next {A} (m1 : M (Router * R) io_error unit) (m2 : M (Router * R) io_error A) c r Q :
  gives m1 (c, r) (fun _ => I) -> (forall c r, I c -> gives m2 (c, r) Q) -> gives (m1 ;; m2) (c, r) Q.
Proof. intros H1 H2. eapply gives_bind; [exact H1|]. intros u c' r' Hc'. by apply H2. Qed.
Lemma sync_pd_gives c r : I c -> gives (sync_pd now) (c, r) (fun _ => I).
Proof using All.
  intros Hc. unfold sync_pd. apply gives_self. apply gives_next; [apply gives_for_each; [done|]; intros x c1 r1 _ Hc1; by apply release_conflict_gives|].
  clear c r Hc. intros c r Hc. apply gives_self. apply gives_step. assert (I (on_pd (fun p => set_offers (List.filter (fun o => negb (len (of_delegations o) =? 0)) (map (conflict_free now c) (pd_offers p))) p) c)) as Hc1.
  { apply (calm_pd (now:=now)); [done|]. apply conflict_free_wf, (rw_pd _ (calm_wf _ Hc)). }
  set (c1 := on_pd _ c) in *. clearbody c1. clear c Hc. apply gives_self.
  eapply gives_bind; [apply (use_all_gives (r_pd c1)); [done|done|]|]. { intros k [Hk _]%filter_In. by apply selected_lease in Hk. } intros b c2 r2 [Hc2 _].
  apply gives_self. apply gives_step. assert (I (set_pd_prefixes (deprecate_owned (List.filter (fun key => negb (outranked now c1 key)) (selected now (r_pd c1))) now <$> r_pd_prefixes c2) c2)) as Hc3.
  { apply (calm_pd_prefixes (now:=now)); [done|]. intros p o (o' & _ & Ho)%lookup_fmap_Some. by apply (rw_pd_prefixes _ (calm_wf _ Hc2)) in Ho. }
  set (c3 := set_pd_prefixes _ c2) in *. clearbody c3. clear Hc2. apply gives_self. apply gives_next.
  { apply gives_for_each; [done|]. intros p c4 r4 ([p' o] & <- & [Hin%sorted_in _]%filter_In)%in_map_iff Hc4. apply drop_invalid_gives; [done|]. exact (rw_pd_prefixes _ (calm_wf _ Hc3) _ _ Hin). }
  intros c5 r5 Hc5. apply gives_self. apply gives_next; [apply gives_when; [done|]; intros _; apply gives_update; by apply (calm_ail_state (now:=now))|].
  intros c6 r6 Hc6. apply gives_self. apply gives_next; [apply gives_when; [done|]; intros _; apply gives_update; by apply (calm_ail_state (now:=now))|].
  intros c7 r7 Hc7. apply gives_if; intros _; [|by apply gives_ret]. apply gives_next; [by apply router_changed_gives|]. intros. by apply router_changed_gives.
Qed.
Lemma refresh_pd_gives kind c r : I c -> gives (with_pd (refresh kind now)) (c, r) (fun _ => I).
Proof using All. intros Hc. apply with_pd_gives; [done|done|]. apply refresh_gives, (rw_pd _ (calm_wf _ Hc)). Qed.

(** ** Attachment *)

Lemma with_attachment_gives {A} (m : M Attachment io_error A) c r (P : A -> Prop) : I c ->
  (forall a, Z.of_nat (size (at_observed a)) <= 32 -> Z.of_nat (size (at_known a)) <= 32 ->
     match m a with (Ok x, a') => P x /\ Z.of_nat (size (at_observed a')) <= 32 /\ Z.of_nat (size (at_known a')) <= 32
                  | (Err _, a') => Z.of_nat (size (at_observed a')) <= 32 /\ Z.of_nat (size (at_known a')) <= 32 | (Panic, _) => False end) ->
  gives (with_attachment m) (c, r) (fun x c' => P x /\ I c').
Proof using All.
  intros Hc Hm. apply gives_field. destruct (rw_attachment _ (calm_wf _ Hc)) as [H1 H2]. specialize (Hm _ H1 H2).
  destruct (m (r_attachment c)) as [[x|e|] a]; [destruct Hm as (Hx & ? & ?); split; [done|]|destruct Hm|done]; by apply (calm_attachment (now:=now)).
Qed.
Lemma at_observe_gives id c r : I c -> gives (with_attachment (at_observe id)) (c, r) (fun _ => I).
Proof using All.
  intros Hc. eapply gives_weaken; [apply (with_attachment_gives _ _ _ (fun _ => True)); [done|]|by intros ? ? []]. intros a H1 H2. cbv [at_observe mbind M_bind get modify throw mret M_ret].
  destruct (_ || _); [done|]. destruct (Z.ltb_spec (Z.of_nat (size (at_observed a))) 32); [|done]. cbn [at_observed at_known]. split; [done|]. split; [|done].
  pose proof (size_union_le (at_observed a) {[id]}) as Hu. rewrite size_singleton in Hu. lia.
Qed.
Lemma at_finish_gives c r : I c -> gives (with_attachment at_finish) (c, r) (fun _ => I).
Proof using All.
  intros Hc. eapply gives_weaken; [apply (with_attachment_gives _ _ _ (fun _ => True)); [done|]|by intros ? ? []]. intros a H1 H2. cbv [at_finish mbind M_bind get modify throw mret M_ret].
  cbn [at_observed at_known at_policy]. case_bool_decide; [done|]. split; [done|]. split; [|done]. cbn [at_observed]. rewrite size_empty. lia.
Qed.
End delegated.

Lemma on_state_other l link f c : l <> link -> link_state l (on_state link f c) = link_state l c.
Proof. by destruct l, link. Qed.

Section attachment.
Context {R : Type} `{Sampler R} `{!ByteSource R} {now : Z} {I : Router -> Prop} `{!Calm now I} (Hnow : in_time now).
#[local] Abbreviation gives := (gives (S:=Router) (R:=R) I).
(** The scheduler of a link, and nothing else, is changed. *)
Lemma changed_exact link c r : I c -> gives (changed link now) (c, r) (fun _ c' => I c' /\ exists s, c' = put_scheduler_of link s c).
Proof using All.
  intros Hc. assert (forall s, sched_wf s -> I (put_scheduler_of link s c)) as Hput.
  { intros s Hs. apply (calm_on_state (now:=now) link (put_scheduler s) c); [done|]. destruct (wf_link link c (calm_wf _ Hc)). by split. }
  apply (gives_within _ _ sched_wf); [|exact Hput]. eapply gives_weaken; [apply changed_gives; [done|apply (kw_scheduler _ (wf_link link c (calm_wf _ Hc)))]|].
  intros u s Hs. split; [by apply Hput|by exists s].
Qed.
Definition last_valid_live (c : Router) (link : Link) : Z := of_bool (live (lk_last_valid (link_state link c)) now).
Lemma retire_prefix_gives link extra c r : I c -> 0 <= extra -> slen (r_retired_ulas c) + last_valid_live c link + extra <= 16 ->
  gives (retire_prefix now link) (c, r) (fun _ c' => I c' /\ slen (r_retired_ulas c') + extra <= 16 /\ forall l, l <> link -> last_valid_live c' l = last_valid_live c l).
Proof using All.
  intros Hc He Hroom. unfold retire_prefix. apply gives_self.
  eapply (gives_bind _ _ _ (fun _ c' => I c' /\ slen (r_retired_ulas c') + extra <= 16 /\ r_links c' = r_links c)).
  { unfold last_valid_live in Hroom. destruct (live _ now); cbn [of_bool] in Hroom; [|apply gives_ret; split; [done|split; [lia|done]]].
    pose proof (id_prefix_wf _ link (rw_identity _ (calm_wf _ Hc))) as Hp. destruct (rw_retired _ (calm_wf _ Hc)) as [Hk _].
    apply gives_step, gives_update. set (m := <[_ := _]> (r_retired_ulas c)). assert (slen m + extra <= 16) as Hm by (pose proof (slen_insert_le (r_retired_ulas c) (link, id_prefix (r_identity c) link) (lk_last_valid (link_state link c))) as Hins; fold m in Hins; lia).
    split; [|done]. apply (calm_insert_on_link (now:=now)); [|done]. apply (calm_retired (now:=now)); [done|by apply map_Forall_insert_2|lia]. }
  intros u c1 r1 (H1 & Hs & El). do 2 apply gives_step.
  set (c2 := set_ail_state _ _ _ _). assert (I c2 /\ r_retired_ulas c2 = r_retired_ulas c1) as [H2 E2] by (split; [by apply (calm_ail_state (now:=now)), (calm_link_same (now:=now))|done]).
  assert (forall l, l <> link -> link_state l c2 = link_state l c1) as Hl by (intros [] Hl; destruct link; done). clearbody c2.
  eapply gives_weaken; [by apply changed_exact|]. intros u' c' [H' [s ->]]. split; [done|]. split; [change (slen (r_retired_ulas c2) + extra <= 16); by rewrite E2|].
  intros l Hll. unfold last_valid_live. change (put_scheduler_of link s c2) with (on_state link (put_scheduler s) c2). rewrite (on_state_other l link _ c2 Hll), (Hl _ Hll). unfold link_state. by rewrite El.
Qed.
Lemma rotated_gives c r : I c -> slen (r_retired_ulas c) + last_valid_live c Ail + last_valid_live c Stub <= 16 ->
  gives (for_each both_links (retire_prefix now)) (c, r) (fun _ => I).
Proof using All.
  intros Hc Hroom. unfold both_links. cbn [for_each]. assert (forall l c, 0 <= last_valid_live c l) as Hpos by (intros; unfold last_valid_live; destruct (live _ _); done).
  eapply gives_bind; [apply (retire_prefix_gives Ail (last_valid_live c Stub)); [done|done|lia]|]. intros u c1 r1 (H1 & Hs1 & Hl1).
  eapply gives_bind; [apply (retire_prefix_gives Stub 0); [done|lia|rewrite Hl1 by done; lia]|]. intros u' c2 r2 (H2 & _). by apply gives_ret.
Qed.
Lemma live_ulas_calm c : I c -> I (live_ulas now c).
Proof using All.
  intros Hc. destruct (rw_retired _ (calm_wf _ Hc)) as [Hk Hn]. apply (calm_retired (now:=now)); [done| |].
  - intros k l Hl. apply map_lookup_filter_Some in Hl as [Hl _]. exact (Hk _ _ Hl).
  - etransitivity; [apply slen_filter|done].
Qed.
Lemma rotate_ula_gives c r : I c -> gives (rotate_ula now) (c, r) (fun _ => I).
Proof using All.
  intros Hc. unfold rotate_ula. apply gives_step. apply live_ulas_calm in Hc. set (c1 := live_ulas now c) in *. clearbody c1. clear c. apply gives_self.
  apply gives_if; [intros _; by apply gives_throw|]. intros Hroom%Z.ltb_ge. eapply gives_bind; [by eapply (gives_fresh _ _ _ (fun b c => c = c1 /\ is_bytes b /\ length b = 5%nat))|].
  intros s c2 r2 (-> & Hb & Hl). apply gives_if; [intros _; by apply gives_throw|intros _].
  eapply (gives_bind _ _ _ (fun site c' => c' = c1 /\ prefix_wf site)).
  { destruct (prefix_new (addr6 ([0xfd] ++ s ++ zeros 10)) 48) as [p|] eqn:E; [|done]. cbn [unwrap]. apply gives_lift. split; [done|].
    eapply prefix_new_wf; [|..|exact E]; [|u_lia]. apply addr6_u128; [|rewrite !len_app; unfold len at 2; rewrite Hl; reflexivity].
    apply List.Forall_app. split; [by repeat constructor|]. apply List.Forall_app. split; [done|apply is_bytes_zeros]. }
  intros site c2 r3 [-> Hsite]. eapply (gives_bind _ _ _ (fun _ c' => I c' /\ exists s, c' = set_nat64 s c1)).
  { apply gives_field. pose proof (rotate_local_ok site now _ (rw_nat64 _ (calm_wf _ Hc)) (proj1 Hsite)) as Hrot.
    destruct (rotate_local site now (r_nat64 c1)) as [[u|e|] s']; [split; [|by eexists]| |done]; by apply (calm_nat64 (now:=now)). }
  intros u c2 r4 [H2 [s' E2]]. eapply gives_bind.
  { apply rotated_gives; [done|]. rewrite E2. unfold both_links in Hroom. cbn [List.filter] in Hroom. unfold last_valid_live.
    change (slen (r_retired_ulas c1) + of_bool (live (lk_last_valid (link_state Ail c1)) now) + of_bool (live (lk_last_valid (link_state Stub c1)) now) <= 16).
    destruct (live (lk_last_valid (link_state Ail c1)) now), (live (lk_last_valid (link_state Stub c1)) now); unfold len in Hroom; cbn [length of_bool] in *; lia. }
  intros u' c3 r5 H3. apply gives_step. apply refresh_pd_gives; [done|]. apply (calm_identity (now:=now)); [done|].
  destruct (rw_identity _ (calm_wf _ H3)) as [_ Hi Hm]. split; [apply Hsite|done|done].
Qed.
Lemma configure_attachment_gives policy configured c r : I c -> gives (configure_attachment policy configured now) (c, r) (fun _ => I).
Proof using All.
  intros Hc. unfold configure_attachment. eapply (gives_bind _ _ _ (fun _ => I)).
  { eapply gives_weaken; [apply (with_attachment_gives Hnow _ _ _ (fun _ => True)); [done|]|by intros ? ? []]. by intros a H1 H2. }
  intros u c1 r1 H1. destruct configured as [id|]; [|by apply gives_ret]. apply gives_if; [intros _; by apply gives_throw|intros _]. apply gives_self.
  eapply gives_bind; [apply gives_when; [done|]; intros _; by apply rotate_ula_gives|]. intros u' c2 r2 H2. apply gives_update.
  apply (calm_identity (now:=now)); [done|]. by destruct (rw_identity _ (calm_wf _ H2)).
Qed.
Lemma finish_attachment_gives c r : I c -> gives (finish_attachment now) (c, r) (fun _ => I).
Proof using All.
  intros Hc. unfold finish_attachment. apply gives_self. apply gives_when; [done|]. intros _.
  eapply gives_bind; [by apply at_finish_gives|]. intros moved c1 r1 H1. cbv beta in H1. apply gives_when; [done|]. intros _. by apply rotate_ula_gives.
Qed.
End attachment.
