(* ===== verification/RouterNeighbors.v ===== *)
(** The invariant under neighbor discovery, forwarding, links and address probing. *)

From S2P Require Import Prelude Effects Time Checksum Wire WireFacts Scheduler Maps Observations Selection SelectionFacts Stateful Dhcp6Wire Pd PdInv Ordered Identity IdentityFacts RouterState Routing Delegated Neighbors Announce RouterCore RouterInv RouterParts.

(** ** Neighbors *)

Lemma neighbors_insert key n m : neighbors_wf m -> neighbor_wf n ->
  (is_Some (m !! key) \/ mcount (fun k _ => bool_decide (rk_link k = rk_link key)) m < 256) ->
  (nb_pending n = None \/ (exists n0, m !! key = Some n0 /\ is_Some (nb_pending n0)) \/ mcount (fun _ n => bool_decide (is_Some (nb_pending n))) m < 64) ->
  neighbors_wf (<[key := n]> m).
Proof.
  intros [H1 H2 H3] Hn Hl Hp. split.
  - by apply map_Forall_insert_2.
  - intros link. rewrite mcount_upsert. specialize (H2 link). destruct (m !! key) as [n0|] eqn:E; cbn [from_option].
    + lia.
    + destruct Hl as [[? ?]|Hl]; [done|]. case_bool_decide as El; cbn [of_bool]; [subst link|]; lia.
  - rewrite mcount_upsert. destruct Hp as [->|[(n0 & -> & Hp)|Hp]].
    + rewrite (bool_decide_eq_false_2 (is_Some None)) by (by intros [? ?]). cbn [of_bool]. destruct (m !! key); cbn [from_option]; [|lia].
      case_bool_decide; cbn [of_bool]; lia.
    + cbn [from_option]. rewrite (bool_decide_eq_true_2 _ Hp). case_bool_decide; cbn [of_bool]; lia.
    + destruct (m !! key); cbn [from_option]; repeat case_bool_decide; cbn [of_bool]; lia.
Qed.
Lemma neighbors_smaller m m' : neighbors_wf m -> (exists (P : RouterKey * Neighbor -> Prop) (dec : forall x, Decision (P x)), m' = filter P m) -> neighbors_wf m'.
Proof.
  intros [H1 H2 H3] (P & dec & ->). split.
  - intros k n [Hk _]%map_lookup_filter_Some. by eapply H1.
  - intros link. etransitivity; [apply mcount_filter_le|apply H2].
  - etransitivity; [apply mcount_filter_le|apply H3].
Qed.
Lemma neighbors_delete key m : neighbors_wf m -> neighbors_wf (delete key m).
Proof.
  intros Hm. destruct (m !! key) as [n|] eqn:E; [|by rewrite delete_id]. destruct Hm as [H1 H2 H3]. split.
  - by apply map_Forall_delete.
  - intros link. rewrite (mcount_delete _ _ _ _ E). specialize (H2 link). case_bool_decide; cbn [of_bool]; lia.
  - rewrite (mcount_delete _ _ _ _ E). case_bool_decide; cbn [of_bool]; lia.
Qed.

(** ** Changes of neighbors and addresses *)

Lemma is_bytes_octets6 a : is_bytes (octets6 a).
Proof. apply is_bytes_be. Qed.
Lemma own_mac_ok link c : router_wf c -> mac_ok (own_mac link c).
Proof.
  intros Hc. unfold own_mac. destruct (lk_mac (link_state link c)) as [m|] eqn:E; cbn [default from_option id].
  - exact (kw_mac _ (wf_link link c Hc) _ E).
  - destruct (iw_macs _ (rw_identity _ Hc)). by destruct link.
Qed.
Lemma link_address_ok kind link c : is_u8 kind -> router_wf c -> is_bytes (link_address kind link c) /\ len (link_address kind link c) <= 8.
Proof.
  intros Hk Hc. unfold link_address. destruct (lk_kind _); [|split; [constructor|done]]. destruct (own_mac_ok link c Hc) as [Hb Hl]. rewrite len_app, Hl. split; [|change (len [kind; 1]) with 2; lia].
  apply is_bytes_app. split; [|done]. apply is_bytes_cons. split; [done|]. by repeat constructor.
Qed.
Lemma dad_body_ok a : is_bytes (dad_body a) /\ len (dad_body a) = 24.
Proof. split; [|done]. apply is_bytes_app. split; [by repeat constructor|apply is_bytes_octets6]. Qed.

(** What an event may do to the addresses. *)
Definition owned_evolves (now : Z) (m m' : gmap (Link * Z) OwnedAddress) : Prop :=
  forall k a', m' !! k = Some a' ->
    (proven now a' -> exists a, m !! k = Some a /\ proven now a) /\
    (probing a' -> (exists a, m !! k = Some a /\ probing a /\ oa_deadline a = oa_deadline a') \/ exists t, oa_deadline a' = Some t /\ now + 1000 <= t).
Lemma owned_insert now k a m : (proven now a -> exists b, m !! k = Some b /\ proven now b) -> (probing a -> exists t, oa_deadline a = Some t /\ now + 1000 <= t) ->
  owned_evolves now m (<[k := a]> m).
Proof.
  intros H1 H2 k' a' [[<- <-]|[Hk Ha]]%lookup_insert_Some; [split; [done|]; right; by apply H2|]. split; [intros; by exists a'|]. left. by exists a'.
Qed.
Lemma owned_subset now m m' : m' ⊆ m -> owned_evolves now m m'.
Proof. intros Hm k a' Ha. pose proof (lookup_weaken _ _ _ _ Ha Hm). split; [intros; by exists a'|]. left. by exists a'. Qed.

Section forwarding.
Context {R : Type} `{Sampler R} `{!ByteSource R} {now : Z} {c0 : Router} (Hnow : in_time now).
#[local] Abbreviation I := (moved now c0).
#[local] Abbreviation gives := (gives (S:=Router) (R:=R) I).
Lemma moved_neighbors m c : I c -> neighbors_wf m -> I (set_neighbors m c).
Proof using Type.
  intros [Hc He] Hm. split; [by replace_part|]. eapply evolves_trans; [exact He|]. by apply evolves_same.
Qed.
Lemma moved_owned m c : I c -> map_Forall owned_wf m -> owned_evolves now (r_owned c) m -> I (set_owned m c).
Proof using Type.
  intros [Hc He] Hm Ho. split; [by replace_part|]. eapply evolves_trans; [exact He|]. split; unset; [by left| | |by left]; intros k a' Hk; by apply Ho.
Qed.
Lemma moved_error t c : I c -> expired now (r_error_after c) -> t = now + 100 -> I (set_error_after (Some t) c).
Proof using Type.
  intros [Hc He] Hx ->. split; [by replace_part|]. eapply evolves_trans; [exact He|]. split; unset; [by left| | |by right]; intros k a' Hk Ha; [by exists a'|left; by exists a'].
Qed.
Lemma moved_insert_neighbor key n n0 c : I c -> r_neighbors c !! key = Some n0 -> neighbor_wf n -> (is_Some (nb_pending n) -> is_Some (nb_pending n0)) -> I (insert_neighbor key n c).
Proof using Type.
  intros Hc E Hn Hp. apply moved_neighbors; [done|]. apply neighbors_insert; [apply (rw_neighbors _ (proj1 Hc))|done|left; by exists n0|].
  destruct (nb_pending n) as [p|]; [right; left; exists n0; by auto|by left].
Qed.
Lemma wf_neighbor key n c : I c -> r_neighbors c !! key = Some n -> neighbor_wf n.
Proof using Type. intros Hc E. exact (nw_each _ (rw_neighbors _ (proj1 Hc)) _ _ E). Qed.
(** A replacement that does not add a waiting packet. *)
Lemma moved_replace key n n0 c : I c -> r_neighbors c !! key = Some n0 -> 0 <= nb_probes_sent n <= 3 -> nb_pending n = nb_pending n0 \/ nb_pending n = None -> I (insert_neighbor key n c).
Proof using Type.
  intros Hc E Hn Hp. pose proof (wf_neighbor _ _ _ Hc E) as [_ H2]. apply (moved_insert_neighbor key n n0); [done|done| |].
  - split; [done|]. destruct Hp as [->| ->]; [done|by intros ? ?].
  - destruct Hp as [->| ->]; [done|]. by intros [].
Qed.
Lemma gives_deadline x c r : I c -> 0 <= x <= longest_wait -> gives (lift (add_chk u64_max now x)) (c, r) (fun n c' => n = now + x /\ c' = c).
Proof using All. intros Hc Hx. unfold in_time in *. unfold add_chk. destruct (Z.leb_spec (now + x) u64_max); [|lia]. by apply gives_lift. Qed.
Lemma gives_icmp s d hop b c r : I c -> is_u8 hop -> is_bytes b -> gives (lift (map_err (fun _ => OtherError) (icmp_packet s d hop b))) (c, r) (fun p c' => is_bytes p /\ c' = c).
Proof using All. intros Hc Hh Hb. eapply gives_yields; [by apply yields_map_err, icmp_packet_yields|done|done]. Qed.
Lemma gives_expect s d hop b c r : I c -> is_u8 hop -> is_bytes b -> 4 <= len b <= u16_max -> gives (lift (expect (icmp_packet s d hop b))) (c, r) (fun p c' => is_bytes p /\ c' = c).
Proof using All. intros Hc Hh Hb Hl. destruct (icmp_packet_fits s d hop b Hh Hb Hl) as (p & -> & Hp). by apply gives_lift. Qed.
Lemma probe_gives key n c r : I c -> r_neighbors c !! key = Some n -> nb_probes_sent n < 3 -> gives (probe key now) (c, r) (fun _ c' => I c' /\ exists n', r_neighbors c' = <[key := n']> (r_neighbors c)).
Proof using All.
  intros Hc E Hn. pose proof (wf_neighbor _ _ _ Hc E) as [Hp _]. unfold probe. apply gives_self. rewrite E.
  eapply gives_bind; [apply gives_deadline; [done|u_lia || (unfold longest_wait; lia)]|]. intros d c1 r1 [-> ->].
  eapply (gives_bind _ _ _ (fun n' c' => n' = nb_probes_sent n + 1 /\ c' = c)).
  { unfold add_chk. destruct (Z.leb_spec (nb_probes_sent n + 1) u8_max); [by apply gives_lift|u_lia]. }
  intros p c1 r2 [-> ->]. apply gives_step. set (c2 := insert_neighbor _ _ c). assert (I c2 /\ exists n', r_neighbors c2 = <[key := n']> (r_neighbors c)) as H2.
  { split; [|by eexists]. apply (moved_replace key _ n); [done|done|cbn; lia|by left]. }
  destruct H2 as [H2 E2]. clearbody c2. eapply gives_bind; [apply gives_icmp; [done|u_lia|]|].
  { apply is_bytes_app. split; [apply dad_body_ok|apply link_address_ok; [u_lia|apply Hc]]. }
  intros pkt c3 r3 [_ ->]. by apply gives_ret.
Qed.
Lemma queue_neighbor_gives key pending c r : I c -> pending_wf pending -> gives (queue_neighbor key pending now) (c, r) (fun _ => I).
Proof using All.
  intros Hc Hpend. unfold queue_neighbor. apply gives_self. apply gives_if; [intros _; by apply gives_ret|].
  intros [H1 H2]%orb_false_iff. set (n := with_pending _ _). assert (neighbor_wf n) as Hn.
  { split; [|by intros ? [= <-]]. unfold n. cbn [with_pending nb_probes_sent]. destruct (r_neighbors c !! key) as [n0|] eqn:E; cbn; [apply (wf_neighbor _ _ _ Hc E)|lia]. }
  apply gives_step. assert (I (insert_neighbor key n c)) as Hc1.
  { apply moved_neighbors; [done|]. apply neighbors_insert; [apply (rw_neighbors _ (proj1 Hc))|done| |right].
    - apply andb_false_iff in H1 as [H1%negb_false_iff%has_key_true|H1%Z.leb_gt]; [by left|right]. exact H1.
    - apply andb_false_iff in H2 as [H2%negb_false_iff|H2%Z.leb_gt]; [left|right; exact H2].
      destruct (r_neighbors c !! key) as [n0|] eqn:E; [|done]. apply bool_decide_eq_true in H2. by exists n0. }
  set (c1 := insert_neighbor key n c) in *. assert (r_neighbors c1 !! key = Some n) as E1 by apply lookup_insert_eq. clearbody c1.
  apply gives_if; [intros Hz%Z.eqb_eq|intros _; by apply gives_ret]. apply gives_step.
  set (n2 := with_timer _ _ 0 n). assert (I (insert_neighbor key n2 c1)) as Hc2 by (apply (moved_replace key _ n); [done|done|cbn; lia|by left]).
  set (c2 := insert_neighbor key n2 c1) in *. assert (r_neighbors c2 !! key = Some n2) as E2 by apply lookup_insert_eq. clearbody c2.
  apply gives_self. apply gives_if; [intros _|intros _; by apply gives_ret]. eapply gives_bind; [by eapply probe_gives|]. intros tx c3 r3 [Hc3 _]. by apply gives_ret.
Qed.

(** ** Failed neighbors *)

Lemma reap_neighbor_moved c key : I c -> I (reap_neighbor c key).
Proof using Type.
  intros Hc. unfold reap_neighbor. cbv zeta. set (c1 := set_suppliers _ c). assert (I c1) as H1.
  { apply (calm_suppliers (now:=now)); [done|]. apply forall_filter, (rw_suppliers _ (proj1 Hc)). }
  clearbody c1. apply moved_neighbors.
  - case_match; [|done]. apply (calm_routes (now:=now)); [done|]. apply forall_filter, (rw_routes _ (proj1 H1)).
  - apply neighbors_delete. case_match; apply (rw_neighbors _ (proj1 H1)).
Qed.
Lemma reap_failed_moved c : I c -> I (reap_failed_neighbors now c).
Proof using Type. intros Hc. apply (foldl_keeps I); [done|]. intros x k _ Hx. by apply reap_neighbor_moved. Qed.

(** ** Forwarding *)

Lemma is_icmp_error_safe e : envelope_wf e -> safe (is_icmp_error e).
Proof using Type. intros He. unfold is_icmp_error. pose proof (transport_safe e He). by destruct (transport e). Qed.
Lemma icmp_error_gives link e kind code value c r : I c -> envelope_wf e -> is_u8 kind -> is_u8 code ->
  gives (icmp_error link e kind code value now) (c, r) (fun _ c' => I c' /\ r_neighbors c' = r_neighbors c).
Proof using All.
  intros Hc He Hk Hcode. unfold icmp_error. apply gives_self. apply gives_if; [intros _; by apply gives_ret|].
  rewrite !orb_false_iff. intros [[[[[Hx _] _] _] _] _].
  eapply (gives_bind _ _ _ (fun _ c' => c' = c)); [eapply (gives_yields _ (fun _ => True)); [apply yields_of_safe; [by apply is_icmp_error_safe|done]|done|done]|].
  intros silent c1 r1 ->. apply gives_if; [intros _; by apply gives_ret|intros _]. destruct (error_source link c) as [source|]; [|by apply gives_ret].
  pose proof (len_nonneg (e_packet e)). eapply (gives_bind _ _ _ (fun q c' => c' = c /\ is_bytes q /\ len q <= 1232)).
  { eapply gives_yields; [apply yields_slice; [apply He|lia|lia]|done|]. intros q [Hq Hl]. split; [done|]. split; [done|lia]. }
  intros q c1 r2 (-> & Hq & Hl). eapply gives_bind; [apply gives_deadline; [done|unfold longest_wait; lia]|]. intros after c1 r3 [-> ->]. apply gives_step.
  assert (I (set_error_after (Some (now + 100)) c)) as H2.
  { apply moved_error; [done| |done]. intros t E. rewrite E in Hx. by apply Z.ltb_ge in Hx. }
  eapply gives_bind; [apply gives_expect; [done|u_lia|..]|].
  - apply is_bytes_app. split; [|by apply is_bytes_app; split; [apply is_bytes_be|]]. do 2 (apply is_bytes_cons; split; [done|]). by repeat constructor.
  - rewrite !len_app. unfold be32. rewrite len_be. change (len [kind; code; 0; 0]) with 4. pose proof (len_nonneg q). u_lia.
  - intros p c4 r4 [_ ->]. by apply gives_ret.
Qed.
Lemma touch_neighbor_gives key c r : I c -> gives (touch_neighbor key now) (c, r) (fun _ => I).
Proof using All.
  intros Hc. unfold touch_neighbor. apply gives_self. destruct (r_neighbors c !! key) as [n|] eqn:E; [|by apply gives_ret].
  apply gives_if; [intros _|intros _; by apply gives_ret]. eapply gives_bind; [apply gives_deadline; [done|unfold longest_wait; lia]|]. intros d c1 r1 [-> ->].
  apply gives_update. apply (moved_replace key _ n); [done|done|cbn; lia|by left].
Qed.
Lemma forward_gives link e c r : I c -> received e -> gives (forward link e now) (c, r) (fun _ => I).
Proof using All.
  intros Hc (He & Hhop & _). assert (forall kind code value c r, I c -> is_u8 kind -> is_u8 code -> gives (icmp_error link e kind code value now) (c, r) (fun _ => I)) as Herr.
  { intros. eapply gives_weaken; [by apply icmp_error_gives|]. by intros ? ? []. }
  unfold forward. apply gives_self. apply gives_if; [intros _; by apply gives_ret|intros _]. apply gives_if; [intros _; by apply gives_ret|intros _].
  destruct (lookup_route link (e_destination e) now c) as [[egress next]|]; [|apply Herr; [done|u_lia|u_lia]].
  apply gives_if; [intros _; apply Herr; [done|u_lia|u_lia]|intros Hh%Z.leb_gt]. apply gives_if; [intros _; apply Herr; [done|u_lia|u_lia]|intros _].
  apply gives_step. apply reap_failed_moved in Hc. set (c1 := reap_failed_neighbors now c) in *. clearbody c1. apply gives_self.
  apply gives_if; intros _.
  - apply gives_if; intros _; [apply Herr; [done|u_lia|u_lia]|]. apply queue_neighbor_gives; [done|]. apply He.
  - eapply gives_bind; [by apply touch_neighbor_gives|]. intros u c2 r2 H2. rewrite Hhop.
    eapply (gives_bind _ _ _ (fun h c' => h = e_hop_limit e /\ c' = c2)); [by apply gives_lift|]. intros h c3 r3 [-> ->].
    eapply (gives_bind _ _ _ (fun h c' => c' = c2)); [unfold sub_chk; destruct (Z.leb_spec 1 (e_hop_limit e)); [by apply gives_lift|lia]|]. intros h c3 r4 ->.
    eapply (gives_bind _ _ _ (fun p c' => c' = c2)); [|intros p c3 r5 ->; by apply gives_ret].
    destruct He as (_ & _ & Hl & _). pose proof (len_nonneg (e_payload e)). unfold copy_at. change (len [h]) with 1. destruct (Z.leb_spec (7 + 1) (len (e_packet e))); [by apply gives_lift|lia].
Qed.
Lemma resolve_output_gives tx c r : I c -> is_bytes (tx_packet tx) -> gives (resolve_output tx now) (c, r) (fun _ => I).
Proof using All.
  intros Hc Hb. unfold resolve_output. apply gives_step. apply reap_failed_moved in Hc. pose proof (envelope_safe RawIpv6 _ Hb) as Hs.
  destruct (envelope RawIpv6 (tx_packet tx)) as [e|x|]; [|by apply gives_ret|done]. apply gives_self. apply gives_if; [intros _; by apply gives_ret|intros _].
  destruct (egress_next_hop _ _ _ _); [|by apply gives_ret]. cbv zeta. apply gives_if; [intros _; by apply gives_ret|intros _]. by apply queue_neighbor_gives.
Qed.
End forwarding.

Section discovery.
Context {R : Type} `{Sampler R} `{!ByteSource R} {now : Z} {c0 : Router} (Hnow : in_time now).
#[local] Abbreviation I := (moved now c0).
#[local] Abbreviation gives := (gives (S:=Router) (R:=R) I).

(** ** Neighbor Discovery *)

(** Room for the neighbor: it is known, or its link has fewer than 256. *)
Definition room (key : RouterKey) (c : Router) : Prop := is_Some (r_neighbors c !! key) \/ neighbor_count (rk_link key) c < 256.
Lemma option_mac_yields kind l : Forall (fun o => is_bytes (o_bytes o)) l -> yields (fun _ => True) (option_mac kind l).
Proof using Type.
  induction 1 as [|o l Ho _ IH]; [done|]. cbn [option_mac]. destruct (_ && _) eqn:E; [|done]. apply andb_true_iff in E as [_ El%Z.eqb_eq].
  eapply yields_bind; [apply yields_slice; [done|lia|lia]|done].
Qed.
Lemma nd_target_yields nd : nd_wf nd -> nd_kind nd = 135 \/ nd_kind nd = 136 -> yields is_u128 (nd_address nd).
Proof using Type.
  intros Hnd Hk. assert (24 <= len (nd_body nd)) as Hl by (destruct (dw_kind _ Hnd) as [|[[? _]|[_ ?]]]; lia).
  unfold nd_address. eapply yields_bind; [apply yields_slice; [apply Hnd|lia|lia]|]. intros t [Ht Hlt]. cbn [yields]. apply addr6_u128; [done|lia].
Qed.
Lemma observe_ra_gives key mac c r : I c -> room key c -> gives (observe_ra key mac now) (c, r) (fun _ => I).
Proof using All.
  intros Hc Hroom. unfold observe_ra. apply gives_self. cbv zeta. set (n := if _ && _ then _ else _).
  set (n0 := default _ (r_neighbors c !! key)) in *.
  assert (0 <= nb_probes_sent n0 <= 3 /\ nb_pending n0 = from_option nb_pending None (r_neighbors c !! key)) as [Hp0 Hw0].
  { unfold n0. destruct (r_neighbors c !! key) as [n1|] eqn:E; cbn; [|done]. by destruct (wf_neighbor _ _ _ Hc E). }
  assert (nb_probes_sent n = nb_probes_sent n0 /\ nb_pending n = nb_pending n0) as [Hp Hw] by (unfold n; by destruct (_ && _)). clearbody n n0.
  assert (forall n', 0 <= nb_probes_sent n' <= 3 -> nb_pending n' = nb_pending n0 -> I (insert_neighbor key n' c)) as Hins.
  { intros n' Hp' Hw'. rewrite Hw0 in Hw'. destruct (r_neighbors c !! key) as [n1|] eqn:E; cbn [from_option] in Hw'.
    - by apply (moved_replace key _ n1); [|..|left].
    - apply moved_neighbors; [done|]. apply neighbors_insert; [apply (rw_neighbors _ (proj1 Hc))|split; [done|by rewrite Hw']| |by left].
      destruct Hroom as [[? Hs]|Hr]; [by rewrite E in Hs|by right]. }
  apply gives_if; intros _.
  - set (n2 := with_timer (nb_state n) (nb_deadline n) 0 n). apply gives_step. assert (I (insert_neighbor key n2 c)) as H2 by (apply Hins; [cbn; lia|by rewrite <-Hw]).
    set (c2 := insert_neighbor key n2 c) in *. assert (r_neighbors c2 !! key = Some n2) as E2 by apply lookup_insert_eq. clearbody c2.
    apply gives_self. apply gives_if; intros _.
    + eapply gives_bind; [by eapply (probe_gives Hnow)|]. intros tx c3 r3 [H3 _]. by apply gives_ret.
    + apply gives_step, gives_ret. apply (moved_replace key _ n2); [done|done|cbn; lia|by left].
  - apply gives_step, gives_ret. apply Hins; [by rewrite Hp|by rewrite Hw].
Qed.
Lemma observe_na_gives key mac flags c r : I c -> gives (observe_na key mac flags now) (c, r) (fun _ => I).
Proof using All.
  intros Hc. unfold observe_na. apply gives_self. destruct (r_neighbors c !! key) as [n|] eqn:E; [|by apply gives_ret]. pose proof (wf_neighbor _ _ _ Hc E) as [Hp _]. cbv zeta.
  apply gives_if; intros _.
  - apply gives_step, gives_ret. apply (moved_replace key _ n); [done|done|by case_bool_decide|left; by case_bool_decide].
  - set (n1 := if bool_decide (is_Some mac) then _ else _). assert (nb_probes_sent n1 = nb_probes_sent n /\ nb_pending n1 = nb_pending n) as [Hp1 Hw1] by (unfold n1; by case_bool_decide). clearbody n1.
    eapply (gives_bind _ _ _ (fun n' c' => c' = c /\ 0 <= nb_probes_sent n' <= 3 /\ nb_pending n' = nb_pending n)).
    { apply gives_if; intros _.
      - eapply gives_bind; [apply (gives_deadline Hnow); [done|unfold longest_wait; lia]|]. intros d c1 r1 [-> ->]. apply gives_ret. split; [done|]. split; [cbn; lia|exact Hw1].
      - apply gives_ret. split; [done|]. destruct (_ && _); cbn [with_timer nb_probes_sent nb_pending]; rewrite ?Hp1, ?Hw1; done. }
    intros n2 c1 r1 (-> & Hp2 & Hw2). apply gives_step, gives_ret. apply (moved_replace key _ n); [done|done|exact Hp2|by left].
Qed.
Lemma release_pending_gives key c r : I c -> gives (release_pending key now) (c, r) (fun _ => I).
Proof using All.
  intros Hc. unfold release_pending. apply gives_self. apply gives_if; [intros _; by apply gives_ret|intros _].
  destruct (r_neighbors c !! key) as [n|] eqn:E; [|by apply gives_ret]. pose proof (wf_neighbor _ _ _ Hc E) as [Hp Hw]. apply gives_step.
  assert (I (insert_neighbor key (with_pending None n) c)) as H1 by (apply (moved_replace key _ n); [done|done|done|by right]).
  destruct (nb_pending n) as [[tx|tx]|]; [|by apply gives_ret..]. specialize (Hw _ eq_refl). cbn in Hw. pose proof (envelope_safe RawIpv6 _ Hw) as Hs.
  destruct (envelope RawIpv6 (tx_packet tx)) as [e|x|] eqn:Ee; [|by apply gives_ret|done]. apply forward_gives; [done|done|]. by eapply envelope_received.
Qed.
Lemma observe_neighbor_gives link e nd c r : I c -> nd_wf nd -> (nd_kind nd = 134 -> room (mkRouterKey link (e_source e)) c) ->
  gives (observe_neighbor link e nd now) (c, r) (fun _ => I).
Proof using All.
  intros Hc Hnd Hroom. unfold observe_neighbor.
  eapply (gives_bind _ _ _ (fun _ c' => c' = c)); [by eapply gives_yields; [apply option_mac_yields, Hnd|..]|]. intros mac c1 r1 ->.
  eapply (gives_bind _ _ _ (fun _ => I)). { apply gives_if; [intros Hk%Z.eqb_eq; apply observe_ra_gives; auto|intros _; by apply gives_ret]. }
  intros [out|] c1 r2 H1; [by apply gives_ret|]. apply gives_if; [intros Hk%Z.eqb_eq|intros _; by apply gives_ret].
  assert (24 <= len (nd_body nd)) as Hl by (destruct (dw_kind _ Hnd) as [|[[? _]|[_ ?]]]; lia).
  eapply (gives_bind _ _ _ (fun _ c' => c' = c1)); [by eapply gives_yields; [apply nd_target_yields; auto|..]|]. intros target c2 r3 ->.
  eapply gives_bind; [apply gives_idx; [done|apply Hnd|lia]|]. intros flags c2 r4 [-> _]. cbv zeta.
  eapply gives_bind; [by apply observe_na_gives|]. intros [out|] c2 r5 H2; [by apply gives_ret|by apply release_pending_gives].
Qed.

(** ** Time *)

Definition known (keys : list RouterKey) (c : Router) : Prop := I c /\ forall k, In k keys -> is_Some (r_neighbors c !! k).
Lemma known_insert keys key n c c' : known keys c -> I c' -> r_neighbors c' = <[key := n]> (r_neighbors c) -> known keys c'.
Proof using Type. intros [_ Hk] Hc' E. split; [done|]. intros k Hin. rewrite E. destruct (decide (key = k)) as [->|]; [rewrite lookup_insert_eq; by eexists|rewrite lookup_insert_ne by done; by apply Hk]. Qed.
Lemma tick_neighbor_gives keys key c r : known keys c -> In key keys -> gives (tick_neighbor now key) (c, r) (fun _ => known keys).
Proof using All.
  intros Hk Hin. destruct (proj2 Hk _ Hin) as [n E]. pose proof (proj1 Hk) as Hc. pose proof (wf_neighbor _ _ _ Hc E) as [Hp Hw]. unfold tick_neighbor.
  apply gives_self. rewrite E. eapply (gives_bind _ _ _ (fun n' c' => n' = n /\ c' = c)); [by apply gives_lift|]. intros n' c1 r1 [-> ->]. cbv zeta.
  set (n1 := if bool_decide _ then _ else n). assert (0 <= nb_probes_sent n1 <= 3 /\ nb_pending n1 = nb_pending n) as [Hp1 Hw1] by (unfold n1; case_bool_decide; cbn; split; done || lia).
  apply gives_step. assert (I (insert_neighbor key n1 c)) as H1 by (apply (moved_replace key _ n); [done|done|done|by left]).
  set (c1 := insert_neighbor key n1 c) in *. assert (known keys c1) as Hk1 by (eapply known_insert; [exact Hk|done|reflexivity]).
  assert (r_neighbors c1 !! key = Some n1) as E1 by apply lookup_insert_eq. clearbody c1 n1. apply gives_if; intros Hprobes.
  - apply gives_step. set (n2 := with_pending None _). assert (I (insert_neighbor key n2 c1)) as H2 by (apply (moved_replace key _ n1); [done|done|done|by right]).
    set (c2 := insert_neighbor key n2 c1) in *. assert (known keys c2) as Hk2 by (eapply known_insert; [exact Hk1|done|reflexivity]). clearbody c2.
    rewrite Hw1. destruct (nb_pending n) as [[tx|tx]|]; [|by apply gives_ret..]. specialize (Hw _ eq_refl). cbn in Hw. pose proof (envelope_safe RawIpv6 _ Hw) as Hs.
    destruct (envelope RawIpv6 (tx_packet tx)) as [e|x|] eqn:Ee; [|by apply gives_ret|done].
    eapply gives_weaken; [apply icmp_error_gives; [done|done|by eapply envelope_Ok|u_lia|u_lia]|]. intros out c3 [H3 E3]. split; [done|]. rewrite E3. apply Hk2.
  - apply Z.leb_gt in Hprobes. eapply gives_bind; [by eapply (probe_gives Hnow)|]. intros tx c3 r3 [H3 [n' E3]]. apply gives_ret. eapply known_insert; [exact Hk1|done|exact E3].
Qed.
Lemma gives_collect_state {A B} (J : Router -> Prop) (xs : list A) (body : A -> M (Router * R) io_error (list B)) c r : J c ->
  (forall x c r, In x xs -> J c -> gives (body x) (c, r) (fun _ => J)) -> gives (collect xs body) (c, r) (fun _ => J).
Proof using All.
  intros Hc Hb. eapply gives_weaken; [apply (gives_collect J (fun _ => True)); [exact Hc|]|by intros ? ? []].
  intros x c1 r1 Hx H1. eapply gives_weaken; [by apply Hb|]. intros out c2 H2. split; [done|]. by apply List.Forall_forall.
Qed.
Lemma tick_neighbors_gives c r : I c -> gives (tick_neighbors now) (c, r) (fun _ => I).
Proof using All.
  intros Hc. unfold tick_neighbors. apply gives_step. apply reap_failed_moved in Hc. apply gives_self. set (keys := map fst _).
  eapply gives_weaken; [apply (gives_collect_state (known keys))|by intros out c' []].
  - split; [done|]. intros k ([k' n] & <- & [Hin%sorted_in _]%filter_In)%in_map_iff. by exists n.
  - intros key c1 r1 Hin H1. by apply tick_neighbor_gives.
Qed.
End discovery.

(** ** Links going up and down *)

Section link_parts.
Context {R : Type} `{Sampler R} `{!ByteSource R} {now : Z} {I : Router -> Prop} `{!Calm now I} (Hnow : in_time now).
#[local] Abbreviation gives := (gives (S:=Router) (R:=R) I).
Lemma link_lost_gives link c r : I c -> gives (with_nat64 (sel_link_lost link)) (c, r) (fun _ => I).
Proof using All.
  intros Hc. destruct (sel_link_lost_ok link _ (rw_nat64 _ (calm_wf _ Hc))) as (s & E & Hs).
  eapply gives_weaken; [apply (with_nat64_gives Hnow _ _ _ (fun _ => True)); [done|by rewrite E]|by intros ? ? []].
Qed.
Lemma sel_expire_gives c r : I c -> gives (with_nat64 (sel_expire now)) (c, r) (fun _ => I).
Proof using All.
  intros Hc. destruct (sel_expire_ok now _ (rw_nat64 _ (calm_wf _ Hc))) as (s & E & Hs & _).
  eapply gives_weaken; [apply (with_nat64_gives Hnow _ _ _ (fun _ => True)); [done|by rewrite E]|by intros ? ? []].
Qed.
Lemma calm_stub_moves up c : I c -> I (stub_moves up now c).
Proof using Calm0.
  intros Hc. unfold stub_moves. assert (Forall (fun kv => prefix_wf kv.1.2) (ol_iter (r_on_link c))) as Hl.
  { apply List.Forall_forall. intros [k v] Hin. apply ol_iter_in in Hin; [|apply (rw_on_link _ (calm_wf _ Hc))]. exact (ol_get_wf _ _ _ (rw_on_link _ (calm_wf _ Hc)) Hin). }
  apply (foldl_keeps I); [done|]. intros c1 kv Hin H1. pose proof (Forall_In _ _ _ Hl Hin). case_match; [|done].
  destruct up; [by apply (calm_unwithdraw (now:=now))|by apply (calm_withdraw (now:=now))].
Qed.
Lemma calm_withdraw_all prior c : I c -> Forall (fun x => prefix_wf (rio_prefix x)) prior -> I (withdraw_all prior c).
Proof using Calm0.
  intros Hc Hp. apply (foldl_keeps I); [done|]. intros c1 x Hin H1. case_match; [|done]. apply (calm_withdraw (now:=now)); [done|]. exact (Forall_In _ _ _ Hp Hin).
Qed.
Lemma calm_final_at link n c : I c -> 0 <= n <= 3 -> I (set_final_ras (set_at link n (r_final_ras c)) c).
Proof using Calm0. intros Hc Hn. destruct (rw_final _ (calm_wf _ Hc)). apply (calm_final (now:=now)); [done|by destruct link..]. Qed.
End link_parts.

Section links.
Context {R : Type} `{Sampler R} `{!ByteSource R} {now : Z} {c0 : Router} (Hnow : in_time now).
#[local] Abbreviation I := (moved now c0).
#[local] Abbreviation gives := (gives (S:=Router) (R:=R) I).
Lemma forget_link_moved link c : I c -> I (forget_link link c).
Proof using Type.
  intros Hc. unfold forget_link. apply (calm_suppliers (now:=now)); [|apply forall_filter, (rw_suppliers _ (proj1 Hc))].
  apply moved_neighbors; [by apply (calm_headers (now:=now))|]. eapply neighbors_smaller; [apply (rw_neighbors _ (proj1 Hc))|]. by eexists _, _.
Qed.
Lemma begin_discovery_gives link c r : I c -> gives (begin_discovery link now) (c, r) (fun _ => I).
Proof using All.
  intros Hc. unfold begin_discovery. do 2 apply gives_step. set (c1 := on_state _ _ _). assert (I c1) as H1.
  { apply (calm_on_state (now:=now)); [by apply forget_link_moved|]. destruct (wf_link link _ (proj1 (forget_link_moved link c Hc))). split; [done|done|cbn; lia]. }
  clearbody c1. eapply gives_bind; [apply (gives_draw _ _ _ (fun x c' => c' = c1 /\ 0 <= x <= 1000)); [u_lia|done|done]|]. intros x c2 r2 [-> Hx].
  eapply gives_bind; [apply (gives_deadline Hnow); [done|unfold longest_wait; lia]|]. intros d c2 r3 [-> ->]. apply gives_update. by apply (calm_link_same (now:=now)).
Qed.
Lemma router_set_link_gives link up c r : I c -> gives (set_link link up now) (c, r) (fun _ => I).
Proof using All.
  intros Hc. unfold set_link. apply gives_self. apply gives_if; [intros _; by apply gives_ret|intros _]. apply gives_if; [intros _; by apply gives_ret|intros _]. cbv zeta.
  pose proof (stub_routes_wf now c (proj1 Hc)) as Hprior. set (prior := stub_routes now c) in *. clearbody prior. apply gives_step.
  assert (lifecycle_step (r_lifecycle c) (if is_one_of [Running; AilUnavailable] (r_lifecycle c) then if up then Running else AilUnavailable else r_lifecycle c)) as Hlife.
  { unfold is_one_of. case_bool_decide as E; [|by left]. unfold lifecycle_step. assert (r_lifecycle c = Running \/ r_lifecycle c = AilUnavailable) as [-> | ->] by set_solver; destruct up; auto. }
  set (c1 := on_state _ _ c). assert (I c1 /\ r_lifecycle c1 = r_lifecycle c) as [H1 E1] by (split; [by apply (calm_link_same (now:=now))|done]). clearbody c1.
  eapply (gives_bind _ _ _ (fun _ c' => I c' /\ r_lifecycle c' = r_lifecycle c)).
  { apply gives_field. destruct (sel_link_lost_ok link _ (rw_nat64 _ (proj1 H1))) as (s & -> & Hs). split; [by apply (calm_nat64 (now:=now))|exact E1]. }
  intros u c2 r2 [H2 E2]. eapply (gives_bind _ _ _ (fun _ => I)).
  { apply gives_when; [done|]. intros [_ Hr]%andb_true_iff. apply gives_update. apply (calm_lifecycle (now:=now)); [done|]. rewrite E2. by rewrite Hr in Hlife. }
  clear Hlife E1 E2 H1 H2 u c1 c2 r2. intros u c1 r1 H1. cbv beta in H1. apply gives_self. apply gives_next; [apply gives_when; [done|]; intros _; apply gives_update; apply calm_final_at; [done|lia]|].
  clear c1 r1 H1 u. intros c1 r1 H1. apply gives_next; [apply gives_when; [done|]; intros _; by apply begin_discovery_gives|].
  clear c1 r1 H1. intros c1 r1 H1. destruct link.
  - apply gives_next; [|]. { apply gives_if; intros _; [by apply gives_ret|]. apply gives_update. by apply (calm_withdraw_all (now:=now)). }
    clear c1 r1 H1. intros c1 r1 H1. apply gives_step. apply gives_next; [apply router_changed_gives; [done|]; by apply (calm_routes (now:=now))|].
    clear c1 r1 H1. intros c1 r1 H1. apply gives_when; [done|]. intros _. apply gives_next; [|intros; by apply refresh_pd_gives].
    eapply gives_weaken; [apply (with_attachment_gives Hnow _ _ _ (fun _ => True)); [done|]|by intros ? ? []]. intros a Ha Hb. cbv [modify]. cbn [at_observed at_known]. rewrite size_empty. done.
  - apply gives_step. apply router_changed_gives; [done|]. by apply (calm_stub_moves (now:=now)).
Qed.
End links.

(** ** The router's own addresses *)

Lemma id_address_u128 i link p : identity_ok i -> prefix_wf p -> is_u128 (id_address i link p).
Proof. intros Hi [Hp _]. apply lor_u128; [done|]. destruct (iw_iids _ Hi). destruct link; cbn [at_link]; u_lia. Qed.
Lemma draft_iid b : is_bytes b -> length b = 8%nat -> is_u64 (Z.max (Z.land (of_be b) 0xfdffffffffffffff) 1).
Proof. intros Hb Hl. pose proof (masked_iid b Hb Hl). u_lia. Qed.
Lemma not_proven now a : oa_state a = Tentative -> oa_deadline a = Some (now + 1000) -> ~ proven now a.
Proof. intros Hs Hd [E|[_ (t & Ht & Hle)]]; [congruence|]. rewrite Hd in Ht. injection Ht as <-. lia. Qed.
Lemma reap_neighbor_room key k c : neighbors_wf (r_neighbors c) -> room key c -> room key (reap_neighbor c k).
Proof.
  intros Hw Hr. unfold room, neighbor_count, reap_neighbor in *. cbv zeta. set (c1 := set_neighbors _ _). assert (r_neighbors c1 = delete k (r_neighbors c)) as ->.
  { unfold c1. cbn [set_neighbors r_neighbors]. by case_match. }
  clear c1. destruct (r_neighbors c !! k) as [n|] eqn:E; [|by rewrite delete_id]. rewrite (mcount_delete _ _ _ _ E). destruct (decide (k = key)) as [->|Hk].
  - right. pose proof (nw_link _ Hw (rk_link key)). rewrite bool_decide_eq_true_2 by done. cbn [of_bool]. lia.
  - rewrite lookup_delete_ne by done. destruct Hr as [Hr|Hr]; [by left|right]. case_bool_decide; cbn [of_bool]; lia.
Qed.
Lemma reap_failed_room key now c : neighbors_wf (r_neighbors c) -> room key c -> room key (reap_failed_neighbors now c).
Proof.
  intros Hw Hr. assert (neighbors_wf (r_neighbors (reap_failed_neighbors now c)) /\ room key (reap_failed_neighbors now c)) as [_ Hd]; [|done].
  unfold reap_failed_neighbors. apply (foldl_keeps (fun c => neighbors_wf (r_neighbors c) /\ room key c)); [done|]. intros c1 k _ [Hw1 Hr1]. split; [|by apply reap_neighbor_room].
  unfold reap_neighbor. cbv zeta. cbn [set_neighbors r_neighbors]. apply neighbors_delete. by case_match.
Qed.

Section addresses.
Context {R : Type} `{Sampler R} `{!ByteSource R} {now : Z} {c0 : Router} (Hnow : in_time now).
#[local] Abbreviation I := (moved now c0).
#[local] Abbreviation gives := (gives (S:=Router) (R:=R) I).
(** Placing an address, judged against the state at the start of the event. *)
Lemma moved_insert_owned key a c : I c -> owned_wf key a -> (proven now a -> exists b, r_owned c0 !! key = Some b /\ proven now b) ->
  (probing a -> exists t, oa_deadline a = Some t /\ now + 1000 <= t) -> I (insert_owned key a c).
Proof using Type.
  intros [Hc He] Ha H1 H2. split.
  - pose proof (map_Forall_insert_2 _ _ _ _ Ha (rw_owned _ Hc)). by replace_part.
  - split; unset; [apply He| | |apply He]; intros k b [[<- <-]|[_ Hb]]%lookup_insert_Some Hx; [by auto|by eapply (ev_proven _ _ _ He)|right; by auto|by eapply (ev_probing _ _ _ He)].
Qed.
Lemma moved_probe key a c : I c -> owned_wf key a -> oa_state a = Tentative -> oa_deadline a = Some (now + 1000) -> I (insert_owned key a c).
Proof using Type.
  intros Hc Ha Hs Hd. apply moved_insert_owned; [done|done| |]; [intros Hp; by apply not_proven in Hp|intros _; exists (now + 1000); split; [done|lia]].
Qed.
Lemma dad_packet_gives a c r : I c -> gives (lift (expect (dad_packet a))) (c, r) (fun _ c' => c' = c).
Proof using Type.
  intros Hc. destruct (dad_body_ok a) as [Hb Hl]. unfold dad_packet. destruct (icmp_packet_fits 0 (solicited_node a) 255 (dad_body a) ltac:(u_lia) Hb ltac:(rewrite Hl; u_lia)) as (p & -> & _).
  by apply gives_lift.
Qed.
Definition begun_dad (link : Link) (address : Z) (c c' : Router) : Prop :=
  r_lifecycle c' = r_lifecycle c /\ exists p, (forall q, p = Some q -> prefix_wf q) /\ r_owned c' !! (link, address) = Some (mkOwnedAddress true p Tentative (Some (now + 1000)) 1).
Lemma begin_dad_gives link address c r : I c -> is_u128 address -> gives (begin_dad link address now) (c, r) (fun _ c' => I c' /\ begun_dad link address c c').
Proof using All.
  intros Hc Ha. unfold begin_dad. eapply (gives_bind _ _ _ (fun _ c' => I c' /\ r_lifecycle c' = r_lifecycle c)).
  { apply gives_if; intros _; [|by apply gives_ret]. apply gives_update. split; [|done]. apply (calm_on_state (now:=now)); [done|]. destruct (wf_link link c (proj1 Hc)). split; [done|done|cbn; lia]. }
  intros u c1 r1 [H1 E1]. eapply gives_bind; [apply (gives_deadline Hnow); [done|unfold longest_wait; lia]|]. intros d c2 r2 [-> ->]. apply gives_step.
  set (p := if link_local address then None else prefix_new address 64). assert (forall q, p = Some q -> prefix_wf q) as Hp.
  { unfold p. case_match; [done|]. intros q Hq. exact (prefix_new_wf address 64 q Ha ltac:(u_lia) Hq). }
  set (c2 := insert_owned _ _ _). assert (I c2 /\ begun_dad link address c c2) as H2.
  { split; [by apply moved_probe|]. split; [exact E1|]. exists p. split; [done|]. apply lookup_insert_eq. }
  clearbody c2. eapply gives_bind; [apply dad_packet_gives, H2|]. intros pkt c3 r3 ->. by apply gives_ret.
Qed.

(** Degradation needs a router that is not stopping. *)
Definition awake (c : Router) : Prop := I c /\ stopping c = false.
Lemma stopping_lifecycle c c' : r_lifecycle c' = r_lifecycle c -> stopping c' = stopping c.
Proof using Type. unfold stopping. by intros ->. Qed.
Lemma refuse_gives {A} (e : io_error) (Q : A -> Router -> Prop) c r : awake c -> gives (degrade now ;; throw e) (c, r) Q.
Proof using All. intros [Hc Hs]. eapply gives_bind; [by apply degrade_gives|]. intros u c1 r1 H1. by apply gives_throw. Qed.
Lemma prepare_address_gives lp c r : awake c -> prefix_wf lp.2 -> gives (prepare_address now lp) (c, r) (fun _ => awake).
Proof using All.
  intros Hc Hp. unfold prepare_address. apply gives_self. apply gives_if; [intros _; by apply gives_ret|intros _]. apply gives_if; [intros _; by apply refuse_gives|intros _].
  eapply gives_bind; [apply begin_dad_gives; [apply Hc|]; by apply id_address_u128; [apply (rw_identity _ (proj1 (proj1 Hc)))|]|].
  intros tx c1 r1 [H1 [E _]]. apply gives_ret. split; [done|]. rewrite (stopping_lifecycle _ _ E). apply Hc.
Qed.
Lemma prepare_service_addresses_gives c r : awake c -> gives (prepare_service_addresses now) (c, r) (fun _ => awake).
Proof using All.
  intros Hc. unfold prepare_service_addresses. apply gives_self. eapply gives_weaken; [apply (gives_collect awake (fun _ => True)); [exact Hc|]|by intros ? ? []].
  intros lp c1 r1 Hin H1. eapply gives_weaken; [apply prepare_address_gives; [done|]|].
  - unfold service_prefixes in Hin. apply in_order_in, in_map_iff in Hin as ([k s] & <- & [Hs%sorted_in _]%filter_In). exact (rw_suppliers _ (proj1 (proj1 Hc)) _ _ Hs).
  - intros out c2 H2. split; [done|]. by apply List.Forall_forall.
Qed.
(** An address becomes ready only after its probe has been out for its time. *)
Lemma tick_dad_address_gives k a c r : I c -> owned_wf k a -> (proven now a -> exists b, r_owned c0 !! k = Some b /\ proven now b) ->
  gives (tick_dad_address now (k, a)) (c, r) (fun _ => I).
Proof using All.
  intros Hc Ha Hk. unfold tick_dad_address. destruct k as [link address]. apply gives_self. apply gives_if; [intros _; by apply gives_ret|intros _].
  apply gives_if; [|intros _; by apply gives_ret]. intros [Hs%bool_decide_eq_true Hd]%andb_true_iff. destruct Ha as [Haddr Hatt Hpre]. apply gives_if.
  - intros _. eapply gives_bind; [apply (gives_deadline Hnow); [done|unfold longest_wait; lia]|]. intros d c1 r1 [-> ->]. apply gives_step.
    set (c1 := insert_owned _ _ c). assert (I c1) as H1 by (apply moved_probe; [done|split; [exact Haddr|cbn; lia|exact Hpre]|exact Hs|done]). clearbody c1.
    eapply gives_bind; [by apply dad_packet_gives|]. intros p c2 r2 ->. by apply gives_ret.
  - intros [_ Hsent%negb_false_iff]%orb_false_iff. apply gives_step, gives_ret. apply moved_insert_owned; [done|by split| |by intros [? _]]. intros _. apply Hk.
    right. split; [done|]. destruct (oa_deadline a) as [t|]; [|done]. exists t. split; [done|by apply Z.leb_le].
Qed.
Lemma tick_dad_gives c r : I c -> gives (tick_dad now) (c, r) (fun _ => I).
Proof using All.
  intros Hc. unfold tick_dad. apply gives_self. apply (gives_collect_state Hnow I); [done|]. intros [k a] c1 r1 Hin%sorted_in H1.
  apply tick_dad_address_gives; [done|by apply (rw_owned _ (proj1 Hc)) in Hin|]. intros Hp. exact (ev_proven _ _ _ (proj2 Hc) _ _ Hin Hp).
Qed.
Lemma dad_conflict_gives link target own c r : I c -> r_owned c !! (link, target) = Some own -> oa_state own = Tentative -> gives (dad_conflict link target own now) (c, r) (fun _ => I).
Proof using All.
  intros Hc E Hs. pose proof (rw_owned _ (proj1 Hc) _ _ E) as [Haddr Hatt Hpre]. unfold dad_conflict. apply gives_if.
  - intros _. apply gives_step. eapply gives_bind; [apply router_set_link_gives; [done|]|intros u c1 r1 H1; by apply gives_throw].
    apply moved_insert_owned; [done|by split| |by intros [? _]]. intros [?|[[? _] _]]; done.
  - intros Hlt%Z.leb_gt. apply gives_step. set (c1 := set_owned _ c). assert (I c1) as H1.
    { apply moved_owned; [done|by apply map_Forall_delete, (rw_owned _ (proj1 Hc))|]. apply owned_subset, delete_subseteq. }
    clearbody c1. eapply gives_bind; [by eapply (gives_fresh _ _ _ (fun b c => c = c1 /\ is_bytes b /\ length b = 8%nat))|]. intros b c2 r2 (-> & Hb & Hl). cbv zeta.
    pose proof (draft_iid b Hb Hl) as Hiid. set (iid := Z.max _ 1) in *. clearbody iid.
    eapply (gives_bind _ _ _ (fun _ => I)).
    { destruct (oa_prefix own); [by apply gives_ret|]. apply gives_update. apply (calm_identity (now:=now)); [done|].
      destruct (rw_identity _ (proj1 H1)) as [Hsite [Hi1 Hi2] Hm]. split; [done| |done]. by destruct link. }
    intros u c2 r3 H2. set (address := Z.lor _ iid). assert (is_u128 address) as Ha.
    { apply lor_u128; [|u_lia]. destruct (oa_prefix own) as [p|] eqn:Ep; cbn [default from_option id]; [by apply (Hpre p)|]. apply (prefix_net64 fe80). unfold fe80. u_lia. }
    clearbody address. eapply gives_bind; [by apply begin_dad_gives|]. intros tx c3 r4 [H3 (_ & p & Hp & Ef)]. apply gives_self. rewrite Ef.
    eapply (gives_bind _ _ _ (fun f c' => f = mkOwnedAddress true p Tentative (Some (now + 1000)) 1 /\ c' = c3)); [by apply gives_lift|]. intros f c4 r5 [-> ->].
    eapply (gives_bind _ _ _ (fun n c' => n = oa_attempts own + 1 /\ c' = c3)). { unfold add_chk. destruct (Z.leb_spec (oa_attempts own + 1) u8_max); [by apply gives_lift|u_lia]. }
    intros n c4 r6 [-> ->]. apply gives_step, gives_ret. apply moved_probe; [done|split; [exact Ha|cbn; lia|exact Hp]|done|done].
Qed.
Lemma learn_solicitor_moved key mac c : I c -> room key c -> I (learn_solicitor key mac c).
Proof using Type.
  intros Hc Hr. unfold learn_solicitor. destruct (r_neighbors c !! key) as [n|] eqn:E.
  - pose proof (wf_neighbor _ _ _ Hc E) as [Hp _]. case_match; (apply (moved_replace key _ n); [done|done|cbn; lia|by left]).
  - apply moved_neighbors; [done|]. apply neighbors_insert; [apply (rw_neighbors _ (proj1 Hc))|done| |by left]. destruct Hr as [[? Hs]|Hr]; [by rewrite E in Hs|by right].
Qed.
Lemma answer_solicitation_gives link target e nd c r : awake c -> nd_wf nd -> gives (answer_solicitation link target e nd now) (c, r) (fun _ => I).
Proof using All.
  intros Hc Hnd. unfold answer_solicitation. cbv zeta. eapply (gives_bind _ _ _ (fun _ => I)).
  { apply gives_if; intros _; [apply gives_ret, Hc|]. apply gives_self. apply gives_if; [intros _; by apply refuse_gives|]. intros Hroom.
    assert (room (mkRouterKey link (e_source e)) c) as Hr.
    { apply andb_false_iff in Hroom as [Hk%negb_false_iff%has_key_true|Hn%Z.leb_gt]; [by left|right; exact Hn]. }
    destruct Hc as [Hc _]. eapply (gives_bind _ _ _ (fun _ c' => c' = c)); [by eapply gives_yields; [apply option_mac_yields, Hnd|..]|]. intros mac c1 r1 ->.
    apply gives_step, gives_update. apply learn_solicitor_moved; [by apply reap_failed_moved|]. apply reap_failed_room; [apply (rw_neighbors _ (proj1 Hc))|done]. }
  intros u c1 r1 H1. apply gives_self. destruct (link_address_ok 2 link c1 ltac:(u_lia) (proj1 H1)) as [Hb Hl]. pose proof (len_nonneg (link_address 2 link c1)).
  eapply gives_bind; [apply (gives_expect Hnow); [done|u_lia|..]|intros p c2 r2 [_ ->]; by apply gives_ret].
  - apply is_bytes_app. split; [|apply is_bytes_app; split; [apply is_bytes_octets6|done]]. destruct (is_unspecified6 (e_source e)); by repeat constructor.
  - rewrite !len_app, len_octets6. rewrite (eq_refl : len [136; 0; 0; 0; _; 0; 0; 0] = 8). u_lia.
Qed.
Lemma owned_nd_gives link e nd c r : awake c -> nd_wf nd -> gives (owned_nd link e nd now) (c, r) (fun out c' => I c' /\ (out = None -> c' = c)).
Proof using All.
  intros Hc Hnd. unfold owned_nd. apply gives_if; [intros _; apply gives_ret; split; [apply Hc|done]|]. intros Hk.
  assert (nd_kind nd = 135 \/ nd_kind nd = 136) as Hkind. { apply andb_false_iff in Hk as [Hk%negb_false_iff%Z.eqb_eq|Hk%negb_false_iff%Z.eqb_eq]; auto. }
  eapply (gives_bind _ _ _ (fun _ c' => c' = c)); [by eapply gives_yields; [by apply nd_target_yields|apply Hc|]|]. intros target c1 r1 ->. apply gives_self.
  destruct (r_owned c !! (link, target)) as [own|] eqn:E; [|apply gives_ret; split; [apply Hc|done]].
  apply gives_if; [intros Hs%bool_decide_eq_true|intros _].
  - eapply gives_bind; [by apply dad_conflict_gives; [apply Hc|..]|]. intros out c2 r2 H2. by apply gives_ret.
  - apply gives_if; [intros _; apply gives_ret; split; [apply Hc|done]|intros _].
    eapply gives_bind; [by apply answer_solicitation_gives|]. intros out c2 r2 H2. by apply gives_ret.
Qed.
End addresses.
