(* ===== verification/RouterReceive.v ===== *)
(** The invariant under received packets and frames, and under the announcement of services. *)

From S2P Require Import Prelude Effects Time Checksum Wire WireFacts Scheduler Maps Observations Selection SelectionFacts Stateful Dhcp6Wire Pd PdInv Ordered Identity RouterState Routing Delegated Neighbors Announce RouterCore RouterInv RouterParts RouterNeighbors.

(** ** Snapshots *)

Lemma stub_rios_get now c x : router_wf c -> In x (stub_rios now c) -> is_Some (ol_get (Stub, rio_prefix x) (r_on_link c)).
Proof.
  intros Hc ([k v] & <- & [Hin Hf]%filter_In)%in_map_iff. apply ol_iter_in in Hin; [|apply Hc]. apply andb_true_iff in Hf as [[_ Hk%bool_decide_eq_true]%andb_true_iff _].
  destruct k as [l p]. cbn in Hk. subst l. by exists v.
Qed.
Lemma snapshot_safe link now c : router_wf c -> safe (snapshot link now c).
Proof.
  intros Hc. unfold snapshot. apply safe_bind; [|done]. unfold active_rios. apply safe_bind; [|done]. destruct link; [|done]. apply safe_bind; [|done].
  unfold export_order. apply safe_bind; [|done]. pose proof (fun x => stub_rios_get now c x Hc) as Hin. revert Hin. generalize (stub_rios now c). intros l. induction l as [|x l IH]; intros Hin; [done|].
  cbn [export_keys]. apply safe_bind; [|intros k _; apply safe_bind; [|done]].
  - unfold export_key. apply safe_bind; [|done]. apply safe_unwrap, Hin. by left.
  - apply IH. intros y Hy. apply Hin. by right.
Qed.
Lemma keep_promised_safe c rios n : safe (keep_promised c rios n).
Proof.
  revert n. induction rios as [|x rios IH]; intros n; cbn [keep_promised]; [done|]. case_match; [case_match; [done|]|]; (apply safe_bind; [apply IH|by intros [[]]]).
Qed.
Lemma reserve_services_safe ad ps c : safe (reserve_services ad ps c).
Proof. unfold reserve_services. case_match; [|done]. apply safe_bind; [apply keep_promised_safe|by intros [[]]]. Qed.
Lemma announcements_yields c l : Forall (fun o => is_bytes (o_bytes o)) l -> yields (fun _ => True) (announcements c l).
Proof.
  induction 1 as [|o l Ho _ IH]; [done|]. cbn [announcements]. eapply yields_bind.
  { apply maybe_yields, (yields_of_safe (fun _ => True)); [by apply pref64_decode_safe|done]. }
  intros d _. eapply yields_bind; [exact IH|]. by intros.
Qed.
Lemma dns_options_yields now l h : Forall (fun o => is_bytes (o_bytes o)) l -> yields (fun _ => True) (dns_options now l h).
Proof.
  intros Hl. revert h. induction Hl as [|o l Ho _ IH]; intros h; [done|]. cbn [dns_options]. eapply (yields_bind (fun _ => True)); [|intros h' _; apply IH].
  unfold dns_option. destruct (_ || _) eqn:E; [done|]. apply orb_false_iff in E as [[_ E%Z.ltb_ge]%orb_false_iff _].
  eapply yields_bind; [apply yields_u32_at; [done|lia|lia]|]. intros n _. eapply yields_bind; [apply yields_slice_from; [done|lia]|]. done.
Qed.

Section services.
Context {R : Type} `{Sampler R} `{!ByteSource R} {now : Z} {I : Router -> Prop} `{!Calm now I} (Hnow : in_time now).
#[local] Abbreviation gives := (gives (S:=Router) (R:=R) I).
Lemma gives_snapshot link c r : I c -> gives (lift (snapshot link now c)) (c, r) (fun _ c' => c' = c).
Proof using Calm0. intros Hc. eapply (gives_yields _ (fun _ => True)); [apply yields_of_safe; [apply snapshot_safe; by apply calm_wf|done]|done|done]. Qed.
Lemma gives_attempt {A} (m : outcome WireError A) c r : safe m -> gives (attempt m) (c, r) (fun x c' => x = m /\ c' = c).
Proof using Type. intros Hm. unfold attempt. destruct m; [by apply gives_ret..|done]. Qed.
Lemma service_inventory_gives resolvers ipv4 translator c r : I c -> gives (service_inventory resolvers ipv4 translator now) (c, r) (fun _ => I).
Proof using All.
  intros Hc. unfold service_inventory. apply gives_self. cbv zeta. apply gives_step. apply gives_if; intros _; [apply gives_ret; by apply (calm_services (now:=now))|].
  apply router_changed_gives; [done|]. by apply (calm_services (now:=now)).
Qed.
Lemma announcement_failed_gives mode c r : I c -> gives (with_nat64 (announcement_failed mode now)) (c, r) (fun _ => I).
Proof using All.
  intros Hc. destruct (announcement_failed_ok mode now _ (rw_nat64 _ (calm_wf _ Hc))) as (b & E & Hs).
  eapply gives_weaken; [apply (with_nat64_gives Hnow _ _ _ (fun _ => True)); [done|by rewrite E]|by intros ? ? []].
Qed.
Lemma encode_services_gives ad c r : I c -> gives (encode_services ad now) (c, r) (fun x c' => safe x /\ I c' /\ r_lifecycle c' = r_lifecycle c).
Proof using All.
  intros Hc. unfold encode_services. destruct (ad_link ad).
  { eapply gives_weaken; [apply gives_attempt, encode_services_safe|]. intros x c' [-> ->]. split; [apply encode_services_safe|done]. }
  apply gives_step. assert (I (on_services (live_history now) c)) as H1 by by apply (calm_services (now:=now)).
  set (c1 := on_services _ c) in *. assert (r_lifecycle c1 = r_lifecycle c) as <- by done. clearbody c1. clear c Hc. rename c1 into c, H1 into Hc.
  apply gives_self. cbv zeta. set (reach := fun link a => _).
  eapply (gives_bind _ _ _ (fun _ c' => I c' /\ r_lifecycle c' = r_lifecycle c)).
  { apply gives_field. destruct (select_ok now (readiness now c) reach (return_route now c) _ (rw_nat64 _ (calm_wf _ Hc))) as (d & s1 & s' & -> & _ & Hs & _).
    split; [by apply (calm_nat64 (now:=now))|done]. }
  intros d c2 r2 [H2 E2]. rewrite <-E2. clear E2. eapply gives_bind; [apply gives_attempt, reserve_services_safe|]. intros x c3 r3 [-> ->].
  pose proof (reserve_services_safe ad (map rio_prefix (dc_routes d)) c) as Hres. destruct (reserve_services _ _ c) as [rios|e|]; [|by apply gives_ret|done]. cbv zeta. set (ad' := set_rios _ _).
  eapply gives_bind; [apply gives_attempt, encode_services_safe|]. intros x c3 r4 [-> ->].
  eapply (gives_bind _ _ _ (fun _ c' => I c' /\ r_lifecycle c' = r_lifecycle c2)); [|intros u c4 r5 H4; apply gives_ret; split; [apply encode_services_safe|done]].
  apply gives_if; intros _; [|by apply gives_ret]. apply gives_field.
  destruct (announcement_failed_ok (dc_mode d) now _ (rw_nat64 _ (calm_wf _ H2))) as (b & -> & Hs). split; [by apply (calm_nat64 (now:=now))|done].
Qed.
Lemma services_transmitted_gives link nd c r : I c -> nd_wf nd -> gives (services_transmitted link nd now) (c, r) (fun _ => I).
Proof using All.
  intros Hc Hnd. unfold services_transmitted. destruct link; [by apply gives_ret|]. apply gives_self.
  eapply (gives_bind _ _ _ (fun _ c' => c' = c)); [by eapply gives_yields; [apply announcements_yields, Hnd|..]|]. intros l c1 r1 ->.
  eapply (gives_bind _ _ _ (fun _ => I)).
  { eapply gives_weaken; [apply (with_nat64_gives Hnow _ _ _ (fun _ => True)); [done|]|by intros ? ? []].
    pose proof (advertised_ok l now _ (rw_nat64 _ (calm_wf _ Hc))) as Ha. destruct (advertised l now (r_nat64 c)) as [[u|e|] s]; [split; [done|apply Ha]|subst s; apply (rw_nat64 _ (calm_wf _ Hc))|done]. }
  intros u c2 r2 H2. apply gives_step. assert (I (on_services (live_history now) c2)) as H3 by by apply (calm_services (now:=now)).
  set (c3 := on_services _ c2) in *. clearbody c3. apply gives_self.
  eapply (gives_bind _ _ _ (fun _ c' => c' = c3)); [by eapply gives_yields; [apply dns_options_yields, Hnd|..]|]. intros h c4 r4 ->.
  apply gives_update. by apply (calm_services (now:=now)).
Qed.
End services.

(** ** Parts of packets *)

Lemma for_pd_client_yields link e c : envelope_wf e -> yields (fun _ => True) (for_pd_client link e c).
Proof.
  intros He. unfold for_pd_client. case_match; [done|]. pose proof (transport_safe e He) as Hs. destruct (transport e) as [t|x|] eqn:Et; [|done|done].
  pose proof (transport_bytes e t He Et) as Hb. eapply (yields_bind (fun _ => True)); [|done]. destruct (_ && _) eqn:E; [|done]. apply andb_true_iff in E as [_ El%Z.leb_le].
  eapply yields_weaken; [apply yields_slice; [done|lia|lia]|done].
Qed.
Lemma echo_request_yields link e now c : received e -> yields (fun o => forall b, o = Some b -> is_bytes b /\ 8 <= len b <= u16_max /\ expired now (r_error_after c)) (echo_request link e now c).
Proof.
  intros (He & _ & Hp). unfold echo_request. case_match; [by intros ? ?|]. pose proof (transport_safe e He) as Hs. destruct (transport e) as [t|x|] eqn:Et; [|by intros ? ?|done].
  pose proof (transport_bytes e t He Et) as Hb. apply transport_loop_len in Et. cbv zeta.
  eapply (yields_bind (fun h => beq h [128; 0] = true -> 8 <= len (t_bytes t))).
  { destruct (_ && _) eqn:E; [|done]. apply andb_true_iff in E as [_ El%Z.leb_le]. eapply yields_weaken; [apply yields_slice; [done|lia|lia]|done]. }
  intros h Hh. cbn [yields]. case_match eqn:E; [|by intros ? ?]. intros b [= <-]. rewrite !andb_true_iff in E. destruct E as [[[E1 _] E2] _]. split; [done|]. split; [split; [by apply Hh|lia]|].
  intros t' Ht. rewrite Ht in E2. by apply Z.leb_le.
Qed.
Lemma prospect_yields key c l s : Forall (fun o => is_bytes (o_bytes o)) l -> yields (fun _ => True) (prospect key c l s).
Proof.
  intros Hl. revert s. induction Hl as [|o l Ho _ IH]; intros s; cbn [prospect]; [done|]. eapply yields_bind; [by apply maybe_yields, pio_decode_ok|]. intros p _.
  eapply yields_bind; [by apply maybe_yields, rio_decode_ok|]. intros rio _. cbv zeta. apply IH.
Qed.
Lemma ra_body nd : nd_wf nd -> nd_kind nd = 134 -> is_bytes (nd_body nd) /\ 16 <= len (nd_body nd).
Proof. intros Hnd Hk. split; [apply Hnd|]. destruct (dw_kind _ Hnd) as [|[[_ ?]|[? _]]]; lia. Qed.
Lemma ra_lifetime_yields nd : nd_wf nd -> nd_kind nd = 134 -> yields (fun _ => True) (ra_lifetime nd).
Proof. intros Hnd Hk. destruct (ra_body nd Hnd Hk). unfold ra_lifetime. do 2 y_bind. done. Qed.

Section advertisements.
Context {R : Type} `{Sampler R} `{!ByteSource R} {now : Z} {I : Router -> Prop} `{!Calm now I} (Hnow : in_time now).
#[local] Abbreviation gives := (gives (S:=Router) (R:=R) I).
Lemma gives_catch {A} (m : M (Router * R) io_error A) c r : gives m (c, r) (fun _ => I) -> gives (catch m) (c, r) (fun _ => I).
Proof using Type. unfold gives, catch. by destruct (m (c, r)) as [[a|e|] st']. Qed.

(** ** Options of an advertisement *)

Lemma calm_drop_supplier k c : I c -> I (set_suppliers (delete k (r_suppliers c)) c).
Proof using Calm0. intros Hc. apply (calm_suppliers (now:=now)); [done|]. apply map_Forall_delete, (rw_suppliers _ (calm_wf _ Hc)). Qed.
Lemma observe_hint_gives p c r : I c -> gives (observe_hint p now) (c, r) (fun _ => I).
Proof using All.
  intros Hc. unfold observe_hint. apply gives_self. cbv zeta. apply gives_step. apply gives_self. apply gives_when; [by apply (calm_hints (now:=now))|]. intros _.
  apply refresh_pd_gives; [done|]. by apply (calm_hints (now:=now)).
Qed.
Lemma observe_on_link_gives link p c r : I c -> pio_wf p -> gives (observe_on_link link p now) (c, r) (fun _ => I).
Proof using All.
  intros Hc Hp. unfold observe_on_link. cbv zeta. apply gives_self. apply gives_next; [apply gives_when; [done|]; intros _; apply gives_update; by apply (calm_unwithdraw (now:=now))|].
  intros c1 r1 H1. apply gives_next; [apply gives_when; [done|]; intros _; by apply router_changed_gives|]. intros c2 r2 H2. apply gives_update.
  case_match; [by apply (calm_remove_on_link (now:=now))|]. apply (calm_insert_on_link (now:=now)); [done|apply Hp].
Qed.
Lemma observe_supplier_gives key p snac c r : I c -> pio_wf p -> gives (observe_supplier key p snac now) (c, r) (fun _ => I).
Proof using All.
  intros Hc Hp. unfold observe_supplier. cbv zeta. apply gives_self.
  apply gives_next; [apply gives_when; [done|]; intros _; apply gives_step, router_changed_gives; [done|]; by apply (calm_ail_state (now:=now))|].
  intros c1 r1 H1. apply gives_step. set (c2 := set_suppliers _ c1). assert (I c2) as H2.
  { apply (calm_suppliers (now:=now)); [done|]. apply map_Forall_insert_2; [apply Hp|apply (rw_suppliers _ (calm_wf _ H1))]. }
  clearbody c2. apply gives_self. apply gives_when; [done|]. intros _. apply gives_step. assert (I (on_state (rk_link key) (put_state Suitable) c2)) as H3 by by apply (calm_link_same (now:=now)).
  apply gives_when; [done|]. intros _. by apply router_enable_gives.
Qed.
Lemma observe_pio_gives key snac o c r : I c -> is_bytes (o_bytes o) -> gives (observe_pio key snac now o) (c, r) (fun _ => I).
Proof using All.
  intros Hc Ho. unfold observe_pio. eapply gives_bind; [by apply gives_maybe, pio_decode_ok|]. intros [p|] c1 r1 [-> Hp]; [|by apply gives_ret]. specialize (Hp _ eq_refl).
  apply gives_next; [apply gives_when; [done|]; intros _; by apply observe_hint_gives|]. intros c1 r2 H1.
  apply gives_next; [apply gives_when; [done|]; intros _; by apply observe_on_link_gives|]. intros c2 r3 H2.
  apply gives_if; intros _; [by apply observe_supplier_gives|]. apply gives_when; [done|]. intros _. apply gives_update. by apply calm_drop_supplier.
Qed.
Lemma receive_solicitation_gives link e c r : I c -> envelope_wf e -> gives (receive_solicitation link e now) (c, r) (fun _ => I).
Proof using All.
  intros Hc He. unfold receive_solicitation. apply gives_self.
  apply gives_next; [apply gives_when; [done|]; intros _; apply gives_step, router_changed_gives; [done|]; by apply (calm_ail_state (now:=now))|].
  intros c1 r1 H1. by apply router_receive_rs_gives.
Qed.
Lemma sel_receive_gives link e c r : I c -> envelope_wf e -> gives (catch (with_nat64 (sel_receive link (e_packet e) now))) (c, r) (fun _ => I).
Proof using All.
  intros Hc He. apply gives_catch. eapply gives_weaken; [apply (with_nat64_gives Hnow _ _ _ (fun _ => True)); [done|]|by intros ? ? []].
  pose proof (sel_receive_ok link (e_packet e) now _ (rw_nat64 _ (calm_wf _ Hc)) (proj1 He)) as Hs.
  assert (is_u64 now) as Hn by (unfold in_time, longest_wait in Hnow; u_lia). specialize (Hs Hn). destruct (sel_receive link (e_packet e) now (r_nat64 c)) as [[u|x|] s]; [done|subst s; apply (rw_nat64 _ (calm_wf _ Hc))|done].
Qed.
(** What follows the admission of an advertisement. *)
Definition learn_ra (link : Link) (e : Envelope) (nd : Nd) : M (Router * R) io_error unit :=
  r ← self;
  (if (e_destination e =? all_nodes) || address_ready link (e_destination e) r
   then catch (with_nat64 (sel_receive link (e_packet e) now)) ;; mret tt else mret tt) ;;
  (if bool_decide (link = Ail) && at_discovering (r_attachment r) then with_attachment (at_observe (octets6 (e_source e))) else mret tt) ;;
  lifetime ← lift (ra_lifetime nd);
  (if 0 <? lifetime
   then update (on_state link (fun s =>
     let s := put_rs_count 3 s in
     if lk_discovery_end s =? u64_max then put_discovery_end (sat64 now 9000) s else s)) else mret tt) ;;
  observe_routes (mkRouterKey link (e_source e)) nd now ;;
  flags ← lift (nd_body nd).[5];
  update (fun r => set_headers (<[mkRouterKey link (e_source e) := ra_header link flags lifetime now]> (r_headers r)) r) ;;
  for_each (nd_options nd) (observe_pio (mkRouterKey link (e_source e)) (negb (Z.land flags 2 =? 0)) now) ;;
  sync_pd now.
Lemma learn_ra_gives link e nd c r : I c -> envelope_wf e -> nd_wf nd -> nd_kind nd = 134 -> gives (learn_ra link e nd) (c, r) (fun _ => I).
Proof using All.
  intros Hc He Hnd Hk. destruct (ra_body nd Hnd Hk) as [Hb Hl]. unfold learn_ra. apply gives_self.
  apply gives_next; [apply gives_when; [done|]; intros _; eapply gives_bind; [by apply sel_receive_gives|]; intros; by apply gives_ret|]. intros c1 r1 H1.
  apply gives_next; [apply gives_when; [done|]; intros _; by apply at_observe_gives|]. intros c2 r2 H2.
  eapply (gives_bind _ _ _ (fun _ c' => c' = c2)); [by eapply gives_yields; [by apply ra_lifetime_yields|..]|]. intros lifetime c3 r3 ->.
  apply gives_next; [apply gives_when; [done|]; intros _; apply gives_update|].
  { apply (calm_on_state (now:=now)); [done|]. destruct (wf_link link c2 (calm_wf _ H2)). cbv zeta. case_match; by split. }
  intros c3 r4 H3. apply gives_next; [by apply observe_routes_gives|]. intros c4 r5 H4.
  eapply gives_bind; [apply gives_idx; [done|done|lia]|]. intros flags c5 r6 [-> _]. apply gives_step. assert (I (set_headers (<[mkRouterKey link (e_source e) := ra_header link flags lifetime now]> (r_headers c4)) c4)) as H5 by by apply (calm_headers (now:=now)).
  set (c5 := set_headers _ c4) in *. clearbody c5. apply gives_next; [|intros; by apply sync_pd_gives].
  apply gives_for_each; [done|]. intros o c6 r7 Ho H6. apply observe_pio_gives; [done|]. exact (Forall_In _ _ _ (dw_options _ Hnd) Ho).
Qed.
Lemma poll_pd_gives link c r : I c -> gives (poll_pd link now) (c, r) (fun _ => I).
Proof using All.
  intros Hc. unfold poll_pd. apply gives_self. eapply gives_bind; [apply with_pd_gives; [done|done|]|intros; by apply gives_ret].
  eapply gives_weaken; [apply pd_poll_gives; [done|apply (rw_pd _ (calm_wf _ Hc))]|]. by intros ? ? [].
Qed.
Lemma reap_on_link_calm c : I c -> I (reap_on_link now c).
Proof using Calm0. intros Hc. apply (calm_on_link (now:=now)); [done|]. apply on_link_retain, (rw_on_link _ (calm_wf _ Hc)). Qed.
Lemma reap_routes_calm c : I c -> I (reap_routes now c).
Proof using Calm0. intros Hc. apply (calm_routes (now:=now)); [done|]. apply forall_filter, (rw_routes _ (calm_wf _ Hc)). Qed.
Lemma reap_suppliers_calm c : I c -> I (reap_suppliers now c).
Proof using Calm0. intros Hc. apply (calm_suppliers (now:=now)); [done|]. apply forall_filter, (rw_suppliers _ (calm_wf _ Hc)). Qed.
Lemma reap_exports_calm c : I c -> I (reap_exports now c).
Proof using Calm0.
  intros Hc. unfold reap_exports. cbv zeta. apply (calm_withdrawals (now:=now)); [|apply forall_filter, (rw_withdrawals _ (calm_wf _ Hc))].
  apply (calm_advertised (now:=now)); [done|]. apply forall_filter, (rw_advertised _ (calm_wf _ Hc)).
Qed.
End advertisements.

Lemma stays_awake now c c' : evolves now c c' -> stopping c = false -> stopping c' = false.
Proof.
  intros He. unfold stopping, is_one_of. rewrite !bool_decide_eq_false. destruct (ev_lifecycle _ _ _ He) as [->|H]; [done|].
  destruct (r_lifecycle c), (r_lifecycle c'); try done; set_solver.
Qed.
Section receiving.
Context {R : Type} `{Sampler R} `{!ByteSource R} {now : Z} {c0 : Router} (Hnow : in_time now).
#[local] Abbreviation I := (moved now c0).
#[local] Abbreviation gives := (gives (S:=Router) (R:=R) I).
#[local] Abbreviation awake := (awake (now:=now) (c0:=c0)).
Lemma reap_evidence_moved c : I c -> I (reap_evidence now c).
Proof using Type.
  intros Hc. unfold reap_evidence. apply (reap_suppliers_calm (now:=now)), (reap_routes_calm (now:=now)), (reap_on_link_calm (now:=now)), (calm_hints (now:=now)), (calm_headers (now:=now)).
  by apply reap_failed_moved.
Qed.
Lemma reap_evidence_lifecycle c : r_lifecycle (reap_evidence now c) = r_lifecycle c.
Proof using Type.
  change (r_lifecycle (reap_failed_neighbors now c) = r_lifecycle c). unfold reap_failed_neighbors. apply (foldl_keeps (fun x => r_lifecycle x = r_lifecycle c)); [done|].
  intros x k _ E. rewrite <-E. unfold reap_neighbor. cbv zeta. by case_match.
Qed.
(** What is admitted has its room. *)
Lemma admit_ra_gives key nd c r : awake c -> nd_wf nd -> nd_kind nd = 134 -> gives (admit_ra key nd now) (c, r) (fun _ c' => awake c' /\ room key c').
Proof using All.
  intros [Hc Hs] Hnd Hk. unfold admit_ra. apply gives_step. assert (awake (reap_evidence now c)) as Hc1.
  { split; [by apply reap_evidence_moved|]. rewrite <-Hs. apply stopping_lifecycle, reap_evidence_lifecycle. }
  set (c1 := reap_evidence now c) in *. clearbody c1. clear c Hc Hs. apply gives_self.
  eapply (gives_bind _ _ _ (fun _ c' => c' = c1)); [by eapply gives_yields; [by apply ra_lifetime_yields|apply Hc1|]|]. intros lifetime c2 r2 ->.
  eapply (gives_bind _ _ _ (fun _ c' => c' = c1)); [by eapply gives_yields; [by apply prospect_yields, Hnd|apply Hc1|]|]. intros s c2 r3 ->.
  apply gives_if; [intros _; by apply (refuse_gives Hnow)|]. intros Hcap. apply gives_ret. split; [done|]. unfold over_capacity_of in Hcap. rewrite !orb_false_iff in Hcap.
  destruct Hcap as [[[[[_ Hn%Z.ltb_ge] _] _] _] _]. unfold count_with in Hn. unfold room. destruct (has_key (r_neighbors c1) key) eqn:E; [left; by apply has_key_true|right].
  cbn [negb of_bool] in Hn. unfold neighbor_count. lia.
Qed.
Lemma receive_ra_gives link e nd c r : awake c -> envelope_wf e -> nd_wf nd -> nd_kind nd = 134 ->
  gives (receive_ra link e nd now) (c, r) (fun _ c' => I c' /\ room (mkRouterKey link (e_source e)) c').
Proof using All.
  intros Hc He Hnd Hk. unfold receive_ra. cbv zeta. eapply gives_bind; [by apply admit_ra_gives|]. intros u c1 r1 [[H1 _] Hroom].
  apply (gives_larger (quiet now c1) _ (learn_ra (now:=now) link e nd) _ (fun _ => quiet now c1)); [by intros c' [Hm _]; eapply moved_trans| |].
  - intros x c' [Hm En]. split; [by eapply moved_trans|]. unfold room, neighbor_count in *. by rewrite En.
  - apply learn_ra_gives; [done|apply quiet_refl, H1|done..].
Qed.
Lemma default_changed_gives (b : bool) c r : I c -> gives (if b then changed Stub now else mret tt) (c, r) (fun _ => I).
Proof using All. intros Hc. apply gives_when; [done|]. intros _. by apply router_changed_gives. Qed.
Lemma receive_nd_gives link e nd c r : awake c -> envelope_wf e -> nd_wf nd -> gives (receive_nd link e nd now) (c, r) (fun _ => I).
Proof using All.
  intros Hc He Hnd. unfold receive_nd. apply gives_self. cbv zeta. pose proof (stub_routes_wf now c (proj1 (proj1 Hc))) as Hprior. set (prior := stub_routes now c) in *. clearbody prior.
  set (lifetime := default_lifetime now c). clearbody lifetime. eapply gives_bind; [by apply (owned_nd_gives Hnow)|]. intros [out|] c1 r1 [H1 E1]; [by apply gives_ret|].
  rewrite (E1 eq_refl) in *. clear H1 E1 c1. eapply (gives_bind _ _ _ (fun _ c' => awake c')).
  { apply gives_if; [intros _|intros _; by apply gives_ret]. eapply gives_larger; [|intros x c' Hq; exact Hq|].
    2: { eapply gives_weaken; [eapply (gives_larger (quiet now c) I); [|intros x c' Hq; exact Hq|apply (receive_solicitation_gives (I:=quiet now c)); [done|apply quiet_refl, Hc|done]]|].
         - intros c' [Hm _]. eapply moved_trans; [apply Hc|done].
         - intros x c' [Hm _]. split; [eapply moved_trans; [apply Hc|done]|]. apply (stays_awake now c); [apply Hm|apply Hc]. }
    done. }
  intros u c1 r2 H1. eapply (gives_bind _ _ _ (fun _ c' => I c' /\ (nd_kind nd = 134 -> room (mkRouterKey link (e_source e)) c'))).
  { apply gives_if; [intros Hk%Z.eqb_eq|intros Hk%Z.eqb_neq; apply gives_ret; split; [apply H1|done]]. eapply gives_weaken; [by apply receive_ra_gives|]. by intros ? ? []. }
  intros u' c2 r3 [H2 Hroom]. eapply gives_bind; [by apply (observe_neighbor_gives Hnow)|]. intros out c3 r4 H3. cbv beta in H3.
  apply gives_next; [by apply reconcile_exports_gives|]. intros c4 r5 H4. apply gives_self. apply gives_next; [by apply default_changed_gives|].
  intros c5 r6 H5. apply gives_step, gives_ret. by apply (reap_exports_calm (now:=now)).
Qed.
Lemma receive_pd_gives link e c r : awake c -> envelope_wf e -> gives (receive_pd link e now) (c, r) (fun _ => I).
Proof using All.
  intros [Hc Hs] He. unfold receive_pd. apply gives_self. eapply (gives_bind _ _ _ (fun _ => awake)).
  { eapply (gives_larger (quiet now c) I _ _ (fun _ => quiet now c)); [intros c' [Hm _]; by eapply moved_trans| |].
    - intros x c' [Hm _]. split; [by eapply moved_trans|]. by apply (stays_awake now c); [apply Hm|].
    - apply gives_catch. apply with_pd_gives; [done|apply quiet_refl, Hc|]. apply receive_with_policy_gives; [done|done|apply (rw_pd _ (proj1 Hc))]. }
  intros res c1 r1 H1. assert (forall c r, I c -> gives (sync_pd now ;; poll_pd link now) (c, r) (fun _ => I)) as Hok.
  { intros c2 r2 H2. apply gives_next; [by apply sync_pd_gives|]. intros. by apply poll_pd_gives. }
  destruct res as [u|x|]; [apply Hok, H1|by apply (refuse_gives Hnow)|apply Hok, H1].
Qed.
Lemma answer_echo_gives link e b c r : I c -> is_bytes b -> 8 <= len b <= u16_max -> expired now (r_error_after c) -> gives (answer_echo link e b now) (c, r) (fun _ => I).
Proof using All.
  intros Hc Hb Hl Hx. unfold answer_echo. apply gives_step. assert (I (set_error_after (Some (sat64 now 100)) c)) as H1.
  { apply moved_error; [done|done|]. unfold in_time, longest_wait in Hnow. u_lia. }
  set (c1 := set_error_after _ c) in *. clearbody c1. eapply (gives_bind _ _ _ (fun b' c' => c' = c1 /\ is_bytes b' /\ len b' = len b)).
  { eapply gives_yields; [apply (yields_copy (len b)); [done|by repeat constructor|lia|change (len [129]) with 1; lia]|done|]. intros b' [Hb' Hl']. done. }
  intros b' c2 r2 (-> & Hb' & Hl'). eapply gives_bind; [by apply (gives_expect Hnow); [done|u_lia|done|lia]|]. intros p c3 r3 [_ ->]. by apply gives_ret.
Qed.
Lemma router_receive_gives link packet c r : I c -> is_bytes packet -> gives (receive link packet now) (c, r) (fun _ => I).
Proof using All.
  intros Hc Hb. unfold receive. apply gives_self. apply gives_if; [intros _; by apply gives_ret|]. intros [Hs _]%orb_false_iff. assert (awake c) as Hw by done.
  pose proof (envelope_safe RawIpv6 _ Hb) as Hsafe. destruct (envelope RawIpv6 packet) as [e|x|] eqn:Ee; [|by apply gives_ret|done].
  pose proof (envelope_received _ _ _ Hb Ee) as Hr. pose proof (proj1 Hr) as He. apply gives_if; [intros _; by apply gives_ret|intros _].
  eapply (gives_bind _ _ _ (fun _ c' => c' = c)); [by eapply gives_yields; [by apply for_pd_client_yields|..]|]. intros pd c1 r1 ->.
  apply gives_if; [intros _; by apply receive_pd_gives|intros _]. eapply gives_bind; [eapply (gives_yields _ _ _ _ (fun o c' => c' = c /\ forall b, o = Some b -> is_bytes b /\ 8 <= len b <= u16_max /\ expired now (r_error_after c))); [by apply echo_request_yields|done|done]|].
  intros echo c1 r2 [-> Hecho]. destruct echo as [b|]; [destruct (Hecho _ eq_refl) as (? & ? & ?); by apply answer_echo_gives|].
  apply gives_if; [intros _; by apply gives_ret|intros _]. pose proof (decode_nd_safe e He) as Hnd. destruct (decode_nd e) as [nd|x|] eqn:En; [|by apply gives_ret|done].
  apply receive_nd_gives; [done|done|]. by eapply decode_nd_ok.
Qed.

(** ** Frames *)

Lemma receive_ipv6_gives link e c r : I c -> received e -> gives (receive_ipv6 link e now) (c, r) (fun _ => I).
Proof using All.
  intros Hc Hr. pose proof (proj1 Hr) as He. unfold receive_ipv6. apply gives_self. pose proof (hop_options_safe e ltac:(apply He)) as Hh.
  destruct (hop_options e) as [[pointer|]|x|]; [| |by apply gives_ret|done].
  - apply gives_if; [intros _|intros _; by apply gives_ret]. eapply gives_weaken; [apply (icmp_error_gives Hnow); [done|done|u_lia|u_lia]|]. by intros ? ? [].
  - pose proof (transport_safe e He) as Ht. destruct (transport e) as [t|x|]; [|by apply gives_ret|done]. apply gives_if; [intros _; apply router_receive_gives; [done|apply He]|intros _].
    apply gives_if; [intros _; by apply gives_ret|intros _]. by apply (forward_gives Hnow).
Qed.
Lemma af_push_wf frame f : frames_wf f -> frames_wf (snd (af_push frame f)).
Proof using Type.
  intros (H1 & H2 & H3). unfold af_push. destruct (_ || _) eqn:E; [done|]. rewrite !orb_false_iff in E. destruct E as [[E1%Z.leb_gt E2%Z.ltb_ge] E3%Z.ltb_ge]. cbn [snd]. split_and!; cbn [af_frames af_bytes].
  - rewrite len_app. change (len [frame]) with 1. lia.
  - rewrite H2. clear. induction (af_frames f) as [|x l IH]; cbn [app foldr]; lia.
  - lia.
Qed.
Lemma receive_frame_gives link kind frame c r : I c -> is_bytes frame -> gives (receive_frame link kind frame now) (c, r) (fun _ => I).
Proof using All.
  intros Hc Hb. unfold receive_frame. apply gives_self.
  assert (forall own, 14 <= len frame -> yields (E:=io_error) (fun _ => True) (for_station own frame)) as Hst by (intros own Hl; unfold for_station; do 2 y_bind; y_bind; done).
  eapply (gives_bind _ _ _ (fun b c' => c' = c /\ (b = true -> 14 <= len frame))).
  { eapply (gives_yields _ (fun b => b = true -> 14 <= len frame)); [|done|done]. destruct kind; [|by cbn]. destruct (Z.leb_spec 14 (len frame)) as [Hl|]; [|by cbn].
    unfold ipv4_frame. eapply (yields_bind (fun _ => True)); [|intros ? _ _; exact Hl]. unfold ethernet_family. case_match; [done|]. do 2 y_bind. done. }
  intros ipv4 c1 r1 [-> H4]. apply gives_if.
  - intros Hi. eapply (gives_bind _ _ _ (fun _ c' => c' = c)); [eapply gives_yields; [by apply Hst, H4|done|done]|]. intros accept c2 r2 ->.
    apply gives_if; [intros _|intros _; by apply gives_ret]. apply gives_step, gives_ret. apply (calm_frames (now:=now)); [done|]. apply af_push_wf, (rw_frames _ (proj1 Hc)).
  - intros _. pose proof (envelope_safe kind frame Hb) as Hs. destruct (envelope kind frame) as [e|x|] eqn:Ee; [|by apply gives_ret|done].
    eapply (gives_bind _ _ _ (fun _ c' => c' = c)); [|intros accept c2 r2 ->; apply gives_if; [intros _; apply receive_ipv6_gives; [done|by eapply envelope_received]|intros _; by apply gives_ret]].
    eapply (gives_yields _ (fun _ => True)); [|done|done]. destruct kind; [|done]. apply Hst. unfold envelope in Ee. inv_ok_hyp Ee. by apply Z.ltb_ge.
Qed.
End receiving.
