(* ===== verification/RouterRuns.v ===== *)
(** The invariant under time and transmissions; what the driver of [src/src/runtime.rs] asks
    of the router, as events, and histories of them. *)

From S2P Require Import Prelude Effects Time Checksum Wire WireFacts Scheduler Maps Observations Selection SelectionFacts Stateful Dhcp6Wire Pd PdInv Ordered Identity RouterState Routing Delegated Neighbors Announce RouterCore RouterInv RouterParts RouterNeighbors RouterReceive.

Lemma pio_options_yields l : Forall (fun o => is_bytes (o_bytes o)) l -> yields (Forall pio_wf) (pio_options l).
Proof.
  induction 1 as [|o l Ho _ IH]; [by apply List.Forall_nil|]. cbn [pio_options]. eapply yields_bind; [by apply maybe_yields, pio_decode_ok|]. intros p Hp.
  eapply yields_bind; [exact IH|]. intros rest Hr. cbn [yields]. apply List.Forall_app. split; [|done]. destruct p; cbn; [by repeat constructor; apply Hp|by apply List.Forall_nil].
Qed.
Lemma rio_options_yields l : Forall (fun o => is_bytes (o_bytes o)) l -> yields (Forall rio_wf) (rio_options l).
Proof.
  induction 1 as [|o l Ho _ IH]; [by apply List.Forall_nil|]. cbn [rio_options]. eapply yields_bind; [by apply maybe_yields, rio_decode_ok|]. intros p Hp.
  eapply yields_bind; [exact IH|]. intros rest Hr. cbn [yields]. apply List.Forall_app. split; [|done]. destruct p; cbn; [by repeat constructor; apply Hp|by apply List.Forall_nil].
Qed.

Section tick_parts.
Context {R : Type} `{Sampler R} `{!ByteSource R} {now : Z} {I : Router -> Prop} `{!Calm now I} (Hnow : in_time now).
#[local] Abbreviation gives := (gives (S:=Router) (R:=R) I).

(** ** The last advertisements *)

Lemma gives_encoded {A} (m : outcome WireError bytes) (f : bytes -> M (Router * R) io_error A) c r Q : safe m -> I c -> (forall p, gives (f p) (c, r) Q) ->
  gives (p ← lift (map_err (fun _ => OtherError) m); f p) (c, r) Q.
Proof using Type. intros Hm Hc Hf. destruct m as [p|x|]; [exact (Hf p)|exact Hc|done]. Qed.

Lemma final_ra_gives link c r : I c -> gives (final_ra now link) (c, r) (fun _ => I).
Proof using All.
  intros Hc. unfold final_ra. apply gives_self. apply gives_if; [intros _; apply gives_step, gives_ret; by apply (calm_final_at (now:=now))|intros _].
  apply gives_if; [intros _|intros _; by apply gives_ret]. eapply gives_bind; [by apply gives_snapshot|]. intros snap c1 r1 ->.
  apply gives_if; [intros _; apply gives_step, gives_ret; by apply (calm_final_at (now:=now))|intros _].
  eapply gives_bind; [by apply encode_services_gives|]. intros enc c2 r2 (Hsafe & H2 & _). apply gives_encoded; [done|done|]. intros p. by apply gives_ret.
Qed.
Lemma resume_advertising_gives link c r : I c -> gives (resume_advertising link now) (c, r) (fun _ => I).
Proof using All.
  intros Hc. unfold resume_advertising. apply gives_self. apply gives_when; [done|]. intros _. apply gives_step, router_changed_gives; [done|]. by apply (calm_ail_state (now:=now)).
Qed.
Lemma solicit_routers_gives link c r : I c -> gives (solicit_routers link now) (c, r) (fun _ => I).
Proof using All.
  intros Hc. unfold solicit_routers. apply gives_self. cbv zeta. apply gives_if; [intros _; by apply gives_ret|intros _]. apply gives_if; [intros _|intros _].
  - apply gives_step. apply gives_next; [apply router_enable_gives; [done|]; by apply (calm_link_same (now:=now))|]. intros. by apply gives_ret.
  - apply gives_if; [intros _|intros _; by apply gives_ret]. destruct (link_address_ok 1 link c ltac:(u_lia) (calm_wf _ Hc)) as [Hb _].
    eapply (gives_bind _ _ _ (fun _ => I)); [|intros; by apply gives_ret]. eapply gives_yields; [apply yields_map_err, icmp_packet_yields; [u_lia|]|done|done].
    apply is_bytes_app. split; [by repeat constructor|done].
Qed.
Lemma begin_own_prefix_gives link c r : I c -> gives (begin_own_prefix link now) (c, r) (fun _ => I).
Proof using All.
  intros Hc. unfold begin_own_prefix. apply gives_self. cbv zeta. apply gives_when; [done|]. intros _. apply gives_next; [apply gives_when; [done|]; intros _; by apply router_changed_gives|].
  intros c1 r1 H1. apply gives_update. apply (calm_insert_on_link (now:=now)); [done|]. apply id_prefix_wf, (rw_identity _ (calm_wf _ Hc)).
Qed.
Lemma tick_pd_gives c r : I c -> gives (tick_pd now) (c, r) (fun _ => I).
Proof using All.
  intros Hc. unfold tick_pd. apply gives_self. apply gives_if; [intros _|intros _; by apply gives_ret]. apply gives_next; [|intros; by apply poll_pd_gives].
  apply gives_when; [done|]. intros _. apply with_pd_gives; [done|done|]. eapply gives_weaken; [apply start_gives; [done|apply (rw_pd _ (calm_wf _ Hc))]|]. by intros ? ? [].
Qed.
Lemma enable_ready_gives ready link c r : I c -> gives (enable_ready ready now link) (c, r) (fun _ => I).
Proof using All. intros Hc. unfold enable_ready. apply gives_self. apply gives_when; [done|]. intros _. by apply router_enable_gives. Qed.
Lemma configure_nat64_gives policy c r : I c -> gives (configure_nat64 policy now) (c, r) (fun _ => I).
Proof using All.
  intros Hc. unfold configure_nat64. apply gives_self. cbv zeta. eapply (gives_bind _ _ _ (fun _ => I)).
  - eapply gives_weaken; [apply (with_nat64_gives Hnow _ _ _ (fun _ => True)); [done|]|by intros ? ? []].
    pose proof (configure_ok policy _ (rw_nat64 _ (calm_wf _ Hc))) as Hcfg. destruct (configure policy (r_nat64 c)) as [[u|x|] s]; [split; [done|apply Hcfg]|destruct Hcfg as [-> _]; apply (rw_nat64 _ (calm_wf _ Hc))|done].
  - intros u c1 r1 H1. apply gives_if; intros _; [by apply gives_ret|by apply router_changed_gives].
Qed.

(** ** Transmitted advertisements *)

Lemma calm_set_withdrawal k n c : I c -> prefix_wf k.2 -> 0 <= n <= 3 -> I (set_withdrawals (<[k := n]> (r_withdrawals c)) c).
Proof using Calm0. intros Hc Hk Hn. apply (calm_withdrawals (now:=now)); [done|]. by apply map_Forall_insert_2, (rw_withdrawals _ (calm_wf _ Hc)). Qed.
Lemma route_sent_calm link c rio : I c -> rio_wf rio -> I (route_sent link now c rio).
Proof using Calm0.
  intros Hc [Hp _]. unfold route_sent. cbv zeta. case_match.
  - apply (calm_unwithdraw (now:=now)). apply (calm_advertised (now:=now)); [done|]. apply map_Forall_insert_2; [done|apply (rw_advertised _ (calm_wf _ Hc))].
  - case_match; [|done]. assert (0 <= default 3 (r_withdrawals c !! (link, rio_prefix rio)) <= 3) as Hn.
    { destruct (r_withdrawals c !! (link, rio_prefix rio)) as [n|] eqn:E; cbn; [|lia]. by destruct (rw_withdrawals _ (calm_wf _ Hc) _ _ E). }
    assert (I (set_withdrawals (<[(link, rio_prefix rio) := sat_sub (default 3 (r_withdrawals c !! (link, rio_prefix rio))) 1]> (r_withdrawals c)) c)) as Hw by (apply calm_set_withdrawal; [done|done|u_lia]).
    case_match; [|done]. apply (calm_advertised (now:=now)); [done|]. apply map_Forall_delete, (rw_advertised _ (calm_wf _ Hw)).
Qed.
Lemma routes_sent_calm link rios c : I c -> Forall rio_wf rios -> I (clean_withdrawals (foldl (route_sent link now) c rios)).
Proof using Calm0.
  intros Hc Hr. assert (I (foldl (route_sent link now) c rios)) as H1.
  { apply (foldl_keeps I); [done|]. intros c1 x Hx Hc1. apply route_sent_calm; [done|]. exact (Forall_In _ _ _ Hr Hx). }
  apply (calm_withdrawals (now:=now)); [done|]. apply forall_filter, (rw_withdrawals _ (calm_wf _ H1)).
Qed.
Lemma solicitation_sent_gives link c r : I c -> gives (solicitation_sent link now) (c, r) (fun _ => I).
Proof using All.
  intros Hc. unfold solicitation_sent. apply gives_self. cbv zeta. apply gives_if; [intros [_ Hn%Z.ltb_lt]%andb_true_iff|intros _; by apply gives_ret].
  destruct (wf_link link c (calm_wf _ Hc)) as [Hs Hm Hrs]. set (n := lk_rs_count (link_state link c)) in *.
  eapply (gives_bind _ _ _ (fun x c' => x = n + 1 /\ c' = c)). { unfold add_chk. destruct (Z.leb_spec (n + 1) u8_max); [by apply gives_lift|u_lia]. }
  intros x c1 r1 [-> ->]. eapply (gives_bind _ _ _ (fun _ c' => c' = c)). { unfold sub_chk. destruct (Z.leb_spec (n + 1) 3); [by apply gives_lift|lia]. }
  intros rest c1 r2 ->. apply gives_update. apply (calm_on_state (now:=now)); [done|]. split; [exact Hs|exact Hm|]. cbn [put_discovery_end put_rs_next put_rs_count lk_rs_count]. lia.
Qed.
End tick_parts.

Section ticking.
Context {R : Type} `{Sampler R} `{!ByteSource R} {now : Z} {c0 : Router} (Hnow : in_time now).
#[local] Abbreviation I := (moved now c0).
#[local] Abbreviation gives := (gives (S:=Router) (R:=R) I).

(** ** Stopping *)

Definition is_stopping (c : Router) : Prop := r_lifecycle c = Stopping \/ r_lifecycle c = Stopped.
Lemma still_stopping c : I c -> r_lifecycle c0 = Stopping -> is_stopping c.
Proof using Type. intros [_ He] Hs. unfold is_stopping. destruct (ev_lifecycle _ _ _ He) as [<-|Hl]; [by left|]. rewrite Hs in Hl. destruct (r_lifecycle c); [done..|by right]. Qed.
Lemma stop_if_done_moved c : I c -> is_stopping c -> I (stop_if_done c).
Proof using Type.
  intros Hc Hs. unfold stop_if_done. case_match; [|done]. apply (calm_lifecycle (now:=now)); [done|]. destruct Hs as [-> | ->]; [by right|by left].
Qed.
Lemma stopping_tick_gives c r : I c -> r_lifecycle c0 = Stopping -> gives (stopping_tick now) (c, r) (fun _ => I).
Proof using All.
  intros Hc Hs. unfold stopping_tick. eapply gives_bind; [apply (gives_collect_state Hnow I); [done|]; intros link c1 r1 _ H1; by apply (final_ra_gives Hnow)|].
  intros out c1 r1 H1. cbv beta in H1. apply gives_step, gives_ret. by apply stop_if_done_moved, still_stopping.
Qed.

(** ** Running *)

Lemma bounded_snapshot_gives link c r : I c -> stopping c0 = false -> gives (bounded_snapshot link now) (c, r) (fun _ => I).
Proof using All.
  intros Hc Hs. pose proof (stays_awake now c0 c (proj2 Hc) Hs) as Ha. unfold bounded_snapshot. apply gives_self. eapply gives_bind; [by apply gives_snapshot|]. intros snap c1 r1 ->.
  apply gives_if; intros _; [|by apply gives_ret]. apply gives_next; [by apply degrade_gives|]. intros c2 r2 H2. apply gives_self.
  eapply gives_weaken; [by apply gives_snapshot|]. by intros x c' ->.
Qed.
Lemma encode_or_degrade_gives link snap c r : I c -> stopping c0 = false -> gives (encode_or_degrade link snap now) (c, r) (fun _ => I).
Proof using All.
  intros Hc Hs. unfold encode_or_degrade. eapply gives_bind; [by apply (encode_services_gives Hnow)|]. intros enc c1 r1 (Hsafe & H1 & _). pose proof (stays_awake now c0 c1 (proj2 H1) Hs) as Ha.
  destruct enc as [p|[]|]; [by apply gives_ret|by apply gives_throw..| |done]. apply gives_next; [by apply degrade_gives|]. intros c2 r2 H2. apply gives_self.
  eapply gives_bind; [by apply gives_snapshot|]. intros snap' c3 r3 ->. eapply gives_bind; [by apply (encode_services_gives Hnow)|]. intros enc c4 r4 (Hsafe' & H4 & _).
  destruct enc as [p|x|]; [by apply gives_lift|exact H4|done].
Qed.
Lemma advertise_link_gives link c r : I c -> stopping c0 = false -> gives (advertise_link link now) (c, r) (fun _ => I).
Proof using All.
  intros Hc Hs. unfold advertise_link. apply gives_self. apply gives_if; [intros _; by apply gives_ret|intros _]. eapply gives_bind; [by apply bounded_snapshot_gives|]. intros snap c1 r1 H1. cbv beta in H1.
  apply gives_if; intros _; [|by apply gives_ret]. eapply gives_bind; [by apply encode_or_degrade_gives|]. intros p c2 r2 H2. by apply gives_ret.
Qed.
Lemma tick_link_gives link c r : I c -> stopping c0 = false -> gives (tick_link now link) (c, r) (fun _ => I).
Proof using All.
  intros Hc Hs. unfold tick_link. apply gives_self. apply gives_if; [intros _; by apply gives_ret|intros _]. apply gives_next; [by apply (resume_advertising_gives Hnow)|]. intros c1 r1 H1.
  eapply gives_bind; [by apply (solicit_routers_gives Hnow)|]. intros rs c2 r2 H2. cbv beta in H2. apply gives_next; [by apply (begin_own_prefix_gives Hnow)|]. intros c3 r3 H3.
  eapply gives_bind; [by apply advertise_link_gives|]. intros ra c4 r4 H4. by apply gives_ret.
Qed.
Lemma start_running_moved c : I c -> I (start_running c).
Proof using Type. intros Hc. unfold start_running. case_match eqn:E; [|done]. apply (calm_lifecycle (now:=now)); [done|]. rewrite !andb_true_iff in E. destruct E as [[->%bool_decide_eq_true _] _]. by right. Qed.
Lemma reap_owned_moved c : I c -> I (reap_owned now c).
Proof using Type.
  intros Hc. apply moved_owned; [done|apply forall_filter, (rw_owned _ (proj1 Hc))|]. apply owned_subset, map_filter_subseteq.
Qed.
Lemma tick_running_gives c r : I c -> stopping c0 = false -> gives (tick_running now) (c, r) (fun _ => I).
Proof using All.
  intros Hc Hs. unfold tick_running. apply gives_self. apply gives_next; [apply gives_when; [done|]; intros _|].
  { apply gives_next; [by apply finish_attachment_gives|]. intros c1 r1 H1. apply gives_step. assert (I (live_ulas now c1)) as H2 by by apply (live_ulas_calm Hnow).
    apply with_pd_gives; [done|done|]. apply advance_gives; [done|apply (rw_pd _ (proj1 H2))]. }
  intros c1 r1 H1. do 2 apply gives_step. assert (I (reap_hints now (reap_exports now c1))) as H2 by by apply (calm_hints (now:=now)), (reap_exports_calm (now:=now)).
  apply gives_next; [by apply sync_pd_gives|]. clear c r Hc c1 r1 H1 H2. intros c r Hc. apply gives_self. cbv zeta. set (ready := fun link => _).
  eapply gives_bind; [by apply (tick_dad_gives Hnow)|]. intros dad c1 r1 H1. cbv beta in H1. apply gives_next.
  { apply gives_for_each; [done|]. intros link c2 r2 _ H2. by apply (enable_ready_gives Hnow). }
  clearbody ready. clear c r Hc c1 r1 H1. intros c r Hc. apply gives_step. apply start_running_moved in Hc. set (c1 := start_running c) in *. clearbody c1. clear c. apply gives_self. cbv zeta.
  pose proof (stub_routes_wf now c1 (proj1 Hc)) as Hprior. set (prior := stub_routes now c1) in *. clearbody prior. set (lifetime := default_lifetime now c1). clearbody lifetime.
  eapply gives_bind; [by apply (tick_neighbors_gives Hnow)|]. intros nd c2 r2 H2. cbv beta in H2. apply gives_next; [by apply reconcile_exports_gives|]. intros c3 r3 H3. apply gives_self.
  apply gives_next; [by apply (default_changed_gives Hnow)|]. clear c1 r Hc c2 r2 H2 c3 r3 H3. intros c r Hc. do 5 apply gives_step.
  assert (I (reap_owned now (reap_headers now (reap_routes now (reap_on_link now (reap_suppliers now c)))))) as H1.
  { by apply reap_owned_moved, (calm_headers (now:=now)), (reap_routes_calm (now:=now)), (reap_on_link_calm (now:=now)), (reap_suppliers_calm (now:=now)). }
  set (c1 := reap_owned _ _) in *. clearbody c1. eapply gives_bind; [apply (gives_collect_state Hnow I); [done|]; intros link c2 r2 _ H2; by apply tick_link_gives|].
  intros ra c2 r2 H2. cbv beta in H2. eapply gives_bind; [by apply (tick_pd_gives Hnow)|]. intros pd c3 r3 H3. by apply gives_ret.
Qed.
Lemma tick_gives r : router_wf c0 -> gives (tick now) (c0, r) (fun _ => I).
Proof using All.
  intros Hc. pose proof (moved_refl now c0 Hc) as Hm. unfold tick. eapply (gives_bind _ _ _ (fun _ c' => I c' /\ r_lifecycle c' = r_lifecycle c0)).
  { apply gives_field. destruct (sel_expire_ok now _ (rw_nat64 _ Hc)) as (s & -> & Hs & _). split; [by apply (calm_nat64 (now:=now))|done]. }
  intros u c1 r1 [H1 E1]. apply gives_self. rewrite E1.
  destruct (r_lifecycle c0) eqn:E; [..|by apply stopping_tick_gives|by apply gives_ret]; (apply tick_running_gives; [done|]; unfold stopping; by rewrite E).
Qed.

(** ** Transmissions *)

Lemma probe_lost_gives tx c r : I c -> is_bytes (tx_packet tx) -> gives (probe_lost tx now) (c, r) (fun _ => I).
Proof using All.
  intros Hc Hb. unfold probe_lost. pose proof (envelope_safe RawIpv6 _ Hb) as Hs. destruct (envelope RawIpv6 (tx_packet tx)) as [e|x|] eqn:Ee; [|by apply gives_ret|done].
  apply gives_if; [intros _; by apply gives_ret|intros _]. pose proof (envelope_Ok _ _ _ Hb Ee) as He. pose proof (decode_nd_safe e He) as Hd. destruct (decode_nd e) as [nd|x|] eqn:En; [|by apply gives_ret|done].
  apply gives_if; [intros _; by apply gives_ret|intros Hk%negb_false_iff%Z.eqb_eq]. eapply (gives_bind _ _ _ (fun _ c' => c' = c)); [eapply gives_yields; [apply nd_target_yields; [by eapply decode_nd_ok|by left]|done|done]|].
  intros target c1 r1 ->. apply gives_self. destruct (r_owned c !! (tx_link tx, target)) as [a|] eqn:E; [|by apply gives_ret]. apply gives_when; [done|]. intros Ht%bool_decide_eq_true. apply gives_update.
  destruct (rw_owned _ (proj1 Hc) _ _ E). apply moved_insert_owned; [done|by split| |by intros [_ ?]]. intros [?|[[_ ?] _]]; [cbn in *; congruence|done].
Qed.
Lemma final_sent_moved link c : I c -> I (final_sent link c).
Proof using Type.
  intros Hc. unfold final_sent. case_bool_decide as Hs; [|done]. apply stop_if_done_moved; [|by left]. apply (calm_final_at (now:=now)); [done|].
  destruct (rw_final _ (proj1 Hc)). destruct link; cbn [at_link]; u_lia.
Qed.
Lemma prefix_sent_moved link c p : I c -> pio_wf p -> I (prefix_sent link now c p).
Proof using Type.
  intros Hc [Hp _]. unfold prefix_sent. cbv zeta. set (c1 := if bool_decide _ then _ else _). assert (I c1) as H1.
  { unfold c1. case_match; [by apply (calm_link_same (now:=now))|]. apply (calm_pd_prefixes (now:=now)); [done|]. intros q o Ho. assert (is_Some (r_pd_prefixes c !! q)) as [o' Ho'] by (eapply lookup_alter_is_Some; by eexists). exact (rw_pd_prefixes _ (proj1 Hc) _ _ Ho'). }
  clearbody c1. set (c2 := set_on_link _ c1). assert (I c2) as H2 by by apply (calm_insert_on_link (now:=now)). clearbody c2. case_match; [|done].
  case_match; [done|]. apply moved_insert_owned; [done|split; [apply id_address_u128; [apply (rw_identity _ (proj1 H2))|exact Hp]|cbn; lia|]| |by intros [_ ?]]; [by intros q [= <-]|]. by intros [?|[[_ ?] _]].
Qed.
Lemma advertisement_sent_gives link nd c r : I c -> nd_wf nd -> gives (advertisement_sent link nd now) (c, r) (fun _ => I).
Proof using All.
  intros Hc Hnd. unfold advertisement_sent. apply gives_step. apply (final_sent_moved link) in Hc. set (c1 := final_sent link c) in *. clearbody c1. clear c.
  apply gives_next; [by apply (services_transmitted_gives Hnow)|]. clear c1 Hc. intros c r' Hc. apply gives_next; [by apply router_sent_gives|]. clear c Hc. intros c r2 Hc. apply gives_step.
  set (c1 := if bool_decide _ then _ else c). assert (I c1) as H1 by (unfold c1; case_match; [by apply (calm_link_same (now:=now))|done]). clearbody c1.
  eapply (gives_bind _ _ _ (fun l c' => c' = c1 /\ Forall pio_wf l)); [eapply gives_yields; [apply pio_options_yields, Hnd|done|done]|]. intros pios c2 r3 [-> Hp]. apply gives_step.
  set (c2 := if _ && _ then _ else c1). assert (I c2) as H2 by (unfold c2; case_match; [by apply (calm_link_same (now:=now))|done]). clearbody c2.
  eapply (gives_bind _ _ _ (fun l c' => c' = c2 /\ Forall rio_wf l)); [eapply gives_yields; [apply rio_options_yields, Hnd|done|done]|]. intros rios c3 r4 [-> Hr]. apply gives_step.
  assert (I (clean_withdrawals (foldl (route_sent link now) c2 rios))) as H3 by by apply (routes_sent_calm (now:=now)). set (c3 := clean_withdrawals _) in *. clearbody c3. apply gives_update.
  apply (foldl_keeps I); [done|]. intros c4 p Hin H4. apply prefix_sent_moved; [done|]. exact (Forall_In _ _ _ Hp Hin).
Qed.
Lemma transmitted_gives tx success c r : I c -> is_bytes (tx_packet tx) -> gives (transmitted tx now success) (c, r) (fun _ => I).
Proof using All.
  intros Hc Hb. unfold transmitted. apply gives_if; [intros _; by apply probe_lost_gives|intros _]. pose proof (envelope_safe RawIpv6 _ Hb) as Hs.
  destruct (envelope RawIpv6 (tx_packet tx)) as [e|x|] eqn:Ee; [|by apply gives_ret|done]. pose proof (envelope_Ok _ _ _ Hb Ee) as He. pose proof (decode_nd_safe e He) as Hd.
  destruct (decode_nd e) as [nd|x|] eqn:En; [|by apply gives_ret|done]. apply gives_next; [apply gives_when; [done|]; intros _; by apply (solicitation_sent_gives Hnow)|].
  intros c1 r1 H1. apply gives_when; [done|]. intros _. apply advertisement_sent_gives; [done|]. by eapply decode_nd_ok.
Qed.
End ticking.

(** ** What the driver asks of the router *)

(** What an interface says of itself, its name and index apart. *)
Record LinkInfo := mkLinkInfo { if_kind : FrameKind; if_mtu : Z; if_mac : option bytes }.
Inductive router_event :=
| EvInterface (link : Link) (info : LinkInfo)
| EvStart
| EvFrame (link : Link) (kind : FrameKind) (frame : bytes)
| EvOutput (tx : Tx)
| EvSent (tx : Tx) (success : bool)
| EvLink (link : Link) (up : bool)
| EvServices (resolvers : list Z) (ipv4 : option Z) (translator : bool)
| EvPrepare
| EvPolicy (policy : Policy)
| EvAttachment (policy : UlaPolicy) (configured : option bytes)
| EvShutdown
| EvTick.

Section runs.
Context {R : Type} `{Sampler R} `{!ByteSource R}.
Abbreviation MR := (M (Router * R) io_error).
Definition set_interface (link : Link) (info : LinkInfo) : MR unit :=
  if if_mtu info <? 1280 then throw OtherError else
  update (on_state link (fun s =>
    let s := put_mtu (if_mtu info) (put_kind (if_kind info) s) in
    match if_mac info with Some mac => put_mac (Some mac) s | None => s end)).
Definition start_router (now : Z) : MR (list Tx) :=
  update (set_lifecycle Starting) ;;
  collect both_links (fun l => r ← self; tx ← begin_dad l (link_local_of l r) now; mret [tx]).
Definition prepare_services (now : Z) : MR (list Tx) :=
  r ← self;
  if negb (silenced r) then prepare_service_addresses now else mret [].
Definition quietly (m : MR unit) : MR (list Tx) := m ;; mret [].
Definition handle (te : Z * router_event) : MR (list Tx) :=
  let now := te.1 in
  match te.2 with
  | EvInterface link info => quietly (set_interface link info)
  | EvStart => start_router now
  | EvFrame link kind frame => receive_frame link kind frame now
  | EvOutput tx => resolve_output tx now
  | EvSent tx success => quietly (transmitted tx now success)
  | EvLink link up => quietly (set_link link up now)
  | EvServices resolvers ipv4 translator => quietly (service_inventory resolvers ipv4 translator now)
  | EvPrepare => prepare_services now
  | EvPolicy policy => quietly (configure_nat64 policy now)
  | EvAttachment policy configured => quietly (configure_attachment policy configured now)
  | EvShutdown => quietly (shutdown now)
  | EvTick => tick now
  end.
End runs.

Definition event_ok (te : Z * router_event) : Prop :=
  in_time te.1 /\
  match te.2 with
  | EvInterface _ info => forall m, if_mac info = Some m -> mac_ok m
  | EvFrame _ _ frame => is_bytes frame
  | EvOutput tx | EvSent tx _ => is_bytes (tx_packet tx)
  | _ => True
  end.
(** The lifecycle that starting and stopping set; every other change is a [lifecycle_step]. *)
Definition entered (te : Z * router_event) (c : Router) : Router :=
  match te.2 with
  | EvStart => set_lifecycle Starting c
  | EvShutdown => if stopping c then c else set_lifecycle Stopping c
  | _ => c
  end.

Section handling.
Context {R : Type} `{Sampler R} `{!ByteSource R}.
Lemma wf_set_lifecycle l c : router_wf c -> router_wf (set_lifecycle l c).
Proof using Type. intros Hc. by replace_part. Qed.
Lemma shutdown_gives now c r : in_time now -> router_wf c -> stopping c = false ->
  gives (R:=R) (moved now (set_lifecycle Stopping c)) (shutdown now) (c, r) (fun _ => moved now (set_lifecycle Stopping c)).
Proof using All.
  intros Hn Hc Hs. unfold shutdown. apply gives_self. rewrite Hs. apply gives_step. pose proof (moved_refl now _ (wf_set_lifecycle Stopping c Hc)) as H1.
  apply gives_for_each; [exact H1|]. intros link c1 r1 _ Hc1. apply gives_self. apply gives_step. apply router_changed_gives; [done|].
  apply (calm_final_at (now:=now)); [done|]. destruct (link_up link c1); lia.
Qed.
Lemma start_router_gives now c r : in_time now -> router_wf c ->
  gives (R:=R) (moved now (set_lifecycle Starting c)) (start_router now) (c, r) (fun _ => moved now (set_lifecycle Starting c)).
Proof using All.
  intros Hn Hc. unfold start_router. apply gives_step. pose proof (moved_refl now _ (wf_set_lifecycle Starting c Hc)) as H1.
  apply (gives_collect_state Hn (moved now (set_lifecycle Starting c))); [exact H1|]. intros link c1 r1 _ Hc1. apply gives_self.
  eapply gives_bind; [apply (begin_dad_gives Hn); [exact Hc1|]|intros tx c2 r2 [H2 _]; by apply gives_ret].
  apply id_address_u128; [apply (rw_identity _ (proj1 Hc1))|]. apply (prefix_net64 fe80). unfold fe80. u_lia.
Qed.
Lemma quietly_gives (I : Router -> Prop) (m : M (Router * R) io_error unit) c r : gives I m (c, r) (fun _ => I) -> gives I (quietly m) (c, r) (fun _ => I).
Proof using Type. intros Hm. unfold quietly. eapply gives_bind; [exact Hm|]. intros. by apply gives_ret. Qed.
Lemma handle_moved te c r : event_ok te -> router_wf c -> gives (R:=R) (moved te.1 (entered te c)) (handle te) (c, r) (fun _ => moved te.1 (entered te c)).
Proof using All.
  intros [Hn Hev] Hc. destruct te as [now ev]. cbn [fst snd] in *. pose proof (moved_refl now c Hc) as Hm. unfold handle, entered. cbn [fst snd].
  destruct ev; cbn [snd] in Hev |- *.
  - apply quietly_gives. unfold set_interface. apply gives_if; [intros _; by apply gives_throw|intros _]. apply gives_update.
    apply (calm_on_state (now:=now)); [done|]. destruct (wf_link link c Hc). cbv zeta. destruct (if_mac info) as [m|]; split; try done.
  - by apply start_router_gives.
  - by apply receive_frame_gives.
  - by apply resolve_output_gives.
  - apply quietly_gives. by apply transmitted_gives.
  - apply quietly_gives. by apply router_set_link_gives.
  - apply quietly_gives. by apply service_inventory_gives.
  - unfold prepare_services. apply gives_self. apply gives_if; [intros Hs%negb_true_iff|intros _; by apply gives_ret].
    eapply gives_weaken; [apply (prepare_service_addresses_gives Hn)|by intros ? ? []]. split; [done|]. unfold silenced, stopping, is_one_of in *.
    apply bool_decide_eq_false in Hs. apply bool_decide_eq_false. set_solver.
  - apply quietly_gives. by apply configure_nat64_gives.
  - apply quietly_gives. by apply configure_attachment_gives.
  - apply quietly_gives. destruct (stopping c) eqn:Hs; [|by apply shutdown_gives]. unfold shutdown. apply gives_self. rewrite Hs. by apply gives_ret.
  - by apply tick_gives.
Qed.
(** The same, over the states before and after. *)
Lemma handle_step te c r o c' r' : event_ok te -> router_wf c -> handle (R:=R) te (c, r) = (o, (c', r')) -> safe o /\ moved te.1 (entered te c) c'.
Proof using All. intros He Hc E. pose proof (handle_moved te c r He Hc) as Hg. unfold gives in Hg. rewrite E in Hg. by destruct o. Qed.
Lemma run_step te evs (c : Router) (r : R) st : event_ok te -> router_wf c -> run_all handle (te :: evs) (c, r) = Some st ->
  exists c1 r1, moved te.1 (entered te c) c1 /\ run_all handle evs (c1, r1) = Some st.
Proof using All.
  intros He Hc. cbn [run_all]. destruct (handle te (c, r)) as [o [c1 r1]] eqn:E. destruct (handle_step te c r o c1 r1 He Hc E) as [Hs Hm]. intros Hrun. exists c1, r1. split; [done|].
  destruct o; [exact Hrun|exact Hrun|done].
Qed.
(** Induction over a history. *)
Lemma run_ind (ok : Z * router_event -> Prop) (J : Router -> Prop) evs (c c' : Router) (r r' : R) : (forall te c c1, ok te -> J c -> moved te.1 (entered te c) c1 -> J c1) ->
  Forall (fun te => event_ok te /\ ok te) evs -> router_wf c -> J c -> run_all handle evs (c, r) = Some (c', r') -> J c' /\ router_wf c'.
Proof using All.
  intros Hstep Hevs. revert c r. induction Hevs as [|te evs [He Hok] _ IH]; intros c r Hc HJ Hrun; [by injection Hrun as -> ->|].
  apply run_step in Hrun as (c1 & r1 & Hm & Hrun); [|done|done]. eapply IH; [apply Hm| |exact Hrun]. by eapply Hstep.
Qed.
End handling.
