(* ===== verification/RouterFacts.v ===== *)
(** What the router promises over its histories: it does not panic and keeps its limits, its
    addresses are probed before they are used, its lifecycle goes one way, and its errors
    are spaced. *)

From S2P Require Import Prelude Effects Time Checksum Wire WireFacts Scheduler Maps Observations Selection SelectionFacts Stateful Dhcp6Wire Pd PdInv Ordered Identity RouterState Routing Delegated Neighbors Announce RouterCore RouterInv RouterParts RouterNeighbors RouterReceive RouterRuns.

(** ** The new router *)

Section beginning.
Context {R : Type} `{Sampler R}.
Lemma new_link_wf now (r r' : R) s : in_time now -> new_link now r = (Ok s, r') -> link_wf s.
Proof.
  intros Hn. unfold new_link, Scheduler.new. cbv [mbind M_bind mret M_ret lift].
  destruct (sample 1000 r) as [[x|e|] r1] eqn:E1; try discriminate. apply sample_range in E1; [|u_lia].
  destruct (add_chk u64_max now x); try discriminate.
  destruct (sample 16000 r1) as [[y|e|] r2] eqn:E2; try discriminate. destruct (add_chk u64_max now y) as [n|?|]; try discriminate.
  intros [= <- <-]. split; cbn; [|done|lia]. by intros l [=].
Qed.
Lemma router_new_wf identity now (r r' : R) c : identity_ok identity -> in_time now -> router_new identity now r = (Ok c, r') -> router_wf c.
Proof.
  intros Hi Hn. unfold router_new. cbv [mbind M_bind mret M_ret lift].
  destruct (selector_new (id_site identity)) as [s|e|] eqn:E1; try discriminate. apply selector_new_inv in E1; [|apply Hi].
  destruct (new_link now r) as [[ail|e|] r1] eqn:E2; try discriminate. apply new_link_wf in E2; [|done].
  destruct (new_link now r1) as [[stub|e|] r2] eqn:E3; try discriminate. apply new_link_wf in E3; [|done].
  intros [= <- <-]. split; unset; try done.
  assert (forall l, is_u128 (id_link_local identity l)) as Hl.
  { intros l. apply id_address_u128; [done|]. apply (prefix_net64 fe80). unfold fe80. u_lia. }
  unfold own_link_local. repeat apply map_Forall_insert_2; try (split; [apply Hl|cbn; lia|done]). by apply map_Forall_empty.
Qed.
End beginning.

Section histories.
Context {R : Type} `{Sampler R} `{!ByteSource R}.

Lemma runs_wf evs c (r : R) : router_wf c -> Forall event_ok evs -> exists c' r', run_all handle evs (c, r) = Some (c', r') /\ router_wf c'.
Proof.
  intros Hc Hevs. destruct (run_all_gives (I:=router_wf) event_ok handle evs (c, r)) as ([c' r'] & Hr & Hw); [|exact Hevs|exact Hc|by exists c', r'].
  intros te c1 r1 He Hc1. eapply gives_larger; [| |exact (handle_moved te c1 r1 He Hc1)]; [by intros c2 []|by intros a c2 []].
Qed.
(** C3. Whatever frames, packets, reports, link changes, services, policies and ticks follow each other, no handler panics, and the invariant holds: neighbors, waiting packets, probes, retired prefixes and evidence stay within their limits. *)
Theorem router_safe identity now0 evs c (r r1 : R) :
  identity_ok identity -> in_time now0 -> router_new identity now0 r = (Ok c, r1) -> Forall event_ok evs ->
  exists c' r', run_all handle evs (c, r1) = Some (c', r') /\ router_wf c' /\
    (forall link, neighbor_count link c' <= 256) /\ pending_count c' <= 64 /\ slen (r_retired_ulas c') <= 16 /\ len (af_frames (r_ail_frames c')) <= 64.
Proof.
  intros Hi Hn Hnew Hevs. apply router_new_wf in Hnew; [|done|done]. destruct (runs_wf evs c r1 Hnew Hevs) as (c' & r' & Hr & Hw).
  exists c', r'. destruct (rw_neighbors _ Hw), (rw_retired _ Hw), (rw_frames _ Hw). split; [exact Hr|]. split; [exact Hw|]. split; [done|]. split; [done|]. split; [done|]. exact H3.
Qed.

(** ** Addresses *)

(** The address at [k] is not in use, and no probe of it ends before [T]. *)
Definition unproven_until (T : Z) (k : Link * Z) (c : Router) : Prop :=
  forall a, r_owned c !! k = Some a -> oa_state a <> Ready /\ (probing a -> exists t, oa_deadline a = Some t /\ T <= t).
Lemma unproven_moved T k now c c' : now < T -> T <= now + 1000 -> unproven_until T k c -> evolves now c c' -> unproven_until T k c'.
Proof.
  intros H1 H2 Hu He a' Hk. split.
  - intros Hr. destruct (ev_proven _ _ _ He k a' Hk (or_introl Hr)) as (a & Ha & Hp). destruct (Hu _ Ha) as [Hn Hd].
    destruct Hp as [|[Hp (t & Ht & Hle)]]; [done|]. destruct (Hd Hp) as (t' & Ht' & Hle'). assert (t' = t) as -> by congruence. lia.
  - intros Hp. destruct (ev_probing _ _ _ He k a' Hk Hp) as [(a & Ha & Hpa & Hd)|(t & Ht & Hle)]; [|exists t; split; [done|lia]].
    rewrite <-Hd. by apply (Hu _ Ha).
Qed.
(** C7. No history shorter than a second makes an address the router's own, unless its probe was under way before: an address is used only a full second after it was announced. *)
Theorem address_probed T k evs c (r : R) c' (r' : R) :
  router_wf c -> unproven_until T k c -> Forall (fun te => event_ok te /\ T - 1000 <= te.1 < T) evs ->
  run_all handle evs (c, r) = Some (c', r') -> address_ready k.1 k.2 c' = false.
Proof.
  intros Hc Hu Hevs Hrun. destruct (run_ind (fun te => T - 1000 <= te.1 < T) (unproven_until T k) evs c c' r r') as [Hu' _]; [|done|done|done|done|].
  - intros te c1 c2 [Hl Hh] Hu1 [_ He]. eapply unproven_moved; [| | |exact He]; [lia|lia|]. unfold entered. destruct te as [t []]; try done. cbn. by case_match.
  - unfold address_ready. destruct k as [link address]. cbn. destruct (r_owned c' !! (link, address)) as [a|] eqn:E; [|done].
    destruct (Hu' _ E). by apply bool_decide_eq_false.
Qed.

(** ** The lifecycle *)

Definition stage (l : Lifecycle) : Z := match l with Starting | Running | AilUnavailable => 0 | Degraded => 1 | Stopping => 2 | Stopped => 3 end.
Lemma step_stage a b : lifecycle_step a b -> stage a <= stage b.
Proof. intros [->|H1]; [lia|]. destruct a, b; cbn in *; try done; lia. Qed.
Definition is_start (te : Z * router_event) : bool := match te.2 with EvStart => true | _ => false end.
(** C8. Once started the router's lifecycle goes one way: no event takes it back from degraded, stopping or stopped, and a router that may only announce withdrawals never offers routes or services again. *)
Theorem lifecycle_one_way evs c (r : R) c' (r' : R) :
  router_wf c -> Forall (fun te => event_ok te /\ is_start te = false) evs -> run_all handle evs (c, r) = Some (c', r') ->
  stage (r_lifecycle c) <= stage (r_lifecycle c') /\ (silenced c = true -> silenced c' = true /\ forwarding c' = false).
Proof.
  intros Hc Hevs Hrun. destruct (run_ind (fun te => is_start te = false) (fun x => stage (r_lifecycle c) <= stage (r_lifecycle x)) evs c c' r r') as [Hs _]; [|done|done|lia|done|].
  - intros te c1 c2 Hte Hs [_ He]. apply ev_lifecycle, step_stage in He. etrans; [exact Hs|]. etrans; [|exact He].
    unfold entered, is_start in *. destruct te as [t []]; try done. cbn. unfold stopping, is_one_of. case_bool_decide as Hl; [done|]. cbn. destruct (r_lifecycle c1); cbn; try lia. set_solver.
  - split; [done|]. unfold silenced, forwarding, is_one_of. rewrite !bool_decide_eq_true. intros Hc0.
    assert (1 <= stage (r_lifecycle c)) as H1 by (destruct (r_lifecycle c); cbn; try lia; set_solver).
    destruct (r_lifecycle c'); cbn in Hs; try lia; split; try (set_solver); done.
Qed.
End histories.

(** ** A history *)

Definition sample_identity : Identity :=
  mkIdentity [97] (mkPrefix 0xfd123456789a00000000000000000000 48) (both 17 34) (both [2; 0; 0; 0; 0; 1] [2; 0; 0; 0; 0; 2]) ([0; 4] ++ replicate 16 64).
Lemma sample_identity_ok : identity_ok sample_identity.
Proof. split; cbn; [u_lia|split; u_lia|]. split; (split; [by apply bytes_check|done]). Qed.
Definition entropy : ScriptedRandom := {| values := replicate 200 5 |}.
Definition sample_router : Router.
Proof. let st := eval vm_compute in (router_new sample_identity 0 entropy) in match st with (Ok ?c, _) => exact c end. Defined.
Lemma sample_router_wf : router_wf sample_router.
Proof.
  apply (router_new_wf sample_identity 0 entropy (snd (router_new sample_identity 0 entropy))); [exact sample_identity_ok|split; vm_compute; congruence|vm_compute; reflexivity].
Qed.
Definition after (evs : list (Z * router_event)) : option (Router * ScriptedRandom) :=
  match router_new sample_identity 0 entropy with (Ok c, r) => run_all handle evs (c, r) | _ => None end.
Lemma router_after_wf evs c r : Forall event_ok evs -> after evs = Some (c, r) -> router_wf c.
Proof.
  intros Hevs. unfold after. destruct (router_new sample_identity 0 entropy) as [[c0|e|] r0] eqn:E; [|done|done].
  apply router_new_wf in E; [|exact sample_identity_ok|split; vm_compute; congruence]. destruct (runs_wf evs c0 r0 E Hevs) as (c' & r' & -> & Hw). by intros [= <- <-].
Qed.
(** The addresses of the links are probed; an infrastructure router advertises itself. *)
Definition early_events : list (Z * router_event) := [(0, EvStart); (500, EvTick)].
Definition settled_events : list (Z * router_event) :=
  [(0, EvStart); (1000, EvTick); (1500, EvFrame Ail RawIpv6 sample_ra); (2000, EvServices [] None false); (2100, EvPrepare)].
Definition stopped_events : list (Z * router_event) := settled_events ++ [(3000, EvShutdown); (3500, EvTick); (4000, EvLink Ail false); (4100, EvTick)].
Ltac check_events := repeat (apply List.Forall_cons; [split; [split; vm_compute; congruence|cbn [snd]; first [exact I|by apply bytes_check]]|]); apply List.Forall_nil.
Lemma settled_ok : Forall event_ok settled_events.
Proof. check_events. Qed.
Lemma stopped_ok : Forall event_ok stopped_events.
Proof. check_events. Qed.
Lemma early_ok : Forall event_ok early_events.
Proof. check_events. Qed.

Lemma router_safe_witness : exists c r1, router_new sample_identity 0 entropy = (Ok c, r1) /\
  exists c' r', run_all handle stopped_events (c, r1) = Some (c', r') /\ router_wf c' /\
    (forall link, neighbor_count link c' <= 256) /\ pending_count c' <= 64 /\ slen (r_retired_ulas c') <= 16 /\ len (af_frames (r_ail_frames c')) <= 64.
Proof.
  do 2 eexists. split; [vm_compute; reflexivity|]. eapply (router_safe sample_identity 0 stopped_events _ entropy); [exact sample_identity_ok|split; vm_compute; congruence|vm_compute; reflexivity|exact stopped_ok].
Defined.
Ltac check_more := repeat (apply List.Forall_cons; [split; [split; [split; vm_compute; congruence|exact I]|first [reflexivity|cbn; lia]]|]); apply List.Forall_nil.
Definition stub_address : Link * Z := (Stub, 0xfe800000000000000000000000000022).
Definition quiet_second : list (Z * router_event) := [(700, EvTick); (999, EvTick)].
Lemma address_probed_witness : exists c r c' r', after early_events = Some (c, r) /\ run_all handle quiet_second (c, r) = Some (c', r') /\
  is_Some (r_owned c !! stub_address) /\ address_ready stub_address.1 stub_address.2 c' = false.
Proof.
  assert ((fun st => r_owned st.1 !! stub_address) <$> after early_events = Some (Some (mkOwnedAddress true None Tentative (Some 1000) 1))) as Ea by (vm_compute; reflexivity).
  assert (is_Some (after early_events ≫= run_all handle quiet_second)) as [[c' r'] Er] by (vm_compute; by eexists).
  destruct (after early_events) as [[c r]|] eqn:E; [|done]. injection Ea as Ea. exists c, r, c', r'. split; [done|]. split; [exact Er|]. split; [by rewrite Ea|].
  refine (address_probed 1000 stub_address quiet_second c r c' r' (router_after_wf _ c r early_ok E) _ _ Er).
  - intros a Ha. rewrite Ea in Ha. injection Ha as <-. split; [done|]. intros _. exists 1000. split; [done|lia].
  - check_more.
Defined.
Definition closing_events : list (Z * router_event) := [(0, EvStart); (500, EvShutdown)].
Definition closed_events : list (Z * router_event) := [(700, EvTick); (999, EvLink Ail false)].
Lemma closing_ok : Forall event_ok closing_events.
Proof. check_events. Qed.
Lemma lifecycle_one_way_witness : exists c r c' r', after closing_events = Some (c, r) /\ silenced c = true /\ run_all handle closed_events (c, r) = Some (c', r') /\
  stage (r_lifecycle c) <= stage (r_lifecycle c') /\ (silenced c = true -> silenced c' = true /\ forwarding c' = false).
Proof.
  assert ((fun st => silenced st.1) <$> after closing_events = Some true) as Ea by (vm_compute; reflexivity).
  assert (is_Some (after closing_events ≫= run_all handle closed_events)) as [[c' r'] Er] by (vm_compute; by eexists).
  destruct (after closing_events) as [[c r]|] eqn:E; [|done]. injection Ea as Ea. exists c, r, c', r'. split; [done|]. split; [exact Ea|]. split; [exact Er|].
  refine (lifecycle_one_way closed_events c r c' r' (router_after_wf _ c r closing_ok E) _ Er). check_more.
Defined.
