(* ===== verification/ForwardFacts.v ===== *)
(** Forwarding: packets that pass, the errors sent for those that do not and how often, and
    the choice of the route. *)

From S2P Require Import Prelude Effects Time Checksum Wire WireFacts Scheduler Maps Observations Selection SelectionFacts Stateful Dhcp6Wire Pd PdInv Ordered Identity RouterState Routing Delegated Neighbors Announce RouterCore RouterInv RouterParts RouterNeighbors RouterReceive RouterRuns RouterFacts.

(** ** Errors *)

(** A global unicast address, or another that errors may be sent to. *)
Definition answerable (a : Z) : Prop := unroutable a = false.
Lemma error_source_in link c source : error_source link c = Some source -> exists a, r_owned c !! (link, source) = Some a /\ oa_state a = Ready /\ link_local source = false.
Proof.
  unfold error_source. set (l := List.filter _ _). destruct l as [|[[l0 a0] o] rest] eqn:E; [done|]. intros [= <-].
  assert (In ((l0, a0), o) l) as Hin by (rewrite E; by left). unfold l in Hin. apply filter_In in Hin as [Hin%sorted_in Hf]. cbn in *.
  rewrite !andb_true_iff, negb_true_iff, !bool_decide_eq_true in Hf. destruct Hf as [[-> Hs] Hl]. by exists o.
Qed.
Lemma error_source_some link c k a : r_owned c !! (link, k) = Some a -> oa_state a = Ready -> link_local k = false -> is_Some (error_source link c).
Proof.
  intros Hk Hs Hl. unfold error_source. set (l := List.filter _ _). assert (In ((link, k), a) l) as Hin.
  { unfold l. apply filter_In. split; [by apply sorted_in|]. cbn. rewrite Hl, !bool_decide_eq_true_2; done. }
  destruct l as [|[[? ?] ?] ?]; [done|]. by eexists.
Qed.
Lemma is_icmp_error_not_err e x : is_icmp_error e <> Err x.
Proof. unfold is_icmp_error. by destruct (transport e). Qed.

Section errors.
Context {R : Type} `{Sampler R} `{!ByteSource R}.
(** C23. An ICMPv6 error that is due goes to the source of the packet, from a ready address of the link, with the type, code and value asked for, as much of the packet as fits the least MTU, and a checksum that verifies; the next one waits a tenth of a second. *)
Theorem icmp_error_sent link e kind code value now c (r : R) k a : in_time now -> router_wf c -> envelope_wf e -> is_u8 kind -> is_u8 code ->
  expired now (r_error_after c) -> answerable (e_source e) -> is_multicast6 (e_destination e) = false -> is_icmp_error e = Ok false ->
  r_owned c !! (link, k) = Some a -> oa_state a = Ready -> link_local k = false ->
  exists source ck pkt, icmp_error link e kind code value now (c, r) = (Ok [mkTx link pkt], (set_error_after (Some (now + 100)) c, r)) /\
    address_ready link source c = true /\ link_local source = false /\ len pkt <= 1280 /\
    let body := [kind; code] ++ be16 ck ++ be32 value ++ take 1232 (e_packet e) in
    envelope RawIpv6 pkt = Ok (mkEnvelope pkt body source (e_source e) 58 64) /\ checksum source (e_source e) 58 body = 0.
Proof.
  intros Hn Hc He Hk Hco Hx Ha Hd Hi Ho Hs Hl. destruct (error_source_some _ _ _ _ Ho Hs Hl) as [source Esrc].
  destruct (error_source_in _ _ _ Esrc) as (o & Eo & Hso & Hlo). pose proof (ow_address _ _ (rw_owned _ Hc _ _ Eo)) as Hu. cbn in Hu.
  unfold icmp_error. rewrite self_run. unfold answerable, unroutable in Ha. rewrite !orb_false_iff in Ha. destruct Ha as [[[-> ->] ->] ->]. rewrite Hd, Hi, Esrc.
  assert (match r_error_after c with Some t => now <? t | None => false end = false) as -> by (destruct (r_error_after c) as [t|]; [apply Z.ltb_ge, Hx|]; done).
  cbn [orb andb]. rewrite lift_run. cbn iota. destruct He as (Hp & _ & _ & _ & Hes & _). pose proof (len_nonneg (e_packet e)) as Hnn.
  assert (slice (E:=io_error) (e_packet e) 0 (Z.min (len (e_packet e)) 1232) = Ok (take 1232 (e_packet e))) as ->.
  { apply slice_Ok. split; [lia|]. rewrite sub_to. destruct (Z.le_ge_cases (len (e_packet e)) 1232).
    - rewrite Z.min_l, !take_ge by (unfold len in *; lia). done.
    - by rewrite Z.min_r by lia. }
  set (q := take 1232 (e_packet e)). assert (is_bytes q) as Hq by by apply Forall_take. assert (len q <= 1232) as Hlq by (unfold q; rewrite len_take; lia). pose proof (len_nonneg q).
  rewrite lift_run. assert (add_chk u64_max now 100 = Ok (E:=io_error) (now + 100)) as -> by (apply add_chk_Ok; unfold in_time, longest_wait in *; lia).
  rewrite lift_run, update_run. set (body := [kind; code; 0; 0] ++ be32 value ++ q).
  assert (is_bytes body) as Hb. { unfold body. apply is_bytes_app. split; [bytes_tac|]. apply is_bytes_app. split; [apply is_bytes_be|done]. }
  assert (len body = 8 + len q) as Hlb by (unfold body, be32; rewrite !len_app, len_be; change (len [kind; code; 0; 0]) with 4; lia).
  destruct (icmp_packet_fits source (e_source e) 64 body ltac:(u_lia) Hb ltac:(u_lia)) as (pkt & Epkt & Hpb). rewrite Epkt. cbn [expect].
  destruct (icmp_packet_Ok _ _ _ _ _ Hb Epkt) as (_ & ck & Hck & Hsum & Hpkt). destruct (envelope_ipv6_packet _ _ _ _ _ _ Hu Hes Hpkt) as [Henv Hlen].
  rewrite len_put in Hlen by (unfold be16; rewrite ?len_be; lia). assert (put body 2 (be16 ck) = [kind; code] ++ be16 ck ++ be32 value ++ q) as Eput by reflexivity. rewrite Eput in *.
  exists source, ck, pkt. split; [done|]. split; [|split; [done|split; [lia|by split]]]. unfold address_ready. rewrite Eo. by apply bool_decide_eq_true.
Qed.

(** Errors and echo replies are spaced: while one is less than a tenth of a second old, whatever happens in between, no error is sent for any packet. *)
Theorem errors_spaced evs c (r : R) c' (r' : R) t : router_wf c -> r_error_after c = Some t -> Forall (fun te => event_ok te /\ te.1 < t) evs ->
  run_all handle evs (c, r) = Some (c', r') ->
  r_error_after c' = Some t /\ forall link e kind code value now, now < t -> icmp_error link e kind code value now (c', r') = (Ok [], (c', r')).
Proof.
  intros Hc Ht Hevs Hrun. destruct (run_ind (fun te => te.1 < t) (fun x => r_error_after x = Some t) evs c c' r r') as [Hs _]; [|done|done|done|done|].
  - intros te c1 c2 Hte Hs [_ He]. assert (r_error_after (entered te c1) = Some t) as E by (unfold entered; destruct te as [? []]; try done; cbn; by case_match).
    destruct (ev_error _ _ _ He) as [->|[Hx _]]; [done|]. specialize (Hx t E). lia.
  - split; [done|]. intros link e kind code value now Hnow. unfold icmp_error. rewrite self_run, Hs. by destruct (Z.ltb_spec now t); [|lia].
Qed.
End errors.

(** ** The choice of the route *)

(** The route at [k] is at least as good as the one at [k']: longer, or as long and through a
    reachable router, or of higher preference, or of a lower address. *)
Definition preferred_route (now : Z) (c : Router) (k k' : Z * Prefix) (v v' : Route) : Prop :=
  let up x := reachable (mkRouterKey Ail x) now c in
  p_length k'.2 < p_length k.2 \/
  p_length k'.2 = p_length k.2 /\
    (up k'.1 = false /\ up k.1 = true \/
     up k'.1 = up k.1 /\
       (preference_rank (rt_preference v') < preference_rank (rt_preference v) \/
        rt_preference v' = rt_preference v /\ k.1 <= k'.1)).
Lemma preferred_rank now c k k' v v' : route_ge now c (k, v) (k', v') = true -> preferred_route now c k k' v v'.
Proof.
  unfold route_ge, route_rank, preferred_route. cbv zeta. cbn [fst snd]. generalize (reachable (mkRouterKey Ail k.1) now c) (reachable (mkRouterKey Ail k'.1) now c). intros b b'.
  unfold key_le, pair_ordered, key_le, pair_ordered, key_le, pair_ordered, key_le, Z_ordered. cbn [fst snd].
  destruct b, b', (rt_preference v), (rt_preference v'); cbn [of_bool preference_rank];
    destruct (Z.leb_spec (p_length k'.2) (p_length k.2)), (Z.leb_spec (p_length k.2) (p_length k'.2)); cbn; try discriminate; try (intros _; lia); intros Hk;
    first [left; lia|right; split; [lia|]]; first [left; by split|right; split; [done|]]; first [left; lia|right; split; [done|lia]].
Qed.
(** C24. For a destination off the link the next hop is the router of the longest usable route to it, a reachable router before another, then the higher preference and the lower address; there is none only when no usable route leads there. *)
Theorem next_hop_best destination now c : link_local destination = false -> is_multicast6 destination = false -> on_link_live Ail destination now c = false ->
  match egress_next_hop Ail destination now c with
  | None => forall k v, r_routes c !! k = Some v -> contains k.2 destination = true -> usable_route k.1 v now c = false
  | Some a => exists p v, r_routes c !! (a, p) = Some v /\ contains p destination = true /\ usable_route a v now c = true /\
      forall k' v', r_routes c !! k' = Some v' -> contains k'.2 destination = true -> usable_route k'.1 v' now c = true -> preferred_route now c (a, p) k' v v'
  end.
Proof.
  intros Hl Hm Ho. unfold egress_next_hop. rewrite Hl, Hm, Ho. cbn [orb]. rewrite bool_decide_eq_false_2 by done.
  assert (forall k v, r_routes c !! k = Some v -> contains k.2 destination = true -> usable_route k.1 v now c = true ->
    In (k, v) (List.filter (fun kr : (Z * Prefix) * Route => contains kr.1.2 destination && usable_route kr.1.1 kr.2 now c) (sorted (r_routes c)))) as Hin.
  { intros k v Hk H1 H2. apply filter_In. split; [by apply sorted_in|]. cbn. by rewrite H1, H2. }
  unfold best_route. destruct (max_by _ _) as [[[a p] v]|] eqn:E; cbn.
  - pose proof (max_by_in _ _ _ E) as [Hs%sorted_in [Hc Hu]%andb_true_iff]%filter_In. exists p, v. do 3 (split; [done|]). intros k' v' Hk H1 H2.
    apply preferred_rank. eapply max_by_greatest; [| |exact E|by apply Hin].
    + intros x y. unfold route_ge. apply key_total.
    + intros x y z. unfold route_ge. intros H3 H4. by eapply key_trans.
  - intros k v Hk H1. destruct (usable_route k.1 v now c) eqn:Hu; [|done]. pose proof (Hin k v Hk H1 Hu) as H2. by rewrite (max_by_none _ _ E) in H2.
Qed.

(** ** Passing *)

Lemma lookup_other link destination now c egress next : lookup_route link destination now c = Some (egress, next) -> egress <> link.
Proof.
  unfold lookup_route. destruct (on_link_live _ _ _ _), link; cbn; try done; [by intros [= <- <-]|]. destruct (egress_next_hop _ _ _ _); [|done]. by intros [= <- <-].
Qed.
(** A packet whose hop limit is replaced is the same packet otherwise. *)
Lemma envelope_hop b e hop : is_bytes b -> envelope RawIpv6 b = Ok e -> len (e_packet e) = len b -> is_u8 hop ->
  envelope RawIpv6 (put b 7 [hop]) = Ok (mkEnvelope (put b 7 [hop]) (e_payload e) (e_source e) (e_destination e) (e_next_header e) hop).
Proof.
  intros Hb He Hl Hh. pose proof (envelope_Ok _ _ _ Hb He) as (_ & _ & _ & _ & Hs & Hd & _).
  destruct (envelope_shape b e Hb He Hl) as (v0 & v1 & v2 & v3 & Hv & _ & Hp & ->).
  assert (forall h, put (packet6 [v0; v1; v2; v3] (e_next_header e) h (e_source e) (e_destination e) (e_payload e)) 7 [hop] =
    packet6 [v0; v1; v2; v3] (e_next_header e) hop (e_source e) (e_destination e) (e_payload e)) as -> by reflexivity.
  apply envelope_packet6; [by exists v0, v1, v2, v3|done..].
Qed.

Section passing.
Context {R : Type} `{Sampler R}.
Lemma touch_neighbor_run key now c (r : R) : in_time now -> exists c', touch_neighbor key now (c, r) = (Ok tt, (c', r)).
Proof.
  intros Hn. unfold touch_neighbor. rewrite self_run. destruct (r_neighbors c !! key) as [n|]; [|by eexists]. case_match; [|by eexists].
  assert (add_chk u64_max now 5000 = Ok (E:=io_error) (now + 5000)) as -> by (apply add_chk_Ok; unfold in_time, longest_wait in *; lia). by eexists.
Qed.
(** C9. A packet from a routable address to one that the other link or its routers reach, with hops left and within the other link's MTU, leaves on that link once its neighbor is resolved: the same packet with one hop less. *)
Theorem forward_delivers link e egress next now c (r : R) : in_time now -> is_bytes (e_packet e) -> envelope RawIpv6 (e_packet e) = Ok e ->
  forwarding c = true -> unroutable (e_source e) = false -> unroutable (e_destination e) = false ->
  lookup_route link (e_destination e) now c = Some (egress, next) -> 1 < e_hop_limit e -> len (e_packet e) <= lk_mtu (link_state egress c) ->
  unresolved (mkRouterKey egress next) (reap_failed_neighbors now c) = false ->
  exists c' p, forward link e now (c, r) = (Ok [mkTx egress p], (c', r)) /\ egress <> link /\ len p = len (e_packet e) /\
    envelope RawIpv6 p = Ok (mkEnvelope p (e_payload e) (e_source e) (e_destination e) (e_next_header e) (e_hop_limit e - 1)).
Proof.
  intros Hn Hb He Hf Hs Hd Hl Hh Hm Hu. pose proof (envelope_Ok _ _ _ Hb He) as (_ & _ & Hlen & _ & _ & _ & _ & Hhop). pose proof (len_nonneg (e_payload e)).
  unfold forward. rewrite self_run, Hs, Hd, Hl. unfold forwarding in Hf. rewrite !andb_true_iff in Hf. destruct Hf as [[Hrun ->] ->].
  assert (is_one_of [Starting; Stopping; Stopped; Degraded] (r_lifecycle c) = false) as ->.
  { by destruct (r_lifecycle c). }
  assert (bool_decide (link = Stub) && on_link_live Stub (e_destination e) now c = false) as ->.
  { destruct link; [done|]. unfold lookup_route in Hl. by destruct (on_link_live _ _ _ _). }
  cbn [negb orb andb]. destruct (Z.leb_spec (e_hop_limit e) 1); [lia|]. destruct (Z.ltb_spec (lk_mtu (link_state egress c)) (len (e_packet e))); [lia|].
  rewrite update_run, self_run, Hu. destruct (touch_neighbor_run (mkRouterKey egress next) now (reap_failed_neighbors now c) r Hn) as [c' Ht].
  rewrite (bind_moves _ _ _ _ _ Ht). assert (forall E, idx (E:=E) (e_packet e) 7 = Ok (e_hop_limit e)) as Hi by apply (envelope_received RawIpv6 _ _ Hb He).
  rewrite Hi, lift_run. assert (sub_chk (e_hop_limit e) 1 = Ok (E:=io_error) (e_hop_limit e - 1)) as -> by (unfold sub_chk; destruct (Z.leb_spec 1 (e_hop_limit e)); [done|lia]).
  rewrite lift_run. unfold copy_at. change (len [e_hop_limit e - 1]) with 1. destruct (Z.leb_spec (7 + 1) (len (e_packet e))); [|lia]. cbn [Z.leb Z.compare andb]. rewrite lift_run.
  exists c', (put (e_packet e) 7 [e_hop_limit e - 1]). split; [done|]. split; [by eapply lookup_other|]. split; [apply len_put; [lia|change (len [e_hop_limit e - 1]) with 1; lia]|].
  apply envelope_hop; [done|done|done|u_lia].
Qed.

(** What leaves on the other link. *)
Lemma icmp_error_link link e kind code value now (st st' : Router * R) l : icmp_error link e kind code value now st = (Ok l, st') -> Forall (fun tx => tx_link tx = link) l.
Proof.
  destruct st as [c r]. unfold icmp_error. rewrite self_run. case_match; [intros [= <- _]; apply List.Forall_nil|]. intros (s & st1 & _ & Hr)%bind_run_Ok.
  destruct s; [injection Hr as <- _; apply List.Forall_nil|]. destruct (error_source link c); [|injection Hr as <- _; apply List.Forall_nil].
  apply bind_run_Ok in Hr as (q & st2 & _ & Hr). apply bind_run_Ok in Hr as (t & st3 & _ & Hr). apply bind_run_Ok in Hr as (u & st4 & _ & Hr). apply bind_run_Ok in Hr as (p & st5 & _ & [= <- _]).
  by repeat constructor.
Qed.
Lemma probe_link key now (st st' : Router * R) tx : probe key now st = (Ok tx, st') -> tx_link tx = rk_link key.
Proof.
  destruct st as [c r]. unfold probe. rewrite self_run. destruct (r_neighbors c !! key); [|done]. cbv zeta.
  intros (d & st1 & _ & Hr)%bind_run_Ok. apply bind_run_Ok in Hr as (p & st2 & _ & Hr). apply bind_run_Ok in Hr as (u & st3 & _ & Hr). apply bind_run_Ok in Hr as (pkt & st4 & _ & [= <- _]). done.
Qed.
Lemma queue_neighbor_link key pending now (st st' : Router * R) l : queue_neighbor key pending now st = (Ok l, st') -> Forall (fun tx => tx_link tx = rk_link key) l.
Proof.
  destruct st as [c r]. unfold queue_neighbor. rewrite self_run. cbv zeta. case_match; [intros [= <- _]; apply List.Forall_nil|]. rewrite update_run.
  destruct (_ =? 0); [|intros [= <- _]; apply List.Forall_nil]. rewrite update_run, self_run. destruct (link_ready _ _); [|intros [= <- _]; apply List.Forall_nil].
  intros (tx & st1 & Htx & [= <- _])%bind_run_Ok. apply probe_link in Htx. by repeat constructor.
Qed.
(** C10. Nothing of a packet crosses to the other link, neither itself nor a solicitation for its next hop, unless the router forwards, the addresses are routable, the other link or its routers reach the destination, hops are left and the packet is within that link's MTU. *)
Theorem forward_contained link e now (c : Router) (r : R) l st' tx : forward link e now (c, r) = (Ok l, st') -> In tx l -> tx_link tx <> link ->
  forwarding c = true /\ unroutable (e_source e) = false /\ unroutable (e_destination e) = false /\ 1 < e_hop_limit e /\
  len (e_packet e) <= lk_mtu (link_state (tx_link tx) c) /\ exists next, lookup_route link (e_destination e) now c = Some (tx_link tx, next).
Proof.
  assert (forall P l, Forall (fun tx => tx_link tx = link) l -> In tx l -> tx_link tx <> link -> P) as Hno by (intros P l0 Hl Hin Hne; by destruct Hne, (Forall_In _ _ _ Hl Hin)).
  unfold forward. rewrite self_run. destruct (is_one_of _ _ || _ || _ || _ || _) eqn:Hg; [by intros [= <- _]|]. rewrite !orb_false_iff, !negb_false_iff in Hg. destruct Hg as [[[[Hrun Ha] Hs] Hsrc] Hdst].
  case_match; [by intros [= <- _]|]. destruct (lookup_route link (e_destination e) now c) as [[egress next]|] eqn:El; [|intros Hr%icmp_error_link; by apply Hno].
  destruct (Z.leb_spec (e_hop_limit e) 1); [intros Hr%icmp_error_link; by apply Hno|]. destruct (Z.ltb_spec (lk_mtu (link_state egress c)) (len (e_packet e))); [intros Hr%icmp_error_link; by apply Hno|].
  rewrite update_run, self_run. intros Hr Hin Hne. assert (tx_link tx = egress) as ->.
  { case_match; [case_match; [apply icmp_error_link in Hr; by apply (Hno _ l)|apply queue_neighbor_link in Hr; exact (Forall_In _ _ _ Hr Hin)]|].
    apply bind_run_Ok in Hr as (u & st1 & _ & Hr). apply bind_run_Ok in Hr as (h & st2 & _ & Hr). apply bind_run_Ok in Hr as (h' & st3 & _ & Hr). apply bind_run_Ok in Hr as (p & st4 & _ & [= <- _]).
    by destruct Hin as [<-|[]]. }
  split; [|split_and!; try done; by eexists]. unfold forwarding. rewrite Ha, Hs, !andb_true_r. by destruct (r_lifecycle c).
Qed.
End passing.

(** ** At sample states *)

Definition sample_on_stub : Prefix := mkPrefix 0x20010db8000000020000000000000000 64.
Definition sample_far : Prefix := mkPrefix 0x20010db8000000000000000000000000 32.
(** The stub has a prefix and no link-layer addresses, the router an address on the other
    link and a route through a neighbor there. *)
Definition open_router : Router :=
  set_owned (<[(Ail, 0x20010db8000000010000000000000011) := mkOwnedAddress true None Ready None 1]> (r_owned sample_router))
    (set_routes {[ (0xfe800000000000000000000000000001, sample_far) := mkRoute Infinite Medium ]}
      (set_neighbors {[ mkRouterKey Ail 0xfe800000000000000000000000000001 := mkNeighbor None Stale None 0 true None ]}
        (set_on_link (ol_insert (Stub, sample_on_stub) (mkOnLink Infinite Infinite) no_on_link) (on_state Stub (put_kind RawIpv6) sample_router)))).
Lemma wf_set_owned m c : router_wf c -> map_Forall owned_wf m -> router_wf (set_owned m c).
Proof. intros Hc Hm. by replace_part. Qed.
Lemma wf_set_error_after t c : router_wf c -> router_wf (set_error_after t c).
Proof. intros Hc. by replace_part. Qed.
Lemma wf_set_neighbors m c : router_wf c -> neighbors_wf m -> router_wf (set_neighbors m c).
Proof. intros Hc Hm. by replace_part. Qed.
Lemma open_router_wf : router_wf open_router.
Proof.
  assert (prefix_wf sample_far /\ prefix_wf sample_on_stub) as [H1 H2] by (split; (split; [split; vm_compute; discriminate|split; [split; vm_compute; discriminate|reflexivity]])).
  assert (moved 0 sample_router (on_state Stub (put_kind RawIpv6) sample_router)) as H3 by (apply (calm_link_same (now:=0)); [apply moved_refl, sample_router_wf|done]).
  assert (router_wf (set_on_link (ol_insert (Stub, sample_on_stub) (mkOnLink Infinite Infinite) no_on_link) (on_state Stub (put_kind RawIpv6) sample_router))) as H4.
  { refine (proj1 (calm_on_link (now:=0) (I:=moved 0 sample_router) _ _ H3 _)). apply on_link_insert; [split; by apply map_Forall_empty|exact H2]. }
  unfold open_router. apply wf_set_owned; [|apply map_Forall_insert_2; [split; [split; vm_compute; congruence|cbn; lia|done]|apply (rw_owned _ sample_router_wf)]].
  assert (forall c v, router_wf c -> map_Forall (fun k _ => prefix_wf k.2) v -> router_wf (set_routes v c)) as Hr by (intros c v Hc Hv; by replace_part).
  apply Hr; [|by apply map_Forall_singleton]. apply wf_set_neighbors; [exact H4|]. split; [by apply map_Forall_singleton|intros []; vm_compute; congruence|vm_compute; congruence].
Qed.

Definition sample_transit (hop : Z) : bytes := packet6 [0x60; 0; 0; 0] 17 hop 0x20010db8000000010000000000000099 0x20010db8000000020000000000000007 [4; 210; 0; 9; 0; 8; 0; 0].
Definition transit_envelope (hop : Z) : Envelope :=
  mkEnvelope (sample_transit hop) [4; 210; 0; 9; 0; 8; 0; 0] 0x20010db8000000010000000000000099 0x20010db8000000020000000000000007 17 hop.
Lemma transit_ok hop : is_u8 hop -> is_bytes (sample_transit hop) /\ envelope RawIpv6 (sample_transit hop) = Ok (transit_envelope hop).
Proof.
  intros Hh. split; [|apply (envelope_packet6 [0x60; 0; 0; 0] 17 hop); [by exists 0x60, 0, 0, 0|split; vm_compute; congruence|split; vm_compute; congruence|vm_compute; congruence]].
  unfold sample_transit, packet6. rewrite !is_bytes_app. split_and!; try apply is_bytes_be; bytes_tac.
Qed.

Lemma icmp_error_sent_witness : exists source ck pkt,
  icmp_error Ail (transit_envelope 1) 3 0 0 1000 (open_router, entropy) = (Ok [mkTx Ail pkt], (set_error_after (Some (1000 + 100)) open_router, entropy)) /\
  address_ready Ail source open_router = true /\ link_local source = false /\ len pkt <= 1280 /\
  let body := [3; 0] ++ be16 ck ++ be32 0 ++ take 1232 (e_packet (transit_envelope 1)) in
  envelope RawIpv6 pkt = Ok (mkEnvelope pkt body source (e_source (transit_envelope 1)) 58 64) /\ checksum source (e_source (transit_envelope 1)) 58 body = 0.
Proof.
  eapply (icmp_error_sent Ail (transit_envelope 1) 3 0 0 1000 open_router entropy 0x20010db8000000010000000000000011); [split; vm_compute; congruence|exact open_router_wf| |u_lia|u_lia|done|reflexivity|reflexivity|reflexivity|vm_compute; reflexivity|reflexivity|reflexivity].
  destruct (transit_ok 1 ltac:(u_lia)) as [Hb He]. exact (envelope_Ok _ _ _ Hb He).
Defined.
Definition flapping : list (Z * router_event) := [(1050, EvLink Stub false); (1099, EvLink Stub true)].
Lemma errors_spaced_witness : exists c' r', run_all handle flapping (set_error_after (Some 1100) open_router, entropy) = Some (c', r') /\
  r_error_after c' = Some 1100 /\ forall link e kind code value now, now < 1100 -> icmp_error link e kind code value now (c', r') = (Ok [], (c', r')).
Proof.
  assert (is_Some (run_all handle flapping (set_error_after (Some 1100) open_router, entropy))) as [[c' r'] E] by (vm_compute; by eexists).
  exists c', r'. split; [done|]. refine (errors_spaced flapping _ entropy c' r' 1100 (wf_set_error_after (Some 1100) _ open_router_wf) eq_refl _ E). clear.
  repeat (apply List.Forall_cons; [split; [split; [split; vm_compute; congruence|exact I]|cbn; lia]|]); apply List.Forall_nil.
Defined.
Lemma next_hop_best_witness : exists p v, r_routes open_router !! (0xfe800000000000000000000000000001, p) = Some v /\ contains p 0x20010db8000000070000000000000001 = true /\
  usable_route 0xfe800000000000000000000000000001 v 1000 open_router = true /\
  forall k' v', r_routes open_router !! k' = Some v' -> contains k'.2 0x20010db8000000070000000000000001 = true -> usable_route k'.1 v' 1000 open_router = true ->
    preferred_route 1000 open_router (0xfe800000000000000000000000000001, p) k' v v'.
Proof. exact (next_hop_best 0x20010db8000000070000000000000001 1000 open_router eq_refl eq_refl eq_refl). Defined.
Lemma forward_delivers_witness : exists c' p, forward Ail (transit_envelope 64) 1000 (open_router, entropy) = (Ok [mkTx Stub p], (c', entropy)) /\ Stub <> Ail /\ len p = len (e_packet (transit_envelope 64)) /\
  envelope RawIpv6 p = Ok (mkEnvelope p (e_payload (transit_envelope 64)) (e_source (transit_envelope 64)) (e_destination (transit_envelope 64)) (e_next_header (transit_envelope 64)) (e_hop_limit (transit_envelope 64) - 1)).
Proof.
  destruct (transit_ok 64 ltac:(u_lia)) as [Hb He].
  apply (forward_delivers Ail (transit_envelope 64) Stub 0x20010db8000000020000000000000007 1000 open_router entropy); [split; vm_compute; congruence|exact Hb|exact He|reflexivity..|cbn; lia|vm_compute; congruence|vm_compute; reflexivity].
Defined.
Lemma forward_contained_witness : exists l st', forward Ail (transit_envelope 64) 1000 (open_router, entropy) = (Ok l, st') /\ exists tx, In tx l /\ tx_link tx <> Ail /\
  forwarding open_router = true /\ unroutable (e_source (transit_envelope 64)) = false /\ unroutable (e_destination (transit_envelope 64)) = false /\ 1 < e_hop_limit (transit_envelope 64) /\
  len (e_packet (transit_envelope 64)) <= lk_mtu (link_state (tx_link tx) open_router) /\ exists next, lookup_route Ail (e_destination (transit_envelope 64)) 1000 open_router = Some (tx_link tx, next).
Proof.
  assert (fst (forward Ail (transit_envelope 64) 1000 (open_router, entropy)) = Ok [mkTx Stub (sample_transit 63)]) as El by (vm_compute; reflexivity).
  destruct (forward Ail (transit_envelope 64) 1000 (open_router, entropy)) as [o st'] eqn:E. cbn [fst] in El. subst o. do 2 eexists. split; [reflexivity|].
  exists (mkTx Stub (sample_transit 63)). split; [by left|]. split; [done|]. exact (forward_contained Ail (transit_envelope 64) 1000 open_router entropy _ st' (mkTx Stub (sample_transit 63)) E (or_introl eq_refl) ltac:(done)).
Defined.
