(* ===== verification/AnnounceFacts.v ===== *)
(** What the router announces: the budget of routes on the infrastructure link, the routes
    offered to the stub, silence when stopping, and the next deadline. *)

From S2P Require Import Prelude Effects Time Checksum Wire WireFacts Scheduler Maps Observations Selection SelectionFacts Stateful Dhcp6Wire Pd PdInv Ordered Identity RouterState Routing Delegated Neighbors Announce RouterCore RouterInv RouterParts RouterFacts ForwardFacts.

(** ** Sizes *)

Lemma rio_size x y : rio_prefix x = rio_prefix y -> len (rio_encode x) = len (rio_encode y).
Proof. intros E. unfold rio_encode, be32. rewrite E, !len_app, !len_be. done. Qed.
Lemma rio_bytes_app l l' : rio_bytes (l ++ l') = rio_bytes l + rio_bytes l'.
Proof. induction l as [|x l IH]; cbn; [done|]. unfold rio_bytes in *. cbn. lia. Qed.
Lemma rio_bytes_perm l l' : l ≡ₚ l' -> rio_bytes l = rio_bytes l'.
Proof. induction 1; unfold rio_bytes in *; cbn in *; lia. Qed.
Lemma rio_bytes_nonneg l : 0 <= rio_bytes l.
Proof. induction l as [|x l IH]; unfold rio_bytes in *; cbn; [lia|]. pose proof (len_nonneg (rio_encode x)). lia. Qed.

Lemma map_sublist {A B} (f : A -> B) l l' : sublist l l' -> sublist (map f l) (map f l').
Proof. induction 1; cbn; by constructor. Qed.

(** ** The budget of the infrastructure link *)

Definition counted (now : Z) (kv : (Link * Prefix) * Lifetime) : bool := bool_decide (kv.1.1 = Ail) && live kv.2 now.
(** What withdrawing everything announced on the infrastructure link takes. *)
Definition withdrawal_bytes (now : Z) (c : Router) : Z :=
  rio_bytes (map (fun kv : (Link * Prefix) * Lifetime => low_rio kv.1.2 0) (List.filter (counted now) (sorted (r_advertised_routes c)))).

Section budget.
Context (now : Z) (c : Router) (candidates : list Rio).
(** A route of the result: a candidate, or the withdrawal of a route announced before. *)
Definition admissible (x : Rio) : Prop :=
  In x candidates /\ r_withdrawals c !! (Ail, rio_prefix x) = None \/
  x = low_rio (rio_prefix x) 0 /\ exists v, r_advertised_routes c !! (Ail, rio_prefix x) = Some v /\ live v now = true.
Definition named (m : gmap Prefix Rio) : Prop := map_Forall (fun p x => rio_prefix x = p /\ admissible x) m.
Lemma candidates_named l st : (forall x, In x l -> In x candidates) -> named st.2 -> named (foldl (admit_candidate c) st l).2.
Proof.
  revert st. induction l as [|x l IH]; intros [b m] Hl Hm; cbn [foldl]; [done|]. apply IH; [intros y Hy; apply Hl; by right|].
  unfold admit_candidate. destruct (has_key _ _) eqn:E; [done|]. case_match; [|done]. cbn. apply map_Forall_insert_2; [|done]. split; [done|left]. split; [by apply Hl; left|].
  unfold has_key in E. by destruct (r_withdrawals c !! _).
Qed.
(** After the announced routes [l] have been kept: what is left of the budget, of the
    candidates, and the routes so far. *)
Record kept_inv (l : list ((Link * Prefix) * Lifetime)) (b : Z) (m : gmap Prefix Rio) (out : list Rio) : Prop := {
  ki_prefixes : map rio_prefix out = map (fun kv => kv.1.2) (List.filter (counted now) l);
  ki_left : b = Z.max 0 (route_budget Ail - rio_bytes out);
  ki_named : named m;
  ki_admissible : Forall admissible out;
  ki_apart : forall p, In p (map rio_prefix out) -> m !! p = None;
}.
Lemma advertised_kept m0 l : named m0 -> Forall (fun kv => r_advertised_routes c !! kv.1 = Some kv.2) l ->
  let '(b, m, out) := foldl (keep_advertised now) (route_budget Ail, m0, []) l in kept_inv l b m out.
Proof.
  intros Hm0. induction l as [|kv l IH] using rev_ind; [intros _; by split|]. intros [Hl Hkv]%List.Forall_app. specialize (IH Hl). apply Forall_cons_iff in Hkv as [Hkv _]. clear Hl.
  rewrite foldl_app. cbn [foldl]. destruct (foldl _ _ l) as [[b m] out]. destruct IH as [Hp Hb Hn Ha Hd]. unfold keep_advertised.
  assert (map (fun kv : (Link * Prefix) * Lifetime => kv.1.2) (List.filter (counted now) (l ++ [kv])) =
    map rio_prefix out ++ if counted now kv then [kv.1.2] else []) as Ef.
  { rewrite List.filter_app, map_app, <-Hp. cbn. by destruct (counted now kv). }
  destruct kv as [[link p] v]. change (counted now (link, p, v)) with (bool_decide (link = Ail) && live v now) in Ef. cbn [fst snd] in *.
  destruct (bool_decide (link = Ail)) eqn:El; cbn [negb orb andb] in *; [apply bool_decide_eq_true in El as ->|split; try done; by rewrite Ef, app_nil_r].
  destruct (live v now) eqn:Ev; cbn [negb] in *; [|split; try done; by rewrite Ef, app_nil_r].
  set (x := default (low_rio p 0) (m !! p)). assert (rio_prefix x = p /\ admissible x) as [Hxp Hx].
  { unfold x. destruct (m !! p) as [y|] eqn:E; cbn; [by apply (Hn _ _ E)|]. split; [done|]. right. split; [done|]. by exists v. }
  split.
  - by rewrite Ef, map_app; cbn; rewrite Hxp.
  - rewrite Hb, rio_bytes_app. unfold sat_sub. unfold rio_bytes at 3. cbn [foldr]. pose proof (len_nonneg (rio_encode x)). lia.
  - by apply map_Forall_delete.
  - apply List.Forall_app. split; [done|]. apply List.Forall_cons; [done|apply List.Forall_nil].
  - intros q. rewrite map_app, in_app_iff. cbn. rewrite Hxp. intros [Hq|[->|[]]]; [|by apply lookup_delete_eq]. destruct (decide (q = p)) as [->|]; [by apply lookup_delete_eq|]. rewrite lookup_delete_ne by done. by apply Hd.
Qed.
Lemma new_admitted l b out : 0 <= b -> exists kept, foldl admit_new (b, out) l = (b - rio_bytes kept, out ++ kept) /\ 0 <= b - rio_bytes kept /\ sublist kept l.
Proof.
  revert b out. induction l as [|x l IH]; intros b out Hb; cbn [foldl]; [exists []; rewrite app_nil_r; unfold rio_bytes; cbn; split_and!; [f_equal; lia|lia|constructor]|].
  unfold admit_new at 2. destruct (Z.leb_spec (len (rio_encode x)) b).
  - destruct (IH (b - len (rio_encode x)) (out ++ [x]) ltac:(lia)) as (kept & -> & Hk & Hs). exists (x :: kept). unfold rio_bytes in *. cbn [foldr]. rewrite <-app_assoc. split_and!; [f_equal; lia|lia|by constructor].
  - destruct (IH b out Hb) as (kept & -> & Hk & Hs). exists kept. split_and!; [done|done|by constructor].
Qed.
Lemma named_prefixes m : named m -> map rio_prefix (sorted_values m) = map fst (sorted m).
Proof.
  intros Hn. unfold sorted_values. rewrite map_map. apply map_ext_in. intros [p x] Hin%sorted_in. cbn. by apply (Hn _ _ Hin).
Qed.
Lemma counted_prefixes (l : list ((Link * Prefix) * Lifetime)) : NoDup (map fst l) -> NoDup (map (fun kv => kv.1.2) (List.filter (counted now) l)).
Proof.
  induction l as [|[[link p] v] l IH]; cbn [map List.filter]; intros Hnd; [constructor|]. apply list.NoDup_cons in Hnd as [Hni Hnd]. specialize (IH Hnd).
  destruct (counted now _) eqn:E; [|done]. cbn [map fst snd]. apply list.NoDup_cons. split; [|done]. unfold counted in E. cbn [fst snd] in E. apply andb_true_iff in E as [->%bool_decide_eq_true _].
  rewrite list_elem_of_In, in_map_iff. intros ([[link' p'] v'] & Hp & [Hin Hc]%filter_In). cbn in Hp. subst p'. unfold counted in Hc. cbn in Hc. apply andb_true_iff in Hc as [->%bool_decide_eq_true _].
  apply Hni. rewrite list_elem_of_In. cbn. exact (in_map fst _ _ Hin).
Qed.
End budget.

(** While what is announced on the infrastructure link could be withdrawn within the budget, the routes for it stay within the budget: none twice, every route announced before still there, renewed or withdrawn, and the others candidates that are not being withdrawn. *)
Theorem budget_ail_fits candidates now c : withdrawal_bytes now c <= route_budget Ail ->
  let l := budget_ail candidates now c in
  rio_bytes l <= route_budget Ail /\ NoDup (map rio_prefix l) /\
  (forall p v, r_advertised_routes c !! (Ail, p) = Some v -> live v now = true -> In p (map rio_prefix l)) /\
  Forall (admissible now c candidates) l.
Proof.
  intros HS. cbv zeta. unfold budget_ail.
  assert (named now c candidates (foldl (admit_candidate c) (route_budget Ail, ∅) candidates).2) as Hm by (apply candidates_named; [done|by apply map_Forall_empty]).
  pose proof (advertised_kept now c candidates _ (sorted (r_advertised_routes c)) Hm) as Hk. destruct (foldl (keep_advertised now) _ _) as [[b m] out].
  destruct Hk as [Hp Hb Hn Ha Hd]; [apply List.Forall_forall; by intros [k v] Hin%sorted_in|].
  assert (rio_bytes out = withdrawal_bytes now c) as HB.
  { unfold withdrawal_bytes. assert (map rio_prefix out = map rio_prefix (map (fun kv : (Link * Prefix) * Lifetime => low_rio kv.1.2 0) (List.filter (counted now) (sorted (r_advertised_routes c))))) as E by (by rewrite map_map; cbn).
    revert E. generalize (map (fun kv : (Link * Prefix) * Lifetime => low_rio kv.1.2 0) (List.filter (counted now) (sorted (r_advertised_routes c)))). clear.
    induction out as [|x out IH]; intros [|y l] E; try done. injection E as E1 E2. unfold rio_bytes in *. cbn [foldr]. by rewrite (rio_size _ _ E1), (IH _ E2). }
  rewrite Z.max_r in Hb by lia. destruct (new_admitted (sorted_values m) b out ltac:(lia)) as (kept & -> & Hl & Hs). cbn [snd].
  assert (NoDup (map rio_prefix out)) as Hnd by (rewrite Hp; apply counted_prefixes, sorted_NoDup).
  assert (Forall (admissible now c candidates) kept) as Hka.
  { apply List.Forall_forall. intros x Hx. apply list_elem_of_In in Hx. assert (x ∈ sorted_values m) as Hin by by eapply elem_of_sublist. apply list_elem_of_In, sorted_values_in in Hin as [k Hin]. by apply (Hn _ _ Hin). }
  split_and!.
  - rewrite (rio_bytes_perm _ _ (sort_by_prefix_perm _ _)), rio_bytes_app. lia.
  - rewrite (sort_by_prefix_perm rio_prefix (out ++ kept)), map_app. apply list.NoDup_app. split; [done|]. pose proof (map_sublist rio_prefix _ _ Hs) as Hsp. rewrite (named_prefixes now c candidates m Hn) in Hsp. split.
    + intros p Hp1 Hp2. rewrite list_elem_of_In in Hp1. specialize (Hd p Hp1). eapply elem_of_sublist in Hp2; [|exact Hsp].
      apply list_elem_of_In, in_map_iff in Hp2 as ([q x] & <- & Hin%sorted_in). cbn in Hd. congruence.
    + eapply sublist_NoDup; [|exact Hsp]. apply sorted_NoDup.
  - intros p v Hpv Hlive. assert (In p (map rio_prefix out)) as Hin.
    { rewrite Hp, in_map_iff. exists ((Ail, p), v). split; [done|]. apply filter_In. split; [by apply sorted_in|]. unfold counted. cbn. by rewrite Hlive. }
    apply list_elem_of_In. rewrite (sort_by_prefix_perm rio_prefix (out ++ kept)), map_app. apply elem_of_app. left. by apply list_elem_of_In.
  - apply Forall_sort, List.Forall_app. by split.
Qed.

(** ** The routes offered to the stub *)

Section stub.
Context (now : Z) (c : Router).
Definition on_link_backed (p : Prefix) (life : Z) : Prop :=
  (default_lifetime now c = 0 \/ r_always_advertise_ail_routes c = true) /\
  exists v, ol_get (Ail, p) (r_on_link c) = Some v /\ live (ol_valid v) now = true /\ life <= remaining (ol_valid v) now.
Definition route_backed (p : Prefix) (life : Z) : Prop :=
  0 < p_length p /\ ol_contains (Stub, p) (r_on_link c) = false /\
  exists a v, r_routes c !! (a, p) = Some v /\ usable_route a v now c = true /\ life <= remaining (rt_valid v) now.
Definition offered (p : Prefix) (life : Z) : Prop := life <= 1800 /\ (0 < life -> on_link_backed p life \/ route_backed p life).
Lemma stub_route_map_offered : router_wf c -> map_Forall offered (stub_route_map now c).
Proof.
  intros Hc. unfold stub_route_map. apply (foldl_keeps (map_Forall offered)); [apply (foldl_keeps (map_Forall offered))|].
  - destruct ((default_lifetime now c =? 0) || r_always_advertise_ail_routes c) eqn:E; [|by apply map_Forall_empty].
    apply (foldl_keeps (map_Forall offered)); [by apply map_Forall_empty|]. intros m [[l0 q] v] Hin Hm. apply ol_iter_in in Hin; [|apply (rw_on_link _ Hc)]. unfold add_on_link. cbn [fst snd].
    case_match eqn:Ev; [|done]. apply andb_true_iff in Ev as [->%bool_decide_eq_true Ev]. apply map_Forall_insert_2; [|done]. unfold remaining_capped. split; [lia|].
    intros _. left. split; [apply orb_true_iff in E as [E%Z.eqb_eq|E]; auto|]. exists v. do 2 (split; [done|]). lia.
  - intros m [[a q] v] Hin%sorted_in Hm. unfold add_route. cbn [fst snd]. case_match eqn:Ev; [|done]. rewrite !andb_true_iff, negb_true_iff in Ev. destruct Ev as [[Hl%Z.ltb_lt Hu] Ho].
    apply map_Forall_insert_2; [|done]. set (life := remaining_capped (rt_valid v) now). assert (offered q life) as Hq.
    { unfold life, remaining_capped. split; [lia|]. intros _. right. do 2 (split; [done|]). exists a, v. do 2 (split; [done|]). lia. }
    destruct (m !! q) as [l|] eqn:E; [|done]. specialize (Hm _ _ E). destruct (Z.max_spec l life) as [[_ ->]|[_ ->]]; done.
  - intros m p _ Hm. unfold add_withdrawal. case_match; [done|]. apply map_Forall_insert_2; [|done]. split; lia.
Qed.
(** A usable route is not lost in the rounds that follow. *)
Lemma add_route_keeps p n kr m : (exists l, m !! p = Some l /\ n <= l) -> exists l, add_route now c kr m !! p = Some l /\ n <= l.
Proof.
  intros (l & Hl & Hn). unfold add_route. case_match; [|by exists l]. destruct (decide (kr.1.2 = p)) as [<-|Hne].
  - rewrite lookup_insert_eq, Hl. eexists. split; [done|lia].
  - rewrite lookup_insert_ne by done. by exists l.
Qed.
Lemma add_routes_complete p n l m : (exists a v, In ((a, p), v) l /\ 0 < p_length p /\ usable_route a v now c = true /\ ol_contains (Stub, p) (r_on_link c) = false /\ n <= remaining_capped (rt_valid v) now) ->
  exists x, foldl (fun m kr => add_route now c kr m) m l !! p = Some x /\ n <= x.
Proof.
  intros (a & v & Hin & Hl & Hu & Ho & Hn). apply in_split in Hin as (l1 & l2 & ->). rewrite foldl_app. cbn [foldl]. set (m1 := foldl _ m l1).
  apply (foldl_keeps (fun m => exists x, m !! p = Some x /\ n <= x)); [|intros m' kr _; apply add_route_keeps].
  unfold add_route. cbn [fst snd]. rewrite Hu, Ho. destruct (Z.ltb_spec 0 (p_length p)); [|lia]. cbn [andb negb]. rewrite lookup_insert_eq. eexists. split; [done|]. destruct (m1 !! p); lia.
Qed.
(** Every route offered to the stub lives at most half an hour and no longer than what backs it, a live prefix of the infrastructure link while no default route is offered, or a usable route to a prefix that is not on the stub; and every such route is offered. *)
Theorem stub_routes_backed : router_wf c ->
  (forall rio, In rio (stub_routes now c) -> 0 < rio_lifetime rio ->
    link_up Ail c = true /\ rio_lifetime rio <= 1800 /\ (on_link_backed (rio_prefix rio) (rio_lifetime rio) \/ route_backed (rio_prefix rio) (rio_lifetime rio))) /\
  (link_up Ail c = true -> forall p a v, r_routes c !! (a, p) = Some v -> usable_route a v now c = true -> 0 < p_length p -> ol_contains (Stub, p) (r_on_link c) = false ->
    exists rio, In rio (stub_routes now c) /\ rio_prefix rio = p /\ Z.min (remaining (rt_valid v) now) 1800 <= rio_lifetime rio).
Proof.
  intros Hc. unfold stub_routes. split.
  - intros rio Hin Hlife. destruct (link_up Ail c) eqn:Ea; cbn [negb] in Hin; apply in_map_iff in Hin as (x & <- & Hin); cbn in *; [|lia].
    destruct x as [p l]. apply sorted_in, (stub_route_map_offered Hc) in Hin as [Hl Hb]. cbn in *. split; [done|]. split; [done|]. by apply Hb.
  - intros -> p a v Hr Hu Hl Ho. cbn [negb]. assert (exists x, stub_route_map now c !! p = Some x /\ Z.min (remaining (rt_valid v) now) 1800 <= x) as (x & Hx & Hn).
    { unfold stub_route_map. apply (foldl_keeps (fun m => exists x, m !! p = Some x /\ Z.min (remaining (rt_valid v) now) 1800 <= x)).
      - apply add_routes_complete. exists a, v. split; [by apply sorted_in|]. do 3 (split; [done|]). unfold remaining_capped. lia.
      - intros m q _ (y & Hy & Hn). exists y. split; [|done]. unfold add_withdrawal. case_match eqn:E; [done|]. rewrite lookup_insert_ne; [done|]. intros ->. congruence. }
    exists (low_rio p x). split; [|by split]. apply in_map_iff. exists (p, x). split; [done|]. by apply sorted_in.
Qed.
End stub.

(** ** Silence *)

(** C26. A router that is degraded, stopping or stopped announces no default route and only withdraws routes, each one announced before and not expired; when it stops its prefixes are no longer preferred and stay valid only as long as was announced. *)
Theorem silent_snapshot link now c ad : snapshot link now c = Ok ad -> silenced c = true ->
  ad_default_lifetime ad = 0 /\
  (forall rio, In rio (ad_rios ad) <-> exists v, r_advertised_routes c !! (link, rio_prefix rio) = Some v /\ live v now = true /\ rio = low_rio (rio_prefix rio) 0) /\
  (stopping c = true -> Forall (fun p => pio_preferred p = 0 /\ 0 < pio_valid p /\
     pio_valid p <= remaining (if bool_decide (pio_prefix p = id_prefix (r_identity c) link) then lk_last_valid (link_state link c)
                               else match r_pd_prefixes c !! pio_prefix p with Some o => op_last_valid o | None => Until now end) now) (ad_pios ad)).
Proof.
  intros Hs Hsil. unfold snapshot in Hs. apply bind_Ok in Hs as (rios & _ & [= <-]). rewrite Hsil. cbn [ad_default_lifetime ad_rios ad_pios]. split_and!.
  - destruct link; [done|]. unfold default_lifetime. by rewrite Hsil.
  - intros rio. rewrite in_map_iff. unfold advertised_live. setoid_rewrite in_map_iff. setoid_rewrite filter_In. split.
    + intros (p & <- & [[l q] v] & <- & [Hin%sorted_in Hf]). cbn in *. apply andb_true_iff in Hf as [->%bool_decide_eq_true Hl]. by exists v.
    + intros (v & Hv & Hl & ->). exists (rio_prefix rio). split; [done|]. exists ((link, rio_prefix rio), v). split; [done|]. split; [by apply sorted_in|]. cbn. by rewrite bool_decide_eq_true_2, Hl.
  - intros ->. apply List.Forall_forall. intros p [Hp Hv%Z.ltb_lt]%filter_In. apply in_map_iff in Hp as (q & <- & _). unfold final_pio in *. cbn in *. split_and!; [done|lia|lia].
Qed.

(** ** The next deadline *)

Lemma next_deadline_fold now l n : now < n ->
  let m := foldl (fun next t => if now <? t then Z.min next t else next) n l in
  now < m <= n /\ (forall t, In t l -> now < t -> m <= t) /\ (m = n \/ In m l).
Proof.
  revert n. induction l as [|t l IH]; intros n Hn; cbn [foldl]; [split; [lia|split; [done|by left]]|].
  assert (now < (if now <? t then Z.min n t else n) <= n) as Hn' by (destruct (Z.ltb_spec now t); lia).
  specialize (IH _ (proj1 Hn')). cbv zeta in *. set (m := foldl _ _ l) in *. clearbody m. destruct IH as (H1 & H2 & H3). split; [lia|]. split.
  - intros s [<-|Hs] Hlt; [|by apply H2]. destruct (Z.ltb_spec now t); lia.
  - destruct H3 as [->|H3]; [|by right; right]. destruct (Z.ltb_spec now t); [|by left]. destruct (Z.min_spec n t) as [[_ ->]|[_ ->]]; [by left|by right; left].
Qed.
(** The driver wakes after now and within a tenth of a second, exactly at the earliest timer that is still ahead. *)
Theorem next_deadline_exact now c : in_time now ->
  now < next_deadline now c <= now + 100 /\ (forall t, In t (deadlines c) -> now < t -> next_deadline now c <= t) /\
  (next_deadline now c = now + 100 \/ In (next_deadline now c) (deadlines c)).
Proof.
  intros Hn. unfold next_deadline. assert (sat64 now 100 = now + 100) as -> by (unfold in_time, longest_wait in *; u_lia).
  by apply next_deadline_fold; lia.
Qed.

(** ** At sample states *)

(** A route to [sample_far] was announced on both links. *)
Definition announcing_router : Router :=
  set_advertised_routes {[ (Ail, sample_far) := Until 900000; (Stub, sample_far) := Until 900000 ]} (set_lifecycle Stopping open_router).
Lemma budget_ail_fits_witness : let l := budget_ail [low_rio sample_on_stub 600; low_rio sample_far 1800] 1000 announcing_router in
  rio_bytes l <= route_budget Ail /\ NoDup (map rio_prefix l) /\
  (forall p v, r_advertised_routes announcing_router !! (Ail, p) = Some v -> live v 1000 = true -> In p (map rio_prefix l)) /\
  Forall (admissible 1000 announcing_router [low_rio sample_on_stub 600; low_rio sample_far 1800]) l.
Proof. apply (budget_ail_fits [low_rio sample_on_stub 600; low_rio sample_far 1800] 1000 announcing_router). vm_compute. congruence. Defined.
Lemma stub_routes_backed_witness : exists rio, In rio (stub_routes 1000 open_router) /\ rio_prefix rio = sample_far /\ Z.min (remaining Infinite 1000) 1800 <= rio_lifetime rio.
Proof.
  apply (proj2 (stub_routes_backed 1000 open_router open_router_wf) eq_refl sample_far 0xfe800000000000000000000000000001 (mkRoute Infinite Medium)); [reflexivity|reflexivity|reflexivity|reflexivity].
Defined.
Lemma silent_snapshot_witness : exists ad, snapshot Ail 1000 announcing_router = Ok ad /\ ad_default_lifetime ad = 0 /\
  (forall rio, In rio (ad_rios ad) <-> exists v, r_advertised_routes announcing_router !! (Ail, rio_prefix rio) = Some v /\ live v 1000 = true /\ rio = low_rio (rio_prefix rio) 0).
Proof.
  destruct (snapshot Ail 1000 announcing_router) as [ad|e|] eqn:E; [|vm_compute in E; discriminate|vm_compute in E; discriminate]. exists ad. split; [done|].
  pose proof (silent_snapshot Ail 1000 announcing_router ad E eq_refl) as (H1 & H2 & _). by split.
Defined.
Lemma next_deadline_exact_witness : 1000 < next_deadline 1000 open_router <= 1000 + 100 /\ (forall t, In t (deadlines open_router) -> 1000 < t -> next_deadline 1000 open_router <= t) /\
  (next_deadline 1000 open_router = 1000 + 100 \/ In (next_deadline 1000 open_router) (deadlines open_router)).
Proof. apply (next_deadline_exact 1000 open_router). split; vm_compute; congruence. Defined.
