(* ===== verification/Restart.v ===== *)
(** The router's checkpoint: what is kept of it over a restart ([checkpoint] and [restore] of
    [src/src/router/restart.rs], [CheckpointWriter] of [persist.rs]). SHA-1 is a parameter. *)

From S2P Require Import Prelude Effects Maps Time Checksum Wire Observations Ordered Scheduler Selection Dhcp6Wire Pd Stateful Identity Text Lexis Journal RouterState Routing Delegated.

(** The derived [Ord] of [Vec<u8>]. *)
#[global] Instance bytes_ordered : Ordered bytes := fun a b => negb (bytes_ltb b a).

Definition snapshot_1 : bytes := ascii "SNAC-SNAPSHOT-1 ".
Definition snapshot_2 : bytes := ascii "SNAC-SNAPSHOT-2 ".
(** A line of words, as [format!] writes it. *)
Definition line (words : list bytes) : bytes := join 32 words ++ [10].

(** ** Writing *)

Section checkpoint.
Context (sha1 : bytes -> bytes) (now wall : Z).

(** [end]: a lifetime as a second of the wall clock. *)
Definition end_of (l : Lifetime) : Z :=
  match l with Infinite => u64_max | Until t => sat_sub (sat64 wall (t / 1000)) (now / 1000) end.
Definition show_end (l : Lifetime) : bytes := dec (end_of l).
Definition show_link (l : Link) : bytes := dec (link_index l).
(** The end of a deprecation. *)
Definition show_origin (o : option Z) : bytes :=
  match o with None => ascii "-" | Some at_ => dec (Z.max (wall * 1000 + at_ + 1800000 - now) 0 / 1000) end.
Definition show_source (s : Source) : bytes := dec (match s with SrcLocal => 0 | SrcInfrastructure => 1 | SrcConfigured => 2 end).

Definition evidence_words (b : bytes) : list bytes := [ascii "A"; hex b].
Definition retired_words (kv : (Link * Prefix) * Lifetime) : list bytes :=
  [ascii "R"; show_link kv.1.1; show_ipv6 (p_address kv.1.2); show_end kv.2].
Definition on_link_words (kv : (Link * Prefix) * OnLink) : list bytes :=
  [ascii "O"; show_link kv.1.1; show_ipv6 (p_address kv.1.2); dec (p_length kv.1.2); show_end (ol_preferred kv.2); show_end (ol_valid kv.2)].
Definition link_words (r : Router) (l : Link) : list bytes :=
  [ascii "L"; show_link l; show_end (lk_last_valid (link_state l r)); show_origin (lk_deprecate_at (link_state l r))].
Definition route_words (r : Router) (kv : (Link * Prefix) * Lifetime) : list bytes :=
  [ascii "H"; show_link kv.1.1; show_ipv6 (p_address kv.1.2); dec (p_length kv.1.2); show_end kv.2; dec (default 0 (r_withdrawals r !! kv.1))].
Definition promise_words (kv : Prefix * (Source * Z * bool)) : list bytes :=
  let '(p, (source, until, withdrawn)) := kv in
  [ascii "N"; show_ipv6 (p_address p); dec (p_length p); show_source source; show_end (Until until); dec (of_bool withdrawn)].
Definition history_words (kv : Z * (Lifetime * Z)) : list bytes := [ascii "E"; show_ipv6 kv.1; show_end kv.2.1; dec kv.2.2].
Definition owned_words (kv : (Link * Z) * OwnedAddress) : list (list bytes) :=
  match oa_prefix kv.2 with
  | Some p => [[ascii "I"; show_link kv.1.1; show_ipv6 kv.1.2; show_ipv6 (p_address p); dec (p_length p); dec (oa_attempts kv.2)]]
  | None => []
  end.
Definition pd_prefix_words (kv : Prefix * OwnedPrefix) : list bytes :=
  let '(iaid, net) := op_lease kv.2 in
  [ascii "D"; show_ipv6 (p_address kv.1); dec iaid; show_ipv6 (p_address net); dec (p_length net);
   show_origin (op_deprecate_at kv.2); show_end (op_last_valid kv.2)].
Definition lease_words (kl : LeaseKey * Lease) : list bytes :=
  let '((iaid, p), l) := kl in
  [ascii "P"; dec iaid; show_ipv6 (p_address p); dec (p_length p); hex (as_server (ls_association l)); show_end (ls_preferred l); show_end (ls_valid l);
   show_end (as_t1 (ls_association l)); show_end (as_t2 (ls_association l))].
(** The lines after the header, in the order of the tables. *)
Definition records (r : Router) : list (list bytes) :=
  map evidence_words (in_order (elements (at_known (r_attachment r))))
  ++ map retired_words (sorted (r_retired_ulas r))
  ++ map on_link_words (List.filter (fun kv => live (ol_valid kv.2) now) (ol_iter (r_on_link r)))
  ++ map (link_words r) both_links
  ++ map (route_words r) (List.filter (fun kv => live kv.2 now) (sorted (r_advertised_routes r)))
  ++ map promise_words (List.filter (fun kv => now <? kv.2.1.2) (sorted (sl_promised (r_nat64 r))))
  ++ map history_words (List.filter (fun kv => live kv.2.1 now) (sorted (sv_dns_history (r_services r))))
  ++ concat (map owned_words (sorted (r_owned r)))
  ++ match pd_fallback_at (r_pd r) with Some t => [[ascii "F"; show_end (Until t)]] | None => [] end
  ++ map pd_prefix_words (sorted (r_pd_prefixes r))
  ++ map lease_words (List.filter (fun kl => ls_used kl.2 && live (ls_valid kl.2) now) (entries (pd_leases (r_pd r)))).
(** The length and the digest of what precedes. *)
Definition footer (text : bytes) : bytes := line [ascii "Z"; dec (len text); hex (sha1 text)].
Definition body_text (identity : bytes) (r : Router) : bytes :=
  snapshot_2 ++ line [dec wall] ++ line [hex identity] ++ concat (map line (records r)).
Definition checkpoint (r : Router) : outcome io_error bytes :=
  identity ← id_encode (r_identity r);
  let text := body_text identity r in
  let text := text ++ footer text in
  reject_if MAX_JOURNAL_BYTES <? len text with OtherError;
  Ok text.
End checkpoint.

(** ** Reading *)

(** What [restore] gathers line by line. *)
Record Restored := mkRestored {
  rs_router : Router;
  rs_seen : gset bytes;
  rs_prefixes : gmap Prefix OwnedPrefix;
  rs_addresses : gmap (Link * Z) OwnedAddress;
  rs_fallback : option Lifetime;
}.
Definition on_router (f : Router -> Router) (s : Restored) : Restored :=
  mkRestored (f (rs_router s)) (rs_seen s) (rs_prefixes s) (rs_addresses s) (rs_fallback s).
Abbreviation OR := (outcome io_error).

Definition parse64 (b : bytes) : OR Z := ok_or (parse_u64 b) InvalidData.
(** [parse(s)?] and [try_from] to a type with a greatest value. *)
Definition parse_to (max : Z) (b : bytes) : OR Z := n ← parse64 b; reject_if max <? n with InvalidData; Ok n.
Definition parse_address (b : bytes) : OR Z := ok_or (parse_ipv6 b) InvalidData.
Definition parse_link (b : bytes) : OR Link :=
  if beq b (ascii "0") then Ok Ail else if beq b (ascii "1") then Ok Stub else Err InvalidData.
Definition parse_prefix (address length : bytes) : OR Prefix :=
  a ← parse_address address;
  n ← parse_to u8_max length;
  p ← ok_or (prefix_new a n) InvalidData;
  reject_if negb ((p_address p =? a) && routable p) with InvalidData;
  Ok p.
(** [Prefix::new(address, length).filter(f).ok_or_else(invalid)?] *)
Definition new_where (f : Prefix -> bool) (a n : Z) : OR Prefix :=
  p ← ok_or (prefix_new a n) InvalidData;
  reject_if negb (f p) with InvalidData;
  Ok p.
Definition route_room (p : Prefix) : Z := len (rio_encode (mkRio p Low 0)).
Definition routes_room (link : Link) (r : Router) : Z :=
  foldr (fun k n => route_room k.2 + n) 0 (List.filter (fun k : Link * Prefix => bool_decide (k.1 = link)) (sorted_keys (r_advertised_routes r))).
Definition on_this {A} (link : Link) (l : list (Link * A)) : Z := len (List.filter (fun k => bool_decide (k.1 = link)) l).

Section restore.
Context (version2 : bool) (now wall : Z).
(** [wall] is the later of the wall clock and the one that was saved. *)
Definition parse_lifetime (b : bytes) : OR Lifetime :=
  e ← parse64 b;
  Ok (if e =? u64_max then Infinite else Until (sat64 now (Z.min (sat_sub e wall * 1000) u64_max))).
Definition parse_origin (b : bytes) : OR (option Z) :=
  if beq b (ascii "-") then Ok None else
  n ← parse64 b;
  Ok (Some (now + (n - wall) * 1000 - 1800000)).

Definition restore_on_link (link address length preferred valid : bytes) (s : Restored) : OR Restored :=
  let t := r_on_link (rs_router s) in
  link ← parse_link link;
  p ← parse_prefix address length;
  preferred ← parse_lifetime preferred;
  valid ← parse_lifetime valid;
  reject_if lifetime_ltb valid preferred || (160 <=? on_this link (ol_keys t)) || ol_contains (link, p) t with InvalidData;
  Ok (if live valid now then on_router (set_on_link (ol_insert (link, p) (mkOnLink valid preferred) t)) s else s).
Definition restore_link (link last at_ : bytes) (s : Restored) : OR Restored :=
  link ← parse_link link;
  last ← parse_lifetime last;
  at_ ← parse_origin at_;
  let again := match at_ with Some t => 0 <? deprecation_remaining t now | None => false end in
  Ok (on_router (on_state link (fun l =>
    let l := put_deprecate_at at_ (put_last_valid last l) in
    if again then put_state Deprecating l else l)) s).
Definition restore_route (link address length valid count : bytes) (s : Restored) : OR Restored :=
  let r := rs_router s in
  link ← parse_link link;
  length ← parse_to u8_max length;
  a ← parse_address address;
  p ← new_where (fun p => routable p || (p_length p =? 0)) a length;
  valid ← parse_lifetime valid;
  count ← parse_to u8_max count;
  reject_if (3 <? count) || has_key (r_advertised_routes r) (link, p)
            || (route_budget link <? routes_room link r + route_room p) with InvalidData;
  if negb (live valid now) then Ok s else
  let s := on_router (set_advertised_routes (<[(link, p) := valid]> (r_advertised_routes r))) s in
  Ok (if 0 <? count then on_router (set_withdrawals (<[(link, p) := count]> (r_withdrawals r))) s else s).
Definition parse_source (b : bytes) : OR Source :=
  if beq b (ascii "0") then Ok SrcLocal else if beq b (ascii "1") then Ok SrcInfrastructure
  else if beq b (ascii "2") then Ok SrcConfigured else Err InvalidData.
Definition parse_flag (b : bytes) : OR bool :=
  if beq b (ascii "0") then Ok false else if beq b (ascii "1") then Ok true else Err InvalidData.
Definition restore_prefix64 (address length source valid withdrawn : bytes) (s : Restored) : OR Restored :=
  p ← parse_prefix address length;
  source ← parse_source source;
  withdrawn ← parse_flag withdrawn;
  valid ← parse_lifetime valid;
  match valid with
  | Infinite => Err InvalidData
  | Until until =>
      match restore_promise p source until withdrawn (r_nat64 (rs_router s)) with
      | (Ok _, n) => Ok (on_router (set_nat64 n) s)
      | (Err e, _) => Err e
      | (Panic, _) => Panic
      end
  end.
Definition restore_history (address valid count : bytes) (s : Restored) : OR Restored :=
  let v := r_services (rs_router s) in
  a ← parse_address address;
  valid ← parse_lifetime valid;
  count ← parse_to u8_max count;
  reject_if is_ipv4_mapped a || is_unspecified6 a || is_multicast6 a || is_loopback6 a || bool_decide (valid = Infinite)
            || negb ((1 <=? count) && (count <=? 3)) || (slen (sv_dns_history v) =? 2) || has_key (sv_dns_history v) a with InvalidData;
  Ok (on_router (set_services (mkServices (sv_resolvers v) (<[a := (valid, count)]> (sv_dns_history v)) (sv_ipv4 v) (sv_translator v))) s).
Definition restore_address (link address net length attempts : bytes) (s : Restored) : OR Restored :=
  link ← parse_link link;
  p ← parse_prefix net length;
  a ← parse_address address;
  attempts ← parse_to u8_max attempts;
  reject_if negb (contains p a) || (3 <? attempts) || (31 <=? on_this link (sorted_keys (rs_addresses s)))
            || has_key (rs_addresses s) (link, a) with InvalidData;
  Ok (mkRestored (rs_router s) (rs_seen s) (rs_prefixes s)
    (<[(link, a) := mkOwnedAddress false (Some p) Tentative (Some now) attempts]> (rs_addresses s)) (rs_fallback s)).
Definition restore_fallback (at_ : bytes) (s : Restored) : OR Restored :=
  match rs_fallback s with
  | Some _ => Err InvalidData
  | None => l ← parse_lifetime at_; Ok (mkRestored (rs_router s) (rs_seen s) (rs_prefixes s) (rs_addresses s) (Some l))
  end.
Definition restore_pd_prefix (address iaid net length at_ last : bytes) (s : Restored) : OR Restored :=
  p ← parse_prefix address (ascii "64");
  lease ← parse_prefix net length;
  iaid ← parse_to u32_max iaid;
  reject_if negb (mem iaid [1; 2]) || negb (contains lease (p_address p)) || (16 <=? slen (rs_prefixes s)) with InvalidData;
  at_ ← parse_origin at_;
  last ← parse_lifetime last;
  reject_if has_key (rs_prefixes s) p with InvalidData;
  Ok (mkRestored (rs_router s) (rs_seen s) (<[p := mkOwnedPrefix (iaid, lease) at_ last]> (rs_prefixes s)) (rs_addresses s) (rs_fallback s)).
Definition restore_evidence (evidence : bytes) (s : Restored) : OR Restored :=
  let a := r_attachment (rs_router s) in
  b ← unhex evidence;
  reject_if (32 <=? Z.of_nat (size (at_known a))) || (len b =? 0) || (128 <? len b) || bool_decide (b ∈ at_known a) with InvalidData;
  Ok (on_router (set_attachment (mkAttachment (at_policy a) (at_known a ∪ {[ b ]}) (at_observed a) (at_discovering a))) s).
(** A prefix that is still valid is on the link, deprecated. *)
Definition put_on_link (k : Link * Prefix) (valid : Lifetime) (r : Router) : Router :=
  set_on_link (ol_insert k (mkOnLink valid (Until now)) (r_on_link r)) r.
Definition restore_retired (link address end_ : bytes) (s : Restored) : OR Restored :=
  let m := r_retired_ulas (rs_router s) in
  link ← parse_link link;
  a ← parse_address address;
  p ← new_where ula a 64;
  valid ← parse_lifetime end_;
  reject_if (16 <=? slen m) || has_key m (link, p) with InvalidData;
  let s := on_router (set_retired_ulas (<[(link, p) := valid]> m)) s in
  Ok (if live valid now && negb version2 then on_router (put_on_link (link, p) valid) s else s).
Definition restore_own (link end_ : bytes) (s : Restored) : OR Restored :=
  link ← parse_link link;
  valid ← parse_lifetime end_;
  if negb (live valid now) then Ok s else
  let s := on_router (put_on_link (link, id_prefix (r_identity (rs_router s)) link) valid) s in
  Ok (on_router (on_state link (put_last_valid valid)) s).
Definition restore_lease (iaid address length server preferred valid t1 t2 : bytes) (s : Restored) : OR Restored :=
  let m := pd_leases (r_pd (rs_router s)) in
  iaid ← parse_to u32_max iaid;
  length ← parse_to u8_max length;
  a ← parse_address address;
  p ← new_where (fun p => routable p && (p_length p <=? 64)) a length;
  server ← unhex server;
  valid ← parse_lifetime valid;
  preferred ← parse_lifetime preferred;
  reject_if negb (mem iaid [1; 2]) || (len server =? 0) || (128 <? len server) || (16 <=? slen m) || lifetime_ltb valid preferred with InvalidData;
  if negb (live valid now) then Ok s else
  t1 ← parse_lifetime t1;
  t2 ← parse_lifetime t2;
  Ok (on_router (on_pd (set_leases (<[(iaid, p) := mkLease (mkAssociation iaid server t1 t2) preferred valid true]> m))) s).

(** The [match] on the words of a line. *)
Definition restore_record (fields : list bytes) (s : Restored) : OR Restored :=
  match fields with
  | [tag; a] =>
      if beq tag (ascii "F") && version2 then restore_fallback a s
      else if beq tag (ascii "A") then restore_evidence a s
      else Err InvalidData
  | [tag; a; b] => if beq tag (ascii "U") then restore_own a b s else Err InvalidData
  | [tag; a; b; c] =>
      if beq tag (ascii "L") && version2 then restore_link a b c s
      else if beq tag (ascii "E") && version2 then restore_history a b c s
      else if beq tag (ascii "R") then restore_retired a b c s
      else Err InvalidData
  | [tag; a; b; c; d; e] =>
      if beq tag (ascii "O") && version2 then restore_on_link a b c d e s
      else if beq tag (ascii "H") && version2 then restore_route a b c d e s
      else if beq tag (ascii "N") && version2 then restore_prefix64 a b c d e s
      else if beq tag (ascii "I") && version2 then restore_address a b c d e s
      else Err InvalidData
  | [tag; a; b; c; d; e; f] => if beq tag (ascii "D") && version2 then restore_pd_prefix a b c d e f s else Err InvalidData
  | [tag; a; b; c; d; e; f; g; h] => if beq tag (ascii "P") then restore_lease a b c d e f g h s else Err InvalidData
  | _ => Err InvalidData
  end.
Definition restore_line (count : Z) (l : bytes) (s : Restored) : OR Restored :=
  reject_if (1024 <=? count) || (4096 <? len l) || bool_decide (l ∈ rs_seen s) with InvalidData;
  restore_record (split_whitespace l) (mkRestored (rs_router s) (rs_seen s ∪ {[ l ]}) (rs_prefixes s) (rs_addresses s) (rs_fallback s)).
Fixpoint restore_lines (count : Z) (ls : list bytes) (s : Restored) : OR Restored :=
  match ls with
  | [] => Ok s
  | l :: ls => s ← restore_line count l s; restore_lines (count + 1) ls s
  end.
End restore.

#[global] Instance Association_eq_dec : EqDecision Association.
Proof. solve_decision. Defined.
(** Leases of one association agree on its times. *)
Fixpoint shared (ls : list (LeaseKey * Lease)) (m : gmap (Z * bytes) Association) : OR unit :=
  match ls with
  | [] => Ok tt
  | (k, l) :: ls =>
      let a := ls_association l in
      let key := (k.1, as_server a) in
      match m !! key with
      | Some b => if bool_decide (b = a) then shared ls m else Err InvalidData
      | None => shared ls (<[key := a]> m)
      end
  end.

Section finish.
Context {R : Type} `{Sampler R}.
(** A delegated prefix comes back with its lease; an address with its prefix. *)
Definition return_prefix (now : Z) (kv : Prefix * OwnedPrefix) (r : Router) : Router :=
  match pd_leases (r_pd r) !! op_lease kv.2 with
  | Some l =>
      let preferred := match op_deprecate_at kv.2 with Some _ => Until now | None => ls_preferred l end in
      set_pd_prefixes (<[kv.1 := kv.2]> (r_pd_prefixes r)) (set_on_link (ol_insert (Stub, kv.1) (mkOnLink (ls_valid l) preferred) (r_on_link r)) r)
  | None => r
  end.
Definition return_address (kv : (Link * Z) * OwnedAddress) (r : Router) : Router :=
  match oa_prefix kv.2 with
  | Some p => if ol_contains (kv.1.1, p) (r_on_link r) then set_owned (<[kv.1 := kv.2]> (r_owned r)) r else r
  | None => r
  end.
(** What follows the loop over the lines. *)
Definition resume (now wall saved : Z) (s : Restored) : M (Router * R) io_error unit :=
  (if slen (pd_leases (r_pd (rs_router s))) =? 0 then mret tt else
   with_pd (refresh 6 now) ;;
   (if wall <? saved then Stateful.update (on_pd (set_fallback_at (Some now))) else mret tt) ;;
   sync_pd now) ;;
  Stateful.update (fun r => foldl (fun r kv => return_prefix now kv r) r (sorted (rs_prefixes s))) ;;
  Stateful.update (fun r => foldl (fun r kv => return_address kv r) r (sorted (rs_addresses s))).
(** A method of a router that is made along the way. *)
Definition run_on (c : Router) (m : M (Router * R) io_error unit) : M R io_error Router := fun r =>
  match m (c, r) with (Ok _, (c', r')) => (Ok c', r') | (Err e, (_, r')) => (Err e, r') | (Panic, (_, r')) => (Panic, r') end.

Context (sha1 : bytes -> bytes).
(** The start of the first line. *)
Definition header (version2 : bool) : bytes := if version2 then snapshot_2 else snapshot_1.
(** The checks of the footer; the version, and the text before the footer. *)
Definition open_text (b : bytes) : OR (bool * bytes) :=
  reject_if MAX_JOURNAL_BYTES <? len b with InvalidData;
  reject_if negb (is_utf8 b) with InvalidData;
  if negb (starts_with b snapshot_2) then Ok (false, b) else
  '(body, foot) ← ok_or (rsplit_once (10 :: ascii "Z ") b) InvalidData;
  foot ← ok_or (strip_last 10 foot) InvalidData;
  '(n, digest) ← ok_or (split_once 32 foot) InvalidData;
  n ← parse64 n;
  reject_if negb (n =? len body + 1) with InvalidData;
  text ← slice b 0 n;
  reject_if negb (beq (hex (sha1 text)) digest) with InvalidData;
  Ok (true, text).
(** The version, the wall clock that was saved, the identity, and the lines. *)
Definition open_snapshot (b : bytes) : OR (bool * Z * Identity * list bytes) :=
  '(version2, text) ← open_text b;
  match lines text with
  | [] => Err InvalidData
  | first :: ls =>
      saved ← ok_or (strip_prefix (header version2) first) InvalidData;
      saved ← parse64 saved;
      match ls with
      | [] => Err InvalidData
      | id :: ls =>
          id ← unhex id;
          identity ← id_decode id;
          Ok (version2, saved, identity, ls)
      end
  end.
Definition restore (b : bytes) (now wall : Z) : M R io_error Router :=
  snapshot ← lift (open_snapshot b);
  let '(version2, saved, identity, ls) := snapshot in
  r ← router_new identity now;
  s ← lift (restore_lines version2 now (Z.max wall saved) 0 ls (mkRestored r ∅ ∅ ∅ None));
  lift (shared (entries (pd_leases (r_pd (rs_router s)))) ∅) ;;
  let r := match rs_fallback s with
           | Some l => on_pd (set_fallback_at (Some (lifetime_time l))) (rs_router s)
           | None => rs_router s
           end in
  run_on r (resume now wall saved s).
End finish.

(** ** [CheckpointWriter] *)

Record CheckpointWriter := mkWriter { cw_anchor : option (Z * Z); cw_payload : bytes; cw_next : Z }.
Definition new_writer : CheckpointWriter := mkWriter None [] 0.
(** A snapshot without its first line, which has the time, and without its footer. *)
Definition payload_of (snapshot : bytes) : bytes :=
  let body := match split_once 10 snapshot with Some (_, rest) => rest | None => [] end in
  match rsplit_once (10 :: ascii "Z ") body with Some (payload, _) => payload | None => body end.
Section writer.
Context {S : Type} `{StateStore S} (sha1 : bytes -> bytes).
Definition writer_save (r : Router) (now wall : Z) : M (CheckpointWriter * S) io_error unit :=
  w ← gets fst;
  let '(at_, epoch) := default (now / 1000, wall) (cw_anchor w) in
  on_fst (modify (fun w => mkWriter (Some (at_, epoch)) (cw_payload w) (cw_next w))) ;;
  let mapped_wall := sat64 epoch (sat_sub (now / 1000) at_) in
  snapshot ← lift (checkpoint sha1 now mapped_wall r);
  if negb (is_utf8 snapshot) then throw OtherError else
  let payload := payload_of snapshot in
  if negb (beq payload (cw_payload w)) || (cw_next w <=? now) then
    on_snd (save snapshot) ;;
    on_fst (modify (fun w => mkWriter (cw_anchor w) payload (sat64 now 300000)))
  else mret tt.
End writer.
