(* ===== verification/RestartFacts.v ===== *)
(** A restart: whatever bytes are found in the store, the router that is restored keeps its
    invariant; what is written is read back; and the writer keeps the store current. *)

From S2P Require Import Prelude Effects Maps Time Checksum Wire WireFacts Observations Ordered Scheduler Selection SelectionFacts Dhcp6Wire Pd PdInv Stateful Identity IdentityFacts Text Lexis Journal JournalFacts RouterState Routing Delegated RouterInv RouterParts Neighbors Announce RouterCore RouterNeighbors RouterReceive RouterRuns RouterFacts Restart.

(** ** Pieces of byte strings *)

Lemma nil_bytes : is_bytes [].
Proof. by apply Forall_nil_2. Qed.
#[local] Hint Resolve nil_bytes : core.
Lemma split_on_bytes c b : is_bytes b -> Forall is_bytes (split_on c b).
Proof.
  induction b as [|x b IH]; intros Hb; cbn [split_on]; [by apply Forall_singleton, Forall_nil_2|]. apply is_bytes_cons in Hb as [Hx Hb]. specialize (IH Hb).
  destruct (x =? c); [apply List.Forall_cons; [by apply Forall_nil_2|done]|]. destruct (split_on c b) as [|p ps]; [apply Forall_singleton, is_bytes_cons; split; [done|by apply Forall_nil_2]|].
  apply List.Forall_cons_iff in IH as [Hp Hps]. apply List.Forall_cons; [by apply is_bytes_cons|done].
Qed.
Lemma removelast_bytes b : is_bytes b -> is_bytes (List.removelast b).
Proof. intros Hb. destruct (decide (b = [])) as [->|Hne]; [done|]. destruct (List.exists_last Hne) as (l & x & ->). rewrite List.removelast_last. by apply is_bytes_app in Hb as [? _]. Qed.
Lemma strip_last_bytes c b t : strip_last c b = Some t -> is_bytes b -> is_bytes t.
Proof. unfold strip_last. destruct (list.last b) as [x|]; [|done]. destruct (x =? c); [|done]. intros [= <-]. apply removelast_bytes. Qed.
Lemma ended_bytes ps : Forall is_bytes ps -> Forall is_bytes (ended ps).
Proof.
  induction ps as [|p ps IH]; intros H; [by apply Forall_nil_2|]. apply List.Forall_cons_iff in H as [Hp H]. destruct ps as [|q ps].
  - cbn [ended]. destruct p; [by apply Forall_nil_2|]. by apply Forall_singleton.
  - change (ended (p :: q :: ps)) with (default p (strip_last 13 p) :: ended (q :: ps)). apply List.Forall_cons; [|by apply IH].
    destruct (strip_last 13 p) as [t|] eqn:E; [by eapply strip_last_bytes|done].
Qed.
Lemma lines_bytes b : is_bytes b -> Forall is_bytes (lines b).
Proof. intros Hb. by apply ended_bytes, split_on_bytes. Qed.
Lemma words_bytes fuel b word : is_bytes b -> is_bytes word -> Forall is_bytes (words fuel b word).
Proof.
  assert (forall word, is_bytes word -> Forall is_bytes (match word with [] => [] | _ => [word] end)) as Hend by (intros [|x w] Hw; [by apply Forall_nil_2|by apply Forall_singleton]).
  revert b word. induction fuel as [|fuel IH]; intros b word Hb Hw; cbn [words]; [by apply Hend|].
  destruct b as [|c t]; [by apply Hend|]. pose proof Hb as (Hc & Ht)%is_bytes_cons. destruct (white (c :: t)) as [|n].
  - apply IH; [done|]. apply is_bytes_app. split; [done|]. by apply is_bytes_cons.
  - assert (Forall is_bytes (words fuel (drop (S n) (c :: t)) [])) as Hr by (apply IH; [by apply Forall_drop|done]). destruct word; [done|]. by apply List.Forall_cons.
Qed.
Lemma split_whitespace_bytes b : is_bytes b -> Forall is_bytes (split_whitespace b).
Proof. intros Hb. by apply words_bytes. Qed.

(** ** What the parsers of fields give *)

Lemma parse64_ok b : is_bytes b -> yields is_u64 (parse64 b).
Proof. intros Hb. apply yields_ok_or. intros n Hn. unfold parse_u64 in Hn. by apply parse_int_bound in Hn. Qed.
Lemma parse_to_ok max b : is_bytes b -> yields (fun n => 0 <= n <= max) (parse_to max b).
Proof.
  intros Hb. unfold parse_to. eapply yields_bind; [by apply parse64_ok|]. intros n Hn. apply yields_reject. intros H%Z.ltb_ge. cbn [yields]. unfold is_u64 in Hn. lia.
Qed.
Lemma parse_address_ok b : is_bytes b -> yields is_u128 (parse_address b).
Proof. intros Hb. apply yields_ok_or. intros a Ha. by eapply parse_ipv6_u128. Qed.
Lemma parse_link_ok b : yields (fun _ => True) (parse_link b).
Proof. unfold parse_link. by repeat case_match. Qed.
Lemma new_where_ok f a n : is_u128 a -> 0 <= n -> yields (fun p => prefix_wf p /\ f p = true /\ p_length p = n) (new_where f a n).
Proof.
  intros Ha Hn. unfold new_where. eapply yields_bind.
  - apply yields_ok_or. intros p Hp. assert (p_length p = n) as E by (unfold prefix_new in Hp; destruct (128 <? n); [done|by injection Hp as <-]).
    apply prefix_new_wf in Hp; [|done|done]. exact (conj Hp E).
  - intros p [Hp E]. apply yields_reject. intros H%negb_false_iff. done.
Qed.
Lemma parse_prefix_ok a n : is_bytes a -> is_bytes n -> yields prefix_wf (parse_prefix a n).
Proof.
  intros Ha Hn. unfold parse_prefix. eapply yields_bind; [by apply parse_address_ok|]. intros x Hx. eapply yields_bind; [by apply parse_to_ok|]. intros k [Hk1 Hk2].
  eapply yields_bind; [apply yields_ok_or; intros p Hp; apply prefix_new_wf in Hp; [exact Hp|done|lia]|]. intros p Hp. by apply yields_reject.
Qed.
Lemma unhex_yields b : is_bytes b -> yields is_bytes (unhex b).
Proof. intros Hb. pose proof (unhex_ok b Hb). unfold yields. by destruct (unhex b). Qed.

#[global] Instance wf_calm now : Calm now router_wf.
Proof. split; [done|]. by intros c c' _ [[H _] _]. Qed.

(** ** The lines *)

Record restored_wf (s : Restored) : Prop := {
  rs_router_wf : router_wf (rs_router s);
  rs_prefixes_wf : map_Forall (fun p _ => prefix_wf p) (rs_prefixes s);
  rs_addresses_wf : map_Forall owned_wf (rs_addresses s);
}.
Section records.
Context (version2 : bool) (now wall : Z) (Hnow : in_time now).
#[local] Abbreviation keeps := (yields restored_wf).
Lemma parse_lifetime_ok b : is_bytes b -> yields (fun _ => True) (parse_lifetime now wall b).
Proof. intros Hb. unfold parse_lifetime. eapply yields_bind; [by apply parse64_ok|]. done. Qed.
Lemma parse_origin_ok b : is_bytes b -> yields (fun _ => True) (parse_origin now wall b).
Proof. intros Hb. unfold parse_origin. destruct (beq b _); [done|]. eapply yields_bind; [by apply parse64_ok|]. done. Qed.
Lemma wf_on_router f s : restored_wf s -> router_wf (f (rs_router s)) -> restored_wf (on_router f s).
Proof. intros [H1 H2 H3] Hf. by split. Qed.
#[local] Hint Resolve parse_to_ok parse_address_ok parse_link_ok parse_prefix_ok parse_lifetime_ok parse_origin_ok unhex_yields : core.
Tactic Notation "field" ident(x) := eapply yields_bind; [solve [eauto]|]; intros x ?.

Lemma restore_on_link_ok a b c d e s : restored_wf s -> is_bytes b -> is_bytes c -> is_bytes d -> is_bytes e -> keeps (restore_on_link now wall a b c d e s).
Proof.
  intros Hs Hb Hc Hd He. unfold restore_on_link. field link. field p. field preferred. field valid. apply yields_reject. intros _. destruct (live valid now); [|done].
  apply wf_on_router; [done|]. apply (calm_insert_on_link (now:=now)); [apply Hs|done].
Qed.
Lemma restore_link_ok a b c s : restored_wf s -> is_bytes b -> is_bytes c -> keeps (restore_link now wall a b c s).
Proof.
  intros Hs Hb Hc. unfold restore_link. field link. field last. field at_. apply wf_on_router; [done|]. apply (calm_link_same (now:=now)); [apply Hs|]. intros l. by case_match.
Qed.
Lemma restore_route_ok a b c d e s : restored_wf s -> is_bytes b -> is_bytes c -> is_bytes d -> is_bytes e -> keeps (restore_route now wall a b c d e s).
Proof.
  intros Hs Hb Hc Hd He. unfold restore_route. field link. eapply yields_bind; [by apply parse_to_ok|]. intros n [Hn1 Hn2]. field x. eapply yields_bind; [by apply new_where_ok|]. intros p (Hp & _). field valid.
  eapply yields_bind; [by apply parse_to_ok|]. intros k [Hk1 Hk2]. apply yields_reject. intros [[Hk%Z.ltb_ge _]%orb_false_iff _]%orb_false_iff. destruct (negb _); [done|]. cbv zeta.
  set (s1 := on_router (set_advertised_routes _) s). assert (restored_wf s1) as Hs1.
  { apply wf_on_router; [done|]. apply (calm_advertised (now:=now)); [apply Hs|]. apply map_Forall_insert_2; [done|]. apply (rw_advertised _ (rs_router_wf _ Hs)). }
  cbn [yields]. destruct (0 <? k); [|done]. apply wf_on_router; [done|]. apply (calm_withdrawals (now:=now)); [apply Hs1|]. apply map_Forall_insert_2; [split; [done|lia]|]. apply (rw_withdrawals _ (rs_router_wf _ Hs)).
Qed.
Lemma restore_prefix64_ok a b c d e s : restored_wf s -> is_bytes a -> is_bytes b -> is_bytes d -> keeps (restore_prefix64 now wall a b c d e s).
Proof.
  intros Hs Ha Hb Hd. unfold restore_prefix64. field p. eapply (yields_bind (fun _ => True)); [unfold parse_source; by repeat case_match|]. intros source _.
  eapply (yields_bind (fun _ => True)); [unfold parse_flag; by repeat case_match|]. intros withdrawn _. field valid. destruct valid as [until|]; [|done].
  pose proof (restore_promise_ok p source until withdrawn _ (rw_nat64 _ (rs_router_wf _ Hs))) as Hr. destruct (restore_promise _ _ _ _ _) as [[u|x|] n]; [|done|done].
  apply wf_on_router; [done|]. by apply (calm_nat64 (now:=now)); [apply Hs|].
Qed.
Lemma restore_history_ok a b c s : restored_wf s -> is_bytes a -> is_bytes b -> is_bytes c -> keeps (restore_history now wall a b c s).
Proof.
  intros Hs Ha Hb Hc. unfold restore_history. field x. field valid. field count. apply yields_reject. intros _. apply wf_on_router; [done|]. by apply (calm_services (now:=now)), Hs.
Qed.
Lemma restore_address_ok a b c d e s : restored_wf s -> is_bytes b -> is_bytes c -> is_bytes d -> is_bytes e -> keeps (restore_address now a b c d e s).
Proof.
  intros Hs Hb Hc Hd He. unfold restore_address. field link. field p. field x. eapply yields_bind; [by apply parse_to_ok|]. intros k [Hk1 Hk2]. apply yields_reject.
  intros [[[_ Hk%Z.ltb_ge]%orb_false_iff _]%orb_false_iff _]%orb_false_iff. destruct Hs as [R1 R2 R3]. split; cbn; [done|done|]. apply map_Forall_insert_2; [|done].
  split; cbn; [done|lia|]. by intros q [= <-].
Qed.
Lemma restore_fallback_ok a s : restored_wf s -> is_bytes a -> keeps (restore_fallback now wall a s).
Proof. intros Hs Ha. unfold restore_fallback. case_match; [done|]. field l. by destruct Hs. Qed.
Lemma restore_pd_prefix_ok a b c d e f s : restored_wf s -> is_bytes a -> is_bytes b -> is_bytes c -> is_bytes d -> is_bytes e -> is_bytes f -> keeps (restore_pd_prefix now wall a b c d e f s).
Proof.
  intros Hs Ha Hb Hc Hd He Hf. unfold restore_pd_prefix. pose proof (ascii_bytes "64"). field p. field lease. field iaid. apply yields_reject. intros _. field at_. field last. apply yields_reject. intros _.
  destruct Hs as [R1 R2 R3]. split; cbn; [done| |done]. by apply map_Forall_insert_2.
Qed.
Lemma restore_evidence_ok a s : restored_wf s -> is_bytes a -> keeps (restore_evidence a s).
Proof.
  intros Hs Ha. unfold restore_evidence. field b. apply yields_reject. intros [[[Hk%Z.leb_gt _]%orb_false_iff _]%orb_false_iff _]%orb_false_iff. apply wf_on_router; [done|].
  destruct (rw_attachment _ (rs_router_wf _ Hs)) as [Ho _]. apply (calm_attachment (now:=now)); [apply Hs|done|]. cbn. pose proof (size_union_le (at_known (r_attachment (rs_router s))) {[b]}) as Hz.
  rewrite size_singleton in Hz. lia.
Qed.
Lemma restore_retired_ok a b c s : restored_wf s -> is_bytes b -> is_bytes c -> keeps (restore_retired version2 now wall a b c s).
Proof.
  intros Hs Hb Hc. unfold restore_retired. field link. field x. eapply yields_bind; [by apply new_where_ok|]. intros p (Hp & _). field valid. apply yields_reject. intros [Hk%Z.leb_gt _]%orb_false_iff. cbv zeta.
  set (s1 := on_router (set_retired_ulas _) s). assert (restored_wf s1) as Hs1.
  { apply wf_on_router; [done|]. destruct (rw_retired _ (rs_router_wf _ Hs)) as [R1 R2]. apply (calm_retired (now:=now)); [apply Hs|by apply map_Forall_insert_2|].
    pose proof (slen_insert_le (r_retired_ulas (rs_router s)) (link, p) valid). lia. }
  cbn [yields]. destruct (_ && _); [|done]. apply wf_on_router; [done|]. by apply (calm_insert_on_link (now:=now)); [apply Hs1|].
Qed.
Lemma restore_own_ok a b s : restored_wf s -> is_bytes b -> keeps (restore_own now wall a b s).
Proof.
  intros Hs Hb. unfold restore_own. field link. field valid. destruct (negb _); [done|]. cbv zeta. cbn [yields]. assert (restored_wf (on_router (put_on_link now (link, id_prefix (r_identity (rs_router s)) link) valid) s)) as R1.
  { apply wf_on_router; [done|]. apply (calm_insert_on_link (now:=now)); [apply Hs|]. apply id_prefix_wf, (rw_identity _ (rs_router_wf _ Hs)). }
  apply wf_on_router; [done|]. by apply (calm_link_same (now:=now)); [apply R1|].
Qed.
Lemma restore_lease_ok a b c d e f g h s : restored_wf s -> is_bytes a -> is_bytes b -> is_bytes c -> is_bytes d -> is_bytes e -> is_bytes f -> is_bytes g -> is_bytes h ->
  keeps (restore_lease now wall a b c d e f g h s).
Proof.
  intros Hs Ha Hb Hc Hd He Hf Hg Hh. unfold restore_lease. field iaid. eapply yields_bind; [by apply parse_to_ok|]. intros n [Hn1 Hn2]. field x. eapply yields_bind; [by apply new_where_ok|]. intros p (Hp & _).
  field server. field valid. field preferred. apply yields_reject. intros [[[[Hi%negb_false_iff _]%orb_false_iff _]%orb_false_iff Hk%Z.leb_gt]%orb_false_iff _]%orb_false_iff.
  destruct (negb _); [done|]. field t1. field t2. apply wf_on_router; [done|]. pose proof (rw_pd _ (rs_router_wf _ Hs)) as Hpd. apply (calm_pd (now:=now)); [apply Hs|].
  destruct (pw_leases _ Hpd) as [Hl1 Hl2]. apply with_leases; [done| |].
  - pose proof (slen_insert_le (pd_leases (r_pd (rs_router s))) (iaid, p) (mkLease (mkAssociation iaid server t1 t2) preferred valid true)). lia.
  - apply map_Forall_insert_2; [|done]. split; cbn; [|done]. split; [|done]. by apply mem_In in Hi.
Qed.
Lemma restore_record_ok fields s : restored_wf s -> Forall is_bytes fields -> keeps (restore_record version2 now wall fields s).
Proof.
  intros Hs Hf. unfold restore_record.
  repeat (match goal with |- context [match ?l with [] => _ | _ => _ end] => is_var l; destruct l as [|? ?] end; try done); rewrite ?List.Forall_cons_iff in Hf; destruct_and? Hf;
    repeat (match goal with |- context [if ?c then _ else _] => destruct c end; try done);
    first [by apply restore_fallback_ok|by apply restore_evidence_ok|by apply restore_own_ok|by apply restore_link_ok|by apply restore_history_ok|by apply restore_retired_ok|by apply restore_on_link_ok
      |by apply restore_route_ok|by apply restore_prefix64_ok|by apply restore_address_ok|by apply restore_pd_prefix_ok|by apply restore_lease_ok].
Qed.
Lemma restore_lines_ok count ls s : restored_wf s -> Forall is_bytes ls -> keeps (restore_lines version2 now wall count ls s).
Proof.
  revert count s. induction ls as [|l ls IH]; intros count s Hs Hl; [done|]. apply List.Forall_cons_iff in Hl as [Hb Hl]. cbn [restore_lines]. eapply yields_bind; [|intros s' Hs'; by apply IH].
  unfold restore_line. apply yields_reject. intros _. apply restore_record_ok; [by destruct Hs|by apply split_whitespace_bytes].
Qed.
End records.

(** ** The snapshot *)

Lemma rsplit_once_spec p b l r : rsplit_once p b = Some (l, r) -> b = l ++ p ++ r.
Proof.
  revert l r. induction b as [|x b IH]; intros l r; [done|]. cbn [rsplit_once]. destruct (rsplit_once p b) as [[l' r']|].
  - intros [= <- <-]. cbn. f_equal. by apply IH.
  - destruct (starts_with (x :: b) p) eqn:E; [|done]. intros [= <- <-]. apply starts_with_spec in E as [t Ht]. rewrite Ht. by rewrite drop_app_length.
Qed.
Lemma split_once_spec c b l r : split_once c b = Some (l, r) -> b = l ++ c :: r.
Proof.
  revert l r. induction b as [|x b IH]; intros l r; [done|]. cbn [split_once]. destruct (Z.eqb_spec x c) as [->|]; [by intros [= <- <-]|].
  destruct (split_once c b) as [[l' r']|]; [|done]. cbn. intros [= <- <-]. cbn. f_equal. by apply IH.
Qed.
Lemma open_text_ok sha1 b : is_bytes b -> yields (fun x => is_bytes x.2) (open_text sha1 b).
Proof.
  intros Hb. unfold open_text. apply yields_reject. intros _. apply yields_reject. intros _. destruct (negb _); [done|].
  eapply yields_bind; [by apply yields_ok_or; intros x Hx; exact Hx|]. intros [body foot] E%rsplit_once_spec. assert (is_bytes foot) as Hf by (rewrite E, !is_bytes_app in Hb; by destruct_and? Hb).
  eapply yields_bind; [apply yields_ok_or; intros x Hx; exact (strip_last_bytes _ _ _ Hx Hf)|]. intros foot' Hf'.
  eapply yields_bind; [by apply yields_ok_or; intros x Hx; exact Hx|]. intros [n digest] En%split_once_spec. assert (is_bytes n) as Hn by (rewrite En, is_bytes_app in Hf'; by destruct_and? Hf').
  eapply yields_bind; [by apply parse64_ok|]. intros k Hk. apply yields_reject. intros ->%negb_false_iff%Z.eqb_eq. pose proof (len_nonneg body). pose proof (len_nonneg foot).
  eapply yields_bind; [apply yields_slice; [done|lia|]|].
  - rewrite E, !len_app. change (len (10 :: ascii "Z ")) with 3. lia.
  - intros text [Ht _]. by apply yields_reject.
Qed.
Lemma identity_wf_ok i : identity_wf i -> identity_ok i.
Proof.
  intros [_ (s & Hs & Hl & E) [H1 H2] [(M1 & L1 & _) (M2 & L2 & _)] _]. destruct (site_octets_ok s Hs Hl) as (Hb & Hlen & _). split.
  - rewrite E. by apply addr6_u128.
  - unfold is_u64. lia.
  - by repeat split.
Qed.
Lemma open_snapshot_ok sha1 b : is_bytes b -> yields (fun '(_, _, identity, ls) => identity_wf identity /\ Forall is_bytes ls) (open_snapshot sha1 b).
Proof.
  intros Hb. unfold open_snapshot. eapply yields_bind; [by apply open_text_ok|]. intros [version2 text] Ht. cbn [snd] in Ht. pose proof (lines_bytes _ Ht) as Hls.
  destruct (lines text) as [|first ls]; [done|]. apply List.Forall_cons_iff in Hls as [Hfirst Hls].
  eapply (yields_bind is_bytes); [apply yields_ok_or; unfold strip_prefix; intros x; destruct (starts_with _ _); [|done]; intros [= <-]; by apply Forall_drop|]. intros saved Hsaved.
  eapply yields_bind; [by apply parse64_ok|]. intros at_ _. destruct ls as [|id ls]; [done|]. apply List.Forall_cons_iff in Hls as [Hid Hls].
  eapply yields_bind; [by apply unhex_yields|]. intros bytes Hbytes. destruct (decode_wf bytes Hbytes) as [Hs Hd].
  eapply (yields_bind identity_wf); [apply yields_of_safe; [done|]; intros i Hi; by apply Hd|]. done.
Qed.

(** ** The router *)

Section resuming.
Context {R : Type} `{Sampler R} `{!ByteSource R}.
#[local] Abbreviation gives := (gives (S:=Router) (R:=R) router_wf).
Lemma sample_fits max now (r : R) : is_u64 max -> max <= 16000 -> in_time now ->
  (exists x r', sample max r = (Ok x, r') /\ add_chk (E:=io_error) u64_max now x = Ok (now + x)) \/ exists e r', sample max r = (Err e, r').
Proof.
  intros Hm Hle Hn. pose proof (sample_safe max r Hm) as Hs. destruct (sample max r) as [[x|e|] r'] eqn:E; [left|right; by eexists _, _|by destruct Hs].
  apply sample_range in E; [|done]. exists x, r'. split; [done|]. apply add_chk_Ok. unfold in_time, longest_wait in Hn. split; [done|lia].
Qed.
Lemma new_link_safe now (r : R) : in_time now -> (new_link now r).1 <> Panic.
Proof.
  intros Hn. unfold new_link, Scheduler.new. cbv [mbind M_bind mret M_ret lift].
  destruct (sample_fits 1000 now r ltac:(u_lia) ltac:(lia) Hn) as [(x & r1 & -> & ->)|(e & r1 & ->)]; [|done].
  destruct (sample_fits 16000 now r1 ltac:(u_lia) ltac:(lia) Hn) as [(y & r2 & -> & ->)|(e & r2 & ->)]; done.
Qed.
Lemma router_new_ok identity now (r : R) : identity_ok identity -> in_time now ->
  match router_new identity now r with (Ok c, _) => router_wf c | (Err _, _) => True | (Panic, _) => False end.
Proof.
  intros Hi Hn. destruct (router_new identity now r) as [[c|e|] r'] eqn:E; [by eapply router_new_wf|done|]. revert E. unfold router_new. cbv [mbind M_bind mret M_ret lift].
  pose proof (site_local_ok (id_site identity) (iw_site _ Hi)) as Hs. unfold selector_new. destruct (site_local _) as [p|e|]; [|done|done]. cbn [mbind outcome_bind].
  pose proof (new_link_safe now r Hn) as H1. destruct (new_link now r) as [[a|e|] r1]; [|done|done].
  pose proof (new_link_safe now r1 Hn) as H2. destruct (new_link now r1) as [[a'|e|] r2]; done.
Qed.
Lemma fold_router {A} (f : Router -> A -> Router) (P : A -> Prop) l c : (forall c x, router_wf c -> P x -> router_wf (f c x)) -> router_wf c -> Forall P l -> router_wf (foldl f c l).
Proof. intros Hf Hc Hl. revert c Hc. induction Hl as [|x l Hx _ IH]; intros c Hc; [done|]. apply IH. by apply Hf. Qed.
Lemma return_prefix_ok now kv c : router_wf c -> prefix_wf kv.1 -> router_wf (return_prefix now kv c).
Proof.
  intros Hc Hk. unfold return_prefix. case_match; [|done]. apply (calm_pd_prefixes (now:=now)).
  - by apply (calm_insert_on_link (now:=now)).
  - by apply map_Forall_insert_2, (rw_pd_prefixes _ Hc).
Qed.
Lemma return_address_ok kv c : router_wf c -> owned_wf kv.1 kv.2 -> router_wf (return_address kv c).
Proof.
  intros Hc Hk. unfold return_address. case_match; [|done]. case_match; [|done]. assert (map_Forall owned_wf (<[kv.1:=kv.2]> (r_owned c))) by by apply map_Forall_insert_2, (rw_owned _ Hc).
  by replace_part.
Qed.
Lemma sorted_Forall {K A} `{Countable K} `{Ordered K} (P : K -> A -> Prop) (m : gmap K A) : map_Forall P m -> Forall (fun kv => P kv.1 kv.2) (sorted m).
Proof. intros Hm. apply List.Forall_forall. intros [k v] Hkv. apply sorted_in in Hkv. by apply Hm. Qed.
Lemma resume_gives now wall saved s c (r : R) : in_time now -> restored_wf s -> router_wf c -> gives (resume now wall saved s) (c, r) (fun _ => router_wf).
Proof.
  intros Hn Hs Hc. unfold resume. apply (gives_next (I:=router_wf)).
  - apply (gives_if (I:=router_wf)); intros _; [by apply gives_ret|]. apply (gives_next (I:=router_wf)); [by apply (refresh_pd_gives Hn)|]. intros c1 r1 H1.
    apply (gives_next (I:=router_wf)); [|intros c2 r2 H2; by apply (sync_pd_gives Hn)].
    apply (gives_if (I:=router_wf)); intros _; [|by apply gives_ret]. apply gives_update. apply (calm_pd (now:=now)); [done|]. destruct (rw_pd _ H1). by split.
  - intros c1 r1 H1. apply gives_step, gives_update. destruct Hs as [_ Hp Ha]. apply (fold_router _ (fun kv => owned_wf kv.1 kv.2)); [intros ? ? ? ?; by apply return_address_ok| |by apply sorted_Forall].
    apply (fold_router _ (fun kv => prefix_wf kv.1)); [intros ? ? ? ?; by apply return_prefix_ok|done|]. by apply (sorted_Forall (fun p _ => prefix_wf p)).
Qed.
Lemma shared_safe ls m : safe (shared ls m).
Proof. revert m. induction ls as [|[k l] ls IH]; intros m; cbn [shared]; [done|]. case_match; [case_match; [apply IH|done]|apply IH]. Qed.
Lemma restore_ok sha1 b now wall (r : R) : is_bytes b -> in_time now ->
  match restore sha1 b now wall r with (Ok c, _) => router_wf c | (Err _, _) => True | (Panic, _) => False end.
Proof.
  intros Hb Hn. unfold restore. pose proof (open_snapshot_ok sha1 b Hb) as Ho. destruct (open_snapshot sha1 b) as [[[[version2 saved] identity] ls]|e|]; [|done|done].
  destruct Ho as [Hi Hls]. cbv [mbind M_bind lift]. pose proof (router_new_ok identity now r (identity_wf_ok _ Hi) Hn) as Hr. destruct (router_new identity now r) as [[c|e|] r1]; [|done|done].
  assert (restored_wf (mkRestored c ∅ ∅ ∅ None)) as Hs by (split; cbn; [done|by apply map_Forall_empty..]).
  pose proof (restore_lines_ok version2 now (Z.max wall saved) 0 ls _ Hs Hls) as Hl. destruct (restore_lines _ _ _ _ _ _) as [s|e|]; [|done|done]. cbn [yields] in Hl.
  pose proof (shared_safe (entries (pd_leases (r_pd (rs_router s)))) ∅) as Hsh. destruct (shared _ _) as [u|e|]; [|done|by destruct Hsh]. cbv zeta. unfold run_on.
  match goal with |- context [resume now wall saved s (?c1, r1)] => assert (router_wf c1) as Hc1 end.
  { destruct (rs_fallback s); [|apply Hl]. apply (calm_pd (now:=now)); [apply Hl|]. destruct (rw_pd _ (rs_router_wf _ Hl)). by split. }
  match goal with |- context [resume now wall saved s (?c1, r1)] => pose proof (resume_gives now wall saved s c1 r1 Hn Hl Hc1) as Hg; unfold Stateful.gives in Hg; destruct (resume now wall saved s (c1, r1)) as [[v|e|] [c2 r2]] end; done.
Qed.
End resuming.

Section restart.
Context {R : Type} `{Sampler R} `{!ByteSource R} (sha1 : bytes -> bytes).
(** Whatever bytes the store holds, reading them back does not panic: they are refused, or the
    router that is restored is well formed, and over every history after the restart no
    handler panics and it stays so. *)
Theorem restore_safe b now wall (r : R) evs : is_bytes b -> in_time now -> Forall event_ok evs ->
  match restore sha1 b now wall r with
  | (Ok c, r1) => router_wf c /\ exists c' r', run_all handle evs (c, r1) = Some (c', r') /\ router_wf c'
  | (Err _, _) => True
  | (Panic, _) => False
  end.
Proof.
  intros Hb Hn Hevs. pose proof (restore_ok sha1 b now wall r Hb Hn) as Hr. destruct (restore sha1 b now wall r) as [[c|e|] r1]; [|done|done]. split; [done|]. by apply runs_wf.
Qed.
End restart.

(** ** What is written is read back *)

Lemma digits_before_word fuel radix n acc : radix = 10 \/ radix = 16 -> printable acc -> printable (digits_before fuel radix n acc).
Proof.
  intros Hr. revert n acc. induction fuel as [|fuel IH]; intros n acc Ha; [done|]. cbn [digits_before]. cbv zeta.
  assert (printable (digit (n mod radix) :: acc)) as Hd.
  { apply List.Forall_cons; [|done]. pose proof (digit_bytes (n mod radix)) as Hb. pose proof (Z.mod_pos_bound n radix). lia. }
  destruct (n <? radix); [done|by apply IH].
Qed.
Lemma digits_before_some fuel radix n acc : (fuel <> O \/ acc <> []) -> digits_before fuel radix n acc <> [].
Proof. revert n acc. induction fuel as [|fuel IH]; intros n acc Hf; cbn [digits_before]; [by destruct Hf|]. cbv zeta. destruct (n <? radix); [done|]. apply IH. by right. Qed.
Lemma number_word radix n : radix = 10 \/ radix = 16 -> is_word (number radix n).
Proof. intros Hr. split; [by apply digits_before_word, List.Forall_nil|]. apply digits_before_some. by left. Qed.
Lemma dec_word n : is_word (dec n).
Proof. apply number_word. by left. Qed.
Lemma hex_word b : is_bytes b -> b <> [] -> is_word (hex b).
Proof.
  intros Hb Hne. split; [apply List.Forall_forall; intros c Hc%hex_chars; [lia|done]|]. intros E. pose proof (len_hex b) as Hl. rewrite E in Hl. destruct b as [|x b]; [done|]. rewrite len_cons in Hl. pose proof (len_nonneg b). rewrite len_nil in Hl. lia.
Qed.
Lemma printable_app a b : printable (a ++ b) <-> printable a /\ printable b.
Proof. apply List.Forall_app. Qed.
Lemma printable_join c ps : 33 <= c <= 126 -> Forall printable ps -> printable (join c ps).
Proof.
  intros Hc. induction ps as [|p ps IH]; intros Hp; [by apply List.Forall_nil|]. apply List.Forall_cons_iff in Hp as [H1 H2]. destruct ps as [|q ps]; [done|].
  rewrite join_cons. apply printable_app. split; [done|]. apply List.Forall_cons; [done|by apply IH].
Qed.
Lemma check_printable b : forallb (fun c => (33 <=? c) && (c <=? 126)) b = true -> printable b.
Proof. intros H. apply List.Forall_forall. intros c Hc. rewrite forallb_forall in H. specialize (H c Hc). lia. Qed.
Lemma show_groups_printable gs : printable (show_groups gs).
Proof. apply printable_join; [lia|]. apply List.Forall_forall. intros w (g & <- & _)%in_map_iff. apply number_word. by right. Qed.
Lemma show_ipv6_word a : is_word (show_ipv6 a).
Proof.
  unfold show_ipv6. destruct (_ =? _).
  - split; [|done]. apply printable_app. split; [by apply check_printable|]. apply printable_join; [lia|]. apply List.Forall_forall. intros w (g & <- & _)%in_map_iff. apply dec_word.
  - destruct (zero_run _ _ _ _) as [start n]. pose proof show_groups_printable. destruct (1 <? n).
    + split; [|by destruct (show_groups _)]. rewrite !printable_app. split; [done|]. split; [by apply check_printable|done].
    + split; [done|]. unfold show_groups, groups. cbn [map]. rewrite join_cons. destruct (number 16 _) eqn:E; [|done]. by apply (number_word 16) in E; [|right].
Qed.
Lemma show_origin_word now wall o : is_word (show_origin now wall o).
Proof. destruct o; [apply dec_word|]. split; [by apply check_printable|done]. Qed.
Lemma tag_word c : 33 <= c <= 126 -> is_word [c].
Proof. intros Hc. split; [|done]. by apply List.Forall_cons. Qed.

(** Evidence and the identifiers of servers are bytes, not empty. *)
Record plain_router (r : Router) : Prop := {
  pr_evidence : forall b, b ∈ at_known (r_attachment r) -> is_bytes b /\ b <> [];
  pr_servers : map_Forall (fun _ l => is_bytes (as_server (ls_association l)) /\ as_server (ls_association l) <> []) (pd_leases (r_pd r));
}.
Ltac each_word := repeat (apply List.Forall_cons; [first [apply dec_word|apply show_ipv6_word|apply show_origin_word|by apply tag_word|assumption]|]); apply List.Forall_nil.
Lemma records_words now wall r : plain_router r -> Forall (Forall is_word) (records now wall r).
Proof.
  intros [He Hs].
  assert (forall {A} (f : A -> list bytes) (l : list A), (forall x, In x l -> Forall is_word (f x)) -> Forall (Forall is_word) (map f l)) as Hmap.
  { intros A f l Hf. apply List.Forall_forall. intros ws (x & <- & Hx)%in_map_iff. by apply Hf. }
  unfold records. rewrite !List.Forall_app. split_and!.
  - apply Hmap. intros b Hb. apply List.Forall_cons; [by apply tag_word|]. apply Forall_singleton.
    rewrite in_order_in, <-list_elem_of_In, elem_of_elements in Hb. apply He in Hb as []. by apply hex_word.
  - apply Hmap. intros kv _. each_word.
  - apply Hmap. intros kv _. each_word.
  - apply Hmap. intros kv _. each_word.
  - apply Hmap. intros kv _. each_word.
  - apply Hmap. intros [p [[source until] withdrawn]] _. each_word.
  - apply Hmap. intros kv _. each_word.
  - apply List.Forall_concat, List.Forall_forall. intros ws (kv & <- & _)%in_map_iff. unfold owned_words. case_match; [|by apply List.Forall_nil]. apply Forall_singleton.
    each_word.
  - case_match; [|by apply List.Forall_nil]. apply Forall_singleton. each_word.
  - apply Hmap. intros kv _. unfold pd_prefix_words. destruct (op_lease kv.2) as [iaid net]. each_word.
  - apply Hmap. intros [[iaid p] l] [Hin _]%filter_In. apply entries_in in Hin. destruct (Hs _ _ Hin) as [H1 H2]. pose proof (hex_word _ H1 H2).
    each_word.
Qed.

Lemma word_line w : is_word w -> is_line w.
Proof. intros [Hp _]. split; intros Hc; pose proof (Forall_In _ _ _ Hp Hc) as H; cbn in H; lia. Qed.
Lemma join_chars c ps x : In x (join c ps) -> x = c \/ exists p, In p ps /\ In x p.
Proof.
  induction ps as [|p ps IH]; [done|]. destruct ps as [|q ps]; [cbn; intros Hx; right; exists p; by split; [left|]|].
  rewrite join_cons, in_app_iff. intros [Hx|[<-|Hx]]; [right; exists p; by split; [left|]|by left|]. destruct (IH Hx) as [->|(r & Hr & Hxr)]; [by left|right; exists r; by split; [right|]].
Qed.
Lemma words_line ws : Forall is_word ws -> is_line (join 32 ws).
Proof. intros Hw. split; intros [?|(w & Hin & Hx)]%join_chars; try lia; by apply (word_line w (Forall_In _ _ _ Hw Hin)) in Hx. Qed.
Lemma is_utf8_low b : Forall (fun c => c <= 127) b -> is_utf8 b = true.
Proof. induction 1 as [|c b Hc _ IH]; [done|]. cbn [is_utf8]. by destruct (Z.leb_spec c 127); [|lia]. Qed.
Lemma rsplit_end c p b : p <> [] -> ~ In c b -> rsplit_once (c :: p) (b ++ [c]) = None.
Proof.
  intros Hp. induction b as [|x b IH]; intros Hb; cbn [app rsplit_once].
  - unfold starts_with. cbn [length take]. destruct p as [|y p]; [done|]. cbn [take beq]. by rewrite andb_false_r.
  - rewrite IH by (intros H; apply Hb; by right). unfold starts_with. cbn [length take beq]. destruct (Z.eqb_spec x c) as [->|]; [destruct Hb; by left|done].
Qed.
Lemma rsplit_ended c p l r : p <> [] -> ~ In c (p ++ r) -> rsplit_once (c :: p) (l ++ (c :: p) ++ r ++ [c]) = Some (l, r ++ [c]).
Proof.
  intros Hp Hr. induction l as [|x l IH]; cbn [app rsplit_once].
  - rewrite app_assoc, rsplit_end by done. rewrite <-app_assoc. change (c :: p ++ r ++ [c]) with ((c :: p) ++ r ++ [c]). rewrite starts_with_app. by rewrite drop_app_length.
  - cbn [app] in IH. by rewrite IH.
Qed.

Lemma parse64_dec k : is_u64 k -> parse64 (dec k) = Ok k.
Proof. intros Hk. unfold parse64, parse_u64, dec. rewrite parse_int_number; [done|by left|u_lia|u_lia]. Qed.
Section opening.
Context (sha1 : bytes -> bytes) (digest_len : forall b, len (sha1 b) = 20) (digest_bytes : forall b, is_bytes (sha1 b)).
Lemma digest_word b : is_word (hex (sha1 b)).
Proof using All. apply hex_word; [done|]. intros E. pose proof (digest_len b) as Hl. by rewrite E in Hl. Qed.
(** A text of lines under its footer. *)
Lemma open_text_footer t : let text := t ++ [10] in let b := text ++ footer sha1 text in
  starts_with text snapshot_2 = true -> Forall (fun c => c <= 127) t -> len b <= MAX_JOURNAL_BYTES -> open_text sha1 b = Ok (true, text).
Proof using All.
  cbv zeta. set (text := t ++ [10]). intros Hs Ht Hlen. pose proof (digest_word text) as Hd. pose proof (dec_word (len text)) as Hn. set (n := dec (len text)) in *. set (h := hex (sha1 text)) in *.
  assert (footer sha1 text = ascii "Z " ++ n ++ 32 :: h ++ [10]) as Ef by (unfold footer, line; cbn [join]; fold n h; by rewrite <-!app_assoc; cbn [app]; rewrite <-!app_assoc).
  assert (len text = len t + 1) as Hlt by (unfold text; by rewrite len_app). pose proof (len_nonneg t).
  assert (text ++ footer sha1 text = t ++ (10 :: ascii "Z ") ++ (n ++ 32 :: h) ++ [10]) as Eb by (rewrite Ef; unfold text; rewrite <-!app_assoc; done).
  unfold open_text. destruct (Z.ltb_spec MAX_JOURNAL_BYTES (len (text ++ footer sha1 text))); [lia|].
  assert (forall w, is_word w -> Forall (fun c => c <= 127) w) as Hlow by (intros w [Hp _]; eapply List.Forall_impl; [|exact Hp]; cbn; lia).
  rewrite is_utf8_low. 2: { rewrite Eb, !List.Forall_app. split_and!; [done|change (10 :: ascii "Z ") with [10; 90; 32]; repeat (apply List.Forall_cons; [lia|]); apply List.Forall_nil|by apply Hlow|apply List.Forall_cons; [lia|by apply Hlow]|apply Forall_singleton; lia]. }
  apply starts_with_spec in Hs as [t2 Et]. assert (starts_with (text ++ footer sha1 text) snapshot_2 = true) as -> by (rewrite Et, <-app_assoc; apply starts_with_app). cbn [negb].
  assert (~ In 10 n /\ ~ In 10 h) as [Nn Nh] by (split; [apply (word_line n Hn)|apply (word_line h Hd)]).
  rewrite Eb, rsplit_ended; [|done|]. 2: { rewrite !in_app_iff. intros [Hc|[Hc|[Hc|Hc]]]; [|done|done|done]. destruct Hc as [Hc|[Hc|Hc]]; done. }
  cbn [ok_or mbind outcome_bind]. rewrite strip_last_app. cbn [ok_or mbind outcome_bind].
  rewrite split_once_at. 2: { intros Hc. pose proof (Forall_In _ _ _ (proj1 Hn) Hc) as Hx. cbn in Hx. lia. }
  assert (len text <= u64_max) as Hmax by (unfold MAX_JOURNAL_BYTES in *; rewrite len_app in *; pose proof (len_nonneg (footer sha1 text)); u_lia).
  cbn [ok_or mbind outcome_bind]. assert (parse64 n = Ok (len text)) as -> by (apply parse64_dec; split; [lia|done]). cbn [ok_or mbind outcome_bind].
  rewrite Hlt, Z.eqb_refl. cbn [negb]. rewrite <-Hlt, <-Eb.
  assert (slice (E:=io_error) (text ++ footer sha1 text) 0 (len text) = Ok text) as -> by (apply (slice_mid [] text); [done|by rewrite len_nil]).
  cbn [mbind outcome_bind]. by rewrite beq_refl.
Qed.
Lemma id_encode_bytes i id : identity_wf i -> id_encode i = Ok id -> is_bytes id.
Proof using.
  intros Hi He. pose proof Hi as [(Ha & _ & _) (s & Hs & Hl & E) _ [(B1 & _) (B2 & _)] (B3 & _)]. rewrite (encode_run i s Hi Hs Hl E) in He. match type of He with Ok ?x = _ => assert (id = x) as -> by congruence end.
  rewrite !is_bytes_app. unfold be16, be64. split_and!; try done; try apply is_bytes_be; by apply bytes_check.
Qed.
(** The lines of a snapshot before its footer. *)
Definition snapshot_lines (id : bytes) (now wall : Z) (r : Router) : list bytes := (snapshot_2 ++ dec wall) :: hex id :: map (join 32) (records now wall r).
Lemma body_lines id now wall r : body_text now wall id r = concat (map (fun l => l ++ [10]) (snapshot_lines id now wall r)).
Proof using. unfold body_text, snapshot_lines, line. cbn [map concat join]. by rewrite map_map, <-!app_assoc. Qed.
Lemma snapshot_is_lines id now wall r : is_bytes id -> plain_router r -> Forall is_line (snapshot_lines id now wall r).
Proof using.
  intros Hb Hr. unfold snapshot_lines. apply List.Forall_cons; [|apply List.Forall_cons].
  - destruct (word_line _ (dec_word wall)) as [H1 H2]. split; intros [Hx|Hx]%in_app_iff; try done; vm_compute in Hx; destruct_or? Hx; done.
  - split; intros Hx%hex_chars; lia || done.
  - apply List.Forall_map. eapply List.Forall_impl; [|by apply (records_words now wall r)]. intros ws. apply words_line.
Qed.
Lemma snapshot_low id now wall r : is_bytes id -> plain_router r -> Forall (fun c => c <= 127) (concat (map (fun l => l ++ [10]) (snapshot_lines id now wall r))).
Proof using.
  intros Hb Hr. assert (forall w, is_word w -> Forall (fun c => c <= 127) w) as Hlow by (intros w [Hp _]; eapply List.Forall_impl; [|exact Hp]; cbn; lia).
  assert (Forall (Forall (fun c => c <= 127)) (snapshot_lines id now wall r)) as Hls.
  { apply List.Forall_cons; [|apply List.Forall_cons].
    - apply List.Forall_app. split; [|by apply Hlow, dec_word]. apply List.Forall_forall. intros c Hc. vm_compute in Hc. destruct_or? Hc; subst; lia || done.
    - apply List.Forall_forall. intros c Hc%hex_chars; [lia|done].
    - apply List.Forall_map. eapply List.Forall_impl; [|by apply (records_words now wall r)]. intros ws Hws. apply List.Forall_forall. intros c [->|(w & Hw & Hc)]%join_chars; [lia|].
      exact (Forall_In _ _ _ (Hlow w (Forall_In _ _ _ Hws Hw)) Hc). }
  apply List.Forall_concat, List.Forall_map. eapply List.Forall_impl; [|exact Hls]. intros l Hl. apply List.Forall_app. split; [done|]. apply Forall_singleton. lia.
Qed.
Lemma lines_end ls : ls <> [] -> exists t, concat (map (fun l => l ++ [10]) ls) = t ++ [10].
Proof using.
  intros Hne. destruct (List.exists_last Hne) as (ls' & l & ->). rewrite map_app, concat_app. cbn [map concat]. rewrite app_nil_r, app_assoc. by eexists.
Qed.
(** What [checkpoint] writes is read back: its footer is in order, and the time, the identity
    and every line that was written are what [restore] finds. *)
Theorem checkpoint_opens now wall r b : is_u64 wall -> identity_wf (r_identity r) -> plain_router r -> checkpoint sha1 now wall r = Ok b ->
  open_snapshot sha1 b = Ok (true, wall, r_identity r, map (join 32) (records now wall r)) /\
  map split_whitespace (map (join 32) (records now wall r)) = records now wall r.
Proof using All.
  intros Hw Hi Hr Hc. split.
  2: { rewrite map_map. etransitivity; [|apply map_id]. apply map_ext_in. intros ws Hin. apply split_join. by apply (Forall_In _ _ _ (records_words now wall r Hr)). }
  unfold checkpoint in Hc. destruct (decode_encoded _ Hi) as (id & Hid & Hd). rewrite Hid in Hc. cbn [mbind outcome_bind] in Hc.
  destruct (Z.ltb_spec MAX_JOURNAL_BYTES (len (body_text now wall id r ++ footer sha1 (body_text now wall id r)))) as [|Hlen]; [done|]. match type of Hc with Ok ?x = _ => assert (b = x) as -> by congruence end. clear Hc.
  assert (is_bytes id) as Hb by by eapply id_encode_bytes. pose proof (snapshot_low id now wall r Hb Hr) as Hlow.
  destruct (lines_end (snapshot_lines id now wall r)) as [t Et]; [done|]. rewrite body_lines in *. rewrite Et in *. apply List.Forall_app in Hlow as [Hlow _].
  unfold open_snapshot. pose proof (open_text_footer t) as Hopen. cbv zeta in Hopen. rewrite Hopen; [|rewrite <-Et; unfold snapshot_lines; cbn [map concat]; rewrite <-!app_assoc; apply starts_with_app|done|done].
  cbn [mbind outcome_bind]. rewrite <-Et, lines_ended by by apply snapshot_is_lines. unfold snapshot_lines. unfold strip_prefix, header. rewrite starts_with_app, drop_app_length. cbn [ok_or mbind outcome_bind].
  rewrite parse64_dec by done. cbn [mbind outcome_bind]. rewrite unhex_hex by done. cbn [mbind outcome_bind]. by rewrite Hd.
Qed.
End opening.

(** ** The writer of checkpoints *)

Section writing.
Context {S : Type} `{StoreLaws S} (sha1 : bytes -> bytes).
(** Once something was written, the store holds a snapshot of the payload that was. *)
Definition current (w : CheckpointWriter) (s : S) : Prop := 0 < cw_next w -> exists b, stored s = Some b /\ payload_of b = cw_payload w.
Lemma new_current s : current new_writer s.
Proof. done. Qed.
Definition anchor_of (w : CheckpointWriter) (now wall : Z) : Z * Z := default (now / 1000, wall) (cw_anchor w).
(** The wall clock, as the anchor maps the time to it. *)
Definition mapped (w : CheckpointWriter) (now wall : Z) : Z := sat64 (anchor_of w now wall).2 (sat_sub (now / 1000) (anchor_of w now wall).1).
Lemma checkpoint_safe now wall r : identity_wf (r_identity r) -> checkpoint sha1 now wall r <> Panic.
Proof. intros Hi. unfold checkpoint. destruct (decode_encoded _ Hi) as (id & -> & _). cbn [mbind outcome_bind]. by case_match. Qed.
Lemma checkpoint_some now wall r b : checkpoint sha1 now wall r = Ok b -> b <> [].
Proof.
  unfold checkpoint. destruct (id_encode _); [|done|done]. cbn [mbind outcome_bind]. case_match; [done|]. intros Hb. match type of Hb with Ok ?x = _ => assert (b = x) as -> by congruence end.
  unfold body_text. change snapshot_2 with (83 :: ascii "NAC-SNAPSHOT-2 "). done.
Qed.
(** A save that succeeds leaves the store with a snapshot of the router as it is, whether it
    wrote one now or found that the last is still true and less than five minutes old; one
    that fails leaves what was there or the whole new snapshot. Saving never panics. *)
Theorem writer_current r now wall w s : identity_wf (r_identity r) -> is_u64 now -> current w s ->
  match writer_save sha1 r now wall (w, s) with
  | (Ok _, (w', s')) => current w' s' /\ cw_anchor w' = Some (anchor_of w now wall) /\ 0 < cw_next w' /\
      exists b, checkpoint sha1 now (mapped w now wall) r = Ok b /\ cw_payload w' = payload_of b /\
        (stored s' = Some b \/ stored s' = stored s /\ now < cw_next w')
  | (Err _, (_, s')) => stored s' = stored s \/ exists b, checkpoint sha1 now (mapped w now wall) r = Ok b /\ stored s' = Some b
  | (Panic, _) => False
  end.
Proof.
  intros Hi Hn Hc. unfold writer_save. cbv [mbind M_bind gets on_fst on_snd modify lift throw mret M_ret]. cbn [fst snd]. fold (anchor_of w now wall). unfold mapped.
  destruct (anchor_of w now wall) as [at_ epoch]. cbn [fst snd cw_anchor cw_payload cw_next]. set (m := sat64 epoch (sat_sub (now / 1000) at_)).
  pose proof (checkpoint_safe now m r Hi) as Hs. pose proof (checkpoint_some now m r) as Hne. destruct (checkpoint sha1 now m r) as [b|e|]; [|by left|done].
  destruct (negb (is_utf8 b)); [by left|]. destruct (_ || _) eqn:E.
  - cbn [fst snd]. pose proof (save_law b s (Hne b eq_refl)) as Hl. destruct (save b s) as [[u|e|] s']; [| |done].
    + cbn [cw_anchor cw_payload cw_next]. assert (0 < sat64 now 300000) by (unfold sat64, sat_add, is_u64, u64_max in *; lia). split; [intros _; by exists b|]. split; [done|]. split; [done|]. exists b. split; [done|]. split; [done|]. by left.
    + destruct Hl as [Hl|Hl]; [by left|right; by exists b].
  - cbn [cw_anchor cw_payload cw_next]. apply orb_false_iff in E as [E1%negb_false_iff%beq_eq E2%Z.leb_gt]. assert (0 < cw_next w) as Hpos by (unfold is_u64 in Hn; lia). destruct (Hc Hpos) as (b0 & Hb0 & Hp0). split; [intros _; by exists b0|]. split; [done|]. split; [done|].
    exists b. split; [done|]. split; [done|]. by right.
Qed.
End writing.

(** ** A router that is written and read back *)

Definition kept_identity : Identity := Eval vm_compute in match id_decode sample_state with Ok i => i | _ => mkIdentity [] (mkPrefix 0 0) (both 0 0) (both [] []) [] end.
Definition kept_router : Router.
Proof. let st := eval vm_compute in (router_new kept_identity 0 entropy) in match st with (Ok ?c, _) => exact c end. Defined.
Lemma kept_identity_wf : identity_wf kept_identity.
Proof. apply (decode_wf sample_state sample_state_bytes). vm_compute. reflexivity. Qed.
Lemma kept_plain : plain_router kept_router.
Proof.
  split.
  - change (at_known (r_attachment kept_router)) with (∅ : gset bytes). intros b Hb. by apply elem_of_empty in Hb.
  - change (pd_leases (r_pd kept_router)) with (∅ : gmap LeaseKey Lease). apply map_Forall_empty.
Qed.
Lemma toy_digest_bytes b : is_bytes (toy_digest b).
Proof. unfold toy_digest. apply Forall_replicate. pose proof (Z.mod_pos_bound (foldr Z.add (len b) b) 256 eq_refl). u_lia. Qed.
Definition kept_snapshot : bytes := Eval vm_compute in match checkpoint toy_digest 5000 100 kept_router with Ok b => b | _ => [] end.
Lemma checkpoint_opens_witness : checkpoint toy_digest 5000 100 kept_router = Ok kept_snapshot /\
  open_snapshot toy_digest kept_snapshot = Ok (true, 100, kept_identity, [ascii "L 0 95 -"; ascii "L 1 95 -"]).
Proof.
  assert (checkpoint toy_digest 5000 100 kept_router = Ok kept_snapshot) as E by (vm_compute; reflexivity). split; [exact E|].
  rewrite (proj1 (checkpoint_opens toy_digest toy_digest_len toy_digest_bytes 5000 100 kept_router kept_snapshot ltac:(u_lia) kept_identity_wf kept_plain E)). vm_compute. reflexivity.
Defined.
Lemma restore_safe_witness : exists c r1, restore toy_digest kept_snapshot 0 200 entropy = (Ok c, r1) /\ router_wf c /\
  exists c' r', run_all handle early_events (c, r1) = Some (c', r') /\ router_wf c'.
Proof.
  assert (is_Some (match restore toy_digest kept_snapshot 0 200 entropy with (Ok c, r1) => Some (c, r1) | _ => None end)) as [[c r1] E] by (vm_compute; by eexists).
  assert (Forall event_ok early_events) as He by exact early_ok.
  pose proof (restore_safe toy_digest kept_snapshot 0 200 entropy early_events ltac:(by apply bytes_check) ltac:(split; vm_compute; congruence) He) as Hs.
  destruct (restore toy_digest kept_snapshot 0 200 entropy) as [[c1|e|] r2]; [|done|done]. injection E as -> ->. exists c, r1. destruct Hs as [Hw Hruns]. split; [done|]. split; [exact Hw|exact Hruns].
Defined.
Lemma writer_current_witness : exists w s, writer_save toy_digest kept_router 5000 100 (new_writer, mkMemoryStore None) = (Ok tt, (w, s)) /\ stored s = Some kept_snapshot /\ current w s /\
  writer_save toy_digest kept_router 5999 150 (w, s) = (Ok tt, (w, s)).
Proof.
  pose proof (writer_current toy_digest kept_router 5000 100 new_writer (mkMemoryStore None) kept_identity_wf ltac:(u_lia) (new_current _)) as Hw.
  do 2 eexists. split; [vm_compute; reflexivity|]. split; [vm_compute; reflexivity|]. split; [|vm_compute; reflexivity].
  match type of Hw with match ?x with _ => _ end => let y := eval vm_compute in x in change x with y in Hw end. exact (proj1 Hw).
Defined.
